(* ===== verification/_CoqProject ===== *)
-Q . S2P
Prelude.v
Mmu.v
Pmm.v
PmmFacts.v
PmmSpec.v
Pagecache.v
PagecacheFacts.v
Frames.v
PageTable.v
PageTableFacts.v
MemoryTheorems.v
StateMonad.v
Dlist.v
Rbtree.v
RbtreeFacts.v
RbtreeRemove.v
RbtreeTheorems.v
Hashmap.v
Bytes.v
VmArea.v
VmAreaFacts.v
Vm.v
VmPages.v
VmPageOps.v
VmOps.v
VmProtect.v
VmCow.v
VmFault.v
VmWrite.v
VmRange.v
VmBrk.v
VmFile.v
VmMove.v
VmEntry.v
VmRemap.v
VmCalls.v
VmCreate.v
VmFree.v
VmRelease.v
VmDemo.v
VmTheorems.v
PageTableTheorems.v
Siphash.v
Netbuf.v
NetbufFacts.v
NetbufOps.v
Checksum.v
NetbufTheorems.v
PktStore.v
Netqueue.v
Sockbuf.v
TcpVar.v
TcpSack.v
TcpOptions.v
TcpReass.v
Inpcb.v
InpcbFacts.v
InpcbTheorems.v
TcpCc.v
TcpConn.v
TcpConnFacts.v
TcpOutput.v
TcpSegment.v
TcpOutputFacts.v
TcpSubr.v
TcpInput.v
TcpPacket.v
TcpWire.v
TcpUsrreq.v
TcpInvariant.v
TcpSubrFacts.v
TcpInputFacts.v
TcpUsrreqFacts.v
TcpEvents.v
TcpTheorems.v
