(* ===== verification/Prelude.v ===== *)
(** * HermesOS verification library

    A model of parts of the HermesOS kernel (C, under src/src/kernel/) with the
    theorems that make them correct.  The parts fall into four groups: physical
    memory with the page cache that gives pages back, page tables and the address
    spaces of processes, the data structures the kernel shares, and the network
    stack from packet buffers to TCP.

    ** How C becomes Rocq

    - A [w]-bit integer is a [Z]; what may leave the range is followed by the
      wrap-around of the type ([u8] to [u64], [s32]).  Bytes are [Z] below 256.
    - A function that may fault (an access outside an array, to a freed or null
      object, a call of a null pointer, a panic) returns an [option]; [None] is
      the fault and no error the code handles.  Error codes are results.  So a
      theorem that a function returns [Some] is one on memory safety.
    - A loop without a structural bound takes fuel; that the fuel suffices is
      part of the theorems (the fuel is what the loop runs over: the bits of a
      bitmap, the nodes of a list or tree, the pages or ports of a range, the
      bytes left to send).
    - Memory may be refused at any allocation: the answers come from an [oracle]
      over which the theorems quantify.  Fresh memory has arbitrary contents
      ([FreshStorage]).
    - Locks are the atomicity of the operation that holds them.  Statistics
      counters and wake-ups of sleeping threads are left out.
    - Constants keep the names they have in the headers; the map from definitions
      to lines of the source does not list them one by one.
    - Code outside the model is an interface: [ip_layer] (which addresses are
      local, source selection), [route_layer] (the MTU of a route), the callbacks
      of the hash map, the table of congestion control algorithms ([cc_laws]).

    ** Physical memory

    - Mmu.v: constants and address arithmetic of hardware/memory/mmu.h.
    - Pmm.v: hardware/memory/pmm.c; [pmm] is its state (the bitmap, the share
      counts, the hints), one definition per function.  PmmSpec.v is its contract,
      an allocator that counts the owners of each page.  PmmFacts.v has the
      invariant [pmm_wf] and a lemma per operation.
    - Pagecache.v and PagecacheFacts.v: drivers/fs/pagecache/pagecache.c, the
      slots of the cached files and their reclaim when pages run out.
    - MemoryTheorems.v: the boot-time scan establishes the invariant; the
      allocator refines its contract for any sequence of operations; the page and
      the run it gives are the first that are free; the count of free pages is
      exact; a page is freed by its last owner and not before; and what happens
      when a share count saturates.

    ** Page tables and address spaces

    - Frames.v: what the two files below use of the allocator, as a class
      ([Frames]) with its contract ([FramesOk]): [held] counts the owners of a
      frame besides the page cache, [spare] the frames that can be had for sure.
      pmm.c with pagecache.c is an instance.
    - PageTable.v: hardware/memory/mmu.c on memory as frames of 512 words;
      [find_table] and [map_page_in] walk and extend the four levels, [free_vm]
      releases them.  PageTableFacts.v: [walk] and [xlate] are the tables and the
      entry of an address, [pt_wf] a page map whose tables are distinct frames.
      PageTableTheorems.v: [map_page_in] changes one translation.
    - StateMonad.v: programs over a state that can fault, and [wp], their total
      correctness.
    - VmArea.v, Vm.v: hardware/memory/vm.c as such programs.  The state is the
      address space ([vm_space]: page map, tree of areas with their records, the
      break, the queue of write backs), the machine and the answers of [malloc];
      calls into a mapped file are logged.
    - VmAreaFacts.v: the tree as a sorted list of areas ([shape]); [view] gives
      the attributes of an address, whatever the cuts between areas.
    - VmPages.v, VmPageOps.v: [pages_ok o T s]: every frame has exactly the owners
      that entries, tables ([T]), queued write backs and the others of the ledger
      [o] make.  Loops over pages, write backs, new frames and copy on write.
    - VmOps.v (mapping and unmapping), VmProtect.v, VmFault.v (faults, populating),
      VmRange.v (discarding, writing back), VmBrk.v, VmEntry.v (the entry points):
      what each operation does to views, entries and contents, and why it fails.
      [credit] is the number of requests that [malloc] will grant.  VmCow.v: pages
      of private areas that can be written are not shared.
    - VmCalls.v, VmDemo.v, VmTheorems.v: sequences of calls; a new address space is
      in order; the properties.

    ** Data structures

    - Rbtree.v, RbtreeFacts.v, RbtreeRemove.v, RbtreeTheorems.v:
      utils/rbtree/rbtree.c on a heap of nodes; a tree stands for a sequence of
      nodes and stays balanced.
    - Dlist.v: utils/queue/queue.c on a heap of nodes; it refines lists.
    - Hashmap.v: utils/list/list.c; it simulates a finite map.
    - Bytes.v, Siphash.v: byte strings, and drivers/net/core/siphash.c against
      the definition of SipHash-2-4.

    ** The network stack

    - Netbuf.v, NetbufFacts.v, NetbufOps.v, NetbufTheorems.v: packet buffers,
      drivers/net/core/netbuf.c; a packet is a list of buffers, [content] its
      bytes, and each operation is characterised on them.  Checksum.v:
      drivers/net/core/checksum.c is the Internet checksum of these bytes however
      they are cut into buffers.
    - PktStore.v, Netqueue.v, Sockbuf.v: packets linked by pointers in a store;
      drivers/net/core/netqueue.c refines a bounded FIFO, and
      drivers/net/socket/sockbuf.c a byte stream or a queue of datagrams.
    - Inpcb.v, InpcbFacts.v, InpcbTheorems.v: drivers/net/inpcb/inpcb.c, the
      table of endpoints: every history keeps it well formed, demultiplexing
      finds the best match, binding gives no port twice, and the transport
      checksum is right.

    ** TCP

    - TcpVar.v: the control block [tcpcb] and the arithmetic of sequence numbers
      ([rel base x] is the distance of [x] from [base]).  TcpSack.v, TcpOptions.v,
      TcpReass.v, TcpCc.v: the scoreboard, the options, reassembly and congestion
      control, each with its properties.
    - TcpConn.v: the state [conn] of a connection: control block, internet control
      block in its table, socket, packets sent, time, memory.  The handlers are
      programs of the state monad [M], one definition per C function: TcpOutput.v
      (tcp_output.c), TcpSubr.v (tcp_subr.c and tcp_timer.c), TcpInput.v and
      TcpPacket.v (tcp_input.c), TcpUsrreq.v (tcp_usrreq.c).  Send and receive
      buffers are byte strings here; [bf_view] relates them to Sockbuf.v.
    - TcpConnFacts.v: [wp m Q s], total correctness of a program.  TcpSegment.v and
      TcpOutputFacts.v: what tcp_output.c writes, and that its loop ends.
      TcpInvariant.v: the invariant [conn_ok], which also records the state a
      handler started from; TcpSubrFacts.v, TcpInputFacts.v and TcpUsrreqFacts.v
      take it through every handler.
    - TcpEvents.v: the events of a connection (segments, timers, messages, socket
      requests), what their callers guarantee ([enabled]), what else may change
      meanwhile ([world]), and the connections reachable by them.
    - TcpWire.v, TcpTheorems.v: no event of a reachable connection faults or runs
      for ever; its state moves along the diagram of RFC 793; its sequence numbers,
      scoreboard, send buffer and references stay consistent; [tcp_output] returns
      and sends bytes of the send buffer under their sequence numbers; a segment
      sent is accepted and read back; and how acknowledged data leaves the send
      buffer, with the defect after 2^31 bytes.

    ** What is not modelled

    The kernel heap; routes, interfaces, ARP, IP, ICMP and UDP; the socket system
    calls and blocking; file systems, processes, system calls, the terminal and the
    device drivers.  Of the memory management: the TLB and its invalidation on
    other processors, control registers and page attributes, the bitmap of MMIO
    addresses.  The moves of vm_remap, the copies of vm_clone and the release of a
    space are translated; no theorem speaks of them yet.  A TCP connection is one
    among others: what the others do to the shared table is in [world], and a
    segment is taken to reach the control block that the lookup found, although
    tcp_input.c drops its lock in between.

    This file: machine integers, bits, counting, flags, tactics, the oracle. *)

From Stdlib Require Import ZArith Lia Bool.
From stdpp Require Import base list gmap.
Local Open Scope Z_scope.

(** ** Machine integers

    An unsigned [w]-bit C integer is a [Z]; every operation that may leave the
    range is followed by the wrap-around of its type. *)

Definition wrap (w x : Z) : Z := x mod 2 ^ w.
Definition u8 (x : Z) : Z := wrap 8 x.
Definition u16 (x : Z) : Z := wrap 16 x.
Definition u32 (x : Z) : Z := wrap 32 x.
Definition u64 (x : Z) : Z := wrap 64 x.

(** The conversion of a 32-bit pattern to [int32_t]. *)
Definition s32 (x : Z) : Z :=
  let y := u32 x in if y <? 2 ^ 31 then y else y - 2 ^ 32.

Definition U64_MAX : Z := 2 ^ 64 - 1.

(** Complement at 64 bits. *)
Definition not64 (x : Z) : Z := Z.lxor x U64_MAX.

Definition is_u (w x : Z) : Prop := 0 <= x < 2 ^ w.

Declare Scope hermes_scope.
Delimit Scope hermes_scope with hermes.
Notation "x &? m" := (negb (Z.land x m =? 0))
  (at level 40, m at next level, no associativity) : hermes_scope.
Notation "x &~ m" := (Z.ldiff x m)
  (at level 40, m at next level, no associativity) : hermes_scope.

Create HintDb hermes discriminated.

Lemma wrap_small w x : is_u w x -> wrap w x = x.
Proof. intros H. apply Z.mod_small, H. Qed.

Lemma wrap_range w x : 0 <= w -> is_u w (wrap w x).
Proof. intros H. apply Z.mod_pos_bound. lia. Qed.

Lemma u8_range x : is_u 8 (u8 x).
Proof. apply wrap_range. lia. Qed.
Lemma u16_range x : is_u 16 (u16 x).
Proof. apply wrap_range. lia. Qed.
Lemma u32_range x : is_u 32 (u32 x).
Proof. apply wrap_range. lia. Qed.
Lemma u64_range x : is_u 64 (u64 x).
Proof. apply wrap_range. lia. Qed.

Lemma u64_small x : 0 <= x < 2 ^ 64 -> u64 x = x.
Proof. apply wrap_small. Qed.
Lemma u32_small x : 0 <= x < 2 ^ 32 -> u32 x = x.
Proof. apply wrap_small. Qed.
Lemma u16_small x : 0 <= x < 2 ^ 16 -> u16 x = x.
Proof. apply wrap_small. Qed.
Lemma u8_small x : 0 <= x < 2 ^ 8 -> u8 x = x.
Proof. apply wrap_small. Qed.

#[export] Hint Resolve u8_range u16_range u32_range u64_range : hermes.

(** ** Bits *)

Lemma testbit_above w x i : is_u w x -> 0 <= w <= i -> Z.testbit x i = false.
Proof.
  intros H Hi. rewrite <- (Z.mod_small x (2 ^ w)) by exact H.
  apply Z.mod_pow2_bits_high. lia.
Qed.

Lemma U64_MAX_ones : U64_MAX = Z.ones 64.
Proof. reflexivity. Qed.

Lemma not64_spec x i :
  0 <= i -> Z.testbit (not64 x) i = xorb (Z.testbit x i) (i <? 64).
Proof.
  intros Hi. unfold not64. rewrite U64_MAX_ones, Z.lxor_spec. f_equal.
  destruct (Z.ltb_spec i 64).
  - apply Z.ones_spec_low. lia.
  - apply Z.ones_spec_high. lia.
Qed.

Lemma shiftl_one_spec k i : 0 <= k -> Z.testbit (Z.shiftl 1 k) i = (i =? k).
Proof.
  intros Hk. rewrite Z.shiftl_1_l, Z.pow2_bits_eqb by lia. apply Z.eqb_sym.
Qed.

(** A single-bit mask tests exactly that bit. *)
Lemma land_bit_eqb x k : 0 <= k ->
  (Z.land x (Z.shiftl 1 k) =? 0) = negb (Z.testbit x k).
Proof.
  intros Hk. destruct (Z.testbit x k) eqn:E; simpl.
  - apply Z.eqb_neq. intros H0.
    assert (Z.testbit (Z.land x (Z.shiftl 1 k)) k = true) as Ht.
    { rewrite Z.land_spec, shiftl_one_spec, E, Z.eqb_refl by lia. done. }
    rewrite H0, Z.bits_0 in Ht. done.
  - apply Z.eqb_eq. apply Z.bits_inj'. intros i Hi.
    rewrite Z.land_spec, shiftl_one_spec, Z.bits_0 by lia.
    destruct (Z.eqb_spec i k); subst; rewrite ?E; auto using andb_false_r.
Qed.

(** Two words of the same width that agree on the bits of the width are equal. *)
Lemma is_u_bits_inj w x y : 0 <= w -> is_u w x -> is_u w y ->
  (forall i, 0 <= i < w -> Z.testbit x i = Z.testbit y i) -> x = y.
Proof.
  intros Hw Hx Hy H. apply Z.bits_inj'. intros i Hi.
  destruct (Z_lt_ge_dec i w); [apply H; lia |].
  rewrite !(testbit_above w) by (assumption || lia). done.
Qed.

Lemma is_u_lor w x y : 0 <= w -> is_u w x -> is_u w y -> is_u w (Z.lor x y).
Proof.
  intros Hw Hx Hy. assert (0 <= Z.lor x y) by (apply Z.lor_nonneg; unfold is_u in *; lia).
  split; [done |]. destruct (Z.eq_dec (Z.lor x y) 0) as [-> | Hne]; [lia |].
  apply Z.log2_lt_pow2; [lia |]. rewrite Z.log2_lor by (unfold is_u in *; lia).
  apply Z.max_lub_lt.
  - destruct (Z.eq_dec x 0) as [-> | ?]; [| apply Z.log2_lt_pow2; unfold is_u in *; lia].
    destruct (Z.eq_dec w 0) as [-> | ?]; [| simpl; lia]. unfold is_u in *.
    assert (y = 0) as -> by lia. done.
  - destruct (Z.eq_dec y 0) as [-> | ?]; [| apply Z.log2_lt_pow2; unfold is_u in *; lia].
    destruct (Z.eq_dec w 0) as [-> | ?]; [| simpl; lia]. unfold is_u in *.
    assert (x = 0) as -> by lia. done.
Qed.

(** A sum of a low part and a multiple of a power of two, bit by bit. *)
Lemma testbit_add_high m n c i : 0 <= n -> is_u n c -> 0 <= i ->
  Z.testbit (m * 2 ^ n + c) i = if i <? n then Z.testbit c i else Z.testbit m (i - n).
Proof.
  intros Hn Hc Hi. rewrite <- Z.shiftl_mul_pow2 by done.
  assert (Z.land (Z.shiftl m n) c = 0) as Hd.
  { apply Z.bits_inj'. intros j Hj. rewrite Z.land_spec, Z.bits_0.
    destruct (Z_lt_ge_dec j n).
    - rewrite Z.shiftl_spec_low by lia. done.
    - rewrite (testbit_above n c) by (done || lia). apply andb_false_r. }
  rewrite Z.add_nocarry_lxor, Z.lxor_spec by done.
  destruct (Z.ltb_spec i n).
  - rewrite Z.shiftl_spec_low by lia. done.
  - rewrite Z.shiftl_spec by lia. rewrite (testbit_above n c) by (done || lia).
    apply xorb_false_r.
Qed.

(** [x & (x - 1)] clears the lowest set bit. *)
Lemma land_pred_clears_lowest x k : 0 <= k -> Z.testbit x k = true ->
  (forall j, 0 <= j < k -> Z.testbit x j = false) ->
  forall i, 0 <= i -> Z.testbit (Z.land x (x - 1)) i = Z.testbit x i && negb (i =? k).
Proof.
  intros Hk Hset Hlow i Hi. set (m := x / 2 ^ (k + 1)).
  assert (x mod 2 ^ (k + 1) = 2 ^ k) as Hmod.
  { apply Z.bits_inj'. intros j Hj.
    rewrite Z.pow2_bits_eqb by lia. destruct (Z_lt_ge_dec j (k + 1)).
    - rewrite Z.mod_pow2_bits_low by lia. destruct (Z.eqb_spec k j) as [-> | ?]; [done |].
      apply Hlow. lia.
    - rewrite Z.mod_pow2_bits_high by lia. destruct (Z.eqb_spec k j); [lia | done]. }
  assert (2 ^ (k + 1) = 2 * 2 ^ k) as Hpow by (rewrite Z.pow_add_r; lia).
  assert (0 < 2 ^ k) by lia.
  assert (x = m * 2 ^ (k + 1) + 2 ^ k) as Hx
    by (rewrite <- Hmod; unfold m; rewrite (Z.div_mod x (2 ^ (k + 1))) at 1; lia).
  assert (x - 1 = m * 2 ^ (k + 1) + Z.ones k) as Hx1
    by (rewrite Hx, Z.ones_equiv; lia).
  rewrite Z.land_spec, Hx1. rewrite Hx at 1 2.
  rewrite !testbit_add_high by (unfold is_u; rewrite ?Z.ones_equiv; lia).
  destruct (Z.ltb_spec i (k + 1)).
  - rewrite Z.pow2_bits_eqb, Z.eqb_sym by lia. destruct (Z.eqb_spec i k) as [-> | ?]; [| done].
    rewrite Z.ones_spec_high by lia. done.
  - destruct (Z.eqb_spec i k); [lia |]. rewrite andb_true_r. apply andb_diag.
Qed.

Lemma land_le_l x y : 0 <= x -> 0 <= Z.land x y <= x.
Proof.
  intros Hx. split; [apply Z.land_nonneg; lia |].
  rewrite <- (Z.lor_ldiff_and x y) at 2.
  assert (Z.land (Z.ldiff x y) (Z.land x y) = 0) as Hd.
  { apply Z.bits_inj'. intros i Hi.
    rewrite !Z.land_spec, Z.ldiff_spec, Z.bits_0.
    destruct (Z.testbit x i), (Z.testbit y i); done. }
  rewrite <- Z.lxor_lor, <- Z.add_nocarry_lxor by done.
  assert (0 <= Z.ldiff x y) by (apply Z.ldiff_nonneg; lia). lia.
Qed.

Lemma is_u_land w x y : is_u w x -> is_u w (Z.land x y).
Proof. unfold is_u. intros H. pose proof (land_le_l x y). lia. Qed.

Lemma option_bind_Some_fun {A B} (x : A) (f : A -> option B) : Some x ≫= f = f x.
Proof. done. Qed.

(** ** Arrays indexed by a C integer

    Reading or writing outside the array has no C semantics: it is [None]. *)

Definition rd {A} (l : list A) (i : Z) : option A :=
  if i <? 0 then None else l !! Z.to_nat i.

Definition wr {A} (l : list A) (i : Z) (x : A) : option (list A) :=
  if (0 <=? i) && (i <? Z.of_nat (length l)) then Some (<[Z.to_nat i := x]> l) else None.

Section arrays.
Context {A : Type}.
Implicit Types (l : list A) (i j : Z) (x : A).

Lemma rd_is_Some l i : 0 <= i < Z.of_nat (length l) -> exists x, rd l i = Some x.
Proof.
  intros H. unfold rd. destruct (Z.ltb_spec i 0); [lia |].
  apply lookup_lt_is_Some. lia.
Qed.

Lemma rd_Some_range l i x : rd l i = Some x -> 0 <= i < Z.of_nat (length l).
Proof.
  unfold rd. destruct (Z.ltb_spec i 0); [done |]. intros H'%lookup_lt_Some. lia.
Qed.

Lemma rd_None_range l i : rd l i = None -> i < 0 \/ Z.of_nat (length l) <= i.
Proof.
  unfold rd. destruct (Z.ltb_spec i 0); [lia |]. intros H'%lookup_ge_None. lia.
Qed.

Lemma rd_Forall (P : A -> Prop) l i x : Forall P l -> rd l i = Some x -> P x.
Proof.
  intros HF. unfold rd. destruct (i <? 0); [done |].
  apply Forall_lookup_1. done.
Qed.

Lemma wr_is_Some l i x : 0 <= i < Z.of_nat (length l) ->
  wr l i x = Some (<[Z.to_nat i := x]> l).
Proof.
  intros H. unfold wr. destruct (Z.leb_spec 0 i), (Z.ltb_spec i (Z.of_nat (length l)));
    simpl; (done || lia).
Qed.

Lemma wr_Some_inv l i x l' : wr l i x = Some l' ->
  0 <= i < Z.of_nat (length l) /\ l' = <[Z.to_nat i := x]> l.
Proof.
  unfold wr. destruct (Z.leb_spec 0 i), (Z.ltb_spec i (Z.of_nat (length l)));
    simpl; intros; simplify_eq; auto with lia.
Qed.

Lemma wr_length l i x l' : wr l i x = Some l' -> length l' = length l.
Proof. intros [_ ->]%wr_Some_inv. apply length_insert. Qed.

Lemma rd_wr l i x l' j : wr l i x = Some l' ->
  rd l' j = if j =? i then Some x else rd l j.
Proof.
  intros [Hi ->]%wr_Some_inv. unfold rd.
  destruct (Z.ltb_spec j 0), (Z.eqb_spec j i); try done; try lia.
  - subst. apply list_lookup_insert_eq. lia.
  - apply list_lookup_insert_ne. lia.
Qed.

Lemma wr_Forall (P : A -> Prop) l i x l' :
  Forall P l -> P x -> wr l i x = Some l' -> Forall P l'.
Proof. intros HF Hx [_ ->]%wr_Some_inv. by apply Forall_insert. Qed.
End arrays.

(** ** Counting

    [zcount f n i] is the number of [j] with [i <= j < i + n] and [f j]. *)

Fixpoint zcount (f : Z -> bool) (n : nat) (i : Z) : Z :=
  match n with
  | O => 0
  | S n' => (if f i then 1 else 0) + zcount f n' (i + 1)
  end.

Lemma zcount_bounds f n i : 0 <= zcount f n i <= Z.of_nat n.
Proof.
  revert i. induction n as [| n IH]; intros i; cbn [zcount]; [lia |].
  specialize (IH (i + 1)). destruct (f i); lia.
Qed.

Lemma zcount_ext f g n i :
  (forall j, i <= j < i + Z.of_nat n -> f j = g j) -> zcount f n i = zcount g n i.
Proof.
  revert i. induction n as [| n IH]; intros i H; cbn [zcount]; [done |].
  rewrite (H i), (IH (i + 1)) by (intros; lia || apply H; lia). done.
Qed.

Lemma zcount_mono f g n i : (forall j, f j = true -> g j = true) -> zcount f n i <= zcount g n i.
Proof.
  intros H. revert i. induction n as [| n IH]; intros i; simpl; [lia |]. specialize (IH (i + 1)).
  destruct (f i) eqn:E; [rewrite (H i E); lia |]. destruct (g i); lia.
Qed.

Lemma zcount_shift f n i k : zcount f n (i + k) = zcount (fun j => f (j + k)) n i.
Proof.
  revert i. induction n as [| n IH]; intros i; cbn [zcount]; [done |].
  rewrite <- IH. replace (i + k + 1) with (i + 1 + k) by lia. done.
Qed.

Lemma zcount_app f n m i : zcount f (n + m) i = zcount f n i + zcount f m (i + Z.of_nat n).
Proof.
  revert i. induction n as [| n IH]; intros i; cbn [zcount Nat.add];
    [rewrite Z.add_0_r; lia |].
  rewrite IH. replace (i + Z.of_nat (S n)) with (i + 1 + Z.of_nat n) by lia. lia.
Qed.

(** Removing one counted index takes one off the count. *)
Lemma zcount_remove f g n i k : i <= k < i + Z.of_nat n -> f k = true ->
  (forall j, g j = f j && negb (j =? k)) -> zcount f n i = zcount g n i + 1.
Proof.
  intros Hk Hf Hg. revert i Hk. induction n as [| n IH]; intros i Hk; cbn [zcount]; [lia |].
  rewrite (Hg i). destruct (Z.eqb_spec i k) as [-> | Hne].
  - rewrite Hf. simpl. rewrite (zcount_ext g f); [lia |].
    intros j Hj. rewrite Hg. destruct (Z.eqb_spec j k); [lia | by rewrite andb_true_r].
  - rewrite andb_true_r, (IH (i + 1)) by lia. lia.
Qed.

Lemma zcount_zero f n i :
  zcount f n i = 0 <-> forall j, i <= j < i + Z.of_nat n -> f j = false.
Proof.
  revert i. induction n as [| n IH]; intros i; cbn [zcount]; [split; [intros; lia | done] |].
  pose proof (zcount_bounds f n (i + 1)). split.
  - intros H0 j Hj. destruct (f i) eqn:E; [lia |].
    destruct (Z.eq_dec j i) as [-> | ?]; [done |]. apply (IH (i + 1)); lia.
  - intros H0. rewrite (H0 i) by lia. apply (IH (i + 1)). intros; apply H0; lia.
Qed.

Lemma zcount_pos f n i : 0 < zcount f n i ->
  exists j, i <= j < i + Z.of_nat n /\ f j = true.
Proof.
  revert i. induction n as [| n IH]; intros i; cbn [zcount]; [lia |].
  destruct (f i) eqn:E; [intros _; exists i; split; [lia | done] |].
  intros H. destruct (IH (i + 1)) as (j & Hj & Hf); [lia |]. exists j. split; [lia | done].
Qed.

Lemma nonzero_has_bit w x : is_u (Z.of_nat w) x -> x <> 0 ->
  exists i, 0 <= i < Z.of_nat w /\ Z.testbit x i = true.
Proof.
  intros Hx Hne. pose proof (zcount_bounds (Z.testbit x) w 0).
  destruct (Z.eq_dec (zcount (Z.testbit x) w 0) 0) as [H0 | H0]; [| apply (zcount_pos _ w 0); lia].
  destruct Hne. apply (is_u_bits_inj (Z.of_nat w)); [lia | done | unfold is_u; lia |].
  intros i Hi. rewrite Z.bits_0. apply (proj1 (zcount_zero _ w 0) H0). lia.
Qed.

Arguments zcount : simpl never.

(** ** Flags *)

Section flags.
Local Open Scope hermes_scope.

Lemma flag_lor f x bit : (x &? bit) = true -> (Z.lor f x &? bit) = true.
Proof.
  intros H. apply negb_true_iff, Z.eqb_neq in H. apply negb_true_iff, Z.eqb_neq. intros E. apply H.
  rewrite Z.land_lor_distr_l in E. by apply Z.lor_eq_0_iff in E as [_ ?].
Qed.

Lemma flag_lor_other f x bit : Z.land x bit = 0 -> (Z.lor f x &? bit) = (f &? bit).
Proof. intros H. unfold negb. by rewrite Z.land_lor_distr_l, H, Z.lor_0_r. Qed.
Lemma flag_ldiff_other f x bit : Z.land x bit = 0 -> (f &~ x &? bit) = (f &? bit).
Proof.
  intros H. f_equal. f_equal. apply Z.bits_inj'. intros i Hi. rewrite !Z.land_spec, Z.ldiff_spec.
  apply (f_equal (fun x => Z.testbit x i)) in H. rewrite Z.land_spec, Z.bits_0 in H.
  by destruct (Z.testbit f i), (Z.testbit x i), (Z.testbit bit i).
Qed.
Lemma ldiff_clears f bit : (f &~ bit &? bit) = false.
Proof.
  apply negb_false_iff, Z.eqb_eq. apply Z.bits_inj'. intros i Hi.
  rewrite Z.land_spec, Z.ldiff_spec, Z.bits_0. by destruct (Z.testbit f i), (Z.testbit bit i).
Qed.
End flags.

(** ** Proof automation *)

(** Split on the boolean comparison of the goal or of a hypothesis and let
    [lia] discharge the impossible cases. *)
Ltac zcase :=
  match goal with
  | |- context [?a <? ?b] => destruct (Z.ltb_spec a b)
  | |- context [?a <=? ?b] => destruct (Z.leb_spec a b)
  | |- context [?a =? ?b] => destruct (Z.eqb_spec a b)
  | H : context [?a <? ?b] |- _ => destruct (Z.ltb_spec a b)
  | H : context [?a <=? ?b] |- _ => destruct (Z.leb_spec a b)
  | H : context [?a =? ?b] |- _ => destruct (Z.eqb_spec a b)
  end.

Ltac zcases := repeat (zcase; simpl in *; try lia).

(** Take an equation between option binds apart. *)
Ltac obind :=
  repeat match goal with
  | H : (mbind _ _) = Some _ |- _ =>
      apply bind_Some in H as (? & ? & ?)
  | H : Some _ = Some _ |- _ => injection H as H; try subst
  | H : (_, _) = (_, _) |- _ => injection H as ?; try subst
  | H : None = Some _ |- _ => discriminate H
  end.

(** ** Allocation

    [malloc] may fail at any call.  Its answers are an oracle, a list of
    booleans consumed one per call; an exhausted oracle refuses.  A theorem
    quantified over the oracle therefore covers every pattern of failures. *)

Definition oracle := list bool.

Definition ask (o : oracle) : bool * oracle :=
  match o with
  | [] => (false, [])
  | b :: o' => (b, o')
  end.
