(* ===== verification/Mmu.v ===== *)
(** * Paging constants and address arithmetic

    The constants and the inline functions of
    src/src/kernel/hardware/memory/mmu.h that the physical page allocator and
    the address spaces share. *)

From Stdlib Require Import ZArith Lia.
From stdpp Require Import base list.
From S2P Require Import Prelude.
Local Open Scope Z_scope.

Definition MMU_PRESENT : Z := 0x001.
Definition MMU_WRITABLE : Z := 0x002.
Definition MMU_USER : Z := 0x004.

Definition IDENTITY_MAP_SIZE : Z := 0x40000000.
Definition PAGE_SIZE : Z := 0x1000.
Definition PAGE_MASK : Z := not64 (PAGE_SIZE - 1).
Definition PAGE_ALIGN_UP (x : Z) : Z :=
  Z.land (u64 (u64 x + PAGE_SIZE - 1)) PAGE_MASK.
Definition DIRECT_MAP_BASE : Z := 0xFFFF800000000000.

(** [phys_to_virt] and [virt_to_phys]; the offset is the global
    [direct_map_offset] of mmu.c, zero until the direct map is built. *)
Definition phys_to_virt (direct_map_offset phys : Z) : Z :=
  u64 (phys + direct_map_offset).
Definition virt_to_phys (virt : Z) : Z :=
  if DIRECT_MAP_BASE <=? virt then virt - DIRECT_MAP_BASE else virt.

(** ** Alignment *)

Lemma land_page_mask x : is_u 64 x -> Z.land x PAGE_MASK = x / PAGE_SIZE * PAGE_SIZE.
Proof.
  intros Hx. change PAGE_SIZE with (2 ^ 12).
  rewrite <- Z.shiftr_div_pow2, <- Z.shiftl_mul_pow2 by lia.
  rewrite <- Z.ldiff_ones_r by lia.
  apply (is_u_bits_inj 64); [lia | by apply is_u_land | |].
  - rewrite Z.ldiff_ones_r, Z.shiftl_mul_pow2, Z.shiftr_div_pow2 by lia.
    unfold is_u in *. pose proof (Z.div_mod x (2 ^ 12)). 
    pose proof (Z.mod_pos_bound x (2 ^ 12)). nia.
  - intros i Hi. rewrite Z.land_spec, Z.ldiff_spec. f_equal.
    unfold PAGE_MASK. rewrite not64_spec by lia.
    change (PAGE_SIZE - 1) with (Z.ones 12).
    destruct (Z.ltb_spec i 64); [| lia].
    destruct (Z.testbit (Z.ones 12) i); done.
Qed.

Lemma PAGE_ALIGN_UP_eq x : 0 <= x <= 2 ^ 64 - PAGE_SIZE ->
  PAGE_ALIGN_UP x = (x + (PAGE_SIZE - 1)) / PAGE_SIZE * PAGE_SIZE.
Proof.
  intros Hx. unfold PAGE_ALIGN_UP. rewrite (u64_small x) by (unfold PAGE_SIZE in *; lia).
  rewrite u64_small by (unfold PAGE_SIZE in *; lia).
  rewrite land_page_mask by (unfold is_u, PAGE_SIZE in *; lia). do 2 f_equal. lia.
Qed.

Lemma PAGE_ALIGN_UP_bounds x : 0 <= x <= 2 ^ 64 - PAGE_SIZE ->
  x <= PAGE_ALIGN_UP x < x + PAGE_SIZE /\ PAGE_ALIGN_UP x mod PAGE_SIZE = 0.
Proof.
  intros Hx. rewrite PAGE_ALIGN_UP_eq by done. split.
  - pose proof (Z.div_mod (x + (PAGE_SIZE - 1)) PAGE_SIZE ltac:(unfold PAGE_SIZE; lia)).
    pose proof (Z.mod_pos_bound (x + (PAGE_SIZE - 1)) PAGE_SIZE ltac:(unfold PAGE_SIZE; lia)).
    unfold PAGE_SIZE in *. lia.
  - apply Z.mod_mul. unfold PAGE_SIZE; lia.
Qed.

(** An aligned address is aligned up to itself. *)
Lemma PAGE_ALIGN_UP_aligned x : 0 <= x <= 2 ^ 64 - PAGE_SIZE -> x mod PAGE_SIZE = 0 ->
  PAGE_ALIGN_UP x = x.
Proof.
  intros Hx Hm. pose proof (PAGE_ALIGN_UP_bounds x Hx) as [Hb Ha].
  apply Z.div_exact in Hm, Ha; unfold PAGE_SIZE in *; lia.
Qed.

(** The direct map is a round trip on physical addresses. *)
Lemma virt_to_phys_to_virt phys :
  0 <= phys < 2 ^ 64 - DIRECT_MAP_BASE ->
  virt_to_phys (phys_to_virt DIRECT_MAP_BASE phys) = phys.
Proof.
  intros H. unfold phys_to_virt. rewrite u64_small by (unfold DIRECT_MAP_BASE in *; lia).
  unfold virt_to_phys. zcases.
Qed.
