(* ===== verification/Pmm.v ===== *)
(** * The physical page allocator

    src/src/kernel/hardware/memory/pmm.c: a bitmap with one bit per physical
    page (set = taken), a table of extra owners per page, and two scan hints,
    one for the memory below 4 GiB and one for the memory above.

    The functions run under [pmm_lock], so each is one step.  Array accesses
    go through [rd] and [wr]: a result [None] is an access outside the bitmap
    or the owner table, and the theorems show there is none.  A page address
    is a [Z] and [nullptr] is 0, as in the C code. *)

From Stdlib Require Import ZArith Lia Bool.
From stdpp Require Import base list option.
From S2P Require Import Prelude Mmu.
Local Open Scope Z_scope.

Definition MAX_MEMORY_REGIONS : Z := 64.
Definition MEMORY_AVAILABLE : Z := 1.

Record memory_region := MemoryRegion {
  mr_addr : Z;
  mr_length : Z;
  mr_type : Z;
}.

Record multiboot_info := MultibootInfo {
  regions : list memory_region;
  region_count : Z;
}.

Definition BOOT_WORDS : Z := IDENTITY_MAP_SIZE / PAGE_SIZE / 64.
Definition LOW_WORDS : Z := 0x100000000 / PAGE_SIZE / 64.
Definition RECLAIM_BATCH : Z := 256.

(** The static variables of pmm.c, and [direct_map_offset] of mmu.c. *)
Record pmm := Pmm {
  physical_pages : list Z;
  shared_refs : list Z;
  total_pages : Z;
  total_words : Z;
  low_words : Z;
  boot_words : Z;
  usable_pages : Z;
  low_hint : Z;
  high_hint : Z;
  usable : list memory_region;
  direct_map_offset : Z;
}.

Definition set_bitmap (bm : list Z) (st : pmm) : pmm :=
  Pmm bm (shared_refs st) (total_pages st) (total_words st) (low_words st) (boot_words st)
      (usable_pages st) (low_hint st) (high_hint st) (usable st) (direct_map_offset st).
Definition set_shared_refs (refs : list Z) (st : pmm) : pmm :=
  Pmm (physical_pages st) refs (total_pages st) (total_words st) (low_words st) (boot_words st)
      (usable_pages st) (low_hint st) (high_hint st) (usable st) (direct_map_offset st).
Definition set_low_hint (h : Z) (st : pmm) : pmm :=
  Pmm (physical_pages st) (shared_refs st) (total_pages st) (total_words st) (low_words st)
      (boot_words st) (usable_pages st) h (high_hint st) (usable st) (direct_map_offset st).
Definition set_high_hint (h : Z) (st : pmm) : pmm :=
  Pmm (physical_pages st) (shared_refs st) (total_pages st) (total_words st) (low_words st)
      (boot_words st) (usable_pages st) (low_hint st) h (usable st) (direct_map_offset st).
Definition set_direct_map_offset (o : Z) (st : pmm) : pmm :=
  Pmm (physical_pages st) (shared_refs st) (total_pages st) (total_words st) (low_words st)
      (boot_words st) (usable_pages st) (low_hint st) (high_hint st) (usable st) o.

(** ** The bitmap macros *)

Definition BITMAP_INDEX (page : Z) : Z := page / 64.
Definition BITMAP_OFFSET (page : Z) : Z := page mod 64.

Definition SET_BIT (bm : list Z) (page : Z) : option (list Z) :=
  w ← rd bm (BITMAP_INDEX page);
  wr bm (BITMAP_INDEX page) (Z.lor w (Z.shiftl 1 (BITMAP_OFFSET page))).
Definition CLEAR_BIT (bm : list Z) (page : Z) : option (list Z) :=
  w ← rd bm (BITMAP_INDEX page);
  wr bm (BITMAP_INDEX page) (Z.land w (not64 (Z.shiftl 1 (BITMAP_OFFSET page)))).
Definition TEST_BIT (bm : list Z) (page : Z) : option bool :=
  w ← rd bm (BITMAP_INDEX page);
  Some (negb (Z.land w (Z.shiftl 1 (BITMAP_OFFSET page)) =? 0)).

(** [__builtin_ctzll]: the index of the lowest set bit of a nonzero word. *)
Fixpoint ctz_from (n : nat) (i x : Z) : Z :=
  match n with
  | O => i
  | S n' => if Z.testbit x i then i else ctz_from n' (i + 1) x
  end.
Definition ctzll (x : Z) : Z := ctz_from 64 0 x.

(** ** Initialisation *)

Fixpoint place_metadata (usable : list memory_region) (kernel_end size : Z) : Z :=
  match usable with
  | [] => 0
  | r :: rest =>
      let start := PAGE_ALIGN_UP (mr_addr r) in
      let end_ := u64 (mr_addr r + mr_length r) in
      let start := if start <? kernel_end then kernel_end else start in
      let end_ := if IDENTITY_MAP_SIZE <? end_ then IDENTITY_MAP_SIZE else end_ in
      if u64 (start + size) <=? end_ then start
      else place_metadata rest kernel_end size
  end.

(** The first loop of [pmm_initialize]: the available regions and the end of
    the highest one; [n] iterations from index [i]. *)
Fixpoint collect_regions (n : nat) (i : Z) (rs us : list memory_region) (limit : Z)
  : option (list memory_region * Z) :=
  match n with
  | O => Some (us, limit)
  | S n' =>
      mmap ← rd rs i;
      if negb (mr_type mmap =? MEMORY_AVAILABLE) then collect_regions n' (i + 1) rs us limit
      else
        let end_ := Z.land (u64 (mr_addr mmap + mr_length mmap)) PAGE_MASK in
        collect_regions n' (i + 1) rs (us ++ [mmap]) (if limit <? end_ then end_ else limit)
  end.

(** The inner loop of [pmm_initialize]: release the pages of one region. *)
Fixpoint release_region (fuel : nat) (addr end_ kernel_end meta meta_size : Z)
    (bm : list Z) (count : Z) : option (list Z * Z) :=
  match fuel with
  | O => None
  | S fuel' =>
      if negb (u64 (addr + PAGE_SIZE) <=? end_) then Some (bm, count)
      else
        let next := u64 (addr + PAGE_SIZE) in
        if (addr <? kernel_end) || ((meta <=? addr) && (addr <? u64 (meta + meta_size)))
        then release_region fuel' next end_ kernel_end meta meta_size bm count
        else
          taken ← TEST_BIT bm (addr / PAGE_SIZE);
          if negb taken
          then release_region fuel' next end_ kernel_end meta meta_size bm count
          else
            bm' ← CLEAR_BIT bm (addr / PAGE_SIZE);
            release_region fuel' next end_ kernel_end meta meta_size bm' (count + 1)
  end.

(** An iteration advances by a page, so a region whose end is [end_] takes at
    most [end_ / PAGE_SIZE] of them, plus the final test. *)
Definition region_fuel (end_ : Z) : nat := S (Z.to_nat (end_ / PAGE_SIZE)).

Fixpoint release_regions (us : list memory_region) (kernel_end meta meta_size : Z)
    (bm : list Z) (count : Z) : option (list Z * Z) :=
  match us with
  | [] => Some (bm, count)
  | r :: rest =>
      let start := PAGE_ALIGN_UP (mr_addr r) in
      let end_ := u64 (mr_addr r + mr_length r) in
      '(bm', count') ←
        release_region (region_fuel end_) start end_ kernel_end meta meta_size bm count;
      release_regions rest kernel_end meta meta_size bm' count'
  end.

(** [pmm_initialize]; [kernel_virtual_end] is the address of the linker symbol
    [_kernel_virtual_end].  [Some None] is the [panic] for want of room for the
    bitmap. *)
Definition pmm_initialize (kernel_virtual_end : Z) (mb_info : multiboot_info)
  : option (option pmm) :=
  let kernel_end := PAGE_ALIGN_UP (kernel_virtual_end + 2048) in
  let n := Z.to_nat (Z.min (region_count mb_info) MAX_MEMORY_REGIONS) in
  '(us, limit) ← collect_regions n 0 (regions mb_info) [] 0;
  let tp := limit / PAGE_SIZE in
  let tw := (tp + 63) / 64 in
  let lw := if tw <? LOW_WORDS then tw else LOW_WORDS in
  let bw := if tw <? BOOT_WORDS then tw else BOOT_WORDS in
  let meta_size := PAGE_ALIGN_UP (tw * 8 + tp * 2) in
  let meta := place_metadata us kernel_end meta_size in
  if meta =? 0 then Some None
  else
    '(bm, count) ← release_regions us kernel_end meta meta_size
                     (replicate (Z.to_nat tw) U64_MAX) 0;
    Some (Some (Pmm bm (replicate (Z.to_nat tp) 0) tp tw lw bw count 0 lw us 0)).

(** ** Single pages *)

(** The loop of [take_page_locked] from [word], [n] words left: the word and
    the page taken, and the bitmap. *)
Fixpoint take_page_loop (n : nat) (bm : list Z) (word : Z)
  : option (option (Z * Z * list Z)) :=
  match n with
  | O => Some None
  | S n' =>
      w ← rd bm word;
      if w =? U64_MAX then take_page_loop n' bm (word + 1)
      else
        let page := word * 64 + ctzll (not64 w) in
        bm' ← SET_BIT bm page;
        Some (Some (word, page, bm'))
  end.

(** Returns the page address, the new hint and the new bitmap. *)
Definition take_page_locked (bm : list Z) (last_word hint : Z) : option (Z * Z * list Z) :=
  r ← take_page_loop (Z.to_nat (last_word - hint)) bm hint;
  Some match r with
  | Some (word, page, bm') => (page * PAGE_SIZE, word, bm')
  | None => (0, last_word, bm)
  end.

Definition direct_map_ready (st : pmm) : bool := negb (direct_map_offset st =? 0).

Definition take_page (st : pmm) : option (Z * pmm) :=
  if direct_map_ready st then
    '(page, hint, bm) ← take_page_locked (physical_pages st) (total_words st) (high_hint st);
    let st := set_high_hint hint (set_bitmap bm st) in
    if negb (page =? 0) then Some (page, st)
    else
      '(page, hint, bm) ← take_page_locked (physical_pages st) (low_words st) (low_hint st);
      Some (page, set_low_hint hint (set_bitmap bm st))
  else
    '(page, hint, bm) ← take_page_locked (physical_pages st) (boot_words st) (low_hint st);
    Some (page, set_low_hint hint (set_bitmap bm st)).

Definition free_page_locked (page : Z) (st : pmm) : option pmm :=
  let addr := page / PAGE_SIZE in
  if negb (addr =? 0) && (addr <? total_pages st) then
    refs ← rd (shared_refs st) addr;
    if negb (refs =? 0) then
      rs ← wr (shared_refs st) addr (refs - 1);
      Some (set_shared_refs rs st)
    else
      bm ← CLEAR_BIT (physical_pages st) addr;
      let st := set_bitmap bm st in
      if BITMAP_INDEX addr <? low_words st then
        Some (if BITMAP_INDEX addr <? low_hint st
              then set_low_hint (BITMAP_INDEX addr) st else st)
      else
        Some (if BITMAP_INDEX addr <? high_hint st
              then set_high_hint (BITMAP_INDEX addr) st else st)
  else Some st.

Definition pmm_share_page (page : Z) (st : pmm) : option pmm :=
  let addr := page / PAGE_SIZE in
  if addr <? total_pages st then
    refs ← rd (shared_refs st) addr;
    if refs <? 0xFFFF then
      rs ← wr (shared_refs st) addr (refs + 1);
      Some (set_shared_refs rs st)
    else Some st
  else Some st.

Definition pmm_page_shared (page : Z) (st : pmm) : option bool :=
  let addr := page / PAGE_SIZE in
  if addr <? total_pages st then
    refs ← rd (shared_refs st) addr;
    Some (negb (refs =? 0))
  else Some false.

(** ** Runs of pages *)

(** The search loop of [take_pages]: the last page of the first run of [count]
    free pages, [n] pages left from [page]. *)
Fixpoint take_pages_loop (n : nat) (bm : list Z) (page run count : Z) : option (option Z) :=
  match n with
  | O => Some None
  | S n' =>
      taken ← TEST_BIT bm page;
      let run := if taken : bool then 0 else run + 1 in
      if run =? count then Some (Some page)
      else take_pages_loop n' bm (page + 1) run count
  end.

Fixpoint set_bits (n : nat) (bm : list Z) (i : Z) : option (list Z) :=
  match n with
  | O => Some bm
  | S n' => bm' ← SET_BIT bm i; set_bits n' bm' (i + 1)
  end.

Definition take_pages (count : Z) (st : pmm) : option (Z * pmm) :=
  let last := (if direct_map_ready st then total_words st else boot_words st) * 64 in
  let page0 := low_hint st * 64 in
  r ← take_pages_loop (Z.to_nat (last - page0)) (physical_pages st) page0 0 count;
  match r with
  | Some page =>
      let first := page + 1 - count in
      bm ← set_bits (Z.to_nat (page + 1 - first)) (physical_pages st) first;
      Some (first * PAGE_SIZE, set_bitmap bm st)
  | None => Some (0, st)
  end.

(** The loop of [free_physical_pages], [n] pages left, index [i]. *)
Fixpoint free_pages_loop (n : nat) (first i : Z) (st : pmm) : option pmm :=
  match n with
  | O => Some st
  | S n' =>
      st' ← free_page_locked (u64 (first + i * PAGE_SIZE)) st;
      free_pages_loop n' first (i + 1) st'
  end.

Definition free_physical_pages (first count : Z) (st : pmm) : option pmm :=
  free_pages_loop (Z.to_nat count) first 0 st.

Definition free_physical_page (page : Z) (st : pmm) : option pmm :=
  free_physical_pages page 1 st.

(** ** Accounting *)

(** [for (bits = ~w; bits; bits &= bits - 1) free++]; a round clears the lowest
    set bit, so 64 rounds are enough. *)
Fixpoint count_bits (fuel : nat) (bits free : Z) : option Z :=
  if bits =? 0 then Some free
  else match fuel with
       | O => None
       | S fuel' => count_bits fuel' (Z.land bits (u64 (bits - 1))) (free + 1)
       end.

Fixpoint free_pages_words (n : nat) (bm : list Z) (word free : Z) : option Z :=
  match n with
  | O => Some free
  | S n' =>
      w ← rd bm word;
      free' ← count_bits 64 (not64 w) free;
      free_pages_words n' bm (word + 1) free'
  end.

Definition pmm_free_pages (st : pmm) : option Z :=
  free_pages_words (Z.to_nat (total_words st)) (physical_pages st) 0 0.

Definition pmm_total_pages (st : pmm) : Z := usable_pages st.
Definition pmm_usable_regions (st : pmm) : list memory_region := usable st.

(** ** Allocation with reclaim

    When no page is left the allocator asks the page cache (pagecache.c) for
    some and tries once more.  [C] is the state of the caches. *)

Class Reclaimer (C : Type) :=
  pcache_reclaim_op : Z -> C -> pmm -> option (Z * C * pmm).

Section alloc.
Context {C : Type} `{!Reclaimer C}.

Definition alloc_physical_page (c : C) (st : pmm) : option (Z * C * pmm) :=
  '(page, st) ← take_page st;
  if page =? 0 then
    '(freed, c, st) ← pcache_reclaim_op RECLAIM_BATCH c st;
    if negb (freed =? 0) then
      '(page, st) ← take_page st;
      Some (page, c, st)
    else Some (page, c, st)
  else Some (page, c, st).

Definition alloc_physical_pages (count : Z) (c : C) (st : pmm) : option (Z * C * pmm) :=
  if count =? 0 then Some (0, c, st)
  else
    '(first, st) ← take_pages count st;
    if first =? 0 then
      '(freed, c, st) ← pcache_reclaim_op (RECLAIM_BATCH + count) c st;
      if negb (freed =? 0) then
        '(first, st) ← take_pages count st;
        Some (first, c, st)
      else Some (first, c, st)
    else Some (first, c, st).

Definition alloc_kernel_page (c : C) (st : pmm) : option (Z * C * pmm) :=
  '(page, c, st) ← alloc_physical_page c st;
  Some (if negb (page =? 0) then phys_to_virt (direct_map_offset st) page else 0, c, st).

Definition alloc_kernel_pages (count : Z) (c : C) (st : pmm) : option (Z * C * pmm) :=
  '(first, c, st) ← alloc_physical_pages count c st;
  Some (if negb (first =? 0) then phys_to_virt (direct_map_offset st) first else 0, c, st).

End alloc.

Definition free_kernel_page (page : Z) (st : pmm) : option pmm :=
  free_physical_page (virt_to_phys page) st.

Definition free_kernel_pages (first count : Z) (st : pmm) : option pmm :=
  free_physical_pages (virt_to_phys first) count st.
