(* ===== verification/PmmFacts.v ===== *)
(** * Correctness of the physical page allocator *)

From Stdlib Require Import ZArith Lia Bool.
From stdpp Require Import base list option.
From S2P Require Import Prelude Mmu Pmm.
Local Open Scope Z_scope.

(** ** The bitmap as a predicate on pages *)

Definition bm_free (bm : list Z) (page : Z) : bool :=
  match rd bm (page / 64) with
  | Some w => negb (Z.testbit w (page mod 64))
  | None => false
  end.

Definition bm_ok (bm : list Z) : Prop := Forall (is_u 64) bm.
Definition words (bm : list Z) : Z := Z.of_nat (length bm).

Lemma page_word_range bm p : 0 <= p < 64 * words bm -> 0 <= p / 64 < words bm.
Proof. intros H. split; [apply Z.div_pos; lia | apply Z.div_lt_upper_bound; lia]. Qed.

Lemma page_offset_range p : 0 <= p mod 64 < 64.
Proof. apply Z.mod_pos_bound. lia. Qed.

Lemma page_split p : p = 64 * (p / 64) + p mod 64.
Proof. apply Z.div_mod. lia. Qed.

Lemma page_eq_split p q : p / 64 = q / 64 -> p mod 64 = q mod 64 -> p = q.
Proof. intros. rewrite (page_split p), (page_split q). lia. Qed.

Lemma bm_free_range bm p : bm_free bm p = true -> 0 <= p < 64 * words bm.
Proof.
  unfold bm_free. destruct (rd bm (p / 64)) eqn:E; [| done]. intros _.
  apply rd_Some_range in E. unfold words. pose proof (page_split p).
  pose proof (page_offset_range p). lia.
Qed.

Lemma TEST_BIT_spec bm p : 0 <= p < 64 * words bm ->
  TEST_BIT bm p = Some (negb (bm_free bm p)).
Proof.
  intros Hp. unfold TEST_BIT, bm_free, BITMAP_INDEX, BITMAP_OFFSET.
  destruct (rd_is_Some bm (p / 64)) as [w ->]; [by apply page_word_range |].
  simpl. rewrite land_bit_eqb by apply page_offset_range. done.
Qed.

Lemma SET_BIT_spec bm p : bm_ok bm -> 0 <= p < 64 * words bm ->
  exists bm', SET_BIT bm p = Some bm' /\ bm_ok bm' /\ words bm' = words bm /\
    forall q, bm_free bm' q = bm_free bm q && negb (q =? p).
Proof.
  intros Hok Hp. unfold SET_BIT, BITMAP_INDEX, BITMAP_OFFSET.
  pose proof (page_word_range _ _ Hp) as Hw. pose proof (page_offset_range p) as Ho.
  destruct (rd_is_Some bm (p / 64)) as [w Ew]; [done |]. rewrite Ew. simpl.
  set (w' := Z.lor w _). rewrite wr_is_Some by done.
  assert (wr bm (p / 64) w' = Some (<[Z.to_nat (p / 64) := w']> bm)) as Hwr
    by by apply wr_is_Some.
  eexists. split; [done |].
  pose proof (rd_Forall _ _ _ _ Hok Ew) as Hwu.
  split; [| split].
  - eapply wr_Forall; [done | | done]. apply is_u_lor; [lia | done |].
    rewrite Z.shiftl_1_l. split; [lia | apply Z.pow_lt_mono_r; lia].
  - unfold words. rewrite length_insert. done.
  - intros q. unfold bm_free. rewrite (rd_wr _ _ _ _ _ Hwr).
    destruct (Z.eqb_spec (q / 64) (p / 64)) as [E | E].
    + rewrite E, Ew. unfold w'. rewrite Z.lor_spec, shiftl_one_spec by lia.
      destruct (Z.eqb_spec q p) as [-> | Hne].
      * rewrite Z.eqb_refl, orb_true_r, andb_false_r. done.
      * destruct (Z.eqb_spec (q mod 64) (p mod 64)) as [E2 | _].
        { by destruct Hne; apply page_eq_split. }
        rewrite orb_false_r, andb_true_r. done.
    + destruct (Z.eqb_spec q p) as [-> | Hne]; [done |]. rewrite andb_true_r. done.
Qed.

Lemma CLEAR_BIT_spec bm p : bm_ok bm -> 0 <= p < 64 * words bm ->
  exists bm', CLEAR_BIT bm p = Some bm' /\ bm_ok bm' /\ words bm' = words bm /\
    forall q, bm_free bm' q = bm_free bm q || (q =? p).
Proof.
  intros Hok Hp. unfold CLEAR_BIT, BITMAP_INDEX, BITMAP_OFFSET.
  pose proof (page_word_range _ _ Hp) as Hw. pose proof (page_offset_range p) as Ho.
  destruct (rd_is_Some bm (p / 64)) as [w Ew]; [done |]. rewrite Ew. simpl.
  set (w' := Z.land w _). rewrite wr_is_Some by done.
  assert (wr bm (p / 64) w' = Some (<[Z.to_nat (p / 64) := w']> bm)) as Hwr
    by by apply wr_is_Some.
  eexists. split; [done |].
  pose proof (rd_Forall _ _ _ _ Hok Ew) as Hwu.
  split; [| split].
  - eapply wr_Forall; [done | | done]. by apply is_u_land.
  - unfold words. rewrite length_insert. done.
  - intros q. unfold bm_free. rewrite (rd_wr _ _ _ _ _ Hwr).
    destruct (Z.eqb_spec (q / 64) (p / 64)) as [E | E].
    + rewrite E, Ew. unfold w'. pose proof (page_offset_range q).
      rewrite Z.land_spec, not64_spec, shiftl_one_spec by lia.
      destruct (Z.ltb_spec (q mod 64) 64); [| lia].
      destruct (Z.eqb_spec q p) as [-> | Hne].
      * rewrite Z.eqb_refl, orb_true_r, andb_false_r. done.
      * destruct (Z.eqb_spec (q mod 64) (p mod 64)) as [E2 | _].
        { by destruct Hne; apply page_eq_split. }
        rewrite orb_false_r, andb_true_r. done.
    + destruct (Z.eqb_spec q p) as [-> | Hne]; [done |]. rewrite orb_false_r. done.
Qed.

(** ** Words *)

Lemma word_full bm word q :
  rd bm word = Some U64_MAX -> q / 64 = word -> bm_free bm q = false.
Proof.
  intros Hr <-. unfold bm_free. rewrite Hr, U64_MAX_ones.
  rewrite Z.ones_spec_low by apply page_offset_range. done.
Qed.

Lemma word_not_full w : is_u 64 w -> w <> U64_MAX ->
  exists i, 0 <= i < 64 /\ Z.testbit w i = false.
Proof.
  intros Hw Hne.
  destruct (decide (Exists (fun n => Z.testbit w (Z.of_nat n) = false) (seq 0 64)))
    as [(n & Hin & Hn)%Exists_exists | Hno].
  - apply in_seq in Hin. exists (Z.of_nat n). split; [lia | done].
  - destruct Hne. apply (is_u_bits_inj 64); [lia | done | unfold is_u, U64_MAX; lia |].
    intros i Hi. rewrite U64_MAX_ones, Z.ones_spec_low by lia.
    apply not_false_is_true. intros Hf. apply Hno, Exists_exists.
    exists (Z.to_nat i). split; [apply in_seq; lia |]. by rewrite Z2Nat.id by lia.
Qed.

Lemma ctz_from_spec n i x :
  (exists j, i <= j < i + Z.of_nat n /\ Z.testbit x j = true) ->
  i <= ctz_from n i x < i + Z.of_nat n /\ Z.testbit x (ctz_from n i x) = true /\
  forall j, i <= j < ctz_from n i x -> Z.testbit x j = false.
Proof.
  revert i. induction n as [| n IH]; intros i (j & Hj & Ht); [lia |]. simpl.
  destruct (Z.testbit x i) eqn:E.
  - split; [lia |]. split; [done |]. intros; lia.
  - destruct (IH (i + 1)) as (IH1 & IH2 & IH3).
    { exists j. split; [| done]. destruct (Z.eq_dec j i); [congruence | lia]. }
    split; [lia |]. split; [done |]. intros k Hk.
    destruct (Z.eq_dec k i) as [-> | ?]; [done | apply IH3; lia].
Qed.

Lemma ctzll_not64 w : is_u 64 w -> w <> U64_MAX ->
  0 <= ctzll (not64 w) < 64 /\ Z.testbit w (ctzll (not64 w)) = false /\
  forall j, 0 <= j < ctzll (not64 w) -> Z.testbit w j = true.
Proof.
  intros Hw Hne. destruct (word_not_full w Hw Hne) as (i & Hi & Hf).
  destruct (ctz_from_spec 64 0 (not64 w)) as (H1 & H2 & H3).
  { exists i. split; [lia |]. rewrite not64_spec, Hf by lia. zcases. }
  change (ctz_from 64 0 (not64 w)) with (ctzll (not64 w)) in *.
  split; [lia |]. split.
  - rewrite not64_spec in H2 by lia. destruct (Z.ltb_spec (ctzll (not64 w)) 64); [| lia].
    rewrite xorb_true_r in H2. by apply negb_true_iff.
  - intros j Hj. specialize (H3 j ltac:(lia)). rewrite not64_spec in H3 by lia.
    destruct (Z.ltb_spec j 64); [| lia]. rewrite xorb_true_r in H3. by apply negb_false_iff.
Qed.

(** ** First fit for one page *)

Lemma take_page_loop_spec n bm word : bm_ok bm -> 0 <= word ->
  word + Z.of_nat n <= words bm ->
  exists r, take_page_loop n bm word = Some r /\
  match r with
  | Some (w, page, bm') =>
      word <= w < word + Z.of_nat n /\ page / 64 = w /\ bm_free bm page = true /\
      (forall q, 64 * word <= q < page -> bm_free bm q = false) /\
      SET_BIT bm page = Some bm'
  | None => forall q, 64 * word <= q < 64 * (word + Z.of_nat n) -> bm_free bm q = false
  end.
Proof.
  intros Hok. revert word. induction n as [| n IH]; intros word H0 Hle; simpl.
  { exists None. split; [done |]. intros; lia. }
  destruct (rd_is_Some bm word) as [w Ew]; [unfold words in *; lia |]. rewrite Ew. simpl.
  destruct (Z.eqb_spec w U64_MAX) as [-> | Hne].
  - destruct (IH (word + 1)) as (r & -> & Hr); [lia | lia |].
    exists r. split; [done |].
    assert (forall q, 64 * word <= q < 64 * (word + 1) -> bm_free bm q = false) as Hfull.
    { intros q Hq. eapply word_full; [done |]. symmetry.
      apply (Z.div_unique q 64 word (q - 64 * word)); lia. }
    destruct r as [[[w page] bm'] |].
    + destruct Hr as (H1 & H2 & H3 & H4 & H5). repeat split; try (done || lia).
      intros q Hq. destruct (Z_lt_ge_dec q (64 * (word + 1))); [apply Hfull; lia |].
      apply H4. lia.
    + intros q Hq. destruct (Z_lt_ge_dec q (64 * (word + 1))); [apply Hfull; lia |].
      apply Hr. lia.
  - pose proof (rd_Forall _ _ _ _ Hok Ew) as Hwu.
    destruct (ctzll_not64 w Hwu Hne) as (Hc & Hcf & Hcl).
    set (c := ctzll (not64 w)) in *. set (page := word * 64 + c).
    assert (page / 64 = word) as Hpw
      by (symmetry; apply (Z.div_unique page 64 word c); lia).
    assert (page mod 64 = c) as Hpo
      by (symmetry; apply (Z.mod_unique page 64 word c); lia).
    destruct (SET_BIT_spec bm page Hok) as (bm' & Hset & _).
    { unfold words in *. lia. }
    rewrite Hset. simpl. eexists. split; [done |]. repeat split; try (done || lia).
    + unfold bm_free. rewrite Hpw, Hpo, Ew, Hcf. done.
    + intros q Hq. unfold bm_free.
      assert (q / 64 = word) as -> by
        (symmetry; apply (Z.div_unique q 64 word (q - 64 * word)); lia).
      rewrite Ew. assert (q mod 64 = q - 64 * word) as -> by
        (symmetry; apply (Z.mod_unique q 64 word (q - 64 * word)); lia).
      rewrite Hcl by lia. done.
Qed.

(** ** The invariant *)

Definition page_free (st : pmm) (page : Z) : bool := bm_free (physical_pages st) page.

(** How many owners a page has: none when it is free, otherwise the one that
    allocated it and those [pmm_share_page] added. *)
Definition owners (st : pmm) (page : Z) : Z :=
  if page_free st page then 0 else 1 + default 0 (rd (shared_refs st) page).

Record wf_parts (bm refs : list Z) (tp tw lw bw lh hh : Z) : Prop := WfParts {
  wf_bits : bm_ok bm;
  wf_words : words bm = tw;
  wf_refs_length : Z.of_nat (length refs) = tp;
  wf_refs : Forall (is_u 16) refs;
  wf_tw : tw = (tp + 63) / 64;
  wf_lw : 0 <= lw <= tw;
  wf_bw : 0 <= bw <= lw;
  wf_tail : forall q, bm_free bm q = true -> 0 < q < tp;
  wf_unshared : forall q, bm_free bm q = true -> rd refs q = Some 0;
  wf_low_hint : 0 <= lh <= lw;
  wf_low_full : forall q, 0 <= q < 64 * lh -> bm_free bm q = false;
  wf_high_hint : lw <= hh <= tw;
  wf_high_full : forall q, 64 * lw <= q < 64 * hh -> bm_free bm q = false;
}.

(** The bitmap has a bit for every page, pages that do not exist and page 0 are
    never free, a free page has no extra owner, and no free page lies below the
    scan hints. *)
Definition pmm_wf (st : pmm) : Prop :=
  wf_parts (physical_pages st) (shared_refs st) (total_pages st) (total_words st)
           (low_words st) (boot_words st) (low_hint st) (high_hint st).

Lemma wf_parts_shrink bm refs tp tw lw bw lh hh bm' lh' hh' :
  wf_parts bm refs tp tw lw bw lh hh ->
  bm_ok bm' -> words bm' = words bm ->
  (forall q, bm_free bm' q = true -> bm_free bm q = true) ->
  0 <= lh' <= lw -> (forall q, 0 <= q < 64 * lh' -> bm_free bm' q = false) ->
  lw <= hh' <= tw -> (forall q, 64 * lw <= q < 64 * hh' -> bm_free bm' q = false) ->
  wf_parts bm' refs tp tw lw bw lh' hh'.
Proof. intros [] ? Hw Hsub ????. constructor; auto. congruence. Qed.

Lemma not_free_sub bm bm' q :
  (forall q, bm_free bm' q = true -> bm_free bm q = true) ->
  bm_free bm q = false -> bm_free bm' q = false.
Proof.
  intros Hsub Hf. apply not_true_is_false. intros Ht. apply Hsub in Ht. congruence.
Qed.

(** What [take_page_locked] promises about the part of memory it scans. *)
Definition took_first (bm : list Z) (from last page : Z) (bm' : list Z) : Prop :=
  64 * from <= page < 64 * last /\ bm_free bm page = true /\
  (forall q, 64 * from <= q < page -> bm_free bm q = false) /\
  bm_ok bm' /\ words bm' = words bm /\
  forall q, bm_free bm' q = bm_free bm q && negb (q =? page).

Lemma take_page_locked_spec bm last hint : bm_ok bm -> 0 <= hint <= last -> last <= words bm ->
  (exists page bm', take_page_locked bm last hint = Some (page * PAGE_SIZE, page / 64, bm') /\
     took_first bm hint last page bm') \/
  (take_page_locked bm last hint = Some (0, last, bm) /\
   forall q, 64 * hint <= q < 64 * last -> bm_free bm q = false).
Proof.
  intros Hok Hh Hl. unfold take_page_locked.
  destruct (take_page_loop_spec (Z.to_nat (last - hint)) bm hint) as (r & -> & Hr);
    [done | lia | lia |]. simpl.
  destruct r as [[[w page] bm'] |].
  - destruct Hr as (Hw & Hpw & Hf & Hlow & Hset). left. exists page, bm'.
    pose proof (bm_free_range _ _ Hf) as Hrange.
    destruct (SET_BIT_spec bm page Hok Hrange) as (bm2 & Hset2 & Hok2 & Hw2 & Hf2).
    assert (bm2 = bm') as -> by congruence. subst w. split; [done |].
    pose proof (page_split page). pose proof (page_offset_range page).
    repeat split; try (done || lia).
  - right. split; [done |]. intros q Hq. apply Hr. lia.
Qed.

Lemma took_first_sub bm from last page bm' q :
  took_first bm from last page bm' -> bm_free bm' q = true -> bm_free bm q = true.
Proof. intros (_ & _ & _ & _ & _ & ->) [??]%andb_prop. done. Qed.

(** The pages below the word of the page taken are all in use afterwards. *)
Lemma took_first_full bm from last page bm' lo q :
  took_first bm from last page bm' ->
  (forall q, lo <= q < 64 * from -> bm_free bm q = false) ->
  lo <= q < 64 * (page / 64) -> bm_free bm' q = false.
Proof.
  intros Ht Hlo Hq. apply (not_free_sub bm); [eauto using took_first_sub |].
  destruct Ht as (_ & _ & Hlow & _). pose proof (page_split page).
  pose proof (page_offset_range page).
  destruct (Z_lt_ge_dec q (64 * from)); [apply Hlo | apply Hlow]; lia.
Qed.

Lemma took_first_word bm from last page bm' :
  took_first bm from last page bm' -> from <= page / 64 < last.
Proof.
  intros (H & _). pose proof (page_split page). pose proof (page_offset_range page). lia.
Qed.

(** ** Allocating one page *)

(** The words of the bitmap whose pages the kernel can reach. *)
Definition visible_words (st : pmm) : Z :=
  if direct_map_ready st then total_words st else boot_words st.

(** The placement policy: the lowest free page above 4 GiB, or when there is
    none (or the direct map is not built yet) the lowest free page. *)
Definition preferred (st : pmm) (p : Z) : Prop :=
  if direct_map_ready st then
    (64 * low_words st <= p /\
       forall q, 64 * low_words st <= q < p -> page_free st q = false) \/
    (p < 64 * low_words st /\
       (forall q, 64 * low_words st <= q -> page_free st q = false) /\
       forall q, q < p -> page_free st q = false)
  else forall q, q < p -> page_free st q = false.

Definition took_page (st : pmm) (a : Z) (st' : pmm) : Prop :=
  exists p, a = p * PAGE_SIZE /\ 0 < p < total_pages st /\ p < 64 * visible_words st /\
    page_free st p = true /\ preferred st p /\
    (forall q, page_free st' q = page_free st q && negb (q =? p)).

Definition no_page (st : pmm) (a : Z) (st' : pmm) : Prop :=
  a = 0 /\ (forall q, 0 <= q < 64 * visible_words st -> page_free st q = false) /\
  (forall q, page_free st' q = page_free st q).

Lemma neg_not_free bm q : q < 0 -> bm_free bm q = false.
Proof. intros H. apply not_true_is_false. intros Ht%bm_free_range. lia. Qed.

Lemma page_addr_nonzero p : 0 < p -> (p * PAGE_SIZE =? 0) = false.
Proof. intros H. apply Z.eqb_neq. unfold PAGE_SIZE. lia. Qed.

Lemma high_not_free bm refs tp tw lw bw lh hh q :
  wf_parts bm refs tp tw lw bw lh hh -> 64 * tw <= q -> bm_free bm q = false.
Proof.
  intros [] Hq. apply not_true_is_false. intros Ht%bm_free_range. lia.
Qed.

(** The scan of the low memory, shared by both phases of the boot. *)
Lemma take_low_spec st last : pmm_wf st -> last = low_words st \/ last = boot_words st ->
  exists a h bm, take_page_locked (physical_pages st) last (low_hint st) = Some (a, h, bm) /\
    pmm_wf (set_low_hint h (set_bitmap bm st)) /\
    ((exists p, a = p * PAGE_SIZE /\ 0 < p < total_pages st /\ p < 64 * last /\
        page_free st p = true /\ (forall q, q < p -> page_free st q = false) /\
        (forall q, bm_free bm q = page_free st q && negb (q =? p))) \/
     (a = 0 /\ bm = physical_pages st /\
        forall q, 0 <= q < 64 * last -> page_free st q = false)).
Proof.
  intros Hwf Hlast. pose proof Hwf as [].
  assert (last <= low_words st /\ 0 <= last) as [Hll Hl0] by (destruct Hlast; lia).
  destruct (Z_le_gt_dec (low_hint st) last) as [Hle | Hgt].
  2:{ (* the hint is already past the boot area *)
    exists 0, last, (physical_pages st). unfold take_page_locked.
    replace (Z.to_nat (last - low_hint st)) with 0%nat by lia. simpl. split; [done |].
    split.
    - apply (wf_parts_shrink _ _ _ _ _ _ _ _ _ _ _ Hwf); simpl; auto.
      intros q Hq. apply wf_low_full0. lia.
    - right. repeat split; auto. intros q Hq. apply wf_low_full0. lia. }
  destruct (take_page_locked_spec (physical_pages st) last (low_hint st))
    as [(p & bm' & Htake & Hfst) | [Htake Hnone]]; [done | lia | lia | |].
  - exists (p * PAGE_SIZE), (p / 64), bm'. split; [done |].
    pose proof (took_first_word _ _ _ _ _ Hfst) as Hpw.
    pose proof Hfst as (Hr & Hf & Hlow & Hok' & Hw' & Heq). split.
    + apply (wf_parts_shrink _ _ _ _ _ _ _ _ _ _ _ Hwf); simpl; auto.
      * eauto using took_first_sub.
      * lia.
      * intros q Hq. eapply took_first_full; eauto.
      * intros q Hq. apply (not_free_sub (physical_pages st)); eauto using took_first_sub with lia.
    + left. exists p. unfold page_free. repeat split; auto; try lia; try (apply wf_tail0; done).
      intros q Hq. destruct (Z_lt_ge_dec q 0); [by apply neg_not_free |].
      destruct (Z_lt_ge_dec q (64 * low_hint st)); [apply wf_low_full0 | apply Hlow]; lia.
  - exists 0, last, (physical_pages st). split; [done |].
    assert (forall q, 0 <= q < 64 * last -> page_free st q = false) as Hno.
    { intros q Hq. unfold page_free.
      destruct (Z_lt_ge_dec q (64 * low_hint st)); [apply wf_low_full0 | apply Hnone]; lia. }
    split; [| right; auto].
    apply (wf_parts_shrink _ _ _ _ _ _ _ _ _ _ _ Hwf); simpl; auto.
Qed.

Lemma take_page_locked_high st : pmm_wf st ->
  exists a h bm, take_page_locked (physical_pages st) (total_words st) (high_hint st)
                   = Some (a, h, bm) /\
    pmm_wf (set_high_hint h (set_bitmap bm st)) /\
    ((exists p, a = p * PAGE_SIZE /\ 0 < p < total_pages st /\ 64 * low_words st <= p /\
        p < 64 * total_words st /\ page_free st p = true /\
        (forall q, 64 * low_words st <= q < p -> page_free st q = false) /\
        (forall q, bm_free bm q = page_free st q && negb (q =? p))) \/
     (a = 0 /\ bm = physical_pages st /\
        forall q, 64 * low_words st <= q -> page_free st q = false)).
Proof.
  intros Hwf. pose proof Hwf as [].
  destruct (take_page_locked_spec (physical_pages st) (total_words st) (high_hint st))
    as [(p & bm' & Htake & Hfst) | [Htake Hnone]]; [done | lia | lia | |].
  - exists (p * PAGE_SIZE), (p / 64), bm'. split; [done |].
    pose proof (took_first_word _ _ _ _ _ Hfst) as Hpw.
    pose proof Hfst as (Hr & Hf & Hlow & Hok' & Hw' & Heq). split.
    + apply (wf_parts_shrink _ _ _ _ _ _ _ _ _ _ _ Hwf); simpl; auto.
      * eauto using took_first_sub.
      * intros q Hq. apply (not_free_sub (physical_pages st)); eauto using took_first_sub with lia.
      * lia.
      * intros q Hq. eapply took_first_full; eauto.
    + left. exists p. unfold page_free. repeat split; auto; try lia; try (apply wf_tail0; done).
      intros q Hq.
      destruct (Z_lt_ge_dec q (64 * high_hint st)); [apply wf_high_full0 | apply Hlow]; lia.
  - exists 0, (total_words st), (physical_pages st). split; [done |].
    assert (forall q, 64 * low_words st <= q -> page_free st q = false) as Hno.
    { intros q Hq. unfold page_free.
      destruct (Z_lt_ge_dec q (64 * total_words st)); [| eapply high_not_free; eauto; lia].
      destruct (Z_lt_ge_dec q (64 * high_hint st)); [apply wf_high_full0 | apply Hnone]; lia. }
    split; [| right; auto].
    apply (wf_parts_shrink _ _ _ _ _ _ _ _ _ _ _ Hwf); simpl; auto; [lia |].
    intros q Hq. apply Hno. lia.
Qed.

Lemma take_page_correct st : pmm_wf st ->
  exists a st', take_page st = Some (a, st') /\ pmm_wf st' /\
    shared_refs st' = shared_refs st /\ total_pages st' = total_pages st /\
    direct_map_offset st' = direct_map_offset st /\
    (took_page st a st' \/ no_page st a st').
Proof.
  intros Hwf. unfold take_page, took_page, no_page, preferred, visible_words.
  destruct (direct_map_ready st) eqn:Hdm.
  - destruct (take_page_locked_high st Hwf) as (a & h & bm & -> & Hwf1 & Hr). simpl.
    destruct Hr as [(p & -> & Hp & Hge & Hlt & Hf & Hlow & Heq) | (-> & -> & Hnone)].
    + rewrite page_addr_nonzero by lia. simpl. do 2 eexists. split; [done |].
      repeat (split; [done |]). left. exists p. repeat split; auto; lia.
    + simpl.
      destruct (take_low_spec _ (low_words st) Hwf1) as (a & h2 & bm & Htk & Hwf2 & Hr);
        [by left |]. simpl in *. rewrite Htk. simpl. do 2 eexists. split; [done |].
      repeat (split; [done |]).
      destruct Hr as [(p & -> & Hp & Hlt & Hf & Hlow & Heq) | (-> & -> & Hno)].
      * left. exists p. repeat split; auto; try (destruct Hwf; lia).
      * right. repeat split; auto. intros q Hq.
        destruct (Z_lt_ge_dec q (64 * low_words st)); [apply Hno | apply Hnone]; lia.
  - destruct (take_low_spec st (boot_words st) Hwf) as (a & h & bm & -> & Hwf1 & Hr);
      [by right |]. simpl. do 2 eexists. split; [done |]. repeat (split; [done |]).
    destruct Hr as [(p & -> & Hp & Hlt & Hf & Hlow & Heq) | (-> & -> & Hno)].
    + left. exists p. repeat split; auto; lia.
    + right. repeat split; auto.
Qed.

(** ** Releasing and sharing pages *)

Definition same_layout (st st' : pmm) : Prop :=
  total_pages st' = total_pages st /\ total_words st' = total_words st /\
  low_words st' = low_words st /\ boot_words st' = boot_words st /\
  usable_pages st' = usable_pages st /\ direct_map_offset st' = direct_map_offset st.

Lemma same_layout_refl st : same_layout st st.
Proof. repeat split. Qed.

Lemma same_layout_trans st1 st2 st3 :
  same_layout st1 st2 -> same_layout st2 st3 -> same_layout st1 st3.
Proof. unfold same_layout. intuition congruence. Qed.

#[export] Hint Resolve same_layout_refl : hermes.

(** A page number the allocator manages. *)
Definition managed (st : pmm) (p : Z) : bool := (0 <? p) && (p <? total_pages st).

Lemma page_in_bitmap st p : pmm_wf st -> 0 <= p < total_pages st ->
  0 <= p < 64 * words (physical_pages st).
Proof.
  intros [] Hp. rewrite wf_words0, wf_tw0.
  pose proof (Z.div_mod (total_pages st + 63) 64 ltac:(lia)).
  pose proof (Z.mod_pos_bound (total_pages st + 63) 64 ltac:(lia)). lia.
Qed.

Lemma wf_parts_grow bm refs tp tw lw bw lh hh p bm' lh' hh' :
  wf_parts bm refs tp tw lw bw lh hh ->
  bm_ok bm' -> words bm' = words bm ->
  (forall q, bm_free bm' q = bm_free bm q || (q =? p)) ->
  0 < p < tp -> rd refs p = Some 0 ->
  0 <= lh' <= lh -> lw <= hh' <= hh -> (p / 64 < lw -> lh' <= p / 64) ->
  (lw <= p / 64 -> hh' <= p / 64) ->
  wf_parts bm' refs tp tw lw bw lh' hh'.
Proof.
  intros [] Hok Hw Heq Hp Hrefs Hlh Hhh Hlp Hhp.
  pose proof (page_split p). pose proof (page_offset_range p).
  constructor; auto; try lia; intros q; rewrite Heq.
  - intros [Hq | ->%Z.eqb_eq]%orb_prop; auto.
  - intros [Hq | ->%Z.eqb_eq]%orb_prop; auto.
  - intros Hq. rewrite wf_low_full0 by lia. zcases.
  - intros Hq. rewrite wf_high_full0 by lia. zcases.
Qed.

Lemma owners_refs_update st rs p n : wr (shared_refs st) p n = Some rs ->
  forall q, owners (set_shared_refs rs st) q =
            if q =? p then (if page_free st p then 0 else 1 + n) else owners st q.
Proof.
  intros Hwr q. unfold owners, page_free. simpl. rewrite (rd_wr _ _ _ _ _ Hwr).
  destruct (Z.eqb_spec q p) as [-> | ?]; done.
Qed.

Lemma wf_set_refs st rs p n : pmm_wf st -> wr (shared_refs st) p n = Some rs ->
  is_u 16 n -> page_free st p = false -> pmm_wf (set_shared_refs rs st).
Proof.
  intros [] Hwr Hn Hf. constructor; simpl; auto.
  - apply wr_length in Hwr. congruence.
  - eauto using wr_Forall.
  - intros q Hq. rewrite (rd_wr _ _ _ _ _ Hwr).
    destruct (Z.eqb_spec q p) as [-> | ?]; [| by apply wf_unshared0].
    unfold page_free in Hf. congruence.
Qed.

(** The state after a page went back: the bitmap and the lowered hint. *)
Lemma lower_hint_spec st bm p : 0 <= p / 64 ->
  exists lh hh, (if p / 64 <? low_words st
     then Some (if p / 64 <? low_hint st then set_low_hint (p / 64) (set_bitmap bm st)
                else set_bitmap bm st)
     else Some (if p / 64 <? high_hint st then set_high_hint (p / 64) (set_bitmap bm st)
                else set_bitmap bm st))
    = Some (set_low_hint lh (set_high_hint hh (set_bitmap bm st))) /\
    (p / 64 < low_words st -> lh = Z.min (p / 64) (low_hint st) /\ hh = high_hint st) /\
    (low_words st <= p / 64 -> lh = low_hint st /\ hh = Z.min (p / 64) (high_hint st)).
Proof.
  intros H0. destruct st as [? ? ? ? lw ? ? lh hh ? ?]. simpl.
  destruct (Z.ltb_spec (p / 64) lw).
  - exists (Z.min (p / 64) lh), hh. split; [| lia].
    zcases; unfold set_low_hint, set_bitmap; simpl; do 2 f_equal; lia.
  - exists lh, (Z.min (p / 64) hh). split; [| lia].
    zcases; unfold set_high_hint, set_low_hint, set_bitmap; simpl; do 2 f_equal; lia.
Qed.

Lemma free_page_locked_spec st page : pmm_wf st -> 0 <= page ->
  exists st', free_page_locked page st = Some st' /\ pmm_wf st' /\ same_layout st st' /\
    forall q, owners st' q =
      if (q =? page / PAGE_SIZE) && managed st q then Z.max 0 (owners st q - 1)
      else owners st q.
Proof.
  intros Hwf Hpage. pose proof Hwf as []. unfold free_page_locked, managed.
  set (p := page / PAGE_SIZE).
  assert (0 <= p) by (apply Z.div_pos; unfold PAGE_SIZE; lia).
  destruct (negb (p =? 0) && (p <? total_pages st)) eqn:Hin.
  2:{ exists st. split; [done |]. split; [done |]. split; [auto with hermes |]. intros q.
      destruct (Z.eqb_spec q p) as [-> | ?]; [| done]. revert Hin. zcases; done. }
  assert (0 < p < total_pages st) as Hp by (revert Hin; zcases; done). clear Hin.
  destruct (rd_is_Some (shared_refs st) p) as [refs Hrefs]; [lia |]. rewrite Hrefs. simpl.
  pose proof (rd_Forall _ _ _ _ wf_refs0 Hrefs) as Hru.
  destruct (Z.eqb_spec refs 0) as [-> | Hne]; simpl.
  - destruct (CLEAR_BIT_spec (physical_pages st) p) as (bm & -> & Hok & Hw & Heq);
      [done | by apply page_in_bitmap; [| lia] |]. simpl. unfold BITMAP_INDEX.
    assert (0 <= p / 64) by (apply Z.div_pos; lia).
    destruct (lower_hint_spec st bm p) as (lh & hh & -> & Hlo & Hhi); [done |].
    eexists. split; [done |]. split; [| split; [done |]].
    { destruct (Z_lt_ge_dec (p / 64) (low_words st)) as [Hc | Hc];
        [destruct Hlo as [-> ->]; [done |] | destruct Hhi as [-> ->]; [lia |]];
        eapply wf_parts_grow; eauto; simpl; lia. }
    intros q. unfold owners, page_free. simpl. rewrite Heq.
    destruct (Z.eqb_spec q p) as [-> | ?]; [| by rewrite orb_false_r].
    rewrite orb_true_r, Hrefs. zcases. by destruct (bm_free (physical_pages st) p).
  - assert (page_free st p = false) as Hnf.
    { apply not_true_is_false. intros Hf%wf_unshared0. congruence. }
    rewrite wr_is_Some by lia. simpl. eexists. split; [done |].
    assert (wr (shared_refs st) p (refs - 1) = Some (<[Z.to_nat p := refs - 1]> (shared_refs st)))
      as Hwr by (apply wr_is_Some; lia).
    split; [| split; [done |]].
    { eapply wf_set_refs; eauto. unfold is_u in *. lia. }
    intros q. rewrite (owners_refs_update _ _ _ _ Hwr).
    destruct (Z.eqb_spec q p) as [-> | ?]; [| done]. unfold owners.
    rewrite Hnf, Hrefs. simpl. unfold is_u in Hru. zcases.
Qed.

Lemma pmm_share_page_spec st page : pmm_wf st -> 0 <= page ->
  page_free st (page / PAGE_SIZE) = false ->
  exists st', pmm_share_page page st = Some st' /\ pmm_wf st' /\ same_layout st st' /\
    physical_pages st' = physical_pages st /\
    forall q, owners st' q =
      if (q =? page / PAGE_SIZE) && (q <? total_pages st) && (owners st q <? 0x10000)
      then owners st q + 1 else owners st q.
Proof.
  intros Hwf Hpage Hnf. pose proof Hwf as []. unfold pmm_share_page.
  set (p := page / PAGE_SIZE) in *.
  assert (0 <= p) by (apply Z.div_pos; unfold PAGE_SIZE; lia).
  destruct (Z.ltb_spec p (total_pages st)).
  2:{ exists st. repeat (split; [done |]). intros q.
      destruct (Z.eqb_spec q p) as [-> | ?]; [zcases | done]. }
  destruct (rd_is_Some (shared_refs st) p) as [refs Hrefs]; [lia |]. rewrite Hrefs. simpl.
  pose proof (rd_Forall _ _ _ _ wf_refs0 Hrefs) as Hru.
  assert (owners st p = 1 + refs) as Ho by (unfold owners; rewrite Hnf, Hrefs; done).
  destruct (Z.ltb_spec refs 0xFFFF).
  - rewrite wr_is_Some by lia. simpl. eexists. split; [done |].
    assert (wr (shared_refs st) p (refs + 1) = Some (<[Z.to_nat p := refs + 1]> (shared_refs st)))
      as Hwr by (apply wr_is_Some; lia).
    split; [| repeat (split; [done |])].
    { eapply wf_set_refs; eauto. unfold is_u in *. lia. }
    intros q. rewrite (owners_refs_update _ _ _ _ Hwr).
    destruct (Z.eqb_spec q p) as [-> | ?]; [| done]. rewrite Hnf. zcases.
  - exists st. repeat (split; [done |]). intros q.
    destruct (Z.eqb_spec q p) as [-> | ?]; [| done]. zcases.
Qed.

(** ** First fit for a run of pages *)

Definition run_free (bm : list Z) (first count : Z) : Prop :=
  forall q, first <= q < first + count -> bm_free bm q = true.

Lemma take_pages_loop_spec n bm start page run count :
  0 <= page - run -> start <= page - run -> 0 <= run < count ->
  page + Z.of_nat n <= 64 * words bm ->
  run_free bm (page - run) run ->
  (forall f, start <= f < page - run -> ~ run_free bm f count) ->
  exists r, take_pages_loop n bm page run count = Some r /\
  match r with
  | Some last =>
      let first := last + 1 - count in
      start <= first /\ last < page + Z.of_nat n /\ run_free bm first count /\
      forall f, start <= f < first -> ~ run_free bm f count
  | None => forall f, start <= f -> f + count <= page + Z.of_nat n -> ~ run_free bm f count
  end.
Proof.
  revert page run. induction n as [| n IH]; intros page run H0 Hs Hrun Hle Hfree Hdead; simpl.
  { exists None. split; [done |]. intros f Hf Hfc. apply Hdead. lia. }
  rewrite TEST_BIT_spec by lia. simpl.
  destruct (bm_free bm page) eqn:Ef; cbn [negb].
  - destruct (Z.eqb_spec (run + 1) count) as [Hc | Hc].
    + eexists. split; [done |]. simpl. subst count.
      replace (page + 1 - (run + 1)) with (page - run) by lia.
      repeat split; try lia; [| done].
      intros q Hq. destruct (Z.eq_dec q page) as [-> | ?]; [done | apply Hfree; lia].
    + destruct (IH (page + 1) (run + 1)) as (r & -> & Hr); try lia.
      * intros q Hq. destruct (Z.eq_dec q page) as [-> | ?]; [done | apply Hfree; lia].
      * intros f Hf. apply Hdead. lia.
      * exists r. split; [done |].
        destruct r; [destruct Hr as (? & ? & ? & ?); repeat split; auto; lia |].
        intros f Hf Hfc. apply Hr; lia.
  - destruct (Z.eqb_spec 0 count) as [Hc | Hc]; [lia |].
    destruct (IH (page + 1) 0) as (r & -> & Hr); try lia.
    * intros q Hq. lia.
    * intros f Hf Hrf. destruct (Z_lt_ge_dec f (page - run)); [eapply Hdead; eauto; lia |].
      specialize (Hrf page). rewrite Ef in Hrf. discriminate Hrf. lia.
    * exists r. split; [done |].
      destruct r; [destruct Hr as (? & ? & ? & ?); repeat split; auto; lia |].
      intros f Hf Hfc. apply Hr; lia.
Qed.

Definition in_run (first count q : Z) : bool := (first <=? q) && (q <? first + count).

Lemma set_bits_spec n bm i : bm_ok bm -> 0 <= i -> i + Z.of_nat n <= 64 * words bm ->
  exists bm', set_bits n bm i = Some bm' /\ bm_ok bm' /\ words bm' = words bm /\
    forall q, bm_free bm' q = bm_free bm q && negb (in_run i (Z.of_nat n) q).
Proof.
  revert bm i. induction n as [| n IH]; intros bm i Hok H0 Hle; simpl.
  - exists bm. repeat (split; [done |]). intros q. unfold in_run.
    zcases; by rewrite andb_true_r.
  - destruct (SET_BIT_spec bm i Hok) as (bm1 & -> & Hok1 & Hw1 & Hf1); [lia |]. simpl.
    destruct (IH bm1 (i + 1)) as (bm2 & -> & Hok2 & Hw2 & Hf2); [done | lia | lia |].
    exists bm2. split; [done |]. split; [done |]. split; [lia |]. intros q.
    rewrite Hf2, Hf1, <- andb_assoc. f_equal. unfold in_run. zcases.
Qed.

Definition took_run (st : pmm) (count a : Z) (st' : pmm) : Prop :=
  exists first, a = first * PAGE_SIZE /\ 0 < first /\ first + count <= total_pages st /\
    first + count <= 64 * visible_words st /\
    run_free (physical_pages st) first count /\
    (forall f, 0 <= f < first -> ~ run_free (physical_pages st) f count) /\
    (forall q, page_free st' q = page_free st q && negb (in_run first count q)).

Lemma take_pages_correct st count : pmm_wf st -> 1 <= count ->
  exists a st', take_pages count st = Some (a, st') /\ pmm_wf st' /\ same_layout st st' /\
    shared_refs st' = shared_refs st /\
    (took_run st count a st' \/
     (a = 0 /\ st' = st /\ forall f, 0 <= f -> f + count <= 64 * visible_words st ->
        ~ run_free (physical_pages st) f count)).
Proof.
  intros Hwf Hcount. pose proof Hwf as [].
  assert (0 <= visible_words st <= total_words st) as Hvis
    by (unfold visible_words; destruct (direct_map_ready st); lia).
  unfold take_pages. change (if direct_map_ready st then total_words st else boot_words st)
    with (visible_words st).
  assert (forall f, 0 <= f < 64 * low_hint st -> ~ run_free (physical_pages st) f count) as Hlow.
  { intros f Hf Hrun. specialize (Hrun f ltac:(lia)). rewrite wf_low_full0 in Hrun by lia. done. }
  destruct (Z_lt_ge_dec (64 * visible_words st) (64 * low_hint st)) as [Hlt | Hge].
  { replace (Z.to_nat (visible_words st * 64 - low_hint st * 64)) with 0%nat by lia.
    simpl. exists 0, st. repeat (split; [auto with hermes; fail |]). right.
    repeat (split; [done |]). intros f Hf Hfc. apply Hlow. lia. }
  destruct (take_pages_loop_spec (Z.to_nat (visible_words st * 64 - low_hint st * 64))
              (physical_pages st) (low_hint st * 64) (low_hint st * 64) 0 count)
    as (r & -> & Hr); try lia.
  { intros q Hq. lia. }
  simpl. destruct r as [last |].
  - destruct Hr as (Hs & Hl & Hrun & Hdead). set (first := last + 1 - count) in *.
    pose proof (wf_tail0 first (Hrun first ltac:(lia))).
    pose proof (wf_tail0 last (Hrun last ltac:(lia))).
    destruct (set_bits_spec (Z.to_nat (last + 1 - first)) (physical_pages st) first)
      as (bm & -> & Hok & Hw & Heq); [done | lia | lia |].
    simpl. do 2 eexists. split; [done |].
    assert (Z.of_nat (Z.to_nat (last + 1 - first)) = count) as Hn by lia.
    rewrite Hn in Heq.
    assert (forall q, bm_free bm q = true -> bm_free (physical_pages st) q = true) as Hsub
      by (intros q; rewrite Heq; intros [??]%andb_prop; done).
    split; [| split; [done | split; [done |]]].
    { apply (wf_parts_shrink _ _ _ _ _ _ _ _ _ _ _ Hwf); simpl; auto;
        intros q Hq; apply (not_free_sub (physical_pages st)); auto. }
    left. exists first. repeat split; auto; try lia.
    intros f Hf. destruct (Z_lt_ge_dec f (64 * low_hint st)); [apply Hlow; lia |].
    apply Hdead. lia.
  - exists 0, st. repeat (split; [auto with hermes; fail |]). right.
    repeat (split; [done |]). intros f Hf Hfc.
    destruct (Z_lt_ge_dec f (64 * low_hint st)); [apply Hlow; lia |]. apply Hr; lia.
Qed.

(** ** Counting the free pages *)

Lemma count_bits_spec fuel bits free : is_u 64 bits ->
  zcount (Z.testbit bits) 64 0 <= Z.of_nat fuel ->
  count_bits fuel bits free = Some (free + zcount (Z.testbit bits) 64 0).
Proof.
  revert bits free. induction fuel as [| fuel IH]; intros bits free Hu Hle; cbn [count_bits].
  - assert (bits = 0) as ->; [| f_equal; change (zcount (Z.testbit 0) 64 0) with 0; lia].
    apply (is_u_bits_inj 64); [lia | done | unfold is_u; lia |].
    intros i Hi. rewrite Z.bits_0. pose proof (zcount_bounds (Z.testbit bits) 64 0).
    apply (proj1 (zcount_zero (Z.testbit bits) 64 0)); lia.
  - destruct (Z.eqb_spec bits 0) as [-> | Hne];
      [f_equal; change (zcount (Z.testbit 0) 64 0) with 0; lia |].
    destruct (ctz_from_spec 64 0 bits) as (Hc & Hset & Hlow).
    { apply (nonzero_has_bit 64); done. }
    set (k := ctz_from 64 0 bits) in *.
    assert (0 < bits) by (unfold is_u in Hu; lia).
    rewrite u64_small by (unfold is_u in Hu; lia).
    assert (forall j, Z.testbit (Z.land bits (bits - 1)) j = Z.testbit bits j && negb (j =? k))
      as Hclear.
    { intros j. destruct (Z_lt_ge_dec j 0).
      - rewrite !Z.testbit_neg_r by lia. done.
      - apply land_pred_clears_lowest; [lia | done | intros; apply Hlow; lia | lia]. }
    pose proof (zcount_remove _ _ 64 0 k ltac:(lia) Hset Hclear) as Hcnt.
    rewrite IH; [f_equal; lia | by apply is_u_land | lia].
Qed.

Lemma is_u_not64 w : is_u 64 w -> is_u 64 (not64 w).
Proof.
  intros Hw. assert (not64 w = U64_MAX - w) as ->; [| unfold is_u, U64_MAX in *; lia].
  apply Z.add_cancel_r with w. rewrite Z.sub_add, Z.add_comm.
  rewrite Z.add_nocarry_lxor.
  - unfold not64. rewrite <- Z.lxor_assoc, Z.lxor_nilpotent, Z.lxor_0_l. done.
  - apply Z.bits_inj'. intros i Hi. rewrite Z.land_spec, not64_spec, Z.bits_0 by lia.
    destruct (Z.ltb_spec i 64).
    + by destruct (Z.testbit w i).
    + rewrite (testbit_above 64 w) by (done || lia). done.
Qed.

Lemma word_count bm word w : rd bm word = Some w -> is_u 64 w ->
  zcount (Z.testbit (not64 w)) 64 0 = zcount (bm_free bm) 64 (word * 64).
Proof.
  intros Ew Hw. pose proof (rd_Some_range _ _ _ Ew).
  replace (word * 64) with (0 + word * 64) by lia. rewrite zcount_shift.
  apply zcount_ext. intros j Hj. unfold bm_free.
  rewrite Z.div_add, Z.mod_add by lia.
  rewrite (Z.div_small j 64), (Z.mod_small j 64), Z.add_0_l by lia. rewrite Ew, not64_spec by lia.
  destruct (Z.ltb_spec j 64); [apply xorb_true_r | lia].
Qed.

Lemma free_pages_words_step n bm word free w : rd bm word = Some w -> is_u 64 w ->
  free_pages_words (S n) bm word free =
  free_pages_words n bm (word + 1) (free + zcount (bm_free bm) 64 (word * 64)).
Proof.
  intros Ew Hw. cbn [free_pages_words]. rewrite Ew, option_bind_Some_fun.
  rewrite count_bits_spec; [| by apply is_u_not64 | apply zcount_bounds].
  rewrite (word_count bm word) by done. done.
Qed.

Lemma free_pages_words_spec n bm word free : bm_ok bm -> 0 <= word ->
  word + Z.of_nat n <= words bm ->
  free_pages_words n bm word free
    = Some (free + zcount (bm_free bm) (n * 64) (word * 64)).
Proof.
  intros Hok. revert word free. induction n as [| n IH]; intros word free H0 Hle.
  { rewrite (proj2 (zcount_zero (bm_free bm) (0 * 64) (word * 64))) by (intros; lia).
    cbn [free_pages_words]. f_equal. lia. }
  destruct (rd_is_Some bm word) as [w Ew]; [unfold words in *; lia |].
  rewrite (free_pages_words_step _ _ _ _ w) by (done || by eapply rd_Forall).
  rewrite IH by lia. f_equal. replace (S n * 64)%nat with (64 + n * 64)%nat by lia.
  rewrite zcount_app. replace (word * 64 + Z.of_nat 64) with ((word + 1) * 64) by lia. lia.
Qed.

(** The number of free pages. *)
Definition free_count (st : pmm) : Z :=
  zcount (page_free st) (Z.to_nat (total_words st) * 64) 0.

Lemma pmm_free_pages_correct st : pmm_wf st -> pmm_free_pages st = Some (free_count st).
Proof.
  intros []. unfold pmm_free_pages. rewrite free_pages_words_spec; [| done | lia | lia].
  unfold free_count. rewrite Z.mul_0_l, Z.add_0_l. reflexivity.
Qed.

(** ** Initialisation *)

(** A page the kernel image and the allocator's own tables leave alone. *)
Definition eligible (kernel_end meta meta_size q : Z) : bool :=
  (kernel_end <=? q * PAGE_SIZE) &&
  negb ((meta <=? q * PAGE_SIZE) && (q * PAGE_SIZE <? meta + meta_size)).

(** A page that lies wholly inside [addr, addr + length). *)
Definition inside (r : memory_region) (q : Z) : bool :=
  (mr_addr r <=? q * PAGE_SIZE) && ((q + 1) * PAGE_SIZE <=? mr_addr r + mr_length r).

(** Addresses of physical memory have at most 52 bits. *)
Definition region_ok (r : memory_region) : Prop :=
  0 <= mr_addr r /\ 0 <= mr_length r /\ mr_addr r + mr_length r <= 2 ^ 52.

Definition bm_count (bm : list Z) : Z := zcount (bm_free bm) (length bm * 64) 0.

Lemma bm_count_grow bm bm' p : words bm' = words bm -> bm_free bm p = false ->
  0 <= p < 64 * words bm -> (forall q, bm_free bm' q = bm_free bm q || (q =? p)) ->
  bm_count bm' = bm_count bm + 1.
Proof.
  intros Hw Hf Hp Heq. unfold bm_count. assert (length bm' = length bm) as ->
    by (unfold words in Hw; lia).
  apply (zcount_remove _ _ _ _ p); [unfold words in *; lia | |].
  - rewrite Heq, Z.eqb_refl. apply orb_true_r.
  - intros j. rewrite Heq. destruct (Z.eqb_spec j p) as [-> | ?].
    + rewrite Hf. done.
    + rewrite orb_false_r, andb_true_r. done.
Qed.

Lemma release_region_spec fuel a end_ ke meta ms bm : 0 <= a <= 2 ^ 41 ->
  0 <= end_ <= 2 ^ 52 -> (0 < fuel)%nat ->
  end_ / PAGE_SIZE - a < Z.of_nat fuel -> 0 <= meta + ms < 2 ^ 64 ->
  bm_ok bm -> end_ / PAGE_SIZE <= 64 * words bm ->
  exists bm', release_region fuel (a * PAGE_SIZE) end_ ke meta ms bm (bm_count bm)
                = Some (bm', bm_count bm') /\ bm_ok bm' /\ words bm' = words bm /\
    forall q, bm_free bm' q = bm_free bm q ||
      ((a <=? q) && ((q + 1) * PAGE_SIZE <=? end_) && eligible ke meta ms q).
Proof.
  revert a bm. induction fuel as [| fuel IH]; intros a bm Ha Hend Hf0 Hfuel Hmeta Hok Hlen; [lia |].
  cbn [release_region]. unfold PAGE_SIZE in *. rewrite !u64_small by lia.
  pose proof (Z.div_mod end_ 0x1000 ltac:(lia)). 
  pose proof (Z.mod_pos_bound end_ 0x1000 ltac:(lia)).
  destruct (Z.leb_spec (a * 0x1000 + 0x1000) end_) as [Hin | Hout]; cbn [negb].
  2:{ exists bm. repeat (split; [done |]). intros q.
      destruct (Z.leb_spec a q), (Z.leb_spec ((q + 1) * 0x1000) end_);
        cbn [andb]; try lia; by rewrite orb_false_r. }
  replace (a * 0x1000 + 0x1000) with ((a + 1) * 0x1000) in * by lia.
  assert (a * 0x1000 / 0x1000 = a) as -> by (apply Z.div_mul; lia).
  (* the pages from a on are page a and those from a + 1 on *)
  assert (forall q, q <> a -> (a <=? q) = (a + 1 <=? q)) as Hnext
    by (intros q Hq; destruct (Z.leb_spec a q), (Z.leb_spec (a + 1) q); (done || lia)).
  assert (forall bm1, bm_ok bm1 -> words bm1 = words bm ->
    (forall q, bm_free bm1 q = bm_free bm q || ((q =? a) && eligible ke meta ms q)) ->
    exists bm', release_region fuel ((a + 1) * 0x1000) end_ ke meta ms bm1 (bm_count bm1)
                = Some (bm', bm_count bm') /\ bm_ok bm' /\ words bm' = words bm /\
    forall q, bm_free bm' q = bm_free bm q ||
      ((a <=? q) && ((q + 1) * 0x1000 <=? end_) && eligible ke meta ms q)) as Hcont.
  { intros bm1 Hok1 Hw1 Heq1.
    destruct (IH (a + 1) bm1) as (bm' & -> & Hok' & Hw' & Heq'); [lia.. | done | lia |].
    exists bm'. split; [done |]. split; [done |]. split; [congruence |]. intros q.
    rewrite Heq', Heq1, <- orb_assoc. f_equal.
    destruct (Z.eqb_spec q a) as [-> | Hq]; [| rewrite Hnext by done; done].
    destruct (Z.leb_spec (a + 1) a); [lia |]. rewrite orb_false_r.
    destruct (Z.leb_spec a a), (Z.leb_spec ((a + 1) * 0x1000) end_); try lia. done. }
  destruct ((a * 0x1000 <? ke) || ((meta <=? a * 0x1000) && (a * 0x1000 <? meta + ms))) eqn:Hskip.
  - apply Hcont; [done | done |]. intros q.
    destruct (Z.eqb_spec q a) as [-> | ?]; [| by rewrite orb_false_r].
    assert (eligible ke meta ms a = false) as ->; [| by rewrite orb_false_r].
    unfold eligible, PAGE_SIZE. revert Hskip. zcases; done.
  - assert (eligible ke meta ms a = true) as Hel
      by (unfold eligible, PAGE_SIZE; revert Hskip; zcases; done).
    assert (0 <= a < 64 * words bm) as Hrange by nia.
    rewrite TEST_BIT_spec by done. rewrite option_bind_Some_fun, negb_involutive.
    destruct (bm_free bm a) eqn:Hfa.
    + apply Hcont; [done | done |]. intros q.
      destruct (Z.eqb_spec q a) as [-> | ?]; [by rewrite Hfa | by rewrite orb_false_r].
    + destruct (CLEAR_BIT_spec bm a Hok Hrange) as (bm1 & -> & Hok1 & Hw1 & Heq1).
      rewrite option_bind_Some_fun, <- (bm_count_grow bm bm1 a) by done.
      apply Hcont; [done | done |]. intros q. rewrite Heq1. f_equal.
      destruct (Z.eqb_spec q a) as [-> | ?]; [by rewrite Hel | done].
Qed.

Lemma region_start r : region_ok r -> exists a, PAGE_ALIGN_UP (mr_addr r) = a * PAGE_SIZE /\
  0 <= a <= 2 ^ 41 /\ forall q, (a <=? q) = (mr_addr r <=? q * PAGE_SIZE).
Proof.
  intros (H0 & H1 & H2).
  destruct (PAGE_ALIGN_UP_bounds (mr_addr r)) as [Hb Hm]; [unfold PAGE_SIZE; lia |].
  exists (PAGE_ALIGN_UP (mr_addr r) / PAGE_SIZE).
  apply Z.div_exact in Hm; [| unfold PAGE_SIZE; lia].
  rewrite Z.mul_comm in Hm. split; [done |].
  set (a := PAGE_ALIGN_UP (mr_addr r) / PAGE_SIZE) in *. unfold PAGE_SIZE in *.
  split; [lia |]. intros q.
  destruct (Z.leb_spec a q), (Z.leb_spec (mr_addr r) (q * 0x1000)); (done || lia).
Qed.

Lemma release_regions_spec us ke meta ms bm : Forall region_ok us ->
  0 <= meta + ms < 2 ^ 64 -> bm_ok bm ->
  Forall (fun r => (mr_addr r + mr_length r) / PAGE_SIZE <= 64 * words bm) us ->
  exists bm', release_regions us ke meta ms bm (bm_count bm) = Some (bm', bm_count bm') /\
    bm_ok bm' /\ words bm' = words bm /\
    forall q, bm_free bm' q =
      bm_free bm q || (existsb (fun r => inside r q) us && eligible ke meta ms q).
Proof.
  intros Hus Hmeta. revert bm. induction Hus as [| r us Hr Hus IH]; intros bm Hok Hlen.
  { exists bm. repeat (split; [done |]). intros q. simpl. by rewrite orb_false_r. }
  apply Forall_cons_iff in Hlen as [Hl Hls]. cbn [release_regions].
  destruct (region_start r Hr) as (a & -> & Ha & Hge). destruct Hr as (H0 & H1 & H2).
  rewrite u64_small by lia.
  destruct (release_region_spec (region_fuel (mr_addr r + mr_length r)) a
    (mr_addr r + mr_length r) ke meta ms bm) as (bm1 & -> & Hok1 & Hw1 & Heq1);
    [lia | lia | unfold region_fuel; lia | unfold region_fuel | done | done | done |].
  { rewrite Nat2Z.inj_succ, Z2Nat.id by (apply Z.div_pos; unfold PAGE_SIZE; lia). lia. }
  rewrite option_bind_Some_fun.
  destruct (IH bm1 Hok1) as (bm2 & -> & Hok2 & Hw2 & Heq2); [by rewrite Hw1 |].
  exists bm2. split; [done |]. split; [done |]. split; [congruence |]. intros q.
  rewrite Heq2, Heq1, <- orb_assoc, Hge. f_equal. simpl. unfold inside at 2.
  by rewrite andb_orb_distrib_l.
Qed.

(** The regions [pmm_initialize] hands out pages of. *)
Definition available (mb : multiboot_info) : list memory_region :=
  List.filter (fun r => mr_type r =? MEMORY_AVAILABLE)
    (take (Z.to_nat (Z.min (region_count mb) MAX_MEMORY_REGIONS)) (regions mb)).

Definition region_end (r : memory_region) : Z := mr_addr r + mr_length r.

Lemma collect_regions_spec n k rs us limit : Forall region_ok rs -> (k + n <= length rs)%nat ->
  0 <= limit <= 2 ^ 52 ->
  let us' := List.filter (fun r => mr_type r =? MEMORY_AVAILABLE) (take n (drop k rs)) in
  exists limit', collect_regions n (Z.of_nat k) rs us limit = Some (us ++ us', limit') /\
    limit <= limit' <= 2 ^ 52 /\
    Forall (fun r => region_end r / PAGE_SIZE <= limit' / PAGE_SIZE) us'.
Proof.
  intros Hok. revert k us limit. induction n as [| n IH]; intros k us limit Hk Hl; simpl.
  { exists limit. rewrite app_nil_r. repeat split; [lia | lia | constructor]. }
  destruct (drop k rs) as [| r rest] eqn:Hd.
  { exfalso. apply (f_equal length) in Hd. rewrite length_drop in Hd. simpl in Hd. lia. }
  assert (rs !! k = Some r) as Hr.
  { rewrite <- (take_drop k rs), lookup_app_r; rewrite length_take; [| lia].
    rewrite Hd. by replace (k - k `min` length rs)%nat with 0%nat by lia. }
  assert (drop (S k) rs = rest) as Hd'
    by (rewrite <- (Nat.add_1_r k), <- drop_drop, Hd; done).
  assert (rd rs (Z.of_nat k) = Some r) as ->
    by (unfold rd; rewrite Nat2Z.id; destruct (Z.ltb_spec (Z.of_nat k) 0); [lia | done]).
  rewrite option_bind_Some_fun. replace (Z.of_nat k + 1) with (Z.of_nat (S k)) by lia.
  pose proof (Forall_lookup_1 _ _ _ _ Hok Hr) as (H0 & H1 & H2).
  simpl. destruct (mr_type r =? MEMORY_AVAILABLE) eqn:Ht; simpl.
  - rewrite u64_small, land_page_mask by (unfold is_u; lia).
    set (e := (mr_addr r + mr_length r) / PAGE_SIZE * PAGE_SIZE).
    assert (0 <= e <= mr_addr r + mr_length r) as He.
    { unfold e. split; [apply Z.mul_nonneg_nonneg; [apply Z.div_pos |]; unfold PAGE_SIZE; lia |].
      rewrite Z.mul_comm. apply Z.mul_div_le. unfold PAGE_SIZE; lia. }
    destruct (IH (S k) (us ++ [r]) (if limit <? e then e else limit))
      as (limit' & -> & Hl' & Hf'); [lia | zcases |].
    rewrite Hd' in *. exists limit'. split; [by rewrite <- app_assoc |].
    split; [revert Hl'; zcases |]. constructor; [| done].
    unfold region_end. rewrite <- (Z.div_mul ((mr_addr r + mr_length r) / PAGE_SIZE) PAGE_SIZE)
      by (unfold PAGE_SIZE; lia).
    apply Z.div_le_mono; [unfold PAGE_SIZE; lia |]. fold e. revert Hl'; zcases.
  - destruct (IH (S k) us limit) as (limit' & -> & Hl' & Hf'); [lia | lia |].
    rewrite Hd' in *. exists limit'. done.
Qed.

(** Room for [size] bytes between the kernel and the end of the identity map. *)
Definition has_room (kernel_end size : Z) (r : memory_region) (at_ : Z) : Prop :=
  at_ = Z.max (PAGE_ALIGN_UP (mr_addr r)) kernel_end /\
  at_ + size <= Z.min (region_end r) IDENTITY_MAP_SIZE.

Lemma place_metadata_spec us ke size : Forall region_ok us -> 0 < ke <= 2 ^ 53 ->
  0 <= size <= 2 ^ 53 ->
  (place_metadata us ke size = 0 /\ forall r at_, r ∈ us -> ~ has_room ke size r at_) \/
  (0 < place_metadata us ke size /\ exists r, r ∈ us /\
     has_room ke size r (place_metadata us ke size)).
Proof.
  intros Hus Hke Hsize. induction Hus as [| r us Hr Hus IH].
  { left. split; [done |]. intros r at_ Hin. by apply not_elem_of_nil in Hin. }
  cbn [place_metadata]. pose proof Hr as (H0 & H1 & H2).
  destruct (PAGE_ALIGN_UP_bounds (mr_addr r)) as [Hb _]; [unfold PAGE_SIZE; lia |].
  set (s := PAGE_ALIGN_UP (mr_addr r)) in *. rewrite (u64_small (mr_addr r + mr_length r)) by lia.
  replace (if s <? ke then ke else s) with (Z.max s ke) by zcases.
  replace (if IDENTITY_MAP_SIZE <? mr_addr r + mr_length r then IDENTITY_MAP_SIZE
           else mr_addr r + mr_length r) with (Z.min (region_end r) IDENTITY_MAP_SIZE)
    by (unfold region_end; zcases).
  unfold PAGE_SIZE in Hb. rewrite u64_small by lia.
  destruct (Z.leb_spec (Z.max s ke + size) (Z.min (region_end r) IDENTITY_MAP_SIZE)) as [Hle | Hgt].
  - right. split; [lia |]. exists r. split; [by left |]. done.
  - destruct IH as [[-> Hno] | (Hpos & r' & Hin & Hroom)].
    + left. split; [done |]. intros r' at_ [-> | Hin]%elem_of_cons; [| by apply Hno].
      intros [-> Hroom]. fold s in Hroom. lia.
    + right. split; [done |]. exists r'. split; [by right | done].
Qed.

Lemma bm_free_replicate n q : bm_free (replicate n U64_MAX) q = false.
Proof.
  unfold bm_free. destruct (rd (replicate n U64_MAX) (q / 64)) as [w |] eqn:E; [| done].
  assert (w = U64_MAX) as ->.
  { revert E. unfold rd. destruct (q / 64 <? 0); [done |].
    intros [-> _]%lookup_replicate. done. }
  rewrite U64_MAX_ones, Z.ones_spec_low by apply page_offset_range. done.
Qed.

Lemma bm_count_replicate n : bm_count (replicate n U64_MAX) = 0.
Proof. apply zcount_zero. intros. apply bm_free_replicate. Qed.

(** Everything [pmm_initialize] establishes, for the region list [us], the end
    [ke] of the kernel and the place of the tables. *)
Record initialised (us : list memory_region) (ke meta meta_size : Z) (st : pmm) : Prop := {
  init_wf : pmm_wf st;
  init_tables : total_words st * 8 + total_pages st * 2 <= meta_size;
  init_room : exists r, r ∈ us /\ has_room ke meta_size r meta;
  init_free : forall q, page_free st q =
    existsb (fun r => inside r q) us && eligible ke meta meta_size q;
  init_count : pmm_total_pages st = free_count st;
}.

Lemma inside_bound us tp q : Forall (fun r => region_end r / PAGE_SIZE <= tp) us ->
  existsb (fun r => inside r q) us = true -> q < tp.
Proof.
  intros Hus (r & Hin & Hr)%existsb_exists.
  rewrite Forall_forall in Hus. specialize (Hus r Hin).
  unfold inside, region_end in *. apply andb_prop in Hr as [_ Hr%Z.leb_le].
  apply (Z.div_le_mono _ _ PAGE_SIZE) in Hr; [| unfold PAGE_SIZE; lia].
  rewrite Z.div_mul in Hr by (unfold PAGE_SIZE; lia). lia.
Qed.

Lemma eligible_pos ke meta ms q : 0 < ke -> eligible ke meta ms q = true -> 0 < q.
Proof. unfold eligible, PAGE_SIZE. intros H [Hle%Z.leb_le _]%andb_prop. lia. Qed.

Lemma rd_replicate {A} n (x : A) i : 0 <= i < Z.of_nat n -> rd (replicate n x) i = Some x.
Proof.
  intros H. unfold rd. destruct (Z.ltb_spec i 0); [lia |].
  apply lookup_replicate_2. lia.
Qed.

Lemma pmm_initialize_correct kve mb : 0 <= kve <= 2 ^ 52 -> 0 <= region_count mb ->
  (Z.to_nat (Z.min (region_count mb) MAX_MEMORY_REGIONS) <= length (regions mb))%nat ->
  Forall region_ok (regions mb) ->
  let ke := PAGE_ALIGN_UP (kve + 2048) in
  exists ms, (pmm_initialize kve mb = Some None /\
      forall r at_, r ∈ available mb -> ~ has_room ke ms r at_) \/
    (exists meta st, pmm_initialize kve mb = Some (Some st) /\
      initialised (available mb) ke meta ms st).
Proof.
  intros Hk Hrc Hlen Hok ke.
  assert (0 < ke <= 2 ^ 53) as Hke.
  { unfold ke. pose proof (PAGE_ALIGN_UP_bounds (kve + 2048)) as [Hb _];
      unfold PAGE_SIZE in *; lia. }
  unfold pmm_initialize. fold ke.
  destruct (collect_regions_spec (Z.to_nat (Z.min (region_count mb) MAX_MEMORY_REGIONS)) 0
              (regions mb) [] 0) as (limit & Hcol & Hl & Hends); [done | lia | lia |].
  rewrite drop_0 in *. change (Z.of_nat 0) with 0 in Hcol.
  change ([] ++ ?l) with l in Hcol. fold (available mb) in *. rewrite Hcol.
  rewrite option_bind_Some_fun. cbv beta iota zeta.
  set (tp := limit / PAGE_SIZE) in *. set (tw := (tp + 63) / 64) in *.
  assert (0 <= tp <= 2 ^ 40) as Htp.
  { unfold tp, PAGE_SIZE. split; [apply Z.div_pos; lia |].
    apply Z.div_le_upper_bound; lia. }
  assert (tp <= 64 * tw <= tp + 63) as Htw.
  { unfold tw. pose proof (Z.div_mod (tp + 63) 64 ltac:(lia)).
    pose proof (Z.mod_pos_bound (tp + 63) 64 ltac:(lia)). lia. }
  set (ms := PAGE_ALIGN_UP (tw * 8 + tp * 2)) in *.
  assert (tw * 8 + tp * 2 <= ms <= 2 ^ 53) as Hms.
  { unfold ms. pose proof (PAGE_ALIGN_UP_bounds (tw * 8 + tp * 2)) as [Hb _];
      unfold PAGE_SIZE in *; lia. }
  assert (Forall region_ok (available mb)) as Hav.
  { apply Forall_forall. intros r [Hin _]%filter_In.
    pose proof (Forall_take _ (Z.to_nat (Z.min (region_count mb) MAX_MEMORY_REGIONS)) _ Hok) as Ht.
    rewrite Forall_forall in Ht. by apply Ht. }
  exists ms.
  destruct (place_metadata_spec (available mb) ke ms Hav Hke) as [[-> Hno] | (Hpos & r & Hin & Hroom)];
    [lia | left; auto |].
  right. set (meta := place_metadata (available mb) ke ms) in *.
  destruct (Z.eqb_spec meta 0) as [? | _]; [lia |].
  destruct (release_regions_spec (available mb) ke meta ms (replicate (Z.to_nat tw) U64_MAX))
    as (bm & Hrel & Hbok & Hbw & Hbf); [done | | | |].
  { destruct Hroom as [_ Hroom]. unfold IDENTITY_MAP_SIZE in Hroom. lia. }
  { apply Forall_replicate. unfold is_u, U64_MAX. lia. }
  { unfold words. rewrite length_replicate.
    eapply Forall_impl; [| exact Hends]. unfold region_end. simpl. intros; lia. }
  rewrite bm_count_replicate in Hrel. rewrite Hrel, option_bind_Some_fun. cbv beta iota zeta.
  exists meta. eexists. split; [done |].
  assert (words bm = tw) as Hwords by (rewrite Hbw; unfold words; rewrite length_replicate; lia).
  assert (forall q, bm_free bm q =
    existsb (fun r => inside r q) (available mb) && eligible ke meta ms q) as Hfree.
  { intros q. rewrite Hbf, bm_free_replicate. done. }
  assert (forall q, bm_free bm q = true -> 0 < q < tp) as Htail.
  { intros q. rewrite Hfree. intros [Hi He]%andb_prop. split.
    - by apply (eligible_pos ke meta ms); [lia |].
    - by eapply inside_bound. }
  constructor; simpl; [| lia | by exists r | done |].
  - constructor; simpl; auto.
    + rewrite length_replicate. lia.
    + apply Forall_replicate. unfold is_u. lia.
    + change LOW_WORDS with 16384. destruct (Z.ltb_spec tw 16384); lia.
    + change LOW_WORDS with 16384. change BOOT_WORDS with 4096.
      destruct (Z.ltb_spec tw 16384), (Z.ltb_spec tw 4096); lia.
    + intros q Hq%Htail. apply rd_replicate. lia.
    + change LOW_WORDS with 16384. destruct (Z.ltb_spec tw 16384); lia.
    + intros; lia.
    + change LOW_WORDS with 16384. destruct (Z.ltb_spec tw 16384); lia.
    + intros; lia.
  - unfold pmm_total_pages, free_count, bm_count. simpl. f_equal.
    unfold words in Hwords. lia.
Qed.
