(* ===== verification/PmmSpec.v ===== *)
(** * Contract of the physical page allocator

    The abstract allocator keeps, for every page, the number of its owners.
    [pmm_simulation] shows that every operation of pmm.c implements one step of
    it and never leaves its tables; the other theorems state what the contract
    leaves open: where a page is placed, that a refusal means exhaustion, the
    accounting, and the state the boot code starts from. *)

From Stdlib Require Import ZArith Lia Bool.
From stdpp Require Import base list option.
From S2P Require Import Prelude Mmu Pmm PmmFacts.
Local Open Scope Z_scope.

(** ** The abstract allocator *)

Inductive pmm_op :=
  | OpTake
  | OpTakeRun (count : Z)
  | OpFree (page : Z)
  | OpShare (page : Z).

Section spec.
(* pages that exist, and pages the kernel can reach *)
Context (tp visible : Z).

Inductive spec_step (own : Z -> Z) : pmm_op -> Z -> (Z -> Z) -> Prop :=
| spec_take p own' :
    0 < p < tp -> p < visible -> own p = 0 ->
    (forall q, own' q = if q =? p then 1 else own q) ->
    spec_step own OpTake (p * PAGE_SIZE) own'
| spec_take_none own' :
    (forall p, 0 <= p < visible -> own p <> 0) ->
    (forall q, own' q = own q) ->
    spec_step own OpTake 0 own'
| spec_run p count own' :
    0 < p -> p + count <= tp -> p + count <= visible ->
    (forall q, p <= q < p + count -> own q = 0) ->
    (forall q, own' q = if in_run p count q then 1 else own q) ->
    spec_step own (OpTakeRun count) (p * PAGE_SIZE) own'
| spec_run_none count own' :
    (forall p, 0 <= p -> p + count <= visible ->
      ~ forall q, p <= q < p + count -> own q = 0) ->
    (forall q, own' q = own q) ->
    spec_step own (OpTakeRun count) 0 own'
| spec_free page own' :
    (forall q, own' q =
      if (q =? page / PAGE_SIZE) && ((0 <? q) && (q <? tp)) then Z.max 0 (own q - 1)
      else own q) ->
    spec_step own (OpFree page) 0 own'
| spec_share page own' :
    (forall q, own' q =
      if (q =? page / PAGE_SIZE) && (q <? tp) && (own q <? 0x10000) then own q + 1
      else own q) ->
    spec_step own (OpShare page) 0 own'.
End spec.

(** The operation of pmm.c behind each abstract one. *)
Definition run_op (op : pmm_op) (st : pmm) : option (Z * pmm) :=
  match op with
  | OpTake => take_page st
  | OpTakeRun count => take_pages count st
  | OpFree page => st' ← free_physical_page page st; Some (0, st')
  | OpShare page => st' ← pmm_share_page page st; Some (0, st')
  end.

(** What a caller must respect: page addresses are addresses, a run has at
    least a page, and only a page in use is shared. *)
Definition valid_op (op : pmm_op) (st : pmm) : Prop :=
  match op with
  | OpTake => True
  | OpTakeRun count => 1 <= count
  | OpFree page => 0 <= page < 2 ^ 64
  | OpShare page => 0 <= page /\ page_free st (page / PAGE_SIZE) = false
  end.

(** ** Owners and free pages *)

Lemma owners_nonneg st q : pmm_wf st -> 0 <= owners st q.
Proof.
  intros []. unfold owners. destruct (page_free st q); [lia |].
  destruct (rd (shared_refs st) q) eqn:E; simpl; [| lia].
  pose proof (rd_Forall _ _ _ _ wf_refs E) as H. unfold is_u in H. lia.
Qed.

Lemma owners_free st q : pmm_wf st -> owners st q = 0 <-> page_free st q = true.
Proof.
  intros Hwf. pose proof Hwf as []. unfold owners.
  destruct (page_free st q) eqn:E; [done |]. split; [| done].
  destruct (rd (shared_refs st) q) eqn:Er; simpl; [| lia].
  pose proof (rd_Forall _ _ _ _ wf_refs Er) as H. unfold is_u in H. lia.
Qed.

(** Taking pages that were free gives each of them exactly one owner. *)
Lemma owners_taken st st' (taken : Z -> bool) : pmm_wf st ->
  shared_refs st' = shared_refs st ->
  (forall q, taken q = true -> page_free st q = true) ->
  (forall q, page_free st' q = page_free st q && negb (taken q)) ->
  forall q, owners st' q = if taken q then 1 else owners st q.
Proof.
  intros [] Hrefs Ht Heq q. unfold owners. rewrite Heq, Hrefs.
  destruct (taken q) eqn:E; [| by rewrite andb_true_r].
  rewrite andb_false_r, (wf_unshared q) by by apply Ht. done.
Qed.

Lemma free_physical_page_eq page st : 0 <= page < 2 ^ 64 ->
  free_physical_page page st = free_page_locked page st.
Proof.
  intros H. unfold free_physical_page, free_physical_pages. simpl.
  rewrite Z.add_0_r, u64_small by done. by destruct (free_page_locked page st).
Qed.

Lemma same_layout_visible st st' : same_layout st st' -> visible_words st' = visible_words st.
Proof.
  unfold same_layout, visible_words, direct_map_ready. intros (_ & -> & _ & -> & _ & ->). done.
Qed.

Lemma take_page_layout st a st' : take_page st = Some (a, st') -> same_layout st st'.
Proof.
  unfold take_page. destruct (direct_map_ready st).
  - intros H. apply bind_Some in H as ([[p h] bm] & _ & H). destruct (negb (p =? 0)).
    + by simplify_eq.
    + apply bind_Some in H as ([[p2 h2] bm2] & _ & H). by simplify_eq.
  - intros H. apply bind_Some in H as ([[p h] bm] & _ & H). by simplify_eq.
Qed.

(** ** One step *)

Lemma simulation_step st op : pmm_wf st -> valid_op op st ->
  exists r st', run_op op st = Some (r, st') /\ pmm_wf st' /\ same_layout st st' /\
    spec_step (total_pages st) (64 * visible_words st) (owners st) op r (owners st').
Proof.
  intros Hwf Hv. destruct op as [| count | page | page]; simpl in *.
  - destruct (take_page_correct st Hwf) as (a & st' & Hr & Hwf' & Hrefs & _ & _ & Hres).
    exists a, st'. split; [done |]. split; [done |]. split; [by eapply take_page_layout |].
    destruct Hres as [(p & -> & Hp & Hvis & Hf & _ & Heq) | (-> & Hno & Heq)].
    + apply spec_take; [done | done | by apply owners_free |].
      apply (owners_taken st st' (fun q => q =? p)); [done | done | | done].
      intros q ->%Z.eqb_eq. done.
    + apply spec_take_none.
      * intros p Hp Ho%owners_free; [| done]. rewrite Hno in Ho; done.
      * apply (owners_taken st st' (fun _ => false)); [done | done | done |].
        intros q. by rewrite andb_true_r.
  - destruct (take_pages_correct st count Hwf Hv) as (a & st' & -> & Hwf' & Hlay & Hrefs & Hres).
    exists a, st'. repeat (split; [done |]).
    destruct Hres as [(p & -> & Hp & Htp & Hvis & Hrun & _ & Heq) | (-> & -> & Hno)].
    + apply spec_run; [done | done | done | |].
      * intros q Hq. apply owners_free; [done |]. by apply Hrun.
      * apply (owners_taken st st' (in_run p count)); [done | done | | done].
        intros q Hq. apply Hrun. revert Hq. unfold in_run. zcases; done.
    + apply spec_run_none; [| done]. intros p Hp Hpc Hall. apply (Hno p Hp Hpc).
      intros q Hq. apply owners_free; [done | by apply Hall].
  - rewrite free_physical_page_eq by done.
    destruct (free_page_locked_spec st page Hwf) as (st' & -> & Hwf' & Hlay & Ho); [lia |].
    exists 0, st'. repeat (split; [done |]). apply spec_free. exact Ho.
  - destruct Hv as [H0 Hnf].
    destruct (pmm_share_page_spec st page Hwf H0 Hnf) as (st' & -> & Hwf' & Hlay & _ & Ho).
    exists 0, st'. repeat (split; [done |]). apply spec_share. exact Ho.
Qed.

(** ** Reachable states *)

Inductive pmm_reachable : pmm -> Prop :=
  | reach_init us ke meta ms st : initialised us ke meta ms st -> pmm_reachable st
  | reach_op st op r st' :
      pmm_reachable st -> valid_op op st -> run_op op st = Some (r, st') -> pmm_reachable st'
  | reach_direct_map st offset :
      pmm_reachable st -> pmm_reachable (set_direct_map_offset offset st).

Lemma reachable_wf st : pmm_reachable st -> pmm_wf st.
Proof.
  induction 1 as [us ke meta ms st Hi | st op r st' _ IH Hv Hr | st o _ IH].
  - by destruct Hi.
  - destruct (simulation_step st op IH Hv) as (r2 & st2 & Hr2 & Hwf & _). congruence.
  - destruct IH. by constructor.
Qed.

(** ** The interface to the page cache

    What [alloc_physical_page] relies on: reclaiming keeps the allocator well
    formed, never takes a page, the number it reports is the number of pages
    that became free, and it falls short of what was wanted only when every
    cached page is busy ([cache_busy]). *)

Class ReclaimerOk (C : Type) `{!Reclaimer C} := {
  cache_inv : C -> pmm -> Prop;
  cache_busy : C -> pmm -> Prop;
  reclaim_ok : forall want c st, pmm_wf st -> cache_inv c st -> 0 <= want ->
    exists freed c' st', pcache_reclaim_op want c st = Some (freed, c', st') /\
      pmm_wf st' /\ cache_inv c' st' /\ same_layout st st' /\
      0 <= freed <= want /\ free_count st' = free_count st + freed /\
      (forall q, page_free st q = true -> page_free st' q = true) /\
      (freed < want -> cache_busy c' st');
  cache_inv_taken : forall c st st', pmm_wf st -> cache_inv c st ->
    same_layout st st' -> shared_refs st' = shared_refs st ->
    (forall q, page_free st' q = true -> page_free st q = true) -> cache_inv c st';
}.

Section alloc_facts.
Context {C : Type} `{!Reclaimer C, !ReclaimerOk C}.

Lemma no_page_count st a st' : pmm_wf st -> direct_map_ready st = true ->
  no_page st a st' -> free_count st = 0.
Proof.
  intros Hwf Hdm (_ & Hno & _). apply zcount_zero. intros j Hj. apply Hno.
  unfold visible_words. rewrite Hdm. destruct Hwf. lia.
Qed.

Lemma took_page_nonzero st a st' : took_page st a st' -> a <> 0.
Proof. intros (p & -> & Hp & _). unfold PAGE_SIZE. lia. Qed.

Lemma took_page_sub st a st' q : took_page st a st' \/ no_page st a st' ->
  page_free st' q = true -> page_free st q = true.
Proof.
  intros [(p & _ & _ & _ & _ & _ & ->) | (_ & _ & ->)]; [| done]. by intros [??]%andb_prop.
Qed.

Lemma took_page_count st a st' : pmm_wf st -> total_words st' = total_words st -> took_page st a st' ->
  free_count st' = free_count st - 1.
Proof.
  intros Hwf Hw (p & _ & Hp & _ & Hf & _ & Heq). unfold free_count. rewrite Hw.
  enough (zcount (page_free st) (Z.to_nat (total_words st) * 64) 0 =
          zcount (page_free st') (Z.to_nat (total_words st) * 64) 0 + 1) by lia.
  apply (zcount_remove _ _ _ _ p); [| done | done].
  pose proof (bm_free_range _ _ Hf) as Hrange. destruct Hwf. rewrite wf_words in Hrange. lia.
Qed.

(** A page that some address names was free in [st] and is in use in [st']. *)
Definition newly_taken (st : pmm) (a : Z) (st' : pmm) : Prop :=
  exists p, a = p * PAGE_SIZE /\ 0 < p < total_pages st /\ page_free st' p = false /\
    owners st' p = 1.

Lemma took_page_newly st a st' : pmm_wf st -> shared_refs st' = shared_refs st ->
  took_page st a st' -> newly_taken st a st'.
Proof.
  intros Hwf Hrefs (p & -> & Hp & _ & Hf & _ & Heq). exists p.
  split; [done |]. split; [done |].
  assert (page_free st' p = false) as Hpf by by rewrite Heq, Z.eqb_refl, andb_false_r.
  split; [done |].
  rewrite (owners_taken st st' (fun q => q =? p)); [by rewrite Z.eqb_refl | done | done | | done].
  intros q ->%Z.eqb_eq. done.
Qed.

Lemma alloc_physical_page_spec c st : pmm_wf st -> cache_inv c st ->
  direct_map_ready st = true ->
  exists a c' st', alloc_physical_page c st = Some (a, c', st') /\
    pmm_wf st' /\ cache_inv c' st' /\ same_layout st st' /\
    (newly_taken st a st' \/
     (a = 0 /\ free_count st = 0 /\ free_count st' = 0 /\ cache_busy c' st')).
Proof.
  intros Hwf Hinv Hdm. unfold alloc_physical_page.
  destruct (take_page_correct st Hwf) as (a & st1 & Htk & Hwf1 & Hrefs1 & _ & _ & Hres).
  rewrite Htk, option_bind_Some_fun. pose proof (take_page_layout _ _ _ Htk) as Hlay1.
  assert (cache_inv c st1) as Hinv1
    by (apply (cache_inv_taken c st st1); auto; intros q; by apply (took_page_sub st a st1)).
  destruct Hres as [Htook | Hno].
  { pose proof (took_page_nonzero _ _ _ Htook) as Hne%Z.eqb_neq. rewrite Hne.
    do 3 eexists. split; [done |]. repeat (split; [done |]). left.
    by apply took_page_newly. }
  pose proof Hno as (-> & _ & Hsame). cbn [Z.eqb].
  pose proof (no_page_count _ _ _ Hwf Hdm Hno) as Hc0.
  assert (free_count st1 = 0) as Hc1.
  { rewrite <- Hc0. unfold free_count. destruct Hlay1 as (_ & -> & _).
    apply zcount_ext. intros; apply Hsame. }
  destruct (reclaim_ok RECLAIM_BATCH c st1 Hwf1 Hinv1) as
    (freed & c2 & st2 & -> & Hwf2 & Hinv2 & Hlay2 & Hfr & Hcount & Hmono & Hbusy);
    [unfold RECLAIM_BATCH; lia |]. rewrite option_bind_Some_fun.
  pose proof (same_layout_trans _ _ _ Hlay1 Hlay2) as Hlay12.
  destruct (Z.eqb_spec freed 0) as [-> | Hne]; cbn [negb].
  { do 3 eexists. split; [done |]. repeat (split; [done |]). right. split; [done |]. split; [lia |]. split; [lia |]. apply Hbusy. unfold RECLAIM_BATCH. lia. }
  destruct (take_page_correct st2 Hwf2) as (a & st3 & Htk3 & Hwf3 & Hrefs3 & _ & _ & Hres).
  rewrite Htk3, option_bind_Some_fun. pose proof (take_page_layout _ _ _ Htk3) as Hlay3.
  do 3 eexists. split; [done |]. split; [done |].
  split; [apply (cache_inv_taken c2 st2 st3); auto; intros q; by apply (took_page_sub st2 a st3) |].
  split; [by eapply same_layout_trans |].
  destruct Hres as [Htook | Hno3].
  - left. destruct (took_page_newly _ _ _ Hwf2 Hrefs3 Htook) as (p & ? & Hp & ?).
    exists p. destruct Hlay12 as (Htp & _). rewrite Htp in Hp. done.
  - exfalso. assert (direct_map_ready st2 = true) as Hdm2.
    { unfold direct_map_ready in *. destruct Hlay12 as (_ & _ & _ & _ & _ & ->). done. }
    pose proof (no_page_count _ _ _ Hwf2 Hdm2 Hno3). lia.
Qed.
End alloc_facts.
