(* ===== verification/Pagecache.v ===== *)
(** * The page cache

    src/src/kernel/drivers/fs/pagecache/pagecache.c: per file an array of
    cached pages (0 = not cached), and the list of all caches in the order in
    which reclaim visits them.  The operations run under [pcache_lock].  The
    list of caches is the abstract list that [Dlist] shows utils/queue to
    implement; page contents are not part of this model, so [pcache_update]
    and the zeroing at the end of [pcache_truncate] are left out. *)

From Stdlib Require Import ZArith Lia Bool.
From stdpp Require Import base list option gmap.
From S2P Require Import Prelude Mmu Pmm PmmFacts PmmSpec.
Local Open Scope Z_scope.

(** [struct page_cache]; [count] is the length of [pages]. *)
Record page_cache := PageCache {
  pages : list Z;
  listed : bool;
}.

(** The caches by address, and the dlist [caches]. *)
Record pcaches := PCaches {
  store : gmap Z page_cache;
  caches : list Z;
}.

Definition pc_count (pc : page_cache) : Z := Z.of_nat (length (pages pc)).

Definition lookup_locked (pc : page_cache) (index : Z) : option Z :=
  if index <? pc_count pc then rd (pages pc) index else Some 0.

(** [ok] is the answer of [malloc]. *)
Definition grow_locked (ok : bool) (pc : page_cache) (index : Z) : option page_cache :=
  let count := if negb (pc_count pc =? 0) then u64 (pc_count pc * 2) else 16 in
  let count := if count <=? index then u64 (index + 1) else count in
  if ok then
    Some (PageCache (pages pc ++ replicate (Z.to_nat (count - pc_count pc)) 0) (listed pc))
  else None.

Definition pcache_get (pc : page_cache) (index : Z) (st : pmm) : option (Z * pmm) :=
  page ← lookup_locked pc index;
  if negb (page =? 0) then
    st' ← pmm_share_page (virt_to_phys page) st;
    Some (page, st')
  else Some (page, st).

Definition pcache_present (pc : page_cache) (index : Z) : option bool :=
  page ← lookup_locked pc index;
  Some (negb (page =? 0)).

Definition remove_locked (index : Z) (pc : page_cache) (st : pmm) : option (page_cache * pmm) :=
  if index <? pc_count pc then
    page ← rd (pages pc) index;
    if negb (page =? 0) then
      st' ← free_kernel_page page st;
      ps ← wr (pages pc) index 0;
      Some (PageCache ps (listed pc), st')
    else Some (pc, st)
  else Some (pc, st).

(** [remove_locked] at the [n] indices from [i]. *)
Fixpoint remove_from (n : nat) (i : Z) (pc : page_cache) (st : pmm) : option (page_cache * pmm) :=
  match n with
  | O => Some (pc, st)
  | S n' =>
      '(pc', st') ← remove_locked i pc st;
      remove_from n' (i + 1) pc' st'
  end.

Definition pcache_remove (id index : Z) (c : pcaches) (st : pmm) : option (pcaches * pmm) :=
  pc ← store c !! id;
  '(pc', st') ← remove_locked index pc st;
  Some (PCaches (<[id := pc']> (store c)) (caches c), st').

Definition pcache_destroy (id : Z) (c : pcaches) (st : pmm) : option (pcaches * pmm) :=
  pc ← store c !! id;
  '(pc', st') ← remove_from (length (pages pc)) 0 pc st;
  let list := if listed pc' then List.filter (fun x => negb (x =? id)) (caches c)
              else caches c in
  Some (PCaches (<[id := PageCache [] false]> (store c)) list, st').

(** The inner loop of [pcache_reclaim], over the slots that are left. *)
Fixpoint reclaim_pages (ps : list Z) (want freed : Z) (st : pmm)
  : option (list Z * Z * pmm) :=
  match ps with
  | [] => Some ([], freed, st)
  | page :: rest =>
      if negb (freed <? want) then Some (ps, freed, st)
      else
        keep ← (if page =? 0 then Some true else pmm_page_shared (virt_to_phys page) st);
        if keep : bool then
          '(rest', freed', st') ← reclaim_pages rest want freed st;
          Some (page :: rest', freed', st')
        else
          st' ← free_kernel_page page st;
          '(rest', freed', st'') ← reclaim_pages rest want (freed + 1) st';
          Some (0 :: rest', freed', st'')
  end.

(** The outer loop: [n] caches left to scan.  The first cache of the list goes
    to its end. *)
Fixpoint reclaim_loop (n : nat) (want freed : Z) (c : pcaches) (st : pmm)
  : option (Z * pcaches * pmm) :=
  match n with
  | O => Some (freed, c, st)
  | S n' =>
      if negb (freed <? want) then Some (freed, c, st)
      else
        match caches c with
        | [] => None
        | id :: rest =>
            pc ← store c !! id;
            '(ps, freed', st') ← reclaim_pages (pages pc) want freed st;
            reclaim_loop n' want freed'
              (PCaches (<[id := PageCache ps (listed pc)]> (store c)) (rest ++ [id])) st'
        end
  end.

Definition pcache_reclaim (want : Z) (c : pcaches) (st : pmm) : option (Z * pcaches * pmm) :=
  reclaim_loop (length (caches c)) want 0 c st.

#[export] Instance pcaches_reclaimer : Reclaimer pcaches := pcache_reclaim.

(** [ok] is the answer of the [malloc] of [grow_locked], when it is called. *)
Definition pcache_insert (ok : bool) (id index : Z) (c : pcaches) (st : pmm)
  : option (Z * pcaches * pmm) :=
  '(fresh, c, st) ← alloc_kernel_page c st;
  if fresh =? 0 then Some (0, c, st)
  else
    pc ← store c !! id;
    match (if pc_count pc <=? index then grow_locked ok pc index else Some pc) with
    | None => st' ← free_kernel_page fresh st; Some (0, c, st')
    | Some pc =>
        let list := if negb (listed pc) then caches c ++ [id] else caches c in
        page ← rd (pages pc) index;
        '(page, ps, spare) ←
          (if page =? 0 then ps ← wr (pages pc) index fresh; Some (fresh, ps, 0)
           else Some (page, pages pc, fresh));
        st ← pmm_share_page (virt_to_phys page) st;
        let c := PCaches (<[id := PageCache ps true]> (store c)) list in
        st ← (if negb (spare =? 0) then free_kernel_page spare st else Some st);
        Some (page, c, st)
    end.

(** ** The invariant between the caches and the allocator *)

Definition pages_of (c : pcaches) (id : Z) : list Z :=
  match store c !! id with
  | Some pc => List.filter (fun v => negb (v =? 0)) (pages pc)
  | None => []
  end.

(** The physical page numbers the listed caches hold, with repetitions. *)
Definition page_no (v : Z) : Z := virt_to_phys v / PAGE_SIZE.
Definition cached (c : pcaches) : list Z := flat_map (pages_of c) (caches c).

Definition page_addr_ok (v : Z) : Prop :=
  0 <= v < 2 ^ 64 /\ virt_to_phys v mod PAGE_SIZE = 0.

Record pcache_ok (c : pcaches) (st : pmm) : Prop := {
  pco_nodup : NoDup (caches c);
  pco_store : forall id, id ∈ caches c -> is_Some (store c !! id);
  pco_addr : Forall page_addr_ok (cached c);
  pco_distinct : NoDup (map page_no (cached c));
  pco_used : forall v, v ∈ cached c ->
    0 < page_no v < total_pages st /\ page_free st (page_no v) = false;
}.
