(* ===== verification/PagecacheFacts.v ===== *)
(** * Correctness of page reclaim *)

From Stdlib Require Import ZArith Lia Bool.
From stdpp Require Import base list option gmap.
From S2P Require Import Prelude Mmu Pmm PmmFacts PmmSpec Pagecache.
Local Open Scope Z_scope.

(** ** The allocator operations reclaim uses *)

Lemma free_last_owner st a : pmm_wf st -> 0 <= a < 2 ^ 64 ->
  0 < a / PAGE_SIZE < total_pages st -> owners st (a / PAGE_SIZE) = 1 ->
  exists st', free_physical_page a st = Some st' /\ pmm_wf st' /\ same_layout st st' /\
    (forall q, page_free st' q = page_free st q || (q =? a / PAGE_SIZE)) /\
    (forall q, q <> a / PAGE_SIZE -> owners st' q = owners st q) /\
    free_count st' = free_count st + 1.
Proof.
  intros Hwf Ha Hk Ho. rewrite free_physical_page_eq by done.
  destruct (free_page_locked_spec st a Hwf) as (st' & -> & Hwf' & Hlay & Hown); [lia |].
  set (k := a / PAGE_SIZE) in *.
  assert (forall q, page_free st' q = page_free st q || (q =? k)) as Hfree.
  { intros q. apply eq_true_iff_eq. rewrite orb_true_iff, Z.eqb_eq.
    rewrite <- !owners_free by done. rewrite Hown.
    unfold managed. destruct (Z.eqb_spec q k) as [-> | ?]; simpl; [| lia].
    rewrite Ho. zcases. }
  assert (page_free st k = false) as Hkf.
  { apply not_true_is_false. intros ?%owners_free; [lia | done]. }
  exists st'. repeat (split; [done |]). split.
  - intros q Hq. rewrite Hown. destruct (Z.eqb_spec q k); done.
  - unfold free_count. destruct Hlay as (Htp & -> & _).
    assert (zcount (page_free st') (Z.to_nat (total_words st) * 64) 0
            = zcount (page_free st) (Z.to_nat (total_words st) * 64) 0 + 1) as ->; [| done].
    apply (zcount_remove _ _ _ _ k).
    + pose proof (page_in_bitmap st k Hwf ltac:(lia)) as Hr. destruct Hwf. rewrite wf_words in Hr. lia.
    + rewrite Hfree, Z.eqb_refl. apply orb_true_r.
    + intros j. rewrite Hfree. destruct (Z.eqb_spec j k) as [-> | ?]; [by rewrite Hkf |].
      by rewrite orb_false_r, andb_true_r.
Qed.

Lemma pmm_page_shared_spec st a : pmm_wf st -> 0 < a / PAGE_SIZE < total_pages st ->
  page_free st (a / PAGE_SIZE) = false ->
  pmm_page_shared a st = Some (1 <? owners st (a / PAGE_SIZE)).
Proof.
  intros Hwf Hk Hf. pose proof Hwf as []. unfold pmm_page_shared, owners. rewrite Hf.
  destruct (Z.ltb_spec (a / PAGE_SIZE) (total_pages st)); [| lia].
  destruct (rd_is_Some (shared_refs st) (a / PAGE_SIZE)) as [r Hr]; [lia |]. rewrite Hr. simpl.
  pose proof (rd_Forall _ _ _ _ wf_refs Hr) as Hu. unfold is_u in Hu. f_equal. zcases.
Qed.

Lemma virt_to_phys_range v : 0 <= v < 2 ^ 64 -> 0 <= virt_to_phys v < 2 ^ 64.
Proof. unfold virt_to_phys, DIRECT_MAP_BASE. intros. zcases. Qed.

(** ** The slots of one cache *)

Definition nz (ps : list Z) : list Z := List.filter (fun v => negb (v =? 0)) ps.

(** The pages of a list of slots are in use and no two slots share one. *)
Record slots_ok (ps : list Z) (st : pmm) : Prop := {
  so_addr : Forall page_addr_ok (nz ps);
  so_distinct : NoDup (map page_no (nz ps));
  so_used : forall v, v ∈ nz ps ->
    0 < page_no v < total_pages st /\ page_free st (page_no v) = false;
}.

(** What reclaiming slots [ps] into [ps'] did to the allocator. *)
Record reclaimed (ps ps' : list Z) (n : Z) (st st' : pmm) : Prop := {
  rc_wf : pmm_wf st';
  rc_layout : same_layout st st';
  rc_sub : sublist (nz ps') (nz ps);
  rc_count : free_count st' = free_count st + n;
  rc_mono : forall q, page_free st q = true -> page_free st' q = true;
  rc_freed : forall q, page_free st' q = true -> page_free st q = false ->
    q ∈ map page_no (nz ps) /\ q ∉ map page_no (nz ps');
  rc_last : forall q, page_free st' q = true -> page_free st q = false -> owners st q = 1;
  rc_kept : forall q, page_free st' q = false ->
    (q ∈ map page_no (nz ps') <-> q ∈ map page_no (nz ps));
  rc_owners : forall q, page_free st' q = false -> owners st' q = owners st q;
}.

(** Every page of the slots has an owner besides its cache. *)
Definition slots_busy (ps : list Z) (st : pmm) : Prop :=
  forall v, v ∈ nz ps -> 1 < owners st (page_no v).

Lemma slots_ok_tail page rest st : slots_ok (page :: rest) st -> slots_ok rest st.
Proof.
  intros [Ha Hd Hu]. unfold nz in *. simpl in *. destruct (page =? 0); simpl in *; [done |].
  apply Forall_cons_iff in Ha as [_ Ha]. apply NoDup_cons in Hd as [_ Hd].
  constructor; auto. intros v Hv. apply Hu. by right.
Qed.

Lemma map_page_no_sublist l l' q : sublist l l' -> q ∈ map page_no l -> q ∈ map page_no l'.
Proof.
  intros Hs (v & Hv & Hin)%list_elem_of_In%in_map_iff.
  apply list_elem_of_In, in_map_iff. exists v. split; [done |].
  apply list_elem_of_In in Hin. apply list_elem_of_In. by eapply elem_of_sublist.
Qed.

Lemma map_page_no_in l v : v ∈ l -> page_no v ∈ map page_no l.
Proof. intros H. apply list_elem_of_In, in_map. by apply list_elem_of_In. Qed.

Lemma reclaim_pages_spec ps want freed st : pmm_wf st -> slots_ok ps st -> 0 <= freed ->
  exists ps' freed' st', reclaim_pages ps want freed st = Some (ps', freed', st') /\
    freed <= freed' <= Z.max want freed /\ reclaimed ps ps' (freed' - freed) st st' /\
    (freed' < want -> slots_busy ps' st').
Proof.
  revert freed st. induction ps as [| page rest IH]; intros freed st Hwf Hok H0; cbn [reclaim_pages].
  { exists [], freed, st. split; [done |]. split; [lia |].
    split; [constructor; auto with hermes; try lia; congruence |].
    intros _ v Hv. by apply not_elem_of_nil in Hv. }
  destruct (Z.ltb_spec freed want); cbn [negb].
  2:{ exists (page :: rest), freed, st. split; [done |]. split; [lia |].
      split; [constructor; auto with hermes; try lia; congruence | lia]. }
  pose proof (slots_ok_tail _ _ _ Hok) as Hokt.
  (* the slot is kept *)
  assert ((page <> 0 -> 1 < owners st (page_no page)) -> exists ps' freed' st',
    ('(rest', freed', st') ← reclaim_pages rest want freed st; Some (page :: rest', freed', st'))
      = Some (ps', freed', st') /\ freed <= freed' <= Z.max want freed /\
      reclaimed (page :: rest) ps' (freed' - freed) st st' /\
      (freed' < want -> slots_busy ps' st')) as Hkeep.
  { intros Hbusy. destruct (IH freed st Hwf Hokt H0) as (ps' & freed' & st' & -> & Hfr & [] & Hb).
    rewrite option_bind_Some_fun. do 3 eexists. split; [done |]. split; [done |].
    split; [constructor; auto |].
    - unfold nz in *. simpl. destruct (page =? 0); simpl; [done |]. by constructor.
    - intros q Hq Hq0. destruct (rc_freed0 q Hq Hq0) as [Hin Hout].
      unfold nz. simpl. destruct (Z.eqb_spec page 0) as [-> | Hne]; simpl; [done |].
      split; [by right |]. intros [-> | ?]%elem_of_cons; [| done].
      destruct Hok as [_ Hd _]. revert Hd. unfold nz. simpl.
      destruct (Z.eqb_spec page 0); [done |]. simpl. intros [Hd _]%NoDup_cons. done.
    - intros q Hq. unfold nz in *. simpl. destruct (page =? 0); simpl; [by apply rc_kept0 |].
      rewrite !elem_of_cons, rc_kept0 by done. done.
    - intros Hlt v. unfold nz. simpl. destruct (Z.eqb_spec page 0) as [-> | Hne]; simpl;
        [by apply Hb |]. intros [-> | Hv]%elem_of_cons; [| by apply Hb].
      rewrite rc_owners0; [by apply Hbusy |]. apply not_true_is_false. intros Ht.
      destruct (so_used _ _ Hok page) as [_ Hf].
      { unfold nz. simpl. destruct (Z.eqb_spec page 0); [done | by left]. }
      destruct (rc_freed0 _ Ht Hf) as [Hin _]. destruct Hok as [_ Hd _]. revert Hd. unfold nz. simpl.
      destruct (Z.eqb_spec page 0); [done |]. simpl. intros [Hd _]%NoDup_cons. done. }
  destruct (Z.eqb_spec page 0) as [-> | Hne]; [rewrite option_bind_Some_fun; by apply Hkeep |].
  assert (nz (page :: rest) = page :: nz rest) as Hnz
    by (unfold nz; simpl; destruct (Z.eqb_spec page 0); done).
  pose proof Hok as [Ha Hd Hu]. rewrite Hnz in *. apply Forall_cons_iff in Ha as [[Hv Hal] Ha].
  cbn [map] in Hd. apply NoDup_cons in Hd as [Hnew Hd].
  destruct (Hu page) as [Hpn Hpf]; [by left |]. unfold page_no in Hpn, Hpf.
  rewrite pmm_page_shared_spec by done. rewrite option_bind_Some_fun.
  destruct (Z.ltb_spec 1 (owners st (virt_to_phys page / PAGE_SIZE))) as [Hsh | Hun]; [by apply Hkeep |].
  assert (owners st (virt_to_phys page / PAGE_SIZE) = 1) as Hone.
  { pose proof (owners_nonneg st (virt_to_phys page / PAGE_SIZE) Hwf).
    pose proof (proj1 (owners_free st (virt_to_phys page / PAGE_SIZE) Hwf)) as Hz.
    destruct (Z.eq_dec (owners st (virt_to_phys page / PAGE_SIZE)) 0) as [E | ?]; [| lia].
    rewrite (Hz E) in Hpf. done. }
  unfold free_kernel_page.
  destruct (free_last_owner st (virt_to_phys page) Hwf) as
    (st1 & -> & Hwf1 & Hlay1 & Hfree1 & Hown1 & Hcount1); [by apply virt_to_phys_range | done | done |].
  rewrite option_bind_Some_fun. fold (page_no page) in *.
  destruct (IH (freed + 1) st1 Hwf1) as (ps' & freed' & st' & -> & Hfr & [] & Hb); [| lia |].
  { destruct Hokt as [Ha' Hd' Hu']. constructor; auto. intros v Hvin.
    destruct (Hu' v Hvin) as [Hr Hf]. destruct Hlay1 as (-> & _). split; [done |].
    rewrite Hfree1, Hf. simpl. apply Z.eqb_neq. intros E. apply Hnew. rewrite <- E.
    by apply map_page_no_in. }
  rewrite option_bind_Some_fun. do 3 eexists. split; [done |]. split; [lia |].
  assert (nz (0 :: ps') = nz ps') as Hnz0 by done.
  split; [| exact Hb]. constructor; rewrite ?Hnz, ?Hnz0; auto.
  - by eapply same_layout_trans.
  - by constructor.
  - lia.
  - intros q Hq. apply rc_mono0. rewrite Hfree1, Hq. done.
  - intros q Hq Hq0. destruct (page_free st1 q) eqn:E1.
    + rewrite Hfree1, Hq0 in E1. simpl in E1. apply Z.eqb_eq in E1 as ->. split; [by left |].
      intros Hin. by apply Hnew, (map_page_no_sublist _ _ _ rc_sub0).
    + destruct (rc_freed0 q Hq E1) as [Hin Hout]. split; [by right | done].
  - intros q Hq Hq0. destruct (page_free st1 q) eqn:E1.
    + rewrite Hfree1, Hq0 in E1. simpl in E1. apply Z.eqb_eq in E1 as ->. done.
    + rewrite <- (rc_last0 q Hq E1). symmetry. apply Hown1. intros ->.
      rewrite Hfree1, Z.eqb_refl, orb_true_r in E1. done.
  - intros q Hq. rewrite rc_kept0 by done. cbn [map]. rewrite elem_of_cons.
    split; [by right |]. intros [-> | ?]; [| done].
    rewrite (rc_mono0 (page_no page)) in Hq; [done |]. rewrite Hfree1, Z.eqb_refl.
    apply orb_true_r.
  - intros q Hq. rewrite rc_owners0 by done. apply Hown1. intros ->.
    rewrite (rc_mono0 (page_no page)) in Hq; [done |]. rewrite Hfree1, Z.eqb_refl.
    apply orb_true_r.
Qed.

(** ** All the caches *)

Lemma cached_cons c id rest pc : caches c = id :: rest -> store c !! id = Some pc ->
  cached c = nz (pages pc) ++ flat_map (pages_of c) rest.
Proof. intros Hc Hs. unfold cached. rewrite Hc. simpl. unfold pages_of at 1. by rewrite Hs. Qed.

Lemma cached_rotate c id rest pc' : id ∉ rest ->
  cached (PCaches (<[id := pc']> (store c)) (rest ++ [id]))
    = flat_map (pages_of c) rest ++ nz (pages pc').
Proof.
  intros Hid. unfold cached. cbn [caches]. rewrite flat_map_app. f_equal.
  - assert (forall l, id ∉ l -> flat_map (pages_of (PCaches (<[id := pc']> (store c)) (rest ++ [id]))) l
              = flat_map (pages_of c) l) as Hl; [| by apply Hl].
    induction l as [| x l IH]; [done |]. intros [Hx Hl]%not_elem_of_cons. simpl.
    rewrite IH by done. f_equal. unfold pages_of. simpl. by rewrite lookup_insert_ne.
  - simpl. rewrite app_nil_r. unfold pages_of. simpl. by rewrite lookup_insert_eq.
Qed.

(** Reclaiming the slots of the first cache keeps the invariant. *)
Lemma pcache_ok_rotate c id rest pc ps' n st st' : caches c = id :: rest ->
  store c !! id = Some pc -> pcache_ok c st -> reclaimed (pages pc) ps' n st st' ->
  pcache_ok (PCaches (<[id := PageCache ps' (listed pc)]> (store c)) (rest ++ [id])) st'.
Proof.
  intros Hc Hs [Hnd Hst Haddr Hdist Hused] [].
  rewrite (cached_cons _ _ _ _ Hc Hs) in *. rewrite Hc in *.
  apply NoDup_cons in Hnd as [Hid Hnd].
  apply Forall_app in Haddr as [Ha1 Ha2]. rewrite map_app in Hdist.
  apply NoDup_app in Hdist as (Hd1 & Hd12 & Hd2).
  constructor; rewrite ?(cached_rotate c id rest) by done; cbn [caches store pages].
  - apply NoDup_app. split; [done |]. split; [| apply NoDup_singleton].
    intros x Hx ->%list_elem_of_singleton. done.
  - intros x Hx. destruct (decide (x = id)) as [-> | Hne].
    + rewrite lookup_insert_eq. eauto.
    + rewrite lookup_insert_ne by done. apply Hst.
      apply elem_of_app in Hx as [? | ->%list_elem_of_singleton]; [by right | done].
  - apply Forall_app. split; [done |]. rewrite Forall_forall in *.
    intros v Hv. by eapply Ha1, elem_of_sublist.
  - rewrite map_app. apply NoDup_app. split; [done |]. split.
    + intros q Hq Hq'. apply (Hd12 q); [| done]. by eapply map_page_no_sublist.
    + eapply sublist_NoDup; [exact Hd1 |]. by apply fmap_sublist.
  - intros v Hv. destruct rc_layout0 as (-> & _).
    assert (v ∈ nz (pages pc) ++ flat_map (pages_of c) rest) as Hv0.
    { apply elem_of_app in Hv as [? | ?]; apply elem_of_app; [by right |].
      left. by eapply elem_of_sublist. }
    destruct (Hused v Hv0) as [Hr Hf]. split; [done |].
    apply not_true_is_false. intros Ht. destruct (rc_freed0 _ Ht Hf) as [Hin Hout].
    apply elem_of_app in Hv as [Hv | Hv].
    + apply (Hd12 (page_no v)); [done |]. by apply map_page_no_in.
    + by apply Hout, map_page_no_in.
Qed.

Lemma slots_ok_first c id rest pc st : caches c = id :: rest -> store c !! id = Some pc ->
  pcache_ok c st -> slots_ok (pages pc) st.
Proof.
  intros Hc Hs [_ _ Ha Hd Hu]. rewrite (cached_cons _ _ _ _ Hc Hs) in *.
  apply Forall_app in Ha as [Ha _]. rewrite map_app in Hd. apply NoDup_app in Hd as (Hd & _ & _).
  constructor; auto. intros v Hv. apply Hu, elem_of_app. by left.
Qed.

(** Every page of the listed caches [ids] has an owner besides its cache. *)
Definition all_busy (c : pcaches) (ids : list Z) (st : pmm) : Prop :=
  forall v, v ∈ flat_map (pages_of c) ids -> 1 < owners st (page_no v).

Lemma pages_of_other c id pc' l cs : id ∉ l ->
  flat_map (pages_of (PCaches (<[id := pc']> (store c)) cs)) l = flat_map (pages_of c) l.
Proof.
  induction l as [| x l IH]; [done |]. intros [Hx Hl]%not_elem_of_cons. simpl.
  rewrite IH by done. f_equal. unfold pages_of. simpl. by rewrite lookup_insert_ne.
Qed.

(** The caches scanned so far, at the end of the list, stay busy while the
    first one is scanned, and the first one joins them. *)
Lemma all_busy_rotate c id todo scanned pc ps' n st st' :
  caches c = id :: todo ++ scanned -> store c !! id = Some pc -> pcache_ok c st ->
  reclaimed (pages pc) ps' n st st' -> all_busy c scanned st -> slots_busy ps' st' ->
  all_busy (PCaches (<[id := PageCache ps' (listed pc)]> (store c)) ((todo ++ scanned) ++ [id]))
    (scanned ++ [id]) st'.
Proof.
  intros Hc Hpc Hok Hrc Hbusy Hslots v Hv.
  pose proof (pcache_ok_rotate _ _ _ _ _ _ _ _ Hc Hpc Hok Hrc) as Hok1. destruct Hrc.
  pose proof (pco_nodup _ _ Hok) as Hnd. rewrite Hc in Hnd.
  apply NoDup_cons in Hnd as [Hid Hnd].
  rewrite flat_map_app in Hv. apply elem_of_app in Hv as [Hv | Hv].
  - assert (v ∈ cached (PCaches (<[id := PageCache ps' (listed pc)]> (store c))
                          ((todo ++ scanned) ++ [id]))) as Hin.
    { unfold cached. cbn [caches]. rewrite !flat_map_app.
      apply elem_of_app. left. apply elem_of_app. by right. }
    rewrite rc_owners0 by by apply (pco_used _ _ Hok1).
    apply Hbusy. rewrite pages_of_other in Hv; [exact Hv |].
    intros ?. apply Hid, elem_of_app. by right.
  - apply Hslots. revert Hv. simpl. rewrite app_nil_r. unfold pages_of. simpl.
    by rewrite lookup_insert_eq.
Qed.

Lemma reclaim_loop_spec todo scanned want freed c st : pmm_wf st -> pcache_ok c st -> 0 <= freed ->
  caches c = todo ++ scanned -> all_busy c scanned st ->
  exists freed' c' st', reclaim_loop (length todo) want freed c st = Some (freed', c', st') /\
    pmm_wf st' /\ pcache_ok c' st' /\ same_layout st st' /\
    freed <= freed' <= Z.max want freed /\ free_count st' = free_count st + (freed' - freed) /\
    (forall q, page_free st q = true -> page_free st' q = true) /\
    (freed' < want -> all_busy c' (caches c') st').
Proof.
  revert scanned freed c st.
  induction todo as [| id todo IH]; intros scanned freed c st Hwf Hok H0 Hc Hbusy;
    cbn [length reclaim_loop].
  { exists freed, c, st. repeat (split; [by auto with hermes |]).
    repeat split; try lia; [done |]. intros _. by rewrite Hc. }
  destruct (Z.ltb_spec freed want); cbn [negb].
  2:{ exists freed, c, st. repeat (split; [by auto with hermes |]). repeat split; lia || done. }
  change (caches c = id :: (todo ++ scanned)) in Hc. rewrite Hc.
  destruct (pco_store _ _ Hok id) as [pc Hpc]; [rewrite Hc; by left |].
  rewrite Hpc, option_bind_Some_fun.
  destruct (reclaim_pages_spec (pages pc) want freed st Hwf)
    as (ps' & f1 & st1 & -> & Hf1 & Hrc & Hsb); [by eapply slots_ok_first | done |].
  rewrite option_bind_Some_fun.
  pose proof (pcache_ok_rotate _ _ _ _ _ _ _ _ Hc Hpc Hok Hrc) as Hok1.
  destruct (Z_lt_ge_dec f1 want) as [Hlt | Hge].
  - destruct (IH (scanned ++ [id]) f1 _ st1 (rc_wf _ _ _ _ _ Hrc) Hok1) as
      (f2 & c2 & st2 & -> & Hwf2 & Hok2 & Hlay2 & Hf2 & Hcnt & Hmono & Hb2);
      [lia | cbn [caches]; by rewrite app_assoc | |].
    { eapply all_busy_rotate; eauto. }
    destruct Hrc. exists f2, c2, st2. repeat (split; [done |]).
    split; [by eapply same_layout_trans |]. split; [lia |]. split; [lia |]. auto.
  - (* enough pages: the loop stops at the next test *)
    exists f1, (PCaches (<[id := PageCache ps' (listed pc)]> (store c)) ((todo ++ scanned) ++ [id])),
      st1. split.
    { destruct todo; cbn [length reclaim_loop]; [reflexivity |].
      destruct (Z.ltb_spec f1 want); [lia |]. reflexivity. }
    destruct Hrc. do 3 (split; [done |]). split; [lia |]. split; [lia |].
    split; [auto | intros; lia].
Qed.

Lemma pcache_reclaim_spec want c st : pmm_wf st -> pcache_ok c st -> 0 <= want ->
  exists freed c' st', pcache_reclaim want c st = Some (freed, c', st') /\
    pmm_wf st' /\ pcache_ok c' st' /\ same_layout st st' /\
    0 <= freed <= want /\ free_count st' = free_count st + freed /\
    (forall q, page_free st q = true -> page_free st' q = true) /\
    (freed < want -> all_busy c' (caches c') st').
Proof.
  intros Hwf Hok Hw.
  destruct (reclaim_loop_spec (caches c) [] want 0 c st Hwf Hok) as
    (freed & c' & st' & Hr & Hwf' & Hok' & Hlay & Hf & Hcnt & Hmono & Hb);
    [lia | by rewrite app_nil_r | intros v Hv; by apply not_elem_of_nil in Hv |].
  exists freed, c', st'. split; [exact Hr |]. repeat (split; [done |]).
  split; [lia |]. split; [lia | done].
Qed.

Lemma pcache_ok_taken c st st' : pmm_wf st -> pcache_ok c st -> same_layout st st' ->
  shared_refs st' = shared_refs st ->
  (forall q, page_free st' q = true -> page_free st q = true) -> pcache_ok c st'.
Proof.
  intros Hwf [Hnd Hst Ha Hd Hu] Hlay Hrefs Hsub. constructor; auto.
  intros v Hv. destruct (Hu v Hv) as [Hr Hf]. destruct Hlay as (-> & _). split; [done |].
  apply not_true_is_false. intros Ht%Hsub. congruence.
Qed.

#[export] Instance pcaches_reclaimer_ok : ReclaimerOk pcaches := {|
  cache_inv := pcache_ok;
  cache_busy c st := all_busy c (caches c) st;
  reclaim_ok := pcache_reclaim_spec;
  cache_inv_taken := pcache_ok_taken;
|}.
