(* ===== verification/Frames.v ===== *)
(** * Physical frames, as the address-space code sees them

    What mmu.c and vm.c use of the page allocator: take a frame, give one back,
    add an owner, ask whether there is more than one.  The contract counts the
    owners of a frame that are not the page cache ([held]); reclaim may take
    frames from the cache and never from anybody else.  pmm.c with the page
    cache of pagecache.c is shown to keep the contract. *)

From Stdlib Require Import ZArith Lia Bool.
From stdpp Require Import base list option gmap.
From S2P Require Import Prelude Mmu Pmm PmmFacts PmmSpec Pagecache PagecacheFacts.
Local Open Scope Z_scope.

Class Frames (A : Type) := {
  frame_alloc : A -> option (Z * A);
  frame_free : Z -> A -> option A;
  frame_share : Z -> A -> option A;
  frame_shared : Z -> A -> option bool;
}.

(** A frame address, as it fits the address bits of a page table entry. *)
Definition frame_ok (p : Z) : Prop := 0 < p < 2 ^ 52 /\ p mod PAGE_SIZE = 0.

Class FramesOk (A : Type) `{!Frames A} := {
  frames_inv : A -> Prop;
  held : A -> Z -> Z;
  owned : A -> Z -> Z;
  spare : A -> Z;
  held_owned : forall a p, frames_inv a -> 0 <= held a p <= owned a p;
  owned_held : forall a p, frames_inv a -> owned a p <= held a p + 1;
  held_frame : forall a p, frames_inv a -> 0 < held a p -> p mod PAGE_SIZE = 0 -> frame_ok p;
  frame_alloc_ok : forall a, frames_inv a ->
    exists p a', frame_alloc a = Some (p, a') /\ frames_inv a' /\
      ((p = 0 /\ forall q, held a' q = held a q) \/
       (frame_ok p /\ held a p = 0 /\ owned a' p = 1 /\
        forall q, q mod PAGE_SIZE = 0 -> held a' q = if q =? p then 1 else held a q));
  frame_free_ok : forall a p, frames_inv a -> frame_ok p -> 0 < held a p ->
    exists a', frame_free p a = Some a' /\ frames_inv a' /\
      forall q, q mod PAGE_SIZE = 0 -> held a' q = if q =? p then held a q - 1 else held a q;
  frame_share_ok : forall a p, frames_inv a -> frame_ok p -> 0 < held a p ->
    exists a', frame_share p a = Some a' /\ frames_inv a' /\
      forall q, q mod PAGE_SIZE = 0 ->
        held a' q = if (q =? p) && (owned a q <? 0x10000) then held a q + 1 else held a q;
  frame_alloc_spare : forall a p a', frames_inv a -> frame_alloc a = Some (p, a') ->
    spare a - 1 <= spare a' /\ (p = 0 -> spare a <= 0);
  frame_free_spare : forall a p a', frames_inv a -> frame_ok p -> 0 < held a p ->
    frame_free p a = Some a' -> spare a <= spare a';
  frame_share_spare : forall a p a', frames_inv a -> frame_ok p -> 0 < held a p ->
    frame_share p a = Some a' -> spare a <= spare a';
  frame_shared_ok : forall a p, frames_inv a -> frame_ok p -> 0 < held a p ->
    frame_shared p a = Some (1 <? owned a p);
}.

(** ** What an operation may take *)

(** There is a result. *)
Definition got {B} (r : option B) : bool := match r with Some _ => true | None => false end.

(** An operation that takes at most [k] of the frames that can be had, and fails
    only when there were fewer than [k]. *)
Definition cost {A} `{!Frames A, !FramesOk A} (k : Z) (ok : bool) (a a' : A) : Prop :=
  spare a - k <= spare a' /\ (ok = false -> spare a < k).

Section cost.
Context {A : Type} `{!Frames A, !FramesOk A}.
Implicit Types a : A.

Lemma cost_none k a : 0 <= k -> cost k true a a.
Proof. intros Hk. split; [lia | done]. Qed.
Lemma cost_trans k1 k2 ok a1 a2 a3 : cost k1 true a1 a2 -> cost k2 ok a2 a3 -> cost (k1 + k2) ok a1 a3.
Proof. intros [H1 _] [H2 F2]. split; [lia |]. intros H. specialize (F2 H). lia. Qed.
Lemma cost_weaken k k' ok a a' : cost k ok a a' -> k <= k' -> cost k' ok a a'.
Proof. intros [H F] Hk. split; [lia |]. intros E. specialize (F E). lia. Qed.
Lemma cost_alloc a p a' : frames_inv a -> frame_alloc a = Some (p, a') -> cost 1 (negb (p =? 0)) a a'.
Proof.
  intros Ha H. destruct (frame_alloc_spare a p a' Ha H) as [Hs Hz]. split; [done |].
  intros ->%negb_false_iff%Z.eqb_eq. specialize (Hz eq_refl). lia.
Qed.
Lemma cost_free a p a' k ok a0 : frames_inv a -> frame_ok p -> 0 < held a p -> frame_free p a = Some a' ->
  cost k ok a0 a -> cost k ok a0 a'.
Proof. intros Ha Hp Hh H [Hs F]. pose proof (frame_free_spare a p a' Ha Hp Hh H). split; [lia | done]. Qed.
End cost.

(** ** The allocator of pmm.c with the page cache *)

#[export] Instance pmm_frames : Frames (pcaches * pmm) := {|
  frame_alloc '(c, st) := '(p, c, st) ← alloc_physical_page c st; Some (p, (c, st));
  frame_free p '(c, st) := st ← free_physical_page p st; Some (c, st);
  frame_share p '(c, st) := st ← pmm_share_page p st; Some (c, st);
  frame_shared p '(c, st) := pmm_page_shared p st;
|}.

Definition cache_refs (c : pcaches) (q : Z) : Z :=
  if bool_decide (q ∈ map page_no (cached c)) then 1 else 0.

(** Owners of page number [q] besides the cache. *)
Definition page_held (c : pcaches) (st : pmm) (q : Z) : Z := owners st q - cache_refs c q.

Lemma cached_used c st q : pcache_ok c st -> q ∈ map page_no (cached c) ->
  0 < q < total_pages st /\ page_free st q = false.
Proof.
  intros Hok (v & <- & Hv%list_elem_of_In)%list_elem_of_In%in_map_iff. by apply (pco_used _ _ Hok).
Qed.

Lemma cache_refs_free c st q : pcache_ok c st -> page_free st q = true -> cache_refs c q = 0.
Proof.
  intros Hok Hf. unfold cache_refs. case_bool_decide as Hin; [| done].
  apply (cached_used _ _ _ Hok) in Hin as [_ ?]. congruence.
Qed.

Lemma page_held_free c st q : pmm_wf st -> pcache_ok c st -> page_free st q = true ->
  page_held c st q = 0.
Proof.
  intros Hwf Hok Hf. unfold page_held. rewrite (cache_refs_free _ _ _ Hok Hf).
  apply owners_free in Hf; [lia | done].
Qed.

Lemma page_held_range c st q : pmm_wf st -> pcache_ok c st ->
  0 <= page_held c st q <= owners st q.
Proof.
  intros Hwf Hok. pose proof (owners_nonneg st q Hwf). unfold page_held, cache_refs.
  case_bool_decide as Hin; [| lia]. apply (cached_used _ _ _ Hok) in Hin as [_ Hf].
  assert (owners st q <> 0) by (intros ?%owners_free; [congruence | done]). lia.
Qed.

(** Reclaiming the first cache takes nothing from other owners. *)
Lemma reclaimed_held c id rest pc ps' n st st' : pmm_wf st -> caches c = id :: rest ->
  store c !! id = Some pc -> pcache_ok c st -> reclaimed (pages pc) ps' n st st' ->
  forall q, page_held (PCaches (<[id := PageCache ps' (listed pc)]> (store c)) (rest ++ [id])) st' q
    = page_held c st q.
Proof.
  intros Hwf Hc Hs Hok Hrc q.
  pose proof (pcache_ok_rotate _ _ _ _ _ _ _ _ Hc Hs Hok Hrc) as Hok'.
  destruct (page_free st' q) eqn:Hf'.
  - rewrite page_held_free by (first [done | by apply (rc_wf _ _ _ _ _ Hrc)]). destruct (page_free st q) eqn:Hf;
      [by rewrite page_held_free |].
    unfold page_held, cache_refs. rewrite (rc_last _ _ _ _ _ Hrc q Hf' Hf), bool_decide_eq_true_2; [lia |].
    rewrite (cached_cons _ _ _ _ Hc Hs), map_app. apply elem_of_app. left.
    by apply (rc_freed _ _ _ _ _ Hrc q Hf' Hf).
  - unfold page_held, cache_refs. rewrite (rc_owners _ _ _ _ _ Hrc q Hf'). f_equal.
    rewrite (bool_decide_ext _ (q ∈ map page_no (cached c))); [done |].
    pose proof (pco_nodup _ _ Hok) as Hnd. rewrite Hc in Hnd. apply NoDup_cons in Hnd as [Hid _].
    rewrite cached_rotate, (cached_cons _ _ _ _ Hc Hs), !map_app, !elem_of_app by done.
    rewrite (rc_kept _ _ _ _ _ Hrc q Hf'). tauto.
Qed.

Lemma reclaim_loop_held n want freed c st freed' c' st' : pmm_wf st -> pcache_ok c st ->
  0 <= freed -> reclaim_loop n want freed c st = Some (freed', c', st') ->
  forall q, page_held c' st' q = page_held c st q.
Proof.
  revert freed c st. induction n as [| n IH]; intros freed c st Hwf Hok H0; cbn [reclaim_loop];
    [by intros [= <- <- <-] |].
  destruct (negb (freed <? want)); [by intros [= <- <- <-] |].
  destruct (caches c) as [| id rest] eqn:Hc; [done |].
  destruct (pco_store _ _ Hok id) as [pc Hpc]; [rewrite Hc; by left |].
  rewrite Hpc, option_bind_Some_fun.
  destruct (reclaim_pages_spec (pages pc) want freed st Hwf)
    as (ps' & f1 & st1 & -> & Hf1 & Hrc & _); [by eapply slots_ok_first | done |].
  rewrite option_bind_Some_fun. intros Hl q.
  rewrite (IH f1 _ st1 (rc_wf _ _ _ _ _ Hrc) (pcache_ok_rotate _ _ _ _ _ _ _ _ Hc Hpc Hok Hrc)
    ltac:(lia) Hl q).
  by eapply reclaimed_held.
Qed.

(** Taking a page, seen by everybody but the cache. *)
Definition frame_taken (c : pcaches) (st : pmm) (p : Z) (c' : pcaches) (st' : pmm) : Prop :=
  (p = 0 /\ forall q, page_held c' st' q = page_held c st q) \/
  exists k, p = k * PAGE_SIZE /\ 0 < k < total_pages st /\ page_held c st k = 0 /\
    owners st' k = 1 /\ forall q, page_held c' st' q = if q =? k then 1 else page_held c st q.

Lemma take_page_held c st : pmm_wf st -> pcache_ok c st ->
  exists p st', take_page st = Some (p, st') /\ pmm_wf st' /\ pcache_ok c st' /\
    same_layout st st' /\ frame_taken c st p c st'.
Proof.
  intros Hwf Hok.
  destruct (take_page_correct st Hwf) as (p & st' & Htk & Hwf' & Hrefs & _ & _ & Hres).
  pose proof (take_page_layout _ _ _ Htk) as Hlay.
  assert (pcache_ok c st') as Hok'.
  { apply (pcache_ok_taken c st); auto. intros q. by apply (took_page_sub st p st'). }
  exists p, st'. repeat (split; [done |]).
  destruct Hres as [(k & -> & Hk & _ & Hf & _ & Heq) | (-> & _ & Heq)].
  - assert (forall q, owners st' q = if q =? k then 1 else owners st q) as Ho.
    { apply (owners_taken st st' (fun q => q =? k)); [done | done | | done].
      by intros q ->%Z.eqb_eq. }
    right. exists k. split; [done |]. split; [done |]. split; [by apply page_held_free |].
    split; [by rewrite Ho, Z.eqb_refl |]. intros q. unfold page_held. rewrite Ho.
    destruct (Z.eqb_spec q k) as [-> | ?]; [| done]. rewrite (cache_refs_free c st) by done. lia.
  - left. split; [done |]. intros q. unfold page_held. f_equal.
    apply (owners_taken st st' (fun _ => false)); [done | done | done |].
    intros q'. by rewrite Heq, andb_true_r.
Qed.

Lemma alloc_held c st : pmm_wf st -> pcache_ok c st ->
  exists p c' st', alloc_physical_page c st = Some (p, c', st') /\ pmm_wf st' /\
    pcache_ok c' st' /\ same_layout st st' /\ frame_taken c st p c' st'.
Proof.
  intros Hwf Hok. unfold alloc_physical_page.
  destruct (take_page_held c st Hwf Hok) as (p & st1 & -> & Hwf1 & Hok1 & Hlay1 & Ht).
  rewrite option_bind_Some_fun. destruct (Z.eqb_spec p 0) as [-> | Hne].
  2:{ exists p, c, st1. auto. }
  destruct Ht as [[_ Ht] | (k & Hk & Hr & _)]; [| exfalso; unfold PAGE_SIZE in Hk; lia].
  destruct (pcache_reclaim_spec RECLAIM_BATCH c st1 Hwf1 Hok1) as
    (freed & c2 & st2 & Hrec & Hwf2 & Hok2 & Hlay2 & _); [unfold RECLAIM_BATCH; lia |].
  change (pcache_reclaim_op RECLAIM_BATCH c st1) with (pcache_reclaim RECLAIM_BATCH c st1).
  rewrite Hrec, option_bind_Some_fun.
  pose proof (reclaim_loop_held _ _ 0 _ _ _ _ _ Hwf1 Hok1 ltac:(lia) Hrec) as Hh.
  pose proof (same_layout_trans _ _ _ Hlay1 Hlay2) as Hlay12.
  destruct (negb (freed =? 0)).
  2:{ exists 0, c2, st2. repeat (split; [done |]). left. split; [done |]. intros q. congruence. }
  destruct (take_page_held c2 st2 Hwf2 Hok2) as (p & st3 & -> & Hwf3 & Hok3 & Hlay3 & Ht3).
  rewrite option_bind_Some_fun. exists p, c2, st3. repeat (split; [done |]).
  split; [by eapply same_layout_trans |].
  destruct Ht3 as [[-> Ht3] | (k & -> & Hk & Hk0 & Hk1 & Ht3)].
  - left. split; [done |]. intros q. congruence.
  - right. exists k. split; [done |]. destruct Hlay12 as (Htp & _). rewrite Htp in Hk.
    split; [done |]. split; [congruence |]. split; [done |].
    intros q. rewrite Ht3. destruct (q =? k); [done | congruence].
Qed.

(** ** The contract *)

(** The well-formed states; physical memory ends where entries can point. *)
Definition pmm_frames_inv (a : pcaches * pmm) : Prop :=
  pmm_wf a.2 /\ pcache_ok a.1 a.2 /\ total_pages a.2 * PAGE_SIZE <= 2 ^ 52.

Lemma frame_page p : frame_ok p -> p = p / PAGE_SIZE * PAGE_SIZE /\ 0 < p / PAGE_SIZE.
Proof.
  unfold frame_ok, PAGE_SIZE. intros [Hp Hm]. pose proof (Z.div_mod p 0x1000). lia.
Qed.

Lemma page_eqb p q : p mod PAGE_SIZE = 0 -> q mod PAGE_SIZE = 0 ->
  (q / PAGE_SIZE =? p / PAGE_SIZE) = (q =? p).
Proof.
  intros Hp Hq. unfold PAGE_SIZE in *. pose proof (Z.div_mod p 0x1000). pose proof (Z.div_mod q 0x1000).
  zcases.
Qed.

(** Owners of a page that exists, with and without the cache. *)
Definition held_page (a : pcaches * pmm) (p : Z) : Z :=
  if managed a.2 (p / PAGE_SIZE) then page_held a.1 a.2 (p / PAGE_SIZE) else 0.
Definition owned_page (a : pcaches * pmm) (p : Z) : Z :=
  if managed a.2 (p / PAGE_SIZE) then owners a.2 (p / PAGE_SIZE) else 0.

Lemma managed_iff st q : managed st q = true <-> 0 < q < total_pages st.
Proof. unfold managed. zcases; split; try done; lia. Qed.

Lemma held_page_pos a p : pmm_frames_inv a -> 0 < held_page a p ->
  0 < p / PAGE_SIZE < total_pages a.2 /\ page_free a.2 (p / PAGE_SIZE) = false /\
  0 < page_held a.1 a.2 (p / PAGE_SIZE).
Proof.
  intros (Hwf & Hok & Hmax) Hh. unfold held_page in Hh.
  destruct (managed a.2 (p / PAGE_SIZE)) eqn:Em; [| lia].
  apply managed_iff in Em. split; [done |]. split; [| done].
  apply not_true_is_false. intros Hf. rewrite page_held_free in Hh by done. lia.
Qed.

Lemma held_page_owned a p : pmm_frames_inv a -> 0 <= held_page a p <= owned_page a p.
Proof.
  intros (Hwf & Hok & _). unfold held_page, owned_page.
  destruct (managed a.2 (p / PAGE_SIZE)); [| lia]. by apply page_held_range.
Qed.

Lemma owned_page_held a p : pmm_frames_inv a -> owned_page a p <= held_page a p + 1.
Proof.
  intros _. unfold held_page, owned_page, page_held, cache_refs.
  destruct (managed a.2 (p / PAGE_SIZE)); [| lia]. case_bool_decide; lia.
Qed.

Lemma held_page_frame a p : pmm_frames_inv a -> 0 < held_page a p -> p mod PAGE_SIZE = 0 ->
  frame_ok p.
Proof.
  intros Hinv Hh Hm. pose proof Hinv as (_ & _ & Hmax).
  destruct (held_page_pos a p Hinv Hh) as (Hr & _). split; [| done].
  unfold PAGE_SIZE in *. pose proof (Z.div_mod p 0x1000). lia.
Qed.

Lemma pmm_alloc_ok (a : pcaches * pmm) : pmm_frames_inv a ->
  exists p a', frame_alloc a = Some (p, a') /\ pmm_frames_inv a' /\
    ((p = 0 /\ forall q, held_page a' q = held_page a q) \/
     (frame_ok p /\ held_page a p = 0 /\ owned_page a' p = 1 /\
      forall q, q mod PAGE_SIZE = 0 -> held_page a' q = if q =? p then 1 else held_page a q)).
Proof.
  destruct a as [c st]. intros (Hwf & Hok & Hmax). cbn [fst snd] in *.
  destruct (alloc_held c st Hwf Hok) as (p & c' & st' & Hal & Hwf' & Hok' & Hlay & Ht).
  cbn [frame_alloc pmm_frames]. rewrite Hal, option_bind_Some_fun.
  destruct Hlay as (Htp & _).
  exists p, (c', st'). split; [done |].
  split; [split_and!; cbn [fst snd]; [done | done | by rewrite Htp] |].
  unfold held_page, owned_page, managed. cbn [fst snd].
  rewrite Htp. destruct Ht as [[-> Ht] | (k & -> & Hk & Hk0 & Hk1 & Ht)].
  - left. split; [done |]. intros q. rewrite Ht. done.
  - right. rewrite Z.div_mul by (unfold PAGE_SIZE; lia).
    assert ((0 <? k) && (k <? total_pages st) = true) as -> by (zcases).
    split; [split; [unfold PAGE_SIZE in *; lia | apply Z.mod_mul; unfold PAGE_SIZE; lia] |].
    split; [done |]. split; [done |].
    intros q Hq. rewrite Ht.
    rewrite <- (page_eqb (k * PAGE_SIZE) q), Z.div_mul
      by (done || (unfold PAGE_SIZE; lia) || apply Z.mod_mul; unfold PAGE_SIZE; lia).
    destruct (Z.eqb_spec (q / PAGE_SIZE) k) as [-> | ?]; [zcases | done].
Qed.

Lemma pmm_free_ok (a : pcaches * pmm) p : pmm_frames_inv a -> frame_ok p -> 0 < held_page a p ->
  exists a', frame_free p a = Some a' /\ pmm_frames_inv a' /\
    forall q, q mod PAGE_SIZE = 0 ->
      held_page a' q = if q =? p then held_page a q - 1 else held_page a q.
Proof.
  intros Hinv Hp Hh. destruct (held_page_pos _ _ Hinv Hh) as (Hr & Hf & Hpos).
  destruct a as [c st], Hinv as (Hwf & Hok & Hmax). cbn [fst snd] in *.
  cbn [frame_free pmm_frames]. destruct Hp as [Hp Hm]. rewrite free_physical_page_eq by lia.
  destruct (free_page_locked_spec st p Hwf) as (st' & -> & Hwf' & Hlay & Ho); [lia |].
  rewrite option_bind_Some_fun. exists (c, st'). split; [done |].
  pose proof Hlay as (Htp & _).
  assert (pcache_ok c st') as Hok'.
  { destruct Hok as [H1 H2 H3 H4 H5]. constructor; auto. intros v Hv.
    destruct (H5 v Hv) as [Hvr Hvf]. rewrite Htp. split; [done |].
    apply not_true_is_false. intros Hf'%owners_free; [| done]. rewrite Ho in Hf'.
    assert (owners st (page_no v) <> 0) by (intros ?%owners_free; [congruence | done]).
    pose proof (owners_nonneg st (page_no v) Hwf).
    destruct (Z.eqb_spec (page_no v) (p / PAGE_SIZE)) as [E | ?]; [| simpl in Hf'; lia].
    revert Hpos. unfold page_held, cache_refs. rewrite <- E, bool_decide_eq_true_2
      by by apply map_page_no_in. destruct (managed st (page_no v)); simpl in Hf'; lia. }
  split; [split_and!; cbn [fst snd]; [done | done | by rewrite Htp] |].
  intros q Hq. unfold held_page. cbn [fst snd]. unfold managed at 1. rewrite Htp.
  fold (managed st (q / PAGE_SIZE)). unfold page_held. rewrite Ho, <- (page_eqb p q) by done.
  destruct (Z.eqb_spec (q / PAGE_SIZE) (p / PAGE_SIZE)) as [-> | ?]; [| done].
  rewrite (proj2 (managed_iff st _) Hr). cbn [andb].
  pose proof (page_held_range c st (p / PAGE_SIZE) Hwf Hok). lia.
Qed.

Lemma pmm_share_ok (a : pcaches * pmm) p : pmm_frames_inv a -> frame_ok p -> 0 < held_page a p ->
  exists a', frame_share p a = Some a' /\ pmm_frames_inv a' /\
    forall q, q mod PAGE_SIZE = 0 ->
      held_page a' q = if (q =? p) && (owned_page a q <? 0x10000) then held_page a q + 1
                       else held_page a q.
Proof.
  intros Hinv Hp Hh. destruct (held_page_pos _ _ Hinv Hh) as (Hr & Hf & Hpos).
  destruct a as [c st], Hinv as (Hwf & Hok & Hmax). cbn [fst snd] in *.
  cbn [frame_share pmm_frames]. destruct Hp as [Hp Hm].
  destruct (pmm_share_page_spec st p Hwf) as (st' & -> & Hwf' & Hlay & Hbm & Ho); [lia | done |].
  rewrite option_bind_Some_fun. exists (c, st'). split; [done |].
  pose proof Hlay as (Htp & _).
  assert (pcache_ok c st') as Hok'.
  { destruct Hok as [H1 H2 H3 H4 H5]. constructor; auto. intros v Hv. rewrite Htp.
    unfold page_free. rewrite Hbm. by apply H5. }
  split; [split_and!; cbn [fst snd]; [done | done | by rewrite Htp] |].
  intros q Hq. unfold held_page, owned_page. cbn [fst snd]. unfold managed at 1. rewrite Htp.
  fold (managed st (q / PAGE_SIZE)). unfold page_held. rewrite Ho, <- (page_eqb p q) by done.
  destruct (Z.eqb_spec (q / PAGE_SIZE) (p / PAGE_SIZE)) as [-> | ?]; [| done].
  rewrite (proj2 (managed_iff st _) Hr). destruct (Z.ltb_spec (p / PAGE_SIZE) (total_pages st)); [| lia].
  cbn [andb]. destruct (owners st (p / PAGE_SIZE) <? 0x10000); lia.
Qed.

(** Free pages can be had once the direct map is there. *)
Definition spare_pages (a : pcaches * pmm) : Z := if direct_map_ready a.2 then free_count a.2 else 0.

Lemma same_layout_ready st st' : same_layout st st' -> direct_map_ready st' = direct_map_ready st.
Proof. intros (_ & _ & _ & _ & _ & E). unfold direct_map_ready. by rewrite E. Qed.

Lemma spare_pages_nonneg a : 0 <= spare_pages a.
Proof. unfold spare_pages. destruct (direct_map_ready _); [apply zcount_bounds | done]. Qed.

Lemma spare_pages_mono c c' st st' : same_layout st st' ->
  (forall q, page_free st q = true -> page_free st' q = true) -> spare_pages (c, st) <= spare_pages (c', st').
Proof.
  intros Hl H. unfold spare_pages. cbn [snd]. rewrite (same_layout_ready _ _ Hl).
  destruct (direct_map_ready st); [| done]. unfold free_count. destruct Hl as (_ & -> & _).
  by apply zcount_mono.
Qed.

Lemma pmm_alloc_spare (a : pcaches * pmm) p a' : pmm_frames_inv a -> frame_alloc a = Some (p, a') ->
  spare_pages a - 1 <= spare_pages a' /\ (p = 0 -> spare_pages a <= 0).
Proof.
  destruct a as [c st]. intros (Hwf & Hok & _) H. cbn [fst snd frame_alloc pmm_frames] in *. pose proof (spare_pages_nonneg a') as H0.
  apply bind_Some in H as ([[p0 c0] st0] & Hal & [= <- <-]). unfold alloc_physical_page in Hal.
  destruct (take_page_correct st Hwf) as (a1 & st1 & Htk & Hwf1 & Hrefs1 & _ & _ & Hres).
  pose proof (take_page_layout _ _ _ Htk) as Hlay. rewrite Htk, option_bind_Some_fun in Hal.
  destruct Hres as [Htook | Hno].
  - pose proof (took_page_nonzero _ _ _ Htook) as Hne. apply Z.eqb_neq in Hne as Hne'. rewrite Hne' in Hal. injection Hal as <- <- <-.
    split; [| done]. unfold spare_pages. cbn [snd]. rewrite (same_layout_ready _ _ Hlay).
    destruct (direct_map_ready st); [| lia].
    rewrite (took_page_count st a1 st1); [lia | done | by destruct Hlay as (_ & -> & _) | done].
  - assert (spare_pages (c, st) = 0) as E; [| lia]. unfold spare_pages. cbn [snd].
    destruct (direct_map_ready st) eqn:Hd; [| done]. by apply (no_page_count st a1 st1).
Qed.

Lemma pmm_free_spare (a : pcaches * pmm) p a' : pmm_frames_inv a -> frame_ok p -> 0 < held_page a p ->
  frame_free p a = Some a' -> spare_pages a <= spare_pages a'.
Proof.
  destruct a as [c st]. intros (Hwf & Hok & _) [Hp Hm] _ H. cbn [fst snd frame_free pmm_frames] in *.
  apply bind_Some in H as (st1 & H & [= <-]). rewrite free_physical_page_eq in H by lia.
  destruct (free_page_locked_spec st p Hwf) as (st2 & H2 & Hwf' & Hlay & Ho); [lia |].
  assert (st2 = st1) as -> by congruence. apply spare_pages_mono; [done |].
  intros q Hq%owners_free; [| done]. apply owners_free; [done |]. rewrite Ho, Hq. by destruct (_ && _).
Qed.

Lemma pmm_share_spare (a : pcaches * pmm) p a' : pmm_frames_inv a -> frame_ok p -> 0 < held_page a p ->
  frame_share p a = Some a' -> spare_pages a <= spare_pages a'.
Proof.
  intros Hinv [Hp Hm] Hh H. destruct (held_page_pos _ _ Hinv Hh) as (Hr & Hf & _).
  destruct a as [c st], Hinv as (Hwf & Hok & _). cbn [fst snd frame_share pmm_frames] in *.
  apply bind_Some in H as (st1 & H & [= <-]).
  destruct (pmm_share_page_spec st p Hwf) as (st2 & H2 & Hwf' & Hlay & Hbm & Ho); [lia | done |].
  assert (st2 = st1) as -> by congruence. apply spare_pages_mono; [done |].
  intros q. unfold page_free. by rewrite Hbm.
Qed.

#[export] Instance pmm_frames_ok : FramesOk (pcaches * pmm).
Proof.
  refine {| frames_inv := pmm_frames_inv; held := held_page; owned := owned_page;
    spare := spare_pages;
    held_owned := held_page_owned;
    owned_held := owned_page_held; held_frame := held_page_frame;
    frame_alloc_ok := pmm_alloc_ok; frame_free_ok := pmm_free_ok;
    frame_share_ok := pmm_share_ok; frame_alloc_spare := pmm_alloc_spare;
    frame_free_spare := pmm_free_spare; frame_share_spare := pmm_share_spare |}.
  intros [c st] p Hinv Hp Hh. destruct (held_page_pos _ _ Hinv Hh) as (Hr & Hf & _).
  destruct Hinv as (Hwf & _). cbn [frame_shared pmm_frames fst snd] in *.
  unfold owned_page. cbn [fst snd]. rewrite (proj2 (managed_iff st _) Hr).
  by apply pmm_page_shared_spec.
Defined.
