(* ===== verification/PageTable.v ===== *)
(** * Page tables: hardware/memory/mmu.c

    Physical memory maps the base address of a frame to its 512 words; an
    access to a frame outside it, or to an index outside a table, faults
    ([None]).  The kernel reaches a table through the direct map, so a
    [uint64_t *] to a table is represented by the physical address of the table
    and a pointer to an entry by a table and an index; a null pointer is the
    inner [None].  TLB invalidation, the PAT register and the loading of CR3
    have no counterpart in the model. *)

From Stdlib Require Import ZArith Lia Bool.
From stdpp Require Import base list option gmap.
From S2P Require Import Prelude Mmu Pmm PmmFacts Frames.
Open Scope Z_scope.

Definition PTE_ADDR : Z := 0x000FFFFFFFFFF000.
Definition MMU_PDE_TWO_MB : Z := 0x080.
Definition MMU_CACHE_DISABLE : Z := 0x010.
Definition TWO_MEGABYTES : Z := 0x200000.

(** A frame after [memset(..., 0, PAGE_SIZE)]. *)
Definition zero_frame : list Z := replicate 512 0.

Section mmu.
Context {A : Type} `{!Frames A}.

(** Memory, the page allocator and the global [kernel_pml4]. *)
Record phys := Phys {
  mem : gmap Z (list Z);
  frames : A;
  kernel_pml4 : Z;
}.

Definition set_frames (a : A) (s : phys) : phys := Phys (mem s) a (kernel_pml4 s).
Definition set_mem (m : gmap Z (list Z)) (s : phys) : phys := Phys m (frames s) (kernel_pml4 s).

Definition rd_word (m : gmap Z (list Z)) (table i : Z) : option Z := w ← m !! table; rd w i.
Definition wr_word (m : gmap Z (list Z)) (table i v : Z) : option (gmap Z (list Z)) :=
  w ← m !! table; w' ← wr w i v; Some (<[table := w']> m).

(** [parent[idx] = v]. *)
Definition store_word (table i v : Z) (s : phys) : option phys :=
  m ← wr_word (mem s) table i v; Some (set_mem m s).

Definition free_frame (p : Z) (s : phys) : option phys :=
  a ← frame_free p (frames s); Some (set_frames a s).

Definition table_at (entry : Z) : Z := Z.land entry PTE_ADDR.

(** Returns 0 when no page is left. *)
Definition allocate_page_table (s : phys) : option (Z * phys) :=
  '(table, a) ← frame_alloc (frames s);
  if table =? 0 then Some (0, set_frames a s)
  else Some (table, Phys (<[table := zero_frame]> (mem s)) a (kernel_pml4 s)).

Definition get_or_create_table (parent idx flags : Z) (s : phys) : option (option Z * phys) :=
  e ← rd_word (mem s) parent idx;
  if negb (Z.land e MMU_PRESENT =? 0) then Some (Some (table_at e), s)
  else
    '(table, s) ← allocate_page_table s;
    if table =? 0 then Some (None, s)
    else
      s ← store_word parent idx
            (Z.lor (Z.lor (Z.lor table MMU_PRESENT) MMU_WRITABLE) (Z.land flags MMU_USER)) s;
      Some (Some (table_at table), s).

(** [for (i...) pt[i] = (base + i * PAGE_SIZE) | flags], [n] entries left. *)
Fixpoint fill_pages (n : nat) (pt i base stride flags : Z) (s : phys) : option phys :=
  match n with
  | O => Some s
  | S n' =>
      s ← store_word pt i (Z.lor (u64 (base + i * stride)) flags) s;
      fill_pages n' pt (i + 1) base stride flags s
  end.

Definition split_two_mb_page (pd pd_idx : Z) (s : phys) : option (option Z * phys) :=
  entry ← rd_word (mem s) pd pd_idx;
  '(table, s) ← allocate_page_table s;
  if table =? 0 then Some (None, s)
  else
    let pt := table_at table in
    let base := Z.land entry 0x000FFFFFFFE00000 in
    let flags := Z.lor (Z.ldiff (Z.land entry 0xFFF) MMU_PDE_TWO_MB)
                       (Z.land entry (Z.shiftl 1 63)) in
    s ← fill_pages 512 pt 0 base PAGE_SIZE flags s;
    s ← store_word pd pd_idx
          (Z.lor (Z.lor (Z.lor table MMU_PRESENT) MMU_WRITABLE) (Z.land entry MMU_USER)) s;
    Some (Some pt, s).

Definition get_or_create_pt (pd pd_idx flags : Z) (s : phys) : option (option Z * phys) :=
  entry ← rd_word (mem s) pd pd_idx;
  if negb (Z.land entry MMU_PRESENT =? 0) && negb (Z.land entry MMU_PDE_TWO_MB =? 0)
  then split_two_mb_page pd pd_idx s
  else get_or_create_table pd pd_idx flags s.

(** [virtual_addr >> shift & 0x1FF]. *)
Definition table_index (shift va : Z) : Z := Z.land (Z.shiftr va shift) 0x1FF.

(** The result is that of the C function: 0, or -1 when no table could be
    allocated. *)
Definition map_page_in (pml4_addr va pa flags : Z) (s : phys) : option (Z * phys) :=
  '(pdpt, s) ← get_or_create_table pml4_addr (table_index 39 va) flags s;
  match pdpt with
  | None => Some (-1, s)
  | Some pdpt =>
      '(pd, s) ← get_or_create_table pdpt (table_index 30 va) flags s;
      match pd with
      | None => Some (-1, s)
      | Some pd =>
          '(pt, s) ← get_or_create_pt pd (table_index 21 va) flags s;
          match pt with
          | None => Some (-1, s)
          | Some pt => s ← store_word pt (table_index 12 va) (Z.lor pa flags) s; Some (0, s)
          end
      end
  end.

Definition map_page (va pa flags : Z) (s : phys) : option (Z * phys) :=
  map_page_in (kernel_pml4 s) va pa flags s.

(** The loop of [mmu_find_pte] over the shifts 39, 30 and 21. *)
Fixpoint find_table (m : gmap Z (list Z)) (shifts : list Z) (table va : Z) : option (option Z) :=
  match shifts with
  | [] => Some (Some table)
  | shift :: rest =>
      entry ← rd_word m table (table_index shift va);
      if negb (Z.land entry (Z.lor MMU_PRESENT MMU_PDE_TWO_MB) =? MMU_PRESENT) then Some None
      else find_table m rest (table_at entry) va
  end.

Definition mmu_find_pte (pml4_addr va : Z) (s : phys) : option (option (Z * Z)) :=
  r ← find_table (mem s) [39; 30; 21] pml4_addr va;
  Some (match r with Some table => Some (table, table_index 12 va) | None => None end).

Definition unmap_page (va : Z) (s : phys) : option phys :=
  r ← mmu_find_pte (kernel_pml4 s) va s;
  match r with
  | None => Some s
  | Some (t, i) => store_word t i 0 s
  end.

(** ** Page maps of processes *)

(** [for (i = 0; i < 512; i++) dst[i] = src[i]], [n] entries left. *)
Fixpoint copy_entries (n : nat) (dst src i : Z) (s : phys) : option phys :=
  match n with
  | O => Some s
  | S n' =>
      e ← rd_word (mem s) src i;
      s ← store_word dst i e s;
      copy_entries n' dst src (i + 1) s
  end.

(** Returns 0 when no page is left. *)
Definition setup_kvm (s : phys) : option (Z * phys) :=
  '(pml4_addr, s) ← allocate_page_table s;
  if pml4_addr =? 0 then Some (0, s)
  else
    let pml4 := table_at pml4_addr in
    let kernel := table_at (kernel_pml4 s) in
    s ← copy_entries 512 pml4 kernel 0 s;
    k0 ← rd_word (mem s) kernel 0;
    '(low_addr, s) ← allocate_page_table s;
    if low_addr =? 0 then
      s ← free_frame pml4_addr s;
      Some (0, s)
    else
      let low := table_at low_addr in
      s ← copy_entries 512 low (table_at k0) 0 s;
      s ← store_word pml4 0
            (Z.lor (Z.lor (Z.lor low_addr MMU_PRESENT) MMU_WRITABLE) MMU_USER) s;
      Some (pml4_addr, s).

(** The loops of [free_vm], one per level, [n] entries left from index [i]. *)
Fixpoint free_pt (n : nat) (pt l : Z) (s : phys) : option phys :=
  match n with
  | O => Some s
  | S n' =>
      e ← rd_word (mem s) pt l;
      s ← (if negb (Z.land e MMU_USER =? 0) && negb (Z.land e PTE_ADDR =? 0)
           then free_frame (Z.land e PTE_ADDR) s else Some s);
      free_pt n' pt (l + 1) s
  end.

Fixpoint free_pd (n : nat) (pd k : Z) (s : phys) : option phys :=
  match n with
  | O => Some s
  | S n' =>
      e ← rd_word (mem s) pd k;
      s ← (if (Z.land e MMU_PRESENT =? 0) || negb (Z.land e MMU_PDE_TWO_MB =? 0) then Some s
           else
             s ← free_pt 512 (table_at e) 0 s;
             free_frame (Z.land e PTE_ADDR) s);
      free_pd n' pd (k + 1) s
  end.

(** [low] is [kernel_low] below the first entry of the top table. *)
Fixpoint free_pdpt (n : nat) (pdpt j : Z) (low : option Z) (s : phys) : option phys :=
  match n with
  | O => Some s
  | S n' =>
      e ← rd_word (mem s) pdpt j;
      skip ← (if Z.land e MMU_PRESENT =? 0 then Some true
              else match low with
                   | Some kl => ke ← rd_word (mem s) kl j; Some (e =? ke)
                   | None => Some false
                   end);
      s ← (if skip : bool then Some s
           else
             s ← free_pd 512 (table_at e) 0 s;
             free_frame (Z.land e PTE_ADDR) s);
      free_pdpt n' pdpt (j + 1) low s
  end.

Fixpoint free_pml4 (n : nat) (pml4 kernel kernel_low i : Z) (s : phys) : option phys :=
  match n with
  | O => Some s
  | S n' =>
      e ← rd_word (mem s) pml4 i;
      ke ← rd_word (mem s) kernel i;
      s ← (if (Z.land e MMU_PRESENT =? 0) || (e =? ke) then Some s
           else
             s ← free_pdpt 512 (table_at e) 0 (if i =? 0 then Some kernel_low else None) s;
             free_frame (Z.land e PTE_ADDR) s);
      free_pml4 n' pml4 kernel kernel_low (i + 1) s
  end.

Definition free_vm (pml4_addr : Z) (s : phys) : option phys :=
  if pml4_addr =? 0 then Some s
  else
    k0 ← rd_word (mem s) (kernel_pml4 s) 0;
    s ← free_pml4 512 pml4_addr (kernel_pml4 s) (table_at k0) 0 s;
    free_frame pml4_addr s.

(** ** The kernel's own page map *)

Definition setup_kernel_mapping (pml4 : Z) (s : phys) : option phys :=
  '(high_pdpt, s) ← allocate_page_table s;
  s ← store_word pml4 511 (Z.lor (Z.lor high_pdpt MMU_PRESENT) MMU_WRITABLE) s;
  '(kernel_pd, s) ← allocate_page_table s;
  s ← store_word (table_at high_pdpt) 510 (Z.lor (Z.lor kernel_pd MMU_PRESENT) MMU_WRITABLE) s;
  fill_pages (Z.to_nat (0x40000000 / TWO_MEGABYTES)) (table_at kernel_pd) 0 0x400000 TWO_MEGABYTES
    (Z.lor (Z.lor MMU_PRESENT MMU_WRITABLE) MMU_PDE_TWO_MB) s.

Definition setup_identity_mapping (pml4 : Z) (s : phys) : option phys :=
  '(pdpt, s) ← allocate_page_table s;
  s ← store_word pml4 0 (Z.lor (Z.lor pdpt MMU_PRESENT) MMU_WRITABLE) s;
  '(identity_pd, s) ← allocate_page_table s;
  s ← store_word (table_at pdpt) 0 (Z.lor (Z.lor identity_pd MMU_PRESENT) MMU_WRITABLE) s;
  fill_pages (Z.to_nat (IDENTITY_MAP_SIZE / TWO_MEGABYTES)) (table_at identity_pd) 0 0 TWO_MEGABYTES
    (Z.lor (Z.lor MMU_PRESENT MMU_WRITABLE) MMU_PDE_TWO_MB) s.

Definition setup_device_mappings (s : phys) : option phys :=
  '(_, s) ← map_page 0xFFFFFFFFFEC00000 0xFEC00000
              (Z.lor (Z.lor MMU_PRESENT MMU_WRITABLE) MMU_CACHE_DISABLE) s;
  Some s.

(** One 2 MiB page of the direct map; [Some None] is the panic. *)
Definition direct_page (pml4 phys_addr : Z) (s : phys) : option (option phys) :=
  let virt := u64 (DIRECT_MAP_BASE + phys_addr) in
  '(pdpt, s) ← get_or_create_table pml4 (table_index 39 virt) 0 s;
  match pdpt with
  | None => Some None
  | Some pdpt =>
      '(pd, s) ← get_or_create_table pdpt (table_index 30 virt) 0 s;
      match pd with
      | None => Some None
      | Some pd =>
          s ← store_word pd (table_index 21 virt)
                (Z.lor (Z.lor (Z.lor phys_addr MMU_PRESENT) MMU_WRITABLE) MMU_PDE_TWO_MB) s;
          Some (Some s)
      end
  end.

(** The inner loop over a region: fuel for one round per 2 MiB. *)
Fixpoint direct_region (fuel : nat) (pml4 phys_addr end_ : Z) (s : phys) : option (option phys) :=
  match fuel with
  | O => None
  | S fuel' =>
      if negb (phys_addr <? end_) then Some (Some s)
      else
        r ← direct_page pml4 phys_addr s;
        match r with
        | None => Some None
        | Some s => direct_region fuel' pml4 (u64 (phys_addr + TWO_MEGABYTES)) end_ s
        end
  end.

Fixpoint setup_direct_mapping (regions : list memory_region) (pml4 : Z) (s : phys)
  : option (option phys) :=
  match regions with
  | [] => Some (Some s)
  | r :: rest =>
      let end_ := u64 (mr_addr r + mr_length r) in
      let start := Z.ldiff (mr_addr r) (TWO_MEGABYTES - 1) in
      res ← direct_region (S (Z.to_nat ((end_ - start + TWO_MEGABYTES - 1) / TWO_MEGABYTES)))
              pml4 start end_ s;
      match res with
      | None => Some None
      | Some s => setup_direct_mapping rest pml4 s
      end
  end.

(** [mmu_initialize], without the CPU registers. *)
Definition mmu_initialize (regions : list memory_region) (s : phys) : option (option phys) :=
  '(table, s) ← allocate_page_table s;
  let s := Phys (mem s) (frames s) table in
  let pml4 := table_at table in
  s ← setup_kernel_mapping pml4 s;
  s ← setup_identity_mapping pml4 s;
  r ← setup_direct_mapping regions pml4 s;
  match r with
  | None => Some None
  | Some s => s ← setup_device_mappings s; Some (Some s)
  end.
End mmu.

Arguments phys : clear implicits.
