(* ===== verification/PageTableFacts.v ===== *)
(** * Walking and changing page tables

    A walk of [n] levels from a root table ends in the table that level uses
    for an address.  [pt_wf] says that every table a walk reaches is a frame of
    its own, reached by one prefix only.  [xlate] is the entry in effect for a
    page, whether it comes from a 4 KiB entry or from a 2 MiB one.  The facts
    are proved for any allocator that keeps the contract of Frames. *)

From Stdlib Require Import ZArith Lia Bool.
From stdpp Require Import base list option gmap.
From S2P Require Import Prelude Mmu PmmFacts Frames PageTable.
Open Scope Z_scope.

(** ** Bits of entries *)

Lemma land_low_zero p f : p mod PAGE_SIZE = 0 -> 0 <= f < PAGE_SIZE -> Z.land p f = 0.
Proof.
  intros Hp Hf. change PAGE_SIZE with (2 ^ 12) in *.
  apply Z.bits_inj'. intros i Hi. rewrite Z.land_spec, Z.bits_0.
  destruct (Z_lt_ge_dec i 12).
  - rewrite <- (Z.mod_pow2_bits_low p 12 i), Hp by lia. by rewrite Z.bits_0.
  - rewrite (testbit_above 12 f) by (done || lia). apply andb_false_r.
Qed.

Lemma PTE_ADDR_spec i : 0 <= i -> Z.testbit PTE_ADDR i = (12 <=? i) && (i <? 52).
Proof.
  intros Hi. change PTE_ADDR with (Z.shiftl (Z.ones 40) 12).
  rewrite Z.shiftl_spec by done. destruct (Z.leb_spec 12 i); cbn [andb].
  - rewrite Z.testbit_ones_nonneg by lia. zcases.
  - by rewrite Z.testbit_neg_r by lia.
Qed.

(** The address of an entry made of a frame and flag bits. *)
Lemma table_at_flags p f : frame_ok p -> 0 <= f < PAGE_SIZE -> table_at (Z.lor p f) = p.
Proof.
  intros [Hp Hm] Hf. unfold table_at. apply Z.bits_inj'. intros i Hi.
  rewrite Z.land_spec, Z.lor_spec, PTE_ADDR_spec by done.
  destruct (Z_lt_ge_dec i 12).
  - change PAGE_SIZE with (2 ^ 12) in Hm. rewrite <- (Z.mod_pow2_bits_low p 12 i), Hm, Z.bits_0 by lia.
    by zcases.
  - change PAGE_SIZE with (2 ^ 12) in Hf.
    rewrite (testbit_above 12 f) by (done || lia). rewrite orb_false_r.
    destruct (Z_lt_ge_dec i 52).
    + by zcases; rewrite andb_true_r.
    + rewrite (testbit_above 52 p) by (unfold is_u; lia). done.
Qed.

Lemma table_at_frame p : frame_ok p -> table_at p = p.
Proof. intros Hp. rewrite <- (table_at_flags p 0) at 2; rewrite ?Z.lor_0_r; done. Qed.

Lemma land_flags p f m : p mod PAGE_SIZE = 0 -> 0 <= m < PAGE_SIZE ->
  Z.land (Z.lor p f) m = Z.land f m.
Proof. intros Hp Hm. by rewrite Z.land_lor_distr_l, (land_low_zero p m). Qed.

(** ** Walks *)

(** The index into the table of level [n]. *)
Definition ix (n : nat) (va : Z) : Z := table_index (39 - 9 * Z.of_nat n) va.

Lemma table_index_range shift va : 0 <= table_index shift va < 512.
Proof.
  unfold table_index. change 0x1FF with (Z.ones 9). rewrite Z.land_ones by lia.
  apply Z.mod_pos_bound. lia.
Qed.

Definition follow (e : Z) : bool := Z.land e (Z.lor MMU_PRESENT MMU_PDE_TWO_MB) =? MMU_PRESENT.
Definition present (e : Z) : bool := negb (Z.land e MMU_PRESENT =? 0).
Definition big (e : Z) : bool := negb (Z.land e MMU_PDE_TWO_MB =? 0).

Lemma follow_eq e : follow e = present e && negb (big e).
Proof.
  unfold follow, present, big. change MMU_PRESENT with (Z.shiftl 1 0).
  change MMU_PDE_TWO_MB with (Z.shiftl 1 7). rewrite !land_bit_eqb, !negb_involutive by lia.
  destruct (Z.testbit e 0) eqn:E0, (Z.testbit e 7) eqn:E7; cbn [andb negb].
  - apply Z.eqb_neq. intros H. apply (f_equal (fun x => Z.testbit x 7)) in H.
    rewrite Z.land_spec, E7 in H. vm_compute in H. done.
  - apply Z.eqb_eq. apply Z.bits_inj'. intros i Hi.
    rewrite Z.land_spec, Z.lor_spec, !shiftl_one_spec by lia.
    destruct (Z.eqb_spec i 0) as [-> | ?]; [by rewrite E0 |].
    destruct (Z.eqb_spec i 7) as [-> | ?]; [by rewrite E7 |]. apply andb_false_r.
  - apply Z.eqb_neq. intros H. apply (f_equal (fun x => Z.testbit x 0)) in H.
    rewrite Z.land_spec, E0 in H. vm_compute in H. done.
  - apply Z.eqb_neq. intros H. apply (f_equal (fun x => Z.testbit x 0)) in H.
    rewrite Z.land_spec, E0 in H. vm_compute in H. done.
Qed.

Abbreviation memory := (gmap Z (list Z)).

Fixpoint walk (m : memory) (root : Z) (n : nat) (va : Z) : option Z :=
  match n with
  | O => Some root
  | S n' =>
      t ← walk m root n' va;
      e ← rd_word m t (ix n' va);
      if follow e then Some (table_at e) else None
  end.

(** The first [n] indices of two addresses are the same. *)
Fixpoint same_prefix (n : nat) (va va' : Z) : bool :=
  match n with O => true | S n' => same_prefix n' va va' && (ix n' va' =? ix n' va) end.

Definition same_page (va va' : Z) : bool := same_prefix 4 va va'.

Lemma same_prefix_le n k va va' : (k <= n)%nat -> same_prefix n va va' = true ->
  same_prefix k va va' = true.
Proof.
  intros Hk. induction n as [| n IH]; simpl; [by replace k with 0%nat by lia |].
  intros [H1 H2]%andb_prop. destruct (decide (k = S n)) as [-> |]; [| apply IH; [lia | done]].
  simpl. by rewrite H1, H2.
Qed.

Lemma same_prefix_sym n va va' : same_prefix n va va' = same_prefix n va' va.
Proof. induction n as [| n IH]; simpl; [done |]. by rewrite IH, Z.eqb_sym. Qed.

Lemma same_prefix_refl n va : same_prefix n va va = true.
Proof. induction n as [| n IH]; simpl; [done |]. by rewrite IH, Z.eqb_refl. Qed.

Lemma walk_prefix m root n va va' : same_prefix n va va' = true ->
  walk m root n va' = walk m root n va.
Proof.
  induction n as [| n IH]; simpl; [done |]. intros [H1 ->%Z.eqb_eq]%andb_prop. by rewrite IH.
Qed.

Lemma walk_le m root n k va t : (k <= n)%nat -> walk m root n va = Some t ->
  exists t', walk m root k va = Some t'.
Proof.
  intros Hk. revert t. induction n as [| n IH]; intros t Hw; [replace k with 0%nat by lia; eauto |].
  destruct (decide (k = S n)) as [-> |]; [eauto |].
  simpl in Hw. apply bind_Some in Hw as (t' & Hw & _). eapply IH; [lia | done].
Qed.

(** A walk depends on the entries it reads. *)
Lemma walk_ext m m' root n va :
  (forall k t, (k < n)%nat -> walk m root k va = Some t ->
     rd_word m' t (ix k va) = rd_word m t (ix k va)) ->
  walk m' root n va = walk m root n va.
Proof.
  induction n as [| n IH]; intros H; [done |]. simpl. rewrite IH by (intros; apply H; [lia | done]).
  destruct (walk m root n va) as [t |] eqn:E; [| done]. simpl. by rewrite (H n t) by (done || lia).
Qed.

Lemma walk_None m root n k va : (k <= n)%nat -> walk m root k va = None ->
  walk m root n va = None.
Proof.
  intros Hk Hn. destruct (walk m root n va) as [t |] eqn:E; [| done].
  destruct (walk_le _ _ _ _ _ _ Hk E). congruence.
Qed.

(** The loop of [mmu_find_pte] is the walk to the last level. *)
Lemma find_table_from m root va n k t : (k + n = 3)%nat -> walk m root k va = Some t ->
  (forall k t, (k < 3)%nat -> walk m root k va = Some t -> is_Some (rd_word m t (ix k va))) ->
  find_table m ((fun j => 39 - 9 * Z.of_nat j) <$> seq k n) t va = Some (walk m root 3 va).
Proof.
  revert k t. induction n as [| n IH]; intros k t Hk Hw H.
  { replace k with 3%nat in Hw by lia. cbn [seq fmap list_fmap find_table]. by rewrite Hw. }
  cbn [seq fmap list_fmap find_table]. fold (ix k va).
  destruct (H k t ltac:(lia) Hw) as [e He]. rewrite He. cbn [mbind option_bind].
  fold (follow e). assert (walk m root (S k) va = if follow e then Some (table_at e) else None) as Hs
    by (cbn [walk]; rewrite Hw; cbn [mbind option_bind]; by rewrite He).
  destruct (follow e); cbn [negb].
  - apply IH; [lia | done | done].
  - by rewrite (walk_None m root 3 (S k)) by (done || lia).
Qed.

Lemma find_table_walk m root va :
  (forall k t, (k < 3)%nat -> walk m root k va = Some t -> is_Some (rd_word m t (ix k va))) ->
  find_table m [39; 30; 21] root va = Some (walk m root 3 va).
Proof. by apply (find_table_from m root va 3 0 root). Qed.

(** ** Words of memory *)

Lemma rd_wr_word m t i v m' t' j : wr_word m t i v = Some m' ->
  rd_word m' t' j = if (t' =? t) && (j =? i) then Some v else rd_word m t' j.
Proof.
  unfold wr_word, rd_word. intros H. apply bind_Some in H as (w & Hw & H).
  apply bind_Some in H as (w' & Hw' & [= <-]).
  destruct (Z.eqb_spec t' t) as [-> | Hne]; cbn [andb].
  - rewrite lookup_insert_eq, Hw. simpl. by rewrite (rd_wr _ _ _ _ _ Hw').
  - by rewrite lookup_insert_ne.
Qed.

Lemma wr_word_other m t i v m' q : wr_word m t i v = Some m' -> q <> t -> m' !! q = m !! q.
Proof.
  unfold wr_word. intros H Hq. apply bind_Some in H as (w & Hw & H).
  apply bind_Some in H as (w' & Hw' & [= <-]). by apply lookup_insert_ne.
Qed.

Definition is_table (m : memory) (t : Z) : Prop := exists w, m !! t = Some w /\ length w = 512%nat.

Lemma wr_word_table m t i v m' q : wr_word m t i v = Some m' -> is_table m q -> is_table m' q.
Proof.
  unfold wr_word, is_table. intros H (x & Hx & Hl). apply bind_Some in H as (w & Hw & H).
  apply bind_Some in H as (w' & Hw' & [= <-]). destruct (decide (q = t)) as [-> | Hne].
  - rewrite lookup_insert_eq. exists w'. split; [done |]. apply wr_length in Hw'. congruence.
  - rewrite lookup_insert_ne by done. eauto.
Qed.

Lemma wr_word_Some m t i v : is_table m t -> 0 <= i < 512 -> exists m', wr_word m t i v = Some m'.
Proof.
  intros (w & Hw & Hl) Hi. unfold wr_word. rewrite Hw. cbn [mbind option_bind].
  rewrite wr_is_Some by lia. cbn [mbind option_bind]. eauto.
Qed.

Lemma rd_word_Some m t i : is_table m t -> 0 <= i < 512 -> is_Some (rd_word m t i).
Proof.
  intros (w & Hw & Hl) Hi. unfold rd_word. rewrite Hw. cbn [mbind option_bind].
  destruct (rd_is_Some w i) as [x Hx]; [lia |]. by eexists.
Qed.

Lemma rd_word_insert m t w t' j : rd_word (<[t := w]> m) t' j = if t' =? t then rd w j else rd_word m t' j.
Proof.
  unfold rd_word. destruct (Z.eqb_spec t' t) as [-> | ?]; [by rewrite lookup_insert_eq |].
  by rewrite lookup_insert_ne.
Qed.

Lemma zero_frame_length : length zero_frame = 512%nat.
Proof. apply length_replicate. Qed.
Lemma rd_zero_frame j : 0 <= j < 512 -> rd zero_frame j = Some 0.
Proof. apply (rd_replicate 512). Qed.
#[local] Opaque zero_frame.

(** ** The entry in effect *)

(** The 4 KiB entry that stands for page [j] of a 2 MiB entry. *)
Definition split_entry (e j : Z) : Z :=
  Z.lor (u64 (Z.land e 0x000FFFFFFFE00000 + j * PAGE_SIZE))
        (Z.lor (Z.ldiff (Z.land e 0xFFF) MMU_PDE_TWO_MB) (Z.land e (Z.shiftl 1 63))).

(** What the entry [e] of a page directory gives page [j] below it. *)
Definition below_pd (e j : Z) : Z := if present e && big e then split_entry e j else 0.

Definition xlate (m : memory) (root va : Z) : Z :=
  match walk m root 3 va with
  | Some t => default 0 (rd_word m t (ix 3 va))
  | None =>
      match walk m root 2 va with
      | Some pd => below_pd (default 0 (rd_word m pd (ix 2 va))) (ix 3 va)
      | None => 0
      end
  end.

Section facts.
Context {A : Type} `{!Frames A, !FramesOk A}.
Implicit Types (s : phys A).

Record pt_wf (s : phys A) (root : Z) : Prop := {
  wf_frames : frames_inv (frames s);
  wf_table : forall n va t, (n <= 3)%nat -> walk (mem s) root n va = Some t ->
    frame_ok t /\ 0 < held (frames s) t /\ is_table (mem s) t;
  wf_inj : forall n1 n2 va1 va2 t, (n1 <= 3)%nat -> (n2 <= 3)%nat ->
    walk (mem s) root n1 va1 = Some t -> walk (mem s) root n2 va2 = Some t ->
    n1 = n2 /\ same_prefix n1 va1 va2 = true;
  wf_upper : forall n va t e, (n < 2)%nat -> walk (mem s) root n va = Some t ->
    rd_word (mem s) t (ix n va) = Some e -> present e = true -> big e = false;
}.

Lemma wf_read s root n va t : pt_wf s root -> (n <= 3)%nat -> walk (mem s) root n va = Some t ->
  is_Some (rd_word (mem s) t (ix n va)).
Proof.
  intros Hwf Hn Hw. destruct (wf_table _ _ Hwf _ _ _ Hn Hw) as (_ & _ & Ht).
  apply rd_word_Some; [done | apply table_index_range].
Qed.

Lemma wf_find_pte s root va : pt_wf s root ->
  mmu_find_pte root va s =
    Some (match walk (mem s) root 3 va with Some t => Some (t, ix 3 va) | None => None end).
Proof.
  intros Hwf. unfold mmu_find_pte. rewrite find_table_walk; [done |].
  intros k t Hk Hw. by apply (wf_read s root); [| lia |].
Qed.

(** ** Linking a new table *)

Section link.
Context (s : phys A) (root : Z) (n : nat) (va parent e0 new : Z) (w : list Z) (e' : Z) (m' : memory).
Hypothesis Hwf : pt_wf s root.
Hypothesis Hn : (n <= 2)%nat.
Hypothesis Hparent : walk (mem s) root n va = Some parent.
Hypothesis He0 : rd_word (mem s) parent (ix n va) = Some e0.
Hypothesis Hnf : follow e0 = false.
Hypothesis Hnew : frame_ok new.
Hypothesis Hunheld : held (frames s) new = 0.
Hypothesis Hlen : length w = 512%nat.
Hypothesis Hw : forall j, 0 <= j < 512 -> rd w j = Some (below_pd e0 j).
Hypothesis Hm' : wr_word (<[new := w]> (mem s)) parent (ix n va) e' = Some m'.
Hypothesis Hf' : follow e' = true.
Hypothesis Hat' : table_at e' = new.

Lemma link_unreached k va' : (k <= 3)%nat -> walk (mem s) root k va' <> Some new.
Proof.
  intros Hk Hwk. destruct (wf_table _ _ Hwf _ _ _ Hk Hwk) as (_ & ? & _). lia.
Qed.

Lemma link_read t i : rd_word m' t i =
  if (t =? parent) && (i =? ix n va) then Some e'
  else if t =? new then rd w i else rd_word (mem s) t i.
Proof. rewrite (rd_wr_word _ _ _ _ _ _ _ Hm'). by rewrite rd_word_insert. Qed.

(** Above the page directories a missing table has a zero entry, so the new
    table is empty. *)
Lemma link_empty j : (n < 2)%nat -> 0 <= j < 512 -> rd w j = Some 0.
Proof.
  intros Hn2 Hj. rewrite Hw by done. f_equal. unfold below_pd.
  destruct (present e0) eqn:Hp; [| done].
  by rewrite (wf_upper _ _ Hwf n va parent e0 Hn2 Hparent He0 Hp).
Qed.

Lemma link_walk k va' : (k <= 3)%nat ->
  walk m' root k va' =
    if (n <? k)%nat && same_prefix (S n) va va' then (if (k =? S n)%nat then Some new else None)
    else walk (mem s) root k va'.
Proof.
  induction k as [| k IH]; intros Hk; [done |].
  cbn [walk]. rewrite IH by lia.
  destruct ((n <? k)%nat && same_prefix (S n) va va') eqn:Hc.
  - apply andb_prop in Hc as [Hnk%Nat.ltb_lt Hsp].
    assert ((n <? S k)%nat = true) as -> by (apply Nat.ltb_lt; lia). rewrite Hsp. cbn [andb].
    assert ((S k =? S n)%nat = false) as -> by (apply Nat.eqb_neq; lia).
    destruct (Nat.eqb_spec k (S n)) as [-> | ?]; [| done]. cbn [mbind option_bind].
    rewrite link_read, Z.eqb_refl.
    destruct (Z.eqb_spec new parent) as [E | _];
      [exfalso; apply (link_unreached n va); [lia | congruence] |].
    cbn [andb]. rewrite link_empty by (lia || apply table_index_range). cbn [mbind option_bind]. done.
  - destruct (walk (mem s) root k va') as [t |] eqn:Ht; cbn [mbind option_bind].
    2:{ destruct ((n <? S k)%nat && same_prefix (S n) va va') eqn:Hc2; [| done].
        apply andb_prop in Hc2 as [Hnk%Nat.ltb_lt Hsp]. rewrite Hsp, andb_true_r in Hc.
        apply Nat.ltb_ge in Hc. assert (k = n) as -> by lia. exfalso.
        rewrite (walk_prefix _ _ _ va) in Ht; [congruence |].
        by apply (same_prefix_le (S n)); [lia |]. }
    rewrite link_read. destruct (Z.eqb_spec t new) as [-> | _];
      [by destruct (link_unreached k va' ltac:(lia)) |].
    destruct ((t =? parent) && (ix k va' =? ix n va)) eqn:Hslot.
    + apply andb_prop in Hslot as [->%Z.eqb_eq Hix].
      destruct (wf_inj _ _ Hwf n k va va' parent) as [<- Hsp]; [lia | lia | done | done |].
      cbn [mbind option_bind]. rewrite Hf', Hat'. assert ((n <? S n)%nat = true) as -> by (apply Nat.ltb_lt; lia).
      cbn [same_prefix]. rewrite Hsp, Hix, Nat.eqb_refl. done.
    + destruct ((n <? S k)%nat && same_prefix (S n) va va') eqn:Hc2; [| done].
      apply andb_prop in Hc2 as [Hnk%Nat.ltb_lt Hsp]. rewrite Hsp, andb_true_r in Hc.
      apply Nat.ltb_ge in Hc. assert (k = n) as -> by lia. exfalso.
      cbn [same_prefix] in Hsp. apply andb_prop in Hsp as [Hsp Hix].
      rewrite (walk_prefix _ _ _ va) in Ht by done. rewrite Hparent in Ht.
      simplify_eq. rewrite Hix, Z.eqb_refl in Hslot. done.
Qed.

Lemma link_cases k va' t : (k <= 3)%nat -> walk m' root k va' = Some t ->
  (t = new /\ k = S n /\ same_prefix (S n) va va' = true) \/
  (t <> new /\ walk (mem s) root k va' = Some t).
Proof.
  intros Hk. rewrite link_walk by done.
  destruct ((n <? k)%nat && same_prefix (S n) va va') eqn:Hc.
  - destruct (Nat.eqb_spec k (S n)); [| done]. intros [= <-]. left.
    by apply andb_prop in Hc as [_ ?].
  - intros Ht. right. split; [| done]. intros ->. by apply (link_unreached k va').
Qed.

Lemma link_parent_new : parent <> new.
Proof. intros E. apply (link_unreached n va); [lia | congruence]. Qed.

Lemma link_tables q : is_table (mem s) q \/ q = new -> is_table m' q.
Proof.
  intros Hq. eapply wr_word_table; [exact Hm' |]. unfold is_table.
  destruct (decide (q = new)) as [-> | Hne].
  - rewrite lookup_insert_eq. eauto.
  - rewrite lookup_insert_ne by done. by destruct Hq.
Qed.

Lemma link_xlate va' : xlate m' root va' = xlate (mem s) root va'.
Proof.
  pose proof link_parent_new as Hpn. unfold xlate. rewrite !link_walk by lia.
  destruct (same_prefix (S n) va va') eqn:Hsp; rewrite ?andb_true_r, ?andb_false_r.
  - assert (walk (mem s) root (S n) va' = None) as Hnone.
    { cbn [walk]. cbn [same_prefix] in Hsp. apply andb_prop in Hsp as [Hsp Hix%Z.eqb_eq].
      rewrite (walk_prefix _ _ _ va), Hparent by done. cbn [mbind option_bind].
      rewrite Hix, He0. cbn [mbind option_bind]. by rewrite Hnf. }
    rewrite (walk_None _ _ 3 (S n) va' ltac:(lia) Hnone).
    assert ((n <? 3)%nat = true) as -> by (apply Nat.ltb_lt; lia).
    destruct (Nat.ltb_spec n 2) as [Hn2 | Hn2].
    + rewrite (walk_None _ _ 2 (S n) va' ltac:(lia) Hnone).
      assert ((3 =? S n)%nat = false) as -> by (apply Nat.eqb_neq; lia).
      destruct (Nat.eqb_spec 2 (S n)); [| done]. rewrite link_read, Z.eqb_refl.
      destruct (Z.eqb_spec new parent); [congruence |]. cbn [andb].
      rewrite link_empty by (done || apply table_index_range). done.
    + assert (2 = n)%nat as Hn' by lia.
      assert ((3 =? S n)%nat = true) as -> by (apply Nat.eqb_eq; lia).
      cbn [same_prefix] in Hsp. apply andb_prop in Hsp as [Hsp Hix%Z.eqb_eq].
      rewrite Hn', (walk_prefix _ _ _ va), Hparent, Hix, He0 by done. rewrite link_read, Z.eqb_refl.
      destruct (Z.eqb_spec new parent); [congruence |]. cbn [andb].
      by rewrite Hw by apply table_index_range.
  - destruct (walk (mem s) root 3 va') as [t |] eqn:Ht.
    + rewrite link_read. destruct (Z.eqb_spec t new) as [-> | _];
        [by destruct (link_unreached 3 va' ltac:(lia)) |].
      destruct (Z.eqb_spec t parent) as [-> | _]; [| done].
      destruct (wf_inj _ _ Hwf n 3 va va' parent) as [? _]; [lia | lia | done | done | lia].
    + destruct (walk (mem s) root 2 va') as [t |] eqn:Ht2; [| done].
      rewrite link_read. destruct (Z.eqb_spec t new) as [-> | _];
        [by destruct (link_unreached 2 va' ltac:(lia)) |].
      destruct ((t =? parent) && (ix 2 va' =? ix n va)) eqn:Hslot; [| done].
      apply andb_prop in Hslot as [->%Z.eqb_eq Hix].
      destruct (wf_inj _ _ Hwf n 2 va va' parent) as [Hn' Hsp']; [lia | lia | done | done |].
      rewrite <- Hn' in Hix. cbn [same_prefix] in Hsp. rewrite Hsp', Hix in Hsp. done.
Qed.

Lemma link_wf a' : frames_inv a' ->
  (forall q, q mod PAGE_SIZE = 0 -> held a' q = if q =? new then 1 else held (frames s) q) ->
  pt_wf (Phys m' a' (kernel_pml4 s)) root.
Proof.
  intros Ha' Hheld. pose proof link_parent_new as Hpn. constructor; cbn [mem frames].
  - done.
  - intros k va' t Hk Ht. destruct (link_cases k va' t Hk Ht) as [(-> & _) | [Hne Ht0]].
    + split; [done |]. rewrite Hheld, Z.eqb_refl by apply Hnew. split; [lia |].
      apply link_tables. by right.
    + destruct (wf_table _ _ Hwf k va' t Hk Ht0) as (Hok & Hh & Htab). split; [done |].
      rewrite Hheld by apply Hok. destruct (Z.eqb_spec t new); [done |]. split; [done |].
      apply link_tables. by left.
  - intros n1 n2 va1 va2 t H1 H2 Hw1 Hw2.
    destruct (link_cases n1 va1 t H1 Hw1) as [(-> & -> & Hs1) | [Hne1 Ht1]],
             (link_cases n2 va2 _ H2 Hw2) as [(E2 & -> & Hs2) | [Hne2 Ht2]]; try done.
    + split; [done |]. clear -Hs1 Hs2. induction (S n) as [| k IH]; [done |]. cbn [same_prefix] in *.
      apply andb_prop in Hs1 as [? ->%Z.eqb_eq], Hs2 as [? ->%Z.eqb_eq].
      by rewrite IH, Z.eqb_refl.
    + by apply (wf_inj _ _ Hwf n1 n2 va1 va2 t).
  - intros k va' t e Hk Ht Hr Hp.
    rewrite link_read in Hr.
    destruct (link_cases k va' t ltac:(lia) Ht) as [(-> & -> & _) | [Hne Ht0]].
    + destruct (Z.eqb_spec new parent); [congruence |]. rewrite Z.eqb_refl in Hr. cbn [andb] in Hr.
      rewrite link_empty in Hr by (lia || apply table_index_range). by simplify_eq.
    + destruct (Z.eqb_spec t new); [done |].
      destruct ((t =? parent) && (ix k va' =? ix n va)); [| by eapply (wf_upper _ _ Hwf k va' t)].
      simplify_eq. rewrite follow_eq in Hf'. apply andb_prop in Hf' as [_ ?].
      by apply negb_true_iff.
Qed.
End link.

(** ** Growth of a page map *)

(** A table on the path of an address. *)
Definition on_path (s : phys A) (root va q : Z) : Prop :=
  exists n, (n <= 3)%nat /\ walk (mem s) root n va = Some q.

(** Only tables on the path of [va] were added or written: frames in use keep
    their owners, memory outside the path and entries off it keep their contents,
    and every frame taken is a table on the path. *)
Record grows (s : phys A) (root va : Z) (s' : phys A) : Prop := {
  gr_kernel : kernel_pml4 s' = kernel_pml4 s;
  gr_held : forall q, q mod PAGE_SIZE = 0 -> 0 < held (frames s) q ->
    held (frames s') q = held (frames s) q;
  gr_mem : forall q, q mod PAGE_SIZE = 0 -> 0 < held (frames s) q -> ~ on_path s root va q ->
    mem s' !! q = mem s !! q;
  gr_walk : forall n va' t, (n <= 3)%nat -> walk (mem s) root n va' = Some t ->
    walk (mem s') root n va' = Some t;
  gr_new : forall n va' q, q mod PAGE_SIZE = 0 -> (n <= 3)%nat ->
    walk (mem s') root n va' = Some q ->
    walk (mem s) root n va' = Some q \/ (held (frames s) q = 0 /\ on_path s' root va q);
  gr_leak : forall q, q mod PAGE_SIZE = 0 -> held (frames s) q = 0 -> held (frames s') q <> 0 ->
    held (frames s') q = 1 /\ on_path s' root va q;
  gr_word : forall n va' t, (n <= 3)%nat -> walk (mem s) root n va' = Some t -> same_prefix (S n) va va' = false ->
    rd_word (mem s') t (ix n va') = rd_word (mem s) t (ix n va');
}.

Lemma grows_refl s root va : grows s root va s.
Proof. constructor; auto. lia. Qed.

Lemma grows_trans s1 s2 s3 root va : pt_wf s1 root -> pt_wf s2 root ->
  grows s1 root va s2 -> grows s2 root va s3 -> grows s1 root va s3.
Proof.
  intros Hwf1 Hwf2 [K1 H1 M1 W1 N1 L1 E1] [K2 H2 M2 W2 N2 L2 E2].
  assert (forall q, on_path s2 root va q -> on_path s3 root va q) as Hp
    by (intros q (n & Hn & Hw); exists n; auto). constructor.
  - congruence.
  - intros q Hq Hh. rewrite H2 by (rewrite ?H1; done). by apply H1.
  - intros q Hq Hh Hr. rewrite M2; [by apply M1 | done | by rewrite H1 |].
    intros (n & Hn & Hw). destruct (N1 n va q Hq Hn Hw) as [Hw' | [? _]]; [| lia].
    apply Hr. by exists n.
  - auto.
  - intros n va' q Hq Hn Hw. destruct (N2 n va' q Hq Hn Hw) as [Hw2 | [H0 Hr]].
    + destruct (N1 n va' q Hq Hn Hw2) as [? | [? ?]]; [by left | right; auto].
    + right. split; [| done]. pose proof (held_owned _ q (wf_frames _ _ Hwf1)).
      destruct (Z.eq_dec (held (frames s1) q) 0) as [| Hne]; [done |].
      rewrite <- H1 by (done || lia). done.
  - intros q Hq H0 H3. destruct (Z.eq_dec (held (frames s2) q) 0) as [E | E]; [by apply L2 |].
    destruct (L1 q Hq H0 E) as [? Hon].
    rewrite H2 by (done || lia). split; [done |]. auto.
  - intros n va' t Hn Ht Hsp. rewrite E2, E1 by auto. done.
Qed.

(** ** Allocating and linking tables *)

Lemma allocate_page_table_spec s : frames_inv (frames s) ->
  exists t s', allocate_page_table s = Some (t, s') /\ frames_inv (frames s') /\
    cost 1 (negb (t =? 0)) (frames s) (frames s') /\
    ((t = 0 /\ s' = set_frames (frames s') s /\
      forall q, held (frames s') q = held (frames s) q) \/
     (frame_ok t /\ held (frames s) t = 0 /\
      s' = Phys (<[t := zero_frame]> (mem s)) (frames s') (kernel_pml4 s) /\
      forall q, q mod PAGE_SIZE = 0 ->
        held (frames s') q = if q =? t then 1 else held (frames s) q)).
Proof.
  intros Hinv. unfold allocate_page_table.
  destruct (frame_alloc_ok _ Hinv) as (t & a & Hal & Ha & Hres). pose proof (cost_alloc _ _ _ Hinv Hal) as Hc.
  rewrite Hal. cbn [mbind option_bind].
  destruct Hres as [[-> Hh] | (Hok & H0 & _ & Hh)].
  - eexists 0, _. split; [done |]. split; [done |]. split; [done |]. by left.
  - destruct (Z.eqb_spec t 0); [destruct Hok; lia |].
    eexists t, _. split; [done |]. split; [done |]. split; [by apply Z.eqb_neq in n as -> |]. by right.
Qed.

(** Failure to allocate a table changes nothing that matters. *)
Lemma no_table s root a : pt_wf s root -> frames_inv a ->
  (forall q, held a q = held (frames s) q) ->
  pt_wf (set_frames a s) root /\ forall va, grows s root va (set_frames a s).
Proof.
  intros [W1 W2 W3 W4] Ha Hh. split.
  - constructor; [done | | done | done]. cbn [mem frames set_frames].
    intros n va t Hn Hw. rewrite Hh. eauto.
  - intros va. constructor; cbn [mem frames set_frames kernel_pml4]; auto.
    intros q _ H0 H1. rewrite Hh in H1. done.
Qed.

(** A new table is linked. *)
Lemma link_grows s root n va parent e0 new w e' m' a' :
  pt_wf s root -> (n <= 2)%nat -> walk (mem s) root n va = Some parent ->
  rd_word (mem s) parent (ix n va) = Some e0 -> follow e0 = false ->
  frame_ok new -> held (frames s) new = 0 -> length w = 512%nat ->
  (forall j, 0 <= j < 512 -> rd w j = Some (below_pd e0 j)) ->
  wr_word (<[new := w]> (mem s)) parent (ix n va) e' = Some m' ->
  follow e' = true -> table_at e' = new ->
  (forall q, q mod PAGE_SIZE = 0 -> held a' q = if q =? new then 1 else held (frames s) q) ->
  grows s root va (Phys m' a' (kernel_pml4 s)).
Proof.
  intros Hwf Hn Hpar He0 Hnf Hnew H0 Hlen Hw Hm' Hf' Hat' Hheld.
  assert (forall k va', (k <= 3)%nat -> walk (mem s) root k va' <> Some new) as Hun
    by (intros; by eapply link_unreached).
  assert (walk m' root (S n) va = Some new) as Hwn.
  { erewrite link_walk by (eassumption || lia).
    assert ((n <? S n)%nat = true) as -> by (apply Nat.ltb_lt; lia).
    by rewrite same_prefix_refl, Nat.eqb_refl. }
  constructor; cbn [mem frames kernel_pml4].
  - done.
  - intros q Hq Hh. rewrite Hheld by done. destruct (Z.eqb_spec q new); [subst; lia | done].
  - intros q Hq Hh Hr. rewrite (wr_word_other _ _ _ _ _ _ Hm').
    + apply lookup_insert_ne. intros ->. lia.
    + intros ->. apply Hr. exists n. split; [lia | done].
  - intros k va' t Hk Ht. erewrite link_walk by eassumption.
    destruct ((n <? k)%nat && same_prefix (S n) va va') eqn:Hc; [| done].
    apply andb_prop in Hc as [Hnk%Nat.ltb_lt Hsp]. exfalso.
    destruct (walk_le _ _ k (S n) va' t ltac:(lia) Ht) as [t' Ht'].
    cbn [walk] in Ht'. cbn [same_prefix] in Hsp. apply andb_prop in Hsp as [Hsp Hix%Z.eqb_eq].
    rewrite (walk_prefix _ _ _ va), Hpar in Ht' by done. cbn [mbind option_bind] in Ht'.
    rewrite Hix, He0 in Ht'. cbn [mbind option_bind] in Ht'. by rewrite Hnf in Ht'.
  - intros k va' q Hq Hk Hk'. eapply link_cases in Hk' as [(-> & _) | [_ Ht]];
      [right | by left | eassumption ..]. split; [done |]. exists (S n). split; [lia | done].
  - intros q Hq Hq0 Hq1. rewrite Hheld in * by done. destruct (Z.eqb_spec q new) as [-> | ?]; [| done].
    split; [done |]. exists (S n). split; [lia | done].
  - intros k va' t Hk Ht Hsp. erewrite link_read by eassumption.
    destruct (Z.eqb_spec t new) as [-> | _]; [by destruct (Hun k va') |].
    destruct ((t =? parent) && (ix k va' =? ix n va)) eqn:Hslot; [| done].
    apply andb_prop in Hslot as [->%Z.eqb_eq Hix].
    destruct (wf_inj _ _ Hwf n k va va' parent) as [<- Hsp']; [lia | lia | done | done |].
    cbn [same_prefix] in Hsp. by rewrite Hsp', Hix in Hsp.
Qed.

Lemma new_entry_ok new u : frame_ok new ->
  let e := Z.lor (Z.lor (Z.lor new MMU_PRESENT) MMU_WRITABLE) (Z.land u MMU_USER) in
  follow e = true /\ table_at e = new.
Proof.
  intros Hok e. assert (Z.land u MMU_USER = 0 \/ Z.land u MMU_USER = 4) as Hu.
  { change MMU_USER with (Z.shiftl 1 2). destruct (Z.testbit u 2) eqn:E.
    - right. apply Z.bits_inj'. intros i Hi. rewrite Z.land_spec, shiftl_one_spec by lia.
      change 4 with (Z.shiftl 1 2). rewrite shiftl_one_spec by lia.
      destruct (Z.eqb_spec i 2) as [-> | ?]; [by rewrite E | apply andb_false_r].
    - left. apply Z.eqb_eq. rewrite land_bit_eqb by lia. by rewrite E. }
  assert (e = Z.lor new (Z.lor 3 (Z.land u MMU_USER))) as ->
    by (change 3 with (Z.lor MMU_PRESENT MMU_WRITABLE); unfold e; by rewrite !Z.lor_assoc).
  split; [| apply table_at_flags; [done | destruct Hu as [-> | ->]; vm_compute; split; congruence]].
  unfold follow. rewrite land_flags by (apply Hok || (vm_compute; split; congruence)).
  by destruct Hu as [-> | ->].
Qed.

(** What making sure of a table of level [S n] comes to. *)
Definition ensured (s : phys A) (root : Z) (n : nat) (va : Z) (r : option Z) (s' : phys A) : Prop :=
  (forall t, r = Some t -> walk (mem s') root (S n) va = Some t) /\
  pt_wf s' root /\ grows s root va s' /\ cost 1 (got r) (frames s) (frames s') /\
  forall va', xlate (mem s') root va' = xlate (mem s) root va'.

Lemma link_ensured s root n va parent e0 new w e' m' a' :
  pt_wf s root -> (n <= 2)%nat -> walk (mem s) root n va = Some parent ->
  rd_word (mem s) parent (ix n va) = Some e0 -> follow e0 = false ->
  frame_ok new -> held (frames s) new = 0 -> length w = 512%nat ->
  (forall j, 0 <= j < 512 -> rd w j = Some (below_pd e0 j)) ->
  wr_word (<[new := w]> (mem s)) parent (ix n va) e' = Some m' ->
  follow e' = true -> table_at e' = new -> frames_inv a' -> cost 1 true (frames s) a' ->
  (forall q, q mod PAGE_SIZE = 0 -> held a' q = if q =? new then 1 else held (frames s) q) ->
  ensured s root n va (Some new) (Phys m' a' (kernel_pml4 s)).
Proof.
  intros Hwf Hn Hpar He0 Hnf Hnew H0 Hlen Hw Hm' Hf' Hat' Ha' Hcost Hheld. split_and!.
  - intros t [= <-]. cbn [mem].
    rewrite (link_walk s root n va parent e0 new w e' m') by (done || lia).
    assert ((n <? S n)%nat = true) as -> by (apply Nat.ltb_lt; lia).
    by rewrite same_prefix_refl, Nat.eqb_refl.
  - by apply (link_wf s root n va parent e0 new w e').
  - by apply (link_grows s root n va parent e0 new w e').
  - done.
  - intros va'. by apply (link_xlate s root n va parent e0 new w e').
Qed.

Lemma get_or_create_table_spec s root n va parent flags : pt_wf s root -> (n <= 2)%nat ->
  walk (mem s) root n va = Some parent ->
  (forall e, rd_word (mem s) parent (ix n va) = Some e -> present e && big e = false) ->
  exists r s', get_or_create_table parent (ix n va) flags s = Some (r, s') /\
    ensured s root n va r s'.
Proof.
  intros Hwf Hn Hpar Hbig. unfold get_or_create_table.
  destruct (wf_read s root n va parent Hwf ltac:(lia) Hpar) as [e He]. rewrite He.
  cbn [mbind option_bind]. fold (present e). specialize (Hbig e He).
  destruct (present e) eqn:Hp; cbn [andb] in Hbig.
  { do 2 eexists. split; [done |]. split; [| split_and!; [done | apply grows_refl | apply cost_none; lia | done]].
    intros t [= <-]. cbn [walk]. rewrite Hpar. cbn [mbind option_bind]. rewrite He.
    cbn [mbind option_bind]. by rewrite follow_eq, Hp, Hbig. }
  destruct (allocate_page_table_spec s (wf_frames _ _ Hwf)) as (t & s1 & -> & Ha & Hcost & Hres).
  cbn [mbind option_bind]. destruct Hres as [(-> & -> & Hh) | (Hok & H0 & -> & Hh)].
  { destruct (no_table s root _ Hwf Ha Hh). do 2 eexists. split; [done |].
    split; [done |]. split_and!; done. }
  destruct (Z.eqb_spec t 0); [destruct Hok; lia |]. cbn [negb] in Hcost.
  destruct (new_entry_ok t flags Hok) as [Hf Hat]. set (e' := Z.lor _ (Z.land flags MMU_USER)) in *.
  assert (is_table (<[t := zero_frame]> (mem s)) parent) as Htab.
  { destruct (wf_table _ _ Hwf n va parent ltac:(lia) Hpar) as (_ & _ & w & Hw & Hl).
    unfold is_table. destruct (decide (parent = t)) as [-> | ?];
      [rewrite lookup_insert_eq; eauto | rewrite lookup_insert_ne by done; eauto]. }
  destruct (wr_word_Some _ parent (ix n va) e' Htab (table_index_range _ _)) as [m' Hm'].
  unfold store_word. cbn [mem frames]. rewrite Hm'. cbn [mbind option_bind].
  rewrite (table_at_frame t Hok). do 2 eexists. split; [done |]. cbn [frames kernel_pml4] in *.
  assert (forall j, 0 <= j < 512 -> rd (zero_frame) j = Some (below_pd e j)) as Hw.
  { intros j Hj. unfold below_pd. rewrite Hp. by apply rd_zero_frame. }
  assert (follow e = false) as Hfe by (by rewrite follow_eq, Hp).
  unfold set_mem. cbn [mem frames kernel_pml4]. pose proof zero_frame_length.
  by apply (link_ensured s root n va parent e t zero_frame e').
Qed.

(** ** Splitting a 2 MiB page *)

Lemma fill_pages_spec n pt i base stride flags s w : mem s !! pt = Some w ->
  0 <= i -> (Z.to_nat i + n = length w)%nat ->
  exists w', fill_pages n pt i base stride flags s = Some (set_mem (<[pt := w']> (mem s)) s) /\
    length w' = length w /\
    (forall j, 0 <= j < i -> rd w' j = rd w j) /\
    (forall j, i <= j < i + Z.of_nat n -> rd w' j = Some (Z.lor (u64 (base + j * stride)) flags)).
Proof.
  revert i s w. induction n as [| n IH]; intros i s w Hw Hi Hlen; cbn [fill_pages].
  { exists w. split; [| split_and!; [done | done | lia]]. unfold set_mem. f_equal.
    rewrite insert_id by done. by destruct s. }
  unfold store_word at 1, wr_word. rewrite Hw. cbn [mbind option_bind].
  set (v := Z.lor (u64 (base + i * stride)) flags).
  rewrite (wr_is_Some w i v) by lia. cbn [mbind option_bind]. set (w1 := <[Z.to_nat i := v]> w).
  assert (wr w i v = Some w1) as Hwr by (apply wr_is_Some; lia).
  destruct (IH (i + 1) (set_mem (<[pt := w1]> (mem s)) s) w1) as (w' & -> & Hl & Hlo & Hhi);
    [cbn; apply lookup_insert_eq | lia | rewrite (wr_length _ _ _ _ Hwr); lia |].
  exists w'. split; [cbn [set_mem mem frames kernel_pml4]; by rewrite insert_insert_eq |].
  split; [rewrite Hl; by apply wr_length in Hwr |]. split.
  - intros j Hj. rewrite Hlo, (rd_wr _ _ _ _ _ Hwr) by lia. destruct (Z.eqb_spec j i); [lia | done].
  - intros j Hj. destruct (Z.eq_dec j i) as [-> | ?]; [| apply Hhi; lia].
    rewrite Hlo, (rd_wr _ _ _ _ _ Hwr), Z.eqb_refl by lia. done.
Qed.

Lemma split_two_mb_page_spec s root va pd e : pt_wf s root ->
  walk (mem s) root 2 va = Some pd -> rd_word (mem s) pd (ix 2 va) = Some e ->
  present e && big e = true ->
  exists r s', split_two_mb_page pd (ix 2 va) s = Some (r, s') /\ ensured s root 2 va r s'.
Proof.
  intros Hwf Hpd He Hbig. unfold split_two_mb_page. rewrite He. cbn [mbind option_bind].
  destruct (allocate_page_table_spec s (wf_frames _ _ Hwf)) as (t & s1 & -> & Ha & Hcost & Hres).
  cbn [mbind option_bind]. destruct Hres as [(-> & -> & Hh) | (Hok & H0 & -> & Hh)].
  { destruct (no_table s root _ Hwf Ha Hh). do 2 eexists. split; [done |].
    split; [done |]. split_and!; done. }
  destruct (Z.eqb_spec t 0); [destruct Hok; lia |]. cbn [negb] in Hcost. rewrite (table_at_frame t Hok).
  destruct (new_entry_ok t e Hok) as [Hf Hat]. set (e' := Z.lor _ (Z.land e MMU_USER)) in *.
  set (s2 := Phys _ _ _).
  destruct (fill_pages_spec 512 t 0 (Z.land e 0x000FFFFFFFE00000) PAGE_SIZE
    (Z.lor (Z.ldiff (Z.land e 0xFFF) MMU_PDE_TWO_MB) (Z.land e (Z.shiftl 1 63))) s2 zero_frame)
    as (w & -> & Hl & _ & Hw); [apply lookup_insert_eq | lia | by rewrite zero_frame_length |].
  cbn [mbind option_bind]. rewrite zero_frame_length in Hl. unfold store_word, set_mem, s2.
  cbn [mem frames kernel_pml4]. rewrite insert_insert_eq.
  assert (is_table (<[t := w]> (mem s)) pd) as Htab.
  { destruct (wf_table _ _ Hwf 2 va pd ltac:(lia) Hpd) as (_ & _ & w0 & Hw0 & Hl0).
    unfold is_table. destruct (decide (pd = t)) as [-> | ?];
      [rewrite lookup_insert_eq; eauto | rewrite lookup_insert_ne by done; eauto]. }
  destruct (wr_word_Some _ pd (ix 2 va) e' Htab (table_index_range _ _)) as [m' Hm'].
  rewrite Hm'. cbn [mbind option_bind]. do 2 eexists. split; [done |].
  apply (link_ensured s root 2 va pd e t w e'); try done.
  - rewrite follow_eq. apply andb_prop in Hbig as [-> ->]. done.
  - intros j Hj. unfold below_pd. rewrite Hbig. by rewrite Hw by lia.
Qed.

Lemma get_or_create_pt_spec s root va pd flags : pt_wf s root ->
  walk (mem s) root 2 va = Some pd ->
  exists r s', get_or_create_pt pd (ix 2 va) flags s = Some (r, s') /\ ensured s root 2 va r s'.
Proof.
  intros Hwf Hpd. unfold get_or_create_pt.
  destruct (wf_read s root 2 va pd Hwf ltac:(lia) Hpd) as [e He]. rewrite He.
  cbn [mbind option_bind]. fold (present e) (big e). destruct (present e && big e) eqn:Hb.
  - by apply (split_two_mb_page_spec s root va pd e).
  - apply get_or_create_table_spec; [done | lia | done |]. intros e2 ?. by simplify_eq.
Qed.

(** ** Storing an entry in a page table *)

Lemma store_pte_spec s root va pt v : pt_wf s root -> walk (mem s) root 3 va = Some pt ->
  exists s', store_word pt (ix 3 va) v s = Some s' /\ pt_wf s' root /\ grows s root va s' /\
    frames s' = frames s /\
    (forall n va', (n <= 3)%nat -> walk (mem s') root n va' = walk (mem s) root n va') /\
    forall va', xlate (mem s') root va' = if same_page va va' then v else xlate (mem s) root va'.
Proof.
  intros Hwf Hpt. destruct (wf_table _ _ Hwf 3 va pt ltac:(lia) Hpt) as (Hok & Hh & Htab).
  destruct (wr_word_Some _ pt (ix 3 va) v Htab (table_index_range _ _)) as [m' Hm'].
  unfold store_word. rewrite Hm'. cbn [mbind option_bind]. eexists. split; [done |].
  assert (forall n va', (n <= 3)%nat -> walk m' root n va' = walk (mem s) root n va') as Hwalk.
  { intros n va' Hn. apply walk_ext. intros k t Hk Ht. rewrite (rd_wr_word _ _ _ _ _ _ _ Hm').
    destruct (Z.eqb_spec t pt) as [-> | ?]; [| done].
    destruct (wf_inj _ _ Hwf k 3 va' va pt) as [? _]; [lia | lia | done | done | lia]. }
  assert (forall n va', (n <= 3)%nat -> walk (mem s) root n va' = Some pt -> n = 3%nat /\ same_prefix 3 va va' = true) as Hinj.
  { intros n va' Hn Ht. destruct (wf_inj _ _ Hwf 3 n va va' pt) as [<- ?]; [lia.. | done | done |]. done. }
  cbn [set_mem mem frames]. split_and!; [| | done | done |].
  - destruct Hwf as [W1 W2 W3 W4]. constructor; cbn [set_mem mem frames].
    + done.
    + intros n va' t Hn Ht. rewrite Hwalk in Ht by done.
      destruct (W2 n va' t Hn Ht) as (? & ? & ?). split_and!; try done; try apply H.
      by eapply wr_word_table.
    + intros n1 n2 va1 va2 t Hn1 Hn2. rewrite !Hwalk by done. by apply W3.
    + intros n va' t e Hn Ht Hr. rewrite Hwalk in Ht by lia.
      rewrite (rd_wr_word _ _ _ _ _ _ _ Hm') in Hr. destruct (Z.eqb_spec t pt) as [-> | ?].
      * destruct (W3 n 3%nat va' va pt) as [? _]; [lia | lia | done | done | lia].
      * by apply (W4 n va' t).
  - constructor; cbn [set_mem mem frames kernel_pml4]; auto.
    + intros q _ _ Hr. apply (wr_word_other _ _ _ _ _ _ Hm'). intros ->. apply Hr.
      exists 3%nat. split; [lia | done].
    + intros n va' t Hn Ht. by rewrite Hwalk.
    + intros n va' q _ Hn Ht. left. by rewrite Hwalk in Ht.
    + lia.
    + intros n va' t Hn Ht Hsp. rewrite (rd_wr_word _ _ _ _ _ _ _ Hm').
      destruct ((t =? pt) && (ix n va' =? ix 3 va)) eqn:Hslot; [| done].
      apply andb_prop in Hslot as [->%Z.eqb_eq Hix].
      destruct (Hinj n va' Hn Ht) as [-> Hsp']. cbn [same_prefix] in Hsp, Hsp'. by rewrite Hsp', Hix in Hsp.
  - intros va'. unfold xlate. rewrite !Hwalk by lia.
    destruct (same_page va va') eqn:Hsp.
    + unfold same_page in Hsp. cbn [same_prefix] in Hsp. apply andb_prop in Hsp as [Hsp ->%Z.eqb_eq].
      rewrite (walk_prefix _ _ 3 va), Hpt by done.
      by rewrite (rd_wr_word _ _ _ _ _ _ _ Hm'), !Z.eqb_refl.
    + destruct (walk (mem s) root 3 va') as [t |] eqn:Ht.
      * rewrite (rd_wr_word _ _ _ _ _ _ _ Hm').
        destruct ((t =? pt) && (ix 3 va' =? ix 3 va)) eqn:Hslot; [| done].
        apply andb_prop in Hslot as [->%Z.eqb_eq Hix].
        destruct (wf_inj _ _ Hwf 3 3 va va' pt) as [_ Hsp3]; [lia | lia | done | done |].
        unfold same_page in Hsp. change (same_prefix 3 va va' && (ix 3 va' =? ix 3 va) = false) in Hsp.
        by rewrite Hsp3, Hix in Hsp.
      * destruct (walk (mem s) root 2 va') as [t |] eqn:Ht2; [| done].
        rewrite (rd_wr_word _ _ _ _ _ _ _ Hm'). destruct (Z.eqb_spec t pt) as [-> | ?]; [| done].
        destruct (wf_inj _ _ Hwf 2 3 va' va pt) as [? _]; [lia | lia | done | done | lia].
Qed.

(** ** Mapping a page *)

(** The page map after [map_page_in]. *)
Lemma map_page_in_spec s root va pa flags : pt_wf s root ->
  exists r s', map_page_in root va pa flags s = Some (r, s') /\ pt_wf s' root /\ grows s root va s' /\
    cost 3 (r =? 0) (frames s) (frames s') /\
    ((r = 0 /\ (exists t, walk (mem s') root 3 va = Some t) /\
      forall va', xlate (mem s') root va' =
        if same_page va va' then Z.lor pa flags else xlate (mem s) root va') \/
     (r = -1 /\ forall va', xlate (mem s') root va' = xlate (mem s) root va')).
Proof.
  intros Hwf. unfold map_page_in. change (table_index 39 va) with (ix 0 va).
  change (table_index 30 va) with (ix 1 va). change (table_index 21 va) with (ix 2 va).
  change (table_index 12 va) with (ix 3 va).
  assert (forall s n va t, pt_wf s root -> (n < 2)%nat -> walk (mem s) root n va = Some t ->
    forall e, rd_word (mem s) t (ix n va) = Some e -> present e && big e = false) as Hup.
  { intros s0 n va0 t Hwf0 Hn Ht e He. destruct (present e) eqn:Hp; [| done].
    by apply (wf_upper _ _ Hwf0 n va0 t e). }
  destruct (get_or_create_table_spec s root 0 va root flags Hwf) as
    (r1 & s1 & -> & W1 & Hwf1 & G1 & C1 & X1); [lia | done | by apply Hup; [| lia |] |].
  cbn [mbind option_bind]. destruct r1 as [pdpt |].
  2:{ do 2 eexists. split; [done |]. split_and!; [done | done | by apply (cost_weaken 1) | auto]. }
  specialize (W1 pdpt eq_refl).
  destruct (get_or_create_table_spec s1 root 1 va pdpt flags Hwf1) as
    (r2 & s2 & -> & W2 & Hwf2 & G2 & C2 & X2); [lia | done | by apply Hup; [| lia |] |].
  pose proof (grows_trans _ _ _ _ _ Hwf Hwf1 G1 G2) as G12. pose proof (cost_trans _ _ _ _ _ _ C1 C2) as C12.
  cbn [mbind option_bind]. destruct r2 as [pd |].
  2:{ do 2 eexists. split; [done |]. split_and!; [done | done | by apply (cost_weaken 2) |]. right. split; [done |].
      intros va'. by rewrite X2. }
  specialize (W2 pd eq_refl).
  destruct (get_or_create_pt_spec s2 root va pd flags Hwf2 W2) as (r3 & s3 & -> & W3 & Hwf3 & G3 & C3 & X3).
  pose proof (grows_trans _ _ _ _ _ Hwf Hwf2 G12 G3) as G13. pose proof (cost_trans _ _ _ _ _ _ C12 C3) as C13.
  cbn [mbind option_bind]. destruct r3 as [pt |].
  2:{ do 2 eexists. split; [done |]. split_and!; [done | done | done |]. right. split; [done |].
      intros va'. by rewrite X3, X2. }
  specialize (W3 pt eq_refl).
  destruct (store_pte_spec s3 root va pt (Z.lor pa flags) Hwf3 W3) as
    (s4 & -> & Hwf4 & G4 & F4 & Hwalk & X4).
  cbn [mbind option_bind]. exists 0, s4. split; [done |]. split; [done |].
  split; [by apply (grows_trans _ _ _ _ _ Hwf Hwf3 G13 G4) |]. split; [by rewrite F4 |]. left. split; [done |].
  split; [exists pt; by rewrite Hwalk by lia |].
  intros va'. rewrite X4, X3, X2, X1. done.
Qed.
End facts.
