(* ===== verification/MemoryTheorems.v ===== *)
(** * Theorems on physical memory

    The properties of pmm.c and of page reclaim, with a concrete machine on
    which their hypotheses hold. *)

From Stdlib Require Import ZArith Lia Bool.
From stdpp Require Import base list option gmap.
From S2P Require Import Prelude Mmu Pmm PmmFacts PmmSpec Pagecache PagecacheFacts.
Local Open Scope Z_scope.

(** ** A machine with one megabyte of memory at 1 MiB *)

Definition demo_mb : multiboot_info :=
  MultibootInfo [MemoryRegion 0 0x9fc00 2; MemoryRegion 0x100000 0x100000 MEMORY_AVAILABLE] 2.
Definition demo_kernel_end : Z := 0x100000.
Definition demo_boot : pmm :=
  match pmm_initialize demo_kernel_end demo_mb with
  | Some (Some st) => st
  | _ => Pmm [] [] 0 0 0 0 0 0 0 [] 0
  end.
(** The same machine once the direct map exists. *)
Definition demo : pmm := set_direct_map_offset DIRECT_MAP_BASE demo_boot.

Lemma demo_regions_ok : Forall region_ok (regions demo_mb).
Proof. repeat constructor; simpl; lia. Qed.

Lemma demo_boot_reachable : pmm_reachable demo_boot.
Proof.
  destruct (pmm_initialize_correct demo_kernel_end demo_mb) as (ms & [[H _] | (meta & st & H & Hi)]).
  - unfold demo_kernel_end; lia.
  - simpl; lia.
  - vm_compute; lia.
  - apply demo_regions_ok.
  - exfalso. revert H. vm_compute. discriminate.
  - unfold demo_boot. rewrite H. by eapply reach_init.
Qed.

Lemma demo_reachable : pmm_reachable demo.
Proof. apply reach_direct_map, demo_boot_reachable. Qed.

(** ** Boot *)



(** ** Refinement *)

(** C3: in every reachable state, every valid operation of pmm.c (take a page,
    take a run, free, share) completes inside its tables and implements one
    step of the abstract allocator, which only counts the owners of each page;
    the resulting state is well formed again. *)
Theorem pmm_simulation st op : pmm_reachable st -> valid_op op st ->
  exists r st', run_op op st = Some (r, st') /\ pmm_wf st' /\ same_layout st st' /\
    spec_step (total_pages st) (64 * visible_words st) (owners st) op r (owners st').
Proof. intros Hr. apply simulation_step. by apply reachable_wf. Qed.

Lemma pmm_simulation_witness :
  exists r st', run_op (OpTakeRun 3) demo = Some (r, st') /\ pmm_wf st' /\ same_layout demo st' /\
    spec_step (total_pages demo) (64 * visible_words demo) (owners demo) (OpTakeRun 3) r (owners st').
Proof. apply (pmm_simulation demo (OpTakeRun 3)); [apply demo_reachable | simpl; lia]. Defined.

(** ** Placement *)

(** [take_page] returns a page that was free, the lowest one above 4 GiB
    when there is one and the lowest one otherwise, and marks only that page;
    it returns null exactly when no page the kernel can reach is free. *)
Theorem take_page_first_fit st : pmm_reachable st ->
  exists a st', take_page st = Some (a, st') /\
    (took_page st a st' \/ no_page st a st').
Proof.
  intros Hr%reachable_wf. destruct (take_page_correct st Hr) as (a & st' & Ht & _ & _ & _ & _ & H).
  by exists a, st'.
Qed.

Lemma take_page_first_fit_witness :
  exists a st', take_page demo = Some (a, st') /\ (took_page demo a st' \/ no_page demo a st').
Proof. apply (take_page_first_fit demo). apply demo_reachable. Defined.

(** [take_pages] returns the first address at which [count] consecutive
    pages are free and marks exactly those pages; it returns null, changing
    nothing, exactly when there is no such run among the reachable pages. *)
Theorem take_pages_first_fit st count : pmm_reachable st -> 1 <= count ->
  exists a st', take_pages count st = Some (a, st') /\
    (took_run st count a st' \/
     (a = 0 /\ st' = st /\ forall f, 0 <= f -> f + count <= 64 * visible_words st ->
        ~ run_free (physical_pages st) f count)).
Proof.
  intros Hr%reachable_wf Hc.
  destruct (take_pages_correct st count Hr Hc) as (a & st' & Ht & _ & _ & _ & H).
  by exists a, st'.
Qed.

Lemma take_pages_first_fit_witness :
  exists a st', take_pages 300 demo = Some (a, st') /\
    (took_run demo 300 a st' \/
     (a = 0 /\ st' = demo /\ forall f, 0 <= f -> f + 300 <= 64 * visible_words demo ->
        ~ run_free (physical_pages demo) f 300)).
Proof. apply (take_pages_first_fit demo 300); [apply demo_reachable | lia]. Defined.

(** ** Accounting *)

(** [pmm_free_pages] is the number of free pages, and a successful
    [take_page] takes exactly one off it. *)
Theorem pmm_free_pages_exact st a st' : pmm_reachable st -> take_page st = Some (a, st') ->
  a <> 0 ->
  pmm_free_pages st = Some (free_count st) /\ pmm_free_pages st' = Some (free_count st - 1).
Proof.
  intros Hr Ht Ha. assert (pmm_reachable st') as Hr' by by apply (reach_op st OpTake a).
  apply reachable_wf in Hr, Hr'. rewrite !pmm_free_pages_correct by done.
  split; [done |]. f_equal.
  destruct (take_page_correct st Hr) as (a2 & st2 & Ht2 & _ & _ & _ & _ & H).
  assert (a2 = a /\ st2 = st') as [-> ->] by (split; congruence).
  destruct H as [H | (-> & _)]; [| done]. apply (took_page_count st a); [done | | done].
  by destruct (take_page_layout _ _ _ Ht) as (_ & -> & _).
Qed.

Lemma pmm_free_pages_exact_witness :
  match take_page demo with
  | Some (a, st') => pmm_free_pages demo = Some (free_count demo) /\
                     pmm_free_pages st' = Some (free_count demo - 1)
  | None => False
  end.
Proof.
  destruct (take_page demo) as [[a st'] |] eqn:E.
  - apply (pmm_free_pages_exact demo a st' demo_reachable E).
    revert E. vm_compute. intros [= <- <-]. discriminate.
  - revert E. vm_compute. discriminate.
Defined.

(** ** Shared pages *)

Fixpoint iter_pmm (n : nat) (f : pmm -> option pmm) (st : pmm) : option pmm :=
  match n with
  | O => Some st
  | S n' => st' ← f st; iter_pmm n' f st'
  end.

Lemma page_of_addr p : p * PAGE_SIZE / PAGE_SIZE = p.
Proof. apply Z.div_mul. unfold PAGE_SIZE. lia. Qed.

Lemma used_not_free st p : pmm_wf st -> 1 <= owners st p -> page_free st p = false.
Proof. intros Hwf Ho. apply not_true_is_false. intros ?%owners_free; [lia | done]. Qed.

Lemma iter_share st p k : pmm_wf st -> 0 < p < total_pages st -> 1 <= owners st p ->
  owners st p + Z.of_nat k <= 0x10000 ->
  exists st', iter_pmm k (pmm_share_page (p * PAGE_SIZE)) st = Some st' /\ pmm_wf st' /\
    total_pages st' = total_pages st /\ owners st' p = owners st p + Z.of_nat k.
Proof.
  revert st. induction k as [| k IH]; intros st Hwf Hp Ho Hk; cbn [iter_pmm].
  { exists st. repeat (split; [done |]). lia. }
  destruct (pmm_share_page_spec st (p * PAGE_SIZE) Hwf) as (st1 & -> & Hwf1 & (Htp & _) & _ & Ho1);
    [unfold PAGE_SIZE; lia | rewrite page_of_addr; by apply used_not_free |].
  rewrite option_bind_Some_fun. specialize (Ho1 p). rewrite page_of_addr, Z.eqb_refl in Ho1.
  destruct (Z.ltb_spec p (total_pages st)), (Z.ltb_spec (owners st p) 0x10000);
    cbn [andb] in Ho1; try lia.
  destruct (IH st1) as (st' & -> & Hwf' & Htp' & Ho'); [done | lia | lia | lia |].
  exists st'. split; [done |]. split; [done |]. split; [congruence | lia].
Qed.

Lemma free_one st p : pmm_wf st -> 0 < p < total_pages st -> p * PAGE_SIZE < 2 ^ 64 ->
  1 <= owners st p ->
  exists st', free_physical_page (p * PAGE_SIZE) st = Some st' /\ pmm_wf st' /\
    total_pages st' = total_pages st /\ owners st' p = owners st p - 1.
Proof.
  intros Hwf Hp Hu Ho. assert (0 <= p * PAGE_SIZE) by (unfold PAGE_SIZE; lia).
  rewrite free_physical_page_eq by lia.
  destruct (free_page_locked_spec st (p * PAGE_SIZE) Hwf) as (st1 & -> & Hwf1 & (Htp & _) & Ho1);
    [done |].
  exists st1. repeat (split; [done |]). rewrite Ho1, page_of_addr, Z.eqb_refl. unfold managed.
  destruct (Z.ltb_spec 0 p), (Z.ltb_spec p (total_pages st)); cbn [andb]; lia.
Qed.

Lemma iter_free st p k : pmm_wf st -> 0 < p < total_pages st -> p * PAGE_SIZE < 2 ^ 64 ->
  Z.of_nat k <= owners st p ->
  exists st', iter_pmm k (free_physical_page (p * PAGE_SIZE)) st = Some st' /\ pmm_wf st' /\
    total_pages st' = total_pages st /\ owners st' p = owners st p - Z.of_nat k.
Proof.
  revert st. induction k as [| k IH]; intros st Hwf Hp Hu Hk; cbn [iter_pmm].
  { exists st. repeat (split; [done |]). lia. }
  destruct (free_one st p Hwf Hp Hu) as (st1 & -> & Hwf1 & Htp & Ho1); [lia |].
  rewrite option_bind_Some_fun.
  destruct (IH st1) as (st' & -> & Hwf' & Htp' & Ho'); [done | lia | done | lia |].
  exists st'. split; [done |]. split; [done |]. split; [congruence | lia].
Qed.

(** C25: a page with one owner that is shared [k] times, [k] below the limit of
    the 16-bit owner table, stays in use through the next [k] frees and becomes
    free at the one after them: it is released by its last owner. *)
Theorem page_freed_by_last_owner st p k : pmm_reachable st ->
  0 < p < total_pages st -> p * PAGE_SIZE < 2 ^ 64 -> owners st p = 1 ->
  (k < Z.to_nat 0x10000)%nat ->
  exists st1 st2 st3,
    iter_pmm k (pmm_share_page (p * PAGE_SIZE)) st = Some st1 /\
    iter_pmm k (free_physical_page (p * PAGE_SIZE)) st1 = Some st2 /\
    page_free st2 p = false /\
    free_physical_page (p * PAGE_SIZE) st2 = Some st3 /\ page_free st3 p = true.
Proof.
  intros Hr%reachable_wf Hp Hu Ho Hk.
  destruct (iter_share st p k) as (st1 & -> & Hwf1 & Htp1 & Ho1); [done | lia | lia | lia |].
  destruct (iter_free st1 p k) as (st2 & Hs2 & Hwf2 & Htp2 & Ho2); [done | lia | done | lia |].
  destruct (free_one st2 p) as (st3 & Hs3 & Hwf3 & Htp3 & Ho3); [done | lia | done | lia |].
  exists st1, st2, st3. repeat (split; [done |]). split; [apply used_not_free; [done | lia] |].
  split; [done |]. apply owners_free; [done | lia].
Qed.

(** The state after one page, number 258, was taken. *)
Definition demo_one : pmm :=
  match take_page demo with Some (_, st) => st | None => demo end.

Lemma demo_one_reachable : pmm_reachable demo_one.
Proof.
  apply (reach_op demo OpTake (258 * PAGE_SIZE)); [apply demo_reachable | done |].
  vm_compute. reflexivity.
Qed.

Lemma page_freed_by_last_owner_witness : exists st1 st2 st3,
    iter_pmm 2 (pmm_share_page (258 * PAGE_SIZE)) demo_one = Some st1 /\
    iter_pmm 2 (free_physical_page (258 * PAGE_SIZE)) st1 = Some st2 /\
    page_free st2 258 = false /\
    free_physical_page (258 * PAGE_SIZE) st2 = Some st3 /\ page_free st3 258 = true.
Proof.
  apply (page_freed_by_last_owner demo_one 258 2).
  - apply demo_one_reachable.
  - vm_compute. split; reflexivity.
  - vm_compute. reflexivity.
  - vm_compute. reflexivity.
  - apply Nat2Z.inj_lt. vm_compute. reflexivity.
Defined.

(** C26: at the limit of the owner table a further share is silently lost: the
    state does not change, so with [0x10000] owners counted and one more
    holding the page, the [0x10000]th free releases it under the remaining
    owner. *)
Theorem share_beyond_limit_is_lost st p : pmm_reachable st ->
  0 < p < total_pages st -> p * PAGE_SIZE < 2 ^ 64 -> owners st p = 0x10000 ->
  pmm_share_page (p * PAGE_SIZE) st = Some st /\
  exists st', iter_pmm (Z.to_nat 0x10000) (free_physical_page (p * PAGE_SIZE)) st = Some st' /\
    page_free st' p = true.
Proof.
  intros Hr%reachable_wf Hp Hu Ho. split.
  - unfold pmm_share_page. rewrite page_of_addr. destruct (Z.ltb_spec p (total_pages st)); [| lia].
    unfold owners in Ho. destruct (page_free st p); [lia |].
    destruct (rd_is_Some (shared_refs st) p) as [r Er]; [destruct Hr; lia |].
    rewrite Er in *. simpl in *. destruct (Z.ltb_spec r 0xFFFF); [lia | done].
  - destruct (iter_free st p (Z.to_nat 0x10000)) as (st' & Hs & Hwf' & _ & Ho');
      [done | done | done | lia |].
    exists st'. split; [done |]. apply owners_free; [done | lia].
Qed.

Lemma iter_share_reachable st p k st' : pmm_reachable st -> 0 < p < total_pages st ->
  1 <= owners st p -> owners st p + Z.of_nat k <= 0x10000 ->
  iter_pmm k (pmm_share_page (p * PAGE_SIZE)) st = Some st' -> pmm_reachable st'.
Proof.
  revert st. induction k as [| k IH]; intros st Hr Hp Ho Hk; cbn [iter_pmm]; [congruence |].
  pose proof (reachable_wf _ Hr) as Hwf. intros (st1 & Hs & Hrest)%bind_Some.
  destruct (iter_share st p 1) as (st2 & Hs2 & Hwf2 & Htp2 & Ho2); [done | lia | lia | lia |].
  cbn [iter_pmm] in Hs2. rewrite Hs in Hs2. simpl in Hs2. injection Hs2 as <-.
  apply (IH st1); [| lia | lia | lia | done].
  apply (reach_op st (OpShare (p * PAGE_SIZE)) 0 st1 Hr).
  - split; [unfold PAGE_SIZE; lia |]. rewrite page_of_addr. by apply used_not_free.
  - simpl. rewrite Hs. done.
Qed.

Lemma share_beyond_limit_is_lost_witness : exists st, owners st 258 = 0x10000 /\
  pmm_share_page (258 * PAGE_SIZE) st = Some st /\
  exists st', iter_pmm (Z.to_nat 0x10000) (free_physical_page (258 * PAGE_SIZE)) st = Some st' /\
    page_free st' 258 = true.
Proof.
  assert (owners demo_one 258 = 1) as H1 by (vm_compute; reflexivity).
  assert (total_pages demo_one = 512) as Htp by (vm_compute; reflexivity).
  destruct (iter_share demo_one 258 (Z.to_nat 0xFFFF)) as (st & Hs & Hwf & Htp' & Ho).
  - apply reachable_wf, demo_one_reachable.
  - rewrite Htp. lia.
  - rewrite H1. lia.
  - rewrite H1. lia.
  - exists st. split; [rewrite Ho, H1; lia |].
    apply (share_beyond_limit_is_lost st 258).
    + apply (iter_share_reachable demo_one 258 (Z.to_nat 0xFFFF)); [apply demo_one_reachable | | | | done].
      * rewrite Htp. lia.
      * rewrite H1. lia.
      * rewrite H1. lia.
    + rewrite Htp', Htp. lia.
    + unfold PAGE_SIZE. lia.
    + rewrite Ho, H1. lia.
Defined.

(** ** Reclaim *)

(** C27: with the direct map built, [alloc_physical_page] over the page caches
    of pagecache.c returns a page that has exactly one owner; it returns null
    only when no page is free, before and after reclaim, and every page the
    caches hold has another owner.  The caches keep holding distinct pages that
    are in use. *)
Theorem alloc_physical_page_reclaims (c : pcaches) st : pmm_wf st -> pcache_ok c st ->
  direct_map_ready st = true ->
  exists a c' st', alloc_physical_page c st = Some (a, c', st') /\
    pmm_wf st' /\ pcache_ok c' st' /\ same_layout st st' /\
    (newly_taken st a st' \/
     (a = 0 /\ free_count st = 0 /\ free_count st' = 0 /\
      forall v, v ∈ cached c' -> 1 < owners st' (page_no v))).
Proof. exact (alloc_physical_page_spec c st). Qed.

(** A cache that holds page 258. *)
Definition demo_cache : pcaches :=
  PCaches {[ 7 := PageCache [0; DIRECT_MAP_BASE + 258 * PAGE_SIZE] true ]} [7].

Lemma demo_cache_ok : pcache_ok demo_cache demo_one.
Proof.
  assert (cached demo_cache = [DIRECT_MAP_BASE + 258 * PAGE_SIZE]) as Hc
    by (vm_compute; reflexivity).
  constructor; rewrite ?Hc.
  - apply NoDup_singleton.
  - intros id ->%list_elem_of_singleton. eexists. reflexivity.
  - apply Forall_singleton. split; [unfold DIRECT_MAP_BASE, PAGE_SIZE; lia | reflexivity].
  - apply NoDup_singleton.
  - intros v ->%list_elem_of_singleton.
    split; [split; vm_compute; reflexivity | vm_compute; reflexivity].
Qed.

Lemma alloc_physical_page_reclaims_witness : exists a c' st',
  alloc_physical_page demo_cache demo_one = Some (a, c', st') /\
    pmm_wf st' /\ pcache_ok c' st' /\ same_layout demo_one st' /\
    (newly_taken demo_one a st' \/
     (a = 0 /\ free_count demo_one = 0 /\ free_count st' = 0 /\
      forall v, v ∈ cached c' -> 1 < owners st' (page_no v))).
Proof.
  apply (alloc_physical_page_reclaims demo_cache demo_one).
  - apply reachable_wf, demo_one_reachable.
  - apply demo_cache_ok.
  - vm_compute. reflexivity.
Defined.
