(* ===== verification/StateMonad.v ===== *)
(** * Programs over a state that can fault

    A program takes a state and returns a value and a state, or faults
    ([None]).  [wp m Q s] is total correctness: [m] does not fault in [s] and
    its result and final state satisfy [Q]. *)

From stdpp Require Import base list option.
From Stdlib Require Import ZArith Lia.

Definition prog (S X : Type) : Type := S -> option (X * S).

Definition ret {S X} (x : X) : prog S X := fun s => Some (x, s).
Definition bind {S X Y} (m : prog S X) (f : X -> prog S Y) : prog S Y :=
  fun s => '(x, s') ← m s; f x s'.
Definition gets {S X} (f : S -> X) : prog S X := fun s => Some (f s, s).
Definition modify {S} (f : S -> S) : prog S unit := fun s => Some (tt, f s).
(** A computation that may fault and does not change the state. *)
Definition asks {S X} (f : S -> option X) : prog S X := fun s => x ← f s; Some (x, s).
(** A change of state that may fault. *)
Definition updates {S} (f : S -> option S) : prog S unit := fun s => s' ← f s; Some (tt, s').

Declare Scope prog_scope.
Delimit Scope prog_scope with prog.
Notation "'let*' x ':=' m 'in' k" := (bind m (fun x => k))
  (at level 10, x pattern, m at level 100, k at level 200) : prog_scope.
Notation "m ;; k" := (bind m (fun _ => k)) (at level 100, right associativity) : prog_scope.

Definition when {S} (b : bool) (m : prog S unit) : prog S unit := if b then m else ret tt.

Definition wp {S X} (m : prog S X) (Q : X -> S -> Prop) (s : S) : Prop :=
  match m s with Some (x, s') => Q x s' | None => False end.

Section wp.
Context {S : Type}.

Lemma wp_run {X} (m : prog S X) Q s : wp m Q s <-> exists x s', m s = Some (x, s') /\ Q x s'.
Proof. unfold wp. destruct (m s) as [[x s'] |]; naive_solver. Qed.

Lemma wp_bind {X Y} (m : prog S X) (f : X -> prog S Y) Q s :
  wp m (fun x s' => wp (f x) Q s') s -> wp (bind m f) Q s.
Proof. unfold wp, bind. by destruct (m s) as [[] |]. Qed.

Lemma wp_assoc {X Y Z} (m : prog S X) (f : X -> prog S Y) (g : Y -> prog S Z) Q s :
  wp (bind m (fun x => bind (f x) g)) Q s -> wp (bind (bind m f) g) Q s.
Proof. unfold wp, bind. by destruct (m s) as [[] |]. Qed.

Lemma wp_regroup {X Y Z} (m : prog S X) (f : X -> prog S Y) (g : Y -> prog S Z) Q s :
  wp (bind (bind m f) g) Q s -> wp (bind m (fun x => bind (f x) g)) Q s.
Proof. unfold wp, bind. by destruct (m s) as [[] |]. Qed.

Lemma wp_mono {X} (m : prog S X) (P Q : X -> S -> Prop) s :
  wp m P s -> (forall x s', P x s' -> Q x s') -> wp m Q s.
Proof. unfold wp. destruct (m s) as [[] |]; auto. Qed.

Lemma wp_conj {X} (m : prog S X) (P Q : X -> S -> Prop) s :
  wp m P s -> wp m Q s -> wp m (fun x s' => P x s' /\ Q x s') s.
Proof. unfold wp. destruct (m s) as [[] |]; auto. Qed.

(** A program has one result. *)
Lemma wp_also {X} (m : prog S X) (P Q : X -> S -> Prop) s :
  wp m P s -> (forall x s', m s = Some (x, s') -> Q x s') -> wp m (fun x s' => P x s' /\ Q x s') s.
Proof. unfold wp. destruct (m s) as [[] |]; auto. Qed.

Lemma wp_ret {X} (x : X) (Q : X -> S -> Prop) s : Q x s -> wp (ret x) Q s.
Proof. done. Qed.
Lemma wp_gets {X} (f : S -> X) (Q : X -> S -> Prop) s : Q (f s) s -> wp (gets f) Q s.
Proof. done. Qed.
Lemma wp_modify f (Q : unit -> S -> Prop) s : Q tt (f s) -> wp (modify f) Q s.
Proof. done. Qed.
Lemma wp_asks {X} (f : S -> option X) x (Q : X -> S -> Prop) s :
  f s = Some x -> Q x s -> wp (asks f) Q s.
Proof. unfold wp, asks. by intros ->. Qed.
Lemma wp_updates f s' (Q : unit -> S -> Prop) s : f s = Some s' -> Q tt s' -> wp (updates f) Q s.
Proof. unfold wp, updates. by intros ->. Qed.
Lemma wp_when (b : bool) m (Q : unit -> S -> Prop) s :
  (b = true -> wp m Q s) -> (b = false -> Q tt s) -> wp (when b m) Q s.
Proof. destruct b; simpl; intros H1 H2; [by apply H1 | by apply wp_ret, H2]. Qed.
End wp.
