(* ===== verification/Dlist.v ===== *)
(** * Doubly linked queues: utils/queue/queue.c

    The intrusive list over a heap of nodes.  A node is an address (0 is the
    null pointer), the heap maps the addresses of allocated nodes to their two
    links, and an access to an address outside the heap faults ([None]).  The
    operations follow the assignments of the source one by one, so that a list
    that shares a node with itself or a link that points into another list
    behaves as it does there.  The second half relates a heap list to a plain
    list of addresses and proves that every operation implements the operation
    on lists, leaving all nodes outside the list and the arguments alone. *)

From stdpp Require Import base list option gmap.
From Stdlib Require Import ZArith Lia.
From S2P Require Import Prelude.
Open Scope Z_scope.

Record dlist_node := Node { n_prev : Z; n_next : Z }.

Record dlist := Dlist { dl_head : Z; dl_tail : Z; dl_count : Z }.

Abbreviation node_heap := (gmap Z dlist_node).

Definition set_prev (h : node_heap) (p v : Z) : option node_heap :=
  n ← h !! p; Some (<[p := Node v (n_next n)]> h).
Definition set_next (h : node_heap) (p v : Z) : option node_heap :=
  n ← h !! p; Some (<[p := Node (n_prev n) v]> h).

Definition dlist_init : dlist := Dlist 0 0 0.

Definition dlist_first (l : dlist) : Z := dl_head l.
Definition dlist_last (l : dlist) : Z := dl_tail l.
Definition dlist_empty (l : dlist) : bool := dl_head l =? 0.
Definition dlist_next (h : node_heap) (p : Z) : option Z := n_next <$> h !! p.
Definition dlist_prev (h : node_heap) (p : Z) : option Z := n_prev <$> h !! p.

Definition dlist_insert_head (node : Z) (h : node_heap) (l : dlist) : option (node_heap * dlist) :=
  h ← set_prev h node 0;
  h ← set_next h node (dl_head l);
  '(h, t) ← if negb (dl_head l =? 0)
            then h ← set_prev h (dl_head l) node; Some (h, dl_tail l)
            else Some (h, node);
  Some (h, Dlist node t (u64 (dl_count l + 1))).

Definition dlist_insert_tail (node : Z) (h : node_heap) (l : dlist) : option (node_heap * dlist) :=
  h ← set_next h node 0;
  h ← set_prev h node (dl_tail l);
  '(h, hd) ← if negb (dl_tail l =? 0)
             then h ← set_next h (dl_tail l) node; Some (h, dl_head l)
             else Some (h, node);
  Some (h, Dlist hd node (u64 (dl_count l + 1))).

Definition dlist_insert_after (pos node : Z) (h : node_heap) (l : dlist)
  : option (node_heap * dlist) :=
  h ← set_prev h node pos;
  pn ← dlist_next h pos;
  h ← set_next h node pn;
  pn ← dlist_next h pos;
  '(h, t) ← if negb (pn =? 0)
            then h ← set_prev h pn node; Some (h, dl_tail l)
            else Some (h, node);
  h ← set_next h pos node;
  Some (h, Dlist (dl_head l) t (u64 (dl_count l + 1))).

Definition dlist_insert_before (pos node : Z) (h : node_heap) (l : dlist)
  : option (node_heap * dlist) :=
  h ← set_next h node pos;
  pp ← dlist_prev h pos;
  h ← set_prev h node pp;
  pp ← dlist_prev h pos;
  '(h, hd) ← if negb (pp =? 0)
             then h ← set_next h pp node; Some (h, dl_head l)
             else Some (h, node);
  h ← set_prev h pos node;
  Some (h, Dlist hd (dl_tail l) (u64 (dl_count l + 1))).

Definition dlist_remove (node : Z) (h : node_heap) (l : dlist) : option (node_heap * dlist) :=
  np ← dlist_prev h node;
  '(h, hd) ← if negb (np =? 0)
             then nn ← dlist_next h node; h ← set_next h np nn; Some (h, dl_head l)
             else nn ← dlist_next h node; Some (h, nn);
  nn ← dlist_next h node;
  '(h, t) ← if negb (nn =? 0)
            then np ← dlist_prev h node; h ← set_prev h nn np; Some (h, dl_tail l)
            else np ← dlist_prev h node; Some (h, np);
  h ← set_next h node 0;
  h ← set_prev h node 0;
  Some (h, Dlist hd t (u64 (dl_count l - 1))).

(** ** The list a heap list stands for *)

Definition first (n : Z) (xs : list Z) : Z :=
  match xs with [] => n | x :: _ => x end.
Definition lastd (p : Z) (xs : list Z) : Z := default p (last xs).

(** The nodes [xs] are linked in this order, [p] before and [n] after them. *)
Fixpoint dseg (h : node_heap) (p : Z) (xs : list Z) (n : Z) : Prop :=
  match xs with
  | [] => True
  | x :: xs' => h !! x = Some (Node p (first n xs')) /\ dseg h x xs' n
  end.

Record dlist_repr (h : node_heap) (l : dlist) (xs : list Z) : Prop := {
  dr_links : dseg h 0 xs 0;
  dr_head : dl_head l = first 0 xs;
  dr_tail : dl_tail l = lastd 0 xs;
  dr_count : dl_count l = u64 (Z.of_nat (length xs));
  dr_nodup : NoDup (0 :: xs);
}.

Lemma first_app n xs ys : first n (xs ++ ys) = first (first n ys) xs.
Proof. by destruct xs. Qed.

Lemma lastd_app p xs ys : lastd p (xs ++ ys) = lastd (lastd p xs) ys.
Proof. unfold lastd. rewrite last_app. by destruct (last ys). Qed.

Lemma lastd_cons p x xs : lastd p (x :: xs) = lastd x xs.
Proof. apply (lastd_app p [x] xs). Qed.

Lemma lastd_snoc p xs x : lastd p (xs ++ [x]) = x.
Proof. unfold lastd. by rewrite last_snoc. Qed.

Lemma lastd_elem p xs : lastd p xs = p /\ xs = [] \/ lastd p xs ∈ xs.
Proof.
  destruct xs as [| y xs _] using rev_ind; [by left |].
  right. rewrite lastd_app. apply elem_of_app. right. by left.
Qed.

Lemma dseg_app h p xs ys n :
  dseg h p (xs ++ ys) n <-> dseg h p xs (first n ys) /\ dseg h (lastd p xs) ys n.
Proof.
  revert p. induction xs as [| x xs IH]; intros p; simpl; [by split; [| intros [_ ?]] |].
  rewrite IH, first_app, lastd_cons. tauto.
Qed.

Lemma dseg_ext h h' p xs n :
  (forall y, y ∈ xs -> h' !! y = h !! y) -> dseg h p xs n -> dseg h' p xs n.
Proof.
  revert p. induction xs as [| x xs IH]; intros p Hext; simpl; [done |].
  intros [Hx Hxs]. split; [rewrite Hext; [done | by left] |].
  apply IH; [| done]. intros y Hy. apply Hext. by right.
Qed.

(** Only the last node of a segment knows what comes after it, and only the
    first what comes before. *)
Lemma dseg_relast h h' p a q q' : dseg h p a q -> NoDup a ->
  (forall a' y, a = a' ++ [y] -> h' !! y = Some (Node (lastd p a') q')) ->
  (forall y, y ∈ a -> y <> lastd 0 a -> h' !! y = h !! y) -> dseg h' p a q'.
Proof.
  intros Hseg Hnd Hlast Hext. destruct a as [| y a' _] using rev_ind; [done |].
  apply NoDup_app in Hnd as (_ & Hdis & _).
  apply dseg_app in Hseg as [Ha' _]. apply dseg_app. split.
  - apply (dseg_ext h); [| exact Ha']. intros z Hz. apply Hext; [apply elem_of_app; by left |].
    rewrite lastd_app. intros ->. apply (Hdis _ Hz). by left.
  - simpl. split; [by apply Hlast | done].
Qed.

Lemma dseg_refirst h h' p p' b q : dseg h p b q -> NoDup b ->
  (forall z b', b = z :: b' -> h' !! z = Some (Node p' (first q b'))) ->
  (forall y, y ∈ b -> y <> first 0 b -> h' !! y = h !! y) -> dseg h' p' b q.
Proof.
  intros Hseg Hnd Hfirst Hext. destruct b as [| z b']; [done |].
  apply NoDup_cons in Hnd as [Hz _]. destruct Hseg as [_ Hb']. split; [by apply Hfirst |].
  apply (dseg_ext h); [| exact Hb']. intros y Hy. apply Hext; [by right |]. simpl. by intros ->.
Qed.

(** ** The operations on lists *)

Fixpoint replace_at (pos : Z) (new xs : list Z) : list Z :=
  match xs with
  | [] => []
  | x :: xs' => if x =? pos then new ++ xs' else x :: replace_at pos new xs'
  end.

Lemma replace_at_app pos new a b : pos ∉ a ->
  replace_at pos new (a ++ pos :: b) = a ++ new ++ b.
Proof.
  induction a as [| x a IH]; simpl; [by rewrite Z.eqb_refl |].
  intros [Hx Ha]%not_elem_of_cons. destruct (Z.eqb_spec x pos); [congruence |].
  by rewrite IH.
Qed.

Inductive dlist_op :=
| InsertHead (node : Z)
| InsertTail (node : Z)
| InsertAfter (pos node : Z)
| InsertBefore (pos node : Z)
| Remove (node : Z).

Definition run_dlist_op (op : dlist_op) : node_heap -> dlist -> option (node_heap * dlist) :=
  match op with
  | InsertHead node => dlist_insert_head node
  | InsertTail node => dlist_insert_tail node
  | InsertAfter pos node => dlist_insert_after pos node
  | InsertBefore pos node => dlist_insert_before pos node
  | Remove node => dlist_remove node
  end.

Definition list_op (op : dlist_op) (xs : list Z) : list Z :=
  match op with
  | InsertHead node => node :: xs
  | InsertTail node => xs ++ [node]
  | InsertAfter pos node => replace_at pos [pos; node] xs
  | InsertBefore pos node => replace_at pos [node; pos] xs
  | Remove node => replace_at node [] xs
  end.

Definition op_node (op : dlist_op) : Z :=
  match op with
  | InsertHead node | InsertTail node | InsertAfter _ node | InsertBefore _ node
  | Remove node => node
  end.

(** What the callers guarantee: an inserted node is allocated and not in the
    list, a position or a removed node is in the list. *)
Definition valid_dlist_op (op : dlist_op) (h : node_heap) (xs : list Z) : Prop :=
  let fresh node := (node <> 0) /\ (node ∉ xs) /\ is_Some (h !! node) in
  match op with
  | InsertHead node | InsertTail node => fresh node
  | InsertAfter pos node | InsertBefore pos node => pos ∈ xs /\ fresh node
  | Remove node => node ∈ xs
  end.

(** The outcome every operation has: the new list, and nothing changed outside
    the old list and the operation's node. *)
Definition dlist_outcome (h : node_heap) (xs : list Z) (node : Z) (xs' : list Z)
    (r : option (node_heap * dlist)) : Prop :=
  exists h' l', r = Some (h', l') /\ dlist_repr h' l' xs' /\
    (forall y, y ∉ xs -> y <> node -> h' !! y = h !! y).

Lemma dseg_links h a x b : dseg h 0 (a ++ x :: b) 0 ->
  dseg h 0 a x /\ h !! x = Some (Node (lastd 0 a) (first 0 b)) /\ dseg h x b 0.
Proof. rewrite dseg_app. simpl. tauto. Qed.

Lemma u64_succ n : u64 (u64 n + 1) = u64 (n + 1).
Proof. unfold u64, wrap. by rewrite Zplus_mod_idemp_l. Qed.

Lemma u64_pred n : u64 (u64 n - 1) = u64 (n - 1).
Proof. unfold u64, wrap. by rewrite Zminus_mod_idemp_l. Qed.

(** A heap in which the neighbours [a], [b] of [x] are linked to it holds the
    list with [x] in it. *)
Lemma repr_insert h l a b x h' l' : dlist_repr h l (a ++ b) -> x <> 0 -> x ∉ a ++ b ->
  h' !! x = Some (Node (lastd 0 a) (first 0 b)) ->
  (forall a' y, a = a' ++ [y] -> h' !! y = Some (Node (lastd 0 a') x)) ->
  (forall z b', b = z :: b' -> h' !! z = Some (Node x (first 0 b'))) ->
  (forall y, y ∈ a ++ b -> y <> lastd 0 a -> y <> first 0 b -> h' !! y = h !! y) ->
  dl_head l' = first 0 (a ++ x :: b) -> dl_tail l' = lastd 0 (a ++ x :: b) ->
  dl_count l' = u64 (dl_count l + 1) -> dlist_repr h' l' (a ++ x :: b).
Proof.
  intros [Hl _ _ Hc Hnd] Hx0 Hx Hlx Ha Hb Hext Hh Ht Hc'.
  apply NoDup_cons in Hnd as [H0 Hnd].
  pose proof Hnd as (Hna & Hab & Hnb)%NoDup_app.
  apply dseg_app in Hl as [Hla Hlb].
  assert (forall y, y ∈ a -> y ∈ b -> False) as Hdis by (intros y ?; by apply Hab).
  split; [| done | done | |].
  - apply dseg_app. split; [| split; [done |]].
    + apply (dseg_relast h h' 0 a (first 0 b)); [done | done | by eauto |].
      intros y Hy Hne. apply Hext; [set_solver | done |].
      intros ->. destruct b as [| z b]; simpl in *; [set_solver |].
      apply (Hdis z); [done | by left].
    + apply (dseg_refirst h h' (lastd 0 a)); [done | done | by eauto |].
      intros y Hy Hne. apply Hext; [set_solver | | done].
      intros ->. destruct (lastd_elem 0 a) as [[Heq ->] | Hin].
      * rewrite Heq in Hy. set_solver.
      * by apply (Hdis (lastd 0 a)).
  - rewrite Hc', Hc, u64_succ. f_equal. rewrite !length_app. simpl. lia.
  - rewrite <- Permutation_middle. apply NoDup_cons. split; [set_solver |].
    apply NoDup_cons. done.
Qed.

(** Removing [x] from a heap in which its neighbours are linked past it. *)
Lemma repr_remove h l a b x h' l' : dlist_repr h l (a ++ x :: b) ->
  (forall a' y, a = a' ++ [y] -> h' !! y = Some (Node (lastd 0 a') (first 0 b))) ->
  (forall z b', b = z :: b' -> h' !! z = Some (Node (lastd 0 a) (first 0 b'))) ->
  (forall y, y ∈ a ++ b -> y <> lastd 0 a -> y <> first 0 b -> h' !! y = h !! y) ->
  dl_head l' = first 0 (a ++ b) -> dl_tail l' = lastd 0 (a ++ b) ->
  dl_count l' = u64 (dl_count l - 1) -> dlist_repr h' l' (a ++ b).
Proof.
  intros [Hl _ _ Hc Hnd] Ha Hb Hext Hh Ht Hc'.
  apply NoDup_cons in Hnd as [H0 Hnd]. rewrite <- Permutation_middle in Hnd.
  apply NoDup_cons in Hnd as [_ Hnd]. pose proof Hnd as (Hna & Hab & Hnb)%NoDup_app.
  apply dseg_links in Hl as (Hla & _ & Hlb).
  assert (0 ∉ a ++ b) as H0' by set_solver.
  split; [| done | done | |].
  - apply dseg_app. split.
    + apply (dseg_relast h h' 0 a x); [done | done | by eauto |].
      intros y Hy Hne. apply Hext; [set_solver | done |].
      intros ->. destruct b as [| z b]; simpl in *; [set_solver |].
      apply (Hab z); [done | by left].
    + apply (dseg_refirst h h' x); [done | done | by eauto |].
      intros y Hy Hne. apply Hext; [set_solver | | done].
      intros ->. destruct (lastd_elem 0 a) as [[Heq ->] | Hin].
      * rewrite Heq in Hy. set_solver.
      * by apply (Hab (lastd 0 a)).
  - rewrite Hc', Hc, u64_pred. f_equal. rewrite !length_app. simpl. lia.
  - apply NoDup_cons. done.
Qed.

Lemma repr_nonzero h l xs y : dlist_repr h l xs -> y ∈ xs -> (y =? 0) = false.
Proof.
  intros [_ _ _ _ [H0 _]%NoDup_cons] Hy. apply Z.eqb_neq. by intros ->.
Qed.

Lemma set_prev_eq h p v n : h !! p = Some n -> set_prev h p v = Some (<[p := Node v (n_next n)]> h).
Proof. unfold set_prev. by intros ->. Qed.
Lemma set_next_eq h p v n : h !! p = Some n -> set_next h p v = Some (<[p := Node (n_prev n) v]> h).
Proof. unfold set_next. by intros ->. Qed.
Lemma dlist_next_eq h p n : h !! p = Some n -> dlist_next h p = Some (n_next n).
Proof. unfold dlist_next. by intros ->. Qed.
Lemma dlist_prev_eq h p n : h !! p = Some n -> dlist_prev h p = Some (n_prev n).
Proof. unfold dlist_prev. by intros ->. Qed.

Ltac find_node :=
  repeat first [rewrite lookup_insert_eq | rewrite lookup_insert_ne by congruence];
  first [reflexivity | eassumption].

(** Runs an operation through accesses to known nodes. *)
Ltac run_links :=
  repeat (first
    [ rewrite option_bind_Some_fun
    | erewrite set_prev_eq by find_node
    | erewrite set_next_eq by find_node
    | erewrite dlist_next_eq by find_node
    | erewrite dlist_prev_eq by find_node ]; cbn [n_prev n_next]).

(** The side conditions of [repr_insert] and [repr_remove] for a heap that is
    the old one with the neighbours updated. *)
Ltac close_links :=
  rewrite ?app_nil_r, ?lastd_snoc in *; cbn [lastd default last first dl_head dl_tail dl_count] in *;
  match goal with
  | |- dlist_repr _ _ _ => assumption
  | |- dl_count _ = _ => reflexivity
  | |- _ ∉ _ => first [assumption | set_solver]
  | |- forall a' y, _ = a' ++ [y] -> _ =>
      first [intros [] ?; done | intros ? ? [<- [= <-]]%app_inj_tail; find_node]
  | |- forall z b', _ = z :: b' -> _ => intros ? ? [=]; subst; find_node
  | |- forall y, y ∈ _ -> _ =>
      let y := fresh "y" in let Hy := fresh "Hy" in
      intros y Hy ? ?; rewrite ?lookup_insert_ne by (congruence || by intros <-); reflexivity
  | |- _ !! _ = _ => find_node
  | H : dl_head ?l = _ |- dl_head ?l = _ => rewrite H; by rewrite ?first_app
  | H : dl_tail ?l = _ |- dl_tail ?l = _ => rewrite H; by rewrite ?lastd_app, ?lastd_cons
  | _ => first [done | by rewrite ?lastd_app, ?lastd_cons, ?first_app]
  end.

Lemma dlist_insert_head_spec h l xs node : dlist_repr h l xs ->
  valid_dlist_op (InsertHead node) h xs ->
  dlist_outcome h xs node (node :: xs) (dlist_insert_head node h l).
Proof.
  intros Hr (Hn0 & Hn & [nn Hnn]). unfold dlist_outcome, dlist_insert_head.
  pose proof Hr as [Hl Hh Ht _ Hnd]. run_links. rewrite Hh.
  destruct xs as [| x xs]; cbn [first].
  - cbn [Z.eqb negb]. run_links. eexists _, _. split; [done |].
    split; [| intros; by simplify_map_eq].
    apply (repr_insert h l [] [] node); close_links.
  - destruct Hl as [Hx Hxs]. rewrite (repr_nonzero _ _ _ x Hr) by set_solver. cbn [negb].
    assert (node <> x) by set_solver. run_links.
    eexists _, _. split; [done |]. split.
    + apply (repr_insert h l [] (x :: xs) node); close_links.
    + intros y Hy Hyn. assert (y <> x) by set_solver. by simplify_map_eq.
Qed.

Lemma dlist_insert_tail_spec h l xs node : dlist_repr h l xs ->
  valid_dlist_op (InsertTail node) h xs ->
  dlist_outcome h xs node (xs ++ [node]) (dlist_insert_tail node h l).
Proof.
  intros Hr (Hn0 & Hn & [nn Hnn]). unfold dlist_outcome, dlist_insert_tail.
  pose proof Hr as [Hl Hh Ht _ Hnd]. run_links. rewrite Ht.
  destruct xs as [| x xs _] using rev_ind.
  - cbn [lastd default last Z.eqb negb]. run_links. eexists _, _. split; [done |].
    split; [| intros; by simplify_map_eq].
    apply (repr_insert h l [] [] node); close_links.
  - rewrite lastd_snoc. apply dseg_app in Hl as [_ [Hx _]]. rewrite (repr_nonzero _ _ _ x Hr) by set_solver.
    cbn [negb]. assert (node <> x) by set_solver. run_links.
    eexists _, _. split; [done |]. split.
    + apply (repr_insert h l (xs ++ [x]) [] node); close_links.
    + intros y Hy Hyn. assert (y <> x) by set_solver. by simplify_map_eq.
Qed.

Lemma dlist_insert_after_spec h l a pos b node : dlist_repr h l (a ++ pos :: b) ->
  valid_dlist_op (InsertAfter pos node) h (a ++ pos :: b) ->
  dlist_outcome h (a ++ pos :: b) node (a ++ pos :: node :: b) (dlist_insert_after pos node h l).
Proof.
  intros Hr (_ & Hn0 & Hn & [nn Hnn]). unfold dlist_outcome, dlist_insert_after.
  pose proof Hr as [Hl Hh Ht _ Hnd]. apply dseg_links in Hl as (_ & Hpos & Hb).
  assert (node <> pos) by set_solver. run_links.
  replace (a ++ pos :: node :: b) with ((a ++ [pos]) ++ node :: b) by by rewrite <- app_assoc.
  replace (a ++ pos :: b) with ((a ++ [pos]) ++ b) in * by by rewrite <- app_assoc.
  destruct b as [| z b]; cbn [first].
  - cbn [Z.eqb negb]. run_links. eexists _, _. split; [done |]. split.
    + apply (repr_insert h l (a ++ [pos]) [] node); close_links.
    + intros y Hy Hyn. assert (y <> pos) by set_solver. by simplify_map_eq.
  - destruct Hb as [Hz _]. apply NoDup_cons in Hnd as [H0 Hnd].
    rewrite (repr_nonzero _ _ _ z Hr) by set_solver. cbn [negb].
    apply NoDup_app in Hnd as (_ & Hdis & _).
    assert (pos <> z) by set_solver. assert (node <> z) by set_solver. run_links.
    eexists _, _. split; [done |]. split.
    + apply (repr_insert h l (a ++ [pos]) (z :: b) node); close_links.
    + intros y Hy Hyn. assert (y <> pos) by set_solver. assert (y <> z) by set_solver.
      by simplify_map_eq.
Qed.

Lemma dlist_insert_before_spec h l a pos b node : dlist_repr h l (a ++ pos :: b) ->
  valid_dlist_op (InsertBefore pos node) h (a ++ pos :: b) ->
  dlist_outcome h (a ++ pos :: b) node (a ++ node :: pos :: b) (dlist_insert_before pos node h l).
Proof.
  intros Hr (_ & Hn0 & Hn & [nn Hnn]). unfold dlist_outcome, dlist_insert_before.
  pose proof Hr as [Hl Hh Ht _ Hnd]. apply dseg_links in Hl as (Ha & Hpos & _).
  assert (node <> pos) by set_solver. run_links.
  destruct a as [| z a _] using rev_ind.
  - cbn [lastd default last Z.eqb negb]. run_links. eexists _, _. split; [done |]. split.
    + apply (repr_insert h l [] (pos :: b) node); close_links.
    + intros y Hy Hyn. assert (y <> pos) by set_solver. by simplify_map_eq.
  - apply dseg_app in Ha as [_ [Hz _]]. apply NoDup_cons in Hnd as [H0 Hnd].
    rewrite lastd_snoc, (repr_nonzero _ _ _ z Hr) by set_solver. cbn [negb].
    apply NoDup_app in Hnd as (_ & Hdis & _).
    assert (pos <> z) by set_solver. assert (node <> z) by set_solver.
    rewrite lastd_snoc in Hpos. run_links.
    eexists _, _. split; [done |]. split.
    + apply (repr_insert h l (a ++ [z]) (pos :: b) node); close_links.
    + intros y Hy Hyn. assert (y <> pos) by set_solver. assert (y <> z) by set_solver.
      by simplify_map_eq.
Qed.

Lemma dlist_remove_spec h l a node b : dlist_repr h l (a ++ node :: b) ->
  dlist_outcome h (a ++ node :: b) node (a ++ b) (dlist_remove node h l).
Proof.
  intros Hr. unfold dlist_outcome, dlist_remove.
  pose proof Hr as [Hl Hh Ht _ Hnd]. apply dseg_links in Hl as (Ha & Hn & Hb).
  apply NoDup_cons in Hnd as [H0 (Hna & Hdis & [Hnb _]%NoDup_cons)%NoDup_app].
  assert (node ∉ a ++ b) as Hnab.
  { intros [Hin | Hin]%elem_of_app; [| done]. apply (Hdis _ Hin). by left. }
  destruct a as [| y a _] using rev_ind.
  - cbn [lastd default last] in *. run_links. cbn [Z.eqb negb]. run_links.
    destruct b as [| z b]; cbn [first] in *.
    + cbn [Z.eqb negb]. run_links. eexists _, _. split; [done |]. split.
      * apply (repr_remove h l [] [] node); close_links.
      * intros y Hy Hyn. by simplify_map_eq.
    + destruct Hb as [Hz _]. rewrite (repr_nonzero _ _ _ z Hr) by set_solver. cbn [negb].
      assert (node <> z) by set_solver. run_links. eexists _, _. split; [done |]. split.
      * apply (repr_remove h l [] (z :: b) node); close_links.
      * intros y Hy Hyn. assert (y <> z) by set_solver. by simplify_map_eq.
  - apply dseg_app in Ha as [_ [Hy _]]. rewrite lastd_snoc in Hn.
    assert (y <> node) by set_solver.
    run_links. rewrite (repr_nonzero _ _ _ y Hr) by set_solver. cbn [negb]. run_links.
    destruct b as [| z b]; cbn [first] in *.
    + cbn [Z.eqb negb]. run_links. eexists _, _. split; [done |]. split.
      * apply (repr_remove h l (a ++ [y]) [] node); close_links.
      * intros x Hx Hxn. assert (x <> y) by set_solver. by simplify_map_eq.
    + destruct Hb as [Hz _]. rewrite (repr_nonzero _ _ _ z Hr) by set_solver. cbn [negb].
      assert (node <> z) by set_solver. assert (y <> z) by set_solver.
      run_links. eexists _, _. split; [done |]. split.
      * apply (repr_remove h l (a ++ [y]) (z :: b) node); close_links.
      * intros x Hx Hxn. assert (x <> y) by set_solver. assert (x <> z) by set_solver.
        by simplify_map_eq.
Qed.

(** Every operation of queue.c implements the operation on lists. *)
Lemma dlist_op_spec op h l xs : dlist_repr h l xs -> valid_dlist_op op h xs ->
  dlist_outcome h xs (op_node op) (list_op op xs) (run_dlist_op op h l).
Proof.
  intros Hr Hv.
  assert (forall pos a b, xs = a ++ pos :: b -> pos ∉ a) as Hsplit.
  { intros pos a b ->. destruct Hr as [_ _ _ _ [_ (_ & Hd & _)%NoDup_app]%NoDup_cons].
    intros Hin. apply (Hd _ Hin). by left. }
  destruct op as [n | n | pos n | pos n | n]; cbn [op_node list_op run_dlist_op].
  - by apply dlist_insert_head_spec.
  - by apply dlist_insert_tail_spec.
  - pose proof Hv as [(a & b & ->)%list_elem_of_split _].
    rewrite replace_at_app by eauto. by apply dlist_insert_after_spec.
  - pose proof Hv as [(a & b & ->)%list_elem_of_split _].
    rewrite replace_at_app by eauto. by apply dlist_insert_before_spec.
  - pose proof Hv as (a & b & ->)%list_elem_of_split.
    rewrite replace_at_app by eauto. by apply dlist_remove_spec.
Qed.

(** ** Traversals *)

(** The nodes met by following [dlist_next] (or [dlist_prev]) until null. *)
Fixpoint walk (step : Z -> option Z) (fuel : nat) (p : Z) : option (list Z) :=
  if p =? 0 then Some []
  else match fuel with
  | O => None
  | S fuel' => q ← step p; ys ← walk step fuel' q; Some (p :: ys)
  end.

Lemma walk_next h xs p : dseg h p xs 0 -> 0 ∉ xs ->
  walk (dlist_next h) (length xs) (first 0 xs) = Some xs.
Proof.
  revert p. induction xs as [| x xs IH]; intros p Hseg H0; [done |].
  destruct Hseg as [Hx Hxs]. apply not_elem_of_cons in H0 as [H0 H0'].
  cbn [length first walk]. destruct (Z.eqb_spec x 0); [congruence |].
  rewrite (dlist_next_eq _ _ _ Hx), option_bind_Some_fun. cbn [n_next].
  by rewrite (IH x), option_bind_Some_fun.
Qed.

Lemma walk_prev h xs n : dseg h 0 xs n -> 0 ∉ xs ->
  walk (dlist_prev h) (length xs) (lastd 0 xs) = Some (rev xs).
Proof.
  revert n. induction xs as [| x xs IH] using rev_ind; intros n Hseg H0; [done |].
  apply dseg_app in Hseg as [Hxs [Hx _]].
  rewrite length_app, Nat.add_comm, lastd_snoc, rev_app_distr.
  cbn [length Nat.add walk]. destruct (Z.eqb_spec x 0); [set_solver |].
  rewrite (dlist_prev_eq _ _ _ Hx), option_bind_Some_fun. cbn [n_prev].
  rewrite (IH x), option_bind_Some_fun; [done | done | set_solver].
Qed.

(** ** Properties *)

(** C22: each operation of queue.c, applied to a heap that holds the list [xs],
    succeeds and leaves a heap that holds the list the operation names: the
    node added at the front, at the end, after or before a position, or taken
    out.  Nodes outside the list and other than the operation's node, hence all
    other lists in the heap, are unchanged. *)
Theorem dlist_refines_list op h l xs : dlist_repr h l xs -> valid_dlist_op op h xs ->
  exists h' l', run_dlist_op op h l = Some (h', l') /\
    dlist_repr h' l' (list_op op xs) /\
    (forall l2 ys, dlist_repr h l2 ys -> (forall y, y ∈ ys -> (y ∉ xs) /\ y <> op_node op) ->
       dlist_repr h' l2 ys).
Proof.
  intros Hr Hv. destruct (dlist_op_spec op h l xs Hr Hv) as (h' & l' & -> & Hr' & Hframe).
  exists h', l'. split; [done |]. split; [done |].
  intros l2 ys [Hs ? ? ? ?] Hdis. split; try done.
  apply (dseg_ext h); [| done]. intros y [??]%Hdis. by apply Hframe.
Qed.

Definition demo_heap : node_heap :=
  {[ 1 := Node 7 7; 2 := Node 7 7; 3 := Node 7 7; 4 := Node 7 7 ]}.

Lemma dlist_refines_list_witness : exists h1 l1 h2 l2 h3 l3,
  run_dlist_op (InsertHead 2) demo_heap dlist_init = Some (h1, l1) /\
  run_dlist_op (InsertBefore 2 1) h1 l1 = Some (h2, l2) /\
  run_dlist_op (Remove 2) h2 l2 = Some (h3, l3) /\ dlist_repr h3 l3 [1].
Proof.
  assert (dlist_repr demo_heap dlist_init []) as H0
    by (constructor; try done; apply NoDup_singleton).
  destruct (dlist_refines_list (InsertHead 2) _ _ _ H0) as (h1 & l1 & E1 & R1 & _).
  { split; [lia |]. split; [set_solver |]. by eexists. }
  assert (is_Some (h1 !! 1)) as S1 by (injection E1 as <- _; by eexists).
  destruct (dlist_refines_list (InsertBefore 2 1) _ _ _ R1) as (h2 & l2 & E2 & R2 & _).
  { split; [set_solver |]. split; [lia |]. split; [| done]. set_solver by lia. }
  destruct (dlist_refines_list (Remove 2) _ _ _ R2) as (h3 & l3 & E3 & R3 & _).
  { simpl. set_solver. }
  exists h1, l1, h2, l2, h3, l3. done.
Defined.

(** Following [dlist_next] from [dlist_first] meets exactly the nodes of
    the list, in order, and then null; following [dlist_prev] from [dlist_last]
    meets them backwards; [dlist_empty] tells whether there are any. *)
Theorem dlist_traversals h l xs : dlist_repr h l xs ->
  walk (dlist_next h) (length xs) (dlist_first l) = Some xs /\
  walk (dlist_prev h) (length xs) (dlist_last l) = Some (rev xs) /\
  (dlist_empty l = true <-> xs = []).
Proof.
  intros [Hl Hh Ht _ [H0 _]%NoDup_cons]. unfold dlist_first, dlist_last, dlist_empty.
  rewrite Hh, Ht. split; [by eapply walk_next |]. split; [by eapply walk_prev |].
  destruct xs as [| x xs]; [done |]. split; [| done]. cbn [first].
  intros ->%Z.eqb_eq. set_solver.
Qed.

Definition demo_two : node_heap := {[ 1 := Node 0 2; 2 := Node 1 0 ]}.

Lemma dlist_traversals_witness :
  walk (dlist_next demo_two) 2 1 = Some [1; 2] /\
  walk (dlist_prev demo_two) 2 2 = Some [2; 1] /\
  (dlist_empty (Dlist 1 2 2) = true <-> [1; 2] = []).
Proof.
  apply (dlist_traversals demo_two (Dlist 1 2 2) [1; 2]). constructor; try done.
  repeat (apply NoDup_cons; split; [set_solver by lia |]). apply NoDup_nil_2.
Defined.
