(* ===== verification/Rbtree.v ===== *)
(** * Red-black trees: utils/rbtree/rbtree.c

    The intrusive tree over a heap of nodes.  A node is an address (0 is the
    null pointer), the heap maps the addresses of allocated nodes to their
    parent, children and colour, and an access to an address outside the heap
    faults ([None]).  The operations follow the assignments of the source one
    by one.  A [struct rb_node **link] is the place a pointer is stored in: the
    root of the tree or a child slot of a node.  The loops take fuel; RbtreeFacts
    shows that the number of allocated nodes is enough. *)

From stdpp Require Import base list option gmap.
From Stdlib Require Import ZArith Lia.
From S2P Require Import Prelude.
Open Scope Z_scope.

Inductive rb_dir := RB_LEFT | RB_RIGHT.

#[export] Instance rb_dir_eq_dec : EqDecision rb_dir.
Proof. solve_decision. Defined.

(** [!dir], and the conversion of a comparison to a direction. *)
Definition opposite (d : rb_dir) : rb_dir :=
  match d with RB_LEFT => RB_RIGHT | RB_RIGHT => RB_LEFT end.
Definition to_dir (b : bool) : rb_dir := if b then RB_RIGHT else RB_LEFT.

Record rb_node := RbNode {
  rb_parent : Z;
  rb_left : Z;
  rb_right : Z;
  rb_red : bool;
}.

Definition child (n : rb_node) (d : rb_dir) : Z :=
  match d with RB_LEFT => rb_left n | RB_RIGHT => rb_right n end.

Record rb_tree := RbTree {
  rb_root : Z;
  rb_heap : gmap Z rb_node;
}.

(** Assignments to the fields of a node and to the root. *)

Definition set_root (v : Z) (t : rb_tree) : rb_tree := RbTree v (rb_heap t).

Definition upd_node (p : Z) (f : rb_node -> rb_node) (t : rb_tree) : option rb_tree :=
  n ← rb_heap t !! p; Some (RbTree (rb_root t) (<[p := f n]> (rb_heap t))).

Definition with_parent (v : Z) (n : rb_node) : rb_node :=
  RbNode v (rb_left n) (rb_right n) (rb_red n).
Definition with_child (d : rb_dir) (v : Z) (n : rb_node) : rb_node :=
  match d with
  | RB_LEFT => RbNode (rb_parent n) v (rb_right n) (rb_red n)
  | RB_RIGHT => RbNode (rb_parent n) (rb_left n) v (rb_red n)
  end.
Definition with_red (b : bool) (n : rb_node) : rb_node :=
  RbNode (rb_parent n) (rb_left n) (rb_right n) b.

Definition is_red (t : rb_tree) (node : Z) : option bool :=
  if node =? 0 then Some false else rb_red <$> rb_heap t !! node.

Definition transplant (old node : Z) (t : rb_tree) : option rb_tree :=
  o ← rb_heap t !! old;
  let parent := rb_parent o in
  t ← (if negb (node =? 0) then upd_node node (with_parent parent) t else Some t);
  if parent =? 0 then Some (set_root node t)
  else
    p ← rb_heap t !! parent;
    upd_node parent (with_child (to_dir (rb_right p =? old)) node) t.

Definition rotate (node : Z) (dir : rb_dir) (t : rb_tree) : option rb_tree :=
  let other := opposite dir in
  n ← rb_heap t !! node;
  let pivot := child n other in
  pv ← rb_heap t !! pivot;
  t ← upd_node node (with_child other (child pv dir)) t;
  pv ← rb_heap t !! pivot;
  t ← (if negb (child pv dir =? 0) then upd_node (child pv dir) (with_parent node) t else Some t);
  t ← transplant node pivot t;
  t ← upd_node pivot (with_child dir node) t;
  upd_node node (with_parent pivot) t.

Definition rb_init (t : rb_tree) : rb_tree := set_root 0 t.

(** ** Insertion *)

Inductive rb_link := LinkRoot | LinkChild (p : Z) (d : rb_dir).

Definition store_link (link : rb_link) (v : Z) (t : rb_tree) : option rb_tree :=
  match link with
  | LinkRoot => Some (set_root v t)
  | LinkChild p d => upd_node p (with_child d v) t
  end.

(** The end of the loop: the uncle is black. *)
Definition insert_turn (node parent grand : Z) (dir : rb_dir) (t : rb_tree) : option rb_tree :=
  pn ← rb_heap t !! parent;
  '(parent, t) ← (if child pn (opposite dir) =? node
                  then t ← rotate parent dir t; Some (node, t)
                  else Some (parent, t));
  t ← upd_node parent (with_red false) t;
  t ← upd_node grand (with_red true) t;
  rotate grand (opposite dir) t.

(** The loop that repairs a red node under a red parent. *)
Fixpoint insert_fixup (fuel : nat) (node : Z) (t : rb_tree) : option rb_tree :=
  match fuel with
  | O => None
  | S fuel' =>
      n ← rb_heap t !! node;
      red ← is_red t (rb_parent n);
      if negb red then Some t
      else
        let parent := rb_parent n in
        pn ← rb_heap t !! parent;
        let grand := rb_parent pn in
        g ← rb_heap t !! grand;
        let dir := to_dir (rb_right g =? parent) in
        let uncle := child g (opposite dir) in
        uncle_red ← is_red t uncle;
        if uncle_red : bool then
          t ← upd_node uncle (with_red false) t;
          t ← upd_node parent (with_red false) t;
          t ← upd_node grand (with_red true) t;
          insert_fixup fuel' grand t
        else insert_turn node parent grand dir t
  end.

(** One round of a loop for every allocated node, and the final test. *)
Definition tree_fuel (t : rb_tree) : nat := S (size (rb_heap t)).

Definition rb_insert (parent : Z) (link : rb_link) (node : Z) (t : rb_tree) : option rb_tree :=
  t ← upd_node node (fun _ => RbNode parent 0 0 true) t;
  t ← store_link link node t;
  t ← insert_fixup (tree_fuel t) node t;
  upd_node (rb_root t) (with_red false) t.

(** ** Removal *)

(** A red sibling is first rotated above the parent; the result is the sibling
    after that, which is black. *)
Definition black_sibling (parent : Z) (dir : rb_dir) (t : rb_tree) : option (Z * rb_tree) :=
  pn ← rb_heap t !! parent;
  let sibling := child pn (opposite dir) in
  s ← rb_heap t !! sibling;
  if rb_red s then
    t ← upd_node sibling (with_red false) t;
    t ← upd_node parent (with_red true) t;
    t ← rotate parent dir t;
    pn ← rb_heap t !! parent;
    Some (child pn (opposite dir), t)
  else Some (sibling, t).

(** The sibling has a red child: one or two rotations end the loop. *)
Definition remove_turn (parent sibling : Z) (dir : rb_dir) (t : rb_tree) : option rb_tree :=
  let other := opposite dir in
  s ← rb_heap t !! sibling;
  far_red ← is_red t (child s other);
  '(sibling, t) ← (if negb far_red then
      t ← upd_node (child s dir) (with_red false) t;
      t ← upd_node sibling (with_red true) t;
      t ← rotate sibling other t;
      pn ← rb_heap t !! parent;
      Some (child pn other, t)
    else Some (sibling, t));
  pn ← rb_heap t !! parent;
  t ← upd_node sibling (with_red (rb_red pn)) t;
  t ← upd_node parent (with_red false) t;
  s ← rb_heap t !! sibling;
  t ← upd_node (child s other) (with_red false) t;
  rotate parent dir t.

Fixpoint remove_fixup_loop (fuel : nat) (node parent : Z) (t : rb_tree)
  : option (Z * rb_tree) :=
  match fuel with
  | O => None
  | S fuel' =>
      if node =? rb_root t then Some (node, t)
      else
        red ← is_red t node;
        if red : bool then Some (node, t)
        else
          pn ← rb_heap t !! parent;
          let dir := to_dir (rb_right pn =? node) in
          '(sibling, t) ← black_sibling parent dir t;
          s ← rb_heap t !! sibling;
          l_red ← is_red t (rb_left s);
          r_red ← is_red t (rb_right s);
          if negb l_red && negb r_red then
            t ← upd_node sibling (with_red true) t;
            pn ← rb_heap t !! parent;
            remove_fixup_loop fuel' parent (rb_parent pn) t
          else
            t ← remove_turn parent sibling dir t;
            Some (rb_root t, t)
  end.

(** After the last case the source sets [node] to the root, which ends the
    loop at its next test. *)
Definition remove_fixup (node parent : Z) (t : rb_tree) : option rb_tree :=
  '(node, t) ← remove_fixup_loop (tree_fuel t) node parent t;
  if negb (node =? 0) then upd_node node (with_red false) t else Some t.

(** [while (next->child[RB_LEFT]) next = next->child[RB_LEFT]]. *)
Fixpoint leftmost (fuel : nat) (t : rb_tree) (node : Z) : option Z :=
  match fuel with
  | O => None
  | S fuel' =>
      n ← rb_heap t !! node;
      if rb_left n =? 0 then Some node else leftmost fuel' t (rb_left n)
  end.

(** The successor [next] of [node] leaves its place and takes the right subtree
    of [node]; the result is the parent of the place it left. *)
Definition detach_next (node next : Z) (nx : rb_node) (t : rb_tree) : option (Z * rb_tree) :=
  if rb_parent nx =? node then Some (next, t)
  else
    t ← transplant next (rb_right nx) t;
    n ← rb_heap t !! node;
    t ← upd_node next (with_child RB_RIGHT (rb_right n)) t;
    nx' ← rb_heap t !! next;
    t ← upd_node (rb_right nx') (with_parent next) t;
    Some (rb_parent nx, t).

(** [next] takes the place, the left subtree and the colour of [node]. *)
Definition replace_node (node next : Z) (t : rb_tree) : option rb_tree :=
  t ← transplant node next t;
  n ← rb_heap t !! node;
  t ← upd_node next (with_child RB_LEFT (rb_left n)) t;
  nx ← rb_heap t !! next;
  t ← upd_node (rb_left nx) (with_parent next) t;
  n ← rb_heap t !! node;
  upd_node next (with_red (rb_red n)) t.

Definition rb_remove (node : Z) (t : rb_tree) : option rb_tree :=
  n ← rb_heap t !! node;
  '(child, parent, removed_red, t) ←
    (if negb (rb_left n =? 0) && negb (rb_right n =? 0) then
      next ← leftmost (tree_fuel t) t (rb_right n);
      nx ← rb_heap t !! next;
      '(parent, t) ← detach_next node next nx t;
      t ← replace_node node next t;
      Some (rb_right nx, parent, rb_red nx, t)
    else
      let child := if negb (rb_left n =? 0) then rb_left n else rb_right n in
      t ← transplant node child t;
      Some (child, rb_parent n, rb_red n, t));
  if negb removed_red then remove_fixup child parent t else Some t.

(** ** Traversal *)

Definition rb_first (t : rb_tree) : option Z :=
  if rb_root t =? 0 then Some 0 else leftmost (tree_fuel t) t (rb_root t).

(** [while (parent && parent->child[RB_RIGHT] == node)] climb. *)
Fixpoint climb_right (fuel : nat) (t : rb_tree) (node parent : Z) : option Z :=
  match fuel with
  | O => None
  | S fuel' =>
      if parent =? 0 then Some parent
      else
        p ← rb_heap t !! parent;
        if rb_right p =? node then climb_right fuel' t parent (rb_parent p)
        else Some parent
  end.

Definition rb_next (t : rb_tree) (node : Z) : option Z :=
  n ← rb_heap t !! node;
  if negb (rb_right n =? 0) then leftmost (tree_fuel t) t (rb_right n)
  else climb_right (tree_fuel t) t node (rb_parent n).
