(* ===== verification/RbtreeFacts.v ===== *)
(** * The trees that rbtree.c builds

    A heap tree stands for an inductive tree of addresses; a position in it is
    a zipper: the path from the position to the root and the subtree there.
    [at_] says that a heap holds a zipper.  Every pointer operation is shown to
    be an operation on zippers; the two repair loops are then followed case by
    case, with the colour and black-height invariant, and the in-order sequence
    of addresses is what they keep.  Directions are a parameter of the
    constructions, so each mirror pair of cases is proved once. *)

From stdpp Require Import base list option gmap.
From Stdlib Require Import ZArith Lia.
From S2P Require Import Prelude Rbtree.
Open Scope Z_scope.

Inductive tree := Leaf | Branch (red : bool) (l : tree) (p : Z) (r : tree).

(** The node whose child in direction [d] is [a] and whose other child is [b]. *)
Definition mk (d : rb_dir) (red : bool) (p : Z) (a b : tree) : tree :=
  match d with RB_LEFT => Branch red a p b | RB_RIGHT => Branch red b p a end.

Record frame := Frame { f_dir : rb_dir; f_red : bool; f_ptr : Z; f_other : tree }.
Abbreviation path := (list frame).

Fixpoint plug (k : path) (t : tree) : tree :=
  match k with
  | [] => t
  | Frame d c p o :: k' => plug k' (mk d c p t o)
  end.

Fixpoint inorder (t : tree) : list Z :=
  match t with Leaf => [] | Branch _ l p r => inorder l ++ p :: inorder r end.

(** The addresses before and after the hole of a path. *)
Fixpoint before (k : path) : list Z :=
  match k with
  | [] => []
  | Frame RB_LEFT _ _ _ :: k' => before k'
  | Frame RB_RIGHT _ p o :: k' => before k' ++ inorder o ++ [p]
  end.
Fixpoint after (k : path) : list Z :=
  match k with
  | [] => []
  | Frame RB_LEFT _ p o :: k' => p :: inorder o ++ after k'
  | Frame RB_RIGHT _ _ _ :: k' => after k'
  end.

Definition root_of (t : tree) : Z := match t with Leaf => 0 | Branch _ _ p _ => p end.
Definition parent_of (k : path) : Z := match k with [] => 0 | f :: _ => f_ptr f end.

(** The record of a node with child [v] in direction [d] and [w] in the other. *)
Definition node_at (d : rb_dir) (parent : Z) (v w : Z) (red : bool) : rb_node :=
  match d with RB_LEFT => RbNode parent v w red | RB_RIGHT => RbNode parent w v red end.

Fixpoint rep (h : gmap Z rb_node) (parent : Z) (t : tree) : Prop :=
  match t with
  | Leaf => True
  | Branch c l p r =>
      h !! p = Some (RbNode parent (root_of l) (root_of r) c) /\ rep h p l /\ rep h p r
  end.

(** The path [k] is in the heap, its hole holds [v] and the root pointer is
    [root]. *)
Fixpoint rep_path (h : gmap Z rb_node) (k : path) (v root : Z) : Prop :=
  match k with
  | [] => root = v
  | Frame d c p o :: k' =>
      h !! p = Some (node_at d (parent_of k') v (root_of o) c) /\ rep h p o /\
      rep_path h k' p root
  end.

Fixpoint path_ptrs (k : path) : list Z :=
  match k with [] => [] | f :: k' => f_ptr f :: inorder (f_other f) ++ path_ptrs k' end.

(** The heap tree [s] holds the tree [plug k t]. *)
Record at_ (s : rb_tree) (k : path) (t : tree) : Prop := At {
  at_path : rep_path (rb_heap s) k (root_of t) (rb_root s);
  at_tree : rep (rb_heap s) (parent_of k) t;
  at_nodup : NoDup (0 :: path_ptrs k ++ inorder t);
}.

Abbreviation holds s t := (at_ s [] t).

(** Nodes outside [l] are the same in both heaps. *)
Definition unchanged (l : list Z) (s s' : rb_tree) : Prop :=
  forall q, q ∉ l -> rb_heap s' !! q = rb_heap s !! q.

(** ** Trees and zippers *)

Lemma opposite_involutive d : opposite (opposite d) = d.
Proof. by destruct d. Qed.

Lemma mk_opposite d c p a b : mk (opposite d) c p a b = mk d c p b a.
Proof. by destruct d. Qed.

Lemma root_mk d c p a b : root_of (mk d c p a b) = p.
Proof. by destruct d. Qed.

Lemma inorder_mk_perm d c p a b : inorder (mk d c p a b) ≡ₚ p :: inorder b ++ inorder a.
Proof. destruct d; simpl; solve_Permutation. Qed.

Lemma plug_app k1 k2 t : plug (k1 ++ k2) t = plug k2 (plug k1 t).
Proof. revert t. induction k1 as [| [] k1 IH]; simpl; auto. Qed.

Lemma inorder_plug k t : inorder (plug k t) = before k ++ inorder t ++ after k.
Proof.
  revert t. induction k as [| [[] c p o] k IH]; intros t; simpl.
  - by rewrite app_nil_r.
  - rewrite IH. simpl. by rewrite <- !app_assoc.
  - rewrite IH. simpl. by rewrite <- !app_assoc.
Qed.

Lemma path_ptrs_perm k t : inorder (plug k t) ≡ₚ path_ptrs k ++ inorder t.
Proof.
  revert t. induction k as [| [d c p o] k IH]; intros t; simpl; [done |].
  rewrite IH, inorder_mk_perm. solve_Permutation.
Qed.

Lemma rep_mk h parent d c p a b :
  rep h parent (mk d c p a b) <->
  h !! p = Some (node_at d parent (root_of a) (root_of b) c) /\ rep h p a /\ rep h p b.
Proof. destruct d; simpl; tauto. Qed.

Lemma at_up s d c p o k t : at_ s (Frame d c p o :: k) t <-> at_ s k (mk d c p t o).
Proof.
  split; intros [H1 H2 H3]; constructor.
  - simpl in H1. rewrite root_mk. tauto.
  - rewrite rep_mk. simpl in *. tauto.
  - rewrite inorder_mk_perm. simpl in H3. revert H3. apply NoDup_Permutation_proper.
    solve_Permutation.
  - simpl. rewrite root_mk in H1. rewrite rep_mk in H2. tauto.
  - rewrite rep_mk in H2. tauto.
  - rewrite inorder_mk_perm in H3. revert H3. apply NoDup_Permutation_proper. simpl.
    solve_Permutation.
Qed.

Lemma at_plug s k t : at_ s k t <-> holds s (plug k t).
Proof.
  revert t. induction k as [| [d c p o] k IH]; intros t; [done |].
  rewrite at_up, IH. done.
Qed.

Lemma at_fold s k k' t : at_ s k (plug k' t) <-> at_ s (k' ++ k) t.
Proof. by rewrite (at_plug s k), (at_plug s (k' ++ k)), plug_app. Qed.

(** ** Framing *)

Lemma rep_ext h h' parent t : (forall q, q ∈ inorder t -> h' !! q = h !! q) ->
  rep h parent t -> rep h' parent t.
Proof.
  revert parent. induction t as [| c l IHl p r IHr]; intros parent Hext; simpl; [done |].
  intros (Hp & Hl & Hr). split; [rewrite Hext; [done | set_solver] |].
  split; [apply IHl | apply IHr]; auto; intros; apply Hext; set_solver.
Qed.

Lemma rep_path_ext h h' k v root : (forall q, q ∈ path_ptrs k -> h' !! q = h !! q) ->
  rep_path h k v root -> rep_path h' k v root.
Proof.
  revert v. induction k as [| [d c p o] k IH]; intros v Hext; simpl; [done |].
  intros (Hp & Ho & Hk). split; [rewrite Hext; [done | simpl; set_solver] |].
  split; [apply (rep_ext h); [| done] | apply IH; [| done]];
    intros; apply Hext; simpl; set_solver.
Qed.

Lemma root_of_elem t : root_of t <> 0 -> root_of t ∈ inorder t.
Proof. destruct t; simpl; [done | set_solver]. Qed.

(** A subtree moves under another parent when its root is told so. *)
Lemma rep_reparent h h' parent q t :
  rep h parent t -> NoDup (inorder t) ->
  (forall x, x ∈ inorder t -> x <> root_of t -> h' !! x = h !! x) ->
  (root_of t <> 0 -> exists n, h !! root_of t = Some n /\
     h' !! root_of t = Some (with_parent q n)) ->
  root_of t <> 0 \/ t = Leaf -> rep h' q t.
Proof.
  destruct t as [| c l p r]; simpl; [done |]. intros (Hp & Hl & Hr) Hnd Hsame Hroot Hne.
  destruct Hroot as (n & Hn & Hn'); [by destruct Hne |].
  rewrite Hp in Hn. simplify_eq. split; [done |].
  apply NoDup_app in Hnd as (_ & Hlp & [Hpr Hnd]%NoDup_cons).
  split; (apply (rep_ext h); [| done]); intros x Hx; apply Hsame; set_solver.
Qed.

(** ** Nodes *)

Lemma child_node_at d p v w c : child (node_at d p v w c) d = v.
Proof. by destruct d. Qed.
Lemma child_node_at_other d p v w c : child (node_at d p v w c) (opposite d) = w.
Proof. by destruct d. Qed.
Lemma with_child_node_at d p v w c x : with_child d x (node_at d p v w c) = node_at d p x w c.
Proof. by destruct d. Qed.
Lemma with_child_node_at_other d p v w c x :
  with_child (opposite d) x (node_at d p v w c) = node_at d p v x c.
Proof. by destruct d. Qed.
Lemma with_parent_node_at d p v w c x : with_parent x (node_at d p v w c) = node_at d x v w c.
Proof. by destruct d. Qed.
Lemma with_red_node_at d p v w c x : with_red x (node_at d p v w c) = node_at d p v w x.
Proof. by destruct d. Qed.
Lemma node_at_opposite d p v w c : node_at (opposite d) p v w c = node_at d p w v c.
Proof. by destruct d. Qed.
Lemma parent_node_at d p v w c : rb_parent (node_at d p v w c) = p.
Proof. by destruct d. Qed.
Lemma red_node_at d p v w c : rb_red (node_at d p v w c) = c.
Proof. by destruct d. Qed.

Lemma upd_node_eq s p n f : rb_heap s !! p = Some n ->
  upd_node p f s = Some (RbTree (rb_root s) (<[p := f n]> (rb_heap s))).
Proof. unfold upd_node. by intros ->. Qed.

Lemma to_dir_right d p v w c x : v <> w -> x = v ->
  to_dir (rb_right (node_at d p v w c) =? x) = d.
Proof. intros Hne ->. destruct d; simpl; zcases; done. Qed.

(** Splits a [NoDup] of appended lists into its parts. *)
Ltac nodup_facts H :=
  simpl in H;
  repeat match type of H with
  | NoDup (_ ++ _) => let H1 := fresh in let H2 := fresh in
      apply NoDup_app in H as (H1 & H2 & H)
  | NoDup (_ :: _) => let H1 := fresh in apply NoDup_cons in H as (H1 & H)
  end.

(** Refutes a membership with the facts of [nodup_facts]. *)
Ltac in_sum := repeat (rewrite elem_of_app || rewrite elem_of_cons); auto 10.
Ltac apart :=
  repeat match goal with
  | |- _ /\ _ => split
  | |- ~ _ => let H := fresh in intros H
  | |- _ -> _ => let H := fresh in intros H
  | H : _ ∈ _ ++ _ |- _ => apply elem_of_app in H as [H | H]
  | H : _ ∈ _ :: _ |- _ => apply elem_of_cons in H as [H | H]
  | H : _ ∈ [] |- _ => by apply not_elem_of_nil in H
  end; subst; try done; exfalso;
  match goal with
  | H : ?q ∉ _ |- _ => solve [apply H; in_sum]
  | H : (forall x, x ∈ ?l -> x ∉ _), Hq : _ ∈ ?l |- _ => solve [apply (H _ Hq); in_sum]
  end.

(** ** Transplant *)

Lemma transplant_spec s k old v o :
  rep_path (rb_heap s) k old (rb_root s) ->
  rb_heap s !! old = Some o -> rb_parent o = parent_of k ->
  0 ∉ path_ptrs k -> NoDup (path_ptrs k) -> old <> 0 -> old ∉ path_ptrs k -> v ∉ path_ptrs k ->
  (v <> 0 -> is_Some (rb_heap s !! v)) ->
  exists s', transplant old v s = Some s' /\
    rep_path (rb_heap s') k v (rb_root s') /\
    (v <> 0 -> exists n, rb_heap s !! v = Some n /\
       rb_heap s' !! v = Some (with_parent (parent_of k) n)) /\
    (forall q, (q = v -> v = 0) -> q ∉ path_ptrs k -> rb_heap s' !! q = rb_heap s !! q).
Proof.
  intros Hk Ho Hpar H0 Hnd Hold Hold' Hv Hvs. unfold transplant. rewrite Ho. simpl. rewrite Hpar.
  set (s1 := if v =? 0 then s else
    RbTree (rb_root s) (<[v := with_parent (parent_of k) (default o (rb_heap s !! v))]> (rb_heap s))).
  assert ((if negb (v =? 0) then upd_node v (with_parent (parent_of k)) s else Some s) = Some s1)
    as ->.
  { unfold s1. destruct (Z.eqb_spec v 0); simpl; [done |]. destruct (Hvs n) as [x Hx].
    by rewrite (upd_node_eq s v x), Hx. }
  rewrite option_bind_Some_fun.
  assert (forall q, (q = v -> v = 0) -> rb_heap s1 !! q = rb_heap s !! q) as Hq1.
  { intros q Hq. unfold s1. destruct (Z.eqb_spec v 0); [done |]. apply lookup_insert_ne.
    intros <-. by apply n, Hq. }
  assert (v <> 0 -> exists n, rb_heap s !! v = Some n /\
    rb_heap s1 !! v = Some (with_parent (parent_of k) n)) as Hv1.
  { intros Hne. destruct (Hvs Hne) as [x Hx]. exists x. split; [done |]. unfold s1.
    apply Z.eqb_neq in Hne as ->. simpl. rewrite Hx, lookup_insert_eq. done. }
  assert (rep_path (rb_heap s1) k old (rb_root s)) as Hk1.
  { apply (rep_path_ext (rb_heap s)); [| done]. intros q Hq. apply Hq1. set_solver. }
  assert (rb_root s1 = rb_root s) as Hr1 by (unfold s1; by destruct (v =? 0)).
  destruct k as [| [d c p x] k]; simpl.
  - exists (set_root v s1). simpl. repeat split; auto.
  - simpl in *. destruct (Z.eqb_spec p 0); [set_solver |]. destruct Hk1 as (Hp & Hx & Hk1).
    rewrite Hp. simpl. rewrite (upd_node_eq _ _ _ _ Hp).
    rewrite to_dir_right; [| destruct (decide (root_of x = 0)); [lia |];
      pose proof (root_of_elem x); set_solver | done].
    eexists. split; [done |]. simpl. rewrite with_child_node_at, Hr1.
    apply NoDup_cons in Hnd as [Hnp Hnd]. rewrite lookup_insert_eq. split_and!.
    + done.
    + apply (rep_ext (rb_heap s1)); [| done]. intros q Hq. apply lookup_insert_ne. set_solver.
    + apply (rep_path_ext (rb_heap s1)); [| done]. intros q Hq. apply lookup_insert_ne. set_solver.
    + intros Hne. destruct (Hv1 Hne) as (n' & ? & ?). exists n'. split; [done |].
      rewrite lookup_insert_ne by set_solver. done.
    + intros q Hqv Hq. rewrite lookup_insert_ne by set_solver. auto.
Qed.

(** ** Rotation *)

Lemma root_fresh t x : x <> 0 -> x ∉ inorder t -> root_of t <> x.
Proof. intros H0 Hx <-. by apply Hx, root_of_elem. Qed.

Lemma root_zero t : 0 ∉ inorder t -> root_of t <> 0 \/ t = Leaf.
Proof. destruct t; [by right |]. left. simpl in *. set_solver. Qed.

(** The heap facts of a node below a path. *)
Lemma at_node s k d c p a b : at_ s k (mk d c p a b) ->
  rb_heap s !! p = Some (node_at d (parent_of k) (root_of a) (root_of b) c) /\ p <> 0.
Proof.
  intros [_ H Hn]. rewrite rep_mk in H. split; [tauto |].
  rewrite inorder_mk_perm, NoDup_cons in Hn. destruct Hn as [Hn _]. set_solver.
Qed.

(** The subtrees [A], [B], [C] and the path, each apart from the others. *)
Lemma rotate_distinct s k d c n a c' p b e :
  at_ s k (mk d c n a (mk d c' p b e)) ->
  NoDup (0 :: n :: p :: path_ptrs k ++ inorder a ++ inorder b ++ inorder e).
Proof.
  intros [_ _ Hn]. revert Hn. apply NoDup_Permutation_proper.
  rewrite !inorder_mk_perm. simpl. solve_Permutation.
Qed.

(** [if (x) x->parent = n] for the root [x] of a subtree. *)
Lemma adopt_spec s p n b :
  rep (rb_heap s) p b -> NoDup (inorder b) -> 0 ∉ inorder b ->
  exists s', (if negb (root_of b =? 0) then upd_node (root_of b) (with_parent n) s else Some s)
      = Some s' /\ rb_root s' = rb_root s /\ rep (rb_heap s') n b /\ unchanged (inorder b) s s'.
Proof.
  intros Hb Hnd H0. destruct b as [| cb bl bp br]; simpl in *; [by exists s |].
  destruct (Z.eqb_spec bp 0); [set_solver |]. destruct Hb as (Hbp & Hb). simpl.
  rewrite (upd_node_eq _ _ _ _ Hbp). eexists. split; [done |]. split; [done |]. split.
  - apply (rep_reparent (rb_heap s) _ p n (Branch cb bl bp br)); simpl; auto.
    + intros x Hx Hxb. by rewrite lookup_insert_ne.
    + intros _. eexists. rewrite lookup_insert_eq. done.
  - intros q Hq. simpl. rewrite lookup_insert_ne by set_solver. done.
Qed.

Lemma rotate_spec s k d c n a c' p b e :
  at_ s k (mk d c n a (mk d c' p b e)) ->
  exists s', rotate n d s = Some s' /\ at_ s' k (mk d c' p (mk d c n a b) e) /\
    unchanged (path_ptrs k ++ [n; p] ++ inorder b) s s'.
Proof.
  intros H. pose proof (rotate_distinct _ _ _ _ _ _ _ _ _ _ H) as Hd.
  assert (NoDup (0 :: path_ptrs k ++ inorder (mk d c' p (mk d c n a b) e))) as Hnew.
  { revert Hd. apply NoDup_Permutation_proper. rewrite !inorder_mk_perm. simpl.
    solve_Permutation. }
  nodup_facts Hd. pose proof H as [Hk Ht _]. rewrite !rep_mk, !root_mk in *.
  destruct Ht as (Hn & Ha & Hp & Hb & He). unfold rotate. rewrite Hn. simpl.
  rewrite child_node_at_other, Hp. simpl. rewrite child_node_at, (upd_node_eq _ _ _ _ Hn).
  rewrite option_bind_Some_fun. simpl. rewrite lookup_insert_ne, Hp by apart. simpl.
  rewrite child_node_at, with_child_node_at_other.
  set (s1 := RbTree _ _).
  assert (forall q, q <> n -> rb_heap s1 !! q = rb_heap s !! q) as Hs1
    by (intros q Hq; by apply lookup_insert_ne).
  destruct (adopt_spec s1 p n b) as (s2 & -> & Hr2 & Hb2 & Hs2); [| done | apart |].
  { apply (rep_ext (rb_heap s)); [| done]. intros q Hq. apply Hs1. apart. }
  rewrite option_bind_Some_fun.
  assert (rb_heap s2 !! n = Some (node_at d (parent_of k) (root_of a) (root_of b) c)) as Hn2.
  { rewrite Hs2 by apart. apply lookup_insert_eq. }
  assert (forall q, q <> n -> q ∉ inorder b -> rb_heap s2 !! q = rb_heap s !! q) as Hs2'.
  { intros q Hq Hqb. rewrite Hs2 by done. by apply Hs1. }
  assert (rb_heap s2 !! p = Some (node_at d n (root_of b) (root_of e) c')) as Hp2.
  { by rewrite Hs2' by apart. }
  edestruct (transplant_spec s2 k n p) as (s3 & -> & Hk3 & Hv3 & Hs3);
    [| exact Hn2 | apply parent_node_at | apart | done | apart | apart | apart
     | by eexists |].
  { rewrite Hr2. apply (rep_path_ext (rb_heap s)); [| done]. intros q Hq. apply Hs2'; apart. }
  destruct Hv3 as (n' & Hn' & Hp3); [apart |]. rewrite Hp2 in Hn'. simplify_eq.
  rewrite with_parent_node_at in Hp3.
  rewrite option_bind_Some_fun, (upd_node_eq _ _ _ _ Hp3), option_bind_Some_fun.
  rewrite with_child_node_at.
  assert (rb_heap s3 !! n = Some (node_at d (parent_of k) (root_of a) (root_of b) c)) as Hn3
    by (rewrite Hs3 by apart; done).
  erewrite upd_node_eq by (simpl; rewrite lookup_insert_ne by apart; exact Hn3).
  rewrite with_parent_node_at. simpl. set (s' := RbTree _ _).
  assert (forall q, q ∉ n :: p :: path_ptrs k -> rb_heap s' !! q = rb_heap s2 !! q) as Hs'.
  { intros q Hq. unfold s'. simpl. rewrite !lookup_insert_ne by apart.
    apply Hs3; apart. }
  assert (rb_heap s' !! n = Some (node_at d p (root_of a) (root_of b) c)) as Hn4
    by apply lookup_insert_eq.
  assert (rb_heap s' !! p = Some (node_at d (parent_of k) n (root_of e) c')) as Hp4
    by (unfold s'; simpl; rewrite lookup_insert_ne by apart; apply lookup_insert_eq).
  clearbody s1.
  exists s'. split; [done |]. split; [constructor | intros q Hq; rewrite Hs' by apart;
    apply Hs2'; apart].
  - rewrite root_mk. apply (rep_path_ext (rb_heap s3)); [| done].
    intros q Hq. unfold s'. simpl. rewrite !lookup_insert_ne by apart. done.
  - rewrite !rep_mk, root_mk. split_and!; auto.
    + apply (rep_ext (rb_heap s)); [| done].
      intros q Hq. rewrite Hs' by apart. apply Hs2'; apart.
    + apply (rep_ext (rb_heap s2)); [| done]. intros q Hq. apply Hs'. apart.
    + apply (rep_ext (rb_heap s)); [| done].
      intros q Hq. rewrite Hs' by apart. apply Hs2'; apart.
  - done.
Qed.

(** ** Steps that rearrange a tree *)

(** From a heap with tree [T] to one with tree [T'], the same addresses in the
    same order and every other node untouched. *)
Record evolves (s : rb_tree) (T : tree) (s' : rb_tree) (T' : tree) : Prop := {
  ev_order : inorder T' = inorder T;
  ev_frame : unchanged (inorder T) s s';
  ev_dom : dom (rb_heap s') = dom (rb_heap s);
}.

Lemma evolves_refl s T : evolves s T s T.
Proof. by constructor. Qed.

Lemma evolves_trans s1 T1 s2 T2 s3 T3 :
  evolves s1 T1 s2 T2 -> evolves s2 T2 s3 T3 -> evolves s1 T1 s3 T3.
Proof.
  intros [H1 H2 H3] [H4 H5 H6]. constructor; [congruence | | congruence].
  intros q Hq. rewrite H5 by (by rewrite H1). by apply H2.
Qed.

Lemma inorder_plug_eq k t t' : inorder t' = inorder t -> inorder (plug k t') = inorder (plug k t).
Proof. intros H. by rewrite !inorder_plug, H. Qed.

Lemma upd_node_dom p f s s' : upd_node p f s = Some s' -> dom (rb_heap s') = dom (rb_heap s).
Proof.
  unfold upd_node. intros H. obind. apply dom_insert_lookup_L. by eexists.
Qed.

Lemma transplant_dom old v s s' : transplant old v s = Some s' ->
  dom (rb_heap s') = dom (rb_heap s).
Proof.
  unfold transplant. intros H. apply bind_Some in H as (o & _ & H).
  apply bind_Some in H as (s1 & H1 & H). transitivity (dom (rb_heap s1)).
  - destruct (rb_parent o =? 0); [by simplify_eq |]. obind. by eapply upd_node_dom.
  - destruct (negb (v =? 0)); [by eapply upd_node_dom | by simplify_eq].
Qed.

Lemma rotate_dom n d s s' : rotate n d s = Some s' -> dom (rb_heap s') = dom (rb_heap s).
Proof.
  unfold rotate. intros H. apply bind_Some in H as (o & _ & H).
  apply bind_Some in H as (pv & _ & H). apply bind_Some in H as (s1 & H1%upd_node_dom & H).
  apply bind_Some in H as (pv' & _ & H). apply bind_Some in H as (s2 & H2 & H).
  apply bind_Some in H as (s3 & H3%transplant_dom & H).
  apply bind_Some in H as (s4 & H4%upd_node_dom & H5%upd_node_dom).
  destruct (negb (child pv' d =? 0)); [apply upd_node_dom in H2 | simplify_eq]; congruence.
Qed.

Lemma rotate_inorder d c n a c' p b e :
  inorder (mk d c' p (mk d c n a b) e) = inorder (mk d c n a (mk d c' p b e)).
Proof. destruct d; simpl; by rewrite <- app_assoc. Qed.

(** A rotation at [k], as a step of the whole tree. *)
Lemma rotate_step s k d c n a c' p b e T :
  at_ s k T -> T = mk d c n a (mk d c' p b e) ->
  exists s', rotate n d s = Some s' /\ at_ s' k (mk d c' p (mk d c n a b) e) /\
    evolves s (plug k T) s' (plug k (mk d c' p (mk d c n a b) e)).
Proof.
  intros H ->. destruct (rotate_spec _ _ _ _ _ _ _ _ _ _ H) as (s' & Hs' & Hat & Hun).
  exists s'. split; [done |]. split; [done |]. constructor.
  - apply inorder_plug_eq, rotate_inorder.
  - intros q Hq. apply Hun. rewrite path_ptrs_perm, !inorder_mk_perm in Hq. set_solver.
  - by eapply rotate_dom.
Qed.

(** Recolouring a node. *)
Lemma recolor_step s k d c p a b x :
  at_ s k (mk d c p a b) ->
  exists s', upd_node p (with_red x) s = Some s' /\ at_ s' k (mk d x p a b) /\
    evolves s (plug k (mk d c p a b)) s' (plug k (mk d x p a b)).
Proof.
  intros H. destruct (at_node _ _ _ _ _ _ _ H) as [Hp _]. destruct H as [Hk Ht Hn].
  rewrite inorder_mk_perm in Hn.
  assert (NoDup (p :: path_ptrs k ++ inorder b ++ inorder a)) as Hd.
  { apply NoDup_cons in Hn as [_ Hn]. revert Hn. apply NoDup_Permutation_proper.
    solve_Permutation. }
  nodup_facts Hd.
  eexists. split; [by apply upd_node_eq |]. split; [constructor | constructor].
  - rewrite root_mk in *. apply (rep_path_ext (rb_heap s)); [| done].
    intros q Hq. apply lookup_insert_ne. apart.
  - rewrite rep_mk in *. simpl. rewrite lookup_insert_eq, with_red_node_at.
    destruct Ht as (_ & Ha & Hb). split; [done |].
    split; (apply (rep_ext (rb_heap s)); [| done]); intros q Hq; apply lookup_insert_ne; apart.
  - by rewrite inorder_mk_perm.
  - apply inorder_plug_eq. by destruct d.
  - intros q Hq. apply lookup_insert_ne. rewrite path_ptrs_perm, inorder_mk_perm in Hq.
    set_solver.
  - apply dom_insert_lookup_L. by eexists.
Qed.

(** The same below a further path. *)
Lemma recolor_below s k k' d c p a b x T :
  at_ s k T -> T = plug k' (mk d c p a b) ->
  exists s', upd_node p (with_red x) s = Some s' /\ at_ s' k (plug k' (mk d x p a b)) /\
    evolves s (plug k T) s' (plug k (plug k' (mk d x p a b))).
Proof.
  intros H ->. rewrite at_fold in H. destruct (recolor_step _ _ _ _ _ _ _ x H) as (s' & ? & ? & He).
  exists s'. rewrite at_fold, <- !plug_app. auto.
Qed.

Lemma rotate_below s k k' d c n a c' p b e T :
  at_ s k T -> T = plug k' (mk d c n a (mk d c' p b e)) ->
  exists s', rotate n d s = Some s' /\ at_ s' k (plug k' (mk d c' p (mk d c n a b) e)) /\
    evolves s (plug k T) s' (plug k (plug k' (mk d c' p (mk d c n a b) e))).
Proof.
  intros H ->. rewrite at_fold in H.
  destruct (rotate_step _ _ _ _ _ _ _ _ _ _ _ H eq_refl) as (s' & ? & ? & He).
  exists s'. rewrite at_fold, <- !plug_app. auto.
Qed.

Definition is_red_tree (t : tree) : bool :=
  match t with Leaf => false | Branch c _ _ _ => c end.

Lemma is_red_mk d c p a b : is_red_tree (mk d c p a b) = c.
Proof. by destruct d. Qed.

Lemma at_zero s k t : at_ s k t -> (0 ∉ inorder t) /\ (0 ∉ path_ptrs k).
Proof. intros [_ _ [Hn _]%NoDup_cons]. rewrite not_elem_of_app in Hn. split; apply Hn. Qed.

Lemma is_red_at s k t : at_ s k t -> is_red s (root_of t) = Some (is_red_tree t).
Proof.
  intros H. destruct (at_zero _ _ _ H) as [H0 _]. destruct H as [_ Ht _].
  unfold is_red. destruct t as [| c l p r]; simpl in *; [done |].
  destruct (Z.eqb_spec p 0); [set_solver |]. destruct Ht as [-> _]. done.
Qed.

(** The sibling of the position. *)
Lemma at_sibling s d c p o k t : at_ s (Frame d c p o :: k) t ->
  at_ s (Frame (opposite d) c p t :: k) o.
Proof. by rewrite !at_up, mk_opposite. Qed.

Lemma at_parent s d c p o k t : at_ s (Frame d c p o :: k) t ->
  rb_heap s !! p = Some (node_at d (parent_of k) (root_of t) (root_of o) c) /\ p <> 0.
Proof. rewrite at_up. apply at_node. Qed.

Lemma at_grand s d c p o f k t : at_ s (Frame d c p o :: f :: k) t ->
  rb_heap s !! f_ptr f =
    Some (node_at (f_dir f) (parent_of k) p (root_of (f_other f)) (f_red f)) /\ f_ptr f <> 0.
Proof.
  rewrite at_up. destruct f as [d' c' g u]. intros H%at_parent. by rewrite root_mk in H.
Qed.

(** The two children of a node differ unless both are null. *)
Lemma at_roots_apart s d c p o k t : at_ s (Frame d c p o :: k) t ->
  root_of t <> 0 \/ root_of o <> 0 -> root_of t <> root_of o.
Proof.
  intros [_ _ Hn] Hne Heq. simpl in Hn.
  assert (root_of t ∈ inorder t) by (apply root_of_elem; destruct Hne; congruence).
  assert (root_of t ∈ inorder o) by (rewrite Heq; apply root_of_elem; destruct Hne; congruence).
  assert (NoDup (inorder o ++ inorder t)) as Hd.
  { apply NoDup_cons in Hn as [_ Hn]. apply NoDup_cons in Hn as [_ Hn].
    apply (sublist_NoDup _ _ Hn). rewrite <- app_assoc. apply sublist_app; [done |].
    by apply sublist_inserts_l. }
  apply NoDup_app in Hd as (_ & Hd & _). by apply (Hd (root_of t)).
Qed.

(** The direction a comparison with the right child finds. *)
Lemma dir_found s d c p o k t : at_ s (Frame d c p o :: k) t ->
  root_of t <> 0 \/ root_of o <> 0 ->
  to_dir (rb_right (node_at d (parent_of k) (root_of t) (root_of o) c) =? root_of t) = d.
Proof. intros H Hne. apply to_dir_right; [by eapply at_roots_apart | done]. Qed.

(** ** Balance *)

(** [rbt c n t]: [t] has root colour [c], no red node with a red child, and
    [n] black nodes on every path to a leaf. *)
Inductive rbt : bool -> nat -> tree -> Prop :=
| rbt_leaf : rbt false 0 Leaf
| rbt_red n l p r : rbt false n l -> rbt false n r -> rbt true n (Branch true l p r)
| rbt_black cl cr n l p r : rbt cl n l -> rbt cr n r -> rbt false (S n) (Branch false l p r).

Lemma rbt_mk_red d n p a b : rbt false n a -> rbt false n b -> rbt true n (mk d true p a b).
Proof. destruct d; constructor; done. Qed.
Lemma rbt_mk_black d n p a b ca cb :
  rbt ca n a -> rbt cb n b -> rbt false (S n) (mk d false p a b).
Proof. destruct d; econstructor; done. Qed.
Create HintDb rbtree.
#[export] Hint Constructors rbt : rbtree.
#[export] Hint Resolve rbt_mk_red rbt_mk_black : rbtree.

Lemma rbt_color c n t : rbt c n t -> is_red_tree t = c.
Proof. by destruct 1. Qed.

(** A tree seen from a direction. *)
Lemma tree_mk d t : t <> Leaf -> exists c p a b, t = mk d c p a b.
Proof.
  destruct t as [| c l p r]; [done |]. intros _.
  destruct d; [exists c, p, l, r | exists c, p, r, l]; done.
Qed.

Lemma rbt_red_inv d n p a b c : rbt c n (mk d true p a b) ->
  c = true /\ rbt false n a /\ rbt false n b.
Proof. destruct d; simpl; inversion 1; by subst. Qed.
Lemma rbt_black_inv d n p a b c : rbt c n (mk d false p a b) ->
  c = false /\ exists m ca cb, n = S m /\ rbt ca m a /\ rbt cb m b.
Proof. destruct d; simpl; inversion 1; subst; eauto 10. Qed.

(** Balanced paths: a black tree of height [n] may stand in the hole.  The
    root of the whole tree is black. *)
Definition head_red (k : path) : bool := match k with [] => false | f :: _ => f_red f end.

Inductive rbk : nat -> path -> Prop :=
| rbk_top n : rbk n []
| rbk_red n d p o k : rbt false n o -> rbk n k -> head_red k = false -> k <> [] ->
    rbk n (Frame d true p o :: k)
| rbk_black n d p o co k : rbt co n o -> rbk (S n) k -> rbk n (Frame d false p o :: k).
#[export] Hint Constructors rbk : rbtree.

Lemma rbk_plug n k t c : rbk n k -> rbt c n t -> (c = true -> head_red k = false) ->
  exists c' m, rbt c' m (plug k t) /\ (c' = true -> k = []).
Proof.
  intros Hk. revert t c. induction Hk as [n | n d p o k Ho Hk IH Hb Hne | n d p o co k Ho Hk IH];
    intros t c Ht Hc; simpl.
  - by exists c, n.
  - destruct c; [simpl in Hc; by discriminate Hc |].
    destruct (IH (mk d true p t o) true) as (c' & m & Hm & Hc'); [by apply rbt_mk_red | done |].
    exists c', m. split; [done |]. intros ->. by destruct Hne, Hc'.
  - destruct (IH (mk d false p t o) false) as (c' & m & Hm & Hc');
      [by eapply rbt_mk_black | done |].
    exists c', m. split; [done |]. intros ->. rewrite (Hc' eq_refl) in *. simpl in *.
    apply rbt_color in Hm. by rewrite is_red_mk in Hm.
Qed.

Lemma rbk_unplug k t n : rbt false n (plug k t) ->
  exists m c, rbk m k /\ rbt c m t /\ (c = true -> head_red k = false /\ k <> []).
Proof.
  revert t. induction k as [| [d c p o] k IH]; intros t H; simpl in *.
  - exists n, false. auto with rbtree.
  - destruct (IH _ H) as (m & c' & Hk & Ht & Hc). destruct c.
    + apply rbt_red_inv in Ht as (-> & Ht & Ho). destruct (Hc eq_refl).
      exists m, false. auto with rbtree.
    + apply rbt_black_inv in Ht as (-> & m' & ct & co & -> & Ht & Ho).
      exists m', ct. split; [by eapply rbk_black |]. done.
Qed.

(** ** Insertion *)

(** A red node under a red parent has a black grandparent. *)
Lemma rbk_red_head n k : rbk n k -> head_red k = true ->
  exists d p o d' g u k' cu, k = Frame d true p o :: Frame d' false g u :: k' /\
    rbt false n o /\ rbt cu n u /\ rbk (S n) k'.
Proof.
  intros [n' | n' d p o k' Ho Hk Hh Hne | n' d p o co k' Ho Hk] Hr; try done.
  destruct Hk as [| n'' d' g u k'' Hu Hk'' Hh' Hne' | n'' d' g u cu k'' Hu Hk'']; [done | done |].
  do 8 eexists. eauto.
Qed.

(** The last round: the uncle is black, and one or two rotations end the loop.
    [x] is the red node, [a] and [b] its children. *)
Lemma insert_outer s k d x a b p o g u T :
  at_ s k T -> T = mk d false g (mk d true p (mk d true x a b) o) u ->
  exists s', (t ← upd_node p (with_red false) s; t ← upd_node g (with_red true) t;
      rotate g (opposite d) t) = Some s' /\
    at_ s' k (mk d false p (mk d true x a b) (mk d true g o u)) /\
    evolves s (plug k T) s' (plug k (mk d false p (mk d true x a b) (mk d true g o u))).
Proof.
  intros H ->.
  destruct (recolor_below s k [Frame d false g u] d true p (mk d true x a b) o false _ H eq_refl)
    as (s1 & -> & H1 & E1). simpl in *.
  destruct (recolor_step s1 k d false g _ u true H1) as (s2 & -> & H2 & E2). simpl.
  destruct (rotate_step s2 k (opposite d) true g u false p o (mk d true x a b) _ H2)
    as (s3 & -> & H3 & E3); [by rewrite !mk_opposite |].
  exists s3. rewrite !mk_opposite in *. split; [done |]. split; [done |].
  eapply evolves_trans; [exact E1 |]. eapply evolves_trans; [exact E2 | exact E3].
Qed.

Lemma insert_turn_spec s k d d' x l r p o g u n cu :
  at_ s (Frame d true p o :: Frame d' false g u :: k) (Branch true l x r) ->
  rbt false n l -> rbt false n r -> rbt false n o -> rbt cu n u -> is_red_tree u = false ->
  exists s' t', insert_turn x p g d' s = Some s' /\ at_ s' k t' /\ rbt false (S n) t' /\
    evolves s (plug (Frame d true p o :: Frame d' false g u :: k) (Branch true l x r))
            s' (plug k t').
Proof.
  intros H Hl Hr Ho Hu Hub. rewrite (rbt_color _ _ _ Hu) in Hub. subst cu.
  unfold insert_turn. destruct (at_parent _ _ _ _ _ _ _ H) as [-> _]. cbn [mbind option_bind].
  pose proof (at_roots_apart _ _ _ _ _ _ _ H) as Hne. simpl root_of in *.
  assert (x <> 0) as Hx0.
  { destruct (at_zero _ _ _ H) as [H0 _]. simpl in H0. set_solver. }
  specialize (Hne (or_introl Hx0)). rewrite !at_up in H. simpl.
  assert (exists a b, Branch true l x r = mk d' true x a b /\ rbt false n a /\ rbt false n b)
    as (a & b & Hab & Ha & Hb) by (destruct d'; eexists _, _; done).
  rewrite Hab in *. destruct (decide (d = d')) as [-> | Hd].
  - rewrite child_node_at_other. destruct (Z.eqb_spec (root_of o) x); [done |]. simpl.
    destruct (insert_outer s k d' x a b p o g u _ H eq_refl) as (s' & -> & H' & E').
    exists s', (mk d' false p (mk d' true x a b) (mk d' true g o u)).
    split; [done |]. split; [done |]. split; [eauto with rbtree | exact E'].
  - assert (d = opposite d') as -> by (destruct d, d'; done).
    rewrite child_node_at. destruct (Z.eqb_spec x x); [| done]. rewrite !mk_opposite in *.
    destruct (rotate_below s k [Frame d' false g u] d' true p o true x a b _ H eq_refl)
      as (s1 & -> & H1 & E1). simpl in *.
    destruct (insert_outer s1 k d' p o a x b g u _ H1 eq_refl) as (s' & -> & H' & E').
    exists s', (mk d' false x (mk d' true p o a) (mk d' true g b u)).
    split; [done |]. split; [done |]. split; [eauto 10 with rbtree |].
    eapply evolves_trans; [exact E1 | exact E'].
Qed.

(** The recolouring round: parent and uncle become black, the grandparent red. *)
Lemma insert_recolor s k d d' t p o g u T : at_ s k T ->
  T = mk d' false g (mk d true p t o) u -> is_red_tree u = true ->
  exists s' u', (s ← upd_node (root_of u) (with_red false) s;
      s ← upd_node p (with_red false) s; upd_node g (with_red true) s) = Some s' /\
    (forall c n, rbt c n u -> rbt false (S n) u') /\
    at_ s' k (mk d' true g (mk d false p t o) u') /\
    evolves s (plug k T) s' (plug k (mk d' true g (mk d false p t o) u')).
Proof.
  intros H -> Hu. destruct u as [| [] ul up ur]; try done. simpl root_of.
  destruct (recolor_below s k [Frame (opposite d') false g (mk d true p t o)] RB_LEFT true up ul ur
    false _ H) as (s1 & -> & H1 & E1); [simpl; by rewrite mk_opposite |].
  simpl in H1, E1. rewrite !mk_opposite in H1, E1.
  destruct (recolor_below s1 k [Frame d' false g (Branch false ul up ur)] d true p t o false _ H1
    eq_refl) as (s2 & Hs2 & H2 & E2). simpl in Hs2, H2, E2.
  destruct (recolor_step s2 k d' false g _ _ true H2) as (s3 & Hs3 & H3 & E3).
  exists s3, (Branch false ul up ur). cbn [mbind option_bind]. rewrite Hs2. cbn [mbind option_bind].
  split; [done |]. split; [inversion 1; subst; eauto with rbtree |]. split; [done |].
  eapply evolves_trans; [exact E1 |]. eapply evolves_trans; [exact E2 | exact E3].
Qed.

Lemma insert_fixup_spec fuel s k l x r n :
  at_ s k (Branch true l x r) -> rbt false n l -> rbt false n r -> rbk n k ->
  (length k < fuel)%nat ->
  exists s' T' c m, insert_fixup fuel x s = Some s' /\ holds s' T' /\ rbt c m T' /\
    evolves s (plug k (Branch true l x r)) s' T'.
Proof.
  revert s k l x r n. induction fuel as [| fuel IH]; intros s k l x r n H Hl Hr Hk Hf; [lia |].
  cbn [insert_fixup]. destruct (at_node s k RB_LEFT true x l r H) as [-> Hx0].
  cbn [mbind option_bind node_at rb_parent].
  assert (is_red s (parent_of k) = Some (head_red k)) as ->.
  { destruct k as [| [d c p o] k']; [done |]. rewrite at_up in H. apply is_red_at in H.
    by rewrite root_mk, is_red_mk in H. }
  cbn [mbind option_bind]. destruct (head_red k) eqn:Hh; cbn [negb].
  2:{ destruct (rbk_plug n k (Branch true l x r) true) as (c & m & Hm & _); auto with rbtree.
      exists s, (plug k (Branch true l x r)), c, m. rewrite <- at_plug. auto using evolves_refl. }
  destruct (rbk_red_head n k Hk Hh) as (d & p & o & d' & g & u & k' & cu & -> & Ho & Hu & Hk').
  pose proof H as H'. rewrite at_up in H'. pose proof (at_sibling _ _ _ _ _ _ _ H') as Hus.
  destruct (at_parent _ _ _ _ _ _ _ H) as [Hp Hp0]. cbn [parent_of f_ptr]. rewrite Hp.
  cbn [mbind option_bind]. rewrite parent_node_at. cbn [parent_of f_ptr].
  destruct (at_grand _ _ _ _ _ _ _ _ H) as [Hg Hg0]. simpl in Hg, Hg0. rewrite Hg.
  cbn [mbind option_bind].
  pose proof (dir_found _ _ _ _ _ _ _ H') as Hdir. rewrite root_mk in Hdir.
  rewrite Hdir, child_node_at_other, (is_red_at _ _ _ Hus) by auto. cbn [mbind option_bind].
  rewrite at_up in H'. destruct (is_red_tree u) eqn:Hured.
  - destruct (insert_recolor s k' d d' (Branch true l x r) p o g u _ H' eq_refl Hured)
      as (s1 & u' & Hs1 & Hu' & H1 & E1).
    apply bind_Some in Hs1 as (sa & -> & Hs1). apply bind_Some in Hs1 as (sb & Hsb & Hs1).
    cbn [mbind option_bind]. rewrite Hsb. cbn [mbind option_bind]. rewrite Hs1. cbn [mbind option_bind].
    assert (exists l' r', mk d' true g (mk d false p (Branch true l x r) o) u' = Branch true l' g r' /\
      rbt false (S n) l' /\ rbt false (S n) r') as (l' & r' & Heq & Hl' & Hr').
    { destruct d'; do 2 eexists; split; try done; split; eauto with rbtree. }
    rewrite Heq in H1, E1.
    destruct (IH s1 k' l' g r' (S n) H1 Hl' Hr' Hk') as (s' & T' & c & m & -> & Hh' & Hm & E);
      [simpl in Hf; lia |].
    exists s', T', c, m. split; [done |]. split; [done |]. split; [done |].
    eapply evolves_trans; [exact E1 | exact E].
  - destruct (insert_turn_spec s k' d d' x l r p o g u n cu H Hl Hr Ho Hu Hured)
      as (s' & t' & -> & H1 & Ht' & E1).
    destruct (rbk_plug (S n) k' t' false) as (c & m & Hm & _); [done | done | done |].
    exists s', (plug k' t'), c, m. rewrite <- at_plug. auto.
Qed.

(** Every node of the tree is allocated, so paths are shorter than the heap. *)
Lemma rep_dom h parent t q : rep h parent t -> q ∈ inorder t -> q ∈ dom h.
Proof.
  revert parent. induction t as [| c l IHl p r IHr]; intros parent; simpl; [set_solver |].
  intros (Hp & Hl & Hr) Hq. apply elem_of_app in Hq as [Hq | Hq]; [eauto |].
  apply elem_of_cons in Hq as [-> | Hq]; [by eapply elem_of_dom_2 | eauto].
Qed.

Lemma rep_path_dom h k v root q : rep_path h k v root -> q ∈ path_ptrs k -> q ∈ dom h.
Proof.
  revert v. induction k as [| [d c p o] k IH]; intros v; simpl; [set_solver |].
  intros (Hp & Ho & Hk) Hq. apply elem_of_cons in Hq as [-> | Hq]; [by eapply elem_of_dom_2 |].
  apply elem_of_app in Hq as [Hq | Hq]; [by eapply rep_dom | eauto].
Qed.

Lemma at_dom s k t q : at_ s k t -> q ∈ path_ptrs k ++ inorder t -> q ∈ dom (rb_heap s).
Proof.
  intros [Hk Ht _] [Hq | Hq]%elem_of_app; [by eapply rep_path_dom | by eapply rep_dom].
Qed.

Lemma at_size s k t : at_ s k t ->
  (length (path_ptrs k) + length (inorder t) <= size (rb_heap s))%nat.
Proof.
  intros H. rewrite <- length_app, <- size_dom.
  assert (NoDup (path_ptrs k ++ inorder t)) as Hn by (destruct H; by eapply NoDup_cons_1_2).
  rewrite <- (size_list_to_set (C := gset Z)) by done. apply subseteq_size.
  intros q Hq%elem_of_list_to_set. by eapply at_dom.
Qed.

Lemma length_path_ptrs k : (length k <= length (path_ptrs k))%nat.
Proof. induction k as [| f k IH]; simpl; [done |]. rewrite length_app. lia. Qed.

Lemma at_fuel s k t : at_ s k t -> (length k < tree_fuel s)%nat.
Proof.
  intros H%at_size. pose proof (length_path_ptrs k). unfold tree_fuel. lia.
Qed.

(** Filling the hole of a path by an assignment through its link. *)
Definition link_of (k : path) : rb_link :=
  match k with [] => LinkRoot | Frame d _ p _ :: _ => LinkChild p d end.

Lemma store_link_spec s k v x root : rep_path (rb_heap s) k v root -> root = rb_root s ->
  NoDup (path_ptrs k) ->
  exists s', store_link (link_of k) x s = Some s' /\ rep_path (rb_heap s') k x (rb_root s') /\
    unchanged (path_ptrs k) s s' /\ dom (rb_heap s') = dom (rb_heap s).
Proof.
  intros Hk -> Hn. destruct k as [| [d c p o] k]; simpl in *.
  - by exists (set_root x s).
  - destruct Hk as (Hp & Ho & Hk). rewrite (upd_node_eq _ _ _ _ Hp). eexists. split; [done |].
    simpl. rewrite lookup_insert_eq, with_child_node_at. apply NoDup_cons in Hn as [Hn _].
    split_and!; [done | | | |].
    + apply (rep_ext (rb_heap s)); [| done]. intros q Hq. apply lookup_insert_ne. set_solver.
    + apply (rep_path_ext (rb_heap s)); [| done]. intros q Hq. apply lookup_insert_ne. set_solver.
    + intros q Hq. apply lookup_insert_ne. set_solver.
    + apply dom_insert_lookup_L. by eexists.
Qed.

(** [tree->root->red = false]. *)
Lemma blacken_root s T c m : holds s T -> T <> Leaf -> rbt c m T ->
  exists s' T' m', upd_node (rb_root s) (with_red false) s = Some s' /\ holds s' T' /\
    rbt false m' T' /\ evolves s T s' T'.
Proof.
  intros H Hne Hm. destruct T as [| cT l p r]; [done |].
  assert (rb_root s = p) as -> by by destruct H.
  destruct (recolor_step s [] RB_LEFT cT p l r false H) as (s' & -> & H' & E).
  exists s', (Branch false l p r). inversion Hm; subst; eauto 10 with rbtree.
Qed.

Lemma rb_insert_spec s k node n x :
  at_ s k Leaf -> rbt false n (plug k Leaf) ->
  rb_heap s !! node = Some x -> node <> 0 -> node ∉ path_ptrs k ->
  exists s' T' m, rb_insert (parent_of k) (link_of k) node s = Some s' /\ holds s' T' /\
    rbt false m T' /\ inorder T' = before k ++ node :: after k /\
    unchanged (node :: path_ptrs k) s s' /\ dom (rb_heap s') = dom (rb_heap s).
Proof.
  intros [Hk _ Hn] Hb Hx Hx0 Hfr. unfold rb_insert. rewrite (upd_node_eq _ _ _ _ Hx).
  cbn [mbind option_bind]. set (s1 := RbTree _ _).
  rewrite app_nil_r in Hn.
  assert (forall q, q <> node -> rb_heap s1 !! q = rb_heap s !! q) as Hs1
    by (intros q Hq; by apply lookup_insert_ne).
  destruct (store_link_spec s1 k 0 node (rb_root s1)) as (s2 & -> & Hk2 & Hs2 & Hd2);
    [| done | by apply NoDup_cons in Hn as [_ ?] |].
  { apply (rep_path_ext (rb_heap s)); [| done]. intros q Hq. apply Hs1. set_solver. }
  cbn [mbind option_bind].
  destruct (rbk_unplug k Leaf n Hb) as (m & c & Hkm & Hleaf & _). inversion Hleaf; subst.
  assert (at_ s2 k (Branch true Leaf node Leaf)) as H2.
  { constructor; [done | |].
    - simpl. rewrite Hs2 by done. unfold s1. simpl. rewrite lookup_insert_eq. done.
    - simpl. rewrite <- Permutation_cons_append, NoDup_cons, NoDup_cons.
      apply NoDup_cons in Hn. set_solver. }
  destruct (insert_fixup_spec (tree_fuel s2) s2 k Leaf node Leaf 0 H2) as
    (s3 & T3 & c3 & m3 & -> & H3 & Hm3 & E3); [done | done | done | by eapply at_fuel |].
  cbn [mbind option_bind]. pose proof (ev_order _ _ _ _ E3) as Ho. rewrite inorder_plug in Ho.
  destruct (blacken_root s3 T3 c3 m3 H3) as (s4 & T4 & m4 & -> & H4 & Hm4 & E4);
    [intros ->; symmetry in Ho; simpl in Ho; by apply app_nil in Ho as [_ ?] | done |].
  pose proof (evolves_trans _ _ _ _ _ _ E3 E4) as [E5 E6 E7].
  exists s4, T4, m4. split; [done |]. split; [done |]. split; [done |]. split_and!.
  - by rewrite E5, inorder_plug.
  - intros q Hq. rewrite E6, Hs2, Hs1; [done | set_solver | set_solver |].
    rewrite path_ptrs_perm. simpl. set_solver.
  - rewrite E7, Hd2. unfold s1. simpl. apply dom_insert_lookup_L. by eexists.
Qed.
