(* ===== verification/RbtreeRemove.v ===== *)
(** * Removal from a red-black tree

    The repair loop of [remove_fixup] and the unlinking of [rb_remove], on the
    trees of RbtreeFacts; the traversals; the sequence of addresses a tree
    stands for and what each operation does to it; and the depth of a tree. *)

From stdpp Require Import base list option gmap.
From Stdlib Require Import ZArith Lia.
From S2P Require Import Prelude Rbtree RbtreeFacts.
Open Scope Z_scope.

(** [node->red = false] on the root of a subtree. *)
Definition black (t : tree) : tree :=
  match t with Leaf => Leaf | Branch _ l p r => Branch false l p r end.

(** A subtree that lacks one black node: its height is [n] where [S n] is
    due, or it is red and becomes black with the height that is due. *)
Definition short (n : nat) (t : tree) : Prop :=
  rbt false n t \/ is_red_tree t = true /\ rbt false (S n) (black t).

Lemma black_rbt c n t : rbt c n t -> exists m, rbt false m (black t).
Proof. inversion 1; subst; simpl; eauto with rbtree. Qed.

Lemma root_black t : root_of (black t) = root_of t.
Proof. by destruct t. Qed.
Lemma inorder_black t : inorder (black t) = inorder t.
Proof. by destruct t. Qed.

Lemma rbk_plug_black n k t : rbk n k -> rbt false n t -> exists m, rbt false m (plug k t).
Proof.
  intros Hk Ht. destruct (rbk_plug n k t false Hk Ht) as (c & m & Hm & Hc); [done |].
  destruct c; [| by exists m]. rewrite (Hc eq_refl) in *. simpl in *.
  apply rbt_color in Hm, Ht. congruence.
Qed.

(** The position is the root exactly when the path is empty. *)
Lemma at_root s k t : at_ s k t -> (root_of t =? rb_root s) = bool_decide (k = []).
Proof.
  intros H. pose proof H as [Hk _ Hn]. destruct k as [| [d c p o] k].
  { simpl in Hk. rewrite Hk. apply Z.eqb_refl. }
  rewrite bool_decide_eq_false_2 by done. apply Z.eqb_neq.
  assert (rb_root s ∈ path_ptrs (Frame d c p o :: k)) as Hr.
  { clear -Hk. revert Hk. generalize (root_of t). generalize (Frame d c p o) as f.
    induction k as [| f' k IH]; intros f v; destruct f as [d' c' p' o']; simpl.
    - intros (_ & _ & ->). by left.
    - intros (_ & _ & Hk). destruct f' as [d2 c2 p2 o2]. simpl in IH.
      specialize (IH (Frame d2 c2 p2 o2) p' Hk). simpl in IH. set_solver. }
  intros Heq. rewrite <- Heq in Hr. apply NoDup_cons in Hn as [H0 Hn].
  apply NoDup_app in Hn as (_ & Hn & _). destruct t as [| ct l q r].
  - simpl in *. set_solver.
  - apply (Hn _ Hr). simpl. set_solver.
Qed.

(** ** The cases of the loop *)

(** A red sibling: the position gets a red parent and a black sibling. *)
Lemma black_sibling_spec s k d c p o t n :
  at_ s (Frame d c p o :: k) t -> rbk (S n) (Frame d c p o :: k) ->
  exists s' sp a b ca cb c' k', black_sibling p d s = Some (sp, s') /\
    at_ s' (Frame d c' p (mk d false sp a b) :: k') t /\ rbt ca n a /\ rbt cb n b /\
    rbk (S n) (Frame d c' p (mk d false sp a b) :: k') /\
    (k' = k /\ c' = c \/ c' = true) /\
    evolves s (plug (Frame d c p o :: k) t) s' (plug (Frame d c' p (mk d false sp a b) :: k') t).
Proof.
  intros H Hk. unfold black_sibling. destruct (at_parent _ _ _ _ _ _ _ H) as [Hp Hp0].
  rewrite Hp. cbn [mbind option_bind]. rewrite child_node_at_other.
  assert (exists co, rbt co (S n) o /\ (co = true -> c = false)) as (co & Ho & Hco)
    by (inversion Hk; subst; eauto; by exists false).
  assert (o <> Leaf) as Hne by (intros ->; inversion Ho).
  destruct (tree_mk d o Hne) as (cs & sp & a & b & ->). rewrite root_mk.
  pose proof (at_sibling _ _ _ _ _ _ _ H) as Hs. destruct (at_node _ _ _ _ _ _ _ Hs) as [-> _].
  cbn [mbind option_bind]. rewrite red_node_at. destruct cs.
  2:{ apply rbt_black_inv in Ho as (_ & m & ca & cb & [= <-] & Ha & Hb).
      exists s, sp, a, b, ca, cb, c, k. auto 10 using evolves_refl. }
  apply rbt_red_inv in Ho as (-> & Ha & Hb). rewrite (Hco eq_refl) in *.
  assert (rbk (S (S n)) k) as Hk' by (by inversion Hk).
  rewrite at_up in H.
  destruct (recolor_below s k [Frame (opposite d) false p t] d true sp a b false _ H)
    as (s1 & -> & H1 & E1); [simpl; by rewrite mk_opposite |]. simpl in H1, E1.
  rewrite mk_opposite in H1, E1. cbn [mbind option_bind].
  destruct (recolor_step s1 k d false p t _ true H1) as (s2 & -> & H2 & E2). cbn [mbind option_bind].
  destruct (rotate_step s2 k d true p t false sp a b _ H2 eq_refl) as (s3 & -> & H3 & E3).
  cbn [mbind option_bind]. rewrite <- !at_up in H3. destruct (at_parent _ _ _ _ _ _ _ H3) as [-> _].
  cbn [mbind option_bind]. rewrite child_node_at_other.
  assert (a <> Leaf) as Hna by (intros ->; inversion Ha).
  destruct (tree_mk d a Hna) as (c2 & sp2 & a2 & b2 & ->).
  assert (c2 = false) as -> by (apply rbt_color in Ha; by rewrite is_red_mk in Ha).
  pose proof (rbt_black_inv _ _ _ _ _ _ Ha) as (_ & m & ca & cb & [= <-] & Ha2 & Hb2).
  rewrite root_mk. exists s3, sp2, a2, b2, ca, cb, true, (Frame d false sp b :: k).
  split; [done |]. split; [done |]. split; [done |]. split; [done |].
  split; [eauto with rbtree |]. split; [by right |].
  eapply evolves_trans; [exact E1 |]. eapply evolves_trans; [exact E2 | exact E3].
Qed.

(** The far child of the sibling is red. *)
Lemma remove_last s k d c p t cs sp a fp f1 f2 T : at_ s k T ->
  T = mk d c p t (mk d cs sp a (mk d true fp f1 f2)) ->
  exists s', (t ← upd_node sp (with_red c) s; t ← upd_node p (with_red false) t;
      s ← rb_heap t !! sp; t ← upd_node (child s (opposite d)) (with_red false) t;
      rotate p d t) = Some s' /\
    at_ s' k (mk d c sp (mk d false p t a) (mk d false fp f1 f2)) /\
    evolves s (plug k T) s' (plug k (mk d c sp (mk d false p t a) (mk d false fp f1 f2))).
Proof.
  intros H ->.
  destruct (recolor_below s k [Frame (opposite d) c p t] d cs sp a (mk d true fp f1 f2) c _ H)
    as (s1 & -> & H1 & E1); [simpl; by rewrite mk_opposite |]. simpl in H1, E1.
  rewrite mk_opposite in H1, E1. cbn [mbind option_bind].
  destruct (recolor_step s1 k d c p t _ false H1) as (s2 & -> & H2 & E2). cbn [mbind option_bind].
  pose proof H2 as H2'. rewrite <- at_up in H2'. apply at_sibling, at_node in H2' as [-> _].
  cbn [mbind option_bind]. rewrite child_node_at_other, root_mk.
  destruct (recolor_below s2 k [Frame (opposite d) c sp a; Frame (opposite d) false p t] d true fp
    f1 f2 false _ H2) as (s3 & -> & H3 & E3); [simpl; by rewrite !mk_opposite |].
  simpl in H3, E3. rewrite !mk_opposite in H3, E3. cbn [mbind option_bind].
  destruct (rotate_step s3 k d false p t c sp a _ _ H3 eq_refl) as (s4 & -> & H4 & E4).
  exists s4. split; [done |]. split; [done |].
  do 3 (eapply evolves_trans; [eassumption |]). exact E4.
Qed.

Lemma remove_turn_spec s k d c p t sp a b n ca cb : at_ s k (mk d c p t (mk d false sp a b)) ->
  rbt false n t -> rbt ca n a -> rbt cb n b -> ca || cb = true ->
  exists s' t', remove_turn p sp d s = Some s' /\ at_ s' k t' /\
    rbt c (if c then S n else S (S n)) t' /\
    evolves s (plug k (mk d c p t (mk d false sp a b))) s' (plug k t').
Proof.
  intros H Ht Ha Hb Hred. unfold remove_turn.
  pose proof H as H'. rewrite <- at_up in H'. destruct (at_parent _ _ _ _ _ _ _ H') as [Hp _].
  apply at_sibling in H'. destruct (at_node _ _ _ _ _ _ _ H') as [-> _].
  rewrite <- at_up in H'. apply at_sibling, is_red_at in H'.
  cbn [mbind option_bind]. rewrite child_node_at_other, H', (rbt_color _ _ _ Hb).
  cbn [mbind option_bind]. destruct cb; cbn [negb].
  - assert (b <> Leaf) as Hne by (intros ->; inversion Hb).
    destruct (tree_mk d b Hne) as (cf & fp & f1 & f2 & ->).
    assert (cf = true) as -> by (apply rbt_color in Hb; by rewrite is_red_mk in Hb).
    cbn [mbind option_bind]. rewrite Hp. cbn [mbind option_bind]. rewrite red_node_at.
    destruct (remove_last s k d c p t false sp a fp f1 f2 _ H eq_refl) as (s' & -> & H1 & E1).
    apply rbt_red_inv in Hb as (_ & Hf1 & Hf2).
    exists s', (mk d c sp (mk d false p t a) (mk d false fp f1 f2)). split; [done |].
    split; [done |]. split; [destruct c; eauto with rbtree | exact E1].
  - rewrite orb_false_r in Hred. subst ca. rewrite child_node_at.
    assert (a <> Leaf) as Hne by (intros ->; inversion Ha).
    destruct (tree_mk d a Hne) as (cf & ap & a1 & a2 & ->).
    assert (cf = true) as -> by (apply rbt_color in Ha; by rewrite is_red_mk in Ha).
    apply rbt_red_inv in Ha as (_ & Ha1 & Ha2). rewrite root_mk.
    destruct (recolor_below s k [Frame d false sp b; Frame (opposite d) c p t] d true ap a1 a2 false
      _ H) as (s1 & -> & H1 & E1); [simpl; by rewrite mk_opposite |]. simpl in H1, E1.
    rewrite !mk_opposite in H1, E1. cbn [mbind option_bind].
    destruct (recolor_below s1 k [Frame (opposite d) c p t] d false sp (mk d false ap a1 a2) b true _ H1)
      as (s2 & -> & H2 & E2); [simpl; by rewrite mk_opposite |]. simpl in H2, E2.
    rewrite !mk_opposite in H2, E2. cbn [mbind option_bind].
    destruct (rotate_below s2 k [Frame (opposite d) c p t] (opposite d) true sp b false ap a2 a1 _ H2)
      as (s3 & -> & H3 & E3); [simpl; by rewrite !mk_opposite |]. simpl in H3, E3.
    rewrite !mk_opposite in H3, E3. cbn [mbind option_bind].
    pose proof H3 as H3'. rewrite <- at_up in H3'. destruct (at_parent _ _ _ _ _ _ _ H3') as [Hp3 _].
    rewrite Hp3. cbn [mbind option_bind]. rewrite Hp3. cbn [mbind option_bind].
    rewrite child_node_at_other, root_mk, red_node_at.
    destruct (remove_last s3 k d c p t false ap a1 sp a2 b _ H3 eq_refl) as (s' & -> & H4 & E4).
    exists s', (mk d c ap (mk d false p t a1) (mk d false sp a2 b)). split; [done |].
    split; [done |]. split; [destruct c; eauto with rbtree |].
    do 3 (eapply evolves_trans; [eassumption |]). exact E4.
Qed.

(** ** The loop *)

(** What the loop leaves: a position whose blackening makes the tree balanced. *)
Definition repaired (s : rb_tree) (T : tree) (node' : Z) (s' : rb_tree) : Prop :=
  exists k' t' m, at_ s' k' t' /\ node' = root_of t' /\ rbt false m (plug k' (black t')) /\
    evolves s T s' (plug k' t').

Lemma repaired_trans s1 T1 s2 T2 v s3 : evolves s1 T1 s2 T2 -> repaired s2 T2 v s3 ->
  repaired s1 T1 v s3.
Proof.
  intros E (k & t & m & H1 & H2 & H3 & H4). exists k, t, m.
  split_and!; [done | done | done |]. by eapply evolves_trans.
Qed.

(** The loop stops at once on a red node. *)
Lemma remove_loop_red fuel s k t n : (0 < fuel)%nat -> at_ s k t -> is_red_tree t = true ->
  rbt false (S n) (black t) -> rbk (S n) k ->
  exists v, remove_fixup_loop fuel (root_of t) (parent_of k) s = Some (v, s) /\
    repaired s (plug k t) v s.
Proof.
  intros Hf H Hr Ht Hk. exists (root_of t). split.
  - destruct fuel; [lia |]. cbn [remove_fixup_loop]. destruct (root_of t =? rb_root s); [done |].
    rewrite (is_red_at _ _ _ H), Hr. done.
  - destruct (rbk_plug_black (S n) k (black t) Hk Ht) as [m Hm].
    exists k, t, m. split_and!; auto using evolves_refl.
Qed.

(** The colours the loop reads of the sibling's children. *)
Lemma sibling_colors s k d sp a b : at_ s k (mk d false sp a b) ->
  exists n, rb_heap s !! sp = Some n /\
    ((is_red s (rb_left n) = Some (is_red_tree a) /\ is_red s (rb_right n) = Some (is_red_tree b)) \/
     (is_red s (rb_left n) = Some (is_red_tree b) /\ is_red s (rb_right n) = Some (is_red_tree a))).
Proof.
  intros H. destruct (at_node _ _ _ _ _ _ _ H) as [Hn _]. eexists. split; [done |].
  rewrite <- at_up in H. pose proof (is_red_at _ _ _ H) as Ha.
  apply at_sibling, is_red_at in H. destruct d; simpl; auto.
Qed.

(** Both children of the sibling are black: the sibling turns red and the
    parent is the next position. *)
Lemma recolor_sibling s k d c p t sp a b n ca cb :
  at_ s (Frame d c p (mk d false sp a b) :: k) t ->
  rbt false n t -> rbt ca n a -> rbt cb n b -> ca || cb = false ->
  rbk (S n) (Frame d c p (mk d false sp a b) :: k) ->
  exists s' t', upd_node sp (with_red true) s = Some s' /\ at_ s' k t' /\ root_of t' = p /\
    is_red_tree t' = c /\ (rb_parent <$> rb_heap s' !! p) = Some (parent_of k) /\
    rbt false (S n) (black t') /\ (c = false -> rbk (S (S n)) k) /\ (c = true -> rbk (S n) k) /\
    evolves s (plug (Frame d c p (mk d false sp a b) :: k) t) s' (plug k t').
Proof.
  intros H Ht Ha Hb Hc Hk. apply orb_false_iff in Hc as [-> ->]. rewrite at_up in H.
  destruct (recolor_below s k [Frame (opposite d) c p t] d false sp a b true _ H)
    as (s1 & -> & H1 & E1); [simpl; by rewrite mk_opposite |]. simpl in H1, E1.
  rewrite mk_opposite in H1, E1. exists s1, (mk d c p t (mk d true sp a b)).
  rewrite root_mk, is_red_mk. destruct (at_node _ _ _ _ _ _ _ H1) as [-> _]. simpl.
  rewrite parent_node_at. split_and!; try done.
  - destruct d; simpl; eauto with rbtree.
  - intros ->. by inversion Hk.
  - intros ->. by inversion Hk.
Qed.

Lemma remove_fixup_loop_spec fuel s k t n :
  at_ s k t -> rbt false n t -> rbk (S n) k -> (length k < fuel)%nat ->
  exists v s', remove_fixup_loop fuel (root_of t) (parent_of k) s = Some (v, s') /\
    repaired s (plug k t) v s'.
Proof.
  revert s k t n. induction fuel as [| fuel IH]; intros s k t n H Ht Hk Hf; [lia |].
  cbn [remove_fixup_loop]. rewrite (at_root _ _ _ H).
  destruct k as [| [d c p o] k]; [rewrite bool_decide_eq_true_2 by done |
    rewrite bool_decide_eq_false_2 by done].
  { exists (root_of t), s. split; [done |]. exists [], t, n. split_and!; auto using evolves_refl.
    simpl. inversion Ht; subst; simpl; eauto with rbtree. }
  rewrite (is_red_at _ _ _ H), (rbt_color _ _ _ Ht). cbn [mbind option_bind parent_of f_ptr].
  destruct (at_parent _ _ _ _ _ _ _ H) as [-> Hp0]. cbn [mbind option_bind].
  rewrite (dir_found _ _ _ _ _ _ _ H).
  2:{ right. assert (exists co, rbt co (S n) o) as [co Ho] by (inversion Hk; subst; eauto).
      destruct (at_zero _ _ _ H) as [_ H0]. simpl in H0. inversion Ho; subst; simpl in *; set_solver. }
  destruct (black_sibling_spec _ _ _ _ _ _ _ _ H Hk) as
    (s1 & sp & a & b & ca & cb & c' & k' & -> & H1 & Ha & Hb & Hk1 & Hwhich & E1).
  cbn [mbind option_bind]. pose proof H1 as H1s. apply at_sibling in H1s.
  destruct (sibling_colors _ _ _ _ _ _ H1s) as (sn & -> & Hcol). cbn [mbind option_bind].
  rewrite (rbt_color _ _ _ Ha), (rbt_color _ _ _ Hb) in Hcol.
  assert (exists x y, is_red s1 (rb_left sn) = Some x /\ is_red s1 (rb_right sn) = Some y /\
    negb x && negb y = negb (ca || cb)) as (x & y & -> & -> & Hxy).
  { destruct Hcol as [[-> ->] | [-> ->]]; do 2 eexists; split_and!; try done; by destruct ca, cb. }
  cbn [mbind option_bind]. rewrite Hxy. destruct (ca || cb) eqn:Hc; cbn [negb].
  - pose proof H1 as H1'. rewrite at_up in H1'.
    destruct (remove_turn_spec _ _ _ _ _ _ _ _ _ _ _ _ H1' Ht Ha Hb Hc) as (s2 & t2 & -> & H2 & Ht2 & E2).
    exists (rb_root s2), s2. split; [done |]. eapply repaired_trans; [exact E1 |].
    assert (rbk (if c' then S n else S (S n)) k') as Hk2 by (destruct c'; by inversion Hk1).
    rewrite at_plug in H2. destruct (rbk_plug _ k' t2 c' Hk2 Ht2)
      as (c2 & m & Hm & _); [intros ->; by inversion Hk1 |].
    destruct (black_rbt _ _ _ Hm) as [m' Hm']. exists [], (plug k' t2), m'. by destruct H2.
  - destruct (recolor_sibling _ _ _ _ _ _ _ _ _ _ _ _ H1 Ht Ha Hb Hc Hk1) as
      (s2 & t2 & -> & H2 & <- & Hcol2 & Hpar & Ht2 & Hkf & Hkt & E2).
    cbn [mbind option_bind]. destruct (rb_heap s2 !! root_of t2) as [pn |]; [| done].
    simpl in Hpar. simplify_eq. cbn [mbind option_bind]. rewrite Hpar. simpl in Hf.
    destruct (is_red_tree t2) eqn:Hr2.
    + destruct (remove_loop_red fuel s2 k' t2 n) as (v & -> & Hv); [lia | done | done | done | auto |].
      exists v, s2. split; [done |]. do 2 (eapply repaired_trans; [eassumption |]). done.
    + destruct Hwhich as [[-> _] | ?]; [| congruence].
      destruct (IH s2 k t2 (S n)) as (v & s3 & -> & Hv); [done | | auto | lia |].
      { destruct t2 as [| ? ? ? ?]; simpl in *; [done |]. by subst. }
      exists v, s3. split; [done |]. do 2 (eapply repaired_trans; [eassumption |]). done.
Qed.

Lemma remove_fixup_spec s k t n c : at_ s k t -> rbt c n t -> rbk (S n) k ->
  exists s' T' m, remove_fixup (root_of t) (parent_of k) s = Some s' /\ holds s' T' /\
    rbt false m T' /\ evolves s (plug k t) s' T'.
Proof.
  intros H Ht Hk. unfold remove_fixup.
  assert (exists v s', remove_fixup_loop (tree_fuel s) (root_of t) (parent_of k) s = Some (v, s') /\
    repaired s (plug k t) v s') as (v & s1 & -> & k' & t' & m & H1 & -> & Hm & E).
  { destruct c.
    - destruct (remove_loop_red (tree_fuel s) s k t n) as (v & Hv & Hr);
        [unfold tree_fuel; lia | done | by eapply rbt_color | | done | by exists v, s].
      inversion Ht; subst. simpl. eauto with rbtree.
    - by apply (remove_fixup_loop_spec _ _ _ _ n); [done | done | done | eapply at_fuel]. }
  cbn [mbind option_bind]. destruct (at_zero _ _ _ H1) as [H0 _].
  destruct t' as [| c' l p r]; simpl in *.
  - rewrite at_plug in H1. eauto 10.
  - destruct (Z.eqb_spec p 0); [set_solver |]. simpl.
    destruct (recolor_step s1 k' RB_LEFT c' p l r false H1) as (s2 & -> & H2 & E2).
    rewrite at_plug in H2. exists s2, (plug k' (Branch false l p r)), m. split_and!; try done.
    by eapply evolves_trans.
Qed.

(** ** Unlinking a node *)

Lemma transplant_tree s k old o q tv :
  rep_path (rb_heap s) k old (rb_root s) -> rb_heap s !! old = Some o ->
  rb_parent o = parent_of k -> rep (rb_heap s) q tv ->
  NoDup (0 :: old :: path_ptrs k ++ inorder tv) ->
  exists s', transplant old (root_of tv) s = Some s' /\ at_ s' k tv /\
    unchanged (path_ptrs k ++ inorder tv) s s' /\ dom (rb_heap s') = dom (rb_heap s).
Proof.
  intros Hk Ho Hpar Htv Hn.
  assert (NoDup (0 :: path_ptrs k ++ inorder tv)) as Hn'.
  { apply NoDup_cons in Hn as [Hn0 Hn]. apply NoDup_cons in Hn as [_ Hn].
    apply NoDup_cons. set_solver. }
  nodup_facts Hn.
  assert (root_of tv <> 0 -> root_of tv ∈ inorder tv) as Hroot by apply root_of_elem.
  edestruct (transplant_spec s k old (root_of tv)) as (s' & Hs' & Hk' & Hv & Hsame);
    [exact Hk | exact Ho | done | apart | done | apart | apart | | |].
  { destruct (decide (root_of tv = 0)) as [-> | Hne]; [apart | specialize (Hroot Hne); apart]. }
  { intros Hne%Hroot. apply elem_of_dom. by eapply rep_dom. }
  exists s'. split; [done |]. split; [constructor; [done | | done] |].
  - apply (rep_reparent (rb_heap s) _ q (parent_of k)); try done.
    + intros x Hx Hne. apply Hsame; [by intros ? | apart].
    + apply root_zero. apart.
  - split; [| by eapply transplant_dom]. intros x Hx. apply Hsame; [| set_solver].
    intros ->. destruct (decide (root_of tv = 0)); [done | set_solver].
Qed.

(** The leftmost node of a subtree: everything above it is a left child. *)
Lemma leftmost_spec fuel s parent t : rep (rb_heap s) parent t -> (0 ∉ inorder t) ->
  t <> Leaf -> (length (inorder t) <= fuel)%nat ->
  exists k c next r, t = plug k (Branch c Leaf next r) /\ before k = [] /\
    leftmost fuel s (root_of t) = Some next.
Proof.
  revert fuel parent. induction t as [| c l IHl p r _]; intros fuel parent Ht H0 Hne Hf; [done |].
  simpl in *. rewrite length_app in Hf. simpl in Hf. destruct fuel as [| fuel]; [lia |].
  destruct Ht as (Hp & Hl & _). cbn [leftmost]. rewrite Hp. cbn [mbind option_bind rb_left].
  destruct l as [| cl ll lp lr] eqn:El; [by exists [], c, p, r |]. rewrite <- El in *.
  destruct (Z.eqb_spec (root_of l) 0) as [Hz | Hz]; [subst l; simpl in *; set_solver |].
  destruct (IHl fuel p) as (k & c' & next & r' & Hk & Hb & Hlm); [done | set_solver | congruence | lia |].
  exists (k ++ [Frame RB_LEFT c p r]), c', next, r'.
  rewrite plug_app, <- Hk. split; [done |]. split; [| done].
  clear -Hb. induction k as [| [[] ? ? ?] k IH]; simpl in *; [done | auto |].
  by apply app_nil in Hb as [_ [_ ?]%app_nil].
Qed.

Lemma path_ptrs_app k1 k2 : path_ptrs (k1 ++ k2) = path_ptrs k1 ++ path_ptrs k2.
Proof. induction k1 as [| f k1 IH]; simpl; [done |]. by rewrite IH, <- app_assoc. Qed.

(** Taking [next] out of its place below the right child of [node]. *)
Lemma detach_next_spec s k c l node kn cn next rn nx :
  at_ s k (Branch c l node (plug kn (Branch cn Leaf next rn))) ->
  rb_heap s !! next = Some nx ->
  exists s' q rr, detach_next node next nx s =
      Some (parent_of (kn ++ [Frame RB_RIGHT c next l]), s') /\
    rb_heap s' !! node = Some (RbNode (parent_of k) (root_of l) rr c) /\
    rep (rb_heap s') node l /\ rep_path (rb_heap s') k node (rb_root s') /\
    rep (rb_heap s') q (Branch cn Leaf next (plug kn rn)) /\
    unchanged (next :: path_ptrs (kn ++ Frame RB_RIGHT c node l :: k) ++ inorder rn) s s' /\
    dom (rb_heap s') = dom (rb_heap s).
Proof.
  intros H Hnx. unfold detach_next. pose proof H as [Hk (Hnode & Hl & Hr) Hn].
  pose proof H as H'. change (Branch c l node ?x) with (mk RB_RIGHT c node x l) in H'.
  rewrite <- at_up, at_fold in H'.
  destruct (at_node _ _ RB_LEFT cn next Leaf rn H') as [Hnext Hnext0].
  rewrite Hnx in Hnext. simplify_eq. cbn [node_at rb_parent rb_right].
  destruct kn as [| f kn].
  { simpl. rewrite Z.eqb_refl. exists s, node, next. split_and!; try done; apply Hr. }
  assert (NoDup (0 :: next :: path_ptrs ((f :: kn) ++ Frame RB_RIGHT c node l :: k) ++ inorder rn))
    as Hn1.
  { destruct H' as [_ _ Hn']. revert Hn'. apply NoDup_Permutation_proper. simpl.
    solve_Permutation. }
  destruct H' as [Hk' (Hnext' & _ & Hrn) _].
  edestruct (transplant_tree s ((f :: kn) ++ Frame RB_RIGHT c node l :: k) next) as
    (s1 & Hs1 & H1 & Hun1 & Hd1); [exact Hk' | exact Hnx | done | exact Hrn | exact Hn1 |].
  assert (f_ptr f <> node) as Hfn.
  { destruct f as [d0 c0 p0 o0]. simpl in Hn1. rewrite path_ptrs_app in Hn1. nodup_facts Hn1. apart. }
  simpl app at 1 2. cbn [parent_of f_ptr]. destruct (Z.eqb_spec (f_ptr f) node); [done |].
  rewrite Hs1. cbn [mbind option_bind]. rewrite <- at_fold in H1.
  pose proof H1 as H1'. rewrite at_up in H1'.
  pose proof H1' as [Hk1 (Hnode1 & Hl1 & Hr1) Hn2]. rewrite Hnode1. cbn [mbind option_bind rb_right].
  assert (NoDup (0 :: next :: node :: path_ptrs k ++ inorder l ++ inorder (plug (f :: kn) rn)))
    as Hn3.
  { revert Hn1. apply NoDup_Permutation_proper. rewrite path_ptrs_perm, path_ptrs_app. simpl.
    solve_Permutation. }
  assert (rb_heap s1 !! next = rb_heap s !! next) as Hnext1.
  { apply Hun1. apply NoDup_cons in Hn1 as [_ Hn1]. by apply NoDup_cons in Hn1 as [? _]. }
  rewrite Hnx in Hnext1. set (r' := plug (f :: kn) rn) in *.
  rewrite (upd_node_eq _ _ _ _ Hnext1). cbn [mbind option_bind].
  set (s2 := RbTree _ _). assert (rb_heap s2 !! next = Some (RbNode (f_ptr f) 0 (root_of r') cn))
    as Hnext2 by apply lookup_insert_eq.
  rewrite Hnext2. cbn [mbind option_bind rb_right].
  assert (forall x, x <> next -> rb_heap s2 !! x = rb_heap s1 !! x) as Hs2
    by (intros x Hx; by apply lookup_insert_ne).
  nodup_facts Hn3. assert (root_of r' <> 0) as Hr0.
  { assert (r' <> Leaf) by (unfold r'; destruct f as [d0 c0 p0 o0]; simpl; destruct kn
      as [| [[] ? ? ?] ?] using rev_ind; destruct d0; rewrite ?plug_app; done).
    destruct (root_zero r'); [apart | done | done]. }
  destruct (adopt_spec s2 node next r') as (s3 & Hs3 & Hroot3 & Hr3 & Hun3); [| done | apart |].
  { apply (rep_ext (rb_heap s1)); [| done]. intros x Hx. apply Hs2. apart. }
  apply Z.eqb_neq in Hr0. rewrite Hr0 in Hs3. simpl in Hs3. rewrite Hs3. cbn [mbind option_bind].
  assert (dom (rb_heap s2) = dom (rb_heap s1)) as Hdom2
    by (apply dom_insert_lookup_L; by eexists).
  assert (forall x, x ∉ inorder r' -> x <> next -> rb_heap s3 !! x = rb_heap s1 !! x) as Hs13
    by (intros x Hx Hx'; rewrite Hun3 by done; by apply Hs2).
  exists s3, (f_ptr f), (root_of r'). split_and!.
  - done.
  - rewrite Hs13 by apart. done.
  - apply (rep_ext (rb_heap s1)); [| done]. intros x Hx. apply Hs13; apart.
  - rewrite Hroot3. apply (rep_path_ext (rb_heap s1)); [| done]. intros x Hx. apply Hs13; apart.
  - simpl. rewrite Hun3 by apart. done.
  - intros x Hx. rewrite Hs13, Hun1; [done | set_solver | | set_solver].
    unfold r'. rewrite path_ptrs_perm. rewrite path_ptrs_app in Hx. set_solver.
  - rewrite <- Hd1. transitivity (dom (rb_heap s2)); [by eapply upd_node_dom |].
    rewrite Hdom2. done.
Qed.

Lemma replace_node_spec s k c l rr node cn next r q :
  rb_heap s !! node = Some (RbNode (parent_of k) (root_of l) rr c) ->
  rep (rb_heap s) node l -> rep_path (rb_heap s) k node (rb_root s) ->
  rep (rb_heap s) q (Branch cn Leaf next r) -> l <> Leaf ->
  NoDup (0 :: next :: node :: path_ptrs k ++ inorder l ++ inorder r) ->
  exists s', replace_node node next s = Some s' /\ at_ s' k (Branch c l next r) /\
    unchanged (next :: path_ptrs k ++ inorder l ++ inorder r) s s' /\
    dom (rb_heap s') = dom (rb_heap s).
Proof.
  intros Hnode Hl Hk Hnext Hlne Hn. unfold replace_node.
  assert (NoDup (0 :: path_ptrs k ++ inorder (Branch c l next r))) as Hfin.
  { simpl. rewrite <- Permutation_middle.
    apply (sublist_NoDup (0 :: next :: path_ptrs k ++ inorder l ++ inorder r)) in Hn;
      [| by apply sublist_skip, sublist_skip, sublist_cons].
    revert Hn. apply NoDup_Permutation_proper. solve_Permutation. }
  edestruct (transplant_tree s k node) as (s1 & Hs1 & H1 & Hun1 & Hd1);
    [exact Hk | exact Hnode | done | exact Hnext | |].
  { simpl. nodup_facts Hn. rewrite !NoDup_cons, NoDup_app, NoDup_cons. split_and!; auto; apart. }
  simpl in Hs1. rewrite Hs1. cbn [mbind option_bind]. nodup_facts Hn.
  rewrite (Hun1 node), Hnode by (simpl; apart). cbn [mbind option_bind rb_left].
  destruct H1 as [Hk1 (Hnext1 & _ & Hr1) Hn1]. rewrite (upd_node_eq _ _ _ _ Hnext1).
  cbn [mbind option_bind]. set (s2 := RbTree _ _).
  assert (rb_heap s2 !! next = Some (RbNode (parent_of k) (root_of l) (root_of r) cn)) as Hnext2
    by apply lookup_insert_eq.
  rewrite Hnext2. cbn [mbind option_bind rb_left].
  assert (forall x, x <> next -> rb_heap s2 !! x = rb_heap s1 !! x) as Hs2
    by (intros x Hx; by apply lookup_insert_ne).
  assert (dom (rb_heap s2) = dom (rb_heap s1)) as Hd2
    by (apply dom_insert_lookup_L; by eexists).
  destruct (adopt_spec s2 node next l) as (s3 & Hs3 & Hroot3 & Hl3 & Hun3); [| done | apart |].
  { apply (rep_ext (rb_heap s)); [| done]. intros x Hx. rewrite Hs2 by apart.
    apply Hun1. simpl. apart. }
  destruct (Z.eqb_spec (root_of l) 0) as [Hz | _]; simpl in Hs3.
  { destruct (root_zero l); [apart | done | done]. }
  rewrite Hs3. cbn [mbind option_bind].
  rewrite (Hun3 node), (Hs2 node), (Hun1 node), Hnode by (simpl; apart).
  cbn [mbind option_bind rb_red]. assert (rb_heap s3 !! next = rb_heap s2 !! next) as Hnext3
    by (apply Hun3; apart).
  rewrite Hnext2 in Hnext3. rewrite (upd_node_eq _ _ _ _ Hnext3). eexists. split; [done |].
  simpl. set (h4 := <[next := _]> _).
  assert (forall x, x <> next -> x ∉ inorder l -> h4 !! x = rb_heap s1 !! x) as Hh4.
  { intros x Hx Hxl. unfold h4. rewrite lookup_insert_ne, Hun3, Hs2 by done. done. }
  assert (h4 !! next = Some (RbNode (parent_of k) (root_of l) (root_of r) c)) as Hnext4
    by apply lookup_insert_eq.
  split_and!; [constructor; [| | done] | |].
  - simpl. rewrite Hroot3. apply (rep_path_ext (rb_heap s1)); [| done]. intros x Hx. apply Hh4; apart.
  - simpl. split_and!; [done | |].
    + apply (rep_ext (rb_heap s3)); [| done]. intros x Hx. apply lookup_insert_ne. apart.
    + apply (rep_ext (rb_heap s1)); [| done]. intros x Hx. apply Hh4; apart.
  - intros x Hx. simpl. rewrite Hh4, Hun1; [done | simpl; set_solver | set_solver | set_solver].
  - simpl. rewrite <- Hd1, <- Hd2. transitivity (dom (rb_heap s3)); [| by eapply upd_node_dom].
    apply dom_insert_lookup_L. by eexists.
Qed.

(** ** Removal *)

(** A node with at most one child is gone; its only child is in its place. *)
Lemma remove_finish s k t d x cx m : at_ s k t -> rbk m k -> rbt cx m (mk d cx x Leaf t) ->
  exists s' T' n, (if negb cx then remove_fixup (root_of t) (parent_of k) s else Some s) = Some s' /\
    holds s' T' /\ rbt false n T' /\ evolves s (plug k t) s' T'.
Proof.
  intros H Hk Hx. destruct cx; simpl.
  - apply rbt_red_inv in Hx as (_ & _ & Ht). destruct (rbk_plug_black m k t Hk Ht) as [n Hn].
    rewrite at_plug in H. exists s, (plug k t), n. auto using evolves_refl.
  - apply rbt_black_inv in Hx as (_ & m' & cl & ct & -> & _ & Ht). by eapply remove_fixup_spec.
Qed.

Lemma rbk_swap k1 k2 m d c p p' o : rbk m (k1 ++ Frame d c p o :: k2) ->
  rbk m (k1 ++ Frame d c p' o :: k2).
Proof.
  revert m. induction k1 as [| [d1 c1 p1 o1] k1 IH]; intros m; simpl.
  - inversion 1; subst; eauto with rbtree.
  - inversion 1 as [| ? ? ? ? ? Ho Hk Hh Hne | ? ? ? ? ? ? Ho Hk]; subst; [| eauto with rbtree].
    constructor; [done | by apply IH | | by destruct k1]. by destruct k1 as [| [] ?].
Qed.

(** What [rb_remove] promises. *)
Definition removed (s : rb_tree) (k : path) (l : tree) (node : Z) (r : tree) (s' : rb_tree) : Prop :=
  exists T' m, holds s' T' /\ rbt false m T' /\
    inorder T' = before k ++ inorder l ++ inorder r ++ after k /\
    unchanged (path_ptrs k ++ inorder l ++ node :: inorder r) s s' /\
    dom (rb_heap s') = dom (rb_heap s).

(** At most one child: it takes the place of the node. *)
Lemma remove_one_child s k d c node t n :
  at_ s k (mk d c node Leaf t) -> rbt false n (plug k (mk d c node Leaf t)) ->
  exists s', (s ← transplant node (root_of t) s;
      if negb c then remove_fixup (root_of t) (parent_of k) s else Some s) = Some s' /\
    exists T' m, holds s' T' /\ rbt false m T' /\ inorder T' = before k ++ inorder t ++ after k /\
      unchanged (path_ptrs k ++ inorder t) s s' /\ dom (rb_heap s') = dom (rb_heap s).
Proof.
  intros H Hb. destruct (rbk_unplug _ _ _ Hb) as (m & cx & Hk & Hx & _).
  pose proof (rbt_color _ _ _ Hx) as Hcx. rewrite is_red_mk in Hcx. subst cx.
  destruct (at_node _ _ _ _ _ _ _ H) as [Hnode _]. destruct H as [Hkp Ht Hn].
  rewrite root_mk in Hkp. rewrite rep_mk in Ht. destruct Ht as (_ & _ & Ht).
  edestruct (transplant_tree s k node) as (s1 & -> & H1 & Hun & Hd);
    [exact Hkp | exact Hnode | apply parent_node_at | exact Ht | |].
  { rewrite inorder_mk_perm in Hn. simpl in Hn. rewrite app_nil_r in Hn. revert Hn.
    apply NoDup_Permutation_proper. solve_Permutation. }
  cbn [mbind option_bind].
  destruct (remove_finish s1 k t d node c m H1 Hk Hx) as (s2 & T' & n' & -> & H2 & Hn2 & [E1 E2 E3]).
  exists s2. split; [done |]. exists T', n'. split_and!; [done | done | | |].
  - by rewrite E1, inorder_plug.
  - intros q Hq. rewrite E2, Hun; [done | done |]. by rewrite path_ptrs_perm.
  - congruence.
Qed.

(** Two children: the successor takes the place of the node. *)
Lemma remove_two_children s k c l node r n :
  at_ s k (Branch c l node r) -> rbt false n (plug k (Branch c l node r)) ->
  l <> Leaf -> r <> Leaf ->
  exists s', (next ← leftmost (tree_fuel s) s (root_of r);
      nx ← rb_heap s !! next;
      '(parent, s) ← detach_next node next nx s;
      s ← replace_node node next s;
      if negb (rb_red nx) then remove_fixup (rb_right nx) parent s else Some s) = Some s' /\
    removed s k l node r s'.
Proof.
  intros H Hb Hl Hr. pose proof H as [Hkp (Hnode & Hlp & Hrp) Hn].
  destruct (leftmost_spec (tree_fuel s) s node r) as (kn & cn & next & rn & -> & Hbef & ->);
    [done | destruct (at_zero _ _ _ H); simpl in *; set_solver | done | |].
  { pose proof (at_size _ _ _ H) as Hs. simpl in Hs. rewrite length_app in Hs. simpl in Hs.
    unfold tree_fuel. lia. }
  cbn [mbind option_bind].
  assert (rb_heap s !! next = Some (RbNode (parent_of (kn ++ Frame RB_RIGHT c node l :: k)) 0
    (root_of rn) cn)) as Hnx.
  { change (Branch c l node ?x) with (mk RB_RIGHT c node x l) in H.
    rewrite <- at_up, at_fold in H. by apply (at_node _ _ RB_LEFT) in H as [? _]. }
  rewrite Hnx. cbn [mbind option_bind rb_red rb_right].
  destruct (detach_next_spec _ _ _ _ _ _ _ _ _ _ H Hnx) as
    (s1 & q & rr & -> & Hnode1 & Hl1 & Hk1 & Hr1 & Hun1 & Hd1).
  cbn [mbind option_bind].
  destruct (replace_node_spec s1 k c l rr node cn next (plug kn rn) q) as
    (s2 & -> & H2 & Hun2 & Hd2); [done | done | done | done | done | |].
  { revert Hn. apply NoDup_Permutation_proper. simpl. rewrite !path_ptrs_perm. simpl.
    solve_Permutation. }
  cbn [mbind option_bind].
  change (Branch c l next (plug kn rn)) with (mk RB_RIGHT c next (plug kn rn) l) in H2.
  rewrite <- at_up, at_fold in H2.
  change (Branch c l node ?x) with (mk RB_RIGHT c node x l) in Hb.
  change (plug k (mk RB_RIGHT c node ?x l)) with (plug (Frame RB_RIGHT c node l :: k) x) in Hb.
  rewrite <- plug_app in Hb. destruct (rbk_unplug _ _ _ Hb) as (m & cx & Hk & Hx & _).
  apply (rbk_swap _ _ _ _ _ _ next) in Hk. assert (cx = cn) as -> by by apply rbt_color in Hx.
  destruct (remove_finish s2 _ rn RB_LEFT next cn m H2 Hk Hx) as
    (s3 & T' & n' & Hs3 & H3 & Hn3 & [E1 E2 E3]).
  assert (parent_of (kn ++ Frame RB_RIGHT c next l :: k) =
          parent_of (kn ++ [Frame RB_RIGHT c next l])) as <- by by destruct kn.
  exists s3. split; [done |]. exists T', n'. split_and!; [done | done | | | congruence].
  - rewrite E1, plug_app, inorder_plug. simpl. rewrite !inorder_plug, Hbef. simpl.
    by rewrite <- !app_assoc.
  - intros x Hx'. rewrite path_ptrs_perm in Hx'.
    rewrite E2, Hun2, Hun1; [done | rewrite path_ptrs_app | rewrite path_ptrs_perm |
      rewrite path_ptrs_perm, path_ptrs_app]; simpl in *; set_solver.
Qed.

Lemma rb_remove_spec s k c l node r n :
  at_ s k (Branch c l node r) -> rbt false n (plug k (Branch c l node r)) ->
  exists s', rb_remove node s = Some s' /\ removed s k l node r s'.
Proof.
  intros H Hb. destruct (at_zero _ _ _ H) as [H0 _]. simpl in H0. unfold rb_remove.
  destruct (at_node _ _ RB_LEFT _ _ _ _ H) as [-> _].
  cbn [mbind option_bind node_at rb_left rb_right rb_parent rb_red].
  destruct (Z.eqb_spec (root_of l) 0) as [Hl | Hl]; cbn [negb andb].
  { destruct (root_zero l) as [? | ->]; [set_solver | done |]. cbn [root_of].
    destruct (remove_one_child s k RB_LEFT c node r n H Hb) as (s' & Hs' & T' & m & ? & ? & HT & Hun & ?).
    exists s'. destruct (transplant node (root_of r) s) as [s1 |]; [| done].
    split; [exact Hs' |]. exists T', m. split_and!; try done. intros q Hq. apply Hun. set_solver. }
  destruct (Z.eqb_spec (root_of r) 0) as [Hr | Hr]; cbn [negb andb].
  { destruct (root_zero r) as [? | ->]; [set_solver | done |].
    destruct (remove_one_child s k RB_RIGHT c node l n H Hb) as (s' & Hs' & T' & m & ? & ? & HT & Hun & ?).
    exists s'. destruct (transplant node (root_of l) s) as [s1 |]; [| done].
    split; [exact Hs' |]. exists T', m. split_and!; try done. intros q Hq. apply Hun. set_solver. }
  destruct (remove_two_children s k c l node r n H Hb) as (s' & Hs' & Hrem);
    [by intros -> | by intros -> |].
  exists s'. split; [| done]. revert Hs'.
  destruct (leftmost (tree_fuel s) s (root_of r)) as [next |]; [| done]. cbn [mbind option_bind].
  destruct (rb_heap s !! next) as [nx |]; [| done]. cbn [mbind option_bind].
  destruct (detach_next node next nx s) as [[parent s1] |]; [| done]. cbn [mbind option_bind].
  by destruct (replace_node node next s1).
Qed.

(** ** Traversal *)

Definition first_of (xs : list Z) : Z := default 0 (head xs).

Lemma leftmost_first fuel s parent t : rep (rb_heap s) parent t -> (0 ∉ inorder t) ->
  t <> Leaf -> (length (inorder t) <= fuel)%nat ->
  leftmost fuel s (root_of t) = Some (first_of (inorder t)).
Proof.
  intros H H0 Hne Hf. destruct (leftmost_spec fuel s parent t H H0 Hne Hf) as
    (k & c & next & r & -> & Hb & ->). by rewrite inorder_plug, Hb.
Qed.

Lemma rb_first_spec s T : holds s T -> rb_first s = Some (first_of (inorder T)).
Proof.
  intros H. destruct (at_zero _ _ _ H) as [H0 _]. pose proof (at_size _ _ _ H) as Hs.
  destruct H as [Hk Ht _]. unfold rb_first. simpl in Hk. rewrite Hk.
  destruct (Z.eqb_spec (root_of T) 0) as [Hz | Hz].
  - destruct (root_zero T) as [? | ->]; done.
  - apply (leftmost_first _ _ 0); [done | done | by intros -> | simpl in Hs; unfold tree_fuel; lia].
Qed.

Lemma climb_right_spec fuel s k t : at_ s k t -> t <> Leaf -> (length k < fuel)%nat ->
  climb_right fuel s (root_of t) (parent_of k) = Some (first_of (after k)).
Proof.
  revert k t. induction fuel as [| fuel IH]; intros k t H Hne Hf; [lia |]. cbn [climb_right].
  destruct k as [| [d c p o] k]; [done |]. cbn [parent_of f_ptr].
  destruct (at_parent _ _ _ _ _ _ _ H) as [Hp Hp0]. apply Z.eqb_neq in Hp0. rewrite Hp0, Hp.
  cbn [mbind option_bind].
  assert (root_of t <> root_of o) as Hro.
  { apply (at_roots_apart _ _ _ _ _ _ _ H). left. destruct (at_zero _ _ _ H) as [H0 _].
    by destruct (root_zero t). }
  destruct d; cbn [node_at rb_right rb_parent].
  - destruct (Z.eqb_spec (root_of o) (root_of t)); [congruence |]. done.
  - rewrite Z.eqb_refl. rewrite at_up in H. specialize (IH _ _ H). rewrite root_mk in IH.
    apply IH; [done | simpl in Hf; lia].
Qed.

Lemma rb_next_spec s k c l node r : at_ s k (Branch c l node r) ->
  rb_next s node = Some (first_of (inorder r ++ after k)).
Proof.
  intros H. unfold rb_next. destruct (at_node _ _ RB_LEFT _ _ _ _ H) as [-> _].
  cbn [mbind option_bind node_at rb_right rb_parent].
  destruct (at_zero _ _ _ H) as [H0 _]. simpl in H0.
  destruct (Z.eqb_spec (root_of r) 0) as [Hr | Hr]; cbn [negb].
  - destruct (root_zero r) as [? | ->]; [set_solver | done |]. simpl.
    apply (climb_right_spec (tree_fuel s) s k (Branch c l node Leaf)); [done | done |].
    by eapply at_fuel.
  - pose proof (at_size _ _ _ H) as Hs. simpl in Hs. rewrite length_app in Hs. simpl in Hs.
    destruct H as [_ (_ & _ & Ht) _].
    rewrite (leftmost_first _ _ node r); [| done | set_solver | by intros -> | unfold tree_fuel; lia].
    destruct (inorder r) eqn:E; [| done]. destruct r; [done |]. simpl in E.
    by apply app_nil in E as [_ ?].
Qed.

(** ** The sequence a tree stands for *)

(** [rb_seq s xs]: a balanced tree with a black root whose nodes in order are [xs]. *)
Definition rb_seq (s : rb_tree) (xs : list Z) : Prop :=
  exists T n, holds s T /\ rbt false n T /\ inorder T = xs.

Lemma split_unique (x : Z) (a b c d : list Z) : NoDup (a ++ x :: b) ->
  a ++ x :: b = c ++ x :: d -> a = c /\ b = d.
Proof.
  revert c. induction a as [| y a IH]; intros c Hnd Heq; destruct c as [| z c]; simplify_eq/=.
  - done.
  - apply NoDup_cons in Hnd as [Hnd _]. set_solver.
  - apply NoDup_cons in Hnd as [Hnd _]. set_solver.
  - apply NoDup_cons in Hnd as [_ Hnd]. by destruct (IH c Hnd) as [-> ->].
Qed.

(** Every element of the sequence is at some position of the tree. *)
Lemma zipper_at T node xs ys : inorder T = xs ++ node :: ys -> NoDup (inorder T) ->
  exists k c l r, T = plug k (Branch c l node r) /\ xs = before k ++ inorder l /\
    ys = inorder r ++ after k.
Proof.
  intros HT Hnd. assert (node ∈ inorder T) as Hin by (rewrite HT; set_solver).
  assert (exists k c l r, T = plug k (Branch c l node r)) as (k & c & l & r & ->).
  { clear HT Hnd. induction T as [| c l IHl p r IHr]; simpl in Hin; [set_solver |].
    rewrite elem_of_app, elem_of_cons in Hin. destruct Hin as [Hin | [-> | Hin]].
    - destruct (IHl Hin) as (k & c' & l' & r' & ->).
      exists (k ++ [Frame RB_LEFT c p r]), c', l', r'. by rewrite plug_app.
    - by exists [], c, l, r.
    - destruct (IHr Hin) as (k & c' & l' & r' & ->).
      exists (k ++ [Frame RB_RIGHT c p l]), c', l', r'. by rewrite plug_app. }
  exists k, c, l, r. split; [done |].
  assert (inorder (plug k (Branch c l node r)) =
    (before k ++ inorder l) ++ node :: inorder r ++ after k) as Heq
    by (rewrite inorder_plug; simpl; by rewrite <- !app_assoc).
  rewrite Heq in HT, Hnd. by destruct (split_unique node _ _ _ _ Hnd HT) as [-> ->].
Qed.

(** The place between [xs] and [ys]: the link and parent a search ends with. *)
Definition rb_hole (s : rb_tree) (parent : Z) (link : rb_link) (xs ys : list Z) : Prop :=
  exists k, at_ s k Leaf /\ parent = parent_of k /\ link = link_of k /\
    before k = xs /\ after k = ys.

Lemma holds_NoDup s T : holds s T -> NoDup (0 :: inorder T).
Proof. by intros [_ _ ?]. Qed.

Lemma seq_nodup s xs : rb_seq s xs -> NoDup (0 :: xs).
Proof. intros (T & n & H & _ & <-). by apply holds_NoDup in H. Qed.

Lemma seq_dom s xs q : rb_seq s xs -> q ∈ xs -> q ∈ dom (rb_heap s).
Proof. intros (T & n & H & _ & <-) Hq. by eapply at_dom. Qed.

(** The tree of a hole is the tree of the sequence. *)
Lemma rep_unique h parent t t' : rep h parent t -> rep h parent t' -> root_of t = root_of t' ->
  (0 ∉ inorder t) -> (0 ∉ inorder t') -> t = t'.
Proof.
  revert parent t'. induction t as [| c l IHl p r IHr]; intros parent [| c' l' p' r'] H H' Hr H0 H0';
    simpl in *; [done | set_solver | set_solver |]. subst p'.
  destruct H as (Hp & Hl & Hrr), H' as (Hp' & Hl' & Hrr'). rewrite Hp in Hp'. simplify_eq.
  rewrite (IHl p l'), (IHr p r'); [done | done | done | done | set_solver .. ].
Qed.

Lemma holds_unique s T T' : holds s T -> holds s T' -> T = T'.
Proof.
  intros H H'. destruct (at_zero _ _ _ H), (at_zero _ _ _ H').
  destruct H as [Hk Ht _], H' as [Hk' Ht' _]. simpl in *.
  apply (rep_unique (rb_heap s) 0); [done | done | congruence | done | done].
Qed.

Lemma seq_insert s parent link node xs ys zs : rb_seq s zs -> rb_hole s parent link xs ys ->
  node <> 0 -> node ∉ zs -> is_Some (rb_heap s !! node) ->
  zs = xs ++ ys /\
  exists s', rb_insert parent link node s = Some s' /\ rb_seq s' (xs ++ node :: ys) /\
    unchanged (node :: zs) s s' /\ dom (rb_heap s') = dom (rb_heap s).
Proof.
  intros (T & n & HT & Hn & <-) (k & Hk & -> & -> & <- & <-) H0 Hfr [x Hx].
  pose proof (proj1 (at_plug _ _ _) Hk) as Hk'. pose proof (holds_unique _ _ _ HT Hk') as ->.
  split; [by rewrite inorder_plug |].
  assert (path_ptrs k ≡ₚ inorder (plug k Leaf)) as Hperm
    by (rewrite path_ptrs_perm; simpl; by rewrite app_nil_r).
  destruct (rb_insert_spec s k node n x Hk Hn Hx H0) as (s' & T' & m & Hs' & H' & Hm & Ho & Hun & Hd);
    [by rewrite Hperm |].
  exists s'. split; [done |]. split; [by exists T', m |]. split; [| done].
  intros q Hq. apply Hun. by rewrite Hperm.
Qed.

Lemma seq_remove s node xs ys : rb_seq s (xs ++ node :: ys) ->
  exists s', rb_remove node s = Some s' /\ rb_seq s' (xs ++ ys) /\
    unchanged (xs ++ node :: ys) s s' /\ dom (rb_heap s') = dom (rb_heap s).
Proof.
  intros (T & n & HT & Hn & Ho). pose proof (holds_NoDup _ _ HT) as [_ Hnd]%NoDup_cons.
  destruct (zipper_at T node xs ys Ho Hnd) as (k & c & l & r & -> & -> & ->).
  rewrite <- at_plug in HT.
  destruct (rb_remove_spec s k c l node r n HT Hn) as (s' & Hs' & T' & m & H' & Hm & HT' & Hun & Hd).
  exists s'. split; [done |]. split; [exists T', m; by rewrite <- app_assoc |]. split; [| done].
  intros q Hq. apply Hun. rewrite <- Ho, path_ptrs_perm in Hq. done.
Qed.

Lemma seq_first s xs : rb_seq s xs -> rb_first s = Some (first_of xs).
Proof. intros (T & n & HT & Hn & <-). by apply rb_first_spec. Qed.

Lemma seq_next s node xs ys : rb_seq s (xs ++ node :: ys) -> rb_next s node = Some (first_of ys).
Proof.
  intros (T & n & HT & Hn & Ho). pose proof (holds_NoDup _ _ HT) as [_ Hnd]%NoDup_cons.
  destruct (zipper_at T node xs ys Ho Hnd) as (k & c & l & r & -> & -> & ->).
  rewrite <- at_plug in HT. by eapply rb_next_spec.
Qed.

Lemma seq_init t : rb_seq (rb_init t) [].
Proof.
  exists Leaf, 0%nat. split_and!; [constructor; try done | constructor | done].
  simpl. apply NoDup_singleton.
Qed.

Lemma seq_frame t h xs : rb_seq t xs -> (forall q, q ∈ xs -> h !! q = rb_heap t !! q) ->
  rb_seq (RbTree (rb_root t) h) xs.
Proof.
  intros (T & n & [Hk Ht Hnd] & Hn & <-) Hh. exists T, n. split_and!; [| done | done].
  constructor; [done | | done]. by apply (rep_ext (rb_heap t)).
Qed.

(** ** Depth *)

Lemma rbt_size c n t : rbt c n t -> (2 ^ n <= S (length (inorder t)))%nat.
Proof. induction 1; simpl; rewrite ?length_app; simpl; lia. Qed.

(** A path to a position has at most as many red as black nodes. *)
Lemma rbk_depth n k : rbk n k -> forall c t, rbt c n t -> (c = true -> head_red k = false) ->
  exists c' b, rbt c' (n + b) (plug k t) /\
    (length k + (if head_red k then 0 else match k with [] => 0 | _ => 1 end) <= 2 * b)%nat.
Proof.
  induction 1 as [n | n d p o k Ho Hk IH Hh Hne | n d p o co k Ho Hk IH]; intros c t Ht Hc; simpl.
  - exists c, 0%nat. rewrite Nat.add_0_r. split; [done | lia].
  - destruct c; [by discriminate Hc |].
    destruct (IH true (mk d true p t o)) as (c' & b & Hb & Hlen); [by apply rbt_mk_red | done |].
    exists c', b. split; [done |]. rewrite Hh in Hlen. destruct k; [done |]. simpl in *. lia.
  - destruct (IH false (mk d false p t o)) as (c' & b & Hb & Hlen); [by eapply rbt_mk_black | done |].
    exists c', (S b). rewrite Nat.add_succ_r. split; [done |]. simpl in *. lia.
Qed.

Lemma seq_depth s xs k t : rb_seq s xs -> at_ s k t ->
  (length k <= 2 * Nat.log2 (S (length xs)))%nat.
Proof.
  intros (T & n & HT & Hn & <-) Hk. pose proof (proj1 (at_plug _ _ _) Hk) as Hk'.
  pose proof (holds_unique _ _ _ HT Hk') as ->.
  destruct (rbk_unplug _ _ _ Hn) as (m & c & Hm & Ht & Hc).
  destruct (rbk_depth m k Hm c t Ht) as (c' & b & Hb & Hlen); [intros Hc'; by destruct (Hc Hc') |].
  apply rbt_size in Hb. assert (b <= Nat.log2 (S (length (inorder (plug k t)))))%nat; [| lia].
  etransitivity; [| by apply Nat.log2_le_mono, Hb]. rewrite Nat.log2_pow2 by lia. lia.
Qed.
