(* ===== verification/RbtreeTheorems.v ===== *)
(** * Theorems on red-black trees

    Every tree that rbtree.c can build is balanced and stands for a sequence of
    nodes, and each operation is the operation on that sequence. *)

From stdpp Require Import base list option gmap.
From Stdlib Require Import ZArith Lia.
From S2P Require Import Prelude Rbtree RbtreeFacts RbtreeRemove.
Open Scope Z_scope.

(** The trees that exist: an initialised one, and what insertions at a place a
    search ended with and removals of linked nodes make of one.  Nodes may be
    allocated and freed as long as they are not linked. *)
Inductive rb_reachable : rb_tree -> Prop :=
| reach_rb_init t : rb_reachable (rb_init t)
| reach_rb_insert t t' xs a b parent link node :
    rb_reachable t -> rb_seq t xs -> rb_hole t parent link a b ->
    node <> 0 -> node ∉ xs -> rb_insert parent link node t = Some t' -> rb_reachable t'
| reach_rb_remove t t' xs node :
    rb_reachable t -> rb_seq t xs -> node ∈ xs -> rb_remove node t = Some t' -> rb_reachable t'
| reach_rb_heap t h xs :
    rb_reachable t -> rb_seq t xs -> (forall q, q ∈ xs -> h !! q = rb_heap t !! q) ->
    rb_reachable (RbTree (rb_root t) h).

Lemma insert_is_Some t parent link node t' : rb_insert parent link node t = Some t' ->
  is_Some (rb_heap t !! node).
Proof. unfold rb_insert, upd_node. by destruct (rb_heap t !! node). Qed.

Lemma rb_reachable_seq t : rb_reachable t -> exists xs, rb_seq t xs.
Proof.
  induction 1 as [t | t t' xs a b parent link node _ _ Hs Hh H0 Hfr Hi | t t' xs node _ _ Hs Hin Hr |
    t h xs _ _ Hs Hh].
  - eauto using seq_init.
  - destruct (seq_insert t parent link node a b xs Hs Hh H0 Hfr) as (_ & s' & Hi' & Hs' & _);
      [by eapply insert_is_Some |]. simplify_eq. eauto.
  - apply list_elem_of_split in Hin as (a & b & ->).
    destruct (seq_remove t node a b Hs) as (s' & Hr' & Hs' & _). simplify_eq. eauto.
  - eauto using seq_frame.
Qed.

(** ** A tree of three nodes *)

Definition demo_heap : gmap Z rb_node :=
  list_to_map ((fun p => (p, RbNode 0 0 0 false)) <$> [16; 32; 48; 64]).
Definition demo_empty : rb_tree := rb_init (RbTree 7 demo_heap).
Definition demo_one : rb_tree := default demo_empty (rb_insert 0 LinkRoot 32 demo_empty).
Definition demo_two : rb_tree := default demo_empty (rb_insert 32 (LinkChild 32 RB_RIGHT) 48 demo_one).
(** The third insertion rotates. *)
Definition demo_three : rb_tree :=
  default demo_empty (rb_insert 48 (LinkChild 48 RB_RIGHT) 64 demo_two).

Lemma demo_three_tree : rb_seq demo_three [32; 48; 64].
Proof.
  exists (Branch false (Branch true Leaf 32 Leaf) 48 (Branch true Leaf 64 Leaf)), 1%nat.
  split_and!; [| eauto 10 with rbtree | done].
  constructor; [done | by vm_compute | simpl; apply (bool_decide_unpack _); by vm_compute].
Qed.

Ltac demo_at := constructor; [done | by vm_compute | simpl; apply (bool_decide_unpack _); by vm_compute].

Lemma demo_three_reachable : rb_reachable demo_three.
Proof.
  assert (rb_reachable demo_one) as H1.
  { apply (reach_rb_insert demo_empty _ [] [] [] 0 LinkRoot 32);
      [apply reach_rb_init | apply seq_init | | done | set_solver | by vm_compute].
    exists []. split_and!; try done. demo_at. }
  assert (rb_reachable demo_two) as H2.
  { apply (reach_rb_insert demo_one _ [32] [32] [] 32 (LinkChild 32 RB_RIGHT) 48);
      [done | | | done | set_solver | by vm_compute].
    - exists (Branch false Leaf 32 Leaf), 1%nat. split_and!; [demo_at | eauto with rbtree | done].
    - exists [Frame RB_RIGHT false 32 Leaf]. split_and!; try done. demo_at. }
  apply (reach_rb_insert demo_two _ [32; 48] [32; 48] [] 48 (LinkChild 48 RB_RIGHT) 64);
    [done | | | done | set_solver | by vm_compute].
  - exists (Branch false Leaf 32 (Branch true Leaf 48 Leaf)), 1%nat.
    split_and!; [demo_at | eauto with rbtree | done].
  - exists [Frame RB_RIGHT true 48 Leaf; Frame RB_RIGHT false 32 Leaf].
    split_and!; try done. demo_at.
Qed.

(** ** Refinement *)

(** C6: every tree built by rbtree.c stands for a sequence of distinct nodes, and
    the operations are those of the sequence: [rb_first] is its first node and
    [rb_next] the successor; [rb_remove] of any node, and [rb_insert] of a new
    node at the place between two neighbours, complete without touching an
    unallocated node, leave a balanced tree for the shorter or longer sequence
    and change no node outside it. *)
Theorem rbtree_refines_sequence t : rb_reachable t ->
  exists xs, rb_seq t xs /\ rb_first t = Some (first_of xs) /\
    (forall a x b, xs = a ++ x :: b ->
       rb_next t x = Some (first_of b) /\
       exists t', rb_remove x t = Some t' /\ rb_seq t' (a ++ b) /\ unchanged xs t t') /\
    (forall a b parent link x, rb_hole t parent link a b ->
       x <> 0 -> x ∉ xs -> is_Some (rb_heap t !! x) ->
       xs = a ++ b /\
       exists t', rb_insert parent link x t = Some t' /\ rb_seq t' (a ++ x :: b) /\
         unchanged (x :: xs) t t').
Proof.
  intros [xs Hs]%rb_reachable_seq. exists xs. split; [done |]. split; [by apply seq_first |]. split.
  - intros a x b ->. split; [by eapply seq_next |].
    destruct (seq_remove t x a b Hs) as (t' & ? & ? & ? & _). eauto.
  - intros a b parent link x Hh H0 Hfr Hx.
    destruct (seq_insert t parent link x a b xs Hs Hh H0 Hfr Hx) as (? & t' & ? & ? & ? & _). eauto 10.
Qed.

Lemma rbtree_refines_sequence_witness : exists xs, rb_seq demo_three xs /\
  rb_first demo_three = Some (first_of xs) /\ rb_next demo_three 48 = Some 64 /\
  rb_first demo_three = Some 32.
Proof.
  destruct (rbtree_refines_sequence demo_three) as (xs & H1 & H2 & _);
    [apply demo_three_reachable |].
  exists xs. split; [exact H1 |]. split; [exact H2 |]. split; vm_compute; reflexivity.
Defined.

(** ** Depth *)

(** In every tree built by rbtree.c, a place of the tree is at most
    [2 * log2 (n + 1)] links below the root, where [n] is the number of nodes;
    so every loop of the file that walks between a node and the root makes at
    most that many steps. *)
Theorem rbtree_depth t : rb_reachable t ->
  exists xs, rb_seq t xs /\ forall k sub, at_ t k sub -> (length k <= 2 * Nat.log2 (S (length xs)))%nat.
Proof. intros [xs Hs]%rb_reachable_seq. exists xs. split; [done |]. intros k sub. by apply seq_depth. Qed.

Lemma rbtree_depth_witness : exists xs, rb_seq demo_three xs /\
  (length [Frame RB_RIGHT false 48 (Branch true Leaf 32 Leaf)] <= 2 * Nat.log2 (S (length xs)))%nat.
Proof.
  destruct (rbtree_depth demo_three demo_three_reachable) as (xs & Hs & Hd). exists xs. split; [exact Hs |].
  apply (Hd _ (Branch true Leaf 64 Leaf)). demo_at.
Defined.
