(* ===== verification/Hashmap.v ===== *)
(** * Chained hash map: utils/list/list.c

    Keys and values are pointers (0 is null).  A bucket is the list of its
    entries in chain order.  The hash and comparison functions are arguments of
    every operation, as they are function pointers of the map; the destructors
    are observed as the list of their calls.  Allocation failure is an argument
    of the operations that allocate. *)

From stdpp Require Import base list option.
From Stdlib Require Import ZArith Lia.
From S2P Require Import Prelude.
Open Scope Z_scope.

Record map_entry := MapEntry { key : Z; value : Z }.

Record full_map := FullMap {
  buckets : list (list map_entry);
  size : Z;
  capacity : Z;
}.

(** A call of one of the map's destructors. *)
Inductive destroyed := KeyDestroyed (k : Z) | ValueDestroyed (v : Z).

Definition default_hash (k : Z) : Z := k.
Definition default_compare (k1 k2 : Z) : Z := if k1 =? k2 then 0 else 1.

(** [malloc] of the map and [calloc] of the buckets succeed or fail. *)
Definition map_create (malloc_ok calloc_ok : bool) (cap : Z) : option full_map :=
  if negb malloc_ok then None
  else
    let cap := if 0 <? cap then cap else 16 in
    if negb calloc_ok then None
    else Some (FullMap (replicate (Z.to_nat cap) []) 0 cap).

Section ops.
Context (hash_func : Z -> Z) (key_compare : Z -> Z -> Z).

Definition bucket_index (m : full_map) (k : Z) : Z := hash_func k mod capacity m.

(** The walk over a chain: the chain with the value updated, and the old
    value, when the key is there. *)
Fixpoint put_chain (chain : list map_entry) (k v : Z) : option (list map_entry * Z) :=
  match chain with
  | [] => None
  | e :: rest =>
      if key_compare (key e) k =? 0 then Some (MapEntry (key e) v :: rest, value e)
      else '(rest', old) ← put_chain rest k v; Some (e :: rest', old)
  end.

Fixpoint get_chain (chain : list map_entry) (k : Z) : option Z :=
  match chain with
  | [] => None
  | e :: rest => if key_compare (key e) k =? 0 then Some (value e) else get_chain rest k
  end.

Fixpoint remove_chain (chain : list map_entry) (k : Z) : option (list map_entry * map_entry) :=
  match chain with
  | [] => None
  | e :: rest =>
      if key_compare (key e) k =? 0 then Some (rest, e)
      else '(rest', old) ← remove_chain rest k; Some (e :: rest', old)
  end.

(** Returns the status, the map and the destructor calls; the outer [option]
    is a bucket index out of range. *)
Definition map_put (malloc_ok : bool) (m : full_map) (k v : Z)
  : option (Z * full_map * list destroyed) :=
  if k =? 0 then Some (0, m, [])
  else
    let index := bucket_index m k in
    chain ← rd (buckets m) index;
    match put_chain chain k v with
    | Some (chain', old) =>
        bs ← wr (buckets m) index chain';
        Some (1, FullMap bs (size m) (capacity m), [ValueDestroyed old])
    | None =>
        if negb malloc_ok then Some (0, m, [])
        else
          bs ← wr (buckets m) index (MapEntry k v :: chain);
          Some (1, FullMap bs (u64 (size m + 1)) (capacity m), [])
    end.

Definition map_get (m : full_map) (k : Z) : option Z :=
  if k =? 0 then Some 0
  else
    chain ← rd (buckets m) (bucket_index m k);
    Some (default 0 (get_chain chain k)).

Definition map_remove (m : full_map) (k : Z) : option (Z * full_map * list destroyed) :=
  if k =? 0 then Some (0, m, [])
  else
    let index := bucket_index m k in
    chain ← rd (buckets m) index;
    match remove_chain chain k with
    | Some (chain', e) =>
        bs ← wr (buckets m) index chain';
        Some (1, FullMap bs (u64 (size m - 1)) (capacity m),
              [KeyDestroyed (key e); ValueDestroyed (value e)])
    | None => Some (0, m, [])
    end.

(** ** What the map stands for *)

(** The entry of [k], wherever the chains hold it. *)
Definition lookup_key (m : full_map) (k : Z) : option Z :=
  chain ← rd (buckets m) (bucket_index m k); get_chain chain k.

Definition eqk (a b : Z) : bool := key_compare a b =? 0.

Fixpoint chain_distinct (chain : list map_entry) : Prop :=
  match chain with
  | [] => True
  | e :: rest => Forall (fun e' => eqk (key e) (key e') = false) rest /\ chain_distinct rest
  end.

(** Chains hold one entry per key, in the bucket of the key's hash, and [size]
    counts the entries. *)
Record map_wf (m : full_map) : Prop := {
  mw_capacity : 0 < capacity m;
  mw_buckets : Z.of_nat (length (buckets m)) = capacity m;
  mw_place : forall i chain e, rd (buckets m) i = Some chain -> e ∈ chain ->
    key e <> 0 /\ bucket_index m (key e) = i;
  mw_distinct : forall i chain, rd (buckets m) i = Some chain -> chain_distinct chain;
  mw_size : size m = u64 (Z.of_nat (length (concat (buckets m))));
}.

End ops.

Definition destroy_chain (chain : list map_entry) : list destroyed :=
  flat_map (fun e => [KeyDestroyed (key e); ValueDestroyed (value e)]) chain.

(** The loop of [map_destroy] over the buckets from [i], [n] left. *)
Fixpoint destroy_buckets (n : nat) (i : Z) (m : full_map) : option (list destroyed) :=
  match n with
  | O => Some []
  | S n' =>
      chain ← rd (buckets m) i;
      rest ← destroy_buckets n' (i + 1) m;
      Some (destroy_chain chain ++ rest)
  end.

Definition map_destroy (m : full_map) : option (list destroyed) :=
  destroy_buckets (Z.to_nat (capacity m)) 0 m.

(** ** Chains *)

(** What the map relies on from its two function pointers: the comparison is an
    equivalence, and equal keys hash alike. *)
Class KeyFunctions (hash_func : Z -> Z) (key_compare : Z -> Z -> Z) := {
  eqk_refl a : eqk key_compare a a = true;
  eqk_sym a b : eqk key_compare a b = eqk key_compare b a;
  eqk_trans a b c : eqk key_compare a b = true -> eqk key_compare a c = eqk key_compare b c;
  hash_eqk a b : eqk key_compare a b = true -> hash_func a = hash_func b;
}.

Lemma default_eqk a b : eqk default_compare a b = (a =? b).
Proof. unfold eqk, default_compare. by destruct (a =? b). Qed.

#[export] Instance default_key_functions : KeyFunctions default_hash default_compare.
Proof.
  constructor; intros *; rewrite !default_eqk.
  - apply Z.eqb_refl.
  - apply Z.eqb_sym.
  - by intros ->%Z.eqb_eq.
  - by intros ->%Z.eqb_eq.
Qed.

Section facts.
Context (hash_func : Z -> Z) (key_compare : Z -> Z -> Z).
Context `{!KeyFunctions hash_func key_compare}.
#[local] Abbreviation eqk := (eqk key_compare).
#[local] Abbreviation get_chain := (get_chain key_compare).
#[local] Abbreviation put_chain := (put_chain key_compare).
#[local] Abbreviation remove_chain := (remove_chain key_compare).
#[local] Abbreviation chain_distinct := (chain_distinct key_compare).

Lemma eqk_unfold a b : (key_compare a b =? 0) = eqk a b.
Proof. reflexivity. Qed.

Lemma eqk_apart a k k' : eqk a k = false -> eqk a k' = true -> eqk k k' = false.
Proof.
  intros Hk Hk'. rewrite (eqk_sym (hash_func := hash_func) k k').
  by rewrite <- (eqk_trans (hash_func := hash_func) _ _ k Hk').
Qed.

Lemma put_chain_spec chain k v : match put_chain chain k v with
  | Some (chain', old) =>
      get_chain chain k = Some old /\ map key chain' = map key chain /\
      (forall k', get_chain chain' k' = if eqk k k' then Some v else get_chain chain k')
  | None => get_chain chain k = None
  end.
Proof.
  induction chain as [| e chain IH]; [done |]. cbn [Hashmap.put_chain Hashmap.get_chain].
  rewrite !eqk_unfold. destruct (eqk (key e) k) eqn:Hek.
  - split; [done |]. split; [done |]. intros k'. cbn [Hashmap.get_chain key value].
    rewrite eqk_unfold, (eqk_trans (hash_func := hash_func) _ _ k' Hek). by destruct (eqk k k').
  - destruct (put_chain chain k v) as [[chain' old] |]; [| done]. simpl.
    destruct IH as (Hg & Hm & Hk). split; [done |]. split; [by rewrite Hm |].
    intros k'. rewrite !eqk_unfold, Hk. destruct (eqk (key e) k') eqn:Hek'; [| done].
    by rewrite (eqk_apart (key e)).
Qed.

Lemma get_chain_absent chain k : (forall e, e ∈ chain -> eqk (key e) k = false) ->
  get_chain chain k = None.
Proof.
  induction chain as [| e chain IH]; [done |]. intros H. cbn [Hashmap.get_chain].
  rewrite eqk_unfold, H by by left. apply IH. intros e' He'. apply H. by right.
Qed.

Lemma get_chain_present chain k e : e ∈ chain -> eqk (key e) k = true ->
  exists v, get_chain chain k = Some v.
Proof.
  intros He Hk. induction He as [| e e' chain He IH]; cbn [Hashmap.get_chain]; rewrite eqk_unfold.
  - rewrite Hk. eauto.
  - destruct (eqk (key e') k); eauto.
Qed.

Lemma get_chain_eqk chain k k' : eqk k k' = true -> get_chain chain k = get_chain chain k'.
Proof.
  intros Hk. induction chain as [| e chain IH]; [done |]. cbn [Hashmap.get_chain].
  rewrite !eqk_unfold, IH, !(eqk_sym (hash_func := hash_func) (key e)).
  by rewrite (eqk_trans (hash_func := hash_func) _ _ (key e) Hk).
Qed.

Lemma remove_chain_spec chain k : chain_distinct chain -> match remove_chain chain k with
  | Some (chain', e) =>
      (exists a b, chain = a ++ e :: b /\ chain' = a ++ b) /\ eqk (key e) k = true /\
      get_chain chain k = Some (value e) /\
      (forall k', get_chain chain' k' = if eqk k k' then None else get_chain chain k')
  | None => get_chain chain k = None
  end.
Proof.
  induction chain as [| e chain IH]; [done |]. intros [Hd Hds].
  cbn [Hashmap.remove_chain Hashmap.get_chain].
  rewrite !eqk_unfold. destruct (eqk (key e) k) eqn:Hek.
  - split; [by exists [], chain |]. split; [done |]. split; [done |]. intros k'. rewrite eqk_unfold.
    rewrite (eqk_trans (hash_func := hash_func) _ _ k' Hek). destruct (eqk k k') eqn:Hkk; [| done].
    apply get_chain_absent. intros e' He'. rewrite Forall_forall in Hd.
    rewrite (eqk_sym (hash_func := hash_func)).
    rewrite <- (eqk_trans (hash_func := hash_func) _ _ (key e') Hkk).
    rewrite <- (eqk_trans (hash_func := hash_func) _ _ (key e') Hek).
    apply Hd. by apply list_elem_of_In.
  - specialize (IH Hds). destruct (remove_chain chain k) as [[chain' old] |]; [| done].
    rewrite option_bind_Some_fun. destruct IH as ((a & b & -> & ->) & Ho & Hg & Hk).
    split; [by exists (e :: a), b |]. split; [done |]. split; [done |].
    intros k'. cbn [Hashmap.get_chain]. rewrite !eqk_unfold, Hk.
    destruct (eqk (key e) k') eqn:Hek'; [| done].
    by rewrite (eqk_apart (key e)).
Qed.

(** ** Maps *)

#[local] Abbreviation wf := (map_wf hash_func key_compare).
#[local] Abbreviation lookup_key := (lookup_key hash_func key_compare).

Lemma bucket_exists m k : wf m ->
  exists chain, rd (buckets m) (bucket_index hash_func m k) = Some chain.
Proof.
  intros [Hcap Hlen _ _ _]. apply rd_is_Some. rewrite Hlen. by apply Z.mod_pos_bound.
Qed.

Lemma length_concat_wr bs i (c c' : list map_entry) bs' : rd bs i = Some c -> wr bs i c' = Some bs' ->
  Z.of_nat (length (concat bs')) =
  Z.of_nat (length (concat bs)) + (Z.of_nat (length c') - Z.of_nat (length c)).
Proof.
  intros Hr [Hi ->]%wr_Some_inv. unfold rd in Hr. destruct (i <? 0); [done |].
  clear Hi. revert bs Hr. generalize (Z.to_nat i) as n. clear i. intros n bs.
  revert n. induction bs as [| b bs IH]; intros [| n] Hr; [done | done | |].
  - injection Hr as ->. simpl. rewrite !length_app. lia.
  - simpl in *. rewrite !length_app, !Nat2Z.inj_add, (IH n Hr). lia.
Qed.

(** Replacing one bucket by another chain of the same bucket. *)
Lemma replace_bucket m k c c' bs' sz : wf m ->
  rd (buckets m) (bucket_index hash_func m k) = Some c ->
  wr (buckets m) (bucket_index hash_func m k) c' = Some bs' ->
  (forall e, e ∈ c' -> key e <> 0 /\ bucket_index hash_func m (key e) = bucket_index hash_func m k) ->
  chain_distinct c' ->
  sz = u64 (size m + (Z.of_nat (length c') - Z.of_nat (length c))) ->
  wf (FullMap bs' sz (capacity m)) /\
  forall k', lookup_key (FullMap bs' sz (capacity m)) k' =
    if bucket_index hash_func m k' =? bucket_index hash_func m k
    then get_chain c' k' else lookup_key m k'.
Proof.
  intros Hwf Hr Hw Hplace Hdist Hsz. destruct Hwf as [Hcap Hlen Hp Hd Hs]. split.
  - constructor; cbn [buckets size capacity]; [done | | | |].
    + by rewrite (wr_length _ _ _ _ Hw).
    + intros i chain e. rewrite (rd_wr _ _ _ _ _ Hw).
      destruct (Z.eqb_spec i (bucket_index hash_func m k)) as [-> |].
      * intros [= <-] He. by apply Hplace.
      * apply Hp.
    + intros i chain. rewrite (rd_wr _ _ _ _ _ Hw).
      destruct (i =? _); [by intros [= <-] | apply Hd].
    + rewrite (length_concat_wr _ _ _ _ _ Hr Hw), Hsz, Hs. unfold u64, wrap.
      by rewrite Zplus_mod_idemp_l.
  - intros k'. unfold Hashmap.lookup_key. cbn [buckets capacity].
    change (bucket_index hash_func (FullMap bs' sz (capacity m)) k')
      with (bucket_index hash_func m k').
    rewrite (rd_wr _ _ _ _ _ Hw).
    by destruct (bucket_index hash_func m k' =? bucket_index hash_func m k).
Qed.

Lemma eqk_bucket m k k' : eqk k k' = true ->
  bucket_index hash_func m k = bucket_index hash_func m k'.
Proof. intros H. unfold bucket_index. by rewrite (hash_eqk _ _ H). Qed.

Lemma lookup_key_eqk m k k' : eqk k k' = true -> lookup_key m k = lookup_key m k'.
Proof.
  intros H. unfold Hashmap.lookup_key. rewrite (eqk_bucket m k k' H).
  destruct (rd _ _) as [c |]; [| done]. by apply get_chain_eqk.
Qed.

Lemma lookup_key_chain m k c : rd (buckets m) (bucket_index hash_func m k) = Some c ->
  forall k', bucket_index hash_func m k' = bucket_index hash_func m k ->
  lookup_key m k' = get_chain c k'.
Proof. intros Hr k' Hk. unfold Hashmap.lookup_key. by rewrite Hk, Hr. Qed.

(** Deciding by bucket and then by key is deciding by key. *)
Lemma lookup_by_bucket m k (x : option Z) c k' :
  rd (buckets m) (bucket_index hash_func m k) = Some c ->
  (if bucket_index hash_func m k' =? bucket_index hash_func m k
   then if eqk k k' then x else get_chain c k' else lookup_key m k') =
  if eqk k k' then x else lookup_key m k'.
Proof.
  intros Hr. destruct (Z.eqb_spec (bucket_index hash_func m k') (bucket_index hash_func m k)).
  - by rewrite (lookup_key_chain m k c Hr).
  - destruct (eqk k k') eqn:He; [| done]. by apply eqk_bucket with (m := m) in He.
Qed.

Lemma distinct_keys c c' : map key c = map key c' -> chain_distinct c -> chain_distinct c'.
Proof.
  revert c'. induction c as [| e c IH]; intros [| e' c'] Hm; try done.
  injection Hm as He Hm. intros [Hf Hd]. split; [| by apply IH].
  apply (Forall_map key (fun x => eqk (key e') x = false)). rewrite <- Hm, <- He.
  by apply (Forall_map key (fun x => eqk (key e) x = false)).
Qed.

Lemma distinct_remove a e b : chain_distinct (a ++ e :: b) -> chain_distinct (a ++ b).
Proof.
  induction a as [| x a IH]; simpl; [by intros [_ ?] |].
  intros [Hf Hd]. split; [| by apply IH].
  rewrite Forall_app in *. destruct Hf as [? Hf]. split; [done |]. by inversion Hf.
Qed.

(** [map_put] on a valid key: the new value is found under every equal key and
    nothing else changes, or, when the key is new and [malloc] fails, the map
    is as before.  The old value, if any, is destroyed. *)
Lemma map_put_spec ok m k v : wf m -> k <> 0 ->
  exists r m' log, map_put hash_func key_compare ok m k v = Some (r, m', log) /\ wf m' /\
    log = match lookup_key m k with Some old => [ValueDestroyed old] | None => [] end /\
    ((r = 1 /\ (ok = true \/ lookup_key m k <> None) /\
      forall k', lookup_key m' k' = if eqk k k' then Some v else lookup_key m k') \/
     (r = 0 /\ ok = false /\ lookup_key m k = None /\ m' = m)).
Proof.
  intros Hwf Hk. destruct (bucket_exists m k Hwf) as [c Hc]. unfold map_put.
  destruct (Z.eqb_spec k 0); [done |]. rewrite Hc, option_bind_Some_fun.
  pose proof (rd_Some_range _ _ _ Hc) as Hrange.
  assert (forall e, e ∈ c -> key e <> 0 /\ bucket_index hash_func m (key e) =
    bucket_index hash_func m k) as Hplace by (intros e; by apply (mw_place _ _ _ Hwf)).
  pose proof (mw_distinct _ _ _ Hwf _ _ Hc) as Hdist.
  rewrite (lookup_key_chain m k c Hc) by done. pose proof (put_chain_spec c k v) as Hput.
  destruct (put_chain c k v) as [[c' old] |]; [destruct Hput as (Hold & Hkeys & Hget) |];
    [rewrite Hold | rewrite Hput; destruct ok; cbn [negb]].
  - pose proof (wr_is_Some (buckets m) _ c' Hrange) as Hw. rewrite Hw, option_bind_Some_fun.
    destruct (replace_bucket m k c c' _ (size m) Hwf Hc Hw) as [Hwf' Hlk].
    + intros e He. assert (key e ∈ map key c) as (e0 & -> & He0)%list_elem_of_fmap
        by (rewrite <- Hkeys; by apply list_elem_of_fmap_2). by apply Hplace.
    + by apply (distinct_keys c).
    + rewrite <- (length_map key c'), Hkeys, length_map, Z.sub_diag, Z.add_0_r.
      rewrite (mw_size _ _ _ Hwf). unfold u64, wrap. by rewrite Zmod_mod.
    + eexists _, _, _. split; [done |]. split; [done |]. split; [done |]. left.
      split; [done |]. split; [by right |]. intros k'. rewrite Hlk, Hget. by apply lookup_by_bucket.
  - pose proof (wr_is_Some (buckets m) _ (MapEntry k v :: c) Hrange) as Hw.
    rewrite Hw, option_bind_Some_fun.
    destruct (replace_bucket m k c (MapEntry k v :: c) _ (u64 (size m + 1)) Hwf Hc Hw) as [Hwf' Hlk].
    + intros e [-> | He]%elem_of_cons; [done | by apply Hplace].
    + split; [| done]. apply Forall_forall. intros e He%list_elem_of_In. cbn [key].
      apply not_true_is_false. intros Heq. rewrite (eqk_sym (hash_func := hash_func)) in Heq.
      destruct (get_chain_present c k e He Heq). congruence.
    + f_equal. cbn [length]. lia.
    + eexists _, _, _. split; [done |]. split; [done |]. split; [done |]. left.
      split; [done |]. split; [by left |]. intros k'. rewrite Hlk. cbn [Hashmap.get_chain key value].
      rewrite eqk_unfold. by apply lookup_by_bucket.
  - eexists _, _, _. split; [done |]. split; [done |]. split; [done |]. by right.
Qed.

Lemma map_remove_spec m k : wf m -> k <> 0 ->
  exists r m' log, map_remove hash_func key_compare m k = Some (r, m', log) /\ wf m' /\
    (forall k', lookup_key m' k' = if eqk k k' then None else lookup_key m k') /\
    match lookup_key m k with
    | Some old => r = 1 /\ exists k0, eqk k0 k = true /\ log = [KeyDestroyed k0; ValueDestroyed old]
    | None => r = 0 /\ log = []
    end.
Proof.
  intros Hwf Hk. destruct (bucket_exists m k Hwf) as [c Hc]. unfold map_remove.
  destruct (Z.eqb_spec k 0); [done |]. rewrite Hc, option_bind_Some_fun.
  pose proof (rd_Some_range _ _ _ Hc) as Hrange.
  pose proof (mw_distinct _ _ _ Hwf _ _ Hc) as Hdist.
  rewrite (lookup_key_chain m k c Hc) by done. pose proof (remove_chain_spec c k Hdist) as Hrm.
  destruct (remove_chain c k) as [[c' e] |].
  - destruct Hrm as ((a & b & -> & ->) & Hek & Hold & Hget). rewrite Hold.
    pose proof (wr_is_Some (buckets m) _ (a ++ b) Hrange) as Hw. rewrite Hw, option_bind_Some_fun.
    destruct (replace_bucket m k _ (a ++ b) _ (u64 (size m - 1)) Hwf Hc Hw) as [Hwf' Hlk].
    + intros e' He'. apply (mw_place _ _ _ Hwf _ _ e' Hc).
      rewrite elem_of_app, elem_of_cons. apply elem_of_app in He'. tauto.
    + by apply (distinct_remove a e).
    + f_equal. rewrite !length_app. cbn [length]. lia.
    + eexists _, _, _. split; [done |]. split; [done |]. split; [| eauto].
      intros k'. rewrite Hlk, Hget. by apply lookup_by_bucket.
  - rewrite Hrm. eexists _, _, _. split; [done |]. split; [done |]. split; [| done].
    intros k'. destruct (eqk k k') eqn:Hkk; [| done].
    by rewrite <- (lookup_key_eqk m k k'), (lookup_key_chain m k c Hc).
Qed.

Lemma map_get_spec m k : wf m -> k <> 0 ->
  map_get hash_func key_compare m k = Some (default 0 (lookup_key m k)).
Proof.
  intros Hwf Hk. destruct (bucket_exists m k Hwf) as [c Hc].
  unfold map_get, Hashmap.lookup_key. rewrite Hc. by destruct (Z.eqb_spec k 0).
Qed.

Lemma map_create_spec cap m : map_create true true cap = Some m ->
  wf m /\ forall k, lookup_key m k = None.
Proof.
  unfold map_create. cbn [negb]. intros [= <-].
  set (c := if 0 <? cap then cap else 16).
  assert (0 < c) by (unfold c; destruct (Z.ltb_spec 0 cap); lia).
  assert (forall i chain, rd (replicate (Z.to_nat c) []) i = Some chain -> chain = @nil map_entry)
    as Hnil.
  { intros i chain. unfold rd. destruct (i <? 0); [done |].
    by intros [-> _]%lookup_replicate. }
  split.
  - constructor; cbn [buckets capacity size]; [done | | | |].
    + rewrite length_replicate. lia.
    + intros i chain e ->%Hnil. by intros ?%not_elem_of_nil.
    + by intros i chain ->%Hnil.
    + clear. induction (Z.to_nat c) as [| n IH]; [done |]. exact IH.
  - intros k. unfold Hashmap.lookup_key. cbn [buckets].
    destruct (rd _ _) eqn:Hr; [| done]. by rewrite (Hnil _ _ Hr).
Qed.

Lemma destroy_buckets_spec m n i : (i + n <= length (buckets m))%nat ->
  destroy_buckets n (Z.of_nat i) m =
  Some (flat_map destroy_chain (take n (drop i (buckets m)))).
Proof.
  revert i. induction n as [| n IH]; intros i Hi; [done |]. cbn [destroy_buckets].
  destruct (rd_is_Some (buckets m) (Z.of_nat i)) as [c Hc]; [lia |].
  rewrite Hc, option_bind_Some_fun. replace (Z.of_nat i + 1) with (Z.of_nat (S i)) by lia.
  rewrite IH by lia. rewrite option_bind_Some_fun.
  unfold rd in Hc. destruct (Z.of_nat i <? 0); [done |]. rewrite Nat2Z.id in Hc.
  by rewrite (drop_S _ _ _ Hc).
Qed.

(** [map_destroy] calls the destructors on the key and the value of every
    entry, bucket by bucket, each exactly once. *)
Lemma map_destroy_all m : wf m -> map_destroy m = Some (flat_map destroy_chain (buckets m)).
Proof.
  intros [Hcap Hlen _ _ _]. unfold map_destroy.
  etransitivity; [apply (destroy_buckets_spec m _ 0); lia |].
  by rewrite drop_0, take_ge by lia.
Qed.
End facts.

(** ** Properties *)

(** The operations as one step function: status, map and destructor calls. *)
Inductive map_op := Put (ok : bool) (k v : Z) | Remove (k : Z).

Definition run_map_op (hash : Z -> Z) (cmp : Z -> Z -> Z) (op : map_op) (m : full_map) :=
  match op with
  | Put ok k v => map_put hash cmp ok m k v
  | Remove k => map_remove hash cmp m k
  end.

(** A finite map up to key equality, and what each operation does to it. *)
Inductive map_spec (cmp : Z -> Z -> Z) (f : Z -> option Z) : map_op -> Z -> (Z -> option Z) ->
  list destroyed -> Prop :=
| spec_put ok k v f' : k <> 0 -> (ok = true \/ f k <> None) ->
    (forall k', f' k' = if eqk cmp k k' then Some v else f k') ->
    map_spec cmp f (Put ok k v) 1 f'
      match f k with Some old => [ValueDestroyed old] | None => [] end
| spec_put_oom k v f' : k <> 0 -> f k = None -> (forall k', f' k' = f k') ->
    map_spec cmp f (Put false k v) 0 f' []
| spec_remove k old k0 f' : f k = Some old -> k <> 0 -> eqk cmp k0 k = true ->
    (forall k', f' k' = if eqk cmp k k' then None else f k') ->
    map_spec cmp f (Remove k) 1 f' [KeyDestroyed k0; ValueDestroyed old]
| spec_remove_absent k f' : f k = None \/ k = 0 -> (forall k', f' k' = f k') ->
    map_spec cmp f (Remove k) 0 f' []
| spec_put_null ok v f' : (forall k', f' k' = f k') -> map_spec cmp f (Put ok 0 v) 0 f' [].

(** C28: for any hash and comparison functions that agree on which keys are
    equal, [map_put] and [map_remove] of list.c implement a finite map: status,
    contents and destructor calls are those of the abstract step, the chains
    stay duplicate free with every entry in the bucket of its hash, and [size]
    counts the entries.  [map_get] reads the abstract map. *)
Theorem map_simulation hash cmp `{!KeyFunctions hash cmp} m op : map_wf hash cmp m ->
  exists r m' log, run_map_op hash cmp op m = Some (r, m', log) /\ map_wf hash cmp m' /\
    map_spec cmp (lookup_key hash cmp m) op r (lookup_key hash cmp m') log /\
    (forall k, k <> 0 -> map_get hash cmp m' k = Some (default 0 (lookup_key hash cmp m' k))).
Proof.
  intros Hwf. destruct op as [ok k v | k]; cbn [run_map_op]; destruct (Z.eq_dec k 0) as [-> | Hk].
  - exists 0, m, []. split; [done |]. split; [done |].
    split; [by apply spec_put_null | intros; by apply map_get_spec].
  - destruct (map_put_spec hash cmp ok m k v Hwf Hk) as (r & m' & log & -> & Hwf' & -> & Hres).
    eexists _, _, _. split; [done |]. split; [done |]. split; [| intros; by apply map_get_spec].
    destruct Hres as [(-> & Hor & Hlk) | (-> & -> & Hn & ->)].
    + by apply spec_put.
    + rewrite Hn. by apply spec_put_oom.
  - exists 0, m, []. split; [done |]. split; [done |].
    split; [apply spec_remove_absent; auto | intros; by apply map_get_spec].
  - destruct (map_remove_spec hash cmp m k Hwf Hk) as (r & m' & log & -> & Hwf' & Hlk & Hres).
    eexists _, _, _. split; [done |]. split; [done |]. split; [| intros; by apply map_get_spec].
    destruct (lookup_key hash cmp m k) as [old |] eqn:Hf.
    + destruct Hres as (-> & k0 & Hk0 & ->). by eapply spec_remove.
    + destruct Hres as [-> ->]. apply spec_remove_absent; [by left |].
      intros k'. rewrite Hlk. destruct (eqk cmp k k') eqn:He; [| done].
      by rewrite <- (lookup_key_eqk hash cmp m k k').
Qed.

Definition demo_map : full_map := FullMap [[]; [MapEntry 3 30; MapEntry 1 10]] 2 2.

Lemma demo_map_wf : map_wf default_hash default_compare demo_map.
Proof.
  assert (forall i chain, rd (buckets demo_map) i = Some chain ->
    chain = [] \/ i = 1 /\ chain = [MapEntry 3 30; MapEntry 1 10]) as Hrd.
  { intros i chain Hr. pose proof (rd_Some_range _ _ _ Hr) as Hi. cbn in Hi.
    assert (i = 0 \/ i = 1) as [-> | ->] by lia; cbn in Hr; injection Hr as <-; auto. }
  constructor; [done | done | | | done].
  - intros i chain e [-> | [-> ->]]%Hrd; [by intros ?%not_elem_of_nil |].
    intros [-> | [-> | []%not_elem_of_nil]%elem_of_cons]%elem_of_cons; by split.
  - intros i chain [-> | [-> ->]]%Hrd; [done |]. repeat constructor.
Qed.

Lemma map_simulation_witness : exists r m' log,
  run_map_op default_hash default_compare (Remove 1) demo_map = Some (r, m', log) /\
  map_wf default_hash default_compare m' /\
  map_spec default_compare (lookup_key default_hash default_compare demo_map) (Remove 1) r
    (lookup_key default_hash default_compare m') log /\
  (forall k, k <> 0 -> map_get default_hash default_compare m' k =
     Some (default 0 (lookup_key default_hash default_compare m' k))).
Proof. apply (map_simulation default_hash default_compare). apply demo_map_wf. Defined.
