(* ===== verification/Bytes.v ===== *)
(** * Byte strings

    A byte is a [Z] below 256 and a buffer a list of them.  Little- and
    big-endian values of byte strings, reading a range of a buffer, and the
    lemmas on shifting bytes into words that the packet code relies on. *)

From stdpp Require Import base list option.
From Stdlib Require Import ZArith Lia.
From S2P Require Import Prelude.
Open Scope Z_scope.

Definition is_byte (b : Z) : Prop := is_u 8 b.
Abbreviation bytes := (Forall is_byte).

(** For concrete buffers. *)
Lemma bytes_check bs : forallb (fun b => (0 <=? b) && (b <? 256)) bs = true -> bytes bs.
Proof.
  induction bs as [| b bs IH]; [constructor |]. cbn [forallb].
  intros [[H1 H2]%andb_true_iff H3]%andb_true_iff. constructor; [| by apply IH].
  unfold is_byte, is_u. lia.
Qed.

Fixpoint le_val (bs : list Z) : Z :=
  match bs with [] => 0 | b :: bs' => b + 256 * le_val bs' end.

Fixpoint be_acc (acc : Z) (bs : list Z) : Z :=
  match bs with [] => acc | b :: bs' => be_acc (acc * 256 + b) bs' end.
Definition be_val (bs : list Z) : Z := be_acc 0 bs.

(** [n] bytes of [v], least and most significant first. *)
Fixpoint le_bytes (n : nat) (v : Z) : list Z :=
  match n with O => [] | S n' => v mod 256 :: le_bytes n' (v / 256) end.
Definition be_bytes (n : nat) (v : Z) : list Z := rev (le_bytes n v).

(** [memcpy] of [n] bytes at [i]; out of range is a fault. *)
Definition slice {A} (bs : list A) (i n : Z) : option (list A) :=
  if (0 <=? i) && (0 <=? n) && (i + n <=? Z.of_nat (length bs))
  then Some (take (Z.to_nat n) (drop (Z.to_nat i) bs)) else None.

(** [memcpy] of [src] to position [i] of a buffer. *)
Definition splice {A} (bs : list A) (i : Z) (src : list A) : option (list A) :=
  if (0 <=? i) && (i + Z.of_nat (length src) <=? Z.of_nat (length bs))
  then Some (take (Z.to_nat i) bs ++ src ++ drop (Z.to_nat i + length src) bs) else None.

Lemma slice_Some {A} (bs : list A) i n : 0 <= i -> 0 <= n -> i + n <= Z.of_nat (length bs) ->
  slice bs i n = Some (take (Z.to_nat n) (drop (Z.to_nat i) bs)).
Proof.
  intros. unfold slice.
  destruct (Z.leb_spec 0 i), (Z.leb_spec 0 n), (Z.leb_spec (i + n) (Z.of_nat (length bs)));
    done || lia.
Qed.

Lemma splice_Some {A} (bs : list A) i src : 0 <= i ->
  i + Z.of_nat (length src) <= Z.of_nat (length bs) ->
  splice bs i src = Some (take (Z.to_nat i) bs ++ src ++ drop (Z.to_nat i + length src) bs).
Proof.
  intros. unfold splice.
  destruct (Z.leb_spec 0 i), (Z.leb_spec (i + Z.of_nat (length src)) (Z.of_nat (length bs)));
    done || lia.
Qed.

Lemma splice_length {A} (bs : list A) i src bs' : splice bs i src = Some bs' ->
  length bs' = length bs.
Proof.
  unfold splice. destruct (Z.leb_spec 0 i),
    (Z.leb_spec (i + Z.of_nat (length src)) (Z.of_nat (length bs))); try done.
  intros [= <-]. rewrite !length_app, length_take, length_drop. lia.
Qed.

Lemma le_val_range bs : bytes bs -> 0 <= le_val bs < 256 ^ Z.of_nat (length bs).
Proof.
  induction 1 as [| b bs Hb Hbs IH]; [done |]. cbn [le_val length].
  rewrite Nat2Z.inj_succ, Z.pow_succ_r by lia. unfold is_byte, is_u in Hb. lia.
Qed.

Lemma le_val_app xs ys : le_val (xs ++ ys) = le_val xs + 256 ^ Z.of_nat (length xs) * le_val ys.
Proof.
  induction xs as [| x xs IH]; cbn [le_val app length]; [lia |].
  rewrite IH, Nat2Z.inj_succ, Z.pow_succ_r by lia. ring.
Qed.

Lemma le_val_replicate_0 n : le_val (replicate n 0) = 0.
Proof. induction n; cbn [le_val replicate]; lia. Qed.

Lemma be_acc_app acc xs ys : be_acc acc (xs ++ ys) = be_acc (be_acc acc xs) ys.
Proof. revert acc. induction xs; simpl; auto. Qed.

(** Or-ing a small value into the free low bits of a shifted one is adding. *)
Lemma lor_shiftl_add x n c : 0 <= n -> is_u n c -> Z.lor (Z.shiftl x n) c = x * 2 ^ n + c.
Proof.
  intros Hn Hc. apply Z.bits_inj'. intros i Hi.
  rewrite testbit_add_high, Z.lor_spec by done.
  destruct (Z.ltb_spec i n).
  - by rewrite Z.shiftl_spec_low by lia.
  - rewrite Z.shiftl_spec by lia. rewrite (testbit_above n c) by (done || lia).
    apply orb_false_r.
Qed.

Lemma le_bytes_length n v : length (le_bytes n v) = n.
Proof. revert v. induction n; simpl; auto. Qed.

Lemma le_bytes_bytes n v : bytes (le_bytes n v).
Proof.
  revert v. induction n as [| n IH]; intros v; [constructor |]. constructor; [| apply IH].
  apply (Z.mod_pos_bound v 256). lia.
Qed.

Lemma le_val_le_bytes n v : 0 <= v < 256 ^ Z.of_nat n -> le_val (le_bytes n v) = v.
Proof.
  revert v. induction n as [| n IH]; intros v Hv; cbn [le_bytes le_val].
  - rewrite Z.pow_0_r in Hv. lia.
  - rewrite Nat2Z.inj_succ, Z.pow_succ_r in Hv by lia. rewrite IH.
    + pose proof (Z.div_mod v 256). lia.
    + split; [apply Z.div_pos; lia |]. apply Z.div_lt_upper_bound; lia.
Qed.

Lemma be_acc_le acc bs : be_acc acc bs = acc * 256 ^ Z.of_nat (length bs) + le_val (rev bs).
Proof.
  revert acc. induction bs as [| b bs IH]; intros acc; cbn [be_acc rev length].
  - rewrite Z.pow_0_r. simpl. lia.
  - rewrite IH, le_val_app, length_rev, Nat2Z.inj_succ, Z.pow_succ_r by lia. simpl. ring.
Qed.

Lemma be_val_le bs : be_val bs = le_val (rev bs).
Proof. unfold be_val. rewrite be_acc_le. lia. Qed.

Lemma be_val_be_bytes n v : 0 <= v < 256 ^ Z.of_nat n -> be_val (be_bytes n v) = v.
Proof. intros Hv. rewrite be_val_le. unfold be_bytes. rewrite rev_involutive. by apply le_val_le_bytes. Qed.

Lemma be_bytes_length n v : length (be_bytes n v) = n.
Proof. unfold be_bytes. by rewrite length_rev, le_bytes_length. Qed.

Lemma be_bytes_bytes n v : bytes (be_bytes n v).
Proof. apply Forall_rev, le_bytes_bytes. Qed.
