(* ===== verification/VmArea.v ===== *)
(** * Address spaces: the areas of hardware/memory/vm.c

    An address space keeps its areas in a red-black tree ordered by start
    address.  [struct vm_area] is split in two maps with the same keys: the
    embedded tree node lives in the heap of [areas], the other fields in
    [recs].  [malloc] takes its answers from the oracle; the address it returns
    is one that no area of the space has.  The calls through [struct
    vm_file_ops] are recorded as events, in order.  The lock of the space makes
    each operation one step; TLB invalidation has no counterpart. *)

From Stdlib Require Import ZArith Lia Bool.
From stdpp Require Import base list option gmap.
From S2P Require Import Prelude Mmu Pmm Frames PageTable StateMonad Rbtree.
Open Scope Z_scope.
Open Scope prog_scope.

Definition PTE_FRAME : Z := 0x000FFFFFFFFFF000.
Definition PTE_DIRTY : Z := 0x40.
Definition PTE_COW : Z := 0x200.

Definition USER_ADDR_MIN : Z := 0x0000000040000000.
Definition USER_ADDR_LIMIT : Z := 0x0000800000000000.
Definition USER_MMAP_BASE : Z := 0x0000300000000000.
Definition USER_STACK_TOP : Z := 0x00007FFFFFFFF000.
Definition USER_STACK_LIMIT : Z := 8 * 1024 * 1024.

Definition VM_NONE : Z := 0.
Definition VM_READ : Z := 1.
Definition VM_WRITE : Z := 2.
Definition VMA_HEAP : Z := 0x2.
Definition VMA_SHARED : Z := 0x4.
Definition VMA_NO_WRITE : Z := 0x8.
Definition MREMAP_MAYMOVE : Z := 1.

Definition ENOMEM : Z := 12.
Definition EACCES : Z := 13.
Definition EFAULT : Z := 14.
Definition EINVAL : Z := 22.

(** [struct vm_area] without its tree node. *)
Record vm_area := VmArea {
  va_start : Z;
  va_end : Z;
  va_prot : Z;
  va_flags : Z;
  va_fops : Z;
  va_file : Z;
  va_offset : Z;
}.

(** [struct vm_flush]. *)
Record vm_flush := VmFlush {
  fl_ops : Z;
  fl_file : Z;
  fl_offset : Z;
  fl_frame : Z;
}.

(** [struct vm_space]; [pending] is the list from [pending] to [pending_tail]. *)
Record vm_space := VmSpace {
  page_map : Z;
  ref_count : Z;
  areas : rb_tree;
  recs : gmap Z vm_area;
  brk_start : Z;
  brk : Z;
  mmap_base : Z;
  pending : list vm_flush;
}.

(** Calls of the operations of a mapped file. *)
Inductive file_event :=
| Acquire (ops file : Z)
| Release (ops file : Z)
| WriteBack (ops file offset : Z) (data : list Z).

Section vm.
Context {A : Type} `{!Frames A}.

(** What all address spaces share. *)
Record kernel := Kernel {
  machine : phys A;
  mallocs : oracle;
  events : list file_event;
}.

Record state := State { vm : vm_space; ker : kernel }.

Abbreviation V := (prog state).

Definition with_areas (t : rb_tree) (v : vm_space) : vm_space :=
  VmSpace (page_map v) (ref_count v) t (recs v) (brk_start v) (brk v) (mmap_base v) (pending v).
Definition with_recs (r : gmap Z vm_area) (v : vm_space) : vm_space :=
  VmSpace (page_map v) (ref_count v) (areas v) r (brk_start v) (brk v) (mmap_base v) (pending v).
Definition with_brk (b : Z) (v : vm_space) : vm_space :=
  VmSpace (page_map v) (ref_count v) (areas v) (recs v) (brk_start v) b (mmap_base v) (pending v).
Definition with_pending (p : list vm_flush) (v : vm_space) : vm_space :=
  VmSpace (page_map v) (ref_count v) (areas v) (recs v) (brk_start v) (brk v) (mmap_base v) p.
Definition with_ref_count (n : Z) (v : vm_space) : vm_space :=
  VmSpace (page_map v) n (areas v) (recs v) (brk_start v) (brk v) (mmap_base v) (pending v).

Definition set_vm (v : vm_space) (s : state) : state := State v (ker s).
Definition upd_vm (f : vm_space -> vm_space) : V unit := modify (fun s => set_vm (f (vm s)) s).
Definition set_machine (p : phys A) (s : state) : state :=
  State (vm s) (Kernel p (mallocs (ker s)) (events (ker s))).
Definition log (e : file_event) : V unit :=
  modify (fun s => State (vm s)
    (Kernel (machine (ker s)) (mallocs (ker s)) (events (ker s) ++ [e]))).

(** A step of the machine. *)
Definition on_machine {X} (f : phys A -> option (X * phys A)) : V X :=
  fun s => '(x, p) ← f (machine (ker s)); Some (x, set_machine p s).
Definition on_machine_ (f : phys A -> option (phys A)) : V unit :=
  updates (fun s => p ← f (machine (ker s)); Some (set_machine p s)).

(** The answer of the next [malloc]. *)
Definition malloc : V bool :=
  fun s => let '(b, o) := ask (mallocs (ker s)) in
    Some (b, State (vm s) (Kernel (machine (ker s)) o (events (ker s)))).

(** [area_of] is the identity: the node is the first field of the area. *)
Definition get_area (a : Z) : V vm_area := asks (fun s => recs (vm s) !! a).
Definition put_area (a : Z) (r : vm_area) : V unit :=
  updates (fun s => _ ← recs (vm s) !! a; Some (set_vm (with_recs (<[a := r]> (recs (vm s))) (vm s)) s)).

Definition area_next (v : vm_space) (a : Z) : option Z := rb_next (areas v) a.

(** The descent of [area_at_or_after]; null is 0. *)
Fixpoint at_or_after_loop (fuel : nat) (v : vm_space) (addr found n : Z) : option Z :=
  match fuel with
  | O => None
  | S fuel' =>
      if n =? 0 then Some found
      else
        a ← recs v !! n;
        nd ← rb_heap (areas v) !! n;
        if addr <? va_end a then at_or_after_loop fuel' v addr n (rb_left nd)
        else at_or_after_loop fuel' v addr found (rb_right nd)
  end.

Definition area_at_or_after (v : vm_space) (addr : Z) : option Z :=
  at_or_after_loop (S (tree_fuel (areas v))) v addr 0 (rb_root (areas v)).

Definition vm_find (v : vm_space) (addr : Z) : option Z :=
  a ← area_at_or_after v addr;
  if a =? 0 then Some 0
  else r ← recs v !! a; Some (if va_start r <=? addr then a else 0).

Definition vm_range_free (v : vm_space) (start end_ : Z) : option bool :=
  a ← area_at_or_after v start;
  if a =? 0 then Some true
  else r ← recs v !! a; Some (end_ <=? va_start r).

Definition user_range (start end_ : Z) : bool :=
  (USER_ADDR_MIN <=? start) && (end_ <=? USER_ADDR_LIMIT) && (start <? end_).

(** ** Areas *)

(** An address that is not the address of an area, nor null. *)
Definition new_addr (v : vm_space) : Z := fresh (dom (rb_heap (areas v)) ∪ {[0]}).

(** Returns null when [malloc_safe] fails. *)
Definition area_new (start end_ prot flags : Z) : V Z :=
  let* ok := malloc in
  if negb ok then ret 0
  else
    let* a := gets (fun s => new_addr (vm s)) in
    upd_vm (fun v =>
      with_recs (<[a := VmArea start end_ prot flags 0 0 0]> (recs v))
        (with_areas (RbTree (rb_root (areas v)) (<[a := RbNode 0 0 0 false]> (rb_heap (areas v)))) v)) ;;
    ret a.

(** [free(a)]. *)
Definition area_free (a : Z) : V unit :=
  upd_vm (fun v =>
    with_recs (delete a (recs v))
      (with_areas (RbTree (rb_root (areas v)) (delete a (rb_heap (areas v)))) v)).

(** The descent of [area_insert]: the parent and the link it ends with. *)
Fixpoint insert_loop (fuel : nat) (v : vm_space) (start parent : Z) (link : rb_link) (n : Z)
  : option (Z * rb_link) :=
  match fuel with
  | O => None
  | S fuel' =>
      if n =? 0 then Some (parent, link)
      else
        p ← recs v !! n;
        nd ← rb_heap (areas v) !! n;
        let d := to_dir (va_start p <=? start) in
        insert_loop fuel' v start n (LinkChild n d) (child nd d)
  end.

Definition area_insert (a : Z) : V unit :=
  let* r := get_area a in
  let* place := asks (fun s => insert_loop (S (tree_fuel (areas (vm s)))) (vm s) (va_start r) 0
                                 LinkRoot (rb_root (areas (vm s)))) in
  updates (fun s => t ← rb_insert (fst place) (snd place) a (areas (vm s));
                    Some (set_vm (with_areas t (vm s)) s)).

Definition area_remove (a : Z) : V unit :=
  updates (fun s => t ← rb_remove a (areas (vm s)); Some (set_vm (with_areas t (vm s)) s)).

(** [f] is the source area. *)
Definition area_set_file (a : Z) (f : vm_area) (offset : Z) : V unit :=
  let* r := get_area a in
  put_area a (VmArea (va_start r) (va_end r) (va_prot r) (va_flags r) (va_fops f) (va_file f) offset) ;;
  when (negb (va_file f =? 0)) (log (Acquire (va_fops f) (va_file f))).

Definition with_end (e : Z) (r : vm_area) : vm_area :=
  VmArea (va_start r) e (va_prot r) (va_flags r) (va_fops r) (va_file r) (va_offset r).
Definition with_prot (p : Z) (r : vm_area) : vm_area :=
  VmArea (va_start r) (va_end r) p (va_flags r) (va_fops r) (va_file r) (va_offset r).

(** Returns 0 or a negative error number, as the C function. *)
Definition area_split (a at_ : Z) : V Z :=
  let* r := get_area a in
  let* b := area_new at_ (va_end r) (va_prot r) (va_flags r) in
  if b =? 0 then ret (- ENOMEM)
  else
    area_set_file b r (u64 (va_offset r + (at_ - va_start r))) ;;
    let* r := get_area a in
    put_area a (with_end at_ r) ;;
    area_insert b ;;
    ret 0.

(** The loop of [range_isolate] from area [a]. *)
Fixpoint isolate_loop (fuel : nat) (a start end_ : Z) : V Z :=
  match fuel with
  | O => fun _ => None
  | S fuel' =>
      if a =? 0 then ret 0
      else
        let* r := get_area a in
        if negb (va_start r <? end_) then ret 0
        else
          let* err := (if (va_start r <? start) && (start <? va_end r) then area_split a start
                       else if (va_start r <? end_) && (end_ <? va_end r) then area_split a end_
                       else ret 0) in
          if negb (err =? 0) then ret err
          else
            let* next := asks (fun s => area_next (vm s) a) in
            isolate_loop fuel' next start end_
  end.

(** Every round moves on to the next area and at most two areas are added, so
    the number of areas and four more rounds are enough. *)
Definition range_isolate (start end_ : Z) : V Z :=
  let* a := asks (fun s => area_at_or_after (vm s) start) in
  let* fuel := gets (fun s => (tree_fuel (areas (vm s)) + 4)%nat) in
  isolate_loop fuel a start end_.

(** The loop of [find_gap] over the areas from [a]. *)
Fixpoint gap_loop (fuel : nat) (v : vm_space) (candidate len a : Z) : option Z :=
  match fuel with
  | O => None
  | S fuel' =>
      if a =? 0 then Some candidate
      else
        r ← recs v !! a;
        if u64 (candidate + len) <=? va_start r then Some candidate
        else next ← area_next v a; gap_loop fuel' v (va_end r) len next
  end.

(** Returns 0 when there is no room. *)
Definition find_gap (v : vm_space) (len : Z) : option Z :=
  a ← area_at_or_after v (mmap_base v);
  candidate ← gap_loop (tree_fuel (areas v)) v (mmap_base v) len a;
  Some (if u64 (candidate + len) <=? USER_STACK_TOP - USER_STACK_LIMIT then candidate else 0).
End vm.

Arguments kernel : clear implicits.
Arguments state : clear implicits.
