(* ===== verification/VmAreaFacts.v ===== *)
(** * The areas of an address space

    [shape v ls]: the tree of the space holds the areas [ls], in order, disjoint
    and page aligned.  The searches of vm.c are searches in this list, and
    inserting, removing and splitting areas are operations on it.  What a
    process sees is [attr]: the attributes of every address. *)

From Stdlib Require Import ZArith Lia Bool Sorted.
From stdpp Require Import base list option gmap.
From S2P Require Import Prelude Mmu Frames PageTable StateMonad Rbtree RbtreeFacts RbtreeRemove VmArea.
Open Scope Z_scope.
Open Scope prog_scope.

Abbreviation alist := (list (Z * vm_area)).

Definition aligned (x : Z) : Prop := x mod PAGE_SIZE = 0.

Record area_wf (r : vm_area) : Prop := {
  aw_start : aligned (va_start r);
  aw_end : aligned (va_end r);
  aw_order : va_start r < va_end r;
  aw_low : USER_ADDR_MIN <= va_start r;
  aw_high : va_end r <= USER_ADDR_LIMIT;
}.

Definition below (x y : Z * vm_area) : Prop := va_end x.2 <= va_start y.2.

Record areas_wf (ls : alist) : Prop := {
  al_wf : Forall (fun x => area_wf x.2) ls;
  al_sorted : StronglySorted below ls;
}.

Record shape (v : vm_space) (ls : alist) : Prop := {
  sh_seq : rb_seq (areas v) ls.*1;
  sh_recs : forall p r, (p, r) ∈ ls -> recs v !! p = Some r;
  sh_dom : dom (recs v) = dom (rb_heap (areas v));
  sh_areas : areas_wf ls;
}.

(** ** Sorted lists of areas *)

Lemma sorted_app (l1 l2 : alist) : StronglySorted below (l1 ++ l2) <->
  StronglySorted below l1 /\ StronglySorted below l2 /\
  forall x y, x ∈ l1 -> y ∈ l2 -> below x y.
Proof.
  induction l1 as [| x l1 IH]; simpl.
  { split; [intros H; split; [constructor |]; split; [done | set_solver] | by intros (_ & ? & _)]. }
  split.
  - intros H. apply StronglySorted_inv in H as [H1 H2]. apply IH in H1 as (Ha & Hb & Hc).
    rewrite Forall_app in H2. destruct H2 as [H2 H3]. split; [by constructor |]. split; [done |].
    intros y z [-> | Hy]%elem_of_cons Hz; [| by apply Hc]. by eapply Forall_forall in H3.
  - intros (Ha & Hb & Hc). apply StronglySorted_inv in Ha as [Ha Hx]. constructor.
    + apply IH. split; [done |]. split; [done |]. intros y z Hy Hz. apply Hc; [by right | done].
    + apply Forall_app. split; [done |]. apply Forall_forall. intros z Hz. apply Hc; [by left | done].
Qed.

Lemma areas_wf_app l1 l2 : areas_wf (l1 ++ l2) <->
  areas_wf l1 /\ areas_wf l2 /\ forall x y, x ∈ l1 -> y ∈ l2 -> below x y.
Proof.
  split.
  - intros [H1 H2]. rewrite sorted_app in H2. rewrite Forall_app in H1. split_and!; try constructor; tauto.
  - intros ([H1 H2] & [H3 H4] & H5). constructor; [by apply Forall_app | by apply sorted_app].
Qed.

Lemma areas_wf_cons x l : areas_wf (x :: l) <->
  area_wf x.2 /\ areas_wf l /\ forall y, y ∈ l -> below x y.
Proof.
  change (x :: l) with ([x] ++ l). rewrite areas_wf_app. split.
  - intros ([H1 _] & H2 & H3). rewrite Forall_singleton in H1. split_and!; [done | done |].
    intros y. apply H3. by left.
  - intros (H1 & H2 & H3). split_and!; [| done |].
    + constructor; [by constructor | repeat constructor].
    + intros a b ->%list_elem_of_singleton. apply H3.
Qed.

Lemma areas_wf_elem ls x : areas_wf ls -> x ∈ ls -> area_wf x.2.
Proof. intros [H _] Hx. by eapply Forall_forall in H. Qed.

(** ** Searching *)

(** The first area that ends after [addr]. *)
Definition first_after (ls : alist) (addr : Z) : option (Z * vm_area) :=
  head (filter (fun x => addr < va_end x.2) ls).

Lemma first_after_cons x l addr : first_after (x :: l) addr =
  if decide (addr < va_end x.2) then Some x else first_after l addr.
Proof. unfold first_after. rewrite filter_cons. by destruct (decide _). Qed.

Lemma first_after_app l1 l2 addr : first_after (l1 ++ l2) addr =
  match first_after l1 addr with Some x => Some x | None => first_after l2 addr end.
Proof.
  induction l1 as [| x l1 IH]; simpl; [done |]. rewrite !first_after_cons. by destruct (decide _).
Qed.

Lemma first_after_none l addr : (forall x, x ∈ l -> va_end x.2 <= addr) -> first_after l addr = None.
Proof.
  induction l as [| x l IH]; intros H; [done |]. rewrite first_after_cons.
  rewrite decide_False by (specialize (H x ltac:(by left)); lia). apply IH. intros y Hy. apply H. by right.
Qed.

(** The list is split at the area found. *)
Lemma first_after_split ls addr : areas_wf ls ->
  exists l1 l2, ls = l1 ++ l2 /\ (forall x, x ∈ l1 -> va_end x.2 <= addr) /\
    (forall x, x ∈ l2 -> addr < va_end x.2) /\ first_after ls addr = head l2.
Proof.
  intros Hwf. induction ls as [| x ls IH]; [exists [], []; set_solver |].
  apply areas_wf_cons in Hwf as (Hx & Hls & Hb). rewrite first_after_cons.
  destruct (decide (addr < va_end x.2)).
  - exists [], (x :: ls). split; [done |]. split; [set_solver |]. split; [| done].
    intros y [-> | Hy]%elem_of_cons; [done |].
    specialize (Hb y Hy). pose proof (areas_wf_elem _ _ Hls Hy) as [_ _ ? _ _]. unfold below in Hb. lia.
  - destruct (IH Hls) as (l1 & l2 & -> & H1 & H2 & H3). exists (x :: l1), l2. split; [done |].
    split; [| done]. intros y [-> | Hy]%elem_of_cons; [lia | auto].
Qed.

Definition ptr (o : option (Z * vm_area)) : Z := match o with Some x => x.1 | None => 0 end.

(** The tree search below a node, with what was found above it. *)
Lemma at_or_after_tree v addr t parent found fuel (ls : alist) :
  rep (rb_heap (areas v)) parent t -> (0 ∉ inorder t) -> inorder t = ls.*1 ->
  (forall p r, (p, r) ∈ ls -> recs v !! p = Some r) -> areas_wf ls ->
  (length ls < fuel)%nat ->
  at_or_after_loop fuel v addr found (root_of t) =
    Some (match first_after ls addr with Some x => x.1 | None => found end).
Proof.
  revert parent found fuel ls.
  induction t as [| c l IHl p r IHr]; intros parent found fuel ls Ht H0 Hin Hrecs Hwf Hf;
    (destruct fuel as [| fuel]; [lia |]); cbn [at_or_after_loop root_of].
  { simpl in Hin. symmetry in Hin. apply fmap_nil_inv in Hin as ->. done. }
  simpl in Hin, H0. destruct Ht as (Hp & Hl & Hr).
  destruct (Z.eqb_spec p 0); [set_solver |].
  symmetry in Hin. apply fmap_app_inv in Hin as (l1 & l2' & E1 & E2 & ->).
  destruct l2' as [| [p' a] l2]; [done |]. injection E2 as <- E2.
  rewrite (Hrecs p a) by set_solver. rewrite Hp. cbn [mbind option_bind rb_left rb_right].
  apply areas_wf_app in Hwf as (Hwf1 & Hwf2 & Hb). apply areas_wf_cons in Hwf2 as (Ha & Hwf2 & Hb2).
  rewrite length_app in Hf. simpl in Hf. rewrite first_after_app, first_after_cons. cbn [snd].
  destruct (Z.ltb_spec addr (va_end a)) as [Hlt | Hge].
  - rewrite (decide_True _ _ Hlt).
    rewrite (IHl p p fuel l1); [| done | set_solver | done | | done | lia].
    + by destruct (first_after l1 addr).
    + intros q x Hq. apply Hrecs. set_solver.
  - rewrite decide_False by lia. rewrite (first_after_none l1).
    2:{ intros x Hx. assert (below x (p, a)) as Hbx by (apply Hb; [done | by left]).
        unfold below in Hbx. simpl in Hbx, Ha. destruct Ha. lia. }
    rewrite (IHr p found fuel l2); [done | done | set_solver | done | | done | lia].
    intros q x Hq. apply Hrecs. set_solver.
Qed.

Lemma holds_root s T : holds s T -> rb_root s = root_of T.
Proof. by intros [? _ _]. Qed.

Lemma shape_nodup v ls : shape v ls -> NoDup (0 :: ls.*1).
Proof. intros [H _ _ _]. by eapply seq_nodup. Qed.

Lemma shape_length v ls : shape v ls -> (length ls < tree_fuel (areas v))%nat.
Proof.
  intros [(T & n & HT & _ & Ho) _ _ _]. apply at_size in HT. simpl in HT.
  rewrite Ho, length_fmap in HT. unfold tree_fuel. lia.
Qed.

Lemma area_at_or_after_spec v ls addr : shape v ls ->
  area_at_or_after v addr = Some (ptr (first_after ls addr)).
Proof.
  intros Hs. pose proof (shape_length _ _ Hs) as Hlen. pose proof Hs as [(T & n & HT & _ & Ho) Hr _ Hwf].
  unfold area_at_or_after. rewrite (holds_root _ _ HT). destruct (at_zero _ _ _ HT) as [H0 _].
  destruct HT as [_ Ht _].
  by apply (at_or_after_tree v addr T 0 0 _ ls); [| | | | | lia].
Qed.

(** The area an address lies in. *)
Definition covers (r : vm_area) (addr : Z) : Prop := va_start r <= addr < va_end r.

Definition area_of_addr (ls : alist) (addr : Z) : option (Z * vm_area) :=
  match first_after ls addr with
  | Some x => if va_start x.2 <=? addr then Some x else None
  | None => None
  end.

Lemma first_after_elem ls addr x : first_after ls addr = Some x -> x ∈ ls /\ addr < va_end x.2.
Proof.
  unfold first_after. intros H. apply head_Some in H as [l' H].
  assert (x ∈ filter (fun x : Z * vm_area => addr < va_end x.2) ls) as Hx by (rewrite H; by left).
  apply list_elem_of_filter in Hx. tauto.
Qed.

Lemma area_of_addr_Some ls addr x : areas_wf ls ->
  area_of_addr ls addr = Some x <-> x ∈ ls /\ covers x.2 addr.
Proof.
  intros Hwf. unfold area_of_addr, covers. split.
  - destruct (first_after ls addr) as [y |] eqn:E; [| done]. apply first_after_elem in E as [Hin Hlt].
    destruct (Z.leb_spec (va_start y.2) addr); [| done]. intros [= <-]. split; [done | lia].
  - intros [Hx Hc]. destruct (first_after_split ls addr Hwf) as (l1 & l2 & -> & H1 & H2 & ->).
    apply elem_of_app in Hx as [Hx | Hx]; [specialize (H1 x Hx); lia |].
    destruct l2 as [| y l2]; [by apply not_elem_of_nil in Hx |]. cbn [head].
    apply areas_wf_app in Hwf as (_ & Hwf & _). apply areas_wf_cons in Hwf as (Hy & _ & Hb).
    apply elem_of_cons in Hx as [-> | Hx]; [destruct (Z.leb_spec (va_start y.2) addr); [done | lia] |].
    specialize (Hb x Hx). unfold below in Hb. specialize (H2 y ltac:(by left)). lia.
Qed.

Lemma vm_find_spec v ls addr : shape v ls -> vm_find v addr = Some (ptr (area_of_addr ls addr)).
Proof.
  intros Hs. unfold vm_find. rewrite (area_at_or_after_spec _ _ _ Hs). cbn [mbind option_bind].
  unfold area_of_addr. destruct (first_after ls addr) as [x |] eqn:E; [| done]. simpl.
  apply first_after_elem in E as [Hin _]. pose proof (shape_nodup _ _ Hs) as Hnd.
  destruct (Z.eqb_spec x.1 0) as [Hz |].
  { apply NoDup_cons in Hnd as [Hnd _]. destruct Hnd. rewrite <- Hz. by apply list_elem_of_fmap_2. }
  rewrite (sh_recs _ _ Hs x.1 x.2) by by destruct x. simpl. by destruct (va_start x.2 <=? addr).
Qed.

Lemma shape_lookup v ls x : shape v ls -> x ∈ ls -> recs v !! x.1 = Some x.2.
Proof. intros Hs Hx. apply (sh_recs _ _ Hs). by destruct x. Qed.

Lemma shape_nonzero v ls x : shape v ls -> x ∈ ls -> x.1 <> 0.
Proof.
  intros Hs Hx Hz. apply shape_nodup in Hs. apply NoDup_cons in Hs as [Hs _]. apply Hs.
  rewrite <- Hz. by apply list_elem_of_fmap_2.
Qed.

Lemma first_of_ptr (l : alist) : first_of l.*1 = ptr (head l).
Proof. by destruct l. Qed.

Lemma area_next_spec v l1 x l2 : shape v (l1 ++ x :: l2) -> area_next v x.1 = Some (ptr (head l2)).
Proof.
  intros [Hs _ _ _]. unfold area_next. rewrite fmap_app in Hs. simpl in Hs.
  by rewrite (seq_next _ _ _ _ Hs), first_of_ptr.
Qed.

(** No area meets the range. *)
Definition range_clear (ls : alist) (start end_ : Z) : Prop :=
  forall x, x ∈ ls -> va_end x.2 <= start \/ end_ <= va_start x.2.

Lemma vm_range_free_spec v ls start end_ : shape v ls -> start < end_ ->
  exists b, vm_range_free v start end_ = Some b /\ (b = true <-> range_clear ls start end_).
Proof.
  intros Hs Hlt. unfold vm_range_free. rewrite (area_at_or_after_spec _ _ _ Hs).
  cbn [mbind option_bind].
  destruct (first_after_split ls start (sh_areas _ _ Hs)) as (l1 & l2 & -> & H1 & H2 & ->).
  destruct l2 as [| x l2]; cbn [head ptr].
  { exists true. rewrite app_nil_r. split; [done |]. split; [| done]. intros _ x Hx. left. auto. }
  assert (x ∈ l1 ++ x :: l2) as Hx by set_solver.
  pose proof (shape_nonzero _ _ _ Hs Hx) as Hne%Z.eqb_neq. rewrite Hne.
  rewrite (shape_lookup _ _ _ Hs Hx). cbn [mbind option_bind]. eexists. split; [done |].
  rewrite Z.leb_le. split.
  - intros Hle y [Hy | Hy]%elem_of_app; [left; auto |]. right.
    apply elem_of_cons in Hy as [-> | Hy]; [done |].
    pose proof (sh_areas _ _ Hs) as Hwf. apply areas_wf_app in Hwf as (_ & Hwf & _).
    apply areas_wf_cons in Hwf as (Hwx & _ & Hb). specialize (Hb y Hy). unfold below in Hb.
    destruct Hwx. lia.
  - intros Hc. destruct (Hc x Hx) as [Hl | Hl]; [| done]. specialize (H2 x ltac:(by left)). lia.
Qed.

(** ** Inserting and removing *)

(** The descent for a new area ends between the areas that start at or below
    its address and those that start above it. *)
Lemma insert_loop_tree v start t k fuel (ls : alist) :
  at_ (areas v) k t -> inorder t = ls.*1 ->
  (forall p r, (p, r) ∈ ls -> recs v !! p = Some r) -> areas_wf ls -> (length ls < fuel)%nat ->
  exists k' lo hi, insert_loop fuel v start (parent_of k) (link_of k) (root_of t) =
      Some (parent_of k', link_of k') /\ at_ (areas v) k' Leaf /\ ls = lo ++ hi /\
    (forall x, x ∈ lo -> va_start x.2 <= start) /\ (forall x, x ∈ hi -> start < va_start x.2) /\
    before k' = before k ++ lo.*1 /\ after k' = hi.*1 ++ after k.
Proof.
  revert k fuel ls.
  induction t as [| c l IHl p r IHr]; intros k fuel ls Hat Hin Hrecs Hwf Hf;
    (destruct fuel as [| fuel]; [lia |]); cbn [insert_loop root_of].
  { simpl in Hin. symmetry in Hin. apply fmap_nil_inv in Hin as ->. exists k, [], [].
    simpl. rewrite app_nil_r. split_and!; try done; intros x Hx; by apply elem_of_nil in Hx. }
  destruct (at_node _ _ RB_LEFT c p l r Hat) as [Hp Hp0]. apply Z.eqb_neq in Hp0. rewrite Hp0.
  simpl in Hin. symmetry in Hin. apply fmap_app_inv in Hin as (l1 & l2' & E1 & E2 & ->).
  destruct l2' as [| [p' a] l2]; [done |]. injection E2 as <- E2.
  rewrite (Hrecs p a), Hp by set_solver. cbn [mbind option_bind].
  apply areas_wf_app in Hwf as (Hwf1 & Hwf2 & Hb). apply areas_wf_cons in Hwf2 as (Ha & Hwf2 & Hb2).
  rewrite length_app in Hf. simpl in Hf, Ha.
  destruct (Z.leb_spec (va_start a) start) as [Hle | Hgt]; cbn [to_dir child node_at rb_left rb_right].
  - destruct (IHr (Frame RB_RIGHT c p l :: k) fuel l2) as
      (k' & lo & hi & Hl & Hk' & -> & Hlo & Hhi & Hbef & Haft);
      [by apply at_up | done | intros; apply Hrecs; set_solver | done | lia |].
    exists k', (l1 ++ (p, a) :: lo), hi. split; [exact Hl |]. split; [done |].
    split; [by rewrite <- app_assoc |]. split; [| split; [done |]].
    + intros x [Hx | [-> | Hx]%elem_of_cons]%elem_of_app; [| done | auto].
      assert (below x (p, a)) as Hbx by (apply Hb; [done | by left]).
      pose proof (areas_wf_elem _ _ Hwf1 Hx) as [_ _ ? _ _]. unfold below in Hbx. simpl in Hbx. lia.
    + rewrite Hbef, Haft, fmap_app. simpl. rewrite E1, <- !app_assoc. done.
  - destruct (IHl (Frame RB_LEFT c p r :: k) fuel l1) as
      (k' & lo & hi & Hl & Hk' & -> & Hlo & Hhi & Hbef & Haft);
      [by apply at_up | done | intros; apply Hrecs; set_solver | done | lia |].
    exists k', lo, (hi ++ (p, a) :: l2). split; [exact Hl |]. split; [done |].
    split; [by rewrite <- app_assoc |]. split; [done |]. split.
    + intros x [Hx | [-> | Hx]%elem_of_cons]%elem_of_app; [auto | done |].
      specialize (Hb2 x Hx). unfold below in Hb2. simpl in Hb2. destruct Ha. lia.
    + rewrite Hbef, Haft, fmap_app. simpl. rewrite <- app_assoc. by rewrite <- E2.
Qed.

Section progs.
Context {A : Type} `{!Frames A}.
Implicit Types (s : state A).

(** Nothing but the areas, the answers of [malloc] and the log changed. *)
Record same_rest (s s' : state A) : Prop := {
  sr_machine : machine (ker s') = machine (ker s);
  sr_map : page_map (vm s') = page_map (vm s);
  sr_refs : ref_count (vm s') = ref_count (vm s);
  sr_brk_start : brk_start (vm s') = brk_start (vm s);
  sr_brk : brk (vm s') = brk (vm s);
  sr_base : mmap_base (vm s') = mmap_base (vm s);
  sr_pending : pending (vm s') = pending (vm s);
}.

Lemma same_rest_refl s : same_rest s s.
Proof. by constructor. Qed.
Lemma same_rest_trans s1 s2 s3 : same_rest s1 s2 -> same_rest s2 s3 -> same_rest s1 s3.
Proof. intros [] []. constructor; congruence. Qed.

(** ** What [malloc] will grant *)

(** The requests that are granted before the first refusal. *)
Fixpoint grants (o : oracle) : Z := match o with true :: o' => 1 + grants o' | _ => 0 end.
Definition credit s : Z := grants (mallocs (ker s)).

Lemma grants_nonneg o : 0 <= grants o.
Proof. induction o as [| [] o IH]; simpl; lia. Qed.

Lemma area_new_credit start end_ prot flags s a s' : area_new start end_ prot flags s = Some (a, s') ->
  credit s - 1 <= credit s' /\ (a = 0 -> credit s < 1).
Proof.
  unfold area_new, bind, malloc, credit. destruct (mallocs (ker s)) as [| [] o]; cbn.
  - intros [= <- <-]. cbn. lia.
  - intros [= <- <-]. cbn. split; [lia |]. intros E. pose proof (is_fresh (dom (rb_heap (areas (vm s))) ∪ {[0]})) as Hf.
    unfold new_addr in E. rewrite E in Hf. set_solver.
  - intros [= <- <-]. cbn. pose proof (grants_nonneg o). lia.
Qed.

(** Programs that ask for no memory. *)
Lemma put_area_credit a r s u s' : put_area a r s = Some (u, s') -> mallocs (ker s') = mallocs (ker s).
Proof. unfold put_area, updates. intros H. apply bind_Some in H as (x & H & [= _ <-]). by apply bind_Some in H as (? & _ & [= <-]). Qed.

Lemma area_insert_credit a s u s' : area_insert a s = Some (u, s') -> mallocs (ker s') = mallocs (ker s).
Proof.
  unfold area_insert, bind, get_area, asks, updates. intros H. apply bind_Some in H as ([r s1] & H1 & H).
  apply bind_Some in H1 as (? & _ & [= _ <-]). apply bind_Some in H as ([p s2] & H2 & H).
  apply bind_Some in H2 as (? & _ & [= _ <-]). apply bind_Some in H as (t & H & [= _ <-]).
  by apply bind_Some in H as (? & _ & [= <-]).
Qed.

Lemma area_set_file_credit a f off s u s' : area_set_file a f off s = Some (u, s') -> mallocs (ker s') = mallocs (ker s).
Proof.
  unfold area_set_file, bind, get_area, asks. intros H. apply bind_Some in H as ([r s1] & H1 & H).
  apply bind_Some in H1 as (? & _ & [= _ <-]). apply bind_Some in H as ([v s2] & H2%put_area_credit & H).
  rewrite <- H2. unfold when in H. by destruct (negb _); injection H as _ <-.
Qed.

Lemma area_split_credit a at_ s err s' : area_split a at_ s = Some (err, s') ->
  credit s - 1 <= credit s' /\ (err <> 0 -> credit s < 1).
Proof.
  unfold area_split, bind, get_area, asks. intros H. apply bind_Some in H as ([r s1] & H1 & H).
  apply bind_Some in H1 as (? & _ & [= _ <-]). apply bind_Some in H as ([b s2] & [Hc Hz]%area_new_credit & H).
  destruct (Z.eqb_spec b 0) as [-> | Hb]; [injection H as <- <-; split; [done | by intros _; apply Hz] |].
  apply bind_Some in H as ([? s3] & H3%area_set_file_credit & H). apply bind_Some in H as ([r' s4] & H4 & H).
  apply bind_Some in H4 as (? & _ & [= _ <-]). apply bind_Some in H as ([? s5] & H5%put_area_credit & H).
  apply bind_Some in H as ([? s6] & H6%area_insert_credit & [= <- <-]).
  split; [| done]. unfold credit in *. rewrite H6, H5, H3. done.
Qed.

(** An area with record [r] that is allocated but not linked. *)
Definition loose (v : vm_space) (ls : alist) (a : Z) (r : vm_area) : Prop :=
  recs v !! a = Some r /\ a <> 0 /\ a ∉ ls.*1.

Lemma area_new_spec s ls start end_ prot flags : shape (vm s) ls ->
  wp (area_new start end_ prot flags) (fun a s' =>
    same_rest s s' /\ shape (vm s') ls /\ events (ker s') = events (ker s) /\
    (a = 0 /\ vm s' = vm s \/
     loose (vm s') ls a (VmArea start end_ prot flags 0 0 0) /\
     (forall q, q <> a -> recs (vm s') !! q = recs (vm s) !! q) /\
     recs (vm s) !! a = None)) s.
Proof.
  intros [Hseq Hrecs Hdom Hwf]. unfold area_new. apply wp_bind. unfold malloc, wp at 1.
  destruct (ask (mallocs (ker s))) as [[] o]; cbn [negb].
  2:{ apply wp_ret. split; [by constructor |]. split; [by constructor |]. split; [done |]. by left. }
  apply wp_bind, wp_gets, wp_bind, wp_modify, wp_ret. cbn.
  set (a := new_addr (vm s)).
  assert ((a ∉ dom (rb_heap (areas (vm s)))) /\ a <> 0) as [Hfr H0].
  { pose proof (is_fresh (dom (rb_heap (areas (vm s))) ∪ {[0]})) as Hf.
    change (fresh _) with a in Hf. set_solver. }
  assert (recs (vm s) !! a = None) as Hnone by (apply not_elem_of_dom; by rewrite Hdom).
  assert (a ∉ ls.*1) as Hnew by (intros Hin; by apply Hfr, (seq_dom _ _ _ Hseq)).
  split; [by constructor |]. split; [| split; [done |]].
  - constructor; cbn; [| | | done].
    + apply (seq_frame (areas (vm s))); [done |]. intros q Hq. apply lookup_insert_ne. set_solver.
    + intros p r Hp. rewrite lookup_insert_ne; [by apply Hrecs |]. intros <-. apply Hnew.
      by apply (list_elem_of_fmap_2 fst) in Hp.
    + rewrite !dom_insert_L. by rewrite Hdom.
  - right. split; [split_and!; [apply lookup_insert_eq | done | done] |]. split; [| done].
    intros q Hq. by apply lookup_insert_ne.
Qed.

Lemma below_neq l1 l2 x : areas_wf (l1 ++ x :: l2) ->
  (forall y, y ∈ l1 -> below y x) /\ forall y, y ∈ l2 -> below x y.
Proof.
  intros (_ & H & Hb)%areas_wf_app. apply areas_wf_cons in H as (_ & _ & H2).
  split; [| done]. intros y Hy. apply Hb; [done | by left].
Qed.

(** An area that fits between the others. *)
Lemma areas_wf_insert lo hi x : areas_wf (lo ++ hi) -> area_wf x.2 ->
  (forall y, y ∈ lo -> below y x) -> (forall y, y ∈ hi -> below x y) ->
  areas_wf (lo ++ x :: hi).
Proof.
  intros (Hl & Hh & Hb)%areas_wf_app Hx H1 H2. apply areas_wf_app. split; [done |].
  split; [by apply areas_wf_cons |]. intros y z Hy [-> | Hz]%elem_of_cons; auto.
Qed.

Lemma split_unique_by {X} (P : X -> Prop) (l1 l2 l1' l2' : list X) :
  (forall x, x ∈ l1 -> P x) -> (forall x, x ∈ l2 -> ~ P x) ->
  (forall x, x ∈ l1' -> P x) -> (forall x, x ∈ l2' -> ~ P x) ->
  l1 ++ l2 = l1' ++ l2' -> l1 = l1' /\ l2 = l2'.
Proof.
  revert l1'. induction l1 as [| x l1 IH]; intros [| y l1'] H1 H2 H1' H2' E; simplify_eq/=.
  - done.
  - exfalso. apply (H2 y); [by left | apply H1'; by left].
  - exfalso. apply (H2' x); [by left | apply H1; by left].
  - destruct (IH l1') as [-> ->]; try done; intros z Hz; [apply H1 | apply H1']; by right.
Qed.

Lemma range_clear_split ls start end_ : areas_wf ls -> start < end_ -> range_clear ls start end_ ->
  exists lo hi, ls = lo ++ hi /\ (forall y, y ∈ lo -> va_end y.2 <= start) /\
    (forall y, y ∈ hi -> end_ <= va_start y.2).
Proof.
  intros Hwf Hlt Hc. destruct (first_after_split ls start Hwf) as (l1 & l2 & -> & H1 & H2 & _).
  exists l1, l2. split; [done |]. split; [done |]. intros y Hy. specialize (H2 y Hy).
  destruct (Hc y); [apply elem_of_app; by right | lia | done].
Qed.

Lemma area_insert_spec s lo hi a r : shape (vm s) (lo ++ hi) -> loose (vm s) (lo ++ hi) a r ->
  area_wf r -> (forall y, y ∈ lo -> below y (a, r)) -> (forall y, y ∈ hi -> below (a, r) y) ->
  wp (area_insert a) (fun _ s' => same_rest s s' /\ ker s' = ker s /\
    recs (vm s') = recs (vm s) /\ shape (vm s') (lo ++ (a, r) :: hi)) s.
Proof.
  intros Hs (Hr & H0 & Hnew) Hwf H1 H2. pose proof (shape_length _ _ Hs) as Hlen.
  pose proof (sh_seq _ _ Hs) as (T & n & HT & Hn & Ho). pose proof Hs as [Hseq Hrecs Hdom Hls].
  unfold area_insert. apply wp_bind, (wp_asks _ r), wp_bind; [done |].
  destruct (insert_loop_tree (vm s) (va_start r) T [] (S (tree_fuel (areas (vm s)))) (lo ++ hi))
    as (k & lo' & hi' & Hl & Hk & E & Hlo & Hhi & Hb & Ha); [done.. | lia |].
  simpl in Hb, Ha. rewrite app_nil_r in Ha. rewrite <- (holds_root _ _ HT) in Hl.
  destruct (split_unique_by (fun x => va_start x.2 <= va_start r) lo hi lo' hi') as [<- <-]; try done.
  { intros x Hx. pose proof (areas_wf_elem _ x Hls ltac:(set_solver)) as [_ _ ? _ _].
    specialize (H1 x Hx). unfold below in H1. simpl in H1. lia. }
  { intros x Hx. specialize (H2 x Hx). unfold below in H2. simpl in H2. destruct Hwf. lia. }
  { intros x Hx. specialize (Hhi x Hx). lia. }
  eapply wp_asks; [exact Hl |]. cbn [fst snd].
  destruct (seq_insert (areas (vm s)) (parent_of k) (link_of k) a lo.*1 hi.*1 (lo ++ hi).*1)
    as (_ & t & Ht & Hseq' & _ & Hd); [done | by exists k | done | done | |].
  { apply elem_of_dom. rewrite <- Hdom. by apply elem_of_dom_2 in Hr. }
  apply (wp_updates _ (set_vm (with_areas t (vm s)) s)); [by rewrite Ht |].
  split; [by constructor |]. split; [done |]. split; [done |].
  constructor; cbn [set_vm vm with_areas areas recs].
  - by rewrite fmap_app.
  - intros p q [Hp | [[= -> ->] | Hp]%elem_of_cons]%elem_of_app; [| done |]; apply Hrecs; set_solver.
  - congruence.
  - by apply areas_wf_insert.
Qed.

(** [area_remove] and [area_free] of a linked area. *)
Lemma area_drop_spec s l1 a r l2 : shape (vm s) (l1 ++ (a, r) :: l2) ->
  wp (bind (area_remove a) (fun _ => area_free a)) (fun _ s' =>
    same_rest s s' /\ ker s' = ker s /\ shape (vm s') (l1 ++ l2) /\
    (forall q, q <> a -> recs (vm s') !! q = recs (vm s) !! q)) s.
Proof.
  intros Hs. pose proof (shape_nodup _ _ Hs) as Hnd. destruct Hs as [Hseq Hrecs Hdom Hwf].
  rewrite fmap_app in Hseq, Hnd. simpl in Hseq, Hnd.
  destruct (seq_remove (areas (vm s)) a l1.*1 l2.*1 Hseq) as (t & Ht & Hseq' & _ & Hd).
  assert (a ∉ l1.*1 ++ l2.*1) as Ha.
  { apply NoDup_cons in Hnd as [_ Hnd]. apply NoDup_app in Hnd as (_ & H1 & H2).
    apply NoDup_cons in H2 as [H2 _]. specialize (H1 a). set_solver. }
  apply wp_bind. unfold area_remove.
  apply (wp_updates _ (set_vm (with_areas t (vm s)) s)); [by rewrite Ht |].
  apply wp_modify. split; [by constructor |]. split; [done |]. split.
  - constructor; cbn.
    + rewrite fmap_app. apply (seq_frame t); [done |]. intros q Hq. apply lookup_delete_ne. set_solver.
    + intros p q Hp. rewrite lookup_delete_ne; [apply Hrecs; set_solver |].
      intros <-. apply Ha. rewrite <- fmap_app. by apply (list_elem_of_fmap_2 fst) in Hp.
    + rewrite !dom_delete_L. by rewrite Hd, Hdom.
    + apply areas_wf_app in Hwf as (H1 & H2 & Hb). apply areas_wf_cons in H2 as (_ & H2 & _).
      apply areas_wf_app. split; [done |]. split; [done |]. intros x y Hx Hy. apply Hb; set_solver.
  - intros q Hq. cbn. by apply lookup_delete_ne.
Qed.

(** [area_free] of an area that is not linked. *)
Lemma area_free_spec s ls a r : shape (vm s) ls -> loose (vm s) ls a r ->
  wp (area_free a) (fun _ s' => same_rest s s' /\ ker s' = ker s /\ shape (vm s') ls) s.
Proof.
  intros [Hseq Hrecs Hdom Hwf] (_ & _ & Ha). apply wp_modify. split; [by constructor |]. split; [done |].
  constructor; cbn; [| | by rewrite !dom_delete_L, Hdom | done].
  - apply (seq_frame (areas (vm s))); [done |]. intros q Hq. apply lookup_delete_ne. by intros <-.
  - intros p q Hp. rewrite lookup_delete_ne; [by apply Hrecs |]. intros <-. by apply (list_elem_of_fmap_2 fst) in Hp.
Qed.

(** Changing the record of a linked area, when it still fits. *)
Lemma put_area_spec s l1 a r r' l2 : shape (vm s) (l1 ++ (a, r) :: l2) -> area_wf r' ->
  (forall y, y ∈ l1 -> below y (a, r')) -> (forall y, y ∈ l2 -> below (a, r') y) ->
  wp (put_area a r') (fun _ s' => same_rest s s' /\ ker s' = ker s /\
    shape (vm s') (l1 ++ (a, r') :: l2) /\ areas (vm s') = areas (vm s) /\
    (forall q, q <> a -> recs (vm s') !! q = recs (vm s) !! q)) s.
Proof.
  intros Hs Hr' H1 H2. pose proof (shape_nodup _ _ Hs) as Hnd. pose proof Hs as [Hseq Hrecs Hdom Hwf].
  assert (recs (vm s) !! a = Some r) as Ha by (apply Hrecs; set_solver).
  rewrite fmap_app in Hnd. simpl in Hnd. apply NoDup_cons in Hnd as [_ Hnd].
  apply NoDup_app in Hnd as (_ & Hnd & Hnd2). apply NoDup_cons in Hnd2 as [Hnd2 _].
  unfold put_area. eapply wp_updates; [by rewrite Ha |]. cbn.
  split; [by constructor |]. split; [done |]. split; [| split; [done |]].
  - constructor; cbn.
    + rewrite fmap_app in *. done.
    + intros p q [Hp | [[= -> ->] | Hp]%elem_of_cons]%elem_of_app; [| apply lookup_insert_eq |].
      * rewrite lookup_insert_ne; [apply Hrecs; set_solver |]. intros <-.
        apply (list_elem_of_fmap_2 fst) in Hp. by apply (Hnd a Hp); left.
      * rewrite lookup_insert_ne; [apply Hrecs; set_solver |]. intros <-.
        by apply (list_elem_of_fmap_2 fst) in Hp.
    + rewrite dom_insert_lookup_L by done. done.
    + apply areas_wf_insert; [| done.. ]. apply areas_wf_app in Hwf as (W1 & W2 & Hb).
      apply areas_wf_cons in W2 as (_ & W2 & _). apply areas_wf_app. split; [done |].
      split; [done |]. intros x y Hx Hy. apply Hb; set_solver.
  - intros q Hq. by apply lookup_insert_ne.
Qed.

(** ** What a process sees *)

(** Protection, flags, file and position in the file of an address. *)
Definition area_view (r : vm_area) (addr : Z) : Z * Z * Z * Z * Z :=
  (va_prot r, va_flags r, va_fops r, va_file r, u64 (va_offset r + (addr - va_start r))).

Definition view (ls : alist) (addr : Z) : option (Z * Z * Z * Z * Z) :=
  (fun x => area_view x.2 addr) <$> area_of_addr ls addr.

Lemma view_app l1 l2 addr : areas_wf (l1 ++ l2) ->
  view (l1 ++ l2) addr = match view l1 addr with Some x => Some x | None => view l2 addr end.
Proof.
  intros (_ & _ & Hb)%areas_wf_app. unfold view, area_of_addr. rewrite first_after_app.
  destruct (first_after l1 addr) as [x |] eqn:E; [| done]. apply first_after_elem in E as [Hx Hlt].
  destruct (Z.leb_spec (va_start x.2) addr); [done |]. simpl.
  destruct (first_after l2 addr) as [y |] eqn:E; [| done]. apply first_after_elem in E as [Hy _].
  specialize (Hb x y Hx Hy). unfold below in Hb.
  destruct (Z.leb_spec (va_start y.2) addr); [lia | done].
Qed.

Lemma view_singleton x addr :
  view [x] addr = if (va_start x.2 <=? addr) && (addr <? va_end x.2) then Some (area_view x.2 addr)
                  else None.
Proof.
  unfold view, area_of_addr. rewrite first_after_cons. unfold first_after. simpl.
  destruct (decide (addr < va_end x.2)) as [? | ?]; destruct (Z.ltb_spec addr (va_end x.2)); try lia;
    simpl; by destruct (va_start x.2 <=? addr).
Qed.

Lemma view_swap l1 m m' l2 : areas_wf (l1 ++ m ++ l2) -> areas_wf (l1 ++ m' ++ l2) ->
  (forall addr, view m addr = view m' addr) ->
  forall addr, view (l1 ++ m ++ l2) addr = view (l1 ++ m' ++ l2) addr.
Proof.
  intros H H' Hm addr. rewrite !view_app; [by rewrite Hm | | done | | done];
    [by apply areas_wf_app in H' as (_ & ? & _) | by apply areas_wf_app in H as (_ & ? & _)].
Qed.

Lemma put_loose_spec s ls a r r' : shape (vm s) ls -> loose (vm s) ls a r ->
  wp (put_area a r') (fun _ s' => same_rest s s' /\ ker s' = ker s /\ shape (vm s') ls /\
    loose (vm s') ls a r') s.
Proof.
  intros [Hseq Hrecs Hdom Hwf] (Ha & H0 & Hn). unfold put_area. eapply wp_updates; [by rewrite Ha |].
  cbn. split; [by constructor |]. split; [done |]. split; [| split_and!; [apply lookup_insert_eq | done..]].
  constructor; cbn; [done | | by rewrite dom_insert_lookup_L | done].
  intros p q Hp. rewrite lookup_insert_ne; [by apply Hrecs |]. intros <-. apply Hn.
  by apply (list_elem_of_fmap_2 fst) in Hp.
Qed.

(** The part of an area from [at_] on. *)
Definition tail_of (r : vm_area) (at_ : Z) : vm_area :=
  VmArea at_ (va_end r) (va_prot r) (va_flags r) (va_fops r) (va_file r)
    (u64 (va_offset r + (at_ - va_start r))).

Lemma view_split a b r at_ addr : va_start r < at_ < va_end r ->
  view [(a, r)] addr = view [(a, with_end at_ r); (b, tail_of r at_)] addr.
Proof.
  intros Hat. change [(a, with_end at_ r); (b, tail_of r at_)] with ([(a, with_end at_ r)] ++ [(b, tail_of r at_)]).
  unfold view, area_of_addr. rewrite first_after_app, !first_after_cons. simpl.
  repeat case_decide; simpl; zcases; try done; unfold area_view; simpl; do 2 f_equal; try done.
  unfold u64, wrap. rewrite Zplus_mod_idemp_l. f_equal. lia.
Qed.

Lemma area_set_file_loose s ls b r f off : shape (vm s) ls -> loose (vm s) ls b r ->
  wp (area_set_file b f off) (fun _ s' => same_rest s s' /\ shape (vm s') ls /\
    loose (vm s') ls b (VmArea (va_start r) (va_end r) (va_prot r) (va_flags r)
                          (va_fops f) (va_file f) off)) s.
Proof.
  intros Hs Hl. unfold area_set_file. apply wp_bind, (wp_asks _ r), wp_bind; [by apply Hl |].
  eapply wp_mono; [by apply (put_loose_spec s ls b r) |]. intros _ s' (Hr & Hk & Hs' & Hl').
  apply wp_when; intros _; [apply wp_modify |]; (split; [| done]).
  - eapply same_rest_trans; [done |]. by constructor.
  - done.
Qed.

Lemma area_split_spec s l1 a r l2 at_ : shape (vm s) (l1 ++ (a, r) :: l2) ->
  va_start r < at_ < va_end r -> aligned at_ ->
  wp (area_split a at_) (fun err s' => same_rest s s' /\
    ((err = - ENOMEM /\ shape (vm s') (l1 ++ (a, r) :: l2)) \/
     (err = 0 /\ exists b, shape (vm s') (l1 ++ (a, with_end at_ r) :: (b, tail_of r at_) :: l2)))) s.
Proof.
  intros Hs Hat Hal. pose proof (sh_areas _ _ Hs) as Hwf. destruct (below_neq _ _ _ Hwf) as [Hb1 Hb2].
  assert (area_wf r) as [Ws We Wo Wl Wh] by (apply (areas_wf_elem _ (a, r) Hwf); set_solver).
  unfold area_split. apply wp_bind, (wp_asks _ r), wp_bind; [apply (sh_recs _ _ Hs); set_solver |].
  eapply wp_mono; [by apply area_new_spec |]. intros b s1 (Hr1 & Hs1 & _ & Hcase). cbn beta.
  destruct Hcase as [[-> _] | (Hl & Hrec & Hnew)].
  { apply wp_ret. eauto. }
  destruct (Z.eqb_spec b 0) as [-> | Hb0]; [by destruct Hl as (_ & ? & _) |].
  apply wp_bind. eapply wp_mono; [by apply (area_set_file_loose s1 _ b _ _ _ Hs1 Hl) |].
  intros _ s2 (Hr2 & Hs2 & Hl2). cbn beta. cbn [va_start va_end va_prot va_flags] in Hl2.
  fold (tail_of r at_) in Hl2.
  apply wp_bind, (wp_asks _ r); [apply (sh_recs _ _ Hs2); set_solver |].
  apply wp_bind. eapply wp_mono.
  { apply (put_area_spec s2 l1 a r (with_end at_ r) l2); [done | by constructor; cbn; try lia | |].
    - intros y Hy. by apply Hb1.
    - intros y Hy. specialize (Hb2 y Hy). unfold below in *. simpl in *. lia. }
  intros _ s3 (Hr3 & Hk3 & Hs3 & Ha3 & Hrec3). cbn beta. apply wp_bind.
  change (l1 ++ (a, with_end at_ r) :: l2) with (l1 ++ [(a, with_end at_ r)] ++ l2) in Hs3.
  rewrite app_assoc in Hs3. eapply wp_mono; [apply (area_insert_spec s3 _ _ b (tail_of r at_) Hs3) |].
  - destruct Hl2 as (Hb & _ & Hn). split; [| split; [done |]].
    + rewrite Hrec3; [done |]. intros ->. apply Hn. rewrite fmap_app. set_solver.
    + rewrite !fmap_app in *. simpl in *. set_solver.
  - constructor; cbn; try done; lia.
  - intros y [Hy | ->%list_elem_of_singleton]%elem_of_app; [| unfold below; simpl; lia].
    specialize (Hb1 y Hy). unfold below in *. simpl in *. lia.
  - intros y Hy. by apply Hb2.
  - intros _ s4 (Hr4 & _ & _ & Hs4). cbn beta. apply wp_ret. rewrite <- app_assoc in Hs4. split.
    + by do 3 (eapply same_rest_trans; [done |]).
    + right. split; [done |]. by exists b.
Qed.

(** ** Cutting areas at the ends of a range *)

(** No area has [p] inside. *)
Definition cut_at (ls : alist) (p : Z) : Prop :=
  forall x, x ∈ ls -> va_end x.2 <= p \/ p <= va_start x.2.

(** Only the cuts between areas may have changed. *)
Definition recut (ls : alist) (s s' : state A) (ls' : alist) : Prop :=
  same_rest s s' /\ shape (vm s') ls' /\ forall addr, view ls' addr = view ls addr.

Lemma recut_trans ls1 ls2 ls3 s1 s2 s3 :
  recut ls1 s1 s2 ls2 -> recut ls2 s2 s3 ls3 -> recut ls1 s1 s3 ls3.
Proof.
  intros (H1 & H2 & H3) (H4 & H5 & H6). split; [by eapply same_rest_trans |]. split; [done |].
  intros addr. by rewrite H6.
Qed.

Lemma recut_split s l1 a r l2 at_ : shape (vm s) (l1 ++ (a, r) :: l2) ->
  va_start r < at_ < va_end r -> aligned at_ ->
  wp (area_split a at_) (fun err s' =>
    (err = - ENOMEM /\ credit s < 1 /\ recut (l1 ++ (a, r) :: l2) s s' (l1 ++ (a, r) :: l2)) \/
    (err = 0 /\ credit s - 1 <= credit s' /\ exists b, recut (l1 ++ (a, r) :: l2) s s'
                           (l1 ++ (a, with_end at_ r) :: (b, tail_of r at_) :: l2))) s.
Proof.
  intros Hs Hat Hal. eapply wp_mono; [eapply wp_also; [by apply area_split_spec | apply area_split_credit] |].
  intros err s' [(Hr & [[-> Hs'] | (-> & b & Hs')]) [Hc Hz]]; [left; split; [done |]; split; [by apply Hz | done] | right].
  split; [done |]. split; [done |]. exists b.
  split; [done |]. split; [done |]. intros addr. symmetry.
  apply (view_swap l1 [(a, r)] [(a, with_end at_ r); (b, tail_of r at_)] l2);
    [apply (sh_areas _ _ Hs) | apply (sh_areas _ _ Hs') |]. intros ?. by apply view_split.
Qed.

(** One area covers the range. *)
Definition solid (ls : alist) (lo hi : Z) : Prop := exists x, x ∈ ls /\ va_start x.2 <= lo /\ hi <= va_end x.2.

(** Areas are cut at most at [start] and [end_]. *)
Definition cut_only (start end_ : Z) (ls ls' : alist) : Prop := forall lo hi, lo < hi ->
  ~ lo < start < hi -> ~ lo < end_ < hi -> solid ls lo hi -> solid ls' lo hi.

Lemma cut_only_refl start end_ ls : cut_only start end_ ls ls.
Proof. by intros lo hi. Qed.
Lemma cut_only_trans start end_ ls1 ls2 ls3 : cut_only start end_ ls1 ls2 -> cut_only start end_ ls2 ls3 ->
  cut_only start end_ ls1 ls3.
Proof. intros H1 H2 lo hi Hlt Hs He H. apply H2, H1; done. Qed.

Lemma cut_only_split start end_ l1 a b r l2 at_ : at_ = start \/ at_ = end_ ->
  cut_only start end_ (l1 ++ (a, r) :: l2) (l1 ++ (a, with_end at_ r) :: (b, tail_of r at_) :: l2).
Proof.
  intros Hat lo hi Hlt Hs He (x & Hx & H1 & H2).
  assert (x = (a, r) \/ x ∈ l1 \/ x ∈ l2) as Hcase by set_solver.
  destruct Hcase as [-> | Hx']; [| exists x; split; [set_solver | done]]. simpl in *.
  destruct (Z_le_gt_dec hi at_).
  - exists (a, with_end at_ r). split; [set_solver | done].
  - exists (b, tail_of r at_). split; [set_solver |]. simpl. lia.
Qed.

(** What [range_isolate] achieves. *)
Definition isolated (k start end_ : Z) (ls : alist) (s : state A) (err : Z) (s' : state A) : Prop :=
  exists ls', recut ls s s' ls' /\ cut_only start end_ ls ls' /\
    (err = 0 /\ credit s - k <= credit s' /\ cut_at ls' start /\ cut_at ls' end_ \/ err = - ENOMEM /\ credit s < k).

Lemma isolated_after k ls1 s1 s2 ls2 start end_ err s3 : recut ls1 s1 s2 ls2 ->
  cut_only start end_ ls1 ls2 -> credit s1 - 1 <= credit s2 -> isolated k start end_ ls2 s2 err s3 -> isolated (k + 1) start end_ ls1 s1 err s3.
Proof.
  intros H Ho Hc (ls' & H' & Ho' & Hcase). exists ls'. split; [by eapply recut_trans |].
  split; [by eapply cut_only_trans |].
  destruct Hcase as [(? & ? & ? & ?) | [-> ?]]; [left; split_and!; (done || lia) | right]. split; [done | lia].
Qed.

Lemma isolated_weaken k k' ls s start end_ err s' : isolated k start end_ ls s err s' -> k <= k' ->
  isolated k' start end_ ls s err s'.
Proof.
  intros (ls' & H' & Ho & [(? & ? & ? & ?) | [-> ?]]) Hk; exists ls'; (split; [done |]; split; [done |]);
    [left; split_and!; (done || lia) | right; split; [done | lia]].
Qed.

Lemma recut_refl ls s : shape (vm s) ls -> recut ls s s ls.
Proof. intros H. split; [apply same_rest_refl | done]. Qed.

(** The rest of the areas starts at or after the end of the range. *)
Lemma isolate_stop s l1 l2 start end_ : shape (vm s) (l1 ++ l2) -> start <= end_ ->
  (forall x, x ∈ l1 -> va_end x.2 <= end_ /\ (va_end x.2 <= start \/ start <= va_start x.2)) ->
  (forall x, x ∈ l2 -> end_ <= va_start x.2) -> forall k, 0 <= k -> isolated k start end_ (l1 ++ l2) s 0 s.
Proof.
  intros Hs Hle H1 H2 k Hk. exists (l1 ++ l2). split; [by apply recut_refl |]. split; [apply cut_only_refl |]. left. split; [done |]. split; [lia |].
  split; intros x [Hx | Hx]%elem_of_app; try (specialize (H1 x Hx)); try (specialize (H2 x Hx)); lia.
Qed.

Lemma below_head l1 x l2 y : areas_wf (l1 ++ x :: l2) -> y ∈ l2 -> va_end x.2 <= va_start y.2.
Proof. intros H Hy. destruct (below_neq _ _ _ H) as [_ H2]. by apply H2. Qed.

Lemma isolate_loop_inside fuel s l1 l2 start end_ : shape (vm s) (l1 ++ l2) ->
  start <= end_ -> aligned end_ ->
  (forall x, x ∈ l1 -> va_end x.2 <= end_ /\ (va_end x.2 <= start \/ start <= va_start x.2)) ->
  (forall x, x ∈ l2 -> start <= va_start x.2) -> (length l2 + 2 <= fuel)%nat ->
  wp (isolate_loop fuel (ptr (head l2)) start end_) (isolated 1 start end_ (l1 ++ l2) s) s.
Proof.
  revert fuel s l1. induction l2 as [| [a r] l2 IH]; intros fuel s l1 Hs Hle Hal H1 H2 Hf;
    (destruct fuel as [| fuel]; [simpl in Hf; lia |]); cbn [isolate_loop head ptr fst].
  { apply wp_ret. apply isolate_stop; [done.. | | lia]. intros x Hx. by apply elem_of_nil in Hx. }
  pose proof (shape_nonzero _ _ (a, r) Hs ltac:(set_solver)) as H0%Z.eqb_neq. simpl in H0. rewrite H0.
  apply wp_bind, (wp_asks _ r); [apply (sh_recs _ _ Hs); set_solver |].
  pose proof (H2 (a, r) ltac:(by left)) as Hst. simpl in Hst.
  pose proof (sh_areas _ _ Hs) as Hwf.
  assert (area_wf r) as Hr by (apply (areas_wf_elem _ (a, r) Hwf); set_solver).
  destruct (Z.ltb_spec (va_start r) end_) as [Hlt | Hge]; cbn [negb].
  2:{ apply wp_ret. apply isolate_stop; [done.. | | lia]. intros x [-> | Hx]%elem_of_cons; [done |].
      pose proof (below_head _ _ _ _ Hwf Hx). simpl in *. destruct Hr. lia. }
  destruct (Z.ltb_spec (va_start r) start); [lia |]. cbn [andb].
  destruct (Z.ltb_spec end_ (va_end r)) as [Hin | Hout]; apply wp_bind.
  - eapply wp_mono; [by apply (recut_split s l1 a r l2 end_) |]. cbn beta.
    intros err s1 [(-> & Hcr & Hrc) | (-> & Hcr & b & Hrc)]; cbn [Z.eqb negb];
    [apply wp_ret; eexists; split; [exact Hrc |]; split; [apply cut_only_refl | right; split; [done | lia]] |].
    pose proof Hrc as (_ & Hs1 & _). apply wp_bind. eapply wp_asks; [exact (area_next_spec _ _ _ _ Hs1) |].
    destruct fuel as [| fuel]; [simpl in Hf; lia |]. cbn [isolate_loop head ptr fst].
    pose proof (shape_nonzero _ _ (b, tail_of r end_) Hs1 ltac:(set_solver)) as Hb0%Z.eqb_neq.
    simpl in Hb0. rewrite Hb0. apply wp_bind, (wp_asks _ (tail_of r end_));
      [apply (sh_recs _ _ Hs1); set_solver |].
    cbn [tail_of va_start]. rewrite Z.ltb_irrefl. apply wp_ret. apply (isolated_after 0 _ _ _ _ _ _ _ _ Hrc (cut_only_split start end_ l1 a b r l2 end_ (or_intror eq_refl)) Hcr).
    change (l1 ++ (a, with_end end_ r) :: (b, tail_of r end_) :: l2) with
      (l1 ++ [(a, with_end end_ r)] ++ (b, tail_of r end_) :: l2) in *. rewrite app_assoc in *.
    apply isolate_stop; [done | done | | | lia].
    + intros x [Hx | ->%list_elem_of_singleton]%elem_of_app; [by apply H1 | simpl; lia].
    + intros x [-> | Hx]%elem_of_cons; [done |]. pose proof (below_head _ _ _ _ Hwf Hx). simpl in *. lia.
  - apply wp_ret. cbn [Z.eqb negb]. apply wp_bind.
    eapply wp_asks; [exact (area_next_spec _ _ _ _ Hs) |].
    change (l1 ++ (a, r) :: l2) with (l1 ++ [(a, r)] ++ l2) in *. rewrite app_assoc in *.
    apply IH; [done | done | done | | set_solver | simpl in Hf; lia].
    intros x [Hx | ->%list_elem_of_singleton]%elem_of_app; [by apply H1 | simpl; lia].
Qed.

Lemma range_isolate_spec s ls start end_ : shape (vm s) ls -> start <= end_ ->
  aligned start -> aligned end_ ->
  wp (range_isolate start end_) (isolated 2 start end_ ls s) s.
Proof.
  intros Hs Hle Has Hae. unfold range_isolate. pose proof (shape_length _ _ Hs) as Hlen.
  pose proof (sh_areas _ _ Hs) as Hwf. apply wp_bind.
  eapply wp_asks; [by apply area_at_or_after_spec |]. apply wp_bind, wp_gets.
  destruct (first_after_split ls start Hwf) as (l1 & l2 & -> & H1 & H2 & ->).
  rewrite length_app in Hlen. destruct l2 as [| [a r] l2].
  { eapply wp_mono; [| intros err s1 H; apply (isolated_weaken 1 2 _ _ _ _ _ _ H); lia].
    apply isolate_loop_inside; [done.. | | set_solver | simpl; lia].
    intros x Hx. specialize (H1 x Hx). lia. }
  destruct (decide (va_start r < start)) as [Hlt | Hge].
  2:{ eapply wp_mono; [| intros err s1 H; apply (isolated_weaken 1 2 _ _ _ _ _ _ H); lia].
      apply isolate_loop_inside; [done.. | | | cbn [length] in *; lia].
      - intros x Hx. specialize (H1 x Hx). lia.
      - intros x [-> | Hx]%elem_of_cons; [simpl; lia |]. pose proof (below_head _ _ _ _ Hwf Hx).
        specialize (H2 (a, r) ltac:(by left)). simpl in *. lia. }
  replace (tree_fuel (areas (vm s)) + 4)%nat with (S (tree_fuel (areas (vm s)) + 3)) by lia.
  cbn [isolate_loop head ptr fst].
  pose proof (shape_nonzero _ _ (a, r) Hs ltac:(set_solver)) as H0%Z.eqb_neq. simpl in H0. rewrite H0.
  apply wp_bind, (wp_asks _ r); [apply (sh_recs _ _ Hs); set_solver |].
  specialize (H2 (a, r) ltac:(by left)) as Hin. simpl in Hin.
  assert ((va_start r <? end_) = true) as -> by (apply Z.ltb_lt; lia). cbn [negb].
  assert ((va_start r <? start) && (start <? va_end r) = true) as ->
    by (apply andb_true_intro; split; apply Z.ltb_lt; lia).
  apply wp_bind. eapply wp_mono; [by apply (recut_split s l1 a r l2 start) |]. cbn beta.
  intros err s1 [(-> & Hcr & Hrc) | (-> & Hcr & b & Hrc)]; cbn [Z.eqb negb];
    [apply wp_ret; eexists; split; [exact Hrc |]; split; [apply cut_only_refl | right; split; [done | lia]] |].
  pose proof Hrc as (_ & Hs1 & _). apply wp_bind. eapply wp_asks; [exact (area_next_spec _ _ _ _ Hs1) |].
  eapply wp_mono; [| intros err s2; apply (isolated_after 1 _ _ _ _ _ _ _ _ Hrc (cut_only_split start end_ l1 a b r l2 start (or_introl eq_refl)) Hcr)].
  change (l1 ++ (a, with_end start r) :: (b, tail_of r start) :: l2) with
    (l1 ++ [(a, with_end start r)] ++ (b, tail_of r start) :: l2) in *. rewrite app_assoc in *.
  apply isolate_loop_inside; [done.. | | | cbn [length] in *; lia].
  - intros x [Hx | ->%list_elem_of_singleton]%elem_of_app; [specialize (H1 x Hx); lia | simpl; lia].
  - intros x [-> | Hx]%elem_of_cons; [done |]. pose proof (below_head _ _ _ _ Hwf Hx). simpl in *. lia.
Qed.
End progs.

(** ** Looking for a gap *)

(** As long as no sum wraps, the loop stops at the lowest address from
    [candidate] on where the length fits. *)
Lemma gap_loop_spec fuel v l1 l2 candidate len : shape v (l1 ++ l2) ->
  0 <= candidate <= USER_ADDR_LIMIT -> 0 < len < 2 ^ 64 - USER_ADDR_LIMIT ->
  (forall x, x ∈ l1 -> va_end x.2 <= candidate) -> (forall x, x ∈ l2 -> candidate < va_end x.2) ->
  (length l2 < fuel)%nat ->
  exists c, gap_loop fuel v candidate len (ptr (head l2)) = Some c /\
    candidate <= c <= USER_ADDR_LIMIT /\ range_clear (l1 ++ l2) c (c + len) /\
    (aligned candidate -> aligned c) /\
    forall c', candidate <= c' -> range_clear l2 c' (c' + len) -> c <= c'.
Proof.
  revert fuel l1 candidate. induction l2 as [| [a r] l2 IH]; intros fuel l1 c Hs Hc Hlen H1 H2 Hf;
    (destruct fuel as [| fuel]; [lia |]); cbn [gap_loop head ptr fst].
  { exists c. rewrite app_nil_r in *. split_and!; [done | lia | lia | | done | done].
    intros x Hx. left. auto. }
  pose proof (shape_nonzero _ _ (a, r) Hs ltac:(set_solver)) as H0%Z.eqb_neq. simpl in H0. rewrite H0.
  rewrite (sh_recs _ _ Hs a r) by set_solver. cbn [mbind option_bind].
  rewrite u64_small by lia. pose proof (sh_areas _ _ Hs) as Hwf.
  assert (area_wf r) as [_ Hae Ho _ Hhi] by (apply (areas_wf_elem _ (a, r) Hwf); set_solver).
  pose proof (H2 (a, r) ltac:(by left)) as Hcr. simpl in Hcr.
  destruct (Z.leb_spec (c + len) (va_start r)) as [Hfit | Hno].
  - exists c. split_and!; [done | lia | lia | | done | done].
    intros x [Hx | [-> | Hx]%elem_of_cons]%elem_of_app; [left; auto | by right |].
    right. pose proof (below_head _ _ _ _ Hwf Hx). simpl in *. lia.
  - pose proof (area_next_spec v l1 (a, r) l2 Hs) as Hn. simpl in Hn. rewrite Hn. cbn [mbind option_bind].
    change (l1 ++ (a, r) :: l2) with (l1 ++ [(a, r)] ++ l2) in *. rewrite app_assoc in *.
    destruct (IH fuel (l1 ++ [(a, r)]) (va_end r)) as (c' & Hl & Hr & Hclear & Hal & Hmin);
      [done | lia | lia | | | simpl in Hf; lia |].
    + intros x [Hx | ->%list_elem_of_singleton]%elem_of_app; [specialize (H1 x Hx); lia | simpl; lia].
    + intros x Hx. rewrite <- app_assoc in Hwf. pose proof (below_head _ _ _ _ Hwf Hx).
      pose proof (areas_wf_elem _ x Hwf ltac:(set_solver)) as [_ _ ? _ _]. simpl in *. lia.
    + exists c'. split_and!; [done | lia | lia | done | auto |]. intros c'' Hge Hcl.
      apply Hmin; [| intros x Hx; apply Hcl; by right].
      destruct (Hcl (a, r) ltac:(by left)); simpl in *; lia.
Qed.

Definition STACK_FLOOR : Z := USER_STACK_TOP - USER_STACK_LIMIT.

Lemma find_gap_spec v ls len : shape v ls -> 0 <= mmap_base v <= USER_ADDR_LIMIT ->
  aligned (mmap_base v) -> 0 < len < 2 ^ 64 - USER_ADDR_LIMIT ->
  exists c, find_gap v len = Some c /\
    ((c = 0 /\ forall c', mmap_base v <= c' -> c' + len <= STACK_FLOOR ->
        ~ range_clear ls c' (c' + len)) \/
     (mmap_base v <= c /\ c + len <= STACK_FLOOR /\ aligned c /\ range_clear ls c (c + len) /\
      forall c', mmap_base v <= c' -> range_clear ls c' (c' + len) -> c <= c')).
Proof.
  intros Hs Hb Hal Hlen. unfold find_gap. rewrite (area_at_or_after_spec _ _ _ Hs).
  cbn [mbind option_bind]. pose proof (shape_length _ _ Hs) as Hsz.
  destruct (first_after_split ls (mmap_base v) (sh_areas _ _ Hs)) as (l1 & l2 & -> & H1 & H2 & ->).
  destruct (gap_loop_spec (tree_fuel (areas v)) v l1 l2 (mmap_base v) len)
    as (c & -> & Hr & Hcl & Ha & Hmin); [done | done | done | done | done | |].
  { rewrite length_app in Hsz. lia. }
  cbn [mbind option_bind]. rewrite u64_small by lia. fold STACK_FLOOR.
  assert (forall c', mmap_base v <= c' -> range_clear (l1 ++ l2) c' (c' + len) -> c <= c') as Hmin'.
  { intros c' Hc' Hcl'. apply Hmin; [done |]. intros x Hx. apply Hcl'. set_solver. }
  eexists. split; [done |]. destruct (Z.leb_spec (c + len) STACK_FLOOR); [right | left].
  - split_and!; [lia | done | auto | done | done].
  - split; [done |]. intros c' Hc' Hle Hcl'. specialize (Hmin' c' Hc' Hcl'). lia.
Qed.
