(* ===== verification/Vm.v ===== *)
(** * Address spaces: the operations of hardware/memory/vm.c

    The functions that run under the lock of an address space and their entry
    points, over the areas of VmArea and the page tables of PageTable.  Results
    are those of the C functions: 0 or a negative error number, a [bool], an
    address. *)

From Stdlib Require Import ZArith Lia Bool.
From stdpp Require Import base list option gmap.
From S2P Require Import Prelude Mmu Bytes Frames PageTable StateMonad Rbtree VmArea.
Open Scope Z_scope.
Open Scope prog_scope.

Definition pte_flags (prot : Z) : Z :=
  if prot =? VM_NONE then MMU_USER
  else Z.lor (Z.lor MMU_PRESENT MMU_USER)
             (if negb (Z.land prot VM_WRITE =? 0) then MMU_WRITABLE else 0).

Definition pte_with_prot (pte prot : Z) : Z :=
  let flags := Z.land (pte_flags prot)
                 (if negb (Z.land pte PTE_COW =? 0) then not64 MMU_WRITABLE else U64_MAX) in
  Z.lor (Z.land pte (Z.lor (Z.lor PTE_FRAME PTE_DIRTY) PTE_COW)) flags.

Definition has_frame (pte : Z) : bool := negb (Z.land pte PTE_FRAME =? 0).

(** The bytes of a frame. *)
Definition frame_bytes (ws : list Z) : list Z := ws ≫= le_bytes 8.
Fixpoint frame_words (n : nat) (bs : list Z) : list Z :=
  match n with O => [] | S n' => le_val (take 8 bs) :: frame_words n' (drop 8 bs) end.

Section vm.
Context {A : Type} `{!Frames A}.
Abbreviation V := (prog (state A)).

(** ** Entries of the page map *)

(** [mmu_find_pte(vm->page_map, va)]. *)
Definition find_pte (va : Z) : V (option (Z * Z)) :=
  asks (fun s => mmu_find_pte (page_map (vm s)) va (machine (ker s))).
(** [*pte] and [*pte = v]. *)
Definition load (pte : Z * Z) : V Z :=
  asks (fun s => rd_word (mem (machine (ker s))) (fst pte) (snd pte)).
Definition store (pte : Z * Z) (v : Z) : V unit := on_machine_ (store_word (fst pte) (snd pte) v).

Definition free_physical_page (p : Z) : V unit := on_machine_ (free_frame p).
Definition alloc_physical_page : V Z :=
  on_machine (fun p => '(x, a) ← frame_alloc (frames p); Some (x, set_frames a p)).
Definition pmm_share_page (p : Z) : V unit :=
  on_machine_ (fun m => a ← frame_share p (frames m); Some (set_frames a m)).
Definition pmm_page_shared (p : Z) : V bool :=
  asks (fun s => frame_shared p (frames (machine (ker s)))).
(** [memset(phys_to_virt(p), 0, PAGE_SIZE)] and the copy of a whole frame. *)
Definition set_frame (p : Z) (ws : list Z) : V unit :=
  on_machine_ (fun m => Some (set_mem (<[p := ws]> (mem m)) m)).
Definition get_frame (p : Z) : V (list Z) := asks (fun s => mem (machine (ker s)) !! p).

Definition map_page_vm (va pa flags : Z) : V Z :=
  fun s => on_machine (map_page_in (page_map (vm s)) va pa flags) s.

(** [for (va = start; va < end; va += PAGE_SIZE)] with the body [f]; a round per
    page and the final test. *)
Fixpoint pages_loop (fuel : nat) (va end_ : Z) (f : Z -> V unit) : V unit :=
  match fuel with
  | O => fun _ => None
  | S fuel' =>
      if negb (va <? end_) then ret tt
      else f va ;; pages_loop fuel' (u64 (va + PAGE_SIZE)) end_ f
  end.
Definition for_pages (start end_ : Z) (f : Z -> V unit) : V unit :=
  pages_loop (S (Z.to_nat ((end_ - start + PAGE_SIZE - 1) / PAGE_SIZE))) start end_ f.

(** ** Write-back of file mappings *)

Definition queue (r : vm_area) (offset frame : Z) : V unit :=
  let* ok := malloc in
  if negb ok then when (negb (frame =? 0)) (free_physical_page frame)
  else upd_vm (fun v => with_pending (pending v ++ [VmFlush (va_fops r) (va_file r) offset frame]) v).

Definition queue_dirty (r : vm_area) (start end_ : Z) (clear : bool) : V unit :=
  for_pages start end_ (fun va =>
    let* p := find_pte va in
    match p with
    | None => ret tt
    | Some pte =>
        let* e := load pte in
        if negb (has_frame e) || (Z.land e PTE_DIRTY =? 0) then ret tt
        else
          pmm_share_page (Z.land e PTE_FRAME) ;;
          queue r (u64 (va_offset r + (va - va_start r))) (Z.land e PTE_FRAME) ;;
          when clear (store pte (Z.ldiff e PTE_DIRTY))
    end).

Fixpoint run_flush (l : list vm_flush) : V unit :=
  match l with
  | [] => ret tt
  | w :: rest =>
      (if negb (fl_frame w =? 0) then
         let* data := get_frame (fl_frame w) in
         log (WriteBack (fl_ops w) (fl_file w) (fl_offset w) (frame_bytes data)) ;;
         free_physical_page (fl_frame w)
       else log (Release (fl_ops w) (fl_file w))) ;;
      run_flush rest
  end.

Definition drain : V unit :=
  let* l := gets (fun s => pending (vm s)) in
  upd_vm (with_pending []) ;;
  run_flush l.

(** ** Frames *)

Definition free_frames (start end_ : Z) : V unit :=
  for_pages start end_ (fun va =>
    let* p := find_pte va in
    match p with
    | None => ret tt
    | Some pte =>
        let* e := load pte in
        if (Z.land e MMU_USER =? 0) || negb (has_frame e) then ret tt
        else
          free_physical_page (Z.land e PTE_FRAME) ;;
          store pte 0
    end).

(** The part of [frame_for] for a page without a frame. *)
Definition new_frame (va prot : Z) : V (option (Z * Z)) :=
  let* page := alloc_physical_page in
  if page =? 0 then ret None
  else
    set_frame page zero_frame ;;
    let* err := map_page_vm va page (pte_flags prot) in
    if err <? 0 then free_physical_page page ;; ret None
    else find_pte va.

(** The entry of the page at [va], with a zeroed frame if it had none. *)
Definition frame_for (va prot : Z) : V (option (Z * Z)) :=
  let* p := find_pte va in
  let* present := (match p with
                   | None => ret None
                   | Some pte => let* e := load pte in ret (if has_frame e then Some pte else None)
                   end) in
  match present with
  | Some pte => ret (Some pte)
  | None => new_frame va prot
  end.

Definition cow_break (va : Z) (pte : Z * Z) : V bool :=
  let* e := load pte in
  let old := Z.land e PTE_FRAME in
  let* shared := pmm_page_shared old in
  if negb shared then store pte (Z.ldiff e PTE_COW) ;; ret true
  else
    let* page := alloc_physical_page in
    if page =? 0 then ret false
    else
      let* data := get_frame old in
      set_frame page data ;;
      let* e := load pte in
      store pte (Z.lor page (Z.ldiff e (Z.lor PTE_FRAME PTE_COW))) ;;
      free_physical_page old ;;
      ret true.

(** ** Mapping and unmapping *)

(** The write backs of an area that goes away. *)
Definition flush_area (r : vm_area) : V unit :=
  when (negb (va_file r =? 0)) (queue_dirty r (va_start r) (va_end r) false ;; queue r 0 0).

(** The loop of [unmap_locked] from area [a]. *)
Fixpoint unmap_loop (fuel : nat) (a addr end_ : Z) : V unit :=
  match fuel with
  | O => fun _ => None
  | S fuel' =>
      if a =? 0 then ret tt
      else
        let* r := get_area a in
        if negb (va_start r <? end_) then ret tt
        else
          let* next := asks (fun s => area_next (vm s) a) in
          when (addr <=? va_start r)
            (flush_area r ;;
             free_frames (va_start r) (va_end r) ;;
             area_remove a ;;
             area_free a) ;;
          unmap_loop fuel' next addr end_
  end.

Definition unmap_locked (addr len : Z) : V Z :=
  let end_ := PAGE_ALIGN_UP (u64 (addr + len)) in
  if negb (Z.land addr (not64 PAGE_MASK) =? 0) || (len =? 0) || (end_ <? addr) then ret (- EINVAL)
  else
    let* err := range_isolate addr end_ in
    if negb (err =? 0) then ret err
    else
      let* a := asks (fun s => area_at_or_after (vm s) addr) in
      let* fuel := gets (fun s => tree_fuel (areas (vm s))) in
      unmap_loop fuel a addr end_ ;;
      ret 0.

(** Where [map_locked] maps at a fixed address, or the error. *)
Definition fixed_place (addr len : Z) : V (Z + Z) :=
  if negb (user_range addr (u64 (addr + len))) then ret (inl (- EINVAL))
  else
    let* err := unmap_locked addr len in
    ret (if negb (err =? 0) then inl err else inr addr).

(** Where it maps otherwise: at the address asked for if it is free. *)
Definition free_place (addr len : Z) : V (Z + Z) :=
  let* gap := (if (addr =? 0) || negb (user_range addr (u64 (addr + len))) then ret true
               else let* free := asks (fun s => vm_range_free (vm s) addr (u64 (addr + len))) in
                    ret (negb free)) in
  if gap : bool then
    let* start := asks (fun s => find_gap (vm s) len) in
    ret (if start =? 0 then inl (- ENOMEM) else inr start)
  else ret (inr addr).

Definition new_area (start len prot flags : Z) : V (Z * Z) :=
  let* a := area_new start (u64 (start + len)) prot flags in
  if a =? 0 then ret (- ENOMEM, 0)
  else area_insert a ;; ret (0, start).

(** The error number and the start address ([*out], 0 on an error). *)
Definition map_locked (addr len prot flags : Z) (fixed : bool) : V (Z * Z) :=
  let len := PAGE_ALIGN_UP len in
  if (len =? 0) || negb (Z.land addr (not64 PAGE_MASK) =? 0) then ret (- EINVAL, 0)
  else
    let* place := (if fixed then fixed_place addr len else free_place addr len) in
    match place with
    | inl err => ret (err, 0)
    | inr start => new_area start len prot flags
    end.

(** ** Protection *)

(** The first loop of [protect_locked]: every page of the range belongs to an
    area that may get the new protection. *)
Fixpoint protect_check (fuel : nat) (v : vm_space) (va end_ prot : Z) : option Z :=
  match fuel with
  | O => None
  | S fuel' =>
      if negb (va <? end_) then Some 0
      else
        a ← vm_find v va;
        if a =? 0 then Some (- ENOMEM)
        else
          r ← recs v !! a;
          if negb (Z.land prot VM_WRITE =? 0) && negb (Z.land (va_flags r) VMA_NO_WRITE =? 0)
          then Some (- EACCES)
          else protect_check fuel' v (va_end r) end_ prot
  end.

(** The entries of an area get the protection. *)
Definition protect_pages (start end_ prot : Z) : V unit :=
  for_pages start end_ (fun va =>
    let* p := find_pte va in
    match p with
    | None => ret tt
    | Some pte => let* e := load pte in when (has_frame e) (store pte (pte_with_prot e prot))
    end).

Fixpoint protect_loop (fuel : nat) (a addr end_ prot : Z) : V unit :=
  match fuel with
  | O => fun _ => None
  | S fuel' =>
      if a =? 0 then ret tt
      else
        let* r := get_area a in
        if negb (va_start r <? end_) then ret tt
        else
          when (addr <=? va_start r)
            (put_area a (with_prot prot r) ;;
             protect_pages (va_start r) (va_end r) prot) ;;
          let* next := asks (fun s => area_next (vm s) a) in
          protect_loop fuel' next addr end_ prot
  end.

Definition protect_locked (addr len prot : Z) : V Z :=
  let end_ := PAGE_ALIGN_UP (u64 (addr + len)) in
  if negb (Z.land addr (not64 PAGE_MASK) =? 0) || (end_ <? addr) then ret (- EINVAL)
  else if len =? 0 then ret 0
  else
    let* ok := asks (fun s => protect_check (tree_fuel (areas (vm s))) (vm s) addr end_ prot) in
    if negb (ok =? 0) then ret ok
    else
      let* err := range_isolate addr end_ in
      if negb (err =? 0) then ret err
      else
        let* a := asks (fun s => area_at_or_after (vm s) addr) in
        let* fuel := gets (fun s => tree_fuel (areas (vm s))) in
        protect_loop fuel a addr end_ prot ;;
        ret 0.

(** ** Discarding and writing back a range *)

(** The loops of [discard_locked] and [sync_locked]: [f] on the part of every
    area inside the range. *)
Fixpoint range_loop (fuel : nat) (va end_ : Z) (f : vm_area -> Z -> Z -> V unit) : V Z :=
  match fuel with
  | O => fun _ => None
  | S fuel' =>
      if negb (va <? end_) then ret 0
      else
        let* a := asks (fun s => vm_find (vm s) va) in
        if a =? 0 then ret (- ENOMEM)
        else
          let* r := get_area a in
          let stop := if va_end r <? end_ then va_end r else end_ in
          f r va stop ;;
          range_loop fuel' stop end_ f
  end.

Definition discard_locked (addr len : Z) : V Z :=
  let end_ := PAGE_ALIGN_UP (u64 (addr + len)) in
  if negb (Z.land addr (not64 PAGE_MASK) =? 0) || (end_ <? addr) || negb (user_range addr end_)
  then ret (- EINVAL)
  else
    let* fuel := gets (fun s => tree_fuel (areas (vm s))) in
    range_loop fuel addr end_ (fun r va stop =>
      when (Z.land (va_flags r) VMA_SHARED =? 0) (free_frames va stop)).

Definition sync_locked (addr len : Z) : V Z :=
  let end_ := PAGE_ALIGN_UP (u64 (addr + len)) in
  if negb (Z.land addr (not64 PAGE_MASK) =? 0) || (end_ <? addr) then ret (- EINVAL)
  else
    let* fuel := gets (fun s => tree_fuel (areas (vm s))) in
    range_loop fuel addr end_ (fun r va stop =>
      when (negb (va_file r =? 0)) (queue_dirty r va stop true)).

(** ** Frames given by a driver *)

Definition insert_frame_locked (va frame : Z) : V Z :=
  let* a := asks (fun s => vm_find (vm s) va) in
  if (a =? 0) || negb (Z.land va (not64 PAGE_MASK) =? 0) then ret (- EFAULT)
  else
    let* r := get_area a in
    let* p := find_pte va in
    let* old := (match p with
                 | None => ret 0
                 | Some pte => let* e := load pte in ret (Z.land e PTE_FRAME)
                 end) in
    let* err := map_page_vm va frame (pte_flags (va_prot r)) in
    if err <? 0 then ret (- ENOMEM)
    else
      when (negb (old =? 0)) (free_physical_page old) ;;
      ret 0.

(** ** The heap of a process *)

(** The heap grows from [old_end] to [new_end]: its last area, or a new one. *)
Definition brk_grow (start old_end new_end : Z) : V bool :=
  let* heap := asks (fun s => if start <? old_end then vm_find (vm s) (u64 (old_end - 1)) else Some 0) in
  let* grow := (if heap =? 0 then ret false
                else let* r := get_area heap in
                     ret (negb (Z.land (va_flags r) VMA_HEAP =? 0) && (va_end r =? old_end))) in
  if grow : bool then
    let* r := get_area heap in
    put_area heap (with_end new_end r) ;;
    ret true
  else
    let* r := map_locked old_end (new_end - old_end) (Z.lor VM_READ VM_WRITE) VMA_HEAP true in
    ret (negb (fst r <? 0)).

Definition brk_locked (new_brk : Z) : V Z :=
  let* v := gets vm in
  if new_brk <? brk_start v then ret (brk v)
  else
    let old_end := PAGE_ALIGN_UP (brk v) in
    let new_end := PAGE_ALIGN_UP new_brk in
    let* ok :=
      (if old_end <? new_end then
         let* free := asks (fun s => if user_range old_end new_end
                                     then vm_range_free (vm s) old_end new_end else Some false) in
         if negb free then ret false else brk_grow (brk_start v) old_end new_end
       else
         when (new_end <? old_end) (let* _ := unmap_locked new_end (old_end - new_end) in ret tt) ;;
         ret true) in
    if ok : bool then upd_vm (with_brk new_brk) ;; ret new_brk
    else ret (brk v).

(** ** Moving a mapping *)

(** The first loop of [move_locked]: the offset at which it stopped, [n] pages
    left. *)
Fixpoint move_loop (n : nat) (old_addr new_addr off : Z) : V Z :=
  match n with
  | O => ret off
  | S n' =>
      let* p := find_pte (u64 (old_addr + off)) in
      let* e := (match p with None => ret 0 | Some pte => load pte end) in
      match p with
      | Some pte =>
          if has_frame e then
            let* err := map_page_vm (u64 (new_addr + off)) (Z.land e PTE_FRAME) (Z.ldiff e PTE_FRAME) in
            if err <? 0 then ret off
            else store pte 0 ;; move_loop n' old_addr new_addr (off + PAGE_SIZE)
          else move_loop n' old_addr new_addr (off + PAGE_SIZE)
      | None => move_loop n' old_addr new_addr (off + PAGE_SIZE)
      end
  end.

(** The loop that takes the moved entries back. *)
Fixpoint move_back (n : nat) (old_addr new_addr back : Z) : V unit :=
  match n with
  | O => ret tt
  | S n' =>
      let* p := find_pte (u64 (new_addr + back)) in
      (match p with
       | None => ret tt
       | Some pte =>
           let* e := load pte in
           when (has_frame e)
             (let* old := find_pte (u64 (old_addr + back)) in
              (match old with None => fun _ => None | Some o => store o e end) ;;
              store pte 0)
       end) ;;
      move_back n' old_addr new_addr (back + PAGE_SIZE)
  end.

(** [len] is a multiple of the page size. *)
Definition move_locked (old_addr len new_addr new_len : Z) : V Z :=
  let* err := range_isolate old_addr (u64 (old_addr + len)) in
  if negb (err =? 0) then ret err
  else
    let* src := asks (fun s => vm_find (vm s) old_addr) in
    let* r := get_area src in
    let* dst := area_new new_addr (u64 (new_addr + new_len)) (va_prot r) (va_flags r) in
    if dst =? 0 then ret (- ENOMEM)
    else
      put_area dst (VmArea new_addr (u64 (new_addr + new_len)) (va_prot r) (va_flags r)
                      (va_fops r) (va_file r) (va_offset r)) ;;
      let* off := move_loop (Z.to_nat (len / PAGE_SIZE)) old_addr new_addr 0 in
      if off <? len then
        move_back (Z.to_nat (off / PAGE_SIZE)) old_addr new_addr 0 ;;
        area_free dst ;;
        ret (- ENOMEM)
      else
        area_remove src ;;
        area_free src ;;
        area_insert dst ;;
        ret 0.

(** The error number and the new address. *)
Definition remap_locked (old_addr old_len new_len flags : Z) : V (Z * Z) :=
  let old_len := PAGE_ALIGN_UP old_len in
  let new_len := PAGE_ALIGN_UP new_len in
  let old_end := u64 (old_addr + old_len) in
  if negb (Z.land old_addr (not64 PAGE_MASK) =? 0) || (old_len =? 0) || (new_len =? 0)
     || (old_end <? old_addr) then ret (- EINVAL, 0)
  else
    let* a := asks (fun s => vm_find (vm s) old_addr) in
    let* r := (if a =? 0 then ret None else let* r := get_area a in ret (Some r)) in
    match r with
    | None => ret (- EFAULT, 0)
    | Some r =>
        if va_end r <? old_end then ret (- EFAULT, 0)
        else if new_len <=? old_len then
          let* err := (if new_len <? old_len
                       then unmap_locked (u64 (old_addr + new_len)) (old_len - new_len) else ret 0) in
          ret (if negb (err =? 0) then (err, 0) else (0, old_addr))
        else
          let new_end := u64 (old_addr + new_len) in
          let* free := asks (fun s => if (old_end =? va_end r) && user_range old_addr new_end
                                      then vm_range_free (vm s) old_end new_end else Some false) in
          if free : bool then
            put_area a (with_end new_end r) ;;
            ret (0, old_addr)
          else if Z.land flags MREMAP_MAYMOVE =? 0 then ret (- ENOMEM, 0)
          else
            let* new_addr := asks (fun s => find_gap (vm s) new_len) in
            if new_addr =? 0 then ret (- ENOMEM, 0)
            else
              let* err := move_locked old_addr old_len new_addr new_len in
              ret (if err =? 0 then (0, new_addr) else (err, 0))
    end.

Definition remap_fixed_locked (old_addr old_len new_len flags new_addr : Z) : V (Z * Z) :=
  let old_len := PAGE_ALIGN_UP old_len in
  let new_len := PAGE_ALIGN_UP new_len in
  let old_end := u64 (old_addr + old_len) in
  let new_end := u64 (new_addr + new_len) in
  if negb (Z.land old_addr (not64 PAGE_MASK) =? 0) || negb (Z.land new_addr (not64 PAGE_MASK) =? 0)
     || (old_len =? 0) || (new_len =? 0) || (old_end <? old_addr)
     || (Z.land flags MREMAP_MAYMOVE =? 0) || negb (user_range new_addr new_end)
  then ret (- EINVAL, 0)
  else if (new_addr <? old_end) && (old_addr <? new_end) then ret (- EINVAL, 0)
  else
    let* a := asks (fun s => vm_find (vm s) old_addr) in
    let* bad := (if a =? 0 then ret true
                 else let* r := get_area a in ret (va_end r <? old_end)) in
    if bad : bool then ret (- EFAULT, 0)
    else
      let* err := unmap_locked new_addr new_len in
      if negb (err =? 0) then ret (err, 0)
      else
        let* err := (if new_len <? old_len
                     then unmap_locked (u64 (old_addr + new_len)) (old_len - new_len) else ret 0) in
        if negb (err =? 0) then ret (err, 0)
        else
          let old_len := if new_len <? old_len then new_len else old_len in
          let* err := move_locked old_addr old_len new_addr new_len in
          ret (if err =? 0 then (0, new_addr) else (err, 0)).

(** ** Page faults *)

(** The access is already allowed by the entry. *)
Definition allows (e : Z) (write : bool) : bool :=
  negb (Z.land e MMU_PRESENT =? 0) && (negb write || negb (Z.land e MMU_WRITABLE =? 0)).

(** The part of [fault_locked] that gives the page a frame and its rights. *)
Definition fault_page (va prot : Z) (write : bool) : V bool :=
  let* p := frame_for va prot in
  match p with
  | None => ret false
  | Some pte =>
      let* e := load pte in
      let* ok := (if write && negb (Z.land e PTE_COW =? 0) then cow_break va pte else ret true) in
      if negb ok then ret false
      else
        let* e := load pte in
        store pte (pte_with_prot e prot) ;;
        ret true
  end.

Definition fault_locked (addr : Z) (write : bool) : V bool :=
  let* a := asks (fun s => vm_find (vm s) addr) in
  let* r := (if a =? 0 then ret None else let* r := get_area a in ret (Some r)) in
  match r with
  | None => ret false
  | Some r =>
      if Z.land (va_prot r) (if write then VM_WRITE else VM_READ) =? 0 then ret false
      else
        let va := Z.land addr PAGE_MASK in
        let* p := find_pte va in
        let* done := (match p with
                      | None => ret false
                      | Some pte => let* e := load pte in ret (allows e write)
                      end) in
        if done : bool then ret true
        else fault_page va (va_prot r) write
  end.

(** The area of an address if it permits the access, null otherwise. *)
Definition permitted_area (va : Z) (write : bool) : V Z :=
  let* a := asks (fun s => vm_find (vm s) va) in
  if a =? 0 then ret 0
  else
    let* r := get_area a in
    ret (if Z.land (va_prot r) (if write then VM_WRITE else VM_READ) =? 0 then 0 else a).

(** A page of the range: its entry allows the access already, or it is faulted in. *)
Definition touch_page (va : Z) (write : bool) : V bool :=
  let* p := find_pte va in
  let* ok := (match p with
              | None => ret false
              | Some pte => let* e := load pte in ret (allows e write)
              end) in
  if ok : bool then ret true else fault_locked va write.

(** The loop of [populate_locked]; [a] is the area found last, null at first. *)
Fixpoint populate_loop (fuel : nat) (va end_ a : Z) (write : bool) : V bool :=
  match fuel with
  | O => fun _ => None
  | S fuel' =>
      if negb (va <? end_) then ret true
      else
        let* stale := (if a =? 0 then ret true
                       else let* r := get_area a in ret (va_end r <=? va)) in
        let* a := (if stale : bool then permitted_area va write else ret a) in
        if a =? 0 then ret false
        else
          let* ok := touch_page va write in
          if ok : bool then populate_loop fuel' (u64 (va + PAGE_SIZE)) end_ a write
          else ret false
  end.

Definition populate_locked (addr len : Z) (write : bool) : V bool :=
  if len =? 0 then ret true
  else
    let end_ := u64 (addr + len) in
    if (end_ <? addr) || negb (user_range addr end_) then ret false
    else
      let va := Z.land addr PAGE_MASK in
      populate_loop (S (Z.to_nat ((end_ - va + PAGE_SIZE - 1) / PAGE_SIZE))) va end_ 0 write.

(** ** Writing to an address space *)

(** The frame of a page that is written: the page's own if it is copied on write. *)
Definition frame_to_write (va prot : Z) : V (option Z) :=
  let* p := frame_for va prot in
  match p with
  | None => ret None
  | Some pte =>
      let* e := load pte in
      let* ok := (if negb (Z.land e PTE_COW =? 0) then cow_break va pte else ret true) in
      if negb ok then ret None
      else let* e := load pte in ret (Some (Z.land e PTE_FRAME))
  end.

(** The [memcpy] of [n] bytes of [src] to offset [off] of a frame; [None] is a
    null source, which makes it a [memset] to 0. *)
Definition copy_in (frame off n : Z) (src : option (list Z)) : V unit :=
  let* ws := get_frame frame in
  let* bytes := asks (fun _ =>
    data ← (match src with
            | Some bs => slice bs 0 n
            | None => Some (replicate (Z.to_nat n) 0)
            end);
    splice (frame_bytes ws) off data) in
  set_frame frame (frame_words 512 bytes).

(** The loop of [write_locked].  A round writes up to the end of a page. *)
Fixpoint write_loop (fuel : nat) (addr len : Z) (src : option (list Z)) : V Z :=
  match fuel with
  | O => fun _ => None
  | S fuel' =>
      if len =? 0 then ret 0
      else
        let* a := asks (fun s => vm_find (vm s) addr) in
        if a =? 0 then ret (- EFAULT)
        else
          let* r := get_area a in
          let* frame := frame_to_write (Z.land addr PAGE_MASK) (va_prot r) in
          match frame with
          | None => ret (- ENOMEM)
          | Some frame =>
              let off := Z.land addr (not64 PAGE_MASK) in
              let n := if PAGE_SIZE - off <? len then PAGE_SIZE - off else len in
              copy_in frame off n src ;;
              write_loop fuel' (u64 (addr + n)) (len - n) (drop (Z.to_nat n) <$> src)
          end
  end.

Definition write_locked (addr len : Z) (src : option (list Z)) : V Z :=
  write_loop (S (S (Z.to_nat (len / PAGE_SIZE + 1)))) addr len src.

Definition vm_translate (addr : Z) : V Z :=
  let* p := find_pte (Z.land addr PAGE_MASK) in
  match p with
  | None => ret 0
  | Some pte =>
      let* e := load pte in
      ret (if has_frame e then Z.lor (Z.land e PTE_FRAME) (Z.land addr (not64 PAGE_MASK)) else 0)
  end.

(** ** Creating, copying and releasing address spaces *)

(** [vm_create]; [None] is a null pointer. *)
Definition vm_create (k : kernel A) : option (option vm_space * kernel A) :=
  let '(ok, o) := ask (mallocs k) in
  let k := Kernel (machine k) o (events k) in
  if negb ok then Some (None, k)
  else
    '(root, m) ← setup_kvm (machine k);
    let k := Kernel m (mallocs k) (events k) in
    if root =? 0 then Some (None, k)
    else Some (Some (VmSpace root 1 (rb_init (RbTree 0 ∅)) ∅ 0 0 USER_MMAP_BASE []), k).

(** The loop of [vm_release] over the areas that are left. *)
Fixpoint release_loop (fuel : nat) : V unit :=
  match fuel with
  | O => fun _ => None
  | S fuel' =>
      let* a := asks (fun s => rb_first (areas (vm s))) in
      if a =? 0 then ret tt
      else
        let* r := get_area a in
        flush_area r ;;
        area_remove a ;;
        area_free a ;;
        release_loop fuel'
  end.

(** [vm_release]; the result tells whether the space is gone. *)
Definition vm_release : V bool :=
  upd_vm (fun v => with_ref_count (ref_count v - 1) v) ;;
  let* refs := gets (fun s => ref_count (vm s)) in
  if 0 <? refs then ret false
  else
    let* fuel := gets (fun s => tree_fuel (areas (vm s))) in
    release_loop fuel ;;
    let* l := gets (fun s => pending (vm s)) in
    run_flush l ;;
    let* root := gets (fun s => page_map (vm s)) in
    on_machine_ (free_vm root) ;;
    ret true.

Definition vm_acquire : V unit := upd_vm (fun v => with_ref_count (ref_count v + 1) v).

(** The page loop of [clone_locked] for one area of the source, whose page map
    is [src_map]; the state is that of the new space.  The result is false when
    no table could be allocated. *)
Fixpoint clone_pages (fuel : nat) (src_map : Z) (r : vm_area) (va : Z) : V bool :=
  match fuel with
  | O => fun _ => None
  | S fuel' =>
      if negb (va <? va_end r) then ret true
      else
        let* p := asks (fun s => mmu_find_pte src_map va (machine (ker s))) in
        let* e := (match p with None => ret 0 | Some pte => load pte end) in
        match p with
        | Some pte =>
            if has_frame e then
              when ((Z.land (va_flags r) VMA_SHARED =? 0) && (Z.land e PTE_COW =? 0))
                (store pte (Z.lor (Z.ldiff e MMU_WRITABLE) PTE_COW)) ;;
              let* e := load pte in
              let* err := map_page_vm va (Z.land e PTE_FRAME) (Z.ldiff e PTE_FRAME) in
              if err <? 0 then ret false
              else
                let* e := load pte in
                pmm_share_page (Z.land e PTE_FRAME) ;;
                clone_pages fuel' src_map r (u64 (va + PAGE_SIZE))
            else clone_pages fuel' src_map r (u64 (va + PAGE_SIZE))
        | None => clone_pages fuel' src_map r (u64 (va + PAGE_SIZE))
        end
  end.

(** The area loop of [clone_locked] from area [a] of the source. *)
Fixpoint clone_areas (fuel : nat) (src : vm_space) (a : Z) : V bool :=
  match fuel with
  | O => fun _ => None
  | S fuel' =>
      if a =? 0 then ret true
      else
        let* r := asks (fun _ => recs src !! a) in
        let* copy := area_new (va_start r) (va_end r) (va_prot r) (va_flags r) in
        if copy =? 0 then ret false
        else
          area_set_file copy r (va_offset r) ;;
          area_insert copy ;;
          let* ok := clone_pages (S (Z.to_nat ((va_end r - va_start r + PAGE_SIZE - 1) / PAGE_SIZE)))
                       (page_map src) r (va_start r) in
          if negb ok then ret false
          else
            let* next := asks (fun _ => area_next src a) in
            clone_areas fuel' src next
  end.

(** [vm_clone]: the new space, or none. *)
Definition clone_locked (src : vm_space) (k : kernel A) : option (option vm_space * kernel A) :=
  '(new, k) ← vm_create k;
  match new with
  | None => Some (None, k)
  | Some v =>
      let v := VmSpace (page_map v) (ref_count v) (areas v) (recs v)
                 (brk_start src) (brk src) (mmap_base src) (pending v) in
      first ← rb_first (areas src);
      '(ok, s) ← clone_areas (tree_fuel (areas src)) src first (State v k);
      if ok : bool then Some (Some (vm s), ker s)
      else '(_, s) ← vm_release s; Some (None, ker s)
  end.

(** ** Entry points *)

Definition vm_map (addr len prot flags : Z) (fixed : bool) : V (Z * Z) :=
  let* r := map_locked addr len prot flags fixed in drain ;; ret r.
Definition vm_unmap (addr len : Z) : V Z := let* r := unmap_locked addr len in drain ;; ret r.
Definition vm_protect (addr len prot : Z) : V Z := protect_locked addr len prot.
Definition vm_discard (addr len : Z) : V Z := discard_locked addr len.
Definition vm_brk (new_brk : Z) : V Z := let* r := brk_locked new_brk in drain ;; ret r.
Definition vm_remap (old_addr old_len new_len flags : Z) : V (Z * Z) :=
  let* r := remap_locked old_addr old_len new_len flags in drain ;; ret r.
Definition vm_remap_fixed (old_addr old_len new_len flags new_addr : Z) : V (Z * Z) :=
  let* r := remap_fixed_locked old_addr old_len new_len flags new_addr in drain ;; ret r.
Definition vm_sync (addr len : Z) : V Z := let* r := sync_locked addr len in drain ;; ret r.

Definition vm_attach_file (start ops file offset : Z) : V Z :=
  let* a := asks (fun s => vm_find (vm s) start) in
  if a =? 0 then ret (- EINVAL)
  else
    let* r := get_area a in
    if negb (va_start r =? start) || negb (va_file r =? 0) then ret (- EINVAL)
    else
      put_area a (VmArea (va_start r) (va_end r) (va_prot r) (va_flags r) ops file offset) ;;
      log (Acquire ops file) ;;
      ret 0.

Definition vm_insert_frame (va frame : Z) : V Z := insert_frame_locked va frame.
Definition vm_fault (addr : Z) (write : bool) : V bool := fault_locked addr write.

(** The lock-free test of [vm_populate]: every entry already allows the access. *)
Fixpoint populate_fast (fuel : nat) (va end_ need : Z) : V bool :=
  match fuel with
  | O => fun _ => None
  | S fuel' =>
      if negb (va <? end_) then ret true
      else
        let* p := find_pte va in
        match p with
        | None => ret false
        | Some pte =>
            let* e := load pte in
            if negb (Z.land e need =? need) then ret false
            else populate_fast fuel' (u64 (va + PAGE_SIZE)) end_ need
        end
  end.

Definition vm_populate (addr len : Z) (write : bool) : V bool :=
  let end_ := u64 (addr + len) in
  let va := Z.land addr PAGE_MASK in
  let need := Z.lor (Z.lor MMU_PRESENT MMU_USER) (if write then MMU_WRITABLE else 0) in
  let* fast := (if user_range addr end_
                then populate_fast (S (Z.to_nat ((end_ - va + PAGE_SIZE - 1) / PAGE_SIZE))) va end_ need
                else ret false) in
  if fast : bool then ret true else populate_locked addr len write.

Definition vm_write (addr len : Z) (src : option (list Z)) : V Z := write_locked addr len src.
End vm.
