(* ===== verification/VmPages.v ===== *)
(** * The pages of an address space

    [pte s va] is the entry in effect for a page.  [pages_ok o T s] says that
    the page map of a space is a tree of tables, [T] being those on the paths of
    user addresses, and that the ledger of frames balances: the owners of a
    frame are its entries in the page map, its places in the queue of write
    backs, one for a table, and [o] others.  Every operation of vm.c keeps the
    ledger with the same [o], so it neither leaks frames nor gives up frames of
    somebody else. *)

From Stdlib Require Import ZArith Lia Bool.
From stdpp Require Import base list option gmap.
From S2P Require Import Prelude Mmu Frames PageTable PageTableFacts StateMonad Rbtree VmArea VmAreaFacts Vm.
Open Scope Z_scope.
Open Scope prog_scope.

(** ** Addresses of pages *)

Definition user_va (va : Z) : Prop := USER_ADDR_MIN <= va < USER_ADDR_LIMIT.
Definition user_page (va : Z) : Prop := user_va va /\ aligned va.

Lemma table_index_eq shift va : 0 <= shift -> table_index shift va = (va / 2 ^ shift) mod 512.
Proof.
  intros Hs. unfold table_index. rewrite Z.shiftr_div_pow2 by done.
  change 0x1FF with (Z.ones 9). by rewrite Z.land_ones by lia.
Qed.

Lemma same_page_eq va va' : user_page va -> user_page va' -> same_page va va' = (va' =? va).
Proof.
  intros [[Hl Hh] Ha] [[Hl' Hh'] Ha']. unfold aligned, PAGE_SIZE, USER_ADDR_MIN, USER_ADDR_LIMIT in *.
  destruct (Z.eqb_spec va' va) as [-> | Hne]; [apply same_prefix_refl |].
  apply not_true_is_false. intros H. apply Hne. unfold same_page in H. cbn [same_prefix] in H.
  rewrite !andb_true_iff, !Z.eqb_eq in H. destruct H as ((((_ & H0) & H1) & H2) & H3).
  unfold ix in *. rewrite !table_index_eq in * by lia.
  change (39 - 9 * Z.of_nat 0) with 39 in *. change (39 - 9 * Z.of_nat 1) with 30 in *.
  change (39 - 9 * Z.of_nat 2) with 21 in *. change (39 - 9 * Z.of_nat 3) with 12 in *.
  change (2 ^ 39) with (2 ^ 12 * 512 * 512 * 512) in *. change (2 ^ 30) with (2 ^ 12 * 512 * 512) in *.
  change (2 ^ 21) with (2 ^ 12 * 512) in *. rewrite <- !Z.div_div in * by lia.
  change (2 ^ 12) with 4096 in *.
  pose proof (Z.div_mod va 4096). pose proof (Z.div_mod va' 4096).
  set (x := va / 4096) in *. set (x' := va' / 4096) in *.
  pose proof (Z.div_mod x 512). pose proof (Z.div_mod x' 512).
  set (y := x / 512) in *. set (y' := x' / 512) in *.
  pose proof (Z.div_mod y 512). pose proof (Z.div_mod y' 512).
  set (z := y / 512) in *. set (z' := y' / 512) in *.
  pose proof (Z.div_mod z 512). pose proof (Z.div_mod z' 512).
  assert (0 <= z / 512 < 512 /\ 0 <= z' / 512 < 512) as [Hw Hw'].
  { pose proof (Z.mod_pos_bound z 512). pose proof (Z.mod_pos_bound z' 512).
    pose proof (Z.mod_pos_bound y 512). pose proof (Z.mod_pos_bound y' 512).
    pose proof (Z.mod_pos_bound x 512). pose proof (Z.mod_pos_bound x' 512). lia. }
  rewrite !(Z.mod_small (_ / 512)) in H0 by done. lia.
Qed.

Lemma same_page_refl va : same_page va va = true.
Proof. apply same_prefix_refl. Qed.

Lemma page_floor addr : user_va addr -> user_page (addr / PAGE_SIZE * PAGE_SIZE) /\
  addr / PAGE_SIZE * PAGE_SIZE <= addr < addr / PAGE_SIZE * PAGE_SIZE + PAGE_SIZE.
Proof.
  unfold user_page, user_va, aligned, USER_ADDR_MIN, USER_ADDR_LIMIT, PAGE_SIZE. intros H.
  rewrite Z.mod_mul by lia. pose proof (Z.div_mod addr 4096). pose proof (Z.mod_pos_bound addr 4096). lia.
Qed.

(** ** Counting the entries with a frame *)

Definition frame_of (e : Z) : Z := Z.land e PTE_FRAME.

Lemma has_frame_of e : has_frame e = negb (frame_of e =? 0).
Proof. done. Qed.

Lemma frame_of_aligned e : frame_of e mod PAGE_SIZE = 0.
Proof.
  unfold frame_of, PTE_FRAME, PAGE_SIZE. change 0x1000 with (2 ^ 12).
  rewrite <- Z.land_ones by lia. rewrite <- Z.land_assoc. 
  change (Z.land 0x000FFFFFFFFFF000 (Z.ones 12)) with 0. apply Z.land_0_r.
Qed.

(** The number of pages in a range whose entry has the frame [f]. *)
Definition uses (e : Z -> Z) (f start end_ : Z) : Z :=
  zcount (fun n => frame_of (e (n * PAGE_SIZE)) =? f)
    (Z.to_nat (end_ / PAGE_SIZE - start / PAGE_SIZE)) (start / PAGE_SIZE).

Lemma zcount_update f g n i k : i <= k < i + Z.of_nat n ->
  (forall j, i <= j < i + Z.of_nat n -> j <> k -> g j = f j) ->
  zcount g n i = zcount f n i + (if g k then 1 else 0) - (if f k then 1 else 0).
Proof.
  revert i. induction n as [| n IH]; intros i Hk Hfg; [lia |].
  change (zcount g (S n) i) with ((if g i then 1 else 0) + zcount g n (i + 1)).
  change (zcount f (S n) i) with ((if f i then 1 else 0) + zcount f n (i + 1)).
  destruct (Z.eq_dec i k) as [-> | Hne].
  - rewrite (zcount_ext g f) by (intros; apply Hfg; lia). lia.
  - rewrite (Hfg i), IH by (lia || (intros; apply Hfg; lia)). lia.
Qed.

Lemma page_times va : aligned va -> va = va / PAGE_SIZE * PAGE_SIZE.
Proof. unfold aligned, PAGE_SIZE. intros H. pose proof (Z.div_mod va 4096). lia. Qed.

Lemma times_page n : aligned (n * PAGE_SIZE) /\ n * PAGE_SIZE / PAGE_SIZE = n.
Proof. unfold aligned, PAGE_SIZE. rewrite Z.mod_mul, Z.div_mul by lia. done. Qed.

Section uses.
Variables (start end_ : Z).
Hypotheses (Hs : aligned start) (He : aligned end_).

Lemma uses_range n : start / PAGE_SIZE <= n < start / PAGE_SIZE + Z.of_nat (Z.to_nat (end_ / PAGE_SIZE - start / PAGE_SIZE))
  <-> start <= n * PAGE_SIZE < end_.
Proof.
  rewrite (page_times start Hs), (page_times end_ He). rewrite !(proj2 (times_page _)).
  unfold PAGE_SIZE. lia.
Qed.

Lemma uses_ext e e' f : (forall va, aligned va -> start <= va < end_ -> e va = e' va) ->
  uses e f start end_ = uses e' f start end_.
Proof.
  intros H. apply zcount_ext. intros n Hn%uses_range. by rewrite H by (done || apply times_page).
Qed.

Lemma uses_frames e e' f :
  (forall va, aligned va -> start <= va < end_ -> frame_of (e va) = frame_of (e' va)) ->
  uses e f start end_ = uses e' f start end_.
Proof.
  intros H. apply zcount_ext. intros n Hn%uses_range. by rewrite H by (done || apply times_page).
Qed.

Lemma uses_update e e' f va : aligned va -> start <= va < end_ ->
  (forall va', aligned va' -> start <= va' < end_ -> va' <> va -> e' va' = e va') ->
  uses e' f start end_ = uses e f start end_ + (if frame_of (e' va) =? f then 1 else 0)
                         - (if frame_of (e va) =? f then 1 else 0).
Proof.
  intros Ha Hva H. unfold uses. rewrite (zcount_update (fun n => frame_of (e (n * PAGE_SIZE)) =? f)
    (fun n => frame_of (e' (n * PAGE_SIZE)) =? f) _ _ (va / PAGE_SIZE)).
  - by rewrite <- !page_times.
  - apply uses_range. by rewrite <- page_times.
  - intros n Hr%uses_range Hn. rewrite H; [done | apply times_page | done |]. intros E. apply Hn.
    by rewrite <- E, (proj2 (times_page n)).
Qed.

Lemma uses_nonneg e f : 0 <= uses e f start end_.
Proof. apply zcount_bounds. Qed.

Lemma uses_pos e f : 0 < uses e f start end_ <->
  exists va, aligned va /\ start <= va < end_ /\ frame_of (e va) = f.
Proof.
  split.
  - intros (n & Hn%uses_range & Hf%Z.eqb_eq)%zcount_pos. exists (n * PAGE_SIZE).
    split; [apply times_page | done].
  - intros (va & Ha & Hva & Hf). pose proof (uses_nonneg e f).
    destruct (Z.eq_dec (uses e f start end_) 0) as [H0 |]; [| lia].
    rewrite (page_times va Ha) in Hva, Hf. apply uses_range in Hva.
    apply (proj1 (zcount_zero _ _ _) H0), Z.eqb_neq in Hva. done.
Qed.
End uses.

Lemma uses_split e f start mid end_ : start <= mid <= end_ ->
  uses e f start end_ = uses e f start mid + uses e f mid end_.
Proof.
  intros H. unfold uses.
  assert (start / PAGE_SIZE <= mid / PAGE_SIZE <= end_ / PAGE_SIZE) as Hd
    by (split; apply Z.div_le_mono; unfold PAGE_SIZE; lia).
  replace (Z.to_nat (end_ / PAGE_SIZE - start / PAGE_SIZE)) with
    (Z.to_nat (mid / PAGE_SIZE - start / PAGE_SIZE) + Z.to_nat (end_ / PAGE_SIZE - mid / PAGE_SIZE))%nat by lia.
  rewrite zcount_app. do 2 f_equal. lia.
Qed.

Lemma uses_step e f va end_ : aligned va -> va + PAGE_SIZE <= end_ ->
  uses e f va end_ = (if frame_of (e va) =? f then 1 else 0) + uses e f (va + PAGE_SIZE) end_.
Proof.
  intros Ha Hle. rewrite (uses_split e f va (va + PAGE_SIZE)) by (unfold PAGE_SIZE in *; lia). f_equal.
  unfold uses. assert ((va + PAGE_SIZE) / PAGE_SIZE = va / PAGE_SIZE + 1) as ->.
  { unfold PAGE_SIZE. rewrite <- (Z.mul_1_l 4096) at 1. apply Z.div_add. lia. }
  replace (Z.to_nat (va / PAGE_SIZE + 1 - va / PAGE_SIZE)) with 1%nat by lia.
  cbn [zcount]. unfold zcount. rewrite <- (page_times va Ha). lia.
Qed.

Lemma uses_empty e f va : uses e f va va = 0.
Proof. unfold uses. by rewrite Z.sub_diag. Qed.

(** ** The invariant *)

Section pages.
Context {A : Type} `{!Frames A, !FramesOk A}.
Implicit Types (s : state A) (o : Z -> Z) (T : gset Z).

Definition mm s := mem (machine (ker s)).
Definition root s := page_map (vm s).
Definition kroot s := kernel_pml4 (machine (ker s)).
Definition hold s := held (frames (machine (ker s))).
Definition pte s (va : Z) : Z := xlate (mm s) (root s) va.
Definition count s (f : Z) : Z := uses (pte s) f USER_ADDR_MIN USER_ADDR_LIMIT.
Definition pend (l : list vm_flush) (f : Z) : Z :=
  Z.of_nat (length (filter (fun w => fl_frame w = f) l)).

(** A frame with a table of the page map, or of the kernel's. *)
Definition reached s (q : Z) : Prop := exists n va, (n <= 3)%nat /\
  (walk (mm s) (root s) n va = Some q \/ walk (mm s) (kroot s) n va = Some q).
Definition not_table s (f : Z) : Prop := ~ reached s f.

Lemma reached_root s n va q : (n <= 3)%nat -> walk (mm s) (root s) n va = Some q -> reached s q.
Proof. intros Hn Hw. exists n, va. auto. Qed.
Lemma reached_kernel s n va q : (n <= 3)%nat -> walk (mm s) (kroot s) n va = Some q -> reached s q.
Proof. intros Hn Hw. exists n, va. auto. Qed.

Definition data_frame s (f : Z) : Prop := not_table s f /\ is_table (mm s) f.

(** The kernel's page map is in order, has no tables below user addresses but the
    lowest one, and all of its tables are the kernel's.  A page map has its upper
    half, and the first entry of its lowest table is that of the kernel's. *)
Record kernel_map o s : Prop := {
  km_wf : pt_wf (machine (ker s)) (kroot s);
  km_owned : forall n va q, (n <= 3)%nat -> walk (mm s) (kroot s) n va = Some q -> 0 < o q;
  km_user : forall va, user_va va -> walk (mm s) (kroot s) 2 va = None /\
    (ix 0 va <> 0 -> walk (mm s) (kroot s) 1 va = None);
  km_high : forall va, 256 <= ix 0 va ->
    rd_word (mm s) (root s) (ix 0 va) = rd_word (mm s) (kroot s) (ix 0 va);
  km_low : exists low klow, walk (mm s) (root s) 1 0 = Some low /\ walk (mm s) (kroot s) 1 0 = Some klow /\
    rd_word (mm s) low 0 = rd_word (mm s) klow 0;
}.

Record pages_ok o T s : Prop := {
  po_wf : pt_wf (machine (ker s)) (root s);
  po_small : forall va, user_va va -> walk (mm s) (root s) 3 va = None -> pte s va = 0;
  po_tables : forall q, q ∈ T <-> exists n va, (n <= 3)%nat /\ user_va va /\
    walk (mm s) (root s) n va = Some q;
  po_kernel : forall n va q, (n <= 3)%nat -> walk (mm s) (root s) n va = Some q ->
    q ∈ T \/ 0 < o q;
  po_ledger : forall f, f <> 0 -> f mod PAGE_SIZE = 0 ->
    hold s f = o f + (if decide (f ∈ T) then 1 else 0) + count s f + pend (pending (vm s)) f;
  po_excl : forall q, q ∈ T -> o q = 0;
  po_user : forall va, user_page va -> has_frame (pte s va) = true ->
    Z.land (pte s va) MMU_USER <> 0;
  po_data : forall f, f <> 0 -> 0 < count s f + pend (pending (vm s)) f -> data_frame s f;
  po_queue : forall w, w ∈ pending (vm s) -> fl_frame w mod PAGE_SIZE = 0;
  po_empty : forall va, user_page va -> has_frame (pte s va) = false -> pte s va = 0;
  po_kmap : kernel_map o s;
}.

Definition give (f : Z) o : Z -> Z := fun q => if q =? f then o q + 1 else o q.
Definition take_off (f : Z) o : Z -> Z := fun q => if q =? f then o q - 1 else o q.

(** Two ledgers agree on frames. *)
Definition same_owners o o' : Prop := forall q, q <> 0 -> q mod PAGE_SIZE = 0 -> o q = o' q.

Lemma user_range_aligned : aligned USER_ADDR_MIN /\ aligned USER_ADDR_LIMIT.
Proof. done. Qed.

Lemma count_pos s f : 0 < count s f <-> exists va, user_page va /\ frame_of (pte s va) = f.
Proof.
  unfold count. rewrite uses_pos by apply user_range_aligned. unfold user_page, user_va.
  split; intros (va & ? & ?); exists va; tauto.
Qed.
Lemma count_nonneg s f : 0 <= count s f.
Proof. apply uses_nonneg. Qed.
Lemma pend_nonneg l f : 0 <= pend l f.
Proof. unfold pend. lia. Qed.
Lemma pend_app l1 l2 f : pend (l1 ++ l2) f = pend l1 f + pend l2 f.
Proof. unfold pend. rewrite filter_app, length_app. lia. Qed.
Lemma pend_cons w l f : pend (w :: l) f = (if fl_frame w =? f then 1 else 0) + pend l f.
Proof. unfold pend. rewrite filter_cons. case_decide; zcases; simpl; lia. Qed.
Lemma pend_pos l f : 0 < pend l f <-> exists w, w ∈ l /\ fl_frame w = f.
Proof.
  induction l as [| x l IH].
  - unfold pend. simpl. split; [lia | intros (w & Hw & _); by apply elem_of_nil in Hw].
  - rewrite pend_cons. pose proof (pend_nonneg l f). destruct (Z.eqb_spec (fl_frame x) f) as [Hx | Hx].
    + split; [| lia]. intros _. exists x. split; [by left | done].
    + rewrite Z.add_0_l, IH. split; intros (w & Hw & Hf); exists w; [set_solver |].
      apply elem_of_cons in Hw as [-> | Hw]; [done |]. done.
Qed.

(** A counted frame is a frame of the allocator. *)
Lemma counted_frame o T s f : pages_ok o T s -> f <> 0 -> f mod PAGE_SIZE = 0 -> 0 < hold s f ->
  frame_ok f.
Proof. intros Hok Hf Hm Hh. by apply (held_frame _ _ (wf_frames _ _ (po_wf _ _ _ Hok))). Qed.

Lemma hold_nonneg o T s f : pages_ok o T s -> 0 <= hold s f.
Proof. intros Hok. apply (held_owned _ f (wf_frames _ _ (po_wf _ _ _ Hok))). Qed.

Lemma table_not_data o T s f : pages_ok o T s -> f <> 0 -> 0 < count s f + pend (pending (vm s)) f ->
  f ∉ T.
Proof.
  intros Hok Hf Hc Hin. destruct (po_data _ _ _ Hok f Hf Hc) as [Hn _].
  apply (po_tables _ _ _ Hok) in Hin as (n & va & Hle & _ & Hw). by apply Hn, (reached_root s n va).
Qed.

Lemma page_frame o T s va : pages_ok o T s -> user_page va -> has_frame (pte s va) = true ->
  0 < count s (frame_of (pte s va)) /\ frame_of (pte s va) <> 0 /\ data_frame s (frame_of (pte s va)).
Proof.
  intros Hok Hva Hf. assert (0 < count s (frame_of (pte s va))) as Hc by (apply count_pos; eauto).
  assert (frame_of (pte s va) <> 0) as H0
    by (rewrite has_frame_of in Hf; by apply negb_true_iff, Z.eqb_neq in Hf).
  split; [done |]. split; [done |]. apply (po_data _ _ _ Hok); [done |].
  pose proof (pend_nonneg (pending (vm s)) (frame_of (pte s va))). lia.
Qed.

(** ** Changes of the ledger *)

Lemma same_walks s s' : root s' = root s ->
  (forall n va q, (n <= 3)%nat -> walk (mm s) (root s) n va = Some q -> mm s' !! q = mm s !! q) ->
  (forall n va, (n <= 3)%nat -> walk (mm s') (root s') n va = walk (mm s) (root s) n va) /\
  (forall va, pte s' va = pte s va).
Proof.
  intros Hr Hm.
  assert (forall n va, (n <= 3)%nat -> walk (mm s') (root s') n va = walk (mm s) (root s) n va) as Hw.
  { intros n va Hn. rewrite Hr. apply walk_ext. intros k t Hk Ht. unfold rd_word.
    by rewrite (Hm k va t ltac:(lia) Ht). }
  split; [done |]. intros va. unfold pte, xlate. rewrite !Hw by lia.
  destruct (walk (mm s) (root s) 3 va) as [t |] eqn:E3.
  { unfold rd_word. by rewrite (Hm 3%nat va t ltac:(lia) E3). }
  destruct (walk (mm s) (root s) 2 va) as [t |] eqn:E2; [| done].
  unfold rd_word. by rewrite (Hm 2%nat va t ltac:(lia) E2).
Qed.

(** A page map whose tables are as they were. *)
Lemma pt_wf_same (m m' : phys A) r : pt_wf m r -> frames_inv (frames m') ->
  (forall n va q, (n <= 3)%nat -> walk (mem m) r n va = Some q ->
     mem m' !! q = mem m !! q /\ held (frames m') q = held (frames m) q) ->
  pt_wf m' r /\ forall n va, (n <= 3)%nat -> walk (mem m') r n va = walk (mem m) r n va.
Proof.
  intros [W1 W2 W3 W4] Hfr Hm.
  assert (forall n va, (n <= 3)%nat -> walk (mem m') r n va = walk (mem m) r n va) as Hw.
  { intros n va Hn. apply walk_ext. intros k t Hk Ht. unfold rd_word. by rewrite (proj1 (Hm k va t ltac:(lia) Ht)). }
  split; [| done]. constructor; [done | | |].
  - intros n va t Hn Ht. rewrite Hw in Ht by done. destruct (Hm n va t Hn Ht) as [E ->]. unfold is_table. rewrite E.
    by apply (W2 n va).
  - intros n1 n2 va1 va2 t Hn1 Hn2. rewrite !Hw by done. by apply W3.
  - intros n va t e Hn Ht. rewrite Hw in Ht by lia. unfold rd_word.
    destruct (Hm n va t ltac:(lia) Ht) as [-> _]. by apply (W4 n va t e).
Qed.

(** The kernel's tables, and the entries that a page map shares with it, are as
    they were. *)
Record kernel_same o s o' s' : Prop := {
  ks_frames : frames_inv (frames (machine (ker s')));
  ks_kroot : kroot s' = kroot s;
  ks_tables : forall n va q, (n <= 3)%nat -> walk (mm s) (kroot s) n va = Some q ->
    mm s' !! q = mm s !! q /\ hold s' q = hold s q /\ o' q = o q;
  ks_high : forall va, 256 <= ix 0 va -> rd_word (mm s') (root s') (ix 0 va) = rd_word (mm s) (root s) (ix 0 va);
  ks_low : forall low, walk (mm s) (root s) 1 0 = Some low ->
    walk (mm s') (root s') 1 0 = Some low /\ rd_word (mm s') low 0 = rd_word (mm s) low 0;
}.

Lemma kernel_map_update o s o' s' : kernel_map o s -> kernel_same o s o' s' ->
  kernel_map o' s' /\ forall n va, (n <= 3)%nat -> walk (mm s') (kroot s') n va = walk (mm s) (kroot s) n va.
Proof.
  intros [W Ho Hu Hh (low & klow & Hl & Hk & He)] [Hfr Hkr Ht Hhi Hlo].
  destruct (pt_wf_same (machine (ker s)) (machine (ker s')) (kroot s) W Hfr) as [W' Hw];
    [intros n va q Hn Hq; by destruct (Ht n va q Hn Hq) as (? & ? & _) |].
  assert (forall q i, (exists n va, (n <= 3)%nat /\ walk (mm s) (kroot s) n va = Some q) ->
    rd_word (mm s') q i = rd_word (mm s) q i) as Hrd.
  { intros q i (n & va & Hn & Hq). unfold rd_word. by rewrite (proj1 (Ht n va q Hn Hq)). }
  split; [| intros n va Hn; rewrite Hkr; by apply Hw]. constructor; rewrite ?Hkr.
  - done.
  - intros n va q Hn Hq. rewrite Hw in Hq by done. rewrite (proj2 (proj2 (Ht n va q Hn Hq))). by apply (Ho n va).
  - intros va Hva. rewrite !Hw by lia. by apply Hu.
  - intros va Hva. rewrite Hhi, Hh by done. symmetry. apply Hrd. exists O, va. split; [lia | done].
  - destruct (Hlo low Hl) as [Hl' E]. exists low, klow. split_and!; [done | by rewrite Hw by lia |].
    rewrite E, He. symmetry. apply Hrd. exists 1%nat, 0. split; [lia | done].
Qed.

(** The state changes, the tables and entries do not. *)
Record same_tables o s o' s' : Prop := {
  st_root : root s' = root s;
  st_kroot : kroot s' = kroot s;
  st_frames : frames_inv (frames (machine (ker s')));
  st_walked : forall q, reached s q -> mm s' !! q = mm s !! q /\ hold s' q = hold s q /\ o' q = o q;
  st_ledger : forall f, f <> 0 -> f mod PAGE_SIZE = 0 ->
    hold s' f - o' f - pend (pending (vm s')) f = hold s f - o f - pend (pending (vm s)) f;
  st_data : forall f, f <> 0 -> 0 < count s f + pend (pending (vm s')) f ->
    not_table s f /\ is_table (mm s') f;
  st_queue : forall w, w ∈ pending (vm s') -> fl_frame w mod PAGE_SIZE = 0;
}.

(** The same tables are reached. *)
Definition same_reach s s' : Prop := forall n va, (n <= 3)%nat ->
  walk (mm s') (root s') n va = walk (mm s) (root s) n va /\
  walk (mm s') (kroot s') n va = walk (mm s) (kroot s) n va.

Lemma same_reach_refl s : same_reach s s.
Proof. done. Qed.
Lemma same_reach_trans s1 s2 s3 : same_reach s1 s2 -> same_reach s2 s3 -> same_reach s1 s3.
Proof. intros H1 H2 n va Hn. destruct (H1 n va Hn) as [<- <-]. by apply H2. Qed.

Lemma not_table_same s s' f : same_reach s s' -> not_table s f -> not_table s' f.
Proof.
  intros Hw Hn (n & va & Hle & H). apply Hn. destruct (Hw n va Hle) as [E1 E2]. rewrite E1, E2 in H. by exists n, va.
Qed.

Lemma pages_ok_update o o' T s s' : pages_ok o T s -> same_tables o s o' s' ->
  pages_ok o' T s' /\ (forall va, pte s' va = pte s va) /\ same_reach s s'.
Proof.
  intros [W Hsm Ht Hk Hl Hx Hu Hd Hq Hem Hkm] [Hr Hkr Hfr Hwk Hled Hdat Hque].
  pose proof (fun n va q Hn Hw => Hwk q (reached_root s n va q Hn Hw)) as Hwr.
  pose proof (fun n va q Hn Hw => Hwk q (reached_kernel s n va q Hn Hw)) as Hwkr.
  destruct (same_walks s s' Hr) as [Hw Hp]; [intros n va q Hn Hq'; by apply (Hwr n va q) |].
  destruct (kernel_map_update o s o' s' Hkm) as [Hkm' Hkw].
  { constructor; try done; rewrite Hr.
    - intros va _. unfold rd_word. by rewrite (proj1 (Hwr O va (root s) ltac:(lia) eq_refl)).
    - intros low Hlow. rewrite <- Hr at 1. rewrite Hw by lia. split; [done |].
      unfold rd_word. by rewrite (proj1 (Hwr 1%nat 0 low ltac:(lia) Hlow)). }
  assert (forall f, count s' f = count s f) as Hc.
  { intros f. apply uses_ext; [apply user_range_aligned.. | auto]. }
  assert (same_reach s s') as Hsr by (intros n va Hn; auto).
  split; [| done]. constructor.
  - rewrite Hr. apply (pt_wf_same (machine (ker s))); [done.. |].
    intros n va q Hn Hq'. by destruct (Hwr n va q Hn Hq') as (? & ? & _).
  - intros va Hva. rewrite Hp, Hw by lia. by apply Hsm.
  - intros q. rewrite Ht. split; intros (n & va & Hn & Hva & Hwq); exists n, va;
      (split; [done |]; split; [done |]); [by rewrite Hw | by rewrite <- Hw].
  - intros n va q Hn Hwq. rewrite Hw in Hwq by done. destruct (Hwr n va q Hn Hwq) as (_ & _ & ->).
    by apply (Hk n va).
  - intros f Hf Hm. rewrite Hc. specialize (Hled f Hf Hm). specialize (Hl f Hf Hm). lia.
  - intros q Hqt. pose proof (Hx q Hqt). apply Ht in Hqt as (n & va & Hn & _ & Hwq).
    by destruct (Hwr n va q Hn Hwq) as (_ & _ & ->).
  - intros va. rewrite Hp. apply Hu.
  - intros f Hf. rewrite Hc. intros Hpos. destruct (Hdat f Hf Hpos) as [Hn Hi]. split; [| done].
    by apply (not_table_same s).
  - done.
  - intros va. rewrite Hp. apply Hem.
  - done.
Qed.

(** The rest of the address space is the same. *)
Definition paged s s' : Prop :=
  vm s' = with_pending (pending (vm s')) (vm s) /\
  kernel_pml4 (machine (ker s')) = kernel_pml4 (machine (ker s)).

Lemma paged_refl s : paged s s.
Proof. split; [by destruct (vm s) | done]. Qed.
Lemma paged_trans s1 s2 s3 : paged s1 s2 -> paged s2 s3 -> paged s1 s3.
Proof. intros [H1 K1] [H2 K2]. split; [| congruence]. rewrite H2, H1. done. Qed.
Lemma paged_root s s' : paged s s' -> root s' = root s.
Proof. intros [H _]. unfold root. by rewrite H. Qed.
Lemma paged_shape s s' ls : paged s s' -> shape (vm s) ls -> shape (vm s') ls.
Proof. intros [-> _] [H1 H2 H3 H4]. by constructor. Qed.

(** ** The frame operations *)

(** Entries, tables and queue are the same, and the ledger is [o']. *)
Definition reowned o' T s s' : Prop :=
  pages_ok o' T s' /\ vm s' = vm s /\ mm s' = mm s /\ paged s s' /\
  (forall va, pte s' va = pte s va) /\
  same_reach s s'.

(** A table is a frame in use. *)
Lemma reached_table o T s q : pages_ok o T s -> reached s q -> frame_ok q /\ 0 < hold s q /\ is_table (mm s) q.
Proof.
  intros Hok (n & va & Hn & [Hw | Hw]);
    [by apply (wf_table _ _ (po_wf _ _ _ Hok) n va) | by apply (wf_table _ _ (km_wf _ _ (po_kmap _ _ _ Hok)) n va)].
Qed.

Lemma reowned_intro o o' T s a : pages_ok o T s -> frames_inv a ->
  let s' := set_machine (set_frames a (machine (ker s))) s in
  (forall f, f <> 0 -> f mod PAGE_SIZE = 0 -> held a f - o' f = hold s f - o f) ->
  (forall f, f <> 0 -> f mod PAGE_SIZE = 0 -> o' f <> o f -> not_table s f) ->
  reowned o' T s s'.
Proof.
  intros Hok Ha s' Hled Hnt.
  destruct (pages_ok_update o o' T s s' Hok) as (Hok' & Hp & Hw).
  - constructor; [done | done | done | | | | apply (po_queue _ _ _ Hok)].
    + intros q Hq. destruct (reached_table o T s q Hok Hq) as ([Hq0 Hqm] & _).
      split; [done |]. specialize (Hled q ltac:(lia) Hqm).
      destruct (Z.eq_dec (o' q) (o q)) as [E | E]; [split; [unfold hold at 1; cbn; lia | done] |].
      by destruct (Hnt q ltac:(lia) Hqm E).
    + intros f Hf Hm. specialize (Hled f Hf Hm). unfold hold at 1. cbn. lia.
    + intros f Hf Hc. apply (po_data _ _ _ Hok f Hf Hc).
  - split_and!; [done | done | done | | done | done]. split; [cbn; by destruct (vm s) | done].
Qed.

(** A frame with owners in the space, or in hand. *)
Lemma free_frame_spec o T s f : pages_ok o T s -> f <> 0 -> f mod PAGE_SIZE = 0 -> 0 < hold s f ->
  not_table s f ->
  wp (free_physical_page f) (fun _ s' => reowned (take_off f o) T s s' /\
    forall q, q <> 0 -> q mod PAGE_SIZE = 0 -> hold s' q = if q =? f then hold s q - 1 else hold s q) s.
Proof.
  intros Hok Hf Hm Hh Hnt.
  destruct (frame_free_ok (frames (machine (ker s))) f) as (a & Ha & Hinv & Hheld);
    [apply (po_wf _ _ _ Hok) | by eapply counted_frame | done |].
  unfold free_physical_page, on_machine_, free_frame. eapply wp_updates; [by rewrite Ha |].
  split; [| intros q _ Hq; by apply Hheld].
  apply (reowned_intro o); [done | done | |]; unfold take_off.
  - intros q Hq Hqm. rewrite Hheld by done. unfold hold. destruct (q =? f); lia.
  - intros q Hq Hqm. destruct (Z.eqb_spec q f) as [-> | ?]; [done | lia].
Qed.

Lemma share_spec o T s f : pages_ok o T s -> f <> 0 -> f mod PAGE_SIZE = 0 ->
  0 < hold s f < 0xFFFF -> not_table s f ->
  wp (pmm_share_page f) (fun _ s' => reowned (give f o) T s s' /\
    forall q, q <> 0 -> q mod PAGE_SIZE = 0 -> hold s' q = if q =? f then hold s q + 1 else hold s q) s.
Proof.
  intros Hok Hf Hm Hh Hnt. pose proof (wf_frames _ _ (po_wf _ _ _ Hok)) as Hfi.
  destruct (frame_share_ok (frames (machine (ker s))) f) as (a & Ha & Hinv & Hheld);
    [done | eapply counted_frame; [done.. | lia] | unfold hold in Hh; lia |].
  pose proof (owned_held _ f Hfi) as Hown. fold (hold s f) in Hown.
  assert (forall q, q mod PAGE_SIZE = 0 -> held a q = if q =? f then hold s q + 1 else hold s q) as Hh'.
  { intros q Hq. rewrite Hheld by done. fold (hold s q). destruct (Z.eqb_spec q f) as [-> | ?]; [| done].
    destruct (Z.ltb_spec (owned (frames (machine (ker s))) f) 0x10000); [done | lia]. }
  unfold pmm_share_page, on_machine_. eapply wp_updates; [by rewrite Ha |].
  split; [| intros q _ Hq; by apply Hh'].
  apply (reowned_intro o); [done | done | |]; unfold give.
  - intros q Hq Hqm. rewrite Hh' by done. destruct (q =? f); lia.
  - intros q Hq Hqm. destruct (Z.eqb_spec q f) as [-> | ?]; [done | lia].
Qed.

Lemma alloc_frame_spec o T s : pages_ok o T s ->
  wp alloc_physical_page (fun p s' =>
    (p = 0 /\ reowned o T s s' /\ forall q, hold s' q = hold s q) \/
    (frame_ok p /\ hold s p = 0 /\ not_table s' p /\ reowned (give p o) T s s' /\
     forall q, q mod PAGE_SIZE = 0 -> hold s' q = if q =? p then 1 else hold s q)) s.
Proof.
  intros Hok. pose proof (wf_frames _ _ (po_wf _ _ _ Hok)) as Hfi.
  destruct (frame_alloc_ok _ Hfi) as (p & a & Ha & Hinv & Hres).
  unfold alloc_physical_page, on_machine, wp. rewrite Ha. cbn [mbind option_bind].
  destruct Hres as [[-> Hh] | (Hp & H0 & _ & Hh)].
  - left. split; [done |]. split; [| done]. apply (reowned_intro o); [done | done | | done].
    intros q _ _. rewrite Hh. done.
  - right. assert (not_table s p) as Hnt.
    { intros Hr. destruct (reached_table o T s p Hok Hr) as (_ & ? & _). unfold hold in *. lia. }
    split; [done |]. split; [done |]. split; [done |]. split; [| exact Hh].
    apply (reowned_intro o); [done | done | |]; unfold give.
    + intros q Hq Hqm. rewrite Hh by done. unfold hold. destruct (Z.eqb_spec q p) as [-> | ?]; lia.
    + intros q Hq Hqm. destruct (Z.eqb_spec q p) as [-> | ?]; [done | lia].
Qed.

(** What the steps take of the frames that can be had. *)
Definition fr s := frames (machine (ker s)).

Lemma alloc_cost o T s p s' : pages_ok o T s -> alloc_physical_page s = Some (p, s') ->
  cost 1 (negb (p =? 0)) (fr s) (fr s').
Proof.
  intros Hok H. unfold alloc_physical_page, on_machine in H.
  apply bind_Some in H as ([x m] & H & [= <- <-]). apply bind_Some in H as ([y a] & H & [= <- <-]).
  apply cost_alloc; [apply (po_wf _ _ _ Hok) | done].
Qed.

Lemma free_spares o T s f u s' : pages_ok o T s -> f <> 0 -> f mod PAGE_SIZE = 0 -> 0 < hold s f ->
  free_physical_page f s = Some (u, s') -> spare (fr s) <= spare (fr s').
Proof.
  intros Hok Hf Hm Hh H. unfold free_physical_page, on_machine_, updates in H.
  apply bind_Some in H as (x & H & [= _ <-]). apply bind_Some in H as (m & H & [= <-]).
  apply bind_Some in H as (a & H & [= <-]).
  apply (frame_free_spare (fr s) f a); [apply (po_wf _ _ _ Hok) | by apply (counted_frame o T s) | done | done].
Qed.

Lemma set_frame_fr p ws s u s' : set_frame p ws s = Some (u, s') -> fr s' = fr s.
Proof. intros [= _ <-]. done. Qed.

Lemma store_fr p v s u s' : store p v s = Some (u, s') -> fr s' = fr s.
Proof.
  intros H. unfold store, on_machine_, updates in H. apply bind_Some in H as (x & H & [= _ <-]).
  apply bind_Some in H as (m & H & [= <-]). unfold store_word in H. by apply bind_Some in H as (? & _ & [= <-]).
Qed.

(** ** Writing a frame *)

(** Entries and tables are the same, and the contents of frame [p] are [ws]. *)
Definition rewritten o T p (ws : list Z) s s' : Prop :=
  pages_ok o T s' /\ vm s' = vm s /\ mm s' = <[p := ws]> (mm s) /\ paged s s' /\
  (forall q, hold s' q = hold s q) /\ (forall va, pte s' va = pte s va) /\
  same_reach s s'.

Lemma set_frame_spec o T s p ws : pages_ok o T s -> not_table s p -> length ws = 512%nat ->
  wp (set_frame p ws) (fun _ s' => rewritten o T p ws s s') s.
Proof.
  intros Hok Hnt Hlen. unfold set_frame, on_machine_. eapply wp_updates; [done |].
  match goal with |- rewritten _ _ _ _ _ ?x => set (s' := x) end.
  destruct (pages_ok_update o o T s s' Hok) as (Hok' & Hp & Hw).
  - constructor; [done | done | apply (po_wf _ _ _ Hok) | | done | | apply (po_queue _ _ _ Hok)].
    + intros q Hq. split; [| done]. apply lookup_insert_ne. by intros ->.
    + intros f Hf Hc. destruct (po_data _ _ _ Hok f Hf Hc) as [Hn Hi]. split; [done |].
      unfold is_table. cbn. destruct (decide (f = p)) as [-> | ?];
        [rewrite lookup_insert_eq; eauto | by rewrite lookup_insert_ne].
  - split_and!; [done | done | done | | done | done | done]. split; [cbn; by destruct (vm s) | done].
Qed.

Lemma get_frame_spec s p (Q : list Z -> state A -> Prop) : is_table (mm s) p ->
  (forall ws, mm s !! p = Some ws -> length ws = 512%nat -> Q ws s) -> wp (get_frame p) Q s.
Proof. intros (ws & Hws & Hl) H. unfold get_frame. eapply wp_asks; [done | auto]. Qed.

(** ** Entries *)

(** [p] is the address of the entry of page [va]. *)
Definition entry s (va : Z) (p : Z * Z) : Prop :=
  exists t, walk (mm s) (root s) 3 va = Some t /\ p = (t, ix 3 va).

Lemma find_pte_spec o T s va (Q : option (Z * Z) -> state A -> Prop) : pages_ok o T s -> user_va va ->
  (pte s va = 0 -> Q None s) -> (forall p, entry s va p -> Q (Some p) s) -> wp (find_pte va) Q s.
Proof.
  intros Hok Hva Hn Hs. unfold find_pte.
  eapply wp_asks; [by apply wf_find_pte, (po_wf _ _ _ Hok) |].
  fold (mm s) (root s). destruct (walk (mm s) (root s) 3 va) as [t |] eqn:E.
  - apply Hs. by exists t.
  - apply Hn. by apply (po_small _ _ _ Hok).
Qed.

Lemma load_spec o T s va p (Q : Z -> state A -> Prop) : pages_ok o T s -> entry s va p ->
  Q (pte s va) s -> wp (load p) Q s.
Proof.
  intros Hok (t & Ht & ->) HQ. destruct (wf_read _ _ 3 va t (po_wf _ _ _ Hok)) as [e He]; [lia | done |].
  unfold load. eapply wp_asks; [exact He |]. unfold pte, xlate in HQ. rewrite Ht in HQ.
  unfold mm in HQ. by rewrite He in HQ.
Qed.

Lemma pte_same_page s va va' : same_page va va' = true -> pte s va' = pte s va.
Proof.
  intros H. assert (ix 3 va' = ix 3 va) as Hix.
  { unfold same_page in H. cbn [same_prefix] in H. apply andb_prop in H as [_ H]. by apply Z.eqb_eq in H. }
  unfold pte, xlate. rewrite !(walk_prefix _ _ _ va va') by (by apply (same_prefix_le 4); [lia |]).
  rewrite Hix. destruct (walk (mm s) (root s) 3 va); [done |].
  destruct (walk (mm s) (root s) 2 va); [| done]. replace (ix 2 va') with (ix 2 va); [done |].
  unfold same_page in H. cbn [same_prefix] in H. apply andb_prop in H as [[_ H]%andb_prop _].
  by apply Z.eqb_eq in H.
Qed.

(** The entry of one page changes to [v]; the tables [P] are new. *)
Record remapped o T (P : gset Z) va v s s' : Prop := {
  rm_wf : pt_wf (machine (ker s')) (root s');
  rm_vm : vm s' = vm s;
  rm_walk : forall n va' q, (n <= 3)%nat -> walk (mm s) (root s) n va' = Some q ->
    walk (mm s') (root s') n va' = Some q;
  rm_new : forall n va' q, (n <= 3)%nat -> walk (mm s') (root s') n va' = Some q ->
    walk (mm s) (root s) n va' = Some q \/ q ∈ P;
  rm_path : forall q, q ∈ P -> (exists n, (n <= 3)%nat /\ walk (mm s') (root s') n va = Some q) /\
    o q = 0 /\ count s q = 0 /\ pend (pending (vm s)) q = 0 /\ q <> frame_of v /\ q ∉ T;
  rm_hold : forall f, f <> 0 -> f mod PAGE_SIZE = 0 ->
    hold s' f = hold s f + (if decide (f ∈ P) then 1 else 0);
  rm_pte : forall va', pte s' va' = if same_page va va' then v else pte s va';
  rm_none : walk (mm s') (root s') 3 va = None -> v = pte s va;
  rm_user : has_frame v = true -> Z.land v MMU_USER <> 0;
  rm_empty : has_frame v = false -> v = 0;
  rm_kernel : kernel_same o s o s';
  rm_data : forall f, f <> 0 -> 0 < count s f + pend (pending (vm s)) f \/ f = frame_of v ->
    data_frame s f /\ data_frame s' f;
}.

Lemma remapped_count o T P va v s s' f : remapped o T P va v s s' -> user_page va ->
  count s' f = count s f + (if frame_of v =? f then 1 else 0)
               - (if frame_of (pte s va) =? f then 1 else 0).
Proof.
  intros Hrm [Hva Ha]. unfold count. rewrite (uses_update _ _ (proj1 user_range_aligned)
    (proj2 user_range_aligned) (pte s) (pte s') f va); [| done | done |].
  - by rewrite (rm_pte _ _ _ _ _ _ _ Hrm va), same_page_refl.
  - intros va' Ha' Hr Hne. rewrite (rm_pte _ _ _ _ _ _ _ Hrm va'), same_page_eq by done.
    by destruct (Z.eqb_spec va' va).
Qed.

Lemma pages_ok_remapped o T P va v s s' : pages_ok o T s -> user_page va ->
  remapped o T P va v s s' ->
  pages_ok (give (frame_of (pte s va)) (take_off (frame_of v) o)) (T ∪ P) s'.
Proof.
  intros Hok Hva Hrm. pose proof (fun f => remapped_count _ _ _ _ _ _ _ f Hrm Hva) as Hcnt.
  pose proof Hrm as [W Hvm Hwk Hnew HP Hh Hp Hnone Hu Hem Hks Hd].
  pose proof (wf_table _ _ W) as Hwt.
  assert (forall q, q <> 0 -> ~ data_frame s q \/ ~ data_frame s' q ->
    give (frame_of (pte s va)) (take_off (frame_of v) o) q = o q) as Ho.
  { intros q Hq Hnd. unfold give, take_off. destruct (Z.eqb_spec q (frame_of (pte s va))) as [-> | ?].
    - destruct (Hd (frame_of (pte s va)) Hq); [| tauto]. left.
      assert (0 < count s (frame_of (pte s va))) by (apply count_pos; eauto).
      pose proof (pend_nonneg (pending (vm s)) (frame_of (pte s va))). lia.
    - destruct (Z.eqb_spec q (frame_of v)) as [-> | ?]; [| done]. destruct (Hd (frame_of v) Hq); tauto. }
  assert (forall n va' q, (n <= 3)%nat -> walk (mm s') (root s') n va' = Some q ->
    q <> 0 /\ ~ data_frame s' q) as Hwd.
  { intros n va' q Hn Hq. destruct (Hwt n va' q Hn Hq) as ([? _] & _). split; [lia |].
    intros [Hnt _]. by apply Hnt, (reached_root s' n va'). }
  constructor.
  - done.
  - intros va' Hva' Hw. rewrite Hp. destruct (walk (mm s) (root s) 3 va') as [t |] eqn:E.
    { apply Hwk in E; [congruence | lia]. }
    pose proof (po_small _ _ _ Hok va' Hva' E) as H0.
    destruct (same_page va va') eqn:Hsp; [| done]. rewrite Hnone, <- H0; [by rewrite (pte_same_page s va va') |].
    rewrite <- Hw. symmetry. apply walk_prefix. by apply (same_prefix_le 4); [lia |].
  - intros q. rewrite elem_of_union, (po_tables _ _ _ Hok). split.
    + intros [(n & va' & Hn & Hva' & Hq) | Hq]; [exists n, va'; auto |].
      destruct (HP q Hq) as ((n & Hn & Hw) & _). exists n, va. split; [done |]. split; [apply Hva | done].
    + intros (n & va' & Hn & Hva' & Hq). destruct (Hnew n va' q Hn Hq); [left; eauto | by right].
  - intros n va' q Hn Hq. destruct (Hwd n va' q Hn Hq). rewrite Ho by tauto.
    rewrite elem_of_union. destruct (Hnew n va' q Hn Hq) as [Hq' | ?]; [| tauto].
    destruct (po_kernel _ _ _ Hok n va' q Hn Hq'); tauto.
  - intros f Hf Hm. rewrite Hh, Hcnt, Hvm, (po_ledger _ _ _ Hok f Hf Hm) by done. unfold give, take_off.
    assert ((if decide (f ∈ T) then 1 else 0) + (if decide (f ∈ P) then 1 else 0) =
            (if decide (f ∈ T ∪ P) then 1 else 0)) as <-.
    { pose proof (HP f) as HPf. pose proof (elem_of_union T P f).
      destruct (decide (f ∈ T)), (decide (f ∈ P)), (decide (f ∈ T ∪ P)); tauto || lia. }
    rewrite (Z.eqb_sym f (frame_of v)), (Z.eqb_sym f (frame_of (pte s va))).
    destruct (frame_of v =? f), (frame_of (pte s va) =? f); lia.
  - intros q [Hq | Hq]%elem_of_union.
    + pose proof (po_excl _ _ _ Hok q Hq). apply (po_tables _ _ _ Hok) in Hq as (n & va' & Hn & _ & Hq).
      destruct (Hwd n va' q Hn); [by apply Hwk |]. rewrite Ho; tauto.
    + destruct (HP q Hq) as ((n & Hn & Hw) & ? & _). destruct (Hwd n va q Hn Hw). rewrite Ho; tauto.
  - intros va' Hva'. rewrite Hp. destruct (same_page va va'); [done |]. by apply (po_user _ _ _ Hok).
  - intros f Hf Hpos. rewrite Hcnt, Hvm in Hpos. destruct (Z.eqb_spec (frame_of v) f) as [E | E].
    + by apply Hd; [| right].
    + apply Hd; [done | left]. destruct (frame_of (pte s va) =? f); lia.
  - rewrite Hvm. apply (po_queue _ _ _ Hok).
  - intros va' Hva'. rewrite Hp. destruct (same_page va va'); [done |]. by apply (po_empty _ _ _ Hok).
  - apply (kernel_map_update o s); [apply Hok |]. destruct Hks as [K1 K2 K3 K4 K5]. constructor; try done.
    intros n va' q Hn Hq. destruct (K3 n va' q Hn Hq) as (? & ? & _). split_and!; [done | done |].
    destruct (reached_table o T s q Hok (reached_kernel s n va' q Hn Hq)) as ([? _] & _).
    apply Ho; [lia |]. left. intros [Hnt _]. by apply Hnt, (reached_kernel s n va').
Qed.

Definition set_pte (e : Z -> Z) (va v : Z) : Z -> Z := fun va' => if va' =? va then v else e va'.

(** The ledger after the entry [old] became [v]. *)
Definition swap (old v : Z) o : Z -> Z := give (frame_of old) (take_off (frame_of v) o).

Lemma data_frame_same s s' f : data_frame s f -> same_reach s s' -> mm s' !! f = mm s !! f -> data_frame s' f.
Proof. intros [Hn Hi] Hw Hm. split; [by apply (not_table_same s) | unfold is_table; by rewrite Hm]. Qed.

(** The entry of page [va] is now [v]; nothing outside the tables changed. *)
Record stored o T va v s s' : Prop := {
  sd_ok : pages_ok o T s';
  sd_vm : vm s' = vm s;
  sd_paged : paged s s';
  sd_mem : forall q, q ∉ T -> mm s' !! q = mm s !! q;
  sd_hold : forall q, hold s' q = hold s q;
  sd_pte : forall va', user_page va' -> pte s' va' = set_pte (pte s) va v va';
  sd_walk : same_reach s s';
}.

Lemma user_ix va : user_va va -> ix 0 va < 256 /\ (ix 0 va = 0 -> 1 <= ix 1 va).
Proof.
  intros [Hlo Hhi]. unfold USER_ADDR_MIN, USER_ADDR_LIMIT in *. unfold ix, table_index.
  change 0x1FF with (Z.ones 9). rewrite !Z.land_ones, !Z.shiftr_div_pow2 by lia.
  change (2 ^ (39 - 9 * Z.of_nat 0)) with (2 ^ 39). change (2 ^ (39 - 9 * Z.of_nat 1)) with (2 ^ 30).
  assert (0 <= va / 2 ^ 39 < 256) as H by (split; [apply Z.div_pos | apply Z.div_lt_upper_bound]; lia).
  rewrite Z.mod_small by lia. split; [lia |]. intros E.
  assert (1 <= va / 2 ^ 30 < 512) as H1; [| rewrite Z.mod_small; lia].
  split; [apply Z.div_le_lower_bound; lia |]. pose proof (Z.div_mod va (2 ^ 39)). pose proof (Z.mod_pos_bound va (2 ^ 39)).
  apply Z.div_lt_upper_bound; lia.
Qed.

(** New entries for user addresses are none that the kernel's page map has. *)
Lemma grows_kernel_same o T s m' va : pages_ok o T s -> user_va va -> frames_inv (frames m') ->
  grows (machine (ker s)) (root s) va m' -> kernel_same o s o (set_machine m' s).
Proof.
  intros Hok Hva Hfr Hg. destruct (user_ix va Hva) as [Hi0 Hi1]. constructor.
  - done.
  - apply (gr_kernel _ _ _ _ Hg).
  - intros n va' q Hn Hq. destruct (reached_table o T s q Hok (reached_kernel s n va' q Hn Hq)) as ([? Hm] & Hh & _).
    split_and!; [| by apply (gr_held _ _ _ _ Hg) | done]. apply (gr_mem _ _ _ _ Hg); [done | done |].
    intros (k & Hk & Hw). assert (q ∈ T) as HT by (apply (po_tables _ _ _ Hok); by exists k, va).
    pose proof (km_owned _ _ (po_kmap _ _ _ Hok) n va' q Hn Hq). rewrite (po_excl _ _ _ Hok q HT) in *. lia.
  - intros va' Hva'. apply (gr_word _ _ _ _ Hg O va'); [lia | done |]. cbn [same_prefix andb].
    apply Z.eqb_neq. lia.
  - intros low Hlow. split; [by apply (gr_walk _ _ _ _ Hg); [lia |] |].
    apply (gr_word _ _ _ _ Hg 1%nat 0 low); [lia | done |]. cbn [same_prefix andb].
    change (ix 0 0) with 0. change (ix 1 0) with 0. apply not_true_is_false. intros [?%Z.eqb_eq ?%Z.eqb_eq]%andb_prop. lia.
Qed.

Lemma store_spec o T s va p v : pages_ok o T s -> user_page va -> entry s va p ->
  (has_frame v = true -> Z.land v MMU_USER <> 0 /\
     (frame_of v = frame_of (pte s va) \/ data_frame s (frame_of v))) ->
  (has_frame v = false -> v = 0) ->
  wp (store p v) (fun _ s' => stored (swap (pte s va) v o) T va v s s') s.
Proof.
  intros Hok Hva (t & Ht & ->) Hv Hv0. unfold store, on_machine_. cbn [fst snd].
  destruct (store_pte_spec (machine (ker s)) (root s) va t v (po_wf _ _ _ Hok) Ht) as
    (m' & Hm' & Hwf' & Hg & Hfr & Hwk & Hx).
  eapply wp_updates; [by rewrite Hm' |]. set (s' := set_machine m' s).
  assert (t ∈ T) as HtT.
  { apply (po_tables _ _ _ Hok). exists 3%nat, va. split; [lia |]. split; [apply Hva | done]. }
  assert (forall q, q <> t -> mm s' !! q = mm s !! q) as Hmem.
  { intros q Hq. unfold store_word in Hm'. apply bind_Some in Hm' as (m1 & Hm1 & [= <-]).
    cbn. by apply (wr_word_other _ _ _ _ _ _ Hm1). }
  assert (forall f, f <> 0 -> 0 < count s f + pend (pending (vm s)) f \/ f = frame_of v ->
    data_frame s f) as Hd.
  { intros f Hf [Hc | ->]; [by apply (po_data _ _ _ Hok) |].
    assert (has_frame v = true) as Hfv by (rewrite has_frame_of; by apply negb_true_iff, Z.eqb_neq).
    destruct (Hv Hfv) as [_ [E | ?]]; [| done]. rewrite E in *. apply (page_frame o T s va Hok Hva).
    rewrite has_frame_of. by apply negb_true_iff, Z.eqb_neq. }
  assert (forall n va', (n <= 3)%nat ->
    walk (mm s') (root s') n va' = walk (mm s) (root s) n va') as Hwk' by (intros; by apply Hwk).
  assert (kernel_same o s o s') as Hks.
  { apply (grows_kernel_same o T s m' va); [done | apply Hva | rewrite Hfr; apply (po_wf _ _ _ Hok) | done]. }
  destruct (kernel_map_update o s o s' (po_kmap _ _ _ Hok) Hks) as [_ Hkw].
  assert (same_reach s s') as Hsr by (intros n va' Hn; auto).
  assert (remapped o T ∅ va v s s') as Hrm.
  { constructor; try done.
    - intros n va' q Hn. by rewrite Hwk'.
    - intros n va' q Hn. rewrite Hwk' by done. by left.
    - intros f _ _. rewrite decide_False by (by apply not_elem_of_empty). unfold hold, s'. cbn. rewrite Hfr. lia.
    - rewrite Hwk' by lia. by rewrite Ht.
    - intros Hf. by apply Hv.
    - intros f Hf Hc. specialize (Hd f Hf Hc). split; [done |].
      apply (data_frame_same s); [done | done |].
      apply Hmem. intros ->. destruct Hd as [Hn _]. apply Hn, (reached_root s 3 va); [lia | done]. }
  pose proof (pages_ok_remapped _ _ _ _ _ _ _ Hok Hva Hrm) as Hok'. rewrite union_empty_r_L in Hok'.
  constructor; [done | done | | | | |].
  - split; [cbn; by destruct (vm s) |]. unfold store_word in Hm'. by apply bind_Some in Hm' as (m1 & _ & [= <-]).
  - intros q Hq. apply Hmem. by intros ->.
  - intros q. unfold hold, s'. cbn. by rewrite Hfr.
  - intros va' Hva'. rewrite (rm_pte _ _ _ _ _ _ _ Hrm va'). unfold set_pte. by rewrite same_page_eq.
  - done.
Qed.

(** ** Mapping a page *)

Definition solvent o : Prop := forall f, f <> 0 -> f mod PAGE_SIZE = 0 -> 0 <= o f.

(** Tables may be new; frames in use are as they were, outside the tables. *)
Record grown T T' s s' : Prop := {
  gw_sub : T ⊆ T';
  gw_vm : vm s' = vm s;
  gw_paged : paged s s';
  gw_mem : forall q, q mod PAGE_SIZE = 0 -> 0 < hold s q -> q ∉ T -> mm s' !! q = mm s !! q;
  gw_hold : forall q, q mod PAGE_SIZE = 0 -> 0 < hold s q -> hold s' q = hold s q;
  gw_entry : forall va p, entry s va p -> entry s' va p;
  gw_data : forall f, f mod PAGE_SIZE = 0 -> 0 < hold s f -> data_frame s f -> data_frame s' f;
}.

(** The tables on the path of [va] whose frames nobody held in [s]. *)
Definition new_tables s s' va : gset Z :=
  list_to_set (filter (fun q => hold s q = 0) (omap (fun n => walk (mm s') (root s') n va) (seq 0 4))).

Lemma new_tables_spec s s' va q : q ∈ new_tables s s' va <->
  hold s q = 0 /\ exists n, (n <= 3)%nat /\ walk (mm s') (root s') n va = Some q.
Proof.
  unfold new_tables. rewrite elem_of_list_to_set, list_elem_of_filter, list_elem_of_omap.
  setoid_rewrite elem_of_seq. split; intros [H (n & Hn & Hw)]; (split; [done |]); exists n; split; try done; lia.
Qed.

Lemma ledger_empty o T s f : pages_ok o T s -> solvent o -> f <> 0 -> f mod PAGE_SIZE = 0 ->
  hold s f = 0 -> o f = 0 /\ count s f = 0 /\ pend (pending (vm s)) f = 0 /\ f ∉ T.
Proof.
  intros Hok Ho Hf Hm H0. pose proof (po_ledger _ _ _ Hok f Hf Hm) as Hl. specialize (Ho f Hf Hm).
  pose proof (count_nonneg s f). pose proof (pend_nonneg (pending (vm s)) f).
  destruct (decide (f ∈ T)); [lia |]. split_and!; [lia.. | done].
Qed.

Lemma data_held o T s f : pages_ok o T s -> solvent o -> f <> 0 -> f mod PAGE_SIZE = 0 ->
  0 < count s f + pend (pending (vm s)) f -> 0 < hold s f.
Proof.
  intros Hok Ho Hf Hm Hc. rewrite (po_ledger _ _ _ Hok f Hf Hm). specialize (Ho f Hf Hm).
  destruct (decide (f ∈ T)); lia.
Qed.

Lemma pend_aligned o T s f : pages_ok o T s -> 0 < count s f + pend (pending (vm s)) f ->
  f mod PAGE_SIZE = 0.
Proof.
  intros Hok Hc. pose proof (count_nonneg s f).
  destruct (Z.eq_dec (count s f) 0) as [E | E].
  - assert (0 < pend (pending (vm s)) f) as Hp by lia. apply pend_pos in Hp as (w & Hw & <-).
    by apply (po_queue _ _ _ Hok).
  - assert (0 < count s f) as Hp by lia. apply count_pos in Hp as (va & _ & <-). apply frame_of_aligned.
Qed.

Section map_page.
Context (o : Z -> Z) (T : gset Z) (s : state A) (m' : phys A) (va v : Z).
Hypotheses (Hok : pages_ok o T s) (Hsol : solvent o) (Hva : user_page va).
Let s' : state A := set_machine m' s.
Hypotheses (Hwf' : pt_wf m' (root s)) (Hg : grows (machine (ker s)) (root s) va m').

Lemma map_kernel_same : kernel_same o s o s'.
Proof using All. apply (grows_kernel_same o T s m' va); [done | apply Hva | apply Hwf' | done]. Qed.

Lemma map_kernel n va' : (n <= 3)%nat -> walk (mm s') (kroot s') n va' = walk (mm s) (kroot s) n va'.
Proof using All. apply (kernel_map_update o s o s'); [apply Hok | apply map_kernel_same]. Qed.

Lemma grown_data f : f mod PAGE_SIZE = 0 -> 0 < hold s f -> data_frame s f -> data_frame s' f.
Proof using All.
  intros Hm Hh [Hn Hi]. split.
  - intros (n & va' & Hle & [Hw | Hw]).
    + destruct (gr_new _ _ _ _ Hg n va' f Hm Hle Hw) as [Hw' | [? _]]; [by apply Hn, (reached_root s n va') |].
      unfold hold in Hh. lia.
    + rewrite map_kernel in Hw by done. by apply Hn, (reached_kernel s n va').
  - unfold is_table, mm, s'. cbn. rewrite (gr_mem _ _ _ _ Hg); [done | done | done |].
    intros (n & Hle & Hw). by apply Hn, (reached_root s n va).
Qed.

Lemma map_grown : grown T (T ∪ new_tables s s' va) s s'.
Proof using All.
  constructor.
  - apply union_subseteq_l.
  - done.
  - split; [cbn; by destruct (vm s) | apply (gr_kernel _ _ _ _ Hg)].
  - intros q Hq Hh HT. apply (gr_mem _ _ _ _ Hg); [done | done |].
    intros (n & Hn & Hw). apply HT, (po_tables _ _ _ Hok). exists n, va.
    split; [done |]. split; [apply Hva | done].
  - intros q Hq Hh. by apply (gr_held _ _ _ _ Hg).
  - intros va' p (t & Ht & ->). exists t. split; [| done]. by apply (gr_walk _ _ _ _ Hg); [lia |].
  - apply grown_data.
Qed.

Lemma map_remapped :
  (forall va', xlate (mem m') (root s) va' = if same_page va va' then v else pte s va') ->
  (walk (mem m') (root s) 3 va = None -> v = pte s va) ->
  (has_frame v = true -> Z.land v MMU_USER <> 0 /\ 0 < hold s (frame_of v) /\ data_frame s (frame_of v)) ->
  (has_frame v = false -> v = 0) ->
  remapped o T (new_tables s s' va) va v s s'.
Proof using All.
  intros Hx Hnone Hv Hv0.
  assert (forall n va' q, (n <= 3)%nat -> walk (mm s') (root s') n va' = Some q -> q <> 0 /\ q mod PAGE_SIZE = 0) as Hq0.
  { intros n va' q Hn Hw. destruct (wf_table _ _ Hwf' n va' q Hn Hw) as ([? ?] & _). split; [lia | done]. }
  assert (frame_of v <> 0 -> 0 < hold s (frame_of v) /\ data_frame s (frame_of v)) as Hv'.
  { intros Hf. apply Hv. rewrite has_frame_of. by apply negb_true_iff, Z.eqb_neq. }
  constructor; fold (mm s'); try done.
  - intros n va' q Hn Hw. by apply (gr_walk _ _ _ _ Hg).
  - intros n va' q Hn Hw. destruct (Hq0 n va' q Hn Hw) as [_ Hm].
    destruct (gr_new _ _ _ _ Hg n va' q Hm Hn Hw) as [? | [H0 Hp]]; [by left | right].
    by apply new_tables_spec.
  - intros q Hq. pose proof Hq as (H0 & n & Hn & Hw)%new_tables_spec. destruct (Hq0 n va q Hn Hw) as [Hne Hm].
    destruct (ledger_empty o T s q Hok Hsol Hne Hm H0) as (? & ? & ? & ?). split; [eauto |].
    split_and!; try done. intros ->. destruct (Hv' Hne). lia.
  - intros f Hf Hm. destruct (Z.eq_dec (hold s f) 0) as [H0 | H0].
    + rewrite H0. case_decide as Hd.
      * apply new_tables_spec in Hd as (_ & n & Hn & Hw).
        destruct (wf_table _ _ Hwf' n va f Hn Hw) as (_ & Hpos & _).
        destruct (gr_leak _ _ _ _ Hg f Hm H0) as [E _]; [lia |]. unfold hold, s'. cbn. lia.
      * destruct (Z.eq_dec (hold s' f) 0) as [? | H1]; [lia |].
        destruct (gr_leak _ _ _ _ Hg f Hm H0 H1) as [_ Hp]. destruct Hd. by apply new_tables_spec.
    + pose proof (hold_nonneg _ _ _ f Hok). rewrite decide_False by (intros [? _]%new_tables_spec; done).
      pose proof (gr_held _ _ _ _ Hg f Hm) as E. unfold hold, s' in *. cbn in *. rewrite E; lia.
  - intros Hf. by apply Hv.
  - apply map_kernel_same.
  - intros f Hf Hc. assert (data_frame s f /\ 0 < hold s f /\ f mod PAGE_SIZE = 0) as (Hd & Hh & Hm).
    { destruct Hc as [Hc | ->]; [| destruct (Hv' Hf); split_and!; [done | done | apply frame_of_aligned]].
      pose proof (pend_aligned _ _ _ _ Hok Hc). split_and!; [by apply (po_data _ _ _ Hok) | | done].
      by apply (data_held o T). }
    split; [done |]. by apply grown_data.
Qed.
End map_page.

Lemma pages_ok_ext o o' T s : pages_ok o T s -> same_owners o o' -> pages_ok o' T s.
Proof.
  intros [W Hsm Ht Hk Hl Hx Hu Hd Hq Hem Hkm] Ho.
  assert (forall n va q, (n <= 3)%nat -> walk (mm s) (root s) n va = Some q -> o' q = o q) as Hw.
  { intros n va q Hn Hwq. destruct (wf_table _ _ W n va q Hn Hwq) as ([? ?] & _).
    symmetry. apply Ho; [lia | done]. }
  constructor; try done.
  - intros n va q Hn Hwq. rewrite (Hw n va q Hn Hwq). by apply (Hk n va).
  - intros f Hf Hm. rewrite <- Ho by done. by apply Hl.
  - intros q Hqt. pose proof (Hx q Hqt). apply Ht in Hqt as (n & va & Hn & _ & Hwq).
    by rewrite (Hw n va q Hn Hwq).
  - destruct Hkm as [K1 K2 K3 K4 K5]. constructor; try done. intros n va q Hn Hwq. pose proof (K2 n va q Hn Hwq).
    destruct (wf_table _ _ K1 n va q Hn Hwq) as ([? ?] & _). rewrite <- Ho; [done | lia | done].
Qed.

Lemma swap_same old v o : frame_of old = frame_of v -> same_owners (swap old v o) o.
Proof. intros E q _ _. unfold swap, give, take_off. rewrite E. destruct (q =? frame_of v); lia. Qed.

Lemma map_page_spec o T s va pa flags : pages_ok o T s -> solvent o -> user_page va ->
  frame_of (Z.lor pa flags) = pa -> pa <> 0 -> Z.land (Z.lor pa flags) MMU_USER <> 0 ->
  0 < hold s pa -> data_frame s pa ->
  wp (map_page_vm va pa flags) (fun r s' => exists T', grown T T' s s' /\
    cost 3 (r =? 0) (fr s) (fr s') /\
    ((r = 0 /\ pages_ok (swap (pte s va) (Z.lor pa flags) o) T' s' /\ (exists p, entry s' va p) /\
      forall va', user_page va' -> pte s' va' = set_pte (pte s) va (Z.lor pa flags) va') \/
     (r = -1 /\ pages_ok o T' s' /\ forall va', pte s' va' = pte s va'))) s.
Proof.
  intros Hok Hsol Hva Hpa H0 Hu Hh Hd.
  destruct (map_page_in_spec (machine (ker s)) (root s) va pa flags (po_wf _ _ _ Hok))
    as (r & m' & Hm & Hwf' & Hg & Hcost & Hres).
  unfold map_page_vm, on_machine, wp. fold (root s). rewrite Hm. cbn [mbind option_bind].
  exists (T ∪ new_tables s (set_machine m' s) va). split; [by apply (map_grown o) |]. split; [done |].
  destruct Hres as [(-> & (t & Ht) & Hx) | (-> & Hx)].
  - left. split; [done |].
    assert (remapped o T (new_tables s (set_machine m' s) va) va (Z.lor pa flags) s (set_machine m' s)) as Hrm.
    { apply map_remapped; try done; [by rewrite Ht | by rewrite Hpa |].
      rewrite has_frame_of, Hpa. by intros ?%negb_false_iff%Z.eqb_eq. }
    split; [by apply (pages_ok_remapped o T _ va) |]. split; [by exists (t, ix 3 va), t |].
    intros va' Hva'. rewrite (rm_pte _ _ _ _ _ _ _ Hrm va'). unfold set_pte. by rewrite same_page_eq.
  - right. split; [done |].
    assert (remapped o T (new_tables s (set_machine m' s) va) va (pte s va) s (set_machine m' s)) as Hrm.
    { apply map_remapped; try done.
      - intros va'. rewrite Hx. fold (mm s) (pte s va'). destruct (same_page va va') eqn:E; [| done].
        by apply pte_same_page.
      - intros Hf. destruct (page_frame o T s va Hok Hva Hf) as (Hc & Hf0 & Hdf).
        split; [by apply (po_user _ _ _ Hok) |]. split; [| done].
        apply (data_held o T); [done | done | done | apply frame_of_aligned |].
        pose proof (pend_nonneg (pending (vm s)) (frame_of (pte s va))). lia.
      - by apply (po_empty _ _ _ Hok). }
    split; [| intros va'; apply Hx]. eapply pages_ok_ext; [by apply (pages_ok_remapped o T _ va) |].
    by apply swap_same.
Qed.
End pages.

#[global] Opaque uses.
