(* ===== verification/VmPageOps.v ===== *)
(** * The page loops of an address space

    The loops of vm.c over the pages of a range, the queue of write backs and
    the functions that give a page its frame, each with what it does to the
    entries and with the ledger of VmPages kept. *)

From Stdlib Require Import ZArith Lia Bool.
From stdpp Require Import base list option gmap.
From S2P Require Import Prelude Mmu Frames PageTable PageTableFacts StateMonad Rbtree VmArea VmAreaFacts Vm VmPages.
Open Scope Z_scope.
Open Scope prog_scope.

Section ops.
Context {A : Type} `{!Frames A, !FramesOk A}.
Implicit Types (s : state A) (o : Z -> Z) (T : gset Z).

(** A range of pages of user memory. *)
Record page_range (start end_ : Z) : Prop := {
  pr_start : aligned start;
  pr_end : aligned end_;
  pr_low : USER_ADDR_MIN <= start;
  pr_order : start <= end_;
  pr_high : end_ <= USER_ADDR_LIMIT;
}.

Lemma area_range r : area_wf r -> page_range (va_start r) (va_end r).
Proof. intros []. constructor; auto. lia. Qed.

Lemma range_page start end_ va : page_range start end_ -> aligned va -> start <= va < end_ ->
  user_page va.
Proof. intros [] Ha Hva. split; [unfold user_va; lia | done]. Qed.

Lemma aligned_add va : aligned va -> aligned (va + PAGE_SIZE).
Proof. unfold aligned, PAGE_SIZE. intros H. rewrite Z.add_mod, H by lia. done. Qed.

Lemma aligned_gap a b : aligned a -> aligned b -> a < b -> a + PAGE_SIZE <= b.
Proof.
  unfold aligned, PAGE_SIZE. intros Ha Hb H. pose proof (Z.div_mod a 4096). pose proof (Z.div_mod b 4096). lia.
Qed.

Lemma for_pages_rule (I : Z -> state A -> Prop) start end_ f s : page_range start end_ -> I start s ->
  (forall va s, aligned va -> start <= va < end_ -> I va s ->
     wp (f va) (fun _ s' => I (va + PAGE_SIZE) s') s) ->
  wp (for_pages start end_ f) (fun _ s' => I end_ s') s.
Proof.
  intros [Has Hae Hlo Hle Hhi] H0 Hstep. unfold for_pages.
  remember (Z.to_nat ((end_ - start + PAGE_SIZE - 1) / PAGE_SIZE)) as n eqn:En.
  assert (end_ - start <= Z.of_nat n * PAGE_SIZE) as Hn.
  { subst n. unfold PAGE_SIZE in *. pose proof (Z.div_mod (end_ - start + 0x1000 - 1) 0x1000).
    pose proof (Z.mod_pos_bound (end_ - start + 0x1000 - 1) 0x1000). lia. }
  clear En. revert start s Has Hlo Hle H0 Hn Hstep.
  induction n as [| n IH]; intros start s Has Hlo Hle H0 Hn Hstep; cbn [pages_loop].
  - replace end_ with start by (unfold PAGE_SIZE in Hn; lia). rewrite Z.ltb_irrefl. by apply wp_ret.
  - destruct (Z.ltb_spec start end_) as [Hlt | Hge]; cbn [negb].
    2:{ apply wp_ret. by replace end_ with start by lia. }
    apply wp_bind. eapply wp_mono; [apply (Hstep start s Has); [lia | done] |]. intros [] s1 H1. cbn beta.
    pose proof (aligned_gap _ _ Has Hae Hlt) as Hgap.
    rewrite u64_small by (unfold USER_ADDR_MIN, USER_ADDR_LIMIT, PAGE_SIZE in *; lia).
    apply IH; [by apply aligned_add | unfold PAGE_SIZE; lia | done | done | unfold PAGE_SIZE in *; lia |].
    intros va s2 Ha Hva. apply Hstep; [done | unfold PAGE_SIZE in *; lia].
Qed.

(** ** States with the same pages *)

Lemma same_rest_pte s s' va : same_rest s s' -> pte s' va = pte s va.
Proof. intros [Hm Hp _ _ _ _ _]. unfold pte, mm, root. by rewrite Hm, Hp. Qed.
Lemma same_rest_mm s s' : same_rest s s' -> mm s' = mm s.
Proof. intros [Hm _ _ _ _ _ _]. unfold mm. by rewrite Hm. Qed.
Lemma same_rest_hold s s' q : same_rest s s' -> hold s' q = hold s q.
Proof. intros [Hm _ _ _ _ _ _]. unfold hold. by rewrite Hm. Qed.

Lemma same_rest_count s s' f : same_rest s s' -> count s' f = count s f.
Proof. intros Hr. apply uses_ext; [apply user_range_aligned.. |]. intros va _ _. by apply same_rest_pte. Qed.

Lemma pages_ok_rest o T s s' : same_rest s s' -> pages_ok o T s -> pages_ok o T s'.
Proof.
  intros Hr Hok. pose proof (same_rest_mm s s' Hr) as Hmm. pose proof (fun q => same_rest_hold s s' q Hr) as Hh.
  destruct Hr as [Hm Hroot _ _ _ _ Hpe]. apply (pages_ok_update o o T s); [done |]. constructor.
  - done.
  - unfold kroot. by rewrite Hm.
  - rewrite Hm. apply (po_wf _ _ _ Hok).
  - intros q _. by rewrite Hmm, Hh.
  - intros f _ _. by rewrite Hh, Hpe.
  - intros f Hf. rewrite Hpe, Hmm. apply (po_data _ _ _ Hok f Hf).
  - rewrite Hpe. apply (po_queue _ _ _ Hok).
Qed.

Lemma malloc_spec s (Q : bool -> state A -> Prop) :
  (forall b s', same_rest s s' -> vm s' = vm s -> events (ker s') = events (ker s) -> Q b s') ->
  wp malloc Q s.
Proof. intros H. unfold wp, malloc. destruct (ask (mallocs (ker s))) as [b ms]. apply H; done. Qed.

(** Frames of others keep their contents, and only the queue of the space changes. *)
Definition tame o s s' : Prop :=
  paged s s' /\ forall q, q <> 0 -> q mod PAGE_SIZE = 0 -> 0 < o q -> mm s' !! q = mm s !! q.

Lemma tame_refl o s : tame o s s.
Proof. split; [apply paged_refl | done]. Qed.
Lemma tame_trans o s1 s2 s3 : tame o s1 s2 -> tame o s2 s3 -> tame o s1 s3.
Proof.
  intros [P1 M1] [P2 M2]. split; [by eapply paged_trans |]. intros q Hq Hm Ho. by rewrite M2, M1.
Qed.
Lemma tame_same o s s' : paged s s' -> mm s' = mm s -> tame o s s'.
Proof. intros P M. split; [done |]. intros. by rewrite M. Qed.

Lemma excl_not_table o T s q : pages_ok o T s -> 0 < o q -> q ∉ T.
Proof. intros Hok Ho Hq. rewrite (po_excl _ _ _ Hok q Hq) in Ho. lia. Qed.

Lemma tame_stored o o2 T va v s0 s s' : pages_ok o T s0 -> stored o2 T va v s s' -> tame o s s'.
Proof.
  intros Hok Hs. split; [apply (sd_paged _ _ _ _ _ _ Hs) |]. intros q Hq Hm Ho.
  apply (sd_mem _ _ _ _ _ _ Hs). by apply (excl_not_table o T s0).
Qed.

(** Everything but the tables in [T]. *)
Definition outside T (q : Z) : Z := if decide (q ∈ T) then 0 else 1.

Lemma outside_pos T q : 0 < outside T q <-> q ∉ T.
Proof. unfold outside. by case_decide. Qed.

Lemma tame_outside o T s0 s s' : pages_ok o T s0 -> tame (outside T) s s' -> tame o s s'.
Proof.
  intros Hok [Hp Hm]. split; [done |]. intros q Hq Hmod Ho. apply Hm; [done | done |].
  apply outside_pos. by apply (excl_not_table o T s0).
Qed.

Lemma stored_outside o T va v s s' : stored o T va v s s' -> tame (outside T) s s'.
Proof.
  intros Hs. split; [apply (sd_paged _ _ _ _ _ _ Hs) |]. intros q Hq Hm Ho%outside_pos.
  by apply (sd_mem _ _ _ _ _ _ Hs).
Qed.

Lemma same_rest_paged s s' : same_rest s s' -> vm s' = vm s -> paged s s'.
Proof. intros Hr Hv. split; [rewrite Hv; by destruct (vm s) | by rewrite (sr_machine _ _ Hr)]. Qed.

Lemma entry_same s s' va p : same_reach s s' -> entry s va p -> entry s' va p.
Proof. intros Hw (t & Ht & ->). exists t. split; [| done]. by rewrite (proj1 (Hw 3%nat va ltac:(lia))). Qed.
Lemma reowned_entry o T s s' va p : reowned o T s s' -> entry s va p -> entry s' va p.
Proof. intros (_ & _ & _ & _ & _ & Hw). by apply entry_same. Qed.
Lemma stored_entry o T va v s s' va' p : stored o T va v s s' -> entry s va' p -> entry s' va' p.
Proof. intros Hs. by apply entry_same, (sd_walk _ _ _ _ _ _ Hs). Qed.

(** ** Freeing the frames of a range *)

(** The entries after the frames between [lo] and [hi] are gone. *)
Definition cleared (e : Z -> Z) (lo hi va : Z) : Z :=
  if (lo <=? va) && (va <? hi) && has_frame (e va) then 0 else e va.

Lemma cleared_here e lo va va' : lo <= va -> aligned va -> aligned va' ->
  cleared e lo (va + PAGE_SIZE) va' =
    if (va' =? va) && has_frame (e va) then 0 else cleared e lo va va'.
Proof.
  intros Hlo Ha Ha'. unfold cleared. destruct (Z.eqb_spec va' va) as [-> | Hne]; cbn [andb].
  - rewrite Z.ltb_irrefl, andb_false_r. cbn [andb]. unfold PAGE_SIZE. zcases.
  - assert ((va' <? va + PAGE_SIZE) = (va' <? va)) as ->; [| done].
    destruct (Z.ltb_spec va' va); [unfold PAGE_SIZE; zcases |].
    pose proof (aligned_gap va va' Ha Ha'). zcases.
Qed.

Lemma frame_user o T s va : pages_ok o T s -> user_page va ->
  (Z.land (pte s va) MMU_USER =? 0) || negb (has_frame (pte s va)) = negb (has_frame (pte s va)).
Proof.
  intros Hok Hva. destruct (has_frame (pte s va)) eqn:Hf; [| by rewrite orb_true_r].
  apply (po_user _ _ _ Hok va Hva), Z.eqb_neq in Hf. by rewrite Hf.
Qed.

Lemma page_held o T s va : pages_ok o T s -> solvent o -> user_page va ->
  has_frame (pte s va) = true -> 0 < hold s (frame_of (pte s va)).
Proof.
  intros Hok Hsol Hva Hf. destruct (page_frame o T s va Hok Hva Hf) as (Hc & H0 & _).
  apply (data_held o T); [done.. | apply frame_of_aligned |].
  pose proof (pend_nonneg (pending (vm s)) (frame_of (pte s va))). lia.
Qed.

(** The body of the loop on a page with a frame. *)
Lemma drop_page_spec o T s va p : pages_ok o T s -> solvent o -> user_page va ->
  has_frame (pte s va) = true -> entry s va p ->
  wp (free_physical_page (Z.land (pte s va) PTE_FRAME) ;; store p 0) (fun _ s' =>
    pages_ok o T s' /\ vm s' = vm s /\ tame (outside T) s s' /\
    forall va', user_page va' -> pte s' va' = set_pte (pte s) va 0 va') s.
Proof.
  intros Hok Hsol Hva Hf Hp. fold (frame_of (pte s va)).
  destruct (page_frame o T s va Hok Hva Hf) as (_ & H0 & [Hnt _]).
  apply wp_bind. eapply wp_mono.
  { apply (free_frame_spec o T s); [done | done | apply frame_of_aligned | by apply (page_held o T) | done]. }
  intros [] s1 [Hro _]. pose proof Hro as (Hok1 & Hvm1 & Hm1 & Hpg1 & Hpte1 & _). cbn beta.
  eapply wp_mono; [apply (store_spec _ T s1 va p 0 Hok1 Hva); [exact (reowned_entry _ _ _ _ _ _ Hro Hp) | done | done] |].
  intros [] s2 Hst. split; [| split; [| split]].
  - eapply pages_ok_ext; [apply (sd_ok _ _ _ _ _ _ Hst) |]. intros q Hq _. rewrite Hpte1.
    unfold swap, give, take_off. change (frame_of 0) with 0.
    destruct (Z.eqb_spec q (frame_of (pte s va))), (Z.eqb_spec q 0); lia.
  - by rewrite (sd_vm _ _ _ _ _ _ Hst).
  - apply (tame_trans _ _ s1); [by apply tame_same | by eapply stored_outside].
  - intros va' Hva'. rewrite (sd_pte _ _ _ _ _ _ Hst va' Hva'). unfold set_pte. by rewrite Hpte1.
Qed.

Lemma free_frames_spec o T s start end_ : pages_ok o T s -> solvent o -> page_range start end_ ->
  wp (free_frames start end_) (fun _ s' => pages_ok o T s' /\ vm s' = vm s /\ tame (outside T) s s' /\
    forall va, user_page va -> pte s' va = cleared (pte s) start end_ va) s.
Proof.
  intros Hok Hsol Hr. unfold free_frames.
  apply (for_pages_rule (fun hi s' => pages_ok o T s' /\ vm s' = vm s /\ tame (outside T) s s' /\
    forall va, user_page va -> pte s' va = cleared (pte s) start hi va) start end_); [done | |].
  { split; [done |]. split; [done |]. split; [apply tame_refl |]. intros va _. unfold cleared. zcases. }
  intros va s1 Ha Hva (Hok1 & Hvm1 & Ht1 & Hp1). pose proof (range_page _ _ va Hr Ha Hva) as Hup.
  assert (pte s1 va = pte s va) as Ept.
  { rewrite Hp1 by done. unfold cleared. by rewrite Z.ltb_irrefl, andb_false_r. }
  assert (has_frame (pte s va) = false -> forall va', user_page va' ->
    pte s1 va' = cleared (pte s) start (va + PAGE_SIZE) va') as Hnone.
  { intros Hf va' [? ?]. rewrite Hp1, cleared_here by (done || lia). by rewrite Hf, andb_false_r. }
  apply wp_bind. apply (find_pte_spec o T); [done | apply Hup | |].
  { intros E. apply wp_ret. split_and!; try done. apply Hnone. by rewrite <- Ept, E. }
  intros p Hp. apply wp_bind. apply (load_spec o T s1 va); [done | done |].
  rewrite (frame_user o T s1 va) by done. destruct (has_frame (pte s1 va)) eqn:Hf; cbn [negb].
  2:{ apply wp_ret. split_and!; try done. apply Hnone. by rewrite <- Ept. }
  eapply wp_mono; [by apply (drop_page_spec o T s1 va p) |]. intros [] s2 (Hok2 & Hvm2 & Ht2 & Hp2).
  split; [done |]. split; [congruence |]. split; [by eapply tame_trans |]. intros va' Hva'.
  pose proof Hva' as [? ?]. rewrite Hp2, cleared_here, <- Ept, Hf, andb_true_r by (done || lia).
  unfold set_pte. by rewrite Hp1.
Qed.

(** ** The queue of write backs *)

(** Nothing changed but the queue and the ledger. *)
Definition requeued o T s s' : Prop :=
  pages_ok o T s' /\ mm s' = mm s /\ paged s s' /\ (forall va, pte s' va = pte s va) /\
  same_reach s s' /\ forall q, q <> 0 -> q mod PAGE_SIZE = 0 -> hold s' q <= hold s q.

Lemma set_pending_ok o o' T s l : pages_ok o T s ->
  (forall w, w ∈ l -> fl_frame w mod PAGE_SIZE = 0 /\ (fl_frame w <> 0 -> data_frame s (fl_frame w))) ->
  (forall f, f <> 0 -> f mod PAGE_SIZE = 0 -> o' f + pend l f = o f + pend (pending (vm s)) f) ->
  requeued o' T s (set_vm (with_pending l (vm s)) s).
Proof.
  intros Hok Hl Ho. set (s' := set_vm _ s).
  destruct (pages_ok_update o o' T s s' Hok) as (Hok' & Hp & Hw).
  - constructor; [done | done | apply (po_wf _ _ _ Hok) | | | |].
    + intros q Hq. split; [done |]. split; [done |]. destruct (reached_table o T s q Hok Hq) as ([? Hm] & _).
      assert (forall l', (forall w, w ∈ l' -> fl_frame w <> 0 -> data_frame s (fl_frame w)) -> pend l' q = 0) as Hz.
      { intros l' Hl'. pose proof (pend_nonneg l' q). destruct (Z.eq_dec (pend l' q) 0) as [? | Hne]; [done |].
        assert (0 < pend l' q) as (w & Hw & <-)%pend_pos by lia.
        by destruct (Hl' w Hw ltac:(lia)) as [Hnt _]. }
      specialize (Ho q ltac:(lia) Hm). rewrite (Hz l), (Hz (pending (vm s))) in Ho; [lia | |].
      * intros w Hw Hne. apply (po_data _ _ _ Hok); [done |]. pose proof (count_nonneg s (fl_frame w)).
        assert (0 < pend (pending (vm s)) (fl_frame w)) by (apply pend_pos; eauto). lia.
      * intros w Hw. by apply Hl.
    + intros f Hf Hm. specialize (Ho f Hf Hm). change (hold s' f) with (hold s f). cbn. lia.
    + intros f Hf Hc. cbn in Hc. destruct (Z.eq_dec (count s f) 0) as [E | E].
      * assert (0 < pend l f) as (w & Hw & <-)%pend_pos by lia. by apply Hl.
      * apply (po_data _ _ _ Hok); [done |]. pose proof (count_nonneg s f).
        pose proof (pend_nonneg (pending (vm s)) f). lia.
    + intros w Hw. by apply Hl.
  - by split_and!.
Qed.

Lemma requeued_trans o1 o2 T s1 s2 s3 : requeued o1 T s1 s2 -> requeued o2 T s2 s3 -> requeued o2 T s1 s3.
Proof.
  intros (_ & Hm1 & Hg1 & Hp1 & Hw1 & Hh1) (Hok & Hm2 & Hg2 & Hp2 & Hw2 & Hh2).
  split_and!; [done | congruence | by eapply paged_trans | | |].
  - intros va. by rewrite Hp2.
  - by eapply same_reach_trans.
  - intros q Hq Hm. etrans; [by apply Hh2 | by apply Hh1].
Qed.

Lemma requeued_ext o o' T s s' : requeued o T s s' -> same_owners o o' -> requeued o' T s s'.
Proof. intros [Hok H] Ho. split; [by eapply pages_ok_ext | exact H]. Qed.

Lemma requeued_rest o T s s' : pages_ok o T s -> same_rest s s' -> vm s' = vm s -> requeued o T s s'.
Proof.
  intros Hok Hr Hvm. split; [by eapply pages_ok_rest |]. rewrite (same_rest_mm _ _ Hr). split; [done |].
  split; [by apply same_rest_paged |]. split; [intros; by apply same_rest_pte |].
  split; [intros n va Hn; unfold root, kroot, mm; by rewrite Hvm, (sr_machine _ _ Hr) |]. intros q _ _. by rewrite (same_rest_hold _ _ _ Hr).
Qed.

Lemma requeued_data o T s s' f : requeued o T s s' -> data_frame s f -> data_frame s' f.
Proof. intros (_ & Hm & _ & _ & Hw & _) Hd. apply (data_frame_same s); [done | done | by rewrite Hm]. Qed.

(** A frame in hand is given back. *)
Lemma release_frame_spec o T s f : pages_ok (give f o) T s -> solvent o -> f <> 0 -> f mod PAGE_SIZE = 0 ->
  not_table s f -> wp (free_physical_page f) (fun _ s' => requeued o T s s' /\ vm s' = vm s /\
    forall q, q <> 0 -> q mod PAGE_SIZE = 0 -> hold s' q = if q =? f then hold s q - 1 else hold s q) s.
Proof.
  intros Hok Hsol Hf Hm Hnt. eapply wp_mono.
  { apply (free_frame_spec (give f o) T s); [done | done | done | | done].
    rewrite (po_ledger _ _ _ Hok f Hf Hm). specialize (Hsol f Hf Hm). unfold give. rewrite Z.eqb_refl.
    pose proof (count_nonneg s f). pose proof (pend_nonneg (pending (vm s)) f).
    destruct (decide (f ∈ T)); lia. }
  intros [] s2 [(Hok2 & Hvm2 & Hmm2 & Hpg2 & Hp2 & Hw2) Hh]. split; [| by split]. split_and!; try done.
  - eapply pages_ok_ext; [exact Hok2 |]. intros q _ _. unfold take_off, give. destruct (q =? f); lia.
  - intros q Hq Hqm. rewrite Hh by done. destruct (q =? f); lia.
Qed.

Lemma queue_spec o T s r off f : pages_ok (give f o) T s -> solvent o -> f mod PAGE_SIZE = 0 ->
  (f <> 0 -> data_frame s f) ->
  wp (queue r off f) (fun _ s' => requeued o T s s') s.
Proof.
  intros Hok Hsol Hm Hd. unfold queue. apply wp_bind, malloc_spec. intros b s1 Hr Hvm _.
  pose proof (requeued_rest _ _ _ _ Hok Hr Hvm) as Hq1. pose proof Hq1 as [Hok1 _].
  assert (f <> 0 -> data_frame s1 f) as Hd1 by (intros Hf; eapply requeued_data; eauto).
  destruct b; cbn [negb].
  - apply wp_modify. eapply requeued_trans; [exact Hq1 |]. apply (set_pending_ok (give f o)); [done | |].
    + intros w [Hw | ->%list_elem_of_singleton]%elem_of_app; [| done].
      split; [by apply (po_queue _ _ _ Hok1) |]. intros Hne. apply (po_data _ _ _ Hok1); [done |].
      assert (0 < pend (pending (vm s1)) (fl_frame w)) by (apply pend_pos; eauto).
      pose proof (count_nonneg s1 (fl_frame w)). lia.
    + intros q Hq Hqm. rewrite pend_app, pend_cons. cbn [fl_frame]. change (pend [] q) with 0. unfold give.
      rewrite (Z.eqb_sym f q). destruct (q =? f); lia.
  - apply wp_when; [| intros E; apply negb_false_iff, Z.eqb_eq in E; subst f].
    + intros Hne%negb_true_iff%Z.eqb_neq. eapply wp_mono; [by apply release_frame_spec; [.. | by apply Hd1] |].
      intros [] s2 (Hq2 & _). by eapply requeued_trans.
    + apply (requeued_ext _ _ _ _ _ Hq1). intros q Hq _. unfold give. by destruct (Z.eqb_spec q 0).
Qed.

(** ** Sharing the dirty pages of a range *)

(** The entries after the dirty bits between [lo] and [hi] were cleared. *)
Definition cleaned (clear : bool) (e : Z -> Z) (lo hi va : Z) : Z :=
  if clear && (lo <=? va) && (va <? hi) && has_frame (e va) then Z.ldiff (e va) PTE_DIRTY else e va.

Lemma frame_of_ldiff e x : Z.land x PTE_FRAME = 0 -> frame_of (Z.ldiff e x) = frame_of e.
Proof.
  intros H. apply Z.bits_inj'. intros i Hi. unfold frame_of. rewrite !Z.land_spec, Z.ldiff_spec.
  apply (f_equal (fun y => Z.testbit y i)) in H. rewrite Z.land_spec, Z.bits_0 in H.
  by destruct (Z.testbit e i), (Z.testbit x i), (Z.testbit PTE_FRAME i).
Qed.

Lemma land_ldiff_other e x m : Z.land x m = 0 -> Z.land (Z.ldiff e x) m = Z.land e m.
Proof.
  intros H. apply Z.bits_inj'. intros i Hi. rewrite !Z.land_spec, Z.ldiff_spec.
  apply (f_equal (fun y => Z.testbit y i)) in H. rewrite Z.land_spec, Z.bits_0 in H.
  by destruct (Z.testbit e i), (Z.testbit x i), (Z.testbit m i).
Qed.

Lemma ldiff_none e x : Z.land e x = 0 -> Z.ldiff e x = e.
Proof.
  intros H. apply Z.bits_inj'. intros i Hi. rewrite Z.ldiff_spec.
  apply (f_equal (fun y => Z.testbit y i)) in H. rewrite Z.land_spec, Z.bits_0 in H.
  by destruct (Z.testbit e i), (Z.testbit x i).
Qed.

Lemma has_frame_ldiff e x : Z.land x PTE_FRAME = 0 -> has_frame (Z.ldiff e x) = has_frame e.
Proof. intros H. rewrite !has_frame_of. by rewrite frame_of_ldiff. Qed.

Lemma frame_of_cleaned c e lo hi va : frame_of (cleaned c e lo hi va) = frame_of (e va).
Proof. unfold cleaned. destruct (_ && has_frame _); [by apply frame_of_ldiff | done]. Qed.

Lemma cleaned_here c e lo va va' : lo <= va -> aligned va -> aligned va' ->
  cleaned c e lo (va + PAGE_SIZE) va' =
    if c && (va' =? va) && has_frame (e va) then Z.ldiff (e va) PTE_DIRTY else cleaned c e lo va va'.
Proof.
  intros Hlo Ha Ha'. unfold cleaned. destruct c; cbn [andb]; [| done].
  destruct (Z.eqb_spec va' va) as [-> | Hne]; cbn [andb].
  - rewrite Z.ltb_irrefl, andb_false_r. cbn [andb]. unfold PAGE_SIZE. zcases.
  - assert ((va' <? va + PAGE_SIZE) = (va' <? va)) as ->; [| done].
    destruct (Z.ltb_spec va' va); [unfold PAGE_SIZE; zcases |].
    pose proof (aligned_gap va va' Ha Ha'). zcases.
Qed.

(** No frame reaches the limit of its reference count when every entry of the
    range adds an owner. *)
Definition roomy s (start end_ : Z) : Prop := forall f, f <> 0 -> f mod PAGE_SIZE = 0 ->
  hold s f + uses (pte s) f start end_ <= 0xFFFF.

(** The body of the loop on a dirty page. *)
Lemma share_dirty_spec o T s r off va p clear : pages_ok o T s -> solvent o -> user_page va ->
  has_frame (pte s va) = true -> entry s va p -> hold s (frame_of (pte s va)) < 0xFFFF ->
  wp (pmm_share_page (Z.land (pte s va) PTE_FRAME) ;;
      queue r off (Z.land (pte s va) PTE_FRAME) ;;
      when clear (store p (Z.ldiff (pte s va) PTE_DIRTY))) (fun _ s' =>
    pages_ok o T s' /\ tame (outside T) s s' /\
    (forall va', user_page va' -> pte s' va' =
       if clear then set_pte (pte s) va (Z.ldiff (pte s va) PTE_DIRTY) va' else pte s va') /\
    forall q, q <> 0 -> q mod PAGE_SIZE = 0 ->
      hold s' q <= hold s q + (if frame_of (pte s va) =? q then 1 else 0)) s.
Proof.
  intros Hok Hsol Hva Hf Hp Hlim. fold (frame_of (pte s va)). set (f := frame_of (pte s va)) in *.
  destruct (page_frame o T s va Hok Hva Hf) as (_ & H0 & Hd). fold f in H0, Hd.
  pose proof (page_held o T s va Hok Hsol Hva Hf) as Hh. fold f in Hh.
  assert (f mod PAGE_SIZE = 0) as Hm by apply frame_of_aligned.
  apply wp_bind. eapply wp_mono; [apply (share_spec o T s f); [done.. | apply Hd] |].
  intros [] s1 [(Hok1 & Hvm1 & Hm1 & Hpg1 & Hp1 & Hw1) Hh1]. cbn beta.
  apply wp_bind. eapply wp_mono; [apply (queue_spec o T s1 r off f); [done.. |] |].
  { intros _. apply (data_frame_same s); [done | done | by rewrite Hm1]. }
  intros [] s2 Hq. pose proof Hq as (Hok2 & Hm2 & Hpg2 & Hp2 & Hw2 & Hh2). cbn beta.
  assert (tame (outside T) s s2) as Ht by (apply tame_same; [by eapply paged_trans | congruence]).
  assert (forall q, q <> 0 -> q mod PAGE_SIZE = 0 ->
    hold s2 q <= hold s q + (if f =? q then 1 else 0)) as Hh3.
  { intros q Hq0 Hqm. specialize (Hh2 q Hq0 Hqm). rewrite Hh1 in Hh2 by done. rewrite (Z.eqb_sym f q).
    destruct (q =? f); lia. }
  assert (forall va', pte s2 va' = pte s va') as Hps by (intros va'; by rewrite Hp2).
  apply wp_when; intros ->; [| by split_and!].
  assert (entry s2 va p) as Hp' by (apply (entry_same s1); [done | by apply (entry_same s)]).
  eapply wp_mono; [apply (store_spec o T s2 va p _ Hok2 Hva Hp') |].
  { intros _. rewrite Hps, frame_of_ldiff, land_ldiff_other by done. split; [| by left].
    by apply (po_user _ _ _ Hok). }
  { rewrite has_frame_ldiff by done. congruence. }
  intros [] s3 Hst. split; [| split; [| split]].
  - eapply pages_ok_ext; [apply (sd_ok _ _ _ _ _ _ Hst) |]. apply swap_same. by rewrite Hps, frame_of_ldiff.
  - eapply tame_trans; [exact Ht |]. by eapply stored_outside.
  - intros va' Hva'. rewrite (sd_pte _ _ _ _ _ _ Hst va' Hva'). unfold set_pte. by rewrite Hps.
  - intros q Hq0 Hqm. rewrite (sd_hold _ _ _ _ _ _ Hst). by apply Hh3.
Qed.

Lemma uses_next e f start va : aligned va -> start <= va ->
  uses e f start (va + PAGE_SIZE) = uses e f start va + (if frame_of (e va) =? f then 1 else 0).
Proof.
  intros Ha Hle. rewrite (uses_split e f start va) by (unfold PAGE_SIZE; lia).
  rewrite (uses_step e f va) by (done || lia). rewrite uses_empty. lia.
Qed.

Lemma queue_dirty_spec o T s r start end_ clear : pages_ok o T s -> solvent o ->
  page_range start end_ -> roomy s start end_ ->
  wp (queue_dirty r start end_ clear) (fun _ s' => pages_ok o T s' /\ tame (outside T) s s' /\
    (forall va, user_page va -> pte s' va = cleaned clear (pte s) start end_ va) /\
    forall q, q <> 0 -> q mod PAGE_SIZE = 0 -> hold s' q <= hold s q + uses (pte s) q start end_) s.
Proof.
  intros Hok Hsol Hr Hroom. unfold queue_dirty.
  apply (for_pages_rule (fun hi s' => pages_ok o T s' /\ tame (outside T) s s' /\
    (forall va, user_page va -> pte s' va = cleaned clear (pte s) start hi va) /\
    forall q, q <> 0 -> q mod PAGE_SIZE = 0 -> hold s' q <= hold s q + uses (pte s) q start hi)
    start end_); [done | |].
  { split; [done |]. split; [apply tame_refl |]. split; [| intros; rewrite uses_empty; lia].
    intros va _. unfold cleaned. destruct clear; [zcases | done]. }
  intros va s1 Ha Hva (Hok1 & Ht1 & Hp1 & Hh1). pose proof (range_page _ _ va Hr Ha Hva) as Hup.
  assert (pte s1 va = pte s va) as Ept.
  { rewrite Hp1 by done. unfold cleaned. by rewrite Z.ltb_irrefl, andb_false_r. }
  assert (has_frame (pte s va) = false \/ Z.land (pte s va) PTE_DIRTY = 0 ->
    (forall va', user_page va' -> pte s1 va' = cleaned clear (pte s) start (va + PAGE_SIZE) va') /\
    forall q, q <> 0 -> q mod PAGE_SIZE = 0 ->
      hold s1 q <= hold s q + uses (pte s) q start (va + PAGE_SIZE)) as Hnone.
  { intros Hc. split.
    - intros va' [? ?]. rewrite Hp1, cleaned_here by (done || lia).
      destruct (clear && (va' =? va) && has_frame (pte s va)) eqn:E; [| done].
      apply andb_prop in E as [[_ ->%Z.eqb_eq]%andb_prop Hf]. destruct Hc as [? | Hc]; [congruence |].
      rewrite (ldiff_none _ _ Hc). unfold cleaned. by rewrite Z.ltb_irrefl, andb_false_r.
    - intros q Hq Hm. rewrite uses_next by (done || lia). specialize (Hh1 q Hq Hm).
      destruct (frame_of (pte s va) =? q); lia. }
  apply wp_bind. apply (find_pte_spec o T); [done | apply Hup | |].
  { intros E. apply wp_ret. split; [done |]. split; [done |]. apply Hnone. left. by rewrite <- Ept, E. }
  intros p Hp. apply wp_bind. apply (load_spec o T s1 va); [done | done |].
  destruct (negb (has_frame (pte s1 va)) || (Z.land (pte s1 va) PTE_DIRTY =? 0)) eqn:Hb.
  { apply wp_ret. split; [done |]. split; [done |]. apply Hnone. rewrite <- Ept.
    apply orb_prop in Hb as [?%negb_true_iff | ?%Z.eqb_eq]; tauto. }
  apply orb_false_elim in Hb as [Hf%negb_false_iff _].
  assert (frame_of (pte s va) <> 0) as Hf0
    by (rewrite Ept, has_frame_of in Hf; by apply negb_true_iff, Z.eqb_neq in Hf).
  eapply wp_mono; [apply (share_dirty_spec o T s1 r _ va p clear); [done.. |] |].
  { rewrite Ept. specialize (Hroom _ Hf0 (frame_of_aligned _)). specialize (Hh1 _ Hf0 (frame_of_aligned _)).
    rewrite (uses_split _ _ start va), (uses_step _ _ va) in Hroom
      by (done || lia || (apply aligned_gap; [done | apply Hr | lia])).
    rewrite Z.eqb_refl in Hroom.
    pose proof (uses_nonneg (va + PAGE_SIZE) end_ (pte s) (frame_of (pte s va))). lia. }
  intros [] s2 (Hok2 & Ht2 & Hp2 & Hh2). split; [done |]. split; [by eapply tame_trans |]. split.
  - intros va' Hva'. pose proof Hva' as [? ?]. rewrite Hp2, cleaned_here, <- Ept, Hf, andb_true_r by (done || lia).
    unfold set_pte. rewrite (Hp1 va') by done. by destruct clear, (va' =? va).
  - intros q Hq Hm. specialize (Hh2 q Hq Hm). specialize (Hh1 q Hq Hm). rewrite Ept in Hh2.
    rewrite uses_next by (done || lia). lia.
Qed.

(** ** Writing back *)

Lemma run_flush_spec o T l s : pages_ok (fun q => o q + pend l q) T s -> solvent o ->
  (forall w, w ∈ l -> fl_frame w mod PAGE_SIZE = 0 /\ (fl_frame w <> 0 -> data_frame s (fl_frame w))) ->
  wp (run_flush l) (fun _ s' => requeued o T s s' /\ vm s' = vm s) s.
Proof.
  revert s. induction l as [| w l IH]; intros s Hok Hsol Hl; cbn [run_flush].
  { apply wp_ret. split; [| done]. eapply requeued_ext; [apply (requeued_rest _ _ _ _ Hok) |]; try done.
    intros q _ _. change (pend [] q) with 0. lia. }
  assert (forall s1, same_rest s s1 -> vm s1 = vm s ->
    requeued (give (fl_frame w) (fun q => o q + pend l q)) T s s1) as Hlog.
  { intros s1 Hr Hv. eapply requeued_ext; [by apply requeued_rest |]. intros q _ _. rewrite pend_cons.
    unfold give. rewrite (Z.eqb_sym q). destruct (fl_frame w =? q); lia. }
  assert (solvent (fun q => o q + pend l q)) as Hsol'.
  { intros q Hq Hm. specialize (Hsol q Hq Hm). pose proof (pend_nonneg l q). lia. }
  destruct (Hl w ltac:(by left)) as [Hm Hd]. apply wp_bind.
  assert (forall s1, requeued (fun q => o q + pend l q) T s s1 -> vm s1 = vm s ->
    wp (run_flush l) (fun _ s' => requeued o T s s' /\ vm s' = vm s) s1) as Hrest.
  { intros s1 Hq Hv. eapply wp_mono; [apply IH; [apply Hq | done |] |].
    - intros w' Hw'. destruct (Hl w' ltac:(by right)) as [? Hd']. split; [done |]. intros Hne.
      by eapply requeued_data; [| apply Hd'].
    - intros [] s2 [Hq2 Hv2]. split; [by eapply requeued_trans | congruence]. }
  destruct (Z.eqb_spec (fl_frame w) 0) as [E | Hne]; cbn [negb].
  - apply wp_modify. match goal with |- wp _ _ ?x => assert (same_rest s x) as Hr by done end.
    apply Hrest; [| done]. eapply requeued_ext; [by apply Hlog |]. rewrite E.
    intros q Hq _. unfold give. by destruct (Z.eqb_spec q 0).
  - apply wp_bind. apply get_frame_spec; [by apply Hd |]. intros ws _ _. apply wp_bind, wp_modify.
    match goal with |- wp _ _ ?x => assert (same_rest s x) as Hr by done; set (s1 := x) in * end.
    pose proof (Hlog s1 Hr eq_refl) as Hq1.
    eapply wp_mono; [apply (release_frame_spec (fun q => o q + pend l q) T s1); [apply Hq1 | done.. |] |].
    { eapply proj1, requeued_data; [exact Hq1 | by apply Hd]. }
    intros [] s2 (Hq2 & Hv2 & _). apply Hrest; [exact (requeued_trans _ _ _ _ _ _ Hq1 Hq2) | by rewrite Hv2].
Qed.

Lemma drain_spec o T s : pages_ok o T s -> solvent o ->
  wp drain (fun _ s' => requeued o T s s' /\ pending (vm s') = []) s.
Proof.
  intros Hok Hsol. unfold drain. apply wp_bind, wp_gets, wp_bind, wp_modify.
  destruct (set_pending_ok o (fun q => o q + pend (pending (vm s)) q) T s []) as [Hok1 Hrest]; [done | | |].
  { intros w Hw. by apply elem_of_nil in Hw. }
  { intros f _ _. change (pend [] f) with 0. lia. }
  eapply wp_mono; [apply (run_flush_spec o T); [exact Hok1 | done |] |].
  - intros w Hw. split; [by apply (po_queue _ _ _ Hok) |]. intros Hne.
    assert (0 < pend (pending (vm s)) (fl_frame w)) by (apply pend_pos; eauto).
    pose proof (count_nonneg s (fl_frame w)).
    eapply requeued_data; [split; [exact Hok1 | exact Hrest] | apply (po_data _ _ _ Hok); [done | lia]].
  - intros [] s2 [Hq Hv]. split; [| by rewrite Hv].
    eapply requeued_trans; [split; [exact Hok1 | exact Hrest] | done].
Qed.

Lemma requeued_tame o o' T s s' : requeued o' T s s' -> tame o s s'.
Proof. intros (_ & Hm & Hg & _). by apply tame_same. Qed.

(** ** Entries and their bits *)

Lemma frame_of_frame p : frame_ok p -> frame_of p = p.
Proof. apply table_at_frame. Qed.

Lemma pte_flags_small prot : 0 <= pte_flags prot < PAGE_SIZE.
Proof. unfold pte_flags. by destruct (prot =? VM_NONE), (negb (Z.land prot VM_WRITE =? 0)). Qed.

Lemma new_pte p prot : frame_ok p -> frame_of (Z.lor p (pte_flags prot)) = p.
Proof. intros Hp. apply table_at_flags; [done | apply pte_flags_small]. Qed.

Lemma new_pte_bits p prot m : frame_ok p -> 0 <= m < PAGE_SIZE ->
  Z.land (Z.lor p (pte_flags prot)) m = Z.land (pte_flags prot) m.
Proof. intros [_ Hp] Hm. by apply land_flags. Qed.

Lemma pte_flags_user prot : Z.land (pte_flags prot) MMU_USER <> 0.
Proof. unfold pte_flags. by destruct (prot =? VM_NONE), (negb (Z.land prot VM_WRITE =? 0)). Qed.

Lemma frame_nonzero p : frame_ok p -> p <> 0.
Proof. intros [? _]. lia. Qed.

Lemma has_frame_new p prot : frame_ok p -> has_frame (Z.lor p (pte_flags prot)) = true.
Proof. intros Hp. rewrite has_frame_of, new_pte by done. by apply negb_true_iff, Z.eqb_neq, frame_nonzero. Qed.

(** ** A frame for a page *)

Lemma tame_grown o o1 T T' s s' : pages_ok o1 T s -> solvent o1 -> grown T T' s s' ->
  (forall q, 0 < o q -> 0 < o1 q) -> tame o s s'.
Proof.
  intros Hok Hsol Hg Ho. split; [apply (gw_paged _ _ _ _ Hg) |]. intros q Hq Hm H0.
  apply (gw_mem _ _ _ _ Hg); [done | | by apply (excl_not_table o1 T s), Ho].
  rewrite (po_ledger _ _ _ Hok q Hq Hm). specialize (Ho q H0). pose proof (count_nonneg s q).
  pose proof (pend_nonneg (pending (vm s)) q). destruct (decide (q ∈ T)); lia.
Qed.

Lemma solvent_give f o : solvent o -> solvent (give f o).
Proof. intros H q Hq Hm. specialize (H q Hq Hm). unfold give. destruct (q =? f); lia. Qed.

Lemma give_pos f o q : 0 < o q -> 0 < give f o q.
Proof. unfold give. destruct (q =? f); lia. Qed.

(** Frames in use outside the tables keep their contents. *)
Definition calm T s s' : Prop := forall q, q mod PAGE_SIZE = 0 -> 0 < hold s q -> q ∉ T -> mm s' !! q = mm s !! q.

(** A frame that was just taken is filled. *)
Lemma fresh_frame_spec o T s p ws : pages_ok o T s -> solvent o -> length ws = 512%nat ->
  forall s1, frame_ok p -> hold s p = 0 -> not_table s1 p -> reowned (give p o) T s s1 ->
  (forall q, q mod PAGE_SIZE = 0 -> hold s1 q = if q =? p then 1 else hold s q) ->
  wp (set_frame p ws) (fun _ s2 => rewritten (give p o) T p ws s1 s2 /\ tame o s s2 /\
    data_frame s2 p /\ vm s2 = vm s /\ (forall va, pte s2 va = pte s va) /\
    same_reach s s2 /\
    (forall q, q <> p -> mm s2 !! q = mm s !! q) /\
    forall q, q mod PAGE_SIZE = 0 -> hold s2 q = if q =? p then 1 else hold s q) s1.
Proof.
  intros Hok Hsol Hlen s1 Hp H0 Hnt (Hok1 & Hvm1 & Hm1 & Hpg1 & Hp1 & Hw1) Hh1.
  destruct (ledger_empty o T s p Hok Hsol (frame_nonzero p Hp) (proj2 Hp) H0) as (Ho & _).
  eapply wp_mono; [by apply (set_frame_spec (give p o) T s1) |]. intros [] s2 Hrw.
  pose proof Hrw as (Hok2 & Hvm2 & Hm2 & Hpg2 & Hh2 & Hp2 & Hw2). split; [done |].
  split; [split; [by eapply paged_trans |] |].
  { intros q Hq Hm Hoq. rewrite Hm2, lookup_insert_ne by (intros ->; lia). by rewrite Hm1. }
  split; [split; [by apply (not_table_same s1) |] |].
  { exists ws. by rewrite Hm2, lookup_insert_eq. }
  split; [congruence |]. split; [intros va; by rewrite Hp2 |].
  split; [by eapply same_reach_trans |]. split; [intros q Hq; by rewrite Hm2, lookup_insert_ne, Hm1 |].
  intros q Hq. rewrite Hh2. by apply Hh1.
Qed.

(** What [frame_for] returns. *)
Definition frame_given (va prot : Z) (r : option (Z * Z)) s s' : Prop :=
  match r with
  | None => has_frame (pte s va) = false /\ forall va', pte s' va' = pte s va'
  | Some p => entry s' va p /\
      ((has_frame (pte s va) = true /\ s' = s) \/
       (has_frame (pte s va) = false /\ exists page, frame_ok page /\ hold s page = 0 /\
          mm s' !! page = Some zero_frame /\
          forall va', user_page va' -> pte s' va' = set_pte (pte s) va (Z.lor page (pte_flags prot)) va'))
  end.

(** Tables were added after a frame was taken. *)
Lemma grown_calm T T' s s2 s3 page : hold s page = 0 ->
  (forall q, q <> page -> mm s2 !! q = mm s !! q) ->
  (forall q, q mod PAGE_SIZE = 0 -> hold s2 q = if q =? page then 1 else hold s q) ->
  grown T T' s2 s3 ->
  calm T s s3 /\ forall q, q mod PAGE_SIZE = 0 -> 0 < hold s q -> hold s3 q = hold s q.
Proof.
  intros H0 Hm Hh Hg.
  assert (forall q, q mod PAGE_SIZE = 0 -> 0 < hold s q -> q <> page /\ hold s2 q = hold s q) as Hq.
  { intros q Hqm Hpos. assert (q <> page) as Hne by (intros ->; lia). split; [done |].
    rewrite Hh by done. by destruct (Z.eqb_spec q page). }
  split.
  - intros q Hqm Hpos HT. destruct (Hq q Hqm Hpos) as [Hne E].
    rewrite (gw_mem _ _ _ _ Hg); [by apply Hm | done | lia | done].
  - intros q Hqm Hpos. destruct (Hq q Hqm Hpos) as [Hne E]. rewrite (gw_hold _ _ _ _ Hg); [done | done | lia].
Qed.

Lemma held_nonzero o T s q : pages_ok o T s -> q mod PAGE_SIZE = 0 -> 0 < hold s q -> q <> 0.
Proof.
  intros Hok Hm Hh. apply frame_nonzero. by apply (held_frame _ _ (wf_frames _ _ (po_wf _ _ _ Hok))).
Qed.

Lemma new_frame_spec o T s va prot : pages_ok o T s -> solvent o -> user_page va ->
  has_frame (pte s va) = false ->
  wp (new_frame va prot) (fun r s' => exists T', pages_ok o T' s' /\ tame o s s' /\ vm s' = vm s /\
    frame_given va prot r s s' /\ cost 4 (got r) (fr s) (fr s') /\ T ⊆ T' /\ calm T s s' /\
    forall q, q mod PAGE_SIZE = 0 -> 0 < hold s q -> hold s' q = hold s q) s.
Proof.
  intros Hok Hsol Hva Hf. unfold new_frame. apply wp_bind. eapply wp_mono; [eapply wp_also; [by apply (alloc_frame_spec o T) | intros x s' Hx; exact (alloc_cost o T s x s' Hok Hx)] |]. cbn beta.
  intros page s1 [[(-> & (Hok1 & Hv1 & Hm1 & Hg1 & Hp1 & _) & Hh1) | (Hpg & Hh0 & Hnt & Hro & Hh1)] Hc1].
  { apply wp_ret. exists T. split; [done |]. split; [by apply tame_same |]. split; [done |]. split; [by split |].
    split; [by apply (cost_weaken 1) |]. split; [done |]. split; [intros q _ _ _; by rewrite Hm1 | done]. }
  destruct (Z.eqb_spec page 0); [by apply frame_nonzero in Hpg |]. cbn [negb] in Hc1.
  apply wp_bind. eapply wp_mono; [eapply wp_also;
    [exact (fresh_frame_spec o T s page zero_frame Hok Hsol zero_frame_length s1 Hpg Hh0 Hnt Hro Hh1) | apply set_frame_fr] |].
  intros [] s2 [(Hrw & Ht2 & Hd2 & Hv2 & Hp2 & Hw2 & Hm2 & Hh2) Hfr2]. rewrite <- Hfr2 in Hc1. pose proof Hrw as (Hok2 & _ & Hmm2 & _). cbn beta.
  apply wp_bind. eapply wp_mono.
  { apply (map_page_spec (give page o) T s2 va page (pte_flags prot)); try done.
    - by apply solvent_give.
    - by apply new_pte.
    - rewrite new_pte_bits by done. apply pte_flags_user.
    - rewrite Hh2, Z.eqb_refl by apply Hpg. lia. }
  cbn beta. intros err s3 (T' & Hg & Hc3 & Hres). pose proof (cost_trans _ _ _ _ _ _ Hc1 Hc3) as Hc.
  pose proof (gw_sub _ _ _ _ Hg) as Hsub.
  destruct (grown_calm T T' s s2 s3 page Hh0 Hm2 Hh2 Hg) as [Hcalm Hhold].
  assert (0 < hold s2 page) as Hpos by (rewrite Hh2, Z.eqb_refl by apply Hpg; lia).
  assert (tame o s s3) as Ht3.
  { eapply tame_trans; [exact Ht2 |]. apply (tame_grown o (give page o) T T'); try done;
      [by apply solvent_give | intros q; apply give_pos]. }
  assert (vm s3 = vm s) as Hv3 by (rewrite (gw_vm _ _ _ _ Hg); done).
  destruct Hres as [(-> & Hok3 & Hent & Hp3) | (-> & Hok3 & Hp3)]; cbn [Z.ltb Z.compare].
  - assert (pte s3 va = Z.lor page (pte_flags prot)) as E3.
    { rewrite Hp3 by done. unfold set_pte. by rewrite Z.eqb_refl. }
    assert (pages_ok o T' s3) as Hok4.
    { eapply pages_ok_ext; [exact Hok3 |]. intros q Hq _. unfold swap.
      rewrite new_pte, Hp2 by done. unfold give, take_off.
      rewrite has_frame_of in Hf. apply negb_false_iff, Z.eqb_eq in Hf. rewrite Hf.
      destruct (Z.eqb_spec q 0); [done |]. destruct (q =? page); lia. }
    apply (find_pte_spec o T'); [done | apply Hva | |].
    + rewrite E3. intros E. pose proof (has_frame_new page prot Hpg) as Hf3. by rewrite E in Hf3.
    + intros p Hp. exists T'. split; [done |]. split; [done |]. split; [done |]. split; [| by split]. split; [done |].
      right. split; [done |]. exists page. split; [done |]. split; [done |]. split.
      * rewrite (gw_mem _ _ _ _ Hg); [by rewrite Hmm2, lookup_insert_eq | apply Hpg | done |].
        apply (excl_not_table (give page o) T s2); [done |]. unfold give. rewrite Z.eqb_refl.
        specialize (Hsol page (frame_nonzero _ Hpg) (proj2 Hpg)). lia.
      * intros va' Hva'. rewrite Hp3 by done. unfold set_pte. by rewrite Hp2.
  - apply wp_bind. eapply wp_mono; [eapply wp_also |].
    { apply (release_frame_spec o T' s3 page); [done | done | done | apply Hpg |].
      by apply (gw_data _ _ _ _ Hg page (proj2 Hpg)). }
    { intros u s4 H4. apply (free_spares (give page o) T' s3 page u s4); try done; [apply Hpg |].
      rewrite (gw_hold _ _ _ _ Hg); (done || apply Hpg). }
    intros [] s4 [(Hq4 & Hv4 & Hh4) Hs4]. pose proof Hq4 as (Hok4 & Hm4 & _ & Hp4 & _). apply wp_ret. exists T'.
    split; [done |]. split; [eapply tame_trans; [exact Ht3 | by eapply requeued_tame] |]. split; [congruence |].
    split; [split; [done |]; intros va'; by rewrite Hp4, Hp3, Hp2 |].
    split; [destruct Hc; split; [lia | done] |]. split; [done |].
    split; [intros q; rewrite Hm4; apply Hcalm |]. intros q Hq Hqh.
    rewrite Hh4 by (by (apply (held_nonzero o T s)) || done). rewrite Hhold by done.
    destruct (Z.eqb_spec q page); [subst; lia | done].
Qed.

Lemma frame_for_spec o T s va prot : pages_ok o T s -> solvent o -> user_page va ->
  wp (frame_for va prot) (fun r s' => exists T', pages_ok o T' s' /\ tame o s s' /\ vm s' = vm s /\
    frame_given va prot r s s' /\ cost 4 (got r) (fr s) (fr s') /\ T ⊆ T' /\ calm T s s' /\
    forall q, q mod PAGE_SIZE = 0 -> 0 < hold s q -> hold s' q = hold s q) s.
Proof.
  intros Hok Hsol Hva. unfold frame_for.
  apply wp_bind. apply (find_pte_spec o T); [done | apply Hva | |].
  { intros E. apply wp_bind, wp_ret. apply (new_frame_spec o T); [done.. | by rewrite E]. }
  intros p Hp. apply wp_bind, wp_bind. apply (load_spec o T s va); [done | done |]. apply wp_ret.
  destruct (has_frame (pte s va)) eqn:Hf; [| by apply (new_frame_spec o T)]. apply wp_ret.
  exists T. split; [done |]. split; [apply tame_refl |]. split; [done |].
  split; [split; [done | by left] |]. split; [by apply cost_none | done].
Qed.

(** ** Breaking copy on write *)

Definition PTE_SPLIT : Z := Z.lor PTE_FRAME PTE_COW.

Lemma copied_pte p e : frame_ok p -> frame_of (Z.lor p (Z.ldiff e PTE_SPLIT)) = p.
Proof.
  intros Hp. unfold frame_of. rewrite Z.land_lor_distr_l. fold (frame_of p). rewrite frame_of_frame by done.
  assert (Z.land (Z.ldiff e PTE_SPLIT) PTE_FRAME = 0) as ->; [| apply Z.lor_0_r].
  apply Z.bits_inj'. intros i Hi. unfold PTE_SPLIT. rewrite Z.land_spec, Z.ldiff_spec, Z.lor_spec, Z.bits_0.
  by destruct (Z.testbit e i), (Z.testbit PTE_FRAME i), (Z.testbit PTE_COW i).
Qed.

Lemma copied_pte_bits p e m : frame_ok p -> 0 <= m < PAGE_SIZE -> Z.land m PTE_COW = 0 ->
  Z.land (Z.lor p (Z.ldiff e PTE_SPLIT)) m = Z.land e m.
Proof.
  intros [Hp Hm] Hr Hc. rewrite land_flags by done. apply land_ldiff_other. unfold PTE_SPLIT.
  rewrite Z.land_lor_distr_l, (Z.land_comm PTE_COW), Hc, Z.lor_0_r. by apply land_low_zero.
Qed.

(** The page has a frame of its own with the same contents and no copy-on-write
    mark; its other bits are as before. *)
Record unshared (va : Z) s s' : Prop := {
  un_frame : has_frame (pte s' va) = true;
  un_cow : Z.land (pte s' va) PTE_COW = 0;
  un_bits : forall m, 0 <= m < PAGE_SIZE -> Z.land m PTE_COW = 0 ->
    Z.land (pte s' va) m = Z.land (pte s va) m;
  un_alone : hold s' (frame_of (pte s' va)) = 1;
  un_data : mm s' !! frame_of (pte s' va) = mm s !! frame_of (pte s va);
  un_other : forall va', user_page va' -> va' <> va -> pte s' va' = pte s va';
}.

(** Nobody else has the frame. *)
Lemma cow_alone_spec o T s va p : pages_ok o T s -> solvent o -> user_page va ->
  entry s va p -> has_frame (pte s va) = true ->
  owned (frames (machine (ker s))) (frame_of (pte s va)) <= 1 ->
  wp (store p (Z.ldiff (pte s va) PTE_COW)) (fun _ s' => pages_ok o T s' /\ tame o s s' /\
    vm s' = vm s /\ entry s' va p /\ calm T s s' /\ unshared va s s') s.
Proof.
  intros Hok Hsol Hva Hp Hf Hown. pose proof (page_held o T s va Hok Hsol Hva Hf) as Hh.
  pose proof (held_owned _ (frame_of (pte s va)) (wf_frames _ _ (po_wf _ _ _ Hok))) as Hho.
  fold (hold s (frame_of (pte s va))) in Hho.
  eapply wp_mono; [apply (store_spec o T s va p _ Hok Hva Hp) |].
  { intros _. rewrite frame_of_ldiff, land_ldiff_other by done. split; [by apply (po_user _ _ _ Hok) | by left]. }
  { rewrite has_frame_ldiff by done. congruence. }
  intros [] s1 Hst.
  assert (pte s1 va = Z.ldiff (pte s va) PTE_COW) as E.
  { rewrite (sd_pte _ _ _ _ _ _ Hst va Hva). unfold set_pte. by rewrite Z.eqb_refl. }
  split. { eapply pages_ok_ext; [apply (sd_ok _ _ _ _ _ _ Hst) |]. apply swap_same. by rewrite frame_of_ldiff. }
  split; [exact (tame_stored _ _ _ _ _ _ _ _ Hok Hst) |]. split; [apply (sd_vm _ _ _ _ _ _ Hst) |].
  split; [exact (stored_entry _ _ _ _ _ _ _ _ Hst Hp) |].
  split; [intros q _ _; apply (sd_mem _ _ _ _ _ _ Hst) |].
  constructor; rewrite ?E, ?frame_of_ldiff, ?has_frame_ldiff by done.
  - done.
  - apply Z.bits_inj'. intros i Hi. rewrite Z.land_spec, Z.ldiff_spec, Z.bits_0.
    by destruct (Z.testbit (pte s va) i), (Z.testbit PTE_COW i).
  - intros m Hm Hc. apply land_ldiff_other. by rewrite Z.land_comm.
  - rewrite (sd_hold _ _ _ _ _ _ Hst). lia.
  - apply (sd_mem _ _ _ _ _ _ Hst). apply (table_not_data o T s _ Hok);
      [by apply (page_frame o T s va) |]. destruct (page_frame o T s va Hok Hva Hf) as (Hc & _).
    pose proof (pend_nonneg (pending (vm s)) (frame_of (pte s va))). lia.
  - intros va' Hva' Hne. rewrite (sd_pte _ _ _ _ _ _ Hst va' Hva'). unfold set_pte. by destruct (Z.eqb_spec va' va).
Qed.

(** The frame is copied; [page] is the new one. *)
Lemma cow_copy_spec o T s va p page ws s1 : pages_ok o T s -> solvent o -> user_page va ->
  entry s va p -> has_frame (pte s va) = true -> mm s !! frame_of (pte s va) = Some ws ->
  length ws = 512%nat -> frame_ok page -> hold s page = 0 -> not_table s1 page ->
  reowned (give page o) T s s1 ->
  (forall q, q mod PAGE_SIZE = 0 -> hold s1 q = if q =? page then 1 else hold s q) ->
  wp (set_frame page ws ;;
      let* e := load p in
      store p (Z.lor page (Z.ldiff e (Z.lor PTE_FRAME PTE_COW))) ;;
      free_physical_page (frame_of (pte s va)) ;;
      ret true) (fun ok s' => ok = true /\ pages_ok o T s' /\ tame o s s' /\ vm s' = vm s /\
    entry s' va p /\ calm T s s' /\ unshared va s s' /\ spare (fr s1) <= spare (fr s')) s1.
Proof.
  intros Hok Hsol Hva Hp Hf Hws Hlen Hpg Hh0 Hnt Hro Hh1.
  destruct (page_frame o T s va Hok Hva Hf) as (_ & Hf0 & Hd).
  pose proof (page_held o T s va Hok Hsol Hva Hf) as Hheld.
  apply wp_bind. eapply wp_mono; [eapply wp_also;
    [exact (fresh_frame_spec o T s page ws Hok Hsol Hlen s1 Hpg Hh0 Hnt Hro Hh1) | apply set_frame_fr] |].
  intros [] s2 [(Hrw & Ht2 & Hd2 & Hv2 & Hp2 & Hw2 & Hm2 & Hh2) Hfr2]. pose proof Hrw as (Hok2 & _ & Hmm2 & _). cbn beta.
  assert (entry s2 va p) as He2 by (by apply (entry_same s)).
  apply wp_bind. apply (load_spec (give page o) T s2 va); [done | done |]. rewrite Hp2. fold PTE_SPLIT.
  set (v := Z.lor page (Z.ldiff (pte s va) PTE_SPLIT)).
  assert (frame_of v = page) as Efv by (by apply copied_pte).
  apply wp_bind. eapply wp_mono; [eapply wp_also; [apply (store_spec (give page o) T s2 va p v Hok2 Hva He2) | apply store_fr] |].
  { intros _. rewrite Efv. split; [| by right]. unfold v. rewrite copied_pte_bits by done. by apply (po_user _ _ _ Hok). }
  { rewrite has_frame_of, Efv. intros Hz%negb_false_iff%Z.eqb_eq. by destruct (frame_nonzero page). }
  intros [] s3 [Hst Hfr3]. cbn beta.
  assert (pages_ok (give (frame_of (pte s va)) o) T s3) as Hok3.
  { eapply pages_ok_ext; [apply (sd_ok _ _ _ _ _ _ Hst) |]. intros q _ _. unfold swap. rewrite Efv, Hp2.
    unfold give, take_off. destruct (q =? frame_of (pte s va)), (q =? page); lia. }
  apply wp_bind. eapply wp_mono; [eapply wp_also; [apply (release_frame_spec o T s3) |] |]; try done; [apply frame_of_aligned | | |].
  { apply (not_table_same s2); [apply (sd_walk _ _ _ _ _ _ Hst) | apply (not_table_same s); [done | apply Hd]]. }
  { intros u s4 H4. apply (free_spares (give (frame_of (pte s va)) o) T s3 (frame_of (pte s va)) u s4); try done; [apply frame_of_aligned |].
    rewrite (sd_hold _ _ _ _ _ _ Hst), Hh2 by apply frame_of_aligned. destruct (Z.eqb_spec (frame_of (pte s va)) page); lia. }
  intros [] s4 [(Hq4 & Hv4 & _) Hs4]. pose proof Hq4 as (Hok4 & Hm4 & _ & Hp4 & Hw4 & Hh4). apply wp_ret.
  assert (tame o s s4) as Ht4.
  { eapply tame_trans; [exact Ht2 |]. eapply tame_trans; [exact (tame_stored _ _ _ _ _ _ _ _ Hok Hst) |].
    by eapply requeued_tame. }
  assert (pte s4 va = v) as Ev.
  { rewrite Hp4, (sd_pte _ _ _ _ _ _ Hst va Hva). unfold set_pte. by rewrite Z.eqb_refl. }
  assert (has_frame v = true) as Hfv
    by (rewrite has_frame_of, Efv; by apply negb_true_iff, Z.eqb_neq, frame_nonzero).
  split; [done |]. split; [done |]. split; [done |]. split; [rewrite Hv4, (sd_vm _ _ _ _ _ _ Hst); congruence |].
  split; [apply (entry_same s3); [done | by apply (stored_entry _ _ _ _ _ _ _ _ Hst)] |].
  split. { intros q _ Hpos HT. rewrite Hm4, (sd_mem _ _ _ _ _ _ Hst q HT). apply Hm2. intros ->. lia. }
  split; [| rewrite <- Hfr2, <- Hfr3; done].
  constructor; rewrite ?Ev, ?Efv; [done | | | | |].
  - unfold v. rewrite land_flags by (apply Hpg || done). apply Z.bits_inj'. intros i Hi.
    unfold PTE_SPLIT. rewrite Z.land_spec, Z.ldiff_spec, Z.lor_spec, Z.bits_0.
    by destruct (Z.testbit (pte s va) i), (Z.testbit PTE_COW i), (Z.testbit PTE_FRAME i).
  - intros m Hm Hc. by apply copied_pte_bits.
  - specialize (Hh4 page (frame_nonzero _ Hpg) (proj2 Hpg)). rewrite (sd_hold _ _ _ _ _ _ Hst) in Hh4.
    rewrite Hh2, Z.eqb_refl in Hh4 by apply Hpg. pose proof (page_held o T s4 va Hok4 Hsol Hva) as Hpos. rewrite Ev, Efv in Hpos. specialize (Hpos Hfv). lia.
  - rewrite Hm4, (sd_mem _ _ _ _ _ _ Hst), Hmm2, lookup_insert_eq by
      (apply (excl_not_table (give page o) T s2); [done | unfold give; rewrite Z.eqb_refl;
        specialize (Hsol page (frame_nonzero _ Hpg) (proj2 Hpg)); lia]). done.
  - intros va' Hva' Hne. rewrite Hp4, (sd_pte _ _ _ _ _ _ Hst va' Hva'). unfold set_pte.
    destruct (Z.eqb_spec va' va); [done |]. by rewrite Hp2.
Qed.

Lemma cow_break_spec o T s va p : pages_ok o T s -> solvent o -> user_page va ->
  entry s va p -> has_frame (pte s va) = true ->
  wp (cow_break va p) (fun ok s' => pages_ok o T s' /\ tame o s s' /\ vm s' = vm s /\ entry s' va p /\
    calm T s s' /\ cost 1 ok (fr s) (fr s') /\ ((ok = true /\ unshared va s s') \/ (ok = false /\ forall va', pte s' va' = pte s va'))) s.
Proof.
  intros Hok Hsol Hva Hp Hf. pose proof (page_held o T s va Hok Hsol Hva Hf) as Hh.
  destruct (page_frame o T s va Hok Hva Hf) as (_ & Hf0 & _ & ws & Hws & Hlen).
  unfold cow_break. apply wp_bind. apply (load_spec o T s va); [done | done |].
  fold (frame_of (pte s va)). apply wp_bind. unfold pmm_page_shared. eapply wp_asks.
  { apply frame_shared_ok; [apply (po_wf _ _ _ Hok) | | done].
    apply (counted_frame o T s); [done | done | apply frame_of_aligned | done]. }
  destruct (Z.ltb_spec 1 (owned (frames (machine (ker s))) (frame_of (pte s va)))) as [Hsh | Hal]; cbn [negb].
  2:{ apply wp_bind. eapply wp_mono; [eapply wp_also; [by apply (cow_alone_spec o T s va p) | apply store_fr] |].
      intros [] s1 [(H1 & H2 & H3 & H4 & H5 & H6) E]. apply wp_ret. split_and!; try done; [rewrite E; by apply cost_none | by left]. }
  apply wp_bind. eapply wp_mono; [eapply wp_also; [by apply (alloc_frame_spec o T) | intros x s' Hx; exact (alloc_cost o T s x s' Hok Hx)] |]. cbn beta.
  intros page s1 [[(-> & (Hok1 & Hv1 & Hm1 & Hg1 & Hp1 & Hw1) & _) | (Hpg & Hh0 & Hnt & Hro & Hh1)] Hc1].
  { apply wp_ret. split; [done |]. split; [by apply tame_same |]. split; [done |].
    split; [by apply (entry_same s) |].
    split; [intros q _ _ _; by rewrite Hm1 |]. split; [done | by right]. }
  destruct (Z.eqb_spec page 0); [by apply frame_nonzero in Hpg |]. cbn [negb] in Hc1. pose proof Hro as (_ & _ & Hm1 & _).
  apply wp_bind. apply get_frame_spec; [rewrite Hm1; by exists ws |]. intros ws' Hws' _.
  rewrite Hm1, Hws in Hws'. injection Hws' as <-.
  eapply wp_mono; [by apply (cow_copy_spec o T s va p page ws s1) |].
  intros ok s2 (-> & H1 & H2 & H3 & H4 & H5 & H6 & H7). split_and!; try done; [destruct Hc1; split; [lia | done] | by left].
Qed.
End ops.
