(* ===== verification/VmOps.v ===== *)
(** * The operations of an address space keep it well formed

    [space_inv o T s ls]: the areas [ls] are in order, the pages balance with
    the ledger [o], and every page with a frame lies in an area and gives no
    right the area does not give.  Each operation of vm.c is total on such a
    space, keeps it and keeps the ledger; what it does to the attributes of the
    addresses ([view]) and to the entries is stated with it. *)

From Stdlib Require Import ZArith Lia Bool.
From stdpp Require Import base list option gmap.
From S2P Require Import Prelude Mmu Frames PageTable PageTableFacts StateMonad Rbtree RbtreeFacts RbtreeRemove VmArea VmAreaFacts Vm VmPages VmPageOps.
Open Scope Z_scope.
Open Scope prog_scope.

Definition prot_of (v : Z * Z * Z * Z * Z) : Z := let '(prot, _, _, _, _) := v in prot.

(** The entry gives no right that the protection does not. *)
Definition rights (e prot : Z) : Prop :=
  (Z.land e MMU_WRITABLE <> 0 -> Z.land prot VM_WRITE <> 0) /\
  (Z.land e MMU_PRESENT <> 0 -> prot <> VM_NONE).

Definition allowed (e : Z) (v : option (Z * Z * Z * Z * Z)) : Prop :=
  match v with Some a => rights e (prot_of a) | None => False end.

Section ops.
Context {A : Type} `{!Frames A, !FramesOk A}.
Implicit Types (s : state A) (o : Z -> Z) (T : gset Z) (ls : alist).

Definition agree (e : Z -> Z) ls : Prop := forall va, user_page va -> has_frame (e va) = true ->
  allowed (e va) (view ls va).

Record space_inv o T s ls : Prop := {
  si_pages : pages_ok o T s;
  si_shape : shape (vm s) ls;
  si_agree : agree (pte s) ls;
  si_base : aligned (mmap_base (vm s)) /\ USER_ADDR_MIN <= mmap_base (vm s) <= USER_ADDR_LIMIT;
}.

(** What no operation changes: the other fields of the space, the kernel's page
    map and the contents of frames of others. *)
Record quiet o s s' : Prop := {
  qu_root : page_map (vm s') = page_map (vm s);
  qu_refs : ref_count (vm s') = ref_count (vm s);
  qu_brk_start : brk_start (vm s') = brk_start (vm s);
  qu_base : mmap_base (vm s') = mmap_base (vm s);
  qu_kernel : kernel_pml4 (machine (ker s')) = kernel_pml4 (machine (ker s));
  qu_mem : forall q, q <> 0 -> q mod PAGE_SIZE = 0 -> 0 < o q -> mm s' !! q = mm s !! q;
}.

Lemma quiet_space_refl o s : quiet o s s.
Proof. by constructor. Qed.
Lemma quiet_space_trans o s1 s2 s3 : quiet o s1 s2 -> quiet o s2 s3 -> quiet o s1 s3.
Proof.
  intros [R1 C1 B1 D1 K1 M1] [R2 C2 B2 D2 K2 M2]. constructor; try congruence.
  intros q Hq Hm Ho. by rewrite M2, M1.
Qed.
Lemma quiet_tame o s s' : tame o s s' -> quiet o s s'.
Proof. intros [[Hv Hk] Hm]. constructor; [by rewrite Hv.. | done | done]. Qed.
Lemma quiet_rest o s s' : same_rest s s' -> quiet o s s'.
Proof. intros Hr. pose proof (same_rest_mm _ _ Hr) as Hm. destruct Hr. constructor; try congruence. Qed.

Lemma quiet_outside o T s0 s s' : pages_ok o T s0 -> quiet (outside T) s s' -> quiet o s s'.
Proof.
  intros Hok [R C B D K M]. constructor; try done. intros q Hq Hm Ho. apply M; [done | done |].
  apply outside_pos. by apply (excl_not_table o T s0).
Qed.

(** Frames that are in use before and after hold the same. *)
Definition same_data s s' : Prop := forall f, f <> 0 -> 0 < count s f -> 0 < count s' f -> mm s' !! f = mm s !! f.

Lemma same_data_mm s s' : mm s' = mm s -> same_data s s'.
Proof. intros E f _ _ _. by rewrite E. Qed.

Lemma same_data_trans s1 s2 s3 : same_data s1 s2 -> same_data s2 s3 ->
  (forall f, f <> 0 -> 0 < count s3 f -> 0 < count s2 f) -> same_data s1 s3.
Proof. intros H1 H2 Hc f Hf C1 C3. rewrite H2, H1; auto. Qed.

Lemma quiet_data o T s s' : pages_ok o T s -> quiet (outside T) s s' -> same_data s s'.
Proof.
  intros Hok Hq f Hf Hc _. assert (f mod PAGE_SIZE = 0) as Hm.
  { apply count_pos in Hc as (va & _ & <-). apply frame_of_aligned. }
  apply (qu_mem _ _ _ Hq f Hf Hm), outside_pos, (table_not_data o T s f Hok Hf).
  pose proof (pend_nonneg (pending (vm s)) f). lia.
Qed.

(** Entries that lost their frames or kept them. *)
Lemma count_sub s s' : (forall va, user_page va -> has_frame (pte s' va) = true -> frame_of (pte s' va) = frame_of (pte s va)) ->
  forall f, f <> 0 -> 0 < count s' f -> 0 < count s f.
Proof.
  intros H f Hf (va & Hva & E)%count_pos. apply count_pos. exists va. split; [done |]. rewrite <- H; [done | done |].
  rewrite has_frame_of, E. by apply negb_true_iff, Z.eqb_neq.
Qed.

Lemma tame_shape o s s' ls : tame o s s' -> shape (vm s) ls -> shape (vm s') ls.
Proof. intros [Hp _]. by apply paged_shape. Qed.

(** Room for one more owner per entry. *)
Definition light s : Prop := forall f, f <> 0 -> f mod PAGE_SIZE = 0 -> hold s f + count s f <= 0xFFFF.

Lemma uses_sub e f start end_ : page_range start end_ ->
  uses e f start end_ <= uses e f USER_ADDR_MIN USER_ADDR_LIMIT.
Proof.
  intros [_ _ Hl Ho Hh]. rewrite (uses_split e f USER_ADDR_MIN start USER_ADDR_LIMIT), (uses_split e f start end_ USER_ADDR_LIMIT) by lia.
  pose proof (uses_nonneg USER_ADDR_MIN start e f). pose proof (uses_nonneg end_ USER_ADDR_LIMIT e f). lia.
Qed.

Lemma light_roomy s start end_ : light s -> page_range start end_ -> roomy s start end_.
Proof. intros Hl Hr f Hf Hm. specialize (Hl f Hf Hm). pose proof (uses_sub (pte s) f _ _ Hr). unfold count in Hl. lia. Qed.

Lemma count_ext s s' f : (forall va, user_page va -> frame_of (pte s' va) = frame_of (pte s va)) ->
  count s' f = count s f.
Proof.
  intros H. unfold count. apply uses_frames; [apply user_range_aligned.. |].
  intros va Ha Hva. by apply H.
Qed.

Lemma count_cleared s s' f start end_ : page_range start end_ -> f <> 0 ->
  (forall va, user_page va -> pte s' va = cleared (pte s) start end_ va) ->
  count s' f = count s f - uses (pte s) f start end_.
Proof.
  intros Hr Hf Hp. pose proof Hr as [Ha Hb Hl Ho Hh]. unfold count.
  rewrite !(uses_split _ f USER_ADDR_MIN start USER_ADDR_LIMIT), !(uses_split _ f start end_ USER_ADDR_LIMIT) by lia.
  rewrite (uses_ext USER_ADDR_MIN start (proj1 user_range_aligned) Ha (pte s') (pte s)).
  2:{ intros va Hva Hr'. rewrite Hp by (split; [unfold user_va; lia | done]). unfold cleared. zcases. }
  rewrite (uses_ext end_ USER_ADDR_LIMIT Hb (proj2 user_range_aligned) (pte s') (pte s)).
  2:{ intros va Hva Hr'. rewrite Hp by (split; [unfold user_va; lia | done]). unfold cleared. zcases. }
  enough (uses (pte s') f start end_ = 0) by lia.
  pose proof (uses_nonneg start end_ (pte s') f). destruct (Z.eq_dec (uses (pte s') f start end_) 0); [done |].
  assert (0 < uses (pte s') f start end_) as Hpos by lia.
  apply (uses_pos start end_ Ha Hb) in Hpos as (va & Hva & Hin & Hfr).
  rewrite Hp in Hfr by (by apply (range_page start end_)). unfold cleared in Hfr.
  assert ((start <=? va) && (va <? end_) = true) as E by zcases. rewrite E in Hfr. cbn [andb] in Hfr.
  destruct (has_frame (pte s va)) eqn:Hhf; [by change (frame_of 0) with 0 in Hfr |].
  rewrite has_frame_of in Hhf. apply negb_false_iff, Z.eqb_eq in Hhf. congruence.
Qed.

(** ** Unmapping *)

Lemma flush_area_spec o T s r : pages_ok o T s -> solvent o -> area_wf r ->
  roomy s (va_start r) (va_end r) ->
  wp (flush_area r) (fun _ s' => pages_ok o T s' /\ tame (outside T) s s' /\
    (forall va, user_page va -> pte s' va = pte s va) /\
    forall q, q <> 0 -> q mod PAGE_SIZE = 0 ->
      hold s' q <= hold s q + uses (pte s) q (va_start r) (va_end r)) s.
Proof.
  intros Hok Hsol Hr Hroom. unfold flush_area. apply wp_when; intros _.
  2:{ split; [done |]. split; [apply tame_refl |]. split; [done |]. intros q Hq Hm.
      pose proof (uses_nonneg (va_start r) (va_end r) (pte s) q). lia. }
  apply wp_bind. eapply wp_mono; [apply (queue_dirty_spec o T); [done | done | by apply area_range | done] |].
  intros [] s1 (Hok1 & Ht1 & Hp1 & Hh1). cbn beta.
  eapply wp_mono; [apply (queue_spec o T s1 r 0 0); [| done | done | done] |].
  { eapply pages_ok_ext; [exact Hok1 |]. intros q Hq _. unfold give. by destruct (Z.eqb_spec q 0). }
  intros [] s2 Hq. pose proof Hq as (Hok2 & _ & _ & Hp2 & _ & Hh2). split; [done |].
  split; [eapply tame_trans; [exact Ht1 | by eapply requeued_tame] |]. split.
  - intros va Hva. rewrite Hp2. by apply Hp1.
  - intros q Hq0 Hm. etrans; [by apply Hh2 | by apply Hh1].
Qed.

(** One area goes away with its frames. *)
Lemma unmap_area_spec o T s l1 a r l2 : pages_ok o T s -> solvent o -> light s ->
  shape (vm s) (l1 ++ (a, r) :: l2) ->
  wp (flush_area r ;; free_frames (va_start r) (va_end r) ;; area_remove a ;; area_free a) (fun _ s' =>
    pages_ok o T s' /\ light s' /\ quiet (outside T) s s' /\ shape (vm s') (l1 ++ l2) /\
    brk (vm s') = brk (vm s) /\
    forall va, user_page va -> pte s' va = cleared (pte s) (va_start r) (va_end r) va) s.
Proof.
  intros Hok Hsol Hl Hs.
  assert (area_wf r) as Hr by (apply (areas_wf_elem _ (a, r) (sh_areas _ _ Hs)); set_solver).
  pose proof (area_range r Hr) as Hpr. pose proof (light_roomy s _ _ Hl Hpr) as Hroom.
  apply wp_bind. eapply wp_mono; [by apply (flush_area_spec o T) |]. intros [] s1 (Hok1 & Ht1 & Hp1 & Hh1). cbn beta.
  apply wp_bind. eapply wp_mono; [by apply (free_frames_spec o T) |]. intros [] s2 (Hok2 & Hv2 & Ht2 & Hp2). cbn beta.
  assert (shape (vm s2) (l1 ++ (a, r) :: l2)) as Hs2 by (by do 2 (eapply tame_shape; [eassumption |])).
  eapply wp_mono; [exact (area_drop_spec _ _ _ _ _ Hs2) |]. intros [] s3 (Hr3 & _ & Hs3 & _).
  assert (forall va, user_page va -> pte s3 va = cleared (pte s) (va_start r) (va_end r) va) as Hp3.
  { intros va Hva. rewrite (same_rest_pte _ _ _ Hr3), Hp2 by done. unfold cleared. by rewrite Hp1. }
  split; [by eapply pages_ok_rest |]. split; [| split; [| split; [done | split; [| done]]]].
  - intros f Hf Hm. rewrite (count_cleared s s3 f _ _ Hpr Hf Hp3), (same_rest_hold _ _ _ Hr3).
    specialize (Hl f Hf Hm). specialize (Hh1 f Hf Hm).
    pose proof (po_ledger _ _ _ Hok1 f Hf Hm) as L1. pose proof (po_ledger _ _ _ Hok2 f Hf Hm) as L2.
    rewrite Hv2, (count_cleared s1 s2 f _ _ Hpr Hf Hp2) in L2.
    rewrite (uses_ext (va_start r) (va_end r) (pr_start _ _ Hpr) (pr_end _ _ Hpr) (pte s1) (pte s)) in L2
      by (intros; apply Hp1; by eapply range_page).
    pose proof (uses_nonneg (va_start r) (va_end r) (pte s) f). lia.
  - eapply quiet_space_trans; [by apply quiet_tame |]. eapply quiet_space_trans; [by apply quiet_tame | by apply quiet_rest].
  - rewrite (sr_brk _ _ Hr3), Hv2. destruct Ht1 as [[-> _] _]. done.
Qed.

Definition in_areas ls (va : Z) : bool :=
  existsb (fun x => (va_start x.2 <=? va) && (va <? va_end x.2)) ls.

Lemma in_areas_spec ls va : in_areas ls va = true <-> exists x, x ∈ ls /\ covers x.2 va.
Proof.
  unfold in_areas, covers. rewrite existsb_exists. setoid_rewrite list_elem_of_In.
  split; intros (x & Hx & H); exists x; (split; [done |]).
  - apply andb_prop in H as [?%Z.leb_le ?%Z.ltb_lt]. lia.
  - zcases.
Qed.

(** The entries after the frames in the areas [ls] are gone. *)
Definition dropped (e : Z -> Z) ls (va : Z) : Z := if in_areas ls va && has_frame (e va) then 0 else e va.

Lemma dropped_cons e x ls va :
  dropped (cleared e (va_start x.2) (va_end x.2)) ls va = dropped e (x :: ls) va.
Proof.
  unfold dropped, cleared. cbn [in_areas existsb]. fold (in_areas ls va).
  destruct ((va_start x.2 <=? va) && (va <? va_end x.2)), (in_areas ls va), (has_frame (e va)) eqn:E;
    cbn [andb orb]; rewrite ?E; done.
Qed.

Lemma unmap_loop_spec fuel o T s l1 l2 addr end_ : pages_ok o T s -> solvent o -> light s ->
  shape (vm s) (l1 ++ l2) -> (forall x, x ∈ l2 -> addr <= va_start x.2) -> cut_at l2 end_ ->
  (length l2 < fuel)%nat ->
  wp (unmap_loop fuel (ptr (head l2)) addr end_) (fun _ s' => exists l2a l2b, l2 = l2a ++ l2b /\
    (forall x, x ∈ l2a -> va_end x.2 <= end_) /\ (forall x, x ∈ l2b -> end_ <= va_start x.2) /\
    pages_ok o T s' /\ light s' /\ quiet (outside T) s s' /\ shape (vm s') (l1 ++ l2b) /\
    brk (vm s') = brk (vm s) /\ forall va, user_page va -> pte s' va = dropped (pte s) l2a va) s.
Proof.
  revert fuel s. induction l2 as [| [a r] l2 IH]; intros fuel s Hok Hsol Hl Hs Hlo Hcut Hf;
    (destruct fuel as [| fuel]; [lia |]); cbn [unmap_loop head ptr fst].
  { apply wp_ret. exists [], []. split_and!; try done; try apply quiet_space_refl; intros x Hx; by apply elem_of_nil in Hx. }
  pose proof (shape_nonzero _ _ (a, r) Hs ltac:(set_solver)) as H0%Z.eqb_neq. simpl in H0. rewrite H0.
  apply wp_bind, (wp_asks _ r); [apply (sh_recs _ _ Hs); set_solver |].
  pose proof (sh_areas _ _ Hs) as Hwf. pose proof (areas_wf_elem _ (a, r) Hwf ltac:(set_solver)) as Hr.
  destruct (Z.ltb_spec (va_start r) end_) as [Hlt | Hge]; cbn [negb].
  2:{ apply wp_ret. exists [], ((a, r) :: l2).
      split_and!; try done; try apply quiet_space_refl; [intros x Hx; by apply elem_of_nil in Hx |].
      intros x [-> | Hx]%elem_of_cons; [done |]. pose proof (below_head _ _ _ _ Hwf Hx).
      destruct Hr. simpl in *. lia. }
  apply wp_bind. eapply wp_asks; [exact (area_next_spec _ _ _ _ Hs) |]. apply wp_bind.
  assert ((addr <=? va_start r) = true) as -> by (apply Z.leb_le; apply (Hlo (a, r)); by left).
  cbn [when]. eapply wp_mono; [by apply (unmap_area_spec o T s l1 a r l2) |].
  intros [] s1 (Hok1 & Hl1 & Hq1 & Hs1 & Hb1 & Hp1). cbn beta.
  eapply wp_mono; [apply (IH fuel s1); try done; [set_solver | | simpl in Hf; lia] |].
  { intros x Hx. apply Hcut. by right. }
  intros [] s2 (l2a & l2b & -> & Ha & Hb & Hok2 & Hl2 & Hq2 & Hs2 & Hb2 & Hp2).
  exists ((a, r) :: l2a), l2b. split_and!; try done.
  - intros x [-> | Hx]%elem_of_cons; [| by apply Ha]. destruct (Hcut (a, r) ltac:(by left)); [done | simpl in *; lia].
  - by eapply quiet_space_trans.
  - congruence.
  - intros va Hva. rewrite Hp2 by done. rewrite <- dropped_cons. unfold dropped. by rewrite Hp1.
Qed.

Lemma view_None ls addr : (forall x, x ∈ ls -> ~ covers x.2 addr) -> areas_wf ls -> view ls addr = None.
Proof.
  intros H Hwf. unfold view. destruct (area_of_addr ls addr) as [x |] eqn:E; [| done].
  apply area_of_addr_Some in E as [Hx Hc]; [| done]. by destruct (H x Hx).
Qed.

Lemma view_Some ls addr v : areas_wf ls -> view ls addr = Some v ->
  exists x, x ∈ ls /\ covers x.2 addr /\ v = area_view x.2 addr.
Proof.
  intros Hwf. unfold view. destruct (area_of_addr ls addr) as [x |] eqn:E; [| done].
  intros [= <-]. apply area_of_addr_Some in E as [Hx Hc]; [| done]. eauto.
Qed.

(** The range from [start] to [end_] was unmapped. *)
Record unmapped (start end_ : Z) s ls s' ls' : Prop := {
  um_view : forall addr, view ls' addr = if (start <=? addr) && (addr <? end_) then None else view ls addr;
  um_pte : forall va, user_page va -> pte s' va = cleared (pte s) start end_ va;
}.

Lemma agree_unmapped s ls s' ls' start end_ : agree (pte s) ls -> unmapped start end_ s ls s' ls' ->
  agree (pte s') ls'.
Proof.
  intros Ha [Hv Hp] va Hva. rewrite Hp, Hv by done. unfold cleared.
  destruct ((start <=? va) && (va <? end_)); cbn [andb]; [| by apply Ha].
  destruct (has_frame (pte s va)) eqn:E; [done | congruence].
Qed.

(** A page with a frame in a range that only the areas [l2a] meet. *)
Lemma in_range_areas s ls l1 l2a l2b start end_ va : areas_wf (l1 ++ l2a ++ l2b) ->
  agree (pte s) ls -> (forall addr, view (l1 ++ l2a ++ l2b) addr = view ls addr) ->
  (forall x, x ∈ l1 -> va_end x.2 <= start) -> (forall x, x ∈ l2a -> start <= va_start x.2) ->
  (forall x, x ∈ l2a -> va_end x.2 <= end_) -> (forall x, x ∈ l2b -> end_ <= va_start x.2) ->
  user_page va -> has_frame (pte s va) = true -> in_areas l2a va = (start <=? va) && (va <? end_).
Proof.
  intros Hwf Hag Hv H1 H2 H3 H4 Hva Hf.
  apply eq_true_iff_eq. rewrite in_areas_spec, andb_true_iff, Z.leb_le, Z.ltb_lt. split.
  - intros (x & Hx & ? & ?). specialize (H2 x Hx). specialize (H3 x Hx). lia.
  - intros Hr. specialize (Hag va Hva Hf). rewrite <- Hv in Hag.
    destruct (view (l1 ++ l2a ++ l2b) va) as [v |] eqn:E; [| done].
    apply view_Some in E as (x & Hx & Hc & _); [| done]. exists x. split; [| done]. destruct Hc.
    apply elem_of_app in Hx as [Hx | Hx]; [specialize (H1 x Hx); lia |].
    apply elem_of_app in Hx as [Hx | Hx]; [done | specialize (H4 x Hx); lia].
Qed.

Lemma unmapped_intro s ls s' l1 l2a l2b start end_ : areas_wf (l1 ++ l2a ++ l2b) ->
  agree (pte s) ls -> (forall addr, view (l1 ++ l2a ++ l2b) addr = view ls addr) ->
  (forall x, x ∈ l1 -> va_end x.2 <= start) -> (forall x, x ∈ l2a -> start <= va_start x.2) ->
  (forall x, x ∈ l2a -> va_end x.2 <= end_) -> (forall x, x ∈ l2b -> end_ <= va_start x.2) ->
  (forall va, user_page va -> pte s' va = dropped (pte s) l2a va) ->
  areas_wf (l1 ++ l2b) -> unmapped start end_ s ls s' (l1 ++ l2b).
Proof.
  intros Hwf Hag Hv H1 H2 H3 H4 Hp Hwf'. constructor.
  - intros addr. rewrite <- Hv. pose proof Hwf as (W1 & W2 & _)%areas_wf_app.
    pose proof W2 as (W2a & W2b & _)%areas_wf_app. rewrite !view_app by done.
    destruct ((start <=? addr) && (addr <? end_)) eqn:E.
    + apply andb_prop in E as [?%Z.leb_le ?%Z.ltb_lt]. rewrite (view_None l1), (view_None l2b); try done.
      * intros x Hx [? ?]. specialize (H4 x Hx). lia.
      * intros x Hx [? ?]. specialize (H1 x Hx). lia.
    + rewrite (view_None l2a); [done | | done]. intros x Hx [? ?]. specialize (H2 x Hx). specialize (H3 x Hx).
      apply andb_false_iff in E as [?%Z.leb_gt | ?%Z.ltb_ge]; lia.
  - intros va Hva. rewrite Hp by done. unfold dropped, cleared.
    destruct (has_frame (pte s va)) eqn:Hf; rewrite ?andb_false_r, ?andb_true_r; [| done].
    by rewrite (in_range_areas s ls l1 l2a l2b start end_ va).
Qed.

Lemma low_bits x : is_u 64 x -> Z.land x (not64 PAGE_MASK) = x mod PAGE_SIZE.
Proof.
  intros _. change (not64 PAGE_MASK) with (Z.ones 12). rewrite Z.land_ones by lia. done.
Qed.

Lemma align_up_aligned x : aligned (PAGE_ALIGN_UP x).
Proof.
  unfold aligned, PAGE_ALIGN_UP. rewrite land_page_mask by apply u64_range. apply Z.mod_mul. unfold PAGE_SIZE. lia.
Qed.

Lemma space_rest o T s s' ls ls' : space_inv o T s ls -> recut ls s s' ls' -> space_inv o T s' ls'.
Proof.
  intros [Hok Hs Ha Hb] (Hr & Hs' & Hv). constructor; [by eapply pages_ok_rest | done | | by rewrite (sr_base _ _ Hr)].
  intros va Hva. rewrite (same_rest_pte _ _ _ Hr), Hv. by apply Ha.
Qed.

Lemma light_rest s s' : same_rest s s' -> light s -> light s'.
Proof. intros Hr Hl f Hf Hm. rewrite (same_rest_hold _ _ _ Hr), (same_rest_count _ _ _ Hr). by apply Hl. Qed.

(** Nothing a process can see changed. *)
Definition unseen s ls s' ls' : Prop :=
  (forall addr, view ls' addr = view ls addr) /\ forall va, user_page va -> pte s' va = pte s va.

(** What every operation comes to: the invariant with the same ledger. *)
Definition kept o s s' ls' : Prop :=
  (exists T', space_inv o T' s' ls') /\ light s' /\ quiet o s s' /\ same_data s s'.

Lemma kept_rest o T s s' ls' : same_rest s s' -> space_inv o T s' ls' -> light s' -> kept o s s' ls'.
Proof.
  intros Hr Hinv Hl. split; [by exists T |]. split; [done |]. split; [by apply quiet_rest |].
  by apply same_data_mm, same_rest_mm.
Qed.

Lemma kept_refl o T s ls : space_inv o T s ls -> light s -> kept o s s ls.
Proof. apply kept_rest, same_rest_refl. Qed.

(** Changes of the areas and of tables that stay. *)
Lemma kept_quiet o T s0 s s' ls' : pages_ok o T s -> pages_ok o T s0 -> space_inv o T s' ls' -> light s' ->
  quiet (outside T) s s' -> kept o s s' ls'.
Proof.
  intros Hok Hok0 Hinv Hl Hq. split; [by exists T |]. split; [done |]. split; [by eapply quiet_outside | by eapply quiet_data].
Qed.

Definition unmap_result (addr end_ : Z) (r : Z) s ls s' ls' : Prop :=
  (r = 0 /\ aligned addr /\ addr <= end_ /\ unmapped addr end_ s ls s' ls') \/
  ((r = - EINVAL /\ (~ aligned addr \/ end_ <= addr) \/ r = - ENOMEM /\ credit s < 2) /\ unseen s ls s' ls').

(** The frame of [unmap_locked] and [protect_locked]: cut areas at the ends of
    the range and loop over the areas from its start. *)
Lemma over_range_rule o T s ls addr end_ (loop : nat -> Z -> prog (state A) unit) (Q : Z -> state A -> Prop) :
  space_inv o T s ls -> light s -> aligned addr -> aligned end_ -> addr <= end_ ->
  (forall s1 ls1, credit s < 2 -> recut ls s s1 ls1 -> cut_only addr end_ ls ls1 -> space_inv o T s1 ls1 -> light s1 -> Q (- ENOMEM) s1) ->
  (forall s1 l1 l2 fuel, recut ls s s1 (l1 ++ l2) -> cut_only addr end_ ls (l1 ++ l2) -> space_inv o T s1 (l1 ++ l2) -> light s1 ->
     (forall x, x ∈ l1 -> va_end x.2 <= addr) -> (forall x, x ∈ l2 -> addr <= va_start x.2) ->
     cut_at l2 end_ -> (length l2 < fuel)%nat -> wp (loop fuel (ptr (head l2))) (fun _ s2 => Q 0 s2) s1) ->
  wp (let* err := range_isolate addr end_ in
      if negb (err =? 0) then ret err
      else
        let* a := asks (fun s => area_at_or_after (vm s) addr) in
        let* fuel := gets (fun s => tree_fuel (areas (vm s))) in
        loop fuel a ;; ret 0) Q s.
Proof.
  intros Hinv Hl Hal Hae Hle Hno Hloop.
  apply wp_bind. eapply wp_mono; [by apply (range_isolate_spec s ls addr end_); [apply Hinv | ..] |].
  intros err s1 (ls1 & Hrc & Hco & Herr). pose proof (space_rest _ _ _ _ _ _ Hinv Hrc) as Hinv1.
  pose proof Hrc as (Hr1 & Hs1 & _). pose proof (light_rest _ _ Hr1 Hl) as Hl1. cbn beta.
  destruct Herr as [(-> & _ & Hc1 & Hc2) | [-> Hcr]]; cbn [Z.eqb negb]; [| by apply wp_ret, (Hno s1 ls1)].
  apply wp_bind. eapply wp_asks; [by apply area_at_or_after_spec |].
  apply wp_bind, wp_gets, wp_bind. pose proof (shape_length _ _ Hs1) as Hlen1.
  destruct (first_after_split ls1 addr (sh_areas _ _ Hs1)) as (l1 & l2 & -> & H1 & H2 & ->).
  rewrite length_app in Hlen1. eapply wp_mono; [apply (Hloop s1 l1 l2); try done; [| | lia] |].
  - intros x Hx. specialize (H2 x Hx). destruct (Hc1 x); [set_solver | lia | done].
  - intros x Hx. apply Hc2. set_solver.
  - intros [] s2 HQ. by apply wp_ret.
Qed.

Lemma unmap_bad addr len : is_u 64 addr ->
  negb (addr mod PAGE_SIZE =? 0) || (len =? 0) || (PAGE_ALIGN_UP (u64 (addr + len)) <? addr) = true ->
  ~ aligned addr \/ PAGE_ALIGN_UP (u64 (addr + len)) <= addr.
Proof.
  intros Hu [[H%negb_true_iff%Z.eqb_neq | ->%Z.eqb_eq]%orb_prop | H%Z.ltb_lt]%orb_prop; [by left | | right; lia].
  destruct (Z.eq_dec (addr mod PAGE_SIZE) 0) as [E | E]; [right | by left].
  rewrite Z.add_0_r, u64_small, PAGE_ALIGN_UP_aligned by (done || (unfold is_u, PAGE_SIZE in *; pose proof (Z.div_mod addr 4096); lia)).
  lia.
Qed.

Lemma unmap_locked_keeps o T s ls addr len : space_inv o T s ls -> solvent o -> light s ->
  is_u 64 addr -> is_u 64 len ->
  wp (unmap_locked addr len) (fun r s' => exists ls', kept o s s' ls' /\ brk (vm s') = brk (vm s) /\
    unmap_result addr (PAGE_ALIGN_UP (u64 (addr + len))) r s ls s' ls' /\
    forall lo hi, lo < hi -> hi <= addr \/ PAGE_ALIGN_UP (u64 (addr + len)) <= lo -> solid ls lo hi -> solid ls' lo hi) s.
Proof.
  intros Hinv Hsol Hl Haddr Hlen. unfold unmap_locked. set (end_ := PAGE_ALIGN_UP _).
  rewrite low_bits by done.
  destruct (negb (addr mod PAGE_SIZE =? 0) || (len =? 0) || (end_ <? addr)) eqn:Hbad.
  { apply wp_ret. exists ls. split; [by eapply kept_refl |].
    split; [done |]. split; [| done]. right. split; [left; split; [done |] | by split].
    by apply (unmap_bad addr len). }
  apply orb_false_elim in Hbad as [[Hal%negb_false_iff%Z.eqb_eq _]%orb_false_elim Hle%Z.ltb_ge].
  apply (over_range_rule o T s ls); try done; [apply align_up_aligned | |].
  { intros s1 ls1 Hcr (Hr1 & _ & Hv1) Hco Hinv1 Hl1. exists ls1.
    split; [by eapply kept_rest |].
    split; [apply (sr_brk _ _ Hr1) |]. split; [right; split; [by right |]; split; [done |]; intros va _; by apply same_rest_pte |].
    intros lo hi Hlt Hout. apply Hco; [done | lia..]. }
  intros s1 l1 l2 fuel (Hr1 & Hs1 & Hv1) Hco Hinv1 Hl1 H1 H2 Hcut Hf.
  eapply wp_mono; [by apply (unmap_loop_spec fuel o T s1 l1 l2 addr end_); [apply Hinv1 | ..] |].
  intros [] s2 (l2a & l2b & -> & Ha & Hb & Hok2 & Hl2 & Hq2 & Hs2 & Hb2 & Hp2).
  assert (unmapped addr end_ s ls s2 (l1 ++ l2b)) as Hum.
  { apply (unmapped_intro s ls s2 l1 l2a l2b); try done;
      [apply (sh_areas _ _ Hs1) | apply Hinv | set_solver | | apply (sh_areas _ _ Hs2)].
    intros va Hva. rewrite Hp2 by done. unfold dropped. by rewrite (same_rest_pte _ _ _ Hr1). }
  assert (quiet (outside T) s s2) as Hq by (eapply quiet_space_trans; [by apply quiet_rest | done]).
  exists (l1 ++ l2b). split; [eapply (kept_quiet o T s); [apply Hinv | apply Hinv | constructor; [done | done | |] | done | done] |].
  - by eapply agree_unmapped; [apply Hinv |].
  - rewrite (qu_base _ _ _ Hq). apply Hinv.
  - split; [rewrite Hb2; apply (sr_brk _ _ Hr1) |]. split; [left; by split_and! |]. intros lo hi Hlt Hout Hso.
    destruct (Hco lo hi Hlt ltac:(lia) ltac:(lia) Hso) as (x & Hx & Hlo & Hhi). exists x. split; [| done].
    assert (x ∈ l1 \/ x ∈ l2a \/ x ∈ l2b) as [? | [Hxa | ?]] by set_solver; [set_solver | | set_solver].
    specialize (Ha x Hxa). specialize (H2 x ltac:(set_solver)). lia.
Qed.

Lemma unmap_locked_spec o T s ls addr len : space_inv o T s ls -> solvent o -> light s ->
  is_u 64 addr -> is_u 64 len ->
  wp (unmap_locked addr len) (fun r s' => exists ls', kept o s s' ls' /\ brk (vm s') = brk (vm s) /\
    unmap_result addr (PAGE_ALIGN_UP (u64 (addr + len))) r s ls s' ls') s.
Proof.
  intros Hinv Hsol Hl Haddr Hlen. eapply wp_mono; [by apply (unmap_locked_keeps o T s ls) |].
  intros r s' (ls' & Hk & Hb & Hr & _). by exists ls'.
Qed.

(** ** Mapping *)

Lemma areas_wf_remove lo x hi : areas_wf (lo ++ x :: hi) -> areas_wf (lo ++ hi).
Proof.
  intros (W1 & W2 & Hb)%areas_wf_app. apply areas_wf_cons in W2 as (_ & W2 & _).
  apply areas_wf_app. split; [done |]. split; [done |]. intros y z Hy Hz. apply Hb; [done | by right].
Qed.

Lemma view_insert lo x hi addr : areas_wf (lo ++ x :: hi) ->
  view (lo ++ x :: hi) addr =
    if (va_start x.2 <=? addr) && (addr <? va_end x.2) then Some (area_view x.2 addr)
    else view (lo ++ hi) addr.
Proof.
  intros Hwf. pose proof (areas_wf_remove _ _ _ Hwf) as Hwf'. destruct (below_neq _ _ _ Hwf) as [Hb _].
  change (lo ++ x :: hi) with (lo ++ [x] ++ hi) in *. rewrite !view_app; try done.
  2:{ by apply areas_wf_app in Hwf as (_ & ? & _). }
  rewrite view_singleton. destruct ((va_start x.2 <=? addr) && (addr <? va_end x.2)) eqn:E; [| done].
  apply andb_prop in E as [?%Z.leb_le ?%Z.ltb_lt]. rewrite view_None; [done | |].
  - intros y Hy [? ?]. specialize (Hb y Hy). unfold below in Hb. lia.
  - by apply areas_wf_app in Hwf as (? & _).
Qed.

Lemma clear_view ls start end_ addr : areas_wf ls -> range_clear ls start end_ ->
  start <= addr < end_ -> view ls addr = None.
Proof. intros Hwf Hc Ha. apply view_None; [| done]. intros x Hx [? ?]. destruct (Hc x Hx); lia. Qed.

Lemma clear_frame s ls start end_ va : agree (pte s) ls -> areas_wf ls -> range_clear ls start end_ ->
  user_page va -> start <= va < end_ -> has_frame (pte s va) = false.
Proof.
  intros Ha Hwf Hc Hva Hr. apply not_true_is_false. intros Hf. specialize (Ha va Hva Hf).
  by rewrite (clear_view ls start end_) in Ha.
Qed.

(** [start] to [end_] is now a new area; its pages have no frames. *)
Record mapped (start end_ prot flags : Z) s ls s' ls' : Prop := {
  md_range : page_range start end_;
  md_view : forall addr, view ls' addr =
    if (start <=? addr) && (addr <? end_) then Some (prot, flags, 0, 0, u64 (addr - start)) else view ls addr;
  md_pte : forall va, user_page va -> pte s' va = cleared (pte s) start end_ va;
}.

(** A new area in a free range. *)
Lemma new_area_spec o T s ls start len end_ prot flags : space_inv o T s ls -> light s ->
  page_range start end_ -> start < end_ -> range_clear ls start end_ ->
  u64 (start + len) = end_ ->
  wp (new_area start len prot flags) (fun r s' => exists ls',
    kept o s s' ls' /\ brk (vm s') = brk (vm s) /\ (forall va, pte s' va = pte s va) /\
    ((r = (0, start) /\ forall addr, view ls' addr =
        if (start <=? addr) && (addr <? end_) then Some (prot, flags, 0, 0, u64 (addr - start)) else view ls addr) \/
     (r = (- ENOMEM, 0) /\ credit s < 1 /\ forall addr, view ls' addr = view ls addr))) s.
Proof.
  intros Hinv Hl Hpr Hlt Hc Elen. unfold new_area. rewrite Elen. pose proof Hpr as [Hs He Hlo _ Hhi]. apply wp_bind.
  eapply wp_mono; [eapply wp_also; [by apply area_new_spec; apply Hinv | apply area_new_credit] |].
  intros a s1 [(Hr1 & Hs1 & _ & Hcase) [_ Hcr]]. cbn beta.
  assert (space_inv o T s1 ls) as Hinv1 by (by eapply space_rest).
  destruct Hcase as [[-> _] | (Hloose & _ & _)].
  { apply wp_ret. exists ls. split; [eapply kept_rest; [done | done | by eapply light_rest] |].
    split; [apply (sr_brk _ _ Hr1) |]. split; [intros; by apply same_rest_pte |]. right. split; [done |]. split; [by apply Hcr | done]. }
  destruct (Z.eqb_spec a 0) as [-> | Ha0]; [by destruct Hloose as (_ & ? & _) |].
  destruct (range_clear_split ls start end_ (sh_areas _ _ Hs1) Hlt Hc) as (lo & hi & -> & H1 & H2).
  apply wp_bind. eapply wp_mono; [by apply (area_insert_spec s1 lo hi a (VmArea start end_ prot flags 0 0 0)) |].
  intros [] s2 (Hr2 & _ & _ & Hs2). apply wp_ret.
  pose proof (same_rest_trans _ _ _ Hr1 Hr2) as Hr.
  assert (forall addr, view (lo ++ (a, VmArea start end_ prot flags 0 0 0) :: hi) addr =
    if (start <=? addr) && (addr <? end_) then Some (prot, flags, 0, 0, u64 (addr - start))
    else view (lo ++ hi) addr) as Hv by (intros addr; by rewrite view_insert by apply (sh_areas _ _ Hs2)).
  eexists. split; [eapply (kept_rest o T); [exact Hr | constructor; [by eapply pages_ok_rest; [| apply Hinv] | exact Hs2 | |] | by eapply light_rest] |].
  - intros va Hva Hf. rewrite (same_rest_pte _ _ _ Hr) in *. rewrite Hv.
    destruct ((start <=? va) && (va <? end_)) eqn:E; [| by apply Hinv].
    apply andb_prop in E as [?%Z.leb_le ?%Z.ltb_lt].
    rewrite (clear_frame s (lo ++ hi) start end_ va) in Hf; try done; apply Hinv || apply (sh_areas _ _ Hs1).
  - rewrite (sr_base _ _ Hr). apply Hinv.
  - split; [apply (sr_brk _ _ Hr) |]. split; [intros; by apply same_rest_pte |]. left. by split.
Qed.

Lemma view_clear ls start end_ : areas_wf ls -> start < end_ ->
  (forall addr, start <= addr < end_ -> view ls addr = None) -> range_clear ls start end_.
Proof.
  intros Hwf Hlt H x Hx. pose proof (areas_wf_elem _ _ Hwf Hx) as [_ _ Ho _ _].
  destruct (Z_le_gt_dec (va_end x.2) start) as [| Hgt]; [by left |].
  destruct (Z_le_gt_dec end_ (va_start x.2)) as [| Hgt']; [by right |]. exfalso.
  specialize (H (Z.max start (va_start x.2)) ltac:(lia)). unfold view in H.
  assert (area_of_addr ls (Z.max start (va_start x.2)) = Some x) as E.
  { apply area_of_addr_Some; [done |]. split; [done | unfold covers; lia]. }
  by rewrite E in H.
Qed.

Lemma user_range_spec start end_ : user_range start end_ = true <->
  USER_ADDR_MIN <= start /\ end_ <= USER_ADDR_LIMIT /\ start < end_.
Proof. unfold user_range. rewrite !andb_true_iff, !Z.leb_le, Z.ltb_lt. tauto. Qed.

Lemma aligned_sum a b : aligned a -> aligned b -> aligned (a + b).
Proof. unfold aligned, PAGE_SIZE. intros Ha Hb. rewrite Z.add_mod, Ha, Hb by lia. done. Qed.

(** Without wrap-around the end of a range of pages is what it looks like. *)
Lemma range_sum addr len : is_u 64 addr -> is_u 64 len -> aligned addr -> aligned len ->
  user_range addr (u64 (addr + len)) = true ->
  u64 (addr + len) = addr + len /\ page_range addr (addr + len) /\ addr < addr + len.
Proof.
  intros Ha Hl Haa Hla (Hlo & Hhi & Hlt)%user_range_spec. unfold is_u, USER_ADDR_MIN, USER_ADDR_LIMIT in *.
  assert (u64 (addr + len) = addr + len) as E.
  { destruct (Z_lt_ge_dec (addr + len) (2 ^ 64)) as [? | ?]; [apply u64_small; lia |].
    exfalso. assert (u64 (addr + len) = addr + len - 2 ^ 64) as E; [| lia].
    symmetry. apply (Z.mod_unique_pos _ _ 1); lia. }
  rewrite E in *. split; [done |].
  split; [| lia]. constructor; unfold USER_ADDR_MIN, USER_ADDR_LIMIT; try done; try lia. by apply aligned_sum.
Qed.

Lemma align_up_u x : is_u 64 (PAGE_ALIGN_UP x).
Proof.
  unfold PAGE_ALIGN_UP. rewrite land_page_mask by apply u64_range.
  pose proof (u64_range (u64 x + PAGE_SIZE - 1)) as H. unfold is_u, PAGE_SIZE in *.
  set (y := u64 _) in *. pose proof (Z.div_mod y 4096). pose proof (Z.mod_pos_bound y 4096). lia.
Qed.

Lemma align_up_sum addr len : page_range addr (addr + len) -> PAGE_ALIGN_UP (addr + len) = addr + len.
Proof.
  intros [_ He Hlo Hle Hhi]. apply PAGE_ALIGN_UP_aligned; [| done].
  unfold USER_ADDR_MIN, USER_ADDR_LIMIT, PAGE_SIZE in *. lia.
Qed.

(** Why [map_locked] fails: bad arguments, no memory, or no gap of the length
    between the mmap base and the stack. *)
Definition map_error (fixed : bool) (addr len err : Z) s ls : Prop :=
  (err = - EINVAL /\ (len = 0 \/ ~ aligned addr \/ fixed = true /\ user_range addr (u64 (addr + len)) = false)) \/
  (err = - ENOMEM /\ (fixed = true \/ credit s < 1 \/
     forall c, mmap_base (vm s) <= c -> c + len <= STACK_FLOOR -> ~ range_clear ls c (c + len))).

Definition map_result (fixed : bool) (addr len prot flags : Z) (r : Z * Z) s ls s' ls' : Prop :=
  (exists start, r = (0, start) /\ mapped start (start + len) prot flags s ls s' ls' /\
     (if fixed then start = addr else range_clear ls start (start + len))) \/
  (exists err, r = (err, 0) /\ map_error fixed addr len err s ls /\
     (unseen s ls s' ls' \/ fixed = true /\ unmapped addr (addr + len) s ls s' ls')).

Lemma map_failed o T s ls fixed addr len prot flags err : space_inv o T s ls -> light s ->
  map_error fixed addr len err s ls ->
  exists ls', kept o s s ls' /\ brk (vm s) = brk (vm s) /\
    map_result fixed addr len prot flags (err, 0) s ls s ls'.
Proof.
  intros Hinv Hl He. exists ls. split; [by eapply kept_refl |].
  split; [done |]. right. exists err. split; [done |]. split; [done |]. left. by split.
Qed.

Lemma map_at_spec o T s ls start len prot flags : space_inv o T s ls -> light s ->
  page_range start (start + len) -> 0 < len -> range_clear ls start (start + len) ->
  wp (new_area start len prot flags) (fun r s' => exists ls', kept o s s' ls' /\ brk (vm s') = brk (vm s) /\
    ((r = (0, start) /\ mapped start (start + len) prot flags s ls s' ls') \/
     (r = (- ENOMEM, 0) /\ credit s < 1 /\ unseen s ls s' ls'))) s.
Proof.
  intros Hinv Hl Hpr Hlen Hc.
  eapply wp_mono; [apply (new_area_spec o T s ls start len (start + len)); try done; [lia |] |].
  { apply u64_small. destruct Hpr. unfold USER_ADDR_MIN, USER_ADDR_LIMIT in *. lia. }
  intros r s' (ls' & Hk & Hb & Hp & Hres). exists ls'. split; [done |]. split; [done |].
  destruct Hres as [[-> Hv] | (-> & Hcr & Hv)]; [| right; by split_and!].
  left. split; [done |]. constructor; [done | done |]. intros va Hva. rewrite Hp.
  unfold cleared. destruct ((start <=? va) && (va <? start + len)) eqn:E; [| done].
  apply andb_prop in E as [?%Z.leb_le ?%Z.ltb_lt].
  by rewrite (clear_frame s ls start (start + len) va)
    by (try done; apply Hinv || apply (sh_areas _ _ (si_shape _ _ _ _ Hinv))).
Qed.

Lemma kept_after o s s1 ls1 s2 ls2 : kept o s s1 ls1 -> kept o s1 s2 ls2 ->
  (forall f, f <> 0 -> 0 < count s2 f -> 0 < count s1 f) -> kept o s s2 ls2.
Proof.
  intros (_ & _ & Q1 & D1) (H1 & H2 & Q2 & D2) Hc. split; [done |]. split; [done |].
  split; [by eapply quiet_space_trans | by eapply same_data_trans].
Qed.

Lemma cleared_twice e lo hi va : cleared (cleared e lo hi) lo hi va = cleared e lo hi va.
Proof.
  unfold cleared. destruct ((lo <=? va) && (va <? hi)); cbn [andb]; [| done].
  destruct (has_frame (e va)) eqn:E; [done | by rewrite E].
Qed.

(** A fixed mapping replaces what was there. *)
Lemma map_replaces addr len prot flags r s ls s1 ls1 s2 ls2 : page_range addr (addr + len) ->
  unmapped addr (addr + len) s ls s1 ls1 ->
  (r = (0, addr) /\ mapped addr (addr + len) prot flags s1 ls1 s2 ls2) \/
  (r = (- ENOMEM, 0) /\ credit s1 < 1 /\ unseen s1 ls1 s2 ls2) ->
  map_result true addr len prot flags r s ls s2 ls2.
Proof.
  intros Hpr [Hv Hp] [[-> [_ Hv2 Hp2]] | (-> & _ & [Hv2 Hp2])].
  - left. exists addr. split; [done |]. split; [| done]. constructor; [done | |].
    + intros a. rewrite Hv2, Hv. by destruct ((addr <=? a) && (a <? addr + len)).
    + intros va Hva. rewrite Hp2 by done. rewrite <- (cleared_twice (pte s)). unfold cleared at 1 2.
      by rewrite Hp.
  - right. exists (- ENOMEM). split; [done |]. split; [right; split; [done | by left] |]. right. split; [done |]. constructor.
    + intros a. by rewrite Hv2.
    + intros va Hva. by rewrite Hp2, Hp.
Qed.

(** The place where [map_locked] puts the area, and what happened on the way. *)
Definition placed o (fixed : bool) (addr len : Z) s ls (place : Z + Z) s' ls' : Prop :=
  kept o s s' ls' /\ brk (vm s') = brk (vm s) /\
  match place with
  | inl err => map_error fixed addr len err s ls /\ unseen s ls s' ls'
  | inr start => page_range start (start + len) /\ range_clear ls' start (start + len) /\
      if fixed then start = addr /\ unmapped addr (addr + len) s ls s' ls' else s' = s /\ ls' = ls
  end.


Lemma unseen_refl s ls : unseen s ls s ls.
Proof. by split. Qed.

Section place.
Context (o : Z -> Z) (T : gset Z) (s : state A) (ls : alist) (addr len : Z).
Hypotheses (Hinv : space_inv o T s ls) (Hsol : solvent o) (Hl : light s).
Hypotheses (Haddr : is_u 64 addr) (Hlen : is_u 64 len) (Haa : aligned addr) (Hla : aligned len).

Lemma fixed_place_spec :
  wp (fixed_place addr len) (fun place s' => exists ls', placed o true addr len s ls place s' ls') s.
Proof using All.
  unfold fixed_place. destruct (user_range addr (u64 (addr + len))) eqn:Hur; cbn [negb].
  2:{ apply wp_ret. exists ls. split; [by eapply kept_refl |]. split; [done |]. split; [left; by auto | apply unseen_refl]. }
  destruct (range_sum addr len Haddr Hlen Haa Hla Hur) as (E & Hpr & Hlt).
  apply wp_bind. eapply wp_mono; [by apply (unmap_locked_spec o T s ls) |].
  intros err s1 (ls1 & Hk & Hb1 & Hres). apply wp_ret. exists ls1. split; [done |]. split; [done |].
  rewrite E, (align_up_sum addr len Hpr) in Hres. destruct Hres as [(-> & _ & _ & Hum) | [Herr Hun]].
  - cbn [Z.eqb negb]. split; [done |]. split; [| done]. destruct Hk as ((T1 & Hinv1) & _).
    apply view_clear; [apply (sh_areas _ _ (si_shape _ _ _ _ Hinv1)) | lia |]. intros a Har.
    rewrite (um_view _ _ _ _ _ _ Hum a). destruct ((addr <=? a) && (a <? addr + len)) eqn:E'; [done |].
    apply andb_false_iff in E' as [?%Z.leb_gt | ?%Z.ltb_ge]; lia.
  - assert (err = - ENOMEM) as -> by (destruct Herr as [[_ [? | ?]] | [-> _]]; (done || lia)). cbn [Z.eqb negb].
    split; [right; split; [done | by left] | done].
Qed.

Lemma free_place_spec : 0 < len < 2 ^ 64 - USER_ADDR_LIMIT ->
  wp (free_place addr len) (fun place s' => exists ls', placed o false addr len s ls place s' ls') s.
Proof using All.
  intros Hsmall. unfold free_place. destruct (si_base _ _ _ _ Hinv) as [Hba Hbr].
  pose proof (si_shape _ _ _ _ Hinv) as Hs.
  assert (wp (let* start := asks (fun s => find_gap (vm s) len) in
              ret (if start =? 0 then inl (- ENOMEM) else inr start))
             (fun place s' => exists ls', placed o false addr len s ls place s' ls') s) as Hgap.
  { destruct (find_gap_spec (vm s) ls len Hs) as (c & Hc & Hcase);
      [unfold USER_ADDR_MIN in *; lia | done | done |].
    apply wp_bind. eapply wp_asks; [exact Hc |]. apply wp_ret. exists ls. split; [by eapply kept_refl |].
    split; [done |]. destruct Hcase as [[-> Hno] | (Hlo & Hhi & Hca & Hcl & _)].
    { split; [right; by auto | apply unseen_refl]. }
    unfold STACK_FLOOR, USER_STACK_TOP, USER_STACK_LIMIT, USER_ADDR_MIN, USER_ADDR_LIMIT in *.
    destruct (Z.eqb_spec c 0); [lia |]. split; [| by split].
    constructor; unfold USER_ADDR_MIN, USER_ADDR_LIMIT; try done; try lia. by apply aligned_sum. }
  apply wp_bind.
  destruct ((addr =? 0) || negb (user_range addr (u64 (addr + len)))) eqn:Htest; [by apply wp_ret |].
  apply orb_false_elim in Htest as [_ Hur%negb_false_iff].
  destruct (range_sum addr len Haddr Hlen Haa Hla Hur) as (E & Hpr & Hlt). rewrite E.
  destruct (vm_range_free_spec (vm s) ls addr (addr + len) Hs Hlt) as (b & Hb & Hbc).
  apply wp_bind. eapply wp_asks; [exact Hb |]. apply wp_ret. destruct b; cbn [negb]; [| exact Hgap].
  apply wp_ret. exists ls. split; [by eapply kept_refl |]. split; [done |]. split; [done |].
  split; [by apply Hbc | done].
Qed.
End place.

Lemma map_locked_spec o T s ls addr len prot flags fixed : space_inv o T s ls -> solvent o -> light s ->
  is_u 64 addr -> 0 <= len <= 2 ^ 63 ->
  wp (map_locked addr len prot flags fixed) (fun r s' => exists ls', kept o s s' ls' /\
    brk (vm s') = brk (vm s) /\ map_result fixed addr (PAGE_ALIGN_UP len) prot flags r s ls s' ls') s.
Proof.
  intros Hinv Hsol Hl Haddr Hlen. unfold map_locked.
  pose proof (align_up_aligned len) as Hla. pose proof (align_up_u len) as Hlu.
  destruct (PAGE_ALIGN_UP_bounds len) as [Hlb _]; [unfold PAGE_SIZE; lia |].
  set (n := PAGE_ALIGN_UP len) in *. rewrite low_bits by done.
  destruct (Z.eqb_spec n 0) as [| Hn0]; cbn [orb]; [apply wp_ret; apply (map_failed o T); [done.. | left; by auto] |].
  destruct (Z.eqb_spec (addr mod PAGE_SIZE) 0) as [Haa |]; cbn [negb];
    [| apply wp_ret; apply (map_failed o T); [done.. | left; by auto]].
  assert (0 < n < 2 ^ 64 - USER_ADDR_LIMIT) as Hn
    by (unfold USER_ADDR_LIMIT, PAGE_SIZE in *; destruct Hlu; lia).
  assert (wp (if fixed then fixed_place addr n else free_place addr n) (fun place s' =>
    exists ls', placed o fixed addr n s ls place s' ls') s) as Hplace.
  { destruct fixed; [by apply (fixed_place_spec o T) | by apply (free_place_spec o T)]. }
  apply wp_bind. eapply wp_mono; [exact Hplace |]. intros place s1 (ls1 & Hk1 & Hb1 & Hpl). cbn beta.
  pose proof Hk1 as ((T1 & Hinv1) & Hl1 & Hq1 & _). destruct place as [err | start].
  { destruct Hpl as [Herr Hun]. apply wp_ret. exists ls1. split; [done |]. split; [done |].
    right. exists err. split; [done |]. split; [done |]. by left. }
  destruct Hpl as (Hpr & Hc & Hfix).
  eapply wp_mono; [apply (map_at_spec o T1 s1 ls1 start n prot flags); try done; lia |].
  intros r s2 (ls2 & Hk2 & Hb2 & Hres). exists ls2.
  split; [eapply kept_after; [done | done |]; apply count_sub; intros va Hva |]; [| split; [congruence |]].
  { destruct Hres as [[_ [_ _ Hp]] | (_ & _ & [_ Hp])]; rewrite Hp by done; [| done]. unfold cleared. by destruct (_ && has_frame _). }
  destruct fixed.
  - destruct Hfix as [-> Hum]. by apply (map_replaces addr n prot flags r s ls s1 ls1 s2 ls2).
  - destruct Hfix as [-> ->]. destruct Hres as [[-> Hm] | (-> & Hcr & Hun)]; [left; eauto |].
    right. exists (- ENOMEM). split; [done |]. split; [right; by auto | by left].
Qed.
End ops.
