(* ===== verification/VmProtect.v ===== *)
(** * Changing the protection of a range

    [protect_locked] checks that every page of the range belongs to an area
    that may get the protection, cuts areas at the ends of the range and gives
    the areas inside and their entries the new protection. *)

From Stdlib Require Import ZArith Lia Bool.
From stdpp Require Import base list option gmap.
From S2P Require Import Prelude Mmu Frames PageTable PageTableFacts StateMonad Rbtree RbtreeFacts RbtreeRemove VmArea VmAreaFacts Vm VmPages VmPageOps VmOps.
Open Scope Z_scope.
Open Scope prog_scope.

(** ** Entries with another protection *)

Lemma frame_of_prot e prot : frame_of (pte_with_prot e prot) = frame_of e.
Proof.
  unfold pte_with_prot, frame_of. rewrite Z.land_lor_distr_l.
  rewrite (Z.land_comm (Z.land (pte_flags prot) _)), Z.land_assoc.
  assert (Z.land PTE_FRAME (pte_flags prot) = 0) as ->.
  { unfold pte_flags. by destruct (prot =? VM_NONE), (negb (Z.land prot VM_WRITE =? 0)). }
  rewrite Z.land_0_l, Z.lor_0_r, <- Z.land_assoc. done.
Qed.

Lemma has_frame_prot e prot : has_frame (pte_with_prot e prot) = has_frame e.
Proof. rewrite !has_frame_of. by rewrite frame_of_prot. Qed.

(** The bits that come from the protection. *)
Lemma prot_bits e prot m : 0 <= m < PAGE_SIZE -> Z.land m (Z.lor (Z.lor PTE_FRAME PTE_DIRTY) PTE_COW) = 0 ->
  Z.land (pte_with_prot e prot) m =
    Z.land (Z.land (pte_flags prot) (if negb (Z.land e PTE_COW =? 0) then not64 MMU_WRITABLE else U64_MAX)) m.
Proof.
  intros Hm H0. unfold pte_with_prot. rewrite Z.land_lor_distr_l, <- (Z.land_assoc e).
  by rewrite (Z.land_comm (Z.lor _ PTE_COW) m), H0, Z.land_0_r, Z.lor_0_l.
Qed.

Lemma prot_user e prot : Z.land (pte_with_prot e prot) MMU_USER <> 0.
Proof.
  rewrite prot_bits by done. unfold pte_flags.
  by destruct (prot =? VM_NONE), (negb (Z.land prot VM_WRITE =? 0)), (negb (Z.land e PTE_COW =? 0)).
Qed.

Lemma prot_rights e prot : rights (pte_with_prot e prot) prot.
Proof.
  unfold rights. rewrite !prot_bits by done. unfold pte_flags.
  destruct (Z.eqb_spec prot VM_NONE) as [-> | Hn]; [by destruct (negb (Z.land e PTE_COW =? 0)) |].
  split; [| done]. destruct (Z.eqb_spec (Z.land prot VM_WRITE) 0) as [E | E]; [| done].
  by destruct (negb (Z.land e PTE_COW =? 0)).
Qed.

(** What a page is after its protection was set: readable, and writable if the
    protection says so and the frame is not waiting to be copied. *)
Lemma prot_present e prot : prot <> VM_NONE -> Z.land (pte_with_prot e prot) MMU_PRESENT <> 0.
Proof.
  intros Hn%Z.eqb_neq. rewrite prot_bits by done. unfold pte_flags. rewrite Hn.
  by destruct (negb (Z.land prot VM_WRITE =? 0)), (negb (Z.land e PTE_COW =? 0)).
Qed.

Lemma prot_writable e prot : Z.land prot VM_WRITE <> 0 -> Z.land e PTE_COW = 0 ->
  Z.land (pte_with_prot e prot) MMU_WRITABLE <> 0.
Proof.
  intros Hw Hc. rewrite prot_bits by done. rewrite Hc. unfold pte_flags.
  destruct (Z.eqb_spec prot VM_NONE) as [-> | ?]; [done |]. by destruct (Z.eqb_spec (Z.land prot VM_WRITE) 0).
Qed.

Lemma prot_cow e prot : Z.land (pte_with_prot e prot) PTE_COW = Z.land e PTE_COW.
Proof.
  unfold pte_with_prot. rewrite Z.land_lor_distr_l, <- Z.land_assoc.
  change (Z.land (Z.lor (Z.lor PTE_FRAME PTE_DIRTY) PTE_COW) PTE_COW) with PTE_COW.
  assert (Z.land (Z.land (pte_flags prot) (if negb (Z.land e PTE_COW =? 0) then not64 MMU_WRITABLE else U64_MAX)) PTE_COW = 0) as ->.
  { unfold pte_flags. by destruct (prot =? VM_NONE), (negb (Z.land prot VM_WRITE =? 0)), (negb (Z.land e PTE_COW =? 0)). }
  apply Z.lor_0_r.
Qed.

Section protect.
Context {A : Type} `{!Frames A, !FramesOk A}.
Implicit Types (s : state A) (o : Z -> Z) (T : gset Z) (ls : alist).

(** ** The check *)

(** The protection may be given to the address. *)
Definition may_protect (prot : Z) (v : option (Z * Z * Z * Z * Z)) : Prop :=
  match v with
  | Some (_, flags, _, _, _) => Z.land prot VM_WRITE = 0 \/ Z.land flags VMA_NO_WRITE = 0
  | None => False
  end.

Lemma view_in ls x addr : areas_wf ls -> x ∈ ls -> covers x.2 addr -> view ls addr = Some (area_view x.2 addr).
Proof.
  intros Hwf Hx Hc. unfold view. by rewrite (proj2 (area_of_addr_Some ls addr x Hwf) (conj Hx Hc)).
Qed.

Lemma protect_check_spec fuel v ls l1 l2 va end_ prot : shape v ls -> ls = l1 ++ l2 ->
  (forall x, x ∈ l1 -> va_end x.2 <= va) -> (forall x, x ∈ l2 -> va < va_end x.2) -> (length l2 < fuel)%nat ->
  exists r, protect_check fuel v va end_ prot = Some r /\
    ((r = 0 /\ forall addr, va <= addr < end_ -> may_protect prot (view ls addr)) \/
     (r = - ENOMEM /\ exists addr, va <= addr < end_ /\ view ls addr = None) \/
     (r = - EACCES /\ exists addr, va <= addr < end_ /\ ~ may_protect prot (view ls addr))).
Proof.
  intros Hs ->. revert fuel l1 va Hs. induction l2 as [| [a r] l2 IH]; intros fuel l1 va Hs H1 H2 Hf;
    (destruct fuel as [| fuel]; [lia |]); cbn [protect_check];
    (destruct (Z.ltb_spec va end_) as [Hlt | Hge]; cbn [negb]; [| exists 0; split; [done |]; left; split; [done | lia]]);
    rewrite (vm_find_spec _ _ _ Hs); cbn [mbind option_bind]; pose proof (sh_areas _ _ Hs) as Hwf.
  { exists (- ENOMEM). assert (view (l1 ++ []) va = None) as Hn.
    { apply view_None; [| done]. intros x Hx [? ?]. rewrite app_nil_r in Hx. specialize (H1 x Hx). lia. }
    unfold view in Hn. apply fmap_None in Hn. rewrite Hn. cbn [ptr Z.eqb]. split; [done |]. right. left.
    split; [done |]. exists va. split; [lia |]. unfold view. by rewrite Hn. }
  assert (first_after (l1 ++ (a, r) :: l2) va = Some (a, r)) as Hfa.
  { rewrite first_after_app, (first_after_none l1), first_after_cons by auto.
    by rewrite decide_True by (apply (H2 (a, r)); by left). }
  unfold area_of_addr. rewrite Hfa. cbn [snd].
  pose proof (H2 (a, r) ltac:(by left)) as Hend. simpl in Hend.
  destruct (Z.leb_spec (va_start r) va) as [Hst | Hst]; cbn [ptr fst].
  2:{ exists (- ENOMEM). split; [done |]. right. left. split; [done |]. exists va. split; [lia |].
      unfold view, area_of_addr. rewrite Hfa. cbn [snd]. by destruct (Z.leb_spec (va_start r) va); [lia |]. }
  pose proof (shape_nonzero _ _ (a, r) Hs ltac:(set_solver)) as H0%Z.eqb_neq. simpl in H0. rewrite H0.
  rewrite (sh_recs _ _ Hs a r) by set_solver. cbn [mbind option_bind].
  assert (forall addr, covers r addr -> view (l1 ++ (a, r) :: l2) addr = Some (area_view r addr)) as Hin.
  { intros addr Hc. apply (view_in _ (a, r)); [done | set_solver | done]. }
  destruct (negb (Z.land prot VM_WRITE =? 0) && negb (Z.land (va_flags r) VMA_NO_WRITE =? 0)) eqn:Hp.
  { apply andb_prop in Hp as [Hp1%negb_true_iff%Z.eqb_neq Hp2%negb_true_iff%Z.eqb_neq].
    exists (- EACCES). split; [done |]. right. right. split; [done |]. exists va. split; [lia |].
    rewrite Hin by (unfold covers; lia). simpl. tauto. }
  change (l1 ++ (a, r) :: l2) with (l1 ++ [(a, r)] ++ l2) in *. rewrite app_assoc in *.
  destruct (IH fuel (l1 ++ [(a, r)]) (va_end r) Hs) as (res & -> & Hres); [| | simpl in Hf; lia |].
  - intros x [Hx | ->%list_elem_of_singleton]%elem_of_app; [specialize (H1 x Hx); lia | done].
  - intros x Hx. rewrite <- app_assoc in Hwf. pose proof (below_head _ _ _ _ Hwf Hx).
    pose proof (areas_wf_elem _ x Hwf ltac:(set_solver)) as [_ _ ? _ _]. simpl in *. lia.
  - exists res. split; [done |]. destruct Hres as [[-> Hall] | [(-> & addr & ? & ?) | (-> & addr & ? & ?)]].
    + left. split; [done |]. intros addr Hr. destruct (Z_lt_ge_dec addr (va_end r)) as [Hlt' | Hge']; [| apply Hall; lia].
      rewrite Hin by (unfold covers; lia). simpl.
      apply andb_false_iff in Hp as [Hp%negb_false_iff%Z.eqb_eq | Hp%negb_false_iff%Z.eqb_eq]; tauto.
    + right. left. split; [done |]. exists addr. split; [lia | done].
    + right. right. split; [done |]. exists addr. split; [lia | done].
Qed.

(** ** Pages *)

(** The entries after those between [lo] and [hi] got the protection. *)
Definition protected (e : Z -> Z) (prot lo hi va : Z) : Z :=
  if (lo <=? va) && (va <? hi) && has_frame (e va) then pte_with_prot (e va) prot else e va.

Lemma protected_here e prot lo va va' : lo <= va -> aligned va -> aligned va' ->
  protected e prot lo (va + PAGE_SIZE) va' =
    if (va' =? va) && has_frame (e va) then pte_with_prot (e va) prot else protected e prot lo va va'.
Proof.
  intros Hlo Ha Ha'. unfold protected. destruct (Z.eqb_spec va' va) as [-> | Hne]; cbn [andb].
  - rewrite Z.ltb_irrefl, andb_false_r. cbn [andb]. unfold PAGE_SIZE. zcases.
  - assert ((va' <? va + PAGE_SIZE) = (va' <? va)) as ->; [| done].
    destruct (Z.ltb_spec va' va); [unfold PAGE_SIZE; zcases |].
    pose proof (aligned_gap va va' Ha Ha'). zcases.
Qed.

Lemma protect_pages_spec o T s start end_ prot : pages_ok o T s -> page_range start end_ ->
  wp (protect_pages start end_ prot) (fun _ s' => pages_ok o T s' /\ vm s' = vm s /\ tame (outside T) s s' /\
    (forall q, hold s' q = hold s q) /\
    forall va, user_page va -> pte s' va = protected (pte s) prot start end_ va) s.
Proof.
  intros Hok Hr. unfold protect_pages.
  apply (for_pages_rule (fun hi s' => pages_ok o T s' /\ vm s' = vm s /\ tame (outside T) s s' /\
    (forall q, hold s' q = hold s q) /\
    forall va, user_page va -> pte s' va = protected (pte s) prot start hi va) start end_); [done | |].
  { split; [done |]. split; [done |]. split; [apply tame_refl |]. split; [done |].
    intros va _. unfold protected. zcases. }
  intros va s1 Ha Hva (Hok1 & Hvm1 & Ht1 & Hh1 & Hp1). pose proof (range_page _ _ va Hr Ha Hva) as Hup.
  assert (pte s1 va = pte s va) as Ept.
  { rewrite Hp1 by done. unfold protected. by rewrite Z.ltb_irrefl, andb_false_r. }
  assert (has_frame (pte s va) = false -> forall va', user_page va' ->
    pte s1 va' = protected (pte s) prot start (va + PAGE_SIZE) va') as Hnone.
  { intros Hf va' [? ?]. rewrite Hp1, protected_here by (done || lia). by rewrite Hf, andb_false_r. }
  apply wp_bind. apply (find_pte_spec o T); [done | apply Hup | |].
  { intros E. apply wp_ret. split_and!; try done. apply Hnone. by rewrite <- Ept, E. }
  intros p Hp. apply wp_bind. apply (load_spec o T s1 va); [done | done |].
  apply wp_when; intros Hf; [| split_and!; try done; apply Hnone; by rewrite <- Ept].
  eapply wp_mono; [apply (store_spec o T s1 va p _ Hok1 Hup Hp) |].
  { intros _. rewrite frame_of_prot. split; [apply prot_user | by left]. }
  { rewrite has_frame_prot. congruence. }
  intros [] s2 Hst. split; [| split; [| split; [| split]]].
  - eapply pages_ok_ext; [apply (sd_ok _ _ _ _ _ _ Hst) |]. apply swap_same. by rewrite frame_of_prot.
  - rewrite (sd_vm _ _ _ _ _ _ Hst). done.
  - eapply tame_trans; [exact Ht1 |]. by eapply stored_outside.
  - intros q. by rewrite (sd_hold _ _ _ _ _ _ Hst).
  - intros va' Hva'. pose proof Hva' as [? ?]. rewrite (sd_pte _ _ _ _ _ _ Hst va' Hva').
    rewrite protected_here, <- Ept, Hf, andb_true_r by (done || lia). unfold set_pte.
    by destruct (Z.eqb_spec va' va); [| rewrite (Hp1 va' Hva')].
Qed.

(** ** Areas *)

Definition reprot (prot : Z) (x : Z * vm_area) : Z * vm_area := (x.1, with_prot prot x.2).

(** The entries after the areas [ls] got the protection. *)
Definition protected_in (e : Z -> Z) (prot : Z) ls (va : Z) : Z :=
  if in_areas ls va && has_frame (e va) then pte_with_prot (e va) prot else e va.

Lemma protected_cons e prot x ls va : areas_wf (x :: ls) ->
  protected_in (protected e prot (va_start x.2) (va_end x.2)) prot ls va = protected_in e prot (x :: ls) va.
Proof.
  intros (_ & Hwf & Hb)%areas_wf_cons. unfold protected_in, protected. cbn [in_areas existsb].
  fold (in_areas ls va). destruct ((va_start x.2 <=? va) && (va <? va_end x.2)) eqn:E1; cbn [andb orb]; [| done].
  destruct (in_areas ls va) eqn:E2.
  - apply in_areas_spec in E2 as (y & Hy & ? & ?). specialize (Hb y Hy). unfold below in Hb.
    apply andb_prop in E1 as [?%Z.leb_le ?%Z.ltb_lt]. lia.
  - cbn [andb]. done.
Qed.

Lemma light_same s s' : (forall q, hold s' q = hold s q) ->
  (forall va, user_page va -> frame_of (pte s' va) = frame_of (pte s va)) -> light s -> light s'.
Proof. intros Hh Hp Hl f Hf Hm. rewrite Hh, (count_ext s s') by done. by apply Hl. Qed.

Lemma protect_loop_spec fuel o T s l1 l2 addr end_ prot : pages_ok o T s -> light s ->
  shape (vm s) (l1 ++ l2) -> (forall x, x ∈ l2 -> addr <= va_start x.2) -> cut_at l2 end_ ->
  (length l2 < fuel)%nat ->
  wp (protect_loop fuel (ptr (head l2)) addr end_ prot) (fun _ s' => exists l2a l2b, l2 = l2a ++ l2b /\
    (forall x, x ∈ l2a -> va_end x.2 <= end_) /\ (forall x, x ∈ l2b -> end_ <= va_start x.2) /\
    pages_ok o T s' /\ light s' /\ quiet (outside T) s s' /\ shape (vm s') (l1 ++ (reprot prot <$> l2a) ++ l2b) /\
    brk (vm s') = brk (vm s) /\ forall va, user_page va -> pte s' va = protected_in (pte s) prot l2a va) s.
Proof.
  revert fuel s l1. induction l2 as [| [a r] l2 IH]; intros fuel s l1 Hok Hl Hs Hlo Hcut Hf;
    (destruct fuel as [| fuel]; [lia |]); cbn [protect_loop head ptr fst].
  { apply wp_ret. exists [], []. split_and!; try done; try apply quiet_space_refl; intros x Hx; by apply elem_of_nil in Hx. }
  pose proof (shape_nonzero _ _ (a, r) Hs ltac:(set_solver)) as H0%Z.eqb_neq. simpl in H0. rewrite H0.
  apply wp_bind, (wp_asks _ r); [apply (sh_recs _ _ Hs); set_solver |].
  pose proof (sh_areas _ _ Hs) as Hwf. pose proof (areas_wf_elem _ (a, r) Hwf ltac:(set_solver)) as Hr. simpl in Hr.
  destruct (below_neq _ _ _ Hwf) as [Hb1 Hb2].
  destruct (Z.ltb_spec (va_start r) end_) as [Hlt | Hge]; cbn [negb].
  2:{ apply wp_ret. exists [], ((a, r) :: l2).
      split_and!; try done; try apply quiet_space_refl; [intros x Hx; by apply elem_of_nil in Hx |].
      intros x [-> | Hx]%elem_of_cons; [done |]. pose proof (below_head _ _ _ _ Hwf Hx).
      destruct Hr. simpl in *. lia. }
  apply wp_bind. assert ((addr <=? va_start r) = true) as -> by (apply Z.leb_le; apply (Hlo (a, r)); by left).
  cbn [when]. apply wp_bind. eapply wp_mono.
  { apply (put_area_spec s l1 a r (with_prot prot r) l2 Hs); [by destruct Hr; constructor | done | done]. }
  intros [] s1 (Hr1 & _ & Hs1 & _ & _). pose proof (pages_ok_rest _ _ _ _ Hr1 Hok) as Hok1. cbn beta.
  eapply wp_mono; [by apply (protect_pages_spec o T s1); [| by apply area_range] |].
  intros [] s2 (Hok2 & Hv2 & Ht2 & Hh2 & Hp2). cbn beta. rewrite <- Hv2 in Hs1.
  assert (forall va, user_page va -> pte s2 va = protected (pte s) prot (va_start r) (va_end r) va) as Hp2'.
  { intros va Hva. rewrite Hp2 by done. unfold protected. by rewrite (same_rest_pte _ _ _ Hr1). }
  apply wp_bind. eapply wp_asks; [exact (area_next_spec _ _ _ _ Hs1) |].
  change (l1 ++ (a, with_prot prot r) :: l2) with (l1 ++ [(a, with_prot prot r)] ++ l2) in Hs1.
  rewrite app_assoc in Hs1.
  eapply wp_mono; [apply (IH fuel s2 (l1 ++ [(a, with_prot prot r)])); try done; [| set_solver | | simpl in Hf; lia] |].
  { apply (light_same s); [| | done].
    - intros q. by rewrite Hh2, (same_rest_hold _ _ _ Hr1).
    - intros va Hva. rewrite Hp2' by done. unfold protected. destruct (_ && has_frame _); [apply frame_of_prot | done]. }
  { intros x Hx. apply Hcut. by right. }
  intros [] s3 (l2a & l2b & -> & Ha & Hb & Hok3 & Hl3 & Hq3 & Hs3 & Hbr3 & Hp3).
  exists ((a, r) :: l2a), l2b. split_and!; try done.
  - intros x [-> | Hx]%elem_of_cons; [| by apply Ha]. destruct (Hcut (a, r) ltac:(by left)); [done | simpl in *; lia].
  - eapply quiet_space_trans; [by apply quiet_rest |]. eapply quiet_space_trans; [by apply quiet_tame | done].
  - rewrite <- app_assoc in Hs3. exact Hs3.
  - rewrite Hbr3, Hv2. apply (sr_brk _ _ Hr1).
  - intros va Hva. rewrite Hp3 by done. rewrite <- protected_cons; [unfold protected_in; by rewrite Hp2' |].
    apply areas_wf_app in Hwf as (_ & Hwf & _). rewrite app_comm_cons in Hwf. by apply areas_wf_app in Hwf as (? & _).
Qed.

Definition view_prot (prot : Z) (v : Z * Z * Z * Z * Z) : Z * Z * Z * Z * Z :=
  let '(_, flags, fops, file, pos) := v in (prot, flags, fops, file, pos).

Lemma view_reprot prot ls addr : view (reprot prot <$> ls) addr = view_prot prot <$> view ls addr.
Proof.
  unfold view, area_of_addr. assert (first_after (reprot prot <$> ls) addr = reprot prot <$> first_after ls addr) as ->.
  { induction ls as [| x ls IH]; [done |]. cbn [fmap list_fmap]. rewrite !first_after_cons. cbn [reprot snd with_prot va_end].
    destruct (decide _); [done | exact IH]. }
  destruct (first_after ls addr) as [x |]; [| done]. simpl. by destruct (va_start x.2 <=? addr).
Qed.

(** The range from [start] to [end_] has the protection. *)
Record reprotected (start end_ prot : Z) s ls s' ls' : Prop := {
  rp_may : forall addr, start <= addr < end_ -> may_protect prot (view ls addr);
  rp_view : forall addr, view ls' addr =
    if (start <=? addr) && (addr <? end_) then view_prot prot <$> view ls addr else view ls addr;
  rp_pte : forall va, user_page va -> pte s' va = protected (pte s) prot start end_ va;
}.

Lemma agree_reprotected s ls s' ls' start end_ prot : agree (pte s) ls ->
  reprotected start end_ prot s ls s' ls' -> agree (pte s') ls'.
Proof.
  intros Ha [_ Hv Hp] va Hva. rewrite Hp, Hv by done. unfold protected.
  destruct ((start <=? va) && (va <? end_)); cbn [andb]; [| by apply Ha].
  destruct (has_frame (pte s va)) eqn:E; [| congruence]. intros _.
  specialize (Ha va Hva E). destruct (view ls va) as [[[[[p fl] fo] fi] po] |]; [| done]. apply prot_rights.
Qed.

Lemma reprotected_intro s ls s' l1 l2a l2b start end_ prot : areas_wf (l1 ++ l2a ++ l2b) ->
  agree (pte s) ls -> (forall addr, view (l1 ++ l2a ++ l2b) addr = view ls addr) ->
  (forall x, x ∈ l1 -> va_end x.2 <= start) -> (forall x, x ∈ l2a -> start <= va_start x.2) ->
  (forall x, x ∈ l2a -> va_end x.2 <= end_) -> (forall x, x ∈ l2b -> end_ <= va_start x.2) ->
  (forall va, user_page va -> pte s' va = protected_in (pte s) prot l2a va) ->
  (forall addr, start <= addr < end_ -> may_protect prot (view ls addr)) ->
  areas_wf (l1 ++ (reprot prot <$> l2a) ++ l2b) ->
  reprotected start end_ prot s ls s' (l1 ++ (reprot prot <$> l2a) ++ l2b).
Proof.
  intros Hwf Hag Hv H1 H2 H3 H4 Hp Hmay Hwf'. constructor; [done | |].
  - intros addr. rewrite <- Hv. pose proof Hwf as (W1 & W2 & _)%areas_wf_app. pose proof W2 as (W2a & W2b & _)%areas_wf_app.
    pose proof Hwf' as (_ & W2' & _)%areas_wf_app. rewrite !view_app by done. rewrite view_reprot.
    destruct ((start <=? addr) && (addr <? end_)) eqn:E.
    + apply andb_prop in E as [?%Z.leb_le ?%Z.ltb_lt]. rewrite (view_None l1), (view_None l2b); try done.
      * by destruct (view l2a addr).
      * intros x Hx [? ?]. specialize (H4 x Hx). lia.
      * intros x Hx [? ?]. specialize (H1 x Hx). lia.
    + rewrite (view_None l2a); [done | | done]. intros x Hx [? ?]. specialize (H2 x Hx). specialize (H3 x Hx).
      apply andb_false_iff in E as [?%Z.leb_gt | ?%Z.ltb_ge]; lia.
  - intros va Hva. rewrite Hp by done. unfold protected_in, protected.
    destruct (has_frame (pte s va)) eqn:Hf; rewrite ?andb_false_r, ?andb_true_r; [| done].
    by rewrite (in_range_areas s ls l1 l2a l2b start end_ va).
Qed.

(** Why the protection is not set: bad arguments, no memory or a hole, or an
    area that must not be writable. *)
Definition protect_error (addr end_ prot r : Z) s ls : Prop :=
  (r = - EINVAL /\ (~ aligned addr \/ end_ < addr)) \/
  (r = - ENOMEM /\ (credit s < 2 \/ exists a, addr <= a < end_ /\ view ls a = None)) \/
  (r = - EACCES /\ exists a, addr <= a < end_ /\ ~ may_protect prot (view ls a)).

(** The outcomes: the protection is set, or the error says why it is not. *)
Definition protect_result (addr end_ len prot r : Z) s ls s' ls' : Prop :=
  (r = 0 /\ aligned addr /\ if len =? 0 then unseen s ls s' ls' else reprotected addr end_ prot s ls s' ls') \/
  (protect_error addr end_ prot r s ls /\ unseen s ls s' ls').

Lemma protect_locked_spec o T s ls addr len prot : space_inv o T s ls -> light s ->
  is_u 64 addr -> is_u 64 len ->
  wp (protect_locked addr len prot) (fun r s' => exists ls', kept o s s' ls' /\ brk (vm s') = brk (vm s) /\
    protect_result addr (PAGE_ALIGN_UP (u64 (addr + len))) len prot r s ls s' ls') s.
Proof.
  intros Hinv Hl Haddr Hlen. unfold protect_locked. set (end_ := PAGE_ALIGN_UP _).
  rewrite low_bits by done. pose proof (si_shape _ _ _ _ Hinv) as Hs.
  assert (forall r, protect_error addr end_ prot r s ls ->
    exists ls', kept o s s ls' /\ brk (vm s) = brk (vm s) /\ protect_result addr end_ len prot r s ls s ls') as Hfail.
  { intros r Hr. exists ls. split; [by eapply kept_refl |]. split; [done |]. right. split; [done | apply unseen_refl]. }
  destruct (negb (addr mod PAGE_SIZE =? 0) || (end_ <? addr)) eqn:Hbad.
  { apply wp_ret, Hfail. left. split; [done |].
    by apply orb_prop in Hbad as [H%negb_true_iff%Z.eqb_neq | H%Z.ltb_lt]; [left | right]. }
  apply orb_false_elim in Hbad as [Hal%negb_false_iff%Z.eqb_eq Hle%Z.ltb_ge].
  destruct (len =? 0) eqn:Hl0.
  { apply wp_ret. exists ls. split; [by eapply kept_refl |]. split; [done |]. left. split; [done |]. split; [done |].
    rewrite Hl0. apply unseen_refl. }
  destruct (first_after_split ls addr (sh_areas _ _ Hs)) as (l1 & l2 & E & H1 & H2 & _).
  pose proof (shape_length _ _ Hs) as Hlen0.
  destruct (protect_check_spec (tree_fuel (areas (vm s))) (vm s) ls l1 l2 addr end_ prot Hs E H1 H2)
    as (r & Hr & Hcase); [rewrite E, length_app in Hlen0; lia |].
  apply wp_bind. eapply wp_asks; [exact Hr |].
  destruct Hcase as [[-> Hmay] | [(-> & Hno) | (-> & Hno)]]; cbn [Z.eqb negb];
    [| apply wp_ret, Hfail; right; left; by auto | apply wp_ret, Hfail; right; right; by auto].
  clear l1 l2 E H1 H2 Hlen0 Hr. apply (over_range_rule o T s ls); try done; [apply align_up_aligned | |].
  { intros s1 ls1 Hcr (Hr1 & _ & Hv1) _ Hinv1 Hl1. exists ls1.
    split; [by eapply kept_rest |].
    split; [apply (sr_brk _ _ Hr1) |]. right. split; [right; left; by auto |]. split; [done |].
    intros va _. by apply same_rest_pte. }
  intros s1 l1 l2 fuel (Hr1 & Hs1 & Hv1) _ Hinv1 Hl1 H1 H2 Hcut Hf.
  eapply wp_mono; [by apply (protect_loop_spec fuel o T s1 l1 l2 addr end_ prot); [apply Hinv1 | ..] |].
  intros [] s2 (l2a & l2b & -> & Ha & Hb & Hok2 & Hl2 & Hq2 & Hs2 & Hb2 & Hp2).
  assert (reprotected addr end_ prot s ls s2 (l1 ++ (reprot prot <$> l2a) ++ l2b)) as Hrp.
  { apply (reprotected_intro s ls s2 l1 l2a l2b); try done;
      [apply (sh_areas _ _ Hs1) | apply Hinv | set_solver | | apply (sh_areas _ _ Hs2)].
    intros va Hva. rewrite Hp2 by done. unfold protected_in. by rewrite (same_rest_pte _ _ _ Hr1). }
  assert (quiet (outside T) s s2) as Hq by (eapply quiet_space_trans; [by apply quiet_rest | done]).
  eexists. split; [eapply (kept_quiet o T s); [apply Hinv | apply Hinv | constructor; [done | exact Hs2 | | rewrite (qu_base _ _ _ Hq); apply Hinv] | done | done] |].
  - eapply agree_reprotected; [apply Hinv | exact Hrp].
  - split; [rewrite Hb2; apply (sr_brk _ _ Hr1) |]. left. rewrite Hl0. by split_and!.
Qed.
End protect.
