(* ===== verification/VmCow.v ===== *)
(** * Copy on write

    [cow_safe o e ls]: a page of a private area whose entry does not say copy
    on write has a frame of its own, which neither the others of the ledger [o]
    nor another page has; an entry that says copy on write is not writable. *)

From Stdlib Require Import ZArith Lia Bool.
From stdpp Require Import base list option gmap.
From S2P Require Import Prelude Mmu Frames PageTable PageTableFacts StateMonad Rbtree RbtreeFacts RbtreeRemove VmArea VmAreaFacts Vm VmPages VmPageOps VmOps VmProtect.
Open Scope Z_scope.
Open Scope prog_scope.

Definition flags_of (v : Z * Z * Z * Z * Z) : Z := let '(_, flags, _, _, _) := v in flags.

(** The page belongs to a private area. *)
Definition private (v : option (Z * Z * Z * Z * Z)) : bool :=
  match v with Some v => Z.land (flags_of v) VMA_SHARED =? 0 | None => false end.

(** Only [va] has the frame [f]. *)
Definition alone (o : Z -> Z) (e : Z -> Z) (va f : Z) : Prop :=
  o f = 0 /\ forall va', user_page va' -> frame_of (e va') = f -> va' = va.

Record cow_safe (o e : Z -> Z) (ls : alist) : Prop := {
  cs_alone : forall va, user_page va -> has_frame (e va) = true -> private (view ls va) = true ->
    Z.land (e va) PTE_COW = 0 -> alone o e va (frame_of (e va));
  cs_read : forall va, user_page va -> has_frame (e va) = true -> Z.land (e va) PTE_COW <> 0 ->
    Z.land (e va) MMU_WRITABLE = 0;
}.

(** A page that can be written in a private area is its own. *)
Lemma cow_safe_writable o e ls va : cow_safe o e ls -> user_page va -> has_frame (e va) = true ->
  private (view ls va) = true -> Z.land (e va) MMU_WRITABLE <> 0 -> alone o e va (frame_of (e va)).
Proof.
  intros [Ha Hr] Hva Hf Hp Hw. apply Ha; try done.
  destruct (Z.eq_dec (Z.land (e va) PTE_COW) 0); [done |]. by rewrite Hr in Hw.
Qed.

(** Entries with the same frame and the same copy on write bit, or none; pages
    that have frames do not become private. *)
Lemma cow_safe_less o e ls e' ls' : cow_safe o e ls ->
  (forall va, user_page va -> has_frame (e' va) = true ->
     frame_of (e' va) = frame_of (e va) /\ Z.land (e' va) PTE_COW = Z.land (e va) PTE_COW /\
     (private (view ls' va) = true -> private (view ls va) = true) /\
     (Z.land (e' va) PTE_COW <> 0 -> Z.land (e' va) MMU_WRITABLE = 0)) -> cow_safe o e' ls'.
Proof.
  intros [Ha Hr] H. constructor.
  - intros va Hva Hf Hp Hc. destruct (H va Hva Hf) as (Ef & Ec & Hpr & _).
    rewrite has_frame_of, Ef, <- has_frame_of in Hf. rewrite Ec in Hc.
    destruct (Ha va Hva Hf (Hpr Hp) Hc) as [Ho Hu]. rewrite Ef. split; [done |]. intros va' Hva' E.
    apply Hu; [done |]. rewrite <- E. symmetry. apply (H va' Hva').
    rewrite has_frame_of, E, <- has_frame_of. done.
  - intros va Hva Hf Hc. by apply (H va Hva Hf).
Qed.

Lemma cow_safe_ext o e ls e' ls' : cow_safe o e ls -> (forall va, user_page va -> e' va = e va) ->
  (forall va, view ls' va = view ls va) -> cow_safe o e' ls'.
Proof.
  intros Hc He Hv. apply (cow_safe_less o e ls); [done |]. intros va Hva Hf. rewrite Hv, He in * by done.
  split_and!; try done. intros. by apply (cs_read _ _ _ Hc).
Qed.

(** One entry is new: its frame belongs to no other page and to nobody else. *)
Lemma cow_safe_set o e ls e' va v : cow_safe o e ls -> has_frame v = true ->
  (forall va', user_page va' -> e' va' = set_pte e va v va') ->
  o (frame_of v) = 0 -> (forall va', user_page va' -> va' <> va -> frame_of (e va') <> frame_of v) ->
  (Z.land v PTE_COW <> 0 -> Z.land v MMU_WRITABLE = 0) -> cow_safe o e' ls.
Proof.
  intros [Ha Hr] Hv He Ho Hu Hw.
  assert (forall va', user_page va' -> va' <> va -> e' va' = e va') as Hoth.
  { intros va' Hva' Hne. rewrite He by done. unfold set_pte. by destruct (Z.eqb_spec va' va). }
  assert (user_page va -> e' va = v) as Ev by (intros Hva; rewrite He by done; unfold set_pte; by rewrite Z.eqb_refl).
  constructor.
  - intros va' Hva' Hf Hp Hc. destruct (Z.eq_dec va' va) as [-> | Hne].
    + rewrite (Ev Hva'). split; [done |]. intros va2 Hva2 E. destruct (Z.eq_dec va2 va) as [| Hne]; [done |].
      rewrite (Hoth va2 Hva2 Hne) in E. by apply (Hu va2 Hva2 Hne) in E.
    + rewrite (Hoth va' Hva' Hne) in *. destruct (Ha va' Hva' Hf Hp Hc) as [Ho' Hu']. split; [done |].
      intros va2 Hva2 E. destruct (Z.eq_dec va2 va) as [-> | Hne2].
      * rewrite (Ev Hva2) in E. symmetry in E. by apply Hu in E.
      * rewrite (Hoth va2 Hva2 Hne2) in E. by apply Hu'.
  - intros va' Hva' Hf Hc. destruct (Z.eq_dec va' va) as [-> | Hne]; [rewrite (Ev Hva') in *; auto |].
    rewrite (Hoth va' Hva' Hne) in *. by apply Hr.
Qed.

Lemma cow_safe_cleared o e ls e' ls' lo hi : cow_safe o e ls ->
  (forall va, user_page va -> e' va = cleared e lo hi va) ->
  (forall va, user_page va -> has_frame (e' va) = true -> private (view ls' va) = true -> private (view ls va) = true) ->
  cow_safe o e' ls'.
Proof.
  intros Hc He Hv. apply (cow_safe_less o e ls); [done |]. intros va Hva Hf.
  assert (e' va = e va) as E.
  { rewrite He in * by done. unfold cleared in *. by destruct (_ && has_frame (e va)). }
  specialize (Hv va Hva Hf). rewrite E in *. split_and!; [done | done | done |]. intros. by apply (cs_read _ _ _ Hc).
Qed.

(** The protection of an entry leaves its frame and its copy on write bit. *)
Lemma prot_cow_read e prot : Z.land (pte_with_prot e prot) PTE_COW <> 0 ->
  Z.land (pte_with_prot e prot) MMU_WRITABLE = 0.
Proof.
  rewrite prot_cow. intros Hc%Z.eqb_neq. rewrite prot_bits by done. rewrite Hc. unfold pte_flags.
  by destruct (prot =? VM_NONE), (negb (Z.land prot VM_WRITE =? 0)).
Qed.

Section frames.
Context {A : Type} `{!Frames A, !FramesOk A}.
Implicit Types (s : state A) (o : Z -> Z) (T : gset Z) (ls : alist).

Lemma count_two s f va va' : user_page va -> user_page va' -> va <> va' ->
  frame_of (pte s va) = f -> frame_of (pte s va') = f -> f <> 0 -> 2 <= count s f.
Proof.
  intros [Hva Ha] [Hva' Ha'] Hne E E' Hf. unfold count.
  pose proof (uses_update _ _ (proj1 user_range_aligned) (proj2 user_range_aligned) (pte s) (set_pte (pte s) va 0) f va Ha Hva) as Hc.
  assert (set_pte (pte s) va 0 va = 0) as E0 by (unfold set_pte; by rewrite Z.eqb_refl).
  rewrite E0, E, Z.eqb_refl in Hc. change (frame_of 0) with 0 in Hc. destruct (Z.eqb_spec 0 f); [congruence |].
  assert (0 < uses (set_pte (pte s) va 0) f USER_ADDR_MIN USER_ADDR_LIMIT) as Hpos.
  { apply (uses_pos _ _ (proj1 user_range_aligned) (proj2 user_range_aligned)). exists va'.
    split; [done |]. split; [done |]. unfold set_pte. by destruct (Z.eqb_spec va' va); [congruence |]. }
  rewrite Hc in Hpos; [lia |]. intros v2 _ _ Hn. unfold set_pte. by destruct (Z.eqb_spec v2 va).
Qed.

(** A frame with one owner is the page's own. *)
Lemma held_alone o T s va : pages_ok o T s -> solvent o -> user_page va -> has_frame (pte s va) = true ->
  hold s (frame_of (pte s va)) = 1 -> alone o (pte s) va (frame_of (pte s va)).
Proof.
  intros Hok Hsol Hva Hf H1. destruct (page_frame o T s va Hok Hva Hf) as (Hc & H0 & _).
  pose proof (frame_of_aligned (pte s va)) as Hm. specialize (Hsol _ H0 Hm).
  pose proof (po_ledger _ _ _ Hok _ H0 Hm) as L. pose proof (pend_nonneg (pending (vm s)) (frame_of (pte s va))).
  split; [destruct (decide _); lia |]. intros va' Hva' E. destruct (Z.eq_dec va' va) as [| Hne]; [done |].
  pose proof (count_two s _ va va' Hva Hva' ltac:(congruence) eq_refl E H0). destruct (decide _); lia.
Qed.

(** A frame without owners is no page's. *)
Lemma free_no_page o T s f : pages_ok o T s -> solvent o -> f <> 0 -> f mod PAGE_SIZE = 0 -> hold s f = 0 ->
  o f = 0 /\ forall va, user_page va -> frame_of (pte s va) <> f.
Proof.
  intros Hok Hsol Hf Hm H0. destruct (ledger_empty o T s f Hok Hsol Hf Hm H0) as (Ho & Hc & _).
  split; [done |]. intros va Hva E.
  assert (0 < count s f) by (apply count_pos; eauto). lia.
Qed.
End frames.
