(* ===== verification/VmFault.v ===== *)
(** * Page faults, and writing into an address space

    A fault on a permitted access ends with an entry that allows the access; a
    fault, successful or not, leaves the contents of every page as they were:
    what a page without a frame will hold is zeros, and a frame that is copied
    keeps its contents. *)

From Stdlib Require Import ZArith Lia Bool.
From stdpp Require Import base list option gmap.
From S2P Require Import Prelude Mmu Frames PageTable PageTableFacts StateMonad Rbtree RbtreeFacts RbtreeRemove VmArea VmAreaFacts Vm VmPages VmPageOps VmOps VmProtect VmCow.
Open Scope Z_scope.
Open Scope prog_scope.

Section fault.
Context {A : Type} `{!Frames A, !FramesOk A}.
Implicit Types (s : state A) (o : Z -> Z) (T : gset Z) (ls : alist).

(** What a page holds. *)
Definition content s (va : Z) : option (list Z) :=
  if has_frame (pte s va) then mm s !! frame_of (pte s va) else Some zero_frame.

(** Room is kept when entries only went away, or are new with a fresh frame. *)
Lemma light_ledger o T T' s s' : pages_ok o T s -> pages_ok o T' s' -> solvent o ->
  pending (vm s') = pending (vm s) -> light s ->
  (forall f, f <> 0 -> f mod PAGE_SIZE = 0 -> count s' f <= count s f \/ (hold s f = 0 /\ count s' f <= 1)) ->
  light s'.
Proof.
  intros Hok Hok' Hsol Hpe Hl Hc f Hf Hm. specialize (Hl f Hf Hm). specialize (Hc f Hf Hm).
  pose proof (po_ledger _ _ _ Hok f Hf Hm) as L. pose proof (po_ledger _ _ _ Hok' f Hf Hm) as L'. rewrite Hpe in L'.
  specialize (Hsol f Hf Hm). pose proof (count_nonneg s f). pose proof (count_nonneg s' f).
  pose proof (pend_nonneg (pending (vm s)) f).
  destruct (decide (f ∈ T')) as [HfT | HfT].
  - pose proof (po_excl _ _ _ Hok' f HfT).
    assert (count s' f + pend (pending (vm s)) f = 0) as E; [| lia].
    destruct (Z.eq_dec (count s' f + pend (pending (vm s)) f) 0) as [? | ?]; [done |].
    destruct (table_not_data o T' s' f Hok' Hf); [rewrite Hpe; lia | done].
  - destruct (decide (f ∈ T)); destruct Hc as [Hc | [Hz Hc]]; lia.
Qed.

Lemma set_pte_count s s' va v f : user_page va ->
  (forall va', user_page va' -> pte s' va' = set_pte (pte s) va v va') ->
  count s' f = count s f + (if frame_of v =? f then 1 else 0) - (if frame_of (pte s va) =? f then 1 else 0).
Proof.
  intros [Hva Ha] Hp. unfold count. rewrite (uses_update _ _ (proj1 user_range_aligned)
    (proj2 user_range_aligned) (pte s) (pte s') f va); [| done | done |].
  - rewrite Hp by done. unfold set_pte. by rewrite Z.eqb_refl.
  - intros va' Ha' Hr Hne. rewrite Hp by done. unfold set_pte. by destruct (Z.eqb_spec va' va).
Qed.

(** One entry changed, to one with a fresh frame or the frame it had. *)
Lemma light_set_pte o T T' s s' va v : pages_ok o T s -> pages_ok o T' s' -> solvent o ->
  pending (vm s') = pending (vm s) -> light s -> user_page va ->
  (forall va', user_page va' -> pte s' va' = set_pte (pte s) va v va') ->
  frame_of v = frame_of (pte s va) \/ hold s (frame_of v) = 0 -> light s'.
Proof.
  intros Hok Hok' Hsol Hpe Hl Hva Hp Hv. apply (light_ledger o T T' s s'); try done.
  intros f Hf Hm. rewrite (set_pte_count s s' va v f Hva Hp).
  destruct Hv as [-> | H0]; [left; lia |]. destruct (Z.eqb_spec (frame_of v) f) as [<- | ?].
  - right. split; [done |]. destruct (ledger_empty o T s _ Hok Hsol Hf Hm H0) as (_ & -> & _).
    destruct (frame_of (pte s va) =? frame_of v); lia.
  - left. destruct (frame_of (pte s va) =? f); lia.
Qed.

(** A step that keeps the other entries and the contents of one page keeps the
    contents of all pages. *)
Lemma content_step o T s s' va : pages_ok o T s -> solvent o -> user_page va -> calm T s s' ->
  (forall va', user_page va' -> va' <> va -> pte s' va' = pte s va') ->
  content s' va = content s va -> forall va', user_page va' -> content s' va' = content s va'.
Proof.
  intros Hok Hsol Hva Hcalm Hp Hc va' Hva'. destruct (Z.eq_dec va' va) as [-> | Hne]; [done |].
  unfold content. rewrite (Hp va' Hva' Hne). destruct (has_frame (pte s va')) eqn:Hf; [| done].
  destruct (page_frame o T s va' Hok Hva' Hf) as (Hcnt & H0 & _).
  apply Hcalm; [apply frame_of_aligned | by apply (page_held o T) |].
  apply (table_not_data o T s _ Hok H0). pose proof (pend_nonneg (pending (vm s)) (frame_of (pte s va'))). lia.
Qed.

Lemma agree_set_pte s s' ls va v : agree (pte s) ls ->
  (forall va', user_page va' -> pte s' va' = set_pte (pte s) va v va') ->
  (has_frame v = true -> allowed v (view ls va)) -> agree (pte s') ls.
Proof.
  intros Ha Hp Hv va' Hva'. rewrite Hp by done. unfold set_pte.
  destruct (Z.eqb_spec va' va) as [-> | ?]; [done | by apply Ha].
Qed.

(** ** The steps of a fault *)

(** The space is well formed and its pages hold what they held. *)
Definition transparent o s ls s' : Prop :=
  (exists T', space_inv o T' s' ls) /\ light s' /\ tame o s s' /\ vm s' = vm s /\
  (forall va, user_page va -> content s' va = content s va) /\
  (cow_safe o (pte s) ls -> cow_safe o (pte s') ls).

(** No other page has a new entry. *)
Definition only_page va s s' : Prop := forall va', user_page va' -> va' <> va -> pte s' va' = pte s va'.

Lemma only_page_trans va s1 s2 s3 : only_page va s1 s2 -> only_page va s2 s3 -> only_page va s1 s3.
Proof. intros H1 H2 va' Hva' Hne. by rewrite H2, H1. Qed.

Lemma only_page_set va v s s' : (forall va', user_page va' -> pte s' va' = set_pte (pte s) va v va') ->
  only_page va s s'.
Proof. intros Hp va' Hva' Hne. rewrite Hp by done. unfold set_pte. by destruct (Z.eqb_spec va' va). Qed.

Lemma transparent_refl o T s ls : space_inv o T s ls -> light s -> transparent o s ls s.
Proof. intros H Hl. split; [by exists T |]. split; [done |]. split; [apply tame_refl | done]. Qed.

Lemma transparent_trans o s1 s2 s3 ls : transparent o s1 ls s2 -> transparent o s2 ls s3 -> transparent o s1 ls s3.
Proof.
  intros (_ & _ & T1 & V1 & C1 & S1) (H2 & L2 & T2 & V2 & C2 & S2). split; [done |]. split; [done |].
  split; [by eapply tame_trans |]. split; [congruence |]. split; [| auto]. intros va Hva. by rewrite C2, C1.
Qed.

Lemma space_vm o T T' s s' ls : space_inv o T s ls -> pages_ok o T' s' -> vm s' = vm s ->
  agree (pte s') ls -> space_inv o T' s' ls.
Proof. intros [_ Hs _ Hb] Hok Hv Ha. constructor; [done | by rewrite Hv | done | by rewrite Hv]. Qed.

(** Flags made from a protection give no more rights than it. *)
Lemma new_pte_rights p prot : frame_ok p -> rights (Z.lor p (pte_flags prot)) prot.
Proof.
  intros Hp. unfold rights. rewrite !new_pte_bits by done. unfold pte_flags.
  destruct (Z.eqb_spec prot VM_NONE) as [-> | Hn]; [done |]. split; [| done].
  by destruct (Z.eqb_spec (Z.land prot VM_WRITE) 0).
Qed.

Lemma cow_safe_fresh o T s s' ls va page prot : pages_ok o T s -> solvent o ->
  frame_ok page -> hold s page = 0 ->
  (forall va', user_page va' -> pte s' va' = set_pte (pte s) va (Z.lor page (pte_flags prot)) va') ->
  cow_safe o (pte s) ls -> cow_safe o (pte s') ls.
Proof.
  intros Hok Hsol Hpg H0 Hp Hcs.
  destruct (free_no_page o T s page Hok Hsol (frame_nonzero _ Hpg) (proj2 Hpg) H0) as [Ho Hn].
  apply (cow_safe_set o (pte s) ls (pte s') va (Z.lor page (pte_flags prot))); try done.
  - by apply has_frame_new.
  - by rewrite new_pte.
  - intros va' Hva' _. rewrite new_pte by done. by apply Hn.
  - rewrite new_pte_bits by done. unfold pte_flags. by destruct (prot =? VM_NONE), (negb (Z.land prot VM_WRITE =? 0)).
Qed.

Lemma cow_safe_unshared o T s s' ls va : pages_ok o T s' -> solvent o -> user_page va -> unshared va s s' ->
  cow_safe o (pte s) ls -> cow_safe o (pte s') ls.
Proof.
  intros Hok Hsol Hva Hun Hcs.
  destruct (held_alone o T s' va Hok Hsol Hva (un_frame _ _ _ Hun) (un_alone _ _ _ Hun)) as [Ho Hu].
  apply (cow_safe_set o (pte s) ls (pte s') va (pte s' va)); try done; [apply Hun | | |].
  - intros va' Hva'. unfold set_pte. destruct (Z.eqb_spec va' va) as [-> | ?]; [done | by apply Hun].
  - intros va' Hva' Hne E. apply Hne, Hu; [done |]. by rewrite (un_other _ _ _ Hun).
  - by rewrite (un_cow _ _ _ Hun).
Qed.

Lemma cow_safe_prot o e ls e' va prot : cow_safe o e ls ->
  (forall va', user_page va' -> e' va' = set_pte e va (pte_with_prot (e va) prot) va') -> cow_safe o e' ls.
Proof.
  intros Hcs Hp. apply (cow_safe_less o e ls); [done |]. intros va' Hva' Hf. rewrite Hp in * by done.
  unfold set_pte in *. destruct (Z.eqb_spec va' va) as [-> | ?].
  - rewrite frame_of_prot, prot_cow. split_and!; try done. intros Hc. apply prot_cow_read. by rewrite prot_cow.
  - split_and!; try done. intros. by apply (cs_read _ _ _ Hcs).
Qed.

Lemma frame_for_step o T s ls va v : space_inv o T s ls -> solvent o -> light s -> user_page va ->
  view ls va = Some v ->
  wp (frame_for va (prot_of v)) (fun r s' => transparent o s ls s' /\ only_page va s s' /\
    cost 4 (got r) (fr s) (fr s') /\ forall p, r = Some p -> entry s' va p /\ has_frame (pte s' va) = true) s.
Proof.
  intros Hinv Hsol Hl Hva Hv. pose proof (si_pages _ _ _ _ Hinv) as Hok.
  eapply wp_mono; [by apply (frame_for_spec o T) |].
  intros r s' (T' & Hok' & Ht & Hvm & Hg & Hcost & _ & Hcalm & Hh).
  destruct r as [p |]; [destruct Hg as [He [[Hf ->] | (Hf & page & Hpg & H0 & Hz & Hp)]] | destruct Hg as [Hf Hp]].
  - split; [by eapply transparent_refl |]. split; [by intros ? |]. split; [done |]. by intros p' [= <-].
  - assert (pte s' va = Z.lor page (pte_flags (prot_of v))) as E
      by (rewrite Hp by done; unfold set_pte; by rewrite Z.eqb_refl).
    split; [| split; [by eapply only_page_set |]; split; [done |]; intros p' [= <-]; split; [done |]; rewrite E; by apply has_frame_new].
    split; [exists T'; apply (space_vm o T T' s); try done |].
    { eapply agree_set_pte; [apply Hinv | exact Hp |]. intros _. rewrite Hv. by apply new_pte_rights. }
    split; [apply (light_set_pte o T T' s s' va (Z.lor page (pte_flags (prot_of v)))); try done;
            [by rewrite Hvm | right; by rewrite new_pte] |].
    split; [done |]. split; [done |]. split; [apply (content_step o T s s' va); try done |].
    + intros va' Hva' Hne. rewrite Hp by done. unfold set_pte. by destruct (Z.eqb_spec va' va).
    + unfold content. rewrite Hf, E, has_frame_new, new_pte by done. done.
    + by apply (cow_safe_fresh o T s s' ls va page (prot_of v)).
  - split; [| split; [intros va' _ _; apply Hp | by split]]. split; [exists T'; apply (space_vm o T T' s); try done |].
    { intros va' Hva'. rewrite Hp. by apply Hinv. }
    split; [apply (light_ledger o T T' s s'); try done; [by rewrite Hvm |] |].
    { intros f Hf0 Hm. left. rewrite (count_ext s s'); [lia |]. intros va' _. by rewrite Hp. }
    split; [done |]. split; [done |]. split; [| intros Hcs; by apply (cow_safe_ext o (pte s) ls)].
    apply (content_step o T s s' va); try done. unfold content. by rewrite Hp, Hf.
Qed.

Lemma light_unshared o T s s' va : pages_ok o T s -> pages_ok o T s' -> solvent o ->
  pending (vm s') = pending (vm s) -> light s -> user_page va -> unshared va s s' -> light s'.
Proof.
  intros Hok Hok' Hsol Hpe Hl Hva [Hf _ _ Halone _ Hoth] f Hf0 Hm.
  assert (forall va', user_page va' -> pte s' va' = set_pte (pte s) va (pte s' va) va') as Hp.
  { intros va' Hva'. unfold set_pte. destruct (Z.eqb_spec va' va) as [-> | ?]; [done | by apply Hoth]. }
  destruct (Z.eq_dec f (frame_of (pte s' va))) as [-> | Hne].
  - pose proof (po_ledger _ _ _ Hok' _ Hf0 Hm) as L. specialize (Hsol _ Hf0 Hm).
    pose proof (pend_nonneg (pending (vm s')) (frame_of (pte s' va))).
    destruct (decide (frame_of (pte s' va) ∈ T)); lia.
  - specialize (Hl f Hf0 Hm). pose proof (po_ledger _ _ _ Hok f Hf0 Hm) as L.
    pose proof (po_ledger _ _ _ Hok' f Hf0 Hm) as L'. rewrite Hpe in L'.
    pose proof (set_pte_count s s' va _ f Hva Hp) as Hc.
    destruct (Z.eqb_spec (frame_of (pte s' va)) f); [congruence |]. destruct (frame_of (pte s va) =? f); lia.
Qed.

Lemma bit_same e e' m (P : Prop) : Z.land e' m = Z.land e m -> (Z.land e m <> 0 -> P) -> Z.land e' m <> 0 -> P.
Proof. by intros ->. Qed.

Lemma cow_step o T s ls va p : space_inv o T s ls -> solvent o -> light s -> user_page va ->
  entry s va p -> has_frame (pte s va) = true ->
  wp (cow_break va p) (fun ok s' => transparent o s ls s' /\ only_page va s s' /\ entry s' va p /\ has_frame (pte s' va) = true /\
    cost 1 ok (fr s) (fr s') /\ (ok = true -> Z.land (pte s' va) PTE_COW = 0 /\ hold s' (frame_of (pte s' va)) = 1)) s.
Proof.
  intros Hinv Hsol Hl Hva He Hf. pose proof (si_pages _ _ _ _ Hinv) as Hok.
  eapply wp_mono; [by apply (cow_break_spec o T) |].
  intros ok s' (Hok' & Ht & Hvm & He' & Hcalm & Hcost & [[-> Hun] | [-> Hp]]).
  - split; [| split; [exact (un_other _ _ _ Hun) |]; split; [done |]; split; [apply Hun |]; split; [done | intros _; split; apply Hun]].
    split; [exists T; apply (space_vm o T T s); try done |].
    { intros va' Hva' Hf'. destruct (Z.eq_dec va' va) as [-> | Hne].
      - pose proof (si_agree _ _ _ _ Hinv va Hva Hf) as Hal. destruct (view ls va) as [v |]; [| done].
        destruct Hal as [Hw Hpr]. split; eapply bit_same; try eassumption; by apply (un_bits _ _ _ Hun).
      - rewrite (un_other _ _ _ Hun va' Hva' Hne) in *. by apply (si_agree _ _ _ _ Hinv). }
    split; [apply (light_unshared o T s s' va); try done; by rewrite Hvm |]. split; [done |]. split; [done |].
    split; [| by apply (cow_safe_unshared o T s s' ls va)].
    apply (content_step o T s s' va); try done; [apply Hun |].
    unfold content. rewrite Hf, (un_frame _ _ _ Hun). apply Hun.
  - split; [| split; [intros va' _ _; apply Hp |]; split; [done |]; split; [by rewrite Hp | by split]].
    split; [exists T; apply (space_vm o T T s); try done |].
    { intros va' Hva'. rewrite Hp. by apply (si_agree _ _ _ _ Hinv). }
    split; [apply (light_ledger o T T s s'); try done; [by rewrite Hvm |] |].
    { intros f Hf0 Hm. left. rewrite (count_ext s s'); [lia |]. intros va' _. by rewrite Hp. }
    split; [done |]. split; [done |]. split; [| intros Hcs; by apply (cow_safe_ext o (pte s) ls)].
    apply (content_step o T s s' va); try done.
    unfold content. rewrite Hp, Hf. destruct (page_frame o T s va Hok Hva Hf) as (Hcnt & H0 & _).
    apply Hcalm; [apply frame_of_aligned | by apply (page_held o T) |].
    apply (table_not_data o T s _ Hok H0). pose proof (pend_nonneg (pending (vm s)) (frame_of (pte s va))). lia.
Qed.

Lemma prot_step o T s ls va p v : space_inv o T s ls -> solvent o -> light s -> user_page va ->
  entry s va p -> has_frame (pte s va) = true -> view ls va = Some v ->
  wp (store p (pte_with_prot (pte s va) (prot_of v))) (fun _ s' => transparent o s ls s' /\
    only_page va s s' /\ fr s' = fr s /\ pte s' va = pte_with_prot (pte s va) (prot_of v)) s.
Proof.
  intros Hinv Hsol Hl Hva He Hf Hv. pose proof (si_pages _ _ _ _ Hinv) as Hok.
  eapply wp_mono; [eapply wp_also; [apply (store_spec o T s va p _ Hok Hva He) | apply store_fr] |].
  { intros _. rewrite frame_of_prot. split; [apply prot_user | by left]. }
  { rewrite has_frame_prot. congruence. }
  intros [] s' [Hst Hfr]. pose proof (sd_pte _ _ _ _ _ _ Hst) as Hp. pose proof (sd_vm _ _ _ _ _ _ Hst) as Hvm.
  assert (pte s' va = pte_with_prot (pte s va) (prot_of v)) as E
    by (rewrite Hp by done; unfold set_pte; by rewrite Z.eqb_refl).
  assert (pages_ok o T s') as Hok'.
  { eapply pages_ok_ext; [apply (sd_ok _ _ _ _ _ _ Hst) |]. apply swap_same. by rewrite frame_of_prot. }
  split; [| split; [by eapply only_page_set | by split]]. split; [exists T; apply (space_vm o T T s); try done |].
  { eapply agree_set_pte; [apply Hinv | exact Hp |]. intros _. rewrite Hv. apply prot_rights. }
  split; [apply (light_set_pte o T T s s' va (pte_with_prot (pte s va) (prot_of v))); try done;
    [by rewrite Hvm | left; by rewrite frame_of_prot] |].
  split; [exact (tame_stored _ _ _ _ _ _ _ _ Hok Hst) |]. split; [done |].
  assert (calm T s s') as Hcalm by (intros q _ _; apply (sd_mem _ _ _ _ _ _ Hst)).
  split; [apply (content_step o T s s' va); try done |].
  - intros va' Hva' Hne. rewrite Hp by done. unfold set_pte. by destruct (Z.eqb_spec va' va).
  - unfold content. rewrite E, has_frame_prot, frame_of_prot, Hf.
    destruct (page_frame o T s va Hok Hva Hf) as (Hcnt & H0 & _).
    apply Hcalm; [apply frame_of_aligned | by apply (page_held o T) |].
    apply (table_not_data o T s _ Hok H0). pose proof (pend_nonneg (pending (vm s)) (frame_of (pte s va))). lia.
  - intros Hcs. by apply (cow_safe_prot o (pte s) ls (pte s') va (prot_of v)).
Qed.

Definition page_of (addr : Z) : Z := addr / PAGE_SIZE * PAGE_SIZE.

(** An area covers the whole page of an address in it. *)
Lemma covers_page r addr : area_wf r -> covers r addr ->
  user_page (page_of addr) /\ covers r (page_of addr) /\ is_u 64 addr.
Proof.
  intros [Hs He Ho Hl Hh] [H1 H2]. unfold page_of, user_page, user_va, covers, aligned, is_u in *.
  rewrite Z.mod_mul by (unfold PAGE_SIZE; lia).
  unfold USER_ADDR_MIN, USER_ADDR_LIMIT, PAGE_SIZE in *. pose proof (Z.div_mod addr 4096). pose proof (Z.mod_pos_bound addr 4096).
  pose proof (Z.div_mod (va_start r) 4096). pose proof (Z.div_mod (va_end r) 4096).
  assert (va_start r / 4096 <= addr / 4096) by (apply Z.div_le_mono; lia). lia.
Qed.

(** The access is permitted by the area and allowed by the entry. *)
Definition accessible s ls (addr : Z) (write : bool) : Prop :=
  exists v, view ls addr = Some v /\ Z.land (prot_of v) (if write then VM_WRITE else VM_READ) <> 0 /\
    allows (pte s (page_of addr)) write = true.

Lemma prot_allows e prot (write : bool) : Z.land prot (if write then VM_WRITE else VM_READ) <> 0 ->
  (write = true -> Z.land e PTE_COW = 0) -> allows (pte_with_prot e prot) write = true.
Proof.
  intros Hp Hc. assert (prot <> VM_NONE) as Hn by (intros ->; by destruct write).
  unfold allows. apply (prot_present e), Z.eqb_neq in Hn. rewrite Hn. cbn [negb andb].
  destruct write; [| done]. cbn [negb orb]. pose proof (prot_writable e prot Hp (Hc eq_refl)) as Hw%Z.eqb_neq.
  by rewrite Hw.
Qed.

(** The part of a fault that gives the page its frame and its rights. *)
Lemma fault_page_spec o T s ls va (write : bool) v : space_inv o T s ls -> solvent o -> light s ->
  user_page va -> view ls va = Some v -> Z.land (prot_of v) (if write then VM_WRITE else VM_READ) <> 0 ->
  wp (fault_page va (prot_of v) write) (fun ok s' =>
    transparent o s ls s' /\ only_page va s s' /\ cost 5 ok (fr s) (fr s') /\
    (ok = true -> allows (pte s' va) write = true)) s.
Proof.
  intros Hinv Hsol Hl Hva Hv Hpr. unfold fault_page. apply wp_bind. eapply wp_mono; [by apply (frame_for_step o T s ls va v) |].
  intros r s1 (Ht1 & Ho1 & Hc1 & Hr). pose proof Ht1 as ((T1 & Hinv1) & Hl1 & _). cbn beta.
  destruct r as [p |]; cbn [got] in Hc1; [| apply wp_ret; split_and!; try done; by apply (cost_weaken 4)]. destruct (Hr p eq_refl) as [He1 Hf1].
  apply wp_bind. apply (load_spec o T1 s1 va); [apply Hinv1 | done |].
  assert (wp (if write && negb (Z.land (pte s1 va) PTE_COW =? 0) then cow_break va p else ret true)
    (fun ok s2 => transparent o s1 ls s2 /\ only_page va s1 s2 /\ entry s2 va p /\ has_frame (pte s2 va) = true /\
       cost 1 ok (fr s1) (fr s2) /\ (ok = true -> write = true -> Z.land (pte s2 va) PTE_COW = 0)) s1) as Hcow.
  { destruct (write && negb (Z.land (pte s1 va) PTE_COW =? 0)) eqn:E.
    - eapply wp_mono; [by apply (cow_step o T1 s1 ls va p) |]. intros ok s2 (Ht & Ho & He & Hf & Hco & Hc).
      split_and!; try done. intros Hok _. by apply Hc.
    - apply wp_ret. split; [by eapply transparent_refl |]. split; [by intros ? |]. split_and!; try done; [by apply cost_none |]. intros _ ->.
      cbn [andb] in E. by apply negb_false_iff, Z.eqb_eq in E. }
  apply wp_bind. eapply wp_mono; [exact Hcow |]. intros ok s2 (Ht2 & Ho2 & He2 & Hf2 & Hco2 & Hc2). cbn beta.
  pose proof (cost_trans _ _ _ _ _ _ Hc1 Hco2) as Hc12.
  pose proof (transparent_trans _ _ _ _ _ Ht1 Ht2) as Ht12. pose proof (only_page_trans _ _ _ _ Ho1 Ho2) as Ho12.
  destruct ok; cbn [negb]; [| by apply wp_ret].
  pose proof Ht2 as ((T2 & Hinv2) & Hl2 & _).
  apply wp_bind. apply (load_spec o T2 s2 va); [apply Hinv2 | done |].
  apply wp_bind. eapply wp_mono; [by apply (prot_step o T2 s2 ls va p v) |].
  intros [] s3 (Ht3 & Ho3 & Hf3 & E3). apply wp_ret. split; [by eapply transparent_trans |].
  split; [by eapply only_page_trans |]. split; [by rewrite Hf3 |]. intros _. rewrite E3.
  apply prot_allows; [done |]. intros Hw. by apply Hc2.
Qed.

(** The access is permitted by the area of the address. *)
Definition permits ls (addr : Z) (write : bool) : bool :=
  match view ls addr with
  | Some v => negb (Z.land (prot_of v) (if write then VM_WRITE else VM_READ) =? 0)
  | None => false
  end.

(** A permitted access succeeds if five frames can be had: the page, three
    tables and a copy. *)
Lemma fault_locked_spec o T s ls addr write : space_inv o T s ls -> solvent o -> light s ->
  wp (fault_locked addr write) (fun ok s' => transparent o s ls s' /\ only_page (page_of addr) s s' /\
    (if permits ls addr write then cost 5 ok (fr s) (fr s') else ok = false) /\
    (ok = true -> accessible s' ls addr write)) s.
Proof.
  intros Hinv Hsol Hl. pose proof (si_shape _ _ _ _ Hinv) as Hs. pose proof (sh_areas _ _ Hs) as Hwf.
  assert (transparent o s ls s) as Hrefl by (by eapply transparent_refl).
  unfold fault_locked. apply wp_bind. eapply wp_asks; [by apply vm_find_spec |].
  destruct (area_of_addr ls addr) as [[a r] |] eqn:Ea; cbn [ptr fst].
  2:{ apply wp_bind, wp_ret, wp_ret. split_and!; try done. unfold permits, view. by rewrite Ea. }
  apply area_of_addr_Some in Ea as [Hin Hc]; [| done]. cbn [snd] in Hc.
  pose proof (shape_nonzero _ _ (a, r) Hs Hin) as H0%Z.eqb_neq. simpl in H0. rewrite H0.
  apply wp_bind, wp_bind, (wp_asks _ r); [by apply (sh_recs _ _ Hs) |]. apply wp_ret.
  assert (permits ls addr write = negb (Z.land (va_prot r) (if write then VM_WRITE else VM_READ) =? 0)) as ->
    by (unfold permits; by rewrite (view_in ls (a, r) addr Hwf Hin Hc)).
  destruct (Z.eqb_spec (Z.land (va_prot r) (if write then VM_WRITE else VM_READ)) 0) as [| Hpr]; cbn [negb];
    [apply wp_ret; by split_and! |].
  destruct (covers_page r addr) as (Hva & Hcp & Hu); [by apply (areas_wf_elem ls (a, r)) | done |].
  rewrite land_page_mask by done. fold (page_of addr).
  pose proof (view_in ls (a, r) addr Hwf Hin Hc) as Hv. pose proof (view_in ls (a, r) (page_of addr) Hwf Hin Hcp) as Hvp.
  cbn [snd] in Hv, Hvp. pose proof (si_pages _ _ _ _ Hinv) as Hok.
  assert (forall s', transparent o s ls s' -> allows (pte s' (page_of addr)) write = true ->
    accessible s' ls addr write) as Hacc.
  { intros s' _ Hal. exists (area_view r addr). by split_and!. }
  change (va_prot r) with (prot_of (area_view r (page_of addr))).
  apply wp_bind.
  assert (forall (d : bool), (d = true -> allows (pte s (page_of addr)) write = true) ->
    wp (if d then ret true else fault_page (page_of addr) (prot_of (area_view r (page_of addr))) write)
      (fun ok s' => transparent o s ls s' /\ only_page (page_of addr) s s' /\ cost 5 ok (fr s) (fr s') /\
         (ok = true -> accessible s' ls addr write)) s) as Hrest.
  { intros [|] Hd; [apply wp_ret; split; [done |]; split; [by intros ? |]; split; [by apply cost_none |]; intros _; by apply Hacc; [| apply Hd] |].
    eapply wp_mono; [by apply (fault_page_spec o T s ls (page_of addr) write) |].
    intros ok s' (Ht & Ho & Hcost & Hal). split; [done |]. split; [done |]. split; [done |]. intros Hk. by apply Hacc, Hal. }
  apply (find_pte_spec o T); [done | apply Hva | |].
  { intros _. apply wp_bind, wp_ret. by apply (Hrest false). }
  intros p Hp. apply wp_bind, wp_bind. apply (load_spec o T s (page_of addr)); [done | done |].
  apply wp_ret. by apply (Hrest (allows (pte s (page_of addr)) write)).
Qed.

(** ** Populating a range *)

Lemma accessible_other s s' ls addr va write : only_page va s s' -> user_page (page_of addr) ->
  page_of addr <> va -> accessible s ls addr write -> accessible s' ls addr write.
Proof. intros Ho Hu Hne (v & Hv & Hp & Ha). exists v. by rewrite Ho. Qed.

Lemma page_of_aligned va : aligned va -> page_of va = va.
Proof. intros H. symmetry. by apply page_times. Qed.

Lemma accessible_page s ls addr write : areas_wf ls -> accessible s ls addr write -> user_page (page_of addr).
Proof.
  intros Hwf (v & Hv & _). apply view_Some in Hv as (x & Hx & Hc & _); [| done].
  apply (covers_page x.2); [by apply (areas_wf_elem ls) | done].
Qed.

(** What the area found last tells: it covers the page and permits the access. *)
Definition found ls (a va : Z) (write : bool) : Prop :=
  exists r, (a, r) ∈ ls /\ covers r va /\ Z.land (va_prot r) (if write then VM_WRITE else VM_READ) <> 0.

Lemma touch_page_spec o T s ls a va (write : bool) : space_inv o T s ls -> solvent o -> light s ->
  user_page va -> found ls a va write ->
  wp (touch_page va write) (fun ok s' =>
    transparent o s ls s' /\ only_page va s s' /\ cost 5 ok (fr s) (fr s') /\
    (ok = true -> accessible s' ls va write)) s.
Proof.
  intros Hinv Hsol Hl Hva (r & Hin & Hc & Hpr). pose proof (page_of_aligned va (proj2 Hva)) as Epg.
  pose proof (sh_areas _ _ (si_shape _ _ _ _ Hinv)) as Hwf.
  pose proof (fault_locked_spec o T s ls va write Hinv Hsol Hl) as Hf. rewrite Epg in Hf.
  assert (permits ls va write = true) as Hper.
  { unfold permits. rewrite (view_in ls (a, r) va Hwf Hin Hc). by apply negb_true_iff, Z.eqb_neq. }
  rewrite Hper in Hf.
  unfold touch_page. apply wp_bind. apply (find_pte_spec o T); [apply Hinv | apply Hva | |].
  { intros _. by apply wp_bind, wp_ret. }
  intros p Hp. apply wp_bind, wp_bind. apply (load_spec o T s va); [apply Hinv | done |]. apply wp_ret.
  destruct (allows (pte s va) write) eqn:Hal; [| done]. apply wp_ret.
  split; [by eapply transparent_refl |]. split; [by intros ? |]. split; [by apply cost_none |]. intros _.
  exists (area_view r va). split; [by apply (view_in ls (a, r)) |]. split; [done |]. by rewrite Epg.
Qed.

Lemma permitted_area_spec o T s ls va (write : bool) : space_inv o T s ls ->
  wp (permitted_area va write) (fun a s' => s' = s /\
    ((a = 0 /\ permits ls va write = false) \/ found ls a va write)) s.
Proof.
  intros Hinv. pose proof (si_shape _ _ _ _ Hinv) as Hs. unfold permitted_area.
  apply wp_bind. eapply wp_asks; [by apply vm_find_spec |].
  destruct (area_of_addr ls va) as [[a r] |] eqn:Ea; cbn [ptr fst Z.eqb].
  2:{ apply wp_ret. split; [done |]. left. unfold permits, view. by rewrite Ea. }
  apply area_of_addr_Some in Ea as [Hin Hc]; [| apply (sh_areas _ _ Hs)].
  pose proof (shape_nonzero _ _ (a, r) Hs Hin) as H0%Z.eqb_neq. simpl in H0. rewrite H0.
  apply wp_bind, (wp_asks _ r); [by apply (sh_recs _ _ Hs) |]. apply wp_ret. split; [done |].
  destruct (Z.eqb_spec (Z.land (va_prot r) (if write then VM_WRITE else VM_READ)) 0) as [E |]; [left | right; by exists r].
  split; [done |]. unfold permits. rewrite (view_in ls (a, r) va (sh_areas _ _ Hs) Hin Hc).
  by apply negb_false_iff, Z.eqb_eq.
Qed.

Lemma populate_loop_spec fuel o T s ls start va end_ a (write : bool) : space_inv o T s ls -> solvent o -> light s ->
  aligned start -> aligned va -> USER_ADDR_MIN <= va -> start <= va -> end_ <= USER_ADDR_LIMIT ->
  end_ <= va + Z.of_nat fuel * PAGE_SIZE - PAGE_SIZE -> (0 < fuel)%nat ->
  (a = 0 \/ exists r, (a, r) ∈ ls /\ va_start r <= va /\ Z.land (va_prot r) (if write then VM_WRITE else VM_READ) <> 0) ->
  (forall va', user_page va' -> start <= va' < va -> accessible s ls va' write) ->
  wp (populate_loop fuel va end_ a write) (fun ok s' => transparent o s ls s' /\
    (ok = true -> forall va', user_page va' -> start <= va' < end_ -> accessible s' ls va' write) /\
    ((forall va', user_page va' -> va <= va' < end_ -> permits ls va' write = true) ->
     5 * (Z.of_nat fuel - 1) <= spare (fr s) -> ok = true)) s.
Proof.
  revert T s va a. induction fuel as [| fuel IH]; intros T s va a Hinv Hsol Hl Has Ha Hlo Hst Hhi Hf Hf0 Hfound Hdone; [lia |].
  cbn [populate_loop]. pose proof (si_shape _ _ _ _ Hinv) as Hs.
  destruct (Z.ltb_spec va end_) as [Hlt | Hge]; cbn [negb].
  2:{ apply wp_ret. split; [by eapply transparent_refl |]. split; [| done]. intros _ va' Hva' Hr. apply Hdone; [done | lia]. }
  assert (user_page va) as Hva by (split; [unfold user_va; lia | done]).
  apply wp_bind. assert (wp (if a =? 0 then ret true else let* r := get_area a in ret (va_end r <=? va))
    (fun stale s' => s' = s /\ (stale = false -> found ls a va write)) s) as Hstale.
  { destruct (Z.eqb_spec a 0) as [-> | Hne]; [apply wp_ret; by split |].
    destruct Hfound as [? | (r & Hin & Hr & Hpr)]; [done |].
    apply wp_bind, (wp_asks _ r); [by apply (sh_recs _ _ Hs) |]. apply wp_ret. split; [done |].
    intros Hlt'%Z.leb_gt. exists r. split_and!; try done. }
  eapply wp_mono; [exact Hstale |]. intros stale s1 [-> Hfa]. cbn beta. apply wp_bind.
  assert (wp (if stale : bool then permitted_area va write else ret a)
    (fun a' s' => s' = s /\ ((a' = 0 /\ permits ls va write = false) \/ found ls a' va write)) s) as Harea.
  { destruct stale; [by eapply permitted_area_spec |]. apply wp_ret. split; [done |]. right. by apply Hfa. }
  eapply wp_mono; [exact Harea |]. intros a' s1 [-> Hfa']. cbn beta. clear a Hfound Hfa Hstale Harea stale.
  destruct (Z.eqb_spec a' 0) as [-> | Hne].
  { apply wp_ret. split; [by eapply transparent_refl |]. split; [done |]. intros Hper _.
    destruct Hfa' as [[_ Hno] | (r & Hin & _)]; [rewrite Hper in Hno; (done || lia) |].
    by destruct (shape_nonzero _ _ (0, r) Hs Hin). }
  destruct Hfa' as [[? _] | Hfa']; [done |].
  apply wp_bind. eapply wp_mono; [by apply (touch_page_spec o T s ls a' va write) |].
  intros ok s1 (Ht1 & Ho1 & [Hc1 Hc1'] & Hok1). cbn beta. destruct ok.
  2:{ apply wp_ret. split; [done |]. split; [done |]. intros _ Hsp. specialize (Hc1' eq_refl). unfold PAGE_SIZE in *. lia. }
  pose proof Ht1 as ((T1 & Hinv1) & Hl1 & _).
  rewrite u64_small by (unfold USER_ADDR_MIN, USER_ADDR_LIMIT, PAGE_SIZE in *; lia).
  eapply wp_mono.
  { apply (IH T1 s1 (va + PAGE_SIZE) a'); try done; try (unfold PAGE_SIZE in *; lia).
    - by apply aligned_add.
    - right. destruct Hfa' as (r & Hin & [? ?] & ?). exists r. split_and!; [done | unfold PAGE_SIZE; lia | done].
    - intros va' Hva' Hr. pose proof (page_of_aligned va' (proj2 Hva')) as Epg.
      destruct (Z.eq_dec va' va) as [-> | Hne']; [by apply Hok1 |].
      apply (accessible_other s s1 ls va' va); rewrite ?Epg; try done. apply Hdone; [done |].
      pose proof (aligned_gap va va' Ha (proj2 Hva')). lia. }
  intros ok s2 (Ht2 & Hok2 & Hsp2). split; [by eapply transparent_trans |]. split; [done |].
  intros Hper Hsp. apply Hsp2; [| lia]. intros va' Hva' Hr. apply Hper; [done | unfold PAGE_SIZE in *; lia].
Qed.

(** The pages of a range. *)
Definition page_count (addr len : Z) : Z := (addr + len - page_of addr + PAGE_SIZE - 1) / PAGE_SIZE.


Lemma populate_locked_spec o T s ls addr len (write : bool) : space_inv o T s ls -> solvent o -> light s ->
  is_u 64 addr -> is_u 64 len ->
  wp (populate_locked addr len write) (fun ok s' => transparent o s ls s' /\
    (ok = true -> 0 < len -> forall va, user_page va -> page_of addr <= va < addr + len ->
       accessible s' ls va write) /\
    (user_range addr (addr + len) = true ->
     (forall va, user_page va -> page_of addr <= va < addr + len -> permits ls va write = true) ->
     5 * page_count addr len <= spare (fr s) -> ok = true)) s.
Proof.
  intros Hinv Hsol Hl Hu Hlen. assert (transparent o s ls s) as Hrefl by (by eapply transparent_refl).
  unfold populate_locked. destruct (Z.eqb_spec len 0) as [-> | Hne].
  { apply wp_ret. split; [done |]. split; [lia | done]. }
  destruct ((u64 (addr + len) <? addr) || negb (user_range addr (u64 (addr + len)))) eqn:Hbad.
  { apply wp_ret. split; [done |]. split; [done |]. intros Hur _ _. exfalso.
    pose proof Hur as (H1 & H2 & H3)%user_range_spec. unfold USER_ADDR_LIMIT, is_u in *.
    rewrite u64_small, Hur in Hbad by lia. destruct (Z.ltb_spec (addr + len) addr); (lia || done). }
  apply orb_false_elim in Hbad as [Hge%Z.ltb_ge Hur%negb_false_iff%user_range_spec].
  assert (u64 (addr + len) = addr + len) as E.
  { unfold is_u in *. destruct (Z_lt_ge_dec (addr + len) (2 ^ 64)) as [? | ?]; [apply u64_small; lia |].
    exfalso. assert (u64 (addr + len) = addr + len - 2 ^ 64) as E; [| lia].
    symmetry. apply (Z.mod_unique_pos _ _ 1); lia. }
  rewrite E in *. rewrite land_page_mask by done. fold (page_of addr).
  destruct (page_floor addr) as [[Hva Ha] Hfl]; [unfold user_va; lia |]. fold (page_of addr) in *.
  eapply wp_mono; [apply (populate_loop_spec _ o T s ls (page_of addr)); try done; try lia |].
  - apply Hva.
  - unfold PAGE_SIZE in *. set (n := addr + len - page_of addr + 4096 - 1).
    pose proof (Z.div_mod n 4096). pose proof (Z.mod_pos_bound n 4096). unfold n in *. lia.
  - intros ok s' (Ht & Hok & Hsp). split; [done |]. split; [auto |]. intros _ Hper Hc. apply Hsp; [done |].
    unfold page_count, PAGE_SIZE in *. assert (0 <= (addr + len - page_of addr + 4096 - 1) / 4096) by (apply Z.div_pos; lia). lia.
Qed.
End fault.
