(* ===== verification/VmWrite.v ===== *)
(** * Writing into an address space

    [vm_write] puts bytes at an address: pages get frames, pages copied on
    write get frames of their own, and where the pages are private no other
    page and nobody else sees the bytes. *)

From Stdlib Require Import ZArith Lia Bool.
From stdpp Require Import base list option gmap.
From S2P Require Import Prelude Mmu Bytes Frames PageTable PageTableFacts StateMonad Rbtree RbtreeFacts RbtreeRemove VmArea VmAreaFacts Vm VmPages VmPageOps VmOps VmProtect VmCow VmFault.
Open Scope Z_scope.
Open Scope prog_scope.

(** ** The bytes of a frame *)

Lemma le_bytes_le_val bs : bytes bs -> le_bytes (length bs) (le_val bs) = bs.
Proof.
  induction 1 as [| b bs Hb Hbs IH]; [done |]. cbn [length le_val le_bytes]. unfold is_byte, is_u in Hb.
  change (2 ^ 8) with 256 in Hb. f_equal.
  - rewrite (Z.mul_comm 256), Z.mod_add by lia. apply Z.mod_small. lia.
  - rewrite (Z.mul_comm 256), Z.div_add, (Z.div_small b) by lia. by rewrite Z.add_0_l.
Qed.

Lemma frame_bytes_length ws : length (frame_bytes ws) = (8 * length ws)%nat.
Proof. unfold frame_bytes. induction ws as [| w ws IH]; [done |]. cbn [mbind list_bind length]. rewrite length_app, le_bytes_length. lia. Qed.

Lemma frame_bytes_bytes ws : bytes (frame_bytes ws).
Proof.
  unfold frame_bytes. induction ws as [| w ws IH]; [constructor |]. cbn [mbind list_bind].
  apply Forall_app. split; [apply le_bytes_bytes | done].
Qed.

Lemma frame_words_length n bs : length (frame_words n bs) = n.
Proof. revert bs. induction n as [| n IH]; intros bs; cbn [frame_words length]; auto. Qed.

Lemma frame_bytes_words n bs : bytes bs -> length bs = (8 * n)%nat -> frame_bytes (frame_words n bs) = bs.
Proof.
  revert bs. induction n as [| n IH]; intros bs Hb Hl.
  - destruct bs; [done |]. cbn [length] in Hl. lia.
  - unfold frame_bytes in *. cbn [frame_words mbind list_bind].
    assert (length (take 8 bs) = 8%nat) as H8 by (rewrite length_take; lia).
    rewrite <- (take_drop 8 bs) at 3. f_equal.
    + rewrite <- H8 at 1. apply le_bytes_le_val. by apply Forall_take.
    + apply IH; [by apply Forall_drop |]. rewrite length_drop. lia.
Qed.

(** A byte after a copy of [src] to offset [i]. *)
Lemma splice_lookup {A} (bs bs' src : list A) i k : splice bs i src = Some bs' -> 0 <= k ->
  bs' !! Z.to_nat k = if (i <=? k) && (k <? i + Z.of_nat (length src)) then src !! Z.to_nat (k - i)
                      else bs !! Z.to_nat k.
Proof.
  unfold splice. destruct (Z.leb_spec 0 i) as [Hi |]; [| done]. cbn [andb].
  destruct (Z.leb_spec (i + Z.of_nat (length src)) (Z.of_nat (length bs))) as [Hl |]; [| done].
  intros [= <-] Hk. assert (length (take (Z.to_nat i) bs) = Z.to_nat i) as Ht by (rewrite length_take; lia).
  destruct (Z.leb_spec i k) as [Hik | Hik]; cbn [andb].
  - rewrite lookup_app_r by lia. rewrite Ht. destruct (Z.ltb_spec k (i + Z.of_nat (length src))).
    + rewrite lookup_app_l by lia. f_equal. lia.
    + rewrite lookup_app_r by lia. rewrite lookup_drop. f_equal. lia.
  - rewrite lookup_app_l by lia. apply lookup_take_lt. lia.
Qed.

(** Byte [i] of a source; a null source is zeros. *)
Definition src_byte (src : option (list Z)) (i : Z) : Z :=
  match src with Some bs => default 0 (bs !! Z.to_nat i) | None => 0 end.

Definition src_ok (src : option (list Z)) (len : Z) : Prop :=
  match src with Some bs => bytes bs /\ len <= Z.of_nat (length bs) | None => True end.

Lemma src_ok_drop src n len : 0 <= n -> src_ok src (n + len) -> src_ok (drop (Z.to_nat n) <$> src) len.
Proof.
  destruct src as [bs |]; [| done]. cbn. intros Hn [Hb Hl]. split; [by apply Forall_drop |].
  rewrite length_drop. lia.
Qed.

Lemma src_byte_drop src n i : 0 <= n -> 0 <= i -> src_byte (drop (Z.to_nat n) <$> src) i = src_byte src (n + i).
Proof. destruct src as [bs |]; [| done]. cbn. intros Hn Hi. rewrite lookup_drop. by rewrite Z2Nat.inj_add. Qed.

Section write.
Context {A : Type} `{!Frames A, !FramesOk A}.
Implicit Types (s : state A) (o : Z -> Z) (T : gset Z) (ls : alist).

(** The byte that a process reads at an address. *)
Definition byte_at s (addr : Z) : option Z :=
  ws ← content s (page_of addr); frame_bytes ws !! Z.to_nat (addr - page_of addr).

(** ** One page *)

(** What a step of a write keeps: all but the contents. *)
Definition intact o s ls s' : Prop :=
  (exists T', space_inv o T' s' ls) /\ light s' /\ vm s' = vm s /\
  kernel_pml4 (machine (ker s')) = kernel_pml4 (machine (ker s)) /\
  (cow_safe o (pte s) ls -> cow_safe o (pte s') ls).

Lemma transparent_intact o s ls s' : transparent o s ls s' -> intact o s ls s'.
Proof. intros (Hi & Hl & [[_ Hk] _] & Hv & _ & Hc). by split_and!. Qed.

Lemma intact_trans o s1 s2 s3 ls : intact o s1 ls s2 -> intact o s2 ls s3 -> intact o s1 ls s3.
Proof.
  intros (_ & _ & V1 & K1 & C1) (I2 & L2 & V2 & K2 & C2). split_and!; try done; [congruence.. | auto].
Qed.

(** The page has a frame of its own, or is not private. *)
Definition owned_page o s ls va : Prop := private (view ls va) = true -> cow_safe o (pte s) ls ->
  alone o (pte s) va (frame_of (pte s va)).

Lemma frame_to_write_spec o T s ls va v : space_inv o T s ls -> solvent o -> light s -> user_page va ->
  view ls va = Some v ->
  wp (frame_to_write va (prot_of v)) (fun r s' => transparent o s ls s' /\ cost 5 (got r) (fr s) (fr s') /\
    forall f, r = Some f -> has_frame (pte s' va) = true /\ f = frame_of (pte s' va) /\ owned_page o s' ls va) s.
Proof.
  intros Hinv Hsol Hl Hva Hv. unfold frame_to_write. apply wp_bind.
  eapply wp_mono; [by apply (frame_for_step o T s ls va v) |].
  intros r s1 (Ht1 & _ & Hc1 & Hr). pose proof Ht1 as ((T1 & Hinv1) & Hl1 & _). cbn beta.
  destruct r as [p |]; cbn [got] in Hc1; [| apply wp_ret; split_and!; try done; by apply (cost_weaken 4)].
  destruct (Hr p eq_refl) as [He1 Hf1]. apply wp_bind. apply (load_spec o T1 s1 va); [apply Hinv1 | done |].
  apply wp_bind. destruct (Z.eqb_spec (Z.land (pte s1 va) PTE_COW) 0) as [E | E]; cbn [negb].
  - apply wp_ret. apply wp_bind. apply (load_spec o T1 s1 va); [apply Hinv1 | done |]. apply wp_ret.
    split; [done |]. split; [by apply (cost_weaken 4) |]. intros f [= <-]. split_and!; try done.
    intros Hp Hcs. by apply (cs_alone _ _ _ Hcs).
  - eapply wp_mono; [by apply (cow_step o T1 s1 ls va p) |]. intros ok s2 (Ht2 & _ & He2 & Hf2 & Hc2 & Hown).
    pose proof Ht2 as ((T2 & Hinv2) & _). pose proof (cost_trans _ _ _ _ _ _ Hc1 Hc2) as Hc.
    destruct ok; cbn [negb]; [| apply wp_ret; split_and!; try done; by eapply transparent_trans].
    apply wp_bind. apply (load_spec o T2 s2 va); [apply Hinv2 | done |]. apply wp_ret.
    split; [by eapply transparent_trans |]. split; [done |]. intros f [= <-]. split_and!; try done.
    intros _ _. destruct (Hown eq_refl) as [_ H1]. apply (held_alone o T2 s2 va); try done. apply Hinv2.
Qed.

(** The frame [f] has new contents. *)
Lemma fill_frame_spec o T s ls va ws : space_inv o T s ls -> light s -> user_page va ->
  has_frame (pte s va) = true -> length ws = 512%nat ->
  wp (set_frame (frame_of (pte s va)) ws) (fun _ s' => intact o s ls s' /\ fr s' = fr s /\
    mm s' = <[frame_of (pte s va) := ws]> (mm s) /\ forall va', pte s' va' = pte s va') s.
Proof.
  intros Hinv Hl Hva Hf Hlen. pose proof (si_pages _ _ _ _ Hinv) as Hok.
  destruct (page_frame o T s va Hok Hva Hf) as (_ & _ & [Hnt _]).
  eapply wp_mono; [eapply wp_also; [by apply (set_frame_spec o T) | apply set_frame_fr] |].
  intros [] s' [(Hok' & Hv & Hm & Hp & Hh & Hpt & _) Hfr]. split; [| done]. split_and!; try done.
  - exists T. apply (space_vm o T T s); try done. intros va' Hva'. rewrite Hpt. by apply Hinv.
  - intros f Hf0 Hmod. rewrite Hh, (count_ext s s') by (intros; by rewrite Hpt). by apply Hl.
  - apply Hp.
  - intros Hc. by apply (cow_safe_ext o (pte s) ls).
Qed.

(** Bytes [off .. off + n - 1] of page [va] come from [src]. *)
Definition page_written (va off n : Z) (src : option (list Z)) s s' : Prop :=
  forall i, 0 <= i < PAGE_SIZE -> byte_at s' (va + i) =
    if (off <=? i) && (i <? off + n) then Some (src_byte src (i - off)) else byte_at s (va + i).

Lemma page_of_off va i : aligned va -> 0 <= i < PAGE_SIZE -> page_of (va + i) = va.
Proof.
  intros Ha Hi. unfold page_of. rewrite (page_times va Ha) at 1. rewrite Z.add_comm, Z.div_add, Z.div_small by (done || unfold PAGE_SIZE; lia).
  by rewrite Z.add_0_l, <- page_times.
Qed.

Lemma byte_at_page s va i : aligned va -> 0 <= i < PAGE_SIZE ->
  byte_at s (va + i) = ws ← content s va; frame_bytes ws !! Z.to_nat i.
Proof. intros Ha Hi. unfold byte_at. rewrite page_of_off by done. by rewrite Z.add_simpl_l. Qed.

(** The bytes that are copied. *)
Lemma src_data src n : 0 <= n -> src_ok src n ->
  exists data, match src with Some bs => slice bs 0 n | None => Some (replicate (Z.to_nat n) 0) end = Some data /\
    bytes data /\ Z.of_nat (length data) = n /\ forall i, 0 <= i < n -> data !! Z.to_nat i = Some (src_byte src i).
Proof.
  intros Hn Hok. destruct src as [bs |].
  - destruct Hok as [Hb Hl]. exists (take (Z.to_nat n) bs). rewrite slice_Some by lia. split; [done |].
    split; [by apply Forall_take |]. split; [rewrite length_take; lia |]. intros i Hi.
    rewrite lookup_take_lt by lia. cbn. destruct (lookup_lt_is_Some_2 bs (Z.to_nat i)) as [b Eb]; [lia |]. by rewrite Eb.
  - exists (replicate (Z.to_nat n) 0). split; [done |]. split; [by apply Forall_replicate |].
    rewrite length_replicate. split; [lia |]. intros i Hi. apply lookup_replicate_2. lia.
Qed.

Lemma copy_in_spec o T s ls va off n src : space_inv o T s ls -> light s -> user_page va ->
  has_frame (pte s va) = true -> 0 <= off -> 0 <= n -> off + n <= PAGE_SIZE -> src_ok src n ->
  wp (copy_in (frame_of (pte s va)) off n src) (fun _ s' => intact o s ls s' /\ fr s' = fr s /\
    page_written va off n src s s' /\
    (alone o (pte s) va (frame_of (pte s va)) -> tame o s s' /\
       forall va', user_page va' -> va' <> va -> content s' va' = content s va')) s.
Proof.
  intros Hinv Hl Hva Hf Hoff Hn Hon Hsrc. pose proof (si_pages _ _ _ _ Hinv) as Hok.
  destruct (page_frame o T s va Hok Hva Hf) as (_ & H0 & [_ Hit]).
  unfold copy_in. apply wp_bind. apply get_frame_spec; [done |]. intros ws Hws Hlen.
  destruct (src_data src n Hn Hsrc) as (data & Hd & Hdb & Hdl & Hdi).
  assert (exists bs, splice (frame_bytes ws) off data = Some bs) as [bs Hbs].
  { eexists. apply splice_Some; [done |]. rewrite frame_bytes_length, Hlen. unfold PAGE_SIZE in *. lia. }
  apply wp_bind. eapply wp_asks; [rewrite Hd; exact Hbs |].
  eapply wp_mono; [apply (fill_frame_spec o T s ls va); try done; apply frame_words_length |].
  intros [] s' (Hin & Hfr & Hm & Hpt). split; [done |]. split; [done |].
  assert (frame_bytes (frame_words 512 bs) = bs) as Ebs.
  { apply frame_bytes_words; [| rewrite (splice_length _ _ _ _ Hbs), frame_bytes_length; lia].
    unfold splice in Hbs. destruct (_ && _); [| done]. injection Hbs as <-.
    apply Forall_app. split; [apply Forall_take, frame_bytes_bytes |].
    apply Forall_app. split; [done | apply Forall_drop, frame_bytes_bytes]. }
  split.
  - intros i Hi. rewrite !byte_at_page by (done || apply Hva). unfold content. rewrite Hpt, Hf, Hm, lookup_insert_eq, Hws.
    cbn [mbind option_bind]. rewrite Ebs, (splice_lookup _ _ _ _ _ Hbs) by lia. rewrite Hdl.
    destruct (Z.leb_spec off i), (Z.ltb_spec i (off + n)); cbn [andb]; try done. apply Hdi. lia.
  - intros [Ho Hal]. split.
    + destruct Hin as (_ & _ & Hv & Hk & _). split; [split; [rewrite Hv; by destruct (vm s) | done] |].
      intros q Hq _ Hpos. rewrite Hm. apply lookup_insert_ne. intros <-. lia.
    + intros va' Hva' Hne. unfold content. rewrite Hpt. destruct (has_frame (pte s va')); [| done].
      rewrite Hm. apply lookup_insert_ne. intros E. apply Hne, Hal; [done | by rewrite E].
Qed.

(** ** The loop *)

(** The [n] bytes at [addr] come from [src]; all others are as they were. *)
Definition written (addr n : Z) (src : option (list Z)) s s' : Prop := forall a, user_va a ->
  byte_at s' a = if (addr <=? a) && (a <? addr + n) then Some (src_byte src (a - addr)) else byte_at s a.

Lemma page_of_spec a : page_of a <= a < page_of a + PAGE_SIZE.
Proof. unfold page_of, PAGE_SIZE. pose proof (Z.div_mod a 4096). pose proof (Z.mod_pos_bound a 4096). lia. Qed.

Lemma page_written_all va off n src s s' : user_page va -> 0 <= off -> off + n <= PAGE_SIZE ->
  page_written va off n src s s' ->
  (forall va', user_page va' -> va' <> va -> content s' va' = content s va') -> written (va + off) n src s s'.
Proof.
  intros Hva Hoff Hn Hp Hc a Ha. pose proof (page_of_spec a) as Hpa. destruct (Z.eq_dec (page_of a) va) as [<- | Hne].
  - specialize (Hp (a - page_of a) ltac:(lia)). replace (page_of a + (a - page_of a)) with a in Hp by lia. rewrite Hp.
    replace (a - page_of a - off) with (a - (page_of a + off)) by lia. by zcases.
  - unfold byte_at. rewrite Hc by (done || apply (page_floor a Ha)). pose proof (proj1 (page_floor a Ha)) as [_ Hal].
    fold (page_of a) in Hal. destruct (Z.leb_spec (va + off) a), (Z.ltb_spec a (va + off + n)); cbn [andb]; try done.
    exfalso. apply Hne. rewrite <- (page_of_off va (a - va)) by (apply Hva || lia). f_equal. lia.
Qed.

Lemma written_none addr src s s' : (forall va, user_page va -> content s' va = content s va) -> written addr 0 src s s'.
Proof.
  intros Hc a Ha. unfold byte_at. rewrite Hc by apply (page_floor a Ha). by zcases.
Qed.

Lemma written_trans addr n k src s1 s2 s3 : 0 <= n -> 0 <= k -> written addr n src s1 s2 ->
  written (addr + n) k (drop (Z.to_nat n) <$> src) s2 s3 -> written addr (n + k) src s1 s3.
Proof.
  intros Hn Hk H1 H2 a Ha. rewrite H2, H1 by done.
  destruct (Z.leb_spec (addr + n) a), (Z.ltb_spec a (addr + n + k)), (Z.leb_spec addr a), (Z.ltb_spec a (addr + n)),
    (Z.ltb_spec a (addr + (n + k))); cbn [andb]; try lia; try done.
  rewrite src_byte_drop by lia. do 2 f_equal. lia.
Qed.

(** The mapped pages of a range are private. *)
Definition private_range ls (addr len : Z) : Prop :=
  forall a, addr <= a < addr + len -> view ls a <> None -> private (view ls a) = true.

(** How a write ends: [n] bytes are written. *)
Definition write_end ls (addr len r n : Z) : Prop :=
  0 <= n <= len /\ ((r = 0 /\ n = len) \/ (r = - EFAULT /\ n < len /\ view ls (addr + n) = None) \/
                    (r = - ENOMEM /\ n < len)).

Definition write_result o (addr len : Z) src (r : Z) s ls s' : Prop :=
  intact o s ls s' /\ exists n, write_end ls addr len r n /\
    (cow_safe o (pte s) ls -> private_range ls addr len -> tame o s s' /\ written addr n src s s').

Lemma write_result_stop o addr len src r s ls s' : transparent o s ls s' -> 0 < len ->
  (r = - EFAULT /\ view ls addr = None \/ r = - ENOMEM) -> write_result o addr len src r s ls s'.
Proof.
  intros Ht Hlen Hr. split; [by apply transparent_intact |]. exists 0. split.
  - split; [lia |]. right. rewrite Z.add_0_r. destruct Hr as [[-> ?] | ->]; [left | right]; split_and!; done || lia.
  - intros _ _. destruct Ht as (_ & _ & Ht & _ & Hc & _). split; [done | by apply written_none].
Qed.

Lemma write_result_step o addr len n src r s ls s1 s2 : intact o s ls s1 -> 0 <= n <= len ->
  (cow_safe o (pte s) ls -> private_range ls addr len -> tame o s s1 /\ written addr n src s s1) ->
  write_result o (addr + n) (len - n) (drop (Z.to_nat n) <$> src) r s1 ls s2 -> write_result o addr len src r s ls s2.
Proof.
  intros Hi1 Hn Hw1 (Hi2 & k & [Hk Hr] & Hw2). split; [by eapply intact_trans |]. exists (n + k). split.
  - split; [lia |]. rewrite Z.add_assoc. destruct Hr as [[-> ->] | [(-> & Hlt & Hv) | [-> Hlt]]];
      [left | right; left | right; right]; split_and!; try done; lia.
  - intros Hcs Hp. destruct (Hw1 Hcs Hp) as [T1 W1]. destruct Hw2 as [T2 W2]; [by apply Hi1 | |].
    + intros a Ha. apply Hp. lia.
    + split; [by eapply tame_trans | by eapply written_trans; [lia.. | |]].
Qed.

Lemma write_page_spec o T s ls addr n src a r (e k : prog (state A) Z) Q : space_inv o T s ls -> solvent o -> light s ->
  (a, r) ∈ ls -> covers r addr -> 0 < n -> addr + n <= page_of addr + PAGE_SIZE -> src_ok src n ->
  (forall s', transparent o s ls s' -> cost 5 false (fr s) (fr s') -> wp e Q s') ->
  (forall s', intact o s ls s' -> cost 5 true (fr s) (fr s') ->
     (cow_safe o (pte s) ls -> private_range ls addr n -> tame o s s' /\ written addr n src s s') -> wp k Q s') ->
  wp (let* frame := frame_to_write (page_of addr) (va_prot r) in
      match frame with
      | None => e
      | Some frame => copy_in frame (addr - page_of addr) n src ;; k
      end) Q s.
Proof.
  intros Hinv Hsol Hl Hin Hc Hn Hend Hsrc He Hk. pose proof (sh_areas _ _ (si_shape _ _ _ _ Hinv)) as Hwf.
  destruct (covers_page r addr) as (Hva & Hcp & Hu); [by apply (areas_wf_elem ls (a, r)) | done |].
  pose proof (view_in ls (a, r) addr Hwf Hin Hc) as Hv. pose proof (view_in ls (a, r) (page_of addr) Hwf Hin Hcp) as Hvp.
  pose proof (page_of_spec addr) as Hpa. apply wp_bind. change (va_prot r) with (prot_of (area_view r (page_of addr))).
  eapply wp_mono; [by apply (frame_to_write_spec o T s ls (page_of addr)) |].
  intros f s1 (Ht1 & Hc1 & Hf1). pose proof Ht1 as ((T1 & Hinv1) & Hl1 & Htm1 & _ & Hct1 & Hcs1). cbn beta.
  destruct f as [f |]; cbn [got] in Hc1; [| by apply He]. destruct (Hf1 f eq_refl) as (Hfr & -> & Hown).
  apply wp_bind. eapply wp_mono; [by apply (copy_in_spec o T1 s1 ls (page_of addr)); try done; lia |].
  intros [] s2 (Hi2 & Hfr2 & Hw2 & Hal). 
  apply Hk; [eapply intact_trans; [by apply transparent_intact | done] | by rewrite Hfr2 |]. intros Hcs Hp.
  destruct Hal as [Ht2 Hct2].
  { apply Hown; [| by apply Hcs1]. specialize (Hp addr ltac:(lia)). rewrite Hv in Hp. rewrite Hvp. by apply Hp. }
  split; [by eapply tame_trans |]. apply (page_written_all _ _ _ _ _ _ Hva) in Hw2; [| lia.. | done].
  replace (page_of addr + (addr - page_of addr)) with addr in Hw2 by lia.
  apply (written_trans addr 0 n src s s1 s2); [lia.. | by apply written_none |].
  rewrite Z.add_0_r. by destruct src.
Qed.

Lemma write_loop_spec fuel o T s ls addr len src : space_inv o T s ls -> solvent o -> light s ->
  is_u 64 addr -> 0 <= len -> src_ok src len -> (0 < fuel)%nat ->
  (len <> 0 -> addr - page_of addr + len <= (Z.of_nat fuel - 1) * PAGE_SIZE) ->
  wp (write_loop fuel addr len src) (fun r s' => write_result o addr len src r s ls s' /\
    cost (5 * (Z.of_nat fuel - 1)) (negb (r =? - ENOMEM)) (fr s) (fr s')) s.
Proof.
  revert T s addr len src. induction fuel as [| fuel IH]; intros T s addr len src Hinv Hsol Hl Hu Hlen Hsrc H0 Hfuel; [lia |].
  cbn [write_loop]. pose proof (si_shape _ _ _ _ Hinv) as Hs. assert (transparent o s ls s) as Hrefl by (by eapply transparent_refl).
  destruct (Z.eqb_spec len 0) as [-> | Hne].
  { apply wp_ret. split; [| apply cost_none; lia]. split; [by apply transparent_intact |]. exists 0.
    split; [split; [lia |]; by left |]. intros _ _. split; [apply tame_refl | by apply written_none]. }
  apply wp_bind. eapply wp_asks; [by apply vm_find_spec |].
  destruct (area_of_addr ls addr) as [[a r] |] eqn:Ea; cbn [ptr fst].
  2:{ apply wp_ret. split; [apply write_result_stop; [done | lia | left; split; [done |]; unfold view; by rewrite Ea] |].
      apply cost_none. lia. }
  apply area_of_addr_Some in Ea as [Hin Hc]; [| apply (sh_areas _ _ Hs)]. cbn [snd] in Hc.
  pose proof (shape_nonzero _ _ (a, r) Hs Hin) as Hz%Z.eqb_neq. simpl in Hz. rewrite Hz.
  apply wp_bind, (wp_asks _ r); [by apply (sh_recs _ _ Hs) |].
  rewrite land_page_mask, low_bits by done. fold (page_of addr). pose proof (page_of_spec addr) as Hpa.
  assert (addr mod PAGE_SIZE = addr - page_of addr) as -> by (unfold page_of; rewrite Z.mod_eq by done; lia).
  set (n := if PAGE_SIZE - (addr - page_of addr) <? len then PAGE_SIZE - (addr - page_of addr) else len).
  assert (0 < n <= len /\ addr + n <= page_of addr + PAGE_SIZE /\ (n = len \/ addr + n = page_of addr + PAGE_SIZE)) as (Hn & Hnp & Hnl).
  { unfold n. destruct (Z.ltb_spec (PAGE_SIZE - (addr - page_of addr)) len); lia. }
  assert (addr + n <= USER_ADDR_LIMIT) as Hlim.
  { destruct (covers_page r addr) as ([[? ?] Hal] & _ & _); [by apply (areas_wf_elem ls (a, r)); [apply (sh_areas _ _ Hs) |] | done |].
    pose proof (aligned_gap _ _ Hal (proj2 user_range_aligned)). lia. }
  apply (write_page_spec o T s ls addr n src a r); try done; [lia | | |].
  { destruct src as [bs |]; [| done]. destruct Hsrc. split; [done | lia]. }
  { intros s' Ht Hcost. apply wp_ret. split; [apply write_result_stop; [done | lia | by right] |].
    apply (cost_weaken 5); [done |]. unfold PAGE_SIZE in *. lia. }
  intros s1 Hi1 Hcost1 Hw1. pose proof Hi1 as ((T1 & Hinv1) & Hl1 & _).
  rewrite u64_small by (unfold is_u, USER_ADDR_LIMIT in *; lia).
  eapply wp_mono; [apply (IH T1 s1 (addr + n) (len - n)); try done; try lia |].
  - unfold is_u, USER_ADDR_LIMIT in *. lia.
  - apply src_ok_drop; [lia |]. by replace (n + (len - n)) with len by lia.
  - specialize (Hfuel Hne). unfold PAGE_SIZE in *. lia.
  - intros Hne'. destruct Hnl as [? | E]; [lia |]. specialize (Hfuel Hne). rewrite E.
    rewrite (page_of_aligned (page_of addr + PAGE_SIZE)) by (apply aligned_add; unfold aligned, page_of; by rewrite Z.mod_mul).
    unfold PAGE_SIZE in *. lia.
  - intros r' s2 (Hres & Hcost2). split; [apply (write_result_step o addr len n src r' s ls s1 s2); try done; [lia |] |].
    + intros Hcs Hp. apply Hw1; [done |]. intros a' Ha'. apply Hp. lia.
    + pose proof (cost_trans _ _ _ _ _ _ Hcost1 Hcost2) as Hct. eapply cost_weaken; [exact Hct | lia].
Qed.

(** Writing takes at most five frames per page. *)
Lemma vm_write_spec o T s ls addr len src : space_inv o T s ls -> solvent o -> light s ->
  is_u 64 addr -> 0 <= len -> src_ok src len ->
  wp (vm_write addr len src) (fun r s' => write_result o addr len src r s ls s' /\
    cost (5 * (len / PAGE_SIZE + 2)) (negb (r =? - ENOMEM)) (fr s) (fr s')) s.
Proof.
  intros Hinv Hsol Hl Hu Hlen Hsrc. unfold vm_write, write_locked.
  assert (0 <= len / PAGE_SIZE) as Hd by (apply Z.div_pos; [done | unfold PAGE_SIZE; lia]).
  eapply wp_mono; [apply (write_loop_spec _ o T s ls); try done; [lia |] |].
  - intros _. pose proof (page_of_spec addr). pose proof (Z.div_mod len PAGE_SIZE ltac:(done)).
    pose proof (Z.mod_pos_bound len PAGE_SIZE ltac:(done)). unfold PAGE_SIZE in *. lia.
  - intros r s' [Hr Hc]. split; [done |]. eapply cost_weaken; [exact Hc | lia].
Qed.
End write.
