(* ===== verification/VmRange.v ===== *)
(** * Discarding and writing back a range

    The loops of [discard_locked] and [sync_locked] visit the areas of a range
    from its start and stop at the first hole. *)

From Stdlib Require Import ZArith Lia Bool.
From stdpp Require Import base list option gmap.
From S2P Require Import Prelude Mmu Frames PageTable PageTableFacts StateMonad Rbtree RbtreeFacts RbtreeRemove VmArea VmAreaFacts Vm VmPages VmPageOps VmOps VmProtect VmCow VmFault.
Open Scope Z_scope.
Open Scope prog_scope.

Section range.
Context {A : Type} `{!Frames A, !FramesOk A}.
Implicit Types (s : state A) (o : Z -> Z) (T : gset Z) (ls : alist).

Section rule.
Context (ls : alist) (I : Z -> state A -> Prop) (end_ : Z) (f : vm_area -> Z -> Z -> prog (state A) unit).
Hypotheses (Hshape : forall va s, I va s -> shape (vm s) ls) (Hend : aligned end_).
Hypothesis Hbody : forall a r va stop s, (a, r) ∈ ls -> covers r va -> va < stop -> stop <= va_end r ->
  stop <= end_ -> aligned va -> aligned stop -> I va s -> wp (f r va stop) (fun _ s' => I stop s') s.

Lemma range_loop_rule fuel va s l1 l2 : ls = l1 ++ l2 -> aligned va -> va <= end_ ->
  (forall x, x ∈ l1 -> va_end x.2 <= va) -> (forall x, x ∈ l2 -> va < va_end x.2) ->
  (length l2 < fuel)%nat -> I va s ->
  wp (range_loop fuel va end_ f) (fun r s' => (r = 0 /\ I end_ s') \/
    (r = - ENOMEM /\ exists stop, va <= stop < end_ /\ I stop s' /\ view ls stop = None)) s.
Proof using All.
  revert fuel va s l1. induction l2 as [| [a r] l2 IH]; intros fuel va s l1 El Ha Hle H1 H2 Hf Hi;
    (destruct fuel as [| fuel]; [lia |]); cbn [range_loop];
    (destruct (Z.ltb_spec va end_) as [Hlt | Hge]; cbn [negb];
      [| apply wp_ret; left; split; [done |]; by replace end_ with va by lia]);
    pose proof (Hshape va s Hi) as Hs; pose proof (sh_areas _ _ Hs) as Hwf;
    apply wp_bind; (eapply wp_asks; [by apply vm_find_spec |]).
  { assert (view ls va = None) as Hn.
    { apply view_None; [| done]. intros x Hx [? ?]. subst ls. rewrite app_nil_r in Hx. specialize (H1 x Hx). lia. }
    pose proof Hn as Hn'. unfold view in Hn'. apply fmap_None in Hn'. rewrite Hn'. cbn [ptr Z.eqb]. apply wp_ret. right.
    split; [done |]. exists va. split_and!; [lia | done | done | done]. }
  pose proof (H2 (a, r) ltac:(by left)) as Hend'. simpl in Hend'.
  assert (first_after ls va = Some (a, r)) as Hfa.
  { rewrite El, first_after_app, (first_after_none l1), first_after_cons by auto. by rewrite decide_True. }
  unfold area_of_addr. rewrite Hfa. cbn [snd].
  destruct (Z.leb_spec (va_start r) va) as [Hst | Hst]; cbn [ptr fst].
  2:{ cbn [Z.eqb]. apply wp_ret. right. split; [done |]. exists va. split_and!; [lia | done | done |].
      unfold view, area_of_addr. rewrite Hfa. cbn [snd]. by destruct (Z.leb_spec (va_start r) va); [lia |]. }
  assert ((a, r) ∈ ls) as Hin by (rewrite El; set_solver).
  pose proof (shape_nonzero _ _ (a, r) Hs Hin) as H0%Z.eqb_neq. simpl in H0. rewrite H0.
  apply wp_bind, (wp_asks _ r); [by apply (sh_recs _ _ Hs) |].
  pose proof (areas_wf_elem ls (a, r) Hwf Hin) as Hr. simpl in Hr.
  destruct (Z.ltb_spec (va_end r) end_) as [Hshort | Hlong]; apply wp_bind.
  - eapply wp_mono; [apply (Hbody a r va (va_end r)); first [done | by split | lia | apply Hr] |].
    intros [] s1 Hi1. cbn beta. eapply wp_mono; [apply (IH fuel (va_end r) s1 (l1 ++ [(a, r)])); try done |].
    + rewrite El, <- app_assoc. done.
    + apply Hr.
    + lia.
    + intros x [Hx | ->%list_elem_of_singleton]%elem_of_app; [specialize (H1 x Hx); lia | done].
    + intros x Hx. rewrite El in Hwf. pose proof (below_head _ _ _ _ Hwf Hx).
      pose proof (areas_wf_elem _ x Hwf ltac:(set_solver)) as [_ _ ? _ _]. simpl in *. lia.
    + simpl in Hf. lia.
    + intros res s2 [? | (-> & stop & Hr' & Hi2 & Hv)]; [by left |]. right. split; [done |].
      exists stop. split_and!; [lia | lia | done | done].
  - eapply wp_mono; [apply (Hbody a r va end_); first [done | by split | lia] |]. intros [] s1 Hi1. cbn beta.
    destruct fuel as [| fuel]; [simpl in Hf; lia |]. cbn [range_loop]. rewrite Z.ltb_irrefl. cbn [negb].
    apply wp_ret. by left.
Qed.
End rule.

(** ** Discarding *)

(** [g] on the entries with frames of the areas that [P] holds of, from [lo]
    to [hi]. *)
Definition ranged (P : option (Z * Z * Z * Z * Z) -> bool) (g : Z -> Z) ls (e : Z -> Z) (lo hi va : Z) : Z :=
  if (lo <=? va) && (va <? hi) && P (view ls va) && has_frame (e va) then g (e va) else e va.

Lemma ranged_step P g ls e lo mid hi r a va : areas_wf ls -> (a, r) ∈ ls -> lo <= mid -> mid < hi ->
  covers r mid -> hi <= va_end r -> (forall x y, P (Some (area_view r x)) = P (Some (area_view r y))) ->
  ranged P g ls e lo hi va =
    let e' := ranged P g ls e lo mid va in
    if (mid <=? va) && (va <? hi) && P (Some (area_view r mid)) && has_frame e' then g e' else e'.
Proof.
  intros Hwf Hin Hlo Hlt [Hc1 Hc2] Hhi HP. cbv zeta.
  destruct (Z_lt_ge_dec va mid) as [Hb | Hb]; [| destruct (Z_lt_ge_dec va hi) as [Hm | Hm]].
  - assert ((mid <=? va) = false) as -> by zcases. cbn [andb]. unfold ranged. zcases.
  - assert (ranged P g ls e lo mid va = e va) as -> by (unfold ranged; zcases).
    assert ((mid <=? va) && (va <? hi) = true) as -> by zcases.
    unfold ranged. rewrite (view_in ls (a, r) va Hwf Hin) by (unfold covers; simpl; lia). cbn [snd].
    assert ((lo <=? va) && (va <? hi) = true) as -> by zcases. by rewrite (HP va mid).
  - assert (ranged P g ls e lo mid va = e va) as -> by (unfold ranged; zcases).
    assert (ranged P g ls e lo hi va = e va) as -> by (unfold ranged; zcases). zcases.
Qed.

Lemma ranged_start P g ls e lo va : ranged P g ls e lo lo va = e va.
Proof. unfold ranged. zcases. Qed.

(** The entries of private areas without their frames. *)
Definition discarded ls : (Z -> Z) -> Z -> Z -> Z -> Z := ranged private (fun _ => 0) ls.

Record discard_inv o T s ls (lo hi : Z) s' : Prop := {
  di_pages : pages_ok o T s';
  di_vm : vm s' = vm s;
  di_light : light s';
  di_tame : tame (outside T) s s';
  di_pte : forall va, user_page va -> pte s' va = discarded ls (pte s) lo hi va;
}.

Lemma discard_body o T s ls lo mid hi a r s1 : space_inv o T s ls -> solvent o -> (a, r) ∈ ls ->
  lo <= mid -> mid < hi -> covers r mid -> hi <= va_end r -> page_range mid hi ->
  discard_inv o T s ls lo mid s1 ->
  wp (when (Z.land (va_flags r) VMA_SHARED =? 0) (free_frames mid hi)) (fun _ s' => discard_inv o T s ls lo hi s') s1.
Proof.
  intros Hinv Hsol Hin Hlo Hlt Hc Hhi Hpr [Hok1 Hvm1 Hl1 Ht1 Hp1]. pose proof (sh_areas _ _ (si_shape _ _ _ _ Hinv)) as Hwf.
  assert (forall va, _) as Hstep by (intros va;
    exact (ranged_step private (fun _ => 0) ls (pte s) lo mid hi r a va Hwf Hin Hlo Hlt Hc Hhi (fun _ _ => eq_refl))).
  fold (discarded ls) in Hstep. cbn [private flags_of area_view] in Hstep.
  apply wp_when; intros Hsh; rewrite Hsh in Hstep.
  2:{ constructor; try done. intros va Hva. rewrite Hp1, Hstep by done. by rewrite andb_false_r. }
  eapply wp_mono; [by apply (free_frames_spec o T) |]. intros [] s2 (Hok2 & Hvm2 & Ht2 & Hp2).
  constructor; [done | congruence | | by eapply tame_trans |].
  - apply (light_ledger o T T s1 s2); try done; [by rewrite Hvm2 |]. intros f Hf _. left.
    rewrite (count_cleared s1 s2 f mid hi) by done. pose proof (uses_nonneg mid hi (pte s1) f). lia.
  - intros va Hva. rewrite Hp2, Hstep by done. unfold cleared. by rewrite Hp1, andb_true_r.
Qed.

(** The pages of the private areas from [addr] to [stop] are gone; the end of
    the range, or the hole that [discard_locked] met. *)
Definition discard_result (addr end_ r : Z) s ls s' : Prop :=
  (r = - EINVAL /\ forall va, user_page va -> pte s' va = pte s va) \/
  exists stop, addr <= stop <= end_ /\ (if r =? 0 then stop = end_ else r = - ENOMEM /\ view ls stop = None) /\
    forall va, user_page va -> pte s' va = discarded ls (pte s) addr stop va.

Lemma discard_inv_kept o T s ls lo hi s' : space_inv o T s ls -> discard_inv o T s ls lo hi s' ->
  kept o s s' ls /\ vm s' = vm s.
Proof.
  intros [Hok Hs Hag Hb] [Hok' Hvm Hl Ht Hp]. split; [| done]. eapply (kept_quiet o T s); [done | done | | done | by apply quiet_tame].
  constructor; rewrite ?Hvm; try done. intros va Hva. rewrite Hp by done. unfold discarded, ranged.
  destruct (_ && has_frame _); [done |]. by apply Hag.
Qed.

Lemma discard_locked_spec o T s ls addr len : space_inv o T s ls -> solvent o -> light s ->
  is_u 64 addr -> is_u 64 len ->
  wp (discard_locked addr len) (fun r s' => (kept o s s' ls /\ vm s' = vm s) /\
    discard_result addr (PAGE_ALIGN_UP (u64 (addr + len))) r s ls s') s.
Proof.
  intros Hinv Hsol Hl Haddr Hlen. unfold discard_locked. set (end_ := PAGE_ALIGN_UP _).
  rewrite low_bits by done. pose proof (si_shape _ _ _ _ Hinv) as Hs.
  destruct (_ || _) eqn:Hbad.
  { apply wp_ret. split; [split; [by eapply kept_refl | done] |]. by left. }
  apply orb_false_elim in Hbad as [[Hal%negb_false_iff%Z.eqb_eq _]%orb_false_elim Hur%negb_false_iff%user_range_spec].
  destruct Hur as (H1 & H2 & H3). apply wp_bind, wp_gets.
  destruct (first_after_split ls addr (sh_areas _ _ Hs)) as (l1 & l2 & E & Hl1 & Hl2 & _).
  pose proof (shape_length _ _ Hs) as Hlen0. pose proof (align_up_aligned (u64 (addr + len))) as Hea. fold end_ in Hea.
  eapply wp_mono; [apply (range_loop_rule ls (fun va s' => addr <= va /\ discard_inv o T s ls addr va s') end_ _) with (l1 := l1) (l2 := l2) |].
  - intros va s1 [_ [_ -> _ _ _]]. done.
  - done.
  - intros a r va stop s1 Hin Hc Hlt Hle Hst Hva Hsa [Hlo Hi]. eapply wp_mono.
    + apply (discard_body o T s ls addr va stop a r s1); try done. constructor; try done; lia.
    + intros [] s2 Hi2. split; [lia | done].
  - done.
  - done.
  - lia.
  - done.
  - done.
  - rewrite E, length_app in Hlen0. lia.
  - split; [lia |]. constructor; [apply Hinv | done | done | apply tame_refl |]. intros va _. symmetry. apply ranged_start.
  - intros r s' [(-> & _ & Hi) | (-> & stop & Hr & [_ Hi] & Hv)];
      (split; [by eapply discard_inv_kept |]); right.
    + exists end_. split; [lia |]. split; [done | apply Hi].
    + exists stop. split; [lia |]. split; [done | apply Hi].
Qed.

(** ** Writing back *)

(** The page belongs to a mapped file. *)
Definition mapped_file (v : option (Z * Z * Z * Z * Z)) : bool :=
  match v with Some (_, _, _, file, _) => negb (file =? 0) | None => false end.

(** The entries of mapped files without their dirty bits. *)
Definition synced ls : (Z -> Z) -> Z -> Z -> Z -> Z := ranged mapped_file (fun e => Z.ldiff e PTE_DIRTY) ls.

Lemma frame_of_synced ls e lo hi va : frame_of (synced ls e lo hi va) = frame_of (e va).
Proof. unfold synced, ranged. destruct (_ && has_frame _); [by apply frame_of_ldiff | done]. Qed.

Record sync_inv o T s ls (lo hi : Z) s' : Prop := {
  sy_pages : pages_ok o T s';
  sy_tame : tame (outside T) s s';
  sy_pte : forall va, user_page va -> pte s' va = synced ls (pte s) lo hi va;
  sy_low : hi = lo \/ USER_ADDR_MIN <= lo;
  sy_hold : forall q, q <> 0 -> q mod PAGE_SIZE = 0 -> hold s' q <= hold s q + uses (pte s) q lo hi;
}.

Lemma sync_body o T s ls lo mid hi a r s1 : space_inv o T s ls -> solvent o -> light s -> (a, r) ∈ ls ->
  aligned lo -> lo <= mid -> mid < hi -> covers r mid -> hi <= va_end r -> aligned mid -> aligned hi ->
  sync_inv o T s ls lo mid s1 ->
  wp (when (negb (va_file r =? 0)) (queue_dirty r mid hi true)) (fun _ s' => sync_inv o T s ls lo hi s') s1.
Proof.
  intros Hinv Hsol Hl Hin Hal Hlo Hlt Hc Hhi Ham Hah [Hok1 Ht1 Hp1 Hlow Hh1]. pose proof (sh_areas _ _ (si_shape _ _ _ _ Hinv)) as Hwf.
  pose proof (areas_wf_elem ls (a, r) Hwf Hin) as [_ _ _ Hr1 Hr2]. cbn [snd] in Hr1, Hr2.
  assert (USER_ADDR_MIN <= lo) as Hlo' by (destruct Hc, Hlow; lia).
  assert (page_range mid hi) as Hpr by (constructor; (done || destruct Hc; lia)).
  assert (page_range lo hi) as Hpr' by (constructor; (done || destruct Hc; lia)).
  assert (forall va, _) as Hstep by (intros va; exact (ranged_step mapped_file (fun e => Z.ldiff e PTE_DIRTY)
    ls (pte s) lo mid hi r a va Hwf Hin Hlo Hlt Hc Hhi (fun _ _ => eq_refl))).
  fold (synced ls) in Hstep. cbn [mapped_file area_view] in Hstep.
  assert (forall q, uses (pte s1) q mid hi = uses (pte s) q mid hi) as Hu.
  { intros q. apply uses_frames; [done | done |]. intros va Ha Hva.
    rewrite Hp1 by (by apply (range_page mid hi)). apply frame_of_synced. }
  assert (forall q, uses (pte s) q lo hi = uses (pte s) q lo mid + uses (pte s) q mid hi) as Hsum
    by (intros q; by rewrite (uses_split _ q lo mid hi) by lia).
  apply wp_when; intros Hfi; rewrite Hfi in Hstep.
  2:{ constructor; [done | done | | by right |].
      - intros va Hva. rewrite Hp1, Hstep by done. by rewrite andb_false_r.
      - intros q Hq Hm. specialize (Hh1 q Hq Hm). pose proof (uses_nonneg mid hi (pte s) q). rewrite Hsum. lia. }
  eapply wp_mono; [apply (queue_dirty_spec o T s1 r mid hi true); try done |].
  { intros f Hf Hm. specialize (Hh1 f Hf Hm). pose proof (light_roomy s lo hi Hl Hpr' f Hf Hm) as Hroom.
    rewrite Hu. rewrite Hsum in Hroom. lia. }
  intros [] s2 (Hok2 & Ht2 & Hp2 & Hh2). constructor; [done | by eapply tame_trans | | by right |].
  - intros va Hva. rewrite Hp2, Hstep by done. unfold cleaned. by rewrite Hp1, andb_true_r.
  - intros q Hq Hm. specialize (Hh1 q Hq Hm). specialize (Hh2 q Hq Hm). rewrite Hu in Hh2. rewrite Hsum. lia.
Qed.

Definition sync_result (addr end_ r : Z) s ls s' : Prop :=
  (r = - EINVAL /\ forall va, user_page va -> pte s' va = pte s va) \/
  exists stop, addr <= stop <= end_ /\ (if r =? 0 then stop = end_ else r = - ENOMEM /\ view ls stop = None) /\
    forall va, user_page va -> pte s' va = synced ls (pte s) addr stop va.

Lemma sync_locked_spec o T s ls addr len : space_inv o T s ls -> solvent o -> light s ->
  is_u 64 addr -> is_u 64 len ->
  wp (sync_locked addr len) (fun r s' => pages_ok o T s' /\ tame (outside T) s s' /\
    sync_result addr (PAGE_ALIGN_UP (u64 (addr + len))) r s ls s') s.
Proof.
  intros Hinv Hsol Hl Haddr Hlen. unfold sync_locked. set (end_ := PAGE_ALIGN_UP _).
  rewrite low_bits by done. pose proof (si_shape _ _ _ _ Hinv) as Hs. pose proof (si_pages _ _ _ _ Hinv) as Hok.
  destruct (_ || _) eqn:Hbad.
  { apply wp_ret. split; [done |]. split; [apply tame_refl | by left]. }
  apply orb_false_elim in Hbad as [Hal%negb_false_iff%Z.eqb_eq Hge%Z.ltb_ge]. apply wp_bind, wp_gets.
  destruct (first_after_split ls addr (sh_areas _ _ Hs)) as (l1 & l2 & E & Hl1 & Hl2 & _).
  pose proof (shape_length _ _ Hs) as Hlen0. pose proof (align_up_aligned (u64 (addr + len))) as Hea. fold end_ in Hea.
  eapply wp_mono; [apply (range_loop_rule ls (fun va s' => addr <= va /\ sync_inv o T s ls addr va s') end_ _) with (l1 := l1) (l2 := l2) |];
    try done.
  - intros va s1 [_ Hi]. by apply (tame_shape (outside T) s s1), Hs; apply Hi.
  - intros a r va stop s1 Hin Hc Hlt Hle Hst Hva Hsa [Hlo Hi]. eapply wp_mono.
    + by apply (sync_body o T s ls addr va stop a r s1).
    + intros [] s2 Hi2. split; [lia | done].
  - rewrite E, length_app in Hlen0. lia.
  - split; [lia |]. constructor; [done | apply tame_refl | | by left |].
    + intros va _. symmetry. apply ranged_start.
    + intros q _ _. rewrite uses_empty. lia.
  - intros r s' [(-> & _ & [Hok' Ht Hp _ _]) | (-> & stop & Hr & [_ [Hok' Ht Hp _ _]] & Hv)];
      (split; [done |]); (split; [done |]); right.
    + exists end_. split; [lia |]. by split.
    + exists stop. split; [lia |]. by split.
Qed.
End range.
