(* ===== verification/VmBrk.v ===== *)
(** * The heap of a process

    [brk_locked] moves the end of the heap: pages are added by extending the
    heap's area or by a new one, and removed by unmapping. *)

From Stdlib Require Import ZArith Lia Bool.
From stdpp Require Import base list option gmap.
From S2P Require Import Prelude Mmu Frames PageTable PageTableFacts StateMonad Rbtree RbtreeFacts RbtreeRemove VmArea VmAreaFacts Vm VmPages VmPageOps VmOps VmProtect VmCow VmFault.
Open Scope Z_scope.
Open Scope prog_scope.

Section heap.
Context {A : Type} `{!Frames A, !FramesOk A}.
Implicit Types (s : state A) (o : Z -> Z) (T : gset Z) (ls : alist).

(** The end of an area moves up into free addresses. *)
Lemma extend_area_spec o T s ls a r end_ : space_inv o T s ls -> light s -> (a, r) ∈ ls ->
  page_range (va_end r) end_ -> va_end r < end_ -> range_clear ls (va_end r) end_ ->
  wp (put_area a (with_end end_ r)) (fun _ s' => exists ls', kept o s s' ls' /\ same_rest s s' /\
    forall addr, view ls' addr =
      if (va_end r <=? addr) && (addr <? end_) then Some (area_view r addr) else view ls addr) s.
Proof.
  intros Hinv Hl Hin Hpr Hlt Hc. pose proof Hinv as [Hok Hs Hag Hb]. pose proof (sh_areas _ _ Hs) as Hwf.
  apply list_elem_of_split in Hin as (l1 & l2 & ->). destruct (below_neq _ _ _ Hwf) as [H1 H2].
  pose proof (areas_wf_elem _ (a, r) Hwf ltac:(set_solver)) as [Hr1 Hr2 Hr3 Hr4 Hr5]. simpl in *.
  eapply wp_mono; [apply (put_area_spec s l1 a r (with_end end_ r) l2); [done | constructor; cbn; (done || apply Hpr || lia) | |] |].
  - intros y Hy. specialize (H1 y Hy). unfold below in *. simpl in *. done.
  - intros y Hy. specialize (H2 y Hy). unfold below in *. simpl in *.
    destruct (Hc y ltac:(set_solver)) as [Hy1 | Hy1]; [| done].
    pose proof (areas_wf_elem _ y Hwf ltac:(set_solver)) as [_ _ ? _ _]. lia.
  - intros [] s' (Hr & _ & Hs' & _).
    assert (forall addr, view (l1 ++ (a, with_end end_ r) :: l2) addr =
      if (va_end r <=? addr) && (addr <? end_) then Some (area_view r addr) else view (l1 ++ (a, r) :: l2) addr) as Hv.
    { intros addr. rewrite !view_insert by (done || apply (sh_areas _ _ Hs')). cbn [snd with_end va_start va_end].
      change (area_view (with_end end_ r) addr) with (area_view r addr). by zcases. }
    exists (l1 ++ (a, with_end end_ r) :: l2). split; [| by split]. eapply (kept_rest o T); [done | | by eapply light_rest].
    constructor; [by eapply pages_ok_rest | done | | by rewrite (sr_base _ _ Hr)].
    intros va Hva. rewrite (same_rest_pte _ _ _ Hr), Hv. intros Hf.
    destruct ((va_end r <=? va) && (va <? end_)) eqn:E; [| by apply Hag].
    apply andb_prop in E as [?%Z.leb_le ?%Z.ltb_lt]. exfalso.
    by rewrite (clear_frame s (l1 ++ (a, r) :: l2) (va_end r) end_ va) in Hf.
Qed.

Lemma cleared_clear s ls start end_ va : agree (pte s) ls -> areas_wf ls -> range_clear ls start end_ ->
  user_page va -> cleared (pte s) start end_ va = pte s va.
Proof.
  intros Hag Hwf Hc Hva. unfold cleared. destruct ((start <=? va) && (va <? end_)) eqn:E; [| done].
  apply andb_prop in E as [?%Z.leb_le ?%Z.ltb_lt]. by rewrite (clear_frame s ls start end_ va).
Qed.

Lemma unmapped_clear s ls s' ls' start end_ : agree (pte s) ls -> areas_wf ls -> range_clear ls start end_ ->
  unmapped start end_ s ls s' ls' -> unseen s ls s' ls'.
Proof.
  intros Hag Hwf Hc [Hv Hp]. split.
  - intros addr. rewrite Hv. destruct ((start <=? addr) && (addr <? end_)) eqn:E; [| done].
    apply andb_prop in E as [?%Z.leb_le ?%Z.ltb_lt]. symmetry. by apply (clear_view ls start end_).
  - intros va Hva. rewrite Hp by done. by apply (cleared_clear s ls).
Qed.

Lemma kept_brk o s s' ls' b : kept o s s' ls' -> kept o s (set_vm (with_brk b (vm s')) s') ls'.
Proof.
  intros ((T' & [[? ? ? ? ? ? ? ? ? ? []] [] Hag Hb]) & Hl & [Q1 Q2 Q3 Q4 Q5 Q6] & Hd). split; [| split; [done |]; split; [by constructor | done]].
  exists T'. by constructor; [constructor; try done; by constructor | constructor | |].
Qed.

(** The addresses from [start] to [end_] are new in the heap. *)
Record heap_grown (start end_ : Z) s ls s' ls' : Prop := {
  hg_new : forall addr, start <= addr < end_ ->
    view ls addr = None /\ exists v, view ls' addr = Some v /\ Z.land (flags_of v) VMA_HEAP <> 0;
  hg_old : forall addr, ~ start <= addr < end_ -> view ls' addr = view ls addr;
  hg_pte : forall va, user_page va -> pte s' va = pte s va;
}.

Lemma heap_grown_intro start end_ s ls s' ls' w : areas_wf ls -> range_clear ls start end_ ->
  (forall addr, view ls' addr = if (start <=? addr) && (addr <? end_) then Some (w addr) else view ls addr) ->
  (forall addr, Z.land (flags_of (w addr)) VMA_HEAP <> 0) ->
  (forall va, user_page va -> pte s' va = pte s va) -> heap_grown start end_ s ls s' ls'.
Proof.
  intros Hwf Hc Hv Hw Hp. constructor; [| | done].
  - intros addr Ha. split; [by apply (clear_view ls start end_) |]. exists (w addr). split; [| done].
    rewrite Hv. by zcases.
  - intros addr Ha. rewrite Hv. by zcases.
Qed.

(** A new heap area in free addresses. *)
Lemma heap_map_spec o T s ls old_end new_end (P : Prop) : P -> space_inv o T s ls -> solvent o -> light s ->
  page_range old_end new_end -> old_end < new_end -> range_clear ls old_end new_end ->
  wp (let* r := map_locked old_end (new_end - old_end) (Z.lor VM_READ VM_WRITE) VMA_HEAP true in
      ret (negb (fst r <? 0))) (fun ok s' => exists ls', kept o s s' ls' /\ brk (vm s') = brk (vm s) /\
    if ok : bool then heap_grown old_end new_end s ls s' ls' else P /\ unseen s ls s' ls') s.
Proof.
  intros HP Hinv Hsol Hl [Hp1 Hp2 Hp3 Hp4 Hp5] Hlt Hc. pose proof Hinv as [_ Hs Hag _].
  pose proof (sh_areas _ _ Hs) as Hwf.
  assert (PAGE_ALIGN_UP (new_end - old_end) = new_end - old_end) as Eup.
  { apply PAGE_ALIGN_UP_aligned; [unfold USER_ADDR_MIN, USER_ADDR_LIMIT, PAGE_SIZE in *; lia |].
    unfold aligned, PAGE_SIZE in *. by rewrite Zminus_mod, Hp1, Hp2. }
  apply wp_bind. eapply wp_mono; [apply (map_locked_spec o T s ls); try done;
    unfold is_u, USER_ADDR_MIN, USER_ADDR_LIMIT in *; lia |].
  intros r s' (ls' & Hk & Hb & Hres). apply wp_ret. exists ls'. split; [done |]. split; [done |].
  rewrite Eup in Hres. destruct Hres as [(start & -> & [_ Hv Hp] & ->) | (err & -> & He & Hres)]; cbn [fst].
  - replace (old_end + (new_end - old_end)) with new_end in * by lia.
    apply (heap_grown_intro old_end new_end s ls s' ls' (fun addr => (Z.lor VM_READ VM_WRITE, VMA_HEAP, 0, 0, u64 (addr - old_end)))); try done.
    intros va Hva. rewrite Hp by done. by apply (cleared_clear s ls).
  - assert (negb (err <? 0) = false) as -> by (destruct He as [[-> _] | [-> _]]; done).
    split; [done |]. destruct Hres as [? | [_ Hun]]; [done |]. replace (old_end + (new_end - old_end)) with new_end in * by lia.
    by apply (unmapped_clear s ls s' ls' old_end new_end).
Qed.

(** The heap has an area that ends at [old_end], if nothing is mapped there. *)
Definition heap_below (start old_end : Z) ls : Prop :=
  start < old_end /\ exists v, view ls (old_end - 1) = Some v /\ Z.land (flags_of v) VMA_HEAP <> 0.

Lemma brk_grow_spec o T s ls start old_end new_end : space_inv o T s ls -> solvent o -> light s ->
  page_range old_end new_end -> old_end < new_end -> range_clear ls old_end new_end ->
  wp (brk_grow start old_end new_end) (fun ok s' => exists ls', kept o s s' ls' /\ brk (vm s') = brk (vm s) /\
    if ok : bool then heap_grown old_end new_end s ls s' ls'
    else ~ heap_below start old_end ls /\ unseen s ls s' ls') s.
Proof.
  intros Hinv Hsol Hl Hpr Hlt Hc. pose proof Hinv as [_ Hs _ _]. pose proof (sh_areas _ _ Hs) as Hwf.
  pose proof (fun H => heap_map_spec o T s ls old_end new_end (~ heap_below start old_end ls) H Hinv Hsol Hl Hpr Hlt Hc) as Hmap.
  unfold brk_grow. apply wp_bind. destruct (Z.ltb_spec start old_end) as [Hst | Hst].
  2:{ eapply wp_asks; [done |]. cbn [Z.eqb]. apply wp_bind, wp_ret, Hmap. intros [? _]. lia. }
  eapply wp_asks; [by apply vm_find_spec |].
  rewrite u64_small by (destruct Hpr; unfold USER_ADDR_MIN, USER_ADDR_LIMIT in *; lia).
  destruct (area_of_addr ls (old_end - 1)) as [[a r] |] eqn:Ea; cbn [ptr fst].
  2:{ cbn [Z.eqb]. apply wp_bind, wp_ret, Hmap. intros (_ & v & Hv & _). unfold view in Hv. by rewrite Ea in Hv. }
  apply area_of_addr_Some in Ea as [Hin Hcov]; [| done]. cbn [snd] in Hcov.
  pose proof (shape_nonzero _ _ (a, r) Hs Hin) as H0%Z.eqb_neq. simpl in H0. rewrite H0.
  apply wp_bind, wp_bind, (wp_asks _ r); [by apply (sh_recs _ _ Hs) |]. apply wp_ret.
  destruct (negb (Z.land (va_flags r) VMA_HEAP =? 0) && (va_end r =? old_end)) eqn:E.
  2:{ apply Hmap. intros (_ & v & Hv & Hf). rewrite (view_in ls (a, r) _ Hwf Hin Hcov) in Hv. injection Hv as <-.
      cbn [area_view flags_of snd] in Hf. apply andb_false_iff in E as [E%negb_false_iff%Z.eqb_eq | E%Z.eqb_neq]; [done |].
      destruct Hcov as [Hc1 Hc2]. destruct (Hc (a, r) Hin); simpl in *; lia. }
  apply andb_prop in E as [Hh%negb_true_iff%Z.eqb_neq He%Z.eqb_eq]. subst old_end.
  apply wp_bind, (wp_asks _ r); [by apply (sh_recs _ _ Hs) |].
  apply wp_bind. eapply wp_mono; [by apply (extend_area_spec o T s ls a r new_end) |].
  intros [] s' (ls' & Hk & Hr & Hv). apply wp_ret. exists ls'. split; [done |]. split; [apply (sr_brk _ _ Hr) |].
  apply (heap_grown_intro (va_end r) new_end s ls s' ls' (area_view r)); try done. intros va _. by apply same_rest_pte.
Qed.

(** Why the break does not move: it is below the heap, or the pages that are
    needed are not free, or a new area is needed and there is no memory. *)
Definition brk_error (new_brk : Z) s ls : Prop :=
  let old_end := PAGE_ALIGN_UP (brk (vm s)) in
  let new_end := PAGE_ALIGN_UP new_brk in
  new_brk < brk_start (vm s) \/ old_end < new_end /\
    (user_range old_end new_end = false \/ ~ range_clear ls old_end new_end \/
     ~ heap_below (brk_start (vm s)) old_end ls).

(** The break is now [new_brk], or nothing changed. *)
Definition brk_result (new_brk r : Z) s ls s' ls' : Prop :=
  let old_end := PAGE_ALIGN_UP (brk (vm s)) in
  let new_end := PAGE_ALIGN_UP new_brk in
  (r = brk (vm s) /\ brk (vm s') = brk (vm s) /\ unseen s ls s' ls' /\ brk_error new_brk s ls) \/
  (r = new_brk /\ brk (vm s') = new_brk /\ brk_start (vm s) <= new_brk /\
   if old_end <? new_end then heap_grown old_end new_end s ls s' ls'
   else unseen s ls s' ls' \/ new_end < old_end /\ unmapped new_end old_end s ls s' ls').

Lemma brk_locked_spec o T s ls new_brk : space_inv o T s ls -> solvent o -> light s ->
  is_u 64 new_brk -> PAGE_ALIGN_UP (brk (vm s)) <= USER_ADDR_LIMIT ->
  wp (brk_locked new_brk) (fun r s' => exists ls', kept o s s' ls' /\
    PAGE_ALIGN_UP (brk (vm s')) <= USER_ADDR_LIMIT /\ brk_result new_brk r s ls s' ls') s.
Proof.
  intros Hinv Hsol Hl Hu Hlim. unfold brk_locked. apply wp_bind, wp_gets.
  destruct (Z.ltb_spec new_brk (brk_start (vm s))) as [Hlow | Hlow].
  { apply wp_ret. exists ls. split; [by eapply kept_refl |]. split; [done |]. left.
    split_and!; [done | done | apply unseen_refl | by left]. }
  unfold brk_result, brk_error. set (old_end := PAGE_ALIGN_UP (brk (vm s))) in *. set (new_end := PAGE_ALIGN_UP new_brk).
  assert (aligned old_end /\ aligned new_end) as [Hao Han] by (split; apply align_up_aligned).
  apply wp_bind. destruct (Z.ltb_spec old_end new_end) as [Hgt | Hle].
  - apply wp_bind. destruct (user_range old_end new_end) eqn:Hur.
    2:{ eapply wp_asks; [done |]. cbn [negb]. apply wp_ret, wp_ret. exists ls. split; [by eapply kept_refl |].
        split; [done |]. left. split_and!; [done | done | apply unseen_refl | right; by auto]. }
    apply user_range_spec in Hur as (H1 & H2 & H3).
    destruct (vm_range_free_spec (vm s) ls old_end new_end (si_shape _ _ _ _ Hinv) H3) as (b & Hb & Hbc).
    eapply wp_asks; [exact Hb |]. destruct b; cbn [negb].
    2:{ apply wp_ret, wp_ret. exists ls. split; [by eapply kept_refl |]. split; [done |]. left.
        split_and!; [done | done | apply unseen_refl | right]. split; [done |]. right. left. by intros H%Hbc. }
    eapply wp_mono; [apply (brk_grow_spec o T s ls (brk_start (vm s)) old_end new_end); try done;
      [constructor; (done || lia) | by apply Hbc] |].
    intros [] s1 (ls1 & Hk & Hb1 & Hres).
    + apply wp_bind, wp_modify, wp_ret. exists ls1. split; [by apply kept_brk |]. split; [cbn; fold new_end; lia |]. right. split_and!; [done | done | done |]. by destruct Hres.
    + apply wp_ret. exists ls1. split; [done |]. split; [by rewrite Hb1 |]. left. destruct Hres.
      split_and!; [done | done | done | right]. by auto.
  - apply wp_bind. apply wp_when; intros Hlt.
    2:{ apply wp_ret, wp_bind, wp_modify, wp_ret. exists ls. split; [apply kept_brk; by eapply kept_refl |].
        split; [cbn; fold new_end; lia |]. right. split_and!; [done | done | done |]. left. by split. }
    apply Z.ltb_lt in Hlt. pose proof (align_up_u new_brk) as Hnu. fold new_end in Hnu.
    apply wp_bind. eapply wp_mono; [apply (unmap_locked_spec o T s ls); try done; unfold is_u, USER_ADDR_LIMIT in *; lia |].
    intros r s1 (ls1 & Hk & Hb1 & Hres). apply wp_ret, wp_ret, wp_bind, wp_modify, wp_ret.
    exists ls1. split; [by apply kept_brk |]. split; [cbn; fold new_end; lia |]. right. split_and!; [done | done | done |].
    destruct Hres as [(_ & _ & _ & [Hv Hp]) | [_ [Hv Hp]]]; [right; split; [done |] | left; by split].
    replace (new_end + (old_end - new_end)) with old_end in * by lia.
    assert (PAGE_ALIGN_UP (u64 old_end) = old_end) as E; [| rewrite E in *; by split].
    unfold is_u, USER_ADDR_LIMIT in *. rewrite u64_small by lia. apply PAGE_ALIGN_UP_aligned; [unfold PAGE_SIZE; lia | done].
Qed.
End heap.
