(* ===== verification/VmFile.v ===== *)
(** * Files and frames given to an area: [vm_attach_file] and [vm_insert_frame] *)

From Stdlib Require Import ZArith Lia Bool.
From stdpp Require Import base list option gmap.
From S2P Require Import Prelude Mmu Frames PageTable PageTableFacts StateMonad Rbtree RbtreeFacts RbtreeRemove VmArea VmAreaFacts Vm VmPages VmPageOps VmOps VmProtect VmCow VmFault.
Open Scope Z_scope.
Open Scope prog_scope.

Section file.
Context {A : Type} `{!Frames A, !FramesOk A}.
Implicit Types (s : state A) (o : Z -> Z) (T : gset Z) (ls : alist).

(** An area starts at [start] and has no file. *)
Definition anonymous ls (start : Z) (r : vm_area) : Prop :=
  va_start r = start /\ va_file r = 0 /\ exists a, (a, r) ∈ ls.

Definition attach_result (start ops file offset x : Z) s ls s' ls' : Prop :=
  (x = 0 /\ events (ker s') = events (ker s) ++ [Acquire ops file] /\
   (forall va, user_page va -> pte s' va = pte s va) /\
   exists r, anonymous ls start r /\ forall addr, view ls' addr =
     if (start <=? addr) && (addr <? va_end r)
     then Some (va_prot r, va_flags r, ops, file, u64 (offset + (addr - start))) else view ls addr) \/
  (x = - EINVAL /\ s' = s /\ ls' = ls /\ forall r, ~ anonymous ls start r).

Lemma vm_attach_file_spec o T s ls start ops file offset : space_inv o T s ls -> light s ->
  wp (vm_attach_file start ops file offset) (fun x s' => exists ls', kept o s s' ls' /\ brk (vm s') = brk (vm s) /\
    attach_result start ops file offset x s ls s' ls') s.
Proof.
  intros Hinv Hl. pose proof (si_shape _ _ _ _ Hinv) as Hs. pose proof (sh_areas _ _ Hs) as Hwf.
  assert ((forall r, ~ anonymous ls start r) -> exists ls', kept o s s ls' /\ brk (vm s) = brk (vm s) /\
    attach_result start ops file offset (- EINVAL) s ls s ls') as Hfail.
  { intros Hno. exists ls. split; [by eapply kept_refl |]. split; [done |]. by right. }
  unfold vm_attach_file. apply wp_bind. eapply wp_asks; [by apply vm_find_spec |].
  destruct (area_of_addr ls start) as [[a r] |] eqn:Ea; cbn [ptr fst].
  2:{ apply wp_ret, Hfail. intros r (E & _ & a & Hin). pose proof (areas_wf_elem _ _ Hwf Hin) as [_ _ Ho _ _].
      assert (area_of_addr ls start = Some (a, r)) as E'; [| by rewrite Ea in E'].
      apply area_of_addr_Some; [done |]. split; [done |]. unfold covers. simpl in *. lia. }
  pose proof Ea as [Hin Hc]%area_of_addr_Some; [| done]. cbn [snd] in Hc.
  pose proof (shape_nonzero _ _ (a, r) Hs Hin) as H0%Z.eqb_neq. simpl in H0. rewrite H0.
  apply wp_bind, (wp_asks _ r); [by apply (sh_recs _ _ Hs) |].
  destruct (negb (va_start r =? start) || negb (va_file r =? 0)) eqn:Hbad.
  { apply wp_ret, Hfail. intros r' (E & Ef & a' & Hin').
    pose proof (areas_wf_elem _ _ Hwf Hin') as [_ _ Ho _ _].
    assert (area_of_addr ls start = Some (a', r')) as E'.
    { apply area_of_addr_Some; [done |]. split; [done |]. unfold covers. simpl in *. lia. }
    rewrite Ea in E'. injection E' as -> ->. rewrite E, Ef, Z.eqb_refl in Hbad. done. }
  apply orb_false_elim in Hbad as [Est%negb_false_iff%Z.eqb_eq Ef%negb_false_iff%Z.eqb_eq].
  apply list_elem_of_split in Hin as (l1 & l2 & ->). destruct (below_neq _ _ _ Hwf) as [H1 H2].
  pose proof (areas_wf_elem _ (a, r) Hwf ltac:(set_solver)) as [Hr1 Hr2 Hr3 Hr4 Hr5]. simpl in *.
  set (r' := VmArea (va_start r) (va_end r) (va_prot r) (va_flags r) ops file offset).
  apply wp_bind. eapply wp_mono; [by apply (put_area_spec s l1 a r r' l2) |].
  intros [] s1 (Hr & Hk & Hs1 & _). apply wp_bind, wp_modify, wp_ret. set (s2 := State _ _).
  assert (same_rest s s2) as Hr02 by (eapply same_rest_trans; [exact Hr | by constructor]).
  assert (forall addr, view (l1 ++ (a, r') :: l2) addr = if (start <=? addr) && (addr <? va_end r)
     then Some (va_prot r, va_flags r, ops, file, u64 (offset + (addr - start))) else view (l1 ++ (a, r) :: l2) addr) as Hv.
  { intros addr. rewrite !view_insert by (done || apply (sh_areas _ _ Hs1)). cbn [snd r' va_start va_end]. rewrite Est.
    destruct ((start <=? addr) && (addr <? va_end r)); [| done]. unfold area_view, r'. cbn. by rewrite Est. }
  exists (l1 ++ (a, r') :: l2). split; [| split; [apply (sr_brk _ _ Hr02) | left]].
  - eapply (kept_rest o T); [done | | by eapply light_rest].
    constructor; [by eapply pages_ok_rest, Hinv | done | | rewrite (sr_base _ _ Hr02); apply Hinv].
    intros va Hva. rewrite (same_rest_pte _ _ _ Hr02), Hv. intros Hf. pose proof (si_agree _ _ _ _ Hinv va Hva Hf) as Hag.
    destruct (_ && _) eqn:E; [| done]. apply andb_prop in E as [?%Z.leb_le ?%Z.ltb_lt].
    rewrite (view_in _ (a, r) va Hwf) in Hag; [done | set_solver | unfold covers; simpl; lia].
  - split; [done |]. split; [cbn; by rewrite Hk |]. split; [intros va _; by apply same_rest_pte |].
    exists r. split; [| done]. split; [done |]. split; [done |]. exists a. set_solver.
Qed.

(** ** Frames of a driver *)

(** The caller's share of [frame] is now the page's. *)
Definition frame_inserted o ls (va frame : Z) s s' : Prop :=
  exists v, view ls va = Some v /\ aligned va /\ (exists T', space_inv o T' s' ls) /\ light s' /\ tame o s s' /\ vm s' = vm s /\
    mm s' !! frame = mm s !! frame /\
    forall va', user_page va' -> pte s' va' = set_pte (pte s) va (Z.lor frame (pte_flags (prot_of v))) va'.

Lemma swap_given o old v : same_owners (swap old v (give (frame_of v) o)) (give (frame_of old) o).
Proof. intros q _ _. unfold swap, give, take_off. destruct (q =? frame_of old), (q =? frame_of v); lia. Qed.

Lemma light_inserted o T T' s s' va v frame : pages_ok (give frame o) T s -> pages_ok o T' s' -> solvent o ->
  vm s' = vm s -> light s -> user_page va -> frame_of v = frame -> hold s frame + count s frame < 0xFFFF ->
  (forall va', user_page va' -> pte s' va' = set_pte (pte s) va v va') -> light s'.
Proof.
  intros Hok Hok' Hsol Hv Hl Hva Ev Hroom Hp f Hf Hm. specialize (Hl f Hf Hm). specialize (Hsol f Hf Hm).
  pose proof (set_pte_count s s' va v f Hva Hp) as Hc. rewrite Ev in Hc.
  pose proof (po_ledger _ _ _ Hok f Hf Hm) as L. pose proof (po_ledger _ _ _ Hok' f Hf Hm) as L'. rewrite Hv in L'.
  pose proof (count_nonneg s f). pose proof (count_nonneg s' f). pose proof (pend_nonneg (pending (vm s)) f).
  destruct (decide (f ∈ T')) as [HT' | HT'].
  - pose proof (po_excl _ _ _ Hok' f HT') as E0.
    assert (count s' f + pend (pending (vm s)) f = 0) as E; [| lia].
    destruct (Z.eq_dec (count s' f + pend (pending (vm s)) f) 0) as [? | ?]; [done |].
    destruct (table_not_data o T' s' f Hok' Hf); [rewrite Hv; lia | done].
  - unfold give in L. destruct (Z.eqb_spec frame f) as [-> | Hne]; [rewrite Z.eqb_refl in L; destruct (decide (f ∈ T)), (frame_of (pte s va) =? f); lia |].
    destruct (Z.eqb_spec f frame); [congruence |]. destruct (decide (f ∈ T)), (frame_of (pte s va) =? f); lia.
Qed.

Section insert.
Context (o : Z -> Z) (T : gset Z) (s : state A) (ls : alist) (va frame : Z).
Hypotheses (Hinv : space_inv (give frame o) T s ls) (Hsol : solvent o) (Hl : light s).
Hypotheses (Hfr : frame_ok frame) (Hd : data_frame s frame) (Hroom : hold s frame + count s frame < 0xFFFF).

Lemma given_held : 0 < hold s frame.
Proof using All.
  pose proof (frame_nonzero _ Hfr) as H0. pose proof (proj2 Hfr) as Hm.
  rewrite (po_ledger _ _ _ (si_pages _ _ _ _ Hinv) frame H0 Hm). specialize (Hsol frame H0 Hm).
  pose proof (count_nonneg s frame). pose proof (pend_nonneg (pending (vm s)) frame).
  unfold give. rewrite Z.eqb_refl. destruct (decide _); lia.
Qed.

(** The step after the entry is found. *)
Lemma insert_step v : user_page va -> view ls va = Some v ->
  wp (let* err := map_page_vm va frame (pte_flags (prot_of v)) in
      if err <? 0 then ret (- ENOMEM)
      else
        when (negb (frame_of (pte s va) =? 0)) (free_physical_page (frame_of (pte s va))) ;;
        ret 0) (fun r s' =>
    (r = 0 /\ frame_inserted o ls va frame s s') \/
    (r = - ENOMEM /\ spare (fr s) < 3 /\ (exists T', space_inv (give frame o) T' s' ls) /\ light s' /\ tame o s s' /\ vm s' = vm s /\
     forall va', pte s' va' = pte s va')) s.
Proof using All.
  intros Hva Hv. pose proof (si_pages _ _ _ _ Hinv) as Hok. pose proof (frame_nonzero _ Hfr) as H0. pose proof given_held as Hh.
  assert (frame_of (Z.lor frame (pte_flags (prot_of v))) = frame) as Ef by (by apply new_pte).
  apply wp_bind. eapply wp_mono.
  { apply (map_page_spec (give frame o) T s va frame (pte_flags (prot_of v))); try done; [by apply solvent_give |].
    rewrite new_pte_bits by done. apply pte_flags_user. }
  intros err s1 (T1 & Hg & Hcost & Hres).
  assert (tame o s s1) as Ht by (apply (tame_grown o (give frame o) T T1); try done; [by apply solvent_give | intros q; apply give_pos]).
  destruct Hres as [(-> & Hok1 & _ & Hp1) | (-> & Hok1 & Hp1)]; cbn [Z.ltb Z.compare].
  2:{ apply wp_ret. right. split; [done |]. split; [by apply Hcost |].
      split; [exists T1; apply (space_vm (give frame o) T T1 s); try done; [apply Hg | intros va' Hva'; rewrite Hp1; by apply Hinv] |].
      split; [| split; [done | split; [apply Hg | done]]].
      apply (light_ledger (give frame o) T T1 s s1); try done; [by apply solvent_give | by rewrite (gw_vm _ _ _ _ Hg) |].
      intros f Hf Hm. left. rewrite (count_ext s s1); [lia |]. intros va' _. by rewrite Hp1. }
  apply (pages_ok_ext _ (give (frame_of (pte s va)) o)) in Hok1; [| rewrite <- Ef at 2; apply swap_given].
  assert (mm s1 !! frame = mm s !! frame) as Hm1.
  { apply (gw_mem _ _ _ _ Hg); [apply Hfr | done |]. apply (excl_not_table (give frame o) T s); [done |].
    unfold give. rewrite Z.eqb_refl. specialize (Hsol frame H0 (proj2 Hfr)). lia. }
  assert (forall s2, pages_ok o T1 s2 -> vm s2 = vm s1 -> mm s2 = mm s1 -> tame o s1 s2 -> (forall va', pte s2 va' = pte s1 va') ->
    frame_inserted o ls va frame s s2) as Hdone.
  { intros s2 Hok2 Hv2 Hm2 Ht2 Hp2. exists v. pose proof (gw_vm _ _ _ _ Hg) as Hv1.
    assert (forall va', user_page va' -> pte s2 va' = set_pte (pte s) va (Z.lor frame (pte_flags (prot_of v))) va') as Hp
      by (intros va' Hva'; rewrite Hp2; by apply Hp1).
    split; [done |]. split; [apply Hva |]. split.
    { exists T1. constructor; [done | rewrite Hv2, Hv1; apply Hinv | | rewrite Hv2, Hv1; apply Hinv].
      eapply agree_set_pte; [apply Hinv | exact Hp |]. intros _. rewrite Hv. by apply new_pte_rights. }
    split; [apply (light_inserted o T T1 s s2 va (Z.lor frame (pte_flags (prot_of v))) frame); try done; congruence |].
    split; [by eapply tame_trans |]. split; [congruence |]. split; [by rewrite Hm2 | done]. }
  apply wp_bind, wp_when; intros Eold.
  - apply negb_true_iff, Z.eqb_neq in Eold.
    assert (has_frame (pte s va) = true) as Hf by (rewrite has_frame_of; by apply negb_true_iff, Z.eqb_neq).
    destruct (page_frame (give frame o) T s va Hok Hva Hf) as (_ & _ & Hdo).
    eapply wp_mono; [apply (release_frame_spec o T1 s1); try done; [apply frame_of_aligned |] |].
    { apply (gw_data _ _ _ _ Hg); [apply frame_of_aligned | | done]. apply (page_held (give frame o) T); try done. by apply solvent_give. }
    intros [] s2 (Hq & Hv2 & _). pose proof Hq as (Hok2 & Hm2 & _ & Hp2 & _). apply wp_ret. left. split; [done |].
    apply Hdone; try done. by eapply requeued_tame.
  - apply negb_false_iff, Z.eqb_eq in Eold. apply wp_ret. left. split; [done |]. apply Hdone; try done; [| apply tame_refl].
    eapply pages_ok_ext; [exact Hok1 |]. intros q Hq _. unfold give. rewrite Eold. by destruct (Z.eqb_spec q 0).
Qed.
End insert.

Lemma vm_insert_frame_spec o T s ls va frame : space_inv (give frame o) T s ls -> solvent o -> light s -> is_u 64 va ->
  frame_ok frame -> data_frame s frame -> hold s frame + count s frame < 0xFFFF ->
  wp (vm_insert_frame va frame) (fun r s' =>
    (r = 0 /\ frame_inserted o ls va frame s s') \/
    (r = - EFAULT /\ s' = s /\ (view ls va = None \/ ~ aligned va)) \/
    (r = - ENOMEM /\ spare (fr s) < 3 /\ (exists T', space_inv (give frame o) T' s' ls) /\ light s' /\ tame o s s' /\ vm s' = vm s /\
     forall va', pte s' va' = pte s va')) s.
Proof.
  intros Hinv Hsol Hl Hu Hfr Hd Hroom. pose proof (si_shape _ _ _ _ Hinv) as Hs. pose proof (sh_areas _ _ Hs) as Hwf.
  unfold vm_insert_frame, insert_frame_locked. apply wp_bind. eapply wp_asks; [by apply vm_find_spec |]. rewrite low_bits by done.
  destruct (area_of_addr ls va) as [[a r] |] eqn:Ea; cbn [ptr fst].
  2:{ cbn [Z.eqb orb]. apply wp_ret. right. left. split; [done |]. split; [done |]. left. unfold view. by rewrite Ea. }
  apply area_of_addr_Some in Ea as [Hin Hc]; [| done]. cbn [snd] in Hc.
  pose proof (shape_nonzero _ _ (a, r) Hs Hin) as H0%Z.eqb_neq. simpl in H0. rewrite H0. cbn [orb].
  destruct (Z.eqb_spec (va mod PAGE_SIZE) 0) as [Hal | Hna]; cbn [negb]; [| apply wp_ret; right; left; by auto].
  assert (user_page va) as Hva.
  { pose proof (areas_wf_elem _ _ Hwf Hin) as [_ _ _ ? ?]. destruct Hc. simpl in *. split; [unfold user_va; lia | done]. }
  apply wp_bind, (wp_asks _ r); [by apply (sh_recs _ _ Hs) |].
  pose proof (view_in ls (a, r) va Hwf Hin Hc) as Hv. cbn [snd] in Hv.
  assert (wp (let* err := map_page_vm va frame (pte_flags (va_prot r)) in
      if err <? 0 then ret (- ENOMEM)
      else when (negb (frame_of (pte s va) =? 0)) (free_physical_page (frame_of (pte s va))) ;; ret 0) _ s) as Hstep
    by exact (insert_step o T s ls va frame Hinv Hsol Hl Hfr Hd Hroom (area_view r va) Hva Hv).
  apply wp_bind. apply (find_pte_spec (give frame o) T); [apply Hinv | apply Hva | |].
  - intros E. rewrite E in Hstep. apply wp_bind, wp_ret. eapply wp_mono; [exact Hstep |]. intros x s' [H | H]; [by left | by right; right].
  - intros p Hp. apply wp_bind, wp_bind. apply (load_spec (give frame o) T s va); [apply Hinv | done |]. apply wp_ret.
    eapply wp_mono; [exact Hstep |]. intros x s' [H | H]; [by left | by right; right].
Qed.
End file.
