(* ===== verification/VmMove.v ===== *)
(** * Moving a mapping

    [move_locked] moves an area and the entries of its pages to other
    addresses: the frames stay, so a process finds at the new addresses what
    the old ones held.  If a table cannot be allocated, the entries moved so
    far are moved back. *)

From Stdlib Require Import ZArith Lia Bool.
From stdpp Require Import base list option gmap.
From S2P Require Import Prelude Mmu Frames PageTable PageTableFacts StateMonad Rbtree RbtreeFacts RbtreeRemove VmArea VmAreaFacts Vm VmPages VmPageOps VmOps VmProtect VmCow VmFault VmBrk.
Open Scope Z_scope.
Open Scope prog_scope.

Lemma frame_flags e : Z.lor (frame_of e) (Z.ldiff e PTE_FRAME) = e.
Proof.
  unfold frame_of. apply Z.bits_inj'. intros i Hi. rewrite Z.lor_spec, Z.land_spec, Z.ldiff_spec.
  by destruct (Z.testbit e i), (Z.testbit PTE_FRAME i).
Qed.

(** An entry [v] moves from page [u] to page [w]. *)
Definition shifted (e : Z -> Z) (u w : Z) : Z -> Z := set_pte (set_pte e w (e u)) u 0.

Lemma shifted_uses e e' f u w : user_page u -> user_page w -> u <> w -> f <> 0 -> has_frame (e w) = false ->
  (forall va, user_page va -> e' va = shifted e u w va) ->
  uses e' f USER_ADDR_MIN USER_ADDR_LIMIT = uses e f USER_ADDR_MIN USER_ADDR_LIMIT.
Proof.
  intros [Hu Hua] [Hw Hwa] Hne Hf Hnf He. pose proof (proj1 user_range_aligned) as H1. pose proof (proj2 user_range_aligned) as H2.
  rewrite (uses_ext _ _ H1 H2 e' (shifted e u w)) by (intros; by apply He). unfold shifted.
  rewrite (uses_update _ _ H1 H2 (set_pte e w (e u)) (set_pte (set_pte e w (e u)) u 0) f u) by
    (done || (intros va _ _ Hn; unfold set_pte; by destruct (Z.eqb_spec va u))).
  rewrite (uses_update _ _ H1 H2 e (set_pte e w (e u)) f w) by
    (done || (intros va _ _ Hn; unfold set_pte; by destruct (Z.eqb_spec va w))).
  unfold set_pte. rewrite !Z.eqb_refl. destruct (Z.eqb_spec u w); [done |].
  rewrite has_frame_of in Hnf. apply negb_false_iff, Z.eqb_eq in Hnf. rewrite Hnf. change (frame_of 0) with 0.
  destruct (Z.eqb_spec 0 f); [congruence | lia].
Qed.

Section move.
Context {A : Type} `{!Frames A, !FramesOk A}.
Implicit Types (s : state A) (o : Z -> Z) (T : gset Z) (ls : alist).

(** Entries and tables may have changed, the frames and their owners did not. *)
Record steady o T s T' s' : Prop := {
  ss_ok : pages_ok o T' s';
  ss_vm : vm s' = vm s;
  ss_tame : tame o s s';
  ss_sub : T ⊆ T';
  ss_calm : calm T s s';
  ss_count : forall f, f <> 0 -> count s' f = count s f;
  ss_entry : forall va p, entry s va p -> entry s' va p;
}.

Lemma steady_refl o T s : pages_ok o T s -> steady o T s T s.
Proof. intros H. constructor; try done. apply tame_refl. Qed.

(** A frame in use does not become a table. *)
Lemma stays_data o T s T' s' q : pages_ok o T s -> solvent o -> pages_ok o T' s' -> vm s' = vm s ->
  (forall f, f <> 0 -> count s' f = count s f) -> q mod PAGE_SIZE = 0 -> 0 < hold s q -> q ∉ T -> q ∉ T'.
Proof.
  intros Hok Hsol Hok' Hv Hc Hm Hh HT HT'. pose proof (held_nonzero o T s q Hok Hm Hh) as H0.
  pose proof (po_ledger _ _ _ Hok q H0 Hm) as L. rewrite decide_False in L by done.
  pose proof (po_excl _ _ _ Hok' q HT') as E.
  pose proof (count_nonneg s q). pose proof (pend_nonneg (pending (vm s)) q).
  destruct (table_not_data o T' s' q Hok' H0); [| done]. rewrite (Hc q H0), Hv. lia.
Qed.

Lemma steady_not_table o T s T' s' q : pages_ok o T s -> solvent o -> steady o T s T' s' ->
  q mod PAGE_SIZE = 0 -> 0 < hold s q -> q ∉ T -> q ∉ T'.
Proof. intros Hok Hsol []. by apply (stays_data o T s T' s'). Qed.

Lemma steady_hold o T s T' s' q : pages_ok o T s -> solvent o -> steady o T s T' s' ->
  q mod PAGE_SIZE = 0 -> 0 < hold s q -> hold s' q = hold s q.
Proof.
  intros Hok Hsol Hs Hm Hh. pose proof (held_nonzero o T s q Hok Hm Hh) as H0.
  rewrite (po_ledger _ _ _ Hok q H0 Hm), (po_ledger _ _ _ (ss_ok _ _ _ _ _ Hs) q H0 Hm).
  rewrite (ss_count _ _ _ _ _ Hs q H0), (ss_vm _ _ _ _ _ Hs).
  destruct (decide (q ∈ T)) as [Hq | Hq].
  - rewrite decide_True; [done |]. by apply (ss_sub _ _ _ _ _ Hs).
  - rewrite decide_False; [done |]. by apply (steady_not_table o T s T' s').
Qed.

Lemma steady_trans o T1 s1 T2 s2 T3 s3 : pages_ok o T1 s1 -> solvent o -> steady o T1 s1 T2 s2 ->
  steady o T2 s2 T3 s3 -> steady o T1 s1 T3 s3.
Proof.
  intros Hok Hsol H1 H2. pose proof H1 as [O1 V1 M1 S1 C1 N1 E1]. pose proof H2 as [O2 V2 M2 S2 C2 N2 E2].
  constructor; [done | congruence | by eapply tame_trans | set_solver | | intros f Hf; by rewrite N2, N1 | auto].
  intros q Hq Hh HT. rewrite C2; [by apply C1 | done | |].
  - by rewrite (steady_hold o T1 s1 T2 s2 q).
  - by apply (steady_not_table o T1 s1 T2 s2 q).
Qed.

Lemma steady_light o T s T' s' : pages_ok o T s -> solvent o -> light s -> steady o T s T' s' -> light s'.
Proof.
  intros Hok Hsol Hl Hs. apply (light_ledger o T T' s s'); try done; [apply Hs | by rewrite (ss_vm _ _ _ _ _ Hs) |].
  intros f Hf Hm. left. rewrite (ss_count _ _ _ _ _ Hs f Hf). lia.
Qed.

(** What a frame of a page holds is the same. *)
Lemma steady_mem o T s T' s' va : pages_ok o T s -> solvent o -> steady o T s T' s' -> user_page va ->
  has_frame (pte s va) = true -> mm s' !! frame_of (pte s va) = mm s !! frame_of (pte s va).
Proof.
  intros Hok Hsol Hs Hva Hf. destruct (page_frame o T s va Hok Hva Hf) as (Hc & H0 & _).
  apply (ss_calm _ _ _ _ _ Hs); [apply frame_of_aligned | by apply (page_held o T) |].
  apply (table_not_data o T s _ Hok H0). pose proof (pend_nonneg (pending (vm s)) (frame_of (pte s va))). lia.
Qed.

(** ** One page *)

Lemma no_frame e : has_frame e = false -> frame_of e = 0.
Proof. rewrite has_frame_of. by intros ?%negb_false_iff%Z.eqb_eq. Qed.

(** The entry is gone from [u] after it was stored at [w]. *)
Lemma swap_shift o e e' : frame_of e' = 0 -> same_owners (swap e 0 (swap e' e o)) o.
Proof.
  intros E q Hq _. unfold swap, give, take_off. rewrite E. change (frame_of 0) with 0.
  destruct (Z.eqb_spec q 0); [done |]. destruct (q =? frame_of e); lia.
Qed.

Lemma shifted_count s s' u w f : user_page u -> user_page w -> u <> w -> f <> 0 -> has_frame (pte s w) = false ->
  (forall va, user_page va -> pte s' va = shifted (pte s) u w va) -> count s' f = count s f.
Proof. apply shifted_uses. Qed.

Lemma store_shifts o T s T1 s1 u w p : pages_ok o T s -> solvent o -> user_page u -> user_page w -> u <> w ->
  has_frame (pte s u) = true -> has_frame (pte s w) = false -> entry s1 u p ->
  pages_ok (swap (pte s w) (pte s u) o) T1 s1 -> vm s1 = vm s -> tame o s s1 -> T ⊆ T1 ->
  (forall q, q mod PAGE_SIZE = 0 -> 0 < hold s q -> q ∉ T1 -> q ∉ T -> mm s1 !! q = mm s !! q) ->
  (forall va p, entry s va p -> entry s1 va p) ->
  (forall va, user_page va -> pte s1 va = set_pte (pte s) w (pte s u) va) ->
  wp (store p 0) (fun _ s2 => fr s2 = fr s1 /\ steady o T s T1 s2 /\
    forall va, user_page va -> pte s2 va = shifted (pte s) u w va) s1.
Proof.
  intros Hok Hsol Hu Hw Hne Hf Hnf He Hok1 Hv1 Ht1 Hsub Hm1 He1 Hp1.
  assert (pte s1 u = pte s u) as Eu by (rewrite Hp1 by done; unfold set_pte; by destruct (Z.eqb_spec u w)).
  eapply wp_mono; [eapply wp_also; [apply (store_spec _ T1 s1 u p 0 Hok1 Hu He) | apply store_fr] |]; [done | done |].
  intros [] s2 [Hst Hfr]. pose proof (sd_ok _ _ _ _ _ _ Hst) as Hok2. rewrite Eu in Hok2.
  apply (pages_ok_ext _ o) in Hok2; [| by apply swap_shift, no_frame].
  assert (forall va, user_page va -> pte s2 va = shifted (pte s) u w va) as Hp2.
  { intros va Hva. rewrite (sd_pte _ _ _ _ _ _ Hst) by done. unfold shifted, set_pte at 1 2.
    destruct (va =? u); [done | by rewrite Hp1]. }
  assert (forall f, f <> 0 -> count s2 f = count s f) as Hc2 by (intros f Hf0; by apply (shifted_count s s2 u w)).
  assert (vm s2 = vm s) as Hv2 by (rewrite (sd_vm _ _ _ _ _ _ Hst); done).
  split; [done |]. split; [| done]. constructor; try done.
  - eapply tame_trans; [exact Ht1 |]. by eapply tame_stored.
  - intros q Hq Hh HT. pose proof (stays_data o T s T1 s2 q Hok Hsol Hok2 Hv2 Hc2 Hq Hh HT) as HT1.
    rewrite (sd_mem _ _ _ _ _ _ Hst) by done. by apply Hm1.
  - intros va p' Hp. eapply stored_entry; [exact Hst | by apply He1].
Qed.

(** The body of the first loop on a page with a frame. *)
Lemma map_shifts o T s u w p : pages_ok o T s -> solvent o -> user_page u -> user_page w -> u <> w ->
  entry s u p -> has_frame (pte s u) = true -> has_frame (pte s w) = false ->
  wp (map_page_vm w (Z.land (pte s u) PTE_FRAME) (Z.ldiff (pte s u) PTE_FRAME)) (fun err s1 =>
    cost 3 (err =? 0) (fr s) (fr s1) /\ exists T1,
    ((err = -1 /\ steady o T s T1 s1 /\ forall va, pte s1 va = pte s va) \/
     (err = 0 /\ wp (store p 0) (fun _ s2 => fr s2 = fr s1 /\ steady o T s T1 s2 /\
        forall va, user_page va -> pte s2 va = shifted (pte s) u w va) s1))) s.
Proof.
  intros Hok Hsol Hu Hw Hne He Hf Hnf. destruct (page_frame o T s u Hok Hu Hf) as (_ & H0 & Hd).
  pose proof (page_held o T s u Hok Hsol Hu Hf) as Hh.
  eapply wp_mono; [apply (map_page_spec o T s w (frame_of (pte s u))); try done |].
  - by rewrite frame_flags.
  - rewrite frame_flags. by apply (po_user _ _ _ Hok).
  - rewrite frame_flags. intros err s1 (T1 & Hg & Hcost & Hres). split; [done |]. exists T1.
    pose proof (tame_grown o o T T1 s s1 Hok Hsol Hg (fun q H => H)) as Ht.
    destruct Hres as [(-> & Hok1 & _ & Hp1) | (-> & Hok1 & Hp1)]; [right | left]; (split; [done |]).
    + apply (store_shifts o T s); try done; try apply Hg; try done.
      intros q Hq Hqh _ HT. by apply (gw_mem _ _ _ _ Hg).
    + split; [| done]. constructor; [done | apply Hg | done | apply Hg | exact (gw_mem _ _ _ _ Hg) | | exact (gw_entry _ _ _ _ Hg)].
      intros f _. apply count_ext. intros va _. by rewrite Hp1.
Qed.

(** The body of the loop that takes the entries back. *)
Lemma store_back o T s u w p p' : pages_ok o T s -> solvent o -> user_page u -> user_page w -> u <> w ->
  entry s u p -> entry s w p' -> has_frame (pte s u) = true -> has_frame (pte s w) = false ->
  wp (store p' (pte s u) ;; store p 0) (fun _ s2 => steady o T s T s2 /\
    forall va, user_page va -> pte s2 va = shifted (pte s) u w va) s.
Proof.
  intros Hok Hsol Hu Hw Hne He He' Hf Hnf. apply wp_bind.
  eapply wp_mono; [apply (store_spec o T s w p' _ Hok Hw He') |].
  { intros _. split; [by apply (po_user _ _ _ Hok) | right; by apply (page_frame o T s u Hok Hu Hf)]. }
  { congruence. }
  intros [] s1 Hst. eapply wp_mono; [apply (store_shifts o T s T s1 u w p); try done; try apply Hst |].
  - by eapply stored_entry.
  - split; [apply Hst |]. intros q Hq Hm Ho. apply (sd_mem _ _ _ _ _ _ Hst). by apply (excl_not_table o T s).
  - intros q _ _ HT _. by apply (sd_mem _ _ _ _ _ _ Hst).
  - intros va q Hq. by eapply stored_entry.
  - intros [] s2 [_ ?]. done.
Qed.

(** ** The loops *)

(** The entries of the pages from [old] to [old + hi] are at [new]. *)
Definition moved (e : Z -> Z) (old new hi va : Z) : Z :=
  if (new <=? va) && (va <? new + hi) && has_frame (e (old + (va - new))) then e (old + (va - new))
  else if (old <=? va) && (va <? old + hi) && has_frame (e va) then 0 else e va.

Section ranges.
Context (old new len : Z).
Hypotheses (Hold : page_range old (old + len)) (Hnew : page_range new (new + len)).
Hypothesis (Hdis : old + len <= new \/ new + len <= old).

Lemma moved_none e va : moved e old new 0 va = e va.
Proof. unfold moved. by zcases. Qed.

Lemma moved_here e off : 0 <= off < len ->
  moved e old new off (old + off) = e (old + off) /\ moved e old new off (new + off) = e (new + off).
Proof using Hdis. intros Ho. unfold moved. split; zcases. Qed.

Lemma page_step a va off : aligned a -> aligned off -> aligned va ->
  (va <? a + (off + PAGE_SIZE)) = (va <? a + off) || (va =? a + off).
Proof.
  intros Ha Ho Hv. pose proof (aligned_gap (a + off) va (aligned_sum _ _ Ha Ho) Hv).
  destruct (Z.ltb_spec va (a + (off + PAGE_SIZE))), (Z.ltb_spec va (a + off)), (Z.eqb_spec va (a + off)); try done; unfold PAGE_SIZE in *; lia.
Qed.

Lemma moved_next e off va : aligned off -> 0 <= off < len -> aligned va ->
  moved e old new (off + PAGE_SIZE) va =
    if has_frame (e (old + off)) then shifted (moved e old new off) (old + off) (new + off) va
    else moved e old new off va.
Proof using Hold Hnew Hdis.
  intros Ha Ho Hv. pose proof Hold as [Ho1 Ho2 _ _ _]. pose proof Hnew as [Hn1 Hn2 _ _ _].
  unfold shifted, set_pte. rewrite (proj1 (moved_here e off Ho)). unfold moved.
  rewrite !page_step by done.
  destruct (Z.eqb_spec va (old + off)) as [-> | Hne1]; [rewrite orb_true_r |].
  - destruct (Z.leb_spec new (old + off)), (Z.ltb_spec (old + off) (new + off)), (Z.eqb_spec (old + off) (new + off)),
      (Z.leb_spec old (old + off)), (Z.ltb_spec (old + off) (old + off)); try lia; cbn [andb orb]; by destruct (has_frame (e (old + off))).
  - rewrite orb_false_r. destruct (Z.eqb_spec va (new + off)) as [-> | Hne2]; [| by rewrite orb_false_r; destruct (has_frame (e (old + off)))].
    rewrite orb_true_r, andb_true_r. replace (old + (new + off - new)) with (old + off) by lia.
    destruct (Z.leb_spec new (new + off)), (Z.ltb_spec (new + off) (new + off)); try lia; cbn [andb].
    by destruct (has_frame (e (old + off))).
Qed.

(** How far the first loop is. *)
Definition moving o T0 s0 (off : Z) s : Prop :=
  exists T, steady o T0 s0 T s /\ forall va, user_page va -> pte s va = moved (pte s0) old new off va.

Lemma moving_start o T s : pages_ok o T s -> moving o T s 0 s.
Proof. intros H. exists T. split; [by apply steady_refl |]. intros va _. by rewrite moved_none. Qed.

Lemma off_pages off : aligned off -> 0 <= off < len -> user_page (old + off) /\ user_page (new + off) /\
  old + off <> new + off /\ u64 (old + off) = old + off /\ u64 (new + off) = new + off.
Proof using Hold Hnew Hdis.
  intros Ha Ho. pose proof Hold as [Ho1 Ho2 Ho3 _ Ho4]. pose proof Hnew as [Hn1 Hn2 Hn3 _ Hn4].
  unfold user_page, user_va. split_and!; try lia; try (by apply aligned_sum);
    apply u64_small; unfold USER_ADDR_MIN, USER_ADDR_LIMIT in *; lia.
Qed.

Lemma moving_skip o T0 s0 off s : aligned off -> 0 <= off < len -> has_frame (pte s0 (old + off)) = false ->
  moving o T0 s0 off s -> moving o T0 s0 (off + PAGE_SIZE) s.
Proof using Hold Hnew Hdis.
  intros Ha Ho Hf (T & Hs & Hp). exists T. split; [done |]. intros va Hva. rewrite moved_next by (done || apply Hva).
  rewrite Hf. by apply Hp.
Qed.

(** The first loop stops at [r], with everything moved up to there. *)
Lemma move_loop_spec n o T0 s0 off s : pages_ok o T0 s0 -> solvent o ->
  (forall va, user_page va -> new <= va < new + len -> has_frame (pte s0 va) = false) ->
  moving o T0 s0 off s -> aligned off -> 0 <= off -> off + Z.of_nat n * PAGE_SIZE = len ->
  wp (move_loop n old new off) (fun r s' => moving o T0 s0 r s' /\ off <= r <= len /\ aligned r /\
    cost (3 * Z.of_nat n) (r =? len) (fr s) (fr s')) s.
Proof using Hold Hnew Hdis.
  intros Hok0 Hsol Hempty. revert off s. induction n as [| n IH]; intros off s Hmv Ha H0 Hn; cbn [move_loop].
  { apply wp_ret. split_and!; try done; try lia. replace (off =? len) with true by (symmetry; apply Z.eqb_eq; lia). by apply cost_none. }
  rewrite Nat2Z.inj_succ in Hn. assert (0 <= off < len) as Ho by (unfold PAGE_SIZE in *; lia).
  destruct (off_pages off Ha Ho) as (Hu & Hw & Hne & -> & ->).
  pose proof Hmv as (T & Hs & Hp). pose proof (ss_ok _ _ _ _ _ Hs) as Hok.
  destruct (moved_here (pte s0) off Ho) as [Eu Ew]. rewrite <- Hp in Eu, Ew by done.
  assert (forall s1, moving o T0 s0 (off + PAGE_SIZE) s1 -> cost 3 true (fr s) (fr s1) ->
    wp (move_loop n old new (off + PAGE_SIZE)) (fun r s' => moving o T0 s0 r s' /\ off <= r <= len /\ aligned r /\
      cost (3 * Z.of_nat (S n)) (r =? len) (fr s) (fr s')) s1) as Hnext.
  { intros s1 Hmv1 Hc1. eapply wp_mono; [apply (IH (off + PAGE_SIZE) s1 Hmv1); [by apply aligned_add | unfold PAGE_SIZE; lia | lia] |].
    intros r s' (Hm & Hr & Har & Hc). split_and!; try done; try (unfold PAGE_SIZE in *; lia).
    pose proof (cost_trans _ _ _ _ _ _ Hc1 Hc) as Hct. eapply cost_weaken; [exact Hct | lia]. }
  apply wp_bind. apply (find_pte_spec o T); [done | apply Hu | |].
  { intros E. apply wp_bind, wp_ret. apply Hnext; [| by apply cost_none]. apply moving_skip; try done. by rewrite <- Eu, E. }
  intros p Hpe. apply wp_bind. apply (load_spec o T s (old + off)); [done | done |].
  destruct (has_frame (pte s (old + off))) eqn:Hf.
  2:{ apply Hnext; [| by apply cost_none]. apply moving_skip; try done. by rewrite <- Eu. }
  assert (has_frame (pte s (new + off)) = false) as Hnf by (rewrite Ew; apply Hempty; [done | lia]).
  apply wp_bind. eapply wp_mono; [by apply (map_shifts o T s (old + off) (new + off) p) |].
  intros err s1 (Hc1 & T1 & [(-> & Hs1 & Hp1) | (-> & Hst)]); cbn [Z.ltb Z.compare].
  - apply wp_ret. split_and!; try done; try lia; [| apply (cost_weaken 3); [| lia]].
    + exists T1. split; [by apply (steady_trans o T0 s0 T s) |]. intros va Hva. rewrite Hp1. by apply Hp.
    + cbn in Hc1. by destruct (Z.eqb_spec off len); [lia |].
  - apply wp_bind. eapply wp_mono; [exact Hst |]. intros [] s2 (Hfr & Hs2 & Hp2). apply Hnext; [| by rewrite Hfr].
    exists T1. split; [by apply (steady_trans o T0 s0 T s) |]. intros va Hva. rewrite Hp2, moved_next by (done || apply Hva).
    rewrite <- Eu, Hf. unfold shifted, set_pte. by rewrite !Hp.
Qed.

(** The entries of the first [lo] bytes are back. *)
Definition restored (e : Z -> Z) (lo hi va : Z) : Z :=
  if (old <=? va) && (va <? old + lo) || (new <=? va) && (va <? new + lo) then e va else moved e old new hi va.

Lemma restored_all e hi va : restored e hi hi va = e va.
Proof.
  unfold restored, moved. destruct ((old <=? va) && (va <? old + hi)), ((new <=? va) && (va <? new + hi)); done.
Qed.

Lemma restored_here e lo hi : 0 <= lo < hi -> hi <= len ->
  restored e lo hi (old + lo) = (if has_frame (e (old + lo)) then 0 else e (old + lo)) /\
  restored e lo hi (new + lo) = (if has_frame (e (old + lo)) then e (old + lo) else e (new + lo)).
Proof using Hdis.
  intros Hl Hh. unfold restored, moved. replace (old + (new + lo - new)) with (old + lo) by lia.
  split; destruct (has_frame (e (old + lo))); zcases.
Qed.

Lemma restored_next e lo hi va : aligned lo -> 0 <= lo < hi -> hi <= len -> aligned va -> e (new + lo) = 0 ->
  restored e (lo + PAGE_SIZE) hi va =
    if has_frame (e (old + lo)) then shifted (restored e lo hi) (new + lo) (old + lo) va else restored e lo hi va.
Proof using Hold Hnew Hdis.
  intros Ha Hl Hh Hv E0. pose proof Hold as [Ho1 _ _ _ _]. pose proof Hnew as [Hn1 _ _ _ _].
  destruct (restored_here e lo hi Hl Hh) as [Eo En].
  unfold shifted, set_pte. rewrite En. unfold restored at 1. rewrite !page_step by done.
  destruct (Z.eqb_spec va (new + lo)) as [-> | Hne1].
  { rewrite En, orb_true_r, andb_true_r, E0. by destruct (has_frame (e (old + lo))), (Z.leb_spec new (new + lo)); try lia;
      rewrite orb_true_r. }
  destruct (Z.eqb_spec va (old + lo)) as [-> | Hne2].
  { rewrite Eo, orb_true_r, andb_true_r. by destruct (has_frame (e (old + lo))), (Z.leb_spec old (old + lo)); try lia. }
  rewrite !orb_false_r. by destruct (has_frame (e (old + lo))).
Qed.

Lemma find_entry s va p (Q : option (Z * Z) -> state A -> Prop) o T : pages_ok o T s -> user_va va -> entry s va p ->
  Q (Some p) s -> wp (find_pte va) Q s.
Proof.
  intros Hok Hva (t & Ht & ->) HQ. unfold find_pte. eapply wp_asks; [by apply wf_find_pte, (po_wf _ _ _ Hok) |].
  fold (mm s) (root s). by rewrite Ht.
Qed.

(** A page with a frame has an entry. *)
Lemma page_entry o T s va : pages_ok o T s -> user_page va -> has_frame (pte s va) = true -> exists p, entry s va p.
Proof.
  intros Hok [Hva _] Hf. destruct (walk (mm s) (root s) 3 va) as [t |] eqn:E; [by exists (t, ix 3 va), t |].
  by rewrite (po_small _ _ _ Hok va Hva E) in Hf.
Qed.

Lemma move_back_spec n o T0 s0 lo hi s T : pages_ok o T0 s0 -> solvent o -> hi <= len ->
  (forall va, user_page va -> new <= va < new + len -> has_frame (pte s0 va) = false) ->
  steady o T0 s0 T s -> (forall va, user_page va -> pte s va = restored (pte s0) lo hi va) ->
  aligned lo -> 0 <= lo -> lo + Z.of_nat n * PAGE_SIZE = hi ->
  wp (move_back n old new lo) (fun _ s' => exists T', steady o T0 s0 T' s' /\
    forall va, user_page va -> pte s' va = pte s0 va) s.
Proof using Hold Hnew Hdis.
  intros Hok0 Hsol Hhi Hempty. revert lo s T. induction n as [| n IH]; intros lo s T Hs Hp Ha H0 Hn; cbn [move_back].
  { apply wp_ret. exists T. split; [done |]. intros va Hva. rewrite Hp by done. replace lo with hi by lia. apply restored_all. }
  rewrite Nat2Z.inj_succ in Hn. assert (0 <= lo < hi) as Hlo by (unfold PAGE_SIZE in *; lia).
  destruct (off_pages lo Ha ltac:(lia)) as (Hu & Hw & Hne & -> & ->). pose proof (ss_ok _ _ _ _ _ Hs) as Hok.
  destruct (restored_here (pte s0) lo hi Hlo Hhi) as [Eo En]. rewrite <- Hp in Eo, En by done.
  assert (pte s0 (new + lo) = 0) as E0 by (apply (po_empty _ _ _ Hok0); [done | apply Hempty; [done | lia]]).
  pose proof (fun va (H : user_page va) => restored_next (pte s0) lo hi va Ha Hlo Hhi (proj2 H) E0) as Hnext.
  assert (forall T1 s1, steady o T0 s0 T1 s1 ->
    (forall va, user_page va -> pte s1 va = restored (pte s0) (lo + PAGE_SIZE) hi va) ->
    wp (move_back n old new (lo + PAGE_SIZE)) (fun _ s' => exists T', steady o T0 s0 T' s' /\
      forall va, user_page va -> pte s' va = pte s0 va) s1) as Hgo.
  { intros T1 s1 Hs1 Hp1. apply (IH _ s1 T1 Hs1 Hp1); [by apply aligned_add | unfold PAGE_SIZE; lia | lia]. }
  assert (has_frame (pte s (new + lo)) = has_frame (pte s0 (old + lo))) as Ef.
  { rewrite En. destruct (has_frame (pte s0 (old + lo))) eqn:E; [done | by rewrite E0]. }
  apply wp_bind. apply (find_pte_spec o T); [done | apply Hw | |].
  { intros E. rewrite E in Ef. apply wp_bind, wp_ret. apply (Hgo T s Hs). intros va Hva. rewrite Hnext, <- Ef by done. by apply Hp. }
  intros p Hpe. apply wp_bind, wp_bind. apply (load_spec o T s (new + lo)); [done | done |].
  apply wp_when; intros Hf.
  2:{ apply (Hgo T s Hs). intros va Hva. rewrite Hnext, <- Ef, Hf by done. by apply Hp. }
  rewrite Hf in Ef. rewrite <- Ef in Eo.
  destruct (page_entry o T0 s0 (old + lo) Hok0 Hu (eq_sym Ef)) as [p' Hp0]. apply (ss_entry _ _ _ _ _ Hs) in Hp0.
  apply wp_bind. eapply find_entry; [exact Hok | apply Hu | exact Hp0 |].
  eapply wp_mono; [apply (store_back o T s (new + lo) (old + lo) p p'); try done; by rewrite Eo |].
  intros [] s1 [Hs1 Hp1]. apply (Hgo T s1); [by apply (steady_trans o T0 s0 T s) |].
  intros va Hva. rewrite Hp1, Hnext, <- Ef by done. unfold shifted, set_pte. by rewrite !Hp.
Qed.
End ranges.

(** ** The areas *)

Lemma isolated_exact ls ls' lo hi : solid ls lo hi -> lo < hi -> cut_only lo hi ls ls' ->
  cut_at ls' lo -> cut_at ls' hi -> exists l1 a r l2, ls' = l1 ++ (a, r) :: l2 /\ va_start r = lo /\ va_end r = hi.
Proof.
  intros Hso Hlt Hco Hl Hh. destruct (Hco lo hi Hlt ltac:(lia) ltac:(lia) Hso) as ([a r] & Hx & H1 & H2).
  specialize (Hl _ Hx). specialize (Hh _ Hx). simpl in *. apply list_elem_of_split in Hx as (l1 & l2 & ->).
  exists l1, a, r, l2. split; [done |]. lia.
Qed.

(** The area at its new place. *)
Definition dst_area (r : vm_area) (new end_ : Z) : vm_area :=
  VmArea new end_ (va_prot r) (va_flags r) (va_fops r) (va_file r) (va_offset r).

Lemma dst_view r new end_ addr : area_view (dst_area r new end_) addr = area_view r (va_start r + (addr - new)).
Proof. unfold area_view, dst_area. cbn. do 2 f_equal. f_equal. lia. Qed.

Lemma loose_rest (v v' : vm_space) ls ls' a r : loose v ls a r -> recs v' !! a = recs v !! a ->
  (forall x, x ∈ ls'.*1 -> x ∈ ls.*1) -> loose v' ls' a r.
Proof. intros (H1 & H2 & H3) E H. split; [by rewrite E |]. split; [done | auto]. Qed.

Lemma relink_spec s l1 a r l2 dst r' : shape (vm s) (l1 ++ (a, r) :: l2) ->
  loose (vm s) (l1 ++ (a, r) :: l2) dst r' -> area_wf r' -> range_clear (l1 ++ (a, r) :: l2) (va_start r') (va_end r') ->
  wp (area_remove a ;; area_free a ;; area_insert dst ;; ret 0) (fun x s' => x = 0 /\ same_rest s s' /\
    exists ls', shape (vm s') ls' /\ forall addr, view ls' addr =
      if (va_start r' <=? addr) && (addr <? va_end r') then Some (area_view r' addr)
      else if (va_start r <=? addr) && (addr <? va_end r) then None else view (l1 ++ (a, r) :: l2) addr) s.
Proof.
  intros Hs Hloose Hr' Hclear. pose proof (sh_areas _ _ Hs) as Hwf. destruct (below_neq _ _ _ Hwf) as [Hb1 Hb2].
  assert (wp ((area_remove a ;; area_free a) ;; area_insert dst ;; ret 0) (fun x s' => x = 0 /\ same_rest s s' /\
    exists ls', shape (vm s') ls' /\ forall addr, view ls' addr =
      if (va_start r' <=? addr) && (addr <? va_end r') then Some (area_view r' addr)
      else if (va_start r <=? addr) && (addr <? va_end r) then None else view (l1 ++ (a, r) :: l2) addr) s) as H;
    [| unfold wp, bind in *; destruct (area_remove a s) as [[] |]; done].
  apply wp_bind. eapply wp_mono; [exact (area_drop_spec _ _ _ _ _ Hs) |]. intros [] s1 (Hr1 & _ & Hs1 & Hrec1).
  pose proof (sh_areas _ _ Hs1) as Hwf1.
  assert (loose (vm s1) (l1 ++ l2) dst r') as Hloose1.
  { eapply loose_rest; [exact Hloose | | intros x; rewrite !fmap_app; set_solver]. apply Hrec1. intros ->.
    destruct Hloose as (_ & _ & H). apply H. rewrite fmap_app. set_solver. }
  destruct (range_clear_split (l1 ++ l2) (va_start r') (va_end r') Hwf1) as (lo & hi & E & Hlo & Hhi);
    [apply Hr' | intros x Hx; apply Hclear; set_solver |]. rewrite E in Hs1, Hloose1, Hwf1.
  apply wp_bind. eapply wp_mono; [by apply (area_insert_spec s1 lo hi dst r') |].
  intros [] s2 (Hr2 & _ & _ & Hs2). apply wp_ret. split; [done |]. split; [by eapply same_rest_trans |].
  exists (lo ++ (dst, r') :: hi). split; [done |]. intros addr. rewrite view_insert by apply (sh_areas _ _ Hs2). cbn [snd].
  destruct ((va_start r' <=? addr) && (addr <? va_end r')); [done |]. rewrite <- E, (view_insert l1 (a, r)) by done. cbn [snd].
  destruct ((va_start r <=? addr) && (addr <? va_end r)) eqn:E2; [| done].
  apply andb_prop in E2 as [?%Z.leb_le ?%Z.ltb_lt]. apply view_None; [| by rewrite E].
  intros x Hx [? ?]. apply elem_of_app in Hx as [Hx | Hx]; [specialize (Hb1 x Hx) | specialize (Hb2 x Hx)];
    unfold below in *; simpl in *; lia.
Qed.

(** ** [move_locked] *)

(** The range of [len] bytes at [old] is now at [new], [new_len] bytes long. *)
Record relocated (old len new new_len : Z) s ls s' ls' : Prop := {
  rl_free : forall addr, new <= addr < new + new_len -> view ls addr = None;
  rl_view : exists r, (forall addr, old <= addr < old + len -> view ls addr = Some (area_view r addr)) /\
    forall addr, view ls' addr =
      if (new <=? addr) && (addr <? new + new_len) then Some (area_view r (old + (addr - new)))
      else if (old <=? addr) && (addr <? old + len) then None else view ls addr;
  rl_pte : forall va, user_page va -> pte s' va = moved (pte s) old new len va;
  rl_mem : forall va, user_page va -> has_frame (pte s va) = true ->
    mm s' !! frame_of (pte s va) = mm s !! frame_of (pte s va);
}.

Definition move_result (old len new new_len r : Z) s ls s' ls' : Prop :=
  (r = 0 /\ relocated old len new new_len s ls s' ls') \/
  (r = - ENOMEM /\ (credit s < 3 \/ spare (fr s) < 3 * (len / PAGE_SIZE)) /\ unseen s ls s' ls').

(** The page whose entry is now at [va]. *)
Definition origin (e : Z -> Z) (old new len va : Z) : Z :=
  if (new <=? va) && (va <? new + len) && has_frame (e (old + (va - new))) then old + (va - new) else va.

Lemma moved_origin e old new len va : page_range old (old + len) -> page_range new (new + len) -> user_page va ->
  has_frame (moved e old new len va) = true ->
  moved e old new len va = e (origin e old new len va) /\ user_page (origin e old new len va) /\
  ((new <= va < new + len /\ origin e old new len va = old + (va - new)) \/
   (origin e old new len va = va /\ ~ old <= va < old + len)).
Proof.
  intros [Ho1 _ Ho3 _ Ho4] [Hn1 _ Hn3 _ Hn4] Hva. unfold moved, origin.
  destruct ((new <=? va) && (va <? new + len)) eqn:En; cbn [andb].
  - apply andb_prop in En as [H1%Z.leb_le H2%Z.ltb_lt].
    destruct (has_frame (e (old + (va - new)))) eqn:Ef.
    + intros _. split; [done |]. split; [split; [unfold user_va; lia |] | by left].
      apply aligned_sum; [done |]. unfold aligned in *. by rewrite Zminus_mod, (proj2 Hva), Hn1.
    + destruct ((old <=? va) && (va <? old + len)) eqn:Eo; cbn [andb].
      * destruct (has_frame (e va)) eqn:Ev; [done | congruence].
      * intros Hf. split; [done |]. split; [done |]. right. split; [done |]. intros [? ?].
        apply andb_false_iff in Eo as [?%Z.leb_gt | ?%Z.ltb_ge]; lia.
  - destruct ((old <=? va) && (va <? old + len)) eqn:Eo; cbn [andb].
    + destruct (has_frame (e va)) eqn:Ev; [done | congruence].
    + intros Hf. split; [done |]. split; [done |]. right. split; [done |]. intros [? ?].
      apply andb_false_iff in Eo as [?%Z.leb_gt | ?%Z.ltb_ge]; lia.
Qed.

Section placed.
Context (old len new new_len : Z) (s s' : state A) (ls ls' : alist).
Hypotheses (Hold : page_range old (old + len)) (Hnew : page_range new (new + len)) (Hlen : len <= new_len).
Hypothesis (Hrl : relocated old len new new_len s ls s' ls').

(** A page with a frame has the attributes of the page it comes from, but for
    the position in the file. *)
Lemma relocated_page va : user_page va -> has_frame (pte s' va) = true -> agree (pte s) ls ->
  pte s' va = pte s (origin (pte s) old new len va) /\ user_page (origin (pte s) old new len va) /\
  (exists v v', view ls' va = Some v' /\ view ls (origin (pte s) old new len va) = Some v /\
    prot_of v' = prot_of v /\ flags_of v' = flags_of v).
Proof using Hold Hnew Hlen Hrl.
  intros Hva Hf Hag. destruct Hrl as [Hfree (r & Hr & Hv) Hp _]. rewrite Hp in Hf by done.
  destruct (moved_origin _ _ _ _ _ Hold Hnew Hva Hf) as (E & Hu & Hc). rewrite Hp by done. split; [done |]. split; [done |].
  destruct Hc as [[Hin Eo] | [Eo Hout]].
  - rewrite Eo. exists (area_view r (old + (va - new))), (area_view r (old + (va - new))). rewrite Hv.
    destruct (Z.leb_spec new va), (Z.ltb_spec va (new + new_len)); try lia. cbn [andb].
    split; [done |]. split; [apply Hr; lia | done].
  - rewrite Eo in *. rewrite E in Hf. specialize (Hag va Hva Hf). rewrite Hv.
    destruct (Z.leb_spec new va), (Z.ltb_spec va (new + new_len)); cbn [andb];
      try (rewrite (Hfree va) in Hag by lia; done).
    all: destruct (Z.leb_spec old va), (Z.ltb_spec va (old + len)); try lia; cbn [andb].
    all: destruct (view ls va) as [v |]; [by exists v, v | done].
Qed.

Lemma agree_relocated : agree (pte s) ls -> agree (pte s') ls'.
Proof using Hold Hnew Hlen Hrl.
  intros Hag va Hva Hf. destruct (relocated_page va Hva Hf Hag) as (E & Hu & v & v' & -> & Ev & Hpr & _).
  rewrite E in *. specialize (Hag _ Hu Hf). rewrite Ev in Hag. unfold allowed in *. by rewrite Hpr.
Qed.

Lemma cow_safe_relocated o : agree (pte s) ls -> cow_safe o (pte s) ls -> cow_safe o (pte s') ls'.
Proof using Hold Hnew Hlen Hrl.
  intros Hag [Ha Hr]. constructor.
  - intros va Hva Hf Hp Hc. destruct (relocated_page va Hva Hf Hag) as (E & Hu & v & v' & Ev' & Ev & _ & Hfl).
    rewrite Ev' in Hp. cbn in Hp. rewrite Hfl in Hp. rewrite E in Hf, Hc |- *.
    destruct (Ha _ Hu Hf) as [Ho Hone]; [by rewrite Ev | done |]. split; [done |]. intros va2 Hva2 E2.
    assert (has_frame (pte s' va2) = true) as Hf2 by (rewrite has_frame_of, E2, <- has_frame_of; done).
    destruct (relocated_page va2 Hva2 Hf2 Hag) as (E2' & Hu2 & _). rewrite E2' in E2. apply Hone in E2; [| done].
    rewrite (rl_pte _ _ _ _ _ _ _ _ Hrl) in Hf2 by done.
    assert (has_frame (moved (pte s) old new len va) = true) as Hf1 by (rewrite <- (rl_pte _ _ _ _ _ _ _ _ Hrl), E; done).
    destruct (moved_origin _ _ _ _ _ Hold Hnew Hva Hf1) as (_ & _ & C1).
    destruct (moved_origin _ _ _ _ _ Hold Hnew Hva2 Hf2) as (_ & _ & C2).
    destruct C1 as [[? C1] | [C1 ?]], C2 as [[? C2] | [C2 ?]]; rewrite C1, C2 in E2; lia.
  - intros va Hva Hf. destruct (relocated_page va Hva Hf Hag) as (E & Hu & _). rewrite E in *. by apply Hr.
Qed.

(** What the pages hold: at the new place what was at the old one, and what was
    there everywhere else. *)
Lemma relocated_content va : user_page va -> agree (pte s) ls -> content s' va =
  if (new <=? va) && (va <? new + len) then content s (old + (va - new))
  else if (old <=? va) && (va <? old + len) then Some zero_frame else content s va.
Proof using Hold Hnew Hlen Hrl.
  intros Hva Hag. pose proof Hrl as [Hfree _ Hp Hm]. unfold content. rewrite Hp by done. unfold moved.
  destruct ((new <=? va) && (va <? new + len)) eqn:En; cbn [andb].
  - apply andb_prop in En as [?%Z.leb_le ?%Z.ltb_lt].
    destruct (has_frame (pte s (old + (va - new)))) eqn:Ef.
    + rewrite Ef. apply Hm; [| done]. pose proof Hold as [Ho1 _ Ho3 _ Ho4]. split; [unfold user_va; lia |].
      apply aligned_sum; [done |]. unfold aligned in *. by rewrite Zminus_mod, (proj2 Hva), (pr_start _ _ Hnew).
    + assert (has_frame (pte s va) = false) as Ev.
      { apply not_true_is_false. intros Hf. specialize (Hag va Hva Hf). rewrite Hfree in Hag by lia. done. }
      by destruct (_ && has_frame (pte s va)); rewrite ?Ev.
  - destruct ((old <=? va) && (va <? old + len)); cbn [andb].
    + destruct (has_frame (pte s va)) eqn:Ev; by rewrite ?Ev.
    + destruct (has_frame (pte s va)) eqn:Ev; [by apply Hm | done].
Qed.
End placed.

(** Moves of entries between two changes of the areas. *)
Lemma steady_kept o T s ls s3 T4 s4 s' ls' : space_inv o T s ls -> solvent o -> light s -> same_rest s s3 ->
  steady o T s3 T4 s4 -> same_rest s4 s' -> shape (vm s') ls' -> agree (pte s') ls' ->
  kept o s s' ls' /\ brk (vm s') = brk (vm s).
Proof.
  intros Hinv Hsol Hl Hr3 Hs4 Hr' Hsh Hag. pose proof (pages_ok_rest _ _ _ _ Hr3 (si_pages _ _ _ _ Hinv)) as Hok3.
  assert (quiet o s s') as Hq.
  { eapply quiet_space_trans; [by apply quiet_rest |]. eapply quiet_space_trans; [apply quiet_tame, Hs4 | by apply quiet_rest]. }
  assert (same_data s s') as Hd.
  { intros f Hf Hc _. rewrite (same_rest_mm _ _ Hr'), <- (same_rest_mm _ _ Hr3). rewrite <- (same_rest_count _ _ _ Hr3) in Hc.
    apply count_pos in Hc as (va & Hva & <-). apply (steady_mem o T s3 T4 s4); try done. by rewrite has_frame_of; apply negb_true_iff, Z.eqb_neq. }
  split; [| rewrite (sr_brk _ _ Hr'), (ss_vm _ _ _ _ _ Hs4); apply (sr_brk _ _ Hr3)].
  split; [exists T4; constructor; [eapply pages_ok_rest; [exact Hr' | apply Hs4] | done | done |] |].
  - rewrite (qu_base _ _ _ Hq). apply Hinv.
  - split; [| by split]. apply (light_rest s4); [done |]. apply (steady_light o T s3 T4 s4); try done. by apply (light_rest s).
Qed.

Lemma solid_clear ls lo hi start end_ : areas_wf ls -> solid ls lo hi -> lo < hi -> range_clear ls start end_ -> start < end_ ->
  hi <= start \/ end_ <= lo.
Proof. intros Hwf (x & Hx & H1 & H2) Hlt Hc Hlt'. destruct (Hc x Hx); [left | right]; lia. Qed.

Lemma recut_clear ls ls' start end_ : areas_wf ls -> areas_wf ls' -> (forall addr, view ls' addr = view ls addr) ->
  start < end_ -> range_clear ls start end_ -> range_clear ls' start end_.
Proof.
  intros Hwf Hwf' Hv Hlt Hc. apply view_clear; [done | done |]. intros addr Ha. rewrite Hv. by apply (clear_view ls start end_).
Qed.

Section locked.
Context (o : Z -> Z) (T : gset Z) (s : state A) (ls : alist) (old len new new_len : Z).
Hypotheses (Hinv : space_inv o T s ls) (Hsol : solvent o) (Hl : light s).
Hypotheses (Hold : page_range old (old + len)) (Hnew : page_range new (new + new_len)).
Hypotheses (Hlen : 0 < len <= new_len) (Hso : solid ls old (old + len)) (Hclear : range_clear ls new (new + new_len)).

Lemma move_ranges : aligned len /\ page_range new (new + len) /\ (old + len <= new \/ new + len <= old).
Proof using Hold Hnew Hlen Hso Hclear Hinv.
  pose proof Hold as [H1 H2 H3 H4 H5]. pose proof Hnew as [N1 N2 N3 N4 N5].
  assert (aligned len) as Hal.
  { replace len with (old + len - old) by lia. unfold aligned in *. by rewrite Zminus_mod, H1, H2. }
  split; [done |]. split; [constructor; try done; try lia; by apply aligned_sum |].
  destruct (solid_clear ls old (old + len) new (new + new_len)) as [? | ?]; try done; try lia. apply (si_shape _ _ _ _ Hinv).
Qed.

(** The end of a move that failed. *)
Lemma move_fail_spec s3 ls3 s4 off dst r' : same_rest s s3 -> shape (vm s3) ls3 -> (forall addr, view ls3 addr = view ls addr) ->
  loose (vm s3) ls3 dst r' -> moving old new o T s3 off s4 -> aligned off -> 0 <= off < len ->
  (credit s < 3 \/ spare (fr s) < 3 * (len / PAGE_SIZE)) ->
  wp (move_back (Z.to_nat (off / PAGE_SIZE)) old new 0 ;; area_free dst ;; ret (- ENOMEM)) (fun r s' => exists ls',
    kept o s s' ls' /\ brk (vm s') = brk (vm s) /\ move_result old len new new_len r s ls s' ls') s4.
Proof using Hold Hnew Hlen Hso Hclear Hinv Hsol Hl.
  intros Hr3 Hs3 Hv3 Hloose (T' & Hst & Hp) Ha Hoff Hwhy. destruct move_ranges as (_ & Hnew' & Hdis).
  pose proof (pages_ok_rest _ _ _ _ Hr3 (si_pages _ _ _ _ Hinv)) as Hok3.
  assert (forall va, user_page va -> new <= va < new + len -> has_frame (pte s3 va) = false) as Hempty.
  { intros va Hva Hr. rewrite (same_rest_pte _ _ _ Hr3). eapply (clear_frame s ls); try done; [apply Hinv | apply (si_shape _ _ _ _ Hinv) | lia]. }
  apply wp_bind. eapply wp_mono.
  { apply (move_back_spec old new len Hold Hnew' Hdis _ o T s3 0 off s4 T'); try done; try lia.
    - intros va Hva. rewrite Hp by done. unfold restored. by zcases.
    - pose proof (page_times off Ha). unfold PAGE_SIZE in *. pose proof (Z.div_pos off 4096). lia. }
  intros [] s5 (T5 & Hs5 & Hp5). apply wp_bind. rewrite <- (ss_vm _ _ _ _ _ Hs5) in Hs3, Hloose.
  eapply wp_mono; [by apply (area_free_spec s5 ls3 dst r') |]. intros [] s6 (Hr6 & _ & Hs6). apply wp_ret. exists ls3.
  assert (forall va, user_page va -> pte s6 va = pte s va) as Hp6.
  { intros va Hva. by rewrite (same_rest_pte _ _ _ Hr6), Hp5, (same_rest_pte _ _ _ Hr3). }
  destruct (steady_kept o T s ls s3 T5 s5 s6 ls3) as [Hk Hb]; try done.
  { intros va Hva. rewrite Hp6, Hv3 by done. by apply (si_agree _ _ _ _ Hinv). }
  split; [done |]. split; [done |]. right. split; [done |]. split; [done |]. by split.
Qed.

(** The end of a move that succeeded. *)
Lemma move_done_spec s3 l1 a r l2 s4 dst : same_rest s s3 -> shape (vm s3) (l1 ++ (a, r) :: l2) ->
  (forall addr, view (l1 ++ (a, r) :: l2) addr = view ls addr) -> va_start r = old -> va_end r = old + len ->
  loose (vm s3) (l1 ++ (a, r) :: l2) dst (dst_area r new (new + new_len)) -> moving old new o T s3 len s4 ->
  wp (area_remove a ;; area_free a ;; area_insert dst ;; ret 0) (fun r s' => exists ls',
    kept o s s' ls' /\ brk (vm s') = brk (vm s) /\ move_result old len new new_len r s ls s' ls') s4.
Proof using Hold Hnew Hlen Hso Hclear Hinv Hsol Hl.
  intros Hr3 Hs3 Hv3 Est Een Hloose (T' & Hst & Hp). destruct move_ranges as (_ & Hnew' & Hdis).
  pose proof (pages_ok_rest _ _ _ _ Hr3 (si_pages _ _ _ _ Hinv)) as Hok3. pose proof (sh_areas _ _ Hs3) as Hwf3.
  rewrite <- (ss_vm _ _ _ _ _ Hst) in Hs3, Hloose. pose proof Hnew as [N1 N2 N3 N4 N5].
  eapply wp_mono; [apply (relink_spec s4 l1 a r l2 dst _ Hs3 Hloose); [constructor; cbn; try done; lia |] |].
  { cbn. apply (recut_clear ls); try done; [apply (si_shape _ _ _ _ Hinv) | lia]. }
  intros x s' (-> & Hr' & ls' & Hs' & Hv'). cbn [dst_area va_start va_end] in Hv'. exists ls'.
  assert (relocated old len new new_len s ls s' ls') as Hrl.
  { constructor.
    - intros addr Ha. apply (clear_view ls new (new + new_len)); try done. apply (si_shape _ _ _ _ Hinv).
    - exists r. split.
      + intros addr Ha. rewrite <- Hv3. apply (view_in _ (a, r)); [done | set_solver | unfold covers; simpl; lia].
      + intros addr. rewrite Hv', Est, Een, Hv3. change (VmArea new (new + new_len) _ _ _ _ _) with (dst_area r new (new + new_len)).
        by rewrite dst_view, Est.
    - intros va Hva. rewrite (same_rest_pte _ _ _ Hr'), Hp by done. unfold moved. by rewrite !(same_rest_pte _ _ _ Hr3).
    - intros va Hva Hf. rewrite (same_rest_mm _ _ Hr'). rewrite <- (same_rest_pte _ _ va Hr3) in Hf |- *.
      rewrite (steady_mem o T s3 T' s4 va) by done. by rewrite (same_rest_mm _ _ Hr3). }
  destruct (steady_kept o T s ls s3 T' s4 s' ls') as [Hk Hb]; try done.
  { apply (agree_relocated old len new new_len s s' ls ls'); try done; [lia | apply Hinv]. }
  split; [done |]. split; [done |]. left. by split.
Qed.

Lemma move_locked_spec : wp (move_locked old len new new_len) (fun r s' => exists ls',
  kept o s s' ls' /\ brk (vm s') = brk (vm s) /\ move_result old len new new_len r s ls s' ls') s.
Proof using Hold Hnew Hlen Hso Hclear Hinv Hsol Hl.
  destruct move_ranges as (Hal & Hnew' & Hdis). pose proof Hold as [O1 O2 O3 O4 O5]. pose proof Hnew as [N1 N2 N3 N4 N5].
  assert (forall r s' ls', r = - ENOMEM -> credit s < 3 -> same_rest s s' -> shape (vm s') ls' ->
    (forall addr, view ls' addr = view ls addr) -> exists ls', kept o s s' ls' /\ brk (vm s') = brk (vm s) /\
      move_result old len new new_len r s ls s' ls') as Hfail.
  { intros r s' ls' -> Hcr Hr Hs Hv. exists ls'.
    pose proof (space_rest o T s s' ls ls' Hinv (conj Hr (conj Hs Hv))) as Hi.
    split; [eapply kept_rest; [done | done | by eapply light_rest] |]. split; [apply (sr_brk _ _ Hr) |].
    right. split; [done |]. split; [by left |]. split; [done |]. intros va _. by apply same_rest_pte. }
  unfold move_locked. rewrite !u64_small by (unfold USER_ADDR_MIN, USER_ADDR_LIMIT in *; lia).
  apply wp_bind. eapply wp_mono; [apply (range_isolate_spec s ls old (old + len)); try done; apply Hinv |].
  intros err s1 (ls1 & (Hr1 & Hs1 & Hv1) & Hco & Hres). cbn beta.
  destruct Hres as [(-> & Hcr1 & Hc1 & Hc2) | [-> Hcr]]; cbn [Z.eqb negb]; [| apply wp_ret; by apply (Hfail _ s1 ls1); [| lia | ..]].
  destruct (isolated_exact ls ls1 old (old + len)) as (l1 & src & r & l2 & -> & Est & Een); try done; [lia |].
  pose proof (sh_areas _ _ Hs1) as Hwf1.
  apply wp_bind. eapply wp_asks; [by apply vm_find_spec |].
  assert (area_of_addr (l1 ++ (src, r) :: l2) old = Some (src, r)) as ->.
  { apply area_of_addr_Some; [done |]. split; [set_solver | unfold covers; simpl; lia]. }
  cbn [ptr fst]. apply wp_bind, (wp_asks _ r); [apply (sh_recs _ _ Hs1); set_solver |].
  apply wp_bind. eapply wp_mono; [eapply wp_also; [apply (area_new_spec s1 _ new (new + new_len) (va_prot r) (va_flags r) Hs1) | apply area_new_credit] |].
  intros dst s2 [(Hr2 & Hs2 & _ & Hcase) [Hcr2 Hz]]. pose proof (same_rest_trans _ _ _ Hr1 Hr2) as Hr02.
  destruct Hcase as [[-> _] | (Hloose & _ & _)]; cbn [Z.eqb].
  { apply wp_ret. apply (Hfail _ s2 (l1 ++ (src, r) :: l2)); try done. specialize (Hz eq_refl). lia. }
  destruct (Z.eqb_spec dst 0) as [-> | Hd0]; [by destruct Hloose as (_ & ? & _) |].
  apply wp_bind. eapply wp_mono; [exact (put_loose_spec s2 _ dst _ (dst_area r new (new + new_len)) Hs2 Hloose) |].
  intros [] s3 (Hr3 & _ & Hs3 & Hloose3). pose proof (same_rest_trans _ _ _ Hr02 Hr3) as Hr03.
  pose proof (pages_ok_rest _ _ _ _ Hr03 (si_pages _ _ _ _ Hinv)) as Hok3.
  pose proof (page_times len Hal) as Elen. assert (0 <= len / PAGE_SIZE) as Hd by (apply Z.div_pos; [lia | done]).
  apply wp_bind. eapply wp_mono.
  { apply (move_loop_spec old new len Hold Hnew' Hdis _ o T s3 0 s3); try done; [| by apply moving_start | rewrite Z2Nat.id by done; lia].
    intros va Hva Hr. rewrite (same_rest_pte _ _ _ Hr03). eapply (clear_frame s ls); try done; [apply Hinv | apply (si_shape _ _ _ _ Hinv) | lia]. }
  intros off s4 (Hmv & Hoff & Haoff & Hcost). cbn beta. destruct (Z.ltb_spec off len) as [Hlt | Hge].
  - apply (move_fail_spec s3 (l1 ++ (src, r) :: l2) s4 off dst (dst_area r new (new + new_len))); try done; try lia.
    right. destruct Hcost as [_ Hcost]. replace (off =? len) with false in Hcost by (symmetry; apply Z.eqb_neq; lia).
    specialize (Hcost eq_refl). unfold fr in *. rewrite (sr_machine _ _ Hr03) in Hcost. lia.
  - replace off with len in Hmv by lia. by apply (move_done_spec s3 l1 src r l2 s4 dst).
Qed.
End locked.
End move.
