(* ===== verification/VmEntry.v ===== *)
(** * The entry points of vm.c, and sequences of calls

    The entry points that queue write backs run them after the lock is dropped
    ([drain]).  [vm_inv o s] is what holds between calls: the areas are in
    order, pages and ledger balance, entries give no more rights than their
    areas, and private pages that can be written are not shared. *)

From Stdlib Require Import ZArith Lia Bool.
From stdpp Require Import base list option gmap.
From S2P Require Import Prelude Mmu Frames PageTable PageTableFacts StateMonad Rbtree RbtreeFacts RbtreeRemove VmArea VmAreaFacts Vm VmPages VmPageOps VmOps VmProtect VmCow VmFault VmRange VmBrk.
Open Scope Z_scope.
Open Scope prog_scope.

Section entry.
Context {A : Type} `{!Frames A, !FramesOk A}.
Implicit Types (s : state A) (o : Z -> Z) (T : gset Z) (ls : alist).

(** ** After the write backs *)

Record drained s s' : Prop := {
  dr_pte : forall va, pte s' va = pte s va;
  dr_brk : brk (vm s') = brk (vm s);
  dr_pending : pending (vm s') = [];
  dr_mem : mm s' = mm s;
}.

Lemma requeued_space o T s s' ls : space_inv o T s ls -> requeued o T s s' -> space_inv o T s' ls.
Proof.
  intros [Hok Hs Ha Hb] (Hok' & Hm & Hp & Hpt & _). constructor; [done | by eapply paged_shape | |].
  - intros va Hva. rewrite Hpt. by apply Ha.
  - destruct Hp as [-> _]. done.
Qed.

Lemma drain_kept o s s1 ls1 : solvent o -> kept o s s1 ls1 ->
  wp drain (fun _ s2 => kept o s s2 ls1 /\ drained s1 s2) s1.
Proof.
  intros Hsol ((T & Hinv) & Hl & Hq & Hd). eapply wp_mono; [apply (drain_spec o T); [apply Hinv | done] |].
  intros [] s2 [Hr Hpe]. pose proof Hr as (_ & Hm & Hp & Hpt & _ & Hh).
  split; [| by constructor; [| destruct Hp as [-> _] | |]].
  split; [exists T; by eapply requeued_space |]. split.
  - intros f Hf Hmod. specialize (Hh f Hf Hmod). specialize (Hl f Hf Hmod).
    rewrite (count_ext s1 s2) by (intros va _; by rewrite Hpt). lia.
  - split; [eapply quiet_space_trans; [done |]; by eapply quiet_tame, requeued_tame |].
    eapply same_data_trans; [done | by apply same_data_mm |]. apply count_sub. intros va _ _. by rewrite Hpt.
Qed.

(** What is said of entries, areas and break after an operation holds after the
    write backs. *)
Lemma unseen_drained s ls s1 s2 ls1 : unseen s ls s1 ls1 -> drained s1 s2 -> unseen s ls s2 ls1.
Proof. intros [Hv Hp] [Hd _ _ _]. split; [done |]. intros va Hva. rewrite Hd. auto. Qed.
Lemma unmapped_drained lo hi s ls s1 s2 ls1 : unmapped lo hi s ls s1 ls1 -> drained s1 s2 -> unmapped lo hi s ls s2 ls1.
Proof. intros [Hv Hp] [Hd _ _ _]. split; [done |]. intros va Hva. rewrite Hd. auto. Qed.
Lemma mapped_drained lo hi prot flags s ls s1 s2 ls1 : mapped lo hi prot flags s ls s1 ls1 -> drained s1 s2 ->
  mapped lo hi prot flags s ls s2 ls1.
Proof. intros [Hr Hv Hp] [Hd _ _ _]. split; [done | done |]. intros va Hva. rewrite Hd. auto. Qed.
Lemma heap_grown_drained lo hi s ls s1 s2 ls1 : heap_grown lo hi s ls s1 ls1 -> drained s1 s2 ->
  heap_grown lo hi s ls s2 ls1.
Proof. intros [Hn Hv Hp] [Hd _ _ _]. split; [done | done |]. intros va Hva. rewrite Hd. auto. Qed.

Lemma vm_map_spec o T s ls addr len prot flags fixed : space_inv o T s ls -> solvent o -> light s ->
  is_u 64 addr -> 0 <= len <= 2 ^ 63 ->
  wp (vm_map addr len prot flags fixed) (fun r s' => exists ls', kept o s s' ls' /\ pending (vm s') = [] /\
    brk (vm s') = brk (vm s) /\ map_result fixed addr (PAGE_ALIGN_UP len) prot flags r s ls s' ls') s.
Proof.
  intros Hinv Hsol Hl Ha Hlen. unfold vm_map. apply wp_bind. eapply wp_mono; [by apply (map_locked_spec o T s ls) |].
  intros r s1 (ls1 & Hk & Hb & Hres). cbn beta. apply wp_bind. eapply wp_mono; [by apply drain_kept |].
  intros [] s2 (Hk2 & Hd). apply wp_ret. exists ls1. split; [done |]. split; [apply Hd |].
  split; [by rewrite (dr_brk _ _ Hd) |].
  destruct Hres as [(start & -> & Hm & Hf) | (err & -> & He & Hu)]; [left | right].
  - exists start. split; [done |]. split; [by eapply mapped_drained | done].
  - exists err. split; [done |]. split; [done |].
    destruct Hu as [Hu | [-> Hu]]; [left; by eapply unseen_drained | right; split; [done | by eapply unmapped_drained]].
Qed.

Lemma vm_unmap_spec o T s ls addr len : space_inv o T s ls -> solvent o -> light s ->
  is_u 64 addr -> is_u 64 len ->
  wp (vm_unmap addr len) (fun r s' => exists ls', kept o s s' ls' /\ pending (vm s') = [] /\
    brk (vm s') = brk (vm s) /\ unmap_result addr (PAGE_ALIGN_UP (u64 (addr + len))) r s ls s' ls') s.
Proof.
  intros Hinv Hsol Hl Ha Hlen. unfold vm_unmap. apply wp_bind. eapply wp_mono; [by apply (unmap_locked_spec o T s ls) |].
  intros r s1 (ls1 & Hk & Hb & Hres). cbn beta. apply wp_bind. eapply wp_mono; [by apply drain_kept |].
  intros [] s2 (Hk2 & Hd). apply wp_ret. exists ls1. split; [done |]. split; [apply Hd |].
  split; [by rewrite (dr_brk _ _ Hd) |].
  destruct Hres as [(-> & Hal & Hle & Hu) | [He Hu]]; [left; split_and!; try done; by eapply unmapped_drained |].
  right. split; [done | by eapply unseen_drained].
Qed.

Lemma vm_brk_spec o T s ls new_brk : space_inv o T s ls -> solvent o -> light s ->
  is_u 64 new_brk -> PAGE_ALIGN_UP (brk (vm s)) <= USER_ADDR_LIMIT ->
  wp (vm_brk new_brk) (fun r s' => exists ls', kept o s s' ls' /\ pending (vm s') = [] /\
    PAGE_ALIGN_UP (brk (vm s')) <= USER_ADDR_LIMIT /\ brk_result new_brk r s ls s' ls') s.
Proof.
  intros Hinv Hsol Hl Hu Hlim. unfold vm_brk. apply wp_bind. eapply wp_mono; [by apply (brk_locked_spec o T s ls) |].
  intros r s1 (ls1 & Hk & Hb & Hres). cbn beta. apply wp_bind. eapply wp_mono; [by apply drain_kept |].
  intros [] s2 (Hk2 & Hd). apply wp_ret. exists ls1. split; [done |]. split; [apply Hd |].
  unfold brk_result in *. rewrite (dr_brk _ _ Hd). split; [done |].
  destruct Hres as [(-> & Hb1 & Hun & He) | (-> & Hb1 & Hlow & Hres)]; [left; split_and!; try done; by eapply unseen_drained |].
  right. split_and!; try done. destruct (_ <? _); [by eapply heap_grown_drained |].
  destruct Hres as [Hun | [Hlt Hun]]; [left; by eapply unseen_drained | right; split; [done | by eapply unmapped_drained]].
Qed.

Lemma vm_sync_spec o T s ls addr len : space_inv o T s ls -> solvent o -> light s ->
  is_u 64 addr -> is_u 64 len ->
  wp (vm_sync addr len) (fun r s' => kept o s s' ls /\ pending (vm s') = [] /\ brk (vm s') = brk (vm s) /\
    sync_result addr (PAGE_ALIGN_UP (u64 (addr + len))) r s ls s') s.
Proof.
  intros Hinv Hsol Hl Ha Hlen. unfold vm_sync. apply wp_bind. eapply wp_mono; [by apply (sync_locked_spec o T s ls) |].
  intros r s1 (Hok1 & Ht1 & Hres). cbn beta. apply wp_bind. eapply wp_mono; [by apply (drain_spec o T) |].
  intros [] s2 [(Hok2 & Hm2 & Hp2 & Hpt2 & _ & _) Hpe]. apply wp_ret.
  assert (forall va, user_page va -> frame_of (pte s2 va) = frame_of (pte s va) /\
    (has_frame (pte s2 va) = true -> allowed (pte s2 va) (view ls va))) as Hfr.
  { intros va Hva. rewrite Hpt2. destruct Hres as [[_ Hp] | (stop & _ & _ & Hp)]; rewrite Hp by done.
    - split; [done |]. by apply (si_agree _ _ _ _ Hinv).
    - split; [apply frame_of_synced |]. rewrite has_frame_of, frame_of_synced, <- has_frame_of. intros Hf.
      pose proof (si_agree _ _ _ _ Hinv va Hva Hf) as Hal. unfold synced, ranged. destruct (_ && has_frame _); [| done].
      destruct (view ls va) as [v |]; [| done]. unfold allowed, rights in *. by rewrite !land_ldiff_other. }
  assert (tame (outside T) s s2) as Ht by (eapply tame_trans; [exact Ht1 | by apply tame_same]).
  assert (brk (vm s2) = brk (vm s)) as Hb by (destruct Ht as [[-> _] _]; done).
  split; [| split_and!; try done; destruct Hres as [[-> Hp] | (stop & Hst & Hr & Hp)]].
  - eapply (kept_quiet o T s); [apply Hinv | apply Hinv | | | by apply quiet_tame].
    { constructor; [done | by eapply tame_shape, Hinv; exact Ht | intros va Hva; by apply Hfr |].
      destruct Ht as [[-> _] _]. apply Hinv. }
    intros f Hf Hm. specialize (Hl f Hf Hm).
    rewrite (count_ext s s2) by (intros va Hva; by apply Hfr).
    pose proof (po_ledger _ _ _ (si_pages _ _ _ _ Hinv) f Hf Hm) as L. pose proof (po_ledger _ _ _ Hok2 f Hf Hm) as L2.
    rewrite (count_ext s s2), Hpe in L2 by (intros va Hva; by apply Hfr). change (pend [] f) with 0 in L2.
    pose proof (pend_nonneg (pending (vm s)) f). lia.
  - left. split; [done |]. intros va Hva. rewrite Hpt2. auto.
  - right. exists stop. split_and!; try done; try lia. intros va Hva. rewrite Hpt2. auto.
Qed.

(** ** [vm_populate] *)

Lemma populate_fast_spec o T s fuel va end_ need : pages_ok o T s -> aligned va -> USER_ADDR_MIN <= va ->
  end_ <= USER_ADDR_LIMIT -> (0 < fuel)%nat -> end_ - va <= (Z.of_nat fuel - 1) * PAGE_SIZE ->
  wp (populate_fast fuel va end_ need) (fun ok s' => s' = s /\ (ok = true -> forall va', user_page va' ->
    va <= va' < end_ -> Z.land (pte s va') need = need)) s.
Proof.
  intros Hok. revert va. induction fuel as [| fuel IH]; intros va Ha Hlo Hhi H0 Hf; [lia |]. cbn [populate_fast].
  destruct (Z.ltb_spec va end_) as [Hlt | Hge]; cbn [negb]; [| apply wp_ret; split; [done | lia]].
  assert (user_page va) as Hva by (split; [unfold user_va; lia | done]).
  apply wp_bind. apply (find_pte_spec o T); [done | apply Hva | |]; [intros _; by apply wp_ret |].
  intros p Hp. apply wp_bind. apply (load_spec o T s va); [done | done |].
  destruct (Z.eqb_spec (Z.land (pte s va) need) need) as [E | E]; cbn [negb]; [| by apply wp_ret].
  rewrite u64_small by (unfold USER_ADDR_LIMIT, USER_ADDR_MIN, PAGE_SIZE in *; lia).
  eapply wp_mono; [apply IH; [by apply aligned_add | unfold PAGE_SIZE; lia | done | unfold PAGE_SIZE in *; lia..] |].
  intros ok s' [-> H]. split; [done |]. intros Hk va' Hva' Hr.
  destruct (Z.eq_dec va' va) as [-> | Hne]; [done |]. apply H; try done.
  pose proof (aligned_gap va va' Ha (proj2 Hva')). lia.
Qed.

Lemma need_allows e (write : bool) :
  let need := Z.lor (Z.lor MMU_PRESENT MMU_USER) (if write then MMU_WRITABLE else 0) in
  Z.land e need = need -> allows e write = true.
Proof.
  intros need H. unfold allows.
  assert (forall m, Z.land need m = m -> Z.land e m = m) as Hm.
  { intros m Em. rewrite <- Em, Z.land_assoc, H. done. }
  rewrite (Hm MMU_PRESENT) by (by destruct write). destruct write; [| done]. by rewrite (Hm MMU_WRITABLE).
Qed.

(** Every page of the range has an entry that allows the access. *)
Lemma vm_populate_spec o T s ls addr len (write : bool) : space_inv o T s ls -> solvent o -> light s ->
  is_u 64 addr -> is_u 64 len ->
  wp (vm_populate addr len write) (fun ok s' => transparent o s ls s' /\
    (ok = true -> 0 < len -> forall va, user_page va -> page_of addr <= va < addr + len ->
       allows (pte s' va) write = true) /\
    (user_range addr (addr + len) = true ->
     (forall va, user_page va -> page_of addr <= va < addr + len -> permits ls va write = true) ->
     5 * page_count addr len <= spare (fr s) -> ok = true)) s.
Proof.
  intros Hinv Hsol Hl Ha Hlen. unfold vm_populate. cbv zeta. rewrite land_page_mask by done. fold (page_of addr).
  assert (wp (populate_locked addr len write) (fun ok s' => transparent o s ls s' /\
    (ok = true -> 0 < len -> forall va, user_page va -> page_of addr <= va < addr + len ->
       allows (pte s' va) write = true) /\
    (user_range addr (addr + len) = true ->
     (forall va, user_page va -> page_of addr <= va < addr + len -> permits ls va write = true) ->
     5 * page_count addr len <= spare (fr s) -> ok = true)) s) as Hslow.
  { eapply wp_mono; [by apply (populate_locked_spec o T s ls) |]. intros ok s' (Ht & Hacc & Hsp). split; [done |]. split; [| done].
    intros Hk Hpos va Hva Hr. destruct (Hacc Hk Hpos va Hva Hr) as (v & _ & _ & Hal).
    by rewrite page_of_aligned in Hal by apply Hva. }
  apply wp_bind. destruct (user_range addr (u64 (addr + len))) eqn:Hur; [| by apply wp_ret].
  apply user_range_spec in Hur as (H1 & H2 & H3).
  assert (u64 (addr + len) = addr + len) as E.
  { unfold is_u, USER_ADDR_LIMIT in *. destruct (Z_lt_ge_dec (addr + len) (2 ^ 64)) as [? | ?]; [apply u64_small; lia |].
    exfalso. assert (u64 (addr + len) = addr + len - 2 ^ 64) as E; [| lia]. symmetry. apply (Z.mod_unique_pos _ _ 1); lia. }
  rewrite E in *. destruct (page_floor addr) as [[Hva Hal] Hfl]; [unfold user_va; lia |]. fold (page_of addr) in *.
  eapply wp_mono.
  - apply (populate_fast_spec o T s); [apply Hinv | done | apply Hva | done | lia |].
    unfold PAGE_SIZE in *. set (n := addr + len - page_of addr) in *.
    pose proof (Z.div_mod (n + 4096 - 1) 4096). pose proof (Z.mod_pos_bound (n + 4096 - 1) 4096).
    assert (0 <= (n + 4096 - 1) / 4096) by (apply Z.div_pos; lia). lia.
  - intros [] s' [-> Hp]; [| done]. apply wp_ret. split; [by eapply transparent_refl |]. split; [| done].
    intros _ _ va Hva' Hr. by apply need_allows, Hp.
Qed.

(** ** Private pages that can be written stay unshared *)

Lemma cow_safe_unseen o s ls s' ls' : cow_safe o (pte s) ls -> unseen s ls s' ls' -> cow_safe o (pte s') ls'.
Proof. intros Hc [Hv Hp]. by apply (cow_safe_ext o (pte s) ls). Qed.

Lemma cow_safe_unmapped o s ls s' ls' lo hi : cow_safe o (pte s) ls -> unmapped lo hi s ls s' ls' ->
  cow_safe o (pte s') ls'.
Proof.
  intros Hc [Hv Hp]. apply (cow_safe_cleared o (pte s) ls _ _ lo hi); [done | done |].
  intros va Hva _. rewrite Hv. by destruct (_ && _).
Qed.

Lemma cow_safe_mapped o s ls s' ls' lo hi prot flags : cow_safe o (pte s) ls -> mapped lo hi prot flags s ls s' ls' ->
  cow_safe o (pte s') ls'.
Proof.
  intros Hc [_ Hv Hp]. apply (cow_safe_cleared o (pte s) ls _ _ lo hi); [done | done |].
  intros va Hva Hf. rewrite Hv. rewrite Hp in Hf by done. unfold cleared in Hf.
  destruct ((lo <=? va) && (va <? hi)); [| done]. cbn [andb] in Hf. by destruct (has_frame (pte s va)) eqn:E; [| rewrite E in Hf].
Qed.

Lemma cow_safe_reprotected o s ls s' ls' lo hi prot : cow_safe o (pte s) ls -> reprotected lo hi prot s ls s' ls' ->
  cow_safe o (pte s') ls'.
Proof.
  intros Hc [_ Hv Hp]. apply (cow_safe_less o (pte s) ls); [done |]. intros va Hva Hf. rewrite Hv, Hp in * by done.
  unfold protected in *. destruct ((lo <=? va) && (va <? hi)); cbn [andb] in *.
  - destruct (has_frame (pte s va)) eqn:E; [| congruence].
    rewrite frame_of_prot, prot_cow. split_and!; [done | done | by destruct (view ls va) as [[[[[? ?] ?] ?] ?] |] |].
    rewrite <- (prot_cow (pte s va) prot). apply prot_cow_read.
  - split_and!; try done. intros. by apply (cs_read _ _ _ Hc).
Qed.

Lemma cow_safe_ranged o P g s ls s' lo hi : cow_safe o (pte s) ls ->
  (forall e, has_frame (g e) = true -> frame_of (g e) = frame_of e /\
     Z.land (g e) PTE_COW = Z.land e PTE_COW /\ Z.land (g e) MMU_WRITABLE = Z.land e MMU_WRITABLE) ->
  (forall va, user_page va -> pte s' va = ranged P g ls (pte s) lo hi va) -> cow_safe o (pte s') ls.
Proof.
  intros Hc Hg Hp. apply (cow_safe_less o (pte s) ls); [done |]. intros va Hva Hf. rewrite Hp in * by done.
  unfold ranged in *. destruct (_ && has_frame (pte s va)) eqn:E.
  - apply andb_prop in E as [_ E]. destruct (Hg _ Hf) as (-> & -> & ->). split_and!; try done.
    intros. by apply (cs_read _ _ _ Hc).
  - split_and!; try done. intros. by apply (cs_read _ _ _ Hc).
Qed.

Lemma cow_safe_grown o T s ls s' ls' lo hi : space_inv o T s ls -> cow_safe o (pte s) ls -> heap_grown lo hi s ls s' ls' ->
  cow_safe o (pte s') ls'.
Proof.
  intros Hinv Hc [Hn Ho Hp]. apply (cow_safe_less o (pte s) ls); [done |]. intros va Hva Hf. rewrite Hp in * by done.
  split_and!; try done; [| intros; by apply (cs_read _ _ _ Hc)].
  destruct (decide (lo <= va < hi)) as [Hr | Hr]; [| by rewrite Ho].
  pose proof (si_agree _ _ _ _ Hinv va Hva Hf) as Hal. destruct (Hn va Hr) as [Hv _]. by rewrite Hv in Hal.
Qed.
End entry.
