(* ===== verification/VmRemap.v ===== *)
(** * Resizing and moving mappings: [vm_remap] and [vm_remap_fixed] *)

From Stdlib Require Import ZArith Lia Bool.
From stdpp Require Import base list option gmap.
From S2P Require Import Prelude Mmu Frames PageTable PageTableFacts StateMonad Rbtree RbtreeFacts RbtreeRemove VmArea VmAreaFacts Vm VmPages VmPageOps VmOps VmProtect VmCow VmFault VmRange VmBrk VmEntry VmMove.
Open Scope Z_scope.
Open Scope prog_scope.

Section remap.
Context {A : Type} `{!Frames A, !FramesOk A}.
Implicit Types (s : state A) (o : Z -> Z) (T : gset Z) (ls : alist).

(** The mapping can grow where it is. *)
Definition extendable ls (old len new_len : Z) : Prop :=
  user_range old (old + new_len) = true /\ range_clear ls (old + len) (old + new_len).

(** The area of [old] goes on to [old + new_len]. *)
Definition extended (old len new_len : Z) s ls s' ls' : Prop :=
  (exists r, (forall addr, old <= addr < old + len -> view ls addr = Some (area_view r addr)) /\
    forall addr, view ls' addr =
      if (old + len <=? addr) && (addr <? old + new_len) then Some (area_view r addr) else view ls addr) /\
  forall va, user_page va -> pte s' va = pte s va.

(** Why [vm_remap] fails. *)
Definition remap_error (old len new_len flags err : Z) s ls : Prop :=
  (err = - EINVAL /\ (~ aligned old \/ len = 0 \/ new_len = 0 \/ 2 ^ 64 <= old + len)) \/
  (err = - EFAULT /\ ~ solid ls old (old + len)) \/
  (err = - ENOMEM /\ (credit s < 3 \/ len < new_len /\ ~ extendable ls old len new_len /\
     (Z.land flags MREMAP_MAYMOVE = 0 \/ spare (fr s) < 3 * (len / PAGE_SIZE) \/
      forall c, mmap_base (vm s) <= c -> c + new_len <= STACK_FLOOR -> ~ range_clear ls c (c + new_len)))).

(** The outcomes of [vm_remap] on page aligned lengths. *)
Inductive remap_result (old len new_len flags : Z) s ls s' ls' : Z * Z -> Prop :=
| RemapShrunk : solid ls old (old + len) -> new_len <= len -> unmapped (old + new_len) (old + len) s ls s' ls' ->
    remap_result old len new_len flags s ls s' ls' (0, old)
| RemapGrown : solid ls old (old + len) -> len < new_len -> extendable ls old len new_len ->
    extended old len new_len s ls s' ls' -> remap_result old len new_len flags s ls s' ls' (0, old)
| RemapMoved new : solid ls old (old + len) -> len < new_len -> ~ extendable ls old len new_len ->
    Z.land flags MREMAP_MAYMOVE <> 0 -> page_range old (old + len) -> page_range new (new + new_len) ->
    relocated old len new new_len s ls s' ls' -> remap_result old len new_len flags s ls s' ls' (0, new)
| RemapFailed err : remap_error old len new_len flags err s ls -> unseen s ls s' ls' ->
    remap_result old len new_len flags s ls s' ls' (err, 0).

Lemma unmapped_nothing s ls p : unmapped p p s ls s ls.
Proof. constructor; [intros addr; by zcases |]. intros va _. unfold cleared. by zcases. Qed.

Lemma unmapped_unseen s ls s' ls' p : unseen s ls s' ls' -> unmapped p p s ls s' ls'.
Proof.
  intros [Hv Hp]. constructor; [intros addr; rewrite Hv; by zcases |]. intros va Hva. rewrite Hp by done.
  unfold cleared. by zcases.
Qed.

Lemma solid_range ls lo hi : areas_wf ls -> solid ls lo hi -> lo < hi -> aligned lo -> aligned hi -> page_range lo hi.
Proof.
  intros Hwf (x & Hx & H1 & H2) Hlt Ha Hb. destruct (areas_wf_elem _ _ Hwf Hx) as [_ _ _ Hl Hh].
  constructor; try done; lia.
Qed.

(** The area that covers a range is the one found at its start. *)
Lemma solid_found ls lo hi a r : areas_wf ls -> lo < hi -> area_of_addr ls lo = Some (a, r) ->
  (solid ls lo hi <-> hi <= va_end r).
Proof.
  intros Hwf Hlt Ea. pose proof Ea as [Hin Hc]%area_of_addr_Some; [| done]. simpl in Hc. split.
  - intros (x & Hx & H1 & H2). assert (area_of_addr ls lo = Some x) as E.
    { apply area_of_addr_Some; [done |]. split; [done | unfold covers; lia]. }
    rewrite Ea in E. injection E as <-. done.
  - intros H. exists (a, r). split; [done |]. destruct Hc. done.
Qed.

Lemma solid_none ls lo hi : areas_wf ls -> lo < hi -> area_of_addr ls lo = None -> ~ solid ls lo hi.
Proof.
  intros Hwf Hlt Ea (x & Hx & H1 & H2). assert (area_of_addr ls lo = Some x) as E.
  { apply area_of_addr_Some; [done |]. split; [done | unfold covers; lia]. }
  by rewrite Ea in E.
Qed.

Lemma u64_sum a b : is_u 64 a -> 0 <= b <= 2 ^ 63 -> u64 (a + b) = if 2 ^ 64 <=? a + b then a + b - 2 ^ 64 else a + b.
Proof.
  intros Ha Hb. unfold is_u in Ha. destruct (Z.leb_spec (2 ^ 64) (a + b)).
  - symmetry. apply (Z.mod_unique_pos _ _ 1); lia.
  - apply u64_small. lia.
Qed.

Lemma align_up_half x : 0 <= x <= 2 ^ 63 -> x <= PAGE_ALIGN_UP x <= 2 ^ 63.
Proof.
  intros Hx. destruct (PAGE_ALIGN_UP_bounds x) as [Hb Hm]; [unfold PAGE_SIZE; lia |]. split; [lia |].
  unfold PAGE_SIZE in *. set (y := PAGE_ALIGN_UP x) in *. pose proof (Z.div_mod y 4096). lia.
Qed.

Section locked.
Context (o : Z -> Z) (T : gset Z) (s : state A) (ls : alist) (old len new_len flags : Z).
Hypotheses (Hinv : space_inv o T s ls) (Hsol : solvent o) (Hl : light s).
Hypotheses (Hal : aligned old) (Hall : aligned len) (Haln : aligned new_len).
Hypotheses (Hlen : 0 < len <= 2 ^ 63) (Hnew : 0 < new_len <= 2 ^ 63) (Hso : solid ls old (old + len)).
Abbreviation outcome := (fun r s' => exists ls', kept o s s' ls' /\ brk (vm s') = brk (vm s) /\
  remap_result old len new_len flags s ls s' ls' r).

Lemma remap_range : page_range old (old + len) /\ areas_wf ls.
Proof using Hinv Hal Hall Hlen Hso.
  pose proof (sh_areas _ _ (si_shape _ _ _ _ Hinv)) as Hwf. split; [| done].
  apply (solid_range ls); try done; [lia | by apply aligned_sum].
Qed.

Lemma remap_failed err : remap_error old len new_len flags err s ls -> outcome (err, 0) s.
Proof using Hinv Hl.
  intros He. exists ls. split; [by eapply kept_refl |]. split; [done |]. apply RemapFailed; [done | apply unseen_refl].
Qed.

(** A part of the end is unmapped. *)
Lemma remap_shrink_spec : new_len <= len ->
  wp (let* err := (if new_len <? len then unmap_locked (u64 (old + new_len)) (len - new_len) else ret 0) in
      ret (if negb (err =? 0) then (err, 0) else (0, old))) outcome s.
Proof using Hinv Hsol Hl Hal Hall Haln Hlen Hnew Hso.
  intros Hle. destruct remap_range as [[R1 R2 R3 R4 R5] Hwf]. apply wp_bind.
  destruct (Z.ltb_spec new_len len) as [Hlt | Hge].
  2:{ apply wp_ret, wp_ret. cbn [Z.eqb negb]. exists ls. split; [by eapply kept_refl |]. split; [done |].
      apply RemapShrunk; [done | lia |]. replace new_len with len by lia. apply unmapped_nothing. }
  rewrite u64_small by (unfold USER_ADDR_MIN, USER_ADDR_LIMIT in *; lia).
  eapply wp_mono; [apply (unmap_locked_spec o T s ls); try done; unfold is_u, USER_ADDR_MIN, USER_ADDR_LIMIT in *; lia |].
  replace (old + new_len + (len - new_len)) with (old + len) by lia.
  rewrite u64_small, PAGE_ALIGN_UP_aligned by (done || (unfold USER_ADDR_MIN, USER_ADDR_LIMIT, PAGE_SIZE in *; lia)).
  intros err s' (ls' & Hk & Hb & Hres). apply wp_ret. exists ls'. split; [done |]. split; [done |].
  destruct Hres as [(-> & _ & _ & Hum) | [[[-> [Hna | ?]] | [-> Hcr]] Hun]]; cbn [Z.eqb negb].
  - by apply RemapShrunk.
  - by destruct Hna; apply aligned_sum.
  - lia.
  - apply RemapFailed; [| done]. right. right. split; [done |]. left. lia.
Qed.

(** The area is made longer. *)
Lemma remap_grow_spec a r : (a, r) ∈ ls -> covers r old -> va_end r = old + len -> len < new_len ->
  extendable ls old len new_len -> wp (put_area a (with_end (old + new_len) r) ;; ret (0, old)) outcome s.
Proof using Hinv Hsol Hl Hal Hall Haln Hlen Hnew Hso.
  intros Hin Hc He Hlt Hex. pose proof Hex as [Hur%user_range_spec Hcl]. destruct remap_range as [[R1 R2 R3 R4 R5] Hwf].
  apply wp_bind. eapply wp_mono; [apply (extend_area_spec o T s ls a r (old + new_len)); try done; rewrite He; try done; try lia |].
  { constructor; try done; try lia. by apply aligned_sum. }
  intros [] s' (ls' & Hk & Hr & Hv). apply wp_ret. exists ls'. split; [done |]. split; [apply (sr_brk _ _ Hr) |].
  apply RemapGrown; try done. split; [| intros va _; by apply same_rest_pte]. exists r. split.
  - intros addr Ha. destruct Hc. apply (view_in ls (a, r)); try done. unfold covers. simpl. lia.
  - intros addr. by rewrite Hv, He.
Qed.

(** The mapping moves to a gap. *)
Lemma remap_move_spec : len < new_len -> ~ extendable ls old len new_len -> Z.land flags MREMAP_MAYMOVE <> 0 ->
  wp (let* new_addr := asks (fun s => find_gap (vm s) new_len) in
      if new_addr =? 0 then ret (- ENOMEM, 0)
      else
        let* err := move_locked old len new_addr new_len in
        ret (if err =? 0 then (0, new_addr) else (err, 0))) outcome s.
Proof using Hinv Hsol Hl Hal Hall Haln Hlen Hnew Hso.
  intros Hlt Hex Hfl. destruct remap_range as [Hpr Hwf]. destruct (si_base _ _ _ _ Hinv) as [Hba Hbr].
  destruct (find_gap_spec (vm s) ls new_len (si_shape _ _ _ _ Hinv)) as (c & Hc & Hcase);
    [unfold USER_ADDR_MIN in *; lia | done | unfold USER_ADDR_LIMIT; lia |].
  apply wp_bind. eapply wp_asks; [exact Hc |]. destruct Hcase as [[-> Hno] | (Hlo & Hhi & Hca & Hcl & _)]; cbn [Z.eqb].
  { apply wp_ret, remap_failed. right. right. split; [done |]. right. split; [done |]. split; [done |]. by right; right. }
  unfold STACK_FLOOR, USER_STACK_TOP, USER_STACK_LIMIT in *. destruct (Z.eqb_spec c 0); [unfold USER_ADDR_MIN in *; lia |].
  assert (page_range c (c + new_len)) as Hpc.
  { constructor; try done; try lia; [by apply aligned_sum |]. unfold USER_ADDR_LIMIT. lia. }
  apply wp_bind. eapply wp_mono; [apply (move_locked_spec o T s ls old len c new_len); try done; lia |].
  intros err s' (ls' & Hk & Hb & Hres). apply wp_ret. exists ls'. split; [done |]. split; [done |].
  destruct Hres as [[-> Hrl] | (-> & Hwhy & Hun)]; cbn [Z.eqb]; [by apply RemapMoved |].
  apply RemapFailed; [| done]. right. right. split; [done |]. destruct Hwhy as [? | ?]; [by left | right]. by auto.
Qed.
End locked.

Lemma remap_locked_spec o T s ls old old_len new_len flags : space_inv o T s ls -> solvent o -> light s ->
  is_u 64 old -> 0 <= old_len <= 2 ^ 63 -> 0 <= new_len <= 2 ^ 63 ->
  wp (remap_locked old old_len new_len flags) (fun r s' => exists ls', kept o s s' ls' /\ brk (vm s') = brk (vm s) /\
    remap_result old (PAGE_ALIGN_UP old_len) (PAGE_ALIGN_UP new_len) flags s ls s' ls' r) s.
Proof.
  intros Hinv Hsol Hl Hu Hol Hnl. unfold remap_locked. pose proof (align_up_half old_len Hol) as HL.
  pose proof (align_up_half new_len Hnl) as HN. pose proof (align_up_aligned old_len) as Hall. pose proof (align_up_aligned new_len) as Haln.
  set (len := PAGE_ALIGN_UP old_len) in *. set (nlen := PAGE_ALIGN_UP new_len) in *. cbv zeta.
  pose proof (remap_failed o T s ls old len nlen flags Hinv Hl) as Hfail.
  rewrite low_bits by done. pose proof (u64_sum old len Hu ltac:(lia)) as Eend.
  destruct (Z.eqb_spec (old mod PAGE_SIZE) 0) as [Hal | Hna]; cbn [negb orb]; [| apply wp_ret, Hfail; left; by auto].
  destruct (Z.eqb_spec len 0) as [| Hl0]; cbn [orb]; [apply wp_ret, Hfail; left; by auto |].
  destruct (Z.eqb_spec nlen 0) as [| Hn0]; cbn [orb]; [apply wp_ret, Hfail; left; by auto |].
  destruct (Z.ltb_spec (u64 (old + len)) old) as [Hwr | Hwr].
  { apply wp_ret, Hfail. left. split; [done |]. right. right. right. destruct (Z.leb_spec (2 ^ 64) (old + len)); lia. }
  assert (u64 (old + len) = old + len) as E by (destruct (Z.leb_spec (2 ^ 64) (old + len)); unfold is_u in *; lia).
  rewrite E in *. pose proof (si_shape _ _ _ _ Hinv) as Hs. pose proof (sh_areas _ _ Hs) as Hwf.
  apply wp_bind. eapply wp_asks; [by apply vm_find_spec |].
  destruct (area_of_addr ls old) as [[a r] |] eqn:Ea; cbn [ptr fst].
  2:{ cbn [Z.eqb]. apply wp_bind, wp_ret, wp_ret, Hfail. right. left. split; [done |]. apply solid_none; [done | lia | done]. }
  pose proof (solid_found ls old (old + len) a r Hwf ltac:(lia) Ea) as Hso.
  apply area_of_addr_Some in Ea as [Hin Hc]; [| done]. cbn [snd] in Hc.
  pose proof (shape_nonzero _ _ (a, r) Hs Hin) as H0%Z.eqb_neq. simpl in H0. rewrite H0.
  apply wp_bind, wp_bind, (wp_asks _ r); [by apply (sh_recs _ _ Hs) |]. apply wp_ret.
  destruct (Z.ltb_spec (va_end r) (old + len)) as [Hno | Hge].
  { apply wp_ret, Hfail. right. left. split; [done |]. rewrite Hso. lia. }
  apply Hso in Hge as Hsolid. destruct (Z.leb_spec nlen len) as [Hle | Hlt].
  { apply (remap_shrink_spec o T); try done; lia. }
  pose proof (areas_wf_elem _ _ Hwf Hin) as [_ _ _ _ Hhigh]. simpl in Hhigh.
  rewrite (u64_small (old + nlen)) by (unfold USER_ADDR_LIMIT, is_u in *; lia).
  apply wp_bind. destruct ((old + len =? va_end r) && user_range old (old + nlen)) eqn:Etest.
  - apply andb_prop in Etest as [Ee%Z.eqb_eq Hur].
    destruct (vm_range_free_spec (vm s) ls (old + len) (old + nlen) Hs ltac:(lia)) as (b & Hb & Hbc).
    eapply wp_asks; [exact Hb |]. destruct b.
    { apply (remap_grow_spec o T s ls old len nlen flags) with (r := r); try done; try lia. split; [done |]. by apply Hbc. }
    assert (~ extendable ls old len nlen) as Hnex by (intros [_ H%Hbc]; done).
    destruct (Z.eqb_spec (Z.land flags MREMAP_MAYMOVE) 0); [apply wp_ret, Hfail; right; right; by auto 6 |].
    apply (remap_move_spec o T); try done; lia.
  - eapply wp_asks; [done |].
    assert (~ extendable ls old len nlen) as Hnex.
    { intros [Hur Hcl]. rewrite Hur, andb_true_r in Etest. apply Z.eqb_neq in Etest. destruct (Hcl _ Hin), Hc; simpl in *; lia. }
    destruct (Z.eqb_spec (Z.land flags MREMAP_MAYMOVE) 0); [apply wp_ret, Hfail; right; right; by auto 6 |].
    apply (remap_move_spec o T); try done; lia.
Qed.

(** ** A fixed destination *)

(** What the pages hold after an unmapping. *)
Lemma unmapped_content lo hi s ls s' ls' va : unmapped lo hi s ls s' ls' -> same_data s s' -> user_page va ->
  content s' va = if (lo <=? va) && (va <? hi) then Some zero_frame else content s va.
Proof.
  intros [_ Hp] Hd Hva. unfold content. rewrite Hp by done. unfold cleared.
  destruct ((lo <=? va) && (va <? hi)) eqn:E; cbn [andb].
  - destruct (has_frame (pte s va)) eqn:Ef; by rewrite ?Ef.
  - destruct (has_frame (pte s va)) eqn:Ef; [| done].
    assert (frame_of (pte s va) <> 0) as H0 by (rewrite has_frame_of in Ef; by apply negb_true_iff, Z.eqb_neq in Ef).
    apply Hd; [done | apply count_pos; eauto |]. apply count_pos. exists va. split; [done |].
    rewrite Hp by done. unfold cleared. by rewrite E.
Qed.

(** What was mapped from [new] to [new + new_len] is gone, and so is the range
    from [lo] to [hi]. *)
Record dropped_ranges (new new_len lo hi : Z) s ls s' ls' : Prop := {
  dr_view : forall addr, view ls' addr =
    if (new <=? addr) && (addr <? new + new_len) || (lo <=? addr) && (addr <? hi) then None else view ls addr;
  dr_content : forall va, user_page va -> content s' va =
    if (new <=? va) && (va <? new + new_len) || (lo <=? va) && (va <? hi) then Some zero_frame else content s va;
}.

(** The range of [len] bytes at [old] replaces what was at [new], [new_len] bytes
    long; what does not fit is gone. *)
Record replaced (old len new new_len : Z) s ls s' ls' : Prop := {
  re_view : exists r, (forall addr, old <= addr < old + Z.min len new_len -> view ls addr = Some (area_view r addr)) /\
    forall addr, view ls' addr =
      if (new <=? addr) && (addr <? new + new_len) then Some (area_view r (old + (addr - new)))
      else if (old <=? addr) && (addr <? old + len) then None else view ls addr;
  re_content : forall va, user_page va -> content s' va =
    if (new <=? va) && (va <? new + new_len) then
      (if va <? new + len then content s (old + (va - new)) else Some zero_frame)
    else if (old <=? va) && (va <? old + len) then Some zero_frame else content s va;
}.

(** Why [vm_remap_fixed] fails before it changes anything. *)
Definition fixed_error (old len new_len flags new err : Z) s ls : Prop :=
  (err = - EINVAL /\ (~ aligned old \/ ~ aligned new \/ len = 0 \/ new_len = 0 \/ 2 ^ 64 <= old + len \/
     Z.land flags MREMAP_MAYMOVE = 0 \/ user_range new (u64 (new + new_len)) = false \/
     new < old + len /\ old < new + new_len)) \/
  (err = - EFAULT /\ ~ solid ls old (old + len)) \/
  (err = - ENOMEM /\ credit s < 2).

Inductive fixed_result (old len new_len flags new : Z) s ls s' ls' : Z * Z -> Prop :=
| FixedMoved : replaced old len new new_len s ls s' ls' -> fixed_result old len new_len flags new s ls s' ls' (0, new)
| FixedFailed err : fixed_error old len new_len flags new err s ls -> unseen s ls s' ls' ->
    fixed_result old len new_len flags new s ls s' ls' (err, 0)
| FixedStopped lo : lo = old + len \/ lo = old + new_len /\ new_len < len -> dropped_ranges new new_len lo (old + len) s ls s' ls' ->
    fixed_result old len new_len flags new s ls s' ls' (- ENOMEM, 0).

(** One unmapping after another. *)
Lemma dropped_two new new_len lo hi s ls s1 ls1 s2 ls2 : unmapped new (new + new_len) s ls s1 ls1 -> same_data s s1 ->
  unmapped lo hi s1 ls1 s2 ls2 -> same_data s1 s2 -> dropped_ranges new new_len lo hi s ls s2 ls2.
Proof.
  intros H1 D1 H2 D2. constructor.
  - intros addr. rewrite (um_view _ _ _ _ _ _ H2), (um_view _ _ _ _ _ _ H1).
    by destruct ((new <=? addr) && (addr <? new + new_len)), ((lo <=? addr) && (addr <? hi)).
  - intros va Hva. rewrite (unmapped_content _ _ _ _ _ _ _ H2 D2 Hva), (unmapped_content _ _ _ _ _ _ _ H1 D1 Hva).
    by destruct ((new <=? va) && (va <? new + new_len)), ((lo <=? va) && (va <? hi)).
Qed.

Lemma unseen_content s ls s' ls' va : unseen s ls s' ls' -> same_data s s' -> user_page va -> content s' va = content s va.
Proof.
  intros Hu Hd Hva. rewrite (unmapped_content 0 0 s ls s' ls' va); [by zcases | by apply unmapped_unseen | done | done].
Qed.

Lemma dropped_unseen new new_len lo hi s ls s1 ls1 s2 ls2 : dropped_ranges new new_len lo hi s ls s1 ls1 ->
  unseen s1 ls1 s2 ls2 -> same_data s1 s2 -> dropped_ranges new new_len lo hi s ls s2 ls2.
Proof.
  intros [Hv Hc] Hu Hd. constructor.
  - intros addr. by rewrite (proj1 Hu).
  - intros va Hva. by rewrite (unseen_content _ _ _ _ _ Hu Hd Hva), Hc.
Qed.

Lemma replaced_intro old len new new_len s ls s2 ls2 s' ls' : page_range old (old + len) -> page_range new (new + new_len) ->
  0 < len -> 0 < new_len -> aligned len -> aligned new_len -> old + len <= new \/ new + new_len <= old ->
  dropped_ranges new new_len (old + Z.min len new_len) (old + len) s ls s2 ls2 -> agree (pte s2) ls2 ->
  relocated old (Z.min len new_len) new new_len s2 ls2 s' ls' -> replaced old len new new_len s ls s' ls'.
Proof.
  intros [R1 R2 R3 R4 R5] [N1 N2 N3 N4 N5] Hl Hn Hal Han Hdis [Hv Hc] Hag Hrl. set (m := Z.min len new_len) in *.
  assert (aligned m) as Ham by (unfold m; destruct (Z.min_dec len new_len) as [-> | ->]; done).
  assert (page_range old (old + m)) as Ho by (constructor; try done; try lia; by apply aligned_sum).
  assert (page_range new (new + m)) as Hnm by (constructor; try done; try lia; by apply aligned_sum).
  constructor.
  - destruct (rl_view _ _ _ _ _ _ _ _ Hrl) as (r & Hr & Hv'). exists r. split.
    + intros addr Ha. rewrite <- (Hr addr Ha), Hv.
      destruct (Z.leb_spec new addr), (Z.ltb_spec addr (new + new_len)), (Z.leb_spec (old + m) addr); cbn [andb orb]; try lia; done.
    + intros addr. rewrite Hv', Hv. destruct ((new <=? addr) && (addr <? new + new_len)); cbn [orb]; [done |].
      destruct (Z.leb_spec old addr), (Z.ltb_spec addr (old + m)), (Z.ltb_spec addr (old + len)), (Z.leb_spec (old + m) addr);
        cbn [andb]; try lia; done.
  - intros va Hva. rewrite (relocated_content old m new new_len s2 s' ls2 ls') by (done || lia).
    destruct (Z.leb_spec new va) as [H1 | H1], (Z.ltb_spec va (new + m)) as [H2 | H2]; cbn [andb].
    + destruct (Z.ltb_spec va (new + new_len)), (Z.ltb_spec va (new + len)); try lia. rewrite Hc.
      * destruct (Z.leb_spec new (old + (va - new))), (Z.ltb_spec (old + (va - new)) (new + new_len)),
          (Z.leb_spec (old + m) (old + (va - new))); cbn [andb orb]; try lia; done.
      * split; [unfold user_va; lia |]. apply aligned_sum; [done |]. unfold aligned in *. by rewrite Zminus_mod, (proj2 Hva), N1.
    + rewrite !Hc by done. destruct (Z.ltb_spec va (new + new_len)), (Z.ltb_spec va (new + len)), (Z.leb_spec new va),
        (Z.leb_spec old va), (Z.ltb_spec va (old + m)), (Z.leb_spec (old + m) va), (Z.ltb_spec va (old + len)); cbn [andb orb]; try lia; done.
    + rewrite !Hc by done. destruct (Z.leb_spec new va),
        (Z.leb_spec old va), (Z.ltb_spec va (old + m)), (Z.leb_spec (old + m) va), (Z.ltb_spec va (old + len)); cbn [andb orb]; try lia; done.
    + rewrite !Hc by done. destruct (Z.leb_spec new va),
        (Z.leb_spec old va), (Z.ltb_spec va (old + m)), (Z.leb_spec (old + m) va), (Z.ltb_spec va (old + len)); cbn [andb orb]; try lia; done.
Qed.

Lemma unmapped_sub lo hi s ls s' ls' : unmapped lo hi s ls s' ls' -> forall f, f <> 0 -> 0 < count s' f -> 0 < count s f.
Proof. intros [_ Hp]. apply count_sub. intros va Hva. rewrite Hp by done. unfold cleared. by destruct (_ && has_frame _). Qed.

Lemma unseen_sub s ls s' ls' : unseen s ls s' ls' -> forall f, f <> 0 -> 0 < count s' f -> 0 < count s f.
Proof. intros [_ Hp]. apply count_sub. intros va Hva. by rewrite Hp by done. Qed.

Lemma relocated_sub old len new new_len s ls s' ls' : page_range old (old + len) -> page_range new (new + len) ->
  relocated old len new new_len s ls s' ls' -> forall f, f <> 0 -> 0 < count s' f -> 0 < count s f.
Proof.
  intros Ho Hn Hrl f Hf (va & Hva & E)%count_pos. rewrite (rl_pte _ _ _ _ _ _ _ _ Hrl) in E by done.
  destruct (moved_origin (pte s) old new len va Ho Hn Hva) as (Em & Hu & _).
  { rewrite has_frame_of, E. by apply negb_true_iff, Z.eqb_neq. }
  apply count_pos. exists (origin (pte s) old new len va). split; [done |]. by rewrite <- Em.
Qed.

Section fixed.
Context (o : Z -> Z) (T : gset Z) (s : state A) (ls : alist) (old len new new_len flags : Z).
Hypotheses (Hinv : space_inv o T s ls) (Hsol : solvent o) (Hl : light s).
Hypotheses (Hlen : 0 < len) (Hnlen : 0 < new_len) (Hall : aligned len) (Haln : aligned new_len).
Hypotheses (Hold : page_range old (old + len)) (Hnew : page_range new (new + new_len)).
Hypothesis (Hdis : old + len <= new \/ new + new_len <= old).
Abbreviation outcome := (fun r s' => exists ls', kept o s s' ls' /\ brk (vm s') = brk (vm s) /\
  (cow_safe o (pte s) ls -> cow_safe o (pte s') ls') /\ fixed_result old len new_len flags new s ls s' ls' r).

(** The destination and what does not fit are gone. *)
Lemma fixed_move_spec s2 ls2 : kept o s s2 ls2 -> brk (vm s2) = brk (vm s) -> (cow_safe o (pte s) ls -> cow_safe o (pte s2) ls2) ->
  dropped_ranges new new_len (old + Z.min len new_len) (old + len) s ls s2 ls2 ->
  solid ls2 old (old + Z.min len new_len) -> range_clear ls2 new (new + new_len) ->
  wp (let* err := move_locked old (Z.min len new_len) new new_len in
      ret (if err =? 0 then (0, new) else (err, 0))) outcome s2.
Proof using All.
  intros Hk Hb Hcow Hdr Hso Hcl. pose proof Hk as ((T2 & Hinv2) & Hl2 & _). set (m := Z.min len new_len) in *.
  assert (aligned m) as Ham by (unfold m; destruct (Z.min_dec len new_len) as [-> | ->]; done).
  pose proof Hold as [R1 R2 R3 R4 R5]. pose proof Hnew as [N1 N2 N3 N4 N5].
  assert (page_range old (old + m)) as Ho by (constructor; try done; try lia; by apply aligned_sum).
  assert (page_range new (new + m)) as Hnm by (constructor; try done; try lia; by apply aligned_sum).
  apply wp_bind. eapply wp_mono; [apply (move_locked_spec o T2 s2 ls2 old m new new_len); try done; lia |].
  intros err s' (ls' & Hk' & Hb' & Hres). apply wp_ret. exists ls'.
  destruct Hres as [[-> Hrl] | (-> & _ & Hun)]; cbn [Z.eqb].
  - split; [eapply kept_after; [done | done | exact (relocated_sub _ _ _ _ _ _ _ _ Ho Hnm Hrl)] |]. split; [congruence |].
    split; [intros Hc; eapply (cow_safe_relocated old m new new_len s2 s' ls2 ls'); try done; [lia | apply Hinv2 | by apply Hcow] |].
    apply FixedMoved. eapply (replaced_intro old len new new_len s ls s2 ls2); try done. apply Hinv2.
  - split; [eapply kept_after; [done | done | by eapply unseen_sub] |]. split; [congruence |].
    split; [intros Hc; eapply cow_safe_unseen; [by apply Hcow | done] |].
    apply (FixedStopped _ _ _ _ _ _ _ _ _ (old + m)); [unfold m; lia |]. eapply dropped_unseen; [done | done | apply Hk'].
Qed.

(** After the destination is free. *)
Lemma fixed_tail_spec s1 ls1 : kept o s s1 ls1 -> brk (vm s1) = brk (vm s) -> unmapped new (new + new_len) s ls s1 ls1 ->
  solid ls1 old (old + len) ->
  wp (let* err := (if new_len <? len then unmap_locked (u64 (old + new_len)) (len - new_len) else ret 0) in
      if negb (err =? 0) then ret (err, 0)
      else
        let* err := move_locked old (if new_len <? len then new_len else len) new new_len in
        ret (if err =? 0 then (0, new) else (err, 0))) outcome s1.
Proof using All.
  intros Hk Hb Hum Hso. pose proof Hk as ((T1 & Hinv1) & Hl1 & _ & Hd1). pose proof Hold as [R1 R2 R3 R4 R5].
  assert (cow_safe o (pte s) ls -> cow_safe o (pte s1) ls1) as Hcow by (intros Hc; by eapply cow_safe_unmapped).
  assert (range_clear ls1 new (new + new_len)) as Hcl.
  { apply view_clear; [apply (si_shape _ _ _ _ Hinv1) | lia |]. intros addr Ha. rewrite (um_view _ _ _ _ _ _ Hum addr). by zcases. }
  destruct (Z.ltb_spec new_len len) as [Hlt | Hge].
  2:{ apply wp_bind, wp_ret. cbn [Z.eqb negb]. replace len with (Z.min len new_len) at 1 by lia.
      apply (fixed_move_spec s1 ls1); try done; [| by replace (Z.min len new_len) with len by lia].
      replace (Z.min len new_len) with len by lia. eapply (dropped_two new new_len); try done; apply unmapped_nothing. }
  assert (u64 (old + new_len) = old + new_len) as -> by (apply u64_small; unfold USER_ADDR_MIN, USER_ADDR_LIMIT in *; lia).
  apply wp_bind. eapply wp_mono; [apply (unmap_locked_keeps o T1 s1 ls1); try done; unfold is_u, USER_ADDR_MIN, USER_ADDR_LIMIT in *; lia |].
  replace (old + new_len + (len - new_len)) with (old + len) by lia.
  rewrite u64_small, PAGE_ALIGN_UP_aligned by (done || (unfold USER_ADDR_MIN, USER_ADDR_LIMIT, PAGE_SIZE in *; lia)).
  intros err s2 (ls2 & Hk2 & Hb2 & Hres & Hkeep). pose proof Hk2 as ((T2 & Hinv2) & _ & _ & Hd2).
  destruct Hres as [(-> & _ & _ & Hum2) | [[[_ [Hna | ?]] | [-> Hcr]] Hun]]; cbn [Z.eqb negb]; [| by destruct Hna; apply aligned_sum | lia |].
  - replace new_len with (Z.min len new_len) at 1 by lia. apply (fixed_move_spec s2 ls2).
    + eapply kept_after; [done | done | by eapply unmapped_sub].
    + congruence.
    + intros Hc. eapply cow_safe_unmapped; [by apply Hcow | done].
    + replace (Z.min len new_len) with new_len by lia. by eapply (dropped_two new new_len).
    + apply Hkeep; [lia | lia |]. destruct Hso as (x & Hx & ? & ?). exists x. split; [done | lia].
    + apply view_clear; [apply (si_shape _ _ _ _ Hinv2) | lia |]. intros addr Ha. rewrite (um_view _ _ _ _ _ _ Hum2 addr).
      rewrite (clear_view ls1 new (new + new_len)); [by destruct (_ && _) | apply (si_shape _ _ _ _ Hinv1) | done | done].
  - apply wp_ret. exists ls2. split; [eapply kept_after; [done | done | by eapply unseen_sub] |]. split; [congruence |].
    split; [intros Hc; eapply cow_safe_unseen; [by apply Hcow | done] |].
    apply (FixedStopped _ _ _ _ _ _ _ _ _ (old + len)); [by left |]. eapply dropped_unseen; [| done | done].
    eapply (dropped_two new new_len); try done; apply unmapped_nothing.
Qed.
End fixed.

Lemma remap_fixed_spec o T s ls old old_len new_len flags new : space_inv o T s ls -> solvent o -> light s ->
  is_u 64 old -> is_u 64 new -> 0 <= old_len <= 2 ^ 63 -> 0 <= new_len <= 2 ^ 63 ->
  wp (remap_fixed_locked old old_len new_len flags new) (fun r s' => exists ls', kept o s s' ls' /\ brk (vm s') = brk (vm s) /\
    (cow_safe o (pte s) ls -> cow_safe o (pte s') ls') /\
    fixed_result old (PAGE_ALIGN_UP old_len) (PAGE_ALIGN_UP new_len) flags new s ls s' ls' r) s.
Proof.
  intros Hinv Hsol Hl Hu Hun Hol Hnl. unfold remap_fixed_locked. pose proof (align_up_half old_len Hol) as HL.
  pose proof (align_up_half new_len Hnl) as HN. pose proof (align_up_aligned old_len) as Hall. pose proof (align_up_aligned new_len) as Haln.
  pose proof (align_up_u new_len) as HuN. set (len := PAGE_ALIGN_UP old_len) in *. set (nlen := PAGE_ALIGN_UP new_len) in *. cbv zeta.
  assert (forall err, fixed_error old len nlen flags new err s ls -> exists ls', kept o s s ls' /\ brk (vm s) = brk (vm s) /\
    (cow_safe o (pte s) ls -> cow_safe o (pte s) ls') /\ fixed_result old len nlen flags new s ls s ls' (err, 0)) as Hfail.
  { intros err He. exists ls. split; [by eapply kept_refl |]. split_and!; try done. apply FixedFailed; [done | apply unseen_refl]. }
  rewrite !low_bits by done. pose proof (u64_sum old len Hu ltac:(lia)) as Eend.
  destruct (Z.eqb_spec (old mod PAGE_SIZE) 0) as [Hal | Hna]; cbn [negb orb]; [| apply wp_ret, Hfail; left; by auto].
  destruct (Z.eqb_spec (new mod PAGE_SIZE) 0) as [Han | Hna]; cbn [negb orb]; [| apply wp_ret, Hfail; left; by auto].
  destruct (Z.eqb_spec len 0) as [| Hl0]; cbn [orb]; [apply wp_ret, Hfail; left; by auto |].
  destruct (Z.eqb_spec nlen 0) as [| Hn0]; cbn [orb]; [apply wp_ret, Hfail; left; by auto 6 |].
  destruct (Z.ltb_spec (u64 (old + len)) old) as [Hwr | Hwr]; cbn [orb].
  { apply wp_ret, Hfail. left. split; [done |]. do 4 right. left. destruct (Z.leb_spec (2 ^ 64) (old + len)); lia. }
  destruct (Z.eqb_spec (Z.land flags MREMAP_MAYMOVE) 0); cbn [orb]; [apply wp_ret, Hfail; left; by auto 8 |].
  destruct (user_range new (u64 (new + nlen))) eqn:Hur; cbn [negb]; [| apply wp_ret, Hfail; left; by auto 9].
  assert (u64 (old + len) = old + len) as E by (destruct (Z.leb_spec (2 ^ 64) (old + len)); unfold is_u in *; lia).
  destruct (range_sum new nlen Hun HuN Han Haln Hur) as (En & Hnew & Hnlt). rewrite E, En.
  destruct ((new <? old + len) && (old <? new + nlen)) eqn:Hov.
  { apply andb_prop in Hov as [?%Z.ltb_lt ?%Z.ltb_lt]. apply wp_ret, Hfail. left. by auto 10. }
  assert (old + len <= new \/ new + nlen <= old) as Hdis by (apply andb_false_iff in Hov as [?%Z.ltb_ge | ?%Z.ltb_ge]; auto).
  pose proof (si_shape _ _ _ _ Hinv) as Hs. pose proof (sh_areas _ _ Hs) as Hwf.
  apply wp_bind. eapply wp_asks; [by apply vm_find_spec |]. apply wp_bind.
  destruct (area_of_addr ls old) as [[a r] |] eqn:Ea; cbn [ptr fst].
  2:{ cbn [Z.eqb]. apply wp_ret, wp_ret, Hfail. right. left. split; [done |]. apply solid_none; [done | lia | done]. }
  pose proof (solid_found ls old (old + len) a r Hwf ltac:(lia) Ea) as Hso.
  apply area_of_addr_Some in Ea as [Hin _]; [| done].
  pose proof (shape_nonzero _ _ (a, r) Hs Hin) as H0%Z.eqb_neq. simpl in H0. rewrite H0.
  apply wp_bind, (wp_asks _ r); [by apply (sh_recs _ _ Hs) |]. apply wp_ret.
  destruct (Z.ltb_spec (va_end r) (old + len)) as [Hno | Hge]; [apply wp_ret, Hfail; right; left; split; [done |]; rewrite Hso; lia |].
  apply Hso in Hge as Hsolid.
  assert (page_range old (old + len)) as Hold by (apply (solid_range ls); try done; [lia | by apply aligned_sum]).
  apply wp_bind. eapply wp_mono; [by apply (unmap_locked_keeps o T s ls) |].
  rewrite En, (align_up_sum new nlen Hnew). intros err s1 (ls1 & Hk1 & Hb1 & Hres & Hkeep).
  destruct Hres as [(-> & _ & _ & Hum) | [[[_ [? | ?]] | [-> Hcr]] Hse]]; cbn [Z.eqb negb]; [| done | lia |].
  - apply (fixed_tail_spec o T s ls old len new nlen flags) with (ls1 := ls1); try done; [lia.. |].
    apply Hkeep; [lia | lia | done].
  - apply wp_ret. exists ls1. split; [done |]. split; [done |]. split; [intros Hc; by eapply cow_safe_unseen |].
    apply FixedFailed; [| done]. right. by right.
Qed.

(** ** After the write backs *)

Lemma drained_content s1 s2 va : drained s1 s2 -> content s2 va = content s1 va.
Proof. intros [Hd _ _ Hm]. unfold content. by rewrite Hd, Hm. Qed.

Lemma relocated_drained old len new new_len s ls s1 ls1 s2 : relocated old len new new_len s ls s1 ls1 -> drained s1 s2 ->
  relocated old len new new_len s ls s2 ls1.
Proof.
  intros [Hf Hv Hp Hm] [Hd _ _ Hmm]. constructor; [done | done | |].
  - intros va Hva. rewrite Hd. by apply Hp.
  - intros va Hva Hfr. rewrite Hmm. by apply Hm.
Qed.

Lemma remap_drained old len new_len flags s ls s1 ls1 s2 r : remap_result old len new_len flags s ls s1 ls1 r -> drained s1 s2 ->
  remap_result old len new_len flags s ls s2 ls1 r.
Proof.
  intros [? ? Hu | ? ? ? [? Hp] | new ? ? ? ? ? ? Hr | err He Hu] Hd.
  - apply RemapShrunk; try done. by eapply unmapped_drained.
  - apply RemapGrown; try done. split; [done |]. intros va Hva. rewrite (dr_pte _ _ Hd). by apply Hp.
  - apply RemapMoved; try done. by eapply relocated_drained.
  - apply RemapFailed; [done |]. by eapply unseen_drained.
Qed.

Lemma fixed_drained old len new_len flags new s ls s1 ls1 s2 r : fixed_result old len new_len flags new s ls s1 ls1 r ->
  drained s1 s2 -> fixed_result old len new_len flags new s ls s2 ls1 r.
Proof.
  intros [[Hv Hc] | err He Hu | lo Hlo [Hv Hc]] Hd.
  - apply FixedMoved. constructor; [done |]. intros va Hva. rewrite (drained_content s1 s2 va Hd). by apply Hc.
  - apply FixedFailed; [done |]. by eapply unseen_drained.
  - apply (FixedStopped _ _ _ _ _ _ _ _ _ lo); [done |]. constructor; [done |].
    intros va Hva. rewrite (drained_content s1 s2 va Hd). by apply Hc.
Qed.

Lemma cow_safe_remap o old len new_len flags s ls s' ls' r T : space_inv o T s ls -> cow_safe o (pte s) ls ->
  0 <= len -> aligned len -> remap_result old len new_len flags s ls s' ls' r -> cow_safe o (pte s') ls'.
Proof.
  intros Hinv Hc Hlen Hal [? ? Hu | ? ? Hex [[r' [Hr Hv]] Hp] | new ? ? ? ? Ho [N1 N2 N3 N4 N5] Hr | err He Hu].
  - by eapply cow_safe_unmapped.
  - apply (cow_safe_less o (pte s) ls); [done |]. intros va Hva Hf. rewrite Hp in * by done. rewrite Hv.
    split_and!; try done; [| intros; by apply (cs_read _ _ _ Hc)].
    destruct (_ && _) eqn:E; [| done]. apply andb_prop in E as [?%Z.leb_le ?%Z.ltb_lt].
    pose proof (si_agree _ _ _ _ Hinv va Hva Hf) as Hag. destruct Hex as [_ Hcl].
    by rewrite (clear_view ls (old + len) (old + new_len)) in Hag by (done || apply (si_shape _ _ _ _ Hinv)).
  - eapply (cow_safe_relocated old len new new_len s s' ls ls'); try done; [| lia | apply Hinv].
    constructor; try done; try lia. by apply aligned_sum.
  - by eapply cow_safe_unseen.
Qed.

(** The bytes of the range are at the address returned. *)
Lemma remap_content o T old len new_len flags new s ls s' ls' va : space_inv o T s ls -> kept o s s' ls' ->
  0 <= len -> aligned len -> 0 <= new_len -> remap_result old len new_len flags s ls s' ls' (0, new) ->
  user_page va -> old <= va < old + Z.min len new_len -> content s' (new + (va - old)) = content s va.
Proof.
  intros Hinv (_ & _ & _ & Hd) Hlen Hal Hnl Hres Hva Hin.
  inversion Hres as [? ? Hu | ? ? ? [_ Hp] | ? ? ? ? ? Hold Hnew Hrl | ? He Hu]; subst.
  - rewrite Z.add_sub_assoc, Z.add_simpl_l. rewrite (unmapped_content (new + new_len) (new + len) s ls s' ls') by done. by zcases.
  - rewrite Z.add_sub_assoc, Z.add_simpl_l. rewrite (unmapped_content new new s ls s' ls) by (done || by apply unmapped_unseen). by zcases.
  - destruct Hnew as [N1 N2 N3 N4 N5]. pose proof (pr_start _ _ Hold) as Ho.
    assert (page_range new (new + len)) as Hnew by (constructor; try done; [by apply aligned_sum | lia..]).
    rewrite (relocated_content old len new new_len s s' ls ls'); try done; try lia; [| | apply Hinv].
    + zcases; try lia. all: f_equal; lia.
    + split; [unfold user_va; lia |]. apply aligned_sum; [done |]. unfold aligned in *. by rewrite Zminus_mod, (proj2 Hva), Ho.
  - exfalso. unfold remap_error, EINVAL, EFAULT, ENOMEM in He. lia.
Qed.

Lemma vm_remap_spec o T s ls old old_len new_len flags : space_inv o T s ls -> solvent o -> light s ->
  is_u 64 old -> 0 <= old_len <= 2 ^ 63 -> 0 <= new_len <= 2 ^ 63 ->
  wp (vm_remap old old_len new_len flags) (fun r s' => exists ls', kept o s s' ls' /\ pending (vm s') = [] /\
    brk (vm s') = brk (vm s) /\
    remap_result old (PAGE_ALIGN_UP old_len) (PAGE_ALIGN_UP new_len) flags s ls s' ls' r) s.
Proof.
  intros Hinv Hsol Hl Hu Hol Hnl. unfold vm_remap. apply wp_bind. eapply wp_mono; [by apply (remap_locked_spec o T s ls) |].
  intros r s1 (ls1 & Hk & Hb & Hres). cbn beta. apply wp_bind. eapply wp_mono; [by apply drain_kept |].
  intros [] s2 (Hk2 & Hd). apply wp_ret. exists ls1. split; [done |]. split; [apply Hd |].
  split; [by rewrite (dr_brk _ _ Hd) | by eapply remap_drained].
Qed.

Lemma vm_remap_fixed_spec o T s ls old old_len new_len flags new : space_inv o T s ls -> solvent o -> light s ->
  is_u 64 old -> is_u 64 new -> 0 <= old_len <= 2 ^ 63 -> 0 <= new_len <= 2 ^ 63 ->
  wp (vm_remap_fixed old old_len new_len flags new) (fun r s' => exists ls', kept o s s' ls' /\ pending (vm s') = [] /\
    brk (vm s') = brk (vm s) /\ (cow_safe o (pte s) ls -> cow_safe o (pte s') ls') /\
    fixed_result old (PAGE_ALIGN_UP old_len) (PAGE_ALIGN_UP new_len) flags new s ls s' ls' r) s.
Proof.
  intros Hinv Hsol Hl Hu Hun Hol Hnl. unfold vm_remap_fixed. apply wp_bind. eapply wp_mono; [by apply (remap_fixed_spec o T s ls) |].
  intros r s1 (ls1 & Hk & Hb & Hc & Hres). cbn beta. apply wp_bind. eapply wp_mono; [by apply drain_kept |].
  intros [] s2 (Hk2 & Hd). apply wp_ret. exists ls1. split; [done |]. split; [apply Hd |].
  split; [by rewrite (dr_brk _ _ Hd) |]. split; [| by eapply fixed_drained].
  intros Hc0. apply (cow_safe_ext o (pte s1) ls1); [by apply Hc | | done]. intros va _. apply Hd.
Qed.
End remap.
