(* ===== verification/VmCalls.v ===== *)
(** * Sequences of calls of vm.c *)

From Stdlib Require Import ZArith Lia Bool.
From stdpp Require Import base list option gmap.
From S2P Require Import Prelude Mmu Frames PageTable PageTableFacts StateMonad Rbtree RbtreeFacts RbtreeRemove VmArea VmAreaFacts Vm VmPages VmPageOps VmOps VmProtect VmCow VmFault VmWrite VmRange VmBrk VmFile VmMove VmEntry VmRemap.
Open Scope Z_scope.
Open Scope prog_scope.

Section calls.
Context {A : Type} `{!Frames A, !FramesOk A}.
Implicit Types (s : state A) (o : Z -> Z) (T : gset Z) (ls : alist).

(** ** Sequences of calls *)

Inductive vm_op :=
| OpMap (addr len prot flags : Z) (fixed : bool)
| OpUnmap (addr len : Z)
| OpProtect (addr len prot : Z)
| OpDiscard (addr len : Z)
| OpBrk (new_brk : Z)
| OpSync (addr len : Z)
| OpFault (addr : Z) (write : bool)
| OpPopulate (addr len : Z) (write : bool)
| OpWrite (addr len : Z) (src : option (list Z))
| OpRemap (old old_len new_len flags : Z)
| OpRemapFixed (old old_len new_len flags new : Z)
| OpAttach (start ops file offset : Z).

(** Arguments of the machine's width; a mapping is at most half the address
    space long. *)
Definition op_ok (c : vm_op) : Prop :=
  match c with
  | OpMap addr len _ _ _ => is_u 64 addr /\ 0 <= len <= 2 ^ 63
  | OpUnmap addr len | OpProtect addr len _ | OpDiscard addr len | OpSync addr len
  | OpPopulate addr len _ => is_u 64 addr /\ is_u 64 len
  | OpBrk b => is_u 64 b
  | OpFault _ _ | OpAttach _ _ _ _ => True
  | OpWrite addr len src => is_u 64 addr /\ 0 <= len /\ src_ok src len
  | OpRemap old old_len new_len _ => is_u 64 old /\ 0 <= old_len <= 2 ^ 63 /\ 0 <= new_len <= 2 ^ 63
  | OpRemapFixed old old_len new_len _ new =>
      is_u 64 old /\ is_u 64 new /\ 0 <= old_len <= 2 ^ 63 /\ 0 <= new_len <= 2 ^ 63
  end.

(** The kernel writes to pages that may be shared with others. *)
Definition writes (c : vm_op) : bool := match c with OpWrite _ _ _ => true | _ => false end.

Definition run_op (c : vm_op) : prog (state A) unit :=
  match c with
  | OpMap addr len prot flags fixed => let* _ := vm_map addr len prot flags fixed in ret tt
  | OpUnmap addr len => let* _ := vm_unmap addr len in ret tt
  | OpProtect addr len prot => let* _ := vm_protect addr len prot in ret tt
  | OpDiscard addr len => let* _ := vm_discard addr len in ret tt
  | OpBrk b => let* _ := vm_brk b in ret tt
  | OpSync addr len => let* _ := vm_sync addr len in ret tt
  | OpFault addr write => let* _ := vm_fault addr write in ret tt
  | OpPopulate addr len write => let* _ := vm_populate addr len write in ret tt
  | OpWrite addr len src => let* _ := vm_write addr len src in ret tt
  | OpRemap old old_len new_len flags => let* _ := vm_remap old old_len new_len flags in ret tt
  | OpRemapFixed old old_len new_len flags new => let* _ := vm_remap_fixed old old_len new_len flags new in ret tt
  | OpAttach start ops file offset => let* _ := vm_attach_file start ops file offset in ret tt
  end.

Fixpoint run_ops (cs : list vm_op) : prog (state A) unit :=
  match cs with [] => ret tt | c :: cs' => run_op c ;; run_ops cs' end.

(** What holds between calls. *)
Definition vm_inv o s : Prop := exists T ls, space_inv o T s ls /\ light s /\ cow_safe o (pte s) ls /\
  PAGE_ALIGN_UP (brk (vm s)) <= USER_ADDR_LIMIT.

(** What a call leaves: the invariant and, unless it writes, the frames of others. *)
Definition call_ends o c s s' : Prop := vm_inv o s' /\ (writes c = false -> quiet o s s').

Lemma vm_inv_intro o c s s' ls' : kept o s s' ls' -> cow_safe o (pte s') ls' ->
  PAGE_ALIGN_UP (brk (vm s')) <= USER_ADDR_LIMIT -> call_ends o c s s'.
Proof. intros ((T' & Hinv) & Hl & Hq & _) Hc Hb. split; [| done]. by exists T', ls'. Qed.

Lemma vm_inv_transparent o c s ls s' : cow_safe o (pte s) ls -> PAGE_ALIGN_UP (brk (vm s)) <= USER_ADDR_LIMIT ->
  transparent o s ls s' -> call_ends o c s s'.
Proof.
  intros Hc Hb ((T' & Hinv) & Hl & Ht & Hv & _ & Hcs). split; [| intros _; by apply quiet_tame].
  exists T', ls. rewrite Hv. split_and!; auto.
Qed.

(** A file behind an area changes no protection and no flags. *)
Lemma cow_safe_attached o start ops file offset x s ls s' ls' : cow_safe o (pte s) ls ->
  attach_result start ops file offset x s ls s' ls' -> (exists T, space_inv o T s ls) -> cow_safe o (pte s') ls'.
Proof.
  intros Hc [(_ & _ & Hp & r & (<- & _ & a & Hin) & Hv) | (_ & -> & -> & _)] [T Hinv]; [| done].
  assert (forall va, private (view ls' va) = private (view ls va)) as Hpr.
  { intros va. rewrite Hv. destruct (_ && _) eqn:E; [| done]. apply andb_prop in E as [?%Z.leb_le ?%Z.ltb_lt].
    by rewrite (view_in ls (a, r) va) by (done || apply (si_shape _ _ _ _ Hinv)). }
  apply (cow_safe_less o (pte s) ls); [done |]. intros va Hva Hf. rewrite Hp in * by done.
  split_and!; try done; [by rewrite Hpr | intros; by apply (cs_read _ _ _ Hc)].
Qed.

Lemma run_op_inv o s c : solvent o -> vm_inv o s -> op_ok c ->
  wp (run_op c) (fun _ s' => call_ends o c s s') s.
Proof.
  intros Hsol (T & ls & Hinv & Hl & Hc & Hb) Hok. destruct c; cbn [run_op op_ok] in *; apply wp_bind.
  - destruct Hok as [Ha Hlen]. eapply wp_mono; [by apply (vm_map_spec o T s ls) |].
    intros r s' (ls' & Hk & _ & Hb' & Hres). apply wp_ret, (vm_inv_intro o _ s s' ls'); [done | | by rewrite Hb'].
    destruct Hres as [(? & _ & Hm & _) | (? & _ & _ & [Hu | [_ Hu]])];
      [by eapply cow_safe_mapped | by eapply cow_safe_unseen | by eapply cow_safe_unmapped].
  - destruct Hok as [Ha Hlen]. eapply wp_mono; [by apply (vm_unmap_spec o T s ls) |].
    intros r s' (ls' & Hk & _ & Hb' & Hres). apply wp_ret, (vm_inv_intro o _ s s' ls'); [done | | by rewrite Hb'].
    destruct Hres as [(_ & _ & _ & Hu) | [_ Hu]]; [by eapply cow_safe_unmapped | by eapply cow_safe_unseen].
  - destruct Hok as [Ha Hlen]. eapply wp_mono; [by apply (protect_locked_spec o T s ls) |].
    intros r s' (ls' & Hk & Hb' & Hres). apply wp_ret, (vm_inv_intro o _ s s' ls'); [done | | by rewrite Hb'].
    destruct Hres as [(_ & _ & Hu) | [_ Hu]]; [destruct (len =? 0) |];
      (by eapply cow_safe_unseen) || (by eapply cow_safe_reprotected).
  - destruct Hok as [Ha Hlen]. eapply wp_mono; [by apply (discard_locked_spec o T s ls) |].
    intros r s' ([Hk Hv] & Hres). apply wp_ret, (vm_inv_intro o _ s s' ls); [done | | by rewrite Hv].
    destruct Hres as [[_ Hp] | (? & _ & _ & Hp)]; [by apply (cow_safe_ext o (pte s) ls) |].
    by apply (cow_safe_ranged o _ _ s ls s' _ _ Hc) in Hp.
  - eapply wp_mono; [by apply (vm_brk_spec o T s ls) |].
    intros r s' (ls' & Hk & _ & Hb' & Hres). apply wp_ret, (vm_inv_intro o _ s s' ls'); [done | | done].
    destruct Hres as [(_ & _ & Hu & _) | (_ & _ & _ & Hu)]; [by eapply cow_safe_unseen |].
    destruct (_ <? _); [by eapply cow_safe_grown |].
    destruct Hu as [Hu | [_ Hu]]; [by eapply cow_safe_unseen | by eapply cow_safe_unmapped].
  - destruct Hok as [Ha Hlen]. eapply wp_mono; [by apply (vm_sync_spec o T s ls) |].
    intros r s' (Hk & _ & Hb' & Hres). apply wp_ret, (vm_inv_intro o _ s s' ls); [done | | by rewrite Hb'].
    destruct Hres as [[_ Hp] | (? & _ & _ & Hp)]; [by apply (cow_safe_ext o (pte s) ls) |].
    apply (cow_safe_ranged o _ _ s ls s' _ _ Hc) in Hp; [done |]. intros e _.
    by rewrite frame_of_ldiff, !land_ldiff_other.
  - eapply wp_mono; [by apply (fault_locked_spec o T s ls) |]. intros r s' (Ht & _). apply wp_ret.
    by apply (vm_inv_transparent o _ s ls).
  - destruct Hok as [Ha Hlen]. eapply wp_mono; [by apply (vm_populate_spec o T s ls) |]. intros r s' (Ht & _). apply wp_ret.
    by apply (vm_inv_transparent o _ s ls).
  - destruct Hok as (Ha & Hlen & Hsrc). eapply wp_mono; [by apply (vm_write_spec o T s ls) |].
    intros r s' [[((T' & Hinv') & Hl' & Hv & _ & Hc') _] _]. apply wp_ret. split; [| done].
    exists T', ls. rewrite Hv. split_and!; auto.
  - destruct Hok as (Ha & Hol & Hnl). eapply wp_mono; [by apply (vm_remap_spec o T s ls) |].
    intros r s' (ls' & Hk & _ & Hb' & Hres). apply wp_ret, (vm_inv_intro o _ s s' ls'); [done | | by rewrite Hb'].
    destruct (PAGE_ALIGN_UP_bounds old_len) as [? ?]; [unfold PAGE_SIZE; lia |].
    eapply cow_safe_remap; [exact Hinv | done | | | exact Hres]; [lia | done].
  - destruct Hok as (Ha & Hn & Hol & Hnl). eapply wp_mono; [by apply (vm_remap_fixed_spec o T s ls) |].
    intros r s' (ls' & Hk & _ & Hb' & Hc' & _). apply wp_ret, (vm_inv_intro o _ s s' ls'); [done | by apply Hc' | by rewrite Hb'].
  - eapply wp_mono; [by apply (vm_attach_file_spec o T s ls) |].
    intros r s' (ls' & Hk & Hb' & Hres). apply wp_ret, (vm_inv_intro o _ s s' ls'); [done | | by rewrite Hb'].
    eapply cow_safe_attached; [exact Hc | exact Hres | by exists T].
Qed.

Lemma run_ops_inv o s cs : solvent o -> vm_inv o s -> Forall op_ok cs ->
  wp (run_ops cs) (fun _ s' => vm_inv o s' /\ (existsb writes cs = false -> quiet o s s')) s.
Proof.
  intros Hsol. revert s. induction cs as [| c cs IH]; intros s Hinv Hok; cbn [run_ops existsb].
  - apply wp_ret. split; [done | intros _; apply quiet_space_refl].
  - apply Forall_cons in Hok as [Hc Hcs]. apply wp_bind. eapply wp_mono; [by apply (run_op_inv o s c) |].
    intros [] s1 [Hinv1 Hq1]. eapply wp_mono; [by apply IH |]. intros [] s2 [Hinv2 Hq2].
    split; [done |]. intros [E1 E2]%orb_false_elim. by eapply quiet_space_trans; [apply Hq1 | apply Hq2].
Qed.
End calls.
