(* ===== verification/VmCreate.v ===== *)
(** * New address spaces: [setup_kvm] and [vm_create] *)

From Stdlib Require Import ZArith Lia Bool.
From stdpp Require Import base list option gmap.
From S2P Require Import Prelude Mmu Frames PageTable PageTableFacts StateMonad Rbtree RbtreeFacts RbtreeRemove VmArea VmAreaFacts Vm VmPages VmPageOps VmOps VmProtect VmCow VmFault VmWrite VmRange VmBrk VmFile VmMove VmEntry VmRemap VmCalls.
Open Scope Z_scope.
Open Scope prog_scope.

Section create.
Context {A : Type} `{!Frames A, !FramesOk A}.
Implicit Types (m : phys A) (s : state A) (o : Z -> Z) (T : gset Z) (ls : alist).

(** ** Copying a table *)

Lemma copy_entries_spec n dst src i m ws wd : dst <> src -> mem m !! src = Some ws -> mem m !! dst = Some wd ->
  length ws = length wd -> 0 <= i -> (Z.to_nat i + n = length ws)%nat ->
  copy_entries n dst src i m = Some (set_mem (<[dst := take (Z.to_nat i) wd ++ drop (Z.to_nat i) ws]> (mem m)) m).
Proof.
  intros Hne Hs. revert i m wd Hs. induction n as [| n IH]; intros i m wd Hs Hd Hlen Hi Hn; cbn [copy_entries].
  { unfold set_mem. rewrite take_ge, drop_ge, app_nil_r, insert_id by (done || lia). by destruct m. }
  destruct (lookup_lt_is_Some_2 ws (Z.to_nat i)) as [e He]; [lia |].
  assert (rd ws i = Some e) as Hre by (unfold rd; case_match; [lia | done]).
  unfold rd_word at 1. rewrite Hs. cbn [mbind option_bind]. rewrite Hre. cbn [mbind option_bind].
  unfold store_word, wr_word. rewrite Hd. cbn [mbind option_bind]. rewrite wr_is_Some by lia. cbn [mbind option_bind].
  erewrite (IH (i + 1) _ (<[Z.to_nat i := e]> wd)); cbn [set_mem mem]; try lia.
  - unfold set_mem. cbn [mem frames kernel_pml4]. rewrite insert_insert_eq. do 2 f_equal.
    replace (Z.to_nat (i + 1)) with (S (Z.to_nat i)) by lia.
    rewrite (take_S_r _ _ e) by (apply list_lookup_insert_eq; lia). rewrite take_insert, decide_False by lia.
    rewrite (drop_S ws e (Z.to_nat i) He), <- app_assoc. cbn [app]. done.
  - by rewrite lookup_insert_ne.
  - by rewrite lookup_insert_eq.
  - by rewrite length_insert.
Qed.

Lemma copy_table_spec dst src m ws wd : dst <> src -> mem m !! src = Some ws -> mem m !! dst = Some wd ->
  length ws = 512%nat -> length wd = 512%nat ->
  copy_entries 512 dst src 0 m = Some (set_mem (<[dst := ws]> (mem m)) m).
Proof. intros Hne Hs Hd H1 H2. by rewrite (copy_entries_spec 512 dst src 0 m ws wd) by (done || lia). Qed.

(** ** The page map of a new space *)

(** The kernel's page map is in order, and below user addresses it has no table
    but the lowest one. *)
Record kernel_ready m : Prop := {
  kr_wf : pt_wf m (kernel_pml4 m);
  kr_low : is_Some (walk (mem m) (kernel_pml4 m) 1 0);
  kr_user : forall va, user_va va -> walk (mem m) (kernel_pml4 m) 2 va = None /\
    (ix 0 va <> 0 -> walk (mem m) (kernel_pml4 m) 1 va = None);
}.

Lemma kernel_map_ready o s : kernel_map o s -> kernel_ready (machine (ker s)).
Proof. intros [W _ Hu _ (low & klow & _ & Hk & _)]. constructor; [done | by exists klow | done]. Qed.

(** What [setup_kvm] makes: two new tables, [root] and [low], copies of the
    kernel's but for the link from one to the other. *)
Record new_map (m : phys A) (root low : Z) (m' : phys A) : Prop := {
  nm_frames : frames_inv (frames m');
  nm_kernel : kernel_pml4 m' = kernel_pml4 m;
  nm_root : frame_ok root /\ held (frames m) root = 0;
  nm_low : frame_ok low /\ held (frames m) low = 0;
  nm_ne : root <> low;
  nm_held : forall q, q mod PAGE_SIZE = 0 ->
    held (frames m') q = if (q =? root) || (q =? low) then 1 else held (frames m) q;
  nm_other : forall q, q <> root -> q <> low -> mem m' !! q = mem m !! q;
  nm_top : exists wk, mem m !! kernel_pml4 m = Some wk /\ length wk = 512%nat /\
    exists e, mem m' !! root = Some (<[0%nat := e]> wk) /\ follow e = true /\ table_at e = low;
  nm_bottom : exists klow wl, walk (mem m) (kernel_pml4 m) 1 0 = Some klow /\ mem m !! klow = Some wl /\
    length wl = 512%nat /\ mem m' !! low = Some wl;
}.

(** Nothing that matters changed. *)
Definition same_owned (m m' : phys A) : Prop := frames_inv (frames m') /\ kernel_pml4 m' = kernel_pml4 m /\
  (forall q, q mod PAGE_SIZE = 0 -> held (frames m') q = held (frames m) q) /\
  forall q, q mod PAGE_SIZE = 0 -> 0 < held (frames m) q -> mem m' !! q = mem m !! q.

(** The second half: the lowest table, linked below the copy of the top one. *)
Lemma setup_low_spec (m : phys A) r wk klow wl k0 mem1 a1 : kernel_ready m ->
  mem m !! kernel_pml4 m = Some wk -> length wk = 512%nat -> rd wk 0 = Some k0 -> table_at k0 = klow ->
  walk (mem m) (kernel_pml4 m) 1 0 = Some klow -> mem m !! klow = Some wl -> length wl = 512%nat ->
  0 < held (frames m) klow -> frame_ok klow -> frame_ok r -> held (frames m) r = 0 -> frames_inv a1 ->
  mem1 = <[r := wk]> (mem m) -> cost 1 true (frames m) a1 ->
  (forall q, q mod PAGE_SIZE = 0 -> held a1 q = if q =? r then 1 else held (frames m) q) ->
  exists root m', ('(low_addr, s) ← allocate_page_table (Phys mem1 a1 (kernel_pml4 m));
    if low_addr =? 0 then s ← free_frame r s; Some (0, s)
    else
      s ← copy_entries 512 (table_at low_addr) (table_at k0) 0 s;
      s ← store_word r 0 (Z.lor (Z.lor (Z.lor low_addr MMU_PRESENT) MMU_WRITABLE) MMU_USER) s;
      Some (r, s)) = Some (root, m') /\
  cost 2 (negb (root =? 0)) (frames m) (frames m') /\
  ((root = 0 /\ same_owned m m') \/ exists low, new_map m root low m').
Proof.
  intros Hkr Hwk Hlk Hk0 Ek0 Hklow Hwl Hll HhL HL Hr Hr0 Hf1 -> Hc1 Hh1.
  assert (r <> klow) by (intros ->; lia). pose proof Hr as [Hr1 Hrm].
  destruct (allocate_page_table_spec (Phys (<[r := wk]> (mem m)) a1 (kernel_pml4 m)) Hf1)
    as (l & m2 & -> & Hf2 & Hc2 & [(-> & -> & Hh2) | (Hl & Hl0 & -> & Hh2)]); cbn [mbind option_bind frames] in *.
  { cbn [Z.eqb negb]. unfold free_frame. cbn [frames set_frames]. assert (held (frames m2) r = 1) as Hone.
    { by rewrite Hh2, Hh1, Z.eqb_refl. }
    destruct (frame_free_ok (frames m2) r Hf2 Hr ltac:(lia)) as (a3 & Ha3 & Hf3 & Hh3). rewrite Ha3. cbn [mbind option_bind].
    eexists 0, _. split; [done |]. pose proof (cost_trans _ _ _ _ _ _ Hc1 Hc2) as Hc.
    split; [by apply (cost_free _ _ _ _ _ _ Hf2 Hr ltac:(lia) Ha3) in Hc |]. left. split; [done |].
    split_and!; cbn [frames mem kernel_pml4 set_frames]; try done.
    - intros q Hq. rewrite Hh3, Hh2, Hh1 by done. destruct (Z.eqb_spec q r) as [-> | ?]; lia.
    - intros q Hq Hh. apply lookup_insert_ne. intros ->. lia. }
  destruct (Z.eqb_spec l 0); [destruct Hl; lia |]. cbn [negb] in Hc2. pose proof Hl as [_ Hlm].
  rewrite Hh1 in Hl0 by done. destruct (Z.eqb_spec l r) as [| Hlr]; [lia |].
  assert (l <> klow) by (intros ->; lia). rewrite (table_at_frame l Hl), Ek0. cbn [mem kernel_pml4].
  rewrite (copy_table_spec l klow _ wl zero_frame); cbn [mem];
    [| done | by rewrite !lookup_insert_ne | by rewrite lookup_insert_eq | done | apply zero_frame_length].
  unfold set_mem. cbn [mem frames kernel_pml4 mbind option_bind]. rewrite insert_insert_eq.
  unfold store_word, wr_word. cbn [mem]. rewrite lookup_insert_ne, lookup_insert_eq by done. cbn [mbind option_bind].
  rewrite wr_is_Some by lia. cbn [mbind option_bind]. destruct (new_entry_ok l MMU_USER Hl) as [Hf Hat].
  change (Z.land MMU_USER MMU_USER) with MMU_USER in *. set (e := Z.lor _ MMU_USER) in *.
  eexists r, _. split; [done |]. destruct (Z.eqb_spec r 0); [lia |]. cbn [negb frames set_mem].
  split; [exact (cost_trans _ _ _ _ _ _ Hc1 Hc2) |]. right. exists l.
  constructor; cbn [frames mem kernel_pml4 set_mem]; try done.
  - intros q Hq. rewrite Hh2, Hh1 by done. destruct (Z.eqb_spec q r), (Z.eqb_spec q l); done.
  - intros q Hqr Hql. by rewrite !lookup_insert_ne.
  - exists wk. split_and!; try done. exists e. split_and!; try done. by rewrite lookup_insert_eq.
  - exists klow, wl. split_and!; try done. by rewrite lookup_insert_ne, lookup_insert_eq.
Qed.

Lemma setup_kvm_spec m : kernel_ready m -> exists root m', setup_kvm m = Some (root, m') /\
  cost 2 (negb (root =? 0)) (frames m) (frames m') /\
  ((root = 0 /\ same_owned m m') \/ exists low, new_map m root low m').
Proof.
  intros Hkr. pose proof Hkr as [W [klow Hklow] _]. unfold setup_kvm.
  destruct (wf_table _ _ W 0 0 (kernel_pml4 m) ltac:(lia) eq_refl) as (HK & HhK & wk & Hwk & Hlk).
  destruct (wf_table _ _ W 1 0 klow ltac:(lia) Hklow) as (HL & HhL & wl & Hwl & Hll).
  destruct (allocate_page_table_spec m (wf_frames _ _ W)) as (r & m1 & -> & Hf1 & Hc1 & [(-> & -> & Hh1) | (Hr & Hr0 & -> & Hh1)]);
    cbn [mbind option_bind].
  { cbn [Z.eqb negb]. eexists 0, _. split; [done |]. split; [eapply cost_weaken; [exact Hc1 | lia] |]. left.
    split; [done |]. by split_and!. }
  destruct (Z.eqb_spec r 0); [destruct Hr; lia |]. cbn [negb frames kernel_pml4] in *.
  rewrite (table_at_frame r Hr), (table_at_frame (kernel_pml4 m) HK).
  assert (r <> kernel_pml4 m) by (intros ->; lia).
  rewrite (copy_table_spec r (kernel_pml4 m) _ wk zero_frame); cbn [mem];
    [| done | by rewrite lookup_insert_ne | by rewrite lookup_insert_eq | done | apply zero_frame_length].
  cbn [mbind option_bind]. unfold set_mem. cbn [mem frames kernel_pml4]. rewrite insert_insert_eq.
  assert (exists k0, rd wk 0 = Some k0 /\ table_at k0 = klow) as (k0 & Hk0 & Ek0).
  { cbn [walk mbind option_bind] in Hklow. unfold rd_word in Hklow. rewrite Hwk in Hklow. cbn [mbind option_bind] in Hklow.
    change (ix 0 0) with 0 in Hklow. destruct (rd wk 0) as [k0 |] eqn:E; [| done]. cbn [mbind option_bind] in Hklow.
    destruct (follow k0); [| done]. injection Hklow as <-. by exists k0. }
  unfold rd_word at 1. rewrite lookup_insert_ne, Hwk by done. cbn [mbind option_bind]. rewrite Hk0. cbn [mbind option_bind].
  by apply (setup_low_spec m r wk klow wl k0).
Qed.

(** ** Walks in a new page map *)

Section walks.
Context (m : phys A) (root low : Z) (m' : phys A).
Hypotheses (Hkr : kernel_ready m) (Hnm : new_map m root low m').
Let K := kernel_pml4 m.

Lemma old_table n va q : (n <= 3)%nat -> walk (mem m) K n va = Some q ->
  mem m' !! q = mem m !! q /\ held (frames m') q = held (frames m) q /\ q <> root /\ q <> low.
Proof using All.
  intros Hn Hq. destruct (wf_table _ _ (kr_wf _ Hkr) n va q Hn Hq) as ([_ Hm] & Hh & _).
  assert (q <> root) as H1 by (intros ->; pose proof (nm_root _ _ _ _ Hnm); lia).
  assert (q <> low) as H2 by (intros ->; pose proof (nm_low _ _ _ _ Hnm); lia).
  split_and!; [by apply (nm_other _ _ _ _ Hnm) | | done | done]. rewrite (nm_held _ _ _ _ Hnm) by done.
  destruct (Z.eqb_spec q root), (Z.eqb_spec q low); done.
Qed.

Lemma new_kernel : pt_wf m' K /\ forall n va, (n <= 3)%nat -> walk (mem m') K n va = walk (mem m) K n va.
Proof using All.
  apply (pt_wf_same m m' K (kr_wf _ Hkr) (nm_frames _ _ _ _ Hnm)). intros n va q Hn Hq.
  by destruct (old_table n va q Hn Hq) as (? & ? & _).
Qed.

Lemma new_rd_root i : 0 <= i < 512 ->
  (i <> 0 -> rd_word (mem m') root i = rd_word (mem m) K i) /\
  (i = 0 -> exists e, rd_word (mem m') root i = Some e /\ follow e = true /\ table_at e = low).
Proof using Hnm.
  intros Hi. destruct (nm_top _ _ _ _ Hnm) as (wk & Hwk & Hl & e & He & Hf & Ht).
  assert (rd_word (mem m') root i = rd (<[0%nat := e]> wk) i) as -> by (unfold rd_word; by rewrite He).
  assert (wr wk 0 e = Some (<[0%nat := e]> wk)) as Hwr by (rewrite wr_is_Some by lia; done).
  rewrite (rd_wr _ _ _ _ _ Hwr). split.
  - intros H0. destruct (Z.eqb_spec i 0); [done |]. unfold rd_word, K. by rewrite Hwk.
  - intros ->. exists e. by rewrite Z.eqb_refl.
Qed.

Lemma new_walk n va : (n <= 3)%nat -> walk (mem m') root n va =
  match n with
  | O => Some root
  | S O => if ix 0 va =? 0 then Some low else walk (mem m) K 1 va
  | _ => walk (mem m) K n va
  end.
Proof using All.
  destruct (nm_bottom _ _ _ _ Hnm) as (klow & wl & Hkl & Hwl & _ & Hlow). fold K in Hkl.
  assert (walk (mem m') root 1 va = if ix 0 va =? 0 then Some low else walk (mem m) K 1 va) as H1.
  { cbn [walk mbind option_bind]. destruct (new_rd_root (ix 0 va) (table_index_range _ _)) as [Hne He].
    destruct (Z.eqb_spec (ix 0 va) 0) as [E | E]; [| by rewrite Hne].
    destruct (He E) as (e & -> & Hf & Ht). cbn [mbind option_bind]. by rewrite Hf, Ht. }
  assert (walk (mem m') root 2 va = walk (mem m) K 2 va) as H2.
  { change (walk (mem m') root 2 va) with (t ← walk (mem m') root 1 va; e ← rd_word (mem m') t (ix 1 va); if follow e then Some (table_at e) else None).
    change (walk (mem m) K 2 va) with (t ← walk (mem m) K 1 va; e ← rd_word (mem m) t (ix 1 va); if follow e then Some (table_at e) else None).
    rewrite H1. destruct (Z.eqb_spec (ix 0 va) 0) as [E | E].
    - rewrite (walk_prefix (mem m) K 1 0 va), Hkl by (cbn [same_prefix]; by rewrite E).
      cbn [mbind option_bind]. unfold rd_word. by rewrite Hlow, Hwl.
    - destruct (walk (mem m) K 1 va) as [t |] eqn:Et; [| done]. cbn [mbind option_bind]. unfold rd_word.
      by rewrite (proj1 (old_table 1 va t ltac:(lia) Et)). }
  intros Hn. destruct n as [| [| [| [| ?]]]]; [done | done | done | | lia].
  cbn [walk] in H2 |- *. rewrite H2. fold (walk (mem m) K 2 va).
  change (t ← walk (mem m) K 1 va; e ← rd_word (mem m) t (ix 1 va); if follow e then Some (table_at e) else None)
    with (walk (mem m) K 2 va).
  destruct (walk (mem m) K 2 va) as [t |] eqn:Et; [| done]. cbn [mbind option_bind]. unfold rd_word.
  by rewrite (proj1 (old_table 2 va t ltac:(lia) Et)).
Qed.

Lemma new_cases n va q : (n <= 3)%nat -> walk (mem m') root n va = Some q ->
  (n = O /\ q = root) \/ (n = 1%nat /\ ix 0 va = 0 /\ q = low) \/
  (walk (mem m) K n va = Some q /\ q <> root /\ q <> low /\ n <> O /\ (n = 1%nat -> ix 0 va <> 0)).
Proof using All.
  intros Hn. rewrite new_walk by done. destruct n as [| [| n]].
  - intros [= <-]. by left.
  - destruct (Z.eqb_spec (ix 0 va) 0) as [E | E]; [intros [= <-]; auto |]. intros Hq. right. right.
    destruct (old_table 1 va q ltac:(lia) Hq) as (_ & _ & ? & ?). by split_and!.
  - intros Hq. right. right. destruct (old_table (S (S n)) va q Hn Hq) as (_ & _ & ? & ?). by split_and!.
Qed.

Lemma new_wf : pt_wf m' root.
Proof using All.
  pose proof (kr_wf _ Hkr) as W. pose proof (nm_root _ _ _ _ Hnm) as [Hr _]. pose proof (nm_low _ _ _ _ Hnm) as [Hl _].
  pose proof (nm_ne _ _ _ _ Hnm) as Hne. constructor.
  - apply (nm_frames _ _ _ _ Hnm).
  - intros n va q Hn [(-> & ->) | [(-> & _ & ->) | (Hq & H1 & H2 & _)]]%new_cases; [| | | done].
    + rewrite (nm_held _ _ _ _ Hnm), Z.eqb_refl by apply Hr. split; [done |]. split; [cbn; lia |].
      destruct (nm_top _ _ _ _ Hnm) as (wk & _ & Hlk & e & He & _). exists (<[0%nat := e]> wk). split; [done |].
      by rewrite length_insert.
    + rewrite (nm_held _ _ _ _ Hnm), Z.eqb_refl, orb_true_r by apply Hl. split; [done |]. split; [lia |].
      destruct (nm_bottom _ _ _ _ Hnm) as (klow & wl & _ & _ & Hll & Hw). by exists wl.
    + destruct (wf_table _ _ W n va q Hn Hq) as (? & ? & ?). destruct (old_table n va q Hn Hq) as (Hm & -> & _).
      unfold is_table. by rewrite Hm.
  - intros n1 n2 va1 va2 q Hn1 Hn2 Hq1 Hq2.
    destruct (new_cases n1 va1 q Hn1 Hq1) as [(-> & E1) | [(-> & Z1 & E1) | (Hk1 & Ha1 & Hb1 & _)]],
      (new_cases n2 va2 q Hn2 Hq2) as [(-> & E2) | [(-> & Z2 & E2) | (Hk2 & Ha2 & Hb2 & _)]]; try congruence.
    + done.
    + split; [done |]. cbn [same_prefix]. by rewrite Z1, Z2.
    + by apply (wf_inj _ _ W n1 n2 va1 va2 q).
  - intros n va q e Hn Hq He Hp. destruct n as [| [| n]]; [| | lia].
    + injection Hq as <-. destruct (new_rd_root (ix 0 va) (table_index_range _ _)) as [Hk H0].
      destruct (Z.eq_dec (ix 0 va) 0) as [E | E].
      * destruct (H0 E) as (e' & He' & Hf & _). rewrite He in He'. injection He' as <-. rewrite follow_eq in Hf.
        by apply andb_prop in Hf as [_ ?%negb_true_iff].
      * rewrite Hk in He by done. by apply (wf_upper _ _ W 0 va K e).
    + rewrite new_walk in Hq by lia. destruct (Z.eqb_spec (ix 0 va) 0) as [E | E].
      * injection Hq as <-. destruct (nm_bottom _ _ _ _ Hnm) as (klow & wl & Hkl & Hwl & _ & Hw).
        apply (wf_upper _ _ W 1 va klow e); [lia | | | done].
        -- rewrite <- Hkl. apply walk_prefix. cbn [same_prefix]. by rewrite E.
        -- unfold rd_word in *. by rewrite Hw in He; rewrite Hwl.
      * apply (wf_upper _ _ W 1 va q e); [lia | done | | done]. unfold rd_word in *.
        by rewrite (proj1 (old_table 1 va q ltac:(lia) Hq)) in He.
Qed.

Lemma new_user n va q : (n <= 3)%nat -> user_va va -> walk (mem m') root n va = Some q ->
  (n = O /\ q = root) \/ (n = 1%nat /\ ix 0 va = 0 /\ q = low).
Proof using All.
  intros Hn Hva [? | [? | (Hq & _ & _ & H0 & H1)]]%new_cases; [by left | by right | exfalso | done].
  destruct (kr_user _ Hkr va Hva) as [U2 U1]. fold K in U1, U2. destruct n as [| [| n]].
  - done.
  - by rewrite U1 in Hq by auto.
  - by rewrite (walk_None _ _ (S (S n)) 2 va ltac:(lia) U2) in Hq.
Qed.

Lemma new_xlate va : user_va va -> xlate (mem m') root va = 0.
Proof using All.
  intros Hva. unfold xlate. destruct (walk (mem m') root 3 va) eqn:E3; [by apply new_user in E3 as [[? _] | [? _]]; [| | lia |] |].
  destruct (walk (mem m') root 2 va) eqn:E2; [by apply new_user in E2 as [[? _] | [? _]]; [| | lia |] | done].
Qed.
End walks.

(** ** The new space *)

Definition new_space (root : Z) : vm_space := VmSpace root 1 (rb_init (RbTree 0 ∅)) ∅ 0 0 USER_MMAP_BASE [].

(** [o] counts every owner of a frame. *)
Definition all_owners o m : Prop := forall f, f <> 0 -> f mod PAGE_SIZE = 0 -> o f = held (frames m) f.

Section new_space.
Context (m : phys A) (root low : Z) (m' : phys A) (o : Z -> Z) (ms : oracle) (ev : list file_event).
Hypotheses (Hkr : kernel_ready m) (Hnm : new_map m root low m') (Ho : all_owners o m).
Let s : state A := State (new_space root) (Kernel m' ms ev).

Lemma created_pte va : user_va va -> pte s va = 0.
Proof using Hkr Hnm. apply (new_xlate m root low m' Hkr Hnm). Qed.

Lemma created_count f : f <> 0 -> count s f = 0.
Proof using Hkr Hnm.
  intros Hf. pose proof (count_nonneg s f). destruct (Z.eq_dec (count s f) 0) as [| Hne]; [done |].
  assert (0 < count s f) as (va & [Hva _] & E)%count_pos by lia. by rewrite created_pte in E.
Qed.

Lemma new_kernel_map : kernel_map o s.
Proof using All.
  destruct (new_kernel m root low m' Hkr Hnm) as [W Hw]. pose proof (nm_kernel _ _ _ _ Hnm) as EK.
  assert (kroot s = kernel_pml4 m) as Er by exact EK. constructor; rewrite ?Er.
  - done.
  - intros n va q Hn Hq. change (mm s) with (mem m') in Hq. rewrite Hw in Hq by done.
    destruct (wf_table _ _ (kr_wf _ Hkr) n va q Hn Hq) as ([? ?] & ? & _). rewrite Ho; [done | lia | done].
  - intros va Hva. change (mm s) with (mem m'). rewrite !Hw by lia. by apply (kr_user _ Hkr).
  - intros va Hva. change (mm s) with (mem m'). change (VmPages.root s) with root.
    rewrite (proj1 (new_rd_root m root low m' Hnm (ix 0 va) (table_index_range _ _))) by lia.
    unfold rd_word. by rewrite (proj1 (old_table m root low m' Hkr Hnm 0 va _ ltac:(lia) eq_refl)).
  - destruct (nm_bottom _ _ _ _ Hnm) as (klow & wl & Hkl & Hwl & _ & Hl). exists low, klow.
    change (mm s) with (mem m'). change (VmPages.root s) with root.
    split; [by rewrite (new_walk m root low m' Hkr Hnm 1) by lia |]. split; [by rewrite Hw by lia |].
    unfold rd_word. by rewrite Hl, (proj1 (old_table m root low m' Hkr Hnm 1 0 klow ltac:(lia) Hkl)), Hwl.
Qed.

Lemma new_pages_ok : pages_ok o {[ root; low ]} s.
Proof using All.
  pose proof (nm_root _ _ _ _ Hnm) as [Hr Hr0]. pose proof (nm_low _ _ _ _ Hnm) as [Hl Hl0]. constructor.
  - apply (new_wf m root low m' Hkr Hnm).
  - intros va Hva _. by apply created_pte.
  - intros q. rewrite elem_of_union, !elem_of_singleton. split.
    + intros [-> | ->]; [exists O | exists 1%nat]; exists USER_ADDR_MIN; (split; [lia |]; split; [by unfold user_va |]); [done |].
      change (mm s) with (mem m'). change (VmPages.root s) with root. by rewrite (new_walk m root low m' Hkr Hnm 1) by lia.
    + intros (n & va & Hn & Hva & Hw). apply (new_user m root low m' Hkr Hnm n va q Hn Hva) in Hw. tauto.
  - intros n va q Hn Hw. rewrite elem_of_union, !elem_of_singleton.
    destruct (new_cases m root low m' Hkr Hnm n va q Hn Hw) as [[_ ->] | [(_ & _ & ->) | (Hq & _)]]; [tauto.. | right].
    destruct (wf_table _ _ (kr_wf _ Hkr) n va q Hn Hq) as ([? ?] & ? & _). rewrite Ho; [done | lia | done].
  - intros f Hf Hm. change (hold s f) with (held (frames m') f). rewrite (nm_held _ _ _ _ Hnm), (created_count f Hf), Ho by done.
    change (pend (pending (vm s)) f) with 0. destruct (Z.eqb_spec f root) as [E1 | E1]; cbn [orb].
    { rewrite decide_True by set_solver. rewrite E1, Hr0. lia. }
    destruct (Z.eqb_spec f low) as [E2 | E2].
    { rewrite decide_True by set_solver. rewrite E2, Hl0. lia. }
    rewrite decide_False by set_solver. lia.
  - intros q. rewrite elem_of_union, !elem_of_singleton. intros [-> | ->]; (rewrite Ho; [done | destruct Hr, Hl; lia | apply Hr || apply Hl]).
  - intros va [Hva _]. by rewrite created_pte.
  - intros f Hf. rewrite created_count by done. change (pend (pending (vm s)) f) with 0. lia.
  - intros w Hw. by apply elem_of_nil in Hw.
  - intros va [Hva _] _. by apply created_pte.
  - apply new_kernel_map.
Qed.

Lemma new_space_inv : space_inv o {[ root; low ]} s [].
Proof using All.
  constructor; [apply new_pages_ok | | intros va [Hva _]; by rewrite created_pte | done].
  constructor; [apply seq_init | intros p r Hp; by apply elem_of_nil in Hp | done | by constructor; constructor].
Qed.

Lemma new_vm_inv : (forall f, held (frames m) f <= 0xFFFF) -> vm_inv o s.
Proof using All.
  intros H. exists {[ root; low ]}, []. split; [apply new_space_inv |]. split; [| split; [| done]].
  - intros f Hf Hm. rewrite created_count by done. change (hold s f) with (held (frames m') f).
    rewrite (nm_held _ _ _ _ Hnm) by done. specialize (H f). destruct (_ || _); lia.
  - constructor; intros va [Hva _]; by rewrite created_pte.
Qed.
End new_space.

Lemma vm_create_spec (k : kernel A) : kernel_ready (machine k) -> exists r k', vm_create k = Some (r, k') /\
  events k' = events k /\ mallocs k' = (ask (mallocs k)).2 /\
  match r with
  | None => same_owned (machine k) (machine k') /\ (grants (mallocs k) < 1 \/ spare (frames (machine k)) < 2)
  | Some v => exists root low, v = new_space root /\ new_map (machine k) root low (machine k')
  end.
Proof.
  intros Hkr. unfold vm_create. destruct (ask (mallocs k)) as [ok ms] eqn:Ea. destruct ok; cbn [negb].
  2:{ eexists None, _. split; [done |]. split; [done |]. split; [done |]. split; [by split_and!; [apply (kr_wf _ Hkr) | ..] |]. left.
      unfold ask in Ea. destruct (mallocs k) as [| [] ?]; [cbn; lia | done | cbn; lia]. }
  cbn [machine mallocs events]. destruct (setup_kvm_spec (machine k) Hkr) as (root & m' & -> & Hc & Hres). cbn [mbind option_bind].
  destruct Hres as [[-> Hs] | [low Hnm]].
  - cbn [Z.eqb]. eexists None, _. do 4 (split; [done |]). right. by apply Hc.
  - pose proof (nm_root _ _ _ _ Hnm) as [[Hr _] _]. destruct (Z.eqb_spec root 0); [lia |].
    eexists (Some _), _. do 3 (split; [done |]). by exists root, low.
Qed.
End create.
