(* ===== verification/VmFree.v ===== *)
(** * Giving back a page map: [free_vm]

    The loops of [free_vm] free the frames of a list that is read off the page
    map; every page with a frame is on it once, and so is every table of user
    addresses. *)

From Stdlib Require Import ZArith Lia Bool.
From stdpp Require Import base list option gmap.
From S2P Require Import Prelude Mmu Frames PageTable PageTableFacts StateMonad Rbtree RbtreeFacts RbtreeRemove VmArea VmAreaFacts Vm VmPages.
Open Scope Z_scope.

(** ** Blocks of addresses *)

(** What one entry of a table of level [n] covers. *)
Definition span (n : nat) : Z := 2 ^ (39 - 9 * Z.of_nat n).

Lemma span_pos n : (n <= 3)%nat -> 0 < span n.
Proof. intros Hn. unfold span. apply Z.pow_pos_nonneg; lia. Qed.

Lemma span_S n : (n < 3)%nat -> span n = 512 * span (S n).
Proof.
  intros Hn. unfold span. replace (39 - 9 * Z.of_nat n) with (9 + (39 - 9 * Z.of_nat (S n))) by lia.
  rewrite Z.pow_add_r by lia. done.
Qed.

(** The addresses of a table of level [n]. *)
Record block (n : nat) (base : Z) : Prop := {
  bl_level : (n <= 3)%nat;
  bl_low : 0 <= base;
  bl_mod : base mod (512 * span n) = 0;
}.

Lemma block_ix n base va : block n base -> base <= va < base + 512 * span n -> ix n va = (va - base) / span n.
Proof.
  intros [Hn H0 Hm] Hva. pose proof (span_pos n Hn). unfold ix. rewrite table_index_eq by lia. fold (span n).
  apply Z.mod_divide in Hm as [b ->]; [| lia].
  replace va with ((va - b * (512 * span n)) + (b * 512) * span n) at 1 by lia. rewrite Z.div_add by lia.
  rewrite Z.mod_add by lia. apply Z.mod_small. split; [apply Z.div_pos; lia | apply Z.div_lt_upper_bound; lia].
Qed.

Lemma block_prefix n base va : block n base -> base <= va < base + 512 * span n -> same_prefix n base va = true.
Proof.
  intros [Hn H0 Hm] Hva. assert (forall k, (k <= n)%nat -> same_prefix k base va = true) as H; [| by apply H].
  pose proof (span_pos n Hn). set (D := 512 * span n) in *.
  assert (va / D = base / D) as Hd.
  { apply Z.mod_divide in Hm as [b ->]; [| lia]. rewrite Z.div_mul by lia. symmetry. apply (Z.div_unique_pos _ _ _ (va - b * D)); lia. }
  induction k as [| k IH]; intros Hk; [done |]. cbn [same_prefix]. rewrite IH by lia. cbn [andb]. apply Z.eqb_eq.
  unfold ix. rewrite !table_index_eq by lia. fold (span k). f_equal.
  assert (span k = D * 2 ^ (9 * (Z.of_nat n - 1 - Z.of_nat k))) as ->.
  { unfold D, span. change 512 with (2 ^ 9). rewrite <- !Z.pow_add_r by lia. f_equal. lia. }
  rewrite <- !Z.div_div by lia. by rewrite Hd.
Qed.

(** The block of an entry. *)
Lemma block_entry n base i : block n base -> 0 <= i < 512 -> (n < 3)%nat -> block (S n) (base + i * span n).
Proof.
  intros [Hn H0 Hm] Hi Hn3. pose proof (span_pos n Hn). constructor; [lia | lia |]. rewrite <- span_S by done.
  apply Z.mod_divide in Hm as [b ->]; [| lia]. replace (b * (512 * span n) + i * span n) with ((b * 512 + i) * span n) by lia.
  apply Z.mod_mul. lia.
Qed.

Lemma entry_ix n base i va : block n base -> 0 <= i < 512 -> base + i * span n <= va < base + (i + 1) * span n ->
  ix n va = i.
Proof.
  intros Hb Hi Hva. pose proof (span_pos n (bl_level _ _ Hb)). rewrite (block_ix n base va Hb) by nia.
  symmetry. apply (Z.div_unique_pos _ _ _ (va - base - i * span n)); nia.
Qed.

Lemma entry_prefix n base i va : block n base -> 0 <= i < 512 -> base + i * span n <= va < base + (i + 1) * span n ->
  same_prefix (S n) (base + i * span n) va = true.
Proof.
  intros Hb Hi Hva. pose proof (span_pos n (bl_level _ _ Hb)). cbn [same_prefix].
  rewrite (entry_ix n base i va), (entry_ix n base i (base + i * span n)), Z.eqb_refl, andb_true_r by (done || nia).
  assert (same_prefix n base va = true) as H1 by (apply block_prefix; [done | nia]).
  assert (same_prefix n base (base + i * span n) = true) as H2 by (apply block_prefix; [done | nia]).
  generalize dependent (base + i * span n). intros x _ H2. clear -H1 H2. induction n as [| n IH]; [done |]. cbn [same_prefix] in *.
  apply andb_prop in H1 as [? ->%Z.eqb_eq], H2 as [? ->%Z.eqb_eq]. by rewrite IH, Z.eqb_refl.
Qed.

Lemma span_aligned n base i : block n base -> aligned (base + i * span n).
Proof.
  intros [Hn _ Hm]. unfold aligned, PAGE_SIZE. apply Z.mod_divide; [lia |].
  assert (span n = 4096 * 2 ^ (27 - 9 * Z.of_nat n)) as E.
  { unfold span. change 4096 with (2 ^ 12). rewrite <- Z.pow_add_r by lia. f_equal. lia. }
  pose proof (span_pos n Hn). apply Z.mod_divide in Hm as [b ->]; [| lia]. rewrite E.
  exists (b * 512 * 2 ^ (27 - 9 * Z.of_nat n) + i * 2 ^ (27 - 9 * Z.of_nat n)). ring.
Qed.

Lemma block_top : block 0 0 /\ block 1 0.
Proof. split; constructor; done || lia. Qed.

(** ** Lists of frames *)

(** The items of [n] entries from [i]. *)
Fixpoint entries {B} (g : Z -> list B) (n : nat) (i : Z) : list B :=
  match n with O => [] | S n' => g i ++ entries g n' (i + 1) end.

(** Frames, with the mark of tables. *)
Definition frames_in (f : Z) (l : list (Z * bool)) : Z := Z.of_nat (length (filter (fun x => x = (f, false)) l)).
Definition tables_in (l : list (Z * bool)) : list Z := omap (fun x => if x.2 : bool then Some x.1 else None) l.
Definition times (f : Z) (l : list Z) : Z := Z.of_nat (length (filter (fun x => x = f) l)).

Lemma frames_in_app f l1 l2 : frames_in f (l1 ++ l2) = frames_in f l1 + frames_in f l2.
Proof. unfold frames_in. rewrite filter_app, length_app. lia. Qed.
Lemma tables_in_app l1 l2 : tables_in (l1 ++ l2) = tables_in l1 ++ tables_in l2.
Proof. apply omap_app. Qed.

Lemma frames_in_cons f q b l : frames_in f ((q, b) :: l) = (if (q =? f) && negb b then 1 else 0) + frames_in f l.
Proof.
  unfold frames_in. rewrite filter_cons. case_decide as H.
  - injection H as -> ->. rewrite Z.eqb_refl. cbn [length andb negb]. lia.
  - destruct (Z.eqb_spec q f) as [-> | _], b; cbn [andb negb]; [lia | done | lia | lia].
Qed.
Lemma times_cons f q l : times f (q :: l) = (if q =? f then 1 else 0) + times f l.
Proof. unfold times. rewrite filter_cons. case_decide; zcases; cbn [length]; lia. Qed.
Lemma times_nonneg f l : 0 <= times f l.
Proof. unfold times. lia. Qed.
Lemma times_app f l1 l2 : times f (l1 ++ l2) = times f l1 + times f l2.
Proof. unfold times. rewrite filter_app, length_app. lia. Qed.

(** The times a frame is on a list. *)
Lemma times_items f (l : list (Z * bool)) : NoDup (tables_in l) ->
  times f (map fst l) = frames_in f l + if decide (f ∈ tables_in l) then 1 else 0.
Proof.
  induction l as [| [q b] l IH]; [done |]. cbn [map fst]. rewrite times_cons, frames_in_cons.
  destruct b; cbn [negb andb]; rewrite ?andb_true_r, ?andb_false_r.
  - change (tables_in ((q, true) :: l)) with (q :: tables_in l). intros [Hnin Hnd]%NoDup_cons. rewrite IH by done.
    destruct (Z.eqb_spec q f) as [-> | Hne].
    + rewrite decide_False, decide_True by (done || by left). lia.
    + destruct (decide (f ∈ tables_in l)) as [Hin | Hin].
      * rewrite decide_True by (by right). lia.
      * rewrite decide_False; [lia |]. intros [-> | ?]%elem_of_cons; done.
  - change (tables_in ((q, false) :: l)) with (tables_in l). intros Hnd. rewrite IH by done. lia.
Qed.

Lemma entries_elem {B} (g : Z -> list B) n i x :
  x ∈ entries g n i <-> exists j, i <= j < i + Z.of_nat n /\ x ∈ g j.
Proof.
  revert i. induction n as [| n IH]; intros i; cbn [entries].
  - split; [intros H; by apply elem_of_nil in H | intros (j & ? & _); lia].
  - rewrite elem_of_app, IH. split.
    + intros [H | (j & ? & H)]; [exists i | exists j]; (split; [lia | done]).
    + intros (j & Hj & H). destruct (Z.eq_dec j i) as [-> | ?]; [by left | right]. exists j. split; [lia | done].
Qed.

Lemma tables_in_entries g n i : tables_in (entries g n i) = entries (fun j => tables_in (g j)) n i.
Proof. revert i. induction n as [| n IH]; intros i; [done |]. cbn [entries]. by rewrite tables_in_app, IH. Qed.

Lemma entries_NoDup {B} (g : Z -> list B) n i :
  (forall j, i <= j < i + Z.of_nat n -> NoDup (g j)) ->
  (forall j k x, i <= j < i + Z.of_nat n -> i <= k < i + Z.of_nat n -> x ∈ g j -> x ∈ g k -> j = k) ->
  NoDup (entries g n i).
Proof.
  revert i. induction n as [| n IH]; intros i Hnd Hdis; cbn [entries]; [apply NoDup_nil_2 |].
  apply NoDup_app. split; [apply Hnd; lia |]. split.
  - intros x Hx (j & Hj & Hxj)%entries_elem. assert (i = j) by (apply (Hdis i j x); (lia || done)). lia.
  - apply IH; [intros j Hj; apply Hnd; lia | intros j k x Hj Hk; apply Hdis; lia].
Qed.

(** ** Freeing the frames of a list *)

Section frees.
Context {A : Type} `{!Frames A, !FramesOk A}.
Implicit Types (m : phys A).

Fixpoint frees (l : list Z) m : option (phys A) :=
  match l with [] => Some m | q :: l' => m ← free_frame q m; frees l' m end.

Lemma frees_app l1 l2 m : frees (l1 ++ l2) m = (m ← frees l1 m; frees l2 m).
Proof. revert m. induction l1 as [| q l1 IH]; intros m; [done |]. cbn [frees app]. destruct (free_frame q m); [apply IH | done]. Qed.

Lemma frees_mem l m m' : frees l m = Some m' -> mem m' = mem m /\ kernel_pml4 m' = kernel_pml4 m.
Proof.
  revert m. induction l as [| q l IH]; intros m H; cbn [frees] in H; [by injection H as <- |].
  apply bind_Some in H as (m1 & H1 & H). apply IH in H as [-> ->]. unfold free_frame in H1.
  by apply bind_Some in H1 as (a & _ & [= <-]).
Qed.

Lemma frees_ok l m : frames_inv (frames m) -> Forall frame_ok l ->
  (forall q, q mod PAGE_SIZE = 0 -> times q l <= held (frames m) q) ->
  exists a, frees l m = Some (set_frames a m) /\ frames_inv a /\
    forall q, q mod PAGE_SIZE = 0 -> held a q = held (frames m) q - times q l.
Proof.
  revert m. induction l as [| p l IH]; intros m Hi Hl Ht; cbn [frees].
  { exists (frames m). split; [by destruct m |]. split; [done |]. intros q _. unfold times. cbn. lia. }
  apply Forall_cons in Hl as [Hp Hl].
  assert (0 < held (frames m) p) as Hh.
  { specialize (Ht p (proj2 Hp)). rewrite times_cons, Z.eqb_refl in Ht. pose proof (times_nonneg p l). lia. }
  destruct (frame_free_ok (frames m) p Hi Hp Hh) as (a & Ha & Hi' & Hh').
  unfold free_frame at 1. rewrite Ha. cbn [mbind option_bind].
  destruct (IH (set_frames a m)) as (a' & -> & Hi2 & Hh2); cbn [frames set_frames]; [done | done | |].
  - intros q Hq. rewrite Hh' by done. specialize (Ht q Hq). rewrite times_cons, Z.eqb_sym in Ht. destruct (q =? p); lia.
  - exists a'. split; [done |]. split; [done |]. intros q Hq. rewrite Hh2 by done. cbn [frames set_frames].
    rewrite Hh', times_cons by done. rewrite (Z.eqb_sym p q). destruct (q =? p); lia.
Qed.
End frees.

(** ** What the loops free *)

Section free.
Context {A : Type} `{!Frames A, !FramesOk A}.
Context (o : Z -> Z) (T : gset Z) (s : state A).
Hypothesis Hok : pages_ok o T s.
Let M := mm s.
Let R := root s.
Let K := kroot s.

Definition user_pte (va : Z) : Z := if (USER_ADDR_MIN <=? va) && (va <? USER_ADDR_LIMIT) then pte s va else 0.

(** A list has the frames of the pages from [lo] to [hi], and the tables below
    level [n] of the user addresses there. *)
Record yields (n : nat) (lo hi : Z) (l : list (Z * bool)) : Prop := {
  cv_frames : forall f, f <> 0 -> frames_in f l = uses user_pte f lo hi;
  cv_tables : forall q, q ∈ tables_in l <-> exists k va, (n < k <= 3)%nat /\ lo <= va < hi /\ user_va va /\ walk M R k va = Some q;
  cv_once : NoDup (tables_in l);
  cv_nonzero : forall q b, (q, b) ∈ l -> q <> 0;
}.

(** Below a missing table there is nothing. *)
Lemma yields_nothing n lo hi : (n < 3)%nat -> aligned lo -> aligned hi ->
  (forall va, lo <= va < hi -> user_va va -> walk M R (S n) va = None) -> yields n lo hi [].
Proof using Hok.
  intros Hn Hl Hh Hw. constructor.
  - intros f Hf. change (frames_in f []) with 0. pose proof (uses_nonneg lo hi user_pte f).
    destruct (Z.eq_dec (uses user_pte f lo hi) 0) as [| Hne]; [done |].
    destruct (proj1 (uses_pos lo hi Hl Hh user_pte f) ltac:(lia)) as (va & _ & Hva & E).
    unfold user_pte in E. destruct ((USER_ADDR_MIN <=? va) && (va <? USER_ADDR_LIMIT)) eqn:Eu; [| by destruct Hf].
    apply andb_prop in Eu as [?%Z.leb_le ?%Z.ltb_lt]. assert (user_va va) as Hu by done.
    rewrite (po_small _ _ _ Hok va Hu) in E; [by destruct Hf |]. apply (walk_None _ _ 3 (S n)); [lia | by apply Hw].
  - intros q. split; [intros H; by apply elem_of_nil in H |]. intros (k & va & Hk & Hva & Hu & Hq).
    by rewrite (walk_None _ _ k (S n) va ltac:(lia) (Hw va Hva Hu)) in Hq.
  - apply NoDup_nil_2.
  - intros q b H. by apply elem_of_nil in H.
Qed.

(** A table after what is below it. *)
Lemma yields_node n lo hi l t : (n < 3)%nat -> (forall va, lo <= va < hi -> walk M R (S n) va = Some t) ->
  (exists va, lo <= va < hi /\ user_va va) -> yields (S n) lo hi l -> yields n lo hi (l ++ [(t, true)]).
Proof using Hok.
  intros Hn Hw (va0 & Hva0 & Hu0) [Hf Ht Hnd Hnz]. pose proof (po_wf _ _ _ Hok) as W.
  assert (t <> 0) as Ht0 by (destruct (wf_table _ _ W (S n) va0 t ltac:(lia) (Hw va0 Hva0)) as ([? _] & _); lia).
  constructor.
  - intros f Hf0. rewrite frames_in_app, frames_in_cons, andb_false_r, Hf by done. change (frames_in f []) with 0. lia.
  - intros q. rewrite tables_in_app, elem_of_app, Ht. change (tables_in [(t, true)]) with [t]. rewrite list_elem_of_singleton. split.
    + intros [(k & va & Hk & Hva & Hu & Hq) | ->]; [exists k, va; split; [lia | done] |].
      exists (S n), va0. split; [lia |]. auto.
    + intros (k & va & Hk & Hva & Hu & Hq). destruct (Nat.eq_dec k (S n)) as [-> | Hne].
      * right. rewrite (Hw va Hva) in Hq. congruence.
      * left. exists k, va. split; [lia | done].
  - rewrite tables_in_app. apply NoDup_app. split; [done |]. split; [| apply NoDup_singleton].
    intros q (k & va & Hk & Hva & Hu & Hq)%Ht ->%list_elem_of_singleton.
    destruct (wf_inj _ _ W k (S n) va va0 t) as [? _]; [lia | lia | done | by apply Hw |]. lia.
  - intros q b [H | H]%elem_of_app; [by apply (Hnz q b) |]. apply list_elem_of_singleton in H. by injection H as -> ->.
Qed.

(** The entries of a table. *)
Lemma yields_entries n base g k i : block n base -> 0 <= i -> i + Z.of_nat k <= 512 ->
  (forall j, i <= j < i + Z.of_nat k -> yields n (base + j * span n) (base + (j + 1) * span n) (g j)) ->
  yields n (base + i * span n) (base + (i + Z.of_nat k) * span n) (entries g k i).
Proof using Hok.
  intros Hb Hi Hk Hg. pose proof (span_pos n (bl_level _ _ Hb)) as Hsp. constructor.
  - intros f Hf. clear Hb. revert i Hi Hk Hg. induction k as [| k IH]; intros i Hi Hk Hg; cbn [entries].
    + rewrite Z.add_0_r, uses_empty. done.
    + rewrite frames_in_app, (cv_frames _ _ _ _ (Hg i ltac:(lia)) f Hf), IH by (lia || (intros; apply Hg; lia)).
      rewrite (uses_split user_pte f (base + i * span n) (base + (i + 1) * span n) (base + (i + Z.of_nat (S k)) * span n)) by nia.
      by replace (i + 1 + Z.of_nat k) with (i + Z.of_nat (S k)) by lia.
  - intros q. rewrite tables_in_entries, entries_elem. split.
    + intros (j & Hj & Hq). apply (cv_tables _ _ _ _ (Hg j Hj)) in Hq as (l & va & Hl & Hva & H).
      exists l, va. split; [done |]. split; [nia | done].
    + intros (l & va & Hl & Hva & Hu & Hq). set (j := (va - base) / span n).
      assert (base + j * span n <= va < base + (j + 1) * span n) as Hj.
      { pose proof (Z.div_mod (va - base) (span n) ltac:(lia)). pose proof (Z.mod_pos_bound (va - base) (span n) Hsp). unfold j. nia. }
      assert (i <= j < i + Z.of_nat k) as Hj' by nia. exists j. split; [done |].
      apply (cv_tables _ _ _ _ (Hg j Hj')). by exists l, va.
  - rewrite tables_in_entries. apply entries_NoDup; [intros j Hj; apply (cv_once _ _ _ _ (Hg j Hj)) |].
    intros j1 j2 q H1 H2 Hq1 Hq2.
    apply (cv_tables _ _ _ _ (Hg j1 H1)) in Hq1 as (k1 & va1 & Hk1 & Hva1 & _ & Hw1).
    apply (cv_tables _ _ _ _ (Hg j2 H2)) in Hq2 as (k2 & va2 & Hk2 & Hva2 & _ & Hw2).
    destruct (wf_inj _ _ (po_wf _ _ _ Hok) k1 k2 va1 va2 q) as [-> Hsp2]; [lia | lia | done | done |].
    apply (same_prefix_le k2 (S n)) in Hsp2; [| lia]. cbn [same_prefix] in Hsp2. apply andb_prop in Hsp2 as [_ E%Z.eqb_eq].
    rewrite (entry_ix n base j1 va1), (entry_ix n base j2 va2) in E by (done || lia). done.
  - intros q b (j & Hj & Hq)%entries_elem. by apply (cv_nonzero _ _ _ _ (Hg j Hj) q b).
Qed.

(** ** The entries of each level *)

Definition pt_items (t l : Z) : list (Z * bool) :=
  match rd_word M t l with
  | Some e => if negb (Z.land e MMU_USER =? 0) && negb (Z.land e PTE_ADDR =? 0) then [(Z.land e PTE_ADDR, false)] else []
  | None => []
  end.

Definition pd_items (t k : Z) : list (Z * bool) :=
  match rd_word M t k with
  | Some e => if (Z.land e MMU_PRESENT =? 0) || negb (Z.land e MMU_PDE_TWO_MB =? 0) then []
              else entries (pt_items (table_at e)) 512 0 ++ [(table_at e, true)]
  | None => []
  end.

Definition same_entry (low : option Z) (e j : Z) : bool :=
  match low with Some kl => default false (Z.eqb e <$> rd_word M kl j) | None => false end.

Definition pdpt_items (low : option Z) (t j : Z) : list (Z * bool) :=
  match rd_word M t j with
  | Some e => if (Z.land e MMU_PRESENT =? 0) || same_entry low e j then []
              else entries (pd_items (table_at e)) 512 0 ++ [(table_at e, true)]
  | None => []
  end.

Definition pml4_items (low i : Z) : list (Z * bool) :=
  match rd_word M R i with
  | Some e => if (Z.land e MMU_PRESENT =? 0) || same_entry (Some K) e i then []
              else entries (pdpt_items (if i =? 0 then Some low else None) (table_at e)) 512 0 ++ [(table_at e, true)]
  | None => []
  end.

(** Where an entry leads. *)
Lemma entry_walk n base t i e va : block n base -> walk M R n base = Some t -> 0 <= i < 512 -> rd_word M t i = Some e ->
  base + i * span n <= va < base + (i + 1) * span n -> walk M R (S n) va = if follow e then Some (table_at e) else None.
Proof using Type.
  intros Hb Hw Hi He Hva. pose proof (span_pos n (bl_level _ _ Hb)). cbn [walk].
  rewrite (walk_prefix M R n base va), Hw by (apply block_prefix; [done | nia]). cbn [mbind option_bind].
  by rewrite (entry_ix n base i va), He by done.
Qed.

Lemma entry_read n base t i : block n base -> walk M R n base = Some t -> 0 <= i < 512 -> exists e, rd_word M t i = Some e.
Proof using Hok.
  intros Hb Hw Hi. destruct (wf_table _ _ (po_wf _ _ _ Hok) n base t (bl_level _ _ Hb) Hw) as (_ & _ & Ht).
  by apply (rd_word_Some M t i).
Qed.

(** All addresses of a range are user addresses. *)
Definition user_block (lo hi : Z) : Prop := USER_ADDR_MIN <= lo /\ hi <= USER_ADDR_LIMIT.

Lemma pt_yields base t l : block 3 base -> walk M R 3 base = Some t -> 0 <= l < 512 ->
  user_block (base + l * span 3) (base + (l + 1) * span 3) ->
  yields 3 (base + l * span 3) (base + (l + 1) * span 3) (pt_items t l).
Proof using Hok.
  intros Hb Hw Hl [Hu1 Hu2]. change (span 3) with PAGE_SIZE in *. set (va := base + l * PAGE_SIZE) in *.
  replace (base + (l + 1) * PAGE_SIZE) with (va + PAGE_SIZE) in * by (unfold va; lia).
  assert (aligned va) as Ha by (by apply (span_aligned 3 base l)).
  assert (user_page va) as Hva by (split; [unfold user_va, PAGE_SIZE in *; lia | done]).
  destruct (entry_read 3 base t l Hb Hw Hl) as [e He].
  assert (walk M R 3 va = Some t) as Hwv.
  { rewrite <- Hw. apply walk_prefix, block_prefix; [done |]. change (span 3) with 4096. unfold va, PAGE_SIZE. lia. }
  assert (ix 3 va = l) as Hix by (apply (entry_ix 3 base l); [done | done |]; change (span 3) with 4096; unfold va, PAGE_SIZE; lia).
  assert (pte s va = e) as Ep by (unfold pte, xlate; fold M R; by rewrite Hwv, Hix, He).
  assert (user_pte va = e) as Eu.
  { unfold user_pte. destruct Hva as [[? ?] _]. destruct (Z.leb_spec USER_ADDR_MIN va), (Z.ltb_spec va USER_ADDR_LIMIT); lia || done. }
  assert (pt_items t l = if has_frame e then [(frame_of e, false)] else []) as ->.
  { unfold pt_items. rewrite He. change (Z.land e PTE_ADDR) with (frame_of e). rewrite has_frame_of.
    destruct (Z.eqb_spec (frame_of e) 0) as [E0 | E0]; cbn [negb]; [by rewrite andb_false_r |].
    pose proof (po_user _ _ _ Hok va Hva) as Hus. rewrite Ep, has_frame_of in Hus.
    destruct (Z.eqb_spec (Z.land e MMU_USER) 0) as [E | E]; [| done]. destruct Hus; [by apply negb_true_iff, Z.eqb_neq | done]. }
  constructor.
  - intros f Hf. rewrite (uses_step user_pte f va (va + PAGE_SIZE)), uses_empty, Eu by (done || lia).
    rewrite has_frame_of. destruct (Z.eqb_spec (frame_of e) 0) as [E0 | E0]; cbn [negb].
    + rewrite E0. destruct (Z.eqb_spec 0 f); [congruence | done].
    + rewrite frames_in_cons. cbn [negb]. rewrite andb_true_r. done.
  - intros q. split; [| intros (k & va' & Hk & _); lia]. destruct (has_frame e); intros H; by apply elem_of_nil in H.
  - destruct (has_frame e); apply NoDup_nil_2.
  - intros q b. rewrite has_frame_of. destruct (Z.eqb_spec (frame_of e) 0) as [E0 | E0]; cbn [negb]; intros H;
      [by apply elem_of_nil in H |]. apply list_elem_of_singleton in H. by injection H as -> ->.
Qed.

(** An entry with a table below it, whose entries are done. *)
Lemma node_yields n base t i e g : block n base -> (n < 3)%nat -> walk M R n base = Some t -> 0 <= i < 512 ->
  rd_word M t i = Some e -> follow e = true ->
  (exists va, base + i * span n <= va < base + (i + 1) * span n /\ user_va va) ->
  (forall j, 0 <= j < 512 -> yields (S n) (base + i * span n + j * span (S n)) (base + i * span n + (j + 1) * span (S n)) (g j)) ->
  yields n (base + i * span n) (base + (i + 1) * span n) (entries g 512 0 ++ [(table_at e, true)]).
Proof using Hok.
  intros Hb Hn Hw Hi He Hf Hu Hg. apply yields_node; [done | | done |].
  - intros va Hva. by rewrite (entry_walk n base t i e va), Hf.
  - pose proof (block_entry n base i Hb Hi Hn) as Hb'. pose proof (yields_entries (S n) _ g 512 0 Hb' ltac:(lia) ltac:(lia)) as H.
    rewrite Z.mul_0_l, Z.add_0_r in H. replace (base + i * span n + (0 + Z.of_nat 512) * span (S n)) with (base + (i + 1) * span n) in H
      by (rewrite (span_S n Hn); lia). apply H. intros j Hj. apply Hg. lia.
Qed.

(** A table below an entry of a well formed page map. *)
Lemma present_follow n base t i e : block n base -> (n < 2)%nat -> walk M R n base = Some t -> 0 <= i < 512 ->
  rd_word M t i = Some e -> follow e = negb (Z.land e MMU_PRESENT =? 0).
Proof using Hok.
  intros Hb Hn Hw Hi He. pose proof (span_pos n (bl_level _ _ Hb)). set (va := base + i * span n).
  assert (ix n va = i) as Hix by (apply (entry_ix n base i); [done | done | unfold va; lia]).
  assert (walk M R n va = Some t) as Hwv by (rewrite <- Hw; apply walk_prefix, block_prefix; [done | unfold va; nia]).
  rewrite follow_eq. fold (present e). destruct (present e) eqn:Hp; [| done].
  rewrite (wf_upper _ _ (po_wf _ _ _ Hok) n va t e Hn Hwv); [done | by rewrite Hix | done].
Qed.

Lemma pd_yields base t k : block 2 base -> walk M R 2 base = Some t -> 0 <= k < 512 ->
  user_block (base + k * span 2) (base + (k + 1) * span 2) ->
  yields 2 (base + k * span 2) (base + (k + 1) * span 2) (pd_items t k).
Proof using Hok.
  intros Hb Hw Hk Hu. destruct (entry_read 2 base t k Hb Hw Hk) as [e He]. unfold pd_items. rewrite He.
  assert ((Z.land e MMU_PRESENT =? 0) || negb (Z.land e MMU_PDE_TWO_MB =? 0) = negb (follow e)) as ->.
  { rewrite follow_eq. unfold present, big. by destruct (Z.land e MMU_PRESENT =? 0), (Z.land e MMU_PDE_TWO_MB =? 0). }
  pose proof (block_entry 2 base k Hb Hk ltac:(lia)) as Hb'. change (span 2) with (2 ^ 21) in *.
  destruct (follow e) eqn:Hf; cbn [negb].
  - change (2 ^ 21) with (span 2). apply (node_yields 2 base t k e); try done; [lia | |]; change (span 2) with (2 ^ 21).
    + exists (base + k * 2 ^ 21). destruct Hu. unfold user_va. lia.
    + intros j Hj. apply pt_yields; [done | | done |].
      * rewrite (entry_walk 2 base t k e), Hf by (done || (change (span 2) with (2 ^ 21); lia)). done.
      * destruct Hu. unfold user_block. change (span 3) with (2 ^ 12). lia.
  - change (2 ^ 21) with (span 2). apply yields_nothing; [lia | by apply span_aligned.. |].
    intros va Hva _. by rewrite (entry_walk 2 base t k e), Hf.
Qed.

Lemma pdpt_yields low base t j : block 1 base -> walk M R 1 base = Some t -> 0 <= j < 512 ->
  user_block (base + j * span 1) (base + (j + 1) * span 1) ->
  (forall e, rd_word M t j = Some e -> follow e = true -> same_entry low e j = false) ->
  yields 1 (base + j * span 1) (base + (j + 1) * span 1) (pdpt_items low t j).
Proof using Hok.
  intros Hb Hw Hj Hu Hs. destruct (entry_read 1 base t j Hb Hw Hj) as [e He]. unfold pdpt_items. rewrite He.
  pose proof (present_follow 1 base t j e Hb ltac:(lia) Hw Hj He) as Hpf. specialize (Hs e He).
  pose proof (block_entry 1 base j Hb Hj ltac:(lia)) as Hb'. change (span 1) with (2 ^ 30) in *.
  destruct (follow e) eqn:Hf.
  - rewrite Hs by done. symmetry in Hpf. apply negb_true_iff in Hpf as ->. cbn [orb].
    change (2 ^ 30) with (span 1). apply (node_yields 1 base t j e); try done; [lia | |]; change (span 1) with (2 ^ 30).
    + exists (base + j * 2 ^ 30). destruct Hu. unfold user_va. lia.
    + intros k Hk. apply pd_yields; [done | | done |].
      * rewrite (entry_walk 1 base t j e), Hf by (done || (change (span 1) with (2 ^ 30); lia)). done.
      * destruct Hu. unfold user_block. change (span 2) with (2 ^ 21). lia.
  - symmetry in Hpf. apply negb_false_iff in Hpf as ->. cbn [orb]. change (2 ^ 30) with (span 1).
    apply yields_nothing; [lia | by apply span_aligned.. |]. intros va Hva _. by rewrite (entry_walk 1 base t j e), Hf.
Qed.

(** ** The top of the page map *)

Context (low klow : Z).
Hypotheses (Hlow : walk M R 1 0 = Some low) (Hklow : walk M K 1 0 = Some klow) (Hsame : rd_word M low 0 = rd_word M klow 0).

(** An entry of the kernel's page map leads to one of its tables. *)
Lemma kernel_entry n t i e va : walk M K n va = Some t -> ix n va = i -> rd_word M t i = Some e -> follow e = true ->
  walk M K (S n) va = Some (table_at e).
Proof using Type. intros Hw Hi He Hf. cbn [walk]. rewrite Hw. cbn [mbind option_bind]. by rewrite Hi, He; cbn [mbind option_bind]; rewrite Hf. Qed.

Lemma low_yields j : 0 <= j < 512 -> yields 1 (0 + j * span 1) (0 + (j + 1) * span 1) (pdpt_items (Some klow) low j).
Proof using All.
  intros Hj. destruct block_top as [_ Hb]. destruct (Z.eq_dec j 0) as [-> | Hne].
  - destruct (entry_read 1 0 low 0 Hb Hlow Hj) as [e He]. unfold pdpt_items, same_entry. rewrite <- Hsame, He. cbn [fmap option_fmap option_map default].
    rewrite Z.eqb_refl, orb_true_r. apply yields_nothing; [lia | done | done |].
    intros va Hva [Hu _]. change (span 1) with (2 ^ 30) in Hva. unfold USER_ADDR_MIN in Hu. lia.
  - assert (user_block (0 + j * span 1) (0 + (j + 1) * span 1)) as Hu.
    { unfold user_block, USER_ADDR_MIN, USER_ADDR_LIMIT. change (span 1) with (2 ^ 30). lia. }
    apply pdpt_yields; [done | done | done | done |]. intros e He Hf. apply not_true_is_false. intros Hs.
    unfold same_entry in Hs. destruct (rd_word M klow j) as [ke |] eqn:Ek; [| done]. cbn in Hs. apply Z.eqb_eq in Hs as <-.
    set (va := 0 + j * span 1) in *. assert (user_va va) as Hva.
    { destruct Hu. unfold user_va. change (span 1) with (2 ^ 30) in *. unfold va in *. lia. }
    destruct (km_user _ _ (po_kmap _ _ _ Hok) va Hva) as [H2 _]. fold M K in H2.
    rewrite (kernel_entry 1 klow j e va) in H2; try done.
    + rewrite <- Hklow. apply walk_prefix, block_prefix; [done |]. change (span 1) with (2 ^ 30) in *. unfold va in *. lia.
    + apply (entry_ix 1 0 j); [done | done |]. change (span 1) with (2 ^ 30) in *. unfold va in *. lia.
Qed.

Lemma top_read i : 0 <= i < 512 -> exists e, rd_word M R i = Some e.
Proof using Hok. apply (entry_read 0 0 R i); [apply block_top | done]. Qed.

(** A user entry of the top table is none of the kernel's. *)
Lemma top_other i e : 0 <= i < 256 -> rd_word M R i = Some e -> follow e = true -> same_entry (Some K) e i = false.
Proof using All.
  intros Hi He Hf. destruct block_top as [Hb Hb1]. apply not_true_is_false. intros Hs.
  unfold same_entry in Hs. destruct (rd_word M K i) as [ke |] eqn:Ek; [| done]. cbn in Hs. apply Z.eqb_eq in Hs as <-.
  destruct (Z.eq_dec i 0) as [-> | Hne].
  - assert (walk M K 1 0 = Some (table_at e)) as Hk by (by apply (kernel_entry 0 K 0)).
    assert (walk M R 1 0 = Some (table_at e)) as Hr by (rewrite (entry_walk 0 0 R 0 e 0), Hf; done).
    rewrite Hlow in Hr. injection Hr as E. rewrite <- E in Hk. pose proof (km_owned _ _ (po_kmap _ _ _ Hok) 1 0 low ltac:(lia) Hk).
    rewrite (po_excl _ _ _ Hok low) in *; [lia |]. apply (po_tables _ _ _ Hok). exists 1%nat, USER_ADDR_MIN.
    split; [lia |]. split; [by unfold user_va |]. rewrite <- Hlow. apply (walk_prefix M R 1 0). done.
  - set (va := 0 + i * span 0). assert (user_va va) as Hva.
    { unfold user_va, USER_ADDR_MIN, USER_ADDR_LIMIT, va. change (span 0) with (2 ^ 39). lia. }
    assert (ix 0 va = i) as Hix by (apply (entry_ix 0 0 i); [done | lia |]; change (span 0) with (2 ^ 39); unfold va; change (span 0) with (2 ^ 39); lia).
    destruct (km_user _ _ (po_kmap _ _ _ Hok) va Hva) as [_ H1]. fold M K in H1.
    rewrite (kernel_entry 0 K i e va) in H1; try done. by specialize (H1 ltac:(lia)).
Qed.

Lemma pml4_yields i : 0 <= i < 512 -> yields 0 (0 + i * span 0) (0 + (i + 1) * span 0) (pml4_items klow i).
Proof using All.
  intros Hi. destruct block_top as [Hb Hb1]. destruct (top_read i Hi) as [e He]. unfold pml4_items. rewrite He.
  pose proof (present_follow 0 0 R i e Hb ltac:(lia) eq_refl Hi He) as Hpf.
  destruct (Z.le_gt_cases 256 i) as [Hhi | Hlo].
  { assert (ix 0 (0 + i * span 0) = i) as Hix by (apply (entry_ix 0 0 i); [done | done |]; change (span 0) with (2 ^ 39); lia).
    pose proof (km_high _ _ (po_kmap _ _ _ Hok) (0 + i * span 0)) as Hk. rewrite Hix in Hk. fold M R K in Hk. specialize (Hk Hhi).
    unfold same_entry. rewrite <- Hk, He. cbn [fmap option_fmap option_map default]. rewrite Z.eqb_refl, orb_true_r.
    apply yields_nothing; [lia | by apply span_aligned.. |]. intros va Hva [_ Hu].
    change (span 0) with (2 ^ 39) in Hva. unfold USER_ADDR_LIMIT in Hu. lia. }
  destruct (follow e) eqn:Hf.
  2:{ symmetry in Hpf. apply negb_false_iff in Hpf as ->. cbn [orb].
      apply yields_nothing; [lia | by apply span_aligned.. |]. intros va Hva _. by rewrite (entry_walk 0 0 R i e), Hf. }
  rewrite (top_other i e) by (done || lia). symmetry in Hpf. apply negb_true_iff in Hpf as ->. cbn [orb].
  apply (node_yields 0 0 R i e); try done; [lia | |].
  - exists (USER_ADDR_MIN + i * 2 ^ 39). unfold user_va, USER_ADDR_MIN, USER_ADDR_LIMIT. change (span 0) with (2 ^ 39). lia.
  - intros j Hj. destruct (Z.eqb_spec i 0) as [-> | Hne].
    + assert (walk M R 1 0 = Some (table_at e)) as Hr by (rewrite (entry_walk 0 0 R 0 e 0), Hf; done).
      rewrite Hlow in Hr. injection Hr as <-. rewrite Z.mul_0_l. by apply low_yields.
    + apply pdpt_yields; [by apply block_entry; [| | lia] | | done | | done].
      * rewrite (entry_walk 0 0 R i e), Hf by (done || (change (span 0) with (2 ^ 39); lia)). done.
      * unfold user_block, USER_ADDR_MIN, USER_ADDR_LIMIT. change (span 0) with (2 ^ 39). change (span 1) with (2 ^ 30). lia.
Qed.

(** All that [free_vm] frees. *)
Definition vm_items : list (Z * bool) := entries (pml4_items klow) 512 0 ++ [(R, true)].

Lemma user_pte_count f : f <> 0 -> uses user_pte f 0 (2 ^ 48) = count s f.
Proof using Type.
  intros Hf. assert (forall lo hi, aligned lo -> aligned hi -> hi <= USER_ADDR_MIN \/ USER_ADDR_LIMIT <= lo -> uses user_pte f lo hi = 0) as Hz.
  { intros lo hi Hl Hh Hout. pose proof (uses_nonneg lo hi user_pte f).
    destruct (Z.eq_dec (uses user_pte f lo hi) 0) as [| Hne]; [done |].
    destruct (proj1 (uses_pos lo hi Hl Hh user_pte f) ltac:(lia)) as (va & _ & Hva & E). unfold user_pte in E.
    destruct (Z.leb_spec USER_ADDR_MIN va), (Z.ltb_spec va USER_ADDR_LIMIT); cbn [andb] in E; try lia; by destruct Hf. }
  rewrite (uses_split user_pte f 0 USER_ADDR_MIN (2 ^ 48)), (uses_split user_pte f USER_ADDR_MIN USER_ADDR_LIMIT (2 ^ 48)) by done.
  rewrite (Hz 0), (Hz USER_ADDR_LIMIT) by (done || lia). unfold count.
  rewrite (uses_ext USER_ADDR_MIN USER_ADDR_LIMIT (proj1 user_range_aligned) (proj2 user_range_aligned) user_pte (pte s)); [lia |].
  intros va _ Hva. unfold user_pte. destruct (Z.leb_spec USER_ADDR_MIN va), (Z.ltb_spec va USER_ADDR_LIMIT); lia || done.
Qed.

Lemma top_yields : yields 0 0 (2 ^ 48) (entries (pml4_items klow) 512 0).
Proof using All.
  pose proof (yields_entries 0 0 (pml4_items klow) 512 0 (proj1 block_top) ltac:(lia) ltac:(lia)) as H. apply H.
  intros j Hj. apply pml4_yields. lia.
Qed.

Lemma vm_items_times f : f <> 0 -> times f (map fst vm_items) = count s f + if decide (f ∈ T) then 1 else 0.
Proof using All.
  intros Hf. destruct top_yields as [Hfr Ht Hnd Hnz]. pose proof (po_wf _ _ _ Hok) as W.
  assert (R ∉ tables_in (entries (pml4_items klow) 512 0)) as HR.
  { intros (k & va & Hk & _ & _ & Hw)%Ht. destruct (wf_inj _ _ W k 0 va va R) as [? _]; [lia | lia | done | done |]. lia. }
  assert (tables_in vm_items = tables_in (entries (pml4_items klow) 512 0) ++ [R]) as Et by apply tables_in_app.
  rewrite times_items.
  - unfold vm_items at 1. rewrite frames_in_app, frames_in_cons, andb_false_r, Hfr, user_pte_count by done.
    change (frames_in f []) with 0. rewrite Et. assert (f ∈ tables_in (entries (pml4_items klow) 512 0) ++ [R] <-> f ∈ T) as Hiff.
    { rewrite elem_of_app, list_elem_of_singleton, (po_tables _ _ _ Hok), Ht. split.
      - intros [(k & va & Hk & Hva & Hu & Hw) | ->]; [exists k, va; split; [lia | done] |].
        exists O, USER_ADDR_MIN. split; [lia |]. split; [by unfold user_va | done].
      - intros (k & va & Hk & Hu & Hw). destruct k as [| k]; [right; by injection Hw as <- |]. left. exists (S k), va.
        split; [lia |]. split; [destruct Hu; unfold USER_ADDR_MIN, USER_ADDR_LIMIT in *; lia | done]. }
    destruct (decide (f ∈ T)); [rewrite decide_True by tauto | rewrite decide_False by tauto]; lia.
  - rewrite Et. apply NoDup_app. split; [done |]. split; [| apply NoDup_singleton].
    intros q Hq ->%list_elem_of_singleton. done.
Qed.

Lemma vm_items_nonzero q b : (q, b) ∈ vm_items -> q <> 0.
Proof using All.
  intros [H | H]%elem_of_app; [by apply (cv_nonzero _ _ _ _ top_yields q b) |]. apply list_elem_of_singleton in H. injection H as -> _.
  destruct (wf_table _ _ (po_wf _ _ _ Hok) 0 0 R ltac:(lia) eq_refl) as ([? _] & _). lia.
Qed.

(** ** The loops *)

Lemma frees_entries {B} (h : B -> Z) (g : Z -> list B) (step : nat -> Z -> phys A -> option (phys A)) (body : Z -> phys A -> option (phys A)) n i m :
  (forall i m, step O i m = Some m) -> (forall n i m, step (S n) i m = (m ← body i m; step n (i + 1) m)) ->
  (forall j m, mem m = M -> i <= j < i + Z.of_nat n -> body j m = frees (map h (g j)) m) ->
  mem m = M -> step n i m = frees (map h (entries g n i)) m.
Proof using Type.
  intros H0 HS. revert i m. induction n as [| n IH]; intros i m Hbody Hm; cbn [entries map]; [by rewrite H0 |].
  rewrite HS, Hbody, map_app, frees_app by (done || lia).
  destruct (frees (map h (g i)) m) as [m1 |] eqn:E; [| done]. cbn [mbind option_bind].
  apply IH; [intros j m' Hm' Hj; apply Hbody; [done | lia] |]. by rewrite (proj1 (frees_mem _ _ _ E)).
Qed.

Lemma frees_last l q m : frees (map fst (l ++ [(q, true)])) m = (m ← frees (map fst l) m; free_frame q m).
Proof using Type.
  rewrite map_app, frees_app. destruct (frees (map fst l) m); [| done]. cbn [mbind option_bind map fst frees].
  by destruct (free_frame q p).
Qed.

Lemma free_pt_items t m : mem m = M -> is_table M t -> free_pt 512 t 0 m = frees (map fst (entries (pt_items t) 512 0)) m.
Proof using Type.
  intros Hm Ht. apply (frees_entries fst (pt_items t) (fun n => free_pt n t) (fun l m => e ← rd_word (mem m) t l;
    if negb (Z.land e MMU_USER =? 0) && negb (Z.land e PTE_ADDR =? 0) then free_frame (Z.land e PTE_ADDR) m else Some m)); [done | | | done].
  - intros n l m'. cbn [free_pt]. by destruct (rd_word (mem m') t l).
  - intros l m' -> Hl. unfold pt_items. destruct (rd_word_Some M t l Ht ltac:(lia)) as [e ->]. cbn [mbind option_bind].
    destruct (_ && _); [| done]. cbn [map fst frees]. by destruct (free_frame _ m').
Qed.

Lemma free_pd_items base t m : mem m = M -> block 2 base -> walk M R 2 base = Some t ->
  free_pd 512 t 0 m = frees (map fst (entries (pd_items t) 512 0)) m.
Proof using Hok.
  intros Hm Hb Hw. apply (frees_entries fst (pd_items t) (fun n => free_pd n t) (fun k m => e ← rd_word (mem m) t k;
    if (Z.land e MMU_PRESENT =? 0) || negb (Z.land e MMU_PDE_TWO_MB =? 0) then Some m
    else m ← free_pt 512 (table_at e) 0 m; free_frame (Z.land e PTE_ADDR) m)); [done | | | done].
  - intros n k m'. cbn [free_pd]. by destruct (rd_word (mem m') t k).
  - intros k m' Hm' Hk. unfold pd_items. rewrite Hm'. destruct (entry_read 2 base t k Hb Hw ltac:(lia)) as [e He]. rewrite He.
    cbn [mbind option_bind]. destruct (_ || _) eqn:Es; [done |]. rewrite frees_last, <- free_pt_items; [done | done |].
    apply orb_false_elim in Es as [E1 E2%negb_false_iff].
    assert (walk M R 3 (base + k * span 2) = Some (table_at e)) as Hw3.
    { rewrite (entry_walk 2 base t k e) by (done || lia || (change (span 2) with (2 ^ 21); lia)).
      rewrite follow_eq. unfold present, big. by rewrite E1, E2. }
    apply (wf_table _ _ (po_wf _ _ _ Hok) 3 _ _ ltac:(lia) Hw3).
Qed.

(** The next table, when the entry is not skipped. *)
Lemma next_table n base t j e : block n base -> (n < 2)%nat -> walk M R n base = Some t -> 0 <= j < 512 ->
  rd_word M t j = Some e -> (Z.land e MMU_PRESENT =? 0) = false ->
  block (S n) (base + j * span n) /\ walk M R (S n) (base + j * span n) = Some (table_at e).
Proof using Hok.
  intros Hb Hn Hw Hj He Hp. split; [apply block_entry; (done || lia) |]. pose proof (span_pos n (bl_level _ _ Hb)).
  by rewrite (entry_walk n base t j e), (present_follow n base t j e), Hp by (done || lia).
Qed.

Lemma free_pdpt_items kl base t m : mem m = M -> block 1 base -> walk M R 1 base = Some t ->
  (forall l, kl = Some l -> is_table M l) ->
  free_pdpt 512 t 0 kl m = frees (map fst (entries (pdpt_items kl t) 512 0)) m.
Proof using Hok.
  intros Hm Hb Hw Hkl. apply (frees_entries fst (pdpt_items kl t) (fun n j m => free_pdpt n t j kl m) (fun j m => e ← rd_word (mem m) t j;
    skip ← (if Z.land e MMU_PRESENT =? 0 then Some true
            else match kl with Some kl => ke ← rd_word (mem m) kl j; Some (e =? ke) | None => Some false end);
    if skip : bool then Some m else m ← free_pd 512 (table_at e) 0 m; free_frame (Z.land e PTE_ADDR) m)); [done | | | done].
  - intros n j m'. cbn [free_pdpt]. destruct (rd_word (mem m') t j) as [e |]; [| done]. cbn [mbind option_bind].
    destruct (if Z.land e MMU_PRESENT =? 0 then Some true else _); [| done]. done.
  - intros j m' Hm' Hj. unfold pdpt_items. rewrite Hm'. destruct (entry_read 1 base t j Hb Hw ltac:(lia)) as [e He]. rewrite He.
    cbn [mbind option_bind]. destruct (Z.land e MMU_PRESENT =? 0) eqn:Ep; [done |]. cbn [orb].
    assert (match kl with Some kl => ke ← rd_word M kl j; Some (e =? ke) | None => Some false end = Some (same_entry kl e j)) as ->.
    { destruct kl as [l |]; [| done]. cbn [same_entry]. by destruct (rd_word_Some M l j (Hkl l eq_refl) ltac:(lia)) as [ke ->]. }
    cbn [mbind option_bind]. destruct (same_entry kl e j); [done |].
    destruct (next_table 1 base t j e Hb ltac:(lia) Hw ltac:(lia) He Ep) as [Hb' Hw'].
    by rewrite frees_last, <- (free_pd_items (base + j * span 1)).
Qed.

Lemma free_pml4_items m : mem m = M -> free_pml4 512 R K klow 0 m = frees (map fst (entries (pml4_items klow) 512 0)) m.
Proof using All.
  intros Hm. destruct block_top as [Hb _]. pose proof (km_wf _ _ (po_kmap _ _ _ Hok)) as WK.
  destruct (wf_table _ _ WK 0 0 K ltac:(lia) eq_refl) as (_ & _ & HK).
  destruct (wf_table _ _ WK 1 0 klow ltac:(lia) Hklow) as (_ & _ & HL).
  apply (frees_entries fst (pml4_items klow) (fun n i m => free_pml4 n R K klow i m) (fun i m => e ← rd_word (mem m) R i;
    ke ← rd_word (mem m) K i; if (Z.land e MMU_PRESENT =? 0) || (e =? ke) then Some m
    else m ← free_pdpt 512 (table_at e) 0 (if i =? 0 then Some klow else None) m; free_frame (Z.land e PTE_ADDR) m)); [done | | | done].
  - intros n i m'. cbn [free_pml4]. destruct (rd_word (mem m') R i); [| done]. cbn [mbind option_bind]. by destruct (rd_word (mem m') K i).
  - intros i m' Hm' Hi. unfold pml4_items. rewrite Hm'. destruct (top_read i ltac:(lia)) as [e He]. rewrite He.
    destruct (rd_word_Some M K i HK ltac:(lia)) as [ke Hke]. cbn [mbind option_bind]. rewrite Hke. cbn [mbind option_bind].
    assert (same_entry (Some K) e i = (e =? ke)) as -> by (unfold same_entry; by rewrite Hke).
    destruct (Z.land e MMU_PRESENT =? 0) eqn:Ep; [done |]. cbn [orb]. destruct (e =? ke); [done |].
    destruct (next_table 0 0 R i e Hb ltac:(lia) eq_refl ltac:(lia) He Ep) as [Hb' Hw'].
    rewrite frees_last, <- (free_pdpt_items _ (0 + i * span 0)); [done | done | done | done |].
    intros l. destruct (i =? 0); [intros [= <-]; exact HL | done].
Qed.

(** [free_vm] gives back every frame of the pages and every table; what is left
    are the owners of the ledger and of the queue. *)
Lemma free_vm_items m : mem m = M -> kernel_pml4 m = K -> free_vm R m = frees (map fst vm_items) m.
Proof using All.
  intros Hm HK. unfold free_vm. destruct (wf_table _ _ (po_wf _ _ _ Hok) 0 0 R ltac:(lia) eq_refl) as ([HR _] & _).
  destruct (Z.eqb_spec R 0); [lia |]. rewrite Hm, HK.
  pose proof Hklow as Hk. cbn [walk mbind option_bind] in Hk. change (ix 0 0) with 0 in Hk.
  destruct (rd_word M K 0) as [k0 |]; [| done]. cbn [mbind option_bind] in Hk |- *. destruct (follow k0); [| done].
  injection Hk as ->. rewrite free_pml4_items by done. unfold vm_items. by rewrite frees_last.
Qed.
End free.

Lemma times_pos f l : f ∈ l -> 0 < times f l.
Proof.
  induction l as [| q l IH]; [intros H; by apply elem_of_nil in H |]. rewrite times_cons. pose proof (times_nonneg f l).
  intros [-> | H1%IH]%elem_of_cons; [rewrite Z.eqb_refl; lia | destruct (q =? f); lia].
Qed.

Lemma times_none f l : f ∉ l -> times f l = 0.
Proof.
  induction l as [| q l IH]; [done |]. rewrite times_cons, not_elem_of_cons. intros [Hne H]. rewrite IH by done.
  by destruct (Z.eqb_spec q f) as [-> |].
Qed.

Section free_vm.
Context {A : Type} `{!Frames A, !FramesOk A}.

Lemma free_vm_spec o T (s : state A) : pages_ok o T s ->
  (forall f, f <> 0 -> f mod PAGE_SIZE = 0 -> 0 <= o f + pend (pending (vm s)) f) ->
  exists a, free_vm (root s) (machine (ker s)) = Some (set_frames a (machine (ker s))) /\ frames_inv a /\
    forall f, f <> 0 -> f mod PAGE_SIZE = 0 -> held a f = o f + pend (pending (vm s)) f.
Proof.
  intros Hok Hsol. destruct (km_low _ _ (po_kmap _ _ _ Hok)) as (low & klow & Hlow & Hklow & Hsame).
  rewrite (free_vm_items o T s Hok low klow Hlow Hklow Hsame) by done.
  pose proof (vm_items_times o T s Hok low klow Hlow Hklow Hsame) as Ht.
  pose proof (vm_items_nonzero o T s Hok low klow Hlow Hklow Hsame) as Hnz.
  set (l := map fst (vm_items s klow)) in *.
  assert (forall f, f ∈ l -> f <> 0) as Hl0 by (intros f ([q b] & -> & Hq)%list_elem_of_fmap; by apply (Hnz q b)).
  assert (Forall frame_ok l) as Hfl.
  { apply Forall_forall. intros f Hf. pose proof (Hl0 f Hf) as H0. pose proof (times_pos f l Hf) as Hp. rewrite Ht in Hp by done.
    destruct (decide (f ∈ T)) as [HT | HT].
    - apply (po_tables _ _ _ Hok) in HT as (n & va & Hn & _ & Hw). by apply (wf_table _ _ (po_wf _ _ _ Hok) n va).
    - assert (0 < count s f) as Hc by lia. pose proof Hc as (va & _ & E)%count_pos.
      assert (f mod PAGE_SIZE = 0) as Hm by (rewrite <- E; apply frame_of_aligned). apply (counted_frame o T s); [done | done | done |].
      rewrite (po_ledger _ _ _ Hok f H0 Hm), decide_False by done. specialize (Hsol f H0 Hm). lia. }
  destruct (frees_ok l (machine (ker s))) as (a & -> & Ha & Hh); [apply (po_wf _ _ _ Hok) | done | |].
  - intros q Hq. destruct (Z.eq_dec q 0) as [-> | H0].
    + rewrite times_none by (intros H; by apply (Hl0 0)). apply (held_owned _ 0 (wf_frames _ _ (po_wf _ _ _ Hok))).
    + rewrite Ht by done. fold (hold s q). rewrite (po_ledger _ _ _ Hok q H0 Hq). specialize (Hsol q H0 Hq). lia.
  - exists a. split; [done |]. split; [done |]. intros f H0 Hm. rewrite Hh, Ht by done. fold (hold s f).
    rewrite (po_ledger _ _ _ Hok f H0 Hm). lia.
Qed.
End free_vm.
