(* ===== verification/VmRelease.v ===== *)
(** * The end of an address space: [vm_release] *)

From Stdlib Require Import ZArith Lia Bool.
From stdpp Require Import base list option gmap.
From S2P Require Import Prelude Mmu Frames PageTable PageTableFacts StateMonad Rbtree RbtreeFacts RbtreeRemove VmArea VmAreaFacts Vm VmPages VmPageOps VmOps VmFree.
Open Scope Z_scope.
Open Scope prog_scope.

Section release.
Context {A : Type} `{!Frames A, !FramesOk A}.
Implicit Types (s : state A) (o : Z -> Z) (T : gset Z) (ls : alist).

(** ** The areas *)

(** Every page from [lo] on can be shared once more. *)
Definition room_from s (lo : Z) : Prop := roomy s lo USER_ADDR_LIMIT.

Lemma release_loop_spec o T ls : forall fuel s lo, pages_ok o T s -> solvent o -> shape (vm s) ls -> (length ls < fuel)%nat ->
  aligned lo -> USER_ADDR_MIN <= lo <= USER_ADDR_LIMIT -> (forall x, x ∈ ls -> lo <= va_start x.2) -> room_from s lo ->
  wp (release_loop fuel) (fun _ s' => pages_ok o T s' /\ quiet (outside T) s s') s.
Proof.
  induction ls as [| [a r] ls IH]; intros fuel s lo Hok Hsol Hs Hf Ha Hlo Hst Hroom;
    (destruct fuel as [| fuel]; [simpl in Hf; lia |]); cbn [release_loop]; apply wp_bind.
  { eapply wp_asks; [by apply seq_first, Hs |]. apply wp_ret. split; [done | apply quiet_space_refl]. }
  eapply wp_asks; [by apply seq_first, Hs |]. change (first_of ((a, r) :: ls).*1) with a.
  assert (area_wf r) as Hr by (apply (areas_wf_elem _ (a, r) (sh_areas _ _ Hs)); set_solver).
  pose proof (area_range r Hr) as Hpr. pose proof (Hst (a, r) ltac:(by left)) as Hlr. cbn [snd] in Hlr.
  pose proof (shape_nonzero _ _ (a, r) Hs ltac:(set_solver)) as H0%Z.eqb_neq. cbn [fst] in H0. rewrite H0.
  apply wp_bind, (wp_asks _ r); [apply (sh_recs _ _ Hs); set_solver |].
  assert (forall f, uses (pte s) f lo USER_ADDR_LIMIT = uses (pte s) f lo (va_start r) + (uses (pte s) f (va_start r) (va_end r) +
    uses (pte s) f (va_end r) USER_ADDR_LIMIT)) as Hsplit.
  { intros f. destruct Hpr as [? ? ? ? ?]. rewrite (uses_split _ _ lo (va_start r)), (uses_split _ _ (va_start r) (va_end r)) by lia. done. }
  assert (roomy s (va_start r) (va_end r)) as Hroom1.
  { intros f Hf0 Hm. specialize (Hroom f Hf0 Hm). rewrite Hsplit in Hroom.
    pose proof (uses_nonneg lo (va_start r) (pte s) f). pose proof (uses_nonneg (va_end r) USER_ADDR_LIMIT (pte s) f). lia. }
  apply wp_bind. eapply wp_mono; [by apply (flush_area_spec o T) |]. intros [] s1 (Hok1 & Ht1 & Hp1 & Hh1). cbn beta.
  assert (shape (vm s1) ((a, r) :: ls)) as Hs1 by (by eapply tame_shape).
  apply (wp_regroup (area_remove a) (fun _ => area_free a)), wp_bind. eapply wp_mono; [exact (area_drop_spec s1 [] a r ls Hs1) |]. intros [] s2 (Hr2 & _ & Hs2 & _). cbn beta.
  pose proof (pages_ok_rest _ _ _ _ Hr2 Hok1) as Hok2. pose proof (sh_areas _ _ Hs) as Hwf.
  eapply wp_mono; [apply (IH fuel s2 (va_end r)); try done; [simpl in Hf; lia | apply Hpr | destruct Hpr; lia | |] |].
  - intros x Hx. exact (below_head [] (a, r) ls x Hwf Hx).
  - intros f Hf0 Hm. rewrite (same_rest_hold _ _ _ Hr2).
    rewrite (uses_ext (va_end r) USER_ADDR_LIMIT (pr_end _ _ Hpr) (proj2 user_range_aligned) (pte s2) (pte s)).
    + specialize (Hh1 f Hf0 Hm). specialize (Hroom f Hf0 Hm). rewrite Hsplit in Hroom. pose proof (uses_nonneg lo (va_start r) (pte s) f). lia.
    + intros va Hav Hva. rewrite (same_rest_pte _ _ _ Hr2). apply Hp1. split; [unfold user_va; destruct Hpr; lia | done].
  - intros [] s3 [Hok3 Hq3]. split; [done |]. eapply quiet_space_trans; [by apply quiet_tame |].
    eapply quiet_space_trans; [by apply quiet_rest | done].
Qed.

(** ** The queue *)

(** Writing back does not look at the address space. *)
Lemma run_flush_kernel l (k : kernel A) : exists r, forall v,
  run_flush l (State v k) = match r with Some k' => Some (tt, State v k') | None => None end.
Proof.
  revert k. induction l as [| w l IH]; intros k; cbn [run_flush]; [by exists (Some k) |].
  destruct (fl_frame w =? 0) eqn:E; cbn [negb].
  - destruct (IH (Kernel (machine k) (mallocs k) (events k ++ [Release (fl_ops w) (fl_file w)]))) as [r Hr]. exists r. exact Hr.
  - destruct (mem (machine k) !! fl_frame w) as [ws |] eqn:Em.
    2:{ exists None. intros v. unfold bind, get_frame, asks. cbn [ker]. by rewrite Em. }
    destruct (free_frame (fl_frame w) (machine k)) as [m |] eqn:Ef.
    2:{ exists None. intros v. unfold bind, get_frame, asks, free_physical_page, on_machine_, updates. cbn [ker]. rewrite Em.
        cbn [mbind option_bind log modify machine ker]. by rewrite Ef. }
    set (ev := events k ++ [WriteBack (fl_ops w) (fl_file w) (fl_offset w) (frame_bytes ws)]).
    destruct (IH (Kernel m (mallocs k) ev)) as [r Hr]. exists r. intros v. rewrite <- Hr.
    unfold bind, get_frame, asks, free_physical_page, on_machine_, updates. cbn [ker]. rewrite Em.
    cbn [mbind option_bind log modify machine ker]. by rewrite Ef.
Qed.

Lemma wp_run_flush l v (Q : unit -> state A -> Prop) s :
  wp (run_flush l) (fun u s' => Q u (State (vm s) (ker s'))) (State v (ker s)) -> wp (run_flush l) Q s.
Proof.
  destruct (run_flush_kernel l (ker s)) as [r Hr]. destruct s as [v0 k]. cbn [vm ker] in *. unfold wp. rewrite !Hr. by destruct r.
Qed.

(** The page map and the queue are all that the invariant needs of a space. *)
Lemma pages_ok_vm o T s v : page_map v = root s -> pending v = pending (vm s) -> pages_ok o T s -> pages_ok o T (set_vm v s).
Proof.
  intros Hr Hp Hok. apply (pages_ok_update o o T s); [done |]. constructor; try done; unfold set_vm; cbn [vm ker]; rewrite ?Hp; try done.
  - apply (po_wf _ _ _ Hok).
  - intros f Hf. apply (po_data _ _ _ Hok f Hf).
  - apply (po_queue _ _ _ Hok).
Qed.

(** ** The space *)

(** All frames of the space are given back. *)
Record released o s s' : Prop := {
  rs_frames : frames_inv (fr s');
  rs_hold : forall f, f <> 0 -> f mod PAGE_SIZE = 0 -> hold s' f = o f;
  rs_kernel : kroot s' = kroot s;
  rs_mem : forall q, q <> 0 -> q mod PAGE_SIZE = 0 -> 0 < o q -> mm s' !! q = mm s !! q;
}.

Lemma vm_release_spec o T s ls : space_inv o T s ls -> solvent o -> light s ->
  wp vm_release (fun gone s' => if gone : bool then ref_count (vm s) <= 1 /\ released o s s'
    else 1 < ref_count (vm s) /\ s' = set_vm (with_ref_count (ref_count (vm s) - 1) (vm s)) s) s.
Proof.
  intros Hinv Hsol Hl. unfold vm_release. apply wp_bind, wp_modify. set (s0 := set_vm _ s). apply wp_bind, wp_gets.
  change (ref_count (vm s0)) with (ref_count (vm s) - 1).
  destruct (Z.ltb_spec 0 (ref_count (vm s) - 1)); [apply wp_ret; split; [lia | done] |].
  assert (pages_ok o T s0) as Hok0 by (apply pages_ok_vm; [done | done | apply Hinv]).
  assert (shape (vm s0) ls) as Hs0 by (destruct (si_shape _ _ _ _ Hinv) as [? ? ? ?]; by constructor).
  apply wp_bind, wp_gets, wp_bind. eapply wp_mono.
  { apply (release_loop_spec o T ls _ s0 USER_ADDR_MIN Hok0 Hsol Hs0 (shape_length _ _ Hs0)); [done | done | |].
    - intros x Hx. apply (areas_wf_elem _ _ (sh_areas _ _ Hs0) Hx).
    - apply light_roomy; [exact Hl | constructor; done]. }
  intros [] s1 [Hok1 Hq1]. cbn beta. apply wp_bind, wp_gets, wp_bind.
  set (v1 := with_pending [] (vm s1)). set (l := pending (vm s1)).
  destruct (set_pending_ok o (fun q => o q + pend l q) T s1 []) as [Hokp Hrest]; [done | | |].
  { intros w Hw. by apply elem_of_nil in Hw. }
  { intros f _ _. change (pend [] f) with 0. fold l. lia. }
  apply (wp_run_flush l v1). eapply wp_mono; [apply (run_flush_spec o T l (State v1 (ker s1))); [exact Hokp | done |] |].
  { intros w Hw. split; [by apply (po_queue _ _ _ Hok1) |]. intros Hne.
    assert (0 < pend l (fl_frame w)) by (apply pend_pos; eauto). pose proof (count_nonneg s1 (fl_frame w)).
    eapply requeued_data; [split; [exact Hokp | exact Hrest] | apply (po_data _ _ _ Hok1); [done | unfold l in *; lia]]. }
  intros [] s2 [(Hok2 & Hm2 & [_ Hk2] & _) Hv2]. cbn beta. apply wp_bind, wp_gets. cbn [vm ker].
  assert (root s2 = page_map (vm s1)) as Hr2 by (unfold root; by rewrite Hv2).
  destruct (free_vm_spec o T s2 Hok2) as (a & Ha & Hfi & Hh).
  { intros f Hf Hm. rewrite Hv2. change (pend _ f) with 0. specialize (Hsol f Hf Hm). lia. }
  rewrite Hr2 in Ha. unfold on_machine_. eapply wp_bind, wp_updates; [cbn [ker]; by rewrite Ha |]. apply wp_ret.
  split; [lia |]. assert (kroot s2 = kroot s) as Hk by (unfold kroot; by rewrite Hk2; apply Hq1).
  constructor; unfold fr, hold, mm, kroot; cbn [ker machine frames mem kernel_pml4 set_machine set_frames]; [done | | done |].
  - intros f Hf Hm. rewrite Hh, Hv2 by done. change (pend _ f) with 0. lia.
  - intros q Hq Hm Ho. change (mm s2 !! q = mm s !! q). rewrite Hm2. apply (qu_mem _ _ _ Hq1); [done | done |].
    apply outside_pos. by apply (excl_not_table o T s0).
Qed.
End release.
