(* ===== verification/VmDemo.v ===== *)
(** * A kernel with one new address space

    A kernel page map with nothing but its lowest table is fit for new spaces,
    whatever allocator keeps the contract; an instance with the allocator of
    pmm.c, and the space that [vm_create] makes there. *)

From Stdlib Require Import ZArith Lia Bool.
From stdpp Require Import base list option gmap.
From S2P Require Import Prelude Mmu Pmm PmmFacts PmmSpec Pagecache PagecacheFacts Frames PageTable PageTableFacts MemoryTheorems StateMonad Rbtree RbtreeFacts RbtreeRemove VmArea VmAreaFacts Vm VmPages VmPageOps VmOps VmProtect VmCow VmFault VmWrite VmRange VmBrk VmFile VmMove VmEntry VmRemap VmCalls VmCreate.
Open Scope Z_scope.
Open Scope prog_scope.

(** ** A small kernel page map *)

Section small.
Context {A : Type} `{!Frames A, !FramesOk A}.
Context (K L : Z) (m : gmap Z (list Z)) (a : A).
Let e : Z := Z.lor (Z.lor (Z.lor L MMU_PRESENT) MMU_WRITABLE) MMU_USER.
Hypotheses (Ha : frames_inv a) (HK : frame_ok K) (HL : frame_ok L) (Hne : K <> L) (HhK : 0 < held a K) (HhL : 0 < held a L).
Hypotheses (HmK : m !! K = Some (<[0%nat := e]> zero_frame)) (HmL : m !! L = Some zero_frame).

Lemma small_rd i : 0 <= i < 512 -> rd_word m K i = Some (if i =? 0 then e else 0) /\ rd_word m L i = Some 0.
Proof using HmK HmL.
  intros Hi. unfold rd_word. rewrite HmK, HmL. cbn [mbind option_bind]. split; [| by apply rd_zero_frame].
  rewrite (rd_wr zero_frame 0 e _ i) by (rewrite wr_is_Some; [done | rewrite zero_frame_length; lia]).
  destruct (i =? 0); [done | by apply rd_zero_frame].
Qed.

Lemma small_walk n va : walk m K n va = match n with O => Some K | S O => if ix 0 va =? 0 then Some L else None | _ => None end.
Proof using HL HmK HmL.
  destruct (new_entry_ok L MMU_USER HL) as [Hf Ht]. change (Z.land MMU_USER MMU_USER) with MMU_USER in *. fold e in Hf, Ht.
  destruct n as [| n]; [done |]. assert (walk m K 1 va = if ix 0 va =? 0 then Some L else None) as H1.
  { cbn [walk mbind option_bind]. rewrite (proj1 (small_rd (ix 0 va) (table_index_range _ _))). cbn [mbind option_bind].
    destruct (ix 0 va =? 0); [by rewrite Hf, Ht | done]. }
  destruct n as [| n]; [done |]. apply (walk_None m K (S (S n)) 2 va); [lia |].
  change (walk m K 2 va) with (t ← walk m K 1 va; x ← rd_word m t (ix 1 va); if follow x then Some (table_at x) else None).
  rewrite H1. destruct (ix 0 va =? 0); [| done]. cbn [mbind option_bind].
  by rewrite (proj2 (small_rd (ix 1 va) (table_index_range _ _))).
Qed.

Lemma small_cases n va t : walk m K n va = Some t -> (n = O /\ t = K) \/ (n = 1%nat /\ ix 0 va = 0 /\ t = L).
Proof using HL HmK HmL.
  rewrite small_walk. destruct n as [| [| n]]; [intros [= <-]; by left | | done].
  destruct (Z.eqb_spec (ix 0 va) 0); [| done]. intros [= <-]. by right.
Qed.

Lemma small_ready : kernel_ready (Phys m a K).
Proof using All.
  destruct (new_entry_ok L MMU_USER HL) as [Hf _]. change (Z.land MMU_USER MMU_USER) with MMU_USER in *. fold e in Hf.
  rewrite follow_eq in Hf. apply andb_prop in Hf as [_ Hb%negb_true_iff]. constructor; cbn [mem kernel_pml4].
  - constructor; cbn [mem frames]; [done | | |].
    + intros n va t _ [[_ ->] | (_ & _ & ->)]%small_cases; (split; [done |]; split; [done |]); eexists; (split; [done |]).
      * by rewrite length_insert, zero_frame_length.
      * apply zero_frame_length.
    + intros n1 n2 va1 va2 t _ _ [[-> E1] | (-> & Z1 & E1)]%small_cases [[-> E2] | (-> & Z2 & E2)]%small_cases; try congruence.
      * done.
      * split; [done |]. cbn [same_prefix]. by rewrite Z1, Z2.
    + intros n va t x _ Hw He Hp. destruct (small_rd (ix n va) (table_index_range _ _)) as [E1 E2].
      destruct (small_cases _ _ _ Hw) as [[_ ->] | (_ & _ & ->)].
      * assert (x = if ix n va =? 0 then e else 0) as -> by congruence. by destruct (ix n va =? 0).
      * by assert (x = 0) as -> by congruence.
  - rewrite small_walk. by exists L.
  - intros va _. rewrite !small_walk. split; [done |]. intros H0. by destruct (Z.eqb_spec (ix 0 va) 0).
Qed.
End small.

(** ** The instance *)

(** The allocator after three pages, numbers 258 to 260, were taken. *)
Definition demo_pair : pmm := match take_page demo_one with Some (_, st) => st | None => demo_one end.
Definition demo_pages : pmm := match take_page demo_pair with Some (_, st) => st | None => demo_pair end.

Lemma demo_pages_reachable : pmm_reachable demo_pages.
Proof.
  apply (reach_op demo_pair OpTake (260 * PAGE_SIZE)); [| done | vm_compute; reflexivity].
  apply (reach_op demo_one OpTake (259 * PAGE_SIZE)); [apply demo_one_reachable | done | vm_compute; reflexivity].
Qed.

Definition demo_frames : pcaches * pmm := (PCaches ∅ [], demo_pages).

Lemma demo_frames_inv : pmm_frames_inv demo_frames.
Proof.
  split; [apply reachable_wf, demo_pages_reachable |]. split; [| by vm_compute].
  constructor; try (by apply NoDup_nil_2 || apply Forall_nil_2).
  all: intros v Hv; by apply elem_of_nil in Hv.
Qed.

Lemma demo_held p : p ∈ [258; 259; 260] -> held demo_frames (p * PAGE_SIZE) = 1.
Proof.
  intros Hp. repeat (apply elem_of_cons in Hp as [-> | Hp]; [vm_compute; reflexivity |]). by apply elem_of_nil in Hp.
Qed.

Lemma rd_zeros (l : list Z) i x : forallb (Z.eqb 0) l = true -> rd l i = Some x -> x = 0.
Proof.
  intros H%Is_true_true%forallb_True. unfold rd. case_match; [done |]. intros Hx.
  rewrite Forall_lookup in H. specialize (H _ _ Hx). by apply Is_true_true, Z.eqb_eq in H.
Qed.

Lemma demo_refs i x : rd (shared_refs demo_pages) i = Some x -> x = 0.
Proof. apply rd_zeros. vm_compute. reflexivity. Qed.

Lemma demo_owners page : owners demo_pages page <= 1.
Proof.
  unfold owners. destruct (page_free demo_pages page); [lia |]. pose proof (demo_refs page) as H.
  destruct (rd (shared_refs demo_pages) page) as [x |]; [rewrite (H x eq_refl) |]; cbn; lia.
Qed.

Lemma demo_held_small f : held demo_frames f <= 1.
Proof.
  pose proof (held_owned demo_frames f demo_frames_inv) as [_ H]. etrans; [exact H |].
  change (owned demo_frames f) with (if managed demo_pages (f / PAGE_SIZE) then owners demo_pages (f / PAGE_SIZE) else 0).
  destruct (managed _ _); [| lia]. apply demo_owners.
Qed.

(** Pages 258 and 259 have the kernel's page map, page 260 is free for use. *)
Definition demo_memory : gmap Z (list Z) :=
  <[258 * PAGE_SIZE := <[0%nat := Z.lor (Z.lor (Z.lor (259 * PAGE_SIZE) MMU_PRESENT) MMU_WRITABLE) MMU_USER]> zero_frame]>
    (<[259 * PAGE_SIZE := zero_frame]> {[ 260 * PAGE_SIZE := zero_frame ]}).
Definition demo_machine : phys (pcaches * pmm) := Phys demo_memory demo_frames (258 * PAGE_SIZE).
Definition demo_kernel : kernel (pcaches * pmm) := Kernel demo_machine (replicate 100 true) [].

Lemma demo_frame p : p ∈ [258; 259; 260] -> frame_ok (p * PAGE_SIZE).
Proof.
  intros Hp. repeat (apply elem_of_cons in Hp as [-> | Hp]; [by split |]). by apply elem_of_nil in Hp.
Qed.

Lemma demo_ready : kernel_ready demo_machine.
Proof.
  apply (small_ready (258 * PAGE_SIZE) (259 * PAGE_SIZE));
    [apply demo_frames_inv | apply demo_frame; set_solver | apply demo_frame; set_solver | done
    | rewrite demo_held; [done | set_solver] | rewrite demo_held; [done | set_solver] | done | done].
Qed.

Lemma demo_walk n va : walk demo_memory (258 * PAGE_SIZE) n va <> Some (260 * PAGE_SIZE).
Proof.
  intros H. apply (small_cases (258 * PAGE_SIZE) (259 * PAGE_SIZE) demo_memory) in H as [[_ E] | (_ & _ & E)];
    [done | done | apply demo_frame; set_solver | done | done].
Qed.

Definition demo_space : state (pcaches * pmm) :=
  match vm_create demo_kernel with Some (Some v, k) => State v k | _ => State (new_space 0) demo_kernel end.

Lemma demo_created : exists root low m', new_map demo_machine root low m' /\
  demo_space = State (new_space root) (Kernel m' (replicate 99 true) []).
Proof.
  unfold demo_space. destruct (vm_create_spec demo_kernel demo_ready) as ([v |] & [m' ms ev] & -> & Hev & Hms & Hres).
  - destruct Hres as (root & low & -> & Hnm). exists root, low, m'. split; [exact Hnm |]. cbn in Hev, Hms. by subst.
  - exfalso. destruct Hres as [_ [Hg | Hs]]; [by vm_compute in Hg |].
    assert (spare (frames (machine demo_kernel)) = 251) as E by (vm_compute; reflexivity). lia.
Qed.

(** All owners of frames but the space's. *)
Definition demo_rest : Z -> Z := held demo_frames.

Lemma demo_solvent : solvent demo_rest.
Proof. intros f _ _. pose proof (held_owned demo_frames f demo_frames_inv) as [H _]. exact H. Qed.

Lemma demo_space_inv : vm_inv demo_rest demo_space.
Proof.
  destruct demo_created as (root & low & m' & Hnm & ->). apply (new_vm_inv demo_machine root low m'); [apply demo_ready | done | done |].
  intros f. etrans; [exact (demo_held_small f) | lia].
Qed.

Lemma demo_inv : exists T, space_inv demo_rest T demo_space [].
Proof.
  destruct demo_created as (root & low & m' & Hnm & ->). eexists.
  apply (new_space_inv demo_machine root low m'); [apply demo_ready | done | done].
Qed.

Lemma demo_pte va : user_va va -> pte demo_space va = 0.
Proof.
  destruct demo_created as (root & low & m' & Hnm & ->). apply (created_pte demo_machine root low m'); [apply demo_ready | done].
Qed.

Lemma demo_light : light demo_space.
Proof.
  intros f Hf Hm. destruct demo_created as (root & low & m' & Hnm & ->).
  rewrite (created_count demo_machine root low m' _ _ demo_ready Hnm f Hf). unfold hold. cbn [machine ker].
  rewrite (nm_held _ _ _ _ Hnm) by done. pose proof (demo_held_small f). cbn [frames demo_machine]. destruct (_ || _); lia.
Qed.

Lemma demo_cow_safe : cow_safe demo_rest (pte demo_space) [].
Proof. constructor; intros va [Hva _]; by rewrite demo_pte. Qed.

Lemma demo_brk : brk (vm demo_space) = 0.
Proof. destruct demo_created as (root & low & m' & _ & ->). reflexivity. Qed.
Lemma demo_credit : credit demo_space = 99.
Proof. destruct demo_created as (root & low & m' & _ & ->). reflexivity. Qed.

(** The owners without the one who has page 260 in hand. *)
Definition demo_others : Z -> Z := take_off (260 * PAGE_SIZE) demo_rest.

Lemma demo_given : exists T, space_inv (give (260 * PAGE_SIZE) demo_others) T demo_space [].
Proof.
  destruct demo_inv as (T & [Hp Hs Ha Hb]). exists T. constructor; [| done | done | done].
  eapply pages_ok_ext; [exact Hp |]. intros q _ _. unfold demo_others, give, take_off. destruct (q =? _); lia.
Qed.

Lemma demo_others_solvent : solvent demo_others.
Proof.
  intros f Hf Hm. pose proof (demo_solvent f Hf Hm). unfold demo_others, take_off.
  destruct (Z.eqb_spec f (260 * PAGE_SIZE)) as [-> | _]; [| done].
  assert (demo_rest (260 * PAGE_SIZE) = 1) as -> by (apply (demo_held 260); set_solver). lia.
Qed.

Lemma demo_page : data_frame demo_space (260 * PAGE_SIZE) /\ hold demo_space (260 * PAGE_SIZE) = 1 /\
  count demo_space (260 * PAGE_SIZE) = 0.
Proof.
  destruct demo_created as (root & low & m' & Hnm & ->). pose proof (demo_held 260 ltac:(set_solver)) as H1.
  pose proof (nm_root _ _ _ _ Hnm) as [_ Hr]. pose proof (nm_low _ _ _ _ Hnm) as [_ Hl]. cbn [frames demo_machine] in Hr, Hl.
  assert (260 * PAGE_SIZE <> root) as Nr by (intros E; rewrite <- E, H1 in Hr; done).
  assert (260 * PAGE_SIZE <> low) as Nl by (intros E; rewrite <- E, H1 in Hl; done).
  split; [split |].
  - intros (n & va & Hn & [Hw | Hw]).
    + destruct (new_cases demo_machine root low m' demo_ready Hnm n va (260 * PAGE_SIZE) Hn Hw) as [[_ E] | [(_ & _ & E) | (Hq & _)]];
        [by apply Nr | by apply Nl | exact (demo_walk n va Hq)].
    + unfold kroot in Hw. cbn [machine ker] in Hw. rewrite (nm_kernel _ _ _ _ Hnm) in Hw.
      change (mm _) with (mem m') in Hw. rewrite (proj2 (new_kernel demo_machine root low m' demo_ready Hnm) n va Hn) in Hw. exact (demo_walk n va Hw).
  - exists zero_frame. change (mm _) with (mem m'). rewrite (nm_other _ _ _ _ Hnm) by done. split; [| apply zero_frame_length]. done.
  - split; [| by apply (created_count demo_machine root low m' _ _ demo_ready Hnm)].
    change (hold _ ?q) with (held (frames m') q). rewrite (nm_held _ _ _ _ Hnm) by done.
    destruct (Z.eqb_spec (260 * PAGE_SIZE) root), (Z.eqb_spec (260 * PAGE_SIZE) low); done.
Qed.

(** Two pages at the mmap base, written, protected, grown, moved and unmapped again. *)
Definition demo_calls : list vm_op :=
  [ OpMap 0 8192 (Z.lor VM_READ VM_WRITE) 0 false; OpFault USER_MMAP_BASE true;
    OpWrite USER_MMAP_BASE 6 (Some [104; 101; 114; 109; 101; 115]);
    OpRemap USER_MMAP_BASE 8192 16384 MREMAP_MAYMOVE;
    OpRemapFixed USER_MMAP_BASE 16384 16384 MREMAP_MAYMOVE (USER_MMAP_BASE + 0x100000);
    OpAttach (USER_MMAP_BASE + 0x100000) 1 1 0;
    OpProtect USER_MMAP_BASE 4096 VM_READ; OpPopulate USER_MMAP_BASE 8192 false;
    OpDiscard USER_MMAP_BASE 4096; OpSync USER_MMAP_BASE 8192; OpBrk 0x800000; OpUnmap USER_MMAP_BASE 8192 ].

Lemma demo_calls_ok : Forall op_ok demo_calls.
Proof. repeat (constructor; try (unfold is_u, USER_MMAP_BASE; simpl; lia)). Qed.
