(* ===== verification/VmTheorems.v ===== *)
(** * What vm.c promises

    The properties of the address spaces, and a concrete space on which they are
    instantiated. *)

From Stdlib Require Import ZArith Lia Bool.
From stdpp Require Import base list option gmap.
From S2P Require Import Prelude Mmu Pmm PmmFacts PmmSpec Pagecache PagecacheFacts Frames PageTable PageTableFacts MemoryTheorems StateMonad Rbtree RbtreeFacts RbtreeRemove VmArea VmAreaFacts Vm VmPages VmPageOps VmOps VmProtect VmCow VmFault VmWrite VmRange VmBrk VmFile VmMove VmEntry VmRemap VmCalls VmCreate VmFree VmRelease VmDemo.
Open Scope Z_scope.
Open Scope prog_scope.

Section theorems.
Context {A : Type} `{!Frames A, !FramesOk A}.
Implicit Types (s : state A) (o : Z -> Z) (T : gset Z) (ls : alist).




(** C14: [vm_unmap] leaves no mapping and no frame in the range and changes no
    other address; it fails only on bad arguments or when [malloc] refuses one
    of two requests, and then changes nothing a process can see. *)
Theorem vm_unmap_correct o T s ls addr len : space_inv o T s ls -> solvent o -> light s ->
  is_u 64 addr -> is_u 64 len ->
  wp (vm_unmap addr len) (fun r s' => exists ls', kept o s s' ls' /\ pending (vm s') = [] /\
    brk (vm s') = brk (vm s) /\ unmap_result addr (PAGE_ALIGN_UP (u64 (addr + len))) r s ls s' ls') s.
Proof. apply vm_unmap_spec. Qed.

(** [vm_unmap] of the whole user range gives back every frame: the owners
    that are left of a frame that is not a page table are those of others. *)
Theorem vm_unmap_returns_frames o s : vm_inv o s -> solvent o -> 2 <= credit s ->
  wp (vm_unmap USER_ADDR_MIN (USER_ADDR_LIMIT - USER_ADDR_MIN)) (fun r s' => r = 0 /\
    exists T, forall f, f <> 0 -> f mod PAGE_SIZE = 0 ->
      hold s' f = o f + if decide (f ∈ T) then 1 else 0) s.
Proof.
  intros (T & ls & Hinv & Hl & _) Hsol Hcr.
  eapply wp_mono; [apply (vm_unmap_spec o T s ls); try done; unfold is_u, USER_ADDR_MIN, USER_ADDR_LIMIT; lia |].
  intros r s' (ls' & ((T' & Hinv') & _) & Hpe & _ & Hres).
  replace (PAGE_ALIGN_UP _) with USER_ADDR_LIMIT in Hres by done.
  destruct Hres as [(-> & _ & _ & [_ Hp]) | [[[_ [Hno | Hno]] | [_ ?]] _]]; [| by destruct Hno | done | lia].
  split; [done |]. exists T'. intros f Hf Hm. rewrite (po_ledger _ _ _ (si_pages _ _ _ _ Hinv') f Hf Hm), Hpe.
  change (pend [] f) with 0. rewrite (count_cleared s s' f USER_ADDR_MIN USER_ADDR_LIMIT) by done.
  fold (count s f). lia.
Qed.

(** C15: [vm_protect] gives the whole range the protection, entries with frames
    included, and changes no other address; it fails only on bad arguments, at a
    hole, where an area must not become writable, or when [malloc] refuses, and
    then changes nothing a process can see. *)
Theorem vm_protect_correct o T s ls addr len prot : space_inv o T s ls -> light s ->
  is_u 64 addr -> is_u 64 len ->
  wp (vm_protect addr len prot) (fun r s' => exists ls', kept o s s' ls' /\ brk (vm s') = brk (vm s) /\
    protect_result addr (PAGE_ALIGN_UP (u64 (addr + len))) len prot r s ls s' ls') s.
Proof. apply protect_locked_spec. Qed.

(** C13: a page fault on an access that the area permits succeeds if five frames
    can be had, and then the entry allows the access; on any other access it
    fails.  No page changes its contents, and no other page its entry. *)
Theorem vm_fault_correct o T s ls addr write : space_inv o T s ls -> solvent o -> light s ->
  wp (vm_fault addr write) (fun ok s' => transparent o s ls s' /\ only_page (page_of addr) s s' /\
    (permits ls addr write = false -> ok = false) /\
    (permits ls addr write = true -> 5 <= spare (fr s) -> ok = true) /\
    (ok = true -> accessible s' ls addr write)) s.
Proof.
  intros Hinv Hsol Hl. eapply wp_mono; [by apply (fault_locked_spec o T s ls) |].
  intros ok s' (Ht & Ho & Hc & Hacc). split_and!; try done.
  - by intros E; rewrite E in Hc.
  - intros E H5. rewrite E in Hc. destruct Hc as [_ Hc]. destruct ok; [done |]. specialize (Hc eq_refl). lia.
Qed.

(** [vm_populate] succeeds on a range of permitted pages if five frames per
    page can be had; after success every page of the range has an entry that
    allows the access, and no page changed its contents. *)
Theorem vm_populate_correct o T s ls addr len (write : bool) : space_inv o T s ls -> solvent o -> light s ->
  is_u 64 addr -> is_u 64 len ->
  wp (vm_populate addr len write) (fun ok s' => transparent o s ls s' /\
    (ok = true -> 0 < len -> forall va, user_page va -> page_of addr <= va < addr + len ->
       allows (pte s' va) write = true) /\
    (user_range addr (addr + len) = true ->
     (forall va, user_page va -> page_of addr <= va < addr + len -> permits ls va write = true) ->
     5 * page_count addr len <= spare (fr s) -> ok = true)) s.
Proof. apply vm_populate_spec. Qed.

(** C10: [vm_write] to private memory writes the bytes of its source, and a
    process reads exactly these bytes back; all other bytes of the space and all
    frames of others are as they were.  It stops early only at a hole, or when
    no frames are left; five frames per page are enough. *)
Theorem vm_write_correct o T s ls addr len src : space_inv o T s ls -> solvent o -> light s ->
  cow_safe o (pte s) ls -> is_u 64 addr -> 0 <= len -> src_ok src len -> private_range ls addr len ->
  wp (vm_write addr len src) (fun r s' => (exists T', space_inv o T' s' ls) /\ cow_safe o (pte s') ls /\
    tame o s s' /\ vm s' = vm s /\ (exists n, write_end ls addr len r n /\ written addr n src s s') /\
    (5 * (len / PAGE_SIZE + 2) <= spare (fr s) -> r <> - ENOMEM)) s.
Proof.
  intros Hinv Hsol Hl Hc Hu Hlen Hsrc Hp. eapply wp_mono; [by apply (vm_write_spec o T s ls) |].
  intros r s' [((Hinv' & _ & Hv & _ & Hc') & n & He & Hw) [_ Hcost]]. destruct (Hw Hc Hp) as [Ht Hwr]. split_and!; eauto.
  intros Hsp ->. rewrite Z.eqb_refl in Hcost. specialize (Hcost eq_refl). lia.
Qed.


(** [vm_remap_fixed] puts the pages of the old range, with their bytes, in
    place of whatever was mapped at the new one; or it fails before it changes
    anything; or, when memory runs out half way, only the ranges it had to give
    up are gone and the pages of the old range stay where they were. *)
Theorem vm_remap_fixed_correct o T s ls old old_len new_len flags new : space_inv o T s ls -> solvent o -> light s ->
  is_u 64 old -> is_u 64 new -> 0 <= old_len <= 2 ^ 63 -> 0 <= new_len <= 2 ^ 63 ->
  wp (vm_remap_fixed old old_len new_len flags new) (fun r s' => exists ls', kept o s s' ls' /\ pending (vm s') = [] /\
    brk (vm s') = brk (vm s) /\
    fixed_result old (PAGE_ALIGN_UP old_len) (PAGE_ALIGN_UP new_len) flags new s ls s' ls' r) s.
Proof.
  intros Hinv Hsol Hl Hu Hun Hol Hnl. eapply wp_mono; [by apply (vm_remap_fixed_spec o T s ls) |].
  intros r s' (ls' & Hk & Hpe & Hb & _ & Hres). by exists ls'.
Qed.

(** [vm_insert_frame] maps the caller's frame at a page of an area, with the
    rights of the area, takes over the caller's share of it and gives back the
    frame that was there; on failure the share is still the caller's. *)
Theorem vm_insert_frame_correct o T s ls va frame : space_inv (give frame o) T s ls -> solvent o -> light s -> is_u 64 va ->
  frame_ok frame -> data_frame s frame -> hold s frame + count s frame < 0xFFFF ->
  wp (vm_insert_frame va frame) (fun r s' =>
    (r = 0 /\ frame_inserted o ls va frame s s') \/
    (r = - EFAULT /\ s' = s /\ (view ls va = None \/ ~ aligned va)) \/
    (r = - ENOMEM /\ spare (fr s) < 3 /\ (exists T', space_inv (give frame o) T' s' ls) /\ light s' /\ tame o s s' /\ vm s' = vm s /\
     forall va', pte s' va' = pte s va')) s.
Proof. apply vm_insert_frame_spec. Qed.

(** [vm_attach_file] gives a file to the area that starts at the address, if
    it has none yet, and takes a reference to the file; nothing else changes. *)
Theorem vm_attach_file_correct o T s ls start ops file offset : space_inv o T s ls -> light s ->
  wp (vm_attach_file start ops file offset) (fun x s' => exists ls', kept o s s' ls' /\ brk (vm s') = brk (vm s) /\
    attach_result start ops file offset x s ls s' ls') s.
Proof. apply vm_attach_file_spec. Qed.

(** C9: [vm_create] makes an empty address space that is in order, with the
    kernel mapped as it is in the kernel's page map and every owner of a frame
    accounted for; it fails only when [malloc] refuses or there are not two
    frames, and then gives back what it took. *)
Theorem vm_create_correct (k : kernel A) : kernel_ready (machine k) -> (forall f, held (frames (machine k)) f <= 0xFFFF) ->
  exists r k', vm_create k = Some (r, k') /\ match r with
    | None => same_owned (machine k) (machine k') /\ (grants (mallocs k) < 1 \/ spare (frames (machine k)) < 2)
    | Some v => vm_inv (held (frames (machine k))) (State v k') /\ ref_count v = 1 /\
        (forall va, user_va va -> pte (State v k') va = 0) /\ kernel_ready (machine k')
    end.
Proof.
  intros Hkr Hsmall. destruct (vm_create_spec k Hkr) as (r & [m' ms ev] & Hc & _ & _ & Hres). exists r, (Kernel m' ms ev).
  split; [done |]. destruct r as [v |]; [| done]. destruct Hres as (root & low & -> & Hnm).
  split; [by apply (new_vm_inv (machine k) root low m') |]. split; [done |].
  split; [intros va; by apply (created_pte (machine k) root low m') |].
  by apply (kernel_map_ready (held (frames (machine k))) (State (new_space root) (Kernel m' ms ev))), (new_kernel_map (machine k) root low m').
Qed.

(** C8: [vm_release] of the last reference gives back every frame of the space,
    its pages, its page tables and the pages that wait to be written back: the
    owners that are left of any frame are exactly those of others, whose
    contents are as they were.  Before the last reference it only counts. *)
Theorem vm_release_correct o s : vm_inv o s -> solvent o ->
  wp vm_release (fun gone s' => if gone : bool then ref_count (vm s) <= 1 /\ released o s s'
    else 1 < ref_count (vm s) /\ s' = set_vm (with_ref_count (ref_count (vm s) - 1) (vm s)) s) s.
Proof. intros (T & ls & Hinv & Hl & _) Hsol. by apply (vm_release_spec o T s ls). Qed.
End theorems.




Lemma vm_unmap_correct_witness :
  wp (vm_unmap USER_MMAP_BASE 8192) (fun r s' => exists ls', kept demo_rest demo_space s' ls' /\
    pending (vm s') = [] /\ brk (vm s') = brk (vm demo_space) /\
    unmap_result USER_MMAP_BASE (PAGE_ALIGN_UP (u64 (USER_MMAP_BASE + 8192))) r demo_space [] s' ls') demo_space.
Proof.
  destruct demo_inv as [T Hinv]. apply (vm_unmap_correct demo_rest T);
    [exact Hinv | apply demo_solvent | apply demo_light | unfold is_u, USER_MMAP_BASE; lia..].
Defined.

Lemma vm_unmap_returns_frames_witness :
  wp (vm_unmap USER_ADDR_MIN (USER_ADDR_LIMIT - USER_ADDR_MIN)) (fun r s' => r = 0 /\
    exists T : gset Z, forall f, f <> 0 -> f mod PAGE_SIZE = 0 ->
      hold s' f = demo_rest f + if decide (f ∈ T) then 1 else 0) demo_space.
Proof. apply vm_unmap_returns_frames; [apply demo_space_inv | apply demo_solvent | rewrite demo_credit; lia]. Defined.

Lemma vm_protect_correct_witness :
  wp (vm_protect USER_MMAP_BASE 8192 VM_READ) (fun r s' => exists ls', kept demo_rest demo_space s' ls' /\
    brk (vm s') = brk (vm demo_space) /\
    protect_result USER_MMAP_BASE (PAGE_ALIGN_UP (u64 (USER_MMAP_BASE + 8192))) 8192 VM_READ r demo_space [] s' ls') demo_space.
Proof.
  destruct demo_inv as [T Hinv]. apply (vm_protect_correct demo_rest T);
    [exact Hinv | apply demo_light | unfold is_u, USER_MMAP_BASE; lia..].
Defined.

Lemma vm_fault_correct_witness :
  wp (vm_fault USER_MMAP_BASE true) (fun ok s' => transparent demo_rest demo_space [] s' /\
    only_page (page_of USER_MMAP_BASE) demo_space s' /\
    (permits [] USER_MMAP_BASE true = false -> ok = false) /\
    (permits [] USER_MMAP_BASE true = true -> 5 <= spare (fr demo_space) -> ok = true) /\
    (ok = true -> accessible s' [] USER_MMAP_BASE true)) demo_space.
Proof. destruct demo_inv as [T Hinv]. apply (vm_fault_correct demo_rest T); [exact Hinv | apply demo_solvent | apply demo_light]. Defined.

Lemma vm_populate_correct_witness :
  wp (vm_populate USER_MMAP_BASE 8192 true) (fun ok s' => transparent demo_rest demo_space [] s' /\
    (ok = true -> 0 < 8192 -> forall va, user_page va -> page_of USER_MMAP_BASE <= va < USER_MMAP_BASE + 8192 ->
       allows (pte s' va) true = true) /\
    (user_range USER_MMAP_BASE (USER_MMAP_BASE + 8192) = true ->
     (forall va, user_page va -> page_of USER_MMAP_BASE <= va < USER_MMAP_BASE + 8192 -> permits [] va true = true) ->
     5 * page_count USER_MMAP_BASE 8192 <= spare (fr demo_space) -> ok = true)) demo_space.
Proof.
  destruct demo_inv as [T Hinv]. apply (vm_populate_correct demo_rest T);
    [exact Hinv | apply demo_solvent | apply demo_light | unfold is_u, USER_MMAP_BASE; lia..].
Defined.


Lemma vm_write_correct_witness :
  wp (vm_write USER_MMAP_BASE 2 (Some [72; 105])) (fun r s' => (exists T', space_inv demo_rest T' s' []) /\
    cow_safe demo_rest (pte s') [] /\ tame demo_rest demo_space s' /\ vm s' = vm demo_space /\
    (exists n, write_end [] USER_MMAP_BASE 2 r n /\ written USER_MMAP_BASE n (Some [72; 105]) demo_space s') /\
    (5 * (2 / PAGE_SIZE + 2) <= spare (fr demo_space) -> r <> - ENOMEM)) demo_space.
Proof.
  destruct demo_inv as [T Hinv]. apply (vm_write_correct demo_rest T);
    [exact Hinv | apply demo_solvent | apply demo_light | apply demo_cow_safe | unfold is_u, USER_MMAP_BASE; lia | lia
    | split; [repeat constructor; lia | simpl; lia] | by intros a _ Hno].
Defined.


Lemma vm_remap_fixed_correct_witness :
  wp (vm_remap_fixed USER_MMAP_BASE 8192 4096 MREMAP_MAYMOVE USER_ADDR_MIN) (fun r s' => exists ls',
    kept demo_rest demo_space s' ls' /\ pending (vm s') = [] /\ brk (vm s') = brk (vm demo_space) /\
    fixed_result USER_MMAP_BASE (PAGE_ALIGN_UP 8192) (PAGE_ALIGN_UP 4096) MREMAP_MAYMOVE USER_ADDR_MIN
      demo_space [] s' ls' r) demo_space.
Proof.
  destruct demo_inv as [T Hinv]. apply (vm_remap_fixed_correct demo_rest T);
    [exact Hinv | apply demo_solvent | apply demo_light | unfold is_u, USER_MMAP_BASE, USER_ADDR_MIN; lia..].
Defined.

Lemma vm_attach_file_correct_witness :
  wp (vm_attach_file USER_MMAP_BASE 1 1 0) (fun x s' => exists ls', kept demo_rest demo_space s' ls' /\
    brk (vm s') = brk (vm demo_space) /\ attach_result USER_MMAP_BASE 1 1 0 x demo_space [] s' ls') demo_space.
Proof. destruct demo_inv as [T Hinv]. apply (vm_attach_file_correct demo_rest T); [exact Hinv | apply demo_light]. Defined.

Lemma vm_create_correct_witness : exists r k', vm_create demo_kernel = Some (r, k') /\ match r with
    | None => same_owned demo_machine (machine k') /\ (grants (mallocs demo_kernel) < 1 \/ spare (frames demo_machine) < 2)
    | Some v => vm_inv (held (frames demo_machine)) (State v k') /\ ref_count v = 1 /\
        (forall va, user_va va -> pte (State v k') va = 0) /\ kernel_ready (machine k')
    end.
Proof.
  apply (vm_create_correct demo_kernel); [apply demo_ready |]. intros f. etrans; [exact (demo_held_small f) | lia].
Defined.

Lemma vm_insert_frame_correct_witness :
  wp (vm_insert_frame USER_MMAP_BASE (260 * PAGE_SIZE)) (fun r s' =>
    (r = 0 /\ frame_inserted demo_others [] USER_MMAP_BASE (260 * PAGE_SIZE) demo_space s') \/
    (r = - EFAULT /\ s' = demo_space /\ (view [] USER_MMAP_BASE = None \/ ~ aligned USER_MMAP_BASE)) \/
    (r = - ENOMEM /\ spare (fr demo_space) < 3 /\ (exists T', space_inv (give (260 * PAGE_SIZE) demo_others) T' s' []) /\
     light s' /\ tame demo_others demo_space s' /\ vm s' = vm demo_space /\
     forall va', pte s' va' = pte demo_space va')) demo_space.
Proof.
  destruct demo_given as [T Hinv]. destruct demo_page as (Hd & Hh & Hc).
  apply (vm_insert_frame_correct demo_others T); [exact Hinv | apply demo_others_solvent | apply demo_light
    | clear; unfold is_u, USER_MMAP_BASE; lia | apply demo_frame; clear; set_solver | exact Hd | rewrite Hh, Hc; clear; lia].
Defined.

Lemma vm_release_correct_witness :
  wp vm_release (fun gone s' => if gone : bool then ref_count (vm demo_space) <= 1 /\ released demo_rest demo_space s'
    else 1 < ref_count (vm demo_space) /\ s' = set_vm (with_ref_count (ref_count (vm demo_space) - 1) (vm demo_space)) demo_space) demo_space.
Proof. apply vm_release_correct; [apply demo_space_inv | apply demo_solvent]. Defined.
