(* ===== verification/PageTableTheorems.v ===== *)
(** * What mmu.c promises of a page map *)

From Stdlib Require Import ZArith Lia Bool.
From stdpp Require Import base list option gmap.
From S2P Require Import Prelude Mmu Pmm Pagecache Frames PageTable PageTableFacts VmArea Vm VmPages VmOps VmCreate VmDemo.
Local Open Scope Z_scope.

Section theorems.
Context {A : Type} `{!Frames A, !FramesOk A}.
Implicit Types (s : phys A).

(** C17: [map_page_in] on a well-formed page map makes the page of the address
    translate to the frame and flags given and changes the translation of no
    other page, also when it has to create tables or to split a 2 MiB page; it
    fails, with no translation changed, only when fewer than three frames can be
    had. *)
Theorem map_page_in_correct s root va pa flags : pt_wf s root ->
  exists r s', map_page_in root va pa flags s = Some (r, s') /\ pt_wf s' root /\
    (3 <= spare (frames s) -> r = 0) /\
    ((r = 0 /\ forall va', xlate (mem s') root va' =
        if same_page va va' then Z.lor pa flags else xlate (mem s) root va') \/
     (r = -1 /\ forall va', xlate (mem s') root va' = xlate (mem s) root va')).
Proof.
  intros Hwf. destruct (map_page_in_spec s root va pa flags Hwf) as (r & s' & Hm & Hwf' & _ & [_ Hc] & Hres).
  exists r, s'. split; [done |]. split; [done |]. split.
  - intros H3. destruct (Z.eqb_spec r 0) as [| Hne]; [done |]. specialize (Hc eq_refl). lia.
  - destruct Hres as [(-> & _ & Hx) | [-> Hx]]; [by left | by right].
Qed.
End theorems.

Lemma map_page_in_correct_witness : exists r s',
  map_page_in (258 * PAGE_SIZE) 0x400000 0x9000 7 demo_machine = Some (r, s') /\
  pt_wf s' (258 * PAGE_SIZE) /\ (3 <= spare (frames demo_machine) -> r = 0) /\
  ((r = 0 /\ forall va', xlate (mem s') (258 * PAGE_SIZE) va' =
      if same_page 0x400000 va' then Z.lor 0x9000 7
      else xlate (mem demo_machine) (258 * PAGE_SIZE) va') \/
   (r = -1 /\ forall va', xlate (mem s') (258 * PAGE_SIZE) va' =
      xlate (mem demo_machine) (258 * PAGE_SIZE) va')).
Proof. apply map_page_in_correct. exact (kr_wf _ demo_ready). Defined.
