(* ===== verification/Siphash.v ===== *)
(** * SipHash-2-4: drivers/net/core/siphash.c

    The keyed hash that randomises TCP initial sequence numbers, and its
    equivalence with the definition of the algorithm as the compression of the
    padded message, eight bytes at a time. *)

From stdpp Require Import base list option.
From Stdlib Require Import ZArith Lia.
From S2P Require Import Prelude Bytes.
Open Scope Z_scope.

Definition SIPHASH_KEY_LEN : Z := 16.

Definition rotl64 (v n : Z) : Z := Z.lor (u64 (Z.shiftl v n)) (Z.shiftr v (64 - n)).

(** The loop [i] down to 0 of [load_le64]. *)
Fixpoint load_le64_loop (n : nat) (p : list Z) (at_ v : Z) : option Z :=
  match n with
  | O => Some v
  | S i => b ← rd p (at_ + Z.of_nat i); load_le64_loop i p at_ (Z.lor (u64 (Z.shiftl v 8)) b)
  end.
Definition load_le64 (p : list Z) (at_ : Z) : option Z := load_le64_loop 8 p at_ 0.

(** The four state words. *)
Record sip := Sip { v0 : Z; v1 : Z; v2 : Z; v3 : Z }.

Definition sip_round (v : sip) : sip :=
  let '(Sip a b c d) := v in
  let a := u64 (a + b) in let b := rotl64 b 13 in let b := Z.lxor b a in let a := rotl64 a 32 in
  let c := u64 (c + d) in let d := rotl64 d 16 in let d := Z.lxor d c in
  let a := u64 (a + d) in let d := rotl64 d 21 in let d := Z.lxor d a in
  let c := u64 (c + b) in let b := rotl64 b 17 in let b := Z.lxor b c in let c := rotl64 c 32 in
  Sip a b c d.

Definition sip_compress (v : sip) (m : Z) : sip :=
  let '(Sip a b c d) := v in
  let v := Sip a b c (Z.lxor d m) in
  let v := sip_round v in
  let v := sip_round v in
  let '(Sip a b c d) := v in
  Sip (Z.lxor a m) b c d.

(** The loop over whole words: the state, the position and what is left. *)
Fixpoint sip_words (fuel : nat) (data : list Z) (p left_ : Z) (v : sip) : option (sip * Z * Z) :=
  if left_ >=? 8 then
    match fuel with
    | O => None
    | S fuel' => m ← load_le64 data p; sip_words fuel' data (p + 8) (left_ - 8) (sip_compress v m)
    end
  else Some (v, p, left_).

(** The loop that gathers the last bytes. *)
Fixpoint sip_last (n : nat) (data : list Z) (p i last : Z) : option Z :=
  match n with
  | O => Some last
  | S n' => b ← rd data (p + i); sip_last n' data p (i + 1) (Z.lor last (u64 (Z.shiftl b (8 * i))))
  end.

Definition siphash24 (key data : list Z) (len : Z) : option Z :=
  k0 ← load_le64 key 0;
  k1 ← load_le64 key 8;
  let v := Sip (Z.lxor k0 0x736f6d6570736575) (Z.lxor k1 0x646f72616e646f6d)
               (Z.lxor k0 0x6c7967656e657261) (Z.lxor k1 0x7465646279746573) in
  '(v, p, left_) ← sip_words (Z.to_nat (len / 8)) data 0 len v;
  last ← sip_last (Z.to_nat left_) data p 0 (u64 (Z.shiftl len 56));
  let v := sip_compress v last in
  let '(Sip a b c d) := v in
  let v := Sip a b (Z.lxor c 0xFF) d in
  let '(Sip a b c d) := sip_round (sip_round (sip_round (sip_round v))) in
  Some (Z.lxor (Z.lxor (Z.lxor a b) c) d).

(** ** The definition of the algorithm *)

(** The message padded with zeros to a multiple of eight bytes, the last byte
    being the length modulo 256. *)
Definition sip_pad (msg : list Z) : list Z :=
  msg ++ replicate (7 - length msg mod 8) 0 ++ [Z.of_nat (length msg) mod 256].

Fixpoint le_words (n : nat) (bs : list Z) : list Z :=
  match n with O => [] | S n' => le_val (take 8 bs) :: le_words n' (drop 8 bs) end.

Definition sip_init (k0 k1 : Z) : sip :=
  Sip (Z.lxor k0 0x736f6d6570736575) (Z.lxor k1 0x646f72616e646f6d)
      (Z.lxor k0 0x6c7967656e657261) (Z.lxor k1 0x7465646279746573).

Definition sip_finish (v : sip) : Z :=
  let '(Sip a b c d) := v in
  let '(Sip a b c d) := Nat.iter 4 sip_round (Sip a b (Z.lxor c 0xFF) d) in
  Z.lxor (Z.lxor (Z.lxor a b) c) d.

Definition siphash_spec (key msg : list Z) : Z :=
  sip_finish (fold_left sip_compress (le_words (length msg / 8 + 1) (sip_pad msg))
    (sip_init (le_val (take 8 key)) (le_val (drop 8 key)))).

(** ** Equivalence *)

Lemma le_val_take_S (bs : list Z) i b : bs !! i = Some b ->
  le_val (take (S i) bs) = le_val (take i bs) + 256 ^ Z.of_nat i * b.
Proof.
  intros H. rewrite (take_S_r _ _ _ H), le_val_app, length_take. cbn [le_val].
  apply lookup_lt_Some in H. rewrite Nat.min_l by lia. lia.
Qed.

Lemma load_le64_loop_spec n p at_ v : bytes p -> (at_ + n <= length p)%nat ->
  (n <= 8)%nat -> 0 <= v < 256 ^ Z.of_nat (8 - n) ->
  load_le64_loop n p (Z.of_nat at_) v =
  Some (v * 256 ^ Z.of_nat n + le_val (take n (drop at_ p))).
Proof.
  intros Hp. revert v. induction n as [| n IH]; intros v Hn H8 Hv; cbn [load_le64_loop].
  { rewrite Z.pow_0_r, take_0. simpl. f_equal. lia. }
  destruct (rd_is_Some p (Z.of_nat at_ + Z.of_nat n)) as [b Hb]; [lia |].
  rewrite Hb, option_bind_Some_fun. pose proof (rd_Forall _ _ _ _ Hp Hb) as Hbyte.
  assert (drop at_ p !! n = Some b) as Hd.
  { rewrite lookup_drop. revert Hb. unfold rd. destruct (_ <? 0) eqn:?; [done |].
    intros <-. f_equal. lia. }
  assert (256 ^ Z.of_nat (8 - n) = 256 * 256 ^ Z.of_nat (8 - S n)) as Hpow
    by (rewrite <- Z.pow_succ_r by lia; f_equal; lia).
  assert (256 ^ Z.of_nat (8 - n) <= 2 ^ 64)
    by (change (2 ^ 64) with (256 ^ 8); apply Z.pow_le_mono_r; lia).
  unfold is_byte, is_u in Hbyte.
  rewrite u64_small by (rewrite Z.shiftl_mul_pow2 by lia; lia).
  rewrite lor_shiftl_add by (lia || done). change (2 ^ 8) with 256. rewrite IH by lia.
  rewrite (le_val_take_S _ _ _ Hd), Nat2Z.inj_succ, Z.pow_succ_r by lia. f_equal. ring.
Qed.

Lemma load_le64_spec p at_ : bytes p -> (at_ + 8 <= length p)%nat ->
  load_le64 p (Z.of_nat at_) = Some (le_val (take 8 (drop at_ p))).
Proof.
  intros Hp Hn. unfold load_le64. rewrite load_le64_loop_spec by (done || lia). f_equal.
Qed.

Lemma lor_hole c lo b i : (0 <= i < 7)%nat -> 0 <= lo < 256 ^ Z.of_nat i -> is_byte b -> 0 <= c ->
  Z.lor (c * 2 ^ 56 + lo) (Z.shiftl b (8 * Z.of_nat i)) =
  c * 2 ^ 56 + (lo + 256 ^ Z.of_nat i * b).
Proof.
  intros Hi Hlo Hb Hc. set (n := 8 * Z.of_nat i).
  assert (256 ^ Z.of_nat i = 2 ^ n) as Hp
    by (change 256 with (2 ^ 8); rewrite <- Z.pow_mul_r; unfold n; f_equal; lia).
  rewrite Hp in *.
  assert (c * 2 ^ 56 = c * 2 ^ (56 - n) * 2 ^ n) as He
    by (rewrite <- Z.mul_assoc, <- Z.pow_add_r by lia; f_equal; f_equal; lia).
  transitivity (c * 2 ^ (56 - n) * 2 ^ n + lo + b * 2 ^ n); [| lia].
  rewrite He, <- (Z.shiftl_mul_pow2 b n) by lia.
  assert (Z.land (c * 2 ^ (56 - n) * 2 ^ n + lo) (Z.shiftl b n) = 0) as Hz.
  { apply Z.bits_inj'. intros j Hj.
    rewrite Z.land_spec, Z.bits_0, testbit_add_high by (done || lia).
    destruct (Z.ltb_spec j n); [rewrite Z.shiftl_spec_low by lia; apply andb_false_r |].
    rewrite Z.shiftl_spec by lia. destruct (Z_lt_ge_dec (j - n) 8).
    - by rewrite Z.mul_pow2_bits_low by lia.
    - rewrite (testbit_above 8 b) by (done || lia). apply andb_false_r. }
  rewrite <- Z.lxor_lor by done. by rewrite <- Z.add_nocarry_lxor.
Qed.

Lemma sip_last_spec n data p i c : bytes data -> (p + i + n <= length data)%nat ->
  (i + n <= 7)%nat -> 0 <= c ->
  sip_last n data (Z.of_nat p) (Z.of_nat i) (c * 2 ^ 56 + le_val (take i (drop p data))) =
  Some (c * 2 ^ 56 + le_val (take (i + n) (drop p data))).
Proof.
  intros Hd. revert i. induction n as [| n IH]; intros i Hi H7 Hc; cbn [sip_last].
  { by rewrite Nat.add_0_r. }
  destruct (rd_is_Some data (Z.of_nat p + Z.of_nat i)) as [b Hb]; [lia |].
  rewrite Hb, option_bind_Some_fun. pose proof (rd_Forall _ _ _ _ Hd Hb) as Hbyte.
  assert (drop p data !! i = Some b) as Hl.
  { rewrite lookup_drop. revert Hb. unfold rd. destruct (_ <? 0) eqn:?; [done |].
    intros <-. f_equal. lia. }
  assert (0 <= le_val (take i (drop p data)) < 256 ^ Z.of_nat i) as Hlo.
  { pose proof (le_val_range (take i (drop p data))) as Hr.
    rewrite length_take, length_drop, Nat.min_l in Hr by lia. by apply Hr, Forall_take, Forall_drop. }
  assert (0 <= Z.shiftl b (8 * Z.of_nat i) < 2 ^ 64).
  { unfold is_byte, is_u in Hbyte. rewrite Z.shiftl_mul_pow2 by lia.
    assert (2 ^ (8 * Z.of_nat i) <= 2 ^ 48) by (apply Z.pow_le_mono_r; lia).
    assert (0 < 2 ^ (8 * Z.of_nat i)) by lia. nia. }
  rewrite u64_small, lor_hole by (done || lia). rewrite <- (le_val_take_S _ _ _ Hl).
  replace (Z.of_nat i + 1) with (Z.of_nat (S i)) by lia.
  rewrite IH by lia. by rewrite Nat.add_succ_r.
Qed.

Lemma sip_words_spec n data p v : bytes data -> (p + 8 * n + 7 >= length data)%nat ->
  (p + 8 * n <= length data)%nat ->
  sip_words n data (Z.of_nat p) (Z.of_nat (length data - p)) v =
  Some (fold_left sip_compress (le_words n (drop p data)) v,
        Z.of_nat (p + 8 * n), Z.of_nat (length data - (p + 8 * n))).
Proof.
  intros Hd. revert p v. induction n as [| n IH]; intros p v Hge Hle; cbn [sip_words].
  - rewrite Z.geb_leb. destruct (Z.leb_spec 8 (Z.of_nat (length data - p))); [lia |].
    cbn. repeat f_equal; lia.
  - rewrite Z.geb_leb. destruct (Z.leb_spec 8 (Z.of_nat (length data - p))); [| lia].
    rewrite load_le64_spec, option_bind_Some_fun by (done || lia).
    replace (Z.of_nat p + 8) with (Z.of_nat (p + 8)) by lia.
    replace (Z.of_nat (length data - p) - 8) with (Z.of_nat (length data - (p + 8))) by lia.
    rewrite IH by lia. cbn [le_words fold_left]. rewrite drop_drop.
    by replace (p + 8 * S n)%nat with (p + 8 + 8 * n)%nat by lia.
Qed.

Lemma le_words_app n xs ys : (8 * n <= length xs)%nat -> le_words n (xs ++ ys) = le_words n xs.
Proof.
  revert xs. induction n as [| n IH]; intros xs Hn; [done |]. cbn [le_words].
  rewrite take_app_le, drop_app_le by lia. f_equal. apply IH. rewrite length_drop. lia.
Qed.

Lemma le_words_snoc n xs : le_words (n + 1) xs = le_words n xs ++ [le_val (take 8 (drop (8 * n) xs))].
Proof.
  revert xs. induction n as [| n IH]; intros xs; [done |].
  change (S n + 1)%nat with (S (n + 1)). cbn [le_words app]. rewrite IH, drop_drop.
  repeat f_equal. lia.
Qed.

(** The last word of the padded message. *)
Lemma sip_pad_last msg : let n := (length msg / 8)%nat in
  le_val (take 8 (drop (8 * n) (sip_pad msg))) =
  Z.of_nat (length msg) mod 256 * 2 ^ 56 + le_val (drop (8 * n) msg).
Proof.
  intros n. pose proof (Nat.div_mod_eq (length msg) 8) as Hdm. fold n in Hdm.
  pose proof (Nat.mod_upper_bound (length msg) 8 ltac:(lia)).
  unfold sip_pad. rewrite drop_app_le by lia.
  rewrite take_ge by (rewrite !length_app, length_drop, length_replicate; cbn [length]; lia).
  rewrite !le_val_app, le_val_replicate_0, length_drop, length_replicate. cbn [le_val].
  rewrite Z.mul_add_distr_l, Z.mul_assoc, <- Z.pow_add_r by lia.
  replace (Z.of_nat (length msg - 8 * n) + Z.of_nat (7 - length msg mod 8)) with 7 by lia. lia.
Qed.

Lemma u64_shiftl_56 x : 0 <= x -> u64 (Z.shiftl x 56) = x mod 256 * 2 ^ 56.
Proof.
  intros Hx. rewrite Z.shiftl_mul_pow2 by lia. unfold u64, wrap.
  change (2 ^ 64) with (256 * 2 ^ 56). rewrite Zmult_mod_distr_r. done.
Qed.

(** ** Properties *)

Lemma siphash24_spec key msg : length key = 16%nat -> bytes key -> bytes msg ->
  siphash24 key msg (Z.of_nat (length msg)) = Some (siphash_spec key msg).
Proof.
  intros Hk Hkb Hmb. set (n := (length msg / 8)%nat). unfold siphash24.
  pose proof (Nat.div_mod_eq (length msg) 8) as Hdm. fold n in Hdm.
  pose proof (Nat.mod_upper_bound (length msg) 8 ltac:(lia)).
  change 0 with (Z.of_nat 0). change (load_le64 key 8) with (load_le64 key (Z.of_nat 8)).
  rewrite (load_le64_spec key 0), option_bind_Some_fun by (done || lia).
  rewrite (load_le64_spec key 8), option_bind_Some_fun by (done || lia).
  rewrite drop_0, (take_ge (drop 8 key)) by (rewrite length_drop; lia).
  assert (Z.to_nat (Z.of_nat (length msg) / 8) = n) as ->
    by (change 8 with (Z.of_nat 8); rewrite <- Nat2Z.inj_div; apply Nat2Z.id).
  replace (Z.of_nat (length msg)) with (Z.of_nat (length msg - 0)) at 1 by lia.
  rewrite (sip_words_spec n msg 0), option_bind_Some_fun by (done || lia).
  rewrite u64_shiftl_56, Nat2Z.id, !Nat.add_0_l by lia.
  pose proof (sip_last_spec (length msg - 8 * n) msg (8 * n) 0 (Z.of_nat (length msg) mod 256) Hmb)
    as Hlast. rewrite take_0, Nat.add_0_l in Hlast. cbn [le_val] in Hlast.
  rewrite Z.add_0_r in Hlast.
  rewrite Hlast, option_bind_Some_fun by (try lia; by apply Z.mod_pos_bound).
  rewrite (take_ge (drop (8 * n) msg)) by (rewrite length_drop; lia).
  rewrite <- sip_pad_last. rewrite drop_0.
  unfold siphash_spec. fold n. rewrite le_words_snoc, fold_left_app. cbn [fold_left].
  assert (le_words n (sip_pad msg) = le_words n msg) as -> by (apply le_words_app; lia). fold (sip_init (le_val (take 8 key)) (le_val (drop 8 key))).
  destruct (sip_compress _ _) as [a b c d]. unfold sip_finish. cbn [Nat.iter nat_rect].
  by destruct (sip_round _).
Qed.

(** The test vector of the SipHash paper. *)
(** C29: [siphash24] of siphash.c never reads outside its key and its message
    and computes SipHash-2-4: the compression of the message padded with zeros
    and its length, eight bytes at a time in little-endian order, then the
    finalisation. *)
Theorem siphash24_correct key msg : length key = 16%nat -> bytes key -> bytes msg ->
  siphash24 key msg (Z.of_nat (length msg)) = Some (siphash_spec key msg).
Proof. apply siphash24_spec. Qed.

Lemma siphash24_correct_witness :
  siphash24 (Z.of_nat <$> seq 0 16) (Z.of_nat <$> seq 0 15) 15 = Some 0xa129ca6149be45e5.
Proof.
  assert (15 = Z.of_nat (length (Z.of_nat <$> seq 0 15))) as -> by reflexivity.
  rewrite (siphash24_correct (Z.of_nat <$> seq 0 16) (Z.of_nat <$> seq 0 15)).
  - vm_compute. reflexivity.
  - reflexivity.
  - by apply bytes_check.
  - by apply bytes_check.
Defined.
