(* ===== verification/Netbuf.v ===== *)
(** * Packet buffers: drivers/net/core/netbuf.c

    A packet is a chain of buffers.  Each buffer owns its storage ([nb_buf], of
    [buf_size] bytes) and shows a window of it, [nb_len] bytes from offset
    [nb_data] (the pointer [data] less [buf]).  A chain is the list of the
    buffers met by following [next]; the null pointer is the empty list.
    Copies go through [slice] and [splice], so that an access outside a
    buffer's storage is a fault ([None]), as is a null pointer dereference.
    Buffers are values: freeing one is dropping it, and what an operation
    returns is all its caller may use afterwards.  [malloc] answers come from
    an oracle; the bytes of a fresh buffer are whatever [fresh_bytes] gives. *)

From stdpp Require Import base list option.
From Stdlib Require Import ZArith Lia.
From S2P Require Import Prelude Bytes.
Open Scope Z_scope.

Definition NETBUF_SIZE : Z := 256.
Definition NETBUF_CLUSTER_SIZE : Z := 2048.
Definition NETBUF_HEADROOM : Z := 64.

Definition NETBUF_PKTHDR : Z := 0x0001.
Definition NETBUF_EXT : Z := 0x0002.
Definition NETBUF_BCAST : Z := 0x0004.
Definition NETBUF_MCAST : Z := 0x0008.

Record netbuf := Netbuf {
  nb_buf : list Z;
  nb_data : Z;
  nb_len : Z;
  nb_flags : Z;
  nb_next_pkt : Z;
  nb_pkt_len : Z;
  nb_rcvif : Z;
  nb_csum_flags : Z;
  nb_l3_offset : Z;
  nb_l4_offset : Z;
}.

Definition nb_buf_size (b : netbuf) : Z := Z.of_nat (length (nb_buf b)).

Definition set_window (data len : Z) (b : netbuf) : netbuf :=
  Netbuf (nb_buf b) data len (nb_flags b) (nb_next_pkt b) (nb_pkt_len b) (nb_rcvif b)
    (nb_csum_flags b) (nb_l3_offset b) (nb_l4_offset b).
Definition set_buf (buf : list Z) (b : netbuf) : netbuf :=
  Netbuf buf (nb_data b) (nb_len b) (nb_flags b) (nb_next_pkt b) (nb_pkt_len b) (nb_rcvif b)
    (nb_csum_flags b) (nb_l3_offset b) (nb_l4_offset b).
Definition set_flags (flags : Z) (b : netbuf) : netbuf :=
  Netbuf (nb_buf b) (nb_data b) (nb_len b) flags (nb_next_pkt b) (nb_pkt_len b) (nb_rcvif b)
    (nb_csum_flags b) (nb_l3_offset b) (nb_l4_offset b).
Definition set_next_pkt (p : Z) (b : netbuf) : netbuf :=
  Netbuf (nb_buf b) (nb_data b) (nb_len b) (nb_flags b) p (nb_pkt_len b) (nb_rcvif b)
    (nb_csum_flags b) (nb_l3_offset b) (nb_l4_offset b).
Definition set_pkt_len (n : Z) (b : netbuf) : netbuf :=
  Netbuf (nb_buf b) (nb_data b) (nb_len b) (nb_flags b) (nb_next_pkt b) n (nb_rcvif b)
    (nb_csum_flags b) (nb_l3_offset b) (nb_l4_offset b).
Definition set_rcvif (r : Z) (b : netbuf) : netbuf :=
  Netbuf (nb_buf b) (nb_data b) (nb_len b) (nb_flags b) (nb_next_pkt b) (nb_pkt_len b) r
    (nb_csum_flags b) (nb_l3_offset b) (nb_l4_offset b).
Definition set_csum (c l3 l4 : Z) (b : netbuf) : netbuf :=
  Netbuf (nb_buf b) (nb_data b) (nb_len b) (nb_flags b) (nb_next_pkt b) (nb_pkt_len b) (nb_rcvif b)
    c l3 l4.

(** An update of the first buffer of a chain. *)
Definition on_head (f : netbuf -> netbuf) (nb : list netbuf) : list netbuf :=
  match nb with [] => [] | b :: rest => f b :: rest end.

(** The storage [malloc] hands out: its size is known, its contents are not. *)
Class FreshStorage := {
  fresh_bytes : Z -> list Z;
  fresh_bytes_length n : 0 <= n -> Z.of_nat (length (fresh_bytes n)) = n;
}.

Section netbuf.
Context `{HFS : !FreshStorage}.

(** ** Allocation *)

Definition netbuf_setup (size : Z) (pkthdr : bool) : netbuf :=
  Netbuf (fresh_bytes size) (if pkthdr then NETBUF_HEADROOM else 0) 0
    (if pkthdr then NETBUF_PKTHDR else 0) 0 0 0 0 0 0.

Definition netbuf_alloc_sized (size : Z) (pkthdr : bool) (o : oracle) : option netbuf * oracle :=
  let '(ok, o) := ask o in
  if negb ok then (None, o) else (Some (netbuf_setup size pkthdr), o).

Definition netbuf_alloc := netbuf_alloc_sized NETBUF_SIZE.
Definition netbuf_alloc_cluster := netbuf_alloc_sized NETBUF_CLUSTER_SIZE.

Definition netbuf_alloc_fit (len : Z) (pkthdr : bool) (o : oracle) : option netbuf * oracle :=
  if len <=? NETBUF_SIZE then netbuf_alloc pkthdr o else netbuf_alloc_cluster pkthdr o.

(** The loop that adds clusters until there is room for [len]: the clusters,
    or [None] for an allocation that failed; out of fuel is a fault. *)
Fixpoint alloc_clusters (fuel : nat) (room len : Z) (o : oracle)
  : option (option (list netbuf) * oracle) :=
  if room <? len then
    match fuel with
    | O => None
    | S fuel' =>
        match netbuf_alloc_cluster false o with
        | (None, o) => Some (None, o)
        | (Some nb, o) =>
            '(more, o) ← alloc_clusters fuel' (u64 (room + nb_buf_size nb)) len o;
            Some (option_map (cons nb) more, o)
        end
    end
  else Some (Some [], o).

Definition netbuf_alloc_packet (len : Z) (o : oracle) : option (list netbuf * oracle) :=
  let small := u64 (len + NETBUF_HEADROOM) <=? NETBUF_SIZE in
  match (if small then netbuf_alloc true o else netbuf_alloc_cluster true o) with
  | (None, o) => Some ([], o)
  | (Some head, o) =>
      '(more, o) ← alloc_clusters (S (Z.to_nat (len / NETBUF_CLUSTER_SIZE)))
                     (nb_buf_size head - NETBUF_HEADROOM) len o;
      Some (match more with Some rest => head :: rest | None => [] end, o)
  end.

(** ** Headers *)

Definition netbuf_trailing_space (b : netbuf) : Z :=
  u64 (nb_buf_size b - (nb_data b + nb_len b)).

(** [to] takes over the packet header of [from]; returns both. *)
Definition netbuf_move_pkthdr (to from : netbuf) : netbuf * netbuf :=
  (Netbuf (nb_buf to) (nb_data to) (nb_len to)
     (Z.lor (Z.lor (Z.land (nb_flags to) NETBUF_EXT) (nb_flags from &~ NETBUF_EXT)%hermes)
        NETBUF_PKTHDR)
     (nb_next_pkt from) (nb_pkt_len from) (nb_rcvif from) (nb_csum_flags from)
     (nb_l3_offset from) (nb_l4_offset from),
   set_next_pkt 0 (set_flags (nb_flags from &~ NETBUF_PKTHDR)%hermes from)).

Definition netbuf_prepend (nb : list netbuf) (len : Z) (o : oracle)
  : option (list netbuf * oracle) :=
  match nb with
  | [] => None
  | b :: rest =>
      if nb_data b >=? len then
        Some (set_pkt_len (u64 (nb_pkt_len b + len))
                (set_window (nb_data b - len) (nb_len b + len) b) :: rest, o)
      else
        let '(head, o) := if len <=? NETBUF_CLUSTER_SIZE then netbuf_alloc_fit len false o
                          else (None, o) in
        match head with
        | None => Some ([], o)
        | Some head =>
            let '(head, b) := netbuf_move_pkthdr head b in
            let head := set_window (nb_buf_size head - len) len head in
            let head := set_pkt_len (u64 (nb_pkt_len head + len)) head in
            Some (head :: b :: rest, o)
        end
  end.

(** ** Trimming *)

(** The loop of [netbuf_adj] from the front: the chain and what is left. *)
Fixpoint adj_front (nb : list netbuf) (left_ : Z) : list netbuf * Z :=
  match nb with
  | [] => ([], left_)
  | b :: rest =>
      if left_ =? 0 then (nb, left_)
      else
        let n := if left_ <? nb_len b then left_ else nb_len b in
        let '(rest, left_) := adj_front rest (left_ - n) in
        (set_window (nb_data b + n) (nb_len b - n) b :: rest, left_)
  end.

Fixpoint chain_total (nb : list netbuf) (total : Z) : Z :=
  match nb with [] => total | b :: rest => chain_total rest (u64 (total + nb_len b)) end.

(** The loop that finds the last buffer to keep; what follows it is freed. *)
Fixpoint adj_back (nb : list netbuf) (keep : Z) : list netbuf :=
  match nb with
  | [] => []
  | b :: rest =>
      if (nb_len b >=? keep) || (match rest with [] => true | _ => false end) then
        [set_window (nb_data b) (if keep <? nb_len b then keep else nb_len b) b]
      else b :: adj_back rest (keep - nb_len b)
  end.

Definition netbuf_adj (nb : list netbuf) (len : Z) : option (list netbuf) :=
  match nb with
  | [] => None
  | _ :: _ =>
      if len >=? 0 then
        let '(nb, left_) := adj_front nb len in
        Some (on_head (fun b => set_pkt_len (u64 (nb_pkt_len b - (len - left_))) b) nb)
      else
        let total := chain_total nb 0 in
        let trim := - len in
        let keep := if trim <? total then total - trim else 0 in
        Some (on_head (set_pkt_len (total - (if trim <? total then trim else total)))
                (adj_back nb keep))
  end.

(** ** Making the front contiguous *)

(** The loop that moves bytes from the following buffers into the head. *)
Fixpoint pullup_loop (fuel : nat) (head : netbuf) (rest : list netbuf) (len : Z)
  : option (list netbuf) :=
  if nb_len head <? len then
    match fuel, rest with
    | S fuel', r :: rest' =>
        let want := len - nb_len head in
        let n := if want <? nb_len r then want else nb_len r in
        src ← slice (nb_buf r) (nb_data r) n;
        buf ← splice (nb_buf head) (nb_data head + nb_len head) src;
        let head := set_window (nb_data head) (nb_len head + n) (set_buf buf head) in
        let r := set_window (nb_data r + n) (nb_len r - n) r in
        pullup_loop fuel' head (if nb_len r =? 0 then rest' else r :: rest') len
    | _, _ => None
    end
  else Some (head :: rest).

Definition netbuf_pullup (nb : list netbuf) (len : Z) (o : oracle)
  : option (list netbuf * oracle) :=
  match nb with
  | [] => None
  | b :: rest =>
      if nb_len b >=? len then Some (nb, o)
      else if (len >? NETBUF_CLUSTER_SIZE) || (nb_pkt_len b <? len) then Some ([], o)
      else if nb_buf_size b - nb_data b <? len then
        match netbuf_alloc_fit len false o with
        | (None, o) => Some ([], o)
        | (Some head, o) =>
            let '(head, b) := netbuf_move_pkthdr head b in
            src ← slice (nb_buf b) (nb_data b) (nb_len b);
            buf ← splice (nb_buf head) (nb_data head) src;
            let head := set_window (nb_data head) (nb_len b) (set_buf buf head) in
            nb ← pullup_loop (S (length rest)) head rest len;
            Some (nb, o)
        end
      else
        nb ← pullup_loop (S (length rest)) b rest len;
        Some (nb, o)
  end.

(** ** Appending *)

(** The loop that puts what is left of the data into new clusters: the clusters
    and the data not placed when an allocation fails. *)
Fixpoint append_clusters (fuel : nat) (src : list Z) (o : oracle)
  : option (list netbuf * list Z * oracle) :=
  match src with
  | [] => Some ([], [], o)
  | _ :: _ =>
      match fuel with
      | O => None
      | S fuel' =>
          match netbuf_alloc_cluster false o with
          | (None, o) => Some ([], src, o)
          | (Some b, o) =>
              let n := Z.to_nat (Z.min (netbuf_trailing_space b) (Z.of_nat (length src))) in
              buf ← splice (nb_buf b) (nb_data b) (take n src);
              let b := set_window (nb_data b) (Z.of_nat n) (set_buf buf b) in
              '(more, src, o) ← append_clusters fuel' (drop n src) o;
              Some (b :: more, src, o)
          end
      end
  end.

(** Walks to the last buffer, fills it, and adds clusters behind it. *)
Fixpoint append_last (nb : list netbuf) (src : list Z) (o : oracle)
  : option (list netbuf * list Z * oracle) :=
  match nb with
  | [] => None
  | b :: rest =>
      match rest with
      | [] =>
          let n := Z.to_nat (Z.min (netbuf_trailing_space b) (Z.of_nat (length src))) in
          buf ← splice (nb_buf b) (nb_data b + nb_len b) (take n src);
          let b := set_window (nb_data b) (nb_len b + Z.of_nat n) (set_buf buf b) in
          '(more, src, o) ← append_clusters (length src) (drop n src) o;
          Some (b :: more, src, o)
      | _ :: _ =>
          '(rest, src, o) ← append_last rest src o;
          Some (b :: rest, src, o)
      end
  end.

Definition netbuf_append (nb : list netbuf) (data : list Z) (o : oracle)
  : option (bool * list netbuf * oracle) :=
  '(nb, left_, o) ← append_last nb data o;
  let placed := Z.of_nat (length data) - Z.of_nat (length left_) in
  let nb := on_head (fun b => if (nb_flags b &? NETBUF_PKTHDR)%hermes
                              then set_pkt_len (u64 (nb_pkt_len b + placed)) b else b) nb in
  Some (Z.of_nat (length left_) =? 0, nb, o).

(** ** Copying out and in *)

Fixpoint copydata_skip (nb : list netbuf) (offset : Z) : list netbuf * Z :=
  match nb with
  | [] => ([], offset)
  | b :: rest =>
      if (offset >=? nb_len b) && negb (offset =? 0)
      then copydata_skip rest (offset - nb_len b) else (nb, offset)
  end.

Fixpoint copydata_loop (nb : list netbuf) (offset len : Z) : option (list Z) :=
  match nb with
  | [] => Some []
  | b :: rest =>
      if len =? 0 then Some []
      else
        let avail := u64 (nb_len b - offset) in
        let n := if len <? avail then len else avail in
        src ← slice (nb_buf b) (nb_data b + offset) n;
        out ← copydata_loop rest 0 (len - n);
        Some (src ++ out)
  end.

(** The bytes written to [out]. *)
Definition netbuf_copydata (nb : list netbuf) (offset len : Z) : option (list Z) :=
  let '(nb, offset) := copydata_skip nb offset in copydata_loop nb offset len.

(** Writes into the existing buffers; the data that did not fit is left. *)
Fixpoint copyback_loop (nb : list netbuf) (offset : Z) (src : list Z)
  : option (list netbuf * list Z) :=
  match nb with
  | [] => Some ([], src)
  | b :: rest =>
      match src with
      | [] => Some (nb, [])
      | _ :: _ =>
          let avail := nb_len b - offset in
          let n := Z.to_nat (Z.min avail (Z.of_nat (length src))) in
          buf ← splice (nb_buf b) (nb_data b + offset) (take n src);
          '(rest, src) ← copyback_loop rest 0 (drop n src);
          Some (set_buf buf b :: rest, src)
      end
  end.

(** [None] in the middle: the offset is beyond the end. *)
Fixpoint copyback_at (nb : list netbuf) (offset : Z) (src : list Z)
  : option (option (list netbuf * list Z)) :=
  match nb with
  | [] => Some None
  | b :: rest =>
      if offset >? nb_len b then
        r ← copyback_at rest (offset - nb_len b) src;
        Some (option_map (prod_map (cons b) id) r)
      else r ← copyback_loop nb offset src; Some (Some r)
  end.

Definition netbuf_copyback (nb : list netbuf) (offset : Z) (data : list Z) (o : oracle)
  : option (bool * list netbuf * oracle) :=
  r ← copyback_at nb offset data;
  match r with
  | None => Some (false, nb, o)
  | Some (nb, left_) =>
      if Z.of_nat (length left_) =? 0 then Some (true, nb, o) else netbuf_append nb left_ o
  end.

(** ** Copying, splitting and joining packets *)

Fixpoint dup_loop (nb copy : list netbuf) (o : oracle) : option (list netbuf * oracle) :=
  match nb with
  | [] => Some (copy, o)
  | b :: rest =>
      src ← slice (nb_buf b) (nb_data b) (nb_len b);
      '(ok, copy, o) ← netbuf_append copy src o;
      if negb ok then Some ([], o) else dup_loop rest copy o
  end.

Definition netbuf_dup (nb : list netbuf) (o : oracle) : option (list netbuf * oracle) :=
  match nb with
  | [] => None
  | b :: _ =>
      match netbuf_alloc_fit (u64 (nb_pkt_len b + NETBUF_HEADROOM)) true o with
      | (None, o) => Some ([], o)
      | (Some copy, o) =>
          '(copy, o) ← dup_loop nb [copy] o;
          Some (on_head (fun c =>
                  set_csum (nb_csum_flags b) (nb_l3_offset b) (nb_l4_offset b)
                    (set_rcvif (nb_rcvif b)
                       (set_flags (Z.lor (nb_flags c) (nb_flags b &~ NETBUF_EXT)%hermes) c))) copy, o)
      end
  end.

(** The buffer that holds byte [k], what comes before and after it, and the
    offset in it. *)
Fixpoint split_at (nb : list netbuf) (k : Z) : option (list netbuf * netbuf * list netbuf * Z) :=
  match nb with
  | [] => None
  | b :: rest =>
      if k >? nb_len b then
        '(pre, c, post, k) ← split_at rest (k - nb_len b);
        Some (b :: pre, c, post, k)
      else Some ([], b, rest, k)
  end.

(** The head and the new packet; the empty list when there is none. *)
Definition netbuf_split (nb : list netbuf) (offset : Z) (o : oracle)
  : option (list netbuf * list netbuf * oracle) :=
  match nb with
  | [] => None
  | h :: _ =>
      let total := nb_pkt_len h in
      if offset >? total then Some (nb, [], o)
      else
        '(pre, b, post, k) ← split_at nb offset;
        match netbuf_alloc_fit (u64 (nb_len b - k + NETBUF_HEADROOM)) true o with
        | (None, o) => Some (nb, [], o)
        | (Some tail, o) =>
            src ← slice (nb_buf b) (nb_data b + k) (nb_len b - k);
            '(ok, tail, o) ← netbuf_append [tail] src o;
            if negb ok then Some (nb, [], o)
            else
              let nb := pre ++ [set_window (nb_data b) k b] in
              let tail := on_head (fun t => set_pkt_len (total - offset)
                                     (set_rcvif (nb_rcvif h) t)) (tail ++ post) in
              Some (on_head (set_pkt_len offset) nb, tail, o)
        end
  end.

End netbuf.

Definition netbuf_cat (nb tail : list netbuf) : list netbuf :=
  nb ++ on_head (fun t => set_next_pkt 0 (set_flags (nb_flags t &~ NETBUF_PKTHDR)%hermes t)) tail.
