(* ===== verification/NetbufFacts.v ===== *)
(** * Packet buffers: what the operations do to the bytes of a packet

    [content nb] is the byte string a chain carries.  Every operation of
    netbuf.c is characterised by what it does to it, on every branch. *)

From stdpp Require Import base list option.
From Stdlib Require Import ZArith Lia.
From S2P Require Import Prelude Bytes Netbuf.
Open Scope Z_scope.

(** The window lies inside the storage. *)
Record nb_wf (b : netbuf) : Prop := {
  nw_data : 0 <= nb_data b;
  nw_len : 0 <= nb_len b;
  nw_end : nb_data b + nb_len b <= nb_buf_size b;
  nw_size : nb_buf_size b < 2 ^ 32;
}.

Definition payload (b : netbuf) : list Z :=
  take (Z.to_nat (nb_len b)) (drop (Z.to_nat (nb_data b)) (nb_buf b)).

Definition content (nb : list netbuf) : list Z := flat_map payload nb.
Definition content_len (nb : list netbuf) : Z := Z.of_nat (length (content nb)).

Record chain_wf (nb : list netbuf) : Prop := {
  cw_bufs : Forall nb_wf nb;
  cw_len : content_len nb < 2 ^ 63;
}.

(** A packet: a chain whose first buffer carries a header with the right
    length. *)
Record packet_ok (nb : list netbuf) : Prop := {
  pk_wf : chain_wf nb;
  pk_head : exists b rest, nb = b :: rest /\ nb_pkt_len b = content_len nb /\
    (nb_flags b &? NETBUF_PKTHDR)%hermes = true;
}.

Lemma payload_length b : nb_wf b -> Z.of_nat (length (payload b)) = nb_len b.
Proof.
  intros [? ? ? _]. unfold payload, nb_buf_size in *. rewrite length_take, length_drop. lia.
Qed.

Lemma content_cons b nb : content (b :: nb) = payload b ++ content nb.
Proof. done. Qed.

Lemma content_app xs ys : content (xs ++ ys) = content xs ++ content ys.
Proof. apply flat_map_app. Qed.

Lemma content_len_cons b nb : nb_wf b -> content_len (b :: nb) = nb_len b + content_len nb.
Proof.
  intros Hb. unfold content_len. rewrite content_cons, length_app, Nat2Z.inj_add.
  by rewrite payload_length.
Qed.

Lemma content_len_nonneg nb : 0 <= content_len nb.
Proof. unfold content_len. lia. Qed.

Lemma chain_wf_cons b nb : chain_wf (b :: nb) -> nb_wf b /\ chain_wf nb.
Proof.
  intros [[Hb Hnb]%Forall_cons_iff Hl]. rewrite content_len_cons in Hl by done.
  pose proof (nw_len _ Hb). split; [done |]. split; [done | lia].
Qed.

(** Any change of fields other than the window and the storage. *)
Lemma payload_ext b b' : nb_buf b' = nb_buf b -> nb_data b' = nb_data b -> nb_len b' = nb_len b ->
  payload b' = payload b.
Proof. unfold payload. by intros -> -> ->. Qed.

Lemma nb_wf_ext b b' : nb_buf b' = nb_buf b -> nb_data b' = nb_data b -> nb_len b' = nb_len b ->
  nb_wf b -> nb_wf b'.
Proof. unfold nb_buf_size. intros Hb Hd Hl [? ? H ?]. unfold nb_buf_size in *. by split; unfold nb_buf_size; rewrite ?Hb, ?Hd, ?Hl. Qed.

Lemma window_drop b n : nb_wf b -> 0 <= n <= nb_len b ->
  let b' := set_window (nb_data b + n) (nb_len b - n) b in
  nb_wf b' /\ payload b' = drop (Z.to_nat n) (payload b).
Proof.
  intros [? ? ? ?] Hn. split; [split; unfold nb_buf_size in *; simpl; lia |].
  unfold payload. simpl. rewrite skipn_firstn_comm, drop_drop. f_equal; [lia |].
  f_equal. lia.
Qed.

Lemma window_take b n : nb_wf b -> 0 <= n <= nb_len b ->
  let b' := set_window (nb_data b) n b in
  nb_wf b' /\ payload b' = take (Z.to_nat n) (payload b).
Proof.
  intros [? ? ? ?] Hn. split; [split; unfold nb_buf_size in *; simpl; lia |].
  unfold payload. simpl. rewrite take_take. f_equal. lia.
Qed.

Lemma slice_payload b off n : nb_wf b -> 0 <= off -> 0 <= n -> off + n <= nb_len b ->
  slice (nb_buf b) (nb_data b + off) n = Some (take (Z.to_nat n) (drop (Z.to_nat off) (payload b))).
Proof.
  intros [? ? ? ?] Ho Hn Hle. rewrite slice_Some by (unfold nb_buf_size in *; lia).
  unfold payload. rewrite Z2Nat.inj_add, <- drop_drop by lia.
  by rewrite skipn_firstn_comm, take_take, Nat.min_l by lia.
Qed.

Lemma slice_whole b : nb_wf b -> slice (nb_buf b) (nb_data b) (nb_len b) = Some (payload b).
Proof.
  intros Hb. pose proof (nw_len _ Hb). pose proof (payload_length b Hb).
  rewrite <- (Z.add_0_r (nb_data b)), slice_payload, drop_0, take_ge by (done || lia). done.
Qed.

(** Writing behind the window and extending it appends to the payload. *)
Lemma splice_append b src : nb_wf b ->
  nb_data b + nb_len b + Z.of_nat (length src) <= nb_buf_size b ->
  exists buf, splice (nb_buf b) (nb_data b + nb_len b) src = Some buf /\
    let b' := set_window (nb_data b) (nb_len b + Z.of_nat (length src)) (set_buf buf b) in
    nb_wf b' /\ payload b' = payload b ++ src /\ nb_buf_size b' = nb_buf_size b.
Proof.
  intros [? ? ? ?] Hfit. unfold nb_buf_size in *.
  eexists. split; [apply splice_Some; lia |]. simpl. split.
  - split; simpl; unfold nb_buf_size; simpl; try lia; rewrite !length_app, length_take, length_drop; lia.
  - split; [| unfold nb_buf_size; simpl; rewrite !length_app, length_take, length_drop; lia].
    unfold payload. simpl. rewrite drop_app_le by (rewrite length_take; lia).
    rewrite app_assoc, take_app_le
      by (rewrite length_app, length_drop, length_take; lia).
    rewrite take_ge by (rewrite length_app, length_drop, length_take; lia).
    f_equal. rewrite skipn_firstn_comm. f_equal. lia.
Qed.

(** Writing inside the window. *)
Lemma splice_within b off src : nb_wf b -> 0 <= off ->
  off + Z.of_nat (length src) <= nb_len b ->
  exists buf, splice (nb_buf b) (nb_data b + off) src = Some buf /\
    nb_wf (set_buf buf b) /\
    payload (set_buf buf b) =
      take (Z.to_nat off) (payload b) ++ src ++ drop (Z.to_nat off + length src) (payload b).
Proof.
  intros [? ? ? ?] Ho Hfit. unfold nb_buf_size in *.
  eexists. split; [apply splice_Some; lia |]. split.
  - split; simpl; unfold nb_buf_size; simpl; try lia; rewrite !length_app, length_take, length_drop; lia.
  - unfold payload. simpl. set (d := Z.to_nat (nb_data b)). set (l := Z.to_nat (nb_len b)).
    replace (Z.to_nat (nb_data b + off)) with (d + Z.to_nat off)%nat by lia.
    rewrite drop_app_le by (rewrite length_take; lia).
    rewrite skipn_firstn_comm. replace (d + Z.to_nat off - d)%nat with (Z.to_nat off) by lia.
    rewrite take_take, Nat.min_l by lia.
    rewrite skipn_firstn_comm, drop_drop.
    rewrite take_app_ge by (rewrite length_take, length_drop; lia). f_equal.
    rewrite length_take, length_drop, Nat.min_l by lia.
    rewrite take_app_ge by lia. f_equal. f_equal; [lia |]. f_equal. lia.
Qed.

(** The fields of the packet header. *)
Definition nb_hdr (b : netbuf) :=
  (nb_flags b, nb_next_pkt b, nb_pkt_len b, nb_rcvif b, (nb_csum_flags b, nb_l3_offset b, nb_l4_offset b)).

(** ** Trimming *)

Lemma adj_front_spec nb left_ : Forall nb_wf nb -> 0 <= left_ ->
  let '(nb', left') := adj_front nb left_ in
  Forall nb_wf nb' /\ content nb' = drop (Z.to_nat left_) (content nb) /\
  left' = left_ - Z.min left_ (content_len nb) /\ map nb_hdr nb' = map nb_hdr nb.
Proof.
  intros Hnb. revert left_. induction Hnb as [| b nb Hb Hnb IH]; intros left_ Hl; cbn [adj_front].
  { unfold content_len, content. simpl. rewrite drop_nil.
    split; [constructor |]. repeat split. lia. }
  rewrite content_len_cons, content_cons by done.
  pose proof (nw_len _ Hb). pose proof (content_len_nonneg nb).
  destruct (Z.eqb_spec left_ 0) as [-> | Hne].
  { rewrite drop_0. split; [by constructor |]. repeat split. lia. }
  set (n := if left_ <? nb_len b then left_ else nb_len b).
  assert (n = Z.min left_ (nb_len b)) as Hn by (unfold n; zcase; lia).
  specialize (IH (left_ - n)). destruct (adj_front nb (left_ - n)) as [nb' left'].
  destruct IH as (Hwf & Hc & Hlf & Hh); [lia |].
  destruct (window_drop b n Hb ltac:(lia)) as [Hb' Hp]. pose proof (payload_length b Hb).
  split; [by constructor |]. split; [| split; [lia | cbn [map]; by rewrite Hh]].
  rewrite content_cons, Hp, Hc. destruct (Z_lt_ge_dec left_ (nb_len b)).
  - replace n with left_ by lia. rewrite Z.sub_diag, drop_0.
    by rewrite drop_app_le by lia.
  - replace n with (nb_len b) by lia.
    rewrite drop_ge, app_nil_l by lia. rewrite drop_app_ge by lia. f_equal. lia.
Qed.

Lemma chain_total_spec nb acc : Forall nb_wf nb -> 0 <= acc -> acc + content_len nb < 2 ^ 64 ->
  chain_total nb acc = acc + content_len nb.
Proof.
  intros Hnb. revert acc. induction Hnb as [| b nb Hb Hnb IH]; intros acc Ha Hlt; cbn [chain_total].
  - unfold content_len. simpl. lia.
  - rewrite content_len_cons in * by done. pose proof (nw_len _ Hb).
    pose proof (content_len_nonneg nb). rewrite u64_small, IH by lia. lia.
Qed.

Lemma adj_back_spec nb keep : Forall nb_wf nb -> nb <> [] -> 0 <= keep <= content_len nb ->
  Forall nb_wf (adj_back nb keep) /\ content (adj_back nb keep) = take (Z.to_nat keep) (content nb) /\
  nb_hdr <$> head (adj_back nb keep) = nb_hdr <$> head nb.
Proof.
  intros Hnb. revert keep. induction Hnb as [| b nb Hb Hnb IH]; intros keep Hne Hk; [done |].
  cbn [adj_back]. rewrite content_len_cons in Hk by done. rewrite content_cons.
  pose proof (payload_length b Hb).
  rewrite Z.geb_leb. destruct (Z.leb_spec keep (nb_len b)); cbn [orb].
  - assert ((if keep <? nb_len b then keep else nb_len b) = keep) as -> by (zcase; lia).
    destruct (window_take b keep Hb ltac:(lia)) as [Hb' Hp].
    split; [by apply Forall_singleton |]. split; [| done].
    rewrite content_cons, Hp. simpl. rewrite app_nil_r. by rewrite take_app_le by lia.
  - destruct nb as [| c nb]; [unfold content_len in Hk; simpl in Hk; lia |].
    destruct (IH (keep - nb_len b)) as (Hwf & Hc & _); [done | lia |].
    split; [by constructor |]. split; [| done].
    rewrite content_cons, Hc, take_app_ge by lia. do 2 f_equal. lia.
Qed.

Lemma content_on_head f nb : (forall b, payload (f b) = payload b) -> content (on_head f nb) = content nb.
Proof. intros Hf. destruct nb; [done |]. simpl. by rewrite Hf. Qed.

Lemma wf_on_head f nb : (forall b, nb_wf b -> nb_wf (f b)) -> Forall nb_wf nb -> Forall nb_wf (on_head f nb).
Proof. intros Hf [| b nb' Hb Hnb]; constructor; auto. Qed.

Lemma set_pkt_len_wf n b : nb_wf b -> nb_wf (set_pkt_len n b).
Proof. by apply nb_wf_ext. Qed.

(** Setting the length of a chain whose head has a packet header. *)
Lemma packet_set_len nb n : chain_wf nb -> n = content_len nb ->
  (exists b, head nb = Some b /\ (nb_flags b &? NETBUF_PKTHDR)%hermes = true) ->
  packet_ok (on_head (set_pkt_len n) nb).
Proof.
  intros [Hb Hl] -> (b & Hh & Hf). destruct nb as [| b' rest]; [done |]. injection Hh as ->.
  split.
  - split; [apply wf_on_head; [apply set_pkt_len_wf | done] | done].
  - eexists _, _. split; [reflexivity |]. done.
Qed.

Lemma packet_nonempty nb : packet_ok nb -> exists b rest, nb = b :: rest /\ nb_wf b /\ chain_wf rest.
Proof.
  intros [Hwf (b & rest & -> & _)]. destruct (chain_wf_cons _ _ Hwf). eauto.
Qed.

Lemma netbuf_adj_spec nb len : packet_ok nb -> - 2 ^ 63 <= len < 2 ^ 63 ->
  exists nb', netbuf_adj nb len = Some nb' /\ packet_ok nb' /\
    content nb' = if len >=? 0 then drop (Z.to_nat len) (content nb)
                  else take (Z.to_nat (content_len nb + len)) (content nb).
Proof.
  intros [[Hbufs Hlen] (b & rest & -> & Hpl & Hfl)] Hr. unfold netbuf_adj.
  rewrite Z.geb_leb. destruct (Z.leb_spec 0 len) as [Hpos | Hneg].
  - pose proof (adj_front_spec _ len Hbufs Hpos) as Hadj.
    destruct (adj_front (b :: rest) len) as [nb' left']. destruct Hadj as (Hwf & Hc & -> & Hh).
    destruct nb' as [| b' rest']; [done |]. injection Hh as Hff ? Hp ? ? ? ? ?.
    pose proof (content_len_nonneg (b :: rest)).
    eexists. split; [reflexivity |]. cbn [on_head].
    assert (content_len (b' :: rest') = content_len (b :: rest) - Z.min len (content_len (b :: rest))) as Hcl.
    { unfold content_len in *. rewrite Hc, length_drop. lia. }
    split; [| done].
    rewrite u64_small by (rewrite Hp, Hpl; lia).
    apply (packet_set_len (b' :: rest')).
    + split; [done |]. lia.
    + rewrite Hp, Hpl. lia.
    + exists b'. split; [done |]. by rewrite Hff.
  - rewrite chain_total_spec by (done || lia). rewrite Z.add_0_l.
    pose proof (content_len_nonneg (b :: rest)). set (T := content_len (b :: rest)) in *.
    set (keep := if - len <? T then T - - len else 0).
    assert (keep = Z.max 0 (T + len)) as Hk by (unfold keep; zcase; lia).
    destruct (adj_back_spec (b :: rest) keep Hbufs) as (Hwf & Hc & Hh); [done | fold T; lia |].
    assert (content_len (adj_back (b :: rest) keep) = keep) as Hcl.
    { unfold content_len. rewrite Hc, length_take. unfold T, content_len in *. lia. }
    eexists. split; [reflexivity |]. split.
    + apply packet_set_len.
      * split; [done |]. lia.
      * rewrite Hcl. zcase; lia.
      * destruct (adj_back (b :: rest) keep) as [| b' ?]; [done |]. injection Hh as Hff ? ? ? ? ? ?.
        exists b'. split; [done |]. by rewrite Hff.
    + etransitivity; [by apply content_on_head |]. rewrite Hc. f_equal. lia.
Qed.

Section with_storage.
Context `{HFS : !FreshStorage}.

(** ** Fresh buffers *)

(** Some allocation between the two states of the oracle was refused. *)
Definition refused (o o' : oracle) : Prop := exists p, o = p ++ o' /\ (false ∈ p \/ o' = []).

Lemma refused_trans o o1 o2 p : o = p ++ o1 -> refused o1 o2 -> refused o o2.
Proof.
  intros -> (q & -> & H). exists (p ++ q). rewrite app_assoc. split; [done |].
  destruct H as [H | ->]; [left; apply elem_of_app; by right | by right].
Qed.

(** An allocation: a fresh buffer with an empty window, or a refusal. *)
Lemma alloc_sized_spec size hdr o : 64 <= size < 2 ^ 32 ->
  exists p o', o = p ++ o' /\
    ((exists b, netbuf_alloc_sized size hdr o = (Some b, o') /\ b = netbuf_setup size hdr) \/
     (netbuf_alloc_sized size hdr o = (None, o') /\ refused o o')).
Proof.
  intros Hs. unfold netbuf_alloc_sized, ask. destruct o as [| [] o].
  - exists [], []. split; [done |]. right. split; [done |]. exists []. auto.
  - exists [true], o. split; [done |]. left. eauto.
  - exists [false], o. split; [done |]. right. split; [done |]. exists [false]. split; [done |].
    left. by left.
Qed.

Lemma setup_wf size hdr : 64 <= size < 2 ^ 32 ->
  nb_wf (netbuf_setup size hdr) /\ payload (netbuf_setup size hdr) = [] /\
  nb_buf_size (netbuf_setup size hdr) = size /\
  netbuf_trailing_space (netbuf_setup size hdr) = size - nb_data (netbuf_setup size hdr).
Proof.
  intros Hs. unfold netbuf_trailing_space, nb_buf_size. cbn [nb_buf netbuf_setup].
  rewrite fresh_bytes_length by lia.
  assert (0 <= nb_data (netbuf_setup size hdr) <= 64)
    by (destruct hdr; unfold netbuf_setup, NETBUF_HEADROOM; simpl; lia).
  split.
  - split; unfold nb_buf_size; cbn [netbuf_setup nb_data nb_len nb_buf] in *;
      rewrite ?fresh_bytes_length by lia; lia.
  - split; [done |]. split; [done |]. cbn [netbuf_setup nb_data nb_len] in *.
    rewrite u64_small; lia.
Qed.

Lemma trailing_space b : nb_wf b -> netbuf_trailing_space b = nb_buf_size b - (nb_data b + nb_len b).
Proof.
  intros [? ? ? ?]. unfold netbuf_trailing_space. apply u64_small. lia.
Qed.

(** Filling a buffer with as much of [src] as fits behind its window. *)
Lemma fill_spec b src : nb_wf b ->
  let n := Z.to_nat (Z.min (netbuf_trailing_space b) (Z.of_nat (length src))) in
  exists buf, splice (nb_buf b) (nb_data b + nb_len b) (take n src) = Some buf /\
    let b' := set_window (nb_data b) (nb_len b + Z.of_nat n) (set_buf buf b) in
    nb_wf b' /\ payload b' = payload b ++ take n src /\ (n <= length src)%nat.
Proof.
  intros Hb n. pose proof (trailing_space b Hb) as Ht. pose proof Hb as [? ? ? ?].
  assert (n <= length src)%nat as Hn by lia.
  assert (length (take n src) = n) as Hlen by (rewrite length_take; lia).
  destruct (splice_append b (take n src) Hb) as (buf & Hs & Hw & Hp & _); [rewrite Hlen; lia |].
  exists buf. rewrite Hlen in Hw, Hp. done.
Qed.

(** ** Appending *)

Lemma append_clusters_spec fuel src o : (length src <= fuel)%nat ->
  exists p o' more left_, o = p ++ o' /\
    append_clusters fuel src o = Some (more, left_, o') /\ Forall nb_wf more /\
    src = content more ++ left_ /\ (left_ = [] \/ refused o o').
Proof.
  revert src o. induction fuel as [| fuel IH]; intros [| x src] o Hf; try (simpl in Hf; lia);
    [by exists [], o, [], []; repeat split; [constructor | left]
    | by exists [], o, [], []; repeat split; [constructor | left] |]. cbn [append_clusters].
  destruct (alloc_sized_spec NETBUF_CLUSTER_SIZE false o) as (p & o1 & Ho & Halloc);
    [unfold NETBUF_CLUSTER_SIZE; lia |].
  destruct Halloc as [(b & Ha & ->) | [Ha Href]]; unfold netbuf_alloc_cluster; rewrite Ha.
  2:{ exists p, o1, [], (x :: src). split; [done |]. split; [done |]. split; [constructor | auto]. }
  destruct (setup_wf NETBUF_CLUSTER_SIZE false) as (Hwf & Hemp & _ & Hts);
    [unfold NETBUF_CLUSTER_SIZE; lia |].
  set (b := netbuf_setup NETBUF_CLUSTER_SIZE false) in *.
  destruct (fill_spec b (x :: src) Hwf) as (buf & Hs & Hw & Hp & Hn).
  set (n := Z.to_nat _) in *. change (nb_data b + nb_len b) with (nb_data b) in Hs.
  rewrite Hs, option_bind_Some_fun. change (nb_len b + Z.of_nat n) with (Z.of_nat n) in Hw, Hp.
  rewrite Hemp, app_nil_l in Hp.
  assert (1 <= n)%nat.
  { unfold n. rewrite Hts. simpl. unfold NETBUF_CLUSTER_SIZE. lia. }
  destruct (IH (drop n (x :: src)) o1) as (q & o2 & more & left_ & Ho1 & -> & Hmore & Hc & Hres).
  { rewrite length_drop. lia. }
  rewrite option_bind_Some_fun. exists (p ++ q), o2.
  eexists _, _. rewrite <- app_assoc, <- Ho1. split; [done |]. split; [reflexivity |].
  split; [by constructor |]. split.
  - rewrite content_cons, Hp, <- app_assoc, <- Hc. by rewrite take_drop.
  - destruct Hres; [by left |]. right. by apply (refused_trans o o1 o2 p).
Qed.

Lemma append_last_spec nb src o : Forall nb_wf nb -> nb <> [] ->
  exists p o' nb' placed left_, o = p ++ o' /\
    append_last nb src o = Some (nb', left_, o') /\ Forall nb_wf nb' /\
    src = placed ++ left_ /\ content nb' = content nb ++ placed /\
    nb_hdr <$> head nb' = nb_hdr <$> head nb /\ (left_ = [] \/ refused o o').
Proof.
  intros Hnb. induction Hnb as [| b nb Hb Hnb IH]; intros Hne; [done |]. cbn [append_last].
  destruct nb as [| c nb].
  - destruct (fill_spec b src Hb) as (buf & Hs & Hw & Hp & Hn). set (n := Z.to_nat _) in *.
    rewrite Hs, option_bind_Some_fun.
    destruct (append_clusters_spec (length src) (drop n src) o) as
      (p & o' & more & left_ & Ho & -> & Hmore & Hc & Hres); [rewrite length_drop; lia |].
    rewrite option_bind_Some_fun. exists p, o'.
    eexists _, (take n src ++ content more), _. split; [done |]. split; [reflexivity |].
    split; [by constructor |]. split; [by rewrite <- app_assoc, <- Hc, take_drop |].
    split; [| done]. rewrite !content_cons, Hp. simpl. by rewrite app_nil_r, app_assoc.
  - destruct IH as (p & o' & nb' & placed & left_ & Ho & -> & Hwf & Hsrc & Hc & Hh & Hres); [done |].
    rewrite option_bind_Some_fun. exists p, o', (b :: nb'), placed, left_.
    split; [done |]. split; [done |]. split; [by constructor |]. split; [done |].
    split; [| done]. by rewrite content_cons, Hc, (content_cons b), app_assoc.
Qed.

(** Appending to a packet: a prefix of the data is appended, all of it unless
    an allocation is refused, and the header counts it. *)
Lemma netbuf_append_spec nb data o : packet_ok nb ->
  content_len nb + Z.of_nat (length data) < 2 ^ 63 ->
  exists p ok nb' o' placed left_, o = p ++ o' /\
    netbuf_append nb data o = Some (ok, nb', o') /\ packet_ok nb' /\
    data = placed ++ left_ /\ content nb' = content nb ++ placed /\
    (if ok then left_ = [] else left_ <> [] /\ refused o o').
Proof.
  intros [[Hbufs Hlen] (b & rest & -> & Hpl & Hfl)] Hsum. unfold netbuf_append.
  destruct (append_last_spec (b :: rest) data o Hbufs) as
    (p & o' & nb' & placed & left_ & Ho & -> & Hwf & Hd & Hc & Hh & Hres); [done |].
  rewrite option_bind_Some_fun. destruct nb' as [| b' rest']; [done |].
  cbn [head fmap option_fmap option_map] in Hh. injection Hh as Hff ? Hpp ? ? ? ?.
  cbn [on_head]. rewrite Hff, Hfl.
  assert (Z.of_nat (length data) - Z.of_nat (length left_) = Z.of_nat (length placed)) as ->
    by (rewrite Hd, length_app; lia).
  assert (content_len (b' :: rest') = content_len (b :: rest) + Z.of_nat (length placed)) as Hcl
    by (unfold content_len; rewrite Hc, length_app; lia).
  pose proof (content_len_nonneg (b :: rest)).
  assert (Z.of_nat (length placed) <= Z.of_nat (length data)) by (rewrite Hd, length_app; lia).
  rewrite u64_small by (rewrite Hpp, Hpl; lia). rewrite Hpp, Hpl, <- Hcl.
  eexists p, _, _, o', placed, left_. split; [done |]. split; [reflexivity |]. split.
  { apply (packet_set_len (b' :: rest')); [split; [done | lia] | done |]. exists b'. by rewrite Hff. }
  split; [done |]. split; [done |].
  destruct (Z.eqb_spec (Z.of_nat (length left_)) 0) as [Hz | Hz].
  - destruct left_; [done | simpl in Hz; lia].
  - destruct Hres as [-> | Hres]; [done |]. split; [| done]. by intros ->.
Qed.
End with_storage.
