(* ===== verification/NetbufOps.v ===== *)
(** * Packet buffers: header space, contiguity, copies, splits

    Continues NetbufFacts.v: every remaining operation of netbuf.c in terms of
    the bytes of the packet. *)

From stdpp Require Import base list option.
From Stdlib Require Import ZArith Lia.
From S2P Require Import Prelude Bytes Netbuf NetbufFacts.
Open Scope Z_scope.

Section with_storage.
Context `{HFS : !FreshStorage}.

(** [b] is the first buffer of [nb] and shows at least [len] bytes. *)
Definition contiguous (nb : list netbuf) (len : Z) : Prop :=
  exists b rest, nb = b :: rest /\ len <= nb_len b.

Lemma pkthdr_lor x : (Z.lor x NETBUF_PKTHDR &? NETBUF_PKTHDR)%hermes = true.
Proof.
  unfold NETBUF_PKTHDR. change 1 with (Z.shiftl 1 0) at 2.
  rewrite land_bit_eqb, negb_involutive, Z.lor_spec by lia. apply orb_true_r.
Qed.

Lemma pkthdr_lor_l x y : (x &? NETBUF_PKTHDR)%hermes = true ->
  (Z.lor x y &? NETBUF_PKTHDR)%hermes = true.
Proof.
  unfold NETBUF_PKTHDR. change 1 with (Z.shiftl 1 0).
  rewrite !land_bit_eqb, !negb_involutive, Z.lor_spec by lia. by intros ->.
Qed.

Lemma alloc_fit_spec len hdr o : exists p o' , o = p ++ o' /\
  ((exists size, netbuf_alloc_fit len hdr o = (Some (netbuf_setup size hdr), o') /\
      64 <= size < 2 ^ 32 /\ (len <= NETBUF_CLUSTER_SIZE -> len <= size)) \/
   (netbuf_alloc_fit len hdr o = (None, o') /\ refused o o')).
Proof.
  unfold netbuf_alloc_fit, netbuf_alloc, netbuf_alloc_cluster.
  set (size := if len <=? NETBUF_SIZE then NETBUF_SIZE else NETBUF_CLUSTER_SIZE).
  assert (64 <= size < 2 ^ 32) as Hs
    by (unfold size, NETBUF_SIZE, NETBUF_CLUSTER_SIZE; zcase; lia).
  destruct (alloc_sized_spec size hdr o Hs) as (p & o' & Ho & Ha). exists p, o'. split; [done |].
  assert ((if len <=? NETBUF_SIZE then netbuf_alloc_sized NETBUF_SIZE hdr o
           else netbuf_alloc_sized NETBUF_CLUSTER_SIZE hdr o) = netbuf_alloc_sized size hdr o) as ->
    by (unfold size; by destruct (len <=? NETBUF_SIZE)).
  destruct Ha as [(b & Ha & ->) | Ha]; [left | by right].
  exists size. split; [done |]. split; [done |]. unfold size, NETBUF_SIZE, NETBUF_CLUSTER_SIZE.
  zcase; lia.
Qed.

(** ** Prepending *)

Lemma netbuf_prepend_spec nb len o : packet_ok nb -> 0 <= len -> content_len nb + len < 2 ^ 63 ->
  exists nb' o', netbuf_prepend nb len o = Some (nb', o') /\
    ((packet_ok nb' /\ contiguous nb' len /\
      exists hdr, Z.of_nat (length hdr) = len /\ content nb' = hdr ++ content nb) \/
     (nb' = [] /\ (NETBUF_CLUSTER_SIZE < len \/ refused o o'))).
Proof.
  intros [[Hbufs Hlen] (b & rest & -> & Hpl & Hfl)] Hl Hsum. unfold netbuf_prepend.
  apply Forall_cons_iff in Hbufs as [Hb Hrest]. pose proof Hb as [? ? ? ?].
  pose proof (content_len_nonneg (b :: rest)) as Hnn.
  rewrite Z.geb_leb. destruct (Z.leb_spec len (nb_data b)).
  - set (b1 := set_window (nb_data b - len) (nb_len b + len) b).
    assert (nb_wf b1) as Hb1 by (split; unfold nb_buf_size in *; simpl; lia).
    destruct (window_drop b1 len Hb1) as [_ Hd]; [simpl; lia |].
    rewrite (payload_ext b) in Hd; [| done | simpl; lia | simpl; lia].
    pose proof (payload_length b1 Hb1) as Hpb. simpl in Hpb.
    assert (content (b1 :: rest) = take (Z.to_nat len) (payload b1) ++ content (b :: rest)) as Hc.
    { by rewrite !content_cons, Hd, app_assoc, take_drop. }
    assert (Z.of_nat (length (take (Z.to_nat len) (payload b1))) = len) as Hlt
      by (rewrite length_take; lia).
    assert (content_len (b1 :: rest) = content_len (b :: rest) + len) as Hcl
      by (unfold content_len; rewrite Hc, length_app; lia).
    eexists _, o. split; [reflexivity |]. left. rewrite u64_small by lia. split.
    + rewrite Hpl. apply (packet_set_len (b1 :: rest)).
      * split; [by constructor | lia].
      * lia.
      * by exists b1.
    + split; [| eauto]. eexists _, _. split; [reflexivity |]. simpl. lia.
  - destruct (Z.leb_spec len NETBUF_CLUSTER_SIZE) as [Hfit | Hbig].
    2:{ exists [], o. split; [done |]. right. auto. }
    destruct (alloc_fit_spec len false o) as (p & o' & Ho & [(size & Ha & Hsz & Hge) | [Ha Href]]);
      rewrite Ha; [| exists [], o'; auto].
    destruct (setup_wf size false Hsz) as (Hwf & _ & Hbs & _).
    set (h := netbuf_setup size false) in *. cbn [netbuf_move_pkthdr].
    eexists _, o'. split; [reflexivity |]. left.
    set (h1 := set_window _ _ _). set (b' := set_next_pkt 0 _).
    assert (nb_data h1 = size - len /\ nb_len h1 = len /\ nb_buf_size h1 = size) as (Hd1 & Hl1 & Hs1).
    { split; [change (nb_buf_size h - len = size - len); lia | split; [done | exact Hbs]]. }
    assert (nb_wf h1) as Hh1 by (split; rewrite ?Hd1, ?Hl1, ?Hs1; lia).
    pose proof (payload_length h1 Hh1) as Hph. change (nb_len h1) with len in Hph.
    assert (payload b' = payload b) as Hpb by done.
    assert (content (h1 :: b' :: rest) = payload h1 ++ content (b :: rest)) as Hc
      by (rewrite !content_cons; by rewrite Hpb).
    assert (content_len (h1 :: b' :: rest) = content_len (b :: rest) + len) as Hcl
      by (unfold content_len; rewrite Hc, length_app; lia).
    change (nb_pkt_len h1) with (nb_pkt_len b). rewrite u64_small by lia. split.
    + rewrite Hpl. apply (packet_set_len (h1 :: b' :: rest)).
      * split; [| lia]. constructor; [done |]. constructor; [by apply (nb_wf_ext b) | done].
      * lia.
      * exists h1. split; [done |]. apply pkthdr_lor.
    + split; [| eauto]. eexists _, _. split; [reflexivity |]. simpl. lia.
Qed.

(** ** Pulling up *)

Lemma pullup_loop_done fuel head rest len : len <= nb_len head ->
  pullup_loop fuel head rest len = Some (head :: rest).
Proof. intros H. destruct fuel; simpl; destruct (Z.ltb_spec (nb_len head) len); done || lia. Qed.

Lemma pullup_loop_spec fuel head rest len : (length rest < fuel)%nat -> nb_wf head ->
  Forall nb_wf rest -> len <= nb_len head + content_len rest ->
  nb_data head + len <= nb_buf_size head ->
  exists h' rest', pullup_loop fuel head rest len = Some (h' :: rest') /\
    Forall nb_wf (h' :: rest') /\ content (h' :: rest') = payload head ++ content rest /\
    len <= nb_len h' /\ nb_hdr h' = nb_hdr head.
Proof.
  revert head rest. induction fuel as [| fuel IH]; intros head rest Hf Hh Hr Hlen Hfit; [lia |].
  destruct (Z_lt_ge_dec (nb_len head) len) as [Hlt | Hge].
  2:{ rewrite pullup_loop_done by lia. exists head, rest. repeat split; try done; [by constructor | lia]. }
  cbn [pullup_loop]. destruct (Z.ltb_spec (nb_len head) len); [| lia].
  destruct rest as [| r rest]; [unfold content_len in Hlen; simpl in Hlen; lia |].
  apply Forall_cons_iff in Hr as [Hr Hrest]. rewrite content_len_cons in Hlen by done.
  set (n := if len - nb_len head <? nb_len r then len - nb_len head else nb_len r).
  pose proof (nw_len _ Hr). assert (n = Z.min (len - nb_len head) (nb_len r)) as Hn by (unfold n; zcase; lia).
  pose proof (slice_payload r 0 n Hr ltac:(lia) ltac:(lia) ltac:(lia)) as Hs.
  rewrite Z.add_0_r, drop_0 in Hs. rewrite Hs, option_bind_Some_fun.
  pose proof (payload_length r Hr).
  assert (Z.of_nat (length (take (Z.to_nat n) (payload r))) = n) as Hlt' by (rewrite length_take; lia).
  destruct (splice_append head (take (Z.to_nat n) (payload r)) Hh) as (buf & -> & Hw & Hp & Hbs); [lia |].
  rewrite option_bind_Some_fun, Hlt' in *. set (head' := set_window _ _ (set_buf buf head)) in *.
  destruct (window_drop r n Hr ltac:(lia)) as [Hr' Hpr]. set (r' := set_window _ _ r) in *.
  change (nb_len r') with (nb_len r - n).
  assert (payload head ++ content (r :: rest) =
          payload head' ++ drop (Z.to_nat n) (payload r) ++ content rest) as Hcont
    by (rewrite content_cons, Hp, <- app_assoc, (app_assoc (take _ _)), take_drop; done).
  destruct (Z.eqb_spec (nb_len r - n) 0) as [Hz | Hz].
  - destruct (IH head' rest) as (h2 & rest2 & -> & Hwf2 & Hc2 & Hl2 & Hh2);
      [simpl in Hf; lia | done | done | simpl; lia | rewrite Hbs; simpl; lia |].
    exists h2, rest2. split; [done |]. split; [done |]. split; [| done].
    rewrite Hcont, Hc2, (drop_ge (payload r)) by lia. done.
  - rewrite pullup_loop_done by (simpl; lia). exists head', (r' :: rest).
    split; [done |]. split; [by constructor; [| constructor] |]. split; [| split; [simpl; lia | done]].
    rewrite Hcont, !content_cons, Hpr. done.
Qed.

Lemma netbuf_pullup_spec nb len o : packet_ok nb -> 0 <= len ->
  exists nb' o', netbuf_pullup nb len o = Some (nb', o') /\
    ((packet_ok nb' /\ contiguous nb' len /\ content nb' = content nb) \/
     (nb' = [] /\ (NETBUF_CLUSTER_SIZE < len \/ content_len nb < len \/ refused o o'))).
Proof.
  intros Hok Hl. pose proof Hok as [[Hbufs Hlen] (b & rest & -> & Hpl & Hfl)]. unfold netbuf_pullup.
  apply Forall_cons_iff in Hbufs as [Hb Hrest]. pose proof Hb as [? ? ? ?].
  rewrite Z.geb_leb. destruct (Z.leb_spec len (nb_len b)).
  { exists (b :: rest), o. split; [done |]. left. split; [done |]. split; [| done]. by exists b, rest. }
  rewrite Z.gtb_ltb. destruct (Z.ltb_spec NETBUF_CLUSTER_SIZE len); cbn [orb];
    [exists [], o; by auto |].
  rewrite Hpl. destruct (Z.ltb_spec (content_len (b :: rest)) len);
    [exists [], o; split; [done |]; right; split; [done |]; right; by left |].
  assert (forall h, nb_wf h -> payload h = payload b -> nb_len h = nb_len b ->
    nb_data h + len <= nb_buf_size h -> nb_pkt_len h = nb_pkt_len b ->
    (nb_flags h &? NETBUF_PKTHDR)%hermes = true ->
    exists nb', pullup_loop (S (length rest)) h rest len = Some nb' /\
      packet_ok nb' /\ contiguous nb' len /\ content nb' = content (b :: rest)) as Hloop.
  { intros h Hh Hp Hhl Hfit Hhp Hhf. pose proof (content_len_cons b rest Hb).
    destruct (pullup_loop_spec (S (length rest)) h rest len) as
      (h' & rest' & -> & Hwf & Hc & Hge & Hhdr); [lia | done | done | lia | done |].
    injection Hhdr as Hf' ? Hpk' ? ? ? ?. rewrite Hp, <- content_cons in Hc.
    exists (h' :: rest'). split; [done |].
    assert (content_len (h' :: rest') = nb_len b + content_len rest) as Hcl
      by (unfold content_len at 1; rewrite Hc; by apply content_len_cons).
    split; [| split; [by exists h', rest' | done]]. split; [by split; [| lia] |].
    exists h', rest'. split; [done |]. split; [lia | by rewrite Hf']. }
  destruct (Z.ltb_spec (nb_buf_size b - nb_data b) len).
  - destruct (alloc_fit_spec len false o) as (p & o' & Ho & [(size & Ha & Hsz & Hge) | [Ha Href]]);
      rewrite Ha; [| exists [], o'; split; [done |]; right; split; [done |]; right; by right].
    destruct (setup_wf size false Hsz) as (Hwf & Hemp & Hbs & _).
    set (h := netbuf_setup size false) in *. cbn [netbuf_move_pkthdr].
    cbn [nb_buf nb_data nb_len set_next_pkt set_flags]. rewrite slice_whole, option_bind_Some_fun by done.
    set (h0 := Netbuf (nb_buf h) _ _ _ _ _ _ _ _ _).
    assert (nb_wf h0) as Hh0 by by apply (nb_wf_ext h).
    pose proof (payload_length b Hb) as Hpb.
    destruct (splice_append h0 (payload b) Hh0) as (buf & Hs & Hw & Hp & Hsz').
    { change (nb_buf_size h0) with (nb_buf_size h). simpl. lia. }
    change (nb_data h0 + nb_len h0) with (nb_data h) in Hs. change (nb_buf h0) with (nb_buf h) in Hs.
    rewrite Hs, option_bind_Some_fun.
    rewrite Hpb in Hw, Hp, Hsz'. change (nb_len h0 + nb_len b) with (nb_len b) in Hw, Hp, Hsz'.
    destruct (Hloop (set_window (nb_data h) (nb_len b) (set_buf buf h0))) as (nb' & -> & Hnb');
      [exact Hw | | done | | done | apply pkthdr_lor |].
    + etransitivity; [exact Hp |]. change (payload h0) with (payload h). by rewrite Hemp.
    + etransitivity; [| apply Z.eq_le_incl; symmetry; exact Hsz'].
      change (nb_buf_size h0) with (nb_buf_size h). simpl. lia.
    + rewrite option_bind_Some_fun. exists nb', o'. split; [done |]. by left.
  - destruct (Hloop b) as (nb' & -> & Hnb'); try done; [lia |].
    rewrite option_bind_Some_fun. exists nb', o. split; [done |]. by left.
Qed.

(** ** Copying out *)

Lemma copydata_skip_spec nb offset : Forall nb_wf nb -> 0 <= offset ->
  let '(nb', off') := copydata_skip nb offset in
  Forall nb_wf nb' /\ 0 <= off' /\
  drop (Z.to_nat off') (content nb') = drop (Z.to_nat offset) (content nb) /\
  match nb' with [] => True | b :: _ => off' = 0 \/ off' < nb_len b end.
Proof.
  intros Hnb. revert offset. induction Hnb as [| b nb Hb Hnb IH]; intros offset Ho; cbn [copydata_skip].
  { by repeat split; [constructor |]. }
  pose proof (payload_length b Hb). rewrite Z.geb_leb.
  destruct (Z.leb_spec (nb_len b) offset); cbn [andb].
  2:{ split; [by constructor |]. repeat split; [done | by right]. }
  destruct (Z.eqb_spec offset 0) as [-> | Hne]; cbn [negb].
  { split; [by constructor |]. repeat split; [done | by left]. }
  specialize (IH (offset - nb_len b) ltac:(lia)).
  destruct (copydata_skip nb (offset - nb_len b)) as [nb' off'].
  destruct IH as (Hwf & Hoff & Hd & Hm). split; [done |]. split; [done |]. split; [| done].
  rewrite Hd, content_cons, drop_app_ge by lia. f_equal. lia.
Qed.

Lemma copydata_loop_spec nb offset len : Forall nb_wf nb -> 0 <= offset -> 0 <= len ->
  match nb with [] => True | b :: _ => offset <= nb_len b end ->
  copydata_loop nb offset len = Some (take (Z.to_nat len) (drop (Z.to_nat offset) (content nb))).
Proof.
  intros Hnb. revert offset len.
  induction Hnb as [| b nb Hb Hnb IH]; intros offset len Ho Hl Hle; cbn [copydata_loop].
  { unfold content. simpl. by rewrite drop_nil, take_nil. }
  destruct (Z.eqb_spec len 0) as [-> | Hne]; [by rewrite take_0 |].
  pose proof Hb as [? ? ? ?]. pose proof (payload_length b Hb).
  rewrite u64_small by lia.
  set (n := if len <? nb_len b - offset then len else nb_len b - offset).
  assert (n = Z.min len (nb_len b - offset)) as Hn by (unfold n; zcase; lia).
  rewrite slice_payload, option_bind_Some_fun by (done || lia).
  assert (match nb with [] => True | b' :: _ => 0 <= nb_len b' end) as Hnext
    by (destruct Hnb as [| ? ? []]; done).
  rewrite IH, option_bind_Some_fun by (done || lia).
  f_equal. rewrite drop_0, content_cons, drop_app_le by lia.
  destruct (Z_lt_ge_dec len (nb_len b - offset)).
  - replace n with len by lia. rewrite Z.sub_diag, take_0, app_nil_r.
    by rewrite take_app_le by (rewrite length_drop; lia).
  - rewrite take_app_ge by (rewrite length_drop; lia).
    rewrite take_ge by (rewrite length_drop; lia). do 2 f_equal. rewrite length_drop. lia.
Qed.

Lemma netbuf_copydata_spec nb offset len : Forall nb_wf nb -> 0 <= offset -> 0 <= len ->
  netbuf_copydata nb offset len = Some (take (Z.to_nat len) (drop (Z.to_nat offset) (content nb))).
Proof.
  intros Hnb Ho Hl. unfold netbuf_copydata. pose proof (copydata_skip_spec nb offset Hnb Ho) as Hs.
  destruct (copydata_skip nb offset) as [nb' off']. destruct Hs as (Hwf & Hoff & Hd & Hm).
  rewrite copydata_loop_spec; try done; [by rewrite Hd |].
  destruct nb' as [| b nb']; [done |]. apply Forall_cons_iff in Hwf as [[] _]. lia.
Qed.

(** ** Copying in *)

(** [src] written over [c] at [offset]. *)
Definition overwrite (c : list Z) (offset : nat) (src : list Z) : list Z :=
  take offset c ++ src ++ drop (offset + length src) c.

Lemma overwrite_nil c offset : overwrite c offset [] = c.
Proof. unfold overwrite. simpl. by rewrite Nat.add_0_r, take_drop. Qed.

(** A write that starts in the first part of a string. *)
Lemma overwrite_app xs ys offset s1 s2 : (offset + length s1 <= length xs)%nat ->
  (s2 = [] \/ (offset + length s1 = length xs)%nat) ->
  overwrite (xs ++ ys) offset (s1 ++ s2) = overwrite xs offset s1 ++ overwrite ys 0 s2.
Proof.
  intros Hle Hor. unfold overwrite. rewrite take_app_le, <- !app_assoc by lia. f_equal. f_equal.
  rewrite length_app, take_0, app_nil_l. destruct Hor as [-> | Heq].
  - rewrite Nat.add_0_r. simpl. rewrite drop_0. by rewrite drop_app_le by lia.
  - rewrite (drop_ge xs), app_nil_l by lia. f_equal. rewrite drop_app_ge by lia. f_equal. lia.
Qed.

Lemma copyback_loop_spec nb offset src : Forall nb_wf nb -> 0 <= offset ->
  match nb with [] => offset = 0 | b :: _ => offset <= nb_len b end ->
  exists nb' written left_, copyback_loop nb offset src = Some (nb', left_) /\
    Forall nb_wf nb' /\ map nb_hdr nb' = map nb_hdr nb /\ src = written ++ left_ /\
    content nb' = overwrite (content nb) (Z.to_nat offset) written /\
    offset + Z.of_nat (length written) <= content_len nb /\
    (left_ = [] \/ offset + Z.of_nat (length written) = content_len nb).
Proof.
  intros Hnb. revert offset src.
  induction Hnb as [| b nb Hb Hnb IH]; intros offset src Ho Hle; cbn [copyback_loop].
  { subst offset. exists [], [], src. repeat split; [constructor | | by right]. done. }
  pose proof Hb as [? ? ? ?]. pose proof (payload_length b Hb). pose proof (content_len_nonneg nb).
  rewrite content_len_cons by done.
  destruct src as [| x src].
  { exists (b :: nb), [], []. rewrite overwrite_nil. repeat split; [by constructor | simpl; lia | by left]. }
  set (n := Z.to_nat (Z.min (nb_len b - offset) (Z.of_nat (length (x :: src))))).
  assert (length (take n (x :: src)) = n) as Hlt by (rewrite length_take; lia).
  destruct (splice_within b offset (take n (x :: src)) Hb Ho) as (buf & -> & Hw & Hp); [lia |].
  rewrite option_bind_Some_fun. rewrite Hlt in Hp.
  destruct (IH 0 (drop n (x :: src))) as (nb' & w & left_ & -> & Hwf & Hh & Hsrc & Hc & Hwl & Hor);
    [lia | by destruct Hnb as [| ? ? []] |].
  rewrite option_bind_Some_fun. exists (set_buf buf b :: nb'), (take n (x :: src) ++ w), left_.
  split; [done |]. split; [by constructor |]. split; [cbn [map]; by rewrite Hh |].
  split; [by rewrite <- app_assoc, <- Hsrc, take_drop |].
  assert (Z.of_nat n < nb_len b - offset -> w = [] /\ left_ = []) as Hshort.
  { intros Hn. rewrite drop_ge in Hsrc by lia. by apply eq_sym, app_nil in Hsrc. }
  rewrite length_app, Hlt. split; [| split].
  - rewrite !content_cons, Hp, Hc. symmetry.
    etransitivity; [apply overwrite_app; rewrite ?Hlt; [lia |] |].
    + destruct (Z_lt_ge_dec (Z.of_nat n) (nb_len b - offset)); [left; tauto | right; lia].
    + unfold overwrite at 1. by rewrite Hlt.
  - lia.
  - destruct (Z_lt_ge_dec (Z.of_nat n) (nb_len b - offset)); [left; tauto |]. destruct Hor; [by left | right; lia].
Qed.

Lemma copyback_at_spec nb offset src : Forall nb_wf nb -> nb <> [] -> 0 <= offset ->
  (content_len nb < offset /\ copyback_at nb offset src = Some None) \/
  (offset <= content_len nb /\
   exists nb' written left_, copyback_at nb offset src = Some (Some (nb', left_)) /\
    Forall nb_wf nb' /\ map nb_hdr nb' = map nb_hdr nb /\ src = written ++ left_ /\
    content nb' = overwrite (content nb) (Z.to_nat offset) written /\
    offset + Z.of_nat (length written) <= content_len nb /\
    (left_ = [] \/ offset + Z.of_nat (length written) = content_len nb)).
Proof.
  intros Hnb. revert offset. induction Hnb as [| b nb Hb Hnb IH]; intros offset Hne Ho; [done |].
  cbn [copyback_at]. rewrite content_len_cons, Z.gtb_ltb by done.
  pose proof (payload_length b Hb). pose proof (content_len_nonneg nb).
  destruct (Z.ltb_spec (nb_len b) offset) as [Hgt | Hle].
  - destruct nb as [| c nb].
    { left. split; [unfold content_len; simpl; lia | done]. }
    destruct (IH (offset - nb_len b)) as [[Hbig ->] | (Hsm & nb' & w & l & -> & Hwf & Hh & Hs & Hc & Hw & Hor)];
      [done | lia | left; split; [lia | done] |].
    right. split; [lia |]. rewrite option_bind_Some_fun. exists (b :: nb'), w, l.
    split; [done |]. split; [by constructor |]. split; [by cbn [map]; rewrite Hh |].
    split; [done |]. split; [| split; [lia |]; destruct Hor; [by left | right; lia]].
    rewrite !(content_cons b), Hc. unfold overwrite.
    rewrite take_app_ge, drop_app_ge, <- app_assoc by lia. f_equal.
    f_equal; [f_equal; lia |]. f_equal. f_equal. lia.
  - right. split; [lia |].
    destruct (copyback_loop_spec (b :: nb) offset src) as (nb' & w & l & -> & Hrest);
      [by constructor | done | done |].
    rewrite content_len_cons in Hrest by done.
    rewrite option_bind_Some_fun. by exists nb', w, l.
Qed.

Lemma netbuf_copyback_spec nb offset data o : packet_ok nb -> 0 <= offset ->
  content_len nb + Z.of_nat (length data) < 2 ^ 63 ->
  exists ok nb' o', netbuf_copyback nb offset data o = Some (ok, nb', o') /\ packet_ok nb' /\
    if ok then offset <= content_len nb /\ content nb' = overwrite (content nb) (Z.to_nat offset) data
    else (content_len nb < offset /\ nb' = nb) \/
         (refused o o' /\ exists placed left_, data = placed ++ left_ /\ left_ <> [] /\
            content nb' = take (Z.to_nat offset) (content nb) ++ placed).
Proof.
  intros Hok Ho Hsum. pose proof Hok as [[Hbufs Hlen] (b & rest & -> & Hpl & Hfl)].
  unfold netbuf_copyback. set (nb := b :: rest) in *.
  destruct (copyback_at_spec nb offset data Hbufs) as
    [[Hbig ->] | (Hle & nb' & w & l & -> & Hwf & Hh & Hd & Hc & Hw & Hor)]; [done | done | |];
    rewrite option_bind_Some_fun.
  { exists false, nb, o. split; [done |]. split; [done |]. by left; split. }
  assert (content_len nb' = content_len nb) as Hcl.
  { unfold content_len in *. rewrite Hc. unfold overwrite.
    rewrite !length_app, length_take, length_drop. lia. }
  assert (packet_ok nb') as Hok'.
  { split; [split; [done | lia] |]. destruct nb' as [| b' rest']; [done |].
    injection Hh as Hf ? Hp ? ? ? ? ?. exists b', rest'. split; [done |]. rewrite Hp, Hf, Hcl. done. }
  destruct (Z.eqb_spec (Z.of_nat (length l)) 0) as [Hz | Hz].
  { exists true, nb', o. assert (l = []) as -> by (destruct l; [done | simpl in Hz; lia]).
    rewrite app_nil_r in Hd. subst w. done. }
  assert (Z.of_nat (length l) <= Z.of_nat (length data)) by (rewrite Hd, length_app; lia).
  destruct (netbuf_append_spec nb' l o Hok') as (p & ok & nb2 & o' & pl & l2 & _ & -> & Hok2 & Hl & Hc2 & Hres);
    [lia |].
  assert (offset + Z.of_nat (length w) = content_len nb) as Hend by (destruct Hor as [-> |]; [done | done]).
  assert (content nb2 = take (Z.to_nat offset) (content nb) ++ w ++ pl) as Hfinal.
  { rewrite Hc2, Hc. unfold overwrite, content_len in *.
    rewrite (drop_ge (content nb)), app_nil_r, <- app_assoc by lia. done. }
  exists ok, nb2, o'. split; [done |]. split; [done |]. destruct ok.
  - split; [done |]. subst l2. rewrite app_nil_r in Hl. subst pl. rewrite Hfinal, <- Hd. unfold overwrite.
    assert (Z.of_nat (length w) <= Z.of_nat (length data)) by (rewrite Hd, length_app; lia).
    rewrite (drop_ge (content nb)), app_nil_r by (unfold content_len in *; lia). done.
  - right. destruct Hres as [Hne Href]. split; [done |]. exists (w ++ pl), l2.
    rewrite Hfinal, <- app_assoc, <- Hl. done.
Qed.

(** ** Copies of packets *)

(** A fresh packet buffer is an empty packet. *)
Lemma fresh_packet size : 64 <= size < 2 ^ 32 -> packet_ok [netbuf_setup size true].
Proof.
  intros Hs. destruct (setup_wf size true Hs) as (Hwf & Hp & _).
  assert (content_len [netbuf_setup size true] = 0) as Hc
    by (unfold content_len; rewrite content_cons, Hp; done).
  split; [split; [by apply Forall_singleton | lia] |]. eexists _, []. split; [reflexivity |].
  by rewrite Hc.
Qed.

Lemma dup_loop_spec nb copy o : Forall nb_wf nb -> packet_ok copy ->
  content_len copy + content_len nb < 2 ^ 63 ->
  exists p copy' o', o = p ++ o' /\ dup_loop nb copy o = Some (copy', o') /\
    ((packet_ok copy' /\ content copy' = content copy ++ content nb) \/
     (copy' = [] /\ refused o o')).
Proof.
  intros Hnb. revert copy o. induction Hnb as [| b nb Hb Hnb IH]; intros copy o Hok Hsum; cbn [dup_loop].
  { exists [], copy, o. split; [done |]. split; [done |]. left. split; [done |].
    unfold content at 3. simpl. by rewrite app_nil_r. }
  rewrite slice_whole, option_bind_Some_fun by done.
  rewrite content_len_cons in Hsum by done. pose proof (payload_length b Hb).
  pose proof (content_len_nonneg nb).
  destruct (netbuf_append_spec copy (payload b) o Hok) as
    (p & ok & copy1 & o1 & pl & l & Ho & -> & Hok1 & Hd & Hc & Hres); [lia |].
  rewrite option_bind_Some_fun. destruct ok; cbn [negb].
  2:{ exists p, [], o1. split; [done |]. split; [done |]. right. split; [done | apply Hres]. }
  subst l. rewrite app_nil_r in Hd. subst pl.
  destruct (IH copy1 o1) as (q & copy' & o' & Ho1 & -> & Hfin); [done | |].
  { unfold content_len at 1. rewrite Hc, length_app, Nat2Z.inj_add. fold (content_len copy). lia. }
  exists (p ++ q), copy', o'. split; [by rewrite <- app_assoc, <- Ho1 |]. split; [done |].
  destruct Hfin as [[Hok' Hc'] | [-> Href]].
  - left. split; [done |]. by rewrite Hc', Hc, content_cons, app_assoc.
  - right. split; [done |]. by apply (refused_trans o o1 o' p).
Qed.

Lemma netbuf_dup_spec nb o : packet_ok nb ->
  exists copy o', netbuf_dup nb o = Some (copy, o') /\
    ((packet_ok copy /\ content copy = content nb) \/ (copy = [] /\ refused o o')).
Proof.
  intros Hok. pose proof Hok as [[Hbufs Hlen] (b & rest & -> & Hpl & Hfl)]. unfold netbuf_dup.
  set (nb := b :: rest) in *.
  destruct (alloc_fit_spec (u64 (nb_pkt_len b + NETBUF_HEADROOM)) true o) as
    (p & o1 & Ho & [(size & Ha & Hsz & _) | [Ha Href]]); rewrite Ha; [| exists [], o1; auto].
  pose proof (fresh_packet size Hsz) as Hfresh.
  assert (content [netbuf_setup size true] = []) as Hemp
    by (rewrite content_cons; by destruct (setup_wf size true Hsz) as (_ & -> & _)).
  destruct (dup_loop_spec nb [netbuf_setup size true] o1 Hbufs Hfresh) as
    (q & copy & o' & Ho1 & -> & Hfin); [unfold content_len at 1; rewrite Hemp; simpl; lia |].
  rewrite option_bind_Some_fun. eexists _, o'. split; [reflexivity |].
  destruct Hfin as [[Hokc Hc] | [-> Href]].
  - left. rewrite Hemp, app_nil_l in Hc. split; [| by rewrite content_on_head].
    pose proof Hokc as [[Hb Hl] (c & crest & -> & Hcp & Hcf)]. cbn [on_head].
    split; [split; [| exact Hl] |].
    + apply Forall_cons_iff in Hb as [Hcw Hcr]. constructor; [by apply (nb_wf_ext c) | done].
    + eexists _, _. split; [reflexivity |]. split; [exact Hcp |]. by apply pkthdr_lor_l.
  - right. split; [done |]. by apply (refused_trans o o1 o' p).
Qed.

(** ** Splitting *)

Lemma split_at_spec nb k : Forall nb_wf nb -> nb <> [] -> 0 <= k <= content_len nb ->
  exists pre b post k', split_at nb k = Some (pre, b, post, k') /\ nb = pre ++ b :: post /\
    0 <= k' <= nb_len b /\ k = content_len pre + k'.
Proof.
  intros Hnb. revert k. induction Hnb as [| b nb Hb Hnb IH]; intros k Hne Hk; [done |].
  cbn [split_at]. rewrite content_len_cons in Hk by done. rewrite Z.gtb_ltb.
  pose proof (nw_len _ Hb).
  destruct (Z.ltb_spec (nb_len b) k).
  - destruct nb as [| c nb]; [unfold content_len in Hk; simpl in Hk; lia |].
    destruct (IH (k - nb_len b)) as (pre & d & post & k' & -> & -> & Hk' & Hsum); [done | lia |].
    rewrite option_bind_Some_fun. exists (b :: pre), d, post, k'. split; [done |]. split; [done |].
    split; [done |]. rewrite content_len_cons by done. lia.
  - exists [], b, nb, k. split; [done |]. split; [done |]. split; [lia |].
    unfold content_len. simpl. lia.
Qed.

Lemma content_pieces pre b post k : nb_wf b -> 0 <= k <= nb_len b ->
  take (length (content pre) + Z.to_nat k) (content (pre ++ b :: post)) =
    content (pre ++ [set_window (nb_data b) k b]) /\
  drop (length (content pre) + Z.to_nat k) (content (pre ++ b :: post)) =
    drop (Z.to_nat k) (payload b) ++ content post.
Proof.
  intros Hb Hk. pose proof (payload_length b Hb). destruct (window_take b k Hb Hk) as [_ Hp].
  rewrite !content_app, !content_cons, Hp. split.
  - rewrite take_app_ge by lia. f_equal. simpl. rewrite app_nil_r.
    replace (length (content pre) + Z.to_nat k - length (content pre))%nat with (Z.to_nat k) by lia.
    by rewrite take_app_le by lia.
  - rewrite drop_app_ge by lia.
    replace (length (content pre) + Z.to_nat k - length (content pre))%nat with (Z.to_nat k) by lia.
    by rewrite drop_app_le by lia.
Qed.

Lemma netbuf_split_spec nb offset o : packet_ok nb -> 0 <= offset ->
  exists nb' tail o', netbuf_split nb offset o = Some (nb', tail, o') /\
    ((packet_ok nb' /\ packet_ok tail /\ content nb' = take (Z.to_nat offset) (content nb) /\
      content tail = drop (Z.to_nat offset) (content nb)) \/
     (nb' = nb /\ tail = [] /\ (content_len nb < offset \/ refused o o'))).
Proof.
  intros Hok Ho. pose proof Hok as [[Hbufs Hlen] (h & rest & Hnb & Hpl & Hfl)].
  unfold netbuf_split. destruct nb as [| h' nb']; [done |]. injection Hnb as -> ->.
  rewrite Z.gtb_ltb, Hpl. set (nb := h :: rest) in *.
  destruct (Z.ltb_spec (content_len nb) offset) as [Hbig | Hle].
  { exists nb, [], o. split; [done |]. right. auto. }
  destruct (split_at_spec nb offset Hbufs) as (pre & b & post & k & -> & Hsplit & Hk & Hsum);
    [done | lia |]. rewrite option_bind_Some_fun.
  assert (Forall nb_wf pre /\ nb_wf b /\ Forall nb_wf post) as (Hpre & Hb & Hpost)
    by (rewrite Hsplit in Hbufs; by apply Forall_app in Hbufs as [? [? ?]%Forall_cons_iff]).
  destruct (alloc_fit_spec (u64 (nb_len b - k + NETBUF_HEADROOM)) true o) as
    (p & o1 & Hoo & [(size & Ha & Hsz & _) | [Ha Href]]); rewrite Ha;
    [| exists nb, [], o1; split; [done |]; by auto].
  rewrite slice_payload, option_bind_Some_fun by (done || lia).
  pose proof (payload_length b Hb).
  rewrite take_ge by (rewrite length_drop; lia).
  assert (content [netbuf_setup size true] = []) as Hemp
    by (rewrite content_cons; by destruct (setup_wf size true Hsz) as (_ & -> & _)).
  pose proof Hb as [? ? ? ?].
  destruct (netbuf_append_spec [netbuf_setup size true] (drop (Z.to_nat k) (payload b)) o1
    (fresh_packet size Hsz)) as (q & ok & tl & o' & pl & l & Ho1 & -> & Hokt & Hd & Hc & Hres).
  { unfold content_len at 1. rewrite Hemp, length_drop. simpl. lia. }
  rewrite option_bind_Some_fun. destruct ok; cbn [negb].
  2:{ exists nb, [], o'. split; [done |]. right. split; [done |]. split; [done |]. right.
      apply (refused_trans o o1 o' p); [done | apply Hres]. }
  subst l. rewrite app_nil_r in Hd. subst pl. rewrite Hemp, app_nil_l in Hc.
  destruct (content_pieces pre b post k Hb Hk) as [Ht Hdr]. rewrite <- Hsplit in Ht, Hdr.
  assert (Z.to_nat offset = length (content pre) + Z.to_nat k)%nat as Hoff
    by (unfold content_len in Hsum; lia). rewrite <- Hoff in Ht, Hdr.
  eexists _, _, o'. split; [reflexivity |]. left.
  split; [| split; [| split]];
    [| | etransitivity; [by apply content_on_head | by rewrite Ht]
       | etransitivity; [by apply content_on_head | by rewrite content_app, Hc, Hdr]].
  - apply packet_set_len.
    + split; [| unfold content_len in *; rewrite <- Ht, length_take; lia].
      apply Forall_app. split; [done |]. apply Forall_singleton. by apply window_take.
    + unfold content_len in *. rewrite <- Ht, length_take. lia.
    + destruct pre as [| h0 pre]; simpl in *; [exists (set_window (nb_data b) k b) | exists h0];
        (split; [done |]); injection Hsplit as -> _; done.
  - destruct Hokt as [[Htb _] (t & trest & -> & _ & Htf)].
    change (packet_ok (on_head (set_pkt_len (content_len nb - offset))
      (on_head (set_rcvif (nb_rcvif h)) ((t :: trest) ++ post)))).
    assert (content (on_head (set_rcvif (nb_rcvif h)) ((t :: trest) ++ post)) =
            drop (Z.to_nat offset) (content nb)) as Hct
      by (rewrite content_on_head, content_app, Hc, Hdr by done; done).
    apply packet_set_len.
    + split; [| unfold content_len in *; rewrite Hct, length_drop; lia].
      apply wf_on_head; [intros ?; by apply nb_wf_ext |]. by apply Forall_app.
    + unfold content_len in *. rewrite Hct, length_drop. lia.
    + eexists. split; [reflexivity |]. exact Htf.
Qed.

(** ** Room for a packet *)

Definition chain_room (nb : list netbuf) : Z :=
  match nb with
  | [] => 0
  | b :: rest => (nb_buf_size b - nb_data b) + fold_right Z.add 0 (map nb_buf_size rest)
  end.

Lemma alloc_clusters_spec fuel room len o : 0 <= room -> len < 2 ^ 62 ->
  len <= room + Z.of_nat fuel * NETBUF_CLUSTER_SIZE ->
  exists p r o', o = p ++ o' /\ alloc_clusters fuel room len o = Some (r, o') /\
    match r with
    | Some more => Forall nb_wf more /\ content more = [] /\
        len <= room + fold_right Z.add 0 (map nb_buf_size more)
    | None => refused o o'
    end.
Proof.
  revert room o. induction fuel as [| fuel IH]; intros room o Hr Hl Hf; cbn [alloc_clusters].
  all: destruct (Z.ltb_spec room len);
    [| exists [], (Some []), o; repeat split; [constructor | simpl; lia]].
  { lia. }
  destruct (alloc_sized_spec NETBUF_CLUSTER_SIZE false o) as (p & o1 & Ho & Halloc);
    [unfold NETBUF_CLUSTER_SIZE; lia |].
  unfold netbuf_alloc_cluster. destruct Halloc as [(b & Ha & ->) | [Ha Href]]; rewrite Ha.
  2:{ by exists p, None, o1. }
  destruct (setup_wf NETBUF_CLUSTER_SIZE false) as (Hwf & Hp & Hs & _);
    [unfold NETBUF_CLUSTER_SIZE; lia |]. rewrite Hs.
  destruct (IH (u64 (room + NETBUF_CLUSTER_SIZE)) o1) as (q & r & o' & Ho1 & -> & Hres);
    rewrite ?u64_small by (unfold NETBUF_CLUSTER_SIZE in *; lia);
    [unfold NETBUF_CLUSTER_SIZE in *; lia | done | lia |].
  rewrite option_bind_Some_fun. eexists (p ++ q), _, o'. rewrite <- app_assoc, <- Ho1.
  split; [done |]. split; [reflexivity |]. destruct r as [more |]; cbn [option_map].
  - destruct Hres as (Hm & Hc & Hlen). rewrite u64_small in Hlen by (unfold NETBUF_CLUSTER_SIZE in *; lia).
    split; [by constructor |]. split; [by rewrite content_cons, Hp, Hc |].
    cbn [map fold_right]. rewrite Hs. lia.
  - by apply (refused_trans o o1 o' p).
Qed.

Lemma netbuf_alloc_packet_spec len o : 0 <= len < 2 ^ 62 ->
  exists nb o', netbuf_alloc_packet len o = Some (nb, o') /\
    ((packet_ok nb /\ content nb = [] /\ len <= chain_room nb) \/ (nb = [] /\ refused o o')).
Proof.
  intros Hl. unfold netbuf_alloc_packet, netbuf_alloc, netbuf_alloc_cluster.
  rewrite u64_small by (unfold NETBUF_HEADROOM; lia).
  set (size := if len + NETBUF_HEADROOM <=? NETBUF_SIZE then NETBUF_SIZE else NETBUF_CLUSTER_SIZE).
  assert (64 <= size < 2 ^ 32) as Hs
    by (unfold size, NETBUF_SIZE, NETBUF_CLUSTER_SIZE; zcase; lia).
  assert ((if len + NETBUF_HEADROOM <=? NETBUF_SIZE then netbuf_alloc_sized NETBUF_SIZE true o
           else netbuf_alloc_sized NETBUF_CLUSTER_SIZE true o) = netbuf_alloc_sized size true o) as ->
    by (unfold size; by destruct (_ <=? _)).
  destruct (alloc_sized_spec size true o Hs) as (p & o1 & Ho & [(b & Ha & ->) | [Ha Href]]); rewrite Ha;
    [| exists [], o1; auto].
  destruct (setup_wf size true Hs) as (Hwf & Hp & Hbs & _). rewrite Hbs.
  destruct (alloc_clusters_spec (S (Z.to_nat (len / NETBUF_CLUSTER_SIZE))) (size - NETBUF_HEADROOM) len o1)
    as (q & r & o' & Ho1 & -> & Hres); [unfold NETBUF_HEADROOM; lia | lia | |].
  { pose proof (Z.div_mod len NETBUF_CLUSTER_SIZE). pose proof (Z.mod_pos_bound len NETBUF_CLUSTER_SIZE).
    assert (0 <= len / NETBUF_CLUSTER_SIZE) by (apply Z.div_pos; unfold NETBUF_CLUSTER_SIZE; lia).
    unfold NETBUF_CLUSTER_SIZE, NETBUF_HEADROOM in *. lia. }
  rewrite option_bind_Some_fun. eexists _, o'. split; [reflexivity |]. destruct r as [more |].
  - left. destruct Hres as (Hm & Hc & Hroom).
    assert (content (netbuf_setup size true :: more) = []) as Hce by (rewrite content_cons, Hp, Hc; done).
    assert (content_len (netbuf_setup size true :: more) = 0) as Hcl by (unfold content_len; by rewrite Hce).
    split; [| split; [done |]].
    + split; [split; [by constructor | lia] |]. eexists _, _. split; [reflexivity |]. by rewrite Hcl.
    + unfold chain_room. rewrite Hbs. simpl. unfold NETBUF_HEADROOM in *. lia.
  - right. split; [done |]. by apply (refused_trans o o1 o' p).
Qed.
End with_storage.

Lemma netbuf_cat_content nb tail : content (netbuf_cat nb tail) = content nb ++ content tail.
Proof. unfold netbuf_cat. by rewrite content_app, content_on_head. Qed.
