(* ===== verification/Checksum.v ===== *)
(** * Internet checksum: drivers/net/core/checksum.c

    The one's complement sum, computed 64 bits at a time in machine byte order,
    over contiguous memory or over a chain of buffers.  The second half proves
    it equal to the definition: the complement of the one's complement sum of
    the big-endian 16-bit words, independently of how the bytes are split into
    buffers. *)

From stdpp Require Import base list option.
From Stdlib Require Import ZArith Lia.
From S2P Require Import Prelude Bytes Netbuf NetbufFacts NetbufOps.
Open Scope Z_scope.

(** [while (sum >> 16) sum = (sum & 0xFFFF) + (sum >> 16)]; a 64-bit sum is
    below 2^16 after at most five rounds. *)
Fixpoint inet_fold_loop (fuel : nat) (sum : Z) : option Z :=
  if negb (Z.shiftr sum 16 =? 0) then
    match fuel with
    | O => None
    | S fuel' => inet_fold_loop fuel' (u64 (Z.land sum 0xFFFF + Z.shiftr sum 16))
    end
  else Some (u16 sum).
Definition inet_fold (sum : Z) : option Z := inet_fold_loop 5 sum.

(** The loop over eight bytes at a time. *)
Fixpoint inet_sum8 (fuel : nat) (buf : list Z) (s0 s1 : Z) : option (list Z * Z * Z) :=
  if Z.of_nat (length buf) >=? 8 then
    match fuel with
    | O => None
    | S fuel' =>
        w0 ← slice buf 0 4;
        w1 ← slice buf 4 4;
        inet_sum8 fuel' (drop 8 buf) (u64 (s0 + le_val w0)) (u64 (s1 + le_val w1))
    end
  else Some (buf, s0, s1).

(** The sum over a buffer of [len] bytes, the list given. *)
Definition inet_sum_raw (buf : list Z) : option Z :=
  '(buf, s0, s1) ← inet_sum8 (length buf / 8) buf 0 0;
  '(buf, s0) ← if Z.of_nat (length buf) >=? 4
               then w0 ← slice buf 0 4; Some (drop 4 buf, u64 (s0 + le_val w0))
               else Some (buf, s0);
  '(buf, s0) ← if Z.of_nat (length buf) >=? 2
               then h ← slice buf 0 2; Some (drop 2 buf, u64 (s0 + le_val h))
               else Some (buf, s0);
  s0 ← if negb (Z.of_nat (length buf) =? 0)
       then h ← slice buf 0 1; Some (u64 (s0 + le_val h))
       else Some s0;
  Some (u64 (s0 + s1)).

Definition csum_add (a b : Z) : Z :=
  let a := u64 (a + b) in u64 (a + if a <? b then 1 else 0).

Definition csum_fold (s : Z) : Z :=
  let s := Z.land s 0xFFFFFFFF + Z.shiftr s 32 in
  let s := Z.land s 0xFFFFFFFF + Z.shiftr s 32 in
  let s := Z.land s 0xFFFF + Z.shiftr s 16 in
  let s := Z.land s 0xFFFF + Z.shiftr s 16 in
  let s := Z.land s 0xFFFF + Z.shiftr s 16 in
  let s := Z.lor (Z.shiftl (Z.land s 0xFF) 8) (Z.shiftr s 8) in
  u16 s.

Definition inet_sum (buf : list Z) : option Z := s ← inet_sum_raw buf; Some (csum_fold s).

Definition inet_checksum (data : list Z) : option Z :=
  s ← inet_sum data; f ← inet_fold s; Some (Z.land (Z.lnot f) 0xFFFF).

(** Skips the buffers before [offset]. *)
Fixpoint checksum_skip (nb : list netbuf) (offset : Z) : list netbuf * Z :=
  match nb with
  | [] => ([], offset)
  | b :: rest =>
      if offset >=? nb_len b then checksum_skip rest (offset - nb_len b) else (nb, offset)
  end.

Fixpoint checksum_parts (nb : list netbuf) (offset len sum : Z) (odd : bool) : option Z :=
  match nb with
  | [] => Some sum
  | b :: rest =>
      if len >? 0 then
        let avail := nb_len b - offset in
        let n := if len <? avail then len else avail in
        buf ← slice (nb_buf b) (nb_data b + offset) n;
        part ← inet_sum_raw buf;
        let part := if odd then Z.lor (u64 (Z.shiftl part 8)) (Z.shiftr part 56) else part in
        let sum := csum_add sum part in
        checksum_parts rest 0 (len - n) sum (xorb odd (Z.testbit n 0))
      else Some sum
  end.

Definition inet_checksum_netbuf (nb : list netbuf) (offset len : Z) : option Z :=
  let '(nb, offset) := checksum_skip nb offset in
  sum ← checksum_parts nb offset len 0 false;
  Some (u16 (Z.lnot (csum_fold sum))).

(** The addresses are given as their bytes in memory. *)
Definition inet_pseudo_checksum4 (src dst : list Z) (proto len : Z) : option Z :=
  s ← inet_sum src;
  d ← inet_sum dst;
  inet_fold (u64 (u64 (u64 (s + d) + proto) + len)).

Definition inet_pseudo_checksum6 (src dst : list Z) (next_header len : Z) : option Z :=
  s ← inet_sum src;
  d ← inet_sum dst;
  inet_fold (u64 (u64 (u64 (u64 (s + d) + Z.shiftr len 16) + Z.land len 0xFFFF) + next_header)).

Definition inet_checksum_update (checksum old_value new_value : Z) : option Z :=
  let sum := u16 (Z.lnot checksum) in
  let sum := sum + u16 (Z.lnot old_value) in
  let sum := sum + new_value in
  f ← inet_fold sum; Some (Z.land (Z.lnot f) 0xFFFF).

(** ** The definition of the checksum *)

(** The sum of the big-endian words, an odd last byte padded with zero. *)
Fixpoint be_words_sum (bs : list Z) : Z :=
  match bs with
  | b0 :: b1 :: bs' => b0 * 256 + b1 + be_words_sum bs'
  | [b0] => b0 * 256
  | [] => 0
  end.

(** One's complement representative of a sum: 1..65535, or 0 for 0. *)
Definition ones (x : Z) : Z := if x =? 0 then 0 else (x - 1) mod 65535 + 1.

Definition rfc1071 (bs : list Z) : Z := 65535 - ones (be_words_sum bs).

(** ** One's complement arithmetic *)

(** Two sums with the same one's complement value. *)
Record oc (x y : Z) : Prop := {
  oc_x : 0 <= x;
  oc_y : 0 <= y;
  oc_mod : x mod 65535 = y mod 65535;
  oc_zero : x = 0 <-> y = 0;
}.

Lemma oc_refl x : 0 <= x -> oc x x.
Proof. by split. Qed.
Lemma oc_sym x y : oc x y -> oc y x.
Proof. intros []. by split. Qed.
Lemma oc_trans x y z : oc x y -> oc y z -> oc x z.
Proof. intros [] []. split; try done; [congruence | tauto]. Qed.

Lemma oc_add a b c d : oc a b -> oc c d -> oc (a + c) (b + d).
Proof.
  intros [? ? H1 ?] [? ? H2 ?]. split; [lia | lia | | lia].
  rewrite Z.add_mod, H1, H2, <- Z.add_mod by lia. done.
Qed.

Lemma oc_mul k a b : 0 < k -> oc a b -> oc (k * a) (k * b).
Proof.
  intros Hk [? ? H ?]. split; [lia | lia | | nia].
  rewrite Z.mul_mod, H, <- Z.mul_mod by lia. done.
Qed.

(** Sums that differ by a multiple of 65535. *)
Lemma oc_diff x y k : 0 <= x -> 0 <= y -> x = y + k * 65535 -> (x = 0 <-> y = 0) -> oc x y.
Proof. intros ? ? -> ?. split; try done. apply Z.mod_add. lia. Qed.

(** The value that is in range is the representative. *)
Lemma oc_ones x y : oc x y -> x <= 65535 -> x = ones y.
Proof.
  intros [Hx Hy Hm Hz] Hle. unfold ones. destruct (Z.eqb_spec y 0); [tauto |].
  assert (0 < x) by lia.
  assert ((x - 1) mod 65535 = (y - 1) mod 65535) as Hm1
    by (rewrite Zminus_mod, Hm, <- Zminus_mod; done).
  rewrite Z.mod_small in Hm1 by lia. lia.
Qed.

Lemma ones_oc y : 0 <= y -> oc (ones y) y /\ 0 <= ones y <= 65535.
Proof.
  intros Hy. unfold ones. destruct (Z.eqb_spec y 0) as [-> | Hne]; [split; [by apply oc_refl | lia] |].
  pose proof (Z.mod_pos_bound (y - 1) 65535). split; [| lia].
  apply (oc_diff _ _ (- ((y - 1) / 65535))); [lia | lia | | lia].
  pose proof (Z.div_mod (y - 1) 65535). lia.
Qed.

Lemma ones_eq x y : oc x y -> ones x = ones y.
Proof.
  intros H. destruct (ones_oc x (oc_x _ _ H)) as [H1 ?]. apply oc_ones; [| lia]. by eapply oc_trans.
Qed.

(** ** Folding *)

Lemma land_ones_mod x n : 0 <= n -> Z.land x (2 ^ n - 1) = x mod 2 ^ n.
Proof. intros. rewrite <- Z.land_ones, Z.ones_equiv by lia. done. Qed.

Lemma fold_oc n k s : 0 < n -> 2 ^ n - 1 = k * 65535 -> 0 <= s ->
  oc (Z.land s (2 ^ n - 1) + Z.shiftr s n) s.
Proof.
  intros Hn Hk Hs. rewrite land_ones_mod, Z.shiftr_div_pow2 by lia.
  assert (0 < 2 ^ n) by lia.
  pose proof (Z.div_mod s (2 ^ n)). pose proof (Z.mod_pos_bound s (2 ^ n)).
  assert (0 <= s / 2 ^ n) by (apply Z.div_pos; lia).
  apply (oc_diff _ _ (- (k * (s / 2 ^ n)))); [lia | lia | | nia]. nia.
Qed.

Lemma fold16_oc s : 0 <= s -> oc (Z.land s 0xFFFF + Z.shiftr s 16) s.
Proof. apply (fold_oc 16 1); done. Qed.
Lemma fold32_oc s : 0 <= s -> oc (Z.land s 0xFFFFFFFF + Z.shiftr s 32) s.
Proof. apply (fold_oc 32 65537); done. Qed.

(** A fold of a sum below [2^n * m] is below [2^n + m]. *)
Lemma fold_bound n s m : 0 < n -> 0 <= s < 2 ^ n * m ->
  0 <= Z.land s (2 ^ n - 1) + Z.shiftr s n <= 2 ^ n - 1 + (m - 1).
Proof.
  intros Hn Hs. rewrite land_ones_mod, Z.shiftr_div_pow2 by lia. assert (0 < 2 ^ n) by lia.
  pose proof (Z.mod_pos_bound s (2 ^ n)). assert (0 <= s / 2 ^ n) by (apply Z.div_pos; lia).
  assert (s / 2 ^ n < m) by (apply Z.div_lt_upper_bound; lia). lia.
Qed.

(** A sum of at most one bit more than the width folds into the width. *)
Lemma fold_small n s : 0 < n -> 0 <= s < 2 ^ (n + 1) - 1 ->
  0 <= Z.land s (2 ^ n - 1) + Z.shiftr s n <= 2 ^ n - 1.
Proof.
  intros Hn Hs. rewrite land_ones_mod, Z.shiftr_div_pow2 by lia. assert (0 < 2 ^ n) by lia.
  rewrite Z.pow_add_r, Z.pow_1_r in Hs by lia.
  pose proof (Z.div_mod s (2 ^ n)). pose proof (Z.mod_pos_bound s (2 ^ n)). nia.
Qed.

Lemma swap_oc s : 0 <= s <= 65535 ->
  oc (Z.lor (Z.shiftl (Z.land s 0xFF) 8) (Z.shiftr s 8)) (256 * s) /\
  Z.lor (Z.shiftl (Z.land s 0xFF) 8) (Z.shiftr s 8) <= 65535.
Proof.
  intros Hs. change 0xFF with (2 ^ 8 - 1). rewrite land_ones_mod, Z.shiftr_div_pow2 by lia.
  assert (0 <= s / 2 ^ 8 < 2 ^ 8)
    by (split; [apply Z.div_pos; lia | apply Z.div_lt_upper_bound; lia]).
  rewrite lor_shiftl_add by (done || lia).
  pose proof (Z.div_mod s (2 ^ 8)). pose proof (Z.mod_pos_bound s (2 ^ 8)).
  change (2 ^ 8) with 256 in *. split; [| lia].
  apply (oc_diff _ _ (- (s / 256))); lia.
Qed.

(** [csum_fold] folds to 16 bits and swaps the bytes, which multiplies by 256. *)
Lemma csum_fold_spec s : 0 <= s < 2 ^ 64 -> csum_fold s = ones (256 * s).
Proof.
  intros Hs. unfold csum_fold.
  pose proof (fold_bound 32 s (2 ^ 32) ltac:(lia) ltac:(lia)) as B1.
  pose proof (fold32_oc s ltac:(lia)) as R1. change (2 ^ 32 - 1) with 0xFFFFFFFF in *.
  set (s1 := Z.land s 0xFFFFFFFF + Z.shiftr s 32) in *.
  pose proof (fold_small 32 s1 ltac:(lia) ltac:(lia)) as B2.
  pose proof (fold32_oc s1 ltac:(lia)) as R2. change (2 ^ 32 - 1) with 0xFFFFFFFF in *.
  set (s2 := Z.land s1 0xFFFFFFFF + Z.shiftr s1 32) in *.
  pose proof (fold_bound 16 s2 (2 ^ 16) ltac:(lia) ltac:(lia)) as B3.
  pose proof (fold16_oc s2 ltac:(lia)) as R3. change (2 ^ 16 - 1) with 0xFFFF in *.
  set (s3 := Z.land s2 0xFFFF + Z.shiftr s2 16) in *.
  pose proof (fold_small 16 s3 ltac:(lia) ltac:(lia)) as B4.
  pose proof (fold16_oc s3 ltac:(lia)) as R4. change (2 ^ 16 - 1) with 0xFFFF in *.
  set (s4 := Z.land s3 0xFFFF + Z.shiftr s3 16) in *.
  pose proof (fold_small 16 s4 ltac:(lia) ltac:(lia)) as B5.
  pose proof (fold16_oc s4 ltac:(lia)) as R5. change (2 ^ 16 - 1) with 0xFFFF in *.
  set (s5 := Z.land s4 0xFFFF + Z.shiftr s4 16) in *.
  destruct (swap_oc s5 ltac:(lia)) as [R6 B6].
  rewrite u16_small by (destruct R6; lia). apply oc_ones; [| done].
  eapply oc_trans; [exact R6 |]. apply oc_mul; [lia |].
  eauto using oc_trans.
Qed.

Lemma inet_fold_loop_step fuel sum : 0 <= sum < 2 ^ 64 -> 65535 < sum ->
  inet_fold_loop (S fuel) sum = inet_fold_loop fuel (Z.land sum 0xFFFF + Z.shiftr sum 16).
Proof.
  intros Hs Hbig. cbn [inet_fold_loop].
  destruct (Z.eqb_spec (Z.shiftr sum 16) 0) as [Hz | Hz]; cbn [negb].
  - rewrite Z.shiftr_div_pow2 in Hz by lia.
    apply Z.div_small_iff in Hz; lia.
  - pose proof (fold_bound 16 sum (2 ^ 48) ltac:(lia) ltac:(lia)) as B.
    change (2 ^ 16 - 1) with 0xFFFF in B. by rewrite u64_small by lia.
Qed.

Lemma inet_fold_done fuel sum : 0 <= sum <= 65535 -> inet_fold_loop fuel sum = Some sum.
Proof.
  intros Hs. assert (Z.shiftr sum 16 = 0) as Hz
    by (rewrite Z.shiftr_div_pow2 by lia; apply Z.div_small; lia).
  destruct fuel; cbn [inet_fold_loop]; rewrite Hz; cbn [Z.eqb negb]; by rewrite u16_small by lia.
Qed.

Definition folds (fuel : nat) (s : Z) : Prop :=
  exists r, inet_fold_loop fuel s = Some r /\ oc r s /\ r <= 65535.

Lemma folds_step fuel s m : 0 <= s < 2 ^ 16 * m -> m <= 2 ^ 48 ->
  (forall s', 0 <= s' <= 65535 + (m - 1) -> (s < 2 ^ 17 - 1 -> s' <= 65535) -> folds fuel s') ->
  folds (S fuel) s.
Proof.
  intros Hs Hm Hnext. destruct (Z_le_gt_dec s 65535) as [Hle | Hgt].
  { exists s. rewrite inet_fold_done by lia. split; [done |]. split; [apply oc_refl; lia | done]. }
  pose proof (fold_bound 16 s m ltac:(lia) Hs) as B. pose proof (fold16_oc s ltac:(lia)) as R.
  destruct (Hnext (Z.land s 0xFFFF + Z.shiftr s 16)) as (r & Hr & Hoc & Hb); [done | |].
  { intros Hsm. by apply (fold_small 16 s); lia. }
  exists r. rewrite inet_fold_loop_step by lia. split; [done |]. split; [| done]. by eapply oc_trans.
Qed.

Lemma inet_fold_spec s : 0 <= s < 2 ^ 64 -> inet_fold s = Some (ones s).
Proof.
  intros Hs. assert (folds 5 s) as (r & Hr & Hoc & Hb).
  { apply (folds_step 4 s (2 ^ 48)); [lia | lia |]. intros s1 H1 _.
    apply (folds_step 3 s1 (2 ^ 32 + 1)); [lia | lia |]. intros s2 H2 _.
    apply (folds_step 2 s2 (2 ^ 16 + 2)); [lia | lia |]. intros s3 H3 _.
    apply (folds_step 1 s3 3); [lia | lia |]. intros s4 H4 _.
    apply (folds_step 0 s4 2); [lia | lia |]. intros s5 H5 Hsm.
    exists s5. rewrite inet_fold_done by lia. split; [done |]. split; [apply oc_refl |]; lia. }
  unfold inet_fold. rewrite Hr. f_equal. by apply oc_ones.
Qed.

(** The complement of a 16-bit value. *)
Lemma lnot16 x : 0 <= x <= 65535 -> Z.land (Z.lnot x) 0xFFFF = 65535 - x.
Proof.
  intros Hx. change 0xFFFF with (2 ^ 16 - 1) at 1. rewrite land_ones_mod by lia. unfold Z.lnot.
  replace (Z.pred (- x)) with (65535 - x + (-1) * 2 ^ 16) by lia. rewrite Z.mod_add by lia.
  apply Z.mod_small. lia.
Qed.

Lemma u16_lnot x : 0 <= x <= 65535 -> u16 (Z.lnot x) = 65535 - x.
Proof.
  intros Hx. rewrite <- lnot16 by done. change 0xFFFF with (2 ^ 16 - 1). by rewrite land_ones_mod.
Qed.

(** ** Sums over memory *)

(** A little-endian number has the one's complement value of the sum of its
    32-bit (hence 16-bit) words. *)
Lemma le_val_chunk_oc xs ys k : bytes (xs ++ ys) -> 256 ^ Z.of_nat (length xs) - 1 = k * 65535 -> 0 <= k ->
  oc (le_val xs + le_val ys) (le_val (xs ++ ys)).
Proof.
  intros [Hx Hy]%Forall_app Hk Hk0. rewrite le_val_app.
  pose proof (le_val_range _ Hx). pose proof (le_val_range _ Hy).
  apply (oc_diff _ _ (- (k * le_val ys))); [lia | nia | | nia]. nia.
Qed.

Lemma take_chunk_oc n k (buf : list Z) : bytes buf -> (n <= length buf)%nat ->
  256 ^ Z.of_nat n - 1 = k * 65535 -> 0 <= k ->
  slice buf 0 (Z.of_nat n) = Some (take n buf) /\ 0 <= le_val (take n buf) < 256 ^ Z.of_nat n /\
  bytes (drop n buf) /\ oc (le_val (take n buf) + le_val (drop n buf)) (le_val buf).
Proof.
  intros Hb Hn Hk Hk0. rewrite slice_Some, Nat2Z.id, drop_0 by lia. split; [done |].
  assert (length (take n buf) = n) as Hlen by (rewrite length_take; lia).
  split; [| split; [by apply Forall_drop |]].
  - pose proof (le_val_range (take n buf) (Forall_take _ _ _ Hb)) as Hr. by rewrite Hlen in Hr.
  - rewrite <- (take_drop n buf) at 3. apply (le_val_chunk_oc _ _ k); rewrite ?take_drop, ?Hlen; done.
Qed.

Lemma inet_sum8_spec fuel buf s0 s1 : bytes buf -> (length buf / 8 = fuel)%nat ->
  0 <= s0 -> 0 <= s1 -> s0 + Z.of_nat fuel * 2 ^ 32 < 2 ^ 62 -> s1 + Z.of_nat fuel * 2 ^ 32 < 2 ^ 62 ->
  exists buf' s0' s1', inet_sum8 fuel buf s0 s1 = Some (buf', s0', s1') /\
    bytes buf' /\ (length buf' < 8)%nat /\ 0 <= s0' < 2 ^ 62 /\ 0 <= s1' < 2 ^ 62 /\
    oc (s0' + s1' + le_val buf') (s0 + s1 + le_val buf).
Proof.
  revert buf s0 s1. induction fuel as [| fuel IH]; intros buf s0 s1 Hb Hf H0 H1 B0 B1;
    pose proof (Nat.div_mod_eq (length buf) 8); pose proof (Nat.mod_upper_bound (length buf) 8 ltac:(lia));
    pose proof (le_val_range buf Hb); cbn [inet_sum8]; rewrite Z.geb_leb;
    destruct (Z.leb_spec 8 (Z.of_nat (length buf))); try lia.
  { exists buf, s0, s1. repeat split; try done; lia. }
  destruct (take_chunk_oc 4 65537 buf Hb) as (Hs & Hw0 & Hbd & R0); [lia | done | lia |].
  change (Z.of_nat 4) with 4 in *. rewrite Hs, option_bind_Some_fun.
  destruct (take_chunk_oc 4 65537 (drop 4 buf) Hbd) as (_ & Hw1 & Hbd2 & R1);
    [rewrite length_drop; lia | done | lia |]. change (Z.of_nat 4) with 4 in *.
  rewrite slice_Some, option_bind_Some_fun by lia.
  change (Z.to_nat 4) with 4%nat. rewrite drop_drop in *. change (4 + 4)%nat with 8%nat in *.
  change (256 ^ 4) with (2 ^ 32) in *. rewrite !u64_small by lia.
  destruct (IH (drop 8 buf) (s0 + le_val (take 4 buf)) (s1 + le_val (take 4 (drop 4 buf)))) as
    (buf' & s0' & s1' & -> & Hb' & Hl' & H0' & H1' & R); try lia; [done | |].
  { rewrite length_drop. apply (f_equal (fun x => x - 1)%nat) in Hf.
    rewrite <- (Nat.div_unique (length buf - 8) 8 fuel (length buf mod 8)); lia. }
  exists buf', s0', s1'. repeat (split; [done |]). eapply oc_trans; [exact R |].
  pose proof (le_val_range _ Hbd2).
  replace (s0 + le_val (take 4 buf) + (s1 + le_val (take 4 (drop 4 buf))) + le_val (drop 8 buf))
    with (s0 + s1 + (le_val (take 4 buf) + (le_val (take 4 (drop 4 buf)) + le_val (drop 8 buf)))) by lia.
  apply oc_add; [apply oc_refl; lia |]. eapply oc_trans; [| exact R0].
  apply oc_add; [apply oc_refl; lia | exact R1].
Qed.

(** Adding the next [n] bytes, when there are as many, to a sum. *)
Lemma sum_chunk_spec n k buf s0 s1 : bytes buf -> 0 <= s0 -> 0 <= s1 -> s0 < 2 ^ 63 -> (n <= 4)%nat ->
  256 ^ Z.of_nat n - 1 = k * 65535 -> 0 <= k ->
  exists buf' s0', (if Z.of_nat (length buf) >=? Z.of_nat n
      then w ← slice buf 0 (Z.of_nat n); Some (drop n buf, u64 (s0 + le_val w))
      else Some (buf, s0)) = Some (buf', s0') /\ bytes buf' /\
    length buf' = (if (n <=? length buf)%nat then length buf - n else length buf)%nat /\
    0 <= s0' <= s0 + 2 ^ 32 /\ oc (s0' + s1 + le_val buf') (s0 + s1 + le_val buf).
Proof.
  intros Hb H0 H1 B0 Hn4 Hk Hk0. pose proof (le_val_range buf Hb). rewrite Z.geb_leb.
  destruct (Z.leb_spec (Z.of_nat n) (Z.of_nat (length buf))).
  - destruct (take_chunk_oc n k buf Hb) as (-> & Hw & Hbd & R); [lia | done | lia |].
    rewrite option_bind_Some_fun.
    assert (256 ^ Z.of_nat n <= 256 ^ 4) by (apply Z.pow_le_mono_r; lia).
    change (256 ^ 4) with (2 ^ 32) in *. rewrite u64_small by lia.
    eexists _, _. split; [reflexivity |]. split; [done |].
    split; [destruct (Nat.leb_spec n (length buf)); rewrite length_drop; lia |]. split; [lia |].
    pose proof (le_val_range _ Hbd).
    replace (s0 + le_val (take n buf) + s1 + le_val (drop n buf))
      with (s0 + s1 + (le_val (take n buf) + le_val (drop n buf))) by lia.
    apply oc_add; [apply oc_refl; lia | done].
  - exists buf, s0. split; [done |]. split; [done |].
    split; [destruct (Nat.leb_spec n (length buf)); lia |]. split; [lia |]. apply oc_refl. lia.
Qed.

Lemma inet_sum_raw_spec buf : bytes buf -> Z.of_nat (length buf) < 2 ^ 32 ->
  exists s, inet_sum_raw buf = Some s /\ 0 <= s < 2 ^ 64 /\ oc s (le_val buf).
Proof.
  intros Hb Hl. unfold inet_sum_raw.
  assert (Z.of_nat (length buf / 8) <= 2 ^ 29).
  { rewrite Nat2Z.inj_div. apply Z.lt_le_incl, Z.div_lt_upper_bound; lia. }
  destruct (inet_sum8_spec (length buf / 8) buf 0 0) as
    (b1 & s0 & s1 & -> & Hb1 & Hl1 & H0 & H1 & R1); [done | done | lia | lia | lia | lia |].
  rewrite option_bind_Some_fun.
  destruct (sum_chunk_spec 4 65537 b1 s0 s1 Hb1) as (b2 & s2 & Hc2 & Hb2 & Hl2 & H2 & R2);
    try lia. change (Z.of_nat 4) with 4 in Hc2. rewrite Hc2, option_bind_Some_fun.
  destruct (sum_chunk_spec 2 1 b2 s2 s1 Hb2) as (b3 & s3 & Hc3 & Hb3 & Hl3 & H3 & R3);
    try lia. change (Z.of_nat 2) with 2 in Hc3. rewrite Hc3, option_bind_Some_fun.
  assert (length b3 <= 1)%nat as Hl3'.
  { rewrite Hl3. destruct (Nat.leb_spec 2 (length b2)), (Nat.leb_spec 4 (length b1)); lia. }
  pose proof (oc_trans _ _ _ R3 (oc_trans _ _ _ R2 R1)) as R.
  rewrite Z.add_0_l in R. change (0 + le_val buf) with (le_val buf) in R.
  destruct b3 as [| b []]; [| | simpl in Hl3'; lia]; cbn [length le_val] in *.
  - change (negb (Z.of_nat 0 =? 0)) with false. cbv iota. rewrite option_bind_Some_fun, u64_small by lia. eexists. split; [reflexivity |].
    split; [lia |]. by rewrite Z.add_0_r in R.
  - apply Forall_cons_iff in Hb3 as [Hbb _]. unfold is_byte, is_u in Hbb.
    change (negb (Z.of_nat 1 =? 0)) with true. change (slice [b] 0 1) with (Some [b]).
    cbv iota. rewrite !option_bind_Some_fun. cbn [le_val].
    rewrite Z.mul_0_r, Z.add_0_r in *. rewrite (u64_small (s3 + b)), u64_small by lia.
    eexists. split; [reflexivity |]. split; [lia |].
    by replace (s3 + b + s1) with (s3 + s1 + b) by lia.
Qed.

(** The big-endian words and the little-endian number: a byte swap apart. *)
Lemma be_words_oc bs : bytes bs -> oc (256 * le_val bs) (be_words_sum bs).
Proof.
  assert (forall n bs, (length bs <= n)%nat -> bytes bs -> oc (256 * le_val bs) (be_words_sum bs)) as H;
    [| intros; by apply (H (length bs))].
  induction n as [| n IH]; intros [| b0 [| b1 r]] Hn Hb; try (simpl in Hn; lia); cbn [le_val be_words_sum].
  - by apply oc_refl.
  - by apply oc_refl.
  - apply Forall_cons_iff in Hb as [Hb _]. unfold is_byte, is_u in Hb.
    replace (256 * (b0 + 256 * 0)) with (b0 * 256) by lia. apply oc_refl. lia.
  - apply Forall_cons_iff in Hb as [Hb0 [Hb1 Hr]%Forall_cons_iff]. unfold is_byte, is_u in Hb0, Hb1.
    pose proof (le_val_range _ Hr).
    eapply oc_trans; [| apply oc_add; [apply oc_refl; lia | apply IH; [simpl in Hn; lia | done]]].
    apply (oc_diff _ _ (b1 + 256 * le_val r)); lia.
Qed.

Lemma inet_sum_spec buf : bytes buf -> Z.of_nat (length buf) < 2 ^ 32 ->
  inet_sum buf = Some (ones (be_words_sum buf)).
Proof.
  intros Hb Hl. unfold inet_sum. destruct (inet_sum_raw_spec buf Hb Hl) as (s & -> & Hs & R).
  rewrite option_bind_Some_fun, csum_fold_spec by done. f_equal. apply ones_eq.
  eapply oc_trans; [apply oc_mul; [lia | exact R] |]. by apply be_words_oc.
Qed.

(** ** Sums over chains *)

Lemma csum_add_spec a b : 0 <= a < 2 ^ 64 -> 0 <= b < 2 ^ 64 ->
  0 <= csum_add a b < 2 ^ 64 /\ oc (csum_add a b) (a + b).
Proof.
  intros Ha Hb. unfold csum_add. destruct (Z_lt_ge_dec (a + b) (2 ^ 64)) as [Hs | Hs].
  - rewrite (u64_small (a + b)) by lia. destruct (Z.ltb_spec (a + b) b); [lia |].
    rewrite Z.add_0_r, u64_small by lia. split; [lia |]. apply oc_refl. lia.
  - assert (u64 (a + b) = a + b - 2 ^ 64) as ->.
    { unfold u64, wrap. replace (a + b) with (a + b - 2 ^ 64 + 1 * 2 ^ 64) at 1 by lia.
      rewrite Z.mod_add by lia. apply Z.mod_small. lia. }
    destruct (Z.ltb_spec (a + b - 2 ^ 64) b); [| lia]. rewrite u64_small by lia. split; [lia |].
    apply (oc_diff _ _ (- 281479271743489)); lia.
Qed.

(** Rotating by one byte multiplies by 256. *)
Lemma rot8_oc p : 0 <= p < 2 ^ 64 ->
  let r := Z.lor (u64 (Z.shiftl p 8)) (Z.shiftr p 56) in 0 <= r < 2 ^ 64 /\ oc r (256 * p).
Proof.
  intros Hp r. unfold r. rewrite Z.shiftr_div_pow2 by lia.
  assert (0 <= p / 2 ^ 56 < 2 ^ 8)
    by (split; [apply Z.div_pos; lia | apply Z.div_lt_upper_bound; lia]).
  pose proof (Z.div_mod p (2 ^ 56)) as Hdm. pose proof (Z.mod_pos_bound p (2 ^ 56)).
  assert (u64 (Z.shiftl p 8) = Z.shiftl (p mod 2 ^ 56) 8) as ->.
  { rewrite !Z.shiftl_mul_pow2 by lia. unfold u64, wrap. change (2 ^ 64) with (2 ^ 56 * 2 ^ 8).
    by rewrite Zmult_mod_distr_r. }
  rewrite lor_shiftl_add by (done || lia). change (2 ^ 8) with 256 in *. split; [lia |].
  apply (oc_diff _ _ (- (281479271743489 * (p / 2 ^ 56)))); lia.
Qed.

Lemma pow256_oc m x : 0 <= x -> oc (256 ^ Z.of_nat m * x) (if Nat.odd m then 256 * x else x).
Proof.
  intros Hx. induction m as [| m IH]; [rewrite Z.mul_1_l; by apply oc_refl |].
  rewrite Nat2Z.inj_succ, Z.pow_succ_r, <- Z.mul_assoc by lia.
  eapply oc_trans; [apply oc_mul; [lia | exact IH] |].
  rewrite Nat.odd_succ, <- Nat.negb_odd. destruct (Nat.odd m); cbn [negb].
  - apply (oc_diff _ _ x); lia.
  - apply oc_refl. lia.
Qed.

(** One more part after [P]: rotated when [P] has odd length. *)
Lemma part_oc P xs sum part : bytes P -> bytes xs -> 0 <= sum < 2 ^ 64 -> 0 <= part < 2 ^ 64 ->
  oc sum (le_val P) -> oc part (le_val xs) ->
  let part' := if Nat.odd (length P) then Z.lor (u64 (Z.shiftl part 8)) (Z.shiftr part 56) else part in
  0 <= csum_add sum part' < 2 ^ 64 /\ oc (csum_add sum part') (le_val (P ++ xs)).
Proof.
  intros HP Hxs Hs Hp Rs Rp part'. pose proof (le_val_range _ HP). pose proof (le_val_range _ Hxs).
  assert (0 <= part' < 2 ^ 64 /\ oc part' (if Nat.odd (length P) then 256 * part else part)) as [Hp' Rp'].
  { unfold part'. destruct (Nat.odd (length P)); [by apply rot8_oc | split; [done | apply oc_refl; lia]]. }
  destruct (csum_add_spec sum part' Hs Hp') as [Hr Rr]. split; [done |].
  eapply oc_trans; [exact Rr |]. rewrite le_val_app. apply oc_add; [done |].
  eapply oc_trans; [exact Rp' |]. apply oc_sym. eapply oc_trans; [apply pow256_oc; lia |].
  destruct (Nat.odd (length P)); [apply oc_mul; [lia | by apply oc_sym] | by apply oc_sym].
Qed.

Lemma odd_testbit n : 0 <= n -> Z.testbit n 0 = Nat.odd (Z.to_nat n).
Proof.
  intros Hn. rewrite Z.bit0_odd, <- (Z2Nat.id n) at 1 by lia.
  rewrite <- !Nat.negb_even, <- Z.negb_even. f_equal.
  destruct (Nat.even (Z.to_nat n)) eqn:E.
  - apply Nat.even_spec in E as [k ->]. apply Z.even_spec. exists (Z.of_nat k). lia.
  - apply not_true_is_false. intros [k Hk]%Z.even_spec.
    assert (Nat.even (Z.to_nat n) = true); [| congruence].
    apply Nat.even_spec. exists (Z.to_nat k). lia.
Qed.

Lemma checksum_parts_spec nb offset len sum P : Forall nb_wf nb -> bytes (content nb) ->
  0 <= offset -> 0 <= len -> match nb with [] => True | b :: _ => offset <= nb_len b end ->
  bytes P -> 0 <= sum < 2 ^ 64 -> oc sum (le_val P) ->
  exists s, checksum_parts nb offset len sum (Nat.odd (length P)) = Some s /\ 0 <= s < 2 ^ 64 /\
    oc s (le_val (P ++ take (Z.to_nat len) (drop (Z.to_nat offset) (content nb)))).
Proof.
  intros Hnb. revert offset len sum P.
  induction Hnb as [| b nb Hb Hnb IH]; intros offset len sum P Hby Ho Hl Hle HP Hs Rs;
    cbn [checksum_parts].
  { exists sum. unfold content. simpl. by rewrite drop_nil, take_nil, app_nil_r. }
  rewrite Z.gtb_ltb. destruct (Z.ltb_spec 0 len).
  2:{ exists sum. assert (len = 0) as -> by lia. by rewrite take_0, app_nil_r. }
  pose proof Hb as [? ? ? ?]. pose proof (payload_length b Hb).
  rewrite content_cons in *. apply Forall_app in Hby as [Hbp Hbc].
  set (n := if len <? nb_len b - offset then len else nb_len b - offset).
  assert (n = Z.min len (nb_len b - offset)) as Hn by (unfold n; zcase; lia).
  rewrite slice_payload, option_bind_Some_fun by (done || lia).
  set (xs := take (Z.to_nat n) (drop (Z.to_nat offset) (payload b))).
  assert (length xs = Z.to_nat n) as Hxl by (unfold xs; rewrite length_take, length_drop; lia).
  assert (bytes xs) as Hxs by (by apply Forall_take, Forall_drop).
  destruct (inet_sum_raw_spec xs Hxs) as (part & -> & Hpart & Rp); [lia |].
  rewrite option_bind_Some_fun.
  destruct (part_oc P xs sum part HP Hxs Hs Hpart Rs Rp) as [Hs' Rs'].
  assert (match nb with [] => True | b' :: _ => 0 <= nb_len b' end) as Hnext
    by (destruct Hnb as [| ? ? []]; done).
  destruct (IH 0 (len - n) _ (P ++ xs) Hbc ltac:(lia) ltac:(lia) Hnext ltac:(by apply Forall_app) Hs' Rs')
    as (s & Hrest & Hsr & Rr).
  exists s. rewrite odd_testbit, <- Hxl by lia. rewrite length_app, Nat.odd_add in Hrest.
  split; [exact Hrest |]. split; [done |].
  rewrite drop_app_le by lia. rewrite <- app_assoc, drop_0 in Rr. unfold xs in Rr.
  destruct (Z_lt_ge_dec len (nb_len b - offset)).
  - replace n with len in Rr by lia. rewrite Z.sub_diag, take_0, app_nil_r in Rr.
    by rewrite take_app_le by (rewrite length_drop; lia).
  - rewrite take_app_ge by (rewrite length_drop; lia).
    rewrite (take_ge (drop _ _)) in Rr by (rewrite length_drop; lia).
    rewrite length_drop. by replace (Z.to_nat len - (length (payload b) - Z.to_nat offset))%nat
      with (Z.to_nat (len - n)) by lia.
Qed.

Lemma checksum_skip_spec nb offset : Forall nb_wf nb -> bytes (content nb) -> 0 <= offset ->
  let '(nb', off') := checksum_skip nb offset in
  Forall nb_wf nb' /\ bytes (content nb') /\ 0 <= off' /\
  drop (Z.to_nat off') (content nb') = drop (Z.to_nat offset) (content nb) /\
  match nb' with [] => True | b :: _ => off' <= nb_len b end.
Proof.
  intros Hnb. revert offset. induction Hnb as [| b nb Hb Hnb IH]; intros offset Hby Ho; cbn [checksum_skip].
  { split; [constructor |]. by repeat split. }
  pose proof (payload_length b Hb). rewrite Z.geb_leb.
  destruct (Z.leb_spec (nb_len b) offset).
  2:{ split; [by constructor |]. repeat split; try done. lia. }
  rewrite content_cons in *. apply Forall_app in Hby as [_ Hby].
  specialize (IH (offset - nb_len b) Hby ltac:(lia)).
  destruct (checksum_skip nb (offset - nb_len b)) as [nb' off'].
  destruct IH as (Hwf & Hb' & Hoff & Hd & Hm). repeat (split; [done |]). split; [| done].
  rewrite Hd, drop_app_ge by lia. f_equal. lia.
Qed.

Lemma inet_checksum_netbuf_spec nb offset len : Forall nb_wf nb -> bytes (content nb) ->
  0 <= offset -> 0 <= len ->
  inet_checksum_netbuf nb offset len =
  Some (rfc1071 (take (Z.to_nat len) (drop (Z.to_nat offset) (content nb)))).
Proof.
  intros Hnb Hby Ho Hl. unfold inet_checksum_netbuf.
  pose proof (checksum_skip_spec nb offset Hnb Hby Ho) as Hs.
  destruct (checksum_skip nb offset) as [nb' off']. destruct Hs as (Hwf & Hby' & Hoff & Hd & Hm).
  destruct (checksum_parts_spec nb' off' len 0 [] Hwf Hby' Hoff Hl Hm (List.Forall_nil _)
    ltac:(lia) (oc_refl 0 ltac:(lia))) as (s & Hp & Hs & R).
  change (Nat.odd (length [])) with false in Hp. rewrite Hp, option_bind_Some_fun, csum_fold_spec by done.
  rewrite app_nil_l, Hd in R. set (bs := take _ _) in *.
  assert (bytes bs) as Hbs by (by apply Forall_take, Forall_drop).
  assert (ones (256 * s) = ones (be_words_sum bs)) as ->.
  { apply ones_eq. eapply oc_trans; [apply oc_mul; [lia | exact R] | by apply be_words_oc]. }
  destruct (ones_oc (be_words_sum bs) (oc_y _ _ (be_words_oc bs Hbs))) as [_ Hr].
  by rewrite u16_lnot by lia.
Qed.

Lemma inet_checksum_spec bs : bytes bs -> Z.of_nat (length bs) < 2 ^ 32 ->
  inet_checksum bs = Some (rfc1071 bs).
Proof.
  intros Hb Hl. unfold inet_checksum. rewrite inet_sum_spec, option_bind_Some_fun by done.
  destruct (ones_oc (be_words_sum bs) (oc_y _ _ (be_words_oc bs Hb))) as [_ Hr].
  rewrite inet_fold_spec, option_bind_Some_fun by lia.
  rewrite <- (oc_ones (ones (be_words_sum bs)) (ones (be_words_sum bs))) by (try apply oc_refl; lia).
  rewrite lnot16 by lia. done.
Qed.

(** ** Putting sums together *)

Lemma be_words_sum_app xs ys : Nat.Even (length xs) ->
  be_words_sum (xs ++ ys) = be_words_sum xs + be_words_sum ys.
Proof.
  intros [n Hn]. revert xs Hn. induction n as [| n IH]; intros [| a [| b xs]] Hn; try (simpl in Hn; lia).
  - done.
  - cbn [app be_words_sum]. rewrite IH by (simpl in Hn; lia). lia.
Qed.

Lemma be_words_sum_nonneg bs : bytes bs -> 0 <= be_words_sum bs.
Proof. intros Hb. apply (oc_y _ _ (be_words_oc bs Hb)). Qed.

Lemma be_words_16 v : 0 <= v < 65536 -> be_words_sum (be_bytes 2 v) = v.
Proof.
  intros Hv. unfold be_bytes. cbn [le_bytes rev app be_words_sum].
  rewrite (Z.mod_small (v / 256)) by (split; [apply Z.div_pos | apply Z.div_lt_upper_bound]; lia).
  pose proof (Z.div_mod v 256). lia.
Qed.

Lemma ones_ones x y : 0 <= x -> 0 <= y -> ones (ones x + y) = ones (x + y).
Proof.
  intros Hx Hy. apply ones_eq, oc_add; [by apply ones_oc | by apply oc_refl].
Qed.

Lemma pseudo4_spec src dst proto len : bytes src -> bytes dst -> length src = 4%nat ->
  length dst = 4%nat -> is_byte proto -> 0 <= len < 65536 ->
  inet_pseudo_checksum4 src dst proto len =
  Some (ones (be_words_sum (src ++ dst ++ [0; proto] ++ be_bytes 2 len))).
Proof.
  intros Hs Hd Ls Ld Hp Hl. unfold inet_pseudo_checksum4.
  rewrite !inet_sum_spec, !option_bind_Some_fun by (done || lia).
  pose proof (be_words_sum_nonneg _ Hs). pose proof (be_words_sum_nonneg _ Hd).
  destruct (ones_oc (be_words_sum src)) as [R1 ?], (ones_oc (be_words_sum dst)) as [R2 ?]; try done.
  unfold is_byte, is_u in Hp. set (o1 := ones (be_words_sum src)) in *.
  set (o2 := ones (be_words_sum dst)) in *.
  rewrite (u64_small (o1 + o2)), (u64_small (o1 + o2 + proto)), u64_small by lia.
  rewrite inet_fold_spec by lia. f_equal. apply ones_eq.
  rewrite (be_words_sum_app src), (be_words_sum_app dst) by (rewrite ?Ls, ?Ld; by exists 2%nat).
  rewrite (be_words_sum_app [0; proto]), be_words_16 by (done || by exists 1%nat). cbn [be_words_sum].
  replace (be_words_sum src + (be_words_sum dst + (0 * 256 + proto + 0 + len)))
    with (be_words_sum src + be_words_sum dst + proto + len) by lia.
  repeat apply oc_add; try done; apply oc_refl; lia.
Qed.

Lemma be_words_32 v : 0 <= v < 2 ^ 32 ->
  be_words_sum (be_bytes 4 v) = Z.shiftr v 16 + Z.land v 0xFFFF.
Proof.
  intros Hv. change 0xFFFF with (2 ^ 16 - 1). rewrite land_ones_mod, Z.shiftr_div_pow2 by lia.
  unfold be_bytes. cbn [le_bytes rev app be_words_sum]. change (2 ^ 16) with (256 * 256).
  rewrite (Z.rem_mul_r v 256 256), <- Z.div_div, (Z.mod_small (v / 256 / 256 / 256)) by
    (lia || (split; [repeat apply Z.div_pos; lia | repeat apply Z.div_lt_upper_bound; lia])).
  pose proof (Z.div_mod (v / 256 / 256) 256). lia.
Qed.

Lemma pseudo6_spec src dst next_header len : bytes src -> bytes dst -> length src = 16%nat ->
  length dst = 16%nat -> is_byte next_header -> 0 <= len < 2 ^ 32 ->
  inet_pseudo_checksum6 src dst next_header len =
  Some (ones (be_words_sum (src ++ dst ++ be_bytes 4 len ++ [0; 0; 0; next_header]))).
Proof.
  intros Hs Hd Ls Ld Hp Hl. unfold inet_pseudo_checksum6.
  rewrite !inet_sum_spec, !option_bind_Some_fun by (done || lia).
  pose proof (be_words_sum_nonneg _ Hs). pose proof (be_words_sum_nonneg _ Hd).
  destruct (ones_oc (be_words_sum src)) as [R1 ?], (ones_oc (be_words_sum dst)) as [R2 ?]; try done.
  assert (0 <= Z.shiftr len 16 < 65536).
  { rewrite Z.shiftr_div_pow2 by lia. split; [apply Z.div_pos | apply Z.div_lt_upper_bound]; lia. }
  assert (0 <= Z.land len 0xFFFF < 65536).
  { change 0xFFFF with (2 ^ 16 - 1). rewrite land_ones_mod by lia. by apply Z.mod_pos_bound. }
  unfold is_byte, is_u in Hp. set (o1 := ones (be_words_sum src)) in *.
  set (o2 := ones (be_words_sum dst)) in *. set (l1 := Z.shiftr len 16) in *.
  set (l2 := Z.land len 65535) in *.
  rewrite (u64_small (o1 + o2)), (u64_small (o1 + o2 + l1)), (u64_small (o1 + o2 + l1 + l2)),
    u64_small by lia.
  rewrite inet_fold_spec by lia. f_equal. apply ones_eq.
  rewrite (be_words_sum_app src), (be_words_sum_app dst) by (rewrite ?Ls, ?Ld; by exists 8%nat).
  rewrite (be_words_sum_app (be_bytes 4 len)), be_words_32
    by (done || rewrite be_bytes_length; by exists 2%nat). cbn [be_words_sum].
  fold l1 l2. replace (be_words_sum src + (be_words_sum dst + (l1 + l2 +
      (0 * 256 + 0 + (0 * 256 + next_header + 0)))))
    with (be_words_sum src + be_words_sum dst + l1 + l2 + next_header) by lia.
  repeat apply oc_add; try done; apply oc_refl; lia.
Qed.

(** ** Properties *)

(** C30: the checksum of a byte range of a packet, computed buffer by buffer in
    machine byte order with [inet_checksum_netbuf], equals [inet_checksum] of
    the same bytes laid out contiguously, and both are the complement of the
    one's complement sum of the big-endian 16-bit words (RFC 1071), however the
    packet is split into buffers. *)
Theorem checksum_independent_of_buffers nb offset len : chain_wf nb -> bytes (content nb) ->
  0 <= offset -> 0 <= len -> content_len nb < 2 ^ 32 ->
  let range := take (Z.to_nat len) (drop (Z.to_nat offset) (content nb)) in
  inet_checksum_netbuf nb offset len = Some (rfc1071 range) /\
  inet_checksum range = Some (rfc1071 range).
Proof.
  intros [Hnb _] Hb Ho Hl Hlen range. split; [by apply inet_checksum_netbuf_spec |].
  apply inet_checksum_spec; [by apply Forall_take, Forall_drop |].
  unfold range, content_len in *. rewrite length_take, length_drop. lia.
Qed.

(** Seven bytes in buffers of three, zero and four bytes. *)
Definition demo_packet : list netbuf :=
  [Netbuf [9; 1; 2; 3; 9] 1 3 1 0 7 0 0 0 0; Netbuf [9] 1 0 0 0 0 0 0 0 0;
   Netbuf [4; 5; 6; 7] 0 4 0 0 0 0 0 0 0].

Lemma demo_packet_ok : packet_ok demo_packet.
Proof.
  split; [| by eexists _, _]. split; [| done].
  repeat (constructor; [split; unfold nb_buf_size; simpl; lia |]). constructor.
Qed.

Lemma checksum_independent_of_buffers_witness :
  inet_checksum_netbuf demo_packet 1 5 = Some (rfc1071 [2; 3; 4; 5; 6]) /\
  inet_checksum [2; 3; 4; 5; 6] = Some (rfc1071 [2; 3; 4; 5; 6]).
Proof.
  apply (checksum_independent_of_buffers demo_packet 1 5).
  - apply demo_packet_ok.
  - by apply bytes_check.
  - lia.
  - lia.
  - done.
Defined.

(** The checksum stored at an even offset makes the checksum of the whole 0. *)
Lemma rfc1071_verifies pre post : bytes pre -> bytes post -> Nat.Even (length pre) ->
  rfc1071 (pre ++ be_bytes 2 (rfc1071 (pre ++ [0; 0] ++ post)) ++ post) = 0.
Proof.
  intros Hpre Hpost Hev. set (c := rfc1071 (pre ++ [0; 0] ++ post)).
  pose proof (be_words_sum_nonneg _ Hpre). pose proof (be_words_sum_nonneg _ Hpost).
  assert (c = 65535 - ones (be_words_sum pre + be_words_sum post)) as Hc.
  { unfold c, rfc1071. by rewrite be_words_sum_app. }
  destruct (ones_oc (be_words_sum pre + be_words_sum post)) as [R ?]; [lia |].
  unfold rfc1071. rewrite be_words_sum_app, (be_words_sum_app (be_bytes 2 c)), be_words_16
    by (done || lia || rewrite be_bytes_length; by exists 1%nat).
  assert (65535 = ones (be_words_sum pre + (c + be_words_sum post))) as <-; [| done].
  apply oc_ones; [| done]. destruct R as [_ _ Hm Hz]. split; [lia | lia | | lia].
  replace (be_words_sum pre + (c + be_words_sum post))
    with (65535 - ones (be_words_sum pre + be_words_sum post) + (be_words_sum pre + be_words_sum post)) by lia.
  by rewrite <- Zplus_mod_idemp_r, <- Hm, Zplus_mod_idemp_r, Z.sub_add.
Qed.

(** C31: a message whose checksum field, at an even offset, was computed with
    the field zero and stored big-endian passes the receiver's test: the
    checksum of the whole message is 0. *)
Theorem checksum_verifies pre post c : bytes pre -> bytes post -> Nat.Even (length pre) ->
  Z.of_nat (length (pre ++ [0; 0] ++ post)) < 2 ^ 32 ->
  inet_checksum (pre ++ [0; 0] ++ post) = Some c ->
  inet_checksum (pre ++ be_bytes 2 c ++ post) = Some 0.
Proof.
  intros Hpre Hpost Hev Hlen Hc.
  rewrite inet_checksum_spec in Hc; [| repeat (apply Forall_app; split); done || by apply bytes_check | done].
  injection Hc as <-. rewrite inet_checksum_spec.
  - f_equal. by apply rfc1071_verifies.
  - apply Forall_app; split; [done |]. apply Forall_app; split; [apply be_bytes_bytes | done].
  - rewrite !length_app, be_bytes_length in *. simpl in *. lia.
Qed.

Lemma checksum_verifies_witness :
  inet_checksum ([0x45; 0; 0; 0x1c] ++ be_bytes 2 0xb9c6 ++ [1; 0x1d]) = Some 0.
Proof.
  apply (checksum_verifies [0x45; 0; 0; 0x1c] [1; 0x1d]).
  - by apply bytes_check.
  - by apply bytes_check.
  - by exists 2%nat.
  - done.
  - vm_compute. reflexivity.
Defined.

(** [inet_checksum_update] is the checksum of the message with one 16-bit
    word at an even offset replaced, without reading the message, unless the
    new message is all zeros (where the incremental formula yields the other
    representation of zero). *)
Theorem checksum_update_correct pre post old new c : bytes pre -> bytes post ->
  Nat.Even (length pre) -> Z.of_nat (length (pre ++ [0; 0] ++ post)) < 2 ^ 32 ->
  0 <= old < 65536 -> 0 <= new < 65536 ->
  0 < be_words_sum pre + be_words_sum post + new ->
  inet_checksum (pre ++ be_bytes 2 old ++ post) = Some c ->
  inet_checksum_update c old new = inet_checksum (pre ++ be_bytes 2 new ++ post).
Proof.
  intros Hpre Hpost Hev Hlen Ho Hn Hnz Hc.
  assert (forall v, 0 <= v < 65536 -> inet_checksum (pre ++ be_bytes 2 v ++ post) =
    Some (65535 - ones (be_words_sum pre + v + be_words_sum post))) as Hsum.
  { intros v Hv. rewrite inet_checksum_spec.
    - unfold rfc1071. rewrite be_words_sum_app, (be_words_sum_app (be_bytes 2 v)), be_words_16
        by (done || rewrite be_bytes_length; by exists 1%nat). by rewrite Z.add_assoc.
    - apply Forall_app; split; [done |]. apply Forall_app; split; [apply be_bytes_bytes | done].
    - rewrite !length_app, be_bytes_length in *. simpl in *. lia. }
  rewrite Hsum in Hc by done. injection Hc as <-. rewrite Hsum by done.
  pose proof (be_words_sum_nonneg _ Hpre). pose proof (be_words_sum_nonneg _ Hpost).
  destruct (ones_oc (be_words_sum pre + old + be_words_sum post)) as [R ?]; [lia |].
  unfold inet_checksum_update. rewrite !u16_lnot by lia.
  rewrite inet_fold_spec, option_bind_Some_fun by lia.
  set (S := ones (be_words_sum pre + old + be_words_sum post)) in *.
  assert (ones (65535 - (65535 - S) + (65535 - old) + new) =
          ones (be_words_sum pre + new + be_words_sum post)) as ->.
  { apply ones_eq. destruct R as [? _ Hm Hz]. split; [lia | lia | | lia].
    replace (65535 - (65535 - S) + (65535 - old) + new) with (S + (65535 - old + new)) by lia.
    rewrite <- Zplus_mod_idemp_l, Hm, Zplus_mod_idemp_l.
    replace (be_words_sum pre + old + be_words_sum post + (65535 - old + new))
      with (be_words_sum pre + new + be_words_sum post + 1 * 65535) by lia.
    apply Z.mod_add. lia. }
  destruct (ones_oc (be_words_sum pre + new + be_words_sum post)) as [_ ?]; [lia |].
  by rewrite lnot16.
Qed.

Lemma checksum_update_correct_witness :
  inet_checksum_update 0xbbe3 0x4000 0x3f00 = inet_checksum [0; 0; 0x3f; 0; 4; 0x1c].
Proof.
  apply (checksum_update_correct [0; 0] [4; 0x1c] 0x4000 0x3f00).
  - by apply bytes_check.
  - by apply bytes_check.
  - by exists 1%nat.
  - done.
  - lia.
  - lia.
  - done.
  - vm_compute. reflexivity.
Defined.
