(* ===== verification/NetbufTheorems.v ===== *)
(** * Packet buffers: properties

    What the rest of the network stack may rely on, for every packet, every
    pattern of allocation failures and every content of fresh memory. *)

From stdpp Require Import base list option.
From Stdlib Require Import ZArith Lia.
From S2P Require Import Prelude Bytes Netbuf NetbufFacts NetbufOps Checksum.
Open Scope Z_scope.

(** Fresh memory full of a pattern, for the examples. *)
#[local] Instance demo_storage : FreshStorage.
Proof.
  refine {| fresh_bytes n := replicate (Z.to_nat n) 0xAA |}.
  intros n Hn. rewrite length_replicate. lia.
Defined.

(** [netbuf_adj] removes exactly [len] bytes from the front of a packet, or
    [- len] bytes from its end, or everything when there are fewer, keeps the
    packet length in the header right, and never leaves a buffer. *)
Theorem netbuf_adj_trims nb len : packet_ok nb -> - 2 ^ 63 <= len < 2 ^ 63 ->
  exists nb', netbuf_adj nb len = Some nb' /\ packet_ok nb' /\
    content nb' = if len >=? 0 then drop (Z.to_nat len) (content nb)
                  else take (Z.to_nat (content_len nb + len)) (content nb).
Proof. apply netbuf_adj_spec. Qed.

Lemma netbuf_adj_trims_witness :
  (exists nb', netbuf_adj demo_packet 4 = Some nb' /\ packet_ok nb' /\ content nb' = [5; 6; 7]) /\
  (exists nb', netbuf_adj demo_packet (-4) = Some nb' /\ packet_ok nb' /\ content nb' = [1; 2; 3]).
Proof.
  split.
  - apply (netbuf_adj_trims demo_packet 4); [apply demo_packet_ok | lia].
  - apply (netbuf_adj_trims demo_packet (-4)); [apply demo_packet_ok | lia].
Defined.

(** [netbuf_prepend] puts [len] bytes of header space in front of the
    payload, contiguous in the first buffer, and keeps everything behind it;
    it gives up the packet only when [len] exceeds a cluster or an allocation
    is refused. *)
Theorem netbuf_prepend_header `{!FreshStorage} nb len o : packet_ok nb -> 0 <= len ->
  content_len nb + len < 2 ^ 63 ->
  exists nb' o', netbuf_prepend nb len o = Some (nb', o') /\
    ((packet_ok nb' /\ contiguous nb' len /\
      exists hdr, Z.of_nat (length hdr) = len /\ content nb' = hdr ++ content nb) \/
     (nb' = [] /\ (NETBUF_CLUSTER_SIZE < len \/ refused o o'))).
Proof. apply netbuf_prepend_spec. Qed.

Lemma netbuf_prepend_header_witness : exists nb' o',
  netbuf_prepend demo_packet 20 [true] = Some (nb', o') /\
    ((packet_ok nb' /\ contiguous nb' 20 /\
      exists hdr, Z.of_nat (length hdr) = 20 /\ content nb' = hdr ++ content demo_packet) \/
     (nb' = [] /\ (NETBUF_CLUSTER_SIZE < 20 \/ refused [true] o'))).
Proof.
  apply (netbuf_prepend_header demo_packet 20 [true]); [apply demo_packet_ok | lia | done].
Defined.

(** [netbuf_pullup] returns the same bytes with the first [len] of them
    contiguous in the first buffer, never reading or writing outside a buffer;
    it frees the packet only when [len] exceeds a cluster or the packet, or an
    allocation is refused. *)
Theorem netbuf_pullup_contiguous `{!FreshStorage} nb len o : packet_ok nb -> 0 <= len ->
  exists nb' o', netbuf_pullup nb len o = Some (nb', o') /\
    ((packet_ok nb' /\ contiguous nb' len /\ content nb' = content nb) \/
     (nb' = [] /\ (NETBUF_CLUSTER_SIZE < len \/ content_len nb < len \/ refused o o'))).
Proof. apply netbuf_pullup_spec. Qed.

Lemma netbuf_pullup_contiguous_witness : exists nb' o',
  netbuf_pullup demo_packet 6 [true] = Some (nb', o') /\
    ((packet_ok nb' /\ contiguous nb' 6 /\ content nb' = content demo_packet) \/
     (nb' = [] /\ (NETBUF_CLUSTER_SIZE < 6 \/ content_len demo_packet < 6 \/ refused [true] o'))).
Proof. apply (netbuf_pullup_contiguous demo_packet 6 [true]); [apply demo_packet_ok | lia]. Defined.

(** C32: [netbuf_copyback] overwrites the packet from [offset] on, extending it
    when the data reaches beyond its end; [netbuf_copydata] then reads back
    what was written.  It fails, leaving the packet alone, for an offset beyond
    the end, and otherwise only when an allocation is refused, having written a
    prefix. *)
Theorem netbuf_copyback_copydata `{!FreshStorage} nb offset data o : packet_ok nb -> 0 <= offset ->
  content_len nb + Z.of_nat (length data) < 2 ^ 63 ->
  exists ok nb' o', netbuf_copyback nb offset data o = Some (ok, nb', o') /\ packet_ok nb' /\
    if ok then offset <= content_len nb /\
      content nb' = overwrite (content nb) (Z.to_nat offset) data /\
      netbuf_copydata nb' offset (Z.of_nat (length data)) = Some data
    else (content_len nb < offset /\ nb' = nb) \/
         (refused o o' /\ exists placed left_, data = placed ++ left_ /\ left_ <> [] /\
            content nb' = take (Z.to_nat offset) (content nb) ++ placed).
Proof.
  intros Hok Ho Hl. destruct (netbuf_copyback_spec nb offset data o Hok Ho Hl) as
    (ok & nb' & o' & Hr & Hok' & Hres). exists ok, nb', o'. split; [done |]. split; [done |].
  destruct ok; [| done]. destruct Hres as [Hle Hc]. split; [done |]. split; [done |].
  rewrite netbuf_copydata_spec by (try apply Hok'; lia). rewrite Hc, Nat2Z.id. unfold overwrite.
  assert (length (take (Z.to_nat offset) (content nb)) = Z.to_nat offset) as Ht
    by (rewrite length_take; unfold content_len in Hle; lia).
  rewrite <- Ht at 1. rewrite drop_app_length. by rewrite take_app_length.
Qed.

Lemma netbuf_copyback_copydata_witness : exists ok nb' o',
  netbuf_copyback demo_packet 5 [50; 60; 70] [true] = Some (ok, nb', o') /\ packet_ok nb' /\
    if ok then 5 <= content_len demo_packet /\
      content nb' = overwrite (content demo_packet) 5 [50; 60; 70] /\
      netbuf_copydata nb' 5 3 = Some [50; 60; 70]
    else (content_len demo_packet < 5 /\ nb' = demo_packet) \/
         (refused [true] o' /\ exists placed left_, [50; 60; 70] = placed ++ left_ /\ left_ <> [] /\
            content nb' = take 5 (content demo_packet) ++ placed).
Proof.
  apply (netbuf_copyback_copydata demo_packet 5 [50; 60; 70] [true]); [apply demo_packet_ok | lia | done].
Defined.

(** [netbuf_split] cuts a packet in two at [offset] without losing or
    reordering a byte, both halves being packets with the right length, and
    [netbuf_cat] joins them back.  It leaves the packet alone when the offset
    is beyond its end or an allocation is refused. *)
Theorem netbuf_split_cat `{!FreshStorage} nb offset o : packet_ok nb -> 0 <= offset ->
  exists nb' tail o', netbuf_split nb offset o = Some (nb', tail, o') /\
    ((packet_ok nb' /\ packet_ok tail /\ content nb' = take (Z.to_nat offset) (content nb) /\
      content tail = drop (Z.to_nat offset) (content nb) /\
      content (netbuf_cat nb' tail) = content nb) \/
     (nb' = nb /\ tail = [] /\ (content_len nb < offset \/ refused o o'))).
Proof.
  intros Hok Ho. destruct (netbuf_split_spec nb offset o Hok Ho) as (nb' & tail & o' & Hr & Hres).
  exists nb', tail, o'. split; [done |].
  destruct Hres as [(Hn & Ht & Hcn & Hct) | Hres]; [left | by right].
  repeat (split; [done |]). by rewrite netbuf_cat_content, Hcn, Hct, take_drop.
Qed.

Lemma netbuf_split_cat_witness : exists nb' tail o',
  netbuf_split demo_packet 2 [true; true] = Some (nb', tail, o') /\
    ((packet_ok nb' /\ packet_ok tail /\ content nb' = take 2 (content demo_packet) /\
      content tail = drop 2 (content demo_packet) /\
      content (netbuf_cat nb' tail) = content demo_packet) \/
     (nb' = demo_packet /\ tail = [] /\ (content_len demo_packet < 2 \/ refused [true; true] o'))).
Proof. apply (netbuf_split_cat demo_packet 2 [true; true]); [apply demo_packet_ok | lia]. Defined.

(** [netbuf_dup] returns a packet of its own storage with the same bytes,
    or nothing when an allocation is refused. *)
Theorem netbuf_dup_copies `{!FreshStorage} nb o : packet_ok nb ->
  exists copy o', netbuf_dup nb o = Some (copy, o') /\
    ((packet_ok copy /\ content copy = content nb) \/ (copy = [] /\ refused o o')).
Proof. apply netbuf_dup_spec. Qed.

Lemma netbuf_dup_copies_witness : exists copy o',
  netbuf_dup demo_packet [true; false] = Some (copy, o') /\
    ((packet_ok copy /\ content copy = content demo_packet) \/ (copy = [] /\ refused [true; false] o')).
Proof. apply (netbuf_dup_copies demo_packet [true; false]). apply demo_packet_ok. Defined.
