(* ===== verification/PktStore.v ===== *)
(** * Packets in a store

    Queues and socket buffers link packet buffers through the pointers [next]
    (buffers of one packet) and [next_pkt] (packets of a queue).  Here a buffer
    has an address, the store maps addresses to buffers, and a field access
    through a null or unknown address faults ([None]).  [lseg] relates a linked
    list in the store to a list of addresses. *)

From stdpp Require Import base list option gmap.
From Stdlib Require Import ZArith Lia.
From S2P Require Import Prelude.
Open Scope Z_scope.

(** A buffer as the queues see it: its links, the bytes it shows, its flags and
    the interface it came from. *)
Record pkt := Pkt {
  p_next : Z;
  p_next_pkt : Z;
  p_bytes : list Z;
  p_flags : Z;
  p_rcvif : Z;
}.

Abbreviation store := (gmap Z pkt).

Definition p_len (p : pkt) : Z := Z.of_nat (length (p_bytes p)).

Definition with_next (v : Z) (p : pkt) : pkt :=
  Pkt v (p_next_pkt p) (p_bytes p) (p_flags p) (p_rcvif p).
Definition with_next_pkt (v : Z) (p : pkt) : pkt :=
  Pkt (p_next p) v (p_bytes p) (p_flags p) (p_rcvif p).
Definition with_bytes (v : list Z) (p : pkt) : pkt :=
  Pkt (p_next p) (p_next_pkt p) v (p_flags p) (p_rcvif p).
Definition with_flags (v : Z) (p : pkt) : pkt :=
  Pkt (p_next p) (p_next_pkt p) (p_bytes p) v (p_rcvif p).

(** [b->f = v] *)
Definition upd (h : store) (b : Z) (f : pkt -> pkt) : option store :=
  p ← h !! b; Some (<[b := f p]> h).

Lemma upd_Some h b f p : h !! b = Some p -> upd h b f = Some (<[b := f p]> h).
Proof. unfold upd. by intros ->. Qed.

Definition last_or (d : Z) (xs : list Z) : Z := default d (last xs).

Lemma last_or_snoc d xs x : last_or d (xs ++ [x]) = x.
Proof. unfold last_or. by rewrite last_snoc. Qed.

Lemma last_or_cons d x xs : last_or d (x :: xs) = last_or x xs.
Proof.
  destruct xs as [| y xs _] using rev_ind; [done |].
  by rewrite app_comm_cons, !last_or_snoc.
Qed.

Section lseg.
Context (lk : pkt -> Z).
Implicit Types (h : store).

(** Following [lk] from [p] meets exactly [xs] and then [e]. *)
Fixpoint lseg h (p : Z) (xs : list Z) (e : Z) : Prop :=
  match xs with
  | [] => p = e
  | x :: xs' => p = x /\ x <> 0 /\ exists n, h !! x = Some n /\ lseg h (lk n) xs' e
  end.

Lemma lseg_app h p xs ys e :
  lseg h p (xs ++ ys) e <-> exists m, lseg h p xs m /\ lseg h m ys e.
Proof.
  revert p. induction xs as [| x xs IH]; intros p; simpl.
  - split; [by exists p | by intros (m & -> & H)].
  - split.
    + intros (-> & Hx & n & Hn & (m & H1 & H2)%IH). exists m. eauto 10.
    + intros (m & (-> & Hx & n & Hn & H1) & H2). split; [done |]. split; [done |].
      exists n. split; [done |]. apply IH. eauto.
Qed.

(** A store that agrees on the link of the nodes of the segment. *)
Lemma lseg_ext h h' p xs e :
  (forall x n, x ∈ xs -> h !! x = Some n -> exists n', h' !! x = Some n' /\ lk n' = lk n) ->
  lseg h p xs e -> lseg h' p xs e.
Proof.
  revert p. induction xs as [| x xs IH]; intros p Hext; simpl; [done |].
  intros (-> & Hx & n & Hn & Hs). split; [done |]. split; [done |].
  destruct (Hext x n) as (n' & Hn' & Hlk); [by left | done |]. exists n'. split; [done |].
  rewrite Hlk. apply IH; [| done]. intros y m Hy. apply Hext. by right.
Qed.

Lemma lseg_insert h p xs e x n : x ∉ xs -> lseg h p xs e -> lseg (<[x := n]> h) p xs e.
Proof.
  intros Hx. apply lseg_ext. intros y m Hy Hm. exists m. split; [| done].
  rewrite lookup_insert_ne; [done |]. by intros ->.
Qed.

Lemma lseg_first h p xs e x : lseg h p (x :: xs) e -> p = x.
Proof. by intros [-> _]. Qed.

Lemma lseg_nonzero h p xs e x : lseg h p xs e -> x ∈ xs -> x <> 0.
Proof.
  revert p. induction xs as [| y xs IH]; intros p; simpl; [by intros _ ?%not_elem_of_nil |].
  intros (-> & Hy & n & _ & Hs) [-> | Hx]%elem_of_cons; [done | by eapply IH].
Qed.

Lemma lseg_lookup h p xs e x : lseg h p xs e -> x ∈ xs -> is_Some (h !! x).
Proof.
  revert p. induction xs as [| y xs IH]; intros p; simpl; [by intros _ ?%not_elem_of_nil |].
  intros (-> & Hy & n & Hn & Hs) [-> | Hx]%elem_of_cons; [by rewrite Hn | by eapply IH].
Qed.

(** Whether a null-terminated list is empty shows in its first pointer. *)
Lemma lseg_null h p xs : lseg h p xs 0 -> (p =? 0) = match xs with [] => true | _ => false end.
Proof.
  destruct xs as [| x xs]; simpl; [by intros -> |]. intros (-> & Hx & _). by apply Z.eqb_neq.
Qed.

(** Redirecting the link of the last node. *)
Lemma lseg_relink h p xs x e e' n n' : x ∉ xs -> lseg h p (xs ++ [x]) e ->
  h !! x = Some n -> lk n' = e' -> lseg (<[x := n']> h) p (xs ++ [x]) e'.
Proof.
  intros Hx (m & H1 & (-> & Hx0 & n0 & _))%lseg_app Hn <-. apply lseg_app. exists x.
  split; [by apply lseg_insert |]. simpl. split; [done |]. split; [done |].
  exists n'. by rewrite lookup_insert_eq.
Qed.
End lseg.

(** The store has room for every node of a list, so its size is enough fuel. *)
Lemma size_bound (h : store) xs : NoDup xs -> (forall x, x ∈ xs -> is_Some (h !! x)) ->
  (length xs <= size h)%nat.
Proof.
  intros Hnd Hin. rewrite <- size_dom, <- (size_list_to_set (C := gset Z) xs Hnd).
  apply subseteq_size. intros x Hx%elem_of_list_to_set. apply elem_of_dom. auto.
Qed.

Lemma lseg_size lk h p xs e : lseg lk h p xs e -> NoDup xs -> (length xs <= size h)%nat.
Proof. intros Hs Hnd. apply size_bound; [done |]. intros x. by apply (lseg_lookup _ _ _ _ _ _ Hs). Qed.

(** Walks a list to its end: the addresses met. *)
Fixpoint collect (lk : pkt -> Z) (fuel : nat) (h : store) (p : Z) : option (list Z) :=
  if p =? 0 then Some []
  else match fuel with
  | O => None
  | S fuel' => n ← h !! p; xs ← collect lk fuel' h (lk n); Some (p :: xs)
  end.

Lemma collect_spec lk h p xs fuel : lseg lk h p xs 0 -> (length xs <= fuel)%nat ->
  collect lk fuel h p = Some xs.
Proof.
  revert p fuel. induction xs as [| x xs IH]; intros p fuel Hs Hf.
  - simpl in Hs. subst. by destruct fuel.
  - destruct Hs as (-> & Hx & n & Hn & Hs). simpl in Hf. destruct fuel as [| fuel]; [lia |].
    cbn [collect]. apply Z.eqb_neq in Hx. rewrite Hx, Hn, option_bind_Some_fun.
    by rewrite (IH (lk n)), option_bind_Some_fun by (done || lia).
Qed.
