(* ===== verification/Netqueue.v ===== *)
(** * Packet queues: drivers/net/core/netqueue.c

    The bounded queue between interrupt handlers and protocol threads, linked
    through [next_pkt], and its refinement to a bounded list.  The lock makes
    each operation atomic; packets released by [netqueue_drain] and
    [netqueue_purge] are returned in the order they are freed. *)

From stdpp Require Import base list option gmap.
From Stdlib Require Import ZArith Lia.
From S2P Require Import Prelude PktStore.
Open Scope Z_scope.

Record netqueue := Netqueue {
  q_head : Z;
  q_tail : Z;
  q_len : Z;
  q_max_len : Z;
  q_drops : Z;
}.

Definition netqueue_init (max_len : Z) : netqueue := Netqueue 0 0 0 max_len 0.

Definition netqueue_enqueue (nb : Z) (h : store) (q : netqueue) : option (bool * store * netqueue) :=
  if q_len q >=? q_max_len q then
    Some (false, h, Netqueue (q_head q) (q_tail q) (q_len q) (q_max_len q) (u64 (q_drops q + 1)))
  else
    h ← upd h nb (with_next_pkt 0);
    '(h, head) ← if negb (q_tail q =? 0)
                 then h ← upd h (q_tail q) (with_next_pkt nb); Some (h, q_head q)
                 else Some (h, nb);
    Some (true, h, Netqueue head nb (u64 (q_len q + 1)) (q_max_len q) (q_drops q)).

Definition netqueue_dequeue (h : store) (q : netqueue) : option (Z * store * netqueue) :=
  let nb := q_head q in
  if negb (nb =? 0) then
    n ← h !! nb;
    let head := p_next_pkt n in
    let tail := if head =? 0 then 0 else q_tail q in
    h ← upd h nb (with_next_pkt 0);
    Some (nb, h, Netqueue head tail (u64 (q_len q - 1)) (q_max_len q) (q_drops q))
  else Some (nb, h, q).

(** The packets to free, and the queue. *)
Definition netqueue_drain (h : store) (q : netqueue) : option (list Z * netqueue) :=
  freed ← collect p_next_pkt (size h) h (q_head q);
  Some (freed, Netqueue 0 0 0 (q_max_len q) (q_drops q)).

(** [pp]: the head of the queue, or the link of a packet. *)
Inductive link := HeadLink | PktLink (b : Z).

Definition get_link (pp : link) (h : store) (q : netqueue) : option Z :=
  match pp with HeadLink => Some (q_head q) | PktLink b => p_next_pkt <$> h !! b end.

Definition set_link (pp : link) (v : Z) (h : store) (q : netqueue) : option (store * netqueue) :=
  match pp with
  | HeadLink => Some (h, Netqueue v (q_tail q) (q_len q) (q_max_len q) (q_drops q))
  | PktLink b => h ← upd h b (with_next_pkt v); Some (h, q)
  end.

(** The loop of [netqueue_purge]; [dropped] is the list of packets taken out so
    far and [count] their number. *)
Fixpoint purge_loop (fuel : nat) (rcvif : Z) (pp : link) (dropped count : Z) (h : store) (q : netqueue)
  : option (Z * Z * store * netqueue) :=
  nb ← get_link pp h q;
  if negb (nb =? 0) then
    match fuel with
    | O => None
    | S fuel' =>
        n ← h !! nb;
        if p_rcvif n =? rcvif then
          '(h, q) ← set_link pp (p_next_pkt n) h q;
          h ← upd h nb (with_next_pkt dropped);
          purge_loop fuel' rcvif pp nb (u64 (count + 1)) h
            (Netqueue (q_head q) (q_tail q) (u64 (q_len q - 1)) (q_max_len q) (q_drops q))
        else
          purge_loop fuel' rcvif (PktLink nb) dropped count h
            (Netqueue (q_head q) nb (q_len q) (q_max_len q) (q_drops q))
    end
  else Some (dropped, count, h, q).

(** The count, the packets freed in order, the store and the queue. *)
Definition netqueue_purge (rcvif : Z) (h : store) (q : netqueue)
  : option (Z * list Z * store * netqueue) :=
  '(dropped, count, h, q) ← purge_loop (size h) rcvif HeadLink 0 0 h
    (Netqueue (q_head q) 0 (q_len q) (q_max_len q) (q_drops q));
  freed ← collect p_next_pkt (size h) h dropped;
  Some (count, freed, h, q).

Definition netqueue_len (q : netqueue) : Z := q_len q.
Definition netqueue_full (q : netqueue) : bool := q_len q >=? q_max_len q.
Definition netqueue_empty (q : netqueue) : bool := q_len q =? 0.

(** ** The list a queue stands for *)

Record netqueue_repr (h : store) (q : netqueue) (xs : list Z) : Prop := {
  nq_links : lseg p_next_pkt h (q_head q) xs 0;
  nq_tail : q_tail q = last_or 0 xs;
  nq_len : q_len q = Z.of_nat (length xs);
  nq_bound : Z.of_nat (length xs) <= q_max_len q;
  nq_nodup : NoDup xs;
  nq_max : 0 <= q_max_len q < 2 ^ 64;
}.

Lemma repr_size h q xs : netqueue_repr h q xs -> (length xs <= size h)%nat.
Proof.
  intros [Hl _ _ _ Hnd _]. by eapply lseg_size.
Qed.

Lemma netqueue_enqueue_spec h q xs nb : netqueue_repr h q xs -> nb <> 0 -> nb ∉ xs ->
  is_Some (h !! nb) ->
  if Z.of_nat (length xs) <? q_max_len q then
    exists h' q', netqueue_enqueue nb h q = Some (true, h', q') /\
      netqueue_repr h' q' (xs ++ [nb]) /\ q_max_len q' = q_max_len q /\ q_drops q' = q_drops q /\
      (forall y, y ∉ nb :: xs -> h' !! y = h !! y)
  else exists q', netqueue_enqueue nb h q = Some (false, h, q') /\ netqueue_repr h q' xs /\
    q_max_len q' = q_max_len q /\ q_drops q' = u64 (q_drops q + 1).
Proof.
  intros [Hl Ht Hlen Hb Hnd Hm] Hn0 Hnx [n Hn]. unfold netqueue_enqueue. rewrite Hlen, Z.geb_leb.
  destruct (Z.ltb_spec (Z.of_nat (length xs)) (q_max_len q)), (Z.leb_spec (q_max_len q) (Z.of_nat (length xs)));
    try lia.
  2:{ eexists. split; [reflexivity |]. split; [| done]. by split. }
  rewrite (upd_Some _ _ _ _ Hn), option_bind_Some_fun, Ht.
  destruct xs as [| x xs _] using rev_ind.
  - simpl in Hl. cbn [last_or last default Z.eqb negb]. rewrite option_bind_Some_fun.
    eexists _, _. split; [reflexivity |]. split; [| repeat split].
    + split; cbn [q_head q_tail q_len q_max_len]; try done; try (simpl in *; lia).
      * simpl. split; [done |]. split; [done |]. eexists. by rewrite lookup_insert_eq.
      * apply NoDup_singleton.
    + intros y Hy. apply lookup_insert_ne. intros ->. apply Hy. by left.
  - rewrite last_or_snoc. assert (x <> nb) by (intros ->; apply Hnx, elem_of_app; right; by left).
    pose proof (lseg_nonzero _ _ _ _ _ x Hl) as Hx0.
    assert (x <> 0) as Hx by (apply Hx0, elem_of_app; right; by left).
    apply Z.eqb_neq in Hx. rewrite Hx. cbn [negb].
    destruct (lseg_lookup _ _ _ _ _ x Hl) as [m Hmx]; [apply elem_of_app; right; by left |].
    apply NoDup_app in Hnd as (Hnd1 & Hd1 & _).
    assert (x ∉ xs) as Hxx by (intros Hin; apply (Hd1 _ Hin); by left).
    rewrite (upd_Some _ x _ m) by (by rewrite lookup_insert_ne by congruence).
    rewrite !option_bind_Some_fun. eexists _, _. split; [reflexivity |]. split; [| repeat split].
    + split; cbn [q_head q_tail q_len q_max_len].
      * apply lseg_app. exists nb. split.
        -- apply (lseg_relink _ _ _ _ _ 0 nb m); [done | | by rewrite lookup_insert_ne by congruence | done].
           by apply lseg_insert.
        -- simpl. split; [done |]. split; [done |]. eexists.
           by rewrite lookup_insert_ne, lookup_insert_eq by congruence.
      * by rewrite last_or_snoc.
      * rewrite !length_app in *. simpl in *. rewrite u64_small by lia. lia.
      * rewrite !length_app in *. simpl in *. lia.
      * apply NoDup_app. split; [| split; [| apply NoDup_singleton]].
        -- apply NoDup_app. split; [done |]. split; [done |]. apply NoDup_singleton.
        -- intros y Hy ->%list_elem_of_singleton. done.
      * done.
    + intros y Hy. rewrite !lookup_insert_ne; [done | |].
      * intros ->. apply Hy. by left.
      * intros ->. apply Hy. right. apply elem_of_app. right. by left.
Qed.

Lemma netqueue_dequeue_spec h q xs : netqueue_repr h q xs ->
  match xs with
  | [] => netqueue_dequeue h q = Some (0, h, q)
  | x :: xs' => exists h' q', netqueue_dequeue h q = Some (x, h', q') /\
      netqueue_repr h' q' xs' /\ q_max_len q' = q_max_len q /\ q_drops q' = q_drops q /\
      (forall y, y <> x -> h' !! y = h !! y)
  end.
Proof.
  intros [Hl Ht Hlen Hb Hnd Hm]. unfold netqueue_dequeue. rewrite (lseg_null _ _ _ _ Hl).
  destruct xs as [| x xs]; cbn [negb].
  - simpl in Hl. by rewrite Hl.
  - destruct Hl as (-> & Hx & n & Hn & Hs). apply NoDup_cons in Hnd as [Hxx Hnd].
    rewrite Hn, option_bind_Some_fun, (upd_Some _ _ _ _ Hn), option_bind_Some_fun.
    eexists _, _. split; [reflexivity |]. split; [| repeat split].
    + split; cbn [q_head q_tail q_len q_max_len]; try done.
      * by apply lseg_insert.
      * rewrite (lseg_null _ _ _ _ Hs), Ht, last_or_cons. destruct xs; [done |]. by rewrite !last_or_cons.
      * simpl in *. rewrite u64_small; lia.
      * simpl in *. lia.
    + intros y Hy. by apply lookup_insert_ne.
Qed.

Lemma netqueue_drain_spec h q xs : netqueue_repr h q xs ->
  exists q', netqueue_drain h q = Some (xs, q') /\ netqueue_repr h q' [].
Proof.
  intros Hr. pose proof (repr_size _ _ _ Hr) as Hsz. destruct Hr as [Hl _ _ _ _ Hm].
  unfold netqueue_drain. rewrite (collect_spec _ _ _ xs) by done. rewrite option_bind_Some_fun.
  eexists. split; [reflexivity |]. split; try done; [simpl; lia | constructor].
Qed.

(** ** Purging *)

Definition pp_of (ks : list Z) : link :=
  match last ks with None => HeadLink | Some k => PktLink k end.

(** The state of the purge loop: packets kept [ks], to scan [rs], taken [ds]. *)
Record purge_inv (h0 h : store) (q : netqueue) (dropped count : Z) (ks rs ds : list Z) : Prop := {
  pi_links : lseg p_next_pkt h (q_head q) (ks ++ rs) 0;
  pi_tail : q_tail q = last_or 0 ks;
  pi_len : q_len q = Z.of_nat (length (ks ++ rs));
  pi_dropped : lseg p_next_pkt h dropped ds 0;
  pi_count : count = Z.of_nat (length ds);
  pi_nodup : NoDup (ks ++ rs ++ ds);
  pi_rcvif : forall x, p_rcvif <$> h !! x = p_rcvif <$> h0 !! x;
  pi_frame : forall x, x ∉ ks ++ rs ++ ds -> h !! x = h0 !! x;
  pi_small : Z.of_nat (length (ks ++ rs ++ ds)) <= q_max_len q;
}.

Lemma pp_of_snoc ks k : pp_of (ks ++ [k]) = PktLink k.
Proof. unfold pp_of. by rewrite last_snoc. Qed.

Lemma get_link_spec h0 h q dropped count ks rs ds : purge_inv h0 h q dropped count ks rs ds ->
  exists p, get_link (pp_of ks) h q = Some p /\ lseg p_next_pkt h p rs 0.
Proof.
  intros [Hl _ _ _ _ _ _ _ _]. destruct ks as [| k ks _] using rev_ind.
  - exists (q_head q). done.
  - rewrite pp_of_snoc. apply lseg_app in Hl as (m & Hk & Hr).
    apply lseg_app in Hk as (m' & _ & (-> & _ & n & Hn & <-)).
    exists (p_next_pkt n). simpl. by rewrite Hn.
Qed.

Lemma NoDup_middle3 {A} (a : list A) x b c : NoDup (a ++ (x :: b) ++ c) ->
  (x ∉ a) /\ (x ∉ b) /\ (x ∉ c) /\ NoDup (a ++ b ++ c).
Proof.
  intros H. assert (NoDup (x :: a ++ b ++ c)) as [Hx Hn]%NoDup_cons
    by (revert H; by rewrite <- app_comm_cons, <- Permutation_middle).
  rewrite !elem_of_app in Hx. tauto.
Qed.

(** The packet at [x] came in on interface [rcvif]. *)
Definition from_if (h : store) (rcvif x : Z) : bool :=
  bool_decide (p_rcvif <$> h !! x = Some rcvif).

(** Unlinking the packet under [pp] and pushing it on the dropped list. *)
Lemma purge_take h0 h q dropped count ks r rs ds n :
  purge_inv h0 h q dropped count ks (r :: rs) ds -> h !! r = Some n -> q_max_len q < 2 ^ 64 ->
  exists h1 h2 q1, set_link (pp_of ks) (p_next_pkt n) h q = Some (h1, q1) /\
    upd h1 r (with_next_pkt dropped) = Some h2 /\ q_max_len q1 = q_max_len q /\
    q_drops q1 = q_drops q /\
    purge_inv h0 h2 (Netqueue (q_head q1) (q_tail q1) (u64 (q_len q1 - 1)) (q_max_len q1) (q_drops q1))
      r (u64 (count + 1)) ks rs (r :: ds).
Proof.
  intros [Hl Ht Hlen Hd Hc Hnd Hrc Hfr Hsm] Hn Hmax.
  pose proof (NoDup_middle3 _ _ _ _ Hnd) as (Hrk & Hrr & Hrd & Hnd').
  rewrite length_app in Hlen. rewrite !length_app in Hsm. cbn [length] in Hlen, Hsm.
  assert (exists h1 q1, set_link (pp_of ks) (p_next_pkt n) h q = Some (h1, q1) /\
    lseg p_next_pkt h1 (q_head q1) (ks ++ rs) 0 /\ h1 !! r = Some n /\
    lseg p_next_pkt h1 dropped ds 0 /\
    q_tail q1 = q_tail q /\ q_len q1 = q_len q /\ q_max_len q1 = q_max_len q /\ q_drops q1 = q_drops q /\
    (forall x, p_rcvif <$> h1 !! x = p_rcvif <$> h !! x) /\
    (forall x, x ∉ ks -> h1 !! x = h !! x) /\ r <> 0) as
    (h1 & q1 & -> & Hl1 & Hn1 & Hd1 & Ht1 & Hq1 & Hm1 & Hdr1 & Hrc1 & Hfr1 & Hr0).
  { destruct ks as [| k ks _] using rev_ind.
    - simpl in Hl. destruct Hl as (Hh & Hr0 & n' & Hn' & Hs). rewrite Hn in Hn'. injection Hn' as <-.
      eexists _, _. split; [reflexivity |]. simpl. repeat (split; [done |]). done.
    - rewrite pp_of_snoc. cbn [set_link].
      apply lseg_app in Hl as (m & Hk & (-> & Hr0 & n' & Hn' & Hs)). rewrite Hn in Hn'. injection Hn' as <-.
      destruct (lseg_lookup _ _ _ _ _ k Hk) as [nk Hnk]; [apply elem_of_app; right; by left |].
      rewrite (upd_Some _ _ _ _ Hnk), option_bind_Some_fun. eexists _, _. split; [reflexivity |].
      assert ((k ∉ ks) /\ (k ∉ rs) /\ (k ∉ ds) /\ k <> r) as (Hk1 & Hk2 & Hk3 & Hk4).
      { rewrite <- app_assoc in Hnd'. apply (NoDup_middle3 ks k [] (rs ++ ds)) in Hnd' as (? & _ & Hx & _).
        rewrite elem_of_app in Hx. repeat split; try tauto. intros ->. apply Hrk, elem_of_app. right. by left. }
      split; [| split; [| split; [| repeat (split; [done |])]]].
      + apply lseg_app. exists (p_next_pkt n). split; [| by apply lseg_insert].
        by apply (lseg_relink _ _ _ _ _ r (p_next_pkt n) nk).
      + by rewrite lookup_insert_ne by congruence.
      + by apply lseg_insert.
      + split; [| split; [| done]].
        * intros x. destruct (decide (x = k)) as [-> |]; [by rewrite lookup_insert_eq, Hnk |].
          by rewrite lookup_insert_ne by congruence.
        * intros x Hx. apply lookup_insert_ne. intros ->. apply Hx, elem_of_app. right. by left. }
  eexists h1, _, q1. split; [done |]. split; [by apply (upd_Some _ _ _ n) |].
  split; [done |]. split; [done |].
  assert (r ∉ ks ++ rs) as Hrkr by (rewrite elem_of_app; tauto).
  split; cbn [q_head q_tail q_len q_max_len].
  - by apply lseg_insert.
  - congruence.
  - rewrite length_app, Hq1, Hlen. rewrite u64_small; lia.
  - simpl. split; [done |]. split; [done |]. eexists. rewrite lookup_insert_eq. split; [done |].
    simpl. by apply lseg_insert.
  - rewrite Hc. cbn [length]. rewrite u64_small; lia.
  - revert Hnd. by rewrite <- app_comm_cons, (Permutation_app_comm (rs) (r :: ds)), <- app_comm_cons,
      (Permutation_app_comm ds rs), (Permutation_middle rs).
  - intros x. destruct (decide (x = r)) as [-> |].
    + rewrite lookup_insert_eq, <- Hrc, Hn. done.
    + by rewrite lookup_insert_ne, Hrc1, Hrc by congruence.
  - intros x Hx. rewrite !elem_of_app, elem_of_cons in Hx. rewrite lookup_insert_ne by (intros ->; tauto).
    rewrite Hfr1 by tauto. apply Hfr. rewrite !elem_of_app, elem_of_cons. tauto.
  - rewrite !length_app. cbn [length]. lia.
Qed.

Lemma purge_keep h0 h q dropped count ks r rs ds :
  purge_inv h0 h q dropped count ks (r :: rs) ds ->
  purge_inv h0 h (Netqueue (q_head q) r (q_len q) (q_max_len q) (q_drops q)) dropped count
    (ks ++ [r]) rs ds.
Proof.
  intros [Hl Ht Hlen Hd Hc Hnd Hrc Hfr Hsm].
  assert (forall t, (ks ++ [r]) ++ t = ks ++ r :: t) as Heq by (intros; by rewrite <- app_assoc).
  split; cbn [q_head q_tail q_len q_max_len]; rewrite ?Heq; try done. by rewrite last_or_snoc.
Qed.

Lemma purge_loop_spec fuel rcvif h0 h q dropped count ks rs ds :
  purge_inv h0 h q dropped count ks rs ds -> (length rs <= fuel)%nat -> q_max_len q < 2 ^ 64 ->
  let mine := from_if h0 rcvif in
  exists dropped' count' h' q', purge_loop fuel rcvif (pp_of ks) dropped count h q =
      Some (dropped', count', h', q') /\
    q_max_len q' = q_max_len q /\ q_drops q' = q_drops q /\
    purge_inv h0 h' q' dropped' count' (ks ++ List.filter (fun x => negb (mine x)) rs) []
      (rev (List.filter mine rs) ++ ds).
Proof.
  intros Hinv Hf Hmax mine. revert fuel h q dropped count ks ds Hinv Hf Hmax.
  induction rs as [| r rs IH]; intros fuel h q dropped count ks ds Hinv Hf Hmax;
    destruct (get_link_spec _ _ _ _ _ _ _ _ Hinv) as (p & Hp & Hs).
  - simpl in Hs. subst p. exists dropped, count, h, q. simpl. rewrite app_nil_r.
    destruct fuel; cbn [purge_loop]; rewrite Hp, option_bind_Some_fun; done.
  - destruct fuel as [| fuel]; [simpl in Hf; lia |]. cbn [purge_loop].
    rewrite Hp, option_bind_Some_fun. destruct Hs as (-> & Hr & n & Hn & Hs).
    apply Z.eqb_neq in Hr. rewrite Hr. cbn [negb]. rewrite Hn, option_bind_Some_fun.
    assert (mine r = (p_rcvif n =? rcvif)) as Hmine.
    { unfold mine, from_if. rewrite <- (pi_rcvif _ _ _ _ _ _ _ _ Hinv), Hn. simpl.
      destruct (Z.eqb_spec (p_rcvif n) rcvif) as [-> | Hne]; [by apply bool_decide_eq_true_2 |].
      apply bool_decide_eq_false_2. congruence. }
    cbn [List.filter]. rewrite Hmine. destruct (p_rcvif n =? rcvif); cbn [negb].
    + destruct (purge_take _ _ _ _ _ _ _ _ _ _ Hinv Hn Hmax) as (h1 & h2 & q1 & -> & Hu & Hm & Hd & Hinv').
      rewrite option_bind_Some_fun, Hu, option_bind_Some_fun.
      destruct (IH fuel _ _ _ _ _ _ Hinv') as (d' & c' & h' & q' & -> & Hm' & Hd' & Hfin);
        [simpl in Hf; lia | simpl; lia |].
      exists d', c', h', q'. split; [done |]. split; [by rewrite Hm' |]. split; [by rewrite Hd' |].
      cbn [rev]. by rewrite <- app_assoc.
    + pose proof (purge_keep _ _ _ _ _ _ _ _ _ Hinv) as Hinv'.
      destruct (IH fuel _ _ _ _ _ _ Hinv') as (d' & c' & h' & q' & Hr' & Hm' & Hd' & Hfin);
        [simpl in Hf; lia | simpl; lia |].
      rewrite pp_of_snoc in Hr'. exists d', c', h', q'. split; [done |]. split; [done |]. split; [done |].
      by rewrite <- app_assoc in Hfin.
Qed.

Lemma netqueue_purge_spec rcvif h q xs : netqueue_repr h q xs ->
  let mine := from_if h rcvif in
  exists h' q', netqueue_purge rcvif h q =
      Some (Z.of_nat (length (List.filter mine xs)), rev (List.filter mine xs), h', q') /\
    netqueue_repr h' q' (List.filter (fun x => negb (mine x)) xs) /\
    q_max_len q' = q_max_len q /\ q_drops q' = q_drops q /\
    (forall x, x ∉ xs -> h' !! x = h !! x).
Proof.
  intros Hr mine. pose proof (repr_size _ _ _ Hr) as Hsz. destruct Hr as [Hl Ht Hlen Hb Hnd Hm].
  unfold netqueue_purge.
  assert (purge_inv h h (Netqueue (q_head q) 0 (q_len q) (q_max_len q) (q_drops q)) 0 0 [] xs []) as Hinv.
  { split; simpl; rewrite ?app_nil_r; try done. }
  destruct (purge_loop_spec (size h) rcvif _ _ _ _ _ _ _ _ Hinv) as
    (d & c & h' & q' & Hloop & Hm' & Hd' & Hfin); [done | simpl; lia |].
  change (pp_of []) with HeadLink in Hloop. rewrite Hloop, option_bind_Some_fun. fold mine in Hfin.
  rewrite app_nil_l, app_nil_r in Hfin. destruct Hfin as [Fl Ft Fn Fd Fc Fnd Frc Ffr Fsm].
  rewrite app_nil_r in Fl, Fn. rewrite app_nil_l in Fnd, Fsm, Ffr.
  pose proof Fnd as (Fk & _ & Fr)%NoDup_app.
  rewrite (collect_spec _ _ _ (rev (List.filter mine xs))), option_bind_Some_fun;
    [| done | by eapply lseg_size].
  exists h', q'. rewrite Fc, length_rev. split; [done |]. split; [| split; [done |]; split; [done |]].
  - rewrite length_app in Fsm. split; try done; [lia | by rewrite Hm'].
  - intros x Hx. apply Ffr. rewrite elem_of_app, !list_elem_of_In, <- in_rev, !filter_In.
    rewrite list_elem_of_In in Hx. tauto.
Qed.

(** ** Properties *)

Inductive queue_op := Enqueue (nb : Z) | Dequeue | Drain | Purge (rcvif : Z).

(** What an operation returns: acceptance, a packet, or the packets freed. *)
Inductive queue_result := Accepted (ok : bool) | Packet (nb : Z) | Freed (nbs : list Z).

Definition run_queue_op (op : queue_op) (h : store) (q : netqueue)
  : option (queue_result * store * netqueue) :=
  match op with
  | Enqueue nb => '(ok, h, q) ← netqueue_enqueue nb h q; Some (Accepted ok, h, q)
  | Dequeue => '(nb, h, q) ← netqueue_dequeue h q; Some (Packet nb, h, q)
  | Drain => '(freed, q) ← netqueue_drain h q; Some (Freed freed, h, q)
  | Purge rcvif => '(_, freed, h, q) ← netqueue_purge rcvif h q; Some (Freed freed, h, q)
  end.

(** A bounded queue as a list. *)
Definition queue_spec (mine : Z -> Z -> bool) (max_len : Z) (op : queue_op) (xs : list Z)
  : queue_result * list Z :=
  match op with
  | Enqueue nb => if Z.of_nat (length xs) <? max_len then (Accepted true, xs ++ [nb]) else (Accepted false, xs)
  | Dequeue => match xs with [] => (Packet 0, []) | x :: xs' => (Packet x, xs') end
  | Drain => (Freed xs, [])
  | Purge rcvif => (Freed (rev (List.filter (mine rcvif) xs)),
                    List.filter (fun x => negb (mine rcvif x)) xs)
  end.

Definition valid_queue_op (op : queue_op) (h : store) (xs : list Z) : Prop :=
  match op with
  | Enqueue nb => nb <> 0 /\ (nb ∉ xs) /\ is_Some (h !! nb)
  | _ => True
  end.

(** C33: a packet queue is a bounded first-in first-out list: a packet is
    accepted exactly when fewer than [max_len] are waiting, packets leave in
    the order they arrived, a drain frees every packet once, and a purge frees
    exactly the packets of one interface and keeps the order of the others.
    The length counter, the tail pointer and the end of the list stay right. *)
Theorem netqueue_refines_fifo op h q xs : netqueue_repr h q xs -> valid_queue_op op h xs ->
  exists r h' q' xs', run_queue_op op h q = Some (r, h', q') /\
    (r, xs') = queue_spec (from_if h) (q_max_len q) op xs /\
    netqueue_repr h' q' xs' /\ netqueue_len q' = Z.of_nat (length xs') /\
    (netqueue_empty q' = true <-> xs' = []).
Proof.
  intros Hr Hv.
  assert (forall h' q' xs', netqueue_repr h' q' xs' -> netqueue_repr h' q' xs' /\
    netqueue_len q' = Z.of_nat (length xs') /\ (netqueue_empty q' = true <-> xs' = [])) as Hend.
  { intros h' q' xs' Hr'. split; [done |]. unfold netqueue_len, netqueue_empty.
    rewrite (nq_len _ _ _ Hr'). split; [done |]. destruct xs'; simpl; [done |]. split; done. }
  destruct op as [nb | | | rcvif]; cbn [run_queue_op queue_spec].
  - destruct Hv as (Hn0 & Hnx & Hs). pose proof (netqueue_enqueue_spec h q xs nb Hr Hn0 Hnx Hs) as He.
    destruct (_ <? _); [destruct He as (h' & q' & -> & Hr' & _) | destruct He as (q' & -> & Hr' & _)];
      rewrite option_bind_Some_fun; do 4 eexists; (split; [reflexivity |]); (split; [reflexivity |]);
      by apply Hend.
  - pose proof (netqueue_dequeue_spec h q xs Hr) as Hd. destruct xs as [| x xs];
      [rewrite Hd | destruct Hd as (h' & q' & -> & Hr' & _)]; rewrite option_bind_Some_fun; do 4 eexists;
      (split; [reflexivity |]); (split; [reflexivity |]); by apply Hend.
  - destruct (netqueue_drain_spec h q xs Hr) as (q' & -> & Hr'). rewrite option_bind_Some_fun.
    do 4 eexists. split; [reflexivity |]. split; [reflexivity |]. by apply Hend.
  - destruct (netqueue_purge_spec rcvif h q xs Hr) as (h' & q' & -> & Hr' & _).
    rewrite option_bind_Some_fun. do 4 eexists. split; [reflexivity |]. split; [reflexivity |].
    by apply Hend.
Qed.

(** Packets 1, 2, 3 of interfaces 7, 8, 7. *)
Definition demo_queue_store : store :=
  {[ 1 := Pkt 0 2 [] 0 7; 2 := Pkt 0 3 [] 0 8; 3 := Pkt 0 0 [] 0 7 ]}.

Lemma netqueue_refines_fifo_witness : exists r h' q' xs',
  run_queue_op (Purge 7) demo_queue_store (Netqueue 1 3 3 4 0) = Some (r, h', q') /\
  (r, xs') = (Freed [3; 1], [2]) /\ netqueue_repr h' q' xs' /\
  netqueue_len q' = Z.of_nat (length xs') /\ (netqueue_empty q' = true <-> xs' = []).
Proof.
  apply (netqueue_refines_fifo (Purge 7) demo_queue_store (Netqueue 1 3 3 4 0) [1; 2; 3]); [| done].
  split; try done.
  - simpl. repeat (split; [done |]; split; [done |]; eexists; split; [reflexivity |]; simpl). done.
  - repeat (apply NoDup_cons; split; [set_solver by lia |]). apply NoDup_nil_2.
Defined.
