(* ===== verification/Sockbuf.v ===== *)
(** * Socket buffers: drivers/net/socket/sockbuf.c

    A socket buffer is a list of records linked through [next_pkt], each a
    chain of packet buffers linked through [next]; a record of a datagram
    socket starts with a buffer that holds the sender's address.  The counter
    [cc] is the number of data bytes.  The pointers are those of the source
    (PktStore.v); the second half proves that the buffer behaves as a byte
    stream and a list of records, with [cc] and the tail pointer right. *)

From stdpp Require Import base list option gmap.
From Stdlib Require Import ZArith Lia.
From S2P Require Import Prelude PktStore Netbuf.
Open Scope Z_scope.

Definition SB_WAIT : Z := 0x01.
Definition SB_NOINTR : Z := 0x02.
Definition SB_CANTMORE : Z := 0x04.
Definition NETBUF_SOCKADDR : Z := 0x0100.

Record sockbuf := Sockbuf {
  sb_head : Z;
  sb_tail : Z;
  sb_cc : Z;
  sb_hiwat : Z;
  sb_lowat : Z;
  sb_flags : Z;
}.

Definition set_ptrs (head tail cc : Z) (sb : sockbuf) : sockbuf :=
  Sockbuf head tail cc (sb_hiwat sb) (sb_lowat sb) (sb_flags sb).

Definition sockbuf_is_addr (p : pkt) : bool := (p_flags p &? NETBUF_SOCKADDR)%hermes.

(** The data bytes a chain carries, walking [next] from [nb]. *)
Fixpoint chain_len_loop (fuel : nat) (h : store) (nb n : Z) : option Z :=
  if nb =? 0 then Some n
  else match fuel with
  | O => None
  | S fuel' =>
      p ← h !! nb;
      chain_len_loop fuel' h (p_next p) (if sockbuf_is_addr p then n else u64 (n + p_len p))
  end.
Definition sockbuf_chain_len (h : store) (nb : Z) : option Z := chain_len_loop (size h) h nb 0.

Definition sockbuf_init (hiwat : Z) : sockbuf := Sockbuf 0 0 0 hiwat 1 0.

Definition sockbuf_space (sb : sockbuf) : Z :=
  if sb_cc sb <? sb_hiwat sb then sb_hiwat sb - sb_cc sb else 0.

(** The last buffer of a chain. *)
Fixpoint last_buf (fuel : nat) (h : store) (b : Z) : option Z :=
  p ← h !! b;
  if p_next p =? 0 then Some b
  else match fuel with O => None | S fuel' => last_buf fuel' h (p_next p) end.

(** [netbuf_cat] through the pointers. *)
Definition netbuf_cat_ptr (nb tail : Z) (h : store) : option store :=
  if tail =? 0 then Some h
  else
    last ← last_buf (size h) h nb;
    h ← upd h last (with_next tail);
    h ← upd h tail (fun p => with_flags (p_flags p &~ NETBUF_PKTHDR)%hermes p);
    upd h tail (with_next_pkt 0).

Definition sockbuf_append (nb : Z) (h : store) (sb : sockbuf) : option (store * sockbuf) :=
  if nb =? 0 then Some (h, sb)
  else
    len ← sockbuf_chain_len h nb;
    if negb (sb_tail sb =? 0) then
      h ← netbuf_cat_ptr (sb_tail sb) nb h;
      Some (h, set_ptrs (sb_head sb) (sb_tail sb) (u64 (sb_cc sb + len)) sb)
    else
      h ← upd h nb (with_next_pkt 0);
      Some (h, set_ptrs nb nb (u64 (sb_cc sb + len)) sb).

(** [rec] is the address [malloc] returns, 0 when it fails; [from] the bytes of
    the sender's address. *)
Definition sockbuf_append_addr (rec : Z) (from : list Z) (nb : Z) (h : store) (sb : sockbuf)
  : option (bool * store * sockbuf) :=
  len ← if negb (nb =? 0) then sockbuf_chain_len h nb else Some 0;
  if Z.of_nat (length from) >? NETBUF_SIZE - NETBUF_HEADROOM then Some (false, h, sb)
  else if rec =? 0 then Some (false, h, sb)
  else
    let h := <[rec := Pkt nb 0 from (Z.lor NETBUF_PKTHDR NETBUF_SOCKADDR) 0]> h in
    h ← if negb (nb =? 0)
        then upd h nb (fun p => with_flags (p_flags p &~ NETBUF_PKTHDR)%hermes p) else Some h;
    if (len >? sockbuf_space sb) || (sb_flags sb &? SB_CANTMORE)%hermes then
      h ← if negb (nb =? 0)
          then upd h nb (fun p => with_flags (Z.lor (p_flags p) NETBUF_PKTHDR) p) else Some h;
      Some (false, delete rec h, sb)
    else
      '(h, head) ← if negb (sb_tail sb =? 0)
                   then h ← upd h (sb_tail sb) (with_next_pkt rec); Some (h, sb_head sb)
                   else Some (h, rec);
      Some (true, h, set_ptrs head rec (u64 (sb_cc sb + len)) sb).

(** The loop of [sockbuf_drop]; [freed] is the list of buffers to free. *)
Fixpoint drop_loop (fuel : nat) (len freed : Z) (h : store) (sb : sockbuf) : option (Z * store * sockbuf) :=
  if (len =? 0) || (sb_head sb =? 0) then Some (freed, h, sb)
  else match fuel with
  | O => None
  | S fuel' =>
      let b := sb_head sb in
      p ← h !! b;
      if negb (sockbuf_is_addr p) && (p_len p >? len) then
        h ← upd h b (with_bytes (drop (Z.to_nat len) (p_bytes p)));
        Some (freed, h, set_ptrs (sb_head sb) (sb_tail sb) (u64 (sb_cc sb - len)) sb)
      else
        let '(len, cc) := if negb (sockbuf_is_addr p)
                          then (len - p_len p, u64 (sb_cc sb - p_len p)) else (len, sb_cc sb) in
        let rest := p_next p in
        '(h, sb) ← if negb (rest =? 0) then
                     h ← upd h rest (with_next_pkt (p_next_pkt p));
                     Some (h, set_ptrs rest (if sb_tail sb =? b then rest else sb_tail sb) cc sb)
                   else
                     Some (h, set_ptrs (p_next_pkt p) (if sb_tail sb =? b then 0 else sb_tail sb) cc sb);
        h ← upd h b (with_next 0);
        h ← upd h b (with_next_pkt freed);
        drop_loop fuel' len b h sb
  end.

(** The buffers freed, the store and the buffer. *)
Definition sockbuf_drop (len : Z) (h : store) (sb : sockbuf) : option (list Z * store * sockbuf) :=
  '(freed, h, sb) ← drop_loop (size h) len 0 h sb;
  freed ← collect p_next_pkt (size h) h freed;
  Some (freed, h, sb).

(** The record freed (0 for none), the store and the buffer. *)
Definition sockbuf_drop_record (h : store) (sb : sockbuf) : option (Z * store * sockbuf) :=
  let rec := sb_head sb in
  if negb (rec =? 0) then
    p ← h !! rec;
    let head := p_next_pkt p in
    let tail := if head =? 0 then 0 else sb_tail sb in
    len ← sockbuf_chain_len h rec;
    h ← upd h rec (with_next_pkt 0);
    Some (rec, h, set_ptrs head tail (u64 (sb_cc sb - len)) sb)
  else Some (0, h, sb).

(** The inner loop of [sockbuf_copy] over one record: bytes copied, what is left
    of the offset and of the length. *)
Fixpoint copy_record (fuel : nat) (h : store) (b offset len : Z) : option (list Z * Z * Z) :=
  if (b =? 0) || (len =? 0) then Some ([], offset, len)
  else match fuel with
  | O => None
  | S fuel' =>
      p ← h !! b;
      if sockbuf_is_addr p then copy_record fuel' h (p_next p) offset len
      else if offset >=? p_len p then copy_record fuel' h (p_next p) (offset - p_len p) len
      else
        let n := if p_len p - offset <? len then p_len p - offset else len in
        let part := take (Z.to_nat n) (drop (Z.to_nat offset) (p_bytes p)) in
        '(out, offset, len) ← copy_record fuel' h (p_next p) 0 (len - n);
        Some (part ++ out, offset, len)
  end.

Fixpoint copy_records (fuel : nat) (h : store) (rec offset len : Z) : option (list Z) :=
  if (rec =? 0) || (len =? 0) then Some []
  else match fuel with
  | O => None
  | S fuel' =>
      '(part, offset, len) ← copy_record (size h) h rec offset len;
      p ← h !! rec;
      out ← copy_records fuel' h (p_next_pkt p) offset len;
      Some (part ++ out)
  end.

(** The bytes written to [out]; their number is the value returned. *)
Definition sockbuf_copy (offset len : Z) (h : store) (sb : sockbuf) : option (list Z) :=
  copy_records (size h) h (sb_head sb) offset len.

(** The records released and the emptied buffer. *)
Definition sockbuf_release (h : store) (sb : sockbuf) : option (list Z * sockbuf) :=
  recs ← collect p_next_pkt (size h) h (sb_head sb);
  Some (recs, set_ptrs 0 0 0 sb).

(** ** The records a socket buffer stands for *)

(** A record is its first buffer and the rest of the chain. *)
Abbreviation record := (Z * list Z)%type.
Definition bufs_of (r : record) : list Z := r.1 :: r.2.
Definition all_bufs (rs : list record) : list Z := flat_map bufs_of rs.

Definition data_of (h : store) (b : Z) : list Z :=
  match h !! b with
  | Some p => if sockbuf_is_addr p then [] else p_bytes p
  | None => []
  end.
Definition chain_data (h : store) (bs : list Z) : list Z := flat_map (data_of h) bs.
Definition stream (h : store) (rs : list record) : list Z := chain_data h (all_bufs rs).

Record sockbuf_repr (h : store) (sb : sockbuf) (rs : list record) : Prop := {
  sr_records : lseg p_next_pkt h (sb_head sb) (map fst rs) 0;
  sr_chains : Forall (fun r => lseg p_next h r.1 (bufs_of r) 0) rs;
  sr_tail : sb_tail sb = last_or 0 (map fst rs);
  sr_cc : sb_cc sb = Z.of_nat (length (stream h rs));
  sr_nodup : NoDup (all_bufs rs);
  sr_small : Z.of_nat (length (stream h rs)) < 2 ^ 63;
}.

(** ** Chains and their data *)

Lemma data_of_eq h h' b p p' : h !! b = Some p -> h' !! b = Some p' -> p_bytes p' = p_bytes p ->
  sockbuf_is_addr p' = sockbuf_is_addr p -> data_of h' b = data_of h b.
Proof. unfold data_of. by intros -> -> -> ->. Qed.

Lemma chain_data_ext h h' bs : (forall b, b ∈ bs -> data_of h' b = data_of h b) ->
  chain_data h' bs = chain_data h bs.
Proof.
  intros H. induction bs as [| b bs IH]; [done |]. unfold chain_data in *. simpl. f_equal.
  - apply H. by left.
  - apply IH. intros c Hc. apply H. by right.
Qed.

Lemma chain_data_app h xs ys : chain_data h (xs ++ ys) = chain_data h xs ++ chain_data h ys.
Proof. apply flat_map_app. Qed.

Lemma all_bufs_app xs ys : all_bufs (xs ++ ys) = all_bufs xs ++ all_bufs ys.
Proof. apply flat_map_app. Qed.

Lemma stream_cons h b xs rs : stream h ((b, xs) :: rs) = data_of h b ++ chain_data h xs ++ stream h rs.
Proof. unfold stream, all_bufs, chain_data. simpl. by rewrite flat_map_app. Qed.

Lemma heads_in rs x : x ∈ map fst rs -> x ∈ all_bufs rs.
Proof.
  induction rs as [| [b xs] rs IH]; [done |]. intros [-> | Hx]%elem_of_cons; [by left |].
  right. apply elem_of_app. right. auto.
Qed.

Lemma NoDup_heads rs : NoDup (all_bufs rs) -> NoDup (map fst rs).
Proof.
  induction rs as [| [b xs] rs IH]; [constructor |]. intros H. simpl in *.
  apply NoDup_cons in H as [Hb H]. apply NoDup_app in H as (_ & _ & H).
  apply NoDup_cons. split; [| auto]. intros Hin%heads_in. apply Hb, elem_of_app. by right.
Qed.

Lemma chain_len_loop_spec h p bs fuel n : lseg p_next h p bs 0 -> (length bs <= fuel)%nat -> 0 <= n ->
  n + Z.of_nat (length (chain_data h bs)) < 2 ^ 64 ->
  chain_len_loop fuel h p n = Some (n + Z.of_nat (length (chain_data h bs))).
Proof.
  revert p fuel n. induction bs as [| b bs IH]; intros p fuel n Hs Hf Hn Hlt.
  - simpl in Hs. subst. destruct fuel; simpl; f_equal; lia.
  - destruct Hs as (-> & Hb & q & Hq & Hs). simpl in Hf. destruct fuel as [| fuel]; [lia |].
    cbn [chain_len_loop]. apply Z.eqb_neq in Hb. rewrite Hb, Hq, option_bind_Some_fun.
    change (chain_data h (b :: bs)) with (data_of h b ++ chain_data h bs) in *.
    rewrite length_app in *. unfold data_of in *. rewrite Hq in *. unfold p_len.
    destruct (sockbuf_is_addr q); cbn [length] in *.
    + rewrite IH by (done || lia). done.
    + rewrite u64_small, IH by (done || lia). f_equal. lia.
Qed.

Lemma sockbuf_chain_len_spec h p bs : lseg p_next h p bs 0 -> NoDup bs ->
  Z.of_nat (length (chain_data h bs)) < 2 ^ 64 ->
  sockbuf_chain_len h p = Some (Z.of_nat (length (chain_data h bs))).
Proof.
  intros Hs Hnd Hlt. unfold sockbuf_chain_len.
  by rewrite (chain_len_loop_spec h p bs) by (done || eapply lseg_size; done).
Qed.

Lemma last_buf_spec h p bs x fuel : lseg p_next h p (bs ++ [x]) 0 -> (length bs <= fuel)%nat ->
  last_buf fuel h p = Some x.
Proof.
  revert p fuel. induction bs as [| b bs IH]; intros p fuel Hs Hf.
  - destruct Hs as (-> & _ & q & Hq & Hz). simpl in Hz.
    destruct fuel; cbn [last_buf]; by rewrite Hq, option_bind_Some_fun, Hz.
  - destruct Hs as (-> & _ & q & Hq & Hs). simpl in Hf. destruct fuel as [| fuel]; [lia |].
    cbn [last_buf]. rewrite Hq, option_bind_Some_fun.
    assert ((p_next q =? 0) = false) as ->.
    { rewrite (lseg_null _ _ _ _ Hs). by destruct bs. }
    apply IH; [done | lia].
Qed.

(** Clearing or setting the packet-header flag does not touch the address flag. *)
Lemma is_addr_flags p f : (forall i, 1 <= i -> Z.testbit f i = Z.testbit (p_flags p) i) ->
  sockbuf_is_addr (with_flags f p) = sockbuf_is_addr p.
Proof.
  intros H. unfold sockbuf_is_addr, NETBUF_SOCKADDR. change 0x0100 with (Z.shiftl 1 8).
  rewrite !land_bit_eqb by lia. simpl p_flags. by rewrite H.
Qed.

Lemma clear_pkthdr_bits f i : 1 <= i -> Z.testbit (f &~ NETBUF_PKTHDR)%hermes i = Z.testbit f i.
Proof.
  intros Hi. rewrite Z.ldiff_spec. change NETBUF_PKTHDR with (Z.shiftl 1 0).
  rewrite shiftl_one_spec by lia. destruct (Z.eqb_spec i 0); [lia |]. apply andb_true_r.
Qed.

(** The links of a socket buffer, apart from the byte counter. *)
Record sb_links (h : store) (head tail : Z) (rs : list record) : Prop := {
  sl_records : lseg p_next_pkt h head (map fst rs) 0;
  sl_chains : Forall (fun r => lseg p_next h r.1 (bufs_of r) 0) rs;
  sl_tail : tail = last_or 0 (map fst rs);
  sl_nodup : NoDup (all_bufs rs);
}.

Lemma repr_links h sb rs : sockbuf_repr h sb rs <->
  sb_links h (sb_head sb) (sb_tail sb) rs /\
  sb_cc sb = Z.of_nat (length (stream h rs)) /\ Z.of_nat (length (stream h rs)) < 2 ^ 63.
Proof.
  split.
  - intros []. by repeat split.
  - intros ([] & ? & ?). by split.
Qed.

(** Chains untouched by a change of the store. *)
Lemma chains_ext h h' rs :
  (forall b p, b ∈ all_bufs rs -> h !! b = Some p -> exists p', h' !! b = Some p' /\ p_next p' = p_next p) ->
  Forall (fun r => lseg p_next h r.1 (bufs_of r) 0) rs ->
  Forall (fun r => lseg p_next h' r.1 (bufs_of r) 0) rs.
Proof.
  intros Hext HF. induction HF as [| [b xs] rs Hr HF IH]; constructor.
  - revert Hr. apply lseg_ext. intros x n Hx. apply Hext. apply elem_of_app. by left.
  - apply IH. intros x p Hx. apply Hext. apply elem_of_app. by right.
Qed.

(** ** Appending *)

(** The records after a chain is appended to the last of them. *)
Definition append_records (rs : list record) (nb : Z) (ys : list Z) : list record :=
  match last rs with
  | None => [(nb, ys)]
  | Some (x, xs) => removelast rs ++ [(x, xs ++ nb :: ys)]
  end.

Lemma append_records_snoc rs x xs nb ys :
  append_records (rs ++ [(x, xs)]) nb ys = rs ++ [(x, xs ++ nb :: ys)].
Proof. unfold append_records. by rewrite last_snoc, removelast_last. Qed.

Lemma all_bufs_append rs nb ys : all_bufs (append_records rs nb ys) = all_bufs rs ++ nb :: ys.
Proof.
  destruct rs as [| [x xs] rs _] using rev_ind.
  - unfold append_records, all_bufs, bufs_of. simpl. by rewrite app_nil_r.
  - rewrite append_records_snoc, !all_bufs_app. unfold all_bufs at 2 4, bufs_of. simpl.
    by rewrite !app_nil_r, <- !app_assoc.
Qed.

(** [netbuf_cat] on the last record. *)
Lemma cat_links h head tail rs x xs nb ys : sb_links h head tail (rs ++ [(x, xs)]) ->
  lseg p_next h nb (nb :: ys) 0 -> NoDup (all_bufs (rs ++ [(x, xs)]) ++ nb :: ys) ->
  exists h', netbuf_cat_ptr x nb h = Some h' /\
    sb_links h' head tail (rs ++ [(x, xs ++ nb :: ys)]) /\
    (forall b, data_of h' b = data_of h b).
Proof.
  intros [Hr Hc Ht Hnd1] Hy Hnd. unfold netbuf_cat_ptr.
  pose proof Hy as (_ & Hnb0 & pn & Hpn & Hys). apply Z.eqb_neq in Hnb0 as Hnz. rewrite Hnz.
  apply Forall_app in Hc as [Hc Hcx]. apply Forall_cons_iff in Hcx as [Hcx _]. simpl in Hcx.
  rewrite all_bufs_app in Hnd, Hnd1. simpl in Hnd, Hnd1. unfold bufs_of in Hcx, Hnd, Hnd1. simpl in *.
  rewrite app_nil_r in Hnd, Hnd1.
  assert (exists zs z, x :: xs = zs ++ [z]) as (zs & z & Hz).
  { destruct (exists_last (l := x :: xs)) as (zs & z & Hz); [done |]. eauto. }
  assert (NoDup (zs ++ [z])) as Hndz by (rewrite <- Hz; by apply NoDup_app in Hnd1 as (_ & _ & ?)).
  assert (forall b, b ∈ x :: xs -> b <> nb /\ (b ∉ ys)) as Hdis.
  { intros b Hb. apply NoDup_app in Hnd as (_ & Hd & _).
    assert (b ∉ nb :: ys) as Hn by (apply Hd, elem_of_app; by right).
    rewrite elem_of_cons in Hn. split; [intros -> | intros Hin]; apply Hn; auto. }
  assert (z ∈ x :: xs) as Hzin by (rewrite Hz; apply elem_of_app; right; by left).
  destruct (Hdis z Hzin) as [Hzn Hzy].
  pose proof Hcx as Hcz. change (lseg p_next h x (x :: xs) 0) in Hcz. rewrite Hz in Hcz.
  rewrite (last_buf_spec h x zs z); [| done |].
  2:{ pose proof (lseg_size _ _ _ _ _ Hcz Hndz) as Hsz. rewrite length_app in Hsz. lia. }
  rewrite option_bind_Some_fun.
  destruct (lseg_lookup _ _ _ _ _ z Hcz) as [pz Hpz]; [rewrite <- Hz; done |].
  rewrite (upd_Some _ _ _ _ Hpz), option_bind_Some_fun.
  rewrite (upd_Some _ nb _ pn), option_bind_Some_fun by (by rewrite lookup_insert_ne).
  erewrite upd_Some by (by rewrite lookup_insert_eq).
  eexists. split; [reflexivity |]. rewrite insert_insert_eq.
  set (pn' := with_next_pkt 0 _). set (pz' := with_next nb pz).
  set (h' := <[nb := pn']> (<[z := pz']> h)).
  assert (forall b p, b <> z -> h !! b = Some p -> exists p', h' !! b = Some p' /\ p_next p' = p_next p) as Hnext.
  { intros b p Hbz Hb. unfold h'. destruct (decide (b = nb)) as [-> |].
    - rewrite lookup_insert_eq. exists pn'. rewrite Hpn in Hb. injection Hb as <-. done.
    - rewrite !lookup_insert_ne by congruence. by exists p. }
  assert (z ∉ zs) as Hzz by (apply NoDup_app in Hndz as (_ & Hd & _); intros Hin; apply (Hd _ Hin); by left).
  split; [split |].
  - rewrite map_app in *. revert Hr. apply lseg_ext. intros b p Hb Hbp. unfold h'.
    assert (b <> nb).
    { intros ->. apply NoDup_app in Hnd as (_ & Hd & _).
      apply (Hd nb); [| by left]. rewrite elem_of_app. apply elem_of_app in Hb as [Hb | Hb].
      - left. by apply heads_in. - right. simpl in Hb. apply list_elem_of_singleton in Hb. subst. by left. }
    rewrite lookup_insert_ne by congruence. destruct (decide (b = z)) as [-> |].
    + rewrite lookup_insert_eq. exists pz'. rewrite Hpz in Hbp. injection Hbp as <-. done.
    + rewrite lookup_insert_ne by congruence. by exists p.
  - apply Forall_app. split.
    + apply (chains_ext h); [| done]. intros b p Hb. apply Hnext. intros ->.
      apply NoDup_app in Hnd1 as (_ & Hd & _). by apply (Hd z).
    + apply Forall_singleton. simpl. change (lseg p_next h' x ((x :: xs) ++ nb :: ys) 0). rewrite Hz.
      apply lseg_app. exists nb. split.
      * unfold h'. apply lseg_insert; [rewrite <- Hz; intros Hin; by destruct (Hdis nb Hin) |].
        by apply (lseg_relink _ _ _ _ _ 0 nb pz).
      * apply (lseg_ext p_next h h' nb (nb :: ys) 0); [| exact Hy].
        intros b p Hb. apply Hnext. intros ->. apply elem_of_cons in Hb as [-> | Hb]; done.
  - by rewrite Ht, !map_app.
  - rewrite all_bufs_app. simpl. unfold bufs_of. simpl. rewrite app_nil_r.
    revert Hnd. by rewrite <- app_assoc.
  - intros b. unfold h'. destruct (decide (b = nb)) as [-> |].
    + unfold data_of. rewrite lookup_insert_eq, Hpn.
      assert (sockbuf_is_addr pn' = sockbuf_is_addr pn) as ->; [| done].
      apply (is_addr_flags pn). intros i. apply clear_pkthdr_bits.
    + unfold data_of. rewrite lookup_insert_ne by congruence. destruct (decide (b = z)) as [-> |].
      * by rewrite lookup_insert_eq, Hpz.
      * by rewrite lookup_insert_ne by congruence.
Qed.

Lemma sockbuf_append_spec h sb rs nb ys : sockbuf_repr h sb rs -> lseg p_next h nb (nb :: ys) 0 ->
  NoDup (all_bufs rs ++ nb :: ys) ->
  Z.of_nat (length (stream h rs ++ chain_data h (nb :: ys))) < 2 ^ 63 ->
  exists h' sb', sockbuf_append nb h sb = Some (h', sb') /\
    sockbuf_repr h' sb' (append_records rs nb ys) /\
    stream h' (append_records rs nb ys) = stream h rs ++ chain_data h (nb :: ys).
Proof.
  intros [Hl [Hcc _]]%repr_links Hy Hnd Hlen. unfold sockbuf_append.
  pose proof Hy as (_ & Hnb0 & pn & Hpn & Hys). apply Z.eqb_neq in Hnb0 as Hnz. rewrite Hnz.
  rewrite length_app in Hlen. apply NoDup_app in Hnd as Hnd'. destruct Hnd' as (_ & Hdis & Hndy).
  rewrite (sockbuf_chain_len_spec h nb (nb :: ys)), option_bind_Some_fun by (done || lia).
  assert (forall h' sb', sb_links h' (sb_head sb') (sb_tail sb') (append_records rs nb ys) ->
    (forall b, data_of h' b = data_of h b) ->
    sb_cc sb' = u64 (sb_cc sb + Z.of_nat (length (chain_data h (nb :: ys)))) ->
    sockbuf_repr h' sb' (append_records rs nb ys) /\
    stream h' (append_records rs nb ys) = stream h rs ++ chain_data h (nb :: ys)) as Hend.
  { intros h' sb' Hl' Hd Hcc'.
    assert (stream h' (append_records rs nb ys) = stream h rs ++ chain_data h (nb :: ys)) as Hs.
    { unfold stream. by rewrite all_bufs_append, (chain_data_ext h h'), chain_data_app. }
    split; [| done]. apply repr_links. split; [done |]. rewrite Hs, length_app.
    split; [| lia]. rewrite Hcc', Hcc, u64_small; lia. }
  destruct rs as [| [x xs] rs _] using rev_ind.
  - destruct Hl as [Hr _ Ht _]. rewrite Ht. cbn [last_or map last default Z.eqb negb].
    rewrite (upd_Some _ _ _ _ Hpn), option_bind_Some_fun. eexists _, _. split; [reflexivity |].
    apply Hend; [| | done].
    + split; [| | done |].
      * simpl. split; [done |]. split; [done |]. eexists. by rewrite lookup_insert_eq.
      * apply Forall_singleton. apply (lseg_ext p_next h _ nb (nb :: ys) 0); [| exact Hy].
        intros b p _ Hb.
        destruct (decide (b = nb)) as [-> |]; [| rewrite lookup_insert_ne by congruence; by exists p].
        rewrite lookup_insert_eq. rewrite Hpn in Hb. injection Hb as <-. by eexists.
      * simpl. by rewrite app_nil_r.
    + intros b. unfold data_of. destruct (decide (b = nb)) as [-> |];
        [by rewrite lookup_insert_eq, Hpn | by rewrite lookup_insert_ne by congruence].
  - pose proof Hl as [Hr _ Ht _]. rewrite map_app in Hr, Ht. simpl in Hr, Ht. rewrite last_or_snoc in Ht.
    assert (x <> 0) as Hx0 by (apply (lseg_nonzero _ _ _ _ _ _ Hr), elem_of_app; right; by left).
    apply Z.eqb_neq in Hx0. rewrite Ht, Hx0. cbn [negb].
    destruct (cat_links h _ _ rs x xs nb ys Hl Hy Hnd) as (h' & -> & Hl' & Hd).
    rewrite option_bind_Some_fun. eexists _, _. split; [reflexivity |].
    rewrite append_records_snoc in *. rewrite Ht in Hl'. by apply Hend.
Qed.

(** ** Dropping *)

(** Unlinking the first buffer [b] of a socket buffer and pushing it on the list
    of freed buffers. *)
Definition pop_records (b : Z) (xs : list Z) (rs : list record) : list record :=
  match xs with [] => rs | y :: ys => (y, ys) :: rs end.

Lemma all_bufs_pop b xs rs : all_bufs (pop_records b xs rs) = xs ++ all_bufs rs.
Proof. by destruct xs. Qed.

Lemma tail_is_head h head tail b xs rs : sb_links h head tail ((b, xs) :: rs) ->
  (tail =? b) = match rs with [] => true | _ => false end.
Proof.
  intros [_ _ -> Hnd%NoDup_heads]. change (map fst ((b, xs) :: rs)) with (b :: map fst rs) in *.
  rewrite last_or_cons. apply NoDup_cons in Hnd as [Hb _].
  destruct rs as [| r rs _] using rev_ind; [apply Z.eqb_refl |].
  rewrite map_app in *. cbn [map] in *. rewrite last_or_snoc.
  destruct (Z.eqb_spec r.1 b) as [<- |]; [| by destruct rs].
  exfalso. apply Hb, elem_of_app. right. by left.
Qed.

Lemma pop_links h head tail b xs rs fs freed p : sb_links h head tail ((b, xs) :: rs) ->
  h !! b = Some p -> lseg p_next_pkt h freed fs 0 -> NoDup (all_bufs ((b, xs) :: rs) ++ fs) ->
  exists h1 h2 h3 head' tail',
    (if negb (p_next p =? 0)
     then upd h (p_next p) (with_next_pkt (p_next_pkt p)) else Some h) = Some h1 /\
    head' = (if negb (p_next p =? 0) then p_next p else p_next_pkt p) /\
    tail' = (if tail =? b then (if negb (p_next p =? 0) then p_next p else 0) else tail) /\
    upd h1 b (with_next 0) = Some h2 /\ upd h2 b (with_next_pkt freed) = Some h3 /\
    sb_links h3 head' tail' (pop_records b xs rs) /\ lseg p_next_pkt h3 b (b :: fs) 0 /\
    NoDup (all_bufs (pop_records b xs rs) ++ b :: fs) /\
    (forall x, x <> b -> data_of h3 x = data_of h x) /\ (size h3 = size h).
Proof.
  intros Hl Hp Hfs Hnd. pose proof (tail_is_head _ _ _ _ _ _ Hl) as Htail.
  destruct Hl as [(-> & Hb0 & p' & Hp' & Hheads) Hc Ht Hnd1]. simpl in Hp', Hheads.
  rewrite Hp in Hp'. injection Hp' as <-.
  apply Forall_cons_iff in Hc as [Hcb Hc]. simpl in Hcb.
  destruct Hcb as (_ & _ & p' & Hp' & Hxs). rewrite Hp in Hp'. injection Hp' as <-.
  assert (NoDup (b :: xs ++ all_bufs rs ++ fs)) as Hnd2 by (revert Hnd; simpl; by rewrite <- app_assoc).
  apply NoDup_cons in Hnd2 as [Hbn Hnd2]. rewrite !elem_of_app in Hbn.
  rewrite (lseg_null _ _ _ _ Hxs).
  set (h1 := match xs with
             | [] => h
             | y :: _ => match h !! y with Some q => <[y := with_next_pkt (p_next_pkt p) q]> h | None => h end
             end).
  assert (h1 !! b = Some p /\ (forall x, p_next <$> h1 !! x = p_next <$> h !! x) /\
    (forall x, data_of h1 x = data_of h x) /\ size h1 = size h /\
    (forall x, (x ∉ xs) -> h1 !! x = h !! x)) as (H1b & H1n & H1d & H1s & H1f).
  { unfold h1. destruct xs as [| y ys]; [done |]. destruct Hxs as (_ & _ & q & Hq & _). rewrite Hq.
    assert (y <> b) by (intros ->; apply Hbn; left; by left).
    split; [by rewrite lookup_insert_ne |]. split; [| split; [| split]].
    - intros x. destruct (decide (x = y)) as [-> |]; [by rewrite lookup_insert_eq, Hq |].
      by rewrite lookup_insert_ne by congruence.
    - intros x. unfold data_of. destruct (decide (x = y)) as [-> |]; [by rewrite lookup_insert_eq, Hq |].
      by rewrite lookup_insert_ne by congruence.
    - by apply map_size_insert_Some.
    - intros x Hx. apply lookup_insert_ne. intros ->. apply Hx. by left. }
  eexists h1, _, _, _, _.
  split.
  { unfold h1. destruct xs as [| y ys]; [done |]. cbn [negb]. destruct Hxs as (-> & _ & q & Hq & _).
    rewrite Hq. by apply (upd_Some _ _ _ q). }
  split; [reflexivity |]. split; [reflexivity |]. split; [by apply (upd_Some _ _ _ p) |].
  split; [eapply upd_Some; by rewrite lookup_insert_eq |]. rewrite insert_insert_eq.
  set (pb := with_next_pkt freed (with_next 0 p)).
  assert (forall x q, x <> b -> h !! x = Some q ->
    exists q', <[b := pb]> h1 !! x = Some q' /\ p_next q' = p_next q) as Hnext.
  { intros x q Hx Hq. rewrite lookup_insert_ne by congruence. specialize (H1n x). rewrite Hq in H1n.
    destruct (h1 !! x) as [q' |]; [| done]. injection H1n as Hn. by exists q'. }
  split; [split | split; [| split; [| split]]].
  - (* records *) destruct xs as [| y ys]; cbn [negb pop_records].
    + simpl in Hxs. apply lseg_insert; [intros Hin%heads_in; tauto | done].
    + destruct Hxs as (-> & Hy0 & q & Hq & _).
      assert (y <> b) by (intros ->; apply Hbn; left; by left).
      simpl. split; [done |]. split; [done |]. exists (with_next_pkt (p_next_pkt p) q).
      unfold h1. rewrite Hq, lookup_insert_ne, lookup_insert_eq by congruence. split; [done |].
      simpl. apply lseg_insert; [intros Hin%heads_in; tauto |].
      apply lseg_insert; [| done]. intros Hin%heads_in.
      apply NoDup_cons in Hnd2 as [Hy _]. apply Hy. rewrite !elem_of_app. auto.
  - (* chains *) assert (Forall (fun r => lseg p_next h r.1 (bufs_of r) 0) (pop_records b xs rs)) as Hc0.
    { destruct xs as [| y ys]; [done |]. constructor; [| done]. simpl.
      by destruct (lseg_first _ _ _ _ _ _ Hxs). }
    apply (chains_ext h); [| done]. intros x q Hx. apply Hnext. intros ->.
    rewrite all_bufs_pop, elem_of_app in Hx. tauto.
  - (* tail *) rewrite Htail, Ht. simpl. rewrite last_or_cons. destruct rs as [| r rs].
    + destruct xs as [| y ys]; [done |]. by destruct Hxs as (-> & _).
    + destruct xs as [| y ys]; simpl; by rewrite !last_or_cons.
  - rewrite all_bufs_pop. rewrite app_assoc in Hnd2. by apply NoDup_app in Hnd2 as [? _].
  - simpl. split; [done |]. split; [done |]. exists pb. rewrite lookup_insert_eq. split; [done |].
    simpl. apply lseg_insert; [tauto |]. revert Hfs. apply lseg_ext. intros x q Hx Hq.
    exists q. split; [| done]. rewrite H1f; [done |]. intros Hin.
    apply NoDup_app in Hnd2 as (_ & Hd & _). apply (Hd x Hin), elem_of_app. by right.
  - rewrite all_bufs_pop, <- Permutation_middle. apply NoDup_cons. rewrite !elem_of_app.
    split; [tauto |]. by rewrite <- app_assoc.
  - intros x Hx. unfold data_of at 1. rewrite lookup_insert_ne by congruence. apply H1d.
  - rewrite <- H1s. by apply map_size_insert_Some.
Qed.

(** What the loop of [sockbuf_drop] returns, from a state with freed buffers [fs]. *)
Definition drop_outcome (len : Z) (h : store) (rs : list record) (fs : list Z)
    (r : option (Z * store * sockbuf)) : Prop :=
  exists freed' h' sb' rs' gone, r = Some (freed', h', sb') /\
    sockbuf_repr h' sb' rs' /\ stream h' rs' = drop (Z.to_nat len) (stream h rs) /\
    all_bufs rs = gone ++ all_bufs rs' /\ lseg p_next_pkt h' freed' (rev gone ++ fs) 0 /\
    NoDup (rev gone ++ fs) /\ size h' = size h.

Lemma drop_stop len freed h sb rs fs : sockbuf_repr h sb rs ->
  lseg p_next_pkt h freed fs 0 -> NoDup (all_bufs rs ++ fs) ->
  drop (Z.to_nat len) (stream h rs) = stream h rs ->
  drop_outcome len h rs fs (Some (freed, h, sb)).
Proof.
  intros Hr Hfs Hnd Hd. exists freed, h, sb, rs, []. split; [done |]. split; [done |].
  split; [done |]. split; [done |]. split; [done |]. split; [| done].
  by apply NoDup_app in Hnd as (_ & _ & ?).
Qed.

Lemma drop_loop_spec fuel len freed h sb rs fs : sockbuf_repr h sb rs ->
  lseg p_next_pkt h freed fs 0 -> NoDup (all_bufs rs ++ fs) -> 0 <= len ->
  (length (all_bufs rs) <= fuel)%nat ->
  drop_outcome len h rs fs (drop_loop fuel len freed h sb).
Proof.
  revert len freed h sb rs fs. induction fuel as [| fuel IH]; intros len freed h sb rs fs Hr Hfs Hnd Hlen Hf;
    cbn [drop_loop]; pose proof Hr as [Hl [Hcc Hsm]]%repr_links;
    pose proof (lseg_null _ _ _ _ (sl_records _ _ _ _ Hl)) as Hnull;
    (destruct (Z.eqb_spec len 0) as [-> | Hl0]; cbn [orb]; [by apply drop_stop |]);
    (destruct rs as [| [b xs] rs]; simpl in Hnull; rewrite Hnull;
     [apply drop_stop; try done; apply drop_nil |]).
  { simpl in Hf. lia. }
  pose proof (sl_records _ _ _ _ Hl) as (Hhead & Hb0 & p & Hp & _).
  cbn [fst] in Hhead, Hp. rewrite Hhead, Hp, option_bind_Some_fun.
  assert (data_of h b = if sockbuf_is_addr p then [] else p_bytes p) as Hdb by (unfold data_of; by rewrite Hp).
  rewrite stream_cons in *. rewrite Hdb in *.
  destruct (negb (sockbuf_is_addr p) && (p_len p >? len)) eqn:Hpart.
  - (* part of the first buffer *)
    apply andb_true_iff in Hpart as [Hna Hgt]. apply negb_true_iff in Hna. rewrite Hna in *.
    rewrite Z.gtb_ltb in Hgt. apply Z.ltb_lt in Hgt. unfold p_len in Hgt.
    rewrite (upd_Some _ _ _ _ Hp), option_bind_Some_fun.
    set (p' := with_bytes _ p). set (h' := <[b := p']> h).
    exists freed, h', (set_ptrs b (sb_tail sb) (u64 (sb_cc sb - len)) sb), ((b, xs) :: rs), [].
    split; [done |].
    assert (forall x q, h !! x = Some q -> exists q', h' !! x = Some q' /\ p_next q' = p_next q /\
      p_next_pkt q' = p_next_pkt q) as Hlinks.
    { intros x q Hq. unfold h'. destruct (decide (x = b)) as [-> |].
      - rewrite lookup_insert_eq. exists p'. rewrite Hp in Hq. by injection Hq as <-.
      - rewrite lookup_insert_ne by congruence. by exists q. }
    assert (data_of h' b = drop (Z.to_nat len) (p_bytes p)) as Hdb'.
    { unfold data_of, h'. rewrite lookup_insert_eq. change (sockbuf_is_addr p') with (sockbuf_is_addr p). by rewrite Hna. }
    assert (stream h' ((b, xs) :: rs) = drop (Z.to_nat len) (p_bytes p ++ chain_data h xs ++ stream h rs)) as Hs'.
    { rewrite stream_cons, Hdb', drop_app_le by lia. f_equal. f_equal; apply chain_data_ext; intros x Hx;
        unfold data_of, h'; rewrite lookup_insert_ne; try done; intros ->;
        apply NoDup_app in Hnd as [[Hbx _]%NoDup_cons _]; apply Hbx, elem_of_app; auto. }
    split; [| split; [by rewrite Hs', stream_cons, Hdb |]; split; [done |];
      split; [| split; [by apply NoDup_app in Hnd as (_ & _ & ?) |]]].
    + apply repr_links. destruct Hl as [Lr Lc Lt Ln]. split; [split; [| | done | done] |].
      * simpl sb_head. rewrite Hhead in Lr. revert Lr. apply lseg_ext.
        intros x q _ Hq. destruct (Hlinks x q Hq) as (q' & ? & _ & ?). eauto.
      * apply (chains_ext h); [| done]. intros x q _ Hq. destruct (Hlinks x q Hq) as (q' & ? & ? & _). eauto.
      * rewrite Hs', length_drop. rewrite !length_app in *. simpl. rewrite u64_small; lia.
    + revert Hfs. apply lseg_ext. intros x q _ Hq. destruct (Hlinks x q Hq) as (q' & ? & _ & ?). eauto.
    + by apply map_size_insert_Some.
  - (* the whole first buffer *)
    assert (Z.of_nat (length (data_of h b)) <= len) as Hle.
    { rewrite Hdb. apply andb_false_iff in Hpart. destruct (sockbuf_is_addr p); [simpl; lia |].
      destruct Hpart as [? | Hpart]; [done |]. rewrite Z.gtb_ltb in Hpart. apply Z.ltb_ge in Hpart. done. }
    set (len' := len - Z.of_nat (length (data_of h b))).
    set (cc' := u64 (sb_cc sb - Z.of_nat (length (data_of h b)))).
    assert ((if negb (sockbuf_is_addr p) then (len - p_len p, u64 (sb_cc sb - p_len p)) else (len, sb_cc sb)) =
            (len', cc')) as ->.
    { unfold len', cc'. rewrite Hdb. destruct (sockbuf_is_addr p); simpl; [| done].
      rewrite !Z.sub_0_r, u64_small by lia. done. }
    rewrite Hhead in Hl.
    destruct (pop_links h b (sb_tail sb) b xs rs fs freed p Hl Hp Hfs Hnd) as
      (h1 & h2 & h3 & head' & tail' & H1 & Hh' & Ht' & H2 & H3 & Hl3 & Hfs3 & Hnd3 & Hd3 & Hsz3).
    assert ((if negb (p_next p =? 0)
             then h0 ← upd h (p_next p) (with_next_pkt (p_next_pkt p));
                  Some (h0, set_ptrs (p_next p) (if sb_tail sb =? b then p_next p else sb_tail sb) cc' sb)
             else Some (h, set_ptrs (p_next_pkt p) (if sb_tail sb =? b then 0 else sb_tail sb) cc' sb)) =
            Some (h1, set_ptrs head' tail' cc' sb)) as ->.
    { rewrite Hh', Ht'. destruct (negb (p_next p =? 0)); [by rewrite H1 | by injection H1 as ->]. }
    rewrite option_bind_Some_fun, H2, option_bind_Some_fun, H3, option_bind_Some_fun.
    assert (stream h3 (pop_records b xs rs) = chain_data h xs ++ stream h rs) as Hs3.
    { unfold stream. rewrite all_bufs_pop, chain_data_app. f_equal; apply chain_data_ext; intros x Hx; apply Hd3;
        intros ->; apply NoDup_app in Hnd as [[Hbx _]%NoDup_cons _]; apply Hbx, elem_of_app; auto. }
    rewrite !length_app in Hcc, Hsm. rewrite <- Hdb in Hcc, Hsm.
    unfold drop_outcome in IH |- *.
    destruct (IH len' b h3 (set_ptrs head' tail' cc' sb) (pop_records b xs rs) (b :: fs)) as
      (freed' & h' & sb' & rs' & gone & -> & Hr' & Hs' & Hg & Hfs' & Hnd' & Hsz').
    + apply repr_links. split; [done |]. rewrite Hs3, length_app. simpl. unfold cc'.
      split; [rewrite u64_small; lia | lia].
    + done.
    + done.
    + lia.
    + rewrite all_bufs_pop, length_app in *. simpl in Hf. rewrite length_app in Hf. lia.
    + exists freed', h', sb', rs', (b :: gone). split; [done |]. split; [done |]. split; [| split; [| split; [| split]]].
      * rewrite Hs', Hs3, stream_cons, (drop_app_ge (data_of h b)) by lia. f_equal. unfold len'. lia.
      * rewrite all_bufs_pop in Hg. simpl. by rewrite Hg.
      * simpl. by rewrite <- app_assoc.
      * simpl. by rewrite <- app_assoc.
      * congruence.
Qed.

Lemma sockbuf_drop_spec h sb rs len : sockbuf_repr h sb rs -> 0 <= len ->
  exists h' sb' rs' gone, sockbuf_drop len h sb = Some (rev gone, h', sb') /\
    sockbuf_repr h' sb' rs' /\ stream h' rs' = drop (Z.to_nat len) (stream h rs) /\
    all_bufs rs = gone ++ all_bufs rs'.
Proof.
  intros Hr Hlen. unfold sockbuf_drop.
  assert (length (all_bufs rs) <= size h)%nat as Hsz.
  { apply size_bound; [apply Hr |]. intros x Hx.
    pose proof (sr_chains _ _ _ Hr) as Hc. clear Hr. induction Hc as [| r rs Hcr Hc IH]; [by apply not_elem_of_nil in Hx |].
    apply elem_of_app in Hx as [Hx | Hx]; [by apply (lseg_lookup _ _ _ _ _ _ Hcr) | auto]. }
  destruct (drop_loop_spec (size h) len 0 h sb rs []) as
    (freed & h' & sb' & rs' & gone & -> & Hr' & Hs' & Hg & Hfs & Hnd & Hsz');
    [done | done | rewrite app_nil_r; apply Hr | done | done |].
  rewrite option_bind_Some_fun, app_nil_r in *.
  rewrite (collect_spec _ _ _ (rev gone)), option_bind_Some_fun by (done || by eapply lseg_size).
  by exists h', sb', rs', gone.
Qed.

(** Removing the first record. *)
Lemma sockbuf_drop_record_spec h sb b xs rs : sockbuf_repr h sb ((b, xs) :: rs) ->
  exists h' sb', sockbuf_drop_record h sb = Some (b, h', sb') /\ sockbuf_repr h' sb' rs /\
    stream h' rs = stream h rs /\ lseg p_next h' b (b :: xs) 0.
Proof.
  intros Hr. pose proof Hr as [[Lr Lc Lt Ln] [Hcc Hsm]]%repr_links. unfold sockbuf_drop_record.
  rewrite (lseg_null _ _ _ _ Lr). cbn [map negb].
  destruct Lr as (Hh & Hb0 & p & Hp & Lr). cbn [fst] in Hh, Hp. rewrite Hh, Hp, option_bind_Some_fun.
  apply Forall_cons_iff in Lc as [Lb Lc]. cbn [fst] in Lb. rewrite stream_cons in *.
  pose proof Ln as [Hbn Hn2]%NoDup_cons. apply NoDup_app in Ln as Ln'. destruct Ln' as (Hndb & Hdis & Hndr).
  rewrite (sockbuf_chain_len_spec h b (b :: xs)), option_bind_Some_fun; [| done | done |].
  2:{ change (chain_data h (b :: xs)) with (data_of h b ++ chain_data h xs).
      rewrite !length_app in *. lia. }
  rewrite (upd_Some _ _ _ _ Hp), option_bind_Some_fun.
  set (h' := <[b := _]> h). eexists h', _. split; [reflexivity |].
  assert (forall x q, h !! x = Some q -> exists q', h' !! x = Some q' /\ p_next q' = p_next q) as Hnx.
  { intros x q Hq. unfold h'. destruct (decide (x = b)) as [-> |];
      [rewrite lookup_insert_eq; rewrite Hp in Hq; injection Hq as <-; by eexists |].
    rewrite lookup_insert_ne by congruence. by exists q. }
  assert (stream h' rs = stream h rs) as Hs.
  { apply chain_data_ext. intros x Hx. unfold data_of, h'. rewrite lookup_insert_ne; [done |].
    intros ->. apply Hbn, elem_of_app. by right. }
  split; [| split; [done |]].
  - apply repr_links. cbn [sb_head sb_tail sb_cc set_ptrs]. split; [split; [| | | done] |].
    + apply lseg_insert; [| done]. intros Hin%heads_in. apply Hbn, elem_of_app. by right.
    + apply (chains_ext h); [| done]. intros x q _. apply Hnx.
    + rewrite (lseg_null _ _ _ _ Lr), Lt. cbn [map fst]. rewrite last_or_cons.
      destruct rs; [done |]. cbn [map]. by rewrite !last_or_cons.
    + rewrite Hs. rewrite !length_app in *.
      change (chain_data h (b :: xs)) with (data_of h b ++ chain_data h xs). rewrite length_app.
      split; [rewrite u64_small; lia | lia].
  - revert Lb. apply lseg_ext. intros x q _. apply Hnx.
Qed.

(** ** Copying *)

Lemma take_drop_app {A} n o (xs ys : list A) :
  take n (drop o (xs ++ ys)) =
    take n (drop o xs) ++ take (n - length (take n (drop o xs))) (drop (o - length xs) ys).
Proof.
  rewrite drop_app, take_app. f_equal. f_equal. rewrite length_take. lia.
Qed.

(** What copying leaves of the offset and the length after a stretch [xs]. *)
Definition copied (xs : list Z) (offset len : Z) (r : list Z * Z * Z) : Prop :=
  let '(out, o', l') := r in
  out = take (Z.to_nat len) (drop (Z.to_nat offset) xs) /\ l' = len - Z.of_nat (length out) /\
  0 <= o' /\ (l' <> 0 -> o' = Z.max 0 (offset - Z.of_nat (length xs))).

Lemma copied_stop xs offset : 0 <= offset -> copied xs offset 0 ([], offset, 0).
Proof. by repeat split. Qed.

Lemma copied_nil offset len : 0 <= offset -> copied [] offset len ([], offset, len).
Proof.
  intros Ho. unfold copied. rewrite drop_nil, take_nil. do 3 (split; [done || (simpl; lia) |]).
  simpl. lia.
Qed.

Lemma copied_app xs ys offset len out o1 l1 out' r2 r3 : 0 <= offset -> 0 <= len ->
  copied xs offset len (out, o1, l1) -> copied ys o1 l1 (out', r2, r3) ->
  copied (xs ++ ys) offset len (out ++ out', r2, r3).
Proof.
  intros Ho Hl (E1 & E2 & H1 & Hn) (E3 & E4 & H2 & Hn').
  assert (Z.of_nat (length out) <= len) as Hle by (rewrite E1, length_take; lia).
  unfold copied. rewrite take_drop_app, <- E1, !length_app. split; [| split; [lia | split; [done |]]].
  - f_equal. rewrite E3. destruct (Z.eq_dec l1 0) as [E0 | N0].
    + replace (Z.to_nat l1) with 0%nat by lia.
      replace (Z.to_nat len - length out)%nat with 0%nat by lia. done.
    + rewrite (Hn N0). f_equal; [lia |]. f_equal. lia.
  - intros N. assert (l1 <> 0) as N0.
    { intros ->. simpl in E3. subst out'. simpl in E4. lia. }
    rewrite (Hn' N), (Hn N0). lia.
Qed.

Lemma copy_record_spec h b bs fuel offset len : lseg p_next h b bs 0 -> (length bs <= fuel)%nat ->
  0 <= offset -> 0 <= len ->
  exists r, copy_record fuel h b offset len = Some r /\ copied (chain_data h bs) offset len r.
Proof.
  revert b fuel offset len. induction bs as [| x bs IH]; intros b fuel offset len Hs Hf Ho Hl.
  - simpl in Hs. subst b. exists ([], offset, len).
    split; [by destruct fuel | by apply copied_nil].
  - destruct Hs as (-> & Hb & q & Hq & Hs). simpl in Hf. destruct fuel as [| fuel]; [lia |].
    apply Z.eqb_neq in Hb. cbn [copy_record]. rewrite Hb. cbn [orb].
    destruct (Z.eqb_spec len 0) as [-> | Hl0]; [eexists; split; [done | by apply copied_stop] |].
    rewrite Hq, option_bind_Some_fun.
    change (chain_data h (x :: bs)) with (data_of h x ++ chain_data h bs).
    unfold data_of at 1. rewrite Hq. destruct (sockbuf_is_addr q); [apply IH; (done || lia) |].
    destruct (Z.geb_spec offset (p_len q)) as [Hge | Hlt]; unfold p_len in *.
    + destruct (IH (p_next q) fuel (offset - Z.of_nat (length (p_bytes q))) len) as (r & -> & Hr);
        [done | lia | lia | done |].
      exists r. split; [done |]. destruct r as [[out o'] l'].
      change out with ([] ++ out).
      apply (copied_app _ _ _ _ [] (offset - Z.of_nat (length (p_bytes q))) len); try done.
      unfold copied. rewrite drop_ge, take_nil by lia. simpl. repeat split; lia.
    + set (n := if _ <? _ then _ else _).
      assert (n = Z.min (Z.of_nat (length (p_bytes q)) - offset) len) as En.
      { unfold n. destruct (Z.ltb_spec (Z.of_nat (length (p_bytes q)) - offset) len); lia. }
      clearbody n. subst n.
      match goal with |- context [copy_record fuel h (p_next q) 0 ?l] =>
        destruct (IH (p_next q) fuel 0 l) as (r & -> & Hr); [done | lia | lia | lia |] end.
      destruct r as [[out o'] l']. rewrite option_bind_Some_fun. eexists. split; [reflexivity |].
      refine (copied_app _ _ _ _ _ 0 _ _ _ _ Ho Hl _ Hr).
      unfold copied. split; [| split; [rewrite length_take, length_drop; lia | split; [lia |]]].
      * destruct (Z.le_ge_cases (Z.of_nat (length (p_bytes q)) - offset) len).
        { rewrite !take_ge by (rewrite length_drop; lia). done. }
        by rewrite Z.min_r.
      * intros. lia.
Qed.

Lemma copy_records_spec h p rs fuel offset len : lseg p_next_pkt h p (map fst rs) 0 ->
  Forall (fun r => lseg p_next h r.1 (bufs_of r) 0) rs -> NoDup (all_bufs rs) ->
  (length rs <= fuel)%nat -> 0 <= offset -> 0 <= len ->
  copy_records fuel h p offset len = Some (take (Z.to_nat len) (drop (Z.to_nat offset) (stream h rs))).
Proof.
  revert p fuel offset len. induction rs as [| [b xs] rs IH]; intros p fuel offset len Lr Lc Hnd Hf Ho Hl.
  - simpl in Lr. subst p. unfold stream. simpl. rewrite drop_nil, take_nil. by destruct fuel.
  - destruct Lr as (-> & Hb & q & Hq & Lr). cbn [fst] in *. simpl in Hf. destruct fuel as [| fuel]; [lia |].
    apply Z.eqb_neq in Hb. cbn [copy_records]. rewrite Hb. cbn [orb].
    destruct (Z.eqb_spec len 0) as [-> | Hl0]; [done |].
    apply Forall_cons_iff in Lc as [Lb Lc]. cbn [fst] in Lb.
    unfold all_bufs in Hnd. cbn [flat_map] in Hnd. apply NoDup_app in Hnd as (Hndb & _ & Hndr).
    destruct (copy_record_spec h b (bufs_of (b, xs)) (size h) offset len) as ([[part o'] l'] & -> & Hr);
      [done | by eapply lseg_size | done | done |].
    rewrite option_bind_Some_fun, Hq, option_bind_Some_fun.
    assert (0 <= o' /\ 0 <= l') as [Ho' Hl'].
    { destruct Hr as (-> & -> & ? & _). split; [done |]. rewrite length_take. lia. }
    rewrite (IH _ fuel o' l') by (done || lia). rewrite option_bind_Some_fun. f_equal.
    assert (copied (stream h rs) o' l' (take (Z.to_nat l') (drop (Z.to_nat o') (stream h rs)),
              Z.max 0 (o' - Z.of_nat (length (stream h rs))),
              l' - Z.of_nat (length (take (Z.to_nat l') (drop (Z.to_nat o') (stream h rs)))))) as Hr2
      by (repeat split; lia).
    destruct (copied_app _ _ _ _ _ _ _ _ _ _ Ho Hl Hr Hr2) as (-> & _).
    by rewrite stream_cons, app_assoc.
Qed.

(** Copying is reading the stream. *)
Lemma sockbuf_copy_spec h sb rs offset len : sockbuf_repr h sb rs -> 0 <= offset -> 0 <= len ->
  sockbuf_copy offset len h sb = Some (take (Z.to_nat len) (drop (Z.to_nat offset) (stream h rs))).
Proof.
  intros [] Ho Hl. unfold sockbuf_copy. apply copy_records_spec; try done.
  rewrite <- (length_map fst rs). eapply lseg_size; [done |]. by apply NoDup_heads.
Qed.

(** ** Records with an address *)

Lemma bufs_stored h sb rs x : sockbuf_repr h sb rs -> x ∈ all_bufs rs -> is_Some (h !! x).
Proof.
  intros [_ Hc _ _ _ _] Hx. induction Hc as [| r rs Hcr Hc IH]; [by apply not_elem_of_nil in Hx |].
  apply elem_of_app in Hx as [Hx | Hx]; [by apply (lseg_lookup _ _ _ _ _ _ Hcr) | auto].
Qed.

(** A store with the same links and data represents the same buffer. *)
Lemma repr_ext h h' sb rs :
  (forall x p, x ∈ all_bufs rs -> h !! x = Some p ->
     exists p', h' !! x = Some p' /\ p_next p' = p_next p /\ p_next_pkt p' = p_next_pkt p /\
       data_of h' x = data_of h x) ->
  sockbuf_repr h sb rs -> sockbuf_repr h' sb rs /\ stream h' rs = stream h rs.
Proof.
  intros Hext Hr. assert (stream h' rs = stream h rs) as Hs.
  { apply chain_data_ext. intros x Hx. destruct (bufs_stored _ _ _ _ Hr Hx) as [p Hp].
    by destruct (Hext x p Hx Hp) as (p' & _ & _ & _ & ?). }
  split; [| done]. destruct Hr as [Lr Lc Lt Lcc Ln Lsm].
  split; [| | done | by rewrite Hs | done | by rewrite Hs].
  - revert Lr. apply lseg_ext. intros x p Hx%heads_in Hp. destruct (Hext x p Hx Hp) as (p' & ? & _ & ? & _). eauto.
  - revert Lc. apply chains_ext. intros x p Hx Hp. destruct (Hext x p Hx Hp) as (p' & ? & ? & _). eauto.
Qed.

(** Putting a record [rec] with the chain [ys] at the end. *)
Lemma push_links h head tail rs rec ys p : sb_links h head tail rs ->
  rec <> 0 -> h !! rec = Some p -> p_next_pkt p = 0 -> lseg p_next h (p_next p) ys 0 ->
  NoDup (all_bufs rs ++ rec :: ys) ->
  exists h', (if negb (tail =? 0)
              then h ← upd h tail (with_next_pkt rec); Some (h, head)
              else Some (h, rec)) = Some (h', if negb (tail =? 0) then head else rec) /\
    sb_links h' (if negb (tail =? 0) then head else rec) rec (rs ++ [(rec, ys)]) /\
    (forall x, data_of h' x = data_of h x) /\ h' !! rec = h !! rec.
Proof.
  intros [Lr Lc Lt Ln] Hrec Hp Hpn Hys Hnd.
  assert (all_bufs (rs ++ [(rec, ys)]) = all_bufs rs ++ rec :: ys) as Hall.
  { rewrite all_bufs_app. unfold all_bufs at 2. simpl. by rewrite app_nil_r. }
  assert (forall h', (forall x q, h !! x = Some q -> exists q', h' !! x = Some q' /\ p_next q' = p_next q) ->
    Forall (fun r => lseg p_next h' r.1 (bufs_of r) 0) (rs ++ [(rec, ys)])) as Hchains.
  { intros h' Hext. apply (chains_ext h); [intros x q _; apply Hext |]. apply Forall_app. split; [done |].
    apply Forall_singleton. simpl. eauto 10. }
  destruct rs as [| [x xs] rs _] using rev_ind.
  - simpl in Lt. change (last_or 0 []) with 0 in Lt. subst tail. simpl. exists h.
    split; [done |]. split; [split | done]; [| | done | revert Hnd; by rewrite <- Hall].
    + simpl. split; [done |]. split; [done |]. by exists p.
    + apply Hchains. eauto.
  - rewrite map_app in Lr, Lt. cbn [map fst] in Lr, Lt. rewrite last_or_snoc in Lt. subst tail.
    assert (x ∈ map fst rs ++ [x]) as Hin by (apply elem_of_app; right; by left).
    pose proof (lseg_nonzero _ _ _ _ _ _ Lr Hin) as Hx0. apply Z.eqb_neq in Hx0 as ->. cbn [negb].
    destruct (lseg_lookup _ _ _ _ _ _ Lr Hin) as [px Hpx].
    rewrite (upd_Some _ _ _ _ Hpx), option_bind_Some_fun. eexists. split; [reflexivity |].
    assert (NoDup (map fst rs ++ [x])) as Hnh by (apply NoDup_heads in Ln; by rewrite map_app in Ln).
    assert (x <> rec) as Hne.
    { intros ->. apply NoDup_app in Hnd as (_ & Hd & _). apply (Hd rec); [| by left].
      apply heads_in. rewrite map_app. done. }
    split; [split | split; [| by apply lookup_insert_ne]];
      [| | rewrite map_app; cbn [map fst]; by rewrite last_or_snoc | by rewrite Hall |].
    + rewrite map_app. cbn [map fst]. apply lseg_app. exists rec. split.
      * rewrite map_app. apply (lseg_relink _ _ _ _ _ 0 _ px); try done.
        apply NoDup_app in Hnh as (_ & Hd & _). intros Hi. apply (Hd _ Hi). by left.
      * simpl. split; [done |]. split; [done |]. exists p. by rewrite lookup_insert_ne.
    + apply Hchains. intros y q Hq. destruct (decide (y = x)) as [-> |].
      * rewrite lookup_insert_eq. eexists. split; [done |]. rewrite Hpx in Hq. by injection Hq as <-.
      * rewrite lookup_insert_ne by congruence. eauto.
    + intros y. unfold data_of. destruct (decide (y = x)) as [-> |];
        [by rewrite lookup_insert_eq, Hpx | by rewrite lookup_insert_ne by congruence].
Qed.

(** The record built for a datagram before the buffer is looked at. *)
Lemma build_record h rec from nb ys : rec <> 0 -> h !! rec = None -> lseg p_next h nb ys 0 ->
  exists h', (let h := <[rec := Pkt nb 0 from (Z.lor NETBUF_PKTHDR NETBUF_SOCKADDR) 0]> h in
    if negb (nb =? 0)
    then upd h nb (fun p => with_flags (p_flags p &~ NETBUF_PKTHDR)%hermes p) else Some h) = Some h' /\
    h' !! rec = Some (Pkt nb 0 from (Z.lor NETBUF_PKTHDR NETBUF_SOCKADDR) 0) /\
    (forall x p, h !! x = Some p -> exists p', h' !! x = Some p' /\ p_next p' = p_next p /\
       p_next_pkt p' = p_next_pkt p /\ p_bytes p' = p_bytes p /\
       sockbuf_is_addr p' = sockbuf_is_addr p).
Proof.
  intros Hrec Hno Hys. cbv zeta. rewrite (lseg_null _ _ _ _ Hys). destruct ys as [| y ys]; cbn [negb].
  - eexists. split; [reflexivity |]. split; [by rewrite lookup_insert_eq |]. intros x p Hp.
    exists p. rewrite lookup_insert_ne by congruence. done.
  - destruct Hys as (-> & Hy0 & q & Hq & _). assert (y <> rec) by congruence.
    rewrite (upd_Some _ _ _ q) by (by rewrite lookup_insert_ne). eexists. split; [reflexivity |].
    split; [by rewrite lookup_insert_ne, lookup_insert_eq |]. intros x p Hp.
    destruct (decide (x = y)) as [-> |].
    + rewrite lookup_insert_eq. eexists. split; [done |]. rewrite Hq in Hp. injection Hp as <-.
      do 3 (split; [done |]). apply is_addr_flags. intros i. apply clear_pkthdr_bits.
    + rewrite !lookup_insert_ne by congruence. exists p. done.
Qed.

(** When [sockbuf_append_addr] accepts a datagram of [len] bytes. *)
Definition accepts (rec : Z) (from : list Z) (len : Z) (sb : sockbuf) : bool :=
  (Z.of_nat (length from) <=? NETBUF_SIZE - NETBUF_HEADROOM) && negb (rec =? 0) &&
  (len <=? sockbuf_space sb) && negb (sb_flags sb &? SB_CANTMORE)%hermes.

(** A refused datagram: nothing but the packet-header flag of the caller's chain changes. *)
Definition untouched (h h' : store) (rec : Z) : Prop :=
  (rec <> 0 -> h' !! rec = None) /\
  forall x p, h !! x = Some p -> exists p', h' !! x = Some p' /\ p_next p' = p_next p /\
    p_next_pkt p' = p_next_pkt p /\ p_bytes p' = p_bytes p /\ sockbuf_is_addr p' = sockbuf_is_addr p.

Lemma set_pkthdr_bits f i : 1 <= i -> Z.testbit (Z.lor f NETBUF_PKTHDR) i = Z.testbit f i.
Proof.
  intros Hi. rewrite Z.lor_spec. change NETBUF_PKTHDR with (Z.shiftl 1 0).
  rewrite shiftl_one_spec by lia. destruct (Z.eqb_spec i 0); [lia |]. apply orb_false_r.
Qed.

Lemma refuse_record h h1 rec nb ys : rec <> 0 -> h !! rec = None -> lseg p_next h nb ys 0 ->
  (forall x p, h !! x = Some p -> exists p', h1 !! x = Some p' /\ p_next p' = p_next p /\
     p_next_pkt p' = p_next_pkt p /\ p_bytes p' = p_bytes p /\
     sockbuf_is_addr p' = sockbuf_is_addr p) ->
  exists h2, (if negb (nb =? 0)
              then upd h1 nb (fun p => with_flags (Z.lor (p_flags p) NETBUF_PKTHDR) p) else Some h1) = Some h2 /\
    untouched h (delete rec h2) rec.
Proof.
  intros Hrec Hno Hys Hext. rewrite (lseg_null _ _ _ _ Hys). destruct ys as [| y ys]; cbn [negb].
  - exists h1. split; [done |]. split; [by rewrite lookup_delete_eq |]. intros x p Hp.
    rewrite lookup_delete_ne by congruence. auto.
  - destruct Hys as (-> & Hy0 & q & Hq & _). destruct (Hext y q Hq) as (q' & Hq' & E1 & E2 & E3 & E4).
    rewrite (upd_Some _ _ _ q' Hq'). eexists. split; [reflexivity |].
    split; [by rewrite lookup_delete_eq |]. intros x p Hp. rewrite lookup_delete_ne by congruence.
    destruct (decide (x = y)) as [-> |].
    + rewrite lookup_insert_eq. eexists. split; [done |]. rewrite Hq in Hp. injection Hp as <-.
      do 3 (split; [done |]). rewrite <- E4. apply is_addr_flags. intros i. apply set_pkthdr_bits.
    + rewrite lookup_insert_ne by congruence. auto.
Qed.

Lemma untouched_refl h rec : (rec <> 0 -> h !! rec = None) -> untouched h h rec.
Proof. intros Hno. split; [done |]. intros x p Hp. by exists p. Qed.

Lemma untouched_repr h h' rec sb rs : untouched h h' rec -> sockbuf_repr h sb rs ->
  sockbuf_repr h' sb rs /\ stream h' rs = stream h rs.
Proof.
  intros [_ Hext]. apply repr_ext. intros x p _ Hp.
  destruct (Hext x p Hp) as (p' & Hp' & E1 & E2 & E3 & E4). exists p'. do 3 (split; [done |]).
  by apply (data_of_eq h h' x p p').
Qed.

Lemma append_addr_refused h sb rs rec from nb ys : sockbuf_repr h sb rs ->
  lseg p_next h nb ys 0 -> NoDup ys -> (rec <> 0 -> h !! rec = None) ->
  Z.of_nat (length (chain_data h ys)) < 2 ^ 63 ->
  accepts rec from (Z.of_nat (length (chain_data h ys))) sb = false ->
  exists h', sockbuf_append_addr rec from nb h sb = Some (false, h', sb) /\ untouched h h' rec.
Proof.
  intros Hr Hys Hnd Hno Hsm Hacc. unfold sockbuf_append_addr.
  assert ((if negb (nb =? 0) then sockbuf_chain_len h nb else Some 0) =
          Some (Z.of_nat (length (chain_data h ys)))) as ->.
  { rewrite (lseg_null _ _ _ _ Hys). destruct ys; [done |]. cbn [negb].
    apply sockbuf_chain_len_spec; [done | done | lia]. }
  rewrite option_bind_Some_fun. unfold accepts in Hacc.
  rewrite Z.gtb_ltb. destruct (Z.ltb_spec (NETBUF_SIZE - NETBUF_HEADROOM) (Z.of_nat (length from))) as [Hbig | Hfit].
  { eexists. split; [reflexivity |]. by apply untouched_refl. }
  destruct (Z.eqb_spec rec 0) as [-> | Hrec].
  { eexists. split; [reflexivity |]. by apply untouched_refl. }
  destruct (build_record h rec from nb ys Hrec (Hno Hrec) Hys) as (h1 & H1 & Hb & Hext).
  cbv zeta in H1. rewrite H1, option_bind_Some_fun.
  apply Z.leb_le in Hfit. rewrite Hfit in Hacc. cbn [andb negb] in Hacc.
  rewrite Z.gtb_ltb, Z.ltb_antisym.
  destruct (_ <=? sockbuf_space sb), (sb_flags sb &? SB_CANTMORE)%hermes; try discriminate Hacc; cbn [negb orb];
    destruct (refuse_record h h1 rec nb ys Hrec (Hno Hrec) Hys Hext) as (h2 & -> & Hu);
    rewrite option_bind_Some_fun; eauto.
Qed.

Lemma append_addr_accepted h sb rs rec from nb ys : sockbuf_repr h sb rs ->
  lseg p_next h nb ys 0 -> NoDup (all_bufs rs ++ ys) -> (rec <> 0 -> h !! rec = None) ->
  Z.of_nat (length (stream h rs ++ chain_data h ys)) < 2 ^ 63 ->
  accepts rec from (Z.of_nat (length (chain_data h ys))) sb = true ->
  exists h' sb', sockbuf_append_addr rec from nb h sb = Some (true, h', sb') /\
    sockbuf_repr h' sb' (rs ++ [(rec, ys)]) /\
    stream h' (rs ++ [(rec, ys)]) = stream h rs ++ chain_data h ys /\
    p_bytes <$> h' !! rec = Some from.
Proof.
  intros Hr Hys Hnd Hno Hsm Hacc. unfold sockbuf_append_addr. rewrite length_app in Hsm.
  assert (NoDup ys) as Hndy by (by apply NoDup_app in Hnd as (_ & _ & ?)).
  assert ((if negb (nb =? 0) then sockbuf_chain_len h nb else Some 0) =
          Some (Z.of_nat (length (chain_data h ys)))) as ->.
  { rewrite (lseg_null _ _ _ _ Hys). destruct ys; [done |]. cbn [negb].
    apply sockbuf_chain_len_spec; [done | done | lia]. }
  rewrite option_bind_Some_fun. unfold accepts in Hacc. rewrite !andb_true_iff, !negb_true_iff in Hacc.
  destruct Hacc as [[[Hfit Hrec] Hsp] Hmore]. rewrite Z.gtb_ltb, Z.ltb_antisym, Hfit, Hrec. cbn [negb].
  apply Z.eqb_neq in Hrec.
  destruct (build_record h rec from nb ys Hrec (Hno Hrec) Hys) as (h1 & H1 & Hb & Hext).
  cbv zeta in H1. rewrite H1, option_bind_Some_fun, Z.gtb_ltb, Z.ltb_antisym, Hsp, Hmore. cbn [negb orb].
  assert (forall x, is_Some (h !! x) -> data_of h1 x = data_of h x) as Hd1.
  { intros x [p Hp]. destruct (Hext x p Hp) as (p' & Hp' & _ & _ & E3 & E4). by apply (data_of_eq h h1 x p p'). }
  destruct (repr_ext h h1 sb rs) as [[Hl [Hcc _]]%repr_links Hs1]; [| done |].
  { intros x p _ Hp. rewrite Hd1 by eauto. destruct (Hext x p Hp) as (p' & Hp' & E1 & E2 & _). eauto 10. }
  destruct (push_links h1 _ _ rs rec ys _ Hl Hrec Hb) as (h2 & -> & Hl2 & Hd2 & Hb2); [done | | |].
  { cbn [p_next]. revert Hys. apply lseg_ext. intros x p _ Hp.
    destruct (Hext x p Hp) as (p' & Hp' & E1 & _). eauto. }
  { rewrite <- Permutation_middle. apply NoDup_cons. split; [| done].
    intros [Hx | Hx]%elem_of_app; [apply (bufs_stored _ _ _ _ Hr) in Hx | apply (lseg_lookup _ _ _ _ _ _ Hys) in Hx];
      rewrite (Hno Hrec) in Hx; by destruct Hx. }
  rewrite option_bind_Some_fun. eexists h2, _. split; [reflexivity |].
  assert (stream h2 (rs ++ [(rec, ys)]) = stream h rs ++ chain_data h ys) as Hs2.
  { unfold stream. rewrite all_bufs_app, chain_data_app. f_equal.
    - rewrite (chain_data_ext h1 h2) by auto. exact Hs1.
    - unfold all_bufs, bufs_of. cbn [flat_map fst snd]. rewrite app_nil_r.
      change (data_of h2 rec ++ chain_data h2 ys = chain_data h ys).
      unfold data_of at 1. rewrite Hb2, Hb. cbn [app]. apply chain_data_ext. intros x Hx.
      rewrite Hd2. apply Hd1. by apply (lseg_lookup _ _ _ _ _ _ Hys). }
  split; [apply repr_links; split; [exact Hl2 |] | split; [done | by rewrite Hb2, Hb]].
  rewrite Hs2, length_app. cbn [sb_cc set_ptrs]. rewrite Hcc, Hs1, u64_small; lia.
Qed.

(** ** Main theorems *)

Lemma accepts_bound rec from len sb : accepts rec from len sb = true -> 0 < len -> 0 <= sb_cc sb ->
  sb_cc sb + len <= sb_hiwat sb.
Proof.
  unfold accepts, sockbuf_space. rewrite !andb_true_iff. intros [[_ Hsp%Z.leb_le] _] Hl Hcc.
  destruct (Z.ltb_spec (sb_cc sb) (sb_hiwat sb)); lia.
Qed.

(** C34: A socket buffer is a byte stream.  Appending a chain adds its data at
    the end of the stream; copying returns the requested window of the stream,
    whatever the boundaries of records and buffers; dropping removes a prefix.
    The byte counter, the tail pointer and all links are right after each step
    ([sockbuf_repr]), and each buffer is afterwards either still linked or on
    the list of freed buffers, once. *)
Theorem sockbuf_byte_stream h sb rs nb ys offset len : sockbuf_repr h sb rs ->
  lseg p_next h nb (nb :: ys) 0 -> NoDup (all_bufs rs ++ nb :: ys) ->
  Z.of_nat (length (stream h rs ++ chain_data h (nb :: ys))) < 2 ^ 63 -> 0 <= offset -> 0 <= len ->
  let data := stream h rs ++ chain_data h (nb :: ys) in
  exists h1 sb1 rs1, sockbuf_append nb h sb = Some (h1, sb1) /\
    sockbuf_repr h1 sb1 rs1 /\ stream h1 rs1 = data /\
    sockbuf_copy offset len h1 sb1 = Some (take (Z.to_nat len) (drop (Z.to_nat offset) data)) /\
    exists freed h2 sb2 rs2, sockbuf_drop len h1 sb1 = Some (freed, h2, sb2) /\
      sockbuf_repr h2 sb2 rs2 /\ stream h2 rs2 = drop (Z.to_nat len) data /\
      freed ++ all_bufs rs2 ≡ₚ all_bufs rs ++ nb :: ys.
Proof.
  intros Hr Hy Hnd Hsm Ho Hl data.
  destruct (sockbuf_append_spec h sb rs nb ys Hr Hy Hnd Hsm) as (h1 & sb1 & H1 & Hr1 & Hs1).
  exists h1, sb1, (append_records rs nb ys). split; [done |]. split; [done |]. split; [done |].
  split; [rewrite (sockbuf_copy_spec _ _ _ _ _ Hr1 Ho Hl); by rewrite Hs1 |].
  destruct (sockbuf_drop_spec h1 sb1 _ len Hr1 Hl) as (h2 & sb2 & rs2 & gone & H2 & Hr2 & Hs2 & Hg).
  exists (rev gone), h2, sb2, rs2. split; [done |]. split; [done |]. split; [by rewrite Hs2, Hs1 |].
  rewrite <- all_bufs_append, Hg. by rewrite <- Permutation_rev.
Qed.

(** Two chained buffers and an empty socket buffer. *)
Definition demo_store : store :=
  <[16 := Pkt 32 0 [1; 2; 3] NETBUF_PKTHDR 0]> (<[32 := Pkt 0 0 [4; 5] 0 0]> ∅).

Lemma demo_chain : lseg p_next demo_store 16 [16; 32] 0.
Proof. simpl. do 2 (split; [done |]). eexists. split; [reflexivity |]. simpl.
  do 2 (split; [done |]). eexists. split; reflexivity. Qed.

Lemma demo_empty : sockbuf_repr demo_store (sockbuf_init 8) [].
Proof. split; (done || constructor). Qed.

Lemma sockbuf_byte_stream_witness : exists h1 sb1 rs1,
  sockbuf_append 16 demo_store (sockbuf_init 8) = Some (h1, sb1) /\
  sockbuf_repr h1 sb1 rs1 /\ stream h1 rs1 = [1; 2; 3; 4; 5] /\
  sockbuf_copy 2 2 h1 sb1 = Some [3; 4] /\
  exists freed h2 sb2 rs2, sockbuf_drop 2 h1 sb1 = Some (freed, h2, sb2) /\
    sockbuf_repr h2 sb2 rs2 /\ stream h2 rs2 = [3; 4; 5] /\
    freed ++ all_bufs rs2 ≡ₚ [16; 32].
Proof.
  apply (sockbuf_byte_stream demo_store (sockbuf_init 8) [] 16 [32] 2 2).
  - apply demo_empty.
  - apply demo_chain.
  - apply (bool_decide_unpack _). vm_compute. done.
  - vm_compute. done.
  - lia.
  - lia.
Defined.

(** Datagrams are queued whole or not at all.  A datagram is accepted
    exactly when its address fits, a buffer for it could be allocated, its data
    fits below the high-water mark and the buffer still takes data; it then
    becomes the last record, with the sender's address in front, and data never
    passes the high-water mark.  A refused datagram leaves the socket buffer and
    the caller's chain as they were.  [sockbuf_drop_record] removes the oldest
    record whole. *)
Theorem sockbuf_datagrams h sb rs rec from nb ys : sockbuf_repr h sb rs ->
  lseg p_next h nb ys 0 -> NoDup (all_bufs rs ++ ys) -> (rec <> 0 -> h !! rec = None) ->
  Z.of_nat (length (stream h rs ++ chain_data h ys)) < 2 ^ 63 ->
  let len := Z.of_nat (length (chain_data h ys)) in
  exists h' sb', sockbuf_append_addr rec from nb h sb = Some (accepts rec from len sb, h', sb') /\
    (accepts rec from len sb = false -> sb' = sb /\ untouched h h' rec /\ sockbuf_repr h' sb rs /\
       stream h' rs = stream h rs /\ lseg p_next h' nb ys 0) /\
    (accepts rec from len sb = true ->
       sockbuf_repr h' sb' (rs ++ [(rec, ys)]) /\ p_bytes <$> h' !! rec = Some from /\
       stream h' (rs ++ [(rec, ys)]) = stream h rs ++ chain_data h ys /\
       (0 < len -> sb_cc sb' <= sb_hiwat sb) /\
       forall b xs rest, rs ++ [(rec, ys)] = (b, xs) :: rest ->
         exists h2 sb2, sockbuf_drop_record h' sb' = Some (b, h2, sb2) /\
           sockbuf_repr h2 sb2 rest /\ stream h2 rest = stream h' rest).
Proof.
  intros Hr Hy Hnd Hno Hsm len. destruct (accepts rec from len sb) eqn:Hacc.
  - destruct (append_addr_accepted h sb rs rec from nb ys) as (h' & sb' & H1 & Hr1 & Hs1 & Hb1); try done.
    exists h', sb'. split; [done |]. split; [discriminate |]. intros _. do 3 (split; [done |]). split.
    + intros Hl. pose proof (accepts_bound _ _ _ _ Hacc Hl) as Hb.
      rewrite (sr_cc _ _ _ Hr1), Hs1, length_app. rewrite (sr_cc _ _ _ Hr) in Hb. fold len in Hb. lia.
    + intros b xs rest E. rewrite E in Hr1.
      destruct (sockbuf_drop_record_spec _ _ _ _ _ Hr1) as (h2 & sb2 & H2 & Hr2 & Hs2 & _). eauto 10.
  - destruct (append_addr_refused h sb rs rec from nb ys) as (h' & H1 & Hu); try done.
    + by apply NoDup_app in Hnd as (_ & _ & ?).
    + rewrite length_app in Hsm. lia.
    + exists h', sb. split; [done |]. split; [| discriminate]. intros _.
      destruct (untouched_repr _ _ _ _ _ Hu Hr) as [Hr' Hs']. do 4 (split; [done |]).
      revert Hy. apply lseg_ext. intros x p _ Hp. destruct Hu as [_ Hu].
      destruct (Hu x p Hp) as (p' & Hp' & E1 & _). eauto.
Qed.

Lemma sockbuf_datagrams_witness : exists h' sb',
  sockbuf_append_addr 64 [2; 0; 0; 53] 16 demo_store (sockbuf_init 8) = Some (true, h', sb') /\
  sockbuf_repr h' sb' [(64, [16; 32])] /\ stream h' [(64, [16; 32])] = [1; 2; 3; 4; 5].
Proof.
  destruct (sockbuf_datagrams demo_store (sockbuf_init 8) [] 64 [2; 0; 0; 53] 16 [16; 32])
    as (h' & sb' & H1 & _ & H2).
  - apply demo_empty.
  - apply demo_chain.
  - apply (bool_decide_unpack _). vm_compute. done.
  - intros _. vm_compute. done.
  - vm_compute. done.
  - exists h', sb'. split; [exact H1 |]. destruct H2 as (Hr & _ & Hs & _); [vm_compute; done |]. done.
Defined.
