(* ===== verification/TcpVar.v ===== *)
(** * TCP: sequence numbers and the control block

    drivers/net/tcp/tcp.h, tcp_var.h, tcp_timer.h and tcp_input.h: the
    constants, the modular comparison of sequence numbers, and the control
    block.  The fields of [struct tcpcb] keep their names; they are grouped by
    what they describe (sender, receiver, congestion, round-trip time, timers,
    ...), so that a lemma can say that an operation leaves a group alone.  Each
    group coerces from the control block, so [snd_una tp] reads as in C. *)

From stdpp Require Import base list option.
From Stdlib Require Import ZArith Lia.
From S2P Require Import Prelude.
Open Scope Z_scope.

(** ** tcp.h *)

Definition TCP_HEADER_LEN : Z := 20.
Definition TCP_MAX_HEADER_LEN : Z := 60.
Definition TCP_DEFAULT_MSS : Z := 536.
Definition TCP_DEFAULT_MSS6 : Z := 1220.
Definition TCP_MAX_WINSHIFT : Z := 14.
Definition TCP_MAX_SACK : Z := 4.

Definition TH_FIN : Z := 0x01.
Definition TH_SYN : Z := 0x02.
Definition TH_RST : Z := 0x04.
Definition TH_PUSH : Z := 0x08.
Definition TH_ACK : Z := 0x10.

Definition TCPOPT_EOL : Z := 0.
Definition TCPOPT_NOP : Z := 1.
Definition TCPOPT_MAXSEG : Z := 2.
Definition TCPOPT_WINDOW : Z := 3.
Definition TCPOPT_SACK_PERMITTED : Z := 4.
Definition TCPOPT_SACK : Z := 5.
Definition TCPOPT_TIMESTAMP : Z := 8.

(** Comparison of sequence numbers: the sign of their 32-bit difference. *)
Definition SEQ_LT (a b : Z) : bool := s32 (a - b) <? 0.
Definition SEQ_LEQ (a b : Z) : bool := s32 (a - b) <=? 0.
Definition SEQ_GT (a b : Z) : bool := 0 <? s32 (a - b).
Definition SEQ_GEQ (a b : Z) : bool := 0 <=? s32 (a - b).

Record tcp_sack_block := SackBlock { blk_start : Z; blk_end : Z }.

(** A header in host byte order. *)
Record tcp_header := TcpHeader {
  th_src_port : Z;
  th_dst_port : Z;
  th_seq : Z;
  th_ack : Z;
  th_data_off : Z;
  th_flags : Z;
  th_window : Z;
}.

(** ** tcp_input.h *)

Definition TOF_MSS : Z := 0x01.
Definition TOF_SCALE : Z := 0x02.
Definition TOF_SACKPERM : Z := 0x04.
Definition TOF_TS : Z := 0x08.
Definition TOF_SACK : Z := 0x10.

(** [to_sacks] holds the first [nsacks] entries of the array. *)
Record tcp_opts := TcpOpts {
  to_flags : Z;
  to_mss : Z;
  to_wscale : Z;
  to_ts_val : Z;
  to_ts_ecr : Z;
  to_sacks : list tcp_sack_block;
}.

(** ** tcp_timer.h *)

Definition TCP_RTO_MIN_MS : Z := 1000.
Definition TCP_RTO_MAX_MS : Z := 60000.
Definition TCP_RTO_INITIAL_MS : Z := 1000.
Definition TCP_MAXRXTSHIFT : Z := 12.
Definition TCP_DELACK_MS : Z := 100.
Definition TCP_MSL_MS : Z := 30000.
Definition TCP_KEEPINIT_MS : Z := 75000.
Definition TCP_KEEPIDLE_MS : Z := 2 * 60 * 60 * 1000.
Definition TCP_KEEPINTVL_MS : Z := 75000.
Definition TCP_KEEPCNT : Z := 8.
Definition TCP_PERSMIN_MS : Z := 5000.
Definition TCP_PERSMAX_MS : Z := 60000.

(** ** tcp_var.h *)

Inductive tcp_state :=
  | TCPS_CLOSED
  | TCPS_LISTEN
  | TCPS_SYN_SENT
  | TCPS_SYN_RECEIVED
  | TCPS_ESTABLISHED
  | TCPS_CLOSE_WAIT
  | TCPS_FIN_WAIT_1
  | TCPS_CLOSING
  | TCPS_LAST_ACK
  | TCPS_FIN_WAIT_2
  | TCPS_TIME_WAIT.

#[export] Instance tcp_state_eq_dec : EqDecision tcp_state.
Proof. solve_decision. Defined.

(** The position in the enumeration, which the code compares. *)
Definition state_num (s : tcp_state) : Z :=
  match s with
  | TCPS_CLOSED => 0 | TCPS_LISTEN => 1 | TCPS_SYN_SENT => 2 | TCPS_SYN_RECEIVED => 3
  | TCPS_ESTABLISHED => 4 | TCPS_CLOSE_WAIT => 5 | TCPS_FIN_WAIT_1 => 6 | TCPS_CLOSING => 7
  | TCPS_LAST_ACK => 8 | TCPS_FIN_WAIT_2 => 9 | TCPS_TIME_WAIT => 10
  end.

Inductive tcp_timer_type := TCPT_REXMT | TCPT_PERSIST | TCPT_KEEP | TCPT_2MSL | TCPT_DELACK.

Definition TF_ACKNOW : Z := 0x0001.
Definition TF_DELACK : Z := 0x0002.
Definition TF_NODELAY : Z := 0x0004.
Definition TF_NOOPT : Z := 0x0008.
Definition TF_SENTFIN : Z := 0x0010.
Definition TF_RCVD_SCALE : Z := 0x0020.
Definition TF_RCVD_TSTMP : Z := 0x0040.
Definition TF_SACK_PERMIT : Z := 0x0080.
Definition TF_FASTRECOVERY : Z := 0x0100.
Definition TF_NEEDFIN : Z := 0x0200.
Definition TF_FORCEDATA : Z := 0x0400.

Definition TCP_SACK_SCOREBOARD : Z := 8.
(** [NETBUF_CLUSTER_SIZE - NETBUF_HEADROOM - TCP_MAX_HEADER_LEN] *)
Definition TCP_MAX_PAYLOAD : Z := 2048 - 64 - TCP_MAX_HEADER_LEN.

Definition TCPS_HAVERCVDSYN (s : tcp_state) : bool := state_num TCPS_SYN_RECEIVED <=? state_num s.
Definition TCPS_HAVEESTABLISHED (s : tcp_state) : bool := state_num TCPS_ESTABLISHED <=? state_num s.
Definition TCPS_HAVERCVDFIN (s : tcp_state) : bool :=
  match s with
  | TCPS_CLOSE_WAIT | TCPS_CLOSING | TCPS_LAST_ACK | TCPS_TIME_WAIT => true
  | _ => false
  end.

(** An out-of-order segment; the queue is the list along [next], and the data
    the bytes of the packet. *)
Record tcp_reassemble_entry := ReassEntry {
  e_seq : Z;
  e_len : Z;
  e_flags : Z;
  e_data : list Z;
}.

(** A timer of the control block: whether it is armed and for which tick, how
    often its handler was dispatched ([dispatched]) and entered
    ([t_timer_entered]). *)
Record callout := Callout {
  c_pending : bool;
  c_expires : Z;
  c_dispatched : Z;
  c_entered : Z;
}.

Record sndvars := SndVars {
  snd_una : Z;
  snd_nxt : Z;
  snd_max : Z;
  snd_wl1 : Z;
  snd_wl2 : Z;
  iss : Z;
  snd_wnd : Z;
  snd_scale : Z;
}.

Record rcvvars := RcvVars {
  rcv_nxt : Z;
  irs : Z;
  rcv_wnd : Z;
  rcv_adv : Z;
  rcv_scale : Z;
  req_rcv_scale : Z;
  last_ack_sent : Z;
}.

Record congvars := CongVars {
  snd_cwnd : Z;
  snd_ssthresh : Z;
  snd_recover : Z;
  dupacks : Z;
}.

Record rttvars := RttVars {
  srtt : Z;
  rttvar : Z;
  rto : Z;
  rtt_start : Z;
  rtt_seq : Z;
}.

Record miscvars := MiscVars {
  t_flags : Z;
  rexmt_shift : Z;
  ts_recent : Z;
  ts_recent_age : Z;
  mss : Z;
  peer_mss : Z;
  t_rcvtime : Z;
  keep_probes : Z;
  t_softerror : Z;
}.

Record reassvars := ReassVars {
  reassemble_queue : list tcp_reassemble_entry;
  reassemble_len : Z;
}.

Record sackvars := SackVars {
  sack_blocks : list tcp_sack_block;
  sack_count : Z;
  sack_rxmit : Z;
  sack_rexmit_bytes : Z;
}.

Record timervars := TimerVars {
  tm_rexmt : callout;
  tm_persist : callout;
  tm_keep : callout;
  tm_2msl : callout;
  tm_delack : callout;
}.

Record tcpcb := Tcpcb {
  t_state : tcp_state;
  t_snd :> sndvars;
  t_rcv :> rcvvars;
  t_cong :> congvars;
  t_rtt :> rttvars;
  t_misc :> miscvars;
  t_reass :> reassvars;
  t_sack :> sackvars;
  t_timers :> timervars;
}.

Definition set_state (v : tcp_state) (tp : tcpcb) : tcpcb :=
  Tcpcb v (t_snd tp) (t_rcv tp) (t_cong tp) (t_rtt tp) (t_misc tp) (t_reass tp) (t_sack tp) (t_timers tp).
Definition on_snd (f : sndvars -> sndvars) (tp : tcpcb) : tcpcb :=
  Tcpcb (t_state tp) (f (t_snd tp)) (t_rcv tp) (t_cong tp) (t_rtt tp) (t_misc tp) (t_reass tp) (t_sack tp) (t_timers tp).
Definition on_rcv (f : rcvvars -> rcvvars) (tp : tcpcb) : tcpcb :=
  Tcpcb (t_state tp) (t_snd tp) (f (t_rcv tp)) (t_cong tp) (t_rtt tp) (t_misc tp) (t_reass tp) (t_sack tp) (t_timers tp).
Definition on_cong (f : congvars -> congvars) (tp : tcpcb) : tcpcb :=
  Tcpcb (t_state tp) (t_snd tp) (t_rcv tp) (f (t_cong tp)) (t_rtt tp) (t_misc tp) (t_reass tp) (t_sack tp) (t_timers tp).
Definition on_rtt (f : rttvars -> rttvars) (tp : tcpcb) : tcpcb :=
  Tcpcb (t_state tp) (t_snd tp) (t_rcv tp) (t_cong tp) (f (t_rtt tp)) (t_misc tp) (t_reass tp) (t_sack tp) (t_timers tp).
Definition on_misc (f : miscvars -> miscvars) (tp : tcpcb) : tcpcb :=
  Tcpcb (t_state tp) (t_snd tp) (t_rcv tp) (t_cong tp) (t_rtt tp) (f (t_misc tp)) (t_reass tp) (t_sack tp) (t_timers tp).
Definition on_reass (f : reassvars -> reassvars) (tp : tcpcb) : tcpcb :=
  Tcpcb (t_state tp) (t_snd tp) (t_rcv tp) (t_cong tp) (t_rtt tp) (t_misc tp) (f (t_reass tp)) (t_sack tp) (t_timers tp).
Definition on_sack (f : sackvars -> sackvars) (tp : tcpcb) : tcpcb :=
  Tcpcb (t_state tp) (t_snd tp) (t_rcv tp) (t_cong tp) (t_rtt tp) (t_misc tp) (t_reass tp) (f (t_sack tp)) (t_timers tp).
Definition on_timers (f : timervars -> timervars) (tp : tcpcb) : tcpcb :=
  Tcpcb (t_state tp) (t_snd tp) (t_rcv tp) (t_cong tp) (t_rtt tp) (t_misc tp) (t_reass tp) (t_sack tp) (f (t_timers tp)).

Definition set_snd_una (v : Z) : tcpcb -> tcpcb :=
  on_snd (fun s => SndVars v (snd_nxt s) (snd_max s) (snd_wl1 s) (snd_wl2 s) (iss s) (snd_wnd s) (snd_scale s)).
Definition set_snd_nxt (v : Z) : tcpcb -> tcpcb :=
  on_snd (fun s => SndVars (snd_una s) v (snd_max s) (snd_wl1 s) (snd_wl2 s) (iss s) (snd_wnd s) (snd_scale s)).
Definition set_snd_max (v : Z) : tcpcb -> tcpcb :=
  on_snd (fun s => SndVars (snd_una s) (snd_nxt s) v (snd_wl1 s) (snd_wl2 s) (iss s) (snd_wnd s) (snd_scale s)).
Definition set_snd_wl1 (v : Z) : tcpcb -> tcpcb :=
  on_snd (fun s => SndVars (snd_una s) (snd_nxt s) (snd_max s) v (snd_wl2 s) (iss s) (snd_wnd s) (snd_scale s)).
Definition set_snd_wl2 (v : Z) : tcpcb -> tcpcb :=
  on_snd (fun s => SndVars (snd_una s) (snd_nxt s) (snd_max s) (snd_wl1 s) v (iss s) (snd_wnd s) (snd_scale s)).
Definition set_iss (v : Z) : tcpcb -> tcpcb :=
  on_snd (fun s => SndVars (snd_una s) (snd_nxt s) (snd_max s) (snd_wl1 s) (snd_wl2 s) v (snd_wnd s) (snd_scale s)).
Definition set_snd_wnd (v : Z) : tcpcb -> tcpcb :=
  on_snd (fun s => SndVars (snd_una s) (snd_nxt s) (snd_max s) (snd_wl1 s) (snd_wl2 s) (iss s) v (snd_scale s)).
Definition set_snd_scale (v : Z) : tcpcb -> tcpcb :=
  on_snd (fun s => SndVars (snd_una s) (snd_nxt s) (snd_max s) (snd_wl1 s) (snd_wl2 s) (iss s) (snd_wnd s) v).
Definition set_rcv_nxt (v : Z) : tcpcb -> tcpcb :=
  on_rcv (fun s => RcvVars v (irs s) (rcv_wnd s) (rcv_adv s) (rcv_scale s) (req_rcv_scale s) (last_ack_sent s)).
Definition set_irs (v : Z) : tcpcb -> tcpcb :=
  on_rcv (fun s => RcvVars (rcv_nxt s) v (rcv_wnd s) (rcv_adv s) (rcv_scale s) (req_rcv_scale s) (last_ack_sent s)).
Definition set_rcv_wnd (v : Z) : tcpcb -> tcpcb :=
  on_rcv (fun s => RcvVars (rcv_nxt s) (irs s) v (rcv_adv s) (rcv_scale s) (req_rcv_scale s) (last_ack_sent s)).
Definition set_rcv_adv (v : Z) : tcpcb -> tcpcb :=
  on_rcv (fun s => RcvVars (rcv_nxt s) (irs s) (rcv_wnd s) v (rcv_scale s) (req_rcv_scale s) (last_ack_sent s)).
Definition set_rcv_scale (v : Z) : tcpcb -> tcpcb :=
  on_rcv (fun s => RcvVars (rcv_nxt s) (irs s) (rcv_wnd s) (rcv_adv s) v (req_rcv_scale s) (last_ack_sent s)).
Definition set_req_rcv_scale (v : Z) : tcpcb -> tcpcb :=
  on_rcv (fun s => RcvVars (rcv_nxt s) (irs s) (rcv_wnd s) (rcv_adv s) (rcv_scale s) v (last_ack_sent s)).
Definition set_last_ack_sent (v : Z) : tcpcb -> tcpcb :=
  on_rcv (fun s => RcvVars (rcv_nxt s) (irs s) (rcv_wnd s) (rcv_adv s) (rcv_scale s) (req_rcv_scale s) v).
Definition set_snd_cwnd (v : Z) : tcpcb -> tcpcb :=
  on_cong (fun s => CongVars v (snd_ssthresh s) (snd_recover s) (dupacks s)).
Definition set_snd_ssthresh (v : Z) : tcpcb -> tcpcb :=
  on_cong (fun s => CongVars (snd_cwnd s) v (snd_recover s) (dupacks s)).
Definition set_snd_recover (v : Z) : tcpcb -> tcpcb :=
  on_cong (fun s => CongVars (snd_cwnd s) (snd_ssthresh s) v (dupacks s)).
Definition set_dupacks (v : Z) : tcpcb -> tcpcb :=
  on_cong (fun s => CongVars (snd_cwnd s) (snd_ssthresh s) (snd_recover s) v).
Definition set_srtt (v : Z) : tcpcb -> tcpcb :=
  on_rtt (fun s => RttVars v (rttvar s) (rto s) (rtt_start s) (rtt_seq s)).
Definition set_rttvar (v : Z) : tcpcb -> tcpcb :=
  on_rtt (fun s => RttVars (srtt s) v (rto s) (rtt_start s) (rtt_seq s)).
Definition set_rto (v : Z) : tcpcb -> tcpcb :=
  on_rtt (fun s => RttVars (srtt s) (rttvar s) v (rtt_start s) (rtt_seq s)).
Definition set_rtt_start (v : Z) : tcpcb -> tcpcb :=
  on_rtt (fun s => RttVars (srtt s) (rttvar s) (rto s) v (rtt_seq s)).
Definition set_rtt_seq (v : Z) : tcpcb -> tcpcb :=
  on_rtt (fun s => RttVars (srtt s) (rttvar s) (rto s) (rtt_start s) v).
Definition set_t_flags (v : Z) : tcpcb -> tcpcb :=
  on_misc (fun s => MiscVars v (rexmt_shift s) (ts_recent s) (ts_recent_age s) (mss s) (peer_mss s) (t_rcvtime s) (keep_probes s) (t_softerror s)).
Definition set_rexmt_shift (v : Z) : tcpcb -> tcpcb :=
  on_misc (fun s => MiscVars (t_flags s) v (ts_recent s) (ts_recent_age s) (mss s) (peer_mss s) (t_rcvtime s) (keep_probes s) (t_softerror s)).
Definition set_ts_recent (v : Z) : tcpcb -> tcpcb :=
  on_misc (fun s => MiscVars (t_flags s) (rexmt_shift s) v (ts_recent_age s) (mss s) (peer_mss s) (t_rcvtime s) (keep_probes s) (t_softerror s)).
Definition set_ts_recent_age (v : Z) : tcpcb -> tcpcb :=
  on_misc (fun s => MiscVars (t_flags s) (rexmt_shift s) (ts_recent s) v (mss s) (peer_mss s) (t_rcvtime s) (keep_probes s) (t_softerror s)).
Definition set_mss (v : Z) : tcpcb -> tcpcb :=
  on_misc (fun s => MiscVars (t_flags s) (rexmt_shift s) (ts_recent s) (ts_recent_age s) v (peer_mss s) (t_rcvtime s) (keep_probes s) (t_softerror s)).
Definition set_peer_mss (v : Z) : tcpcb -> tcpcb :=
  on_misc (fun s => MiscVars (t_flags s) (rexmt_shift s) (ts_recent s) (ts_recent_age s) (mss s) v (t_rcvtime s) (keep_probes s) (t_softerror s)).
Definition set_t_rcvtime (v : Z) : tcpcb -> tcpcb :=
  on_misc (fun s => MiscVars (t_flags s) (rexmt_shift s) (ts_recent s) (ts_recent_age s) (mss s) (peer_mss s) v (keep_probes s) (t_softerror s)).
Definition set_keep_probes (v : Z) : tcpcb -> tcpcb :=
  on_misc (fun s => MiscVars (t_flags s) (rexmt_shift s) (ts_recent s) (ts_recent_age s) (mss s) (peer_mss s) (t_rcvtime s) v (t_softerror s)).
Definition set_t_softerror (v : Z) : tcpcb -> tcpcb :=
  on_misc (fun s => MiscVars (t_flags s) (rexmt_shift s) (ts_recent s) (ts_recent_age s) (mss s) (peer_mss s) (t_rcvtime s) (keep_probes s) v).
Definition set_reassemble_queue (v : list tcp_reassemble_entry) : tcpcb -> tcpcb :=
  on_reass (fun s => ReassVars v (reassemble_len s)).
Definition set_reassemble_len (v : Z) : tcpcb -> tcpcb :=
  on_reass (fun s => ReassVars (reassemble_queue s) v).
Definition set_sack_blocks (v : list tcp_sack_block) : tcpcb -> tcpcb :=
  on_sack (fun s => SackVars v (sack_count s) (sack_rxmit s) (sack_rexmit_bytes s)).
Definition set_sack_count (v : Z) : tcpcb -> tcpcb :=
  on_sack (fun s => SackVars (sack_blocks s) v (sack_rxmit s) (sack_rexmit_bytes s)).
Definition set_sack_rxmit (v : Z) : tcpcb -> tcpcb :=
  on_sack (fun s => SackVars (sack_blocks s) (sack_count s) v (sack_rexmit_bytes s)).
Definition set_sack_rexmit_bytes (v : Z) : tcpcb -> tcpcb :=
  on_sack (fun s => SackVars (sack_blocks s) (sack_count s) (sack_rxmit s) v).
Definition set_tm_rexmt (v : callout) : tcpcb -> tcpcb :=
  on_timers (fun s => TimerVars v (tm_persist s) (tm_keep s) (tm_2msl s) (tm_delack s)).
Definition set_tm_persist (v : callout) : tcpcb -> tcpcb :=
  on_timers (fun s => TimerVars (tm_rexmt s) v (tm_keep s) (tm_2msl s) (tm_delack s)).
Definition set_tm_keep (v : callout) : tcpcb -> tcpcb :=
  on_timers (fun s => TimerVars (tm_rexmt s) (tm_persist s) v (tm_2msl s) (tm_delack s)).
Definition set_tm_2msl (v : callout) : tcpcb -> tcpcb :=
  on_timers (fun s => TimerVars (tm_rexmt s) (tm_persist s) (tm_keep s) v (tm_delack s)).
Definition set_tm_delack (v : callout) : tcpcb -> tcpcb :=
  on_timers (fun s => TimerVars (tm_rexmt s) (tm_persist s) (tm_keep s) (tm_2msl s) v).

(** Computes projections of updated control blocks. *)
Ltac tcp_simpl :=
  cbn [t_state t_snd t_rcv t_cong t_rtt t_misc t_reass t_sack t_timers set_state on_snd on_rcv
    on_cong on_rtt on_misc on_reass on_sack on_timers snd_una snd_nxt snd_max snd_wl1 snd_wl2 iss
    snd_wnd snd_scale rcv_nxt irs rcv_wnd rcv_adv rcv_scale req_rcv_scale last_ack_sent snd_cwnd
    snd_ssthresh snd_recover dupacks srtt rttvar rto rtt_start rtt_seq t_flags rexmt_shift
    ts_recent ts_recent_age mss peer_mss t_rcvtime keep_probes t_softerror reassemble_queue
    reassemble_len sack_blocks sack_count sack_rxmit sack_rexmit_bytes tm_rexmt tm_persist tm_keep
    tm_2msl tm_delack set_snd_una set_snd_nxt set_snd_max set_snd_wl1 set_snd_wl2 set_iss
    set_snd_wnd set_snd_scale set_rcv_nxt set_irs set_rcv_wnd set_rcv_adv set_rcv_scale
    set_req_rcv_scale set_last_ack_sent set_snd_cwnd set_snd_ssthresh set_snd_recover set_dupacks
    set_srtt set_rttvar set_rto set_rtt_start set_rtt_seq set_t_flags set_rexmt_shift
    set_ts_recent set_ts_recent_age set_mss set_peer_mss set_t_rcvtime set_keep_probes
    set_t_softerror set_reassemble_queue set_reassemble_len set_sack_blocks set_sack_count
    set_sack_rxmit set_sack_rexmit_bytes set_tm_rexmt set_tm_persist set_tm_keep set_tm_2msl
    set_tm_delack].
Ltac tcp_simpl_in H :=
  cbn [t_state t_snd t_rcv t_cong t_rtt t_misc t_reass t_sack t_timers set_state on_snd on_rcv
    on_cong on_rtt on_misc on_reass on_sack on_timers snd_una snd_nxt snd_max snd_wl1 snd_wl2 iss
    snd_wnd snd_scale rcv_nxt irs rcv_wnd rcv_adv rcv_scale req_rcv_scale last_ack_sent snd_cwnd
    snd_ssthresh snd_recover dupacks srtt rttvar rto rtt_start rtt_seq t_flags rexmt_shift
    ts_recent ts_recent_age mss peer_mss t_rcvtime keep_probes t_softerror reassemble_queue
    reassemble_len sack_blocks sack_count sack_rxmit sack_rexmit_bytes tm_rexmt tm_persist tm_keep
    tm_2msl tm_delack set_snd_una set_snd_nxt set_snd_max set_snd_wl1 set_snd_wl2 set_iss
    set_snd_wnd set_snd_scale set_rcv_nxt set_irs set_rcv_wnd set_rcv_adv set_rcv_scale
    set_req_rcv_scale set_last_ack_sent set_snd_cwnd set_snd_ssthresh set_snd_recover set_dupacks
    set_srtt set_rttvar set_rto set_rtt_start set_rtt_seq set_t_flags set_rexmt_shift
    set_ts_recent set_ts_recent_age set_mss set_peer_mss set_t_rcvtime set_keep_probes
    set_t_softerror set_reassemble_queue set_reassemble_len set_sack_blocks set_sack_count
    set_sack_rxmit set_sack_rexmit_bytes set_tm_rexmt set_tm_persist set_tm_keep set_tm_2msl
    set_tm_delack] in H.
Ltac tcp_simpl_all :=
  cbn [t_state t_snd t_rcv t_cong t_rtt t_misc t_reass t_sack t_timers set_state on_snd on_rcv
    on_cong on_rtt on_misc on_reass on_sack on_timers snd_una snd_nxt snd_max snd_wl1 snd_wl2 iss
    snd_wnd snd_scale rcv_nxt irs rcv_wnd rcv_adv rcv_scale req_rcv_scale last_ack_sent snd_cwnd
    snd_ssthresh snd_recover dupacks srtt rttvar rto rtt_start rtt_seq t_flags rexmt_shift
    ts_recent ts_recent_age mss peer_mss t_rcvtime keep_probes t_softerror reassemble_queue
    reassemble_len sack_blocks sack_count sack_rxmit sack_rexmit_bytes tm_rexmt tm_persist tm_keep
    tm_2msl tm_delack set_snd_una set_snd_nxt set_snd_max set_snd_wl1 set_snd_wl2 set_iss
    set_snd_wnd set_snd_scale set_rcv_nxt set_irs set_rcv_wnd set_rcv_adv set_rcv_scale
    set_req_rcv_scale set_last_ack_sent set_snd_cwnd set_snd_ssthresh set_snd_recover set_dupacks
    set_srtt set_rttvar set_rto set_rtt_start set_rtt_seq set_t_flags set_rexmt_shift
    set_ts_recent set_ts_recent_age set_mss set_peer_mss set_t_rcvtime set_keep_probes
    set_t_softerror set_reassemble_queue set_reassemble_len set_sack_blocks set_sack_count
    set_sack_rxmit set_sack_rexmit_bytes set_tm_rexmt set_tm_persist set_tm_keep set_tm_2msl
    set_tm_delack] in *.

(** ** Sequence arithmetic *)

(** The distance of [x] after [base]. *)
Definition rel (base x : Z) : Z := u32 (x - base).

Lemma rel_range base x : 0 <= rel base x < 2 ^ 32.
Proof. apply u32_range. Qed.

Lemma rel_refl base : rel base base = 0.
Proof. unfold rel. by rewrite Z.sub_diag. Qed.

Lemma rel_add base k : 0 <= k < 2 ^ 32 -> rel base (u32 (base + k)) = k.
Proof.
  intros Hk. unfold rel, u32, wrap. rewrite Zminus_mod_idemp_l.
  replace (base + k - base) with k by lia. by apply Z.mod_small.
Qed.

Lemma rel_inv base x : is_u 32 x -> u32 (base + rel base x) = x.
Proof.
  intros Hx. unfold rel, u32, wrap. rewrite Zplus_mod_idemp_r.
  replace (base + (x - base)) with x by lia. by apply Z.mod_small.
Qed.

Lemma rel_inj base x y : is_u 32 x -> is_u 32 y -> rel base x = rel base y -> x = y.
Proof. intros Hx Hy E. by rewrite <- (rel_inv base x Hx), <- (rel_inv base y Hy), E. Qed.

(** The difference of two sequence numbers, from their distances. *)
Lemma diff_rel base a b : u32 (a - b) = u32 (rel base a - rel base b).
Proof.
  unfold rel, u32, wrap. rewrite <- Zminus_mod. f_equal. lia.
Qed.

Lemma s32_u32 a b : u32 a = u32 b -> s32 a = s32 b.
Proof. unfold s32. by intros ->. Qed.

Lemma s32_small x : - 2 ^ 31 <= x < 2 ^ 31 -> s32 x = x.
Proof.
  intros Hx. unfold s32, u32, wrap. destruct (Z_lt_ge_dec x 0).
  - rewrite <- (Z_mod_plus_full x 1 (2 ^ 32)), Z.mod_small by lia.
    destruct (Z.ltb_spec (x + 1 * 2 ^ 32) (2 ^ 31)); lia.
  - rewrite Z.mod_small by lia. destruct (Z.ltb_spec x (2 ^ 31)); lia.
Qed.

(** Inside a half window the comparison is that of the distances. *)
Lemma s32_rel base a b : rel base a - rel base b < 2 ^ 31 -> - 2 ^ 31 <= rel base a - rel base b ->
  s32 (a - b) = rel base a - rel base b.
Proof.
  intros H1 H2. rewrite (s32_u32 _ _ (diff_rel base a b)). by apply s32_small.
Qed.

(** Distances from a later base. *)
Lemma rel_shift una ack y : rel una ack <= rel una y -> rel ack y = rel una y - rel una ack.
Proof.
  intros H. pose proof (rel_range una ack). pose proof (rel_range una y).
  rewrite <- (u32_small (rel una y - rel una ack)) by lia. by rewrite <- diff_rel.
Qed.

Section half_window.
Context (base a b : Z) (Ha : rel base a < 2 ^ 31) (Hb : rel base b < 2 ^ 31).

Lemma seq_diff : s32 (a - b) = rel base a - rel base b.
Proof. pose proof (rel_range base a). pose proof (rel_range base b). apply s32_rel; lia. Qed.

Lemma seq_lt : SEQ_LT a b = (rel base a <? rel base b).
Proof. unfold SEQ_LT. rewrite seq_diff. zcases. Qed.
Lemma seq_leq : SEQ_LEQ a b = (rel base a <=? rel base b).
Proof. unfold SEQ_LEQ. rewrite seq_diff. zcases. Qed.
Lemma seq_gt : SEQ_GT a b = (rel base b <? rel base a).
Proof. unfold SEQ_GT. rewrite seq_diff. zcases. Qed.
Lemma seq_geq : SEQ_GEQ a b = (rel base b <=? rel base a).
Proof. unfold SEQ_GEQ. rewrite seq_diff. zcases. Qed.
End half_window.
