(* ===== verification/TcpSack.v ===== *)
(** * TCP selective acknowledgement: drivers/net/tcp/tcp_sack.c

    The scoreboard is an array of eight blocks of which the first [sack_count]
    are in use.  The array operations are modelled index by index; the proofs
    read the used part as a sorted list of disjoint intervals of offsets from
    [snd_una] and show that the scoreboard is the set of bytes the peer
    reported. *)

From Stdlib Require Import ZArith Lia Sorted.
From stdpp Require Import base option list sorting.
From S2P Require Import Prelude TcpVar.
Open Scope Z_scope.

(** ** The code *)

(** [for (j = i; j + 1 < count; j++) blocks[j] = blocks[j + 1]] *)
Fixpoint shift_down (fuel : nat) (j count : Z) (bs : list tcp_sack_block) : option (list tcp_sack_block) :=
  if j + 1 <? count then
    match fuel with
    | O => None
    | S fuel' => b ← rd bs (j + 1); bs ← wr bs j b; shift_down fuel' (j + 1) count bs
    end
  else Some bs.

Definition tcp_sack_remove (i : Z) (tp : tcpcb) : option tcpcb :=
  bs ← shift_down (Z.to_nat (sack_count tp)) i (sack_count tp) (sack_blocks tp);
  Some (set_sack_count (sack_count tp - 1) (set_sack_blocks bs tp)).

(** [for (j = count; j > i; j--) blocks[j] = blocks[j - 1]] *)
Fixpoint shift_up (fuel : nat) (i j : Z) (bs : list tcp_sack_block) : option (list tcp_sack_block) :=
  if j >? i then
    match fuel with
    | O => None
    | S fuel' => b ← rd bs (j - 1); bs ← wr bs j b; shift_up fuel' i (j - 1) bs
    end
  else Some bs.

Definition tcp_sack_insert_at (i : Z) (b : tcp_sack_block) (tp : tcpcb) : option tcpcb :=
  if (sack_count tp =? TCP_SACK_SCOREBOARD) && (i =? TCP_SACK_SCOREBOARD) then Some tp
  else
    let count := if sack_count tp =? TCP_SACK_SCOREBOARD then sack_count tp - 1 else sack_count tp in
    bs ← shift_up (Z.to_nat count) i count (sack_blocks tp);
    bs ← wr bs i b;
    Some (set_sack_count (count + 1) (set_sack_blocks bs tp)).

(** The loop of [tcp_sack_merge]: the position and the block to insert. *)
Fixpoint merge_loop (fuel : nat) (i : Z) (b : tcp_sack_block) (tp : tcpcb)
  : option (Z * tcp_sack_block * tcpcb) :=
  if i <? sack_count tp then
    match fuel with
    | O => None
    | S fuel' =>
        cur ← rd (sack_blocks tp) i;
        if SEQ_LT (blk_end cur) (blk_start b) then merge_loop fuel' (i + 1) b tp
        else if SEQ_GT (blk_start cur) (blk_end b) then Some (i, b, tp)
        else
          let b := if SEQ_LT (blk_start cur) (blk_start b)
                   then SackBlock (blk_start cur) (blk_end b) else b in
          let b := if SEQ_GT (blk_end cur) (blk_end b)
                   then SackBlock (blk_start b) (blk_end cur) else b in
          tp ← tcp_sack_remove i tp;
          merge_loop fuel' i b tp
    end
  else Some (i, b, tp).

Definition tcp_sack_merge (b : tcp_sack_block) (tp : tcpcb) : option tcpcb :=
  '(i, b, tp) ← merge_loop (Z.to_nat (sack_count tp)) 0 b tp;
  tcp_sack_insert_at i b tp.

Fixpoint tcp_sack_update (blocks : list tcp_sack_block) (tp : tcpcb) : option tcpcb :=
  match blocks with
  | [] => Some tp
  | b :: blocks' =>
      if SEQ_LEQ (blk_end b) (blk_start b) || SEQ_LEQ (blk_end b) (snd_una tp)
         || SEQ_GT (blk_end b) (snd_max tp)
      then tcp_sack_update blocks' tp
      else
        let b := if SEQ_LT (blk_start b) (snd_una tp) then SackBlock (snd_una tp) (blk_end b) else b in
        tp ← tcp_sack_merge b tp;
        tcp_sack_update blocks' tp
  end.

(** The loop of [tcp_sack_ack] that removes acknowledged blocks. *)
Fixpoint ack_loop (fuel : nat) (ack : Z) (tp : tcpcb) : option tcpcb :=
  if negb (sack_count tp =? 0) then
    b ← rd (sack_blocks tp) 0;
    if SEQ_LEQ (blk_end b) ack then
      match fuel with
      | O => None
      | S fuel' => tp ← tcp_sack_remove 0 tp; ack_loop fuel' ack tp
      end
    else Some tp
  else Some tp.

(** A first block that begins below [ack] is cut. *)
Definition ack_trim (ack : Z) (tp : tcpcb) : option tcpcb :=
  if negb (sack_count tp =? 0) then
    b ← rd (sack_blocks tp) 0;
    if SEQ_LT (blk_start b) ack then
      bs ← wr (sack_blocks tp) 0 (SackBlock ack (blk_end b));
      Some (set_sack_blocks bs tp)
    else Some tp
  else Some tp.

Definition tcp_sack_ack (ack : Z) (tp : tcpcb) : option tcpcb :=
  tp1 ← ack_loop (Z.to_nat (sack_count tp)) ack tp;
  tp2 ← ack_trim ack tp1;
  Some (if SEQ_LT (sack_rxmit (t_sack tp2)) ack then set_sack_rxmit ack tp2 else tp2).

Definition tcp_sack_clear (tp : tcpcb) : tcpcb :=
  set_sack_rexmit_bytes 0 (set_sack_rxmit (snd_una tp) (set_sack_count 0 tp)).

Fixpoint bytes_loop (n : nat) (i : Z) (bs : list tcp_sack_block) (bytes : Z) : option Z :=
  match n with
  | O => Some bytes
  | S n' => b ← rd bs i; bytes_loop n' (i + 1) bs (u32 (bytes + (blk_end b - blk_start b)))
  end.
Definition tcp_sack_bytes (tp : tcpcb) : option Z :=
  bytes_loop (Z.to_nat (sack_count tp)) 0 (sack_blocks tp) 0.

Definition tcp_sack_pipe (tp : tcpcb) : option Z :=
  bytes ← tcp_sack_bytes tp;
  Some (u32 (snd_max tp - snd_una tp - bytes + sack_rexmit_bytes tp)).

(** The hole and its length, or [None] inside for no hole. *)
Fixpoint hole_loop (n : nat) (i start : Z) (bs : list tcp_sack_block) : option (option (Z * Z)) :=
  match n with
  | O => Some None
  | S n' =>
      b ← rd bs i;
      if SEQ_LT start (blk_start b) then Some (Some (start, u32 (blk_start b - start)))
      else hole_loop n' (i + 1) (if SEQ_LT start (blk_end b) then blk_end b else start) bs
  end.
Definition tcp_sack_next_hole (tp : tcpcb) : option (option (Z * Z)) :=
  let start := if SEQ_GT (sack_rxmit tp) (snd_una tp) then sack_rxmit tp else snd_una tp in
  hole_loop (Z.to_nat (sack_count tp)) 0 start (sack_blocks tp).

(** The blocks reported to the peer, newest last; [max] of them at most. *)
Fixpoint build_loop (q : list tcp_reassemble_entry) (max : Z) (out : list tcp_sack_block)
  : list tcp_sack_block :=
  match q with
  | [] => out
  | e :: q' =>
      let end_ := u32 (e_seq e + e_len e) in
      if e_len e =? 0 then build_loop q' max out
      else match last out with
      | Some b =>
          if blk_end b =? e_seq e
          then build_loop q' max (removelast out ++ [SackBlock (blk_start b) end_])
          else if Z.of_nat (length out) =? max then out
          else build_loop q' max (out ++ [SackBlock (e_seq e) end_])
      | None =>
          if Z.of_nat (length out) =? max then out
          else build_loop q' max (out ++ [SackBlock (e_seq e) end_])
      end
  end.
Definition tcp_sack_build_blocks (tp : tcpcb) (max : Z) : list tcp_sack_block :=
  build_loop (reassemble_queue tp) max [].

(** ** The array operations on the used part *)

Implicit Types (tp : tcpcb).

Definition board (tp : tcpcb) : list tcp_sack_block :=
  take (Z.to_nat (sack_count tp)) (sack_blocks tp).

Record sack_wf (tp : tcpcb) : Prop := {
  sw_length : Z.of_nat (length (sack_blocks tp)) = TCP_SACK_SCOREBOARD;
  sw_count : 0 <= sack_count tp <= TCP_SACK_SCOREBOARD;
}.

Lemma rd_middle {A} (pre post : list A) x i : i = Z.of_nat (length pre) -> rd (pre ++ x :: post) i = Some x.
Proof.
  intros ->. unfold rd. destruct (Z.ltb_spec (Z.of_nat (length pre)) 0); [lia |].
  rewrite Nat2Z.id. by apply list_lookup_middle.
Qed.

Lemma wr_middle {A} (pre post : list A) x y i : i = Z.of_nat (length pre) ->
  wr (pre ++ x :: post) i y = Some (pre ++ y :: post).
Proof.
  intros ->. rewrite wr_is_Some by (rewrite length_app; simpl; lia). rewrite Nat2Z.id. f_equal.
  rewrite insert_app_r_alt, Nat.sub_diag by lia. done.
Qed.

Lemma shift_down_middle mid : forall fuel pre x post j count, (length mid <= fuel)%nat ->
  j = Z.of_nat (length pre) -> count = j + 1 + Z.of_nat (length mid) ->
  exists y, shift_down fuel j count (pre ++ x :: mid ++ post) = Some (pre ++ mid ++ y :: post).
Proof.
  induction mid as [| m mid IH]; intros fuel pre x post j count Hf Hj Hc; simpl in Hc.
  - exists x. destruct fuel; cbn [shift_down]; (destruct (Z.ltb_spec (j + 1) count); [lia | done]).
  - simpl in Hf. destruct fuel as [| fuel]; [lia |]. cbn [shift_down app].
    destruct (Z.ltb_spec (j + 1) count); [| lia].
    rewrite (cons_middle x), app_assoc, rd_middle by (rewrite length_app; simpl; lia).
    rewrite option_bind_Some_fun, <- app_assoc. cbn [app]. rewrite wr_middle, option_bind_Some_fun by done.
    rewrite (cons_middle m pre), app_assoc.
    destruct (IH fuel (pre ++ [m]) m post (j + 1) count) as [y ->];
      [lia | rewrite length_app; simpl; lia | lia |].
    exists y. by rewrite <- app_assoc.
Qed.

Lemma shift_up_middle mid : forall fuel pre y post i j, (length mid <= fuel)%nat ->
  i = Z.of_nat (length pre) -> j = i + Z.of_nat (length mid) ->
  exists x, shift_up fuel i j (pre ++ mid ++ y :: post) = Some (pre ++ x :: mid ++ post).
Proof.
  induction mid as [| m mid IH] using rev_ind; intros fuel pre y post i j Hf Hi Hj.
  - simpl in Hj. exists y.
    destruct fuel; cbn [shift_up]; rewrite Z.gtb_ltb; (destruct (Z.ltb_spec i j); [lia | done]).
  - rewrite length_app in Hf, Hj. simpl in Hf, Hj. destruct fuel as [| fuel]; [lia |]. cbn [shift_up].
    rewrite Z.gtb_ltb. destruct (Z.ltb_spec i j); [| lia].
    rewrite <- app_assoc, (app_assoc pre). cbn [app]. rewrite rd_middle by (rewrite length_app; lia).
    rewrite option_bind_Some_fun, (cons_middle m), app_assoc, wr_middle, option_bind_Some_fun
      by (rewrite !length_app; simpl; lia).
    rewrite <- !app_assoc. cbn [app].
    destruct (IH fuel pre m (m :: post) i (j - 1)) as [x ->]; [lia | done | lia |].
    by exists x.
Qed.

(** The control block with another scoreboard. *)
Definition with_board (bs : list tcp_sack_block) (count : Z) (tp : tcpcb) : tcpcb :=
  set_sack_count count (set_sack_blocks bs tp).

Lemma board_split tp pre x post : sack_wf tp -> board tp = pre ++ x :: post ->
  sack_blocks tp = pre ++ x :: post ++ drop (Z.to_nat (sack_count tp)) (sack_blocks tp) /\
  sack_count tp = Z.of_nat (length pre) + 1 + Z.of_nat (length post).
Proof.
  intros [Hl Hc] Hb. split.
  - rewrite <- (take_drop (Z.to_nat (sack_count tp)) (sack_blocks tp)) at 1.
    change (take (Z.to_nat (sack_count tp)) (sack_blocks tp)) with (board tp). by rewrite Hb, <- app_assoc.
  - apply (f_equal length) in Hb. unfold board in Hb. rewrite length_take, length_app in Hb. simpl in Hb. lia.
Qed.

Lemma board_nil tp : sack_wf tp -> board tp = [] -> sack_count tp = 0.
Proof.
  intros [Hl Hc] Hb%(f_equal length). unfold board in Hb. rewrite length_take in Hb.
  cbn [length] in Hb. unfold TCP_SACK_SCOREBOARD in *. lia.
Qed.

Lemma sack_remove_spec tp pre x post i : sack_wf tp -> board tp = pre ++ x :: post ->
  i = Z.of_nat (length pre) ->
  exists bs, tcp_sack_remove i tp = Some (with_board bs (sack_count tp - 1) tp) /\
    sack_wf (with_board bs (sack_count tp - 1) tp) /\
    board (with_board bs (sack_count tp - 1) tp) = pre ++ post.
Proof.
  intros Hwf Hb Hi. destruct (board_split _ _ _ _ Hwf Hb) as [Hbs Hc]. unfold tcp_sack_remove.
  pose proof Hwf as [Hl Hcnt]. rewrite Hbs in Hl |- *. rewrite !length_app in Hl. simpl in Hl. rewrite length_app in Hl.
  destruct (shift_down_middle post (Z.to_nat (sack_count tp)) pre x
    (drop (Z.to_nat (sack_count tp)) (sack_blocks tp)) i (sack_count tp)) as [y ->]; [lia | done | lia |].
  rewrite option_bind_Some_fun. eexists. split; [reflexivity |]. split.
  - split; tcp_simpl; unfold with_board; tcp_simpl; [| lia]. rewrite !length_app. simpl. lia.
  - unfold board, with_board. tcp_simpl. rewrite app_assoc, take_app_le by (rewrite length_app; lia).
    apply take_ge. rewrite length_app. lia.
Qed.

Lemma with_board_eta tp : with_board (sack_blocks tp) (sack_count tp) tp = tp.
Proof. by destruct tp as [? ? ? ? ? ? ? [] ?]. Qed.

(** Inserting into an array with a free place after the used part. *)
Lemma insert_room tp pre mid y rest b i : sack_blocks tp = pre ++ mid ++ y :: rest ->
  Z.of_nat (length (sack_blocks tp)) = TCP_SACK_SCOREBOARD -> i = Z.of_nat (length pre) ->
  let count := i + Z.of_nat (length mid) in
  exists bs, (bs ← shift_up (Z.to_nat count) i count (sack_blocks tp); bs ← wr bs i b;
              Some (with_board bs (count + 1) tp)) = Some (with_board bs (count + 1) tp) /\
    sack_wf (with_board bs (count + 1) tp) /\
    board (with_board bs (count + 1) tp) = pre ++ b :: mid.
Proof.
  intros Hbs Hl Hi count. rewrite Hbs in Hl |- *.
  destruct (shift_up_middle mid (Z.to_nat count) pre y rest i count) as [x ->]; [unfold count; lia | done | done |].
  rewrite option_bind_Some_fun, wr_middle, option_bind_Some_fun by done. eexists. split; [reflexivity |].
  rewrite !length_app in Hl. simpl in Hl. unfold TCP_SACK_SCOREBOARD in *. split.
  - split; unfold with_board, TCP_SACK_SCOREBOARD; tcp_simpl; [| unfold count; lia].
    rewrite !length_app. simpl. rewrite length_app. lia.
  - unfold board, with_board. tcp_simpl. change (pre ++ b :: mid ++ rest) with (pre ++ (b :: mid) ++ rest).
    rewrite app_assoc, take_app_le by (rewrite length_app; simpl; unfold count; lia).
    apply take_ge. rewrite length_app. simpl. unfold count. lia.
Qed.

Lemma sack_insert_spec tp pre post b i : sack_wf tp -> board tp = pre ++ post ->
  i = Z.of_nat (length pre) ->
  exists bs count, tcp_sack_insert_at i b tp = Some (with_board bs count tp) /\
    sack_wf (with_board bs count tp) /\
    board (with_board bs count tp) = take (Z.to_nat TCP_SACK_SCOREBOARD) (pre ++ b :: post).
Proof.
  intros Hwf Hb Hi. pose proof Hwf as [Hl Hc]. unfold tcp_sack_insert_at.
  assert (sack_count tp = Z.of_nat (length pre) + Z.of_nat (length post)) as Hcnt.
  { apply (f_equal length) in Hb. unfold board in Hb. rewrite length_take, length_app in Hb. lia. }
  assert (sack_blocks tp = pre ++ post ++ drop (Z.to_nat (sack_count tp)) (sack_blocks tp)) as Hbs.
  { rewrite app_assoc, <- Hb. unfold board. by rewrite take_drop. }
  destruct (Z.eqb_spec (sack_count tp) TCP_SACK_SCOREBOARD) as [Hfull | Hroom]; cbn [andb].
  - destruct (Z.eqb_spec i TCP_SACK_SCOREBOARD) as [Hend | Hin].
    + exists (sack_blocks tp), (sack_count tp). rewrite with_board_eta. split; [done |]. split; [done |].
      assert (post = []) as -> by (apply nil_length_inv; lia). rewrite app_nil_r in Hb.
      rewrite Hb, take_app_le, take_ge by lia. done.
    + destruct post as [| z post _] using rev_ind; [simpl in Hcnt; lia |].
      rewrite length_app in Hcnt. simpl in Hcnt. rewrite <- app_assoc in Hbs. cbn [app] in Hbs.
      destruct (insert_room tp pre post z _ b i Hbs Hl Hi) as (bs & E & Hw & Hbd).
      replace (sack_count tp - 1) with (i + Z.of_nat (length post)) by lia.
      eexists bs, _. split; [exact E |]. split; [done |]. rewrite Hbd.
      change (pre ++ b :: post ++ [z]) with (pre ++ (b :: post) ++ [z]). rewrite app_assoc, take_app_le, take_ge;
        [done | |]; rewrite length_app; simpl; lia.
  - destruct (drop (Z.to_nat (sack_count tp)) (sack_blocks tp)) as [| y rest] eqn:Hd.
    { apply (f_equal length) in Hd. rewrite length_drop in Hd. simpl in Hd. lia. }
    destruct (insert_room tp pre post y rest b i Hbs Hl Hi) as (bs & E & Hw & Hbd).
    replace (sack_count tp) with (i + Z.of_nat (length post)) by lia.
    eexists bs, _. split; [exact E |]. split; [done |]. rewrite Hbd, take_ge; [done |].
    rewrite length_app. simpl. lia.
Qed.

Lemma with_board_twice bs c bs' c' tp : with_board bs c (with_board bs' c' tp) = with_board bs c tp.
Proof. by destruct tp as [? ? ? ? ? ? ? [] ?]. Qed.

(** ** The scoreboard as a set of bytes *)

Section scoreboard.
Context (una top : Z) (Htop : 0 <= top < 2 ^ 31).
Implicit Types (b : tcp_sack_block) (bs : list tcp_sack_block) (x : Z).

(** Offsets from the first unacknowledged byte. *)
Definition lo b : Z := rel una (blk_start b).
Definition hi b : Z := rel una (blk_end b).

Definition blk_ok b : Prop := lo b < hi b /\ hi b <= top.
Definition before a b : Prop := hi a < lo b.

(** Nonempty blocks inside the window, in order, with gaps between them. *)
Definition board_ok bs : Prop := StronglySorted before bs /\ Forall blk_ok bs.

(** The byte at offset [x] is covered. *)
Definition has bs x : Prop := Exists (fun b => lo b <= x < hi b) bs.

Lemma lo_nonneg b : 0 <= lo b.
Proof. apply rel_range. Qed.

Lemma blk_seq b c : blk_ok b -> blk_ok c ->
  SEQ_LT (blk_end c) (blk_start b) = (hi c <? lo b) /\
  SEQ_GT (blk_start c) (blk_end b) = (hi b <? lo c) /\
  SEQ_LT (blk_start c) (blk_start b) = (lo c <? lo b) /\
  SEQ_GT (blk_end c) (blk_end b) = (hi b <? hi c).
Proof.
  unfold blk_ok, lo, hi. intros [] [].
  rewrite !(seq_lt una), !(seq_gt una) by lia. done.
Qed.

Lemma board_ok_app xs ys : board_ok (xs ++ ys) <->
  (forall a b, a ∈ xs -> b ∈ ys -> before a b) /\ board_ok xs /\ board_ok ys.
Proof. unfold board_ok. rewrite StronglySorted_app, Forall_app. tauto. Qed.

Lemma board_ok_cons b bs : board_ok (b :: bs) <->
  (forall c, c ∈ bs -> before b c) /\ blk_ok b /\ board_ok bs.
Proof.
  unfold board_ok. rewrite Forall_cons_iff. split.
  - intros [HS [? ?]]. apply StronglySorted_inv in HS as [? Hb]. rewrite Forall_forall in Hb.
    split; [| done]. exact Hb.
  - intros (Hb & ? & ? & ?). split; [| done]. constructor; [done |]. rewrite Forall_forall. exact Hb.
Qed.

Lemma has_app xs ys x : has (xs ++ ys) x <-> has xs x \/ has ys x.
Proof. apply Exists_app. Qed.

Lemma has_cons b bs x : has (b :: bs) x <-> lo b <= x < hi b \/ has bs x.
Proof. apply Exists_cons. Qed.

(** Appending a block after all others. *)
Lemma board_ok_snoc bs b : board_ok bs -> blk_ok b -> (forall a, a ∈ bs -> before a b) ->
  board_ok (bs ++ [b]).
Proof.
  intros Hbs Hb Hbef. apply board_ok_app. split; [| split; [done |]].
  - intros a c Ha Hc. apply list_elem_of_singleton in Hc as ->. auto.
  - apply board_ok_cons. split; [by intros c ?%not_elem_of_nil |]. split; [done |].
    split; constructor.
Qed.

(** What [merge_loop] establishes for a block covering [l, h). *)
Record merged (l h : Z) bs (b' : tcp_sack_block) (pre post : list tcp_sack_block) : Prop := {
  mg_ok : board_ok (pre ++ b' :: post);
  mg_has : forall x, has (pre ++ b' :: post) x <-> has bs x \/ l <= x < h;
  mg_len : (length (pre ++ post) <= length bs)%nat;
}.

(** The hull of two blocks that touch. *)
Lemma hull_block b cur : blk_ok b -> blk_ok cur -> lo b <= hi cur -> lo cur <= hi b ->
  let b1 := if SEQ_LT (blk_start cur) (blk_start b) then SackBlock (blk_start cur) (blk_end b) else b in
  let b2 := if SEQ_GT (blk_end cur) (blk_end b1) then SackBlock (blk_start b1) (blk_end cur) else b1 in
  lo b2 = Z.min (lo b) (lo cur) /\ hi b2 = Z.max (hi b) (hi cur) /\ blk_ok b2.
Proof.
  intros Hb Hc H1 H2 b1 b2. destruct (blk_seq b cur Hb Hc) as (_ & _ & E3 & E4).
  assert (blk_end b1 = blk_end b) as Eb1 by (unfold b1; destruct (SEQ_LT (blk_start cur) (blk_start b)); reflexivity).
  assert (lo b1 = Z.min (lo b) (lo cur)) as El1.
  { unfold b1. rewrite E3. destruct (Z.ltb_spec (lo cur) (lo b)); unfold lo in *; simpl; lia. }
  assert (lo b2 = lo b1) as El2 by (unfold b2; destruct (SEQ_GT (blk_end cur) (blk_end b1)); reflexivity).
  assert (hi b2 = Z.max (hi b) (hi cur)) as Eh2.
  { unfold b2. rewrite Eb1, E4. destruct (Z.ltb_spec (hi b) (hi cur)); unfold hi in *; simpl; [lia |].
    rewrite Eb1. lia. }
  rewrite El2, El1, Eh2. split; [done |]. split; [done |]. unfold blk_ok in *.
  rewrite El2, El1, Eh2. lia.
Qed.

Lemma merge_loop_spec rest : forall fuel pre b tp i, sack_wf tp -> board tp = pre ++ rest ->
  i = Z.of_nat (length pre) -> (length rest <= fuel)%nat -> board_ok (pre ++ rest) -> blk_ok b ->
  (forall a, a ∈ pre -> before a b) ->
  exists b' bs c pre' post, let tp' := with_board bs c tp in
    merge_loop fuel i b tp = Some (Z.of_nat (length pre'), b', tp') /\ sack_wf tp' /\
    board tp' = pre' ++ post /\ merged (lo b) (hi b) (pre ++ rest) b' pre' post.
Proof.
  induction rest as [| cur rest IH]; intros fuel pre b tp i Hwf Hbd Hi Hf Hok Hb Hbef.
  - exists b, (sack_blocks tp), (sack_count tp), pre, []. rewrite with_board_eta. cbv zeta.
    rewrite app_nil_r in *. split; [| split; [done |]; split; [done |]].
    + assert ((i <? sack_count tp) = false) as Hlt.
      { apply Z.ltb_ge. apply (f_equal length) in Hbd. unfold board in Hbd. rewrite length_take in Hbd.
        destruct Hwf. lia. }
      subst i. destruct fuel; cbn [merge_loop]; by rewrite Hlt.
    + split; [by apply board_ok_snoc | | rewrite app_nil_r; lia]. intros x. rewrite has_app, has_cons.
      assert (has [] x <-> False) as -> by (split; [intros H; inversion H | done]). tauto.
  - simpl in Hf. destruct fuel as [| fuel]; [lia |]. cbn [merge_loop].
    destruct (board_split _ _ _ _ Hwf Hbd) as [Hbs Hc].
    destruct (Z.ltb_spec i (sack_count tp)); [| lia].
    assert (rd (sack_blocks tp) i = Some cur) as -> by (rewrite Hbs; by apply rd_middle).
    rewrite option_bind_Some_fun.
    pose proof Hok as (Hpc & Hpre & (Hcr & Hcur & Hrest)%board_ok_cons)%board_ok_app.
    destruct (blk_seq b cur Hb Hcur) as (E1 & E2 & _). rewrite E1, E2.
    destruct (Z.ltb_spec (hi cur) (lo b)) as [Hlt | Hge]; [| destruct (Z.ltb_spec (hi b) (lo cur)) as [Hgt | Hle]].
    + rewrite (cons_middle cur), app_assoc in Hbd, Hok |- *.
      destruct (IH fuel (pre ++ [cur]) b tp (i + 1)) as (b' & bs & c & pre' & post & H1 & H2 & H3 & H4);
        [done | done | rewrite length_app; simpl; lia | lia | done | done | |].
      { intros a [Ha | Ha%list_elem_of_singleton]%elem_of_app; [auto | by subst]. }
      exists b', bs, c, pre', post. by rewrite H1.
    + exists b, (sack_blocks tp), (sack_count tp), pre, (cur :: rest). rewrite with_board_eta. cbv zeta.
      split; [by subst i |]. split; [done |]. split; [done |]. split; [| | done].
      * apply board_ok_app. split; [| split; [done |]].
        { intros a c Ha [-> | Hin]%elem_of_cons; [auto | by apply Hpc]. }
        apply board_ok_cons. split; [| split; [done |]; by apply board_ok_cons].
        intros c [-> | Hin]%elem_of_cons; [done |]. specialize (Hcr c Hin).
        unfold before, blk_ok in *. lia.
      * intros x. rewrite !has_app, !has_cons. tauto.
    + destruct (hull_block b cur Hb Hcur Hge Hle) as (El & Eh & Hok2).
      match type of Hok2 with blk_ok ?B => set (b2 := B) in * end.
      destruct (sack_remove_spec tp pre cur rest i Hwf Hbd Hi) as (bs & -> & Hwf' & Hbd').
      rewrite option_bind_Some_fun.
      destruct (IH fuel pre b2 (with_board bs (sack_count tp - 1) tp) i) as
        (b' & bs' & c & pre' & post & H1 & H2 & H3 & [H4 H5 H6]);
        [done | done | done | lia | | done | |].
      { apply board_ok_app. split; [| done]. intros a c Ha Hc'. apply Hpc; [done | by right]. }
      { intros a Ha. unfold before. rewrite El. specialize (Hbef a Ha).
        assert (before a cur) by (apply Hpc; [done | by left]). unfold before in *. lia. }
      exists b', bs', c, pre', post. cbv zeta in *. rewrite with_board_twice in *.
      split; [exact H1 |]. split; [done |]. split; [done |]. split; [done | |].
      * intros x. rewrite (H5 x), !has_app, has_cons, El, Eh. unfold blk_ok in *.
        intuition lia.
      * rewrite !length_app in H6 |- *. simpl. lia.
Qed.

Lemma has_take n bs x : has (take n bs) x -> has bs x.
Proof. intros H. rewrite <- (take_drop n bs). apply has_app. by left. Qed.

Lemma board_ok_take n bs : board_ok bs -> board_ok (take n bs).
Proof. intros H. rewrite <- (take_drop n bs) in H. by apply board_ok_app in H as (_ & ? & _). Qed.

(** Merging a block adds its bytes; only a full scoreboard forgets bytes, the highest ones. *)
Lemma sack_merge_spec tp b : sack_wf tp -> board_ok (board tp) -> blk_ok b ->
  exists bs c, let tp' := with_board bs c tp in
    tcp_sack_merge b tp = Some tp' /\ sack_wf tp' /\ board_ok (board tp') /\
    (forall x, has (board tp') x -> has (board tp) x \/ lo b <= x < hi b) /\
    (sack_count tp < TCP_SACK_SCOREBOARD ->
       (forall x, has (board tp') x <-> has (board tp) x \/ lo b <= x < hi b) /\
       sack_count tp' <= sack_count tp + 1).
Proof.
  intros Hwf Hok Hb. unfold tcp_sack_merge. pose proof Hwf as [Hl Hc].
  assert (length (board tp) = Z.to_nat (sack_count tp)) as Hlen.
  { unfold board. rewrite length_take. unfold TCP_SACK_SCOREBOARD in *. lia. }
  destruct (merge_loop_spec (board tp) (Z.to_nat (sack_count tp)) [] b tp 0) as
    (b' & bs & c & pre & post & -> & Hwf1 & Hb1 & [Hok1 Hhas1 Hlen1]);
    [done | done | done | lia | done | done | by intros a ?%not_elem_of_nil |].
  rewrite option_bind_Some_fun. cbn [app] in *.
  destruct (sack_insert_spec (with_board bs c tp) pre post b' _ Hwf1 Hb1 eq_refl) as
    (bs' & c' & -> & Hwf2 & Hb2). rewrite with_board_twice in *.
  exists bs', c'. cbv zeta. split; [done |]. split; [done |]. rewrite Hb2.
  split; [by apply board_ok_take |]. split.
  - intros x Hx%has_take. by apply Hhas1.
  - intros Hroom.
    assert (take (Z.to_nat TCP_SACK_SCOREBOARD) (pre ++ b' :: post) = pre ++ b' :: post) as Htk.
    { apply take_ge. rewrite length_app in *. simpl. lia. }
    rewrite Htk in *. split; [done |]. destruct Hwf2 as [Hl2 Hc2].
    apply (f_equal length) in Hb2. unfold board in Hb2. rewrite length_take, length_app in Hb2.
    rewrite length_app in Hlen1. cbn [length] in Hb2. unfold TCP_SACK_SCOREBOARD in *. lia.
Qed.
End scoreboard.

(** ** The operations *)

(** A scoreboard in order, inside the send window. *)
Record sack_ok (tp : tcpcb) : Prop := {
  so_wf : sack_wf tp;
  so_window : rel (snd_una tp) (snd_max tp) < 2 ^ 31;
  so_board : board_ok (snd_una tp) (rel (snd_una tp) (snd_max tp)) (board tp);
}.

(** The byte [x] after [snd_una] is marked as received. *)
Definition sacked (tp : tcpcb) (x : Z) : Prop := has (snd_una tp) (board tp) x.

(** A block of an option reports the byte [x]: it is not empty, it ends inside the
    window, and [x] lies in it; its start may lie before the window. *)
Definition reported (tp : tcpcb) (b : tcp_sack_block) (x : Z) : Prop :=
  0 < s32 (blk_end b - blk_start b) /\
  0 < s32 (blk_end b - snd_una tp) <= rel (snd_una tp) (snd_max tp) /\
  0 <= x /\ s32 (blk_start b - snd_una tp) <= x < s32 (blk_end b - snd_una tp).

Lemma s32_range x : - 2 ^ 31 <= s32 x < 2 ^ 31.
Proof.
  unfold s32. pose proof (u32_range x) as Hr. unfold is_u in Hr.
  destruct (Z.ltb_spec (u32 x) (2 ^ 31)); lia.
Qed.

Lemma s32_nonneg base x : 0 <= s32 (x - base) -> rel base x = s32 (x - base).
Proof.
  unfold rel, s32. pose proof (u32_range (x - base)) as Hr. unfold is_u in Hr.
  destruct (Z.ltb_spec (u32 (x - base)) (2 ^ 31)); lia.
Qed.

(** Whether a block is used, and the block after the cut at [snd_una]. *)
Lemma update_block una mx b : rel una mx < 2 ^ 31 ->
  let top := rel una mx in
  let use := negb (SEQ_LEQ (blk_end b) (blk_start b) || SEQ_LEQ (blk_end b) una || SEQ_GT (blk_end b) mx) in
  let b' := if SEQ_LT (blk_start b) una then SackBlock una (blk_end b) else b in
  (use = true <-> 0 < s32 (blk_end b - blk_start b) /\ 0 < s32 (blk_end b - una) <= top) /\
  (use = true -> blk_ok una top b' /\ hi una b' = s32 (blk_end b - una) /\
     lo una b' = Z.max 0 (s32 (blk_start b - una))).
Proof.
  intros Htop top use b'. pose proof (s32_range (blk_end b - una)) as Re.
  pose proof (s32_range (blk_start b - una)) as Rs.
  pose proof (s32_nonneg una (blk_end b)) as Ee. pose proof (s32_nonneg una (blk_start b)) as Es.
  assert (use = true <-> 0 < s32 (blk_end b - blk_start b) /\ 0 < s32 (blk_end b - una) <= top) as Huse.
  { unfold use. rewrite negb_true_iff, !orb_false_iff. unfold SEQ_LEQ. rewrite !Z.leb_gt. split.
    - intros [[H1 H2] H3]. split; [done |]. split; [done |].
      rewrite (seq_gt una) in H3 by lia. apply Z.ltb_ge in H3. unfold top. lia.
    - intros [H1 H2]. split; [split; [done | lia] |]. rewrite (seq_gt una) by lia.
      apply Z.ltb_ge. unfold top in H2. lia. }
  split; [done |]. intros H%Huse. destruct H as [H1 H2].
  assert (hi una b' = s32 (blk_end b - una)) as Eh.
  { unfold b', hi. destruct (SEQ_LT (blk_start b) una); cbn [blk_end]; lia. }
  assert (lo una b' = Z.max 0 (s32 (blk_start b - una))) as El.
  { unfold b', lo, SEQ_LT. destruct (Z.ltb_spec (s32 (blk_start b - una)) 0); cbn [blk_start].
    - rewrite rel_refl. lia. - lia. }
  split; [| done]. unfold blk_ok. rewrite El, Eh. split; [| lia].
  destruct (Z_lt_ge_dec (s32 (blk_start b - una)) 0) as [| Hge]; [lia |].
  rewrite (seq_diff una) in H1 by lia. lia.
Qed.

Lemma with_board_frame bs c tp : snd_una (with_board bs c tp) = snd_una tp /\
  snd_max (with_board bs c tp) = snd_max tp.
Proof. done. Qed.

Lemma sack_update_spec blocks tp : sack_ok tp ->
  exists bs c, let tp' := with_board bs c tp in
    tcp_sack_update blocks tp = Some tp' /\ sack_ok tp' /\
    (forall x, sacked tp' x -> sacked tp x \/ exists b, b ∈ blocks /\ reported tp b x) /\
    (sack_count tp + Z.of_nat (length blocks) <= TCP_SACK_SCOREBOARD ->
     forall x, sacked tp' x <-> sacked tp x \/ exists b, b ∈ blocks /\ reported tp b x).
Proof.
  revert tp. induction blocks as [| b blocks IH]; intros tp Hok; cbn [tcp_sack_update].
  - exists (sack_blocks tp), (sack_count tp). rewrite with_board_eta. cbv zeta.
    split; [done |]. split; [done |]. split; [by left |]. intros _ x. split; [by left |].
    intros [? | (b & Hb & _)]; [done | by apply not_elem_of_nil in Hb].
  - pose proof Hok as [Hwf Hwin Hbd].
    destruct (update_block (snd_una tp) (snd_max tp) b Hwin) as [Huse Hblk]. cbv zeta in Huse, Hblk.
    destruct (SEQ_LEQ (blk_end b) (blk_start b) || SEQ_LEQ (blk_end b) (snd_una tp)
              || SEQ_GT (blk_end b) (snd_max tp)) eqn:Hskip; cbn [negb] in *.
    + assert (forall x, ~ reported tp b x) as Hno.
      { intros x (H1 & H2 & _). assert (false = true) by (by apply Huse). done. }
      destruct (IH tp Hok) as (bs & c & H1 & H2 & H3 & H4). exists bs, c. cbv zeta in *.
      split; [done |]. split; [done |]. split.
      * intros x Hx. destruct (H3 x Hx) as [? | (b0 & Hb0 & Hr)]; [by left |].
        right. exists b0. split; [by right | done].
      * intros Hlen x. cbn [length] in Hlen. rewrite (H4 ltac:(lia) x). split.
        { intros [? | (b0 & Hb0 & Hr)]; [by left | right]. exists b0. split; [by right | done]. }
        intros [? | (b0 & [-> | Hb0]%elem_of_cons & Hr)]; [by left | by destruct (Hno x) | right; eauto].
    + destruct (Hblk eq_refl) as (Hb' & Eh & El).
      match type of Hb' with blk_ok _ _ ?B => set (b' := B) in * end.
      destruct (sack_merge_spec (snd_una tp) (rel (snd_una tp) (snd_max tp))
                  (conj (proj1 (rel_range _ _)) Hwin) tp b' Hwf Hbd Hb') as
        (bs & c & H1 & Hwf1 & Hok1 & Hsub & Heq). cbv zeta in *.
      rewrite H1, option_bind_Some_fun. set (tp1 := with_board bs c tp) in *.
      destruct (IH tp1) as (bs2 & c2 & H2 & Hok2 & Hs2 & He2); [by split |]. cbv zeta in *.
      unfold tp1 in H2, Hok2, Hs2, He2. rewrite with_board_twice in H2, Hok2, Hs2, He2.
      exists bs2, c2. split; [exact H2 |]. split; [exact Hok2 |].
      assert (forall x, 0 <= x -> lo (snd_una tp) b' <= x < hi (snd_una tp) b' <-> reported tp b x) as Hrep.
      { intros x Hx. rewrite El, Eh. unfold reported. destruct (proj1 Huse eq_refl). intuition lia. }
      assert (forall x, lo (snd_una tp) b' <= x -> 0 <= x) as Hpos by (intros x; rewrite El; lia).
      split.
      * intros x Hx. destruct (Hs2 x Hx) as [Hx1 | (b0 & Hb0 & Hr)].
        { destruct (Hsub x Hx1) as [? | Hin]; [by left | right]. exists b. split; [by left |].
          apply Hrep; [| done]. apply Hpos, Hin. }
        right. exists b0. split; [by right | done].
      * intros Hlen x. cbn [length] in Hlen. destruct Heq as [Heq Hcnt]; [lia |].
        change (sack_count tp1) with c in Hcnt.
        rewrite (He2 ltac:(change (sack_count (with_board bs c tp)) with c; lia) x).
        change (sacked (with_board bs c tp) x) with (has (snd_una tp) (board tp1) x).
        rewrite Heq. change (has (snd_una tp) (board tp) x) with (sacked tp x). split.
        { intros [[? | Hin] | (b0 & Hb0 & Hr)]; [by left | right; exists b | right; exists b0].
          - split; [by left |]. apply Hrep; [apply Hpos, Hin | done].
          - split; [by right | done]. }
        intros [? | (b0 & [-> | Hb0]%elem_of_cons & Hr)]; [auto | | right; eauto].
        left. right. apply Hrep; [apply Hr | done].
Qed.

(** ** Acknowledgement *)

Lemma shift_block una ack top b : blk_ok una top b -> rel una ack <= lo una b ->
  lo ack b = lo una b - rel una ack /\ hi ack b = hi una b - rel una ack /\
  blk_ok ack (top - rel una ack) b.
Proof.
  unfold blk_ok, lo, hi. intros [Hx Hy] H. rewrite !(rel_shift una ack) by lia. lia.
Qed.

Lemma shift_board una ack top bs : board_ok una top bs -> Forall (fun b => rel una ack <= lo una b) bs ->
  board_ok ack (top - rel una ack) bs /\
  forall x, has ack bs x <-> has una bs (x + rel una ack).
Proof.
  intros Hok HF. induction HF as [| b bs Hb HF IH].
  - split; [split; constructor |]. intros x. split; intros H; inversion H.
  - apply board_ok_cons in Hok as (Hbef & Hb1 & Hok). destruct (IH Hok) as [IH1 IH2].
    destruct (shift_block una ack top b Hb1 Hb) as (El & Eh & Hb2). split.
    + apply board_ok_cons. split; [| done]. intros c Hc. unfold before. rewrite Eh.
      rewrite Forall_forall in HF. pose proof (HF c Hc). specialize (Hbef c Hc). unfold before in Hbef.
      assert (lo ack c = lo una c - rel una ack) as ->; [| lia]. unfold lo in *. by apply rel_shift.
    + intros x. rewrite !has_cons, IH2, El, Eh. intuition lia.
Qed.

(** The first loop drops the blocks that end at or before [ack]. *)
Lemma ack_loop_spec una top ack bd : forall fuel tp, 0 <= top < 2 ^ 31 -> sack_wf tp -> board tp = bd ->
  board_ok una top bd -> rel una ack <= top -> (length bd <= fuel)%nat ->
  exists bs c, let tp' := with_board bs c tp in
    ack_loop fuel ack tp = Some tp' /\ sack_wf tp' /\ board_ok una top (board tp') /\
    Forall (fun b => rel una ack < hi una b) (board tp') /\
    forall x, rel una ack <= x -> has una (board tp') x <-> has una bd x.
Proof.
  induction bd as [| b bd IH]; intros fuel tp Htop Hwf Hbd Hok Hack Hf.
  - exists (sack_blocks tp), (sack_count tp). rewrite with_board_eta. cbv zeta. rewrite Hbd.
    split; [| split; [done |]; split; [done |]; split; [constructor | done]].
    destruct fuel; cbn [ack_loop]; by rewrite (board_nil _ Hwf Hbd).
  - simpl in Hf. destruct fuel as [| fuel]; [lia |].
    destruct (board_split tp [] b bd Hwf Hbd) as [Hbs Hc]. cbn [app length] in *.
    apply board_ok_cons in Hok as Hok'. destruct Hok' as (Hbef & Hb & Hok').
    cbn [ack_loop]. destruct (Z.eqb_spec (sack_count tp) 0); [lia |]. cbn [negb].
    assert (rd (sack_blocks tp) 0 = Some b) as -> by (rewrite Hbs; done).
    rewrite option_bind_Some_fun.
    rewrite (seq_leq una) by (unfold blk_ok, hi in Hb; lia).
    change (rel una (blk_end b)) with (hi una b).
    destruct (Z.leb_spec (hi una b) (rel una ack)) as [Hle | Hgt].
    + destruct (sack_remove_spec tp [] b bd 0 Hwf Hbd eq_refl) as (bs & -> & Hwf1 & Hbd1).
      rewrite option_bind_Some_fun. cbn [app] in Hbd1.
      destruct (IH fuel _ Htop Hwf1 Hbd1 Hok' Hack) as (bs' & c' & H1 & H2 & H3 & H4 & H5); [lia |].
      cbv zeta in *. rewrite with_board_twice in *. exists bs', c'. do 4 (split; [done |]).
      intros x Hx. rewrite has_cons, H5 by done. intuition lia.
    + exists (sack_blocks tp), (sack_count tp). rewrite with_board_eta, Hbd. cbv zeta.
      split; [done |]. split; [done |]. split; [done |]. split; [| done].
      constructor; [done |]. rewrite Forall_forall. intros c Hin. specialize (Hbef c Hin).
      destruct Hok' as [_ HF]. rewrite Forall_forall in HF. destruct (HF c Hin).
      unfold before in Hbef. lia.
Qed.

Lemma sack_ack_spec una top ack tp : 0 <= top < 2 ^ 31 -> sack_wf tp ->
  board_ok una top (board tp) -> rel una ack <= top ->
  exists bs c, let tp' := with_board bs c tp in
    tcp_sack_ack ack tp = Some (if SEQ_LT (sack_rxmit tp) ack then set_sack_rxmit ack tp' else tp') /\
    sack_wf tp' /\ board_ok ack (top - rel una ack) (board tp') /\
    forall x, 0 <= x -> has ack (board tp') x <-> has una (board tp) (x + rel una ack).
Proof.
  intros Htop Hwf Hok Hack. unfold tcp_sack_ack.
  assert (length (board tp) <= Z.to_nat (sack_count tp))%nat as Hf by (unfold board; rewrite length_take; lia).
  destruct (ack_loop_spec una top ack _ _ tp Htop Hwf eq_refl Hok Hack Hf) as (bs & c & -> & Hwf1 & Hok1 & HF & Hh).
  rewrite option_bind_Some_fun. set (tp1 := with_board bs c tp) in *.
  assert (exists bs', let tp' := with_board bs' c tp in ack_trim ack tp1 = Some tp' /\ sack_wf tp' /\
    board_ok una top (board tp') /\ Forall (fun b => rel una ack <= lo una b) (board tp') /\
    forall x, rel una ack <= x -> has una (board tp') x <-> has una (board tp1) x) as
    (bs' & -> & Hwf2 & Hok2 & HF2 & Hh2).
  { unfold ack_trim. destruct (board tp1) as [| b bd] eqn:Hb1.
    - exists bs. cbv zeta. fold tp1. rewrite Hb1.
      rewrite (board_nil _ Hwf1 Hb1).
      split; [done |]. split; [done |]. split; [done |]. split; [constructor | done].
    - destruct (board_split tp1 [] b bd Hwf1 Hb1) as [Hbs Hc]. cbn [app length] in *.
      destruct (Z.eqb_spec (sack_count tp1) 0); [lia |]. cbn [negb].
      assert (rd (sack_blocks tp1) 0 = Some b) as -> by (rewrite Hbs; done).
      rewrite option_bind_Some_fun. apply board_ok_cons in Hok1 as (Hbef & [Hb2 Hb3] & Hok1).
      apply Forall_cons_iff in HF as [Hbk HF].
      rewrite (seq_lt una) by (unfold lo, hi in *; lia). change (rel una (blk_start b)) with (lo una b).
      assert (Forall (fun b0 => rel una ack <= lo una b0) bd) as HFbd.
      { rewrite Forall_forall in HF |- *. intros d Hd. specialize (Hbef d Hd). unfold before in Hbef. lia. }
      destruct (Z.ltb_spec (lo una b) (rel una ack)) as [Hlt | Hge].
      + set (b' := SackBlock ack (blk_end b)).
        assert (wr (sack_blocks tp1) 0 b' =
                Some (b' :: bd ++ drop (Z.to_nat (sack_count tp1)) (sack_blocks tp1))) as ->
          by (rewrite Hbs at 1; by apply (wr_middle [] _ b)).
        rewrite option_bind_Some_fun.
        exists (b' :: bd ++ drop (Z.to_nat (sack_count tp1)) (sack_blocks tp1)). cbv zeta.
        assert (board (with_board (b' :: bd ++ drop (Z.to_nat (sack_count tp1)) (sack_blocks tp1)) c tp) = b' :: bd) as Hbd'.
        { unfold board, with_board. tcp_simpl. change c with (sack_count tp1).
          replace (Z.to_nat (sack_count tp1)) with (S (length bd)) at 1 by lia. cbn [take]. f_equal.
          apply take_app_length. }
        split; [done |]. split; [| rewrite Hbd'; split; [| split]].
        * destruct Hwf1 as [Hl1 Hc1]. split; [| exact Hc1]. unfold with_board. tcp_simpl. rewrite <- Hl1.
          rewrite Hbs at 2. done.
        * apply board_ok_cons. split; [exact Hbef |]. split; [| done]. split; unfold lo, hi in *; simpl; lia.
        * constructor; [| done]. unfold lo. simpl. lia.
        * intros x Hx. rewrite !has_cons. unfold lo, hi in *. simpl. intuition lia.
      + exists bs. cbv zeta. fold tp1. rewrite Hb1. split; [done |]. split; [done |].
        split; [by apply board_ok_cons |]. split; [by constructor | done]. }
  rewrite option_bind_Some_fun. exists bs', c. cbv zeta. split; [done |]. split; [done |].
  destruct (shift_board una ack top _ Hok2 HF2) as [H1 H2]. split; [done |].
  intros x Hx. pose proof (rel_range una ack). rewrite H2, Hh2, Hh by lia. done.
Qed.

(** ** Counting the marked bytes *)

Definition hasb (una : Z) (bs : list tcp_sack_block) (x : Z) : bool :=
  existsb (fun b => (lo una b <=? x) && (x <? hi una b)) bs.

Lemma hasb_spec una bs x : hasb una bs x = true <-> has una bs x.
Proof.
  unfold hasb, has. induction bs as [| b bs IH]; cbn [existsb].
  - split; [done |]. intros H. inversion H.
  - rewrite orb_true_iff, IH, Exists_cons, andb_true_iff, Z.leb_le, Z.ltb_lt. tauto.
Qed.

Lemma zcount_S f n i : zcount f (S n) i = (if f i then 1 else 0) + zcount f n (i + 1).
Proof. done. Qed.

Lemma zcount_interval l h n i : i <= l -> l <= h -> h <= i + Z.of_nat n ->
  zcount (fun x => (l <=? x) && (x <? h)) n i = h - l.
Proof.
  revert l i. induction n as [| n IH]; intros l i Hl Hlh Hh; [unfold zcount; lia |]. rewrite zcount_S.
  destruct (Z.leb_spec l i), (Z.ltb_spec i h); cbn [andb]; try lia.
  - (* the interval starts here *)
    assert (l = i) by lia. subst l.
    rewrite (zcount_ext _ (fun x => ((i + 1) <=? x) && (x <? h))).
    + rewrite IH by lia. lia.
    + intros j Hj. destruct (Z.leb_spec i j), (Z.leb_spec (i + 1) j); (done || lia).
  - assert (l = h) by lia. subst h.
    rewrite (proj2 (zcount_zero _ n (i + 1))); [lia |]. intros j Hj.
    destruct (Z.leb_spec l j), (Z.ltb_spec j l); (done || lia).
  - rewrite IH by lia. lia.
Qed.

Lemma zcount_or f g n i : (forall x, f x = true -> g x = false) ->
  zcount (fun x => f x || g x) n i = zcount f n i + zcount g n i.
Proof.
  intros Hd. revert i. induction n as [| n IH]; intros i; [done |]. rewrite !zcount_S.
  rewrite IH. pose proof (Hd i) as Hdi. destruct (f i), (g i); cbn [orb]; lia.
Qed.

Lemma zcount_has una top bs n : board_ok una top bs -> top <= Z.of_nat n ->
  zcount (hasb una bs) n 0 = fold_right (fun b s => hi una b - lo una b + s) 0 bs.
Proof.
  intros Hok Hn. induction bs as [| b bs IH].
  - apply zcount_zero. done.
  - apply board_ok_cons in Hok as (Hbef & [Hb1 Hb2] & Hok). cbn [fold_right].
    change (hasb una (b :: bs)) with
      (fun x => ((lo una b <=? x) && (x <? hi una b)) || hasb una bs x).
    rewrite (zcount_or (fun x => (lo una b <=? x) && (x <? hi una b)) (hasb una bs)).
    + rewrite IH by done. rewrite zcount_interval; [done | | |]; pose proof (lo_nonneg una b); lia.
    + intros x [Hx1%Z.leb_le Hx2%Z.ltb_lt]%andb_true_iff. destruct (hasb una bs x) eqn:E; [| done].
      apply hasb_spec in E. unfold has in E. rewrite Exists_exists in E. destruct E as (c & Hc & Hcx).
      specialize (Hbef c Hc). unfold before in Hbef. lia.
Qed.

Lemma bytes_loop_spec una top rest : forall pre junk i s, 0 <= top < 2 ^ 31 -> board_ok una top rest ->
  i = Z.of_nat (length pre) ->
  bytes_loop (length rest) i (pre ++ rest ++ junk) s =
    Some (if decide (rest = []) then s
          else u32 (s + fold_right (fun b s => hi una b - lo una b + s) 0 rest)).
Proof.
  induction rest as [| b rest IH]; intros pre junk i s Htop Hok Hi; cbn [bytes_loop length]; [done |].
  cbn [app]. rewrite rd_middle by done. rewrite option_bind_Some_fun, (cons_middle b), app_assoc.
  apply board_ok_cons in Hok as (_ & _ & Hok). rewrite IH by (done || rewrite length_app; simpl; lia).
  f_equal. rewrite (decide_False (P := b :: rest = [])) by done. cbn [fold_right].
  assert (u32 (s + (blk_end b - blk_start b)) = u32 (s + (hi una b - lo una b))) as ->.
  { unfold u32, wrap. rewrite <- Zplus_mod_idemp_r. fold (wrap 32 (blk_end b - blk_start b)).
    fold (u32 (blk_end b - blk_start b)). rewrite (diff_rel una). unfold u32, wrap. by rewrite Zplus_mod_idemp_r. }
  destruct (decide (rest = [])) as [-> |]; cbn [fold_right]; [f_equal; lia |].
  unfold u32, wrap. rewrite Zplus_mod_idemp_l. f_equal. lia.
Qed.

(** [tcp_sack_bytes] counts the marked bytes of the window. *)
Lemma sack_bytes_spec tp : sack_ok tp ->
  tcp_sack_bytes tp = Some (zcount (hasb (snd_una tp) (board tp)) (Z.to_nat (rel (snd_una tp) (snd_max tp))) 0).
Proof.
  intros [Hwf Hwin Hok]. pose proof (rel_range (snd_una tp) (snd_max tp)).
  rewrite (zcount_has _ _ _ _ Hok) by lia. unfold tcp_sack_bytes.
  assert (Z.to_nat (sack_count tp) = length (board tp)) as Hlen.
  { unfold board. rewrite length_take. destruct Hwf. unfold TCP_SACK_SCOREBOARD in *. lia. }
  rewrite Hlen, <- (take_drop (Z.to_nat (sack_count tp)) (sack_blocks tp)).
  change (take (Z.to_nat (sack_count tp)) (sack_blocks tp)) with (board tp).
  pose proof (bytes_loop_spec (snd_una tp) (rel (snd_una tp) (snd_max tp)) (board tp) []) as E.
  cbn [app length] in E. rewrite E by (done || lia).
  f_equal. destruct (decide (board tp = [])) as [-> |]; [done |].
  rewrite <- (zcount_has _ _ _ (Z.to_nat (rel (snd_una tp) (snd_max tp))) Hok) by lia. apply u32_small.
  pose proof (zcount_bounds (hasb (snd_una tp) (board tp)) (Z.to_nat (rel (snd_una tp) (snd_max tp))) 0). lia.
Qed.

(** ** The next hole *)

(** Searching from offset [s] in the blocks [bs]. *)
Definition hole_found (una s : Z) (bs : list tcp_sack_block) (r : option (Z * Z)) : Prop :=
  match r with
  | Some (seq, len) =>
      let o := rel una seq in
      s <= o /\ 0 < len /\ (forall x, s <= x < o -> has una bs x) /\
      (forall x, o <= x < o + len -> ~ has una bs x) /\ has una bs (o + len)
  | None => forall x y, s <= x < y -> has una bs y -> has una bs x
  end.

Lemma hole_loop_spec una top rest : forall pre junk i start, 0 <= top < 2 ^ 31 ->
  board_ok una top rest -> i = Z.of_nat (length pre) -> rel una start <= top ->
  exists r, hole_loop (length rest) i start (pre ++ rest ++ junk) = Some r /\
    hole_found una (rel una start) rest r.
Proof.
  induction rest as [| b rest IH]; intros pre junk i start Htop Hok Hi Hst; cbn [hole_loop length].
  - exists None. split; [done |]. intros x y _ H. inversion H.
  - cbn [app]. rewrite rd_middle, option_bind_Some_fun by done.
    apply board_ok_cons in Hok as (Hbef & Hb & Hok). pose proof Hb as [Hb1 Hb2].
    assert (forall y, has una rest y -> hi una b < y) as Habove.
    { intros y Hy. unfold has in Hy. rewrite Exists_exists in Hy. destruct Hy as (c & Hc & Hcy).
      specialize (Hbef c Hc). unfold before in Hbef. lia. }
    rewrite !(seq_lt una) by (unfold lo, hi in *; lia).
    change (rel una (blk_start b)) with (lo una b). change (rel una (blk_end b)) with (hi una b).
    destruct (Z.ltb_spec (rel una start) (lo una b)) as [Hlt | Hge].
    + eexists. split; [reflexivity |]. cbn [hole_found].
      assert (u32 (blk_start b - start) = lo una b - rel una start) as ->.
      { rewrite (diff_rel una). apply u32_small. pose proof (rel_range una start).
        pose proof (rel_range una (blk_start b)). unfold lo in *. lia. }
      split; [lia |]. split; [lia |]. split; [lia |]. split.
      * intros x Hx [Hin | Hin]%has_cons; [lia |]. specialize (Habove x Hin). lia.
      * apply has_cons. left. lia.
    + rewrite (cons_middle b), app_assoc.
      set (start' := if rel una start <? hi una b then blk_end b else start).
      assert (rel una start' = Z.max (rel una start) (hi una b)) as Es.
      { unfold start'. destruct (Z.ltb_spec (rel una start) (hi una b)); unfold hi in *; lia. }
      destruct (IH (pre ++ [b]) junk (i + 1) start') as (r & -> & Hr);
        [done | done | rewrite length_app; simpl; lia | lia |].
      exists r. split; [done |]. rewrite Es in Hr. destruct r as [[q len] |]; cbn [hole_found] in *.
      * destruct Hr as (H1 & H2 & H3 & H4 & H5). split; [lia |]. split; [done |]. split; [| split].
        { intros x Hx. apply has_cons. destruct (Z_lt_ge_dec x (hi una b)); [left; lia | right; apply H3; lia]. }
        { intros x Hx [Hin | Hin]%has_cons; [lia | by apply (H4 x)]. }
        { apply has_cons. by right. }
      * intros x y Hxy [Hy | Hy]%has_cons; [apply has_cons; left; lia |].
        apply has_cons. destruct (Z_lt_ge_dec x (hi una b)); [left; lia | right].
        apply (Hr x y); [lia | done].
Qed.

Lemma next_hole_spec tp : sack_ok tp -> rel (snd_una tp) (sack_rxmit tp) <= rel (snd_una tp) (snd_max tp) ->
  exists r, tcp_sack_next_hole tp = Some r /\
    hole_found (snd_una tp) (rel (snd_una tp) (sack_rxmit tp)) (board tp) r.
Proof.
  intros [Hwf Hwin Hok] Hrx. unfold tcp_sack_next_hole. pose proof (rel_range (snd_una tp) (sack_rxmit tp)).
  assert (Z.to_nat (sack_count tp) = length (board tp)) as Hlen.
  { unfold board. rewrite length_take. destruct Hwf. unfold TCP_SACK_SCOREBOARD in *. lia. }
  rewrite (seq_gt (snd_una tp)), rel_refl by (rewrite ?rel_refl; lia).
  set (start := if 0 <? _ then _ else _).
  assert (rel (snd_una tp) start = rel (snd_una tp) (sack_rxmit tp)) as Es.
  { unfold start. destruct (Z.ltb_spec 0 (rel (snd_una tp) (sack_rxmit tp))); [done |]. rewrite rel_refl. lia. }
  rewrite <- Es, Hlen, <- (take_drop (Z.to_nat (sack_count tp)) (sack_blocks tp)).
  change (take (Z.to_nat (sack_count tp)) (sack_blocks tp)) with (board tp).
  by apply (hole_loop_spec _ (rel (snd_una tp) (snd_max tp)) _ [] _ 0); [lia | | | lia].
Qed.

(** ** Main theorems *)

(** C23: The scoreboard is the set of bytes the peer reported.  After the blocks
    of an acknowledgement are entered, exactly the reported bytes of the window
    are marked in addition (a full scoreboard may forget bytes, but never marks a
    byte that was not reported); the array stays sorted and inside the window.
    When the acknowledgement advances, the marks of the bytes that remain are
    kept. *)
Theorem sack_scoreboard_correct tp blocks ack : sack_ok tp ->
  rel (snd_una tp) ack <= rel (snd_una tp) (snd_max tp) ->
  (exists tp', tcp_sack_update blocks tp = Some tp' /\ sack_ok tp' /\
     (forall x, sacked tp' x -> sacked tp x \/ exists b, b ∈ blocks /\ reported tp b x) /\
     (sack_count tp + Z.of_nat (length blocks) <= TCP_SACK_SCOREBOARD ->
      forall x, sacked tp' x <-> sacked tp x \/ exists b, b ∈ blocks /\ reported tp b x)) /\
  (exists tp', tcp_sack_ack ack (set_snd_una ack tp) = Some tp' /\ sack_ok tp' /\
     forall x, 0 <= x -> sacked tp' x <-> sacked tp (x + rel (snd_una tp) ack)).
Proof.
  intros Hok Hack. split.
  - destruct (sack_update_spec blocks tp Hok) as (bs & c & H). eauto.
  - destruct Hok as [Hwf Hwin Hbd]. pose proof (rel_range (snd_una tp) (snd_max tp)) as Hr.
    destruct (sack_ack_spec (snd_una tp) (rel (snd_una tp) (snd_max tp)) ack (set_snd_una ack tp))
      as (bs & c & H1 & Hwf1 & Hok1 & Hh); [lia | by destruct Hwf | done | done |].
    eexists. split; [exact H1 |]. set (tp1 := with_board bs c (set_snd_una ack tp)) in *.
    assert (forall rx, sack_ok (set_sack_rxmit rx tp1) /\ sack_ok tp1) as Hsk.
    { assert (rel ack (snd_max tp) = rel (snd_una tp) (snd_max tp) - rel (snd_una tp) ack) as E
        by (by apply rel_shift).
      pose proof (rel_range (snd_una tp) ack).
      intros rx. split; (split; [by destruct Hwf1 | |]);
        change (snd_una _) with ack; change (snd_max _) with (snd_max tp); rewrite E; (exact Hok1 || lia). }
    split; [by destruct (SEQ_LT _ ack); apply (Hsk ack) |].
    intros x Hx. rewrite <- (Hh x Hx : _ <-> sacked tp (x + rel (snd_una tp) ack)).
    by destruct (SEQ_LT _ ack).
Qed.

(** Three blocks free, one marked range of ten bytes. *)
Definition demo_sack_tcpcb : tcpcb :=
  Tcpcb TCPS_ESTABLISHED (SndVars 4294967290 100 100 0 0 0 65535 0) (RcvVars 0 0 0 0 0 0 0)
    (CongVars 1000 1000 0 0) (RttVars 0 0 1000 0 0) (MiscVars TF_SACK_PERMIT 0 0 0 1000 0 0 0 0)
    (ReassVars [] 0)
    (SackVars (SackBlock 10 20 :: replicate 7 (SackBlock 0 0)) 1 4294967290 0)
    (TimerVars (Callout false 0 0 0) (Callout false 0 0 0) (Callout false 0 0 0) (Callout false 0 0 0)
       (Callout false 0 0 0)).

Lemma demo_sack_ok : sack_ok demo_sack_tcpcb.
Proof.
  split; [by split | done |]. split; [repeat constructor |]. constructor; [| constructor]. done.
Qed.

Lemma sack_scoreboard_correct_witness : exists tp',
  tcp_sack_update [SackBlock 20 30; SackBlock 50 60] demo_sack_tcpcb = Some tp' /\
  board tp' = [SackBlock 10 30; SackBlock 50 60] /\ sack_ok tp'.
Proof.
  destruct (sack_scoreboard_correct demo_sack_tcpcb [SackBlock 20 30; SackBlock 50 60] 5) as [(tp' & H1 & H2 & _) _].
  - apply demo_sack_ok.
  - done.
  - exists tp'. split; [exact H1 |]. split; [| exact H2].
    vm_compute in H1. injection H1 as <-. reflexivity.
Defined.

(** Retransmission during recovery looks at the right bytes.  The next hole
    is the first unmarked byte at or after [sack_rxmit] that has a marked byte
    above it, with the length up to that marked byte; no hole is reported only
    when there is none.  The estimate of the data in the network is the number
    of unmarked bytes of the window plus the bytes retransmitted. *)
Theorem sack_hole_and_pipe tp : sack_ok tp ->
  rel (snd_una tp) (sack_rxmit tp) <= rel (snd_una tp) (snd_max tp) ->
  (exists r, tcp_sack_next_hole tp = Some r /\
     hole_found (snd_una tp) (rel (snd_una tp) (sack_rxmit tp)) (board tp) r) /\
  tcp_sack_pipe tp =
    Some (u32 (zcount (fun x => negb (hasb (snd_una tp) (board tp) x))
                 (Z.to_nat (rel (snd_una tp) (snd_max tp))) 0 + sack_rexmit_bytes tp)).
Proof.
  intros Hok Hrx. split; [by apply next_hole_spec |]. unfold tcp_sack_pipe.
  rewrite (sack_bytes_spec tp Hok), option_bind_Some_fun. f_equal.
  pose proof (rel_range (snd_una tp) (snd_max tp)) as Hr.
  set (n := Z.to_nat (rel (snd_una tp) (snd_max tp))). set (f := hasb (snd_una tp) (board tp)).
  assert (zcount (fun x => negb (f x)) n 0 = rel (snd_una tp) (snd_max tp) - zcount f n 0) as ->.
  { assert (zcount (fun x => f x || negb (f x)) n 0 = Z.of_nat n) as Hall.
    { generalize 0. induction n as [| m IH]; intros i; [done |]. rewrite zcount_S, IH.
      destruct (f i); cbn [orb negb]; lia. }
    rewrite zcount_or in Hall by (intros x ->; done). unfold n in *. lia. }
  unfold rel. unfold u32, wrap. rewrite <- Zplus_mod_idemp_l, <- (Zminus_mod_idemp_l (snd_max tp - snd_una tp)).
  by rewrite Zplus_mod_idemp_l.
Qed.

Lemma sack_hole_and_pipe_witness :
  tcp_sack_next_hole demo_sack_tcpcb = Some (Some (4294967290, 16)) /\
  tcp_sack_pipe demo_sack_tcpcb = Some 96.
Proof.
  destruct (sack_hole_and_pipe demo_sack_tcpcb) as [_ H].
  - apply demo_sack_ok.
  - done.
  - split; [vm_compute; reflexivity |]. rewrite H. vm_compute. reflexivity.
Defined.
