(* ===== verification/TcpOptions.v ===== *)
(** * TCP options: tcp_addoptions (tcp_output.c) and tcp_dooptions (tcp_input.c)

    The encoder writes into a buffer of forty bytes, here the list of the bytes
    written; the decoder reads the option bytes of a received header by index,
    where an index outside the buffer is a fault.  The theorems: the encoder
    never overruns the buffer and keeps the header a multiple of four bytes, the
    decoder never reads outside the buffer whatever the peer sent, and decoding
    undoes encoding. *)

From Stdlib Require Import ZArith Lia.
From stdpp Require Import base option list.
From S2P Require Import Prelude Bytes TcpVar.
Open Scope Z_scope.

(** ** Writing *)

Definition tcp_put16 (v : Z) : list Z := [u8 (Z.shiftr v 8); u8 v].
Definition tcp_put32 (v : Z) : list Z := tcp_put16 (u16 (Z.shiftr v 16)) ++ tcp_put16 (u16 v).
Definition tcp_put_opt_header (kind len : Z) : list Z := [TCPOPT_NOP; TCPOPT_NOP; kind; len].

Definition put_block (b : tcp_sack_block) : list Z := tcp_put32 (blk_start b) ++ tcp_put32 (blk_end b).

(** The bytes written; their number is the value returned. *)
Definition tcp_addoptions (to : tcp_opts) : list Z :=
  let p := if (to_flags to &? TOF_MSS)%hermes
           then [TCPOPT_MAXSEG; 4] ++ tcp_put16 (to_mss to) else [] in
  let p := if (to_flags to &? TOF_SCALE)%hermes
           then p ++ [TCPOPT_NOP; TCPOPT_WINDOW; 3; to_wscale to] else p in
  let p := if (to_flags to &? TOF_SACKPERM)%hermes
           then p ++ tcp_put_opt_header TCPOPT_SACK_PERMITTED 2 else p in
  let p := if (to_flags to &? TOF_TS)%hermes
           then p ++ tcp_put_opt_header TCPOPT_TIMESTAMP 10 ++ tcp_put32 (to_ts_val to) ++ tcp_put32 (to_ts_ecr to)
           else p in
  if (to_flags to &? TOF_SACK)%hermes then
    let room := (TCP_MAX_HEADER_LEN - TCP_HEADER_LEN - Z.of_nat (length p) - 4) / 8 in
    let n := u8 (if Z.of_nat (length (to_sacks to)) <? room then Z.of_nat (length (to_sacks to)) else room) in
    if negb (n =? 0)
    then p ++ tcp_put_opt_header TCPOPT_SACK (u8 (2 + 8 * n)) ++ flat_map put_block (take (Z.to_nat n) (to_sacks to))
    else p
  else p.

(** ** Reading *)

Definition tcp_get16 (cp : list Z) (i : Z) : option Z :=
  a ← rd cp i; b ← rd cp (i + 1); Some (u16 (Z.lor (Z.shiftl a 8) b)).
Definition tcp_get32 (cp : list Z) (i : Z) : option Z :=
  a ← tcp_get16 cp i; b ← tcp_get16 cp (i + 2); Some (Z.lor (u32 (Z.shiftl a 16)) b).

Definition no_opts : tcp_opts := TcpOpts 0 0 0 0 0 [].

(** [for (i = 0; i < nsacks; i++) ...] *)
Fixpoint get_blocks (n : nat) (i : Z) (cp : list Z) : option (list tcp_sack_block) :=
  match n with
  | O => Some []
  | S n' =>
      s ← tcp_get32 cp (2 + 8 * i); e ← tcp_get32 cp (6 + 8 * i);
      bs ← get_blocks n' (i + 1) cp; Some (SackBlock s e :: bs)
  end.

(** One option of length [optlen] at the start of [cp]. *)
Definition do_option (kind optlen : Z) (cp : list Z) (is_syn : bool) (to : tcp_opts) : option tcp_opts :=
  if (kind =? TCPOPT_MAXSEG) && (optlen =? 4) && is_syn then
    v ← tcp_get16 cp 2;
    Some (TcpOpts (Z.lor (to_flags to) TOF_MSS) v (to_wscale to) (to_ts_val to) (to_ts_ecr to) (to_sacks to))
  else if (kind =? TCPOPT_WINDOW) && (optlen =? 3) && is_syn then
    w ← rd cp 2;
    Some (TcpOpts (Z.lor (to_flags to) TOF_SCALE) (to_mss to) (if w <? TCP_MAX_WINSHIFT then w else TCP_MAX_WINSHIFT)
            (to_ts_val to) (to_ts_ecr to) (to_sacks to))
  else if (kind =? TCPOPT_SACK_PERMITTED) && (optlen =? 2) && is_syn then
    Some (TcpOpts (Z.lor (to_flags to) TOF_SACKPERM) (to_mss to) (to_wscale to) (to_ts_val to) (to_ts_ecr to) (to_sacks to))
  else if (kind =? TCPOPT_TIMESTAMP) && (optlen =? 10) then
    v ← tcp_get32 cp 2; e ← tcp_get32 cp 6;
    Some (TcpOpts (Z.lor (to_flags to) TOF_TS) (to_mss to) (to_wscale to) v e (to_sacks to))
  else if (kind =? TCPOPT_SACK) && (10 <=? optlen) && ((optlen - 2) mod 8 =? 0) && negb is_syn then
    let nsacks := if (optlen - 2) / 8 <? TCP_MAX_SACK then (optlen - 2) / 8 else TCP_MAX_SACK in
    bs ← get_blocks (Z.to_nat nsacks) 0 cp;
    Some (TcpOpts (Z.lor (to_flags to) TOF_SACK) (to_mss to) (to_wscale to) (to_ts_val to) (to_ts_ecr to) bs)
  else Some to.

Fixpoint dooptions_loop (fuel : nat) (cp : list Z) (is_syn : bool) (to : tcp_opts) : option tcp_opts :=
  let len := Z.of_nat (length cp) in
  if len >? 0 then
    match fuel with
    | O => None
    | S fuel' =>
        kind ← rd cp 0;
        if kind =? TCPOPT_EOL then Some to
        else if kind =? TCPOPT_NOP then dooptions_loop fuel' (drop 1 cp) is_syn to
        else if len <? 2 then Some to
        else
          optlen ← rd cp 1;
          if (optlen <? 2) || (optlen >? len) then Some to
          else
            to ← do_option kind optlen cp is_syn to;
            dooptions_loop fuel' (drop (Z.to_nat optlen) cp) is_syn to
    end
  else Some to.

Definition tcp_dooptions (cp : list Z) (is_syn : bool) : option tcp_opts :=
  dooptions_loop (length cp) cp is_syn no_opts.

(** ** The decoder stays inside the buffer *)

Lemma rd_lt {A} (cp : list A) i : 0 <= i < Z.of_nat (length cp) -> is_Some (rd cp i).
Proof. intros H. destruct (rd_is_Some cp i H) as [x ->]. eauto. Qed.

Lemma get16_lt cp i : 0 <= i -> i + 2 <= Z.of_nat (length cp) -> is_Some (tcp_get16 cp i).
Proof.
  intros H1 H2. unfold tcp_get16. destruct (rd_lt cp i) as [a ->]; [lia |].
  destruct (rd_lt cp (i + 1)) as [b ->]; [lia |]. eauto.
Qed.

Lemma get32_lt cp i : 0 <= i -> i + 4 <= Z.of_nat (length cp) -> is_Some (tcp_get32 cp i).
Proof.
  intros H1 H2. unfold tcp_get32. destruct (get16_lt cp i) as [a ->]; [lia | lia |].
  destruct (get16_lt cp (i + 2)) as [b ->]; [lia | lia |]. eauto.
Qed.

Lemma get_blocks_lt n i cp : 0 <= i -> 2 + 8 * (i + Z.of_nat n) <= Z.of_nat (length cp) ->
  exists bs, get_blocks n i cp = Some bs /\ length bs = n.
Proof.
  revert i. induction n as [| n IH]; intros i Hi Hl; cbn [get_blocks]; [eauto |].
  destruct (get32_lt cp (2 + 8 * i)) as [s ->]; [lia | lia |].
  destruct (get32_lt cp (6 + 8 * i)) as [e ->]; [lia | lia |]. rewrite !option_bind_Some_fun.
  destruct (IH (i + 1)) as (bs & -> & Hbs); [lia | lia |]. rewrite option_bind_Some_fun.
  eexists. split; [done |]. simpl. lia.
Qed.

(** What the rest of the input code relies on. *)
Definition opts_bounded (to : tcp_opts) : Prop :=
  to_wscale to <= TCP_MAX_WINSHIFT /\ Z.of_nat (length (to_sacks to)) <= TCP_MAX_SACK.

Lemma do_option_total kind optlen cp is_syn to : 2 <= optlen <= Z.of_nat (length cp) -> opts_bounded to ->
  exists to', do_option kind optlen cp is_syn to = Some to' /\ opts_bounded to'.
Proof.
  intros Hl [Hw Hs]. unfold do_option.
  destruct (_ && _ && is_syn) eqn:E1.
  { apply andb_true_iff in E1 as [[_ E]%andb_true_iff _]. apply Z.eqb_eq in E.
    destruct (get16_lt cp 2) as [v ->]; [lia | lia |]. by eexists. }
  clear E1. destruct (_ && _ && is_syn) eqn:E2.
  { apply andb_true_iff in E2 as [[_ E]%andb_true_iff _]. apply Z.eqb_eq in E.
    destruct (rd_lt cp 2) as [w ->]; [lia |]. eexists. split; [done |]. split; [| done]. cbn [to_wscale].
    destruct (Z.ltb_spec w TCP_MAX_WINSHIFT); lia. }
  clear E2. destruct (_ && _ && is_syn); [by eexists |].
  destruct (_ && _) eqn:E4.
  { apply andb_true_iff in E4 as [_ E]. apply Z.eqb_eq in E.
    destruct (get32_lt cp 2) as [v ->]; [lia | lia |]. destruct (get32_lt cp 6) as [e ->]; [lia | lia |].
    by eexists. }
  clear E4. destruct (_ && _ && _ && _) eqn:E5; [| by eexists].
  apply andb_true_iff in E5 as [[[_ E]%andb_true_iff _]%andb_true_iff _]. apply Z.leb_le in E.
  set (n := if _ <? _ then _ else _).
  assert (0 <= n <= (optlen - 2) / 8 /\ n <= TCP_MAX_SACK) as Hn.
  { unfold n, TCP_MAX_SACK. pose proof (Z.div_pos (optlen - 2) 8).
    destruct (Z.ltb_spec ((optlen - 2) / 8) 4); lia. }
  pose proof (Z.mul_div_le (optlen - 2) 8).
  destruct (get_blocks_lt (Z.to_nat n) 0 cp) as (bs & -> & Hbs); [lia | lia |].
  eexists. split; [done |]. split; [done |]. cbn [to_sacks]. lia.
Qed.

Lemma dooptions_total fuel cp is_syn to : (length cp <= fuel)%nat -> opts_bounded to ->
  exists to', dooptions_loop fuel cp is_syn to = Some to' /\ opts_bounded to'.
Proof.
  revert cp to. induction fuel as [| fuel IH]; intros cp to Hf Hto.
  - destruct cp; [| simpl in Hf; lia]. by exists to.
  - cbn [dooptions_loop]. rewrite Z.gtb_ltb. destruct (Z.ltb_spec 0 (Z.of_nat (length cp))); [| by exists to].
    destruct (rd_lt cp 0) as [kind ->]; [lia |]. rewrite option_bind_Some_fun.
    destruct (kind =? TCPOPT_EOL); [by exists to |].
    destruct (kind =? TCPOPT_NOP); [apply IH; [rewrite length_drop; lia | done] |].
    destruct (Z.ltb_spec (Z.of_nat (length cp)) 2); [by exists to |].
    destruct (rd_lt cp 1) as [optlen ->]; [lia |]. rewrite option_bind_Some_fun, Z.gtb_ltb.
    destruct (Z.ltb_spec optlen 2), (Z.ltb_spec (Z.of_nat (length cp)) optlen); cbn [orb]; try by exists to.
    destruct (do_option_total kind optlen cp is_syn to) as (to' & -> & Hto'); [lia | done |].
    rewrite option_bind_Some_fun. apply IH; [rewrite length_drop; lia | done].
Qed.

(** ** The encoder stays inside the buffer *)

Lemma put_blocks_length bs : length (flat_map put_block bs) = (8 * length bs)%nat.
Proof.
  induction bs as [| b bs IH]; [done |]. cbn [flat_map length]. rewrite length_app, IH.
  change (length (put_block b)) with 8%nat. lia.
Qed.

(** The length after the first four options. *)
Definition prefix_len (to : tcp_opts) : Z :=
  (if (to_flags to &? TOF_MSS)%hermes then 4 else 0) + (if (to_flags to &? TOF_SCALE)%hermes then 4 else 0) +
  (if (to_flags to &? TOF_SACKPERM)%hermes then 4 else 0) + (if (to_flags to &? TOF_TS)%hermes then 12 else 0).

(** The number of blocks encoded. *)
Definition sent_sacks (to : tcp_opts) : Z :=
  if (to_flags to &? TOF_SACK)%hermes
  then Z.min (Z.of_nat (length (to_sacks to))) ((36 - prefix_len to) / 8) else 0.

(** The encoding in two pieces. *)
Definition encode_prefix (to : tcp_opts) : list Z :=
  (if (to_flags to &? TOF_MSS)%hermes then [TCPOPT_MAXSEG; 4] ++ tcp_put16 (to_mss to) else []) ++
  (if (to_flags to &? TOF_SCALE)%hermes then [TCPOPT_NOP; TCPOPT_WINDOW; 3; to_wscale to] else []) ++
  (if (to_flags to &? TOF_SACKPERM)%hermes then tcp_put_opt_header TCPOPT_SACK_PERMITTED 2 else []) ++
  (if (to_flags to &? TOF_TS)%hermes
   then tcp_put_opt_header TCPOPT_TIMESTAMP 10 ++ tcp_put32 (to_ts_val to) ++ tcp_put32 (to_ts_ecr to) else []).
Definition encode_sacks (to : tcp_opts) : list Z :=
  if sent_sacks to =? 0 then [] else
    tcp_put_opt_header TCPOPT_SACK (2 + 8 * sent_sacks to) ++
    flat_map put_block (take (Z.to_nat (sent_sacks to)) (to_sacks to)).

Lemma encode_prefix_length to : Z.of_nat (length (encode_prefix to)) = prefix_len to.
Proof.
  unfold encode_prefix, prefix_len.
  destruct (to_flags to &? TOF_MSS)%hermes, (to_flags to &? TOF_SCALE)%hermes,
    (to_flags to &? TOF_SACKPERM)%hermes, (to_flags to &? TOF_TS)%hermes; reflexivity.
Qed.

Lemma prefix_len_range to : 0 <= prefix_len to <= 24.
Proof. unfold prefix_len. repeat destruct (negb _); lia. Qed.

Lemma sent_sacks_range to : 0 <= sent_sacks to <= 4.
Proof.
  unfold sent_sacks. pose proof (prefix_len_range to).
  assert (1 <= (36 - prefix_len to) / 8 <= 4).
  { split; [apply Z.div_le_lower_bound; lia |].
    assert ((36 - prefix_len to) / 8 < 5) by (apply Z.div_lt_upper_bound; lia). lia. }
  destruct (negb _); lia.
Qed.

Lemma addoptions_encode to : tcp_addoptions to = encode_prefix to ++ encode_sacks to.
Proof.
  unfold tcp_addoptions. set (p := if (to_flags to &? TOF_TS)%hermes then _ else _).
  assert (p = encode_prefix to) as ->.
  { unfold p, encode_prefix.
    destruct (to_flags to &? TOF_MSS)%hermes, (to_flags to &? TOF_SCALE)%hermes,
      (to_flags to &? TOF_SACKPERM)%hermes, (to_flags to &? TOF_TS)%hermes; reflexivity. }
  cbv zeta. rewrite encode_prefix_length. unfold encode_sacks.
  pose proof (sent_sacks_range to) as Hn. unfold sent_sacks in *.
  destruct (to_flags to &? TOF_SACK)%hermes; [| by rewrite app_nil_r].
  replace (TCP_MAX_HEADER_LEN - TCP_HEADER_LEN - prefix_len to - 4) with (36 - prefix_len to)
    by (unfold TCP_MAX_HEADER_LEN, TCP_HEADER_LEN; lia).
  set (m := Z.min _ _) in *.
  assert ((if Z.of_nat (length (to_sacks to)) <? (36 - prefix_len to) / 8
           then Z.of_nat (length (to_sacks to)) else (36 - prefix_len to) / 8) = m) as ->.
  { unfold m. destruct (Z.ltb_spec (Z.of_nat (length (to_sacks to))) ((36 - prefix_len to) / 8)); lia. }
  rewrite (u8_small m), (u8_small (2 + 8 * m)) by lia. by destruct (m =? 0); cbn [negb]; rewrite ?app_nil_r.
Qed.

Lemma encode_sacks_length to : Z.of_nat (length (encode_sacks to)) =
  if sent_sacks to =? 0 then 0 else 4 + 8 * sent_sacks to.
Proof.
  unfold encode_sacks. destruct (Z.eqb_spec (sent_sacks to) 0); [done |].
  rewrite length_app, put_blocks_length, length_take. change (length (tcp_put_opt_header _ _)) with 4%nat.
  pose proof (sent_sacks_range to). unfold sent_sacks in *. destruct (negb _); lia.
Qed.

(** The header of a segment fits its longest form and is counted in words. *)
Lemma addoptions_fits to :
  Z.of_nat (length (tcp_addoptions to)) <= TCP_MAX_HEADER_LEN - TCP_HEADER_LEN /\
  Z.of_nat (length (tcp_addoptions to)) mod 4 = 0.
Proof.
  rewrite addoptions_encode, length_app, Nat2Z.inj_add, encode_prefix_length, encode_sacks_length.
  pose proof (prefix_len_range to). pose proof (sent_sacks_range to).
  unfold TCP_MAX_HEADER_LEN, TCP_HEADER_LEN. split.
  - destruct (Z.eqb_spec (sent_sacks to) 0); [lia |]. unfold sent_sacks in *.
    destruct (to_flags to &? TOF_SACK)%hermes; [| lia]. pose proof (Z.mul_div_le (36 - prefix_len to) 8). lia.
  - assert (prefix_len to mod 4 = 0) as Hp by (unfold prefix_len; repeat destruct (negb _); reflexivity).
    rewrite Z.add_mod, Hp by lia.
    destruct (sent_sacks to =? 0); [done |].
    replace (4 + 8 * sent_sacks to) with ((1 + 2 * sent_sacks to) * 4) by lia. by rewrite Z.mod_mul.
Qed.

(** ** Decoding undoes encoding *)

Lemma put16_value v : is_u 16 v -> u16 (Z.lor (Z.shiftl (u8 (Z.shiftr v 8)) 8) (u8 v)) = v.
Proof.
  unfold is_u. intros Hv. rewrite lor_shiftl_add by (lia || apply u8_range).
  rewrite Z.shiftr_div_pow2 by lia. unfold u8, wrap. change (2 ^ 8) with 256 in *. change (2 ^ 16) with 65536 in *.
  rewrite (Z.mod_small (v / 256)); [| split; [apply Z.div_pos; lia | apply Z.div_lt_upper_bound; lia]].
  assert (v / 256 * 256 + v mod 256 = v) as -> by (pose proof (Z.div_mod v 256); lia).
  apply u16_small. change (2 ^ 16) with 65536. lia.
Qed.

Lemma get16_put pre post v i : is_u 16 v -> i = Z.of_nat (length pre) ->
  tcp_get16 (pre ++ tcp_put16 v ++ post) i = Some v.
Proof.
  intros Hv Hi. unfold tcp_get16, tcp_put16. cbn [app].
  assert (forall x y, rd (pre ++ x :: y :: post) i = Some x /\ rd (pre ++ x :: y :: post) (i + 1) = Some y) as Hrd.
  { intros x y. unfold rd. rewrite Hi. destruct (Z.ltb_spec (Z.of_nat (length pre)) 0); [lia |].
    destruct (Z.ltb_spec (Z.of_nat (length pre) + 1) 0); [lia |].
    replace (Z.to_nat (Z.of_nat (length pre) + 1)) with (length pre + 1)%nat by lia.
    rewrite Nat2Z.id. split.
    - by apply list_lookup_middle.
    - rewrite lookup_app_r by lia. by replace (length pre + 1 - length pre)%nat with 1%nat by lia. }
  destruct (Hrd (u8 (Z.shiftr v 8)) (u8 v)) as [-> ->]. rewrite !option_bind_Some_fun. by rewrite put16_value.
Qed.

Lemma get32_put pre post v i : is_u 32 v -> i = Z.of_nat (length pre) ->
  tcp_get32 (pre ++ tcp_put32 v ++ post) i = Some v.
Proof.
  unfold is_u. intros Hv Hi. unfold tcp_get32, tcp_put32. change (2 ^ 32) with 4294967296 in Hv.
  rewrite <- app_assoc, (get16_put pre _ _ i) by (done || apply u16_range). rewrite option_bind_Some_fun, (app_assoc pre).
  rewrite (get16_put (pre ++ tcp_put16 (u16 (Z.shiftr v 16)))) by (apply u16_range || (rewrite length_app; simpl; lia)).
  rewrite option_bind_Some_fun. f_equal.
  rewrite Z.shiftr_div_pow2 by lia. unfold u16, wrap. change (2 ^ 16) with 65536.
  rewrite (Z.mod_small (v / 65536)); [| split; [apply Z.div_pos; lia | apply Z.div_lt_upper_bound; lia]].
  rewrite u32_small.
  - rewrite lor_shiftl_add; [| lia | apply Z.mod_pos_bound; lia].
    change (2 ^ 16) with 65536. pose proof (Z.div_mod v 65536). lia.
  - rewrite Z.shiftl_mul_pow2 by lia. change (2 ^ 16) with 65536. change (2 ^ 32) with 4294967296.
    pose proof (Z.div_mod v 65536). pose proof (Z.mod_pos_bound v 65536). pose proof (Z.div_pos v 65536). lia.
Qed.

Definition block_u32 (b : tcp_sack_block) : Prop := is_u 32 (blk_start b) /\ is_u 32 (blk_end b).

Lemma get_blocks_put bs : forall pre post i, Forall block_u32 bs -> 2 + 8 * i = Z.of_nat (length pre) ->
  get_blocks (length bs) i (pre ++ flat_map put_block bs ++ post) = Some bs.
Proof.
  induction bs as [| b bs IH]; intros pre post i HF Hi; [done |].
  apply Forall_cons_iff in HF as [[Hs He] HF]. cbn [get_blocks length flat_map].
  change (put_block b) with (tcp_put32 (blk_start b) ++ tcp_put32 (blk_end b)).
  rewrite <- !app_assoc, (get32_put pre _ _ (2 + 8 * i)) by (done || lia). rewrite option_bind_Some_fun.
  rewrite (app_assoc pre), (get32_put _ _ _ (6 + 8 * i)) by (done || (rewrite length_app; simpl; lia)). rewrite option_bind_Some_fun.
  rewrite (app_assoc (pre ++ _)), IH; [| done | rewrite !length_app; simpl; lia].
  rewrite option_bind_Some_fun. by destruct b.
Qed.

Lemma dooptions_fuel fuel cp is_syn to : (length cp <= fuel)%nat ->
  dooptions_loop fuel cp is_syn to = dooptions_loop (length cp) cp is_syn to.
Proof.
  enough (forall n cp to, (length cp <= n)%nat -> forall f1 f2, (length cp <= f1)%nat -> (length cp <= f2)%nat ->
    dooptions_loop f1 cp is_syn to = dooptions_loop f2 cp is_syn to) as H by (intros; by eapply H).
  clear. induction n as [| n IH]; intros cp to Hn f1 f2 H1 H2.
  - destruct cp; [| simpl in Hn; lia]. by destruct f1, f2.
  - destruct cp as [| k cp]; [by destruct f1, f2 |]. simpl in Hn, H1, H2.
    destruct f1 as [| f1]; [lia |]. destruct f2 as [| f2]; [lia |]. cbn [dooptions_loop].
    destruct (_ >? 0); [| done]. change (rd (k :: cp) 0) with (Some k). rewrite !option_bind_Some_fun.
    destruct (k =? TCPOPT_EOL); [done |].
    destruct (k =? TCPOPT_NOP); [apply IH; rewrite length_drop; simpl; lia |].
    destruct (_ <? 2); [done |]. destruct (rd (k :: cp) 1) as [optlen |]; [| done].
    rewrite !option_bind_Some_fun. destruct (Z.ltb_spec optlen 2); [done |]. cbn [orb].
    destruct (optlen >? _); [done |]. destruct (do_option _ _ _ _ _) as [to' |]; [| done].
    rewrite !option_bind_Some_fun. apply IH; rewrite length_drop; simpl; lia.
Qed.

Definition decode (is_syn : bool) (cp : list Z) (to : tcp_opts) : option tcp_opts :=
  dooptions_loop (length cp) cp is_syn to.

Lemma decode_nop is_syn cp to : decode is_syn (TCPOPT_NOP :: cp) to = decode is_syn cp to.
Proof. unfold decode. cbn [length dooptions_loop]. destruct (Z.gtb_spec (Z.of_nat (S (length cp))) 0); [done | lia]. Qed.

(** One option, its length byte right. *)
Lemma decode_option is_syn kind data cp to : 2 <= kind -> 
  let opt := kind :: (2 + Z.of_nat (length data)) :: data in
  decode is_syn (opt ++ cp) to =
    (to' ← do_option kind (2 + Z.of_nat (length data)) (opt ++ cp) is_syn to; decode is_syn cp to').
Proof.
  intros Hk opt. unfold decode. unfold opt at 1 2. cbn [app length].
  remember (S (length (data ++ cp))) as f eqn:Ef. rewrite length_app in Ef.
  cbn [dooptions_loop length]. rewrite length_app, <- Ef.
  destruct (Z.gtb_spec (Z.of_nat (S f)) 0); [| lia].
  change (rd (kind :: _) 0) with (Some kind). rewrite option_bind_Some_fun.
  unfold TCPOPT_EOL, TCPOPT_NOP. destruct (Z.eqb_spec kind 0); [lia |]. destruct (Z.eqb_spec kind 1); [lia |].
  destruct (Z.ltb_spec (Z.of_nat (S f)) 2); [lia |].
  change (rd (kind :: ?x :: _) 1) with (Some x). rewrite option_bind_Some_fun.
  destruct (Z.ltb_spec (2 + Z.of_nat (length data)) 2); [lia |]. rewrite Z.gtb_ltb.
  destruct (Z.ltb_spec (Z.of_nat (S f)) (2 + Z.of_nat (length data))); [lia |].
  cbn [orb]. apply option_bind_ext_fun. intros to'.
  assert (drop (Z.to_nat (2 + Z.of_nat (length data))) (kind :: 2 + Z.of_nat (length data) :: data ++ cp) = cp) as ->.
  { replace (Z.to_nat (2 + Z.of_nat (length data))) with (S (S (length data))) by lia. cbn [drop]. apply drop_app_length. }
  apply dooptions_fuel. lia.
Qed.

Section decode_pieces.
Context (is_syn : bool).
Implicit Types (cp : list Z) (to : tcp_opts).

Lemma decode_mss cp to v : is_u 16 v ->
  decode is_syn ([TCPOPT_MAXSEG; 4] ++ tcp_put16 v ++ cp) to =
  decode is_syn cp (if is_syn then TcpOpts (Z.lor (to_flags to) TOF_MSS) v (to_wscale to) (to_ts_val to)
                                     (to_ts_ecr to) (to_sacks to) else to).
Proof.
  intros Hv. pose proof (decode_option is_syn TCPOPT_MAXSEG (tcp_put16 v) cp to) as E.
  cbv zeta in E. change (2 + Z.of_nat (length (tcp_put16 v))) with 4 in E.
  cbn [app] in E |- *. rewrite E by done. unfold do_option.
  assert (tcp_get16 (TCPOPT_MAXSEG :: 4 :: tcp_put16 v ++ cp) 2 = Some v) as ->
    by (by apply (get16_put [TCPOPT_MAXSEG; 4])).
  by destruct is_syn.
Qed.

Lemma decode_scale cp to w : 0 <= w <= TCP_MAX_WINSHIFT ->
  decode is_syn ([TCPOPT_NOP; TCPOPT_WINDOW; 3; w] ++ cp) to =
  decode is_syn cp (if is_syn then TcpOpts (Z.lor (to_flags to) TOF_SCALE) (to_mss to) w (to_ts_val to)
                                     (to_ts_ecr to) (to_sacks to) else to).
Proof.
  intros Hw. cbn [app]. rewrite decode_nop. pose proof (decode_option is_syn TCPOPT_WINDOW [w] cp to) as E.
  cbv zeta in E. change (2 + Z.of_nat (length [w])) with 3 in E. cbn [app] in E. rewrite E by done.
  unfold do_option. destruct is_syn; [| done].
  change (rd (TCPOPT_WINDOW :: 3 :: w :: cp) 2) with (Some w). cbn [andb Z.eqb Pos.eqb TCPOPT_WINDOW TCPOPT_MAXSEG].
  rewrite !option_bind_Some_fun. destruct (Z.ltb_spec w TCP_MAX_WINSHIFT); [done |].
  by replace w with TCP_MAX_WINSHIFT by lia.
Qed.

Lemma decode_sackperm cp to :
  decode is_syn (tcp_put_opt_header TCPOPT_SACK_PERMITTED 2 ++ cp) to =
  decode is_syn cp (if is_syn then TcpOpts (Z.lor (to_flags to) TOF_SACKPERM) (to_mss to) (to_wscale to)
                                     (to_ts_val to) (to_ts_ecr to) (to_sacks to) else to).
Proof.
  cbn [app tcp_put_opt_header]. rewrite !decode_nop.
  pose proof (decode_option is_syn TCPOPT_SACK_PERMITTED [] cp to) as E.
  cbv zeta in E. change (2 + Z.of_nat (length [])) with 2 in E. cbn [app] in E. rewrite E by done.
  by destruct is_syn.
Qed.

Lemma decode_ts cp to v e : is_u 32 v -> is_u 32 e ->
  decode is_syn (tcp_put_opt_header TCPOPT_TIMESTAMP 10 ++ tcp_put32 v ++ tcp_put32 e ++ cp) to =
  decode is_syn cp (TcpOpts (Z.lor (to_flags to) TOF_TS) (to_mss to) (to_wscale to) v e (to_sacks to)).
Proof.
  intros Hv He. unfold tcp_put_opt_header. cbn [app]. rewrite !decode_nop.
  pose proof (decode_option is_syn TCPOPT_TIMESTAMP (tcp_put32 v ++ tcp_put32 e) cp to) as E.
  cbv zeta in E. change (2 + Z.of_nat (length (tcp_put32 v ++ tcp_put32 e))) with 10 in E.
  rewrite <- !app_comm_cons, <- app_assoc in E. rewrite E by done. unfold do_option.
  assert (tcp_get32 (TCPOPT_TIMESTAMP :: 10 :: tcp_put32 v ++ tcp_put32 e ++ cp) 2 = Some v) as ->
    by (by apply (get32_put [TCPOPT_TIMESTAMP; 10])).
  assert (tcp_get32 (TCPOPT_TIMESTAMP :: 10 :: tcp_put32 v ++ tcp_put32 e ++ cp) 6 = Some e) as ->
    by (by apply (get32_put (TCPOPT_TIMESTAMP :: 10 :: tcp_put32 v))).
  by destruct is_syn.
Qed.

Lemma decode_sacks to bs : Forall block_u32 bs -> 1 <= Z.of_nat (length bs) <= 4 ->
  decode is_syn (tcp_put_opt_header TCPOPT_SACK (2 + 8 * Z.of_nat (length bs)) ++ flat_map put_block bs) to =
  Some (if is_syn then to else TcpOpts (Z.lor (to_flags to) TOF_SACK) (to_mss to) (to_wscale to) (to_ts_val to)
                                 (to_ts_ecr to) bs).
Proof.
  intros HF Hn. unfold tcp_put_opt_header. cbn [app]. rewrite !decode_nop.
  pose proof (decode_option is_syn TCPOPT_SACK (flat_map put_block bs) [] to) as E.
  cbv zeta in E. rewrite put_blocks_length in E.
  replace (2 + Z.of_nat (8 * length bs)) with (2 + 8 * Z.of_nat (length bs)) in E by lia.
  rewrite app_nil_r in E. rewrite E by done. unfold do_option.
  replace (2 + 8 * Z.of_nat (length bs) - 2) with (Z.of_nat (length bs) * 8) by lia.
  rewrite Z.mod_mul, Z.div_mul by lia.
  destruct (Z.leb_spec 10 (2 + 8 * Z.of_nat (length bs))); [| lia].
  assert ((if Z.of_nat (length bs) <? TCP_MAX_SACK then Z.of_nat (length bs) else TCP_MAX_SACK) =
          Z.of_nat (length bs)) as ->.
  { unfold TCP_MAX_SACK. destruct (Z.ltb_spec (Z.of_nat (length bs)) 4); lia. }
  rewrite Nat2Z.id.
  pose proof (get_blocks_put bs [TCPOPT_SACK; 2 + 8 * Z.of_nat (length bs)] [] 0 HF eq_refl) as Eg.
  rewrite app_nil_r in Eg. cbn [app] in Eg. rewrite Eg. by destruct is_syn.
Qed.
End decode_pieces.

(** Options a caller may encode. *)
Record opts_ok (to : tcp_opts) : Prop := {
  oo_mss : is_u 16 (to_mss to);
  oo_wscale : 0 <= to_wscale to <= TCP_MAX_WINSHIFT;
  oo_ts_val : is_u 32 (to_ts_val to);
  oo_ts_ecr : is_u 32 (to_ts_ecr to);
  oo_sacks : Forall block_u32 (to_sacks to);
}.

(** What the peer understands: the options of a connection request only in one,
    selective acknowledgements only in other segments, and as many of those as
    fit in the header. *)
Definition received (is_syn : bool) (to : tcp_opts) : tcp_opts :=
  let has f := (to_flags to &? f)%hermes in
  let sel (c : bool) (v : Z) := if c then v else 0 in
  let n := if is_syn then 0 else sent_sacks to in
  TcpOpts (Z.lor (Z.lor (Z.lor (Z.lor (sel (is_syn && has TOF_MSS) TOF_MSS) (sel (is_syn && has TOF_SCALE) TOF_SCALE))
             (sel (is_syn && has TOF_SACKPERM) TOF_SACKPERM)) (sel (has TOF_TS) TOF_TS)) (sel (negb (n =? 0)) TOF_SACK))
    (sel (is_syn && has TOF_MSS) (to_mss to)) (sel (is_syn && has TOF_SCALE) (to_wscale to))
    (sel (has TOF_TS) (to_ts_val to)) (sel (has TOF_TS) (to_ts_ecr to)) (take (Z.to_nat n) (to_sacks to)).

Lemma decode_encode is_syn to : opts_ok to ->
  tcp_dooptions (tcp_addoptions to) is_syn = Some (received is_syn to).
Proof.
  intros [Hm Hw Hv He Hs]. rewrite addoptions_encode. unfold encode_prefix, received.
  change (tcp_dooptions ?cp is_syn) with (decode is_syn cp no_opts). rewrite <- !app_assoc.
  assert (forall t, decode is_syn (encode_sacks to) t =
    Some (if negb is_syn && negb (sent_sacks to =? 0)
          then TcpOpts (Z.lor (to_flags t) TOF_SACK) (to_mss t) (to_wscale t) (to_ts_val t) (to_ts_ecr t)
                 (take (Z.to_nat (sent_sacks to)) (to_sacks to)) else t)) as Hsack.
  { intros t. unfold encode_sacks. destruct (Z.eqb_spec (sent_sacks to) 0) as [E0 | N0].
    - by destruct is_syn.
    - pose proof (sent_sacks_range to).
      assert (Z.of_nat (length (take (Z.to_nat (sent_sacks to)) (to_sacks to))) = sent_sacks to) as El.
      { rewrite length_take. unfold sent_sacks in *. destruct (negb _); lia. }
      rewrite <- El at 1. rewrite decode_sacks; [by destruct is_syn | by apply Forall_take | lia]. }
  pose proof (sent_sacks_range to) as Hn.
  destruct (to_flags to &? TOF_MSS)%hermes, (to_flags to &? TOF_SCALE)%hermes,
    (to_flags to &? TOF_SACKPERM)%hermes, (to_flags to &? TOF_TS)%hermes;
    rewrite <- ?app_assoc; cbn [app];
    rewrite ?(decode_mss is_syn _ _ (to_mss to) Hm : decode is_syn (_ :: _ :: _) _ = _);
    rewrite ?(decode_scale is_syn _ _ (to_wscale to) Hw : decode is_syn (_ :: _ :: _ :: _ :: _) _ = _);
    rewrite ?decode_sackperm, ?(decode_ts is_syn _ _ _ _ Hv He), Hsack;
    destruct is_syn; cbn [negb andb]; try done;
    destruct (sent_sacks to =? 0) eqn:E0; try done; apply Z.eqb_eq in E0; rewrite E0; done.
Qed.

(** ** Main theorems *)

(** C36: Options in a segment stay inside their buffers.  The encoder never
    writes more than the forty bytes a header has room for, and always a whole
    number of 32-bit words, which the data offset field counts.  The decoder
    terminates without reading outside the option bytes, for any bytes the peer
    sends, and what it returns respects the limits the rest of the code relies
    on: a window scale of at most 14 and at most four blocks. *)
Theorem tcp_options_bounds (to : tcp_opts) (cp : list Z) (is_syn : bool) :
  Z.of_nat (length (tcp_addoptions to)) <= TCP_MAX_HEADER_LEN - TCP_HEADER_LEN /\
  Z.of_nat (length (tcp_addoptions to)) mod 4 = 0 /\
  exists to', tcp_dooptions cp is_syn = Some to' /\
    to_wscale to' <= TCP_MAX_WINSHIFT /\ Z.of_nat (length (to_sacks to')) <= TCP_MAX_SACK.
Proof.
  destruct (addoptions_fits to) as [H1 H2]. split; [done |]. split; [done |].
  destruct (dooptions_total (length cp) cp is_syn no_opts) as (to' & H & Hw & Hs); [done | done |].
  exists to'. done.
Qed.

(** C37: The peer decodes what was encoded: every option that is legal in the
    kind of segment it travels in arrives with its value, and of the selective
    acknowledgement blocks as many as fit beside the other options. *)
Theorem tcp_options_roundtrip (to : tcp_opts) (is_syn : bool) : opts_ok to ->
  tcp_dooptions (tcp_addoptions to) is_syn = Some (received is_syn to).
Proof. apply decode_encode. Qed.

Definition demo_opts : tcp_opts :=
  TcpOpts (Z.lor TOF_TS TOF_SACK) 0 0 123456 4294967295
    [SackBlock 1 2; SackBlock 4294967290 5; SackBlock 10 20; SackBlock 30 40].

Lemma tcp_options_roundtrip_witness :
  tcp_dooptions (tcp_addoptions demo_opts) false =
    Some (TcpOpts (Z.lor TOF_TS TOF_SACK) 0 0 123456 4294967295
            [SackBlock 1 2; SackBlock 4294967290 5; SackBlock 10 20]).
Proof.
  rewrite tcp_options_roundtrip; [reflexivity |]. split; [done | done | done | done |].
  repeat (constructor; [done |]). constructor.
Defined.
