(* ===== verification/TcpReass.v ===== *)
(** * TCP reassembly: tcp_reassemble (drivers/net/tcp/tcp_input.c)

    Segments that arrive out of order wait in a queue sorted by sequence number.
    The queue is the list of its entries along [next], a packet the list of its
    bytes; [adj] is [netbuf_adj] on those bytes (NetbufTheorems.v).  The main
    theorem: whatever the order, duplication and overlap of the segments, the
    bytes handed to the socket are the bytes of the peer's stream, each once and
    in order. *)

From Stdlib Require Import ZArith Lia.
From stdpp Require Import base option list.
From S2P Require Import Prelude TcpVar.
Open Scope Z_scope.

(** ** The code *)

(** [netbuf_adj]: a positive length trims the front, a negative one the end. *)
Definition adj (len : Z) (d : list Z) : list Z :=
  if 0 <=? len then drop (Z.to_nat len) d
  else take (Z.to_nat (Z.of_nat (length d) + len)) d.

(** The loop frees the entries from the front; nothing remains. *)
Fixpoint flush_loop (q : list tcp_reassemble_entry) (len : Z) : Z :=
  match q with
  | [] => len
  | e :: q' => flush_loop q' (u32 (len - e_len e))
  end.
Definition tcp_reassemble_flush (tp : tcpcb) : tcpcb :=
  set_reassemble_len (flush_loop (reassemble_queue tp) (reassemble_len tp)) (set_reassemble_queue [] tp).

(** [hiwat] is the limit of the receive buffer, when there is a socket. *)
Definition tcp_reassemble_full (hiwat : option Z) (seq len : Z) (tp : tcpcb) : bool :=
  match hiwat with
  | Some h => negb (seq =? rcv_nxt tp) && (u32 (reassemble_len tp + len) >? h)
  | None => false
  end.

(** [while ( *pp && SEQ_LT(( *pp)->seq, seq)) pp = &( *pp)->next]: the entries
    passed and the entries from [*pp] on. *)
Fixpoint find_pos (seq : Z) (q : list tcp_reassemble_entry)
  : list tcp_reassemble_entry * list tcp_reassemble_entry :=
  match q with
  | [] => ([], [])
  | e :: q' =>
      if SEQ_LT (e_seq e) seq then let '(pre, post) := find_pos seq q' in (e :: pre, post)
      else ([], q)
  end.

(** The loop that removes covered entries: the flags collected, the entries
    left, and the bytes taken off [reassemble_len]. *)
Fixpoint drop_covered (seq len flags : Z) (q : list tcp_reassemble_entry) (total : Z)
  : Z * list tcp_reassemble_entry * Z :=
  match q with
  | [] => (flags, [], total)
  | e :: q' =>
      if SEQ_LEQ (u32 (e_seq e + e_len e)) (u32 (seq + len))
      then drop_covered seq len (Z.lor flags (e_flags e)) q' (u32 (total - e_len e))
      else (flags, q, total)
  end.

(** Inserting between [pre] and [post]; [ok] tells whether [malloc] succeeds. *)
Definition insert_between (ok : bool) (seq len flags : Z) (nb : list Z)
    (pre post : list tcp_reassemble_entry) (tp : tcpcb) : tcpcb :=
  let '(flags, post, total) := drop_covered seq len flags post (reassemble_len tp) in
  let '(nb, len, flags) :=
    match post with
    | e :: _ =>
        if SEQ_LT (e_seq e) (u32 (seq + len)) then
          let overlap := u32 (seq + len - e_seq e) in
          (adj (- overlap) nb, u32 (len - overlap), (flags &~ TH_FIN)%hermes)
        else (nb, len, flags)
    | [] => (nb, len, flags)
    end in
  if ok then
    set_reassemble_len (u32 (total + len))
      (set_reassemble_queue (pre ++ ReassEntry seq len flags nb :: post) tp)
  else set_reassemble_len total (set_reassemble_queue (pre ++ post) tp).

Definition tcp_reassemble_insert (ok : bool) (hiwat : option Z) (seq len flags : Z) (nb : list Z)
    (tp : tcpcb) : tcpcb :=
  if tcp_reassemble_full hiwat seq len tp then tp
  else
    let '(pre, post) := find_pos seq (reassemble_queue tp) in
    match last pre with
    | Some prev =>
        let overlap := s32 (e_seq prev + e_len prev - seq) in
        if (overlap >? 0) && (overlap >=? len) then
          if overlap =? len then
            let prev' := ReassEntry (e_seq prev) (e_len prev) (Z.lor (e_flags prev) flags) (e_data prev) in
            set_reassemble_queue (removelast pre ++ prev' :: post) tp
          else tp
        else if overlap >? 0 then
          insert_between ok (u32 (seq + overlap)) (u32 (len - overlap)) flags (adj overlap nb) pre post tp
        else insert_between ok seq len flags nb pre post tp
    | None => insert_between ok seq len flags nb pre post tp
    end.

(** The loop of [tcp_reassemble_pull] over the queue [q]: the flags seen, the
    bytes delivered, and the new receive position, queue and length.  [deliver]
    tells whether the socket still takes data. *)
Fixpoint pull_loop (deliver : bool) (q : list tcp_reassemble_entry) (nxt total flags : Z) (out : list Z)
  : Z * list Z * Z * list tcp_reassemble_entry * Z :=
  match q with
  | [] => (flags, out, nxt, [], total)
  | e :: q' =>
      if negb (flags &? TH_FIN)%hermes && (e_seq e =? nxt) then
        pull_loop deliver q' (u32 (nxt + e_len e)) (u32 (total - e_len e)) (Z.lor flags (e_flags e))
          (if negb (e_len e =? 0) && deliver then out ++ e_data e else out)
      else (flags, out, nxt, q, total)
  end.

(** Whether a FIN was reached, the bytes appended to the receive buffer, and the
    control block. *)
Definition tcp_reassemble_pull (deliver : bool) (tp : tcpcb) : bool * list Z * tcpcb :=
  let '(flags, out, nxt, q, total) :=
    pull_loop deliver (reassemble_queue tp) (rcv_nxt tp) (reassemble_len tp) 0 [] in
  ((flags &? TH_FIN)%hermes, out,
   set_reassemble_len total (set_reassemble_queue q (set_rcv_nxt nxt tp))).

Definition tcp_reassemble (ok deliver : bool) (hiwat : option Z) (th : tcp_header) (nb : list Z) (len : Z)
    (tp : tcpcb) : bool * list Z * tcpcb :=
  tcp_reassemble_pull deliver
    (tcp_reassemble_insert ok hiwat (th_seq th) len (Z.land (th_flags th) TH_FIN) nb tp).

(** ** Stretches of the peer's stream *)

Definition stretch (S : Z -> Z) (o n : Z) : list Z := (fun k => S (o + k)) <$> seqZ 0 n.

Lemma stretch_length S o n : 0 <= n -> Z.of_nat (length (stretch S o n)) = n.
Proof. intros Hn. unfold stretch. rewrite length_fmap, length_seqZ. lia. Qed.

Lemma stretch_shift S o k n : (fun j => S (o + j)) <$> seqZ k n = stretch S (o + k) n.
Proof.
  unfold stretch. rewrite <- (Z.add_0_r k) at 1. rewrite <- fmap_add_seqZ, <- list_fmap_compose.
  apply list_fmap_ext. intros i j _. unfold compose. f_equal. lia.
Qed.

Lemma stretch_app S o n m : 0 <= n -> 0 <= m -> stretch S o n ++ stretch S (o + n) m = stretch S o (n + m).
Proof.
  intros Hn Hm. rewrite <- stretch_shift. unfold stretch at 1 2.
  rewrite seqZ_app, fmap_app by lia. done.
Qed.

Lemma stretch_drop S o n k : 0 <= k <= n -> drop (Z.to_nat k) (stretch S o n) = stretch S (o + k) (n - k).
Proof.
  intros Hk. replace n with (k + (n - k)) at 1 by lia. rewrite <- stretch_app by lia.
  rewrite drop_app_ge by (pose proof (stretch_length S o k); lia).
  replace (Z.to_nat k - length (stretch S o k))%nat with 0%nat; [done |].
  pose proof (stretch_length S o k). lia.
Qed.

Lemma stretch_take S o n k : 0 <= k <= n -> take (Z.to_nat k) (stretch S o n) = stretch S o k.
Proof.
  intros Hk. replace n with (k + (n - k)) at 1 by lia. rewrite <- stretch_app by lia.
  rewrite take_app_le by (pose proof (stretch_length S o k); lia). apply take_ge.
  pose proof (stretch_length S o k). lia.
Qed.

(** ** The queue *)

Section queue.
(** The stream [S] ends at offset [fin]; the position [nxt] of the receiver is
    offset [pos] of the stream. *)
Context (S : Z -> Z) (fin nxt pos : Z).
Implicit Types (e : tcp_reassemble_entry) (q : list tcp_reassemble_entry) (tp : tcpcb).

(** Distances of an entry from the receiver's position. *)
Definition first_of e : Z := rel nxt (e_seq e).
Definition end_of e : Z := first_of e + e_len e.

(** A piece of the stream inside the half window above the receiver; a FIN ends
    the stream. *)
Record piece_ok (seq len flags : Z) (data : list Z) : Prop := {
  po_seq : is_u 32 seq;
  po_len : 0 <= len;
  po_window : rel nxt seq + len < 2 ^ 31;
  po_data : data = stretch S (pos + rel nxt seq) len;
  po_flags : flags = 0 \/ flags = TH_FIN;
  po_stream : pos + rel nxt seq + len <= fin;
  po_fin : flags = TH_FIN -> pos + rel nxt seq + len = fin;
}.
Definition entry_ok e : Prop := piece_ok (e_seq e) (e_len e) (e_flags e) (e_data e).

(** Entries in order from distance [lo] on, without overlap. *)
Fixpoint queue_ok (lo : Z) q : Prop :=
  match q with
  | [] => True
  | e :: q' => lo <= first_of e /\ entry_ok e /\ queue_ok (end_of e) q'
  end.

Fixpoint queue_end (lo : Z) q : Z :=
  match q with
  | [] => lo
  | e :: q' => queue_end (end_of e) q'
  end.

Definition covers q (x : Z) : Prop := Exists (fun e => first_of e <= x < end_of e) q.
Definition total_len q : Z := fold_right (fun e s => e_len e + s) 0 q.

Lemma queue_ok_app lo q1 q2 : queue_ok lo (q1 ++ q2) <-> queue_ok lo q1 /\ queue_ok (queue_end lo q1) q2.
Proof.
  revert lo. induction q1 as [| e q1 IH]; intros lo; cbn [app queue_ok queue_end]; [tauto |].
  rewrite IH. tauto.
Qed.

Lemma queue_ok_weaken lo lo' q : lo' <= lo -> queue_ok lo q -> queue_ok lo' q.
Proof. destruct q; [done |]. intros ? (? & ? & ?). split; [lia | done]. Qed.

Lemma covers_app q1 q2 x : covers (q1 ++ q2) x <-> covers q1 x \/ covers q2 x.
Proof. apply Exists_app. Qed.
Lemma covers_cons e q x : covers (e :: q) x <-> first_of e <= x < end_of e \/ covers q x.
Proof. apply Exists_cons. Qed.

Lemma total_len_app q1 q2 : total_len (q1 ++ q2) = total_len q1 + total_len q2.
Proof. unfold total_len. induction q1 as [| e q1 IH]; cbn [app fold_right]; lia. Qed.

Lemma entry_bounds e : entry_ok e -> 0 <= first_of e /\ 0 <= e_len e /\ end_of e < 2 ^ 31.
Proof. intros [_ Hl Hw _ _ _ _]. pose proof (rel_range nxt (e_seq e)). unfold first_of, end_of in *. unfold first_of. lia. Qed.

Lemma queue_end_ge lo q : queue_ok lo q -> lo <= queue_end lo q /\ 0 <= total_len q <= queue_end lo q - lo.
Proof.
  revert lo. induction q as [| e q IH]; intros lo; cbn [queue_ok queue_end]; [unfold total_len; simpl; lia |].
  intros (Hlo & He & Hq). destruct (entry_bounds e He) as (? & ? & ?). specialize (IH (end_of e) Hq).
  assert (end_of e = first_of e + e_len e) by done. change (total_len (e :: q)) with (e_len e + total_len q). lia.
Qed.

Lemma queue_end_lt lo q : queue_ok lo q -> lo < 2 ^ 31 -> queue_end lo q < 2 ^ 31.
Proof.
  revert lo. induction q as [| e q IH]; intros lo; cbn [queue_ok queue_end]; [done |].
  intros (Hlo & He & Hq) _. apply IH; [done |]. apply (entry_bounds e He).
Qed.

Lemma total_len_small q : queue_ok 0 q -> 0 <= total_len q < 2 ^ 31.
Proof. intros H. pose proof (queue_end_ge 0 q H). pose proof (queue_end_lt 0 q H). lia. Qed.

Lemma total_len_bound lo q : 0 <= lo -> queue_ok lo q -> 0 <= total_len q < 2 ^ 31.
Proof. intros Hlo H. apply total_len_small. by apply (queue_ok_weaken lo). Qed.

Lemma queue_end_last lo q e : queue_end lo (q ++ [e]) = end_of e.
Proof. revert lo. induction q as [| d q IH]; intros lo; [done |]. cbn [app queue_end]. apply IH. Qed.

(** Comparisons of the code, as comparisons of distances. *)
Lemma end_seq seq len : rel nxt seq + len < 2 ^ 31 -> 0 <= len -> rel nxt (u32 (seq + len)) = rel nxt seq + len.
Proof.
  intros Hw Hl. pose proof (rel_range nxt seq). unfold rel, u32, wrap in *.
  rewrite Zminus_mod_idemp_l. replace (seq + len - nxt) with (seq - nxt + len) by lia.
  rewrite <- Zplus_mod_idemp_l, Z.mod_small; lia.
Qed.

Lemma find_pos_spec seq lo q : queue_ok lo q -> rel nxt seq < 2 ^ 31 ->
  exists pre post, find_pos seq q = (pre, post) /\ q = pre ++ post /\
    (forall e, e ∈ pre -> first_of e < rel nxt seq) /\
    queue_ok (Z.max (queue_end lo pre) (rel nxt seq)) post.
Proof.
  intros Hq Hs. revert lo Hq. induction q as [| e q IH]; intros lo Hq; cbn [find_pos].
  - exists [], []. split; [done |]. split; [done |]. split; [by intros e ?%not_elem_of_nil | done].
  - destruct Hq as (Hlo & He & Hq). destruct (entry_bounds e He) as (? & ? & ?).
    rewrite (seq_lt nxt) by (unfold first_of, end_of in *; unfold first_of in *; lia).
    change (rel nxt (e_seq e)) with (first_of e).
    destruct (Z.ltb_spec (first_of e) (rel nxt seq)) as [Hlt | Hge].
    + destruct (IH (end_of e) Hq) as (pre & post & -> & -> & Hp & Hpost).
      exists (e :: pre), post. split; [done |]. split; [done |]. split; [| exact Hpost].
      intros d [-> | Hd]%elem_of_cons; [done | auto].
    + exists [], (e :: q). split; [done |]. split; [done |]. split; [by intros d ?%not_elem_of_nil |].
      cbn [queue_end queue_ok]. split; [lia | done].
Qed.

Definition has_fin q : Prop := Exists (fun e => e_flags e = TH_FIN) q.

Lemma lor_fin a b : (a = 0 \/ a = TH_FIN) -> (b = 0 \/ b = TH_FIN) ->
  (Z.lor a b = 0 \/ Z.lor a b = TH_FIN) /\ (Z.lor a b = TH_FIN <-> a = TH_FIN \/ b = TH_FIN).
Proof. intros [-> | ->] [-> | ->]; unfold TH_FIN; simpl; (split; [auto | intuition lia]). Qed.

Lemma drop_covered_spec seq len flags data total q lo : queue_ok lo q -> piece_ok seq len flags data ->
  0 <= lo -> total_len q <= total < 2 ^ 32 ->
  exists flags' q1 q2, q = q1 ++ q2 /\
    drop_covered seq len flags q total = (flags', q2, total - total_len q1) /\
    piece_ok seq len flags' data /\ (flags' = TH_FIN <-> flags = TH_FIN \/ has_fin q1) /\
    (forall e, e ∈ q1 -> end_of e <= rel nxt seq + len) /\
    match q2 with [] => True | e :: _ => rel nxt seq + len < end_of e end.
Proof.
  revert flags total lo. induction q as [| e q IH]; intros flags total lo Hq Hp Hlo Ht; cbn [drop_covered].
  - exists flags, [], []. change (total_len []) with 0. rewrite Z.sub_0_r.
    split; [done |]. split; [done |]. split; [done |]. split; [| split; [by intros e ?%not_elem_of_nil | done]].
    split; [by left |]. intros [? | H]; [done | inversion H].
  - destruct Hq as (Hle & He & Hq). destruct (entry_bounds e He) as (Hf & Hl & Hw).
    pose proof Hp as [P1 P2 P3 P4 P5 P6 P7].
    change (total_len (e :: q)) with (e_len e + total_len q) in Ht.
    rewrite (seq_leq nxt) by (rewrite !end_seq; unfold first_of, end_of, first_of in *; lia).
    rewrite !end_seq by (unfold first_of, end_of, first_of in *; lia).
    change (rel nxt (e_seq e) + e_len e) with (end_of e).
    assert (end_of e = first_of e + e_len e) as Eend by done.
    destruct (Z.leb_spec (end_of e) (rel nxt seq + len)) as [Hcov | Hnot].
    + pose proof He as [_ _ _ _ E5 E6 E7]. destruct (lor_fin flags (e_flags e) P5 E5) as [L1 L2].
      assert (0 <= total_len q) as Htq by (apply (total_len_bound (end_of e)); [lia | done]).
      rewrite u32_small by lia.
      destruct (IH (Z.lor flags (e_flags e)) (total - e_len e) (end_of e)) as
        (flags' & q1 & q2 & -> & -> & Hp' & Hfin & Hq1 & Hq2); [done | | lia | |].
      { split; try done. intros [Hf1 | Hf2]%L2; [auto |]. specialize (E7 Hf2).
        change (rel nxt (e_seq e)) with (first_of e) in E7. lia. }
      { lia. }
      exists flags', (e :: q1), q2. split; [done |].
      change (total_len (e :: q1)) with (e_len e + total_len q1).
      split; [f_equal; lia |]. split; [done |]. split; [| split; [| done]].
      * rewrite Hfin, L2. unfold has_fin. rewrite Exists_cons. tauto.
      * intros d [-> | Hd]%elem_of_cons; [done | auto].
    + exists flags, [], (e :: q). change (total_len []) with 0. rewrite Z.sub_0_r.
      split; [done |]. split; [done |]. split; [done |]. split; [| split; [by intros d ?%not_elem_of_nil | done]].
      split; [by left |]. intros [? | H]; [done | inversion H].
Qed.

(** The part of a piece before an entry that overlaps its end. *)
Lemma piece_cut seq len flags data k : piece_ok seq len flags data -> 0 <= k <= len ->
  piece_ok seq (len - k) 0 (adj (- k) data).
Proof.
  intros [P1 P2 P3 P4 P5 P6 P7] Hk. split; try (done || lia).
  assert (Z.of_nat (length data) = len) as Hld by (rewrite P4; by apply stretch_length).
  unfold adj. destruct (Z.leb_spec 0 (- k)).
  - assert (k = 0) by lia. subst k. simpl. by rewrite Z.sub_0_r.
  - rewrite Hld, P4. replace (len + - k) with (len - k) by lia. apply stretch_take. lia.
Qed.

(** The part of a piece after an entry that overlaps its start. *)
Lemma piece_rest seq len flags data k : piece_ok seq len flags data -> 0 < k < len ->
  piece_ok (u32 (seq + k)) (len - k) flags (adj k data) /\
  rel nxt (u32 (seq + k)) = rel nxt seq + k.
Proof.
  intros [P1 P2 P3 P4 P5 P6 P7] Hk. rewrite end_seq by lia. split; [| done].
  split; rewrite ?end_seq by lia; try (done || lia).
  - apply u32_range.
  - unfold adj. destruct (Z.leb_spec 0 k); [| lia]. rewrite P4, stretch_drop by lia. f_equal. lia.
Qed.

(** What inserting a piece [seq, len, flags] into the queue [q] promises for the
    new queue [q']; [stored] tells whether the piece was kept. *)
Record inserted (stored : bool) (s len flags : Z) q q' (total' : Z) : Prop := {
  in_ok : queue_ok 0 q';
  in_total : total' = total_len q';
  in_sound : forall x, covers q' x -> covers q x \/ s <= x < s + len;
  in_complete : stored = true -> forall x, covers q x \/ s <= x < s + len -> covers q' x;
  in_fin_sound : has_fin q' -> has_fin q \/ flags = TH_FIN;
  in_fin_complete : stored = true -> has_fin q \/ flags = TH_FIN -> has_fin q';
}.

Lemma covered_inside lo q x : queue_ok lo q -> covers q x -> lo <= x < queue_end lo q.
Proof.
  revert lo. induction q as [| e q IH]; intros lo; cbn [queue_ok queue_end]; [intros _ H; inversion H |].
  intros (Hlo & He & Hq). destruct (entry_bounds e He) as (? & ? & ?). assert (end_of e = first_of e + e_len e) by done.
  pose proof (queue_end_ge (end_of e) q Hq). intros [Hx | Hx]%covers_cons; [lia |].
  specialize (IH (end_of e) Hq Hx). lia.
Qed.

Lemma queue_end_max lo q m : queue_ok lo q -> lo <= m -> (forall e, e ∈ q -> end_of e <= m) -> queue_end lo q <= m.
Proof.
  intros Hq Hlo H. destruct q as [| e q _] using rev_ind; [done |]. rewrite queue_end_last.
  apply H, elem_of_app. right. by left.
Qed.

Lemma has_fin_app q1 q2 : has_fin (q1 ++ q2) <-> has_fin q1 \/ has_fin q2.
Proof. apply Exists_app. Qed.
Lemma has_fin_cons e q : has_fin (e :: q) <-> e_flags e = TH_FIN \/ has_fin q.
Proof. apply Exists_cons. Qed.

(** The queue with a piece between [pre] and [post] in place of [q1]. *)
Lemma insert_piece seq len flags nb len' flags' nb' pre q1 post : 
  piece_ok seq len flags nb -> piece_ok seq len' flags' nb' -> len' <= len ->
  queue_ok 0 pre -> queue_end 0 pre <= rel nxt seq -> queue_ok (rel nxt seq) (q1 ++ post) ->
  (forall e, e ∈ q1 -> end_of e <= rel nxt seq + len) ->
  queue_ok (rel nxt seq + len') post ->
  (forall x, rel nxt seq + len' <= x < rel nxt seq + len -> covers post x) ->
  (flags' = TH_FIN -> flags = TH_FIN \/ has_fin q1) ->
  (flags = TH_FIN \/ has_fin q1 -> flags' = TH_FIN) ->
  inserted true (rel nxt seq) len flags (pre ++ q1 ++ post) (pre ++ ReassEntry seq len' flags' nb' :: post)
    (total_len (pre ++ q1 ++ post) - total_len q1 + len').
Proof.
  intros Hp Hp' Hlen Hpre Hend Hpost Hcov Hpost' Hrest Hf1 Hf2. set (e := ReassEntry seq len' flags' nb').
  assert (first_of e = rel nxt seq) as Ef by done. assert (end_of e = rel nxt seq + len') as Ee by done.
  apply queue_ok_app in Hpost as [Hq1 _]. pose proof (queue_end_max _ _ (rel nxt seq + len) Hq1) as Hmax.
  split.
  - apply queue_ok_app. split; [done |]. cbn [queue_ok]. rewrite Ee, Ef. split; [done |]. by split.
  - rewrite !total_len_app. change (total_len (e :: post)) with (len' + total_len post). lia.
  - intros x. rewrite !covers_app, covers_cons, Ef, Ee. intros [? | [? | ?]]; [auto | right; lia | auto].
  - intros _ x. rewrite !covers_app, covers_cons, Ef, Ee.
    assert (rel nxt seq <= x < rel nxt seq + len -> rel nxt seq <= x < rel nxt seq + len' \/ covers post x) as Hin.
    { intros Hx. destruct (Z_lt_ge_dec x (rel nxt seq + len')); [left; lia | right; apply Hrest; lia]. }
    intros [[? | [Hx | ?]] | Hx]; [auto | right; apply Hin | auto | right; by apply Hin].
    apply (covered_inside _ _ _ Hq1) in Hx. destruct Hp. specialize (Hmax ltac:(lia) Hcov). lia.
  - rewrite !has_fin_app, has_fin_cons. cbn [e_flags e]. tauto.
  - intros _. rewrite !has_fin_app, has_fin_cons. cbn [e_flags e]. tauto.
Qed.

Lemma insert_between_spec ok seq len flags nb pre post tp : piece_ok seq len flags nb ->
  queue_ok 0 pre -> queue_end 0 pre <= rel nxt seq -> queue_ok (rel nxt seq) post ->
  reassemble_len tp = total_len (pre ++ post) ->
  exists q' t', insert_between ok seq len flags nb pre post tp =
      set_reassemble_len t' (set_reassemble_queue q' tp) /\
    inserted ok (rel nxt seq) len flags (pre ++ post) q' t'.
Proof.
  intros Hp Hpre Hend Hpost Htot. unfold insert_between. pose proof (rel_range nxt seq) as Hr.
  assert (0 <= total_len pre < 2 ^ 31) as Htp by (by apply total_len_small).
  assert (0 <= total_len post < 2 ^ 31) as Htq by (apply (total_len_bound (rel nxt seq)); [lia | done]).
  rewrite total_len_app in Htot.
  destruct (drop_covered_spec seq len flags nb (reassemble_len tp) post (rel nxt seq)) as
    (flags' & q1 & q2 & -> & -> & Hp' & Hfin & Hcov & Hq2); [done | done | lia | lia |].
  pose proof Hpost as [Hq1 Hq2ok]%queue_ok_app. pose proof (queue_end_ge _ _ Hq1) as [Hge _].
  rewrite total_len_app in Htot, Htq.
  assert (0 <= total_len q1) as Ht1 by (apply (total_len_bound (rel nxt seq)); [lia | done]).
  assert (0 <= total_len q2) as Ht2 by (apply (total_len_bound (queue_end (rel nxt seq) q1)); [lia | done]).
  pose proof Hp' as [P1 P2 P3 P4 P5 P6 P7].
  assert (inserted false (rel nxt seq) len flags (pre ++ q1 ++ q2) (pre ++ q2)
            (reassemble_len tp - total_len q1)) as Hlost.
  { split.
    - apply queue_ok_app. split; [done |]. apply (queue_ok_weaken (queue_end (rel nxt seq) q1)); [lia | done].
    - rewrite !total_len_app. lia.
    - intros x. rewrite !covers_app. tauto.
    - done.
    - rewrite !has_fin_app. tauto.
    - done. }
  assert (reassemble_len tp = total_len (pre ++ q1 ++ q2)) as Htot' by (rewrite !total_len_app; lia).
  assert (forall len' flags'' nb', piece_ok seq len' flags'' nb' -> len' <= len ->
    queue_ok (rel nxt seq + len') q2 ->
    (forall x, rel nxt seq + len' <= x < rel nxt seq + len -> covers q2 x) ->
    (flags'' = TH_FIN <-> flags' = TH_FIN) ->
    exists q' t', (if ok then
      set_reassemble_len (u32 (reassemble_len tp - total_len q1 + len'))
        (set_reassemble_queue (pre ++ ReassEntry seq len' flags'' nb' :: q2) tp)
      else set_reassemble_len (reassemble_len tp - total_len q1) (set_reassemble_queue (pre ++ q2) tp)) =
      set_reassemble_len t' (set_reassemble_queue q' tp) /\
      inserted ok (rel nxt seq) len flags (pre ++ q1 ++ q2) q' t') as Hfinish.
  { intros len' flags'' nb' Hpc Hle Hok2 Hrest Hff. destruct ok; [| eauto].
    assert (inserted true (rel nxt seq) len flags (pre ++ q1 ++ q2) (pre ++ ReassEntry seq len' flags'' nb' :: q2)
              (reassemble_len tp - total_len q1 + len')) as Hins.
    { rewrite Htot'. apply (insert_piece seq len flags nb); try done; [intros H; apply Hfin, Hff, H |].
      intros H. by apply Hff, Hfin. }
    eexists _, _. split; [reflexivity |]. rewrite u32_small; [exact Hins |].
    rewrite (in_total _ _ _ _ _ _ _ Hins). pose proof (total_len_small _ (in_ok _ _ _ _ _ _ _ Hins)). lia. }
  destruct q2 as [| e q2].
  - apply Hfinish; [done | lia | done | intros x Hx; lia | done].
  - destruct Hq2ok as (He1 & He & Hq2ok). destruct (entry_bounds e He) as (? & ? & ?).
    assert (end_of e = first_of e + e_len e) as Eend by done.
    rewrite (seq_lt nxt) by (rewrite ?end_seq; unfold first_of in *; lia). rewrite end_seq by lia.
    change (rel nxt (e_seq e)) with (first_of e).
    destruct (Z.ltb_spec (first_of e) (rel nxt seq + len)) as [Hov | Hno].
    + assert (u32 (seq + len - e_seq e) = rel nxt seq + len - first_of e) as ->.
      { rewrite <- (u32_small (rel nxt seq + len - first_of e)) by lia. unfold first_of.
        rewrite <- (end_seq seq len) by lia. rewrite <- diff_rel. unfold u32, wrap.
        by rewrite Zminus_mod_idemp_l. }
      set (k := rel nxt seq + len - first_of e). rewrite (u32_small (len - k)) by (unfold k; lia).
      assert (flags' = 0) as Ef'.
      { destruct P5 as [? | Hf]; [done |]. specialize (P7 Hf). pose proof He as [_ _ _ _ _ E6 _].
        change (rel nxt (e_seq e)) with (first_of e) in E6. lia. }
      rewrite Ef'. change (0 &~ TH_FIN)%hermes with 0.
      apply Hfinish; [apply (piece_cut seq len flags'); [done | unfold k; lia] | unfold k; lia | | | by rewrite Ef'].
      * cbn [queue_ok]. split; [unfold k; lia | done].
      * intros x Hx. apply covers_cons. left. unfold k in Hx. lia.
    + apply Hfinish; [done | lia | | intros x Hx; lia | done]. cbn [queue_ok]. split; [lia | done].
Qed.

(** ** Insertion *)

Lemma queue_end_snoc_ok lo q e : queue_ok lo (q ++ [e]) -> entry_ok e.
Proof. intros [_ (_ & He & _)]%queue_ok_app. done. Qed.

(** A piece that ends inside the entry before it adds nothing but its FIN. *)
Lemma merge_into_prev pre prev post len flags seq nb : piece_ok seq len flags nb ->
  queue_ok 0 (pre ++ prev :: post) -> first_of prev < rel nxt seq -> rel nxt seq + len <= end_of prev ->
  (flags = TH_FIN -> end_of prev = rel nxt seq + len) ->
  let prev' := ReassEntry (e_seq prev) (e_len prev) (Z.lor (e_flags prev) flags) (e_data prev) in
  inserted true (rel nxt seq) len flags (pre ++ prev :: post) (pre ++ prev' :: post) (total_len (pre ++ prev :: post)).
Proof.
  intros Hp Hq Hlt Hend Hfin prev'. pose proof Hq as [Hpre (Hlo & He & Hpost)]%queue_ok_app.
  pose proof He as [E1 E2 E3 E4 E5 E6 E7]. pose proof Hp as [P1 P2 P3 P4 P5 P6 P7].
  destruct (lor_fin (e_flags prev) flags E5 P5) as [L1 L2].
  split.
  - apply queue_ok_app. split; [done |]. cbn [queue_ok]. split; [done |]. split; [| done].
    split; try done. intros [Hf | Hf]%L2; [auto |]. specialize (P7 Hf). specialize (Hfin Hf).
    change (e_seq prev') with (e_seq prev). change (rel nxt (e_seq prev)) with (first_of prev).
    change (e_len prev') with (e_len prev). unfold end_of in Hfin. lia.
  - rewrite !total_len_app. done.
  - intros x. rewrite !covers_app, !covers_cons. tauto.
  - intros _ x. rewrite !covers_app, !covers_cons. change (first_of prev') with (first_of prev).
    change (end_of prev') with (end_of prev). intuition lia.
  - rewrite !has_fin_app, !has_fin_cons. change (e_flags prev') with (Z.lor (e_flags prev) flags). tauto.
  - intros _. rewrite !has_fin_app, !has_fin_cons. change (e_flags prev') with (Z.lor (e_flags prev) flags). tauto.
Qed.

Lemma inserted_same stored s len flags q : queue_ok 0 q -> stored = false ->
  inserted stored s len flags q q (total_len q).
Proof. intros Hq ->. split; auto; done. Qed.

Lemma set_reass_eta tp : set_reassemble_len (reassemble_len tp) (set_reassemble_queue (reassemble_queue tp) tp) = tp.
Proof. by destruct tp as [? ? ? ? ? ? [] ? ?]. Qed.

Lemma insert_spec ok hiwat seq len flags nb tp : piece_ok seq len flags nb ->
  queue_ok 0 (reassemble_queue tp) -> reassemble_len tp = total_len (reassemble_queue tp) ->
  exists q' t', tcp_reassemble_insert ok hiwat seq len flags nb tp =
      set_reassemble_len t' (set_reassemble_queue q' tp) /\
    inserted (ok && negb (tcp_reassemble_full hiwat seq len tp)) (rel nxt seq) len flags (reassemble_queue tp) q' t'.
Proof.
  intros Hp Hq Htot. unfold tcp_reassemble_insert. pose proof Hp as [P1 P2 P3 P4 P5 P6 P7].
  destruct (tcp_reassemble_full hiwat seq len tp).
  { exists (reassemble_queue tp), (reassemble_len tp). rewrite set_reass_eta, andb_false_r, Htot.
    split; [done | by apply inserted_same]. }
  rewrite andb_true_r. cbn [negb].
  destruct (find_pos_spec seq 0 (reassemble_queue tp)) as (pre & post & Hf & Eq & Hpre & Hpost); [done | lia |].
  rewrite Hf. rewrite Eq in Hq, Htot |- *.
  pose proof Hq as [Hqpre Hqpost]%queue_ok_app.
  destruct pre as [| prev pre _] using rev_ind; cbn [last].
  { apply (insert_between_spec ok seq len flags nb [] post); try done; cbn [queue_end] in *.
    - apply rel_range. - apply (queue_ok_weaken _ _ _ (Z.le_max_r _ _) Hpost). }
  rewrite last_snoc, removelast_last. rewrite queue_end_last in *.
  assert (first_of prev < rel nxt seq) as Hlt by (apply Hpre, elem_of_app; right; by left).
  pose proof (queue_end_snoc_ok _ _ _ Hqpre) as Hprev. destruct (entry_bounds prev Hprev) as (? & ? & ?).
  assert (s32 (e_seq prev + e_len prev - seq) = end_of prev - rel nxt seq) as ->.
  { rewrite (s32_u32 _ (u32 (e_seq prev + e_len prev) - seq)) by (unfold u32, wrap; by rewrite Zminus_mod_idemp_l).
    pose proof (rel_range nxt seq). unfold end_of, first_of in *.
    rewrite (s32_rel nxt); rewrite end_seq by lia; lia. }
  assert (end_of prev = first_of prev + e_len prev) as Eend by done.
  rewrite Z.gtb_ltb, Z.geb_leb.
  destruct (Z.ltb_spec 0 (end_of prev - rel nxt seq)) as [Hov | Hno]; cbn [andb].
  - destruct (Z.leb_spec len (end_of prev - rel nxt seq)) as [Hin | Hpart].
    + rewrite <- app_assoc in Hq, Htot |- *. cbn [app] in Hq, Htot |- *.
      destruct (Z.eqb_spec (end_of prev - rel nxt seq) len) as [Heq | Hne].
      * eexists _, (reassemble_len tp). split; [reflexivity |]. rewrite Htot.
        pose proof (merge_into_prev pre prev post len flags seq nb Hp Hq Hlt) as [M1 M2 M3 M4 M5 M6]; [lia | lia |].
        split; auto.
      * exists (reassemble_queue tp), (reassemble_len tp). rewrite set_reass_eta. split; [done |].
        rewrite Eq, Htot, <- app_assoc. cbn [app]. split; [done | done | auto | | auto |].
        { intros _ x [? | Hx]; [done |]. rewrite covers_app, covers_cons. right. left. lia. }
        intros _ [? | Hf']; [done |]. exfalso. specialize (P7 Hf').
        pose proof Hprev as [_ _ _ _ _ E6 _]. change (rel nxt (e_seq prev)) with (first_of prev) in E6. lia.
    + destruct (piece_rest seq len flags nb (end_of prev - rel nxt seq) Hp) as [Hp' Hrel]; [lia |].
      rewrite (u32_small (len - _)) by lia.
      destruct (insert_between_spec ok _ _ flags _ (pre ++ [prev]) post tp Hp') as (q' & t' & -> & [I1 I2 I3 I4 I5 I6]);
        [done | rewrite queue_end_last; lia | | done |].
      { rewrite Hrel. apply (queue_ok_weaken _ _ _ (Z.le_max_l _ _)) in Hpost.
        replace (rel nxt seq + (end_of prev - rel nxt seq)) with (end_of prev) by lia. done. }
      rewrite Hrel in *. exists q', t'. split; [done |]. split; [done | done | | | done | done].
      * intros x Hx. destruct (I3 x Hx); [auto | right; lia].
      * intros Hok x [Hx | Hx]; apply I4; auto.
        destruct (Z_lt_ge_dec x (end_of prev)); [left | right; lia].
        rewrite !covers_app, covers_cons. left. right. left. lia.
  - apply insert_between_spec; try done; [rewrite queue_end_last; lia |].
    apply (queue_ok_weaken _ _ _ (Z.le_max_r _ _) Hpost).
Qed.
End queue.

(** ** Delivery *)

Section delivery.
Context (S : Z -> Z) (fin : Z).
Implicit Types (e : tcp_reassemble_entry) (q : list tcp_reassemble_entry) (tp : tcpcb).

(** Moving the receiver's position forward by [n] below every entry. *)
Lemma entry_shift nxt pos n e : 0 <= n -> entry_ok S fin nxt pos e -> n <= first_of nxt e ->
  entry_ok S fin (u32 (nxt + n)) (pos + n) e /\ first_of (u32 (nxt + n)) e = first_of nxt e - n /\
  end_of (u32 (nxt + n)) e = end_of nxt e - n.
Proof.
  intros Hn He Hle. pose proof He as [E1 E2 E3 E4 E5 E6 E7]. destruct (entry_bounds _ _ _ _ e He) as (? & ? & ?).
  assert (rel nxt (u32 (nxt + n)) = n) as Er.
  { apply rel_add. unfold first_of, end_of in *. unfold first_of in *. lia. }
  assert (rel (u32 (nxt + n)) (e_seq e) = rel nxt (e_seq e) - n) as Es.
  { rewrite (rel_shift nxt), Er by (rewrite Er; exact Hle). done. }
  unfold end_of, first_of in *. rewrite Es. split; [| lia].
  split; rewrite ?Es; try (done || lia). rewrite E4; f_equal; lia.
Qed.

Lemma queue_shift nxt pos n lo q : 0 <= n -> n <= lo -> queue_ok S fin nxt pos lo q ->
  queue_ok S fin (u32 (nxt + n)) (pos + n) (lo - n) q /\
  forall x, covers (u32 (nxt + n)) q x <-> covers nxt q (x + n).
Proof.
  intros Hn. revert lo. induction q as [| e q IH]; intros lo Hlo; cbn [queue_ok].
  - intros _. split; [done |]. intros x. split; intros H; inversion H.
  - intros (He1 & He & Hq). destruct (entry_bounds _ _ _ _ e He) as (? & ? & ?).
    assert (end_of nxt e = first_of nxt e + e_len e) by done.
    destruct (entry_shift nxt pos n e Hn He) as (He' & Ef & Ee); [lia |].
    destruct (IH (end_of nxt e)) as [IH1 IH2]; [lia | done |]. split.
    + rewrite Ef, Ee. split; [lia | done].
    + intros x. rewrite !covers_cons, IH2, Ef, Ee. intuition lia.
Qed.

(** What pulling [n] bytes from the queue [q] leaves. *)
Record pulled (nxt pos n : Z) q q' : Prop := {
  pl_pos : 0 <= n;
  pl_ok : queue_ok S fin (u32 (nxt + n)) (pos + n) 0 q';
  pl_prefix : forall x, 0 <= x < n -> covers nxt q x;
  pl_rest : forall x, 0 <= x -> covers (u32 (nxt + n)) q' x <-> covers nxt q (x + n);
  pl_fits : pos + n <= fin \/ n = 0;
}.

Lemma pull_loop_spec deliver q : forall nxt pos flags out, is_u 32 nxt ->
  queue_ok S fin nxt pos 0 q -> flags = 0 \/ flags = TH_FIN ->
  exists n q' flags', pull_loop deliver q nxt (total_len q) flags out =
      (flags', out ++ (if deliver then stretch S pos n else []), u32 (nxt + n), q', total_len q') /\
    pulled nxt pos n q q' /\ (flags' = 0 \/ flags' = TH_FIN) /\
    (flags' = TH_FIN -> flags = TH_FIN \/ pos + n = fin) /\
    (flags' = 0 -> ~ covers (u32 (nxt + n)) q' 0).
Proof.
  assert (forall nxt pos q, is_u 32 nxt -> queue_ok S fin nxt pos 0 q -> pulled nxt pos 0 q q) as Hstop.
  { intros nxt pos r Hu Hr. split; rewrite ?Z.add_0_r, ?u32_small by done; try done; [lia | | by right].
    intros x Hx. by rewrite Z.add_0_r. }
  assert (forall pos, (if deliver then stretch S pos 0 else []) = []) as Hnil by (by destruct deliver).
  induction q as [| e q IH]; intros nxt pos flags out Hu Hq Hfl; cbn [pull_loop].
  - exists 0, [], flags. rewrite Hnil, app_nil_r, Z.add_0_r, u32_small by done. split; [done |].
    split; [by apply Hstop |]. split; [done |]. split; [by left |]. intros _ H. inversion H.
  - destruct (negb (flags &? TH_FIN)%hermes && (e_seq e =? nxt)) eqn:Hgo.
    + apply andb_true_iff in Hgo as [Hnf Hseq%Z.eqb_eq].
      assert (flags = 0) as -> by (destruct Hfl as [-> | ->]; done).
      destruct Hq as (_ & He & Hq). pose proof He as [E1 E2 E3 E4 E5 E6 E7].
      destruct (entry_bounds _ _ _ _ e He) as (? & ? & ?).
      assert (first_of nxt e = 0) as Ef by (unfold first_of; rewrite Hseq; apply rel_refl).
      assert (end_of nxt e = e_len e) as Ee by (unfold end_of; lia).
      rewrite Ee in Hq. destruct (queue_shift nxt pos (e_len e) (e_len e) q) as [Hq' Hcov]; [lia | lia | done |].
      rewrite Z.sub_diag in Hq'.
      assert (0 <= total_len q < 2 ^ 31) as Ht by (by apply (total_len_bound S fin nxt pos (e_len e))).
      change (total_len (e :: q)) with (e_len e + total_len q).
      replace (u32 (e_len e + total_len q - e_len e)) with (total_len q) by (rewrite u32_small; lia).
      rewrite Z.lor_0_l.
      destruct (IH (u32 (nxt + e_len e)) (pos + e_len e) (e_flags e)
                 (if negb (e_len e =? 0) && deliver then out ++ e_data e else out)) as
        (n & q' & flags' & -> & [P1 P2 P3 P4 P5] & Hfl' & Hfin & Hend); [apply u32_range | done | done |].
      assert (u32 (u32 (nxt + e_len e) + n) = u32 (nxt + (e_len e + n))) as Eu.
      { unfold u32, wrap. rewrite Zplus_mod_idemp_l. f_equal. lia. }
      rewrite Eu in *. exists (e_len e + n), q', flags'. split; [| split; [| split; [done | split; [| done]]]].
      * f_equal. f_equal. f_equal. f_equal. unfold first_of in Ef. rewrite Ef, Z.add_0_r in E4. destruct deliver.
        { rewrite <- stretch_app, app_assoc by lia. f_equal. rewrite andb_true_r.
          destruct (Z.eqb_spec (e_len e) 0) as [E0 |]; cbn [negb]; [| by rewrite E4].
          rewrite E0. by rewrite app_nil_r. }
        by rewrite andb_false_r.
      * split; [lia | by replace (pos + (e_len e + n)) with (pos + e_len e + n) by lia | | |].
        { intros x Hx. apply covers_cons. rewrite Ef, Ee.
          destruct (Z_lt_ge_dec x (e_len e)); [left; lia | right].
          replace x with (x - e_len e + e_len e) by lia. apply Hcov, P3. lia. }
        { intros x Hx. rewrite P4, Hcov, covers_cons, Ef, Ee by done.
          replace (x + n + e_len e) with (x + (e_len e + n)) by lia. split; [by right |].
          intros [? | ?]; [lia | done]. }
        left. unfold first_of in Ef. rewrite Ef in E6. lia.
      * intros Hf. right. destruct (Hfin Hf) as [Hfe |]; [| lia].
        assert (n = 0) as ->.
        { destruct P5 as [P5 |]; [| done]. specialize (E7 Hfe). unfold first_of in Ef. rewrite Ef in E7. lia. }
        specialize (E7 Hfe). unfold first_of in Ef. rewrite Ef in E7. lia.
    + exists 0, (e :: q), flags. rewrite Hnil, app_nil_r, Z.add_0_r, u32_small by done. split; [done |].
      split; [by apply Hstop |]. split; [done |]. split; [by left |]. intros -> Hc.
      cbn in Hgo. apply Z.eqb_neq in Hgo. destruct Hq as (_ & He & Hq).
      destruct (entry_bounds _ _ _ _ e He) as (? & ? & ?).
      assert (end_of nxt e = first_of nxt e + e_len e) by done.
      assert (first_of nxt e <> 0) as Hne.
      { intros Hz. apply Hgo. apply (rel_inj nxt); [apply He | done |]. by rewrite rel_refl. }
      apply covers_cons in Hc as [Hc | Hc]; [lia |]. apply (covered_inside S fin nxt pos _ _ _ Hq) in Hc. lia.
Qed.

(** The state between two segments: the receiver's position is offset [pos] of
    the stream and the queue holds pieces of the stream above it. *)
Record reass_inv (pos : Z) tp : Prop := {
  ri_nxt : is_u 32 (rcv_nxt tp);
  ri_queue : queue_ok S fin (rcv_nxt tp) pos 0 (reassemble_queue tp);
  ri_len : reassemble_len tp = total_len (reassemble_queue tp);
}.

Lemma reassemble_spec ok deliver hiwat th nb len pos tp : reass_inv pos tp ->
  piece_ok S fin (rcv_nxt tp) pos (th_seq th) len (Z.land (th_flags th) TH_FIN) nb ->
  exists n f tp', tcp_reassemble ok deliver hiwat th nb len tp =
      (f, (if deliver then stretch S pos n else []), tp') /\
    0 <= n /\ rcv_nxt tp' = u32 (rcv_nxt tp + n) /\ reass_inv (pos + n) tp' /\
    (f = true -> pos + n = fin) /\
    (forall x, 0 <= x < n -> covers (rcv_nxt tp) (reassemble_queue tp) x \/
       rel (rcv_nxt tp) (th_seq th) <= x < rel (rcv_nxt tp) (th_seq th) + len) /\
    (ok = true -> tcp_reassemble_full hiwat (th_seq th) len tp = false -> f = false ->
       ~ (covers (rcv_nxt tp) (reassemble_queue tp) n \/
          rel (rcv_nxt tp) (th_seq th) <= n < rel (rcv_nxt tp) (th_seq th) + len)).
Proof.
  intros [Hu Hq Ht] Hp. unfold tcp_reassemble.
  destruct (insert_spec S fin (rcv_nxt tp) pos ok hiwat _ _ _ _ tp Hp Hq Ht) as (q1 & t1 & -> & [I1 I2 I3 I4 I5 I6]).
  unfold tcp_reassemble_pull. tcp_simpl. subst t1.
  destruct (pull_loop_spec deliver q1 (rcv_nxt tp) pos 0 [] Hu I1) as
    (n & q' & flags' & -> & [P1 P2 P3 P4 P5] & Hfl & Hfin & Hend); [by left |].
  exists n, (flags' &? TH_FIN)%hermes. eexists. cbn [app]. split; [reflexivity |]. tcp_simpl.
  split; [done |]. split; [done |]. split; [| split; [| split]].
  - split; tcp_simpl; [apply u32_range | done | done].
  - intros Hf. destruct Hfl as [-> | ->]; [done |]. destruct (Hfin eq_refl); [done | done].
  - intros x Hx. apply I3, P3, Hx.
  - intros Hok Hfull Hf Hc. destruct Hfl as [-> | ->]; [| done]. apply (Hend eq_refl).
    apply P4; [done |]. rewrite Z.add_0_l. apply I4; [by rewrite Hok, Hfull | exact Hc].
Qed.

(** A segment as it reaches the queue: header, payload, and whether memory for an
    entry could be allocated. *)
Record arrival := Arrival { a_th : tcp_header; a_data : list Z; a_ok : bool }.

(** Processing segments until the stream ends. *)
Fixpoint receive (hiwat : option Z) (segs : list arrival) (tp : tcpcb) : bool * list Z * tcpcb :=
  match segs with
  | [] => (false, [], tp)
  | a :: segs' =>
      let '(f, out, tp) :=
        tcp_reassemble (a_ok a) true hiwat (a_th a) (a_data a) (Z.of_nat (length (a_data a))) tp in
      if f then (true, out, tp)
      else let '(f, out', tp) := receive hiwat segs' tp in (f, out ++ out', tp)
  end.

(** Each segment is a piece of the stream inside the window at its arrival. *)
Fixpoint arrivals_ok (hiwat : option Z) (pos : Z) (segs : list arrival) tp : Prop :=
  match segs with
  | [] => True
  | a :: segs' =>
      piece_ok S fin (rcv_nxt tp) pos (th_seq (a_th a)) (Z.of_nat (length (a_data a)))
        (Z.land (th_flags (a_th a)) TH_FIN) (a_data a) /\
      let '(_, out, tp') :=
        tcp_reassemble (a_ok a) true hiwat (a_th a) (a_data a) (Z.of_nat (length (a_data a))) tp in
      arrivals_ok hiwat (pos + Z.of_nat (length out)) segs' tp'
  end.

Lemma receive_spec hiwat segs : forall pos tp, reass_inv pos tp -> arrivals_ok hiwat pos segs tp ->
  exists n f tp', receive hiwat segs tp = (f, stretch S pos n, tp') /\ 0 <= n /\
    rcv_nxt tp' = u32 (rcv_nxt tp + n) /\ reass_inv (pos + n) tp' /\ (f = true -> pos + n = fin).
Proof.
  induction segs as [| a segs IH]; intros pos tp Hinv Hok; cbn [receive].
  - exists 0, false, tp. rewrite !Z.add_0_r, u32_small by apply Hinv. done.
  - destruct Hok as [Hp Hok].
    destruct (reassemble_spec (a_ok a) true hiwat (a_th a) (a_data a) _ pos tp Hinv Hp) as
      (n & f & tp1 & E & Hn & Hnx & Hinv1 & Hf & _). rewrite E in Hok |- *.
    rewrite stretch_length in Hok by done. destruct f; [exists n, true, tp1; done |].
    destruct (IH _ _ Hinv1 Hok) as (m & f & tp2 & -> & Hm & Hnx2 & Hinv2 & Hf2).
    exists (n + m), f, tp2. rewrite stretch_app by done. split; [done |]. split; [lia |].
    rewrite Hnx2, Hnx, !Z.add_assoc. split; [| done].
    unfold u32, wrap. by rewrite Zplus_mod_idemp_l.
Qed.
End delivery.

(** ** Main theorems *)

(** C16: Reassembly delivers the peer's stream.  For any sequence of segments of
    the stream, in any order, with duplicates, overlaps and allocation failures,
    the bytes appended to the receive buffer are exactly the stream from the
    receiver's position on: each byte once, in order, none invented; the position
    advances by their number, and the end of the stream is reported only when
    all bytes up to it were delivered. *)
Theorem reassembly_delivers_stream S fin hiwat segs pos tp : reass_inv S fin pos tp ->
  arrivals_ok S fin hiwat pos segs tp ->
  exists n f tp', receive hiwat segs tp = (f, stretch S pos n, tp') /\ 0 <= n /\
    rcv_nxt tp' = u32 (rcv_nxt tp + n) /\ reass_inv S fin (pos + n) tp' /\ (f = true -> pos + n = fin).
Proof. apply receive_spec. Qed.

(** A control block with an empty queue. *)
Definition demo_tcpcb (nxt : Z) (q : list tcp_reassemble_entry) (len : Z) : tcpcb :=
  Tcpcb TCPS_ESTABLISHED (SndVars 0 0 0 0 0 0 0 0) (RcvVars nxt 0 0 0 0 0 0)
    (CongVars 0 0 0 0) (RttVars 0 0 0 0 0) (MiscVars 0 0 0 0 0 0 0 0 0) (ReassVars q len)
    (SackVars [] 0 0 0)
    (TimerVars (Callout false 0 0 0) (Callout false 0 0 0) (Callout false 0 0 0) (Callout false 0 0 0)
       (Callout false 0 0 0)).

(** The bytes 0, 1, 2, ... arrive as [2, 3), then [1, 4) with FIN, then [0, 2). *)
Definition demo_arrivals : list arrival :=
  [Arrival (TcpHeader 0 0 1 0 0 0 0) [2] true; Arrival (TcpHeader 0 0 0 0 0 TH_FIN 0) [1; 2; 3] true;
   Arrival (TcpHeader 0 0 4294967295 0 0 0 0) [0; 1] true].

Ltac piece := split; try done; first [by left | by right | unfold TH_FIN in *; lia].

Lemma demo_arrivals_ok : arrivals_ok (fun x => x) 4 None 0 demo_arrivals (demo_tcpcb 4294967295 [] 0).
Proof. split; [piece |]. cbv -[Z.lt Z.le]. split; [piece |]. split; [piece | done]. Qed.

Lemma reassembly_delivers_stream_witness : exists tp',
  receive None demo_arrivals (demo_tcpcb 4294967295 [] 0) = (true, [0; 1; 2; 3], tp') /\ rcv_nxt tp' = 3.
Proof.
  destruct (reassembly_delivers_stream (fun x => x) 4 None demo_arrivals 0 (demo_tcpcb 4294967295 [] 0))
    as (n & f & tp' & H & _ & Hn & _).
  - by split.
  - apply demo_arrivals_ok.
  - vm_compute in H. injection H as Hf Ho Htp. exists tp'. split; [| by rewrite <- Htp].
    vm_compute. by rewrite <- Htp.
Defined.


