(* ===== verification/Inpcb.v ===== *)
(** * Internet control blocks: drivers/net/inpcb/inpcb.c

    The table of endpoints TCP and UDP share: the control blocks by address,
    the list of all of them, the hash of four-tuples and the hash of local
    ports.  The queues are the lists that [Dlist] proves queue.c implements;
    linking a block that is already linked through the same field, or unlinking
    one that is not, is a fault, and so is an access to a block that is not
    allocated.  Addresses are their 16 (or 4) bytes in memory, ports are 16-bit
    values in network order as the source keeps them.  The IP layer below is
    the interface [ip_layer]. *)

From Stdlib Require Import ZArith Lia.
From stdpp Require Import base option gmap list.
From S2P Require Import Prelude Bytes Dlist Netbuf Checksum.
Open Scope Z_scope.
Open Scope hermes_scope.

(** ** Constants *)

Definition AF_INET : Z := 2.
Definition AF_INET6 : Z := 10.
Definition EINVAL : Z := 22.
Definition EAFNOSUPPORT : Z := 97.
Definition EADDRINUSE : Z := 98.
Definition EADDRNOTAVAIL : Z := 99.
Definition ENOTCONN : Z := 107.
Definition EHOSTUNREACH : Z := 113.
Definition IPV4_DEFAULT_TTL : Z := 64.
Definition IPV4_OUTPUT_ALLOW_BCAST : Z := 4.
Definition INADDR_LOOPBACK : Z := 0x7f000001.
Definition SO_REUSEADDR : Z := 0x4.

Definition INPCB_HASH_SIZE : Z := 128.
Definition INPCB_PORT_FIRST : Z := 49152.
Definition INPCB_PORT_LAST : Z := 65535.

Definition INPCB_IPV6 : Z := 0x01.
Definition INPCB_IPV6_ONLY : Z := 0x02.
Definition INPCB_REUSEADDR : Z := 0x04.
Definition INPCB_REUSEPORT : Z := 0x08.
Definition INPCB_BROADCAST : Z := 0x10.
Definition INPCB_INHASH : Z := 0x20.
Definition INPCB_DETACHED : Z := 0x40.

Definition htons (v : Z) : Z := le_val (be_bytes 2 v).
Definition htonl (v : Z) : Z := le_val (be_bytes 4 v).
Definition ntohs (v : Z) : Z := le_val (be_bytes 2 v).

(** ** Addresses *)

Definition in6addr_any : list Z := replicate 16 0.
Definition in6addr_loopback : list Z := replicate 15 0 ++ [1].

(** The words of the union, in the machine's byte order. *)
Definition s6_addr32 (a : list Z) (i : nat) : Z := le_val (take 4 (drop (4 * i) a)).

Definition inpcb_addr_equal (a b : list Z) : bool :=
  forallb (fun i => s6_addr32 a i =? s6_addr32 b i) [0; 1; 2; 3]%nat.

Definition inpcb_addr_is_any (a : list Z) : bool :=
  Z.lor (Z.lor (Z.lor (s6_addr32 a 0) (s6_addr32 a 1)) (s6_addr32 a 2)) (s6_addr32 a 3) =? 0.

Definition inpcb_map_v4 (v4 : list Z) : list Z :=
  le_bytes 4 0 ++ le_bytes 4 0 ++
  le_bytes 4 (if negb (le_val v4 =? 0) then htonl 0x0000FFFF else 0) ++ v4.

Definition inpcb_is_v4_mapped (a : list Z) : bool :=
  (s6_addr32 a 0 =? 0) && (s6_addr32 a 1 =? 0) && (s6_addr32 a 2 =? htonl 0x0000FFFF).

Definition inpcb_unmap_v4 (a : list Z) : list Z := take 4 (drop 12 a).

Definition inpcb_port_hash (lport : Z) : Z := ntohs lport mod INPCB_HASH_SIZE.

Definition inpcb_hash (faddr : list Z) (fport : Z) (laddr : list Z) (lport : Z) : Z :=
  let h := Z.lor (u32 (Z.shiftl fport 16)) lport in
  let h := fold_left
    (fun h i => u32 (Z.lxor (Z.lxor h (s6_addr32 faddr i)) (s6_addr32 laddr i) * 0x9E3779B1))
    [0; 1; 2; 3]%nat h in
  Z.shiftr h 16 mod INPCB_HASH_SIZE.

(** ** Control blocks and the table *)

(** [i_socket]: the socket's address, if it has one. *)
Record inpcb := Inpcb {
  i_laddr : list Z;
  i_faddr : list Z;
  i_lport : Z;
  i_fport : Z;
  i_flags : Z;
  i_ttl : Z;
  i_tos : Z;
  i_socket : option Z;
  i_ppcb : Z;
}.

Definition with_laddr (a : list Z) (i : inpcb) : inpcb :=
  Inpcb a (i_faddr i) (i_lport i) (i_fport i) (i_flags i) (i_ttl i) (i_tos i) (i_socket i) (i_ppcb i).
Definition with_lport (p : Z) (i : inpcb) : inpcb :=
  Inpcb (i_laddr i) (i_faddr i) p (i_fport i) (i_flags i) (i_ttl i) (i_tos i) (i_socket i) (i_ppcb i).
Definition with_foreign (a : list Z) (p : Z) (i : inpcb) : inpcb :=
  Inpcb (i_laddr i) a (i_lport i) p (i_flags i) (i_ttl i) (i_tos i) (i_socket i) (i_ppcb i).
Definition with_iflags (f : Z) (i : inpcb) : inpcb :=
  Inpcb (i_laddr i) (i_faddr i) (i_lport i) (i_fport i) f (i_ttl i) (i_tos i) (i_socket i) (i_ppcb i).

Record inpcb_table := Table {
  t_pcbs : gmap Z inpcb;
  t_all : list Z;
  t_hash : list (list Z);
  t_port_hash : list (list Z);
  t_last_port : Z;
}.

Definition with_pcbs (m : gmap Z inpcb) (t : inpcb_table) : inpcb_table :=
  Table m (t_all t) (t_hash t) (t_port_hash t) (t_last_port t).
Definition with_last_port (p : Z) (t : inpcb_table) : inpcb_table :=
  Table (t_pcbs t) (t_all t) (t_hash t) (t_port_hash t) p.

(** An assignment to fields of the block at [p]. *)
Definition upd_pcb (f : inpcb -> inpcb) (p : Z) (t : inpcb_table) : option inpcb_table :=
  inp ← t_pcbs t !! p; Some (with_pcbs (<[p := f inp]> (t_pcbs t)) t).

Definition inpcb_table_init : inpcb_table :=
  Table ∅ [] (replicate (Z.to_nat INPCB_HASH_SIZE) []) (replicate (Z.to_nat INPCB_HASH_SIZE) []) 0.

(** [dlist_insert_tail] and [dlist_remove] on the queue at index [h] of an
    array of queues that link their nodes through the same field. *)
Definition bucket_insert (bs : list (list Z)) (h p : Z) : option (list (list Z)) :=
  b ← rd bs h;
  if existsb (fun b => bool_decide (p ∈ b)) bs then None
  else wr bs h (list_op (InsertTail p) b).

Definition bucket_remove (bs : list (list Z)) (h p : Z) : option (list (list Z)) :=
  b ← rd bs h;
  if bool_decide (p ∈ b) then wr bs h (list_op (Remove p) b) else None.

Definition inpcb_family_ok (inp : inpcb) (addr : list Z) : bool :=
  if inpcb_addr_is_any addr then true
  else if inpcb_is_v4_mapped addr then negb (i_flags inp &? INPCB_IPV6_ONLY)
  else i_flags inp &? INPCB_IPV6.

(** [p]: what calloc returned; [so]: the socket with the domain of its protocol. *)
Definition inpcb_alloc (p : option Z) (so : option (Z * option Z)) (t : inpcb_table)
  : option (option Z * inpcb_table) :=
  match p with
  | None => Some (None, t)
  | Some p =>
      let v6 := match so with Some (_, Some d) => d =? AF_INET6 | _ => false end in
      let inp := Inpcb in6addr_any in6addr_any 0 0 (if v6 then Z.lor 0 INPCB_IPV6 else 0)
                   IPV4_DEFAULT_TTL 0 (fst <$> so) 0 in
      if bool_decide (p ∈ t_all t) then None
      else Some (Some p, Table (<[p := inp]> (t_pcbs t)) (list_op (InsertTail p) (t_all t))
                           (t_hash t) (t_port_hash t) (t_last_port t))
  end.

Definition pcb_hash (i : inpcb) : Z := inpcb_hash (i_faddr i) (i_fport i) (i_laddr i) (i_lport i).
Definition pcb_port_hash (i : inpcb) : Z := inpcb_port_hash (i_lport i).

Definition inpcb_hash_insert (p : Z) (t : inpcb_table) : option inpcb_table :=
  inp ← t_pcbs t !! p;
  hs ← bucket_insert (t_hash t) (pcb_hash inp) p;
  ps ← bucket_insert (t_port_hash t) (pcb_port_hash inp) p;
  upd_pcb (with_iflags (Z.lor (i_flags inp) INPCB_INHASH)) p
    (Table (t_pcbs t) (t_all t) hs ps (t_last_port t)).

Definition inpcb_hash_remove (p : Z) (t : inpcb_table) : option inpcb_table :=
  inp ← t_pcbs t !! p;
  if negb (i_flags inp &? INPCB_INHASH) then Some t else
  hs ← bucket_remove (t_hash t) (pcb_hash inp) p;
  ps ← bucket_remove (t_port_hash t) (pcb_port_hash inp) p;
  upd_pcb (with_iflags (i_flags inp &~ INPCB_INHASH)) p
    (Table (t_pcbs t) (t_all t) hs ps (t_last_port t)).

Definition inpcb_rehash (p : Z) (t : inpcb_table) : option inpcb_table :=
  t ← inpcb_hash_remove p t; inpcb_hash_insert p t.

Definition inpcb_free (p : Z) (t : inpcb_table) : option inpcb_table :=
  t ← inpcb_hash_remove p t;
  if bool_decide (p ∈ t_all t)
  then Some (Table (delete p (t_pcbs t)) (list_op (Remove p) (t_all t)) (t_hash t)
               (t_port_hash t) (t_last_port t))
  else None.

(** ** Ports *)

Definition inpcb_families_collide (a b : inpcb) : bool :=
  let a4 := negb (i_flags a &? INPCB_IPV6_ONLY) in
  let b4 := negb (i_flags b &? INPCB_IPV6_ONLY) in
  let a6 := i_flags a &? INPCB_IPV6 in
  let b6 := i_flags b &? INPCB_IPV6 in
  (a4 && b4) || (a6 && b6).

Definition inpcb_bindings_overlap (other inp : inpcb) (laddr : list Z) : bool :=
  if negb (inpcb_families_collide other inp) then false
  else inpcb_addr_is_any (i_laddr other) || inpcb_addr_is_any laddr ||
       inpcb_addr_equal (i_laddr other) laddr.

(** The tests of the loop of [inpcb_port_in_use] on one block; [opts] gives the
    option bits of each socket. *)
Definition port_conflict (opts : Z -> Z) (p : Z) (inp : inpcb) (laddr : list Z) (lport : Z)
    (q : Z) (other : inpcb) : bool :=
  if (q =? p) || negb (i_lport other =? lport) then false
  else if (i_flags inp &? INPCB_REUSEPORT) && (i_flags other &? INPCB_REUSEPORT) then false
  else if match i_socket inp with
          | Some so => (opts so &? SO_REUSEADDR) && negb (inpcb_addr_is_any (i_faddr other))
          | None => false
          end then false
  else inpcb_bindings_overlap other inp laddr.

Fixpoint port_scan (opts : Z -> Z) (m : gmap Z inpcb) (p : Z) (inp : inpcb) (laddr : list Z)
    (lport : Z) (b : list Z) : option bool :=
  match b with
  | [] => Some false
  | q :: b =>
      other ← m !! q;
      if port_conflict opts p inp laddr lport q other then Some true
      else port_scan opts m p inp laddr lport b
  end.

Definition inpcb_port_in_use (opts : Z -> Z) (t : inpcb_table) (p : Z) (laddr : list Z) (lport : Z)
  : option bool :=
  inp ← t_pcbs t !! p;
  bucket ← rd (t_port_hash t) (inpcb_port_hash lport);
  port_scan opts (t_pcbs t) p inp laddr lport bucket.

Definition port_range : Z := INPCB_PORT_LAST - INPCB_PORT_FIRST + 1.
Definition ephemeral (offset i : Z) : Z :=
  htons (u16 (INPCB_PORT_FIRST + u32 (offset + i) mod port_range)).

(** The rest of the loop from index [i], with [n] iterations to go. *)
Fixpoint ephemeral_loop (n : nat) (opts : Z -> Z) (t : inpcb_table) (p offset i : Z)
  : option (Z + Z * inpcb_table) :=
  match n with
  | O => Some (inl (- EADDRINUSE))
  | S n =>
      inp ← t_pcbs t !! p;
      let port := ephemeral offset i in
      used ← inpcb_port_in_use opts t p (i_laddr inp) port;
      if negb used then Some (inr (port, with_last_port port t))
      else ephemeral_loop n opts t p offset (i + 1)
  end.

Definition inpcb_alloc_ephemeral_port (opts : Z -> Z) (rnd : Z) (t : inpcb_table) (p : Z)
  : option (Z + Z * inpcb_table) :=
  ephemeral_loop (Z.to_nat port_range) opts t p rnd 0.

(** ** Socket addresses *)

Definition sizeof_sockaddr_in : Z := 16.
Definition sizeof_sockaddr_in6 : Z := 28.

(** [addr] is the memory the argument points to; the result is the error or the
    address and the port. *)
Definition inpcb_sockaddr_to_in6 (inp : inpcb) (addr : list Z) (len : Z)
  : option (Z + list Z * Z) :=
  fam ← slice addr 0 2;
  if (le_val fam =? AF_INET) && (len >=? sizeof_sockaddr_in) then
    if i_flags inp &? INPCB_IPV6 then Some (inl (- EAFNOSUPPORT)) else
    v4 ← slice addr 4 4;
    port ← slice addr 2 2;
    Some (inr (inpcb_map_v4 v4, le_val port))
  else if (le_val fam =? AF_INET6) && (len >=? sizeof_sockaddr_in6) then
    if negb (i_flags inp &? INPCB_IPV6) then Some (inl (- EAFNOSUPPORT)) else
    out ← slice addr 8 16;
    port ← slice addr 2 2;
    if inpcb_is_v4_mapped out && (i_flags inp &? INPCB_IPV6_ONLY)
    then Some (inl (- EAFNOSUPPORT)) else
    Some (inr (out, le_val port))
  else Some (inl (- EINVAL)).

(** The memory [out] points to and the length at [len], after the call. *)
Definition inpcb_fill_sockaddr (inp : inpcb) (addr : list Z) (port : Z) (out : list Z) (len : Z)
  : option (list Z * Z) :=
  let ss := replicate 128 0 in
  '(ss, n) ← (if i_flags inp &? INPCB_IPV6 then
      ss ← splice ss 0 (le_bytes 2 AF_INET6);
      ss ← splice ss 2 (le_bytes 2 port);
      ss ← splice ss 8 addr;
      Some (ss, sizeof_sockaddr_in6)
    else
      ss ← splice ss 0 (le_bytes 2 AF_INET);
      ss ← splice ss 2 (le_bytes 2 port);
      ss ← splice ss 4 (inpcb_unmap_v4 addr);
      Some (ss, sizeof_sockaddr_in));
  src ← slice ss 0 (if len <? n then len else n);
  out ← splice out 0 src;
  Some (out, n).

Definition inpcb_get_sockname (inp : inpcb) (out : list Z) (len : Z) : option (list Z * Z) :=
  inpcb_fill_sockaddr inp (i_laddr inp) (i_lport inp) out len.
Definition inpcb_get_peername (inp : inpcb) (out : list Z) (len : Z) : option (list Z * Z) :=
  inpcb_fill_sockaddr inp (i_faddr inp) (i_fport inp) out len.

(** [inp]: the block of the socket, if it has one. *)
Definition inpcb_pr_name (inp : option inpcb) (addr : list Z) (len : Z) (peer : bool)
  : option (Z + list Z * Z) :=
  match inp with
  | None => Some (inl (- EINVAL))
  | Some inp =>
      if peer && (i_fport inp =? 0) then Some (inl (- ENOTCONN)) else
      r ← (if peer then inpcb_get_peername inp addr len else inpcb_get_sockname inp addr len);
      Some (inr r)
  end.
Definition inpcb_pr_sockaddr (inp : option inpcb) (addr : list Z) (len : Z) :=
  inpcb_pr_name inp addr len false.
Definition inpcb_pr_peeraddr (inp : option inpcb) (addr : list Z) (len : Z) :=
  inpcb_pr_name inp addr len true.

(** ** Demultiplexing *)

Definition same_tuple (faddr : list Z) (fport : Z) (laddr : list Z) (lport : Z) (inp : inpcb) : bool :=
  (i_fport inp =? fport) && (i_lport inp =? lport) &&
  inpcb_addr_equal (i_faddr inp) faddr && inpcb_addr_equal (i_laddr inp) laddr.

Fixpoint exact_scan (m : gmap Z inpcb) (faddr : list Z) (fport : Z) (laddr : list Z) (lport : Z)
    (b : list Z) : option (option Z) :=
  match b with
  | [] => Some None
  | p :: b =>
      inp ← m !! p;
      if same_tuple faddr fport laddr lport inp then Some (Some p)
      else exact_scan m faddr fport laddr lport b
  end.

Definition inpcb_lookup_exact (t : inpcb_table) (faddr : list Z) (fport : Z) (laddr : list Z)
    (lport : Z) : option (option Z) :=
  bucket ← rd (t_hash t) (inpcb_hash faddr fport laddr lport);
  exact_scan (t_pcbs t) faddr fport laddr lport bucket.

Fixpoint wild_scan (m : gmap Z inpcb) (laddr : list Z) (lport : Z) (b : list Z) (wild : option Z)
  : option (option Z) :=
  match b with
  | [] => Some wild
  | p :: b =>
      inp ← m !! p;
      if negb (i_lport inp =? lport) || negb (i_fport inp =? 0) || negb (inpcb_family_ok inp laddr)
      then wild_scan m laddr lport b wild
      else if inpcb_addr_equal (i_laddr inp) laddr then Some (Some p)
      else if inpcb_addr_is_any (i_laddr inp) && negb (bool_decide (is_Some wild))
      then wild_scan m laddr lport b (Some p)
      else wild_scan m laddr lport b wild
  end.

Definition inpcb_lookup_wild (t : inpcb_table) (laddr : list Z) (lport : Z) : option (option Z) :=
  bucket ← rd (t_port_hash t) (inpcb_port_hash lport);
  wild_scan (t_pcbs t) laddr lport bucket None.

Definition inpcb_lookup (t : inpcb_table) (faddr : list Z) (fport : Z) (laddr : list Z) (lport : Z)
    (wildcard : bool) : option (option Z) :=
  inp ← inpcb_lookup_exact t faddr fport laddr lport;
  match inp with
  | Some p => Some (Some p)
  | None => if wildcard then inpcb_lookup_wild t laddr lport else Some None
  end.

(** ** Binding and connecting *)

(** The functions of ipv4.c and ipv6.c that this file calls: which addresses
    are the host's, and the source address for a destination.  Addresses keep
    their size. *)
Class ip_layer := {
  ipv4_is_local : list Z -> bool;
  ipv6_is_local : list Z -> bool;
  ipv4_select_source : list Z -> list Z;
  ipv6_select_source : list Z -> option (list Z);
  ipv4_source_size : forall dst, bytes (ipv4_select_source dst) /\
    length (ipv4_select_source dst) = 4%nat;
  ipv6_source_size : forall dst src, ipv6_select_source dst = Some src ->
    bytes src /\ length src = 16%nat;
}.

Definition inpcb_default_faddr (inp : inpcb) (faddr : list Z) : list Z :=
  if negb (inpcb_addr_is_any faddr) then faddr
  else if i_flags inp &? INPCB_IPV6 then in6addr_loopback
  else inpcb_map_v4 (be_bytes 4 INADDR_LOOPBACK).

Definition inpcb_disconnect (p : Z) (t : inpcb_table) : option inpcb_table :=
  t ← inpcb_hash_remove p t;
  t ← upd_pcb (with_foreign in6addr_any 0) p t;
  inp ← t_pcbs t !! p;
  if negb (i_lport inp =? 0) then inpcb_hash_insert p t else Some t.

(** The block of a connection a listener accepts, in [tcp_input_listen]: the
    addresses of the segment, the listener's port and families. *)
Definition tcp_listen_inpcb (p : Z) (faddr : list Z) (fport : Z) (laddr : list Z) (lp : inpcb)
    (t : inpcb_table) : option inpcb_table :=
  t ← upd_pcb (fun i => with_laddr laddr (with_foreign faddr fport i)) p t;
  t ← upd_pcb (with_lport (i_lport lp)) p t;
  t ← upd_pcb (fun i => with_iflags
        (Z.lor (i_flags i) (Z.land (i_flags lp) (Z.lor INPCB_IPV6 INPCB_IPV6_ONLY))) i) p t;
  inpcb_hash_insert p t.

Section bind.
Context `{ip : ip_layer} (opts : Z -> Z).

Definition inpcb_addr_is_local (addr : list Z) : bool :=
  if inpcb_addr_is_any addr then true
  else if inpcb_is_v4_mapped addr then ipv4_is_local (inpcb_unmap_v4 addr)
  else ipv6_is_local addr.

(** The second half of [inpcb_bind], with the address and port to bind. *)
Definition bind_to (rnd p : Z) (t : inpcb_table) (laddr : list Z) (lport : Z)
  : option (Z * inpcb_table) :=
  used ← (if lport =? 0 then Some false else inpcb_port_in_use opts t p laddr lport);
  if (used : bool) then Some (- EADDRINUSE, t) else
  t ← upd_pcb (with_laddr laddr) p t;
  r ← (if lport =? 0 then inpcb_alloc_ephemeral_port opts rnd t p else Some (inr (lport, t)));
  match r with
  | inl err => t ← upd_pcb (with_laddr in6addr_any) p t; Some (err, t)
  | inr (lport, t) =>
      t ← upd_pcb (with_lport lport) p t;
      t ← inpcb_hash_insert p t;
      Some (0, t)
  end.

Definition inpcb_bind (rnd p : Z) (addr : option (list Z)) (len : Z) (t : inpcb_table)
  : option (Z * inpcb_table) :=
  inp ← t_pcbs t !! p;
  if negb (i_lport inp =? 0) then Some (- EINVAL, t) else
  match addr with
  | None => bind_to rnd p t in6addr_any 0
  | Some addr =>
      r ← inpcb_sockaddr_to_in6 inp addr len;
      match r with
      | inl err => Some (err, t)
      | inr (laddr, lport) =>
          if negb (inpcb_addr_is_local laddr) then Some (- EADDRNOTAVAIL, t)
          else bind_to rnd p t laddr lport
      end
  end.

Definition inpcb_select_source (dst : list Z) : Z + list Z :=
  if inpcb_is_v4_mapped dst then
    let src := ipv4_select_source (inpcb_unmap_v4 dst) in
    if le_val src =? 0 then inl (- EHOSTUNREACH) else inr (inpcb_map_v4 src)
  else match ipv6_select_source dst with
       | None => inl (- EHOSTUNREACH)
       | Some src => inr src
       end.

(** The second half of [inpcb_connect], with the four-tuple but for an
    unassigned local port. *)
Definition connect_to (rnd p : Z) (t : inpcb_table) (inp : inpcb) (faddr : list Z) (fport : Z)
    (laddr : list Z) : option (Z * inpcb_table) :=
  dup ← inpcb_lookup t faddr fport laddr (i_lport inp) false;
  if negb (i_lport inp =? 0) && bool_decide (is_Some dup) && negb (bool_decide (dup = Some p))
  then Some (- EADDRINUSE, t) else
  t ← inpcb_hash_remove p t;
  t ← upd_pcb (with_laddr laddr) p t;
  r ← (if i_lport inp =? 0 then inpcb_alloc_ephemeral_port opts rnd t p
       else Some (inr (i_lport inp, t)));
  match r with
  | inl err => Some (err, t)
  | inr (lport, t) =>
      t ← upd_pcb (with_lport lport) p t;
      t ← upd_pcb (with_foreign faddr fport) p t;
      t ← inpcb_hash_insert p t;
      Some (0, t)
  end.

Definition inpcb_connect (rnd p : Z) (addr : list Z) (len : Z) (t : inpcb_table)
  : option (Z * inpcb_table) :=
  inp ← t_pcbs t !! p;
  r ← inpcb_sockaddr_to_in6 inp addr len;
  match r with
  | inl err => Some (err, t)
  | inr (faddr, fport) =>
      if fport =? 0 then Some (- EADDRNOTAVAIL, t) else
      let faddr := inpcb_default_faddr inp faddr in
      match (if inpcb_addr_is_any (i_laddr inp) then inpcb_select_source faddr
             else inr (i_laddr inp)) with
      | inl err => Some (err, t)
      | inr laddr => connect_to rnd p t inp faddr fport laddr
      end
  end.

End bind.

(** ** The transport checksum and the hand-over to IP *)

Fixpoint l4_fold (fuel : nat) (sum : Z) : option Z :=
  match fuel with
  | O => None
  | S fuel => if Z.shiftr sum 16 =? 0 then Some sum
              else l4_fold fuel (u32 (Z.land sum 0xFFFF + Z.shiftr sum 16))
  end.

Definition inpcb_l4_checksum (nb : list netbuf) (offset len proto : Z) (src dst : list Z)
  : option Z :=
  pseudo ← (if inpcb_is_v4_mapped dst
            then inet_pseudo_checksum4 (inpcb_unmap_v4 src) (inpcb_unmap_v4 dst) proto len
            else inet_pseudo_checksum6 src dst proto len);
  c ← inet_checksum_netbuf nb offset len;
  sum ← l4_fold 4 (u32 (u16 (Z.lnot c) + pseudo));
  Some (Z.land (Z.lnot sum) 0xFFFF).

(** What [inpcb_ip_output] asks of the IP layer. *)
Inductive ip_request :=
| Ipv4Output (src dst : list Z) (proto ttl tos flags : Z)
| Ipv6Output (src dst : list Z) (proto hop_limit traffic_class flags : Z).

Definition inpcb_ip_output (inp : option inpcb) (proto : Z) (src dst : list Z) : ip_request :=
  let ttl := match inp with Some i => i_ttl i | None => IPV4_DEFAULT_TTL end in
  let tos := match inp with Some i => i_tos i | None => 0 end in
  if inpcb_is_v4_mapped dst then
    let flags := match inp with
                 | Some i => if i_flags i &? INPCB_BROADCAST then IPV4_OUTPUT_ALLOW_BCAST else 0
                 | None => 0
                 end in
    Ipv4Output (inpcb_unmap_v4 src) (inpcb_unmap_v4 dst) proto ttl tos flags
  else Ipv6Output src dst proto ttl tos 0.
