(* ===== verification/InpcbFacts.v ===== *)
(** * Control block tables: invariant and correctness

    The invariant of an [inpcb_table] (each hash holds exactly the blocks with
    INPCB_INHASH, each in the bucket of its key), its preservation by every
    operation, and what demultiplexing and binding guarantee. *)

From Stdlib Require Import ZArith Lia.
From stdpp Require Import base option gmap list.
From S2P Require Import Prelude Bytes Dlist Inpcb.
Open Scope Z_scope.
Open Scope hermes_scope.

(** ** Addresses *)

Lemma le_val_inj xs ys : bytes xs -> bytes ys -> length xs = length ys ->
  le_val xs = le_val ys -> xs = ys.
Proof.
  revert ys. induction xs as [| x xs IH]; intros [| y ys] Hx Hy HL HE; try done.
  inversion Hx as [| ? ? Bx Hxs]; subst. inversion Hy as [| ? ? By Hys]; subst.
  cbn [le_val] in HE. unfold is_byte, is_u in *.
  assert (x = y /\ le_val xs = le_val ys) as [-> HE'] by lia.
  f_equal. apply IH; auto.
Qed.

Definition addr_ok (a : list Z) : Prop := bytes a /\ length a = 16%nat.

Lemma addr_words (a : list Z) : length a = 16%nat ->
  a = take 4 (drop 0 a) ++ take 4 (drop 4 a) ++ take 4 (drop 8 a) ++ take 4 (drop 12 a).
Proof. intros H. do 16 (destruct a as [| ? a]; [done |]). by destruct a. Qed.

Lemma word_inj a b i : (i < 4)%nat -> addr_ok a -> addr_ok b -> s6_addr32 a i = s6_addr32 b i ->
  take 4 (drop (4 * i) a) = take 4 (drop (4 * i) b).
Proof.
  intros Hi [Ba La] [Bb Lb] E. apply le_val_inj; try done.
  - by apply Forall_take, Forall_drop.
  - by apply Forall_take, Forall_drop.
  - rewrite !length_take, !length_drop. lia.
Qed.

Lemma addr_equal_spec a b : addr_ok a -> addr_ok b -> inpcb_addr_equal a b = true <-> a = b.
Proof.
  intros Ha Hb. unfold inpcb_addr_equal. cbn [forallb]. rewrite !andb_true_iff, !Z.eqb_eq.
  split; [| intros ->; done]. intros (E0 & E1 & E2 & E3 & _).
  rewrite (addr_words a), (addr_words b) by apply Ha || apply Hb.
  apply (word_inj a b 0) in E0; [| lia | done..]. apply (word_inj a b 1) in E1; [| lia | done..].
  apply (word_inj a b 2) in E2; [| lia | done..]. apply (word_inj a b 3) in E3; [| lia | done..].
  cbn [Nat.mul Nat.add] in *. congruence.
Qed.

Lemma any_ok : addr_ok in6addr_any.
Proof. split; [by apply bytes_check | done]. Qed.

Lemma addr_is_any_spec a : addr_ok a -> inpcb_addr_is_any a = true <-> a = in6addr_any.
Proof.
  intros Ha. rewrite <- (addr_equal_spec a in6addr_any Ha any_ok).
  unfold inpcb_addr_is_any, inpcb_addr_equal. rewrite Z.eqb_eq, !Z.lor_eq_0_iff.
  cbn [forallb]. rewrite !andb_true_iff, !Z.eqb_eq. naive_solver.
Qed.

Lemma map_v4_ok v4 : bytes v4 -> length v4 = 4%nat -> addr_ok (inpcb_map_v4 v4).
Proof.
  intros B L. split; unfold inpcb_map_v4.
  - repeat (apply Forall_app; split); auto using le_bytes_bytes.
  - rewrite !length_app, !le_bytes_length. lia.
Qed.

(** ** The invariant *)

Definition inhash (i : inpcb) : bool := i_flags i &? INPCB_INHASH.

Definition pcb_ok (i : inpcb) : Prop :=
  addr_ok (i_laddr i) /\ addr_ok (i_faddr i) /\ is_u 16 (i_lport i) /\ is_u 16 (i_fport i) /\
  (inhash i = true -> i_lport i <> 0).

(** Every bucket holds, once each, the hashed blocks with its key. *)
Definition buckets_ok (key : inpcb -> Z) (m : gmap Z inpcb) (bs : list (list Z)) : Prop :=
  Z.of_nat (length bs) = INPCB_HASH_SIZE /\
  forall h b, rd bs h = Some b -> NoDup b /\
    forall p, p ∈ b <-> exists i, m !! p = Some i /\ inhash i = true /\ key i = h.

Record table_wf (t : inpcb_table) : Prop := {
  wf_all_nodup : NoDup (t_all t);
  wf_all : forall p, p ∈ t_all t <-> is_Some (t_pcbs t !! p);
  wf_hash : buckets_ok pcb_hash (t_pcbs t) (t_hash t);
  wf_port : buckets_ok pcb_port_hash (t_pcbs t) (t_port_hash t);
  wf_pcbs : forall p i, t_pcbs t !! p = Some i -> pcb_ok i;
}.

Lemma hash_range fa fp la lp : 0 <= inpcb_hash fa fp la lp < INPCB_HASH_SIZE.
Proof. by apply Z.mod_pos_bound. Qed.
Lemma port_hash_range lp : 0 <= inpcb_port_hash lp < INPCB_HASH_SIZE.
Proof. by apply Z.mod_pos_bound. Qed.
Lemma pcb_hash_range i : 0 <= pcb_hash i < INPCB_HASH_SIZE.
Proof. unfold pcb_hash. apply hash_range. Qed.
Lemma pcb_port_hash_range i : 0 <= pcb_port_hash i < INPCB_HASH_SIZE.
Proof. unfold pcb_port_hash. apply port_hash_range. Qed.

Lemma replace_at_remove p b : NoDup b -> p ∈ b ->
  NoDup (replace_at p [] b) /\ forall q, q ∈ replace_at p [] b <-> q ∈ b /\ q <> p.
Proof.
  intros ND (l & r & ->)%list_elem_of_split.
  apply NoDup_app in ND as (NDl & Hd & NDr). inversion NDr as [| ? ? Hp NDr']; subst.
  rewrite replace_at_app by (intros Hl; apply (Hd p Hl); left).
  cbn [app]. split.
  - apply NoDup_app. split; [done |]. split; [| done]. intros x Hx Hr. apply (Hd x Hx). by right.
  - intros q. rewrite !elem_of_app, elem_of_cons. split.
    + intros [H | H]; (split; [by auto |]); intros ->; [apply (Hd p H); left | done].
    + intros [[H | [-> | H]] Hn]; auto. done.
Qed.

Section buckets.
Context (key : inpcb -> Z) (key_range : forall i, 0 <= key i < INPCB_HASH_SIZE).
Implicit Types (m : gmap Z inpcb) (bs : list (list Z)) (i : inpcb).

Lemma buckets_rd m bs i : buckets_ok key m bs -> exists b, rd bs (key i) = Some b.
Proof. intros [HL _]. apply rd_is_Some. rewrite HL. apply key_range. Qed.

(** A change of a block that keeps its place. *)
Lemma buckets_upd m bs p i' : buckets_ok key m bs ->
  match m !! p with
  | Some i => inhash i' = inhash i /\ (inhash i = true -> key i' = key i)
  | None => inhash i' = false
  end -> buckets_ok key (<[p := i']> m) bs.
Proof.
  clear key_range. intros [HL H] Hp. split; [done |]. intros h b Hb. destruct (H h b Hb) as [ND HE].
  split; [done |]. intros q. rewrite HE. destruct (decide (q = p)) as [-> | Hn].
  - rewrite lookup_insert_eq. destruct (m !! p) as [i |]; [| naive_solver congruence].
    destruct Hp as [E1 E2]. split.
    + intros (? & [= <-] & ? & ?). exists i'. rewrite E1, E2; auto.
    + intros (? & [= <-] & ? & ?). exists i. rewrite E1 in *. rewrite <- E2; auto.
  - by rewrite lookup_insert_ne by done.
Qed.

Lemma buckets_delete m bs p i : buckets_ok key m bs -> m !! p = Some i -> inhash i = false ->
  buckets_ok key (delete p m) bs.
Proof.
  clear key_range. intros [HL H] Hp Hi. split; [done |]. intros h b Hb. destruct (H h b Hb) as [ND HE].
  split; [done |]. intros q. rewrite HE. destruct (decide (q = p)) as [-> | Hn].
  - rewrite lookup_delete_eq. naive_solver congruence.
  - by rewrite lookup_delete_ne by done.
Qed.

Lemma bucket_insert_spec m bs p i i' : buckets_ok key m bs -> m !! p = Some i ->
  inhash i = false -> inhash i' = true -> key i' = key i ->
  exists bs', bucket_insert bs (key i) p = Some bs' /\ buckets_ok key (<[p := i']> m) bs'.
Proof.
  intros Hok Hp Hi Hi' Hk. destruct (buckets_rd m bs i Hok) as [b Hb]. destruct Hok as [HL H].
  assert (HN : forall h b, rd bs h = Some b -> p ∉ b).
  { intros h c Hc Hin. apply (H h c Hc) in Hin as (? & ? & ? & _). congruence. }
  unfold bucket_insert. rewrite Hb, option_bind_Some_fun.
  replace (existsb _ bs) with false; cycle 1.
  { symmetry. apply not_true_is_false. intros (c & Hc & Hin)%existsb_exists.
    apply bool_decide_eq_true in Hin. apply list_elem_of_In, list_elem_of_lookup_1 in Hc as [k Hk'].
    apply (HN (Z.of_nat k) c); [| done]. unfold rd.
    destruct (Z.ltb_spec (Z.of_nat k) 0); [lia |]. by rewrite Nat2Z.id. }
  pose proof (rd_Some_range _ _ _ Hb). rewrite wr_is_Some by done. eexists. split; [done |].
  split; [by rewrite length_insert |]. intros h c.
  rewrite (rd_wr bs (key i) (list_op (InsertTail p) b)) by (by apply wr_is_Some).
  destruct (H (key i) b Hb) as [ND HE]. destruct (Z.eqb_spec h (key i)) as [-> | Hn].
  - intros [= <-]. cbn [list_op]. split.
    + apply NoDup_app. split; [done |]. split; [| apply NoDup_singleton].
      intros q Hq ->%list_elem_of_singleton. by apply (HN _ _ Hb).
    + intros q. rewrite elem_of_app, list_elem_of_singleton, HE.
      destruct (decide (q = p)) as [-> | Hq]; [rewrite lookup_insert_eq; naive_solver |].
      rewrite lookup_insert_ne by done. naive_solver.
  - intros Hc. destruct (H h c Hc) as [NDc HEc]. split; [done |]. intros q. rewrite HEc.
    destruct (decide (q = p)) as [-> | Hq]; [rewrite lookup_insert_eq; naive_solver congruence |].
    by rewrite lookup_insert_ne by done.
Qed.

Lemma bucket_remove_spec m bs p i i' : buckets_ok key m bs -> m !! p = Some i ->
  inhash i = true -> inhash i' = false ->
  exists bs', bucket_remove bs (key i) p = Some bs' /\ buckets_ok key (<[p := i']> m) bs'.
Proof.
  intros Hok Hp Hi Hi'. destruct (buckets_rd m bs i Hok) as [b Hb]. destruct Hok as [HL H].
  destruct (H (key i) b Hb) as [ND HE].
  assert (Hin : p ∈ b) by (apply HE; eauto).
  unfold bucket_remove. rewrite Hb, option_bind_Some_fun, bool_decide_eq_true_2 by done.
  pose proof (rd_Some_range _ _ _ Hb). rewrite wr_is_Some by done. eexists. split; [done |].
  split; [by rewrite length_insert |]. intros h c.
  rewrite (rd_wr bs (key i) (list_op (Remove p) b)) by (by apply wr_is_Some).
  destruct (replace_at_remove p b ND Hin) as [NDr HEr].
  destruct (Z.eqb_spec h (key i)) as [-> | Hn].
  - intros [= <-]. cbn [list_op]. split; [done |]. intros q. rewrite HEr, HE.
    destruct (decide (q = p)) as [-> | Hq]; [rewrite lookup_insert_eq; naive_solver congruence |].
    rewrite lookup_insert_ne by done. naive_solver.
  - intros Hc. destruct (H h c Hc) as [NDc HEc]. split; [done |]. intros q. rewrite HEc.
    destruct (decide (q = p)) as [-> | Hq]; [rewrite lookup_insert_eq; naive_solver congruence |].
    by rewrite lookup_insert_ne by done.
Qed.
End buckets.

(** ** Operations on the hashes *)

#[local] Opaque inpcb_hash inpcb_port_hash.

Lemma inhash_bit i : inhash i = Z.testbit (i_flags i) 5.
Proof.
  unfold inhash. change INPCB_INHASH with (Z.shiftl 1 5).
  rewrite land_bit_eqb by lia. apply negb_involutive.
Qed.

Lemma inhash_set i : inhash (with_iflags (Z.lor (i_flags i) INPCB_INHASH) i) = true.
Proof. rewrite inhash_bit. cbn [i_flags with_iflags]. rewrite Z.lor_spec. apply orb_true_r. Qed.
Lemma inhash_clear i : inhash (with_iflags (i_flags i &~ INPCB_INHASH) i) = false.
Proof. rewrite inhash_bit. cbn [i_flags with_iflags]. rewrite Z.ldiff_spec. apply andb_false_r. Qed.

Lemma pcb_ok_flags i f : pcb_ok i ->
  (inhash (with_iflags f i) = true -> i_lport i <> 0) -> pcb_ok (with_iflags f i).
Proof. intros (? & ? & ? & ? & _) ?. by repeat (split; [done |]). Qed.

Definition hashed (i : inpcb) : inpcb := with_iflags (Z.lor (i_flags i) INPCB_INHASH) i.
Definition unhashed (i : inpcb) : inpcb := with_iflags (i_flags i &~ INPCB_INHASH) i.

(** [t'] is [t] with the block at [p] replaced by [i]; the hashes follow. *)
Definition replaced (t t' : inpcb_table) (p : Z) (i : inpcb) : Prop :=
  table_wf t' /\ t_pcbs t' = <[p := i]> (t_pcbs t).

Lemma wf_insert t p i i' hs ps lp : table_wf t -> t_pcbs t !! p = Some i -> pcb_ok i' ->
  buckets_ok pcb_hash (<[p := i']> (t_pcbs t)) hs ->
  buckets_ok pcb_port_hash (<[p := i']> (t_pcbs t)) ps ->
  replaced t (Table (<[p := i']> (t_pcbs t)) (t_all t) hs ps lp) p i'.
Proof.
  intros [ND HA HH HP HO] Hp Hok H1 H2. split; [| done]. constructor; cbn; try done.
  - intros q. rewrite HA. destruct (decide (q = p)) as [-> |].
    + rewrite lookup_insert_eq, Hp. split; eauto.
    + by rewrite lookup_insert_ne.
  - intros q j [[-> ->] | [? ?]]%lookup_insert_Some; eauto.
Qed.

Lemma hash_insert_spec t p i : table_wf t -> t_pcbs t !! p = Some i -> inhash i = false ->
  i_lport i <> 0 ->
  exists t', inpcb_hash_insert p t = Some t' /\ replaced t t' p (hashed i).
Proof.
  intros Hwf Hp Hi Hl. unfold inpcb_hash_insert. rewrite Hp, option_bind_Some_fun.
  destruct (bucket_insert_spec pcb_hash pcb_hash_range (t_pcbs t) (t_hash t) p i (hashed i))
    as (hs & -> & Hhs); try done; [apply Hwf | apply inhash_set |].
  destruct (bucket_insert_spec pcb_port_hash pcb_port_hash_range (t_pcbs t) (t_port_hash t) p i
    (hashed i)) as (ps & -> & Hps); try done; [apply Hwf | apply inhash_set |].
  rewrite !option_bind_Some_fun. unfold upd_pcb. cbn [t_pcbs]. rewrite Hp.
  rewrite option_bind_Some_fun. eexists. split; [done |].
  apply (wf_insert t p i (hashed i)); try done. by apply pcb_ok_flags; [apply (wf_pcbs t Hwf p) |].
Qed.

Lemma hash_remove_spec t p i : table_wf t -> t_pcbs t !! p = Some i ->
  exists t' i', inpcb_hash_remove p t = Some t' /\ replaced t t' p i' /\ inhash i' = false /\
    i' = (if inhash i then unhashed i else i).
Proof.
  intros Hwf Hp. unfold inpcb_hash_remove. rewrite Hp, option_bind_Some_fun. fold (inhash i).
  destruct (inhash i) eqn:Hi; cbn [negb].
  - destruct (bucket_remove_spec pcb_hash pcb_hash_range (t_pcbs t) (t_hash t) p i (unhashed i))
      as (hs & -> & Hhs); try done; [apply Hwf | apply inhash_clear |].
    destruct (bucket_remove_spec pcb_port_hash pcb_port_hash_range (t_pcbs t) (t_port_hash t) p i
      (unhashed i)) as (ps & -> & Hps); try done; [apply Hwf | apply inhash_clear |].
    rewrite !option_bind_Some_fun. unfold upd_pcb. cbn [t_pcbs]. rewrite Hp, option_bind_Some_fun.
    eexists _, (unhashed i). split; [done |]. split; [| by split; [apply inhash_clear |]].
    apply (wf_insert t p i (unhashed i)); try done.
    apply pcb_ok_flags; [by apply (wf_pcbs t Hwf p) |]. by rewrite inhash_clear.
  - exists t, i. split; [done |]. split; [| done]. split; [done |]. by rewrite insert_id.
Qed.

(** Assignments to a block that is in no hash. *)
Lemma upd_pcb_spec t p i f : table_wf t -> t_pcbs t !! p = Some i -> inhash i = false ->
  pcb_ok (f i) -> inhash (f i) = false ->
  exists t', upd_pcb f p t = Some t' /\ replaced t t' p (f i) /\ t_last_port t' = t_last_port t.
Proof.
  intros Hwf Hp Hi Hok Hf. unfold upd_pcb. rewrite Hp, option_bind_Some_fun. eexists.
  split; [done |]. split; [| done].
  apply (wf_insert t p i); try done; 
    (apply buckets_upd; [by apply wf_hash || by apply wf_port |]); rewrite Hp; split; congruence.
Qed.

(** A change that keeps the place of the block, hashed or not. *)
Lemma upd_pcb_keep t p i f : table_wf t -> t_pcbs t !! p = Some i -> pcb_ok (f i) ->
  inhash (f i) = inhash i -> pcb_hash (f i) = pcb_hash i -> pcb_port_hash (f i) = pcb_port_hash i ->
  exists t', upd_pcb f p t = Some t' /\ replaced t t' p (f i).
Proof.
  intros Hwf Hp Hok Hf Hk1 Hk2. unfold upd_pcb. rewrite Hp, option_bind_Some_fun. eexists.
  split; [done |]. apply (wf_insert t p i); try done; apply buckets_upd; rewrite ?Hp;
    try done; by apply wf_hash || by apply wf_port.
Qed.

Lemma replaced_lookup t t' p i : replaced t t' p i -> t_pcbs t' !! p = Some i.
Proof. intros [_ ->]. apply lookup_insert_eq. Qed.

(** Whose block it is did not change. *)
Record same_owner (i i' : inpcb) : Prop := {
  so_socket : i_socket i' = i_socket i;
  so_ppcb : i_ppcb i' = i_ppcb i;
  so_detached : (i_flags i' &? INPCB_DETACHED)%hermes = (i_flags i &? INPCB_DETACHED)%hermes;
}.

Lemma owner_trans i1 i2 i3 : same_owner i1 i2 -> same_owner i2 i3 -> same_owner i1 i3.
Proof. intros [] []. constructor; congruence. Qed.
Lemma owner_hashed i : same_owner i (hashed i).
Proof. constructor; [done | done |]. by apply flag_lor_other. Qed.
Lemma owner_unhashed i : same_owner i (unhashed i).
Proof. constructor; [done | done |]. by apply flag_ldiff_other. Qed.

Lemma replaced_trans t t1 t2 p i j : replaced t t1 p i -> replaced t1 t2 p j -> replaced t t2 p j.
Proof. intros [_ E1] [Hwf E2]. split; [done |]. rewrite E2, E1. apply insert_insert_eq. Qed.

Lemma wf_last_port t port : table_wf t -> table_wf (with_last_port port t).
Proof. intros []. by constructor. Qed.

Definition fresh_pcb (so : option (Z * option Z)) : inpcb :=
  let v6 := match so with Some (_, Some d) => d =? AF_INET6 | _ => false end in
  Inpcb in6addr_any in6addr_any 0 0 (if v6 then Z.lor 0 INPCB_IPV6 else 0) IPV4_DEFAULT_TTL 0 (fst <$> so) 0.

Lemma fresh_pcb_inhash so : inhash (fresh_pcb so) = false.
Proof. unfold fresh_pcb, inhash. by destruct so as [[? [d |]] |]; try destruct (d =? AF_INET6). Qed.

Lemma alloc_new t p so : table_wf t -> t_pcbs t !! p = None ->
  exists t', inpcb_alloc (Some p) so t = Some (Some p, t') /\ replaced t t' p (fresh_pcb so).
Proof.
  intros Hwf Hp.
  assert (HN : p ∉ t_all t). { intros Hin. apply (wf_all t Hwf) in Hin. rewrite Hp in Hin. by destruct Hin. }
  cbn. rewrite bool_decide_eq_false_2 by done. eexists. split; [done |]. fold (fresh_pcb so).
  pose proof (fresh_pcb_inhash so) as Hi. split; [| done]. constructor; cbn.
  - apply NoDup_app. split; [apply Hwf |]. split; [| apply NoDup_singleton].
    by intros q Hq ->%list_elem_of_singleton.
  - intros q. rewrite elem_of_app, list_elem_of_singleton, (wf_all t Hwf).
    destruct (decide (q = p)) as [-> |]; [rewrite lookup_insert_eq; naive_solver |].
    rewrite lookup_insert_ne by done. naive_solver.
  - apply buckets_upd; [by apply wf_hash || by apply wf_port |]. by rewrite Hp.
  - apply buckets_upd; [by apply wf_hash || by apply wf_port |]. by rewrite Hp.
  - intros q j [[-> <-] | [? ?]]%lookup_insert_Some; [| by eapply Hwf].
    split; [apply any_ok |]. split; [apply any_ok |]. split; [done |]. split; [done |].
    intros E. change (inhash (fresh_pcb so) = true) in E. congruence.
Qed.

Lemma alloc_spec t p so : table_wf t -> (forall q, p = Some q -> t_pcbs t !! q = None) ->
  exists r t', inpcb_alloc p so t = Some (r, t') /\ table_wf t'.
Proof.
  intros Hwf Hp. destruct p as [p |]; [| cbn; eauto].
  destruct (alloc_new t p so Hwf (Hp p eq_refl)) as (t' & E & R). do 2 eexists. split; [exact E | apply R].
Qed.

Lemma free_spec t p i : table_wf t -> t_pcbs t !! p = Some i ->
  exists t', inpcb_free p t = Some t' /\ table_wf t' /\ t_pcbs t' = delete p (t_pcbs t).
Proof.
  intros Hwf Hp. destruct (hash_remove_spec t p i Hwf Hp) as (t1 & i1 & E & [Hwf1 Hm] & Hi & _).
  unfold inpcb_free. rewrite E, option_bind_Some_fun.
  assert (Hp1 : t_pcbs t1 !! p = Some i1) by (rewrite Hm; apply lookup_insert_eq).
  assert (Hin : p ∈ t_all t1) by (apply (wf_all t1 Hwf1); eauto).
  rewrite bool_decide_eq_true_2 by done.
  eexists. split; [done |]. split; [| cbn; rewrite Hm; apply delete_insert_eq].
  destruct (replace_at_remove p _ (wf_all_nodup t1 Hwf1) Hin) as [ND HE].
  constructor; cbn; try done.
  - intros q. rewrite HE, (wf_all t1 Hwf1). destruct (decide (q = p)) as [-> |].
    + rewrite lookup_delete_eq. split; [naive_solver | intros []; done].
    + rewrite lookup_delete_ne by done. naive_solver.
  - eapply buckets_delete; [by apply wf_hash || by apply wf_port | done..].
  - eapply buckets_delete; [by apply wf_hash || by apply wf_port | done..].
  - intros q j [_ Hq]%lookup_delete_Some. by eapply Hwf1.
Qed.

Lemma disconnect_spec t p i : table_wf t -> t_pcbs t !! p = Some i ->
  exists t', inpcb_disconnect p t = Some t' /\ table_wf t'.
Proof.
  intros Hwf Hp. destruct (hash_remove_spec t p i Hwf Hp) as (t1 & i1 & E & R1 & Hi & _).
  unfold inpcb_disconnect. rewrite E, option_bind_Some_fun.
  pose proof (replaced_lookup _ _ _ _ R1) as Hp1.
  destruct (wf_pcbs t1 (proj1 R1) p i1 Hp1) as (? & ? & ? & ? & ?).
  destruct (upd_pcb_spec t1 p i1 (with_foreign in6addr_any 0)) as (t2 & E2 & R2 & _);
    try done; [apply R1 | by split_and!; [| apply any_ok | | |] |].
  rewrite E2, option_bind_Some_fun, (replaced_lookup _ _ _ _ R2), option_bind_Some_fun.
  destruct (Z.eqb_spec (i_lport i1) 0); cbn [negb i_lport with_foreign].
  - destruct (Z.eqb_spec (i_lport i1) 0); [| done]. exists t2. split; [done | apply R2].
  - destruct (Z.eqb_spec (i_lport i1) 0); [done |].
    destruct (hash_insert_spec t2 p _ (proj1 R2) (replaced_lookup _ _ _ _ R2)) as (t3 & E3 & R3); try done.
    exists t3. split; [done | apply R3].
Qed.

(** ** Demultiplexing *)

Lemma bucket_members key m bs h b p : buckets_ok key m bs -> rd bs h = Some b -> p ∈ b ->
  is_Some (m !! p).
Proof. intros [_ H] Hb Hp. apply (H h b Hb) in Hp as (i & Hi & _). eauto. Qed.

Lemma exact_scan_spec m fa fp la lp b : (forall q, q ∈ b -> is_Some (m !! q)) ->
  exists r, exact_scan m fa fp la lp b = Some r /\
    match r with
    | Some p => exists i, p ∈ b /\ m !! p = Some i /\ same_tuple fa fp la lp i = true
    | None => forall q i, q ∈ b -> m !! q = Some i -> same_tuple fa fp la lp i = false
    end.
Proof.
  induction b as [| p b IH]; intros Hb; cbn [exact_scan].
  { exists None. split; [done |]. intros q i Hq. by apply elem_of_nil in Hq. }
  destruct (Hb p ltac:(left)) as [i Hi]. rewrite Hi, option_bind_Some_fun.
  destruct (same_tuple fa fp la lp i) eqn:E.
  - exists (Some p). split; [done |]. exists i. split; [left | done].
  - destruct IH as (r & -> & Hr); [intros q Hq; apply Hb; by right |]. exists r. split; [done |].
    destruct r as [r |].
    + destruct Hr as (j & ? & ?). exists j. split; [by right | done].
    + intros q j [-> | Hq]%elem_of_cons; [congruence | eauto].
Qed.

(** The blocks that may take a packet for an unconnected endpoint. *)
Definition listens (laddr : list Z) (lport : Z) (i : inpcb) : bool :=
  (i_lport i =? lport) && (i_fport i =? 0) && inpcb_family_ok i laddr.

Lemma wild_scan_spec m la lp b w : (forall q, q ∈ b -> is_Some (m !! q)) ->
  exists r, wild_scan m la lp b w = Some r /\
    ((exists p i, r = Some p /\ p ∈ b /\ m !! p = Some i /\ listens la lp i = true /\
       inpcb_addr_equal (i_laddr i) la = true) \/
     (forall q j, q ∈ b -> m !! q = Some j -> listens la lp j = true ->
        inpcb_addr_equal (i_laddr j) la = false) /\
     ((w = r /\ (w = None -> forall q j, q ∈ b -> m !! q = Some j -> listens la lp j = true ->
         inpcb_addr_is_any (i_laddr j) = false)) \/
      (w = None /\ exists p i, r = Some p /\ p ∈ b /\ m !! p = Some i /\ listens la lp i = true /\
         inpcb_addr_is_any (i_laddr i) = true))).
Proof.
  revert w. induction b as [| p b IH]; intros w Hb; cbn [wild_scan].
  { exists w. split; [done |]. right. split; [intros q j Hq; by apply elem_of_nil in Hq |].
    left. split; [done |]. intros _ q j Hq. by apply elem_of_nil in Hq. }
  destruct (Hb p ltac:(left)) as [i Hi]. rewrite Hi, option_bind_Some_fun.
  assert (Hl : negb (i_lport i =? lp) || negb (i_fport i =? 0) || negb (inpcb_family_ok i la)
    = negb (listens la lp i)) by (unfold listens; by rewrite !negb_andb).
  rewrite Hl. clear Hl. assert (Hb' : forall q, q ∈ b -> is_Some (m !! q)) by (intros; apply Hb; by right).
  destruct (listens la lp i) eqn:EL; cbn [negb].
  - destruct (inpcb_addr_equal (i_laddr i) la) eqn:EA.
    { exists (Some p). split; [done |]. left. exists p, i. repeat split; try done. left. }
    destruct (inpcb_addr_is_any (i_laddr i) && _) eqn:EW.
    + apply andb_true_iff in EW as [EW Hw]. apply negb_true_iff, bool_decide_eq_false in Hw.
      apply eq_None_not_Some in Hw. destruct (IH (Some p) Hb') as (r & -> & Hr). exists r.
      split; [done |]. destruct Hr as [(q & j & ? & ? & ?) | [H1 H2]];
        [left; exists q, j; split; [done |]; split; [by right | done] | right].
      split; [intros q j [-> | Hq]%elem_of_cons; [congruence | eauto] |].
      destruct H2 as [[<- _] | [? _]]; [| done]. right. split; [done |]. exists p, i. repeat split; try done. left.
    + destruct (IH w Hb') as (r & -> & Hr). exists r. split; [done |].
      destruct Hr as [(q & j & ? & ? & ?) | [H1 H2]];
        [left; exists q, j; split; [done |]; split; [by right | done] | right].
      split; [intros q j [-> | Hq]%elem_of_cons; [congruence | eauto] |].
      destruct H2 as [[<- H2] | [-> (q & j & ? & ? & ?)]].
      * left. split; [done |]. intros -> q j [-> | Hq]%elem_of_cons; [| by eauto].
        intros ? _. rewrite andb_true_r in EW. congruence.
      * right. split; [done |]. exists q, j. split; [done |]. split; [by right | done].
  - destruct (IH w Hb') as (r & -> & Hr). exists r. split; [done |].
    destruct Hr as [(q & j & ? & ? & ?) | [H1 H2]];
      [left; exists q, j; split; [done |]; split; [by right | done] | right].
    split; [intros q j [-> | Hq]%elem_of_cons; [congruence | eauto] |].
    destruct H2 as [[<- H2] | [-> (q & j & ? & ? & ?)]].
    + left. split; [done |]. intros ? q j [-> | Hq]%elem_of_cons; [congruence | eauto].
    + right. split; [done |]. exists q, j. split; [done |]. split; [by right | done].
Qed.

(** ** Ports *)

(** Some hashed block other than [p] conflicts with binding [p] to the address
    and port. *)
Definition port_taken (opts : Z -> Z) (m : gmap Z inpcb) (p : Z) (i : inpcb) (laddr : list Z)
    (lport : Z) : Prop :=
  exists q o, m !! q = Some o /\ inhash o = true /\
    port_conflict opts p i laddr lport q o = true.

Lemma port_conflict_facts opts p i la lp q o : port_conflict opts p i la lp q o = true ->
  q <> p /\ i_lport o = lp.
Proof.
  unfold port_conflict. destruct (Z.eqb_spec q p), (Z.eqb_spec (i_lport o) lp); cbn; done.
Qed.

(** Only the flags and the socket of the block itself matter. *)
Lemma port_taken_ext opts m p i j la lp : i_flags j = i_flags i -> i_socket j = i_socket i ->
  port_taken opts (<[p := j]> m) p j la lp <-> port_taken opts m p i la lp.
Proof.
  intros Ef Es. assert (E : forall q o, port_conflict opts p j la lp q o = port_conflict opts p i la lp q o).
  { intros. unfold port_conflict, inpcb_bindings_overlap, inpcb_families_collide. by rewrite Ef, Es. }
  split; intros (q & o & Hq & Ho & HC); pose proof (port_conflict_facts _ _ _ _ _ _ _ HC) as [Hn _];
    exists q, o; [rewrite lookup_insert_ne, E in * by done | rewrite lookup_insert_ne, E by done]; done.
Qed.

Lemma port_scan_spec opts m p i la lp b : (forall q, q ∈ b -> is_Some (m !! q)) ->
  exists u, port_scan opts m p i la lp b = Some u /\
    (u = true <-> exists q o, q ∈ b /\ m !! q = Some o /\ port_conflict opts p i la lp q o = true).
Proof.
  induction b as [| q b IH]; intros Hb; cbn [port_scan].
  { exists false. split; [done |]. split; [done |]. intros (? & ? & H & _). by apply elem_of_nil in H. }
  destruct (Hb q ltac:(left)) as [o Ho]. rewrite Ho, option_bind_Some_fun.
  destruct (port_conflict opts p i la lp q o) eqn:E.
  - exists true. split; [done |]. split; [| done]. intros _. exists q, o. split; [left | done].
  - destruct IH as (u & -> & Hu); [intros; apply Hb; by right |]. exists u. split; [done |].
    rewrite Hu. split; intros (r & o' & Hr & H1 & H2).
    + exists r, o'. split; [by right | done].
    + apply elem_of_cons in Hr as [-> | Hr]; [congruence | eauto].
Qed.

Lemma port_in_use_spec opts t p i la lp : table_wf t -> t_pcbs t !! p = Some i ->
  exists u, inpcb_port_in_use opts t p la lp = Some u /\
    (u = true <-> port_taken opts (t_pcbs t) p i la lp).
Proof.
  intros Hwf Hp. unfold inpcb_port_in_use. rewrite Hp, option_bind_Some_fun.
  assert (exists b, rd (t_port_hash t) (inpcb_port_hash lp) = Some b) as [b Hb].
  { apply rd_is_Some. rewrite (proj1 (wf_port t Hwf)). apply port_hash_range. }
  rewrite Hb, option_bind_Some_fun.
  destruct (port_scan_spec opts (t_pcbs t) p i la lp b) as (u & -> & Hu).
  { intros q Hq. by apply (bucket_members _ _ _ _ _ _ (wf_port t Hwf) Hb). }
  exists u. split; [done |]. rewrite Hu. destruct (proj2 (wf_port t Hwf) _ _ Hb) as [_ HE].
  split; intros (q & o & H1 & H2 & H3).
  - apply HE in H1 as (o' & Ho & Hi & _). exists q, o. split; [done |]. split; [congruence | done].
  - exists q, o. split; [| done]. apply HE. exists o. split; [done |]. split; [done |].
    apply port_conflict_facts in H3 as [_ <-]. done.
Qed.

Lemma htons_unfold v : 0 <= v < 65536 -> htons v = v / 256 + 256 * (v mod 256).
Proof.
  intros Hv. unfold htons, be_bytes. cbn [le_bytes rev app le_val].
  rewrite (Z.mod_small (v / 256)) by (split; [apply Z.div_pos | apply Z.div_lt_upper_bound]; lia). lia.
Qed.

Lemma ntohs_htons v : 0 <= v < 65536 -> ntohs (htons v) = v.
Proof.
  intros Hv. change ntohs with htons. pose proof (Z.mod_pos_bound v 256 ltac:(lia)).
  assert (0 <= v / 256 < 256) by (split; [apply Z.div_pos | apply Z.div_lt_upper_bound]; lia).
  rewrite (htons_unfold v) by done. rewrite htons_unfold by lia.
  pose proof (Z.div_mod v 256 ltac:(lia)).
  set (a := v / 256) in *. set (b := v mod 256) in *.
  rewrite (Z.mul_comm 256 b), Z.div_add, Z.mod_add, (Z.div_small a), (Z.mod_small a) by lia. lia.
Qed.

Lemma htons_range v : is_u 16 (htons v).
Proof.
  unfold htons, is_u. pose proof (le_val_range _ (be_bytes_bytes 2 v)) as H.
  rewrite be_bytes_length in H. exact H.
Qed.

Lemma ephemeral_value offset k :
  ephemeral offset k = htons (INPCB_PORT_FIRST + (offset + k) mod port_range).
Proof.
  unfold ephemeral. pose proof (Z.mod_pos_bound (offset + k) port_range ltac:(done)).
  replace (u32 (offset + k) mod port_range) with ((offset + k) mod port_range).
  - f_equal. apply u16_small. unfold port_range, INPCB_PORT_FIRST, INPCB_PORT_LAST in *. lia.
  - unfold u32, wrap. symmetry. apply Z.mod_mod_divide. by exists (2 ^ 18).
Qed.

Lemma ephemeral_range offset k : is_u 16 (ephemeral offset k) /\ ephemeral offset k <> 0 /\
  INPCB_PORT_FIRST <= ntohs (ephemeral offset k) <= INPCB_PORT_LAST.
Proof.
  rewrite ephemeral_value. pose proof (Z.mod_pos_bound (offset + k) port_range ltac:(done)).
  set (v := (offset + k) mod port_range) in *.
  unfold port_range, INPCB_PORT_FIRST, INPCB_PORT_LAST in *.
  assert (E : ntohs (htons (49152 + v)) = 49152 + v) by (apply ntohs_htons; lia).
  split; [apply htons_range |]. rewrite E. split; [| lia]. intros Z0. rewrite Z0 in E.
  change (ntohs 0) with 0 in E. lia.
Qed.

(** The ports tried are all the ephemeral ones, whatever the random offset. *)
Lemma ephemeral_covers offset v : INPCB_PORT_FIRST <= v <= INPCB_PORT_LAST ->
  exists k, 0 <= k < port_range /\ ephemeral offset k = htons v.
Proof.
  intros Hv. exists ((v - INPCB_PORT_FIRST - offset) mod port_range).
  split; [by apply Z.mod_pos_bound |]. rewrite ephemeral_value, Z.add_mod_idemp_r by done.
  replace (offset + (v - INPCB_PORT_FIRST - offset)) with (v - INPCB_PORT_FIRST) by lia.
  f_equal. rewrite Z.mod_small; [lia |]. unfold port_range. lia.
Qed.

Lemma ephemeral_loop_spec n opts t p i off k : table_wf t -> t_pcbs t !! p = Some i ->
  exists r, ephemeral_loop n opts t p off k = Some r /\
    match r with
    | inl e => e = - EADDRINUSE /\ forall j, k <= j < k + Z.of_nat n ->
        port_taken opts (t_pcbs t) p i (i_laddr i) (ephemeral off j)
    | inr (port, t') => exists j, k <= j < k + Z.of_nat n /\ port = ephemeral off j /\
        ~ port_taken opts (t_pcbs t) p i (i_laddr i) port /\ t' = with_last_port port t
    end.
Proof.
  intros Hwf Hp. revert k. induction n as [| n IH]; intros k; cbn [ephemeral_loop].
  { eexists. split; [done |]. split; [done |]. lia. }
  rewrite Hp, option_bind_Some_fun.
  destruct (port_in_use_spec opts t p i (i_laddr i) (ephemeral off k) Hwf Hp) as (u & -> & Hu).
  rewrite option_bind_Some_fun. destruct u; cbn [negb].
  - destruct (IH (k + 1)) as (r & -> & Hr). exists r. split; [done |].
    destruct r as [e | [port t']].
    + destruct Hr as [-> Hr]. split; [done |]. intros j Hj. destruct (decide (j = k)) as [-> |].
      * by apply Hu.
      * apply Hr. lia.
    + destruct Hr as (j & ? & ?). exists j. split; [lia | done].
  - eexists. split; [done |]. exists k. split; [lia |]. split; [done |]. split; [| done].
    intros HT. by apply Hu in HT.
Qed.

(** ** Binding and connecting *)

Lemma unbound_unhashed t p i : table_wf t -> t_pcbs t !! p = Some i -> i_lport i = 0 ->
  inhash i = false.
Proof.
  intros Hwf Hp Hl. destruct (wf_pcbs t Hwf p i Hp) as (_ & _ & _ & _ & H).
  destruct (inhash i); [| done]. by specialize (H eq_refl).
Qed.

Lemma replaced_last_port t t' p i port : replaced t t' p i ->
  replaced t (with_last_port port t') p i.
Proof. intros [H E]. split; [by apply wf_last_port | done]. Qed.

Lemma pcb_ok_laddr i a : pcb_ok i -> addr_ok a -> pcb_ok (with_laddr a i).
Proof. intros (? & ? & ? & ? & ?) ?. by repeat (split; [done |]). Qed.
Lemma pcb_ok_lport i port : pcb_ok i -> inhash i = false -> is_u 16 port -> pcb_ok (with_lport port i).
Proof.
  intros (? & ? & ? & ? & ?) E ?. repeat (split; [done |]).
  change (inhash (with_lport port i)) with (inhash i). congruence.
Qed.
Lemma pcb_ok_foreign i a port : pcb_ok i -> addr_ok a -> is_u 16 port -> pcb_ok (with_foreign a port i).
Proof. intros (? & ? & ? & ? & ?) ??. by repeat (split; [done |]). Qed.

(** What binding [p] to an address and a port (0: any ephemeral one) does. *)
Definition bind_outcome (opts : Z -> Z) (t : inpcb_table) (p : Z) (i : inpcb) (laddr : list Z)
    (lport r : Z) (t' : inpcb_table) : Prop :=
  (r = 0 /\ exists port, replaced t t' p (hashed (with_lport port (with_laddr laddr i))) /\
     port <> 0 /\ ~ port_taken opts (t_pcbs t) p i laddr port /\
     (if lport =? 0 then INPCB_PORT_FIRST <= ntohs port <= INPCB_PORT_LAST else port = lport)) \/
  (r = - EADDRINUSE /\
     if lport =? 0 then replaced t t' p (with_laddr in6addr_any i) /\
       forall v, INPCB_PORT_FIRST <= v <= INPCB_PORT_LAST ->
         port_taken opts (t_pcbs t) p i laddr (htons v)
     else t' = t /\ port_taken opts (t_pcbs t) p i laddr lport).

Lemma set_lport_spec t p i port : table_wf t -> t_pcbs t !! p = Some i -> inhash i = false ->
  is_u 16 port ->
  exists t', upd_pcb (with_lport port) p t = Some t' /\ replaced t t' p (with_lport port i).
Proof.
  intros Hwf Hp Hi Hu. destruct (upd_pcb_spec t p i (with_lport port)) as (t' & E & R & _);
    eauto using pcb_ok_lport, wf_pcbs.
Qed.

Lemma bind_finish t t1 p i laddr port : inhash i = false -> is_u 16 port -> port <> 0 ->
  replaced t t1 p (with_laddr laddr i) ->
  exists t', (t2 ← upd_pcb (with_lport port) p t1; t3 ← inpcb_hash_insert p t2; Some (0, t3)) =
      Some (0, t') /\
    replaced t t' p (hashed (with_lport port (with_laddr laddr i))).
Proof.
  intros Hi Hu Hn R1.
  destruct (set_lport_spec t1 p (with_laddr laddr i) port) as (t2 & -> & R2);
    [apply R1 | by eapply replaced_lookup | done | done |].
  rewrite option_bind_Some_fun.
  destruct (hash_insert_spec t2 p (with_lport port (with_laddr laddr i))) as (t3 & -> & R3);
    [apply R2 | by eapply replaced_lookup | done | done |].
  exists t3. split; [done |]. eapply replaced_trans; [exact R1 |]. by eapply replaced_trans.
Qed.

Lemma bind_to_spec opts rnd t p i laddr lport : table_wf t -> t_pcbs t !! p = Some i ->
  i_lport i = 0 -> addr_ok laddr -> is_u 16 lport ->
  exists r t', bind_to opts rnd p t laddr lport = Some (r, t') /\
    bind_outcome opts t p i laddr lport r t'.
Proof.
  intros Hwf Hp Hl Ha Hu. pose proof (unbound_unhashed t p i Hwf Hp Hl) as Hi.
  pose proof (wf_pcbs t Hwf p i Hp) as Hok.
  destruct (upd_pcb_spec t p i (with_laddr laddr)) as (t1 & E1 & R1 & _);
    try done; [by apply pcb_ok_laddr |].
  unfold bind_to, bind_outcome. destruct (Z.eqb_spec lport 0) as [-> | Hn].
  - rewrite option_bind_Some_fun, E1, option_bind_Some_fun.
    destruct (ephemeral_loop_spec (Z.to_nat port_range) opts t1 p (with_laddr laddr i) rnd 0)
      as (r & E & Hr); [apply R1 | by eapply replaced_lookup |].
    unfold inpcb_alloc_ephemeral_port. rewrite E, option_bind_Some_fun.
    rewrite (proj2 R1) in Hr. destruct r as [e | [port t2]].
    + destruct Hr as [-> Hr].
      destruct (upd_pcb_spec t1 p (with_laddr laddr i) (with_laddr in6addr_any)) as (t3 & -> & R3 & _);
        [apply R1 | by eapply replaced_lookup | done | by apply (pcb_ok_laddr i), any_ok | done |].
      rewrite option_bind_Some_fun. do 2 eexists. split; [done |]. right. split; [done |].
      split; [by eapply replaced_trans |]. intros v (k & Hk & Ek)%(ephemeral_covers rnd).
      rewrite <- Ek. specialize (Hr k). rewrite port_taken_ext in Hr by done. apply Hr. lia.
    + destruct Hr as (k & _ & Ek & Hnt & ->). destruct (ephemeral_range rnd k) as (? & ? & ?).
      rewrite port_taken_ext in Hnt by done. rewrite <- Ek in *.
      destruct (bind_finish t (with_last_port port t1) p i laddr port) as (t' & -> & R');
        try done; [by apply replaced_last_port |].
      do 2 eexists. split; [done |]. left. split; [done |]. exists port. auto.
  - destruct (port_in_use_spec opts t p i laddr lport Hwf Hp) as (u & -> & HU).
    rewrite option_bind_Some_fun. destruct u.
    + do 2 eexists. split; [done |]. right. split; [done |]. split; [done |]. by apply HU.
    + rewrite E1, !option_bind_Some_fun.
      destruct (bind_finish t t1 p i laddr lport) as (t' & -> & R'); try done.
      do 2 eexists. split; [done |]. left. split; [done |]. exists lport. split; [done |].
      split; [done |]. split; [| done]. intros HT. by apply HU in HT.
Qed.

(** A buffer of the size the callers copy socket addresses into. *)
Definition sockaddr_buf (addr : list Z) : Prop := bytes addr /\ (28 <= length addr)%nat.

Lemma slice_bytes (bs : list Z) i n : bytes bs -> 0 <= i -> 0 <= n -> i + n <= Z.of_nat (length bs) ->
  exists xs, slice bs i n = Some xs /\ bytes xs /\ length xs = Z.to_nat n.
Proof.
  intros. rewrite slice_Some by done. eexists. split; [done |].
  split; [by apply Forall_take, Forall_drop |]. rewrite length_take, length_drop. lia.
Qed.

Lemma sockaddr_to_in6_spec i addr len : sockaddr_buf addr ->
  exists r, inpcb_sockaddr_to_in6 i addr len = Some r /\
    match r with
    | inl e => e < 0 /\ e <> - EADDRINUSE
    | inr (a, port) => addr_ok a /\ is_u 16 port
    end.
Proof.
  intros [B L]. unfold inpcb_sockaddr_to_in6.
  destruct (slice_bytes addr 0 2) as (fam & -> & _); try done; try lia.
  destruct (slice_bytes addr 2 2) as (port & -> & Bp & Lp); try done; try lia.
  destruct (slice_bytes addr 4 4) as (v4 & -> & B4 & L4); try done; try lia.
  destruct (slice_bytes addr 8 16) as (v6 & -> & B6 & L6); try done; try lia.
  rewrite !option_bind_Some_fun. pose proof (le_val_range port Bp) as Hp. rewrite Lp in Hp.
  repeat case_match; eexists; (split; [reflexivity |]); try done; (split; [| exact Hp || done]).
  by apply map_v4_ok.
Qed.

Lemma select_source_ok `{ip : ip_layer} dst src : inpcb_select_source dst = inr src -> addr_ok src.
Proof.
  unfold inpcb_select_source. destruct (inpcb_is_v4_mapped dst).
  - destruct (ipv4_source_size (inpcb_unmap_v4 dst)) as [B L].
    destruct (le_val _ =? 0); [done |]. intros [= <-]. by apply map_v4_ok.
  - destruct (ipv6_select_source dst) eqn:E; [| done]. intros [= <-]. by apply (ipv6_source_size dst).
Qed.

Lemma default_faddr_ok i a : addr_ok a -> addr_ok (inpcb_default_faddr i a).
Proof.
  intros. unfold inpcb_default_faddr. destruct (negb _); [done |]. destruct (i_flags i &? INPCB_IPV6).
  - split; [by apply bytes_check | done].
  - by apply map_v4_ok; [apply bytes_check |].
Qed.

(** No block but [p] is hashed under the four-tuple. *)
Definition tuple_free (m : gmap Z inpcb) (p : Z) (fa : list Z) (fp : Z) (la : list Z) (lp : Z) : Prop :=
  forall q o, m !! q = Some o -> inhash o = true -> q <> p ->
    ~ (i_faddr o = fa /\ i_fport o = fp /\ i_laddr o = la /\ i_lport o = lp).

Lemma same_tuple_spec fa fp la lp i : pcb_ok i -> addr_ok fa -> addr_ok la ->
  same_tuple fa fp la lp i = true <->
  i_faddr i = fa /\ i_fport i = fp /\ i_laddr i = la /\ i_lport i = lp.
Proof.
  intros (Ha & Hf & _) Hfa Hla. unfold same_tuple.
  rewrite !andb_true_iff, !Z.eqb_eq, !addr_equal_spec by done. naive_solver.
Qed.

Lemma lookup_exact_spec t fa fp la lp : table_wf t -> addr_ok fa -> addr_ok la ->
  exists r, inpcb_lookup_exact t fa fp la lp = Some r /\
    match r with
    | Some p => exists i, t_pcbs t !! p = Some i /\ inhash i = true /\
        i_faddr i = fa /\ i_fport i = fp /\ i_laddr i = la /\ i_lport i = lp
    | None => forall q i, t_pcbs t !! q = Some i -> inhash i = true ->
        ~ (i_faddr i = fa /\ i_fport i = fp /\ i_laddr i = la /\ i_lport i = lp)
    end.
Proof.
  intros Hwf Hfa Hla. unfold inpcb_lookup_exact.
  assert (exists b, rd (t_hash t) (inpcb_hash fa fp la lp) = Some b) as [b Hb].
  { apply rd_is_Some. rewrite (proj1 (wf_hash t Hwf)). apply hash_range. }
  rewrite Hb, option_bind_Some_fun. destruct (proj2 (wf_hash t Hwf) _ _ Hb) as [_ HE].
  destruct (exact_scan_spec (t_pcbs t) fa fp la lp b) as (r & -> & Hr).
  { intros q Hq. by apply (bucket_members _ _ _ _ _ _ (wf_hash t Hwf) Hb). }
  exists r. split; [done |]. destruct r as [p |].
  - destruct Hr as (i & (j & Hj & Hh & _)%HE & Hi & HS). simplify_eq. exists j.
    split; [done |]. split; [done |]. apply same_tuple_spec; eauto using wf_pcbs.
  - intros q i Hq Hh HT. pose proof (proj2 (same_tuple_spec fa fp la lp i (wf_pcbs t Hwf q i Hq) Hfa Hla) HT).
    rewrite (Hr q i) in *; [done | | done]. apply HE. exists i. split; [done |]. split; [done |].
    destruct HT as (<- & <- & <- & <-). done.
Qed.

(** What connecting [p] does: it gets the four-tuple, with the port it had or an
    ephemeral one; a tuple that another block has already is refused when the
    local port was bound before (unless [p] itself has it). *)
Definition connect_outcome (t : inpcb_table) (p : Z) (i : inpcb) (fa : list Z) (fp : Z) (la : list Z)
    (r : Z) (t' : inpcb_table) : Prop :=
  (r = 0 /\ exists port, table_wf t' /\ port <> 0 /\
     (i_lport i <> 0 -> port = i_lport i /\
        (tuple_free (t_pcbs t) p fa fp la port \/ i_faddr i = fa /\ i_fport i = fp)) /\
     exists j, t_pcbs t' = <[p := j]> (t_pcbs t) /\ inhash j = true /\
       i_faddr j = fa /\ i_fport j = fp /\ i_laddr j = la /\ i_lport j = port /\ same_owner i j) \/
  (r = - EADDRINUSE /\ table_wf t' /\
     (if i_lport i =? 0 then t_pcbs t' = <[p := with_laddr la i]> (t_pcbs t) else t' = t)).

Lemma connect_finish t t1 p j port fa fp : inhash j = false -> is_u 16 port -> port <> 0 ->
  addr_ok fa -> is_u 16 fp -> replaced t t1 p j ->
  exists t', (t2 ← upd_pcb (with_lport port) p t1; t3 ← upd_pcb (with_foreign fa fp) p t2;
              t4 ← inpcb_hash_insert p t3; Some (0, t4)) = Some (0, t') /\
    replaced t t' p (hashed (with_foreign fa fp (with_lport port j))).
Proof.
  intros Hi Hu Hn Ha Hf R1.
  pose proof (wf_pcbs t1 (proj1 R1) p j (replaced_lookup _ _ _ _ R1)) as Hok.
  destruct (set_lport_spec t1 p j port) as (t2 & -> & R2);
    [apply R1 | by eapply replaced_lookup | done | done |].
  rewrite option_bind_Some_fun.
  destruct (upd_pcb_spec t2 p (with_lport port j) (with_foreign fa fp)) as (t3 & -> & R3 & _);
    [apply R2 | by eapply replaced_lookup | done | | done |].
  { apply pcb_ok_foreign; [by apply pcb_ok_lport | done | done]. }
  rewrite option_bind_Some_fun.
  destruct (hash_insert_spec t3 p (with_foreign fa fp (with_lport port j))) as (t4 & -> & R4);
    [apply R3 | by eapply replaced_lookup | done | done |].
  exists t4. split; [done |]. eapply replaced_trans; [exact R1 |]. eapply replaced_trans; [exact R2 |].
  by eapply replaced_trans.
Qed.

(** The block once it is out of the hashes and has its local address. *)
Lemma connect_prepare t p i la : table_wf t -> t_pcbs t !! p = Some i -> addr_ok la ->
  exists t1 t2 j, inpcb_hash_remove p t = Some t1 /\ upd_pcb (with_laddr la) p t1 = Some t2 /\
    replaced t t2 p j /\ inhash j = false /\ i_laddr j = la /\ i_lport j = i_lport i /\
    (i_lport i = 0 -> j = with_laddr la i) /\ same_owner i j.
Proof.
  intros Hwf Hp Hla. destruct (hash_remove_spec t p i Hwf Hp) as (t1 & i1 & E1 & R1 & Hi1 & Ei1).
  destruct (upd_pcb_spec t1 p i1 (with_laddr la)) as (t2 & E2 & R2 & _);
    [apply R1 | by eapply replaced_lookup | done | | done |].
  { apply pcb_ok_laddr; [| done]. eapply wf_pcbs; [apply R1 | by eapply replaced_lookup]. }
  exists t1, t2, (with_laddr la i1). split; [done |]. split; [done |].
  split; [by eapply replaced_trans |]. split; [done |]. split; [done |].
  split; [by rewrite Ei1; destruct (inhash i) |].
  split; [intros Hl; by rewrite Ei1, (unbound_unhashed t p i) |].
  rewrite Ei1. destruct (inhash i); [by destruct (owner_unhashed i) | done].
Qed.

Lemma connect_to_spec opts rnd t p i fa fp la : table_wf t -> t_pcbs t !! p = Some i ->
  addr_ok fa -> is_u 16 fp -> addr_ok la ->
  exists r t', connect_to opts rnd p t i fa fp la = Some (r, t') /\
    connect_outcome t p i fa fp la r t'.
Proof.
  intros Hwf Hp Hfa Hfp Hla. unfold connect_to, inpcb_lookup.
  destruct (lookup_exact_spec t fa fp la (i_lport i) Hwf Hfa Hla) as (d & -> & Hd).
  destruct (connect_prepare t p i la Hwf Hp Hla) as (t1 & t2 & j & E1 & E2 & R2 & Hj & Ej & El & Ez & How).
  assert (Hoh : forall port, same_owner i (hashed (with_foreign fa fp (with_lport port j)))).
  { intros port. eapply owner_trans; [| apply owner_hashed]. by destruct How. }
  rewrite option_bind_Some_fun. replace (match d with Some p => Some (Some p) | None => Some None end)
    with (Some d) by (by destruct d). rewrite option_bind_Some_fun. unfold connect_outcome.
  destruct (_ && negb (bool_decide (d = Some p))) eqn:EC.
  { apply andb_true_iff in EC as [[EC _]%andb_true_iff _]. apply negb_true_iff in EC.
    do 2 eexists. split; [done |]. right. split; [done |]. split; [done |]. by rewrite EC. }
  rewrite E1, option_bind_Some_fun, E2, option_bind_Some_fun.
  destruct (wf_pcbs t Hwf p i Hp) as (_ & _ & Hpl & _).
  destruct (Z.eqb_spec (i_lport i) 0) as [Hz | Hn].
  - destruct (ephemeral_loop_spec (Z.to_nat port_range) opts t2 p j rnd 0) as (r & E & Hr);
      [apply R2 | by eapply replaced_lookup |].
    unfold inpcb_alloc_ephemeral_port. rewrite E, option_bind_Some_fun. destruct r as [e | [port t3]].
    + destruct Hr as [-> _]. do 2 eexists. split; [done |]. right. split; [done |].
      split; [apply R2 |]. rewrite <- Ez by done. apply R2.
    + destruct Hr as (k & _ & Ek & _ & ->). destruct (ephemeral_range rnd k) as (? & ? & _).
      rewrite <- Ek in *.
      destruct (connect_finish t (with_last_port port t2) p j port fa fp) as (t' & -> & R');
        try done; [by apply replaced_last_port |].
      do 2 eexists. split; [done |]. left. split; [done |]. exists port.
      split; [apply R' |]. split; [done |]. split; [done |].
      eexists. split; [apply R' |]. split; [apply inhash_set | done].
  - rewrite option_bind_Some_fun.
    destruct (connect_finish t t2 p j (i_lport i) fa fp) as (t' & -> & R'); try done.
    do 2 eexists. split; [done |]. left. split; [done |]. exists (i_lport i).
    split; [apply R' |]. split; [done |]. split.
    + intros _. split; [done |]. destruct d as [q |]; [| left; intros q o Hq Ho _; by apply (Hd q o)].
      destruct (bool_decide_reflect (Some q = Some p)) as [[= ->] |]; [| by cbn in EC].
      right. destruct Hd as (i' & ? & _ & ? & ? & _). by simplify_eq.
    + eexists. split; [apply R' |]. split; [apply inhash_set | done].
Qed.

Lemma listen_inpcb_spec t p i fa fp la lp : table_wf t -> t_pcbs t !! p = Some i ->
  inhash i = false -> addr_ok fa -> is_u 16 fp -> addr_ok la -> is_u 16 (i_lport lp) ->
  i_lport lp <> 0 ->
  exists t' i', tcp_listen_inpcb p fa fp la lp t = Some t' /\ replaced t t' p i' /\
    i_socket i' = i_socket i /\ i_ppcb i' = i_ppcb i.
Proof.
  intros Hwf Hp Hi Hfa Hfp Hla Hlp Hn. unfold tcp_listen_inpcb.
  pose proof (wf_pcbs t Hwf p i Hp) as Hok.
  set (i1 := with_laddr la (with_foreign fa fp i)).
  assert (Hok1 : pcb_ok i1) by (by apply pcb_ok_laddr; [apply pcb_ok_foreign |]).
  destruct (upd_pcb_spec t p i (fun i => with_laddr la (with_foreign fa fp i)))
    as (t1 & -> & R1 & _); try done.
  rewrite option_bind_Some_fun.
  destruct (set_lport_spec t1 p i1 (i_lport lp)) as (t2 & -> & R2);
    [apply R1 | by eapply replaced_lookup | done | done |].
  rewrite option_bind_Some_fun. set (i2 := with_lport (i_lport lp) i1).
  match goal with |- context [upd_pcb ?f p t2] => set (g := f) end.
  assert (Hg : inhash (g i2) = false).
  { rewrite inhash_bit. unfold g. cbn [i_flags with_iflags]. rewrite Z.lor_spec, Z.land_spec.
    change (Z.testbit (Z.lor INPCB_IPV6 INPCB_IPV6_ONLY) 5) with false.
    rewrite andb_false_r, orb_false_r. change (i_flags i2) with (i_flags i). by rewrite <- inhash_bit. }
  destruct (upd_pcb_spec t2 p i2 g) as (t3 & -> & R3 & _);
    [apply R2 | by eapply replaced_lookup | done | | done |].
  { apply pcb_ok_flags; [by apply pcb_ok_lport |]. done. }
  rewrite option_bind_Some_fun.
  destruct (hash_insert_spec t3 p (g i2)) as (t4 & -> & R4);
    [apply R3 | by eapply replaced_lookup | done | done |].
  exists t4, (hashed (g i2)). split_and!; try done. do 3 (eapply replaced_trans; [eassumption |]). done.
Qed.

(** ** Histories of a table *)

Inductive table_op :=
| DoAlloc (p : option Z) (so : option (Z * option Z))
| DoFree (p : Z)
| DoBind (opts : Z -> Z) (rnd p : Z) (addr : option (list Z)) (len : Z)
| DoConnect (opts : Z -> Z) (rnd p : Z) (addr : list Z) (len : Z)
| DoDisconnect (p : Z)
| DoRehash (p : Z)
| DoListen (p : Z) (faddr : list Z) (fport : Z) (laddr : list Z) (lp : Z).

Section histories.
Context `{ip : ip_layer}.

Definition run_op (op : table_op) (t : inpcb_table) : option inpcb_table :=
  match op with
  | DoAlloc p so => snd <$> inpcb_alloc p so t
  | DoFree p => inpcb_free p t
  | DoBind opts rnd p addr len => snd <$> inpcb_bind opts rnd p addr len t
  | DoConnect opts rnd p addr len => snd <$> inpcb_connect opts rnd p addr len t
  | DoDisconnect p => inpcb_disconnect p t
  | DoRehash p => inpcb_rehash p t
  | DoListen p fa fp la lp => l ← t_pcbs t !! lp; tcp_listen_inpcb p fa fp la l t
  end.

(** What the callers guarantee: a new block is not one of the table's, the
    others are; addresses come in buffers of the size of the largest one; only
    bound blocks are rehashed or accept connections. *)
Definition valid_op (op : table_op) (t : inpcb_table) : Prop :=
  match op with
  | DoAlloc p _ => forall q, p = Some q -> t_pcbs t !! q = None
  | DoFree p | DoDisconnect p => is_Some (t_pcbs t !! p)
  | DoBind _ _ p addr _ => is_Some (t_pcbs t !! p) /\ (forall a, addr = Some a -> sockaddr_buf a)
  | DoConnect _ _ p addr _ => is_Some (t_pcbs t !! p) /\ sockaddr_buf addr
  | DoRehash p => exists i, t_pcbs t !! p = Some i /\ i_lport i <> 0
  | DoListen p fa fp la lp => addr_ok fa /\ is_u 16 fp /\ addr_ok la /\
      (exists i, t_pcbs t !! p = Some i /\ inhash i = false) /\
      (exists l, t_pcbs t !! lp = Some l /\ i_lport l <> 0)
  end.

Inductive history : inpcb_table -> Prop :=
| history_init : history inpcb_table_init
| history_step t op t' : history t -> valid_op op t -> run_op op t = Some t' -> history t'.

Lemma init_wf : table_wf inpcb_table_init.
Proof.
  assert (HB : forall key, buckets_ok key ∅ (replicate (Z.to_nat INPCB_HASH_SIZE) [])).
  { intros key. split; [done |]. intros h b. unfold rd. destruct (h <? 0); [done |].
    intros [-> _]%lookup_replicate. split; [constructor |]. intros p.
    rewrite elem_of_nil. split; [done |]. intros (i & Hi & _). by rewrite lookup_empty in Hi. }
  constructor; cbn; try apply HB.
  - constructor.
  - intros p. rewrite elem_of_nil, lookup_empty. split; [done | by intros []].
  - intros p i Hi. by rewrite lookup_empty in Hi.
Qed.

Lemma bind_spec opts rnd t p i addr len : table_wf t -> t_pcbs t !! p = Some i ->
  (forall a, addr = Some a -> sockaddr_buf a) ->
  exists r t', inpcb_bind opts rnd p addr len t = Some (r, t') /\
    ((r < 0 /\ r <> - EADDRINUSE /\ t' = t) \/
     exists laddr lport, i_lport i = 0 /\ addr_ok laddr /\ is_u 16 lport /\
       inpcb_addr_is_local laddr = true /\
       match addr with
       | Some a => inpcb_sockaddr_to_in6 i a len = Some (inr (laddr, lport))
       | None => laddr = in6addr_any /\ lport = 0
       end /\
       bind_outcome opts t p i laddr lport r t').
Proof.
  intros Hwf Hp Ha. unfold inpcb_bind. rewrite Hp, option_bind_Some_fun.
  destruct (Z.eqb_spec (i_lport i) 0) as [Hl | Hl]; cbn [negb];
    [| do 2 eexists; split; [reflexivity |]; left; done].
  destruct addr as [a |].
  - destruct (sockaddr_to_in6_spec i a len (Ha a eq_refl)) as (r & E & Hr). rewrite E, option_bind_Some_fun.
    destruct r as [e | [laddr lport]];
      [do 2 eexists; split; [reflexivity |]; left; by destruct Hr |].
    destruct (inpcb_addr_is_local laddr) eqn:EL; cbn [negb];
      [| do 2 eexists; split; [reflexivity |]; left; done].
    destruct Hr as [Hla Hu]. destruct (bind_to_spec opts rnd t p i laddr lport) as (r & t' & E' & HO); try done.
    exists r, t'. split; [done |]. right. eauto 10.
  - destruct (bind_to_spec opts rnd t p i in6addr_any 0) as (r & t' & E' & HO); try done; [apply any_ok |].
    exists r, t'. split; [done |]. right. exists in6addr_any, 0. by pose proof any_ok.
Qed.

Lemma connect_spec opts rnd t p i addr len : table_wf t -> t_pcbs t !! p = Some i ->
  sockaddr_buf addr ->
  exists r t' i', inpcb_connect opts rnd p addr len t = Some (r, t') /\ table_wf t' /\
    t_pcbs t' !! p = Some i' /\ same_owner i i'.
Proof.
  intros Hwf Hp Ha. unfold inpcb_connect. rewrite Hp, option_bind_Some_fun.
  destruct (sockaddr_to_in6_spec i addr len Ha) as (r & E & Hr). rewrite E, option_bind_Some_fun.
  assert (Hsame : same_owner i i) by done.
  destruct r as [e | [fa fp]]; [by eauto 8 |]. destruct (fp =? 0); [by eauto 8 |].
  destruct Hr as [Hfa Hfp]. pose proof (default_faddr_ok i fa Hfa) as Hda.
  destruct (wf_pcbs t Hwf p i Hp) as [Hla _]. destruct (if inpcb_addr_is_any (i_laddr i) then _ else _) as [e | la] eqn:ES;
    [by eauto 8 |].
  assert (Hls : addr_ok la).
  { destruct (inpcb_addr_is_any (i_laddr i)); [by apply select_source_ok in ES | by injection ES as <-]. }
  destruct (connect_to_spec opts rnd t p i (inpcb_default_faddr i fa) fp la) as (r & t' & E' & HO); try done.
  destruct HO as [(_ & port & H & _ & _ & j & Ej & _ & _ & _ & _ & _ & Ho) | (_ & H & Hl)].
  - exists r, t', j. split_and!; try done. rewrite Ej. apply lookup_insert_eq.
  - destruct (i_lport i =? 0); [| subst t'; by eauto 8]. exists r, t', (with_laddr la i).
    split_and!; try done. rewrite Hl. apply lookup_insert_eq.
Qed.

Lemma rehash_spec t p i : table_wf t -> t_pcbs t !! p = Some i -> i_lport i <> 0 ->
  exists t', inpcb_rehash p t = Some t' /\ table_wf t'.
Proof.
  intros Hwf Hp Hl. destruct (hash_remove_spec t p i Hwf Hp) as (t1 & i1 & E & R1 & Hi & Ei).
  unfold inpcb_rehash. rewrite E, option_bind_Some_fun.
  destruct (hash_insert_spec t1 p i1) as (t2 & -> & R2);
    [apply R1 | by eapply replaced_lookup | done | by rewrite Ei; destruct (inhash i) |].
  exists t2. split; [done | apply R2].
Qed.

Lemma bind_outcome_wf opts t p i la lp r t' : table_wf t -> bind_outcome opts t p i la lp r t' ->
  table_wf t'.
Proof.
  intros Hwf [(_ & port & R & _) | [_ H]]; [apply R |].
  destruct (lp =? 0); destruct H as [R H]; [apply R | by subst].
Qed.

(** A valid operation succeeds on a well-formed table and keeps it so. *)
Lemma run_op_spec t op : table_wf t -> valid_op op t ->
  exists t', run_op op t = Some t' /\ table_wf t'.
Proof.
  intros Hwf. destruct op as [p so | p | opts rnd p addr len | opts rnd p addr len | p | p | p fa fp la lp];
    cbn [valid_op run_op].
  - intros H. destruct (alloc_spec t p so Hwf H) as (r & t' & -> & ?). by exists t'.
  - intros [i Hi]. destruct (free_spec t p i Hwf Hi) as (t' & -> & ? & _). by exists t'.
  - intros [[i Hi] Ha]. destruct (bind_spec opts rnd t p i addr len Hwf Hi Ha) as (r & t' & -> & HO).
    exists t'. split; [done |]. destruct HO as [(_ & _ & ->) | (la & lp & _ & _ & _ & _ & _ & HO)]; [done |].
    by eapply bind_outcome_wf.
  - intros [[i Hi] Ha]. destruct (connect_spec opts rnd t p i addr len Hwf Hi Ha) as (r & t' & ? & -> & ? & _).
    by exists t'.
  - intros [i Hi]. by apply (disconnect_spec t p i).
  - intros (i & Hi & Hl). by apply (rehash_spec t p i).
  - intros (? & ? & ? & (i & Hi & ?) & (l & Hl & Hn)). rewrite Hl, option_bind_Some_fun.
    destruct (wf_pcbs t Hwf lp l Hl) as (_ & _ & ? & _).
    destruct (listen_inpcb_spec t p i fa fp la l) as (t' & i' & E & R & _); try done. exists t'. split; [done | apply R].
Qed.

Lemma history_wf t : history t -> table_wf t.
Proof.
  induction 1 as [| t op t' _ IH Hv HR]; [apply init_wf |].
  destruct (run_op_spec t op IH Hv) as (t2 & E & ?). congruence.
Qed.
End histories.
