(* ===== verification/InpcbTheorems.v ===== *)
(** * Endpoint tables: the properties

    Every history of a table keeps it well formed; demultiplexing finds the
    endpoint the addresses name; binding never creates two endpoints that could
    take the same packet unless the reuse options allow it; the transport
    checksum is that of RFC 793 and RFC 8200. *)

From Stdlib Require Import ZArith Lia.
From stdpp Require Import base option gmap list.
From S2P Require Import Prelude Bytes Dlist Netbuf NetbufFacts Checksum Inpcb InpcbFacts.
Open Scope Z_scope.
Open Scope hermes_scope.

(** ** A host with one address, for the examples *)

#[local] Instance demo_ip : ip_layer := {|
  ipv4_is_local a := bool_decide (a = [10; 0; 0; 2]);
  ipv6_is_local a := bool_decide (a = in6addr_loopback);
  ipv4_select_source _ := [10; 0; 0; 2];
  ipv6_select_source _ := Some in6addr_loopback;
  ipv4_source_size _ := conj (bytes_check [10; 0; 0; 2] eq_refl) eq_refl;
  ipv6_source_size _ src H :=
    match H in _ = y return (match y with Some s => bytes s /\ length s = 16%nat | None => True end) with
    | eq_refl => conj (bytes_check in6addr_loopback eq_refl) eq_refl
    end;
|}.

Definition demo_sockaddr (addr : list Z) (port : Z) : list Z :=
  le_bytes 2 AF_INET ++ be_bytes 2 port ++ addr ++ replicate 120 0.
Definition demo_v4 (a : list Z) : list Z := inpcb_map_v4 a.

(** A server bound to port 80 at 0x100, a client at 0x200 connected to
    10.0.0.9:443. *)
Definition demo_ops : list table_op :=
  [DoAlloc (Some 0x100) (Some (1, Some AF_INET));
   DoBind (fun _ => 0) 0 0x100 (Some (demo_sockaddr [0; 0; 0; 0] 80)) 16;
   DoAlloc (Some 0x200) (Some (2, Some AF_INET));
   DoConnect (fun _ => 0) 5 0x200 (demo_sockaddr [10; 0; 0; 9] 443) 16].

Definition run_ops (ops : list table_op) (t : inpcb_table) : option inpcb_table :=
  fold_left (fun t op => t ← t; run_op op t) ops (Some t).

(** The table after the first [n] of them. *)
Definition demo_after (n : nat) : inpcb_table :=
  default inpcb_table_init (run_ops (take n demo_ops) inpcb_table_init).
Definition demo_table : inpcb_table := demo_after 4.

Lemma demo_sockaddr_ok a port : bytes a -> (length a = 4)%nat -> sockaddr_buf (demo_sockaddr a port).
Proof.
  intros B L. split.
  - unfold demo_sockaddr. apply Forall_app. split; [apply le_bytes_bytes |]. apply Forall_app.
    split; [apply be_bytes_bytes |]. apply Forall_app. split; [done |]. by apply bytes_check.
  - unfold demo_sockaddr. rewrite !length_app, le_bytes_length, be_bytes_length, length_replicate, L. lia.
Qed.

Lemma demo_history : history demo_table.
Proof.
  assert (H1 : history (demo_after 1)).
  { apply (history_step inpcb_table_init (DoAlloc (Some 0x100) (Some (1, Some AF_INET))));
      [apply history_init | by intros q [= <-] | by vm_compute]. }
  assert (H2 : history (demo_after 2)).
  { apply (history_step (demo_after 1) (DoBind (fun _ => 0) 0 0x100 (Some (demo_sockaddr [0; 0; 0; 0] 80)) 16));
      [exact H1 | | by vm_compute]. split; [by eexists; vm_compute |].
    intros a [= <-]. by apply demo_sockaddr_ok; [apply bytes_check |]. }
  assert (H3 : history (demo_after 3)).
  { apply (history_step (demo_after 2) (DoAlloc (Some 0x200) (Some (2, Some AF_INET))));
      [exact H2 | by intros q [= <-]; vm_compute | by vm_compute]. }
  apply (history_step (demo_after 3) (DoConnect (fun _ => 0) 5 0x200 (demo_sockaddr [10; 0; 0; 9] 443) 16));
    [exact H3 | | by vm_compute]. split; [by eexists; vm_compute |].
  by apply demo_sockaddr_ok; [apply bytes_check |].
Qed.

(** ** Histories *)

(** C21: after any sequence of allocations, frees, binds, connects,
    disconnects, rehashes and accepted connections, both hashes hold exactly
    the blocks marked INPCB_INHASH, each once and in the bucket of its current
    key, every hashed block has a local port, and the next operation meets no
    freed block and no broken link. *)
Theorem inpcb_table_invariant (ip : ip_layer) t : history t ->
  table_wf t /\ forall op, valid_op op t -> exists t', run_op op t = Some t' /\ table_wf t'.
Proof.
  intros H. split; [by apply history_wf |]. intros op Hv. by apply run_op_spec; [apply history_wf |].
Qed.

Lemma inpcb_table_invariant_witness :
  table_wf demo_table /\ exists t', run_op (DoDisconnect 0x200) demo_table = Some t' /\ table_wf t'.
Proof.
  destruct (inpcb_table_invariant demo_ip demo_table demo_history) as [H1 H2].
  split; [exact H1 |]. apply H2. by eexists; vm_compute.
Defined.

(** ** Demultiplexing *)

Definition has_tuple (fa : list Z) (fp : Z) (la : list Z) (lp : Z) (i : inpcb) : Prop :=
  i_faddr i = fa /\ i_fport i = fp /\ i_laddr i = la /\ i_lport i = lp.

(** The hashed blocks of a table. *)
Definition in_table (t : inpcb_table) (q : Z) (i : inpcb) : Prop :=
  t_pcbs t !! q = Some i /\ inhash i = true.

Lemma lookup_wild_spec t la lp : table_wf t -> addr_ok la ->
  exists r, inpcb_lookup_wild t la lp = Some r /\
    match r with
    | Some p => exists i, in_table t p i /\ listens la lp i = true /\
        (i_laddr i = la \/ i_laddr i = in6addr_any /\
           forall q j, in_table t q j -> listens la lp j = true -> i_laddr j <> la)
    | None => forall q j, in_table t q j -> listens la lp j = true ->
        i_laddr j <> la /\ i_laddr j <> in6addr_any
    end.
Proof.
  intros Hwf Hla. unfold inpcb_lookup_wild.
  assert (exists b, rd (t_port_hash t) (inpcb_port_hash lp) = Some b) as [b Hb].
  { apply rd_is_Some. rewrite (proj1 (wf_port t Hwf)). apply port_hash_range. }
  rewrite Hb, option_bind_Some_fun. destruct (proj2 (wf_port t Hwf) _ _ Hb) as [_ HE].
  assert (HM : forall q j, in_table t q j -> listens la lp j = true -> q ∈ b).
  { intros q j [Hq Hh] HL. apply HE. exists j. split; [done |]. split; [done |].
    unfold listens in HL. apply andb_true_iff in HL as [[HL _]%andb_true_iff _].
    apply Z.eqb_eq in HL. by subst. }
  assert (HT : forall p i, p ∈ b -> t_pcbs t !! p = Some i -> in_table t p i /\ pcb_ok i).
  { intros p i (j & Hj & Hh & _)%HE Hi. simplify_eq. split; [done |]. by apply (wf_pcbs t Hwf p). }
  destruct (wild_scan_spec (t_pcbs t) la lp b None) as (r & -> & Hr).
  { intros q Hq. by apply (bucket_members _ _ _ _ _ _ (wf_port t Hwf) Hb). }
  exists r. split; [done |].
  destruct Hr as [(p & i & -> & Hp & Hi & HL & HA) | [HN HR]].
  - destruct (HT p i Hp Hi) as [? (Ha & _)]. exists i. split; [done |]. split; [done |]. left.
    by apply (addr_equal_spec (i_laddr i) la).
  - assert (HN' : forall q j, in_table t q j -> listens la lp j = true -> i_laddr j <> la).
    { intros q j Hq HL E%(addr_equal_spec _ _ (proj1 (wf_pcbs t Hwf q j (proj1 Hq))) Hla).
      pose proof (HN q j (HM q j Hq HL) (proj1 Hq) HL). congruence. }
    destruct HR as [[<- HR] | [_ (p & i & -> & Hp & Hi & HL & HA)]].
    + intros q j Hq HL. split; [by apply (HN' q) |]. intros E.
      pose proof (HR eq_refl q j (HM q j Hq HL) (proj1 Hq) HL) as HF.
      apply (addr_is_any_spec (i_laddr j)) in E; [congruence |]. apply (wf_pcbs t Hwf q j), Hq.
    + destruct (HT p i Hp Hi) as [? (Ha & _)]. exists i. split; [done |]. split; [done |]. right.
      split; [by apply addr_is_any_spec | done].
Qed.

(** C38: an incoming packet is given to the endpoint connected to exactly its
    four-tuple if there is one; else, when wildcards are allowed, to an
    unconnected endpoint of its port and family bound to its very destination
    address; else to one bound to no address; and to none only when no endpoint
    of these kinds exists. *)
Theorem inpcb_lookup_correct (ip : ip_layer) t fa fp la lp wildcard : history t -> addr_ok fa ->
  addr_ok la ->
  exists r, inpcb_lookup t fa fp la lp wildcard = Some r /\
    match r with
    | Some p => exists i, in_table t p i /\
        (has_tuple fa fp la lp i \/
         wildcard = true /\ (forall q j, in_table t q j -> ~ has_tuple fa fp la lp j) /\
         listens la lp i = true /\
         (i_laddr i = la \/ i_laddr i = in6addr_any /\
            forall q j, in_table t q j -> listens la lp j = true -> i_laddr j <> la))
    | None => (forall q j, in_table t q j -> ~ has_tuple fa fp la lp j) /\
        (wildcard = true -> forall q j, in_table t q j -> listens la lp j = true ->
           i_laddr j <> la /\ i_laddr j <> in6addr_any)
    end.
Proof.
  intros Hwf%history_wf Hfa Hla. unfold inpcb_lookup.
  destruct (lookup_exact_spec t fa fp la lp Hwf Hfa Hla) as (e & -> & He). rewrite option_bind_Some_fun.
  destruct e as [p |].
  { eexists. split; [done |]. destruct He as (i & Hi & Hh & HT). exists i. by split; [| left]. }
  assert (HN : forall q j, in_table t q j -> ~ has_tuple fa fp la lp j) by (intros q j []; by apply (He q j)).
  destruct wildcard; [| by eexists].
  destruct (lookup_wild_spec t la lp Hwf Hla) as (r & -> & Hr). exists r. split; [done |].
  destruct r as [p |]; [| done]. destruct Hr as (i & Hi & HL & HA). exists i. split; [done |]. by right.
Qed.

Lemma inpcb_lookup_correct_witness :
  inpcb_lookup demo_table (demo_v4 [10; 0; 0; 7]) 99 (demo_v4 [10; 0; 0; 2]) (htons 80) true =
    Some (Some 0x100) /\
  exists i, in_table demo_table 0x100 i /\ listens (demo_v4 [10; 0; 0; 2]) (htons 80) i = true.
Proof.
  destruct (inpcb_lookup_correct demo_ip demo_table (demo_v4 [10; 0; 0; 7]) 99 (demo_v4 [10; 0; 0; 2])
    (htons 80) true) as (r & E & Hr).
  - exact demo_history.
  - split; [by apply bytes_check | done].
  - split; [by apply bytes_check | done].
  - assert (E' : inpcb_lookup demo_table (demo_v4 [10; 0; 0; 7]) 99 (demo_v4 [10; 0; 0; 2])
      (htons 80) true = Some (Some 0x100)) by (vm_compute; reflexivity).
    split; [exact E' |]. rewrite E' in E. injection E as <-.
    destruct Hr as (i & Hi & [HT | (_ & _ & HL & _)]); [| eauto].
    exfalso. destruct Hi as [Hi _]. vm_compute in Hi. injection Hi as <-.
    destruct HT as (_ & HT & _). discriminate HT.
Defined.

(** ** Binding *)

(** A packet for [dst] may be given to the unconnected endpoint [i]. *)
Definition accepts (i : inpcb) (dst : list Z) : Prop :=
  inpcb_family_ok i dst = true /\ (i_laddr i = dst \/ i_laddr i = in6addr_any).

Lemma no_overlap o i laddr dst : pcb_ok o -> addr_ok laddr -> addr_ok dst -> dst <> in6addr_any ->
  inpcb_bindings_overlap o i laddr = false -> i_laddr i = laddr -> accepts o dst -> ~ accepts i dst.
Proof.
  intros (Ho & _) Hla Hd Hn HB El [F1 A1] [F2 A2]. unfold inpcb_bindings_overlap in HB.
  destruct (inpcb_families_collide o i) eqn:EF; cbn [negb] in HB.
  - apply orb_false_iff in HB as [[H1 H2]%orb_false_iff H3].
    assert (i_laddr o <> in6addr_any). { intros E%(addr_is_any_spec _ Ho). congruence. }
    assert (laddr <> in6addr_any). { intros E%(addr_is_any_spec _ Hla). congruence. }
    assert (i_laddr o <> laddr). { intros E%(addr_equal_spec _ _ Ho Hla). congruence. }
    destruct A1, A2; congruence.
  - unfold inpcb_families_collide in EF. unfold inpcb_family_ok in *.
    assert (inpcb_addr_is_any dst = false) as E.
    { apply not_true_is_false. intros E%(addr_is_any_spec _ Hd). done. }
    rewrite E in *. destruct (inpcb_is_v4_mapped dst); rewrite F1, F2, ?orb_true_r in EF; done.
Qed.

Lemma accepts_hashed i dst : accepts (hashed i) dst <-> accepts i dst.
Proof.
  unfold accepts, inpcb_family_ok. cbn [hashed with_iflags i_flags i_laddr].
  rewrite !(Z.land_lor_distr_l (i_flags i)). change (Z.land INPCB_INHASH INPCB_IPV6_ONLY) with 0.
  change (Z.land INPCB_INHASH INPCB_IPV6) with 0. by rewrite !Z.lor_0_r.
Qed.

(** [p] may share its port with [o]: both have INPCB_REUSEPORT, or the socket of
    [p] has SO_REUSEADDR and [o] is connected. *)
Definition reuse_allowed (opts : Z -> Z) (i o : inpcb) : Prop :=
  (i_flags i &? INPCB_REUSEPORT) && (i_flags o &? INPCB_REUSEPORT) = true \/
  exists so, i_socket i = Some so /\ opts so &? SO_REUSEADDR = true /\ i_faddr o <> in6addr_any.

Lemma not_taken_shares opts t p i laddr port q o dst : table_wf t ->
  ~ port_taken opts (t_pcbs t) p i laddr port -> in_table t q o -> q <> p -> i_lport o = port ->
  addr_ok laddr -> addr_ok dst -> dst <> in6addr_any ->
  reuse_allowed opts i o \/ ~ (accepts o dst /\ accepts (with_laddr laddr i) dst).
Proof.
  intros Hwf HT [Hq Hh] Hn Hl Hla Hd Hda. pose proof (wf_pcbs t Hwf q o Hq) as Hok.
  assert (HC : port_conflict opts p i laddr port q o = false).
  { apply not_true_is_false. intros HC. apply HT. by exists q, o. }
  unfold port_conflict in HC. destruct (Z.eqb_spec q p); [done |].
  destruct (Z.eqb_spec (i_lport o) port); [| done]. cbn [orb negb] in HC.
  destruct (_ && (i_flags o &? INPCB_REUSEPORT)) eqn:E1; [by left; left |].
  destruct (match i_socket i with Some so => _ | None => false end) eqn:E2.
  - left. right. destruct (i_socket i) as [so |]; [| done]. apply andb_true_iff in E2 as [E2 E3].
    exists so. split; [done |]. split; [done |]. intros E.
    apply addr_is_any_spec in E; [| apply Hok]. by rewrite E in E3.
  - right. intros [A1 A2]. by eapply (no_overlap o (with_laddr laddr i) laddr dst).
Qed.

(** The address and port a call of [inpcb_bind] asks for. *)
Definition bind_request (i : inpcb) (addr : option (list Z)) (len : Z) (laddr : list Z) (lport : Z) : Prop :=
  match addr with
  | Some a => inpcb_sockaddr_to_in6 i a len = Some (inr (laddr, lport))
  | None => laddr = in6addr_any /\ lport = 0
  end.

(** C39: [inpcb_bind] always returns.  When it returns 0, the block has the
    address it asked for, which is the host's, and its port, or an ephemeral
    one if it asked for none; it is hashed, no packet could be given both to it
    and to another endpoint of that port unless the reuse options allow it, and
    all other blocks are as before.  When it returns EADDRINUSE, the port, or
    every one of the ephemeral ports, is taken.  On any error the other blocks
    and the hashes are unchanged. *)
Theorem inpcb_bind_correct (ip : ip_layer) opts rnd t p i addr len : history t ->
  t_pcbs t !! p = Some i -> (forall a, addr = Some a -> sockaddr_buf a) ->
  exists r t', inpcb_bind opts rnd p addr len t = Some (r, t') /\
    (r = 0 -> exists j laddr lport, bind_request i addr len laddr lport /\
       t_pcbs t' = <[p := j]> (t_pcbs t) /\ in_table t' p j /\
       i_laddr j = laddr /\ inpcb_addr_is_local laddr = true /\
       (if lport =? 0 then INPCB_PORT_FIRST <= ntohs (i_lport j) <= INPCB_PORT_LAST
        else i_lport j = lport) /\
       forall q o dst, in_table t q o -> q <> p -> i_lport o = i_lport j ->
         addr_ok dst -> dst <> in6addr_any ->
         reuse_allowed opts i o \/ ~ (accepts o dst /\ accepts j dst)) /\
    (r <> 0 -> r < 0 /\ forall q j, in_table t' q j <-> in_table t q j) /\
    (r = - EADDRINUSE -> exists laddr lport, bind_request i addr len laddr lport /\
       if lport =? 0
       then forall v, INPCB_PORT_FIRST <= v <= INPCB_PORT_LAST ->
              port_taken opts (t_pcbs t) p i laddr (htons v)
       else port_taken opts (t_pcbs t) p i laddr lport).
Proof.
  intros Hwf%history_wf Hp Ha.
  destruct (bind_spec opts rnd t p i addr len Hwf Hp Ha) as (r & t' & E & HO).
  exists r, t'. split; [done |].
  destruct HO as [(Hr & HE & ->) | (laddr & lport & Hl & Hla & Hu & HL & HS & HO)].
  { split; [lia |]. split; [done |]. done. }
  destruct HO as [(-> & port & [Hwf' R] & Hn & HT & Hport) | [-> HO]].
  - split; [intros _ | split; [lia | done]].
    eexists _, laddr, lport. split; [done |]. split; [exact R |].
    split; [by split; [rewrite R; apply lookup_insert_eq | apply inhash_set] |].
    split; [done |]. split; [done |]. split; [done |].
    intros q o dst Hq Hqp Ho Hd Hda. rewrite accepts_hashed.
    by eapply (not_taken_shares opts t p i laddr port q o dst).
  - split; [done |]. split.
    + intros _. split; [done |]. intros q j. destruct (lport =? 0); [| by destruct HO as [-> _]].
      destruct HO as [[_ R] _]. unfold in_table. rewrite R.
      pose proof (unbound_unhashed t p i Hwf Hp Hl) as Hi.
      destruct (decide (q = p)) as [-> |]; [| by rewrite lookup_insert_ne].
      rewrite lookup_insert_eq, Hp. split; intros [[= <-] Hh];
        change (inhash i = true) in Hh; congruence.
    + intros _. exists laddr, lport. split; [done |]. by destruct (lport =? 0); destruct HO.
Qed.

Lemma inpcb_bind_correct_witness : exists r t',
  inpcb_bind (fun _ => 0) 7 0x300 (Some (demo_sockaddr [10; 0; 0; 2] 80)) 16
    (default inpcb_table_init (run_op (DoAlloc (Some 0x300) (Some (3, Some AF_INET))) demo_table)) =
    Some (r, t') /\ r = - EADDRINUSE.
Proof.
  set (t := default inpcb_table_init (run_op (DoAlloc (Some 0x300) (Some (3, Some AF_INET))) demo_table)).
  assert (Ht : history t).
  { apply (history_step demo_table (DoAlloc (Some 0x300) (Some (3, Some AF_INET))));
      [exact demo_history | | vm_compute; reflexivity]. intros q [= <-]. vm_compute. reflexivity. }
  set (i := default (Inpcb [] [] 0 0 0 0 0 None 0) (t_pcbs t !! 0x300)).
  destruct (inpcb_bind_correct demo_ip (fun _ => 0) 7 t 0x300 i
    (Some (demo_sockaddr [10; 0; 0; 2] 80)) 16) as (r & t' & E & _).
  - exact Ht.
  - vm_compute. reflexivity.
  - intros a [= <-]. by apply demo_sockaddr_ok; [apply bytes_check |].
  - exists r, t'. split; [exact E |]. vm_compute in E. by injection E as <- _.
Defined.

(** ** The transport checksum *)

(** The pseudo headers of RFC 793 and RFC 8200. *)
Definition pseudo_header (src dst : list Z) (proto len : Z) : list Z :=
  if inpcb_is_v4_mapped dst
  then inpcb_unmap_v4 src ++ inpcb_unmap_v4 dst ++ [0; proto] ++ be_bytes 2 len
  else src ++ dst ++ be_bytes 4 len ++ [0; 0; 0; proto].

Lemma ones_small x : 0 <= x <= 65535 -> ones x = x.
Proof. intros. symmetry. apply oc_ones; [apply oc_refl |]; lia. Qed.

Lemma l4_fold_spec s : 0 <= s <= 131070 -> l4_fold 4 s = Some (ones s).
Proof.
  intros Hs. cbn [l4_fold]. rewrite Z.shiftr_div_pow2 by lia. change 0xFFFF with (2 ^ 16 - 1).
  destruct (Z.leb_spec s 65535).
  - rewrite Z.div_small by lia. cbn [Z.eqb]. by rewrite ones_small by lia.
  - assert (s / 2 ^ 16 = 1) as E by (symmetry; apply (Z.div_unique s (2 ^ 16) 1 (s - 65536)); lia).
    rewrite E, land_ones_mod, Z.mod_eq, E by lia. cbn [Z.eqb].
    replace (u32 (s - 2 ^ 16 * 1 + 1)) with (s - 65535) by (rewrite u32_small; lia).
    rewrite Z.shiftr_div_pow2, Z.div_small by lia. cbn [Z.eqb]. f_equal.
    rewrite <- (ones_small (s - 65535)) by lia. apply ones_eq, (oc_diff _ _ (-1)); lia.
Qed.

Lemma unmap_ok a : addr_ok a -> bytes (inpcb_unmap_v4 a) /\ length (inpcb_unmap_v4 a) = 4%nat.
Proof.
  intros [B L]. split; [by apply Forall_take, Forall_drop |].
  unfold inpcb_unmap_v4. rewrite length_take, length_drop. lia.
Qed.

Lemma pseudo_header_facts src dst proto len : addr_ok src -> addr_ok dst -> is_byte proto ->
  bytes (pseudo_header src dst proto len) /\ Nat.Even (length (pseudo_header src dst proto len)).
Proof.
  intros Hs Hd Hp. unfold pseudo_header.
  destruct (unmap_ok src Hs) as [B1 L1], (unmap_ok dst Hd) as [B2 L2].
  pose proof (be_bytes_bytes 2 len). pose proof (be_bytes_bytes 4 len).
  assert (is_byte 0) by done.
  destruct (inpcb_is_v4_mapped dst).
  - split; [apply Forall_app; split; [done |]; apply Forall_app; split; [done |];
            apply Forall_app; split; [by rewrite !Forall_cons | done] |].
    rewrite !length_app, L1, L2, be_bytes_length. by exists 6%nat.
  - destruct Hs as [B3 L3], Hd as [B4 L4].
    split; [apply Forall_app; split; [done |]; apply Forall_app; split; [done |];
            apply Forall_app; split; [done | by rewrite !Forall_cons] |].
    rewrite !length_app, L3, L4, be_bytes_length. by exists 20%nat.
Qed.

Lemma l4_checksum_spec nb offset len proto src dst : Forall nb_wf nb ->
  bytes (content nb) -> 0 <= offset -> 0 <= len < 65536 -> is_byte proto ->
  addr_ok src -> addr_ok dst ->
  inpcb_l4_checksum nb offset len proto src dst =
  Some (rfc1071 (pseudo_header src dst proto len ++
                 take (Z.to_nat len) (drop (Z.to_nat offset) (content nb)))).
Proof.
  intros Hnb Hb Ho Hl Hp Hs Hd. unfold inpcb_l4_checksum.
  destruct (pseudo_header_facts src dst proto len Hs Hd Hp) as [HPb HPe].
  assert (HP : (if inpcb_is_v4_mapped dst
      then inet_pseudo_checksum4 (inpcb_unmap_v4 src) (inpcb_unmap_v4 dst) proto len
      else inet_pseudo_checksum6 src dst proto len) =
      Some (ones (be_words_sum (pseudo_header src dst proto len)))).
  { unfold pseudo_header. destruct (unmap_ok src Hs), (unmap_ok dst Hd), Hs, Hd.
    destruct (inpcb_is_v4_mapped dst); [by apply pseudo4_spec | apply pseudo6_spec; done || lia]. }
  rewrite HP, option_bind_Some_fun, inet_checksum_netbuf_spec, option_bind_Some_fun by (done || lia).
  set (seg := take _ _). assert (Hseg : bytes seg) by (by apply Forall_take, Forall_drop).
  set (P := pseudo_header _ _ _ _) in *. pose proof (be_words_sum_nonneg P HPb) as HP0.
  pose proof (be_words_sum_nonneg seg Hseg) as HS0.
  destruct (ones_oc _ HP0) as [R1 ?], (ones_oc _ HS0) as [R2 ?].
  unfold rfc1071. rewrite u16_lnot by lia. rewrite u32_small by lia.
  rewrite l4_fold_spec, option_bind_Some_fun by lia. f_equal.
  rewrite be_words_sum_app by done.
  assert (E : ones (65535 - (65535 - ones (be_words_sum seg)) + ones (be_words_sum P)) =
              ones (be_words_sum P + be_words_sum seg)).
  { apply ones_eq. rewrite Z.add_comm. apply oc_add; [done |]. by replace (65535 - _) with (ones (be_words_sum seg)) by lia. }
  rewrite E. destruct (ones_oc (be_words_sum P + be_words_sum seg)) as [_ ?]; [lia |].
  by rewrite lnot16.
Qed.

(** [inpcb_l4_checksum] is the Internet checksum of the pseudo header of the
    packet's address family followed by the segment's bytes, wherever the
    buffer boundaries of the packet lie. *)
Theorem transport_checksum_correct nb offset len proto src dst : Forall nb_wf nb ->
  bytes (content nb) -> 0 <= offset -> 0 <= len < 65536 -> is_byte proto ->
  addr_ok src -> addr_ok dst ->
  inpcb_l4_checksum nb offset len proto src dst =
  Some (rfc1071 (pseudo_header src dst proto len ++
                 take (Z.to_nat len) (drop (Z.to_nat offset) (content nb)))).
Proof. apply l4_checksum_spec. Qed.

Lemma transport_checksum_correct_witness :
  inpcb_l4_checksum demo_packet 1 5 6 (demo_v4 [10; 0; 0; 2]) (demo_v4 [10; 0; 0; 9]) =
  Some (rfc1071 ([10; 0; 0; 2; 10; 0; 0; 9; 0; 6; 0; 5] ++ [2; 3; 4; 5; 6])).
Proof.
  apply (transport_checksum_correct demo_packet 1 5 6 (demo_v4 [10; 0; 0; 2]) (demo_v4 [10; 0; 0; 9])).
  - apply demo_packet_ok.
  - by apply bytes_check.
  - lia.
  - lia.
  - done.
  - split; [by apply bytes_check | done].
  - split; [by apply bytes_check | done].
Defined.

(** ** Connecting *)

(** With SO_REUSEADDR on its socket, a block that lets [inpcb_connect] choose
    its port may get the port of a connection to the same peer: the search
    skips connected blocks, and the four-tuple is only looked up when the port
    is known beforehand.  The second of the two blocks is never found. *)
Lemma connect_may_duplicate_tuple :
  let peer := demo_sockaddr [10; 0; 0; 9] 443 in
  let t := run_ops [DoAlloc (Some 0x100) (Some (1, Some AF_INET));
                    DoConnect (fun _ => SO_REUSEADDR) 0 0x100 peer 16;
                    DoAlloc (Some 0x200) (Some (2, Some AF_INET));
                    DoConnect (fun _ => SO_REUSEADDR) 0 0x200 peer 16] inpcb_table_init in
  exists t' a b, t = Some t' /\ t_pcbs t' !! 0x100 = Some a /\ t_pcbs t' !! 0x200 = Some b /\
    has_tuple (i_faddr a) (i_fport a) (i_laddr a) (i_lport a) b /\
    inpcb_lookup t' (i_faddr b) (i_fport b) (i_laddr b) (i_lport b) true = Some (Some 0x100).
Proof.
  cbv zeta. do 3 eexists. split; [vm_compute; reflexivity |].
  split; [vm_compute; reflexivity |]. split; [vm_compute; reflexivity |].
  split; [vm_compute; done | vm_compute; reflexivity].
Qed.
