(* ===== verification/TcpCc.v ===== *)
(** * TCP congestion control: drivers/net/tcp/tcp_cc.c

    The table of algorithms, the interface a connection uses ([tcp_cc_algo],
    whose entries may be null), and the NewReno algorithm.  [cc_laws] is what a
    connection relies on: the callbacks change the congestion window and the
    slow start threshold and nothing else. *)

From Stdlib Require Import ZArith Lia.
From stdpp Require Import base option list.
From S2P Require Import Prelude TcpVar.
Open Scope Z_scope.

Definition TCP_CC_MAX : Z := 4.
Definition TCP_CWND_MAX : Z := Z.shiftl 1 30.
Definition EEXIST : Z := 17.
Definition ENOMEM : Z := 12.

Inductive tcp_cc_signal := CC_DUPACK | CC_RTO | CC_ECN.

(** A name is its characters; a null pointer in the table of callbacks is [None]. *)
Record tcp_cc_algo := CcAlgo {
  cc_name : list Z;
  cc_init : option (tcpcb -> Z * tcpcb);
  cc_destroy : option (tcpcb -> tcpcb);
  cc_conn_init : option (tcpcb -> tcpcb);
  cc_ack_received : option (Z -> tcpcb -> tcpcb);
  cc_cong_signal : option (tcp_cc_signal -> tcpcb -> tcpcb);
  cc_post_recovery : option (tcpcb -> tcpcb);
  cc_after_idle : option (tcpcb -> tcpcb);
}.

(** Both strings end in a zero byte. *)
Fixpoint tcp_cc_name_eq (a b : list Z) : bool :=
  match a, b with
  | [], [] => true
  | x :: a', y :: b' => if x =? y then tcp_cc_name_eq a' b' else false
  | _, _ => false
  end.

(** ** The table of algorithms *)

Abbreviation cc_table := (list (option tcp_cc_algo)).

Definition tcp_cc_algos : cc_table := replicate (Z.to_nat TCP_CC_MAX) None.

Fixpoint tcp_cc_find (name : list Z) (algos : cc_table) : option tcp_cc_algo :=
  match algos with
  | [] => None
  | Some a :: rest => if tcp_cc_name_eq (cc_name a) name then Some a else tcp_cc_find name rest
  | None :: rest => tcp_cc_find name rest
  end.

(** The first free slot is taken. *)
Fixpoint register_slot (algo : tcp_cc_algo) (algos : cc_table) : option cc_table :=
  match algos with
  | [] => None
  | None :: rest => Some (Some algo :: rest)
  | Some a :: rest => rest ← register_slot algo rest; Some (Some a :: rest)
  end.

Definition tcp_cc_register (algo : tcp_cc_algo) (algos : cc_table) : Z * cc_table :=
  match tcp_cc_find (cc_name algo) algos with
  | Some _ => (- EEXIST, algos)
  | None => match register_slot algo algos with
            | Some algos => (0, algos)
            | None => (- ENOMEM, algos)
            end
  end.

(** ** NewReno *)

Definition tcp_flight_size (tp : tcpcb) : Z := u32 (snd_max tp - snd_una tp).

Definition newreno_initial_window (tp : tcpcb) : Z :=
  if mss tp >? 2190 then 2 * mss tp
  else if mss tp >? 1095 then 3 * mss tp
  else 4 * mss tp.

Definition newreno_half_flight (tp : tcpcb) : Z :=
  let half := tcp_flight_size tp / 2 in
  if half >? 2 * mss tp then half else 2 * mss tp.

Definition newreno_init (tp : tcpcb) : Z * tcpcb :=
  (0, set_snd_ssthresh TCP_CWND_MAX (set_snd_cwnd (newreno_initial_window tp) tp)).

Definition newreno_conn_init (tp : tcpcb) : tcpcb := set_snd_cwnd (newreno_initial_window tp) tp.

Definition newreno_ack_received (acked_bytes : Z) (tp : tcpcb) : tcpcb :=
  let incr := if snd_cwnd tp <=? snd_ssthresh tp
              then (if acked_bytes <? mss tp then acked_bytes else mss tp)
              else u32 (mss tp * mss tp) / snd_cwnd tp in
  let incr := if incr =? 0 then 1 else incr in
  if u32 (snd_cwnd tp + incr) <=? TCP_CWND_MAX then set_snd_cwnd (u32 (snd_cwnd tp + incr)) tp else tp.

Definition newreno_cong_signal (signal : tcp_cc_signal) (tp : tcpcb) : tcpcb :=
  match signal with
  | CC_DUPACK | CC_ECN =>
      let tp := set_snd_ssthresh (newreno_half_flight tp) tp in
      set_snd_cwnd (snd_ssthresh tp) tp
  | CC_RTO =>
      let tp := if rexmt_shift tp <=? 1 then set_snd_ssthresh (newreno_half_flight tp) tp else tp in
      set_snd_cwnd (mss tp) tp
  end.

Definition newreno_post_recovery (tp : tcpcb) : tcpcb := set_snd_cwnd (snd_ssthresh tp) tp.

Definition newreno_after_idle (tp : tcpcb) : tcpcb :=
  let iw := newreno_initial_window tp in
  if snd_cwnd tp >? iw then set_snd_cwnd iw tp else tp.

Definition tcp_cc_newreno : tcp_cc_algo :=
  CcAlgo [110; 101; 119; 114; 101; 110; 111]
    (Some newreno_init) None (Some newreno_conn_init) (Some newreno_ack_received)
    (Some newreno_cong_signal) (Some newreno_post_recovery) (Some newreno_after_idle).

Definition tcp_cc_default (algos : cc_table) : tcp_cc_algo :=
  match algos with Some a :: _ => a | _ => tcp_cc_newreno end.

(** ** What a connection relies on *)

(** Only the window and the threshold differ. *)
Definition cong_only (tp tp' : tcpcb) : Prop :=
  exists w s, tp' = set_snd_ssthresh s (set_snd_cwnd w tp).

(** The callbacks TCP calls without a test are there, and all of them touch
    the window and the threshold only. *)
Record cc_laws (a : tcp_cc_algo) : Prop := {
  law_ack : exists f, cc_ack_received a = Some f /\ forall n tp, cong_only tp (f n tp);
  law_signal : exists f, cc_cong_signal a = Some f /\ forall s tp, cong_only tp (f s tp);
  law_recovery : exists f, cc_post_recovery a = Some f /\ forall tp, cong_only tp (f tp);
  law_init : forall f, cc_init a = Some f -> forall tp, cong_only tp (snd (f tp));
  law_destroy : forall f, cc_destroy a = Some f -> forall tp, cong_only tp (f tp);
  law_conn_init : forall f, cc_conn_init a = Some f -> forall tp, cong_only tp (f tp);
  law_after_idle : forall f, cc_after_idle a = Some f -> forall tp, cong_only tp (f tp);
}.

Lemma cong_only_cwnd w tp : cong_only tp (set_snd_cwnd w tp).
Proof. exists w, (snd_ssthresh tp). by destruct tp as [? ? ? [] ? ? ? ? ?]. Qed.
Lemma cong_only_refl tp : cong_only tp tp.
Proof. exists (snd_cwnd tp), (snd_ssthresh tp). by destruct tp as [? ? ? [] ? ? ? ? ?]. Qed.
Lemma cong_only_both w s tp : cong_only tp (set_snd_cwnd w (set_snd_ssthresh s tp)).
Proof. exists w, s. by destruct tp as [? ? ? [] ? ? ? ? ?]. Qed.

Lemma newreno_laws : cc_laws tcp_cc_newreno.
Proof.
  constructor.
  - eexists. split; [done |]. intros n tp. unfold newreno_ack_received.
    destruct (_ <=? TCP_CWND_MAX); auto using cong_only_cwnd, cong_only_refl.
  - eexists. split; [done |]. intros [] tp; unfold newreno_cong_signal; try apply cong_only_both.
    destruct (rexmt_shift tp <=? 1); auto using cong_only_cwnd, cong_only_both.
  - eexists. split; [done |]. intros tp. apply cong_only_cwnd.
  - intros f [= <-] tp. eexists _, _. done.
  - intros f [=].
  - intros f [= <-] tp. apply cong_only_cwnd.
  - intros f [= <-] tp. unfold newreno_after_idle.
    destruct (_ >? _); auto using cong_only_cwnd, cong_only_refl.
Qed.

(** ** NewReno against RFC 5681 *)

(** The segment size and the window are in the ranges connections keep them in. *)
Record cong_ok (tp : tcpcb) : Prop := {
  ok_mss : 0 < mss tp < 65536;
  ok_cwnd : 0 < snd_cwnd tp <= TCP_CWND_MAX;
  ok_ssthresh : 0 <= snd_ssthresh tp <= TCP_CWND_MAX;
}.

Lemma CWND_MAX_val : TCP_CWND_MAX = 2 ^ 30.
Proof. done. Qed.

(** The growth of one acknowledgement. *)
Definition growth (acked : Z) (tp : tcpcb) : Z :=
  if snd_cwnd tp <=? snd_ssthresh tp then Z.min acked (mss tp)
  else Z.max 1 (mss tp * mss tp / snd_cwnd tp).

Lemma growth_range acked tp : cong_ok tp -> 0 < acked ->
  1 <= growth acked tp /\ snd_cwnd tp + growth acked tp < 2 ^ 32.
Proof.
  intros [] Ha. rewrite CWND_MAX_val in *. unfold growth.
  destruct (Z.leb_spec (snd_cwnd tp) (snd_ssthresh tp)); [lia |].
  pose proof (Z.mul_div_le (mss tp * mss tp) (snd_cwnd tp)) as Hq.
  assert (0 <= mss tp * mss tp / snd_cwnd tp) by (apply Z.div_pos; nia).
  set (q := mss tp * mss tp / snd_cwnd tp) in *. split; [lia |].
  destruct (Z.eq_dec q 0) as [-> |]; [lia |].
  assert (snd_cwnd tp + q <= snd_cwnd tp * q + 1) by nia. nia.
Qed.

(** The NewReno window follows RFC 5681.  An acknowledgement of new data
    grows it by min(acked, mss) in slow start and by mss*mss/cwnd, at least a
    byte, in congestion avoidance, and never past 2^30; a loss signalled by
    duplicate acknowledgements sets threshold and window to half the flight but
    at least two segments; a timeout sets the window to one segment and, the
    first time, the threshold likewise; idleness never raises the window above
    the initial one of RFC 3390.  The window stays positive throughout, so the
    division is defined. *)
Theorem newreno_rfc5681 tp acked : cong_ok tp -> 0 < acked < 2 ^ 31 -> tcp_flight_size tp < 2 ^ 31 ->
  let grown := newreno_ack_received acked tp in
  let lost := newreno_cong_signal CC_DUPACK tp in
  let timed := newreno_cong_signal CC_RTO tp in
  let idle := newreno_after_idle tp in
  let half := Z.max (tcp_flight_size tp / 2) (2 * mss tp) in
  (cong_ok grown /\ cong_ok lost /\ cong_ok timed /\ cong_ok idle /\ cong_ok (newreno_post_recovery lost)) /\
  snd_cwnd grown = (if snd_cwnd tp + growth acked tp <=? TCP_CWND_MAX
                    then snd_cwnd tp + growth acked tp else snd_cwnd tp) /\
  (snd_ssthresh lost = half /\ snd_cwnd lost = half) /\
  snd_cwnd timed = mss tp /\
  snd_ssthresh timed = (if rexmt_shift tp <=? 1 then half else snd_ssthresh tp) /\
  snd_cwnd idle = Z.min (snd_cwnd tp) (newreno_initial_window tp).
Proof.
  intros Hok Ha Hf. destruct (growth_range acked tp Hok (proj1 Ha)) as [G1 G2].
  destruct Hok as [Hm Hc Hs]. rewrite CWND_MAX_val in *. intros grown lost timed idle half.
  assert (0 <= tcp_flight_size tp) by (apply u32_range).
  assert (Hhalf : newreno_half_flight tp = half).
  { unfold newreno_half_flight, half. destruct (Z.gtb_spec (tcp_flight_size tp / 2) (2 * mss tp)); lia. }
  assert (0 < half <= 2 ^ 30).
  { unfold half. assert (tcp_flight_size tp / 2 < 2 ^ 30) by (apply Z.div_lt_upper_bound; lia). lia. }
  assert (HI : 0 < newreno_initial_window tp < 2 ^ 30).
  { unfold newreno_initial_window. repeat case_match; lia. }
  assert (E : grown = if snd_cwnd tp + growth acked tp <=? 2 ^ 30
                      then set_snd_cwnd (snd_cwnd tp + growth acked tp) tp else tp).
  { unfold grown, newreno_ack_received. rewrite CWND_MAX_val.
    replace (if _ =? 0 then 1 else _) with (growth acked tp).
    - rewrite u32_small by lia. done.
    - unfold growth in *. rewrite (u32_small (mss tp * mss tp)) by nia.
      assert (0 <= mss tp * mss tp / snd_cwnd tp) by (apply Z.div_pos; nia).
      destruct (snd_cwnd tp <=? snd_ssthresh tp); [destruct (Z.ltb_spec acked (mss tp)) |];
        case_match; lia. }
  assert (Eg : snd_cwnd grown = (if snd_cwnd tp + growth acked tp <=? 2 ^ 30
                    then snd_cwnd tp + growth acked tp else snd_cwnd tp)) by (rewrite E; by case_match).
  split_and!.
  - constructor; rewrite ?Eg, ?E; case_match; tcp_simpl; rewrite ?CWND_MAX_val; lia.
  - constructor; unfold lost; cbn [newreno_cong_signal]; tcp_simpl; rewrite ?CWND_MAX_val, ?Hhalf; lia.
  - constructor; unfold timed; cbn [newreno_cong_signal]; destruct (rexmt_shift tp <=? 1); tcp_simpl;
      rewrite ?CWND_MAX_val, ?Hhalf; lia.
  - constructor; unfold idle, newreno_after_idle;
      destruct (snd_cwnd tp >? newreno_initial_window tp); tcp_simpl; rewrite ?CWND_MAX_val; lia.
  - constructor; unfold lost, newreno_post_recovery; cbn [newreno_cong_signal]; tcp_simpl;
      rewrite ?CWND_MAX_val, ?Hhalf; lia.
  - exact Eg.
  - exact Hhalf.
  - exact Hhalf.
  - unfold timed. cbn [newreno_cong_signal]. by destruct (rexmt_shift tp <=? 1).
  - unfold timed. cbn [newreno_cong_signal]. by destruct (rexmt_shift tp <=? 1).
  - unfold idle, newreno_after_idle. destruct (Z.gtb_spec (snd_cwnd tp) (newreno_initial_window tp)); tcp_simpl; lia.
Qed.

(** A connection with ten segments of 1000 bytes in flight. *)
Definition demo_cc_tcpcb : tcpcb :=
  set_mss 1000 (set_snd_max 10000 (set_snd_ssthresh 20000 (set_snd_cwnd 10000
    (Tcpcb TCPS_ESTABLISHED (SndVars 0 0 0 0 0 0 0 0) (RcvVars 0 0 0 0 0 0 0) (CongVars 0 0 0 0)
      (RttVars 0 0 1000 0 0) (MiscVars 0 0 0 0 0 0 0 0 0) (ReassVars [] 0) (SackVars [] 0 0 0)
      (TimerVars (Callout false 0 0 0) (Callout false 0 0 0) (Callout false 0 0 0)
         (Callout false 0 0 0) (Callout false 0 0 0)))))).

Lemma newreno_rfc5681_witness :
  snd_cwnd (newreno_ack_received 500 demo_cc_tcpcb) = 10500 /\
  snd_cwnd (newreno_cong_signal CC_DUPACK demo_cc_tcpcb) = 5000.
Proof.
  destruct (newreno_rfc5681 demo_cc_tcpcb 500) as (_ & E1 & [_ E2] & _).
  - constructor; vm_compute; done.
  - lia.
  - vm_compute. reflexivity.
  - rewrite E1, E2. split; reflexivity.
Defined.
