(* ===== verification/TcpConn.v ===== *)
(** * TCP connections: the state and its primitives

    A connection is its control block, its internet control block (in the table
    of endpoints), its socket, the packets it handed to IP, the clock and the
    answers of the allocator.  The handlers of tcp_output.c, tcp_subr.c,
    tcp_timer.c, tcp_input.c and tcp_usrreq.c are programs of a state monad that
    can fault: dereferencing the control block after [tcp_close], or the socket
    or the internet control block after it is freed, is a fault, so that a
    program that ends without one does not use freed memory.  A handler runs
    under the socket's and the table's lock, hence as one step, at one time.
    The counters of [tcpstat] are not part of the state.

    The second part models what TCP uses of callout.c, socket.c and
    tcp_timer.c. *)

From Stdlib Require Import ZArith Lia.
From stdpp Require Import base option gmap list.
From S2P Require Import Prelude Bytes PktStore Sockbuf Inpcb TcpVar TcpReass TcpCc.
Open Scope Z_scope.
Open Scope hermes_scope.

(** ** Socket buffers as byte streams *)

(** The data, the limit and the flags of a socket buffer; [Sockbuf] proves that
    the chains of packets behave so. *)
Record sbuf := Sbuf { bf_data : list Z; bf_hiwat : Z; bf_flags : Z }.

Definition bf_cc (b : sbuf) : Z := Z.of_nat (length (bf_data b)).
Definition bf_space (b : sbuf) : Z := if bf_cc b <? bf_hiwat b then bf_hiwat b - bf_cc b else 0.
Definition bf_copy (off len : Z) (b : sbuf) : list Z :=
  take (Z.to_nat len) (drop (Z.to_nat off) (bf_data b)).
Definition bf_drop (len : Z) (b : sbuf) : sbuf :=
  Sbuf (drop (Z.to_nat len) (bf_data b)) (bf_hiwat b) (bf_flags b).
Definition bf_append (bs : list Z) (b : sbuf) : sbuf :=
  Sbuf (bf_data b ++ bs) (bf_hiwat b) (bf_flags b).
Definition bf_set_flag (f : Z) (b : sbuf) : sbuf :=
  Sbuf (bf_data b) (bf_hiwat b) (Z.lor (bf_flags b) f).

(** [b] is the stream of the socket buffer [sb] in the heap [h]. *)
Definition bf_view (h : store) (sb : sockbuf) (b : sbuf) : Prop :=
  exists rs, sockbuf_repr h sb rs /\ stream h rs = bf_data b /\
    sb_hiwat sb = bf_hiwat b /\ sb_flags sb = bf_flags b.

(** ** Sockets *)

Definition SS_ISCONNECTED : Z := 0x0001.
Definition SS_ISCONNECTING : Z := 0x0002.
Definition SS_ISDISCONNECTING : Z := 0x0004.
Definition SS_CANTSENDMORE : Z := 0x0010.
Definition SS_CANTRCVMORE : Z := 0x0020.
Definition SO_ACCEPTCONN : Z := 0x0002.
Definition SO_KEEPALIVE : Z := 0x0008.

(** The queue of the listening socket that [listen_link] is in. *)
Inductive accept_queue := NoQueue | Incomplete | Complete.

(** [so_listen_head]: whether the pointer to the listening socket is set. *)
Record socket := Socket {
  so_state : Z;
  so_options : Z;
  so_error : Z;
  so_linger : Z;
  so_snd : sbuf;
  so_rcv : sbuf;
  so_listen_head : bool;
  so_embryonic : bool;
  so_queue : accept_queue;
  so_refcount : Z;
}.

Definition set_so_state (v : Z) (s : socket) : socket :=
  Socket v (so_options s) (so_error s) (so_linger s) (so_snd s) (so_rcv s) (so_listen_head s) (so_embryonic s) (so_queue s) (so_refcount s).
Definition set_so_options (v : Z) (s : socket) : socket :=
  Socket (so_state s) v (so_error s) (so_linger s) (so_snd s) (so_rcv s) (so_listen_head s) (so_embryonic s) (so_queue s) (so_refcount s).
Definition set_so_error (v : Z) (s : socket) : socket :=
  Socket (so_state s) (so_options s) v (so_linger s) (so_snd s) (so_rcv s) (so_listen_head s) (so_embryonic s) (so_queue s) (so_refcount s).
Definition set_so_linger (v : Z) (s : socket) : socket :=
  Socket (so_state s) (so_options s) (so_error s) v (so_snd s) (so_rcv s) (so_listen_head s) (so_embryonic s) (so_queue s) (so_refcount s).
Definition set_so_snd (v : sbuf) (s : socket) : socket :=
  Socket (so_state s) (so_options s) (so_error s) (so_linger s) v (so_rcv s) (so_listen_head s) (so_embryonic s) (so_queue s) (so_refcount s).
Definition set_so_rcv (v : sbuf) (s : socket) : socket :=
  Socket (so_state s) (so_options s) (so_error s) (so_linger s) (so_snd s) v (so_listen_head s) (so_embryonic s) (so_queue s) (so_refcount s).
Definition set_so_listen_head (v : bool) (s : socket) : socket :=
  Socket (so_state s) (so_options s) (so_error s) (so_linger s) (so_snd s) (so_rcv s) v (so_embryonic s) (so_queue s) (so_refcount s).
Definition set_so_embryonic (v : bool) (s : socket) : socket :=
  Socket (so_state s) (so_options s) (so_error s) (so_linger s) (so_snd s) (so_rcv s) (so_listen_head s) v (so_queue s) (so_refcount s).
Definition set_so_queue (v : accept_queue) (s : socket) : socket :=
  Socket (so_state s) (so_options s) (so_error s) (so_linger s) (so_snd s) (so_rcv s) (so_listen_head s) (so_embryonic s) v (so_refcount s).
Definition set_so_refcount (v : Z) (s : socket) : socket :=
  Socket (so_state s) (so_options s) (so_error s) (so_linger s) (so_snd s) (so_rcv s) (so_listen_head s) (so_embryonic s) (so_queue s) v.

(** ** Connections *)

(** What became of the control block: in use; closed, kept until the dispatched
    timer handlers have entered ([t_draining] of them); or freed. *)
Inductive tcb :=
| Live (tp : tcpcb)
| Draining (n : Z)
| Freed.

(** A packet handed to the IP layer: the request and the bytes from the TCP
    header on. *)
Record sent := Sent { s_req : ip_request; s_bytes : list Z }.

Record conn := Conn {
  c_tcb : tcb;
  c_cc : tcp_cc_algo;
  c_table : inpcb_table;
  c_inp : Z;
  c_so : option socket;
  c_out : list sent;
  c_ticks : Z;
  c_hz : Z;
  c_alloc : oracle;
  c_isn_key : list Z;
}.

Definition set_c_tcb (v : tcb) (s : conn) : conn :=
  Conn v (c_cc s) (c_table s) (c_inp s) (c_so s) (c_out s) (c_ticks s) (c_hz s) (c_alloc s) (c_isn_key s).
Definition set_c_cc (v : tcp_cc_algo) (s : conn) : conn :=
  Conn (c_tcb s) v (c_table s) (c_inp s) (c_so s) (c_out s) (c_ticks s) (c_hz s) (c_alloc s) (c_isn_key s).
Definition set_c_table (v : inpcb_table) (s : conn) : conn :=
  Conn (c_tcb s) (c_cc s) v (c_inp s) (c_so s) (c_out s) (c_ticks s) (c_hz s) (c_alloc s) (c_isn_key s).
Definition set_c_inp (v : Z) (s : conn) : conn :=
  Conn (c_tcb s) (c_cc s) (c_table s) v (c_so s) (c_out s) (c_ticks s) (c_hz s) (c_alloc s) (c_isn_key s).
Definition set_c_so (v : option socket) (s : conn) : conn :=
  Conn (c_tcb s) (c_cc s) (c_table s) (c_inp s) v (c_out s) (c_ticks s) (c_hz s) (c_alloc s) (c_isn_key s).
Definition set_c_out (v : list sent) (s : conn) : conn :=
  Conn (c_tcb s) (c_cc s) (c_table s) (c_inp s) (c_so s) v (c_ticks s) (c_hz s) (c_alloc s) (c_isn_key s).
Definition set_c_ticks (v : Z) (s : conn) : conn :=
  Conn (c_tcb s) (c_cc s) (c_table s) (c_inp s) (c_so s) (c_out s) v (c_hz s) (c_alloc s) (c_isn_key s).
Definition set_c_hz (v : Z) (s : conn) : conn :=
  Conn (c_tcb s) (c_cc s) (c_table s) (c_inp s) (c_so s) (c_out s) (c_ticks s) v (c_alloc s) (c_isn_key s).
Definition set_c_alloc (v : oracle) (s : conn) : conn :=
  Conn (c_tcb s) (c_cc s) (c_table s) (c_inp s) (c_so s) (c_out s) (c_ticks s) (c_hz s) v (c_isn_key s).
Definition set_c_isn_key (v : list Z) (s : conn) : conn :=
  Conn (c_tcb s) (c_cc s) (c_table s) (c_inp s) (c_so s) (c_out s) (c_ticks s) (c_hz s) (c_alloc s) v.

(** ** The monad *)

Definition M (A : Type) : Type := conn -> option (A * conn).
Definition retM {A} (a : A) : M A := fun s => Some (a, s).
Definition bindM {A B} (m : M A) (f : A -> M B) : M B :=
  fun s => match m s with Some (a, s') => f a s' | None => None end.
Definition fault {A} : M A := fun _ => None.
Definition lift {A} (o : option A) : M A := fun s => match o with Some a => Some (a, s) | None => None end.
Definition gets {A} (f : conn -> A) : M A := fun s => Some (f s, s).
Definition modify (f : conn -> conn) : M unit := fun s => Some (tt, f s).

Declare Scope conn_scope.
Delimit Scope conn_scope with conn.
Notation "'let*' x ':=' m 'in' k" := (bindM m (fun x => k))
  (at level 10, x name, k at level 200, only parsing) : conn_scope.
Notation "'let*' ' x ':=' m 'in' k" := (bindM m (fun x => k))
  (at level 10, x strict pattern, k at level 200, only parsing) : conn_scope.
Notation "m ;! k" := (bindM m (fun _ => k)) (at level 199, right associativity) : conn_scope.
Open Scope conn_scope.

Definition when (b : bool) (m : M unit) : M unit := if b then m else retM tt.

Definition get_tp : M tcpcb :=
  fun s => match c_tcb s with Live tp => Some (tp, s) | _ => None end.
Definition upd_tp (f : tcpcb -> tcpcb) : M unit :=
  let* tp := get_tp in modify (set_c_tcb (Live (f tp))).
Definition get_inp : M inpcb := fun s => inp ← t_pcbs (c_table s) !! c_inp s; Some (inp, s).
Definition on_table (f : Z -> inpcb_table -> option inpcb_table) : M unit :=
  fun s => t ← f (c_inp s) (c_table s); Some (tt, set_c_table t s).

(** [inp->socket], and the socket it points to. *)
Definition get_so : M socket :=
  let* inp := get_inp in
  match i_socket inp with None => fault | Some _ => let* so := gets c_so in lift so end.
Definition get_so_opt : M (option socket) :=
  let* inp := get_inp in
  match i_socket inp with
  | None => retM None
  | Some _ => let* so := gets c_so in let* so := lift so in retM (Some so)
  end.
Definition upd_so (f : socket -> socket) : M unit :=
  let* so := get_so in modify (set_c_so (Some (f so))).

Definition detached : M bool := let* inp := get_inp in retM (i_flags inp &? INPCB_DETACHED).

(** ** Clock and timers: callout.c, tcp_timer.c *)

Definition now_ms (ticks hz : Z) : Z := u64 (ticks * 1000) / hz.
Definition tcp_now_ms : M Z := gets (fun s => now_ms (c_ticks s) (c_hz s)).

Definition ticks_from_ms (hz ms : Z) : Z :=
  let t := u64 (ms * hz) / 1000 in if negb (t =? 0) then t else 1.

Definition get_timer (which : tcp_timer_type) (tp : tcpcb) : callout :=
  match which with
  | TCPT_REXMT => tm_rexmt tp | TCPT_PERSIST => tm_persist tp | TCPT_KEEP => tm_keep tp
  | TCPT_2MSL => tm_2msl tp | TCPT_DELACK => tm_delack tp
  end.
Definition set_timer (which : tcp_timer_type) (c : callout) : tcpcb -> tcpcb :=
  match which with
  | TCPT_REXMT => set_tm_rexmt c | TCPT_PERSIST => set_tm_persist c | TCPT_KEEP => set_tm_keep c
  | TCPT_2MSL => set_tm_2msl c | TCPT_DELACK => set_tm_delack c
  end.

Definition callout_reset (ticks delay : Z) (c : callout) : callout :=
  let delay := if delay =? 0 then 1 else delay in
  Callout true (u64 (ticks + delay)) (c_dispatched c) (c_entered c).
Definition callout_stop (c : callout) : callout :=
  if c_pending c then Callout false (c_expires c) (c_dispatched c) (c_entered c) else c.

Definition tcp_timer_active (which : tcp_timer_type) (tp : tcpcb) : bool := c_pending (get_timer which tp).

Definition arm_timer (ticks hz : Z) (which : tcp_timer_type) (delta_ms : Z) (tp : tcpcb) : tcpcb :=
  set_timer which (callout_reset ticks (ticks_from_ms hz delta_ms) (get_timer which tp)) tp.
Definition tcp_timer_activate (which : tcp_timer_type) (delta_ms : Z) : M unit :=
  let* ticks := gets c_ticks in
  let* hz := gets c_hz in
  upd_tp (arm_timer ticks hz which delta_ms).

Definition stop_timer (which : tcp_timer_type) (tp : tcpcb) : tcpcb :=
  set_timer which (callout_stop (get_timer which tp)) tp.
Definition tcp_timer_stop (which : tcp_timer_type) : M unit := upd_tp (stop_timer which).

Definition all_timers : list tcp_timer_type := [TCPT_REXMT; TCPT_PERSIST; TCPT_KEEP; TCPT_2MSL; TCPT_DELACK].
Definition stop_all (tp : tcpcb) : tcpcb := fold_left (fun tp w => stop_timer w tp) all_timers tp.
Definition tcp_timer_stop_all : M unit := upd_tp stop_all.

(** The dispatched handlers that have not entered yet. *)
Definition pending_of (c : callout) : Z := u32 (c_dispatched c - c_entered c).
Definition tcp_timer_discard : M Z :=
  upd_tp stop_all ;!
  let* tp := get_tp in
  retM (fold_left (fun n w => u32 (n + pending_of (get_timer w tp))) all_timers 0).

(** The retransmission timeout, backed off. *)
Definition tcp_rexmt_ms (tp : tcpcb) : Z :=
  let t := u64 (Z.shiftl (rto tp) (rexmt_shift tp)) in
  if t >? TCP_RTO_MAX_MS then TCP_RTO_MAX_MS else t.

(** ** What TCP calls in socket.c *)

Definition sock_is_connecting (so : socket) : socket :=
  set_so_state (Z.lor (so_state so &~ Z.lor SS_ISCONNECTED SS_ISDISCONNECTING) SS_ISCONNECTING) so.

Definition sock_is_connected : M unit :=
  let* so := get_so in
  let was_connected := so_state so &? SS_ISCONNECTED in
  upd_so (set_so_state (Z.lor (so_state so &~ Z.lor SS_ISCONNECTING SS_ISDISCONNECTING) SS_ISCONNECTED)) ;!
  when (negb was_connected && so_listen_head so)
    (match so_queue so with
     | Incomplete => upd_so (fun so => set_so_embryonic false (set_so_queue Complete so))
     | _ => fault
     end).

Definition sock_is_disconnecting (so : socket) : socket :=
  set_so_state (Z.lor (so_state so &~ SS_ISCONNECTING)
    (Z.lor SS_ISDISCONNECTING (Z.lor SS_CANTRCVMORE SS_CANTSENDMORE))) so.

Definition sock_is_disconnected (so : socket) : socket :=
  let so := set_so_state
    (Z.lor (so_state so &~ Z.lor SS_ISCONNECTING (Z.lor SS_ISCONNECTED SS_ISDISCONNECTING))
       (Z.lor SS_CANTRCVMORE SS_CANTSENDMORE)) so in
  let so := set_so_snd (bf_set_flag SB_CANTMORE (so_snd so)) so in
  set_so_rcv (bf_set_flag SB_CANTMORE (so_rcv so)) so.

Definition sock_cant_send_more (so : socket) : socket :=
  set_so_snd (bf_set_flag SB_CANTMORE (so_snd so)) (set_so_state (Z.lor (so_state so) SS_CANTSENDMORE) so).
Definition sock_cant_recv_more (so : socket) : socket :=
  set_so_rcv (bf_set_flag SB_CANTMORE (so_rcv so)) (set_so_state (Z.lor (so_state so) SS_CANTRCVMORE) so).

Definition sock_hold (so : socket) : socket := set_so_refcount (u32 (so_refcount so + 1)) so.

(** [None]: the last reference is gone and the socket freed. *)
Definition sock_release (so : socket) : option socket :=
  if (so_refcount so =? 0) || (so_refcount so - 1 =? 0) then None
  else Some (set_so_refcount (so_refcount so - 1) so).

(** [sock_release] of the connection's socket, by pointer. *)
Definition release_so : M unit :=
  let* so := gets c_so in let* so := lift so in modify (set_c_so (sock_release so)).

Definition sock_drop_embryo : M bool :=
  let* so := get_so in
  if negb (so_listen_head so) || negb (so_embryonic so) then retM false else
  match so_queue so with
  | Incomplete =>
      upd_so (fun so => set_so_embryonic false (set_so_listen_head false (set_so_queue NoQueue so))) ;!
      release_so ;!
      retM true
  | _ => fault
  end.
