(* ===== verification/TcpConnFacts.v ===== *)
(** * Reasoning about programs on a connection

    [wp m Q s]: the program [m] does not fault in [s], and [Q] holds of its
    result and of the state after it.  [live s tp inp so] says what a program
    finds in [s]: the control block, the internet control block and the
    socket.  The primitives of TcpConn.v have one lemma each, and [wp_step]
    applies them along a program. *)

From Stdlib Require Import ZArith Lia.
From stdpp Require Import base option gmap list.
From S2P Require Import Prelude Bytes Inpcb InpcbFacts TcpVar TcpReass TcpCc TcpConn.
Open Scope Z_scope.
Open Scope hermes_scope.

Definition wp {A} (m : M A) (Q : A -> conn -> Prop) (s : conn) : Prop :=
  match m s with Some (a, s') => Q a s' | None => False end.

Lemma cwp_run {A} (m : M A) Q s : wp m Q s <-> exists a s', m s = Some (a, s') /\ Q a s'.
Proof. unfold wp. destruct (m s) as [[a s'] |]; naive_solver. Qed.

Lemma cwp_bind {A B} (m : M A) (f : A -> M B) Q s :
  wp m (fun a s' => wp (f a) Q s') s -> wp (bindM m f) Q s.
Proof. unfold wp, bindM. by destruct (m s) as [[] |]. Qed.

Lemma cwp_mono {A} (m : M A) (P Q : A -> conn -> Prop) s :
  wp m P s -> (forall a s', P a s' -> Q a s') -> wp m Q s.
Proof. unfold wp. destruct (m s) as [[] |]; auto. Qed.

Lemma cwp_ret {A} (a : A) (Q : A -> conn -> Prop) s : Q a s -> wp (retM a) Q s.
Proof. done. Qed.
Lemma cwp_gets {A} (f : conn -> A) (Q : A -> conn -> Prop) s : Q (f s) s -> wp (gets f) Q s.
Proof. done. Qed.
Lemma cwp_modify f (Q : unit -> conn -> Prop) s : Q tt (f s) -> wp (modify f) Q s.
Proof. done. Qed.
Lemma wp_lift {A} (o : option A) (a : A) (Q : A -> conn -> Prop) s : o = Some a -> Q a s -> wp (lift o) Q s.
Proof. by intros ->. Qed.
Lemma cwp_when (b : bool) m (Q : unit -> conn -> Prop) s :
  (b = true -> wp m Q s) -> (b = false -> Q tt s) -> wp (when b m) Q s.
Proof. destruct b; intros H1 H2; [by apply H1 | by apply H2]. Qed.

(** ** What a program finds *)

Record live (s : conn) (tp : tcpcb) (inp : inpcb) (so : socket) : Prop := {
  lv_tcb : c_tcb s = Live tp;
  lv_inp : t_pcbs (c_table s) !! c_inp s = Some inp;
  lv_sock : is_Some (i_socket inp);
  lv_so : c_so s = Some so;
}.

(** The same without the control block, which may be gone. *)
Record attached (s : conn) (inp : inpcb) (so : socket) : Prop := {
  at_inp : t_pcbs (c_table s) !! c_inp s = Some inp;
  at_sock : is_Some (i_socket inp);
  at_so : c_so s = Some so;
}.

Lemma live_attached s tp inp so : live s tp inp so -> attached s inp so.
Proof. by intros []. Qed.

(** The parts of the state [live] and the invariants are about, changed. *)
Definition with_tp (tp : tcpcb) (s : conn) : conn := set_c_tcb (Live tp) s.
Definition with_so (so : socket) (s : conn) : conn := set_c_so (Some so) s.

Lemma live_tp s tp inp so tp' : live s tp inp so -> live (with_tp tp' s) tp' inp so.
Proof. by intros []. Qed.
Lemma live_so s tp inp so so' : live s tp inp so -> live (with_so so' s) tp inp so'.
Proof. by intros []. Qed.

Lemma wp_get_inp s inp so (Q : inpcb -> conn -> Prop) : attached s inp so -> Q inp s -> wp get_inp Q s.
Proof. intros [E _ _] H. unfold wp, get_inp. by rewrite E. Qed.
Lemma wp_get_so s inp so (Q : socket -> conn -> Prop) : attached s inp so -> Q so s -> wp get_so Q s.
Proof.
  intros A H. apply cwp_bind. eapply wp_get_inp; [done |]. destruct A as [_ [id ->] E].
  unfold wp, bindM, gets, lift. by rewrite E.
Qed.
Lemma wp_get_so_opt s inp so (Q : option socket -> conn -> Prop) :
  attached s inp so -> Q (Some so) s -> wp get_so_opt Q s.
Proof.
  intros A H. apply cwp_bind. eapply wp_get_inp; [done |]. destruct A as [_ [id ->] E].
  unfold wp, bindM, gets, lift. by rewrite E.
Qed.
Lemma wp_upd_so s inp so f (Q : unit -> conn -> Prop) :
  attached s inp so -> Q tt (with_so (f so) s) -> wp (upd_so f) Q s.
Proof. intros A H. apply cwp_bind. by eapply wp_get_so. Qed.
Lemma wp_detached s inp so (Q : bool -> conn -> Prop) :
  attached s inp so -> Q (i_flags inp &? INPCB_DETACHED) s -> wp detached Q s.
Proof. intros A H. apply cwp_bind. by eapply wp_get_inp. Qed.

Section primitives.
Context (s : conn) (tp : tcpcb) (inp : inpcb) (so : socket) (L : live s tp inp so).

Lemma wp_get_tp (Q : tcpcb -> conn -> Prop) : Q tp s -> wp get_tp Q s.
Proof using L. unfold wp, get_tp. by rewrite (lv_tcb _ _ _ _ L). Qed.
Lemma wp_upd_tp f (Q : unit -> conn -> Prop) : Q tt (with_tp (f tp) s) -> wp (upd_tp f) Q s.
Proof using L. unfold wp, upd_tp, bindM, get_tp. by rewrite (lv_tcb _ _ _ _ L). Qed.
Lemma wp_timer_activate w ms (Q : unit -> conn -> Prop) :
  Q tt (with_tp (arm_timer (c_ticks s) (c_hz s) w ms tp) s) -> wp (tcp_timer_activate w ms) Q s.
Proof using L. intros H. apply cwp_bind, cwp_gets, cwp_bind, cwp_gets. by apply wp_upd_tp. Qed.
Lemma wp_timer_stop w (Q : unit -> conn -> Prop) :
  Q tt (with_tp (stop_timer w tp) s) -> wp (tcp_timer_stop w) Q s.
Proof using L. apply wp_upd_tp. Qed.
End primitives.

Lemma wp_now_ms (Q : Z -> conn -> Prop) s : Q (now_ms (c_ticks s) (c_hz s)) s -> wp tcp_now_ms Q s.
Proof. done. Qed.

Ltac find_attached := first [eassumption | eapply live_attached; eassumption].

(** One step of a program whose state satisfies a [live] hypothesis. *)
Ltac wp_step :=
  lazymatch goal with
  | |- wp (bindM _ _) _ _ => apply cwp_bind
  | |- wp (retM _) _ _ => apply cwp_ret
  | |- wp (gets _) _ _ => apply cwp_gets
  | |- wp (modify _) _ _ => apply cwp_modify
  | |- wp tcp_now_ms _ _ => apply wp_now_ms
  | |- wp get_tp _ _ => eapply wp_get_tp; [eassumption |]
  | |- wp get_inp _ _ => eapply wp_get_inp; [find_attached |]
  | |- wp get_so _ _ => eapply wp_get_so; [find_attached |]
  | |- wp get_so_opt _ _ => eapply wp_get_so_opt; [find_attached |]
  | |- wp detached _ _ => eapply wp_detached; [find_attached |]
  end.
Ltac wp_steps := repeat wp_step.

(** Timers are apart from the rest of the control block. *)
Definition same_but_timers (tp tp' : tcpcb) : Prop := exists ts, tp' = on_timers (fun _ => ts) tp.

Lemma same_timers_refl tp : same_but_timers tp tp.
Proof. exists (t_timers tp). by destruct tp. Qed.
Lemma set_timer_same w c tp : same_but_timers tp (set_timer w c tp).
Proof. destruct w; eexists; reflexivity. Qed.
Lemma same_timers_trans tp1 tp2 tp3 :
  same_but_timers tp1 tp2 -> same_but_timers tp2 tp3 -> same_but_timers tp1 tp3.
Proof. intros [ts ->] [ts' ->]. by exists ts'. Qed.
Lemma stop_timer_same w tp : same_but_timers tp (stop_timer w tp).
Proof. apply set_timer_same. Qed.
Lemma arm_timer_same ticks hz w ms tp : same_but_timers tp (arm_timer ticks hz w ms tp).
Proof. apply set_timer_same. Qed.
Lemma stop_all_same tp : same_but_timers tp (stop_all tp).
Proof. eexists. reflexivity. Qed.
