(* ===== verification/TcpOutput.v ===== *)
(** * TCP output: drivers/net/tcp/tcp_output.c

    What a connection sends and when: the options of a segment, the windows,
    the plan of the next segment (a selective retransmission, new data, a FIN),
    the decision to send, the segment's bytes in a packet buffer, and the state
    after it is sent.  The route to the peer comes from the interface
    [route_layer], the storage of a fresh buffer from [FreshStorage]. *)

From Stdlib Require Import ZArith Lia.
From stdpp Require Import base option gmap list.
From S2P Require Import Prelude Bytes Netbuf Inpcb TcpVar TcpSack TcpOptions TcpReass TcpCc TcpConn.
Open Scope Z_scope.
Open Scope hermes_scope.

Definition TCP_MAXWIN : Z := 65535.
Definition IPPROTO_TCP : Z := 6.
Definition IPV4_HEADER_LEN : Z := 20.
Definition IPV6_HEADER_LEN : Z := 40.
Definition ENOBUFS : Z := 105.

Definition tcp_outflags (s : tcp_state) : Z :=
  match s with
  | TCPS_CLOSED => Z.lor TH_RST TH_ACK
  | TCPS_LISTEN => 0
  | TCPS_SYN_SENT => TH_SYN
  | TCPS_SYN_RECEIVED => Z.lor TH_SYN TH_ACK
  | TCPS_ESTABLISHED | TCPS_CLOSE_WAIT | TCPS_FIN_WAIT_2 | TCPS_TIME_WAIT => TH_ACK
  | TCPS_FIN_WAIT_1 | TCPS_CLOSING | TCPS_LAST_ACK => Z.lor TH_FIN TH_ACK
  end.

Record tcp_txplan := Txplan {
  tx_seq : Z;
  tx_off : Z;
  tx_len : Z;
  tx_flags : Z;
  tx_sack_rxmit : bool;
}.

(** [route_lookup4] and [route_lookup6] of route.c: the MTU of the next hop, if
    there is a route. *)
Class route_layer := {
  route_mtu4 : list Z -> option Z;
  route_mtu6 : list Z -> option Z;
}.

Section output.
Context `{HFS : !FreshStorage} `{rt : route_layer}.
Implicit Types (tp : tcpcb) (so : option socket) (tx : tcp_txplan).

(** ** tcp_local_mss (tcp_subr.c) *)

Definition tcp_local_mss (faddr : list Z) : Z :=
  let v4 := inpcb_is_v4_mapped faddr in
  let found := if v4 then route_mtu4 (inpcb_unmap_v4 faddr) else route_mtu6 faddr in
  let mtu := match found with Some m => if m =? 0 then 1500 else m | None => 1500 end in
  let mss := u32 (mtu - (if v4 then IPV4_HEADER_LEN else IPV6_HEADER_LEN) - TCP_HEADER_LEN) in
  u16 (if mss <? TCP_MAX_PAYLOAD then mss else TCP_MAX_PAYLOAD).

(** ** Options and windows *)

(** The options a segment with [flags] carries. *)
Definition tcp_build_opts (faddr : list Z) (now flags : Z) (tp : tcpcb) : list Z :=
  let offer := negb (t_flags tp &? TF_NOOPT) in
  let active := bool_decide (t_state tp = TCPS_SYN_SENT) in
  let bit b f := if (b : bool) then f else 0 in
  let '(oflags, omss, owscale, sacks) :=
    if flags &? TH_SYN then
      let scale := offer && (active || (t_flags tp &? TF_RCVD_SCALE)) in
      (Z.lor TOF_MSS (Z.lor (bit scale TOF_SCALE)
         (Z.lor (bit (offer && (active || (t_flags tp &? TF_SACK_PERMIT))) TOF_SACKPERM)
            (bit (offer && (active || (t_flags tp &? TF_RCVD_TSTMP))) TOF_TS))),
       tcp_local_mss faddr, if scale then req_rcv_scale tp else 0, [])
    else
      let sacks := if (t_flags tp &? TF_SACK_PERMIT) && negb (bool_decide (reassemble_queue tp = []))
                   then tcp_sack_build_blocks tp TCP_MAX_SACK else [] in
      (Z.lor (bit (t_flags tp &? TF_RCVD_TSTMP) TOF_TS)
         (bit (negb (bool_decide (sacks = []))) TOF_SACK), 0, 0, sacks) in
  tcp_addoptions (TcpOpts oflags omss owscale (u32 now) (ts_recent tp) sacks).

Definition advertised (tp : tcpcb) : Z :=
  if SEQ_GT (rcv_adv tp) (rcv_nxt tp) then u32 (rcv_adv tp - rcv_nxt tp) else 0.

Definition tcp_rcv_window (so : option socket) (tp : tcpcb) : Z :=
  let win := match so with Some s => u32 (bf_space (so_rcv s)) | None => 0 end in
  let win := match so with
             | Some s => if (win <? bf_hiwat (so_rcv s) / 4) && (win <? mss tp) then 0 else win
             | None => win
             end in
  let max := u32 (Z.shiftl TCP_MAXWIN (rcv_scale tp)) in
  let win := if win >? max then max else win in
  if win >? advertised tp then win else advertised tp.

Definition tcp_window_field (tp : tcpcb) (win flags : Z) : Z :=
  let w := Z.shiftr win (if flags &? TH_SYN then 0 else rcv_scale tp) in
  if w >? TCP_MAXWIN then TCP_MAXWIN else w.

Definition tcp_in_sack_recovery (tp : tcpcb) : bool :=
  (t_flags tp &? TF_FASTRECOVERY) && (t_flags tp &? TF_SACK_PERMIT).

Definition tcp_send_window (tp : tcpcb) : option Z :=
  cwnd ← (if tcp_in_sack_recovery tp then
            pipe ← tcp_sack_pipe tp;
            Some (u32 (u32 (snd_nxt tp - snd_una tp) +
                       (if snd_cwnd tp >? pipe then snd_cwnd tp - pipe else 0)))
          else Some (snd_cwnd tp));
  let win := if snd_wnd tp <? cwnd then snd_wnd tp else cwnd in
  Some (if (win =? 0) && (t_flags tp &? TF_FORCEDATA) then 1 else win).

Definition tcp_max_payload (tp : tcpcb) (optlen : Z) : Z :=
  let max := if mss tp >? optlen then mss tp - optlen else 1 in
  if max <? TCP_MAX_PAYLOAD then max else TCP_MAX_PAYLOAD.

(** ** The plan of the next segment *)

Definition tcp_plan_sack_rxmit (maxseg : Z) (tp : tcpcb) (tx : tcp_txplan) : option (bool * tcp_txplan) :=
  if negb (tcp_in_sack_recovery tp) then Some (false, tx) else
  hole ← tcp_sack_next_hole tp;
  match hole with
  | None => Some (false, tx)
  | Some (seq, len) =>
      pipe ← tcp_sack_pipe tp;
      if snd_cwnd tp <=? pipe then Some (true, tx) else
      let room := snd_cwnd tp - pipe in
      let len := if len >? maxseg then maxseg else len in
      Some (true, Txplan seq (u32 (seq - snd_una tp)) (if len <? room then len else room)
                    (tx_flags tx) true)
  end.

Definition tcp_plan_data (sb_cc maxseg : Z) (tp : tcpcb) (tx : tcp_txplan) : option tcp_txplan :=
  if negb (TCPS_HAVEESTABLISHED (t_state tp)) then Some tx else
  win ← tcp_send_window tp;
  let end_ := if sb_cc <? win then sb_cc else win in
  let off := u32 (snd_nxt tp - snd_una tp) in
  let len := if end_ >? off then end_ - off else 0 in
  Some (Txplan (tx_seq tx) off (if len >? maxseg then maxseg else len) (tx_flags tx) (tx_sack_rxmit tx)).

Definition set_tx_flags (f : Z) (tx : tcp_txplan) : tcp_txplan :=
  Txplan (tx_seq tx) (tx_off tx) (tx_len tx) f (tx_sack_rxmit tx).

Definition tcp_plan_fin (sb_cc : Z) (tp : tcpcb) (tx : tcp_txplan) : tcp_txplan :=
  if negb (tx_flags tx &? TH_FIN) then tx else
  let more_data := tx_sack_rxmit tx || (u32 (tx_off tx + tx_len tx) <? sb_cc) in
  let already_sent := (t_flags tp &? TF_SENTFIN) && (snd_nxt tp =? snd_max tp) in
  if more_data || already_sent then set_tx_flags (tx_flags tx &~ TH_FIN) tx else tx.

Definition tcp_nagle_allows (sb_cc : Z) (tp : tcpcb) (tx : tcp_txplan) : bool :=
  let idle := snd_max tp =? snd_una tp in
  (idle || (t_flags tp &? TF_NODELAY)) && (u32 (tx_off tx + tx_len tx) >=? sb_cc).

Definition tcp_window_update_due (so : option socket) (tp : tcpcb) : bool :=
  if negb (TCPS_HAVEESTABLISHED (t_state tp)) then false else
  let win := tcp_rcv_window so tp in
  if win <=? advertised tp then false else
  let incr := win - advertised tp in
  (incr >=? 2 * mss tp) ||
  match so with Some s => u32 (2 * incr) >=? bf_hiwat (so_rcv s) | None => false end.

Definition tcp_should_send (so : option socket) (sb_cc maxseg : Z) (tp : tcpcb) (tx : tcp_txplan) : bool :=
  if negb (tx_len tx =? 0) &&
     ((tx_len tx >=? maxseg) || tx_sack_rxmit tx || (t_flags tp &? TF_FORCEDATA) ||
      SEQ_LT (snd_nxt tp) (snd_max tp) || tcp_nagle_allows sb_cc tp tx)
  then true
  else if t_flags tp &? TF_ACKNOW then true
  else if tx_flags tx &? Z.lor TH_SYN (Z.lor TH_RST TH_FIN) then true
  else tcp_window_update_due so tp.

(** ** Persist timer *)

Definition persist_ms (tp : tcpcb) : Z :=
  let t := u64 (Z.shiftl (rto tp) (rexmt_shift tp)) in
  let t := if t <? TCP_PERSMIN_MS then TCP_PERSMIN_MS else t in
  if t >? TCP_PERSMAX_MS then TCP_PERSMAX_MS else t.

Definition tcp_setpersist : M unit :=
  let* tp := get_tp in
  tcp_timer_activate TCPT_PERSIST (persist_ms tp) ;!
  when (rexmt_shift tp <? TCP_MAXRXTSHIFT) (upd_tp (set_rexmt_shift (rexmt_shift tp + 1))).

Definition tcp_maybe_persist (sb_cc : Z) : M unit :=
  let* tp := get_tp in
  if (sb_cc =? 0) || negb (TCPS_HAVEESTABLISHED (t_state tp)) then retM tt
  else if tcp_timer_active TCPT_REXMT tp || tcp_timer_active TCPT_PERSIST tp then retM tt
  else upd_tp (set_rexmt_shift 0) ;! tcp_setpersist.

(** ** The segment in a packet buffer *)

(** The bytes of the header in memory; ports are in network order already. *)
Definition tcp_fill_header (sport dport seq ack flags win hlen : Z) : list Z :=
  le_bytes 2 sport ++ le_bytes 2 dport ++ be_bytes 4 seq ++
  (if flags &? TH_ACK then be_bytes 4 ack else [0; 0; 0; 0]) ++
  [u8 (Z.shiftl (hlen / 4) 4); flags] ++ be_bytes 2 win ++ [0; 0] ++ [0; 0].

Definition tcp_checksum_and_send (inp : option inpcb) (nb : netbuf) (src dst : list Z) : M unit :=
  let* c := lift (inpcb_l4_checksum [nb] 0 (nb_len nb) IPPROTO_TCP src dst) in
  let* buf := lift (splice (nb_buf nb) (nb_data nb + 16) (be_bytes 2 c)) in
  let* bs := lift (slice buf (nb_data nb) (nb_len nb)) in
  modify (fun s => set_c_out (c_out s ++ [Sent (inpcb_ip_output inp IPPROTO_TCP src dst) bs]) s).

Definition alloc_nb (f : oracle -> option netbuf * oracle) : M (option netbuf) :=
  let* o := gets c_alloc in
  let '(nb, o) := f o in
  modify (set_c_alloc o) ;! retM nb.

(** The storage after the header, the options and the data are written. *)
Definition fill_segment (nb : netbuf) (hdr opt : list Z) (snd : option sbuf) (tx : tcp_txplan)
  : option (list Z) :=
  let hlen := TCP_HEADER_LEN + Z.of_nat (length opt) in
  buf ← splice (nb_buf nb) (nb_data nb) hdr;
  buf ← splice buf (nb_data nb + TCP_HEADER_LEN) opt;
  if tx_len tx =? 0 then Some buf else
  snd ← snd;
  let data := bf_copy (tx_off tx) (tx_len tx) snd in
  let copied := Z.of_nat (length data) in
  buf ← splice buf (nb_data nb + hlen) data;
  if copied <? tx_len tx
  then splice buf (nb_data nb + hlen + copied) (replicate (Z.to_nat (tx_len tx - copied)) 0)
  else Some buf.

Definition tcp_build_segment (tx : tcp_txplan) (opt : list Z) (win : Z) : M (option netbuf) :=
  let* nb := alloc_nb (netbuf_alloc_cluster true) in
  match nb with
  | None => retM None
  | Some nb =>
      let* tp := get_tp in
      let* inp := get_inp in
      let* so := get_so_opt in
      let hlen := TCP_HEADER_LEN + Z.of_nat (length opt) in
      let hdr := tcp_fill_header (i_lport inp) (i_fport inp) (tx_seq tx) (rcv_nxt tp) (tx_flags tx)
                   (tcp_window_field tp win (tx_flags tx)) hlen in
      let* buf := lift (fill_segment nb hdr opt (so_snd <$> so) tx) in
      retM (Some (set_pkt_len (hlen + tx_len tx)
             (set_window (nb_data nb) (hlen + tx_len tx) (set_buf buf nb))))
  end.

(** ** After a segment is sent *)

Definition seq_len (tx : tcp_txplan) : Z :=
  tx_len tx + (if tx_flags tx &? TH_SYN then 1 else 0) + (if tx_flags tx &? TH_FIN then 1 else 0).

(** What every segment does: it carries an acknowledgement and a window. *)
Definition after_ack (win : Z) (tp : tcpcb) : tcpcb :=
  let tp := if negb (win =? 0) && SEQ_GT (u32 (rcv_nxt tp + win)) (rcv_adv tp)
            then set_rcv_adv (u32 (rcv_nxt tp + win)) tp else tp in
  let tp := set_last_ack_sent (rcv_nxt tp) tp in
  let tp := set_t_flags (t_flags tp &~ Z.lor TF_ACKNOW TF_DELACK) tp in
  stop_timer TCPT_DELACK tp.

(** The end of the segment moves [snd_nxt] and [snd_max]. *)
Definition advance (now : Z) (probe : bool) (tx : tcp_txplan) (tp : tcpcb) : tcpcb :=
  let end_ := u32 (tx_seq tx + seq_len tx) in
  let tp := if tx_flags tx &? TH_FIN then set_t_flags (Z.lor (t_flags tp) TF_SENTFIN) tp else tp in
  let tp := if tx_sack_rxmit tx
            then set_sack_rexmit_bytes (u32 (sack_rexmit_bytes tp + tx_len tx)) (set_sack_rxmit end_ tp)
            else tp in
  let tp := if negb probe && negb (tx_sack_rxmit tx) then set_snd_nxt end_ tp else tp in
  if SEQ_GT end_ (snd_max tp) then
    let tp := set_snd_max end_ tp in
    if (rtt_start tp =? 0) && negb probe
    then set_rtt_seq (tx_seq tx) (set_rtt_start (if negb (now =? 0) then now else 1) tp)
    else tp
  else tp.

Definition rearm (ticks hz : Z) (probe : bool) (tp : tcpcb) : tcpcb :=
  if negb probe && negb (snd_nxt tp =? snd_una tp) && negb (tcp_timer_active TCPT_REXMT tp) then
    let tp := if tcp_timer_active TCPT_PERSIST tp
              then set_rexmt_shift 0 (stop_timer TCPT_PERSIST tp) else tp in
    arm_timer ticks hz TCPT_REXMT (tcp_rexmt_ms tp) tp
  else tp.

Definition after_send (ticks hz : Z) (tx : tcp_txplan) (win : Z) (tp : tcpcb) : tcpcb :=
  let tp := after_ack win tp in
  if tx_flags tx &? TH_RST then tp else
  let probe := (t_flags tp &? TF_FORCEDATA) && tcp_timer_active TCPT_PERSIST tp in
  rearm ticks hz probe (advance (now_ms ticks hz) probe tx tp).

Definition tcp_after_send (tx : tcp_txplan) (win : Z) : M unit :=
  let* ticks := gets c_ticks in
  let* hz := gets c_hz in
  upd_tp (after_send ticks hz tx win).

(** ** tcp_output *)

(** The plan of a segment, before the decision to send it, and its largest
    payload. *)
Definition plan_segment (so : option socket) (opt : list Z) (flags : Z) (tp : tcpcb)
  : option (Z * tcp_txplan) :=
  let sb_cc := match so with Some s => u32 (bf_cc (so_snd s)) | None => 0 end in
  let tx := Txplan (snd_nxt tp) 0 0 flags false in
  let maxseg := tcp_max_payload tp (Z.of_nat (length opt)) in
  '(planned, tx) ← tcp_plan_sack_rxmit maxseg tp tx;
  tx ← (if (planned : bool) then Some tx else tcp_plan_data sb_cc maxseg tp tx);
  Some (maxseg, tcp_plan_fin sb_cc tp tx).

Definition first_flags (tp : tcpcb) : Z :=
  let flags := tcp_outflags (t_state tp) in
  if (flags &? TH_SYN) && negb (snd_nxt tp =? iss tp) then flags &~ TH_SYN else flags.

Definition tcp_output_once : M Z :=
  let* tp := get_tp in
  let* inp := get_inp in
  let* so := get_so_opt in
  let* now := tcp_now_ms in
  let sb_cc := match so with Some s => u32 (bf_cc (so_snd s)) | None => 0 end in
  let flags := first_flags tp in
  let opt := tcp_build_opts (i_faddr inp) now flags tp in
  let* '(maxseg, tx) := lift (plan_segment so opt flags tp) in
  if negb (tcp_should_send so sb_cc maxseg tp tx) then tcp_maybe_persist sb_cc ;! retM 0 else
  let win := tcp_rcv_window so tp in
  let* nb := tcp_build_segment tx opt win in
  match nb with
  | None => retM (- ENOBUFS)
  | Some nb =>
      tcp_after_send tx win ;!
      tcp_checksum_and_send (Some inp) nb (i_laddr inp) (i_faddr inp) ;!
      let* tp := get_tp in
      let full := (tx_len tx =? maxseg) || tx_sack_rxmit tx in
      retM (if full && negb (tx_flags tx &? TH_RST) && negb (t_flags tp &? TF_FORCEDATA) then 1 else 0)
  end.

(** [while ((ret = tcp_output_once(tp)) > 0);] *)
Fixpoint output_loop (fuel : nat) : M Z :=
  let* ret := tcp_output_once in
  if ret >? 0 then match fuel with O => fault | S fuel => output_loop fuel end else retM ret.

(** Enough for one iteration per byte that may be sent. *)
Definition output_fuel (s : conn) : nat :=
  match c_tcb s, c_so s with
  | Live tp, Some so => Z.to_nat (rel (snd_una tp) (snd_max tp) + bf_cc (so_snd so))
  | Live tp, None => Z.to_nat (rel (snd_una tp) (snd_max tp))
  | _, _ => O
  end.

Definition tcp_output : M Z :=
  let* tp := get_tp in
  let* now := tcp_now_ms in
  let* cc := gets c_cc in
  let idle := snd_max tp =? snd_una tp in
  (if idle && TCPS_HAVEESTABLISHED (t_state tp) && (u64 (now - t_rcvtime tp) >=? rto tp)
   then match cc_after_idle cc with Some f => upd_tp f | None => retM tt end
   else retM tt) ;!
  let* fuel := gets output_fuel in
  output_loop fuel.

(** ** tcp_respond *)

(** The addresses and ports of a reply to a segment no connection takes. *)
Record reply_to := ReplyTo { r_src : list Z; r_dst : list Z; r_sport : Z; r_dport : Z }.

Definition respond_with (inp : option inpcb) (to : reply_to) (win ack seq flags : Z) : M unit :=
  let* nb := alloc_nb (netbuf_alloc true) in
  match nb with
  | None => retM tt
  | Some nb =>
      let hdr := tcp_fill_header (r_sport to) (r_dport to) seq ack flags win TCP_HEADER_LEN in
      let* buf := lift (splice (nb_buf nb) (nb_data nb) hdr) in
      tcp_checksum_and_send inp
        (set_pkt_len TCP_HEADER_LEN (set_window (nb_data nb) TCP_HEADER_LEN (set_buf buf nb)))
        (r_src to) (r_dst to)
  end.

(** For a connection. *)
Definition tcp_respond (ack seq flags : Z) : M unit :=
  let* tp := get_tp in
  let* inp := get_inp in
  let* so := get_so_opt in
  respond_with (Some inp) (ReplyTo (i_laddr inp) (i_faddr inp) (i_lport inp) (i_fport inp))
    (tcp_window_field tp (tcp_rcv_window so tp) 0) ack seq flags.

End output.
