(* ===== verification/TcpSegment.v ===== *)
(** * The bytes of a segment

    What tcp_output.c writes into the buffer it hands to IP: the header, the
    options and the payload fit the buffer, every byte of the segment is
    written, and the checksum field makes the checksum over the pseudo header
    and the segment 0. *)

From Stdlib Require Import ZArith Lia.
From stdpp Require Import base option gmap list.
From S2P Require Import Prelude Bytes Netbuf NetbufFacts Checksum Inpcb InpcbFacts InpcbTheorems TcpVar.
From S2P Require Import TcpSack TcpOptions TcpReass TcpCc TcpConn TcpConnFacts TcpOutput.
Open Scope Z_scope.
Open Scope hermes_scope.

(** The segment [p] with its checksum, sent from [src] to [dst]. *)
Definition stamped (src dst p : list Z) : list Z :=
  take 16 p ++
  be_bytes 2 (rfc1071 (pseudo_header src dst IPPROTO_TCP (Z.of_nat (length p)) ++ p)) ++
  drop 18 p.

Lemma header_length sp dp seq ack flags win hlen :
  length (tcp_fill_header sp dp seq ack flags win hlen) = 20%nat.
Proof.
  unfold tcp_fill_header. rewrite !length_app, !le_bytes_length, !be_bytes_length.
  destruct (flags &? TH_ACK); rewrite ?be_bytes_length; done.
Qed.

Lemma header_bytes sp dp seq ack flags win hlen : is_byte flags ->
  bytes (tcp_fill_header sp dp seq ack flags win hlen).
Proof.
  intros Hf. unfold tcp_fill_header.
  repeat first [apply le_bytes_bytes | apply be_bytes_bytes | by apply bytes_check | apply Forall_app; split].
  - destruct (flags &? TH_ACK); [apply be_bytes_bytes | by apply bytes_check].
  - constructor; [apply u8_range | by constructor].
Qed.

(** The checksum field of a header is 0 until it is computed. *)
Lemma header_checksum_zero sp dp seq ack flags win hlen rest :
  let p := tcp_fill_header sp dp seq ack flags win hlen ++ rest in
  p = take 16 p ++ [0; 0] ++ drop 18 p.
Proof.
  unfold tcp_fill_header, be_bytes. cbn [le_bytes rev app].
  destruct (flags &? TH_ACK); reflexivity.
Qed.

Lemma tcp_put16_bytes v : bytes (tcp_put16 v).
Proof. repeat constructor; apply u8_range. Qed.
Lemma tcp_put32_bytes v : bytes (tcp_put32 v).
Proof. apply Forall_app; split; apply tcp_put16_bytes. Qed.
Lemma put_blocks_bytes bs : bytes (flat_map put_block bs).
Proof.
  induction bs as [| b bs IH]; [constructor |]. cbn [flat_map]. apply Forall_app; split; [| exact IH].
  apply Forall_app; split; apply tcp_put32_bytes.
Qed.

Lemma bytes_app xs ys : bytes xs -> bytes ys -> bytes (xs ++ ys).
Proof. intros Hx Hy. apply Forall_app. by split. Qed.

Lemma opt_header_bytes kind len : is_byte kind -> is_byte len -> bytes (tcp_put_opt_header kind len).
Proof. intros Hk Hl. repeat constructor; done || apply Hk || apply Hl. Qed.

Lemma encode_prefix_bytes to : is_byte (to_wscale to) -> bytes (encode_prefix to).
Proof.
  intros Hw. unfold encode_prefix. repeat apply bytes_app.
  - destruct (_ &? TOF_MSS); [| constructor]. apply bytes_app; [by apply bytes_check | apply tcp_put16_bytes].
  - destruct (_ &? TOF_SCALE); [| constructor].
    apply (bytes_app [TCPOPT_NOP; TCPOPT_WINDOW; 3]); [by apply bytes_check | by constructor].
  - destruct (_ &? TOF_SACKPERM); [by apply opt_header_bytes | constructor].
  - destruct (_ &? TOF_TS); [| constructor]. apply bytes_app; [by apply opt_header_bytes |].
    apply bytes_app; apply tcp_put32_bytes.
Qed.

Lemma addoptions_bytes to : is_byte (to_wscale to) -> bytes (tcp_addoptions to).
Proof.
  intros Hw. rewrite addoptions_encode. apply bytes_app; [by apply encode_prefix_bytes |].
  unfold encode_sacks. pose proof (sent_sacks_range to). destruct (sent_sacks to =? 0); [constructor |].
  apply bytes_app; [| apply put_blocks_bytes]. apply opt_header_bytes; [done |]. unfold is_byte, is_u. lia.
Qed.

Section segment.
Context `{HFS : !FreshStorage} `{rt : route_layer}.
Implicit Types (tp : tcpcb).

Lemma build_opts_fits faddr now flags tp :
  Z.of_nat (length (tcp_build_opts faddr now flags tp)) <= 40 /\
  Z.of_nat (length (tcp_build_opts faddr now flags tp)) mod 4 = 0.
Proof. unfold tcp_build_opts. destruct (flags &? TH_SYN); apply addoptions_fits. Qed.

Lemma build_opts_bytes faddr now flags tp : is_byte (req_rcv_scale tp) ->
  bytes (tcp_build_opts faddr now flags tp).
Proof.
  intros H. unfold tcp_build_opts. destruct (flags &? TH_SYN); apply addoptions_bytes; cbn [to_wscale].
  - by destruct (_ && _).
  - done.
Qed.

(** The payload: what the send buffer has, then zeros. *)
Definition seg_data (snd : sbuf) (tx : tcp_txplan) : list Z :=
  let data := if tx_len tx =? 0 then [] else bf_copy (tx_off tx) (tx_len tx) snd in
  data ++ replicate (Z.to_nat (tx_len tx) - length data) 0.

Lemma bf_copy_length off len b : (length (bf_copy off len b) <= Z.to_nat len)%nat.
Proof. unfold bf_copy. rewrite length_take. lia. Qed.

Lemma seg_data_length snd tx : 0 <= tx_len tx -> Z.of_nat (length (seg_data snd tx)) = tx_len tx.
Proof.
  intros H. unfold seg_data. rewrite length_app, length_replicate.
  pose proof (bf_copy_length (tx_off tx) (tx_len tx) snd).
  destruct (Z.eqb_spec (tx_len tx) 0); cbn [length]; lia.
Qed.

Lemma seg_data_bytes snd tx : bytes (bf_data snd) -> bytes (seg_data snd tx).
Proof.
  intros H. apply Forall_app. split; [| by apply Forall_replicate].
  destruct (tx_len tx =? 0); [constructor | by apply Forall_take, Forall_drop].
Qed.

(** Data the send buffer has is sent as it is. *)
Lemma seg_data_exact snd tx : 0 <= tx_off tx -> 0 <= tx_len tx -> tx_off tx + tx_len tx <= bf_cc snd ->
  seg_data snd tx = take (Z.to_nat (tx_len tx)) (drop (Z.to_nat (tx_off tx)) (bf_data snd)).
Proof.
  intros Ho Hl Hc. unfold seg_data, bf_copy, bf_cc in *.
  destruct (Z.eqb_spec (tx_len tx) 0) as [-> |]; [done |].
  rewrite length_take, length_drop. replace (_ - _)%nat with 0%nat by lia. apply app_nil_r.
Qed.

(** The buffer of a segment after [tcp_build_segment]. *)
Definition seg_buf (nb : netbuf) (len : Z) (buf : list Z) : netbuf :=
  set_pkt_len len (set_window (nb_data nb) len (set_buf buf nb)).

(** Appending to the window of a buffer, as the writes of a segment do. *)
Lemma append_to nb n buf src w : nb_wf (set_window (nb_data nb) n (set_buf buf nb)) ->
  payload (set_window (nb_data nb) n (set_buf buf nb)) = w ->
  nb_data nb + n + Z.of_nat (length src) <= Z.of_nat (length buf) ->
  exists buf', splice buf (nb_data nb + n) src = Some buf' /\
    let b := set_window (nb_data nb) (n + Z.of_nat (length src)) (set_buf buf' nb) in
    nb_wf b /\ payload b = w ++ src /\ length buf' = length buf.
Proof.
  intros Hwf <- Hfit. destruct (splice_append _ src Hwf Hfit) as (buf' & E & Hwf' & Hp & Hs).
  exists buf'. split; [exact E |]. split; [exact Hwf' |]. split; [exact Hp |].
  unfold nb_buf_size in Hs. cbn in Hs. lia.
Qed.

(** The data and the padding behind it. *)
Lemma append_padded nb n buf data len w : nb_wf (set_window (nb_data nb) n (set_buf buf nb)) ->
  payload (set_window (nb_data nb) n (set_buf buf nb)) = w ->
  Z.of_nat (length data) <= len -> nb_data nb + n + len <= Z.of_nat (length buf) ->
  exists buf', (buf ← splice buf (nb_data nb + n) data;
     if Z.of_nat (length data) <? len
     then splice buf (nb_data nb + n + Z.of_nat (length data))
            (replicate (Z.to_nat (len - Z.of_nat (length data))) 0)
     else Some buf) = Some buf' /\
    let b := set_window (nb_data nb) (n + len) (set_buf buf' nb) in
    nb_wf b /\ payload b = w ++ data ++ replicate (Z.to_nat len - length data) 0.
Proof.
  intros Hwf Hw Hd Hfit.
  destruct (append_to nb n buf data w) as (b3 & E3 & W3 & P3 & L3); [done | done | lia |].
  rewrite E3, option_bind_Some_fun. destruct (Z.ltb_spec (Z.of_nat (length data)) len).
  - destruct (append_to nb (n + Z.of_nat (length data)) b3
      (replicate (Z.to_nat (len - Z.of_nat (length data))) 0) (w ++ data))
      as (b4 & E4 & W4 & P4 & L4); [done | done | rewrite length_replicate; lia |].
    rewrite length_replicate in W4, P4. rewrite Z.add_assoc in E4. exists b4. rewrite <- app_assoc in P4.
    replace (n + Z.of_nat (length data) + Z.of_nat (Z.to_nat (len - Z.of_nat (length data))))
      with (n + len) in * by lia.
    replace (Z.to_nat (len - Z.of_nat (length data))) with (Z.to_nat len - length data)%nat in * by lia.
    done.
  - exists b3. replace (Z.to_nat len - length data)%nat with 0%nat by lia.
    cbn [replicate]. rewrite app_nil_r. by replace len with (Z.of_nat (length data)) by lia.
Qed.

Lemma fill_segment_spec hdr opt snd tx : length hdr = 20%nat -> (length opt <= 40)%nat ->
  0 <= tx_len tx <= TCP_MAX_PAYLOAD ->
  let nb := netbuf_setup NETBUF_CLUSTER_SIZE true in
  let len := TCP_HEADER_LEN + Z.of_nat (length opt) + tx_len tx in
  exists buf, fill_segment nb hdr opt (Some snd) tx = Some buf /\ nb_wf (seg_buf nb len buf) /\
    payload (seg_buf nb len buf) = hdr ++ opt ++ seg_data snd tx.
Proof.
  intros Hh Ho Hl nb len. destruct (setup_wf NETBUF_CLUSTER_SIZE true) as (Hwf & Hp & Hs & _); [done |].
  fold nb in Hwf, Hp, Hs. unfold TCP_MAX_PAYLOAD, TCP_MAX_HEADER_LEN, TCP_HEADER_LEN in *.
  assert (Hd : nb_data nb = 64) by done. unfold nb_buf_size, NETBUF_CLUSTER_SIZE in Hs.
  unfold fill_segment, TCP_HEADER_LEN. clearbody nb.
  destruct (append_to nb 0 (nb_buf nb) hdr []) as (b1 & E1 & W1 & P1 & L1);
    [destruct Hwf; split; unfold nb_buf_size in *; cbn; lia | done | lia |].
  rewrite Z.add_0_r in E1. rewrite E1, option_bind_Some_fun. rewrite Hh in W1, P1.
  destruct (append_to nb 20 b1 opt hdr) as (b2 & E2 & W2 & P2 & L2); [done | done | lia |].
  rewrite E2, option_bind_Some_fun. unfold seg_data. destruct (Z.eqb_spec (tx_len tx) 0) as [E0 | Hn].
  { exists b2. split; [done |]. unfold len. rewrite E0. cbn [length app Z.to_nat Nat.sub replicate].
    rewrite Z.add_0_r, app_nil_r. split; [by apply set_pkt_len_wf | exact P2]. }
  rewrite option_bind_Some_fun. set (data := bf_copy (tx_off tx) (tx_len tx) snd).
  assert (Hlen : (length data <= Z.to_nat (tx_len tx))%nat) by apply bf_copy_length.
  destruct (append_padded nb (20 + Z.of_nat (length opt)) b2 data (tx_len tx) (hdr ++ opt))
    as (b3 & E3 & W3 & P3); [done | done | lia | lia |].
  exists b3. rewrite <- app_assoc in P3. split; [exact E3 |]. split; [by apply set_pkt_len_wf | exact P3].
Qed.

(** Sending: the packet IP gets. *)
Lemma checksum_and_send_spec inp nb src dst s : nb_wf nb -> bytes (payload nb) ->
  18 <= nb_len nb < 65536 -> addr_ok src -> addr_ok dst ->
  tcp_checksum_and_send inp nb src dst s =
  Some (tt, set_c_out (c_out s ++ [Sent (inpcb_ip_output inp IPPROTO_TCP src dst)
                                     (stamped src dst (payload nb))]) s).
Proof.
  intros Hwf Hb Hl Hs Hd. pose proof (payload_length nb Hwf) as Hpl.
  unfold tcp_checksum_and_send. unfold bindM at 1, lift at 1.
  assert (Hc : content [nb] = payload nb) by apply app_nil_r.
  rewrite l4_checksum_spec; rewrite ?Hc; [| by constructor | done | lia | lia | done | done | done].
  rewrite drop_0, take_ge, <- Hpl by lia. cbv beta iota.
  set (c := rfc1071 _).
  destruct (splice_within nb 16 (be_bytes 2 c) Hwf) as (buf & E & W & P);
    [lia | rewrite be_bytes_length; lia |].
  unfold bindM at 1, lift at 1. rewrite E. cbv beta iota.
  unfold bindM, lift, modify.
  pose proof (slice_whole (set_buf buf nb) W) as E2. cbn [nb_buf nb_data nb_len set_buf] in E2.
  rewrite Hpl, E2. rewrite be_bytes_length in P. by rewrite P.
Qed.

End segment.
