(* ===== verification/TcpOutputFacts.v ===== *)
(** * tcp_output returns, and sends what the send buffer holds

    [out_ok]: what sending relies on.  From such a state [tcp_output_once] plans
    a segment within the buffer and the window, builds it without overrunning
    the cluster, and keeps [out_ok]; a call that asks for another one has moved
    the retransmission point or [snd_nxt] forward, so that the loop of
    [tcp_output] ends. *)

From Stdlib Require Import ZArith Lia.
From stdpp Require Import base option gmap list.
From S2P Require Import Prelude Bytes Netbuf NetbufFacts Inpcb InpcbFacts InpcbTheorems TcpVar TcpSack.
From S2P Require Import TcpOptions TcpReass TcpCc TcpConn TcpConnFacts TcpOutput TcpSegment.
Open Scope Z_scope.
Open Scope hermes_scope.

Implicit Types (tp : tcpcb) (so : socket) (tx : tcp_txplan).

Definition sent_fin tp : Z := if t_flags tp &? TF_SENTFIN then 1 else 0.

(** How far [snd_max] is ahead of [snd_una], by state, with [C] bytes in the
    send buffer: the SYN alone, or the data and the FIN. *)
Definition seq_bound tp (C : Z) : Prop :=
  match t_state tp with
  | TCPS_CLOSED => True
  | TCPS_LISTEN => sack_count tp = 0
  | TCPS_SYN_SENT | TCPS_SYN_RECEIVED =>
      sack_count tp = 0 /\ snd_una tp = iss tp /\ rel (snd_una tp) (snd_max tp) <= 1
  | _ => rel (snd_una tp) (snd_max tp) <= C + sent_fin tp
  end.

Record out_ok tp (C : Z) : Prop := {
  oo_cc : 0 <= C < 2 ^ 31 - 1;
  oo_sack : sack_ok tp;
  oo_una : is_u 32 (snd_una tp);
  oo_nxt : is_u 32 (snd_nxt tp);
  oo_max : is_u 32 (snd_max tp);
  oo_rxmit : rel (snd_una tp) (sack_rxmit tp) <= rel (snd_una tp) (snd_max tp);
  oo_order : rel (snd_una tp) (snd_nxt tp) <= rel (snd_una tp) (snd_max tp);
  oo_bound : seq_bound tp C;
  oo_scale : is_byte (req_rcv_scale tp);
}.

(** ** The plan of a segment *)

Lemma max_payload_range tp n : 1 <= tcp_max_payload tp n <= TCP_MAX_PAYLOAD.
Proof.
  unfold tcp_max_payload, TCP_MAX_PAYLOAD, TCP_MAX_HEADER_LEN. rewrite Z.gtb_ltb.
  destruct (Z.ltb_spec n (mss tp)); zcases.
Qed.

Lemma sack_pipe_total tp : sack_ok tp -> exists p, tcp_sack_pipe tp = Some p.
Proof. intros H. unfold tcp_sack_pipe. rewrite sack_bytes_spec by done. eauto. Qed.

(** A retransmission that fills a hole of the scoreboard: it starts at the
    retransmission point or behind it and ends below the last block. *)
Record fills_hole tp tx : Prop := {
  fh_seq : tx_off tx = rel (snd_una tp) (tx_seq tx);
  fh_from : rel (snd_una tp) (sack_rxmit tp) <= tx_off tx;
  fh_len : 0 < tx_len tx;
  fh_to : forall top, board_ok (snd_una tp) top (board tp) -> tx_off tx + tx_len tx < top;
}.

Lemma plan_sack_spec maxseg tp tx : sack_ok tp ->
  rel (snd_una tp) (sack_rxmit tp) <= rel (snd_una tp) (snd_max tp) -> 1 <= maxseg ->
  exists planned tx', tcp_plan_sack_rxmit maxseg tp tx = Some (planned, tx') /\
    (tx' = tx \/
     planned = true /\ tx_sack_rxmit tx' = true /\ tx_flags tx' = tx_flags tx /\
     tx_len tx' <= maxseg /\ fills_hole tp tx' /\ sack_count tp <> 0).
Proof.
  intros Hok Hrx Hm. unfold tcp_plan_sack_rxmit. destruct (tcp_in_sack_recovery tp); [| eauto].
  destruct (next_hole_spec tp Hok Hrx) as (r & Er & Hr). cbn [negb]. rewrite Er, option_bind_Some_fun.
  destruct r as [[seq len] |]; [| eauto]. destruct (sack_pipe_total tp Hok) as [p Ep].
  rewrite Ep, option_bind_Some_fun. destruct (Z.leb_spec (snd_cwnd tp) p); [eauto |].
  destruct Hr as (H1 & H2 & _ & _ & H5). do 2 eexists. split; [done |]. right.
  rewrite Z.gtb_ltb. set (len' := if maxseg <? len then maxseg else len).
  assert (0 < len' <= maxseg /\ len' <= len) by (unfold len'; zcases).
  set (n := if len' <? snd_cwnd tp - p then len' else snd_cwnd tp - p).
  assert (0 < n <= len') by (unfold n; zcases).
  do 3 (split; [done |]). cbn [tx_len]. split; [lia |]. split.
  - constructor; cbn [tx_off tx_seq tx_len]; [done | exact H1 | lia |]. intros top [_ Hb].
    apply Exists_exists in H5 as (b & Hb1 & Hb2). rewrite Forall_forall in Hb.
    destruct (Hb b Hb1) as [_ Hb3]. unfold rel in *. lia.
  - intros E0. unfold board in H5. rewrite E0 in H5. inversion H5.
Qed.

Lemma plan_data_spec C maxseg tp tx : sack_ok tp -> 1 <= maxseg -> 0 <= C -> tx_off tx = 0 -> tx_len tx = 0 ->
  exists tx', tcp_plan_data C maxseg tp tx = Some tx' /\
    tx_seq tx' = tx_seq tx /\ tx_flags tx' = tx_flags tx /\ tx_sack_rxmit tx' = tx_sack_rxmit tx /\
    0 <= tx_len tx' <= maxseg /\
    (TCPS_HAVEESTABLISHED (t_state tp) = true -> tx_off tx' = rel (snd_una tp) (snd_nxt tp)) /\
    (TCPS_HAVEESTABLISHED (t_state tp) = false -> tx' = tx) /\
    (0 < tx_len tx' -> tx_off tx' + tx_len tx' <= C).
Proof.
  intros Hok Hm HC Ho Hl. unfold tcp_plan_data. destruct (TCPS_HAVEESTABLISHED (t_state tp)); cbn [negb].
  2:{ exists tx. split; [done |]. repeat (split; [done |]). rewrite Hl. split; [lia |]. split; [done |]. split; [done |]. lia. }
  assert (exists w, tcp_send_window tp = Some w) as [w Ew].
  { unfold tcp_send_window. destruct (tcp_in_sack_recovery tp); [| eauto].
    destruct (sack_pipe_total tp Hok) as [p ->]. eauto. }
  rewrite Ew, option_bind_Some_fun. rewrite !Z.gtb_ltb. eexists. split; [done |].
  cbn [tx_seq tx_flags tx_sack_rxmit tx_off tx_len].
  set (e := if C <? w then C else w). assert (e <= C) by (unfold e; zcases).
  pose proof (rel_range (snd_una tp) (snd_nxt tp)). fold (rel (snd_una tp) (snd_nxt tp)).
  set (o := rel (snd_una tp) (snd_nxt tp)) in *.
  do 3 (split; [done |]). split; [zcases |]. split; [done |]. split; [done |]. zcases.
Qed.

(** What [tcp_output_once] is about to send. *)
Record planned tp (C : Z) (flags maxseg : Z) tx : Prop := {
  pl_max : 1 <= maxseg <= TCP_MAX_PAYLOAD;
  pl_len : 0 <= tx_len tx <= maxseg;
  pl_flags : tx_flags tx = flags \/ tx_flags tx = flags &~ TH_FIN;
  pl_hole : tx_sack_rxmit tx = true -> fills_hole tp tx /\ sack_count tp <> 0 /\ (tx_flags tx &? TH_FIN) = false;
  pl_seq : tx_sack_rxmit tx = false -> tx_seq tx = snd_nxt tp;
  pl_data : tx_sack_rxmit tx = false -> 0 < tx_len tx ->
    TCPS_HAVEESTABLISHED (t_state tp) = true /\ tx_off tx = rel (snd_una tp) (snd_nxt tp) /\
    tx_off tx + tx_len tx <= C;
  pl_fin : tx_sack_rxmit tx = false -> (tx_flags tx &? TH_FIN) = true ->
    (tx_len tx = 0 -> C <= rel (snd_una tp) (snd_nxt tp) \/ C = 0) /\
    ((t_flags tp &? TF_SENTFIN) = false \/ snd_nxt tp <> snd_max tp);
}.

(** [tcp_plan_fin]: the FIN goes with the last byte, once. *)
Lemma plan_fin_spec C tp tx : 0 <= tx_off tx < 2 ^ 32 -> 0 <= tx_len tx -> tx_off tx + tx_len tx < 2 ^ 32 ->
  let tx' := tcp_plan_fin C tp tx in
  tx_seq tx' = tx_seq tx /\ tx_off tx' = tx_off tx /\ tx_len tx' = tx_len tx /\
  tx_sack_rxmit tx' = tx_sack_rxmit tx /\
  (tx_flags tx' = tx_flags tx \/ tx_flags tx' = tx_flags tx &~ TH_FIN) /\
  ((tx_flags tx' &? TH_FIN) = true -> tx_sack_rxmit tx = false /\ C <= tx_off tx + tx_len tx /\
     ((t_flags tp &? TF_SENTFIN) = false \/ snd_nxt tp <> snd_max tp)).
Proof.
  intros Ho Hl Hs. unfold tcp_plan_fin. rewrite u32_small by lia.
  destruct (tx_flags tx &? TH_FIN) eqn:EF; cbn [negb].
  2:{ do 4 (split; [done |]). split; [by left |]. congruence. }
  destruct (tx_sack_rxmit tx) eqn:ES; cbn [orb].
  { cbn. do 3 (split; [done |]). split; [done |]. split; [by right |]. by rewrite ldiff_clears. }
  destruct (Z.ltb_spec (tx_off tx + tx_len tx) C); cbn [orb].
  { cbn. do 3 (split; [done |]). split; [done |]. split; [by right |]. by rewrite ldiff_clears. }
  destruct ((t_flags tp &? TF_SENTFIN) && (snd_nxt tp =? snd_max tp)) eqn:E.
  { cbn. do 3 (split; [done |]). split; [done |]. split; [by right |]. by rewrite ldiff_clears. }
  do 4 (split; [done |]). split; [by left |]. intros _. split; [done |]. split; [done |].
  apply andb_false_iff in E as [E | E]; [by left | right]. by apply Z.eqb_neq.
Qed.

Lemma plan_spec so opt flags tp : let C := bf_cc (so_snd so) in out_ok tp C ->
  exists maxseg tx, plan_segment (Some so) opt flags tp = Some (maxseg, tx) /\
    planned tp C flags maxseg tx.
Proof.
  intros C Hok. pose proof (oo_cc _ _ Hok) as HC. unfold plan_segment. fold C.
  rewrite u32_small by lia. pose proof (max_payload_range tp (Z.of_nat (length opt))) as Hm.
  set (maxseg := tcp_max_payload tp (Z.of_nat (length opt))) in *. clearbody maxseg.
  set (tx0 := Txplan (snd_nxt tp) 0 0 flags false).
  destruct (plan_sack_spec maxseg tp tx0) as (b & tx1 & E1 & H1); [apply Hok | apply Hok | lia |].
  rewrite E1, option_bind_Some_fun. destruct (so_board _ (oo_sack _ _ Hok)) as [HS HF].
  pose proof (so_window _ (oo_sack _ _ Hok)) as Hw.
  assert (Hmax : TCP_MAX_PAYLOAD = 1924) by done.
  destruct H1 as [-> | (-> & ES & EF & Hl & Hh & Hc)].
  - destruct (plan_data_spec C maxseg tp tx0) as (tx2 & E2 & P1 & P2 & P3 & P4 & P5 & P6 & P7);
      [apply Hok | lia | lia | done | done |].
    assert (exists tx3, (if b then Some tx0 else tcp_plan_data C maxseg tp tx0) = Some tx3 /\
      tx_seq tx3 = snd_nxt tp /\ tx_flags tx3 = flags /\ tx_sack_rxmit tx3 = false /\
      0 <= tx_len tx3 <= maxseg /\ (tx_off tx3 = 0 /\ tx_len tx3 = 0 \/
        TCPS_HAVEESTABLISHED (t_state tp) = true /\ tx_off tx3 = rel (snd_una tp) (snd_nxt tp) /\
        (0 < tx_len tx3 -> tx_off tx3 + tx_len tx3 <= C))) as (tx3 & E3 & Q1 & Q2 & Q3 & Q4 & Q5).
    { destruct b; [exists tx0; cbn; repeat (split; [done |]); split; [lia | by left] |].
      exists tx2. do 4 (split; [done |]). split; [done |].
      destruct (TCPS_HAVEESTABLISHED (t_state tp)); [right | left]; [auto | by rewrite P6]. }
    rewrite E3, option_bind_Some_fun. do 2 eexists. split; [done |].
    pose proof (rel_range (snd_una tp) (snd_nxt tp)) as Hr. pose proof (oo_order _ _ Hok) as Hord.
    destruct (plan_fin_spec C tp tx3) as (R1 & R2 & R3 & R4 & R5 & R6); [lia | lia | lia |].
    constructor; rewrite ?R1, ?R2, ?R3, ?R4, ?Q1, ?Q2, ?Q3 in *; try done; try congruence.
    + intros _ Hpos. destruct Q5 as [[? ?] | (? & ? & ?)]; [lia | auto].
    + intros _ Hf. destruct (R6 Hf) as (_ & R7 & R8). split; [| done]. intros E0.
      destruct Q5 as [[? ?] | (? & ? & ?)]; lia.
  - rewrite option_bind_Some_fun. do 2 eexists. split; [done |].
    destruct Hh as [F1 F2 F3 F4]. pose proof (F4 _ (conj HS HF)). pose proof (rel_range (snd_una tp) (tx_seq tx1)).
    destruct (plan_fin_spec C tp tx1) as (R1 & R2 & R3 & R4 & R5 & R6); [lia | lia | lia |].
    constructor; rewrite ?R1, ?R2, ?R3, ?R4, ?ES, ?EF in *; try done; [lia |].
    intros _. split; [constructor; rewrite ?R1, ?R2, ?R3; done |]. split; [done |].
    destruct (tx_flags (tcp_plan_fin C tp tx1) &? TH_FIN) eqn:E; [| done].
    by destruct (R6 eq_refl) as [? _].
Qed.

(** ** After a segment is sent *)

(** What sending leaves alone. *)
Record out_frame tp tp' : Prop := {
  of_state : t_state tp' = t_state tp;
  of_una : snd_una tp' = snd_una tp;
  of_iss : iss tp' = iss tp;
  of_blocks : sack_blocks tp' = sack_blocks tp;
  of_count : sack_count tp' = sack_count tp;
  of_reass : t_reass tp' = t_reass tp;
  of_rcv : rcv_nxt tp' = rcv_nxt tp;
  of_scale : req_rcv_scale tp' = req_rcv_scale tp;
  of_recovery : (t_flags tp &? TF_FASTRECOVERY) = false -> (t_flags tp' &? TF_FASTRECOVERY) = false;
  of_max : rel (snd_una tp) (snd_max tp) <= rel (snd_una tp) (snd_max tp');
}.

Lemma out_frame_refl tp : out_frame tp tp.
Proof. done. Qed.
Lemma out_frame_trans tp1 tp2 tp3 : out_frame tp1 tp2 -> out_frame tp2 tp3 -> out_frame tp1 tp3.
Proof.
  intros [? E ? ? ? ? ? ? ? Hm] [? ? ? ? ? ? ? ? ? Hm']. rewrite E in Hm'.
  constructor; [congruence.. | auto | lia].
Qed.

Lemma after_ack_eq win tp : exists ra ts,
  after_ack win tp = on_timers (fun _ => ts) (set_t_flags (t_flags tp &~ Z.lor TF_ACKNOW TF_DELACK)
    (set_last_ack_sent (rcv_nxt tp) (set_rcv_adv ra tp))).
Proof.
  unfold after_ack. set (b := negb _ && _).
  exists (if b then u32 (rcv_nxt tp + win) else rcv_adv tp), (t_timers (stop_timer TCPT_DELACK tp)).
  destruct b; destruct tp as [? ? [] ? ? ? ? ? ?]; reflexivity.
Qed.

Lemma rearm_eq ticks hz probe tp : exists ts k,
  rearm ticks hz probe tp = on_timers (fun _ => ts) (set_rexmt_shift k tp).
Proof.
  unfold rearm. destruct (_ && _ && _); [| by exists (t_timers tp), (rexmt_shift tp); destruct tp as [? ? ? ? ? [] ? ? ?]].
  destruct (tcp_timer_active TCPT_PERSIST tp).
  - eexists _, 0. reflexivity.
  - exists (t_timers (arm_timer ticks hz TCPT_REXMT (tcp_rexmt_ms tp) tp)), (rexmt_shift tp).
    destruct tp as [? ? ? ? ? [] ? ? ?]. reflexivity.
Qed.

(** The fields after a segment [tx]. *)
Record advanced (tp tp' : tcpcb) tx (probe : bool) : Prop := {
  ad_nxt : snd_nxt tp' = if negb probe && negb (tx_sack_rxmit tx) then u32 (tx_seq tx + seq_len tx) else snd_nxt tp;
  ad_max : snd_max tp' = if SEQ_GT (u32 (tx_seq tx + seq_len tx)) (snd_max tp)
                         then u32 (tx_seq tx + seq_len tx) else snd_max tp;
  ad_rxmit : sack_rxmit tp' = if tx_sack_rxmit tx then u32 (tx_seq tx + seq_len tx) else sack_rxmit tp;
  ad_flags : t_flags tp' = if tx_flags tx &? TH_FIN then Z.lor (t_flags tp) TF_SENTFIN else t_flags tp;
  ad_state : t_state tp' = t_state tp;
  ad_una : snd_una tp' = snd_una tp;
  ad_iss : iss tp' = iss tp;
  ad_blocks : sack_blocks tp' = sack_blocks tp;
  ad_count : sack_count tp' = sack_count tp;
  ad_reass : t_reass tp' = t_reass tp;
  ad_rcv : t_rcv tp' = t_rcv tp;
}.

Lemma advance_spec now probe tx tp : advanced tp (advance now probe tx tp) tx probe.
Proof.
  unfold advance. set (e := u32 _).
  destruct (tx_flags tx &? TH_FIN) eqn:EF; destruct (tx_sack_rxmit tx) eqn:ES; destruct probe;
    cbn [negb andb]; tcp_simpl; destruct (SEQ_GT e (snd_max tp)) eqn:EG;
    try (destruct (rtt_start tp =? 0)); cbn [negb andb];
    constructor; rewrite ?EF, ?ES; fold e; rewrite ?EG; reflexivity.
Qed.

(** The fields after [tcp_after_send], for a segment without RST. *)
Lemma after_send_advanced ticks hz tx win tp : (tx_flags tx &? TH_RST) = false ->
  exists probe fl ra la, (probe = true -> (t_flags tp &? TF_FORCEDATA) = true) /\
    fl = t_flags tp &~ Z.lor TF_ACKNOW TF_DELACK /\
    let tp0 := set_t_flags fl (set_last_ack_sent la (set_rcv_adv ra tp)) in
    advanced tp0 (after_send ticks hz tx win tp) tx probe.
Proof.
  intros HR. unfold after_send. rewrite HR.
  destruct (after_ack_eq win tp) as (ra & ts & ->). set (tp1 := on_timers _ _).
  set (probe := _ && _). destruct (rearm_eq ticks hz probe (advance (now_ms ticks hz) probe tx tp1)) as (ts' & k & ->).
  pose proof (advance_spec (now_ms ticks hz) probe tx tp1) as [].
  exists probe, (t_flags tp &~ Z.lor TF_ACKNOW TF_DELACK), ra, (rcv_nxt tp).
  split; [| split; [done |]].
  - intros [E _]%andb_true_iff. rewrite <- E. symmetry. by apply flag_ldiff_other.
  - constructor; tcp_simpl; done.
Qed.

Lemma rel_plus una x k : 0 <= k -> rel una x + k < 2 ^ 32 -> rel una (u32 (x + k)) = rel una x + k.
Proof.
  intros Hk H. pose proof (rel_range una x). unfold rel. rewrite <- (u32_small (u32 (x - una) + k)) by (unfold rel in *; lia).
  unfold u32, wrap. rewrite Zminus_mod_idemp_l, Zplus_mod_idemp_l. f_equal. lia.
Qed.

(** The flags of a segment say what the state is. *)
Lemma first_flags_facts tp :
  (first_flags tp &? TH_RST) = bool_decide (t_state tp = TCPS_CLOSED) /\
  ((first_flags tp &? TH_SYN) = true ->
     (t_state tp = TCPS_SYN_SENT \/ t_state tp = TCPS_SYN_RECEIVED) /\ snd_nxt tp = iss tp) /\
  ((first_flags tp &? TH_FIN) = true -> TCPS_HAVEESTABLISHED (t_state tp) = true).
Proof.
  unfold first_flags. destruct (Z.eqb_spec (snd_nxt tp) (iss tp)); destruct (t_state tp);
    (split; [reflexivity |]); (split; [| by intros]); cbn; intros; try discriminate; auto.
Qed.

Lemma planned_flags tp C flags maxseg tx bit : planned tp C flags maxseg tx -> Z.land TH_FIN bit = 0 ->
  (tx_flags tx &? bit) = (flags &? bit).
Proof.
  intros H Hb. destruct (pl_flags _ _ _ _ _ H) as [-> | ->]; [done |]. f_equal. f_equal.
  apply Z.bits_inj'. intros i Hi. rewrite !Z.land_spec, Z.ldiff_spec.
  apply (f_equal (fun x => Z.testbit x i)) in Hb. rewrite Z.land_spec, Z.bits_0 in Hb.
  by destruct (Z.testbit flags i), (Z.testbit TH_FIN i), (Z.testbit bit i).
Qed.

Lemma planned_fin tp C flags maxseg tx : planned tp C flags maxseg tx ->
  (tx_flags tx &? TH_FIN) = true -> (flags &? TH_FIN) = true.
Proof.
  intros H. destruct (pl_flags _ _ _ _ _ H) as [-> | ->]; [done |]. by rewrite ldiff_clears.
Qed.

(** Where the segment ends, counted from [snd_una]. *)
Definition seg_end tp tx : Z := rel (snd_una tp) (u32 (tx_seq tx + seq_len tx)).

Lemma seg_end_hole tp C maxseg tx : out_ok tp C -> planned tp C (first_flags tp) maxseg tx ->
  (tx_flags tx &? TH_RST) = false -> tx_sack_rxmit tx = true ->
  seg_end tp tx = tx_off tx + tx_len tx /\ TCPS_HAVEESTABLISHED (t_state tp) = true /\ seq_len tx = tx_len tx.
Proof.
  intros Hok Hp HR HS. destruct (pl_hole _ _ _ _ _ Hp HS) as ([F1 F2 F3 F4] & Hc & HF).
  destruct (first_flags_facts tp) as (f1 & f2 & f3).
  rewrite (planned_flags _ _ _ _ _ _ Hp), f1 in HR by done. apply bool_decide_eq_false in HR.
  assert (HE : TCPS_HAVEESTABLISHED (t_state tp) = true).
  { pose proof (oo_bound _ _ Hok) as Hb. unfold seq_bound in Hb. by destruct (t_state tp); try (by destruct Hb). }
  assert (HSyn : (tx_flags tx &? TH_SYN) = false).
  { rewrite (planned_flags _ _ _ _ _ _ Hp) by done. destruct (first_flags tp &? TH_SYN); [| done].
    by destruct (f2 eq_refl) as [[E | E] _]; rewrite E in HE. }
  assert (Hl : seq_len tx = tx_len tx) by (unfold seq_len; rewrite HF, HSyn; lia).
  split; [| done]. unfold seg_end. rewrite Hl.
  pose proof (F4 _ (so_board _ (oo_sack _ _ Hok))). pose proof (so_window _ (oo_sack _ _ Hok)).
  rewrite rel_plus; lia.
Qed.

Definition fin_len tx : Z := if tx_flags tx &? TH_FIN then 1 else 0.
Definition syn_len tx : Z := if tx_flags tx &? TH_SYN then 1 else 0.

Lemma seq_len_cases tp C maxseg tx : planned tp C (first_flags tp) maxseg tx ->
  seq_len tx = tx_len tx + syn_len tx + fin_len tx /\ 0 <= syn_len tx <= 1 /\ 0 <= fin_len tx <= 1 /\
  (TCPS_HAVEESTABLISHED (t_state tp) = true -> syn_len tx = 0) /\
  (TCPS_HAVEESTABLISHED (t_state tp) = false -> fin_len tx = 0) /\
  (syn_len tx = 0 \/
   (t_state tp = TCPS_SYN_SENT \/ t_state tp = TCPS_SYN_RECEIVED) /\ snd_nxt tp = iss tp).
Proof.
  intros Hp. destruct (first_flags_facts tp) as (f1 & f2 & f3).
  pose proof (planned_flags _ _ _ _ _ TH_SYN Hp eq_refl) as HSyn.
  pose proof (planned_fin _ _ _ _ _ Hp) as HFin. split; [done |]. unfold syn_len, fin_len.
  destruct (tx_flags tx &? TH_SYN).
  - destruct (f2 (eq_sym HSyn)) as [Hst En]. split; [lia |]. split; [case_match; lia |].
    split; [destruct Hst as [-> | ->]; done |]. split; [| by right]. intros E.
    destruct (tx_flags tx &? TH_FIN); [| done]. specialize (f3 (HFin eq_refl)). congruence.
  - split; [lia |]. split; [case_match; lia |]. split; [done |]. split; [| by left]. intros E.
    destruct (tx_flags tx &? TH_FIN); [| done]. specialize (f3 (HFin eq_refl)). congruence.
Qed.

(** New data and a FIN end at the end of the send buffer at most; a SYN is
    alone. *)
Lemma seq_len_bound tp C maxseg tx : out_ok tp C -> planned tp C (first_flags tp) maxseg tx ->
  t_state tp <> TCPS_CLOSED -> tx_sack_rxmit tx = false ->
  rel (snd_una tp) (snd_nxt tp) + seq_len tx <=
    Z.max (rel (snd_una tp) (snd_max tp))
      (if TCPS_HAVEESTABLISHED (t_state tp) then C + fin_len tx else 1).
Proof.
  intros Hok Hp HR HS. destruct (seq_len_cases _ _ _ _ Hp) as (-> & Q1 & Q2 & Q3 & Q4 & Q5).
  pose proof (pl_data _ _ _ _ _ Hp HS) as Hd. pose proof (pl_fin _ _ _ _ _ Hp HS) as HF.
  pose proof (pl_len _ _ _ _ _ Hp) as Hl. pose proof (oo_bound _ _ Hok) as Hb.
  pose proof (oo_order _ _ Hok) as Ho. set (N := rel (snd_una tp) (snd_nxt tp)) in *.
  assert (HX : (snd_nxt tp <> snd_max tp) -> N < rel (snd_una tp) (snd_max tp)).
  { intros Hne. destruct (Z.eq_dec N (rel (snd_una tp) (snd_max tp))) as [E |]; [| lia].
    apply rel_inj in E; [done | apply Hok | apply Hok]. }
  set (X := rel (snd_una tp) (snd_max tp)) in *. destruct (TCPS_HAVEESTABLISHED (t_state tp)) eqn:EE.
  - rewrite (Q3 eq_refl).
    assert (X <= C + sent_fin tp) as HX' by (unfold seq_bound in Hb; destruct (t_state tp); done).
    destruct (Z.eq_dec (tx_len tx) 0) as [E0 | E0]; [| destruct Hd as (_ & ? & ?); lia].
    unfold fin_len, sent_fin in *. destruct (tx_flags tx &? TH_FIN); [| lia].
    destruct (HF eq_refl) as [_ [E | E]]; [rewrite E in HX'; lia |].
    specialize (HX E). destruct (t_flags tp &? TF_SENTFIN); lia.
  - rewrite (Q4 eq_refl). assert (tx_len tx = 0) as E0.
    { destruct (Z.eq_dec (tx_len tx) 0); [done |]. destruct Hd as [? _]; [lia | done]. }
    destruct Q5 as [-> | [Hst En]]; [lia |].
    assert (snd_una tp = iss tp) as Eu
      by (unfold seq_bound in Hb; destruct Hst as [E' | E']; rewrite E' in Hb; apply Hb).
    assert (N = 0) by (unfold N; rewrite En, Eu; apply rel_refl). lia.
Qed.

Lemma seg_end_new tp C maxseg tx : out_ok tp C -> planned tp C (first_flags tp) maxseg tx ->
  t_state tp <> TCPS_CLOSED -> tx_sack_rxmit tx = false ->
  seg_end tp tx = rel (snd_una tp) (snd_nxt tp) + seq_len tx /\
  seg_end tp tx <= Z.max (rel (snd_una tp) (snd_max tp))
    (if TCPS_HAVEESTABLISHED (t_state tp) then C + fin_len tx else 1).
Proof.
  intros Hok Hp HR HS. pose proof (seq_len_bound _ _ _ _ Hok Hp HR HS) as Hle.
  destruct (seq_len_cases _ _ _ _ Hp) as (E & Q1 & Q2 & _). pose proof (pl_len _ _ _ _ _ Hp) as Hl.
  pose proof (so_window _ (oo_sack _ _ Hok)) as Hw. pose proof (oo_cc _ _ Hok) as HC.
  assert (seg_end tp tx = rel (snd_una tp) (snd_nxt tp) + seq_len tx) as ->; [| done].
  unfold seg_end. rewrite (pl_seq _ _ _ _ _ Hp HS). apply rel_plus; [lia |].
  destruct (TCPS_HAVEESTABLISHED (t_state tp)); lia.
Qed.

(** Iterations of the loop left: what can be retransmitted below [top], and
    what can be sent of [C] bytes. *)
Definition measure tp (top C : Z) : Z :=
  Z.max 0 (top - rel (snd_una tp) (sack_rxmit tp)) + Z.max 0 (C - rel (snd_una tp) (snd_nxt tp)).

Lemma board_ok_mono una top top' bs : top <= top' -> board_ok una top bs -> board_ok una top' bs.
Proof.
  intros Ht [HS HF]. split; [done |]. eapply Forall_impl; [exact HF |].
  intros b [? ?]. split; [done | lia].
Qed.

Lemma sack_ok_max tp tp' : sack_ok tp -> snd_una tp' = snd_una tp -> sack_blocks tp' = sack_blocks tp ->
  sack_count tp' = sack_count tp -> rel (snd_una tp) (snd_max tp) <= rel (snd_una tp) (snd_max tp') < 2 ^ 31 ->
  sack_ok tp'.
Proof.
  intros [[W1 W2] Hw Hb] Eu Eb Ec Hm. split.
  - split; [by rewrite Eb | by rewrite Ec].
  - rewrite Eu. lia.
  - unfold board. rewrite Eu, Eb, Ec. eapply board_ok_mono; [| exact Hb]. lia.
Qed.

(** A segment without RST: [E] is its end. *)
Lemma advanced_ok tp tp' tx probe C maxseg : out_ok tp C ->
  planned tp C (first_flags tp) maxseg tx -> (tx_flags tx &? TH_RST) = false ->
  t_state tp <> TCPS_CLOSED -> advanced tp tp' tx probe -> out_ok tp' C /\ out_frame tp tp'.
Proof.
  intros Hok Hp HR Hst Ha. pose proof (so_window _ (oo_sack _ _ Hok)) as Hw. pose proof (oo_cc _ _ Hok) as HC.
  pose proof (oo_order _ _ Hok) as Ho. pose proof (oo_rxmit _ _ Hok) as Hx. pose proof (oo_bound _ _ Hok) as Hb.
  destruct Ha as [An Am Ax Af As Au Ai Ab Ac Are Arc]. set (e := u32 (tx_seq tx + seq_len tx)) in *.
  assert (He : seg_end tp tx <= Z.max (rel (snd_una tp) (snd_max tp))
    (if TCPS_HAVEESTABLISHED (t_state tp) then C + fin_len tx else 1) /\
    (tx_sack_rxmit tx = true -> seg_end tp tx < rel (snd_una tp) (snd_max tp))).
  { destruct (tx_sack_rxmit tx) eqn:ES.
    - destruct (seg_end_hole _ _ _ _ Hok Hp HR ES) as (-> & _ & _).
      destruct (pl_hole _ _ _ _ _ Hp ES) as ([_ _ _ F4] & _).
      pose proof (F4 _ (so_board _ (oo_sack _ _ Hok))). split; [lia | done].
    - destruct (seg_end_new _ _ _ _ Hok Hp Hst ES) as [_ ?]. by split. }
  destruct He as [He HeS]. destruct (seq_len_cases _ _ _ _ Hp) as (_ & _ & Q2 & _ & Q4 & _).
  change (seg_end tp tx) with (rel (snd_una tp) e) in He, HeS. pose proof (rel_range (snd_una tp) e) as Hre.
  assert (Hlt : rel (snd_una tp) e < 2 ^ 31) by (destruct (TCPS_HAVEESTABLISHED (t_state tp)); lia).
  rewrite (seq_gt (snd_una tp)) in Am by done.
  assert (Hmax : rel (snd_una tp) (snd_max tp') = Z.max (rel (snd_una tp) (snd_max tp)) (rel (snd_una tp) e)).
  { rewrite Am. destruct (Z.ltb_spec (rel (snd_una tp) (snd_max tp)) (rel (snd_una tp) e)); lia. }
  split; [| constructor; try done; [by rewrite Arc | by rewrite Arc | | lia]].
  2:{ intros Hf. rewrite Af. destruct (tx_flags tx &? TH_FIN); [by rewrite flag_lor_other | done]. }
  constructor; rewrite ?Au; try done.
  - eapply (sack_ok_max tp); try done; [apply Hok | lia].
  - apply Hok.
  - rewrite An. destruct (_ && _); [apply u32_range | apply Hok].
  - rewrite Am. destruct (_ <? _); [apply u32_range | apply Hok].
  - rewrite Ax, Hmax. destruct (tx_sack_rxmit tx); lia.
  - rewrite An, Hmax. destruct (_ && _); lia.
  - unfold seq_bound in *. rewrite As, Ac, Ai, Au, Hmax. unfold sent_fin, fin_len in *. rewrite Af.
    destruct (tx_flags tx &? TH_FIN) eqn:EF.
    + rewrite flag_lor by done. destruct (t_state tp); cbn in He, Q4; try done;
        try (by specialize (Q4 eq_refl)); destruct (t_flags tp &? TF_SENTFIN); lia.
    + destruct (t_state tp); cbn in He; try done; try (destruct Hb as (? & ? & ?); split_and!; try done; lia);
        destruct (t_flags tp &? TF_SENTFIN); lia.
  - rewrite Arc. apply Hok.
Qed.

(** [out_ok] is about a few fields. *)
Lemma out_ok_ext tp tp' C : t_state tp' = t_state tp -> snd_una tp' = snd_una tp -> snd_nxt tp' = snd_nxt tp ->
  snd_max tp' = snd_max tp -> iss tp' = iss tp -> t_sack tp' = t_sack tp ->
  (t_flags tp' &? TF_SENTFIN) = (t_flags tp &? TF_SENTFIN) -> req_rcv_scale tp' = req_rcv_scale tp ->
  out_ok tp C -> out_ok tp' C.
Proof.
  intros E1 E2 E3 E4 E5 E6 E7 E8 []. constructor; rewrite ?E2, ?E3, ?E4, ?E6, ?E8; try done.
  - eapply (sack_ok_max tp); rewrite ?E4, ?E6; try done. destruct oo_sack0. lia.
  - unfold seq_bound, sent_fin in *. by rewrite E1, E2, E4, E5, E6, E7.
Qed.

Lemma planned_ext tp tp' C flags maxseg tx : t_state tp' = t_state tp -> t_snd tp' = t_snd tp ->
  t_sack tp' = t_sack tp -> (t_flags tp' &? TF_SENTFIN) = (t_flags tp &? TF_SENTFIN) ->
  planned tp C flags maxseg tx -> planned tp' C flags maxseg tx.
Proof.
  intros E1 E2 E3 E4 []. constructor; rewrite ?E1, ?E2, ?E3, ?E4; try done. intros HS.
  destruct (pl_hole0 HS) as ([F1 F2 F3 F4] & Hc & HF). split; [| done].
  constructor; rewrite ?E2, ?E3; try done. intros top. unfold board. rewrite E3. apply F4.
Qed.

Lemma rst_is_closed tp C maxseg tx : planned tp C (first_flags tp) maxseg tx ->
  (tx_flags tx &? TH_RST) = bool_decide (t_state tp = TCPS_CLOSED).
Proof.
  intros Hp. rewrite (planned_flags _ _ _ _ _ _ Hp) by done. apply first_flags_facts.
Qed.

Lemma after_send_ok ticks hz tx win tp C maxseg : out_ok tp C ->
  planned tp C (first_flags tp) maxseg tx ->
  let tp' := after_send ticks hz tx win tp in out_ok tp' C /\ out_frame tp tp'.
Proof.
  intros Hok Hp. pose proof (rst_is_closed _ _ _ _ Hp) as HR. cbv zeta.
  destruct (tx_flags tx &? TH_RST) eqn:ER.
  - unfold after_send. rewrite ER. destruct (after_ack_eq win tp) as (ra & ts & ->).
    split; [| constructor; try done; tcp_simpl; by rewrite flag_ldiff_other].
    eapply (out_ok_ext tp); try done. by apply flag_ldiff_other.
  - symmetry in HR. apply bool_decide_eq_false in HR.
    destruct (after_send_advanced ticks hz tx win tp ER) as (probe & fl & ra & la & _ & -> & Ha).
    cbv zeta in Ha. eapply (advanced_ok _ _ _ _ C maxseg) in Ha as [H1 H2]; cycle 1.
    + eapply (out_ok_ext tp); try done. by apply flag_ldiff_other.
    + eapply (planned_ext tp); try done. by apply flag_ldiff_other.
    + done.
    + done.
    + split; [done |]. destruct H2. constructor; try done. intros Hf. apply of_recovery0. tcp_simpl.
      by rewrite flag_ldiff_other.
Qed.

(** A call that asks for another one moves on. *)
Lemma after_send_progress ticks hz tx win tp C maxseg top : out_ok tp C ->
  planned tp C (first_flags tp) maxseg tx ->
  board_ok (snd_una tp) top (board tp) -> rel (snd_una tp) (sack_rxmit tp) <= top ->
  (tx_flags tx &? TH_RST) = false -> tx_len tx = maxseg \/ tx_sack_rxmit tx = true ->
  let tp' := after_send ticks hz tx win tp in (t_flags tp' &? TF_FORCEDATA) = false ->
  measure tp' top C < measure tp top C /\ rel (snd_una tp') (sack_rxmit tp') <= top.
Proof.
  intros Hok Hp Hb Hx ER Hfull tp' HF.
  pose proof (rst_is_closed _ _ _ _ Hp) as HR. rewrite ER in HR. symmetry in HR. apply bool_decide_eq_false in HR.
  destruct (after_send_advanced ticks hz tx win tp ER) as (probe & fl & ra & la & Hpr & -> & [An Am Ax Af As Au Ai Ab Ac Are Arc]).
  fold tp' in An, Ax, Af, Au. unfold measure. rewrite Au, An, Ax. tcp_simpl. fold (seg_end tp tx).
  assert (probe = false) as ->.
  { destruct probe; [| done]. rewrite Af in HF. tcp_simpl_in HF.
    rewrite <- (flag_ldiff_other _ (Z.lor TF_ACKNOW TF_DELACK) TF_FORCEDATA) in Hpr by done. specialize (Hpr eq_refl).
    destruct (tx_flags tx &? TH_FIN); [| congruence]. rewrite Z.lor_comm, flag_lor in HF; done. }
  destruct (tx_sack_rxmit tx) eqn:ES; cbn [negb andb].
  - destruct (seg_end_hole _ _ _ _ Hok Hp ER ES) as (E & _ & _). unfold seg_end in E. rewrite E.
    destruct (pl_hole _ _ _ _ _ Hp ES) as ([F1 F2 F3 F4] & _). specialize (F4 _ Hb). lia.
  - destruct Hfull as [Hl | ?]; [| done]. destruct (seg_end_new _ _ _ _ Hok Hp HR ES) as [E _].
    unfold seg_end in E. rewrite E. pose proof (pl_max _ _ _ _ _ Hp).
    destruct (pl_data _ _ _ _ _ Hp ES) as (_ & ? & ?); [lia |].
    destruct (seq_len_cases _ _ _ _ Hp) as (-> & ? & ? & _). lia.
Qed.

(** ** One call *)

Section output.
Context `{HFS : !FreshStorage} `{rt : route_layer}.

(** A segment of the connection of [inp]: its bytes, and its payload as the part
    of the send buffer its sequence number says. *)
Definition segment_of (inp : inpcb) so (una : Z) (p : sent) : Prop :=
  exists seq ack flags win opt data,
    p = Sent (inpcb_ip_output (Some inp) IPPROTO_TCP (i_laddr inp) (i_faddr inp))
          (stamped (i_laddr inp) (i_faddr inp)
             (tcp_fill_header (i_lport inp) (i_fport inp) seq ack flags win
                (TCP_HEADER_LEN + Z.of_nat (length opt)) ++ opt ++ data)) /\
    Z.of_nat (length opt) <= 40 /\ Z.of_nat (length opt) mod 4 = 0 /\
    Z.of_nat (length data) <= TCP_MAX_PAYLOAD /\
    ((flags &? TH_RST) = false -> data <> [] ->
     rel una seq + Z.of_nat (length data) <= bf_cc (so_snd so) /\
     data = take (length data) (drop (Z.to_nat (rel una seq)) (bf_data (so_snd so)))).

(** [s'] is [s] with the control block [tp'] and the packets [new] sent. *)
Definition sent_state (s : conn) (tp' : tcpcb) (new : list sent) (s' : conn) : Prop :=
  exists o, s' = set_c_alloc o (set_c_out (c_out s ++ new) (with_tp tp' s)).

Record out_pre (s : conn) tp (inp : inpcb) so : Prop := {
  op_live : live s tp inp so;
  op_out : out_ok tp (bf_cc (so_snd so));
  op_laddr : addr_ok (i_laddr inp);
  op_faddr : addr_ok (i_faddr inp);
  op_bytes : bytes (bf_data (so_snd so));
}.

Lemma sent_state_live s tp inp so tp' new s' : live s tp inp so -> sent_state s tp' new s' ->
  live s' tp' inp so.
Proof. intros [] [o ->]. by constructor. Qed.

Lemma sent_state_trans s tp1 new1 s1 tp2 new2 s2 : sent_state s tp1 new1 s1 -> sent_state s1 tp2 new2 s2 ->
  sent_state s tp2 (new1 ++ new2) s2.
Proof. intros [o1 ->] [o2 ->]. exists o2. cbn. by rewrite app_assoc. Qed.

Lemma sent_state_tp s tp inp so tp' : live s tp inp so -> sent_state s tp' [] (with_tp tp' s).
Proof.
  intros L. exists (c_alloc s). rewrite app_nil_r. by destruct s.
Qed.

(** The payload of a planned segment is in the send buffer. *)
Lemma planned_data tp so maxseg tx : let C := bf_cc (so_snd so) in
  out_ok tp C -> planned tp C (first_flags tp) maxseg tx -> (tx_flags tx &? TH_RST) = false ->
  0 < tx_len tx -> tx_off tx = rel (snd_una tp) (tx_seq tx) /\ tx_off tx + tx_len tx <= C.
Proof.
  intros C Hok Hp HR Hl. destruct (tx_sack_rxmit tx) eqn:ES.
  - destruct (seg_end_hole _ _ _ _ Hok Hp HR ES) as (_ & HE & _).
    destruct (pl_hole _ _ _ _ _ Hp ES) as ([F1 F2 F3 F4] & _).
    pose proof (F4 _ (so_board _ (oo_sack _ _ Hok))). split; [done |].
    pose proof (oo_bound _ _ Hok) as Hb.
    assert (rel (snd_una tp) (snd_max tp) <= C + sent_fin tp)
      by (unfold seq_bound in Hb; destruct (t_state tp); done).
    unfold sent_fin in *. destruct (t_flags tp &? TF_SENTFIN); lia.
  - destruct (pl_data _ _ _ _ _ Hp ES Hl) as (_ & E & ?). by rewrite (pl_seq _ _ _ _ _ Hp ES).
Qed.

Lemma flags_byte tp C maxseg tx : planned tp C (first_flags tp) maxseg tx -> is_byte (tx_flags tx).
Proof.
  intros Hp. assert (is_byte (first_flags tp)).
  { unfold first_flags. by destruct (snd_nxt tp =? iss tp), (t_state tp). }
  destruct (pl_flags _ _ _ _ _ Hp) as [-> | ->]; [done |]. unfold first_flags.
  by destruct (snd_nxt tp =? iss tp), (t_state tp).
Qed.

(** The segment a call builds, and what it leaves. *)
Definition built (inp : inpcb) tp so tx (opt : list Z) (win : Z) : list Z :=
  tcp_fill_header (i_lport inp) (i_fport inp) (tx_seq tx) (rcv_nxt tp) (tx_flags tx)
    (tcp_window_field tp win (tx_flags tx)) (TCP_HEADER_LEN + Z.of_nat (length opt)) ++
  opt ++ seg_data (so_snd so) tx.

Lemma build_segment_spec s tp inp so tx opt win : live s tp inp so -> (length opt <= 40)%nat ->
  0 <= tx_len tx <= TCP_MAX_PAYLOAD ->
  wp (tcp_build_segment tx opt win) (fun r s' => exists o, s' = set_c_alloc o s /\
    match r with
    | None => True
    | Some nb => nb_wf nb /\ nb_len nb = TCP_HEADER_LEN + Z.of_nat (length opt) + tx_len tx /\
        payload nb = built inp tp so tx opt win
    end) s.
Proof.
  intros L Ho Hl. unfold tcp_build_segment, alloc_nb. wp_steps.
  destruct (alloc_sized_spec NETBUF_CLUSTER_SIZE true (c_alloc s)) as (_ & o & _ & [(b & E & ->) | [E _]]); [done | |];
    unfold netbuf_alloc_cluster; rewrite E; wp_steps; [| by exists o].
  assert (L' : live (set_c_alloc o s) tp inp so) by (by destruct L). wp_steps.
  set (hdr := tcp_fill_header _ _ _ _ _ _ _). cbn [fmap option_fmap option_map].
  destruct (fill_segment_spec hdr opt (so_snd so) tx) as (buf & Eb & W & P); [apply header_length | done | done |].
  eapply wp_lift; [exact Eb |]. wp_steps. exists o. by split.
Qed.

Lemma maybe_persist_spec s tp inp so C : live s tp inp so ->
  wp (tcp_maybe_persist C) (fun _ s' => exists ts k,
    s' = with_tp (on_timers (fun _ => ts) (set_rexmt_shift k tp)) s) s.
Proof.
  intros L.
  assert (Hid : exists ts k, s = with_tp (on_timers (fun _ => ts) (set_rexmt_shift k tp)) s).
  { exists (t_timers tp), (rexmt_shift tp).
    replace (on_timers _ _) with tp by (by destruct tp as [? ? ? ? ? [] ? ? ?]).
    destruct L as [E _ _ _]. unfold with_tp, set_c_tcb. rewrite <- E. by destruct s. }
  unfold tcp_maybe_persist, tcp_setpersist. wp_steps. destruct (_ || _); [by apply cwp_ret |].
  destruct (_ || _); [by apply cwp_ret |]. wp_steps. eapply wp_upd_tp; [done |].
  set (tp1 := set_rexmt_shift 0 tp). assert (L1 : live (with_tp tp1 s) tp1 inp so) by (by eapply live_tp).
  wp_steps. eapply wp_timer_activate; [done |]. set (tp2 := arm_timer _ _ _ _ _).
  assert (L2 : live (with_tp tp2 (with_tp tp1 s)) tp2 inp so) by (by eapply live_tp).
  assert (Htp : forall k, set_rexmt_shift k tp2 = on_timers (fun _ => t_timers tp2) (set_rexmt_shift k tp)) by done.
  apply cwp_when; intros _.
  - eapply wp_upd_tp; [done |]. eexists _, _. by rewrite Htp.
  - exists (t_timers tp2), 0. done.
Qed.

(** What a call, or [tcp_output], leaves. *)
Record out_post (s : conn) tp (inp : inpcb) so (s' : conn) (tp' : tcpcb) (new : list sent) : Prop := {
  po_state : sent_state s tp' new s';
  po_out : out_ok tp' (bf_cc (so_snd so));
  po_frame : out_frame tp tp';
  po_new : Forall (segment_of inp so (snd_una tp)) new;
}.

Lemma out_post_pre s tp inp so s' tp' new : out_pre s tp inp so -> out_post s tp inp so s' tp' new ->
  out_pre s' tp' inp so.
Proof. intros [] []. constructor; try done. by eapply sent_state_live. Qed.

Lemma out_post_trans s tp inp so s1 tp1 new1 s2 tp2 new2 : out_post s tp inp so s1 tp1 new1 ->
  out_post s1 tp1 inp so s2 tp2 new2 -> out_post s tp inp so s2 tp2 (new1 ++ new2).
Proof.
  intros [A1 A2 A3 A4] [B1 B2 B3 B4]. constructor; eauto using sent_state_trans, out_frame_trans.
  apply Forall_app. split; [done |]. by rewrite (of_una _ _ A3) in B4.
Qed.

Lemma out_post_same s tp inp so tp' : live s tp inp so -> out_ok tp' (bf_cc (so_snd so)) -> out_frame tp tp' ->
  out_post s tp inp so (with_tp tp' s) tp' [].
Proof. intros. constructor; try done. by eapply sent_state_tp. Qed.

Lemma built_segment tp inp so tx opt win maxseg : let C := bf_cc (so_snd so) in
  out_ok tp C -> planned tp C (first_flags tp) maxseg tx ->
  Z.of_nat (length opt) <= 40 -> Z.of_nat (length opt) mod 4 = 0 ->
  segment_of inp so (snd_una tp)
    (Sent (inpcb_ip_output (Some inp) IPPROTO_TCP (i_laddr inp) (i_faddr inp))
       (stamped (i_laddr inp) (i_faddr inp) (built inp tp so tx opt win))).
Proof.
  intros C Hok Hp H1 H2. pose proof (pl_len _ _ _ _ _ Hp). pose proof (pl_max _ _ _ _ _ Hp).
  pose proof (seg_data_length (so_snd so) tx ltac:(lia)) as Hl.
  exists (tx_seq tx), (rcv_nxt tp), (tx_flags tx), (tcp_window_field tp win (tx_flags tx)), opt, (seg_data (so_snd so) tx).
  do 3 (split; [done |]). split; [lia |]. intros HR Hne.
  assert (0 < tx_len tx) by (destruct (seg_data (so_snd so) tx); [done | cbn in Hl; lia]).
  destruct (planned_data _ _ _ _ Hok Hp HR) as [E Hc]; [done |]. rewrite <- E. split; [lia |].
  pose proof (rel_range (snd_una tp) (tx_seq tx)).
  rewrite seg_data_exact at 1 by lia. f_equal. lia.
Qed.

(** One call: it returns, keeps [out_ok], and moves on when it asks for more. *)
Lemma output_once_spec s tp inp so : out_pre s tp inp so ->
  wp tcp_output_once (fun r s' => exists tp' new, out_post s tp inp so s' tp' new /\
    (0 < r -> forall top, board_ok (snd_una tp) top (board tp) -> rel (snd_una tp) (sack_rxmit tp) <= top ->
       measure tp' top (bf_cc (so_snd so)) < measure tp top (bf_cc (so_snd so)) /\
       rel (snd_una tp') (sack_rxmit tp') <= top)) s.
Proof.
  intros [L Hok Hla Hfa Hb]. unfold tcp_output_once. wp_steps.
  set (opt := tcp_build_opts _ _ _ _).
  assert (Hopt : Z.of_nat (length opt) <= 40 /\ Z.of_nat (length opt) mod 4 = 0) by apply build_opts_fits.
  assert (Hob : bytes opt) by apply build_opts_bytes, Hok. clearbody opt. destruct Hopt as [Ho1 Ho2].
  destruct (plan_spec so opt (first_flags tp) tp Hok) as (maxseg & tx & Ep & Hp).
  eapply wp_lift; [exact Ep |]. cbv beta iota. pose proof (pl_len _ _ _ _ _ Hp). pose proof (pl_max _ _ _ _ _ Hp).
  destruct (negb (tcp_should_send _ _ _ _ _)).
  { apply cwp_bind. eapply cwp_mono; [by eapply maybe_persist_spec |]. intros _ s' (ts & k & ->). wp_steps.
    eexists _, []. split; [| done]. apply out_post_same; [done | | by constructor].
    by eapply (out_ok_ext tp). }
  wp_steps. eapply cwp_mono; [eapply build_segment_spec; [done | lia | lia] |].
  intros [nb |] s' (o & -> & Hnb).
  2:{ apply cwp_ret. exists tp, []. split; [| done]. constructor; try done. exists o.
      rewrite app_nil_r. destruct L as [E _ _ _]. unfold with_tp, set_c_tcb. cbn. rewrite <- E. by destruct s. }
  destruct Hnb as (W & Ln & P). unfold tcp_after_send. wp_steps.
  assert (L1 : live (set_c_alloc o s) tp inp so) by (by destruct L).
  eapply wp_upd_tp; [exact L1 |]. set (tp' := after_send _ _ _ _ _).
  assert (L2 : live (with_tp tp' (set_c_alloc o s)) tp' inp so) by (by eapply live_tp).
  wp_steps. unfold wp at 1. rewrite checksum_and_send_spec; [| done | | | done | done].
  2:{ rewrite P. apply bytes_app; [apply header_bytes; by eapply flags_byte |].
      apply bytes_app; [done | by apply seg_data_bytes]. }
  2:{ rewrite Ln. unfold TCP_HEADER_LEN, TCP_MAX_PAYLOAD, TCP_MAX_HEADER_LEN in *. lia. }
  set (s2 := set_c_out _ _). assert (L3 : live s2 tp' inp so) by (by destruct L2). wp_steps.
  destruct (after_send_ok (c_ticks (set_c_alloc o s)) (c_hz (set_c_alloc o s)) tx
    (tcp_rcv_window (Some so) tp) tp _ maxseg Hok Hp) as [Hok' Hfr]. fold tp' in Hok', Hfr.
  eexists tp', [_]. split.
  - constructor; [by exists o | done | done |]. constructor; [| done]. rewrite P. by eapply built_segment.
  - intros Hr top Hbo Hx. destruct (_ && _ && _) eqn:E in Hr; [| lia].
    apply andb_true_iff in E as [[Ef ER]%andb_true_iff EF]. apply negb_true_iff in ER, EF.
    apply orb_true_iff in Ef. rewrite Z.eqb_eq in Ef. by eapply after_send_progress.
Qed.

(** ** The loop *)

Lemma measure_nonneg tp top C : 0 <= measure tp top C.
Proof. unfold measure. lia. Qed.

Lemma output_loop_spec fuel : forall s tp inp so top, out_pre s tp inp so ->
  board_ok (snd_una tp) top (board tp) -> rel (snd_una tp) (sack_rxmit tp) <= top ->
  measure tp top (bf_cc (so_snd so)) <= Z.of_nat fuel ->
  wp (output_loop fuel) (fun _ s' => exists tp' new, out_post s tp inp so s' tp' new) s.
Proof.
  induction fuel as [| fuel IH]; intros s tp inp so top Hpre Hb Hx Hm; cbn [output_loop];
    apply cwp_bind; (eapply cwp_mono; [by eapply output_once_spec |]); intros r s' (tp' & new & Hpost & Hprog);
    rewrite Z.gtb_ltb; (destruct (Z.ltb_spec 0 r); [| by apply cwp_ret; eauto]);
    destruct (Hprog ltac:(done) top Hb Hx) as [Hlt Hx'].
  { pose proof (measure_nonneg tp' top (bf_cc (so_snd so))). lia. }
  eapply cwp_mono; [eapply (IH s' tp' inp so top) |].
  - by eapply out_post_pre.
  - destruct (po_frame _ _ _ _ _ _ _ Hpost). unfold board. rewrite of_una0, of_blocks0, of_count0. done.
  - done.
  - lia.
  - intros _ s2 (tp2 & new2 & H2). eauto using out_post_trans.
Qed.

(** [tcp_output] returns: the fuel is enough. *)
Lemma output_spec s tp inp so : out_pre s tp inp so -> cc_laws (c_cc s) ->
  wp tcp_output (fun _ s' => exists tp' new, out_post s tp inp so s' tp' new) s.
Proof.
  intros Hpre Hcc. destruct Hpre as [L Hok Hla Hfa Hb] eqn:E. clear E. unfold tcp_output. wp_steps.
  set (m := if _ && _ && _ then _ else _).
  assert (Hm : wp m (fun _ s' => exists tp', s' = with_tp tp' s /\ cong_only tp tp') s).
  { assert (Hid : s = with_tp tp s) by (destruct L as [E _ _ _]; unfold with_tp, set_c_tcb; rewrite <- E; by destruct s).
    unfold m. destruct (_ && _ && _); [| apply cwp_ret; eauto using cong_only_refl].
    destruct (cc_after_idle (c_cc s)) as [f |] eqn:Ef; [| apply cwp_ret; eauto using cong_only_refl].
    eapply wp_upd_tp; [done |]. eexists. split; [done |]. by apply (law_after_idle _ Hcc). }
  clearbody m. eapply cwp_mono; [exact Hm |]. intros _ s1 (tp1 & -> & w & ss & ->). wp_steps.
  set (tp1 := set_snd_ssthresh ss (set_snd_cwnd w tp)).
  assert (Hpre1 : out_pre (with_tp tp1 s) tp1 inp so).
  { constructor; [by eapply live_tp | by eapply (out_ok_ext tp) | done..]. }
  eapply cwp_mono; [eapply (output_loop_spec _ _ tp1 inp so (rel (snd_una tp) (snd_max tp))) |].
  - done.
  - apply (so_board tp), Hok.
  - apply (oo_rxmit tp _ Hok).
  - unfold output_fuel. cbn [c_tcb with_tp set_c_tcb c_so]. rewrite (lv_so _ _ _ _ L).
    pose proof (oo_cc _ _ Hok). pose proof (rel_range (snd_una tp) (snd_max tp)).
    pose proof (rel_range (snd_una tp) (snd_nxt tp)). pose proof (rel_range (snd_una tp) (sack_rxmit tp)).
    unfold measure, tp1. tcp_simpl. lia.
  - intros _ s' (tp' & new & Hpost). exists tp', new.
    eapply (out_post_trans _ _ _ _ _ tp1 []); [| exact Hpost].
    apply out_post_same; [done | apply Hpre1 | by constructor].
Qed.

(** ** tcp_respond *)

Lemma respond_with_spec s inp to win ack seq flags : is_byte flags -> addr_ok (r_src to) -> addr_ok (r_dst to) ->
  wp (respond_with inp to win ack seq flags) (fun _ s' => exists o new,
    s' = set_c_alloc o (set_c_out (c_out s ++ new) s)) s.
Proof.
  intros Hf Hs Hd. unfold respond_with, alloc_nb. wp_steps.
  destruct (alloc_sized_spec NETBUF_SIZE true (c_alloc s)) as (_ & o & _ & [(b & E & ->) | [E _]]); [done | |];
    unfold netbuf_alloc; rewrite E; wp_steps.
  2:{ exists o, []. rewrite app_nil_r. by destruct s. }
  destruct (setup_wf NETBUF_SIZE true) as (W & P & Hsz & _); [done |].
  set (nb := netbuf_setup NETBUF_SIZE true) in *. assert (nb_data nb = 64) as Hnd by done.
  assert (nb_len nb = 0) as Hnl by done. unfold NETBUF_SIZE in Hsz. clearbody nb.
  set (hdr := tcp_fill_header _ _ _ _ _ _ _). assert (length hdr = 20%nat) as Hh by apply header_length.
  destruct (splice_append nb hdr W) as (buf & Eb & W' & P' & _); [lia |].
  rewrite Hnl, Z.add_0_r, Z.add_0_l in *. rewrite Hh in W', P'.
  eapply wp_lift; [exact Eb |]. unfold wp. rewrite checksum_and_send_spec; try done.
  - by eexists o, [_].
  - by apply set_pkt_len_wf.
  - change (payload _) with (payload (set_window (nb_data nb) (Z.of_nat 20) (set_buf buf nb))).
    rewrite P', P. by apply header_bytes.
Qed.

Lemma respond_spec s tp inp so ack seq flags : live s tp inp so -> is_byte flags ->
  addr_ok (i_laddr inp) -> addr_ok (i_faddr inp) ->
  wp (tcp_respond ack seq flags) (fun _ s' => exists o new,
    s' = set_c_alloc o (set_c_out (c_out s ++ new) s)) s.
Proof. intros L Hf Hl Hfa. unfold tcp_respond. wp_steps. by apply respond_with_spec. Qed.

End output.
