(* ===== verification/TcpSubr.v ===== *)
(** * TCP connections: drivers/net/tcp/tcp_subr.c and tcp_timer.c

    Creating and closing connections, their state changes, messages from ICMP,
    and the five timers. *)

From Stdlib Require Import ZArith Lia.
From stdpp Require Import base option gmap list.
From S2P Require Import Prelude Bytes Siphash Netbuf Inpcb TcpVar TcpSack TcpOptions TcpReass TcpCc.
From S2P Require Import TcpConn TcpOutput.
Open Scope Z_scope.
Open Scope hermes_scope.

Definition ETIMEDOUT : Z := 110.
Definition ECONNREFUSED : Z := 111.

(** ** Creation *)

(** [while (scale < TCP_MAX_WINSHIFT && (65535ul << scale) < hiwat) scale++;]
    with [n] steps left to the maximum. *)
Fixpoint pick_scale (n : nat) (scale hiwat : Z) : Z :=
  match n with
  | O => scale
  | S n => if u64 (Z.shiftl 65535 scale) <? hiwat then pick_scale n (scale + 1) hiwat else scale
  end.
Definition tcp_pick_rcv_scale (so : option socket) : Z :=
  let hiwat := match so with Some s => bf_hiwat (so_rcv s) | None => 0 end in
  pick_scale (Z.to_nat TCP_MAX_WINSHIFT) 0 hiwat.

Definition callout_init : callout := Callout false 0 0 0.

(** The zeroed block and the assignments to it. *)
Definition blank_tcpcb : tcpcb :=
  Tcpcb TCPS_CLOSED (SndVars 0 0 0 0 0 0 0 0) (RcvVars 0 0 0 0 0 0 0) (CongVars 0 0 0 0)
    (RttVars 0 0 0 0 0) (MiscVars 0 0 0 0 0 0 0 0 0) (ReassVars [] 0)
    (SackVars (replicate (Z.to_nat TCP_SACK_SCOREBOARD) (SackBlock 0 0)) 0 0 0)
    (TimerVars callout_init callout_init callout_init callout_init callout_init).

(** A block without an algorithm yet has none to destroy. *)
Definition tcp_cc_set (algo : tcp_cc_algo) (tp : tcpcb) : Z * tcpcb :=
  match cc_init algo with Some f => f tp | None => (0, tp) end.

Definition tcp_newtcpcb (algo : tcp_cc_algo) (v6 : bool) (so : option socket) (now : Z) : tcpcb :=
  let tp := set_mss (if v6 then TCP_DEFAULT_MSS6 else TCP_DEFAULT_MSS) blank_tcpcb in
  let tp := set_rto TCP_RTO_INITIAL_MS tp in
  let tp := set_req_rcv_scale (tcp_pick_rcv_scale so) tp in
  let tp := set_t_rcvtime now tp in
  snd (tcp_cc_set algo tp).

Definition with_ppcb (v : Z) (i : inpcb) : inpcb :=
  Inpcb (i_laddr i) (i_faddr i) (i_lport i) (i_fport i) (i_flags i) (i_ttl i) (i_tos i) (i_socket i) v.

(** [p] is the address of the new internet control block, if there is memory
    for one, and [tcb_ok] tells whether there is for the control block (at
    address 1, as seen in [ppcb]).  The rest of the new connection's state
    comes from [env]. *)
Definition tcp_attach_pcb (algos : cc_table) (p : option Z) (tcb_ok : bool) (so_id : Z)
    (domain : option Z) (so : socket) (env : conn) : option (Z * conn) :=
  '(inp, t) ← inpcb_alloc p (Some (so_id, domain)) (c_table env);
  match inp with
  | None => Some (- ENOMEM, set_c_table t env)
  | Some p =>
      if negb tcb_ok then t ← inpcb_free p t; Some (- ENOMEM, set_c_table t env) else
      i ← t_pcbs t !! p;
      let algo := tcp_cc_default algos in
      let tp := tcp_newtcpcb algo (i_flags i &? INPCB_IPV6) (Some so)
                  (now_ms (c_ticks env) (c_hz env)) in
      t ← upd_pcb (with_ppcb 1) p t;
      Some (0, Conn (Live tp) algo t p (Some (sock_hold so)) [] (c_ticks env) (c_hz env)
                 (c_alloc env) (c_isn_key env))
  end.

Section subr.
Context `{HFS : !FreshStorage} `{rt : route_layer}.

(** ** Closing *)

Definition tcp_pcb_release : M unit :=
  let* inp := get_inp in
  on_table inpcb_free ;!
  match i_socket inp with Some _ => release_so | None => retM tt end.

Definition tcp_close : M unit :=
  let* cc := gets c_cc in
  let* draining := tcp_timer_discard in
  upd_tp tcp_reassemble_flush ;!
  match cc_destroy cc with Some f => upd_tp f | None => retM tt end ;!
  on_table (upd_pcb (with_ppcb 0)) ;!
  modify (set_c_tcb (if negb (draining =? 0) then Draining draining else Freed)) ;!
  let* d := detached in
  let* gone := if d then retM true else sock_drop_embryo in
  if (gone : bool) then tcp_pcb_release
  else on_table inpcb_hash_remove ;! upd_so sock_is_disconnected.

(** [so && !(inp->flags & INPCB_DETACHED)] *)
Definition so_attached : M bool :=
  let* inp := get_inp in
  retM (bool_decide (is_Some (i_socket inp)) && negb (i_flags inp &? INPCB_DETACHED)).

Definition tcp_state_change (s : tcp_state) : M unit := upd_tp (set_state s).

Definition tcp_drop (error : Z) : M unit :=
  let* tp := get_tp in
  when (TCPS_HAVERCVDSYN (t_state tp))
    (tcp_state_change TCPS_CLOSED ;! let* _ := tcp_output in retM tt) ;!
  let* a := so_attached in
  when a (upd_so (set_so_error error)) ;!
  tcp_close.

(** ** Opening *)

Definition tcp_new_isn : M Z :=
  let* inp := get_inp in
  let* key := gets c_isn_key in
  let* now := tcp_now_ms in
  let tuple := i_laddr inp ++ i_faddr inp ++ le_bytes 2 (i_lport inp) ++ le_bytes 2 (i_fport inp) in
  let* h := lift (siphash24 key tuple (Z.of_nat (length tuple))) in
  retM (u32 (u32 (now * 250) + u32 h)).

Definition tcp_sendseqinit : M unit :=
  let* isn := tcp_new_isn in
  upd_tp (fun tp => set_sack_rxmit isn (set_snd_recover isn (set_snd_max isn (set_snd_nxt isn
            (set_snd_una isn (set_iss isn tp)))))).

Definition tcp_established : M unit :=
  tcp_state_change TCPS_ESTABLISHED ;!
  let* cc := gets c_cc in
  match cc_conn_init cc with Some f => upd_tp f | None => retM tt end ;!
  tcp_timer_activate TCPT_KEEP TCP_KEEPIDLE_MS ;!
  let* a := so_attached in
  when a sock_is_connected ;!
  let* tp := get_tp in
  when (t_flags tp &? TF_NEEDFIN)
    (upd_tp (set_t_flags (t_flags tp &~ TF_NEEDFIN)) ;! tcp_state_change TCPS_FIN_WAIT_1).

Definition tcp_enter_timewait : M unit :=
  tcp_state_change TCPS_TIME_WAIT ;!
  tcp_timer_stop_all ;!
  tcp_timer_activate TCPT_2MSL (2 * TCP_MSL_MS) ;!
  let* d := detached in
  when (negb d) (upd_so sock_is_disconnected).

(** Whether the control block is still there. *)
Definition tcp_usrclosed : M bool :=
  let* tp := get_tp in
  match t_state tp with
  | TCPS_CLOSED | TCPS_LISTEN | TCPS_SYN_SENT => tcp_close ;! retM false
  | _ =>
      match t_state tp with
      | TCPS_SYN_RECEIVED => upd_tp (set_t_flags (Z.lor (t_flags tp) TF_NEEDFIN))
      | TCPS_ESTABLISHED => tcp_state_change TCPS_FIN_WAIT_1
      | TCPS_CLOSE_WAIT => tcp_state_change TCPS_LAST_ACK
      | _ => retM tt
      end ;!
      let* tp := get_tp in
      let* d := detached in
      when (bool_decide (t_state tp = TCPS_FIN_WAIT_2) && d)
        (tcp_timer_activate TCPT_2MSL (2 * TCP_MSL_MS)) ;!
      retM true
  end.

(** ** Messages from ICMP *)

Definition tcp_ctlinput_locked (error mtu : Z) : M unit :=
  let* inp := get_inp in
  if i_ppcb inp =? 0 then retM tt else
  let* tp := get_tp in
  if negb (mtu =? 0) then
    let hdr := (if inpcb_is_v4_mapped (i_faddr inp) then IPV4_HEADER_LEN else IPV6_HEADER_LEN)
               + TCP_HEADER_LEN in
    when ((mtu >? hdr + 64) && (mtu - hdr <? mss tp))
      (upd_tp (fun tp => set_snd_nxt (snd_una tp) (set_mss (u16 (mtu - hdr)) tp)) ;!
       let* _ := tcp_output in retM tt)
  else if bool_decide (t_state tp = TCPS_SYN_SENT) && (error =? ECONNREFUSED) then tcp_drop error
  else upd_tp (set_t_softerror error).

(** An error message for the connection, which is held while it takes it. *)
Definition tcp_ctlinput (error mtu : Z) : M unit :=
  let* inp := get_inp in
  let so := bool_decide (is_Some (i_socket inp)) in
  when so (upd_so sock_hold) ;!
  tcp_ctlinput_locked error mtu ;!
  when so release_so.

(** ** The timers: tcp_timer.c *)

Definition tcp_timer_enter (which : tcp_timer_type) : M bool :=
  let* t := gets c_tcb in
  match t with
  | Live tp =>
      let c := get_timer which tp in
      upd_tp (set_timer which (Callout (c_pending c) (c_expires c) (c_dispatched c) (u32 (c_entered c + 1)))) ;!
      retM true
  | Draining n =>
      modify (set_c_tcb (if n - 1 =? 0 then Freed else Draining (u32 (n - 1)))) ;!
      retM false
  | Freed => fault
  end.

(** Whether to go on, and whether a reference to the socket was taken. *)
Definition tcp_timer_begin (which : tcp_timer_type) : M (bool * bool) :=
  let* t := gets c_tcb in
  let* so := match t with
             | Live _ => let* inp := get_inp in retM (bool_decide (is_Some (i_socket inp)))
             | Draining _ => retM false
             | Freed => fault
             end in
  when so (upd_so sock_hold) ;!
  let* go := tcp_timer_enter which in
  if (go : bool) then retM (true, so) else when so release_so ;! retM (false, so).

Definition tcp_timer_end (so : bool) : M unit := when so release_so.

(** A handler's frame around its body. *)
Definition timer_handler (which : tcp_timer_type) (body : M unit) : M unit :=
  let* '(go, so) := tcp_timer_begin which in
  if (go : bool) then body ;! tcp_timer_end so else retM tt.

Definition tcp_rexmt_timeout : M unit :=
  upd_tp (fun tp => set_rexmt_shift (u8 (rexmt_shift tp + 1)) tp) ;!
  let* tp := get_tp in
  if rexmt_shift tp >? TCP_MAXRXTSHIFT
  then tcp_drop (if negb (t_softerror tp =? 0) then t_softerror tp else ETIMEDOUT)
  else
    when (rexmt_shift tp >? TCP_MAXRXTSHIFT / 4)
      (upd_tp (fun tp => set_srtt 0 (set_rttvar (s32 (rttvar tp + Z.shiftr (srtt tp) 3)) tp))) ;!
    let* cc := gets c_cc in
    when (TCPS_HAVEESTABLISHED (t_state tp))
      (match cc_cong_signal cc with Some f => upd_tp (f CC_RTO) | None => fault end) ;!
    upd_tp (fun tp =>
      let tp := set_snd_nxt (snd_una tp) tp in
      let tp := set_snd_recover (snd_max tp) tp in
      let tp := set_dupacks 0 (set_rtt_start 0 tp) in
      let tp := set_t_flags (t_flags tp &~ TF_FASTRECOVERY) tp in
      tcp_sack_clear tp) ;!
    let* tp := get_tp in
    tcp_timer_activate TCPT_REXMT (tcp_rexmt_ms tp) ;!
    let* _ := tcp_output in retM tt.

Definition tcp_timer_rexmt : M unit := timer_handler TCPT_REXMT tcp_rexmt_timeout.

Definition tcp_timer_persist : M unit :=
  timer_handler TCPT_PERSIST
    (tcp_setpersist ;!
     upd_tp (fun tp => set_t_flags (Z.lor (t_flags tp) TF_FORCEDATA) tp) ;!
     let* _ := tcp_output in
     upd_tp (fun tp => set_t_flags (t_flags tp &~ TF_FORCEDATA) tp)).

Definition tcp_keepalive_enabled (so : option socket) (tp : tcpcb) : bool :=
  match so with Some s => so_options s &? SO_KEEPALIVE | None => false end &&
  (state_num (t_state tp) <=? state_num TCPS_CLOSE_WAIT).

Definition tcp_keep_timeout : M unit :=
  let* tp := get_tp in
  if negb (TCPS_HAVEESTABLISHED (t_state tp)) then tcp_drop ETIMEDOUT else
  let* so := get_so_opt in
  if negb (tcp_keepalive_enabled so tp) then tcp_timer_activate TCPT_KEEP TCP_KEEPIDLE_MS else
  let* now := tcp_now_ms in
  let idle := u64 (now - t_rcvtime tp) in
  if idle <? TCP_KEEPIDLE_MS then
    upd_tp (set_keep_probes 0) ;! tcp_timer_activate TCPT_KEEP (TCP_KEEPIDLE_MS - idle)
  else if keep_probes tp >=? TCP_KEEPCNT then tcp_drop ETIMEDOUT
  else
    upd_tp (set_keep_probes (u8 (keep_probes tp + 1))) ;!
    tcp_respond (rcv_nxt tp) (u32 (snd_una tp - 1)) TH_ACK ;!
    tcp_timer_activate TCPT_KEEP TCP_KEEPINTVL_MS.

Definition tcp_timer_keep : M unit := timer_handler TCPT_KEEP tcp_keep_timeout.
Definition tcp_timer_2msl : M unit := timer_handler TCPT_2MSL tcp_close.
Definition tcp_timer_delack : M unit :=
  timer_handler TCPT_DELACK
    (upd_tp (fun tp => set_t_flags (Z.lor (t_flags tp &~ TF_DELACK) TF_ACKNOW) tp) ;!
     let* _ := tcp_output in retM tt).

End subr.
