(* ===== verification/TcpInput.v ===== *)
(** * TCP input: drivers/net/tcp/tcp_input.c

    The processing of a segment by the connection it belongs to: round-trip
    times, the SYN exchange, acceptance tests, acknowledgements with fast
    recovery, window updates, data and FINs.  The payload is its bytes, which
    [adj] trims.  What comes before, from the packet to the connection, is in
    TcpPacket.v. *)

From Stdlib Require Import ZArith Lia.
From stdpp Require Import base option gmap list.
From S2P Require Import Prelude Bytes Netbuf Inpcb TcpVar TcpSack TcpOptions TcpReass TcpCc TcpConn.
From S2P Require Import TcpOutput TcpSubr.
Open Scope Z_scope.
Open Scope hermes_scope.

Definition TCP_PAWS_IDLE_MS : Z := 24 * 24 * 60 * 60 * 1000.
Definition ECONNRESET : Z := 104.
Definition SOCKBUF_DEFAULT_SIZE : Z := 64 * 1024.

Record tcp_seg := TcpSeg {
  sg_th : tcp_header;
  sg_to : tcp_opts;
  sg_data : list Z;
  sg_len : Z;
  sg_wnd : Z;
}.

Inductive tcp_ack_result := TCP_ACK_CONTINUE | TCP_ACK_DROP | TCP_ACK_DROP_ACK | TCP_ACK_GONE.

Definition set_th_seq (v : Z) (th : tcp_header) : tcp_header :=
  TcpHeader (th_src_port th) (th_dst_port th) v (th_ack th) (th_data_off th) (th_flags th) (th_window th).
Definition set_th_flags (v : Z) (th : tcp_header) : tcp_header :=
  TcpHeader (th_src_port th) (th_dst_port th) (th_seq th) (th_ack th) (th_data_off th) v (th_window th).
Definition set_sg_th (th : tcp_header) (g : tcp_seg) : tcp_seg :=
  TcpSeg th (sg_to g) (sg_data g) (sg_len g) (sg_wnd g).

(** ** Round-trip times, segment sizes, options of a SYN *)

(** Signed 32-bit arithmetic. *)
Definition tcp_xmit_timer (hz rtt : Z) (tp : tcpcb) : tcpcb :=
  let rtt := if rtt <? 1 then 1 else rtt in
  let tp :=
    if srtt tp =? 0 then set_rttvar (s32 (Z.shiftl rtt 1)) (set_srtt (s32 (Z.shiftl rtt 3)) tp)
    else
      let delta := s32 (rtt - Z.shiftr (srtt tp) 3) in
      let tp := set_srtt (s32 (srtt tp + delta)) tp in
      let delta := if delta <? 0 then s32 (- delta) else delta in
      set_rttvar (s32 (rttvar tp + s32 (delta - Z.shiftr (rttvar tp) 2))) tp in
  let granularity := s32 (1000 / hz) + 1 in
  let rto := u32 (Z.shiftr (srtt tp) 3 + (if rttvar tp >? granularity then rttvar tp else granularity)) in
  let rto := if rto <? TCP_RTO_MIN_MS then TCP_RTO_MIN_MS else rto in
  let rto := if rto >? TCP_RTO_MAX_MS then TCP_RTO_MAX_MS else rto in
  set_t_softerror 0 (set_rto rto tp).

Definition tcp_init_rcv (irs : Z) (tp : tcpcb) : tcpcb :=
  let tp := set_rcv_nxt (u32 (irs + 1)) (set_irs irs tp) in
  set_rcv_adv (rcv_nxt tp) tp.

Section input.
Context `{HFS : !FreshStorage} `{rt : route_layer}.
Implicit Types (tp : tcpcb) (g : tcp_seg).

Definition tcp_mss_update (faddr : list Z) (offer : Z) (tp : tcpcb) : tcpcb :=
  let v4 := inpcb_is_v4_mapped faddr in
  let peer := if negb (offer =? 0) then offer else if v4 then TCP_DEFAULT_MSS else TCP_DEFAULT_MSS6 in
  let m := tcp_local_mss faddr in
  let m := if peer <? m then peer else m in
  let m := if m <? 64 then 64 else m in
  set_peer_mss offer (set_mss (u16 m) tp).

Definition tcp_apply_syn_opts (faddr : list Z) (now : Z) (to : tcp_opts) (tp : tcpcb) : tcpcb :=
  let tp :=
    if negb (t_flags tp &? TF_NOOPT) then
      let tp := if to_flags to &? TOF_SCALE
                then set_rcv_scale (req_rcv_scale tp) (set_snd_scale (to_wscale to)
                       (set_t_flags (Z.lor (t_flags tp) TF_RCVD_SCALE) tp)) else tp in
      let tp := if to_flags to &? TOF_TS
                then set_ts_recent_age now (set_ts_recent (to_ts_val to)
                       (set_t_flags (Z.lor (t_flags tp) TF_RCVD_TSTMP) tp)) else tp in
      if to_flags to &? TOF_SACKPERM then set_t_flags (Z.lor (t_flags tp) TF_SACK_PERMIT) tp else tp
    else tp in
  tcp_mss_update faddr (if to_flags to &? TOF_MSS then to_mss to else 0) tp.

Definition apply_syn_opts (to : tcp_opts) : M unit :=
  let* inp := get_inp in
  let* now := tcp_now_ms in
  upd_tp (tcp_apply_syn_opts (i_faddr inp) now to).

(** ** Replies without a connection *)

Definition tcp_reply_reset (from : reply_to) (th : tcp_header) (len : Z) : M unit :=
  if th_flags th &? TH_RST then retM tt
  else if th_flags th &? TH_ACK then respond_with None from 0 0 (th_ack th) TH_RST
  else
    let len := u32 (len + (if th_flags th &? TH_SYN then 1 else 0) + (if th_flags th &? TH_FIN then 1 else 0)) in
    respond_with None from 0 (u32 (th_seq th + len)) 0 (Z.lor TH_RST TH_ACK).

Definition tcp_send_challenge_ack : M unit :=
  let* tp := get_tp in tcp_respond (rcv_nxt tp) (snd_nxt tp) TH_ACK.

(** ** LISTEN *)

(** [sock_alloc]: the fields TCP uses. *)
Definition sock_alloc : socket :=
  Socket 0 0 0 (-1) (Sbuf [] SOCKBUF_DEFAULT_SIZE 0) (Sbuf [] SOCKBUF_DEFAULT_SIZE 0)
    false false NoQueue 1.

(** [full]: the queues of [head] hold [backlog] connections; [ok]: there is
    memory. *)
Definition sock_new_conn (full ok : bool) (head : socket) : option socket :=
  if full || negb ok then None else
  let so := set_so_options (so_options head &~ SO_ACCEPTCONN) sock_alloc in
  let so := set_so_linger (so_linger head) so in
  let so := set_so_snd (Sbuf [] (bf_hiwat (so_snd head)) 0) so in
  let so := set_so_rcv (Sbuf [] (bf_hiwat (so_rcv head)) 0) so in
  Some (set_so_queue Incomplete (set_so_embryonic true (set_so_listen_head true so))).

(** What a new connection depends on: the accept queue, the allocator, the
    protocol and the congestion control table. *)
Record listen_env := ListenEnv {
  le_full : bool;
  le_sock_ok : bool;
  le_pcb : option Z;
  le_tcb_ok : bool;
  le_so_id : Z;
  le_domain : option Z;
  le_algos : cc_table;
}.

(** The new connection's part of [tcp_input_listen]. *)
Definition embryo_start (g : tcp_seg) : M unit :=
  apply_syn_opts (sg_to g) ;!
  upd_tp (tcp_init_rcv (th_seq (sg_th g))) ;!
  tcp_sendseqinit ;!
  upd_tp (fun tp => set_snd_wl1 (th_seq (sg_th g)) (set_snd_wnd (sg_wnd g) tp)) ;!
  tcp_state_change TCPS_SYN_RECEIVED ;!
  tcp_timer_activate TCPT_KEEP TCP_KEEPINIT_MS ;!
  upd_tp (fun tp => set_t_flags (Z.lor (t_flags tp) TF_ACKNOW) tp) ;!
  let* _ := tcp_output in retM tt.

(** The connection created, if one is. *)
Definition tcp_input_listen (e : listen_env) (from : reply_to) (g : tcp_seg) : M (option conn) :=
  let th := sg_th g in
  if th_flags th &? TH_RST then retM None
  else if th_flags th &? TH_ACK then tcp_reply_reset from th (sg_len g) ;! retM None
  else if negb (th_flags th &? TH_SYN) then retM None
  else
    let* head := get_so in
    match sock_new_conn (le_full e) (le_sock_ok e) head with
    | None => retM None
    | Some so =>
        let* lp := get_inp in
        let* env := gets id in
        let* '(err, child) :=
          lift (tcp_attach_pcb (le_algos e) (le_pcb e) (le_tcb_ok e) (le_so_id e) (le_domain e) so env) in
        if negb (err =? 0) then modify (set_c_table (c_table child)) ;! retM None else
        let* t := lift (tcp_listen_inpcb (c_inp child) (r_dst from) (r_dport from) (r_src from) lp (c_table child)) in
        let* '(_, child) := lift (embryo_start g (set_c_table t child)) in
        modify (fun s => set_c_alloc (c_alloc child) (set_c_table (c_table child) s)) ;!
        retM (Some child)
    end.

(** ** SYN_SENT *)

(** Whether to go on, with the segment as it is then. *)
Definition tcp_input_syn_sent (g : tcp_seg) : M (bool * tcp_seg) :=
  let* tp := get_tp in
  let th := sg_th g in
  if (th_flags th &? TH_ACK) && (SEQ_LEQ (th_ack th) (iss tp) || SEQ_GT (th_ack th) (snd_max tp)) then
    when (negb (th_flags th &? TH_RST)) (tcp_respond 0 (th_ack th) TH_RST) ;! retM (false, g)
  else if th_flags th &? TH_RST then
    when (th_flags th &? TH_ACK) (tcp_drop ECONNREFUSED) ;! retM (false, g)
  else if negb (th_flags th &? TH_SYN) then retM (false, g)
  else
    upd_tp (tcp_init_rcv (th_seq th)) ;!
    apply_syn_opts (sg_to g) ;!
    upd_tp (fun tp => set_t_flags (Z.lor (t_flags tp) TF_ACKNOW) tp) ;!
    if negb (th_flags th &? TH_ACK) then
      upd_tp (fun tp => set_snd_nxt (iss tp) (set_snd_wl1 (th_seq th) (set_snd_wnd (sg_wnd g) tp))) ;!
      tcp_state_change TCPS_SYN_RECEIVED ;!
      let* _ := tcp_output in
      retM (false, g)
    else
      let* now := tcp_now_ms in
      let* hz := gets c_hz in
      upd_tp (fun tp =>
        let tp := if negb (rtt_start tp =? 0) then tcp_xmit_timer hz (s32 (now - rtt_start tp)) tp else tp in
        let tp := set_rexmt_shift 0 (set_rtt_start 0 tp) in
        let tp := stop_timer TCPT_REXMT tp in
        let tp := set_snd_una (th_ack th) tp in
        let tp := if SEQ_LT (snd_nxt tp) (snd_una tp) then set_snd_nxt (snd_una tp) tp else tp in
        set_sack_rxmit (snd_una tp) tp) ;!
      tcp_established ;!
      upd_tp (set_snd_wl1 (th_seq th)) ;!
      retM (true, set_sg_th (set_th_flags (th_flags th &~ TH_SYN) (set_th_seq (u32 (th_seq th + 1)) th)) g).

(** ** Acceptance *)

Definition tcp_rcv_space (so : option socket) (tp : tcpcb) : Z :=
  let space := match so with Some s => u32 (bf_space (so_rcv s)) | None => 0 end in
  if space >? advertised tp then space else advertised tp.

Definition tcp_paws_ok (now : Z) (g : tcp_seg) (tp : tcpcb) : bool * tcpcb :=
  if negb (to_flags (sg_to g) &? TOF_TS) || negb (t_flags tp &? TF_RCVD_TSTMP)
     || (th_flags (sg_th g) &? TH_RST) then (true, tp)
  else if s32 (to_ts_val (sg_to g) - ts_recent tp) >=? 0 then (true, tp)
  else if u64 (now - ts_recent_age tp) >? TCP_PAWS_IDLE_MS then (true, set_ts_recent 0 tp)
  else (false, tp).

Definition tcp_update_ts_recent (now : Z) (g : tcp_seg) (tp : tcpcb) : tcpcb :=
  let th := sg_th g in
  let span := u32 (sg_len g + (if th_flags th &? Z.lor TH_SYN TH_FIN then 1 else 0)) in
  if (to_flags (sg_to g) &? TOF_TS) && SEQ_LEQ (th_seq th) (last_ack_sent tp)
     && SEQ_LEQ (last_ack_sent tp) (u32 (th_seq th + span))
  then set_ts_recent_age now (set_ts_recent (to_ts_val (sg_to g)) tp)
  else tp.

Definition rst_error (s : tcp_state) : Z :=
  match s with
  | TCPS_SYN_RECEIVED => ECONNREFUSED
  | TCPS_ESTABLISHED | TCPS_FIN_WAIT_1 | TCPS_FIN_WAIT_2 | TCPS_CLOSE_WAIT => ECONNRESET
  | _ => 0
  end.

Definition tcp_input_rst (g : tcp_seg) : M unit :=
  let* tp := get_tp in
  let seq := th_seq (sg_th g) in
  if negb (seq =? rcv_nxt tp) then
    let wnd := if negb (rcv_wnd tp =? 0) then rcv_wnd tp else 1 in
    when (SEQ_GT seq (rcv_nxt tp) && SEQ_LT seq (u32 (rcv_nxt tp + wnd))) tcp_send_challenge_ack
  else
    let error := rst_error (t_state tp) in
    let* a := so_attached in
    when (negb (error =? 0) && a) (upd_so (set_so_error error)) ;!
    tcp_close.

Definition acknow (tp : tcpcb) : tcpcb := set_t_flags (Z.lor (t_flags tp) TF_ACKNOW) tp.

(** The part of the segment before the window. *)
Definition trim_left (g : tcp_seg) (tp : tcpcb) : tcp_seg * tcpcb :=
  let th := sg_th g in
  let todrop := s32 (rcv_nxt tp - th_seq th) in
  if todrop >? 0 then
    let '(th, todrop) := if th_flags th &? TH_SYN
      then (set_th_seq (u32 (th_seq th + 1)) (set_th_flags (th_flags th &~ TH_SYN) th), todrop - 1)
      else (th, todrop) in
    let '(th, todrop, tp) :=
      if (u32 todrop >? sg_len g) || ((u32 todrop =? sg_len g) && negb (th_flags th &? TH_FIN))
      then (set_th_flags (th_flags th &~ TH_FIN) th, s32 (sg_len g), acknow tp)
      else (th, todrop, tp) in
    (TcpSeg (set_th_seq (u32 (th_seq th + todrop)) th) (sg_to g) (adj todrop (sg_data g))
       (u32 (sg_len g - todrop)) (sg_wnd g), tp)
  else (g, tp).

(** The part after it; [None] for a segment outside the window. *)
Definition trim_right (g : tcp_seg) (tp : tcpcb) : option (tcp_seg * tcpcb) :=
  let th := sg_th g in
  let todrop := s32 (th_seq th + sg_len g - (rcv_nxt tp + rcv_wnd tp)) in
  if todrop >? 0 then
    let cut todrop tp :=
      Some (TcpSeg (set_th_flags (th_flags th &~ Z.lor TH_PUSH TH_FIN) th) (sg_to g)
              (adj (- todrop) (sg_data g)) (u32 (sg_len g - todrop)) (sg_wnd g), tp) in
    if u32 todrop >=? sg_len g then
      if negb (rcv_wnd tp =? 0) || negb (th_seq th =? rcv_nxt tp) then None
      else cut (s32 (sg_len g)) (acknow tp)
    else cut todrop tp
  else Some (g, tp).

(** Whether the segment is acceptable, what is left of it, and the block. *)
Definition tcp_trim_segment (g : tcp_seg) (tp : tcpcb) : bool * tcp_seg * tcpcb :=
  let '(g, tp) := trim_left g tp in
  match trim_right g tp with
  | Some (g, tp) => (true, g, tp)
  | None => (false, g, tp)
  end.

(** ** Acknowledgements *)

Definition tcp_rtt_sample (hz now : Z) (g : tcp_seg) (tp : tcpcb) : tcpcb :=
  let ack := th_ack (sg_th g) in
  let timed tp := negb (rtt_start tp =? 0) && SEQ_GT ack (rtt_seq tp) in
  let tp :=
    if (to_flags (sg_to g) &? TOF_TS) && (t_flags tp &? TF_RCVD_TSTMP) && negb (to_ts_ecr (sg_to g) =? 0)
    then tcp_xmit_timer hz (s32 (u32 now - to_ts_ecr (sg_to g))) tp
    else if timed tp then tcp_xmit_timer hz (s32 (now - rtt_start tp)) tp
    else tp in
  if timed tp then set_rtt_start 0 tp else tp.

Definition tcp_retransmit_from (from cwnd : Z) : M Z :=
  let* tp := get_tp in
  let onxt := snd_nxt tp in
  upd_tp (fun tp => set_snd_cwnd cwnd (set_snd_nxt from tp)) ;!
  let* _ := tcp_output in
  let* tp := get_tp in
  let end_ := snd_nxt tp in
  when (SEQ_GT onxt (snd_nxt tp)) (upd_tp (set_snd_nxt onxt)) ;!
  retM end_.

Definition call_cc {A} (f : option A) (run : A -> tcpcb -> tcpcb) : M unit :=
  match f with Some f => upd_tp (run f) | None => fault end.

Definition tcp_enter_recovery : M unit :=
  let* cc := gets c_cc in
  call_cc (cc_cong_signal cc) (fun f => f CC_DUPACK) ;!
  upd_tp (fun tp => set_rtt_start 0 (stop_timer TCPT_REXMT (set_snd_recover (snd_max tp) tp))) ;!
  let* tp := get_tp in
  let* end_ := tcp_retransmit_from (snd_una tp) (mss tp) in
  upd_tp (fun tp =>
    let tp := set_t_flags (Z.lor (t_flags tp) TF_FASTRECOVERY) tp in
    if t_flags tp &? TF_SACK_PERMIT
    then set_snd_cwnd (snd_ssthresh tp)
           (set_sack_rexmit_bytes (u32 (end_ - snd_una tp)) (set_sack_rxmit end_ tp))
    else set_snd_cwnd (u32 (snd_ssthresh tp + dupacks tp * mss tp)) tp).

Definition tcp_dupack (g : tcp_seg) : M unit :=
  let* tp := get_tp in
  let th := sg_th g in
  let dup := (sg_len g =? 0) && (sg_wnd g =? snd_wnd tp) && (th_ack th =? snd_una tp)
             && negb (snd_max tp =? snd_una tp) && negb (th_flags th &? TH_FIN) in
  if negb dup then upd_tp (set_dupacks 0)
  else if t_flags tp &? TF_FASTRECOVERY then
    when (negb (t_flags tp &? TF_SACK_PERMIT))
      (upd_tp (fun tp => set_snd_cwnd (u32 (snd_cwnd tp + mss tp)) tp))
  else
    upd_tp (fun tp => set_dupacks (u32 (dupacks tp + 1)) tp) ;!
    let* tp := get_tp in
    when ((dupacks tp =? 3) && SEQ_GT (th_ack th) (snd_recover tp)) tcp_enter_recovery.

Definition tcp_partial_ack (ack : Z) : M unit :=
  let* tp := get_tp in
  if t_flags tp &? TF_SACK_PERMIT then retM tt else
  let acked := u32 (ack - snd_una tp) in
  let ocwnd := snd_cwnd tp in
  upd_tp (fun tp => set_rtt_start 0 (stop_timer TCPT_REXMT tp)) ;!
  let* _ := tcp_retransmit_from ack (u32 (mss tp + acked)) in
  upd_tp (fun tp => set_snd_cwnd (u32 ((if ocwnd >? acked then ocwnd - acked else 0) + mss tp)) tp).

Definition tcp_exit_recovery : M unit :=
  let* cc := gets c_cc in
  upd_tp (fun tp => set_sack_rexmit_bytes 0 (set_dupacks 0
    (set_t_flags (t_flags tp &~ TF_FASTRECOVERY) tp))) ;!
  call_cc (cc_post_recovery cc) (fun f => f).

Definition tcp_drop_acked_data (ack acked : Z) : M unit :=
  let* tp := get_tp in
  let acked := if SEQ_LEQ (snd_una tp) (iss tp) then u32 (acked - 1) else acked in
  let acked := if (t_flags tp &? TF_SENTFIN) && (ack =? snd_max tp) then u32 (acked - 1) else acked in
  let* so := get_so_opt in
  match so with
  | None => retM tt
  | Some so =>
      when (negb (acked =? 0))
        (upd_so (set_so_snd (bf_drop (if acked <? bf_cc (so_snd so) then acked else bf_cc (so_snd so)) (so_snd so))))
  end.

Definition tcp_new_ack (g : tcp_seg) : M unit :=
  let* now := tcp_now_ms in
  let* hz := gets c_hz in
  let* cc := gets c_cc in
  let* tp := get_tp in
  let ack := th_ack (sg_th g) in
  let acked := u32 (ack - snd_una tp) in
  upd_tp (tcp_rtt_sample hz now g) ;!
  let* tp := get_tp in
  (if negb (t_flags tp &? TF_FASTRECOVERY) then
     upd_tp (set_dupacks 0) ;! call_cc (cc_ack_received cc) (fun f => f acked)
   else if SEQ_LT ack (snd_recover tp) then tcp_partial_ack ack
   else tcp_exit_recovery) ;!
  tcp_drop_acked_data ack acked ;!
  upd_tp (fun tp =>
    let tp := set_snd_una ack tp in
    if SEQ_LT (snd_nxt tp) ack then set_snd_nxt ack tp else tp) ;!
  let* tp := get_tp in
  let* tp := lift (tcp_sack_ack ack tp) in
  upd_tp (fun _ => set_rexmt_shift 0 tp) ;!
  let* tp := get_tp in
  if ack =? snd_max tp then tcp_timer_stop TCPT_REXMT
  else when (negb (tcp_timer_active TCPT_PERSIST tp)) (tcp_timer_activate TCPT_REXMT (tcp_rexmt_ms tp)).

Definition tcp_our_fin_acked : M tcp_ack_result :=
  let* tp := get_tp in
  if negb (t_flags tp &? TF_SENTFIN) || negb (snd_una tp =? snd_max tp) then retM TCP_ACK_CONTINUE else
  match t_state tp with
  | TCPS_FIN_WAIT_1 =>
      tcp_state_change TCPS_FIN_WAIT_2 ;!
      let* d := detached in
      when d (tcp_timer_activate TCPT_2MSL (2 * TCP_MSL_MS)) ;!
      retM TCP_ACK_CONTINUE
  | TCPS_CLOSING => tcp_enter_timewait ;! retM TCP_ACK_CONTINUE
  | TCPS_LAST_ACK => tcp_close ;! retM TCP_ACK_GONE
  | _ => retM TCP_ACK_CONTINUE
  end.

(** The part of [tcp_process_ack] after the test in SYN_RECEIVED. *)
Definition process_ack (g : tcp_seg) : M tcp_ack_result :=
  let* tp := get_tp in
  let ack := th_ack (sg_th g) in
  if SEQ_GT ack (snd_max tp) then retM TCP_ACK_DROP_ACK else
  (if (t_flags tp &? TF_SACK_PERMIT) && (to_flags (sg_to g) &? TOF_SACK)
   then let* tp := lift (tcp_sack_update (to_sacks (sg_to g)) tp) in upd_tp (fun _ => tp)
   else retM tt) ;!
  let* tp := get_tp in
  if SEQ_LEQ ack (snd_una tp) then tcp_dupack g ;! retM TCP_ACK_CONTINUE
  else tcp_new_ack g ;! tcp_our_fin_acked.

Definition tcp_process_ack (g : tcp_seg) : M tcp_ack_result :=
  let* tp := get_tp in
  let ack := th_ack (sg_th g) in
  if bool_decide (t_state tp = TCPS_SYN_RECEIVED) then
    if SEQ_LEQ ack (snd_una tp) || SEQ_GT ack (snd_max tp)
    then tcp_respond 0 ack TH_RST ;! retM TCP_ACK_DROP
    else tcp_established ;! process_ack g
  else process_ack g.

Definition tcp_update_window (g : tcp_seg) (tp : tcpcb) : tcpcb :=
  let th := sg_th g in
  if SEQ_LT (snd_wl1 tp) (th_seq th) ||
     ((snd_wl1 tp =? th_seq th) &&
      (SEQ_LT (snd_wl2 tp) (th_ack th) || ((snd_wl2 tp =? th_ack th) && (sg_wnd g >? snd_wnd tp))))
  then set_snd_wl2 (th_ack th) (set_snd_wl1 (th_seq th) (set_snd_wnd (sg_wnd g) tp))
  else tp.

(** ** Data *)

Definition tcp_process_fin : M unit :=
  let* a := so_attached in
  when a (upd_so sock_cant_recv_more) ;!
  upd_tp (fun tp => acknow (set_rcv_nxt (u32 (rcv_nxt tp + 1)) tp)) ;!
  let* tp := get_tp in
  match t_state tp with
  | TCPS_SYN_RECEIVED | TCPS_ESTABLISHED => tcp_state_change TCPS_CLOSE_WAIT
  | TCPS_FIN_WAIT_1 => tcp_state_change TCPS_CLOSING
  | TCPS_FIN_WAIT_2 => tcp_enter_timewait
  | _ => retM tt
  end.

Definition tcp_schedule_ack (delay : bool) : M unit :=
  let* tp := get_tp in
  if negb delay || (t_flags tp &? TF_DELACK) then upd_tp acknow
  else upd_tp (fun tp => set_t_flags (Z.lor (t_flags tp) TF_DELACK) tp) ;!
       tcp_timer_activate TCPT_DELACK TCP_DELACK_MS.

(** The reassembly queue with the socket it delivers to: whether a FIN was
    reached. *)
Definition reassemble_into_socket (g : tcp_seg) : M bool :=
  let* tp := get_tp in
  let* so := get_so_opt in
  let* o := gets c_alloc in
  let '(ok, o) := ask o in
  modify (set_c_alloc o) ;!
  let deliver := match so with Some s => negb (so_state s &? SS_CANTRCVMORE) | None => false end in
  let hiwat := match so with Some s => Some (bf_hiwat (so_rcv s)) | None => None end in
  let '(fin, out, tp) := tcp_reassemble ok deliver hiwat (sg_th g) (sg_data g) (sg_len g) tp in
  upd_tp (fun _ => tp) ;!
  when (negb (bool_decide (out = []))) (upd_so (fun so => set_so_rcv (bf_append out (so_rcv so)) so)) ;!
  retM fin.

(** Whether the connection is still there. *)
Definition tcp_process_data (g : tcp_seg) : M bool :=
  let* tp := get_tp in
  let* d := detached in
  if TCPS_HAVERCVDFIN (t_state tp) || ((sg_len g =? 0) && negb (th_flags (sg_th g) &? TH_FIN))
  then retM true
  else if negb (sg_len g =? 0) && d then tcp_drop 0 ;! retM false
  else
    let in_order := (th_seq (sg_th g) =? rcv_nxt tp) && bool_decide (reassemble_queue tp = []) in
    let* fin := reassemble_into_socket g in
    when (negb (sg_len g =? 0)) (tcp_schedule_ack in_order) ;!
    when fin tcp_process_fin ;!
    retM true.

Definition output_ : M unit := let* _ := tcp_output in retM tt.
Definition drop_after_ack : M unit := upd_tp acknow ;! output_.

(** After the acceptance tests. *)
Definition input_accepted (g : tcp_seg) : M unit :=
  let th := sg_th g in
  if th_flags th &? TH_SYN then tcp_send_challenge_ack
  else if negb (th_flags th &? TH_ACK) then retM tt
  else
    let* now := tcp_now_ms in
    upd_tp (tcp_update_ts_recent now g) ;!
    let* r := tcp_process_ack g in
    match r with
    | TCP_ACK_DROP | TCP_ACK_GONE => retM tt
    | TCP_ACK_DROP_ACK => drop_after_ack
    | TCP_ACK_CONTINUE =>
        upd_tp (tcp_update_window g) ;!
        let* there := tcp_process_data g in
        when there output_
    end.

Definition tcp_input_sync (g : tcp_seg) : M unit :=
  let* so := get_so_opt in
  let* now := tcp_now_ms in
  upd_tp (fun tp => set_rcv_wnd (tcp_rcv_space so tp) tp) ;!
  let* tp := get_tp in
  let '(ok, tp) := tcp_paws_ok now g tp in
  upd_tp (fun _ => tp) ;!
  if negb ok then drop_after_ack
  else if th_flags (sg_th g) &? TH_RST then tcp_input_rst g
  else
    let '(ok, g, tp) := tcp_trim_segment g tp in
    upd_tp (fun _ => tp) ;!
    if negb ok then drop_after_ack else input_accepted g.

(** ** A segment for a connection *)

(** [opts] are the option bytes of the header, [payload] the bytes after it;
    [e] matters in LISTEN only. *)
Definition tcp_input (e : listen_env) (from : reply_to) (th : tcp_header) (opts payload : list Z)
  : M (option conn) :=
  let* to := lift (tcp_dooptions opts (th_flags th &? TH_SYN)) in
  let* now := tcp_now_ms in
  let* tp := get_tp in
  let len := u32 (Z.of_nat (length payload)) in
  let wnd := if th_flags th &? TH_SYN then th_window th else u32 (Z.shiftl (th_window th) (snd_scale tp)) in
  let g := TcpSeg th to payload len wnd in
  upd_tp (fun tp => set_keep_probes 0 (set_t_rcvtime now tp)) ;!
  match t_state tp with
  | TCPS_CLOSED => tcp_reply_reset from th len ;! retM None
  | TCPS_LISTEN => tcp_input_listen e from g
  | TCPS_SYN_SENT =>
      let* '(go, g) := tcp_input_syn_sent g in
      when go (tcp_input_sync g) ;! retM None
  | _ => tcp_input_sync g ;! retM None
  end.

End input.
