(* ===== verification/TcpPacket.v ===== *)
(** * From packets to connections: the entry points of tcp_input.c

    A packet from IP is a chain of buffers.  Its header is checked, made
    contiguous and parsed, and the endpoint looked up; a verdict says which
    connection the segment goes to, or that a reset answers it.  TcpWire.v
    proves the round trip: what TCP sends, TCP accepts and reads back. *)

From Stdlib Require Import ZArith Lia.
From stdpp Require Import base option gmap list.
From S2P Require Import Prelude Bytes Netbuf NetbufFacts Inpcb TcpVar TcpOptions TcpReass TcpConn.
From S2P Require Import TcpOutput TcpSubr TcpInput.
Open Scope Z_scope.
Open Scope hermes_scope.

Definition NETBUF_CSUM_L4_VALID : Z := 0x0002.
Definition IPV4_VERSION : Z := 4.
Definition INADDR_BROADCAST : Z := 0xffffffff.

(** [n] bytes at [nb->data + off]: of the first buffer only. *)
Definition data_at (nb : list netbuf) (off n : Z) : option (list Z) :=
  b ← head nb; slice (nb_buf b) (nb_data b + off) n.

Definition pkt_len (nb : list netbuf) : Z := match nb with b :: _ => nb_pkt_len b | [] => 0 end.

Definition tcp_header_len (data_off : Z) : Z := Z.shiftr data_off 4 * 4.

(** [nb->data + off] as a header, its ports in network byte order. *)
Definition tcp_header_to_host (bs : list Z) : tcp_header :=
  TcpHeader (le_val (take 2 bs)) (le_val (take 2 (drop 2 bs))) (be_val (take 4 (drop 4 bs)))
    (be_val (take 4 (drop 8 bs))) (le_val (take 1 (drop 12 bs))) (le_val (take 1 (drop 13 bs)))
    (be_val (take 2 (drop 14 bs))).

Definition tcp_packet_addrs (nb : list netbuf) : option (list Z * list Z) :=
  v ← data_at nb 0 1;
  if Z.shiftr (le_val v) 4 =? IPV4_VERSION then
    src ← data_at nb 12 4; dst ← data_at nb 16 4;
    Some (inpcb_map_v4 src, inpcb_map_v4 dst)
  else
    src ← data_at nb 8 16; dst ← data_at nb 24 16;
    Some (src, dst).

Definition tcp_validate (nb : list netbuf) (off tlen : Z) (src dst : list Z) : option bool :=
  if tlen <? TCP_HEADER_LEN then Some false else
  doff ← data_at nb (off + 12) 1;
  let hlen := tcp_header_len (le_val doff) in
  if (hlen <? TCP_HEADER_LEN) || (hlen >? tlen) then Some false else
  b ← head nb;
  if nb_csum_flags b &? NETBUF_CSUM_L4_VALID then Some true else
  c ← inpcb_l4_checksum nb off tlen IPPROTO_TCP src dst;
  Some (c =? 0).

(** What becomes of a packet: dropped; input of the connection of an internet
    control block; or answered with a reset. *)
Inductive verdict :=
| Drop
| Deliver (inp : Z) (from : reply_to) (th : tcp_header) (opts payload : list Z)
| Reset (from : reply_to) (th : tcp_header) (len : Z).

Definition reply_of (nb : list netbuf) (th : tcp_header) : option reply_to :=
  '(src, dst) ← tcp_packet_addrs nb;
  Some (ReplyTo dst src (th_dst_port th) (th_src_port th)).

Section packet.
Context `{HFS : !FreshStorage}.

Definition tcp_input_packet (t : inpcb_table) (nb : list netbuf) (off : Z) (src dst : list Z) (o : oracle)
  : option (verdict * oracle) :=
  let tlen := u64 (pkt_len nb - off) in
  ok ← tcp_validate nb off tlen src dst;
  if negb ok then Some (Drop, o) else
  doff ← data_at nb (off + 12) 1;
  let hlen := tcp_header_len (le_val doff) in
  '(nb, o) ← netbuf_pullup nb (off + hlen) o;
  match nb with
  | [] => Some (Drop, o)
  | _ =>
      th ← tcp_header_to_host <$> data_at nb off TCP_HEADER_LEN;
      opts ← data_at nb (off + TCP_HEADER_LEN) (hlen - TCP_HEADER_LEN);
      inp ← inpcb_lookup t src (th_src_port th) dst (th_dst_port th) true;
      from ← reply_of nb th;
      let reset := Reset from th (u32 (tlen - hlen)) in
      match inp with
      | None => Some (reset, o)
      | Some p =>
          i ← t_pcbs t !! p;
          if i_ppcb i =? 0 then Some (reset, o)
          else Some (Deliver p from th opts (drop (Z.to_nat (off + hlen)) (content nb)), o)
      end
  end.

Definition ipv4_is_multicast (addr : list Z) : bool := Z.land (be_val addr) 0xF0000000 =? 0xE0000000.

Definition tcp_input4 (t : inpcb_table) (nb : list netbuf) (header_len : Z) (o : oracle)
  : option (verdict * oracle) :=
  '(nb, o) ← netbuf_pullup nb (header_len + TCP_HEADER_LEN) o;
  match nb with
  | [] => Some (Drop, o)
  | b :: _ =>
      src ← data_at nb 12 4; dst ← data_at nb 16 4;
      if (nb_flags b &? Z.lor NETBUF_BCAST NETBUF_MCAST) || ipv4_is_multicast dst
         || (le_val dst =? INADDR_BROADCAST) then Some (Drop, o)
      else tcp_input_packet t nb header_len (inpcb_map_v4 src) (inpcb_map_v4 dst) o
  end.

Definition tcp_input6 (t : inpcb_table) (nb : list netbuf) (offset : Z) (o : oracle)
  : option (verdict * oracle) :=
  '(nb, o) ← netbuf_pullup nb (offset + TCP_HEADER_LEN) o;
  match nb with
  | [] => Some (Drop, o)
  | b :: _ =>
      dst0 ← data_at nb 24 1;
      if (nb_flags b &? NETBUF_MCAST) || (le_val dst0 =? 0xFF) then Some (Drop, o) else
      src ← data_at nb 8 16; dst ← data_at nb 24 16;
      tcp_input_packet t nb offset src dst o
  end.

End packet.

(** The connection's part: it is held while it takes the segment. *)
Definition tcp_deliver `{HFS : !FreshStorage} `{rt : route_layer} (e : listen_env) (from : reply_to)
    (th : tcp_header) (opts payload : list Z) : M (option conn) :=
  let* inp := get_inp in
  let so := bool_decide (is_Some (i_socket inp)) in
  when so (upd_so sock_hold) ;!
  let* child := tcp_input e from th opts payload in
  when so release_so ;!
  retM child.
