(* ===== verification/TcpWire.v ===== *)
(** * What TCP sends, TCP reads back

    A segment written by tcp_output.c, behind an IP header and in any chain of
    buffers, passes the checks of tcp_input.c, and its header, options and
    payload are read as they were written. *)

From Stdlib Require Import ZArith Lia.
From stdpp Require Import base option gmap list.
From S2P Require Import Prelude Bytes Netbuf NetbufFacts NetbufOps Checksum Inpcb InpcbFacts.
From S2P Require Import InpcbTheorems TcpVar TcpOptions TcpConn TcpOutput TcpSegment TcpInput TcpPacket.
Open Scope Z_scope.
Open Scope hermes_scope.

(** ** Reading a contiguous packet *)

Lemma data_at_content nb len off n : Forall nb_wf nb -> contiguous nb len -> 0 <= off -> 0 <= n -> off + n <= len ->
  data_at nb off n = Some (take (Z.to_nat n) (drop (Z.to_nat off) (content nb))).
Proof.
  intros Hw (b & rest & -> & Hl) Ho Hn Hle. apply Forall_cons_iff in Hw as [Hb _]. pose proof Hb as [? ? ? ?].
  unfold data_at. cbn [head]. rewrite option_bind_Some_fun. unfold nb_buf_size in *.
  rewrite slice_Some by lia. f_equal. rewrite content_cons, drop_app_le, take_app_le.
  - unfold payload. rewrite skipn_firstn_comm, drop_drop, take_take.
    f_equal; [lia |]. f_equal. lia.
  - rewrite length_drop. pose proof (payload_length b Hb). lia.
  - pose proof (payload_length b Hb). lia.
Qed.

(** ** The header *)

(** The header as the receiver sees it, in host byte order but for the ports. *)
Definition header_of (sp dp seq ack flags win hlen : Z) : tcp_header :=
  TcpHeader sp dp seq (if flags &? TH_ACK then ack else 0) (u8 (Z.shiftl (hlen / 4) 4)) flags win.

Lemma header_read sp dp seq ack flags win hlen c rest : is_u 16 sp -> is_u 16 dp -> is_u 32 seq -> is_u 32 ack ->
  is_u 16 win -> is_byte flags ->
  let p := tcp_fill_header sp dp seq ack flags win hlen ++ rest in
  tcp_header_to_host (take 20 (take 16 p ++ be_bytes 2 c ++ drop 18 p)) = header_of sp dp seq ack flags win hlen.
Proof.
  intros Hsp Hdp Hseq Hack Hwin Hf. unfold is_u in *. unfold tcp_header_to_host, header_of, tcp_fill_header.
  assert (Hz : be_val [0; 0; 0; 0] = 0) by done. pose proof (u8_range (Z.shiftl (hlen / 4) 4)).
  assert (H1 : forall b, is_byte b -> le_val [b] = b) by (intros b Hb; cbn; lia).
  destruct (flags &? TH_ACK).
  - f_equal; [exact (le_val_le_bytes 2 sp Hsp) | exact (le_val_le_bytes 2 dp Hdp) | exact (be_val_be_bytes 4 seq Hseq)
      | exact (be_val_be_bytes 4 ack Hack) | by apply H1 | by apply H1 | exact (be_val_be_bytes 2 win Hwin)].
  - f_equal; [exact (le_val_le_bytes 2 sp Hsp) | exact (le_val_le_bytes 2 dp Hdp) | exact (be_val_be_bytes 4 seq Hseq)
      | by apply H1 | by apply H1 | exact (be_val_be_bytes 2 win Hwin)].
Qed.

(** ** A segment on the wire *)

Record wire_ok (src dst : list Z) (sp dp seq ack flags win : Z) (opt data : list Z) : Prop := {
  wk_src : addr_ok src;
  wk_dst : addr_ok dst;
  wk_ports : is_u 16 sp /\ is_u 16 dp;
  wk_seqs : is_u 32 seq /\ is_u 32 ack;
  wk_win : is_u 16 win;
  wk_flags : is_byte flags;
  wk_opt : bytes opt /\ Z.of_nat (length opt) <= 40 /\ Z.of_nat (length opt) mod 4 = 0;
  wk_data : bytes data /\ TCP_HEADER_LEN + Z.of_nat (length opt) + Z.of_nat (length data) < 65536;
}.

Definition segment (src dst : list Z) (sp dp seq ack flags win : Z) (opt data : list Z) : list Z :=
  stamped src dst
    (tcp_fill_header sp dp seq ack flags win (TCP_HEADER_LEN + Z.of_nat (length opt)) ++ opt ++ data).

(** The source and destination addresses of an IP header. *)
Definition ip_addrs (iph : list Z) : list Z * list Z :=
  if Z.shiftr (le_val (take 1 iph)) 4 =? IPV4_VERSION
  then (inpcb_map_v4 (take 4 (drop 12 iph)), inpcb_map_v4 (take 4 (drop 16 iph)))
  else (take 16 (drop 8 iph), take 16 (drop 24 iph)).

Definition ip_header_ok (iph : list Z) : Prop :=
  bytes iph /\ if Z.shiftr (le_val (take 1 iph)) 4 =? IPV4_VERSION then (20 <= length iph)%nat else (40 <= length iph)%nat.

Section wire.
Context (src dst : list Z) (sp dp seq ack flags win : Z) (opt data : list Z).
Hypothesis H : wire_ok src dst sp dp seq ack flags win opt data.

Abbreviation hlen := (TCP_HEADER_LEN + Z.of_nat (length opt)).
Abbreviation plain := (tcp_fill_header sp dp seq ack flags win hlen ++ opt ++ data).
Abbreviation seg := (segment src dst sp dp seq ack flags win opt data).

Lemma plain_length : length plain = (20 + length opt + length data)%nat.
Proof using. rewrite !length_app, header_length. lia. Qed.

Lemma seg_length : length seg = (20 + length opt + length data)%nat.
Proof using.
  unfold segment, stamped. rewrite !length_app, be_bytes_length, length_take, length_drop, plain_length. lia.
Qed.

Lemma seg_bytes : bytes seg.
Proof using H.
  destruct H. unfold segment, stamped. assert (bytes plain).
  { apply bytes_app; [by apply header_bytes |]. apply bytes_app; [apply wk_opt0 | apply wk_data0]. }
  apply bytes_app; [by apply Forall_take |]. apply bytes_app; [apply be_bytes_bytes | by apply Forall_drop].
Qed.

Lemma seg_header : tcp_header_to_host (take 20 seg) = header_of sp dp seq ack flags win hlen.
Proof using H. destruct H as [_ _ [] [] ? ? _ _]. by apply header_read. Qed.

Lemma seg_rest : drop 20 seg = opt ++ data.
Proof using.
  unfold segment, stamped. rewrite drop_app_ge by (rewrite length_take, plain_length; lia).
  rewrite length_take, plain_length. rewrite drop_app_ge by (rewrite be_bytes_length; lia).
  rewrite be_bytes_length, drop_drop.
  replace (18 + _)%nat with (length (tcp_fill_header sp dp seq ack flags win hlen))
    by (rewrite header_length; lia). by rewrite drop_app_length.
Qed.

Lemma seg_doff : exists d, take 1 (drop 12 seg) = [d] /\ tcp_header_len d = hlen.
Proof using H.
  destruct H as [_ _ _ _ _ _ (_ & Ho & Hm) _]. exists (u8 (Z.shiftl (hlen / 4) 4)). split.
  - unfold segment, stamped, tcp_fill_header. by destruct (flags &? TH_ACK).
  - assert (E : hlen = 4 * (hlen / 4)).
    { unfold TCP_HEADER_LEN in *. apply Z.div_exact; [lia |]. rewrite Z.add_mod, Hm by lia. done. }
    unfold tcp_header_len. rewrite u8_small, Z.shiftr_shiftl_l, Z.shiftl_0_r by
      (rewrite ?Z.shiftl_mul_pow2 by lia; unfold TCP_HEADER_LEN in *; lia). lia.
Qed.

Lemma seg_checksum : rfc1071 (pseudo_header src dst IPPROTO_TCP (Z.of_nat (length seg)) ++ seg) = 0.
Proof using H.
  rewrite seg_length, <- plain_length. destruct H as [Hs Hd _ _ _ Hf [Hb _] [Hb' _]].
  destruct (pseudo_header_facts src dst IPPROTO_TCP (Z.of_nat (length plain)) Hs Hd) as [Pb Pe]; [done |].
  assert (B : bytes plain) by (apply bytes_app; [by apply header_bytes | by apply bytes_app]).
  pose proof (header_checksum_zero sp dp seq ack flags win hlen (opt ++ data)) as Hz. cbv zeta in Hz.
  pose proof plain_length as Hl. unfold segment, stamped. set (p := plain) in *. set (ph := pseudo_header _ _ _ _) in *.
  assert (E : ph ++ p = (ph ++ take 16 p) ++ [0; 0] ++ drop 18 p) by (rewrite <- app_assoc; by rewrite <- Hz).
  rewrite E, (app_assoc ph (take 16 p)). apply rfc1071_verifies.
  - apply bytes_app; [done | by apply Forall_take].
  - by apply Forall_drop.
  - rewrite length_app, length_take, Hl. destruct Pe as [k ->]. exists (k + 8)%nat. lia.
Qed.

(** A packet that carries the segment behind the IP header [iph]. *)
Record carries (iph : list Z) (nb : list netbuf) : Prop := {
  cy_packet : packet_ok nb;
  cy_content : content nb = iph ++ seg;
  cy_header : contiguous nb (Z.of_nat (length iph) + TCP_HEADER_LEN);
}.

Section packet.
Context (iph : list Z) (Hip : ip_header_ok iph).
Abbreviation off := (Z.of_nat (length iph)).

Lemma carries_at nb len o n : carries iph nb -> contiguous nb len -> 0 <= o -> 0 <= n -> off + o + n <= len ->
  data_at nb (off + o) n = Some (take (Z.to_nat n) (drop (Z.to_nat o) seg)).
Proof using.
  intros [[[Hw _] _] Hc _] Hl Ho Hn Hle. rewrite (data_at_content nb len) by (done || lia). rewrite Hc.
  rewrite drop_app_ge by lia. do 3 f_equal. lia.
Qed.

Lemma carries_len nb : carries iph nb -> u64 (pkt_len nb - off) = Z.of_nat (length seg).
Proof using H.
  intros [[_ (b & rest & -> & Hp & _)] Hc _]. cbn [pkt_len]. rewrite Hp. unfold content_len. rewrite Hc, length_app.
  replace (Z.of_nat (length iph + length seg) - off) with (Z.of_nat (length seg)) by lia.
  apply u64_small. rewrite seg_length. destruct H as [_ _ _ _ _ _ _ [_ ?]]. unfold TCP_HEADER_LEN in *. lia.
Qed.

Lemma carries_validate nb : carries iph nb -> tcp_validate nb off (Z.of_nat (length seg)) src dst = Some true.
Proof using H Hip.
  intros C. pose proof C as [[[Hw _] (b & rest & E & _)] Hc Hl]. unfold tcp_validate.
  destruct seg_doff as (d & Ed & Eh). pose proof seg_length as Hsl. destruct H as [Hs Hd _ _ _ _ _ [_ Hlim]].
  destruct (Z.ltb_spec (Z.of_nat (length seg)) TCP_HEADER_LEN); [unfold TCP_HEADER_LEN in *; lia |].
  rewrite (carries_at nb (off + TCP_HEADER_LEN) 12 1 C Hl) by (unfold TCP_HEADER_LEN; lia).
  change (Z.to_nat 1) with 1%nat. change (Z.to_nat 12) with 12%nat. rewrite Ed, option_bind_Some_fun.
  assert (le_val [d] = d) as -> by (cbn; lia). rewrite Eh, Z.gtb_ltb.
  destruct (Z.ltb_spec hlen TCP_HEADER_LEN); [lia |].
  destruct (Z.ltb_spec (Z.of_nat (length seg)) hlen); [unfold TCP_HEADER_LEN in *; lia |]. cbn [orb].
  subst nb. cbn [head]. rewrite option_bind_Some_fun. destruct (_ &? NETBUF_CSUM_L4_VALID); [done |].
  rewrite l4_checksum_spec; try done; try lia.
  - rewrite option_bind_Some_fun, Hc, drop_app_ge by lia. rewrite !Nat2Z.id, Nat.sub_diag, drop_0, take_ge by lia. by rewrite seg_checksum.
  - rewrite Hc. apply bytes_app; [apply Hip | apply seg_bytes].
  - unfold TCP_HEADER_LEN in *. lia.
Qed.

Lemma carries_reply nb th : carries iph nb -> ip_addrs iph = (src, dst) -> contiguous nb off ->
  th_src_port th = sp -> th_dst_port th = dp -> reply_of nb th = Some (ReplyTo dst src dp sp).
Proof using H Hip.
  intros [[[Hw _] _] Hc _] Ha Hl Es Ed. unfold reply_of, tcp_packet_addrs. destruct Hip as [Hb Hlen].
  assert (At : forall o n, 0 <= o -> 0 <= n -> o + n <= off ->
    data_at nb o n = Some (take (Z.to_nat n) (drop (Z.to_nat o) iph))).
  { intros o n Ho Hn Hle. rewrite (data_at_content nb off) by (done || lia). rewrite Hc.
    rewrite drop_app_le, take_app_le by (rewrite ?length_drop; lia). done. }
  unfold ip_addrs in Ha. assert (Hpos : 1 <= off) by (destruct (_ =? IPV4_VERSION); lia).
  rewrite (At 0 1) by lia. rewrite option_bind_Some_fun. change (Z.to_nat 1) with 1%nat. change (Z.to_nat 0) with 0%nat.
  rewrite drop_0. destruct (Z.shiftr (le_val (take 1 iph)) 4 =? IPV4_VERSION); injection Ha as <- <-;
    rewrite !At, !option_bind_Some_fun by lia; by rewrite Es, Ed.
Qed.

(** What the segment leads to: the connection found takes it, or a reset
    answers it. *)
Definition taken (t : inpcb_table) (r : option Z) : option verdict :=
  let from := ReplyTo dst src dp sp in
  let th := header_of sp dp seq ack flags win hlen in
  match r with
  | None => Some (Reset from th (Z.of_nat (length data)))
  | Some p => i ← t_pcbs t !! p;
      Some (if i_ppcb i =? 0 then Reset from th (Z.of_nat (length data)) else Deliver p from th opt data)
  end.

Lemma carries_input `{HFS : !FreshStorage} t nb o nb' o' r : carries iph nb -> ip_addrs iph = (src, dst) ->
  netbuf_pullup nb (off + hlen) o = Some (nb', o') -> nb' <> [] ->
  inpcb_lookup t src sp dst dp true = Some r ->
  tcp_input_packet t nb off src dst o = (v ← taken t r; Some (v, o')).
Proof using H Hip.
  intros C Ha Hp Hne Hlk. unfold tcp_input_packet. rewrite carries_len, carries_validate, option_bind_Some_fun by done.
  cbn [negb]. destruct seg_doff as (d & Ed & Eh).
  rewrite (carries_at nb (off + TCP_HEADER_LEN) 12 1 C (cy_header _ _ C)) by (unfold TCP_HEADER_LEN; lia).
  change (Z.to_nat 1) with 1%nat. change (Z.to_nat 12) with 12%nat. rewrite Ed, option_bind_Some_fun.
  assert (le_val [d] = d) as -> by (cbn; lia). rewrite Eh, Hp, option_bind_Some_fun. cbv beta iota.
  destruct (netbuf_pullup_spec nb (off + hlen) o (cy_packet _ _ C)) as (nb2 & o2 & Hp2 & Hr); [unfold TCP_HEADER_LEN; lia |].
  rewrite Hp in Hp2. injection Hp2 as <- <-. destruct Hr as [(Hok & Hct & Hcn) | [? _]]; [| done].
  assert (C' : carries iph nb').
  { destruct C as [_ Hc _]. constructor; [done | by rewrite Hcn | by destruct Hct as (b & rest & -> & ?); exists b, rest; split; [| lia]]. }
  destruct nb' as [| b rest]; [done |]. pose proof seg_rest as Hrest. pose proof seg_length as Hsl.
  replace off with (off + 0) at 1 by lia.
  rewrite (carries_at (b :: rest) (off + hlen) 0 TCP_HEADER_LEN C' Hct) by (unfold TCP_HEADER_LEN; lia).
  rewrite (carries_at (b :: rest) (off + hlen) TCP_HEADER_LEN (hlen - TCP_HEADER_LEN) C' Hct) by (unfold TCP_HEADER_LEN; lia).
  change (Z.to_nat TCP_HEADER_LEN) with 20%nat. change (Z.to_nat 0) with 0%nat.
  rewrite drop_0, Hrest. replace (Z.to_nat (hlen - TCP_HEADER_LEN)) with (length opt) by lia. rewrite take_app_length.
  cbn [fmap option_fmap option_map]. rewrite seg_header, !option_bind_Some_fun. cbn [header_of th_src_port th_dst_port].
  rewrite Hlk, option_bind_Some_fun. rewrite (carries_reply (b :: rest) _ C' Ha); try done.
  2:{ destruct Hct as (b' & rest' & E & ?). exists b', rest'. split; [done | unfold TCP_HEADER_LEN in *; lia]. }
  rewrite option_bind_Some_fun. assert (Hlen : u32 (Z.of_nat (length seg) - hlen) = Z.of_nat (length data)).
  { rewrite Hsl. destruct H as [_ _ _ _ _ _ _ [_ ?]]. unfold TCP_HEADER_LEN in *. rewrite u32_small; lia. }
  assert (Hpay : drop (Z.to_nat (off + hlen)) (content (b :: rest)) = data).
  { rewrite (cy_content _ _ C'), drop_app_ge by (unfold TCP_HEADER_LEN; lia).
    replace (Z.to_nat (off + hlen) - length iph)%nat with (20 + length opt)%nat by (unfold TCP_HEADER_LEN; lia).
    rewrite <- drop_drop, Hrest. by rewrite drop_app_length. }
  rewrite Hlen, Hpay. unfold taken. destruct r as [p |]; [| done]. destruct (t_pcbs t !! p) as [i |]; [| done].
  rewrite !option_bind_Some_fun. by destruct (i_ppcb i =? 0).
Qed.

End packet.
End wire.
