(* ===== verification/TcpUsrreq.v ===== *)
(** * Requests of the socket layer: drivers/net/tcp/tcp_usrreq.c

    The operations of [tcp_protosw4] and [tcp_protosw6].  [so->pcb] is set by
    [tcp_attach] and never cleared: using it after the internet control block
    is freed is a fault.  A request runs under the locks of the socket and of
    the table. *)

From Stdlib Require Import ZArith Lia.
From stdpp Require Import base option gmap list.
From S2P Require Import Prelude Bytes Netbuf Inpcb TcpVar TcpReass TcpCc TcpConn TcpOutput TcpSubr.
From S2P Require Import TcpInput.
Open Scope Z_scope.
Open Scope hermes_scope.

Definition EPIPE : Z := 32.
Definition ENOPROTOOPT : Z := 92.
Definition EOPNOTSUPP : Z := 95.
Definition ECONNABORTED : Z := 103.
Definition EISCONN : Z := 106.
Definition EALREADY : Z := 114.

Definition MSG_OOB : Z := 0x01.
Definition SHUT_RD : Z := 0.
Definition TCP_NODELAY : Z := 1.
Definition TCP_MAXSEG : Z := 2.

Section usrreq.
Context `{HFS : !FreshStorage} `{rt : route_layer} `{ip : ip_layer} (opts : Z -> Z) (rnd : Z).

(** The socket that makes the request. *)
Definition self : M socket := let* so := gets c_so in lift so.
Definition upd_self (f : socket -> socket) : M unit :=
  let* so := self in modify (set_c_so (Some (f so))).

Definition tcp_tcpcb : M (option tcpcb) :=
  let* inp := get_inp in
  if i_ppcb inp =? 0 then retM None else let* tp := get_tp in retM (Some tp).

Definition tcp_gone_error (so : socket) : Z :=
  if negb (so_error so =? 0) then - so_error so else - ENOTCONN.

(** A call that returns an error code and changes the table. *)
Definition table_call (f : Z -> inpcb_table -> option (Z * inpcb_table)) : M Z :=
  let* p := gets c_inp in
  let* t := gets c_table in
  let* '(err, t) := lift (f p t) in
  modify (set_c_table t) ;! retM err.

Definition tcp_attach := tcp_attach_pcb.

Definition tcp_bind (addr : option (list Z)) (len : Z) : M Z :=
  table_call (fun p t => inpcb_bind opts rnd p addr len t).

Definition tcp_listen : M Z :=
  let* tp := tcp_tcpcb in
  let* err :=
    match tp with
    | None => retM (- EINVAL)
    | Some tp =>
        if negb (bool_decide (t_state tp = TCPS_CLOSED)) && negb (bool_decide (t_state tp = TCPS_LISTEN))
        then retM (- EINVAL)
        else
          let* inp := get_inp in
          if i_lport inp =? 0 then table_call (fun p t => inpcb_bind opts rnd p None 0 t) else retM 0
    end in
  when (err =? 0) (tcp_state_change TCPS_LISTEN) ;!
  retM err.

Definition tcp_connect_locked (addr : list Z) (len : Z) : M Z :=
  let* tp := tcp_tcpcb in
  match tp with
  | None => retM (- EINVAL)
  | Some tp =>
      if bool_decide (t_state tp = TCPS_SYN_SENT) then retM (- EALREADY)
      else if negb (bool_decide (t_state tp = TCPS_CLOSED)) then retM (- EISCONN)
      else
        let* err := table_call (fun p t => inpcb_connect opts rnd p addr len t) in
        if negb (err =? 0) then retM err
        else
          tcp_sendseqinit ;!
          tcp_state_change TCPS_SYN_SENT ;!
          upd_self sock_is_connecting ;!
          tcp_timer_activate TCPT_KEEP TCP_KEEPINIT_MS ;!
          output_ ;!
          retM 0
  end.
Definition tcp_connect := tcp_connect_locked.

(** The error, or the address and its length where one is asked for. *)
Definition tcp_accept (addr : option (list Z * Z)) : M (Z + list Z * Z) :=
  match addr with
  | Some (addr, len) => let* inp := get_inp in lift (inpcb_pr_peeraddr (Some inp) addr len)
  | None => retM (inl 0)
  end.

Definition tcp_send (nb : list Z) (flags : Z) : M Z :=
  if flags &? MSG_OOB then retM (- EOPNOTSUPP) else
  let* so := self in
  let* tp := tcp_tcpcb in
  match tp with
  | None => retM (tcp_gone_error so)
  | Some tp =>
      if state_num (t_state tp) <? state_num TCPS_SYN_SENT then retM (- ENOTCONN)
      else if state_num (t_state tp) >? state_num TCPS_CLOSE_WAIT then retM (- EPIPE)
      else
        upd_self (fun so => set_so_snd (bf_append nb (so_snd so)) so) ;!
        output_ ;!
        retM 0
  end.

Definition tcp_rcvd : M Z :=
  let* tp := tcp_tcpcb in
  match tp with Some _ => output_ | None => retM tt end ;!
  retM 0.

(** [tcp_usrclosed], and [tcp_output] if the connection is still there. *)
Definition usrclosed_output : M unit := let* there := tcp_usrclosed in when there output_.

Definition tcp_shutdown (how : Z) : M Z :=
  if how =? SHUT_RD then retM 0 else
  let* tp := tcp_tcpcb in
  upd_self sock_cant_send_more ;!
  match tp with Some _ => usrclosed_output | None => retM tt end ;!
  retM 0.

Definition tcp_disconnect_tp : M unit :=
  let* tp := get_tp in
  let* so := self in
  if negb (TCPS_HAVEESTABLISHED (t_state tp)) then tcp_close
  else if so_linger so =? 0 then tcp_drop 0
  else upd_self sock_is_disconnecting ;! usrclosed_output.

Definition tcp_disconnect : M Z :=
  let* tp := tcp_tcpcb in
  match tp with
  | Some _ => tcp_disconnect_tp ;! retM 0
  | None => retM (- ENOTCONN)
  end.

Definition tcp_abort : M unit :=
  let* tp := tcp_tcpcb in
  match tp with Some _ => tcp_drop ECONNABORTED | None => retM tt end.

Definition tcp_detach : M unit :=
  on_table (upd_pcb (fun i => with_iflags (Z.lor (i_flags i) INPCB_DETACHED) i)) ;!
  let* tp := tcp_tcpcb in
  match tp with
  | None => tcp_pcb_release
  | Some tp => if negb (TCPS_HAVEESTABLISHED (t_state tp)) then tcp_close else usrclosed_output
  end.

(** The error, the value, and the memory and length of the option. *)
Definition tcp_ctloutput_int (optval : list Z) (optlen value : Z) (set : bool)
  : option (Z * Z * list Z * Z) :=
  if optlen <? 4 then Some (- EINVAL, value, optval, optlen)
  else if set then v ← slice optval 0 4; Some (0, s32 (le_val v), optval, 4)
  else optval ← splice optval 0 (le_bytes 4 (u32 value)); Some (0, value, optval, 4).

Definition tcp_ctloutput (level optname : Z) (optval : list Z) (optlen : Z) (set : bool)
  : M (Z * list Z * Z) :=
  if negb (level =? IPPROTO_TCP) then retM (- ENOPROTOOPT, optval, optlen) else
  let* so := self in
  let* tp := tcp_tcpcb in
  match tp with
  | None => retM (tcp_gone_error so, optval, optlen)
  | Some tp =>
      if optname =? TCP_NODELAY then
        let value := if t_flags tp &? TF_NODELAY then 1 else 0 in
        let* '(err, value, optval, optlen) := lift (tcp_ctloutput_int optval optlen value set) in
        when ((err =? 0) && set)
          (upd_tp (fun tp => set_t_flags (if negb (value =? 0) then Z.lor (t_flags tp) TF_NODELAY
                                          else t_flags tp &~ TF_NODELAY) tp)) ;!
        when ((err =? 0) && set && negb (value =? 0)) output_ ;!
        retM (err, optval, optlen)
      else if optname =? TCP_MAXSEG then
        let* '(err, value, optval, optlen) := lift (tcp_ctloutput_int optval optlen (mss tp) set) in
        if (err =? 0) && set && ((value <? 64) || (value >? mss tp)) then retM (- EINVAL, optval, optlen)
        else when ((err =? 0) && set) (upd_tp (set_mss value)) ;! retM (err, optval, optlen)
      else retM (- ENOPROTOOPT, optval, optlen)
  end.

End usrreq.
