(* ===== verification/TcpInvariant.v ===== *)
(** * The invariant of a connection

    [conn_ok]: the table of endpoints is well formed; while the control block is
    in use it belongs to an internet control block with a socket, its sequence
    numbers and its scoreboard fit the send buffer, and the socket is referenced;
    after it is closed, nothing refers to it.  Every handler of tcp_output.c,
    tcp_subr.c, tcp_timer.c, tcp_input.c and tcp_usrreq.c runs without a fault
    from such a state and leaves such a state. *)

From Stdlib Require Import ZArith Lia.
From stdpp Require Import base option gmap list.
From S2P Require Import Prelude Bytes Siphash Netbuf Inpcb InpcbFacts TcpVar TcpSack TcpOptions TcpReass.
From S2P Require Import TcpCc TcpConn TcpConnFacts TcpOutput TcpSegment TcpOutputFacts TcpSubr TcpInput.
Open Scope Z_scope.
Open Scope hermes_scope.

#[local] Opaque inpcb_hash inpcb_port_hash.

Implicit Types (tp : tcpcb) (so : socket) (inp : inpcb) (s : conn).

(** ** The states a connection goes through *)

(** The diagram of RFC 793, without the transitions to CLOSED, which release
    the block. *)
Inductive tcp_edge : tcp_state -> tcp_state -> Prop :=
| edge_listen : tcp_edge TCPS_CLOSED TCPS_LISTEN
| edge_connect : tcp_edge TCPS_CLOSED TCPS_SYN_SENT
| edge_simultaneous : tcp_edge TCPS_SYN_SENT TCPS_SYN_RECEIVED
| edge_connected : tcp_edge TCPS_SYN_SENT TCPS_ESTABLISHED
| edge_accepted : tcp_edge TCPS_SYN_RECEIVED TCPS_ESTABLISHED
| edge_close : tcp_edge TCPS_ESTABLISHED TCPS_FIN_WAIT_1
| edge_peer_close : tcp_edge TCPS_ESTABLISHED TCPS_CLOSE_WAIT
| edge_fin_acked : tcp_edge TCPS_FIN_WAIT_1 TCPS_FIN_WAIT_2
| edge_closing : tcp_edge TCPS_FIN_WAIT_1 TCPS_CLOSING
| edge_time_wait : tcp_edge TCPS_FIN_WAIT_2 TCPS_TIME_WAIT
| edge_both_closed : tcp_edge TCPS_CLOSING TCPS_TIME_WAIT
| edge_last_ack : tcp_edge TCPS_CLOSE_WAIT TCPS_LAST_ACK.
#[export] Hint Constructors tcp_edge : core.

(** The state a handler started from: the invariant keeps track of it. *)
Class origin := first_state : tcp_state.
Definition from_origin {O : origin} (st : tcp_state) : Prop := rtc tcp_edge first_state st.

Lemma from_step {O : origin} st st' : from_origin st -> tcp_edge st st' -> from_origin st'.
Proof. intros. by eapply rtc_r. Qed.

(** Before the handshake is done. *)
Definition opening (st : tcp_state) : bool := negb (TCPS_HAVEESTABLISHED st).

Section invariant.
Context {O : origin}.

Record tcp_ok tp inp so : Prop := {
  tk_from : from_origin (t_state tp);
  tk_out : out_ok tp (bf_cc (so_snd so));
  tk_fresh : opening (t_state tp) = true -> sack_count tp = 0 /\ (t_flags tp &? TF_FASTRECOVERY) = false;
  tk_listen : t_state tp = TCPS_LISTEN -> i_lport inp <> 0;
  tk_embryo : opening (t_state tp) = true -> so_listen_head so = true -> so_embryonic so = true;
}.

(** The socket is referenced by the internet control block, by the queue of
    the listening socket while it is embryonic, and by [h] handlers. *)
Record so_ok (h : Z) so : Prop := {
  sk_held : 0 <= h <= 1;
  sk_ref : h + 1 + (if so_embryonic so then 1 else 0) <= so_refcount so < 2 ^ 31 + h;
  sk_embryo : so_embryonic so = true -> so_listen_head so = true /\ so_queue so = Incomplete;
  sk_bytes : bytes (bf_data (so_snd so));
}.

Record env_ok s : Prop := {
  ek_table : table_wf (c_table s);
  ek_cc : cc_laws (c_cc s);
  ek_key : length (c_isn_key s) = 16%nat /\ bytes (c_isn_key s);
}.

(** The control block in use. *)
Record inv (h : Z) s tp inp so : Prop := {
  iv_live : live s tp inp so;
  iv_env : env_ok s;
  iv_ppcb : i_ppcb inp <> 0;
  iv_so : so_ok h so;
  iv_tcp : tcp_ok tp inp so;
}.

(** After [tcp_close]: the internet control block is without a control block,
    or freed, and then only the handler that runs may hold the socket. *)
Definition closed_ok (h : Z) s : Prop :=
  match t_pcbs (c_table s) !! c_inp s with
  | Some inp => i_ppcb inp = 0 /\ exists so, attached s inp so /\ so_ok h so
  | None => 0 <= h <= 1 /\ (h = 0 \/ exists so, c_so s = Some so /\ h <= so_refcount so < 2 ^ 31 + h)
  end.

Record conn_ok (h : Z) s : Prop := {
  ck_env : env_ok s;
  ck_tcb : match c_tcb s with
           | Live tp => exists inp so, inv h s tp inp so
           | Draining n => 0 < n < 2 ^ 32 /\ closed_ok h s
           | Freed => closed_ok h s
           end;
}.

Lemma inv_conn_ok h s tp inp so : inv h s tp inp so -> conn_ok h s.
Proof. intros H. constructor; [apply H |]. rewrite (lv_tcb _ _ _ _ (iv_live _ _ _ _ _ H)). eauto. Qed.

Lemma live_with_tp s tp inp so : live s tp inp so -> with_tp tp s = s.
Proof. intros [E _ _ _]. unfold with_tp, set_c_tcb. rewrite <- E. by destruct s. Qed.

(** ** Keeping the invariant *)

Lemma env_ok_ext s s' : c_table s' = c_table s -> c_cc s' = c_cc s -> c_isn_key s' = c_isn_key s ->
  env_ok s -> env_ok s'.
Proof. intros E1 E2 E3 []. constructor; by rewrite ?E1, ?E2, ?E3. Qed.

Lemma tcp_ok_ext tp tp' inp so : t_state tp' = t_state tp -> snd_una tp' = snd_una tp ->
  snd_nxt tp' = snd_nxt tp -> snd_max tp' = snd_max tp -> iss tp' = iss tp -> t_sack tp' = t_sack tp ->
  (t_flags tp' &? TF_SENTFIN) = (t_flags tp &? TF_SENTFIN) -> req_rcv_scale tp' = req_rcv_scale tp ->
  (opening (t_state tp) = true -> (t_flags tp &? TF_FASTRECOVERY) = false ->
   (t_flags tp' &? TF_FASTRECOVERY) = false) ->
  tcp_ok tp inp so -> tcp_ok tp' inp so.
Proof.
  intros E1 E2 E3 E4 E5 E6 E7 E8 E9 [T0 T1 T2 T3 T4]. constructor; rewrite ?E1, ?E6; try done.
  - by eapply (out_ok_ext tp).
  - intros H. destruct (T2 H). auto.
Qed.

Lemma inv_tp h s tp inp so tp' : inv h s tp inp so -> tcp_ok tp' inp so -> inv h (with_tp tp' s) tp' inp so.
Proof.
  intros [L E P S _] H. constructor; try done; [by eapply live_tp |]. by eapply (env_ok_ext s).
Qed.

Lemma inv_so h s tp inp so so' : inv h s tp inp so -> tcp_ok tp inp so' -> so_ok h so' ->
  inv h (with_so so' s) tp inp so'.
Proof.
  intros [L E P S _] H1 H2. constructor; try done; [by eapply live_so |]. by eapply (env_ok_ext s).
Qed.

(** Packets were sent and buffers asked for. *)
Lemma inv_io h s tp inp so o new : inv h s tp inp so ->
  inv h (set_c_alloc o (set_c_out (c_out s ++ new) s)) tp inp so.
Proof. intros [[] E P S T]. constructor; [by constructor | by eapply (env_ok_ext s) | done..]. Qed.

Lemma inv_addrs h s tp inp so : inv h s tp inp so -> pcb_ok inp.
Proof. intros [[] E _ _ _]. by eapply wf_pcbs; [apply E |]. Qed.

Lemma inv_out_pre h s tp inp so : inv h s tp inp so -> out_pre s tp inp so.
Proof.
  intros H. destruct (inv_addrs _ _ _ _ _ H) as (? & ? & _). destruct H as [L E P S T].
  constructor; try done; [apply T | apply S].
Qed.

End invariant.

(** A change of the control block that [tcp_ok] does not see. *)
Ltac tcp_same tp :=
  eapply (tcp_ok_ext tp); try done; tcp_simpl;
  rewrite ?flag_lor_other, ?flag_ldiff_other by done; try done.

Section handlers.
Context `{HFS : !FreshStorage} `{rt : route_layer} {O : origin}.

Lemma same_timers_ok tp tp' inp so : same_but_timers tp tp' -> tcp_ok tp inp so -> tcp_ok tp' inp so.
Proof. intros [ts ->] H. tcp_same tp. Qed.
Lemma cong_only_ok tp tp' inp so : cong_only tp tp' -> tcp_ok tp inp so -> tcp_ok tp' inp so.
Proof. intros (w & t & ->) H. tcp_same tp. Qed.

(** ** Sending *)

Lemma frame_tcp_ok tp tp' inp so : tcp_ok tp inp so -> out_frame tp tp' -> out_ok tp' (bf_cc (so_snd so)) ->
  tcp_ok tp' inp so.
Proof.
  intros [T0 T1 T2 T3 T4] [] H. constructor; rewrite ?of_state, ?of_count; try done.
  intros Ho. destruct (T2 Ho). split; [done |]. by apply of_recovery.
Qed.

Lemma sent_env s tp' new s' : sent_state s tp' new s' -> env_ok s -> env_ok s'.
Proof. intros [o ->] H. by eapply (env_ok_ext s). Qed.

Lemma wp_output h s tp inp so (Q : Z -> conn -> Prop) : inv h s tp inp so ->
  (forall r s' tp', inv h s' tp' inp so -> out_frame tp tp' -> Q r s') -> wp tcp_output Q s.
Proof.
  intros H HQ. eapply cwp_mono; [eapply output_spec; [by eapply inv_out_pre | apply H] |].
  intros r s' (tp' & new & []). apply (HQ _ _ tp'); [| done]. destruct H as [L E P S T].
  constructor; [by eapply sent_state_live | by eapply sent_env | done | done | by eapply frame_tcp_ok].
Qed.

Lemma wp_output_ h s tp inp so (Q : unit -> conn -> Prop) : inv h s tp inp so ->
  (forall s' tp', inv h s' tp' inp so -> out_frame tp tp' -> Q tt s') -> wp output_ Q s.
Proof. intros H HQ. unfold output_. wp_steps. eapply wp_output; [done |]. intros. wp_steps. eauto. Qed.

Lemma wp_respond h s tp inp so ack seq flags (Q : unit -> conn -> Prop) : inv h s tp inp so -> is_byte flags ->
  (forall s', inv h s' tp inp so -> Q tt s') -> wp (tcp_respond ack seq flags) Q s.
Proof.
  intros H Hf HQ. destruct (inv_addrs _ _ _ _ _ H) as (? & ? & _).
  eapply cwp_mono; [eapply respond_spec; try done; apply H |].
  intros [] s' (o & new & ->). apply HQ. by apply inv_io.
Qed.

(** ** Closing *)

Lemma wp_upd_pcb s inp so f (Q : unit -> conn -> Prop) : attached s inp so -> env_ok s -> pcb_ok (f inp) ->
  inhash (f inp) = inhash inp -> pcb_hash (f inp) = pcb_hash inp -> pcb_port_hash (f inp) = pcb_port_hash inp ->
  i_socket (f inp) = i_socket inp ->
  (forall s' t', s' = set_c_table t' s -> attached s' (f inp) so -> env_ok s' -> Q tt s') ->
  wp (on_table (upd_pcb f)) Q s.
Proof.
  intros A E Hok H1 H2 H3 H4 HQ. destruct A as [Ei Es Eo].
  destruct (upd_pcb_keep (c_table s) (c_inp s) inp f) as (t' & Et & R); try done; [apply E |].
  unfold wp, on_table. rewrite Et. apply (HQ _ t'); [done | |].
  - constructor; cbn; [by eapply replaced_lookup | by rewrite H4 | done].
  - destruct E. constructor; try done. apply R.
Qed.

(** The references left when the internet control block gives up its own. *)
Lemma release_spec s so k : c_so s = Some so -> 0 <= k -> k + 1 <= so_refcount so ->
  wp release_so (fun _ s' => exists r, s' = set_c_so r s /\
    (k = 0 \/ r = Some (set_so_refcount (so_refcount so - 1) so))) s.
Proof.
  intros E Hk Hr. unfold release_so. wp_steps. eapply wp_lift; [exact E |]. wp_steps.
  eexists. split; [done |]. unfold sock_release.
  destruct (Z.eqb_spec (so_refcount so) 0); [lia |].
  destruct (Z.eqb_spec (so_refcount so - 1) 0); cbn [orb]; [left; lia | by right].
Qed.

(** The control block is closed. *)
Definition tcb_gone s : Prop := c_tcb s = Freed \/ exists n, c_tcb s = Draining n /\ 0 < n < 2 ^ 32.

Lemma pcb_release_spec h s inp so : attached s inp so -> env_ok s -> tcb_gone s ->
  0 <= h <= 1 -> h + 1 <= so_refcount so < 2 ^ 31 + h + 1 ->
  wp tcp_pcb_release (fun _ s' => conn_ok h s' /\ c_tcb s' = c_tcb s) s.
Proof.
  intros A E Ht Hh Hr. unfold tcp_pcb_release. wp_steps. destruct A as [Ei [id Es] Eo].
  destruct (free_spec (c_table s) (c_inp s) inp) as (t' & Ef & W & Em); [apply E | done |].
  unfold wp at 1, on_table. rewrite Ef. cbn. rewrite Es.
  set (s1 := set_c_table t' s). eapply cwp_mono; [apply (release_spec s1 so h); [exact Eo | lia | lia] |].
  intros _ s' (r & -> & Hr'). assert (E1 : env_ok (set_c_so r s1)) by (destruct E; by constructor).
  assert (Hc : closed_ok h (set_c_so r s1)).
  { unfold closed_ok. cbn. rewrite Em, lookup_delete_eq. split; [done |].
    destruct Hr' as [-> | ->]; [by left | right]. eexists. split; [done |]. cbn. lia. }
  split; [| done]. constructor; [done |]. cbn. destruct Ht as [-> | (n & -> & Hn)]; done.
Qed.

(** The invariant without its part on the control block. *)
Record base (h : Z) s tp inp so : Prop := {
  b_live : live s tp inp so;
  b_env : env_ok s;
  b_ppcb : i_ppcb inp <> 0;
  b_so : so_ok h so;
}.

Lemma inv_base h s tp inp so : inv h s tp inp so -> base h s tp inp so.
Proof. by intros []. Qed.
Lemma base_inv h s tp inp so : base h s tp inp so -> tcp_ok tp inp so -> inv h s tp inp so.
Proof. by intros []. Qed.
Lemma base_tp h s tp inp so tp' : base h s tp inp so -> base h (with_tp tp' s) tp' inp so.
Proof. intros [L E P S]. constructor; [by eapply live_tp | by eapply (env_ok_ext s) | done..]. Qed.
Lemma base_so h s tp inp so so' : base h s tp inp so -> so_ok h so' -> base h (with_so so' s) tp inp so'.
Proof. intros [L E P _] S. constructor; [by eapply live_so | by eapply (env_ok_ext s) | done..]. Qed.

Lemma drop_embryo_spec h s inp so : attached s inp so -> so_ok h so ->
  wp sock_drop_embryo (fun r s' =>
    if (r : bool) then so_embryonic so = true /\
      exists so', s' = set_c_so (Some so') s /\ h + 1 <= so_refcount so' < 2 ^ 31 + h + 1
    else s' = s /\ so_embryonic so = false) s.
Proof.
  intros A [Hh Hr He Hb]. unfold sock_drop_embryo. wp_steps.
  destruct (so_embryonic so) eqn:Em; [| rewrite orb_true_r; by apply cwp_ret].
  destruct (He eq_refl) as [-> ->]. cbn [negb orb]. wp_steps.
  eapply wp_upd_so; [done |]. set (so1 := set_so_embryonic _ _). set (s1 := with_so so1 s).
  apply cwp_bind. eapply cwp_mono; [apply (release_spec s1 so1 (h + 1)); [done | lia | cbn; lia] |].
  intros _ s' (r & -> & [? | ->]); [lia |]. wp_steps. split; [done |].
  eexists. split; [done |]. cbn. lia.
Qed.

(** The socket is open to its user: not detached, and accepted if it came from
    a listening socket. *)
Definition open s : Prop :=
  exists inp so, attached s inp so /\ (i_flags inp &? INPCB_DETACHED) = false /\ so_embryonic so = false.

(** What a handler leaves: the invariant, and an open socket open. *)
Record left_ok (h : Z) inp so s' : Prop := {
  lo_conn : conn_ok h s';
  lo_open : (i_flags inp &? INPCB_DETACHED) = false -> so_embryonic so = false -> open s';
}.

Lemma inv_left h s tp inp so so0 : inv h s tp inp so ->
  (so_embryonic so0 = false -> so_embryonic so = false) -> left_ok h inp so0 s.
Proof.
  intros H He. constructor; [by eapply inv_conn_ok |]. intros Hd H0. exists inp, so.
  split; [eapply live_attached, H | auto].
Qed.

Definition dead s : Prop := forall tp, c_tcb s <> Live tp.

Lemma gone_dead s : tcb_gone s -> dead s.
Proof. intros [E | (n & E & _)] tp; by rewrite E. Qed.

Lemma so_ok_disconnected h so : so_ok h so -> so_ok h (sock_is_disconnected so).
Proof. by intros []. Qed.

(** The internet control block stays, out of the hashes. *)
Lemma close_attached h s inp so : attached s inp so -> env_ok s -> so_ok h so -> i_ppcb inp = 0 -> tcb_gone s ->
  so_embryonic so = false ->
  wp (on_table inpcb_hash_remove ;! upd_so sock_is_disconnected)
    (fun _ s' => left_ok h inp so s' /\ dead s') s.
Proof.
  intros [Ei Es Eo] E S P G Hem. wp_steps.
  destruct (hash_remove_spec (c_table s) (c_inp s) inp) as (t' & i' & Et & R & _ & Hi'); [apply E | done |].
  unfold wp at 1, on_table. rewrite Et. cbn. set (s1 := set_c_table t' s).
  assert (i_ppcb i' = 0 /\ i_socket i' = i_socket inp /\
    (i_flags i' &? INPCB_DETACHED) = (i_flags inp &? INPCB_DETACHED)) as (P' & Es' & Ef).
  { rewrite Hi'. destruct (inhash inp); [| done]. split_and!; try done. by apply flag_ldiff_other. }
  assert (A1 : attached s1 i' so) by (constructor; [by eapply replaced_lookup | by rewrite Es' | done]).
  eapply wp_upd_so; [done |]. set (s2 := with_so _ s1).
  assert (A2 : attached s2 i' (sock_is_disconnected so)) by (by destruct A1).
  assert (E2 : env_ok s2) by (destruct E; constructor; try done; apply R).
  split; [| by apply gone_dead]. constructor.
  - constructor; [done |]. assert (closed_ok h s2).
    { unfold closed_ok. rewrite (at_inp _ _ _ A2). eauto using so_ok_disconnected. }
    cbn. by destruct G as [-> | (n & -> & Hn)].
  - intros Hd _. exists i', (sock_is_disconnected so). by rewrite Ef.
Qed.

(** The internet control block and the socket when the control block is gone. *)
Lemma close_rest h s inp so : attached s inp so -> env_ok s -> so_ok h so -> i_ppcb inp = 0 -> tcb_gone s ->
  wp (let* d := detached in
      let* gone := if d then retM true else sock_drop_embryo in
      if (gone : bool) then tcp_pcb_release
      else on_table inpcb_hash_remove ;! upd_so sock_is_disconnected)
    (fun _ s' => left_ok h inp so s' /\ dead s') s.
Proof.
  intros A E S P G. wp_steps. pose proof S as [Hh Hr He Hb].
  destruct (i_flags inp &? INPCB_DETACHED) eqn:Ed; wp_steps.
  { eapply cwp_mono; [eapply (pcb_release_spec h); try done; case_match; lia |].
    intros _ s' [H1 H2]. split; [constructor; [done | congruence] |].
    apply gone_dead. unfold tcb_gone. by rewrite H2. }
  eapply cwp_mono; [by eapply drop_embryo_spec |]. intros [] s1 H1.
  - destruct H1 as (Hem & so' & -> & Hr'). set (s1 := set_c_so (Some so') s).
    assert (A1 : attached s1 inp so') by (by destruct A).
    assert (E1 : env_ok s1) by (by eapply (env_ok_ext s)).
    eapply cwp_mono; [by eapply (pcb_release_spec h) |].
    intros _ s' [H2 H3]. split; [constructor; [done | congruence] |].
    apply gone_dead. unfold tcb_gone. by rewrite H3.
  - destruct H1 as [-> Hem]. by apply close_attached.
Qed.

Lemma close_spec h s tp inp so : base h s tp inp so ->
  wp tcp_close (fun _ s' => left_ok h inp so s' /\ dead s') s.
Proof.
  intros [L E P S]. unfold tcp_close, tcp_timer_discard. wp_steps. eapply wp_upd_tp; [done |].
  set (tp1 := stop_all tp). set (s1 := with_tp tp1 s).
  assert (L1 : live s1 tp1 inp so) by (by eapply live_tp). wp_steps.
  set (n := fold_left _ _ _). assert (Hn : 0 <= n < 2 ^ 32) by (apply (u32_range _)).
  clearbody n. eapply wp_upd_tp; [done |].
  set (tp2 := tcp_reassemble_flush tp1). set (s2 := with_tp tp2 s1).
  assert (L2 : live s2 tp2 inp so) by (by eapply live_tp).
  assert (Hcc : exists tp3, wp (match cc_destroy (c_cc s) with Some f => upd_tp f | None => retM tt end)
    (fun _ s' => s' = with_tp tp3 s2) s2).
  { destruct (cc_destroy (c_cc s)) as [f |].
    - exists (f tp2). by eapply wp_upd_tp.
    - exists tp2. apply cwp_ret. symmetry. by eapply live_with_tp. }
  destruct Hcc as [tp3 Hcc]. wp_steps. eapply cwp_mono; [exact Hcc |]. intros _ ? ->.
  set (s3 := with_tp tp3 s2). assert (L3 : live s3 tp3 inp so) by (by eapply live_tp).
  assert (E3 : env_ok s3) by (by eapply (env_ok_ext s)). wp_steps.
  assert (Hpcb : pcb_ok inp) by (eapply wf_pcbs; [apply E3 | apply L3]).
  eapply wp_upd_pcb; [by eapply live_attached | done | exact Hpcb | reflexivity.. |].
  intros s4 t4 -> A4 E4. apply cwp_bind, cwp_modify. set (s5 := set_c_tcb _ _).
  assert (G : tcb_gone s5).
  { unfold tcb_gone, s5. cbn. destruct (Z.eqb_spec n 0); cbn [negb]; [by left | right]. exists n. split; [done | lia]. }
  assert (A5 : attached s5 (with_ppcb 0 inp) so) by (by destruct A4).
  assert (E5 : env_ok s5) by (by eapply (env_ok_ext (set_c_table t4 s3))).
  eapply cwp_mono; [eapply (close_rest h s5 (with_ppcb 0 inp) so); done |].
  intros _ s' [[H1 H2] H3]. split; [by constructor | done].
Qed.

Lemma wp_close h s tp inp so (Q : unit -> conn -> Prop) : inv h s tp inp so ->
  (forall s', left_ok h inp so s' -> dead s' -> Q tt s') -> wp tcp_close Q s.
Proof.
  intros H HQ. eapply cwp_mono; [eapply close_spec, inv_base, H |]. intros [] s' []. auto.
Qed.

Lemma wp_so_attached s inp so (Q : bool -> conn -> Prop) : attached s inp so ->
  Q (negb (i_flags inp &? INPCB_DETACHED)) s -> wp so_attached Q s.
Proof.
  intros A H. unfold so_attached. wp_steps. by rewrite bool_decide_true by apply A.
Qed.

Lemma out_ok_closed tp C : out_ok tp C -> out_ok (set_state TCPS_CLOSED tp) C.
Proof.
  intros []. constructor; try done. eapply (sack_ok_max tp); try done. destruct oo_sack. cbn. lia.
Qed.

Lemma drop_spec h s tp inp so error : inv h s tp inp so ->
  wp (tcp_drop error) (fun _ s' => left_ok h inp so s' /\ dead s') s.
Proof.
  intros H. unfold tcp_drop. pose proof H as [L E P S T]. wp_steps.
  assert (Hout : wp (when (TCPS_HAVERCVDSYN (t_state tp))
      (tcp_state_change TCPS_CLOSED ;! let* _ := tcp_output in retM tt))
    (fun _ s' => exists tp', base h s' tp' inp so) s).
  { apply cwp_when; intros _; [| by eexists]. wp_steps. unfold tcp_state_change.
    eapply wp_upd_tp; [done |]. set (tp1 := set_state TCPS_CLOSED tp). set (s1 := with_tp tp1 s).
    destruct (inv_out_pre _ _ _ _ _ H) as [_ Ho ? ? ?]. wp_steps.
    eapply cwp_mono; [eapply (output_spec s1 tp1 inp so) |].
    - constructor; try done; [by eapply live_tp | by apply out_ok_closed].
    - apply E.
    - intros r s' (tp' & new & [Hs _ _ _]). wp_steps. exists tp'. constructor; [| | done | done].
      + eapply sent_state_live; [| exact Hs]. by eapply live_tp.
      + eapply sent_env; [exact Hs |]. by eapply (env_ok_ext s). }
  eapply cwp_mono; [exact Hout |]. intros _ s1 (tp1 & B1). pose proof B1 as [L1 E1 P1 S1]. wp_steps.
  eapply wp_so_attached; [by eapply live_attached |]. wp_steps. apply cwp_when; intros _.
  - eapply wp_upd_so; [by eapply live_attached |]. set (so2 := set_so_error error so).
    eapply cwp_mono; [eapply (close_spec h _ tp1 inp so2) |].
    + eapply base_so; [done | by destruct S1].
    + intros _ s' [[] ?]. by split.
  - by eapply close_spec.
Qed.

Lemma wp_drop h s tp inp so error (Q : unit -> conn -> Prop) : inv h s tp inp so ->
  (forall s', left_ok h inp so s' -> dead s' -> Q tt s') -> wp (tcp_drop error) Q s.
Proof. intros H HQ. eapply cwp_mono; [by eapply drop_spec |]. intros [] s' []. auto. Qed.

(** ** Primitives under the invariant *)

Lemma wp_inv_tp h s tp inp so f (Q : unit -> conn -> Prop) : inv h s tp inp so -> tcp_ok (f tp) inp so ->
  (inv h (with_tp (f tp) s) (f tp) inp so -> Q tt (with_tp (f tp) s)) -> wp (upd_tp f) Q s.
Proof. intros H T HQ. eapply wp_upd_tp; [apply H |]. apply HQ. by eapply inv_tp. Qed.

Lemma wp_inv_timer h s tp inp so w ms (Q : unit -> conn -> Prop) : inv h s tp inp so ->
  (forall tp', same_but_timers tp tp' -> inv h (with_tp tp' s) tp' inp so -> Q tt (with_tp tp' s)) ->
  wp (tcp_timer_activate w ms) Q s.
Proof.
  intros H HQ. eapply wp_timer_activate; [apply H |]. apply HQ; [apply arm_timer_same |].
  eapply inv_tp; [done |]. eapply same_timers_ok; [apply arm_timer_same | apply H].
Qed.

Lemma wp_inv_stop h s tp inp so w (Q : unit -> conn -> Prop) : inv h s tp inp so ->
  (forall tp', same_but_timers tp tp' -> inv h (with_tp tp' s) tp' inp so -> Q tt (with_tp tp' s)) ->
  wp (tcp_timer_stop w) Q s.
Proof.
  intros H HQ. eapply wp_timer_stop; [apply H |]. apply HQ; [apply stop_timer_same |].
  eapply inv_tp; [done |]. eapply same_timers_ok; [apply stop_timer_same | apply H].
Qed.

Lemma wp_inv_so h s tp inp so f (Q : unit -> conn -> Prop) : inv h s tp inp so -> so_ok h (f so) ->
  bf_data (so_snd (f so)) = bf_data (so_snd so) -> so_listen_head (f so) = so_listen_head so ->
  so_embryonic (f so) = so_embryonic so ->
  (inv h (with_so (f so) s) tp inp (f so) -> Q tt (with_so (f so) s)) -> wp (upd_so f) Q s.
Proof.
  intros H S E1 E2 E3 HQ. eapply wp_upd_so; [eapply live_attached, H |]. apply HQ.
  eapply inv_so; [done | | done]. destruct (iv_tcp _ _ _ _ _ H) as [T0 T1 T2 T3 T4].
  unfold bf_cc in *. constructor; unfold bf_cc; rewrite ?E1, ?E2, ?E3; done.
Qed.

End handlers.
