(* ===== verification/TcpSubrFacts.v ===== *)
(** * The invariant through tcp_subr.c and tcp_timer.c *)

From Stdlib Require Import ZArith Lia.
From stdpp Require Import base option gmap list.
From S2P Require Import Prelude Bytes Siphash Netbuf Inpcb InpcbFacts TcpVar TcpSack TcpOptions TcpReass.
From S2P Require Import TcpCc TcpConn TcpConnFacts TcpOutput TcpSegment TcpOutputFacts TcpSubr TcpInput.
From S2P Require Import TcpInvariant.
Open Scope Z_scope.
Open Scope hermes_scope.

#[local] Opaque inpcb_hash inpcb_port_hash siphash24.

Implicit Types (tp : tcpcb) (so : socket) (inp : inpcb) (s : conn).

(** ** Holding the socket while a handler runs *)

Section held.
Context {O : origin}.

Lemma tcp_ok_so tp inp so so' : bf_data (so_snd so') = bf_data (so_snd so) ->
  so_listen_head so' = so_listen_head so -> so_embryonic so' = so_embryonic so ->
  tcp_ok tp inp so -> tcp_ok tp inp so'.
Proof. intros E1 E2 E3 []. constructor; unfold bf_cc in *; rewrite ?E1, ?E2, ?E3; done. Qed.

Lemma so_ok_hold so : so_ok 0 so -> so_ok 1 (sock_hold so).
Proof.
  intros [H1 H2 H3 H4]. constructor; [lia | | done | done]. unfold sock_hold. cbn.
  rewrite u32_small by (case_match; lia). case_match; lia.
Qed.

Lemma inv_hold s tp inp so : inv 0 s tp inp so -> inv 1 (with_so (sock_hold so) s) tp inp (sock_hold so).
Proof.
  intros [L E P S T]. constructor; [by eapply live_so | by eapply (env_ok_ext s) | done | by apply so_ok_hold |].
  by eapply (tcp_ok_so tp inp so).
Qed.

Definition unheld so : socket := set_so_refcount (so_refcount so - 1) so.

Lemma so_ok_unheld so : so_ok 1 so -> so_ok 0 (unheld so).
Proof. intros [H1 H2 H3 H4]. constructor; [lia | | done | done]. cbn. lia. Qed.

(** [open] is about the internet control block and the socket. *)
Lemma open_with_so s inp so so' : attached s inp so -> so_embryonic so' = so_embryonic so -> open s -> open (with_so so' s).
Proof.
  intros A E (inp' & so1 & A' & Hd & He). destruct A as [Ei Es Eo], A' as [Ei' Es' Eo'].
  exists inp', so'. split; [by constructor |]. split; [done |]. congruence.
Qed.

(** Who holds the socket: the internet control block and the handler, or the
    handler alone. *)
Lemma held_cases s : conn_ok 1 s ->
  (exists inp so, attached s inp so /\ so_ok 1 so) \/
  (dead s /\ t_pcbs (c_table s) !! c_inp s = None /\ exists so, c_so s = Some so /\ 1 <= so_refcount so).
Proof.
  intros [E C].
  assert (Hcl : closed_ok 1 s -> dead s -> (exists inp so, attached s inp so /\ so_ok 1 so) \/
    (dead s /\ t_pcbs (c_table s) !! c_inp s = None /\ exists so, c_so s = Some so /\ 1 <= so_refcount so)).
  { unfold closed_ok. destruct (t_pcbs (c_table s) !! c_inp s) as [inp |].
    - intros (_ & so & A & S) _. left. eauto.
    - intros (_ & [? | (so & Es & Hr)]) Hd; [lia | right]. split_and!; try done. exists so. split; [done | lia]. }
  destruct (c_tcb s) as [tp | n |] eqn:Et.
  - destruct C as (inp & so & H). left. exists inp, so. split; [eapply live_attached, H | apply H].
  - apply Hcl; [apply C |]. intros tp. by rewrite Et.
  - apply Hcl; [apply C |]. intros tp. by rewrite Et.
Qed.

Lemma conn_ok_unheld s inp so : conn_ok 1 s -> attached s inp so -> so_ok 1 so ->
  conn_ok 0 (with_so (unheld so) s).
Proof.
  intros [E C] A S. constructor; [by eapply (env_ok_ext s) |]. cbn [c_tcb set_c_so with_so].
  assert (Hcl : closed_ok 1 s -> closed_ok 0 (with_so (unheld so) s)).
  { unfold closed_ok. cbn [c_table c_inp set_c_so with_so]. destruct A as [Ei Es Eo]. rewrite Ei.
    intros (P & _). split; [done |]. exists (unheld so). split; [by constructor | by apply so_ok_unheld]. }
  destruct (c_tcb s) as [tp | n |] eqn:Et; [| by destruct C; auto | by auto].
  destruct C as (inp1 & so1 & [L1 E1 P1 S1 T1]). destruct A as [Ei Es Eo].
  assert (inp1 = inp) as -> by (destruct L1; congruence). assert (so1 = so) as -> by (destruct L1; congruence).
  exists inp, (unheld so). constructor; [by eapply live_so | by eapply (env_ok_ext s) | done | by apply so_ok_unheld |].
  by eapply (tcp_ok_so tp inp so).
Qed.

Lemma release_held s : conn_ok 1 s -> wp release_so (fun _ s' => conn_ok 0 s' /\ (open s -> open s') /\
  c_tcb s' = c_tcb s) s.
Proof.
  intros Hok. destruct (held_cases s Hok) as [(inp & so & A & S) | (Hd & Hn & so & Es & Hr)].
  - pose proof S as [_ Hr He Hb]. eapply cwp_mono; [apply (release_spec s so 1); [apply A | lia | case_match; lia] |].
    intros _ s' (r & -> & [? | ->]); [lia |]. fold (unheld so).
    split; [by eapply conn_ok_unheld | split; [by eapply open_with_so | done]].
  - eapply cwp_mono; [apply (release_spec s so 0); [done | lia | lia] |]. intros _ s' (r & -> & _).
    split; [| split; [| done]]; [| intros (inp & so' & [Ei _ _] & _); congruence].
    destruct Hok as [E C]. constructor; [by eapply (env_ok_ext s) |]. cbn [c_tcb set_c_so].
    assert (Hcl : closed_ok 0 (set_c_so r s)).
    { unfold closed_ok. cbn [c_table c_inp set_c_so]. rewrite Hn. split; [lia | by left]. }
    destruct (c_tcb s) as [tp | n |] eqn:Et; [by destruct (Hd tp) | by destruct C | done].
Qed.

End held.

Section subr.
Context `{HFS : !FreshStorage} `{rt : route_layer} {O : origin}.

(** ** Opening *)

Definition seqinit (isn : Z) tp : tcpcb :=
  set_sack_rxmit isn (set_snd_recover isn (set_snd_max isn (set_snd_nxt isn (set_snd_una isn (set_iss isn tp))))).

Lemma new_isn_spec s tp inp so (Q : Z -> conn -> Prop) : live s tp inp so -> env_ok s ->
  (forall isn, is_u 32 isn -> Q isn s) -> wp tcp_new_isn Q s.
Proof.
  intros L E HQ. unfold tcp_new_isn. wp_steps.
  destruct (wf_pcbs _ (ek_table _ E) _ _ (lv_inp _ _ _ _ L)) as ([B1 _] & [B2 _] & _).
  destruct (ek_key _ E) as [K1 K2].
  eapply wp_lift; [apply siphash24_spec; [done | done |] |].
  - apply bytes_app; [done |]. apply bytes_app; [done |]. apply bytes_app; apply le_bytes_bytes.
  - wp_steps. apply HQ, u32_range.
Qed.

(** A block with an empty scoreboard takes any initial sequence number. *)
Lemma seqinit_ok tp C isn : out_ok tp C -> is_u 32 isn -> sack_count tp = 0 ->
  sack_ok (seqinit isn tp) /\ rel isn (snd_max (seqinit isn tp)) = 0.
Proof.
  intros Hok Hi Hc. destruct (oo_sack _ _ Hok) as [[W1 W2] _ _]. split; [| apply rel_refl].
  constructor; [by constructor | unfold seqinit; tcp_simpl; by rewrite rel_refl |].
  unfold board, seqinit. tcp_simpl. rewrite Hc. split; constructor.
Qed.

Lemma seqinit_out tp C isn st : out_ok tp C -> is_u 32 isn -> sack_count tp = 0 ->
  opening st = true -> out_ok (set_state st (seqinit isn tp)) C.
Proof.
  intros Hok Hi Hc Hst. destruct (seqinit_ok tp C isn Hok Hi Hc) as [W Hr].
  assert (Hz : rel isn isn = 0) by apply rel_refl.
  constructor; [apply Hok | eapply (sack_ok_max _ _ W); try done; unfold seqinit; tcp_simpl; lia | exact Hi | exact Hi | exact Hi | reflexivity | reflexivity | | apply Hok].
  - unfold seq_bound. tcp_simpl. unfold seqinit. tcp_simpl. rewrite Hz. by destruct st; try done; split_and!; try done; lia.
Qed.

Lemma sendseqinit_spec s tp inp so (Q : unit -> conn -> Prop) : live s tp inp so -> env_ok s ->
  (forall isn, is_u 32 isn -> Q tt (with_tp (seqinit isn tp) s)) -> wp tcp_sendseqinit Q s.
Proof.
  intros L E HQ. unfold tcp_sendseqinit. wp_steps. eapply new_isn_spec; [done | done |]. intros isn Hi.
  eapply wp_upd_tp; [done |]. by apply HQ.
Qed.

(** What [tcp_established] changes: not the sequence space. *)
Record est_frame tp tp' : Prop := {
  ef_state : t_state tp' = TCPS_ESTABLISHED \/ t_state tp' = TCPS_FIN_WAIT_1;
  ef_snd : t_snd tp' = t_snd tp;
  ef_rcv : t_rcv tp' = t_rcv tp;
  ef_sack : t_sack tp' = t_sack tp;
  ef_sentfin : (t_flags tp' &? TF_SENTFIN) = (t_flags tp &? TF_SENTFIN);
  ef_recovery : (t_flags tp' &? TF_FASTRECOVERY) = (t_flags tp &? TF_FASTRECOVERY);
}.

Record so_frame so so' : Prop := {
  sf_snd : bf_data (so_snd so') = bf_data (so_snd so);
  sf_embryo : so_embryonic so = false -> so_embryonic so' = false;
}.

Lemma so_frame_refl so : so_frame so so.
Proof. done. Qed.

Lemma is_connected_spec h s tp inp so (Q : unit -> conn -> Prop) : base h s tp inp so ->
  (so_listen_head so = true -> so_embryonic so = true) ->
  (forall s' so', base h s' tp inp so' -> so_frame so so' -> Q tt s') -> wp sock_is_connected Q s.
Proof.
  intros B He HQ. pose proof B as [L E P [S1 S2 S3 S4]]. unfold sock_is_connected. wp_steps.
  eapply wp_upd_so; [by eapply live_attached |]. set (so1 := set_so_state _ so).
  assert (B1 : base h (with_so so1 s) tp inp so1) by (by eapply base_so).
  apply cwp_when.
  - intros [_ Hl]%andb_true_iff. destruct (S3 (He Hl)) as [_ Hq]. rewrite Hq. rewrite (He Hl) in S2.
    eapply wp_upd_so; [eapply live_attached, B1 |]. eapply HQ; [eapply base_so; [done |] | by constructor].
    constructor; try done. cbn. lia.
  - intros _. by eapply HQ.
Qed.

Lemma established_spec h s tp inp so (Q : unit -> conn -> Prop) : base h s tp inp so ->
  (so_listen_head so = true -> so_embryonic so = true) ->
  (forall s' tp' so', base h s' tp' inp so' -> est_frame tp tp' -> so_frame so so' -> Q tt s') ->
  wp tcp_established Q s.
Proof.
  intros B He HQ. pose proof B as [L E P S]. unfold tcp_established, tcp_state_change. wp_steps.
  eapply wp_upd_tp; [done |]. set (tp1 := set_state TCPS_ESTABLISHED tp).
  assert (B1 : base h (with_tp tp1 s) tp1 inp so) by (by eapply base_tp). wp_steps.
  assert (Hcc : wp (match cc_conn_init (c_cc s) with Some f => upd_tp f | None => retM tt end)
    (fun _ s' => exists tp', s' = with_tp tp' (with_tp tp1 s) /\ cong_only tp1 tp') (with_tp tp1 s)).
  { destruct (cc_conn_init (c_cc s)) as [f |] eqn:Ef.
    - eapply wp_upd_tp; [apply B1 |]. eexists. split; [done |]. by apply (law_conn_init _ (ek_cc _ E)).
    - apply cwp_ret. exists tp1. split; [symmetry; eapply live_with_tp, B1 | apply cong_only_refl]. }
  eapply cwp_mono; [exact Hcc |]. intros _ s2 (tp2 & -> & w & ss & ->). set (tp2 := set_snd_ssthresh _ _).
  assert (B2 : base h (with_tp tp2 (with_tp tp1 s)) tp2 inp so) by (by eapply base_tp).
  wp_steps. eapply wp_timer_activate; [apply B2 |]. set (tp3 := arm_timer _ _ _ _ _).
  set (s3 := with_tp tp3 _). assert (B3 : base h s3 tp3 inp so) by (by eapply base_tp).
  wp_steps. eapply wp_so_attached; [eapply live_attached, B3 |]. wp_steps.
  assert (Hso : wp (when (negb (i_flags inp &? INPCB_DETACHED)) sock_is_connected)
    (fun _ s' => exists so', base h s' tp3 inp so' /\ so_frame so so') s3).
  { apply cwp_when; intros _; [| by exists so]. eapply is_connected_spec; eauto. }
  eapply cwp_mono; [exact Hso |]. intros _ s4 (so4 & B4 & F4). pose proof (b_live _ _ _ _ _ B4) as L4.
  wp_steps. apply cwp_when; intros _.
  - wp_steps. eapply wp_upd_tp; [apply B4 |]. eapply wp_upd_tp; [eapply live_tp, B4 |].
    eapply HQ; [eapply base_tp, base_tp, B4 | | done]. constructor; try done; [by right | |];
      tcp_simpl; by rewrite flag_ldiff_other.
  - eapply HQ; [done | | done]. constructor; try done. by left.
Qed.

(** ** Changes of state after the handshake *)

Lemma established_not_opening st : TCPS_HAVEESTABLISHED st = true -> opening st = false.
Proof. unfold opening. by intros ->. Qed.

Lemma tcp_ok_state tp inp so st : tcp_ok tp inp so -> TCPS_HAVEESTABLISHED (t_state tp) = true ->
  TCPS_HAVEESTABLISHED st = true -> tcp_edge (t_state tp) st -> tcp_ok (set_state st tp) inp so.
Proof.
  intros [T0 [] T2 T3 T4] H1 H2 He. assert (Hop : opening st = false) by (by apply established_not_opening).
  constructor; tcp_simpl; try congruence.
  - by eapply from_step.
  - constructor; try done.
    + eapply (sack_ok_max tp); try done. destruct oo_sack. tcp_simpl. lia.
    + unfold seq_bound in *. tcp_simpl. by destruct (t_state tp), st.
  - intros ->. done.
Qed.

Lemma enter_timewait_spec h s tp inp so (Q : unit -> conn -> Prop) : inv h s tp inp so ->
  TCPS_HAVEESTABLISHED (t_state tp) = true -> tcp_edge (t_state tp) TCPS_TIME_WAIT ->
  (forall s' tp' so', inv h s' tp' inp so' -> t_state tp' = TCPS_TIME_WAIT -> so_frame so so' -> Q tt s') ->
  wp tcp_enter_timewait Q s.
Proof.
  intros H He Ee HQ. unfold tcp_enter_timewait, tcp_state_change, tcp_timer_stop_all. wp_steps.
  eapply wp_inv_tp; [done | apply tcp_ok_state; [apply H | done | done | done] |]. intros H1. wp_steps.
  eapply wp_inv_tp; [done | eapply same_timers_ok; [apply stop_all_same | apply H1] |]. intros H2. wp_steps.
  eapply wp_inv_timer; [done |]. intros tp' [ts ->] H3. pose proof (iv_live _ _ _ _ _ H3) as L3. wp_steps.
  apply cwp_when; intros _.
  - eapply wp_inv_so; [done | apply so_ok_disconnected, H3 | done | done | done |].
    intros H4. eapply HQ; [done | done | done].
  - eapply HQ; done.
Qed.

Lemma usrclosed_spec h s tp inp so : inv h s tp inp so ->
  wp tcp_usrclosed (fun r s' => if (r : bool) then exists tp', inv h s' tp' inp so
                                else left_ok h inp so s' /\ dead s') s.
Proof.
  intros H. pose proof (iv_live _ _ _ _ _ H) as L. unfold tcp_usrclosed, tcp_state_change. wp_steps.
  assert (Hclose : wp (tcp_close ;! retM false) (fun r s' => if (r : bool) then exists tp', inv h s' tp' inp so
                                else left_ok h inp so s' /\ dead s') s).
  { wp_steps. eapply wp_close; [done |]. intros. by wp_steps. }
  assert (Hgo : forall m : M unit, wp m (fun _ s' => exists tp', inv h s' tp' inp so) s ->
    wp (m ;! let* tp0 := get_tp in let* d := detached in
       when (bool_decide (t_state tp0 = TCPS_FIN_WAIT_2) && d) (tcp_timer_activate TCPT_2MSL (2 * TCP_MSL_MS)) ;!
       retM true) (fun r s' => if (r : bool) then exists tp', inv h s' tp' inp so
                                else left_ok h inp so s' /\ dead s') s).
  { intros m Hm. wp_steps. eapply cwp_mono; [exact Hm |]. intros _ s1 (tp1 & H1).
    pose proof (iv_live _ _ _ _ _ H1) as L1. wp_steps. apply cwp_when; intros _.
    - eapply wp_inv_timer; [done |]. intros. wp_steps. eauto.
    - wp_steps. eauto. }
  destruct (t_state tp) eqn:Est; try exact Hclose; apply Hgo.
  - eapply wp_inv_tp; [done | tcp_same tp; apply H | eauto].
  - eapply wp_inv_tp; [done | apply tcp_ok_state; [apply H | by rewrite Est | done | by rewrite Est] | eauto].
  - eapply wp_inv_tp; [done | apply tcp_ok_state; [apply H | by rewrite Est | done | by rewrite Est] | eauto].
  - apply cwp_ret. eauto.
  - apply cwp_ret. eauto.
  - apply cwp_ret. eauto.
  - apply cwp_ret. eauto.
  - apply cwp_ret. eauto.
Qed.

(** Setting [snd_nxt] back. *)
Lemma tcp_ok_nxt tp inp so n : tcp_ok tp inp so -> is_u 32 n ->
  rel (snd_una tp) n <= rel (snd_una tp) (snd_max tp) -> tcp_ok (set_snd_nxt n tp) inp so.
Proof.
  intros [T0 [] T2 T3 T4] Hn Hr. constructor; try done. constructor; try done.
  eapply (sack_ok_max tp); try done. destruct oo_sack. tcp_simpl. lia.
Qed.

Lemma rel_una_max tp : rel (snd_una tp) (snd_una tp) <= rel (snd_una tp) (snd_max tp).
Proof. rewrite rel_refl. apply rel_range. Qed.

Lemma ctlinput_locked_spec h s tp inp so error mtu : inv h s tp inp so ->
  wp (tcp_ctlinput_locked error mtu) (fun _ s' => left_ok h inp so s') s.
Proof.
  intros H. pose proof (iv_live _ _ _ _ _ H) as L. unfold tcp_ctlinput_locked. wp_steps.
  destruct (Z.eqb_spec (i_ppcb inp) 0); [by destruct (iv_ppcb _ _ _ _ _ H) |]. wp_steps.
  destruct (negb (mtu =? 0)).
  - apply cwp_when; intros _; [| by eapply inv_left]. wp_steps. eapply wp_inv_tp; [done | |].
    + apply tcp_ok_nxt; [tcp_same tp; apply H | | apply (rel_una_max tp)].
      apply (oo_una _ _ (tk_out _ _ _ (iv_tcp _ _ _ _ _ H))).
    + intros H1. wp_steps. eapply wp_output; [done |]. intros. wp_steps. by eapply inv_left.
  - destruct (_ && _).
    + eapply wp_drop; [done | auto].
    + eapply wp_inv_tp; [done | tcp_same tp; apply H |]. intros H1. by eapply inv_left.
Qed.

(** ** Timers *)

(** What holds at the end of an event: the invariant, and an open socket open. *)
Definition settled s s' : Prop := conn_ok 0 s' /\ (open s -> open s').

Lemma open_facts s tp inp so : live s tp inp so -> open s ->
  (i_flags inp &? INPCB_DETACHED) = false /\ so_embryonic so = false.
Proof.
  intros L (inp' & so' & A & Hd & He). destruct L, A.
  assert (inp' = inp) as -> by congruence. assert (so' = so) as -> by congruence. done.
Qed.

(** A handler that holds the socket around its body. *)
Lemma held_spec s tp inp so {A} (body : M A) (P : A -> Prop) : inv 0 s tp inp so ->
  (forall s1 so1, inv 1 s1 tp inp so1 -> s1 = with_so so1 s ->
     wp body (fun a s' => left_ok 1 inp so1 s' /\ P a) s1) ->
  wp (upd_so sock_hold ;! let* a := body in release_so ;! retM a) (fun a s' => settled s s' /\ P a) s.
Proof.
  intros H Hb. pose proof (iv_live _ _ _ _ _ H) as L. wp_steps. eapply wp_upd_so; [by eapply live_attached |].
  wp_steps. eapply cwp_mono; [apply (Hb _ (sock_hold so)); [by apply inv_hold | done] |].
  intros a s' [[H1 H2] H3]. wp_steps. eapply cwp_mono; [by eapply release_held |]. intros _ s2 (H4 & H5 & _).
  wp_steps. split; [| done]. split; [done |]. intros Ho. destruct (open_facts _ _ _ _ L Ho). auto.
Qed.

Lemma closed_ok_tcb h s t : closed_ok h s -> closed_ok h (set_c_tcb t s).
Proof.
  unfold closed_ok. cbn [c_table c_inp c_so set_c_tcb]. destruct (t_pcbs (c_table s) !! c_inp s); [| done].
  intros (P & so & [] & S). split; [done |]. exists so. by split; [constructor |].
Qed.

Lemma timer_handler_spec w body s : conn_ok 0 s -> c_tcb s <> Freed ->
  (forall s1 tp1 inp1 so1, inv 1 s1 tp1 inp1 so1 -> wp body (fun _ s' => left_ok 1 inp1 so1 s') s1) ->
  wp (timer_handler w body) (fun _ s' => settled s s') s.
Proof.
  intros Hok Hf Hb. pose proof Hok as [E C]. unfold timer_handler, tcp_timer_begin, tcp_timer_enter. wp_steps.
  destruct (c_tcb s) as [tp | n |] eqn:Et; [| | done].
  - destruct C as (inp & so & H). pose proof (iv_live _ _ _ _ _ H) as L. wp_steps.
    rewrite bool_decide_true by apply L. cbn [when]. eapply wp_upd_so; [by eapply live_attached |].
    pose proof (inv_hold _ _ _ _ H) as H1. wp_steps. rewrite (lv_tcb _ _ _ _ (iv_live _ _ _ _ _ H1)). wp_steps.
    eapply wp_inv_tp; [exact H1 | eapply same_timers_ok; [apply set_timer_same | apply H1] |]. intros H2.
    wp_steps. eapply cwp_mono; [by eapply Hb |]. intros _ s' [H3 H4]. cbn [tcp_timer_end when].
    eapply cwp_mono; [by eapply release_held |]. intros _ s2 (H5 & H6 & _). split; [done |].
    intros Ho. destruct (open_facts _ _ _ _ L Ho). auto.
  - wp_steps. cbn [when]. wp_steps. rewrite Et. wp_steps. cbn [when]. wp_steps.
    destruct C as [Hn C]. split; [| intros (inp & so & [] & ? & ?); exists inp, so; by split; [constructor |]].
    constructor; [by eapply (env_ok_ext s) |]. cbn [c_tcb set_c_tcb].
    destruct (Z.eqb_spec (n - 1) 0); [by apply closed_ok_tcb |].
    rewrite u32_small by lia. split; [lia | by apply closed_ok_tcb].
Qed.

(** The state after a retransmission timeout. *)
Lemma tcp_ok_rexmt tp inp so : tcp_ok tp inp so ->
  tcp_ok (tcp_sack_clear (set_t_flags (t_flags tp &~ TF_FASTRECOVERY) (set_dupacks 0 (set_rtt_start 0
    (set_snd_recover (snd_max tp) (set_snd_nxt (snd_una tp) tp)))))) inp so.
Proof.
  intros [T0 [] T2 T3 T4]. destruct oo_sack as [[W1 W2] Hw Hb]. unfold tcp_sack_clear. tcp_simpl.
  constructor; tcp_simpl; try done.
  - constructor; tcp_simpl; try done.
    + constructor; tcp_simpl; [by constructor | done |]. unfold board. tcp_simpl. split; constructor.
    + apply rel_una_max.
    + apply rel_una_max.
    + unfold seq_bound, sent_fin in *. tcp_simpl. rewrite flag_ldiff_other by done.
      destruct (t_state tp); try done; by destruct oo_bound.
  - intros _. split; [done |]. apply ldiff_clears.
Qed.

Lemma rexmt_timeout_spec h s tp inp so : inv h s tp inp so ->
  wp tcp_rexmt_timeout (fun _ s' => left_ok h inp so s') s.
Proof.
  intros H. unfold tcp_rexmt_timeout. wp_steps. eapply wp_inv_tp; [done | tcp_same tp; apply H |].
  set (tp1 := set_rexmt_shift _ tp). intros H1. pose proof (iv_live _ _ _ _ _ H1) as L1. wp_steps.
  destruct (_ >? _); [eapply wp_drop; [done | auto] |]. wp_steps.
  match goal with |- wp ?m ?Q ?st =>
    assert (Hm : wp m (fun _ s' => exists tp', inv h s' tp' inp so /\ c_cc s' = c_cc s) st)
  end.
  { apply cwp_when; intros _; [| by eauto]. eapply wp_inv_tp; [done | tcp_same tp1; apply H1 | eauto]. }
  eapply cwp_mono; [exact Hm |]. intros _ s2 (tp2 & H2 & Ecc). wp_steps.
  match goal with |- wp ?m ?Q ?st =>
    assert (Hm2 : wp m (fun _ s' => exists tp', inv h s' tp' inp so) st)
  end.
  { apply cwp_when; intros _; [| by eauto]. destruct (law_signal _ (ek_cc _ (iv_env _ _ _ _ _ H2))) as (f & -> & Hf).
    eapply wp_inv_tp; [done | eapply cong_only_ok; [apply Hf | apply H2] | eauto]. }
  eapply cwp_mono; [exact Hm2 |]. intros _ s3 (tp3 & H3). wp_steps.
  eapply wp_inv_tp; [done | exact (tcp_ok_rexmt tp3 inp so (iv_tcp _ _ _ _ _ H3)) |]. intros H4. pose proof (iv_live _ _ _ _ _ H4) as L4. wp_steps.
  eapply wp_inv_timer; [done |]. intros tp5 _ H5. wp_steps. eapply wp_output; [done |]. intros. wp_steps.
  by eapply inv_left.
Qed.

Lemma setpersist_spec h s tp inp so (Q : unit -> conn -> Prop) : inv h s tp inp so ->
  (forall s' tp', inv h s' tp' inp so -> Q tt s') -> wp tcp_setpersist Q s.
Proof.
  intros H HQ. pose proof (iv_live _ _ _ _ _ H) as L. unfold tcp_setpersist. wp_steps.
  eapply wp_inv_timer; [done |]. intros tp1 _ H1. apply cwp_when; intros _; [| eauto].
  eapply wp_inv_tp; [done | tcp_same tp1; apply H1 | eauto].
Qed.

Lemma persist_body_spec h s tp inp so : inv h s tp inp so ->
  wp (tcp_setpersist ;!
      upd_tp (fun tp => set_t_flags (Z.lor (t_flags tp) TF_FORCEDATA) tp) ;!
      let* _ := tcp_output in
      upd_tp (fun tp => set_t_flags (t_flags tp &~ TF_FORCEDATA) tp))
    (fun _ s' => left_ok h inp so s') s.
Proof.
  intros H. wp_steps. eapply setpersist_spec; [done |]. intros s1 tp1 H1. wp_steps.
  eapply wp_inv_tp; [done | tcp_same tp1; apply H1 |]. intros H2. wp_steps.
  eapply wp_output; [done |]. intros r s3 tp3 H3 _.
  eapply wp_inv_tp; [done | tcp_same tp3; apply H3 |]. intros H4. by eapply inv_left.
Qed.

Lemma keep_timeout_spec h s tp inp so : inv h s tp inp so ->
  wp tcp_keep_timeout (fun _ s' => left_ok h inp so s') s.
Proof.
  intros H. pose proof (iv_live _ _ _ _ _ H) as L. unfold tcp_keep_timeout. wp_steps.
  assert (Harm : forall s1 tp1 ms, inv h s1 tp1 inp so ->
    wp (tcp_timer_activate TCPT_KEEP ms) (fun _ s' => left_ok h inp so s') s1).
  { intros s1 tp1 ms H1. eapply wp_inv_timer; [done |]. intros. by eapply inv_left. }
  destruct (negb (TCPS_HAVEESTABLISHED _)); [eapply wp_drop; [done | auto] |]. wp_steps.
  destruct (negb (tcp_keepalive_enabled _ _)); [by eapply Harm |]. wp_steps.
  destruct (_ <? TCP_KEEPIDLE_MS).
  { wp_steps. eapply wp_inv_tp; [done | tcp_same tp; apply H |]. intros H1. by eapply Harm. }
  destruct (_ >=? TCP_KEEPCNT); [eapply wp_drop; [done | auto] |]. wp_steps.
  eapply wp_inv_tp; [done | tcp_same tp; apply H |]. intros H1. wp_steps.
  eapply wp_respond; [done | done |]. intros s2 H2. by eapply Harm.
Qed.

(** The five handlers. *)
Definition tcp_timer (w : tcp_timer_type) : M unit :=
  match w with
  | TCPT_REXMT => tcp_timer_rexmt
  | TCPT_PERSIST => tcp_timer_persist
  | TCPT_KEEP => tcp_timer_keep
  | TCPT_2MSL => tcp_timer_2msl
  | TCPT_DELACK => tcp_timer_delack
  end.

Lemma timer_spec w s : conn_ok 0 s -> c_tcb s <> Freed -> wp (tcp_timer w) (fun _ s' => settled s s') s.
Proof.
  intros H Hf. destruct w; apply timer_handler_spec; try done; intros s1 tp1 inp1 so1 H1.
  - by eapply rexmt_timeout_spec.
  - by eapply persist_body_spec.
  - by eapply keep_timeout_spec.
  - eapply wp_close; [done | auto].
  - wp_steps. eapply wp_inv_tp; [done | |].
    + tcp_same tp1. apply H1.
    + intros H2. wp_steps. eapply wp_output; [done |]. intros. wp_steps. by eapply inv_left.
Qed.

End subr.
