(* ===== verification/TcpInputFacts.v ===== *)
(** * The invariant through tcp_input.c *)

From Stdlib Require Import ZArith Lia.
From stdpp Require Import base option gmap list.
From S2P Require Import Prelude Bytes Netbuf Inpcb InpcbFacts TcpVar TcpSack TcpOptions TcpReass TcpCc.
From S2P Require Import TcpConn TcpConnFacts TcpOutput TcpSegment TcpOutputFacts TcpSubr TcpInput.
From S2P Require Import TcpInvariant TcpSubrFacts.
Open Scope Z_scope.
Open Scope hermes_scope.

#[local] Opaque inpcb_hash inpcb_port_hash.

Implicit Types (tp : tcpcb) (so : socket) (inp : inpcb) (s : conn) (g : tcp_seg).

(** ** Changes the invariant does not see *)

Record quiet tp tp' : Prop := {
  q_state : t_state tp' = t_state tp;
  q_una : snd_una tp' = snd_una tp;
  q_nxt : snd_nxt tp' = snd_nxt tp;
  q_max : snd_max tp' = snd_max tp;
  q_iss : iss tp' = iss tp;
  q_sack : t_sack tp' = t_sack tp;
  q_fin : (t_flags tp' &? TF_SENTFIN) = (t_flags tp &? TF_SENTFIN);
  q_rec : (t_flags tp' &? TF_FASTRECOVERY) = (t_flags tp &? TF_FASTRECOVERY);
  q_scale : req_rcv_scale tp' = req_rcv_scale tp;
}.

Lemma quiet_refl tp : quiet tp tp.
Proof. done. Qed.
Lemma quiet_trans tp1 tp2 tp3 : quiet tp1 tp2 -> quiet tp2 tp3 -> quiet tp1 tp3.
Proof. intros [] []. constructor; congruence. Qed.
Lemma quiet_ok {O : origin} tp tp' inp so : quiet tp tp' -> tcp_ok tp inp so -> tcp_ok tp' inp so.
Proof. intros [] H. eapply (tcp_ok_ext tp); try done. by rewrite q_rec0. Qed.
Lemma quiet_cong tp tp' : cong_only tp tp' -> quiet tp tp'.
Proof. by intros (w & ss & ->). Qed.
Lemma quiet_timers tp tp' : same_but_timers tp tp' -> quiet tp tp'.
Proof. by intros [ts ->]. Qed.

Ltac quiet_tac :=
  constructor; tcp_simpl; rewrite ?flag_lor_other, ?flag_ldiff_other by done; done.

Lemma quiet_acknow tp : quiet tp (acknow tp).
Proof. unfold acknow. quiet_tac. Qed.
Lemma quiet_xmit_timer hz rtt tp : quiet tp (tcp_xmit_timer hz rtt tp).
Proof. unfold tcp_xmit_timer. destruct (srtt tp =? 0); quiet_tac. Qed.
Lemma quiet_rtt_sample hz now g tp : quiet tp (tcp_rtt_sample hz now g tp).
Proof.
  unfold tcp_rtt_sample. cbv zeta. set (ts := _ && _ && _). set (tp1 := if ts then _ else _).
  assert (Hq : quiet tp tp1).
  { unfold tp1. destruct ts; [apply quiet_xmit_timer |].
    case_match; [apply quiet_xmit_timer | apply quiet_refl]. }
  clearbody tp1. case_match; [| exact Hq]. eapply quiet_trans; [exact Hq | quiet_tac].
Qed.
Lemma quiet_init_rcv irs tp : quiet tp (tcp_init_rcv irs tp).
Proof. unfold tcp_init_rcv. quiet_tac. Qed.
Lemma quiet_update_window g tp : quiet tp (tcp_update_window g tp).
Proof. unfold tcp_update_window. destruct (_ || _); [quiet_tac | apply quiet_refl]. Qed.
Lemma quiet_ts_recent now g tp : quiet tp (tcp_update_ts_recent now g tp).
Proof. unfold tcp_update_ts_recent. destruct (_ && _ && _); [quiet_tac | apply quiet_refl]. Qed.
Lemma quiet_paws now g tp : quiet tp (tcp_paws_ok now g tp).2.
Proof. unfold tcp_paws_ok. repeat (case_match; [quiet_tac || apply quiet_refl |]). apply quiet_refl. Qed.

Lemma quiet_trim g tp : quiet tp (tcp_trim_segment g tp).2.
Proof.
  assert (Hl : quiet tp (trim_left g tp).2).
  { unfold trim_left. destruct (_ >? 0); [| apply quiet_refl].
    destruct (th_flags (sg_th g) &? TH_SYN); destruct (_ || _); apply quiet_acknow || apply quiet_refl. }
  assert (Hr : forall g1 tp1 g2 tp2, trim_right g1 tp1 = Some (g2, tp2) -> quiet tp1 tp2).
  { intros g1 tp1 g2 tp2. unfold trim_right. destruct (_ >? 0); [| by intros [= -> ->]].
    destruct (_ >=? _); [destruct (_ || _); [done |] |]; intros [= _ <-]; apply quiet_acknow || apply quiet_refl. }
  unfold tcp_trim_segment. destruct (trim_left g tp) as [g1 tp1]. cbn [snd] in Hl.
  destruct (trim_right g1 tp1) as [[g2 tp2] |] eqn:E; cbn [snd]; [| done].
  eapply quiet_trans; [done | by eapply Hr].
Qed.

(** ** The sequence space while an acknowledgement is processed *)

Section space.
Context {O : origin}.

(** [out_ok] after the handshake, with [k] = 1 when the SYN is not yet
    acknowledged. *)
Record ack_ok tp (C k : Z) : Prop := {
  ao_from : from_origin (t_state tp);
  ao_est : TCPS_HAVEESTABLISHED (t_state tp) = true;
  ao_cc : 0 <= C < 2 ^ 31 - 1;
  ao_sack : sack_ok tp;
  ao_una : is_u 32 (snd_una tp);
  ao_nxt : is_u 32 (snd_nxt tp);
  ao_max : is_u 32 (snd_max tp);
  ao_rxmit : rel (snd_una tp) (sack_rxmit tp) <= rel (snd_una tp) (snd_max tp);
  ao_order : rel (snd_una tp) (snd_nxt tp) <= rel (snd_una tp) (snd_max tp);
  ao_bound : rel (snd_una tp) (snd_max tp) <= C + sent_fin tp + k;
  ao_scale : is_byte (req_rcv_scale tp);
  ao_syn : k = 0 \/ k = 1 /\ snd_una tp = iss tp /\ (t_flags tp &? TF_FASTRECOVERY) = false;
}.

Lemma seq_bound_est tp C : TCPS_HAVEESTABLISHED (t_state tp) = true ->
  seq_bound tp C <-> rel (snd_una tp) (snd_max tp) <= C + sent_fin tp.
Proof. unfold seq_bound. by destruct (t_state tp). Qed.

Lemma ack_ok_out tp C : ack_ok tp C 0 -> out_ok tp C.
Proof. intros []. constructor; try done. apply seq_bound_est; [done | lia]. Qed.

Lemma out_ok_ack tp C : out_ok tp C -> from_origin (t_state tp) -> TCPS_HAVEESTABLISHED (t_state tp) = true ->
  ack_ok tp C 0.
Proof.
  intros [] Hf He. constructor; try done; [| by left]. apply seq_bound_est in oo_bound; [lia | done].
Qed.

Lemma est_tcp_ok tp inp so : from_origin (t_state tp) -> TCPS_HAVEESTABLISHED (t_state tp) = true ->
  out_ok tp (bf_cc (so_snd so)) -> tcp_ok tp inp so.
Proof.
  intros Hf He H. constructor; [done | done | | |].
  - rewrite (established_not_opening _ He). done.
  - intros E. by rewrite E in He.
  - rewrite (established_not_opening _ He). done.
Qed.

Lemma ack_ok_quiet tp tp' C k : quiet tp tp' -> ack_ok tp C k -> ack_ok tp' C k.
Proof.
  intros [] []. constructor; rewrite ?q_state0, ?q_una0, ?q_nxt0, ?q_max0, ?q_iss0, ?q_scale0, ?q_rec0, ?q_sack0; try done.
  - eapply (sack_ok_max tp); rewrite ?q_sack0, ?q_max0; try done. destruct ao_sack0. lia.
  - unfold sent_fin in *. by rewrite q_fin0.
Qed.

Lemma ack_ok_flag tp C f : (f &? TF_SENTFIN) = (t_flags tp &? TF_SENTFIN) -> ack_ok tp C 0 ->
  ack_ok (set_t_flags f tp) C 0.
Proof.
  intros E []. constructor; try done; [| | by left].
  - eapply (sack_ok_max tp); try done. destruct ao_sack0. tcp_simpl. lia.
  - unfold sent_fin in *. tcp_simpl. by rewrite E.
Qed.

(** The bytes [tcp_drop_acked_data] takes from the send buffer. *)
Definition acked_data tp (ack acked : Z) : Z :=
  let acked := if SEQ_LEQ (snd_una tp) (iss tp) then u32 (acked - 1) else acked in
  if (t_flags tp &? TF_SENTFIN) && (ack =? snd_max tp) then u32 (acked - 1) else acked.

Definition acked_left (C d : Z) : Z := if d =? 0 then C else C - (if d <? C then d else C).

Lemma acked_left_min C d : 0 <= C -> 0 <= d -> acked_left C d = C - Z.min d C.
Proof. intros HC Hd. unfold acked_left. destruct (Z.eqb_spec d 0), (Z.ltb_spec d C); lia. Qed.

Lemma acked_left_bound tp C k ack : ack_ok tp C k -> is_u 32 ack ->
  0 < rel (snd_una tp) ack <= rel (snd_una tp) (snd_max tp) ->
  let C' := acked_left C (acked_data tp ack (rel (snd_una tp) ack)) in
  0 <= C' <= C /\ rel (snd_una tp) (snd_max tp) - rel (snd_una tp) ack <= C' + sent_fin tp.
Proof.
  intros H Ha Hr. pose proof (ao_cc _ _ _ H) as HC. pose proof (ao_bound _ _ _ H) as Hb.
  assert (Hfin : 0 <= sent_fin tp) by (unfold sent_fin; case_match; lia).
  set (d := acked_data _ _ _). assert (Hd : 0 <= d /\
    (ack = snd_max tp \/ d <= rel (snd_una tp) ack - k)).
  { pose proof (rel_range (snd_una tp) (snd_max tp)). unfold d, acked_data.
    destruct (_ && (ack =? _)) eqn:Em.
    { apply andb_true_iff in Em as [_ Em%Z.eqb_eq]. split; [apply u32_range || (case_match; apply u32_range) | by left]. }
    destruct (ao_syn _ _ _ H) as [-> | (-> & Ei & _)].
    - case_match; [rewrite u32_small by lia |]; split; try lia; right; lia.
    - unfold SEQ_LEQ. rewrite <- Ei, Z.sub_diag. change (s32 0 <=? 0) with true. cbv iota.
      rewrite u32_small by lia. split; [lia | right; lia]. }
  destruct Hd as [Hd0 Hd]. cbv zeta. rewrite acked_left_min by lia. split; [lia |].
  destruct Hd as [-> | Hd]; lia.
Qed.

(** [snd_una] moves to [ack], [snd_nxt] with it. *)
Definition advance_una (ack : Z) tp : tcpcb :=
  let tp := set_snd_una ack tp in
  if SEQ_LT (snd_nxt tp) ack then set_snd_nxt ack tp else tp.

Lemma advance_una_frame ack tp : let tp' := advance_una ack tp in
  t_state tp' = t_state tp /\ snd_una tp' = ack /\ snd_max tp' = snd_max tp /\ t_sack tp' = t_sack tp /\
  t_flags tp' = t_flags tp /\ req_rcv_scale tp' = req_rcv_scale tp.
Proof. unfold advance_una. cbv zeta. case_match; done. Qed.

Lemma advance_una_nxt tp C k ack : ack_ok tp C k -> is_u 32 ack ->
  rel (snd_una tp) ack <= rel (snd_una tp) (snd_max tp) ->
  is_u 32 (snd_nxt (advance_una ack tp)) /\
  rel ack (snd_nxt (advance_una ack tp)) <= rel ack (snd_max tp).
Proof.
  intros [] Ha Hr. destruct ao_sack0 as [_ Hw _]. unfold advance_una. tcp_simpl.
  rewrite (seq_lt (snd_una tp)) by lia. destruct (Z.ltb_spec (rel (snd_una tp) (snd_nxt tp)) (rel (snd_una tp) ack)); tcp_simpl.
  - split; [done |]. rewrite rel_refl. apply rel_range.
  - split; [done |]. rewrite !(rel_shift (snd_una tp) ack) by lia. lia.
Qed.

Lemma advance_ok tp C k C' ack : ack_ok tp C k -> is_u 32 ack ->
  rel (snd_una tp) ack <= rel (snd_una tp) (snd_max tp) -> 0 <= C' <= C ->
  rel (snd_una tp) (snd_max tp) - rel (snd_una tp) ack <= C' + sent_fin tp ->
  exists tp', tcp_sack_ack ack (advance_una ack tp) = Some tp' /\ ack_ok (set_rexmt_shift 0 tp') C' 0 /\
    t_state tp' = t_state tp.
Proof.
  intros H Ha Hr HC Hb. destruct (advance_una_nxt _ _ _ _ H Ha Hr) as [Hn1 Hn2].
  pose proof (rel_range (snd_una tp) ack) as Hra.
  destruct (advance_una_frame ack tp) as (Es & Eu & Em & Ek & Ef & Ec). set (tp1 := advance_una ack tp) in *.
  clearbody tp1. pose proof H as []. destruct ao_sack0 as [[W1 W2] Hw Hbd].
  assert (Hbd1 : board_ok (snd_una tp) (rel (snd_una tp) (snd_max tp)) (board tp1)) by (unfold board; by rewrite Ek).
  destruct (sack_ack_spec (snd_una tp) (rel (snd_una tp) (snd_max tp)) ack tp1) as (bs & c & E & W & Hbd2 & _);
    [split; [apply rel_range | lia] | constructor; by rewrite Ek | done | done |].
  eexists. split; [exact E |]. pose proof (rel_shift (snd_una tp) ack (snd_max tp) Hr) as Hs.
  split; [| case_match; done]. set (tp2 := with_board bs c tp1) in *.
  assert (Hx : forall tp3, tp3 = (if SEQ_LT (sack_rxmit tp1) ack then set_sack_rxmit ack tp2 else tp2) ->
    rel ack (sack_rxmit tp3) <= rel ack (snd_max tp)).
  { intros tp3 ->. rewrite Ek. rewrite (seq_lt (snd_una tp)) by lia.
    destruct (Z.ltb_spec (rel (snd_una tp) (sack_rxmit tp)) (rel (snd_una tp) ack)).
    - tcp_simpl. rewrite rel_refl. apply rel_range.
    - unfold tp2. change (sack_rxmit (with_board bs c tp1)) with (sack_rxmit tp1). rewrite Ek.
      rewrite !(rel_shift (snd_una tp) ack) by lia. lia. }
  specialize (Hx _ eq_refl). destruct W as [W3 W4]. rewrite <- Hs in Hbd2. set (tp3 := if SEQ_LT _ _ then _ else _) in *.
  assert (F : t_state tp3 = t_state tp1 /\ t_snd tp3 = t_snd tp1 /\ t_flags tp3 = t_flags tp1 /\
    t_rcv tp3 = t_rcv tp1 /\ sack_blocks tp3 = sack_blocks tp2 /\ sack_count tp3 = sack_count tp2).
  { unfold tp3. case_match; done. }
  destruct F as (F1 & F2 & F3 & F4 & F5 & F6). clearbody tp2 tp3.
  constructor; try lia; try (by left); tcp_simpl; rewrite ?F1, ?F2, ?F4, ?Es, ?Eu, ?Em, ?Ec; try done.
  - constructor; tcp_simpl; rewrite ?F2, ?Eu, ?Em; [constructor; tcp_simpl; by rewrite ?F5, ?F6 | lia |].
    unfold board in *. tcp_simpl. by rewrite F5, F6.
  - unfold sent_fin. tcp_simpl. rewrite F3, Ef. fold (sent_fin tp). lia.
Qed.

End space.

Section ack.
Context `{HFS : !FreshStorage} `{rt : route_layer} {O : origin}.

Lemma ack_inv h s tp inp so : base h s tp inp so -> ack_ok tp (bf_cc (so_snd so)) 0 -> inv h s tp inp so.
Proof. intros B H. apply base_inv; [done |]. apply est_tcp_ok; [apply H | apply H | by apply ack_ok_out]. Qed.

Lemma inv_ack h s tp inp so : inv h s tp inp so -> TCPS_HAVEESTABLISHED (t_state tp) = true ->
  ack_ok tp (bf_cc (so_snd so)) 0.
Proof. intros H He. apply out_ok_ack; [apply H | apply H | done]. Qed.

Lemma wp_quiet h s tp inp so f (Q : unit -> conn -> Prop) : inv h s tp inp so -> quiet tp (f tp) ->
  (inv h (with_tp (f tp) s) (f tp) inp so -> Q tt (with_tp (f tp) s)) -> wp (upd_tp f) Q s.
Proof. intros H Hq HQ. eapply wp_inv_tp; [done | eapply quiet_ok; [done | apply H] | done]. Qed.

(** ** Recovery *)

Lemma wp_call_cc {A} s tp inp so (o : option A) (f : A) run (Q : unit -> conn -> Prop) : live s tp inp so -> o = Some f ->
  Q tt (with_tp (run f tp) s) -> wp (call_cc o run) Q s.
Proof. intros L -> HQ. by eapply wp_upd_tp. Qed.

Lemma retransmit_spec h s tp inp so from cwnd (Q : Z -> conn -> Prop) : inv h s tp inp so -> is_u 32 from ->
  rel (snd_una tp) from <= rel (snd_una tp) (snd_max tp) ->
  (forall s' tp' end_, inv h s' tp' inp so -> out_frame tp tp' ->
     rel (snd_una tp) end_ <= rel (snd_una tp) (snd_max tp') -> Q end_ s') ->
  wp (tcp_retransmit_from from cwnd) Q s.
Proof.
  intros H Hf Hr HQ. pose proof (iv_live _ _ _ _ _ H) as L. unfold tcp_retransmit_from. wp_steps.
  eapply wp_inv_tp; [done | |].
  { eapply quiet_ok; [| apply (tcp_ok_nxt tp); [apply H | exact Hf | exact Hr]]. quiet_tac. }
  intros H1. wp_steps. eapply wp_output; [exact H1 |]. intros _ s2 tp2 H2 F2.
  assert (F : out_frame tp tp2) by (eapply out_frame_trans; [| exact F2]; done).
  pose proof (iv_live _ _ _ _ _ H2) as L2. pose proof (tk_out _ _ _ (iv_tcp _ _ _ _ _ H2)) as O2.
  pose proof (tk_out _ _ _ (iv_tcp _ _ _ _ _ H)) as O1. pose proof (of_una _ _ F) as Eu. pose proof (of_max _ _ F) as Em.
  wp_steps. apply cwp_when; intros _.
  - eapply wp_inv_tp; [done | |].
    + apply tcp_ok_nxt; [apply H2 | apply O1 |]. rewrite Eu. pose proof (oo_order _ _ O1). lia.
    + intros H3. wp_steps. eapply HQ; [exact H3 | eapply out_frame_trans; [exact F | done] |].
      tcp_simpl. rewrite <- Eu. apply O2.
  - wp_steps. eapply HQ; [exact H2 | done |]. rewrite <- Eu. apply O2.
Qed.

(** The retransmission point moved within what was sent. *)
Lemma ack_ok_rxmit tp C x n : ack_ok tp C 0 -> rel (snd_una tp) x <= rel (snd_una tp) (snd_max tp) ->
  ack_ok (set_sack_rexmit_bytes n (set_sack_rxmit x tp)) C 0.
Proof.
  intros [] Hx. constructor; try done.
  eapply (sack_ok_max tp); try done. destruct ao_sack0. tcp_simpl. lia.
Qed.

Lemma enter_recovery_spec h s tp inp so (Q : unit -> conn -> Prop) : inv h s tp inp so ->
  TCPS_HAVEESTABLISHED (t_state tp) = true ->
  (forall s' tp', inv h s' tp' inp so -> t_state tp' = t_state tp -> Q tt s') ->
  wp tcp_enter_recovery Q s.
Proof.
  intros H He HQ. unfold tcp_enter_recovery. wp_steps.
  destruct (law_signal _ (ek_cc _ (iv_env _ _ _ _ _ H))) as (f & Ef & Hf).
  eapply wp_call_cc; [apply H | exact Ef |]. set (tp1 := f CC_DUPACK tp).
  assert (Q1 : quiet tp tp1) by apply quiet_cong, Hf.
  assert (H1 : inv h (with_tp tp1 s) tp1 inp so) by (eapply inv_tp; [done | eapply quiet_ok; [done | apply H]]).
  clearbody tp1. wp_steps. eapply wp_quiet; [exact H1 | quiet_tac |]. set (tp2 := set_rtt_start _ _). intros H2.
  pose proof (iv_live _ _ _ _ _ H2) as L2. wp_steps.
  eapply retransmit_spec; [exact H2 | apply (tk_out _ _ _ (iv_tcp _ _ _ _ _ H2)) | apply rel_una_max |].
  intros s3 tp3 end_ H3 F3 Hend. assert (Es : t_state tp3 = t_state tp) by (rewrite (of_state _ _ F3); apply Q1).
  pose proof (inv_ack _ _ _ _ _ H3 ltac:(by rewrite Es)) as A3.
  rewrite <- (of_una _ _ F3) in Hend. eapply wp_upd_tp; [apply H3 |].
  set (tp4 := set_t_flags (Z.lor _ _) tp3). assert (A4 : ack_ok tp4 (bf_cc (so_snd so)) 0).
  { apply ack_ok_flag; [by apply flag_lor_other | done]. }
  eapply HQ; [apply ack_inv; [eapply base_tp, inv_base; exact H3 |] |].
  - case_match.
    + eapply ack_ok_quiet; [| apply (ack_ok_rxmit tp4 _ end_); [exact A4 | exact Hend]]. quiet_tac.
    + eapply ack_ok_quiet; [| exact A4]. quiet_tac.
  - case_match; exact Es.
Qed.

Lemma dupack_spec h s tp inp so g (Q : unit -> conn -> Prop) : inv h s tp inp so ->
  TCPS_HAVEESTABLISHED (t_state tp) = true ->
  (forall s' tp', inv h s' tp' inp so -> t_state tp' = t_state tp -> Q tt s') -> wp (tcp_dupack g) Q s.
Proof.
  intros H He HQ. pose proof (iv_live _ _ _ _ _ H) as L. unfold tcp_dupack. wp_steps.
  destruct (negb _); [eapply wp_quiet; [done | quiet_tac | intros; by eapply HQ] |].
  destruct (t_flags tp &? TF_FASTRECOVERY).
  { apply cwp_when; intros _; [| by eapply HQ]. eapply wp_quiet; [done | quiet_tac | intros; by eapply HQ]. }
  wp_steps. eapply wp_quiet; [done | quiet_tac |]. intros H1. pose proof (iv_live _ _ _ _ _ H1) as L1. wp_steps.
  apply cwp_when; intros _; [| by eapply HQ]. eapply enter_recovery_spec; [exact H1 | done | exact HQ].
Qed.

(** What the congestion control part of [tcp_new_ack] keeps. *)
Record ack_frame tp tp' : Prop := {
  af_state : t_state tp' = t_state tp;
  af_una : snd_una tp' = snd_una tp;
  af_max : rel (snd_una tp) (snd_max tp) <= rel (snd_una tp) (snd_max tp');
}.

Lemma quiet_frame tp tp' : quiet tp tp' -> ack_frame tp tp'.
Proof. intros []. constructor; congruence || (rewrite q_max0; done). Qed.
Lemma ack_frame_trans tp1 tp2 tp3 : ack_frame tp1 tp2 -> ack_frame tp2 tp3 -> ack_frame tp1 tp3.
Proof. intros [] []. constructor; [congruence.. |]. rewrite af_una0 in *. lia. Qed.

Lemma partial_ack_spec h s tp inp so ack (Q : unit -> conn -> Prop) : inv h s tp inp so -> is_u 32 ack ->
  rel (snd_una tp) ack <= rel (snd_una tp) (snd_max tp) ->
  (forall s' tp', inv h s' tp' inp so -> ack_frame tp tp' -> Q tt s') -> wp (tcp_partial_ack ack) Q s.
Proof.
  intros H Ha Hr HQ. pose proof (iv_live _ _ _ _ _ H) as L. unfold tcp_partial_ack. wp_steps.
  destruct (t_flags tp &? TF_SACK_PERMIT); wp_steps; [by eapply HQ |].
  eapply wp_quiet; [exact H | quiet_tac |]. intros H1. wp_steps.
  eapply retransmit_spec; [exact H1 | done | done |]. intros s2 tp2 end_ H2 F2 _.
  eapply wp_quiet; [exact H2 | quiet_tac |]. intros H3. eapply HQ; [exact H3 |].
  constructor; tcp_simpl; apply F2.
Qed.

(** What holds between the parts of [tcp_process_ack]: [ack] is beyond
    [snd_una] and was sent. *)
Record acking (h k ack : Z) s tp inp so : Prop := {
  ag_base : base h s tp inp so;
  ag_ok : ack_ok tp (bf_cc (so_snd so)) k;
  ag_new : 0 < rel (snd_una tp) ack <= rel (snd_una tp) (snd_max tp);
}.

Lemma acking_quiet h k ack s tp inp so tp' : acking h k ack s tp inp so -> quiet tp tp' ->
  acking h k ack (with_tp tp' s) tp' inp so.
Proof.
  intros [B A N] Hq. constructor; [by eapply base_tp | by eapply ack_ok_quiet |].
  by rewrite (q_una _ _ Hq), (q_max _ _ Hq).
Qed.

Lemma acking_inv h s tp inp so ack : acking h 0 ack s tp inp so -> inv h s tp inp so.
Proof. intros []. by apply ack_inv. Qed.

Lemma exit_recovery_spec h ack s tp inp so (Q : unit -> conn -> Prop) : acking h 0 ack s tp inp so ->
  (forall s' tp', acking h 0 ack s' tp' inp so -> ack_frame tp tp' -> Q tt s') -> wp tcp_exit_recovery Q s.
Proof.
  intros H HQ. unfold tcp_exit_recovery. pose proof H as [B A N]. wp_steps. eapply wp_upd_tp; [apply B |].
  set (tp1 := set_t_flags _ tp). set (tp2 := set_dupacks 0 tp1). set (tp3 := set_sack_rexmit_bytes 0 tp2).
  assert (A3 : ack_ok tp3 (bf_cc (so_snd so)) 0).
  { assert (ack_ok tp1 (bf_cc (so_snd so)) 0) as [] by (apply ack_ok_flag; [by apply flag_ldiff_other | done]).
    constructor; try done. eapply (sack_ok_max tp1); try done. change (snd_max tp3) with (snd_max tp1). destruct ao_sack0. lia. }
  destruct (law_recovery _ (ek_cc _ (b_env _ _ _ _ _ B))) as (f & Ef & Hf).
  eapply wp_call_cc; [eapply live_tp, B | exact Ef |].
  assert (A4 : acking h 0 ack (with_tp tp3 s) tp3 inp so) by (constructor; [by eapply base_tp | done | done]).
  assert (Hq : quiet tp3 (f tp3)) by apply quiet_cong, Hf.
  eapply HQ; [by apply (acking_quiet _ _ _ _ tp3) |]. eapply (ack_frame_trans _ tp3); [done | by apply quiet_frame].
Qed.

Lemma ack_congestion_spec h k acked s tp inp so g (Q : unit -> conn -> Prop) :
  let ack := th_ack (sg_th g) in
  acking h k ack s tp inp so -> is_u 32 ack ->
  (forall s' tp', acking h k ack s' tp' inp so -> ack_frame tp tp' -> Q tt s') ->
  wp (if negb (t_flags tp &? TF_FASTRECOVERY)
      then upd_tp (set_dupacks 0) ;! call_cc (cc_ack_received (c_cc s)) (fun f => f acked)
      else if SEQ_LT ack (snd_recover tp) then tcp_partial_ack ack else tcp_exit_recovery) Q s.
Proof.
  intros ack H Ha HQ. pose proof H as [B A N].
  destruct (t_flags tp &? TF_FASTRECOVERY) eqn:Ef; cbn [negb].
  - destruct (ao_syn _ _ _ A) as [-> | (_ & _ & ?)]; [| congruence]. destruct (SEQ_LT _ _).
    + eapply partial_ack_spec; [by eapply acking_inv | done | apply N |]. intros s1 tp1 H1 F1.
      eapply HQ; [| done]. destruct F1. constructor; [by apply inv_base | |].
      * eapply inv_ack; [done |]. rewrite af_state0. apply A.
      * rewrite af_una0. lia.
    + by eapply exit_recovery_spec.
  - destruct (law_ack _ (ek_cc _ (b_env _ _ _ _ _ B))) as (f & Ea & Hf).
    wp_steps. eapply wp_upd_tp; [apply B |]. eapply wp_call_cc; [eapply live_tp, B | exact Ea |].
    assert (Hq : quiet tp (set_dupacks 0 tp)) by quiet_tac.
    assert (Hq2 : quiet (set_dupacks 0 tp) (f acked (set_dupacks 0 tp))) by apply quiet_cong, Hf.
    eapply HQ; [eapply acking_quiet, Hq2; by eapply acking_quiet, Hq |].
    apply quiet_frame. by eapply quiet_trans.
Qed.

(** ** New data acknowledged *)

Lemma bf_drop_cc n b : 0 <= n <= bf_cc b -> bf_cc (bf_drop n b) = bf_cc b - n.
Proof. intros Hn. unfold bf_cc, bf_drop in *. cbn [bf_data]. rewrite length_drop. lia. Qed.

Lemma so_ok_drop h so n : so_ok h so -> so_ok h (set_so_snd (bf_drop n (so_snd so)) so).
Proof. intros []. constructor; try done. by apply Forall_drop. Qed.

Lemma drop_acked_spec h k ack s tp inp so (Q : unit -> conn -> Prop) : acking h k ack s tp inp so ->
  (forall s' so', base h s' tp inp so' -> so_embryonic so' = so_embryonic so ->
     bf_cc (so_snd so') = acked_left (bf_cc (so_snd so)) (acked_data tp ack (rel (snd_una tp) ack)) -> Q tt s') ->
  wp (tcp_drop_acked_data ack (rel (snd_una tp) ack)) Q s.
Proof.
  intros [B A N] HQ. pose proof B as [L E P S]. unfold tcp_drop_acked_data. wp_steps.
  fold (acked_data tp ack (rel (snd_una tp) ack)).
  assert (Hd : 0 <= acked_data tp ack (rel (snd_una tp) ack)).
  { unfold acked_data. repeat case_match; apply u32_range || lia. }
  set (d := acked_data _ _ _) in *. unfold acked_left in HQ. apply cwp_when.
  - rewrite negb_true_iff. intros E0. rewrite E0 in HQ. eapply wp_upd_so; [by eapply live_attached |].
    eapply HQ; [eapply base_so; [done |] | done |]; [by apply so_ok_drop |]. cbn [so_snd set_so_snd].
    apply bf_drop_cc. pose proof (ao_cc _ _ _ A). destruct (Z.ltb_spec d (bf_cc (so_snd so))); lia.
  - rewrite negb_false_iff. intros E0. rewrite E0 in HQ. by eapply HQ.
Qed.

Lemma new_ack_spec h k s tp inp so g (Q : unit -> conn -> Prop) :
  acking h k (th_ack (sg_th g)) s tp inp so -> is_u 32 (th_ack (sg_th g)) ->
  (forall s' tp' so', inv h s' tp' inp so' -> t_state tp' = t_state tp ->
     so_embryonic so' = so_embryonic so -> Q tt s') ->
  wp (tcp_new_ack g) Q s.
Proof.
  intros H Ha HQ. pose proof (b_live _ _ _ _ _ (ag_base _ _ _ _ _ _ _ H)) as L. unfold tcp_new_ack. wp_steps.
  eapply wp_upd_tp; [exact L |]. set (ack := th_ack (sg_th g)) in *.
  pose proof (quiet_rtt_sample (c_hz s) (now_ms (c_ticks s) (c_hz s)) g tp) as Hq.
  set (tp1 := tcp_rtt_sample _ _ _ _) in *. clearbody tp1.
  assert (H1 : acking h k ack (with_tp tp1 s) tp1 inp so) by (by apply (acking_quiet _ _ _ _ tp)).
  pose proof (b_live _ _ _ _ _ (ag_base _ _ _ _ _ _ _ H1)) as L1. wp_steps.
  change (c_cc s) with (c_cc (with_tp tp1 s)). eapply ack_congestion_spec; [exact H1 | done |].
  intros s2 tp2 H2 F2. wp_steps. fold (rel (snd_una tp) ack).
  assert (Eu : snd_una tp = snd_una tp2) by (rewrite (af_una _ _ F2); symmetry; apply Hq). rewrite Eu.
  assert (Es : t_state tp2 = t_state tp) by (rewrite (af_state _ _ F2); apply Hq). clear Hq F2 H1 L1.
  eapply drop_acked_spec; [exact H2 |]. intros s3 so3 B3 Eso Ecc. wp_steps.
  eapply wp_upd_tp; [apply B3 |]. fold (advance_una ack tp2). pose proof H2 as [_ A2 N2].
  destruct (acked_left_bound _ _ _ _ A2 Ha N2) as [Hc Hb]. rewrite <- Ecc in Hc, Hb.
  destruct (advance_ok tp2 _ k _ ack A2 Ha (proj2 N2) Hc Hb) as (tp4 & E4 & A4 & Es4).
  assert (L4 : live (with_tp (advance_una ack tp2) s3) (advance_una ack tp2) inp so3) by (eapply live_tp, B3).
  wp_steps. eapply wp_lift; [exact E4 |]. wp_steps. eapply wp_upd_tp; [exact L4 |].
  set (tp5 := set_rexmt_shift 0 tp4) in *. set (s5 := with_tp tp5 _).
  assert (H5 : inv h s5 tp5 inp so3) by (apply ack_inv; [eapply base_tp, base_tp, B3 | done]).
  assert (Es5 : t_state tp5 = t_state tp) by (change (t_state tp5) with (t_state tp4); congruence).
  pose proof (iv_live _ _ _ _ _ H5) as L5. wp_steps. clearbody s5 tp5. destruct (ack =? snd_max tp5).
  - eapply wp_inv_stop; [done |]. intros tp' [ts ->] H6. by eapply HQ.
  - apply cwp_when; intros _; [| by eapply HQ].
    eapply wp_inv_timer; [done |]. intros tp' [ts ->] H6. by eapply HQ.
Qed.

Lemma ack_window una mx ack : rel una mx < 2 ^ 31 -> SEQ_GT ack mx = false -> SEQ_LEQ ack una = false ->
  0 < rel una ack <= rel una mx.
Proof.
  intros Hm Hg Hl. unfold SEQ_LEQ in Hl. apply Z.leb_gt in Hl. pose proof (s32_range (ack - una)).
  pose proof (s32_nonneg una ack ltac:(lia)). rewrite (seq_gt una) in Hg by lia. apply Z.ltb_ge in Hg. lia.
Qed.

Lemma ack_window_iff una mx ack : rel una mx < 2 ^ 31 -> 0 < rel una ack <= rel una mx ->
  SEQ_GT ack mx = false /\ SEQ_LEQ ack una = false.
Proof.
  intros Hm Hr. rewrite (seq_gt una) by lia. rewrite (seq_leq una) by (rewrite ?rel_refl; lia). rewrite rel_refl. split; [apply Z.ltb_ge | apply Z.leb_gt]; lia.
Qed.

(** A result that leaves an open socket open. *)
Definition keeps so so' : Prop := so_embryonic so = false -> so_embryonic so' = false.

Lemma left_keeps h inp so so' s : keeps so so' -> left_ok h inp so' s -> left_ok h inp so s.
Proof. intros Hk []. constructor; auto. Qed.

Definition still h inp so s' : Prop :=
  exists tp' so', inv h s' tp' inp so' /\ keeps so so' /\ TCPS_HAVEESTABLISHED (t_state tp') = true.

Lemma keeps_refl so : keeps so so.
Proof. by intros ?. Qed.
Lemma keeps_trans so1 so2 so3 : keeps so1 so2 -> keeps so2 so3 -> keeps so1 so3.
Proof. unfold keeps. auto. Qed.
Lemma inv_still h s tp inp so : inv h s tp inp so -> TCPS_HAVEESTABLISHED (t_state tp) = true -> still h inp so s.
Proof. intros. exists tp, so. auto using keeps_refl. Qed.
Lemma still_keeps h inp so so' s : keeps so so' -> still h inp so' s -> still h inp so s.
Proof. intros Hk (tp1 & so1 & ? & ? & ?). exists tp1, so1. eauto using keeps_trans. Qed.

Definition ack_post h inp so (r : tcp_ack_result) s' : Prop :=
  match r with
  | TCP_ACK_GONE => left_ok h inp so s'
  | TCP_ACK_DROP => exists tp' so', inv h s' tp' inp so' /\ keeps so so'
  | _ => still h inp so s'
  end.

Lemma ack_post_keeps h inp so so' r s : keeps so so' -> ack_post h inp so' r s -> ack_post h inp so r s.
Proof.
  intros Hk. destruct r; cbn [ack_post].
  - by apply still_keeps.
  - intros (tp1 & so1 & ? & ?). eauto using keeps_trans.
  - by apply still_keeps.
  - by apply left_keeps.
Qed.

Lemma our_fin_acked_spec h s tp inp so : inv h s tp inp so -> TCPS_HAVEESTABLISHED (t_state tp) = true ->
  wp tcp_our_fin_acked (ack_post h inp so) s.
Proof.
  intros H He. pose proof (iv_live _ _ _ _ _ H) as L. unfold tcp_our_fin_acked, tcp_state_change. wp_steps.
  assert (Hk : still h inp so s) by (by eapply inv_still).
  destruct (_ || _); [wp_steps; exact Hk |]. destruct (t_state tp) eqn:Es; wp_steps; try exact Hk.
  - eapply wp_inv_tp; [done | apply tcp_ok_state; [apply H | by rewrite Es | done | by rewrite Es] |]. intros H1.
    pose proof (iv_live _ _ _ _ _ H1) as L1. wp_steps. apply cwp_when; intros _; [| wp_steps; by eapply inv_still].
    eapply wp_inv_timer; [done |]. intros tp' [ts ->] H2. wp_steps. by eapply inv_still.
  - eapply enter_timewait_spec; [done | by rewrite Es | by rewrite Es |]. intros s' tp' so' H1 E1 F1. wp_steps.
    exists tp', so'. rewrite E1. split; [done |]. split; [exact (sf_embryo _ _ F1) | done].
  - eapply wp_close; [done |]. intros s' H1 _. by wp_steps.
Qed.

Lemma sack_update_ok tp C k bs c : ack_ok tp C k -> sack_ok (with_board bs c tp) -> ack_ok (with_board bs c tp) C k.
Proof. by intros [] ?. Qed.

Lemma process_ack_spec h k s tp inp so g : base h s tp inp so -> ack_ok tp (bf_cc (so_snd so)) k ->
  (k = 1 -> 0 < rel (snd_una tp) (th_ack (sg_th g)) <= rel (snd_una tp) (snd_max tp)) ->
  is_u 32 (th_ack (sg_th g)) -> wp (process_ack g) (ack_post h inp so) s.
Proof.
  intros B A Hk Ha. pose proof (b_live _ _ _ _ _ B) as L. unfold process_ack. wp_steps.
  set (ack := th_ack (sg_th g)) in *. pose proof (so_window _ (ao_sack _ _ _ A)) as Hw.
  assert (Hcase : k = 0 \/ SEQ_GT ack (snd_max tp) = false /\ SEQ_LEQ ack (snd_una tp) = false).
  { destruct (ao_syn _ _ _ A) as [-> | (-> & _)]; [by left | right]. apply ack_window_iff; auto. }
  destruct (SEQ_GT ack (snd_max tp)) eqn:Eg.
  { destruct Hcase as [-> | []]; [| done]. wp_steps. eapply inv_still; [by apply ack_inv | apply A]. }
  wp_steps. match goal with |- wp ?m ?Q ?st =>
    assert (Hm : wp m (fun _ s' => exists tp', base h s' tp' inp so /\ ack_ok tp' (bf_cc (so_snd so)) k /\
      snd_una tp' = snd_una tp /\ snd_max tp' = snd_max tp) st)
  end.
  { destruct (_ && _); [| apply cwp_ret; by exists tp]. wp_steps.
    destruct (sack_update_spec (to_sacks (sg_to g)) tp (ao_sack _ _ _ A)) as (bs & c & E & Hs & _).
    eapply wp_lift; [exact E |]. eapply wp_upd_tp; [apply L |]. eexists. split; [by eapply base_tp |].
    split; [by apply sack_update_ok | done]. }
  eapply cwp_mono; [exact Hm |]. intros _ s1 (tp1 & B1 & A1 & Eu & Em). pose proof (b_live _ _ _ _ _ B1) as L1.
  wp_steps. destruct (SEQ_LEQ ack (snd_una tp1)) eqn:El; rewrite Eu in El.
  - destruct Hcase as [-> | []]; [| congruence]. wp_steps. eapply dupack_spec; [by apply ack_inv | apply A1 |].
    intros s2 tp2 H2 E2. wp_steps. eapply inv_still; [done |]. rewrite E2. apply A1.
  - wp_steps. eapply (new_ack_spec h k s1 tp1 inp so g).
    + constructor; [done | done |]. rewrite Eu, Em. by apply ack_window.
    + done.
    + intros s2 tp2 so2 H2 E2 E3. eapply cwp_mono; [apply (our_fin_acked_spec h s2 tp2 inp so2); [done | rewrite E2; apply A1] |].
      intros r s3. assert (Hkeep : keeps so so2) by (unfold keeps; by rewrite E3).
      by apply ack_post_keeps.
Qed.

Lemma handshake_ack_ok tp tp' C : out_ok tp C -> from_origin (t_state tp) -> t_state tp = TCPS_SYN_RECEIVED ->
  (t_flags tp &? TF_FASTRECOVERY) = false -> est_frame tp tp' -> ack_ok tp' C 1.
Proof.
  intros [] Ho Es Hf []. rewrite Es in Ho. unfold seq_bound in oo_bound. rewrite Es in oo_bound. destruct oo_bound as (Hc & Ei & Hm).
  assert (0 <= sent_fin tp') by (unfold sent_fin; case_match; lia).
  constructor; rewrite ?ef_snd, ?ef_rcv, ?ef_sack; try done.
  - destruct ef_state as [-> | ->]; eauto using from_step.
  - by destruct ef_state as [-> | ->].
  - eapply (sack_ok_max tp); rewrite ?ef_snd, ?ef_sack; try done. destruct oo_sack. lia.
  - lia.
  - right. split_and!; try done. by rewrite ef_recovery.
Qed.

Lemma tcp_process_ack_spec h s tp inp so g : inv h s tp inp so ->
  t_state tp = TCPS_SYN_RECEIVED \/ TCPS_HAVEESTABLISHED (t_state tp) = true ->
  is_u 32 (th_ack (sg_th g)) -> wp (tcp_process_ack g) (ack_post h inp so) s.
Proof.
  intros H Hst Ha. pose proof (iv_live _ _ _ _ _ H) as L. unfold tcp_process_ack. wp_steps.
  destruct (bool_decide_reflect (t_state tp = TCPS_SYN_RECEIVED)) as [Es | Es].
  2:{ destruct Hst as [| He]; [done |].
      eapply (process_ack_spec h 0); [by apply inv_base | by eapply inv_ack | done | done]. }
  destruct (_ || _) eqn:Eo.
  { wp_steps. eapply wp_respond; [done | done |]. intros s' H'. wp_steps. exists tp, so. auto using keeps_refl. }
  apply orb_false_iff in Eo as [Eo1 Eo2]. destruct (iv_tcp _ _ _ _ _ H) as [T0 T1 T2 T3 T4].
  rewrite Es in T2, T4. destruct (T2 eq_refl) as [_ Hrec]. wp_steps.
  eapply established_spec; [by apply inv_base | exact (T4 eq_refl) |]. intros s1 tp1 so1 B1 F1 F2.
  assert (Hcc : bf_cc (so_snd so1) = bf_cc (so_snd so)) by (unfold bf_cc; by rewrite (sf_snd _ _ F2)).
  assert (A1 : ack_ok tp1 (bf_cc (so_snd so1)) 1) by (rewrite Hcc; by apply (handshake_ack_ok tp)).
  eapply cwp_mono; [apply (process_ack_spec h 1 s1 tp1 inp so1 g); try done |].
  - intros _. rewrite (ef_snd _ _ F1). apply ack_window; [apply T1 | done | done].
  - intros r s2. apply ack_post_keeps. exact (sf_embryo _ _ F2).
Qed.

End ack.

(** ** Data and FINs *)

Lemma quiet_reassemble ok deliver hiwat th nb len tp : quiet tp (tcp_reassemble ok deliver hiwat th nb len tp).2.
Proof.
  assert (Hb : forall seq len flags nb pre post, quiet tp (insert_between ok seq len flags nb pre post tp)).
  { intros. unfold insert_between. repeat case_match; quiet_tac. }
  unfold tcp_reassemble. set (tp1 := tcp_reassemble_insert _ _ _ _ _ _ _).
  assert (Hq : quiet tp tp1).
  { unfold tp1, tcp_reassemble_insert. repeat case_match; try apply Hb; quiet_tac. }
  clearbody tp1. unfold tcp_reassemble_pull. destruct (pull_loop _ _ _ _ _ _) as [[[[? ?] ?] ?] ?]. cbn [snd].
  eapply quiet_trans; [exact Hq |]. quiet_tac.
Qed.

Section data.
Context `{HFS : !FreshStorage} `{rt : route_layer} {O : origin}.

Lemma inv_alloc h s tp inp so o : inv h s tp inp so -> inv h (set_c_alloc o s) tp inp so.
Proof. intros [[] E P S T]. constructor; [by constructor | by eapply (env_ok_ext s) | done..]. Qed.

Lemma process_fin_spec h s tp inp so : inv h s tp inp so -> TCPS_HAVEESTABLISHED (t_state tp) = true ->
  wp tcp_process_fin (fun _ s' => still h inp so s') s.
Proof.
  intros H He. pose proof (iv_live _ _ _ _ _ H) as L. unfold tcp_process_fin, tcp_state_change. wp_steps.
  eapply wp_so_attached; [by eapply live_attached |]. wp_steps.
  match goal with |- wp ?m ?Q ?st =>
    assert (Hm : wp m (fun _ s' => exists so', inv h s' tp inp so' /\ keeps so so') st)
  end.
  { apply cwp_when; intros _; [| eauto using keeps_refl].
    eapply wp_inv_so; [done | | done | done | done |]; [by destruct (iv_so _ _ _ _ _ H) |].
    intros H1. eexists. split; [exact H1 | by intros ?]. }
  eapply cwp_mono; [exact Hm |]. intros _ s1 (so1 & H1 & Hk). wp_steps.
  eapply wp_quiet; [exact H1 | eapply quiet_trans; [| apply quiet_acknow]; quiet_tac |].
  set (tp2 := acknow _). intros H2. pose proof (iv_live _ _ _ _ _ H2) as L2. wp_steps.
  assert (Es : t_state tp2 = t_state tp) by done. clearbody tp2.
  assert (Hch : forall st, TCPS_HAVEESTABLISHED st = true -> tcp_edge (t_state tp) st ->
    wp (upd_tp (set_state st)) (fun _ s' => still h inp so s') (with_tp tp2 s1)).
  { intros st Hst Hed. eapply wp_inv_tp; [exact H2 | apply tcp_ok_state; [apply H2 | by rewrite Es | done | by rewrite Es] |].
    intros H3. eapply still_keeps; [exact Hk |]. by eapply inv_still. }
  rewrite Es. destruct (t_state tp) eqn:Et; try done; try (by apply Hch);
    try (apply cwp_ret; eapply still_keeps; [exact Hk |]; eapply inv_still; [exact H2 | by rewrite Es]).
  eapply enter_timewait_spec; [exact H2 | by rewrite Es | by rewrite Es |]. intros s3 tp3 so3 H3 E3 F3.
  eapply still_keeps; [exact Hk |]. exists tp3, so3. rewrite E3. split; [done |].
  split; [exact (sf_embryo _ _ F3) | done].
Qed.

Lemma schedule_ack_spec h s tp inp so delay (Q : unit -> conn -> Prop) : inv h s tp inp so ->
  (forall s' tp', inv h s' tp' inp so -> t_state tp' = t_state tp -> Q tt s') -> wp (tcp_schedule_ack delay) Q s.
Proof.
  intros H HQ. pose proof (iv_live _ _ _ _ _ H) as L. unfold tcp_schedule_ack. wp_steps.
  destruct (_ || _); [eapply wp_quiet; [done | apply quiet_acknow | intros; by eapply HQ] |].
  wp_steps. eapply wp_quiet; [done | quiet_tac |]. intros H1.
  eapply wp_inv_timer; [done |]. intros tp' [ts ->] H2. by eapply HQ.
Qed.

Lemma reassemble_socket_spec h s tp inp so g (Q : bool -> conn -> Prop) : inv h s tp inp so ->
  (forall fin s' tp' so', inv h s' tp' inp so' -> t_state tp' = t_state tp -> keeps so so' -> Q fin s') ->
  wp (reassemble_into_socket g) Q s.
Proof.
  intros H HQ. pose proof (iv_live _ _ _ _ _ H) as L. unfold reassemble_into_socket. wp_steps.
  destruct (ask (c_alloc s)) as [ok o]. wp_steps. cbv beta iota.
  match goal with |- context [tcp_reassemble ?a ?b ?c ?d ?e ?f tp] =>
    pose proof (quiet_reassemble a b c d e f tp) as Hq; destruct (tcp_reassemble a b c d e f tp) as [[fin out] tp1] end.
  cbn [snd] in Hq. wp_steps. pose proof (inv_alloc h s tp inp so o H) as H0.
  eapply wp_quiet; [exact H0 | exact Hq |]. intros H1. wp_steps. apply cwp_when; intros _.
  - eapply wp_inv_so; [exact H1 | | done | done | done |]; [by destruct (iv_so _ _ _ _ _ H1) |].
    intros H2. wp_steps. eapply HQ; [exact H2 | apply Hq | by intros ?].
  - wp_steps. eapply HQ; [exact H1 | apply Hq | by intros ?].
Qed.

Lemma process_data_spec h s tp inp so g : inv h s tp inp so -> TCPS_HAVEESTABLISHED (t_state tp) = true ->
  wp (tcp_process_data g) (fun r s' => if (r : bool) then still h inp so s' else left_ok h inp so s') s.
Proof.
  intros H He. pose proof (iv_live _ _ _ _ _ H) as L. unfold tcp_process_data. wp_steps.
  destruct (_ || _); [wp_steps; by eapply inv_still |].
  destruct (_ && _); [wp_steps; eapply wp_drop; [done |]; intros; by wp_steps |]. wp_steps.
  eapply reassemble_socket_spec; [done |]. intros fin s1 tp1 so1 H1 E1 K1. wp_steps.
  match goal with |- wp ?m ?Q ?st =>
    assert (Hm : wp m (fun _ s' => exists tp', inv h s' tp' inp so1 /\ t_state tp' = t_state tp) st)
  end.
  { apply cwp_when; intros _; [| by exists tp1]. eapply schedule_ack_spec; [done |].
    intros s2 tp2 H2 E2. exists tp2. split; [done |]. congruence. }
  eapply cwp_mono; [exact Hm |]. intros _ s2 (tp2 & H2 & E2). wp_steps. apply cwp_when; intros _.
  - eapply cwp_mono; [eapply process_fin_spec; [exact H2 | by rewrite E2] |]. intros [] s3 H3. wp_steps.
    by eapply still_keeps.
  - wp_steps. eapply still_keeps; [exact K1 |]. eapply inv_still; [exact H2 | by rewrite E2].
Qed.

(** ** A segment in a synchronized state *)

Lemma still_left h inp so s : still h inp so s -> left_ok h inp so s.
Proof. intros (tp & so' & H & Hk & _). by eapply inv_left. Qed.

Lemma challenge_ack_spec h s tp inp so (Q : unit -> conn -> Prop) : inv h s tp inp so ->
  (forall s', inv h s' tp inp so -> Q tt s') -> wp tcp_send_challenge_ack Q s.
Proof.
  intros H HQ. pose proof (iv_live _ _ _ _ _ H) as L. unfold tcp_send_challenge_ack. wp_steps.
  by eapply wp_respond.
Qed.

Lemma input_rst_spec h s tp inp so g : inv h s tp inp so -> wp (tcp_input_rst g) (fun _ s' => left_ok h inp so s') s.
Proof.
  intros H. pose proof (iv_live _ _ _ _ _ H) as L. unfold tcp_input_rst. wp_steps. destruct (negb _).
  { apply cwp_when; intros _; [| by eapply inv_left]. eapply challenge_ack_spec; [done |]. intros. by eapply inv_left. }
  wp_steps. eapply wp_so_attached; [by eapply live_attached |]. wp_steps. apply cwp_when; intros _.
  - eapply wp_inv_so; [done | | done | done | done |]; [by destruct (iv_so _ _ _ _ _ H) |]. intros H1.
    eapply wp_close; [exact H1 |]. intros s' H2 _. eapply left_keeps; [| exact H2]. by intros ?.
  - eapply wp_close; [done | auto].
Qed.

Lemma drop_after_ack_spec h s tp inp so : inv h s tp inp so ->
  wp drop_after_ack (fun _ s' => left_ok h inp so s') s.
Proof.
  intros H. unfold drop_after_ack. wp_steps. eapply wp_quiet; [done | apply quiet_acknow |]. intros H1.
  eapply wp_output_; [exact H1 |]. intros. by eapply inv_left.
Qed.

Definition synced (st : tcp_state) : Prop := st = TCPS_SYN_RECEIVED \/ TCPS_HAVEESTABLISHED st = true.

Lemma input_accepted_spec h s tp inp so g : inv h s tp inp so -> synced (t_state tp) ->
  is_u 32 (th_ack (sg_th g)) -> wp (input_accepted g) (fun _ s' => left_ok h inp so s') s.
Proof.
  intros H Hst Ha. unfold input_accepted. destruct (_ &? TH_SYN).
  { eapply challenge_ack_spec; [done |]. intros. by eapply inv_left. }
  destruct (negb _); wp_steps; [by eapply inv_left |].
  pose proof (quiet_ts_recent (now_ms (c_ticks s) (c_hz s)) g tp) as Hq.
  eapply wp_quiet; [done | exact Hq |]. intros H1. wp_steps.
  eapply cwp_mono; [eapply tcp_process_ack_spec; [exact H1 | by rewrite (q_state _ _ Hq) | done] |].
  intros r s2 H2. destruct r; cbn [ack_post] in H2.
  - destruct H2 as (tp2 & so2 & H2 & K2 & E2). wp_steps.
    pose proof (quiet_update_window g tp2) as Hq2. eapply wp_quiet; [exact H2 | exact Hq2 |]. intros H3. wp_steps.
    eapply cwp_mono; [eapply process_data_spec; [exact H3 | by rewrite (q_state _ _ Hq2)] |].
    intros [] s4 H4; cbn [when]; [| by eapply cwp_ret, left_keeps].
    destruct H4 as (tp4 & so4 & H4 & K4 & _). eapply wp_output_; [exact H4 |]. intros s5 tp5 H5 _.
    eapply left_keeps; [exact K2 |]. by eapply inv_left.
  - destruct H2 as (tp2 & so2 & H2 & K2). wp_steps. by eapply inv_left.
  - destruct H2 as (tp2 & so2 & H2 & K2 & _). eapply cwp_mono; [by eapply drop_after_ack_spec |].
    intros [] s3. by apply left_keeps.
  - by wp_steps.
Qed.

Lemma trim_th g tp : th_ack (sg_th (tcp_trim_segment g tp).1.2) = th_ack (sg_th g).
Proof.
  unfold tcp_trim_segment. destruct (trim_left g tp) as [g1 tp1] eqn:El.
  assert (E1 : th_ack (sg_th g1) = th_ack (sg_th g)).
  { revert El. unfold trim_left. repeat case_match; simplify_eq; by intros [= <- _]. }
  destruct (trim_right g1 tp1) as [[g2 tp2] |] eqn:Er; cbn [fst snd]; [| done]. rewrite <- E1.
  revert Er. unfold trim_right. repeat case_match; by intros [= <- _].
Qed.

Lemma input_sync_spec h s tp inp so g : inv h s tp inp so -> synced (t_state tp) ->
  is_u 32 (th_ack (sg_th g)) -> wp (tcp_input_sync g) (fun _ s' => left_ok h inp so s') s.
Proof.
  intros H Hst Ha. pose proof (iv_live _ _ _ _ _ H) as L. unfold tcp_input_sync. wp_steps.
  eapply wp_quiet; [done | quiet_tac |]. set (tp1 := set_rcv_wnd _ tp). intros H1.
  pose proof (iv_live _ _ _ _ _ H1) as L1. wp_steps. cbn [c_ticks c_hz].
  pose proof (quiet_paws (now_ms (c_ticks s) (c_hz s)) g tp1) as Hq. assert (Es1 : t_state tp1 = t_state tp) by done.
  clearbody tp1. destruct (tcp_paws_ok _ g tp1) as [ok tp2]. cbn [snd] in Hq. wp_steps.
  eapply wp_quiet; [exact H1 | exact Hq |]. intros H2.
  destruct ok; cbn [negb]; [| by eapply drop_after_ack_spec].
  destruct (_ &? TH_RST); [by eapply input_rst_spec |].
  pose proof (quiet_trim g tp2) as Hq2. pose proof (trim_th g tp2) as Eth.
  destruct (tcp_trim_segment g tp2) as [[ok g'] tp3]. cbn [fst snd] in Hq2, Eth. wp_steps.
  eapply wp_quiet; [exact H2 | exact Hq2 |]. intros H3.
  destruct ok; cbn [negb]; [| by eapply drop_after_ack_spec].
  eapply input_accepted_spec; [exact H3 | | by rewrite Eth].
  rewrite (q_state _ _ Hq2), (q_state _ _ Hq), Es1. done.
Qed.

(** ** SYN_SENT *)

Lemma quiet_syn_opts faddr now to tp : quiet tp (tcp_apply_syn_opts faddr now to tp).
Proof.
  unfold tcp_apply_syn_opts. set (tp1 := if negb _ then _ else tp).
  assert (Hq : quiet tp tp1) by (unfold tp1; repeat case_match; quiet_tac).
  clearbody tp1. eapply quiet_trans; [exact Hq |]. unfold tcp_mss_update. quiet_tac.
Qed.

Lemma apply_syn_opts_spec h s tp inp so to (Q : unit -> conn -> Prop) : inv h s tp inp so ->
  (forall tp', inv h (with_tp tp' s) tp' inp so -> quiet tp tp' -> Q tt (with_tp tp' s)) ->
  wp (apply_syn_opts to) Q s.
Proof.
  intros H HQ. pose proof (iv_live _ _ _ _ _ H) as L. unfold apply_syn_opts. wp_steps.
  eapply wp_quiet; [done | apply quiet_syn_opts |]. intros H1. apply HQ; [done | apply quiet_syn_opts].
Qed.

(** Simultaneous open. *)
Lemma tcp_ok_syn_received tp inp so : tcp_ok tp inp so -> t_state tp = TCPS_SYN_SENT ->
  tcp_ok (set_state TCPS_SYN_RECEIVED tp) inp so.
Proof.
  intros [T0 [] T2 T3 T4] Es. rewrite Es in T0, T2, T4. constructor; try done; [by eapply from_step |].
  constructor; try done.
  - eapply (sack_ok_max tp); try done. destruct oo_sack. tcp_simpl. lia.
  - unfold seq_bound in *. tcp_simpl. by rewrite Es in oo_bound.
Qed.

Lemma syn_una_iss tp C : out_ok tp C -> t_state tp = TCPS_SYN_SENT -> snd_una tp = iss tp.
Proof. intros [] Es. unfold seq_bound in oo_bound. rewrite Es in oo_bound. apply oo_bound. Qed.

(** What the acknowledgement of our SYN leaves. *)
Record syn_acked tp tp' (ack : Z) : Prop := {
  sa_una : snd_una tp' = ack;
  sa_nxt : snd_nxt tp' = snd_nxt tp \/ snd_nxt tp' = ack;
  sa_before : snd_nxt tp' = snd_nxt tp -> SEQ_LT (snd_nxt tp) ack = false;
  sa_max : snd_max tp' = snd_max tp;
  sa_rxmit : sack_rxmit tp' = ack;
  sa_blocks : sack_blocks tp' = sack_blocks tp;
  sa_count : sack_count tp' = sack_count tp;
  sa_scale : req_rcv_scale tp' = req_rcv_scale tp;
}.

Lemma syn_acked_ok tp tp1 tp' C ack : out_ok tp C -> from_origin (t_state tp) -> t_state tp = TCPS_SYN_SENT -> is_u 32 ack ->
  0 < rel (snd_una tp) ack <= rel (snd_una tp) (snd_max tp) -> syn_acked tp tp1 ack -> est_frame tp1 tp' ->
  ack_ok tp' C 0.
Proof.
  intros [] Ho Es Ha Hr [] []. rewrite Es in Ho. unfold seq_bound in oo_bound. rewrite Es in oo_bound. destruct oo_bound as (Hc & Ei & Hm).
  assert (Em : snd_max tp = ack) by (eapply (rel_inj (snd_una tp)); [done | done | lia]).
  assert (En : snd_nxt tp1 = ack).
  { destruct sa_nxt0 as [En | ->]; [| done]. specialize (sa_before0 En). rewrite En.
    rewrite (seq_lt (snd_una tp)) in sa_before0 by lia. apply Z.ltb_ge in sa_before0.
    eapply (rel_inj (snd_una tp)); [done | done |]. rewrite Em in *. lia. }
  assert (0 <= sent_fin tp') by (unfold sent_fin; case_match; lia). pose proof (rel_refl ack) as Hz.
  constructor; rewrite ?ef_snd, ?ef_rcv, ?ef_sack, ?sa_una0, ?sa_max0, ?sa_rxmit0, ?sa_scale0, ?En, ?Em, ?Hz;
    try done; try lia; [destruct ef_state as [-> | ->]; eauto using from_step | by destruct ef_state as [-> | ->] |].
  destruct oo_sack as [[W1 W2] _ _]. constructor.
  - constructor; rewrite ef_sack; congruence.
  - rewrite ef_snd, sa_una0, sa_max0, Em. lia.
  - unfold board. rewrite ef_sack, sa_count0, Hc. split; constructor.
Qed.

Lemma syn_ack_update hz now ack tp :
  syn_acked tp
    (let tp := if negb (rtt_start tp =? 0) then tcp_xmit_timer hz (s32 (now - rtt_start tp)) tp else tp in
     let tp := set_rexmt_shift 0 (set_rtt_start 0 tp) in
     let tp := stop_timer TCPT_REXMT tp in
     let tp := set_snd_una ack tp in
     let tp := if SEQ_LT (snd_nxt tp) (snd_una tp) then set_snd_nxt (snd_una tp) tp else tp in
     set_sack_rxmit (snd_una tp) tp) ack.
Proof.
  set (tp1 := if negb _ then _ else tp).
  assert (Hq : quiet tp tp1) by (unfold tp1; case_match; [apply quiet_xmit_timer | apply quiet_refl]).
  clearbody tp1. cbv zeta. set (tp2 := stop_timer _ _).
  assert (Hq2 : quiet tp tp2) by (eapply quiet_trans; [exact Hq | quiet_tac]).
  clearbody tp2. destruct Hq2. tcp_simpl. rewrite q_nxt0.
  destruct (SEQ_LT (snd_nxt tp) ack) eqn:E; constructor; tcp_simpl; rewrite ?q_sack0; try done; try (by left); try (by right).
  intros E2. rewrite <- E2 in E. unfold SEQ_LT in E. by rewrite Z.sub_diag in E.
Qed.

Definition syn_sent_post h inp so (g : tcp_seg) (r : bool * tcp_seg) s' : Prop :=
  if r.1 then still h inp so s' /\ th_ack (sg_th r.2) = th_ack (sg_th g) else left_ok h inp so s'.

Lemma input_syn_sent_spec h s tp inp so g : inv h s tp inp so -> t_state tp = TCPS_SYN_SENT ->
  is_u 32 (th_ack (sg_th g)) -> wp (tcp_input_syn_sent g) (syn_sent_post h inp so g) s.
Proof.
  intros H Es Ha. pose proof (iv_live _ _ _ _ _ H) as L. unfold tcp_input_syn_sent, tcp_state_change. wp_steps.
  set (th := sg_th g) in *. destruct (_ && _) eqn:Eacc.
  { wp_steps. apply cwp_when; intros _; [| wp_steps; by eapply inv_left].
    eapply wp_respond; [done | done |]. intros. wp_steps. by eapply inv_left. }
  destruct (th_flags th &? TH_RST).
  { wp_steps. apply cwp_when; intros _; [| wp_steps; by eapply inv_left].
    eapply wp_drop; [done |]. intros. by wp_steps. }
  destruct (negb (th_flags th &? TH_SYN)); wp_steps; [by eapply inv_left |].
  eapply wp_quiet; [done | apply quiet_init_rcv |]. intros H1. wp_steps.
  eapply apply_syn_opts_spec; [exact H1 |]. intros tp2 H2 Q2. wp_steps.
  eapply wp_quiet; [exact H2 | apply quiet_acknow |]. set (tp3 := set_t_flags _ tp2). intros H3.
  assert (Q3 : quiet tp tp3).
  { eapply quiet_trans; [apply quiet_init_rcv |]. eapply quiet_trans; [exact Q2 | apply quiet_acknow]. }
  set (s3 := with_tp tp3 _) in *. assert (E3 : t_state tp3 = TCPS_SYN_SENT) by (by rewrite (q_state _ _ Q3)).
  clearbody tp3 s3. clear H1 H2 Q2. destruct (th_flags th &? TH_ACK) eqn:Eack; cbn [negb].
  - wp_steps. eapply wp_upd_tp; [apply H3 |]. set (tp4 := set_sack_rxmit _ _). set (ack := th_ack th) in *.
    assert (SA : syn_acked tp3 tp4 ack) by apply syn_ack_update. assert (B4 : base h (with_tp tp4 s3) tp4 inp so) by (eapply base_tp, inv_base, H3).
    clearbody tp4. wp_steps. destruct (iv_tcp _ _ _ _ _ H3) as [T0 T1 _ _ T4]. rewrite E3 in T4.
    eapply established_spec; [exact B4 | exact (T4 eq_refl) |]. intros s5 tp5 so5 B5 F5 F6. wp_steps.
    assert (Hcc : bf_cc (so_snd so5) = bf_cc (so_snd so)) by (unfold bf_cc; by rewrite (sf_snd _ _ F6)).
    cbn [andb] in Eacc. apply orb_false_iff in Eacc as [Ea1 Ea2].
    assert (A5 : ack_ok tp5 (bf_cc (so_snd so5)) 0).
    { rewrite Hcc. eapply (syn_acked_ok tp3 tp4); try done. apply ack_window; [apply T1 | |].
      - by rewrite (q_max _ _ Q3).
      - rewrite (syn_una_iss _ _ T1 E3). by rewrite (q_iss _ _ Q3). }
    eapply wp_quiet; [by apply ack_inv | quiet_tac |]. intros H6. wp_steps. split; [| done].
    eapply still_keeps; [exact (sf_embryo _ _ F6) |]. eapply inv_still; [exact H6 | apply A5].
  - wp_steps. assert (Ei : snd_una tp3 = iss tp3).
    { eapply syn_una_iss; [apply H3 | done]. }
    eapply wp_inv_tp; [exact H3 | |].
    { eapply quiet_ok; [| apply (tcp_ok_nxt tp3 inp so (iss tp3)); [apply H3 | |]]; [quiet_tac | |].
      - rewrite <- Ei. apply (tk_out _ _ _ (iv_tcp _ _ _ _ _ H3)).
      - rewrite <- Ei. apply rel_una_max. }
    intros H4. wp_steps. eapply wp_inv_tp; [exact H4 | apply tcp_ok_syn_received; [apply H4 | done] |]. intros H5.
    wp_steps. eapply wp_output; [exact H5 |]. intros. wp_steps. by eapply inv_left.
Qed.

End data.

(** ** A new connection *)

Definition cc_table_ok (algos : cc_table) : Prop := forall a, Some a ∈ algos -> cc_laws a.

Lemma default_laws algos : cc_table_ok algos -> cc_laws (tcp_cc_default algos).
Proof.
  intros H. destruct algos as [| [a |] rest]; [apply newreno_laws | | apply newreno_laws].
  apply H. by left.
Qed.

Lemma pick_scale_range n : forall scale hiwat, 0 <= scale -> 0 <= pick_scale n scale hiwat <= scale + Z.of_nat n.
Proof.
  induction n as [| n IH]; intros scale hiwat Hs; cbn [pick_scale]; [lia |]. case_match; [| lia].
  specialize (IH (scale + 1) hiwat). lia.
Qed.

Lemma newtcpcb_ok {O : origin} algo v6 so now inp : from_origin TCPS_CLOSED -> cc_laws algo -> bf_cc (so_snd so) < 2 ^ 31 - 1 ->
  (so_listen_head so = true -> so_embryonic so = true) ->
  tcp_ok (tcp_newtcpcb algo v6 (Some so) now) inp so /\ t_state (tcp_newtcpcb algo v6 (Some so) now) = TCPS_CLOSED.
Proof.
  intros Hf Hl Hc He. unfold tcp_newtcpcb. set (tp := set_t_rcvtime _ _).
  assert (Hq : quiet tp (snd (tcp_cc_set algo tp))).
  { unfold tcp_cc_set. destruct (cc_init algo) as [f |] eqn:E; [| apply quiet_refl].
    by apply quiet_cong, (law_init _ Hl). }
  assert (Hs : is_byte (req_rcv_scale tp)).
  { change (req_rcv_scale tp) with (tcp_pick_rcv_scale (Some so)). unfold tcp_pick_rcv_scale.
    pose proof (pick_scale_range (Z.to_nat TCP_MAX_WINSHIFT) 0 (bf_hiwat (so_rcv so)) ltac:(lia)).
    unfold TCP_MAX_WINSHIFT in *. unfold is_byte, is_u. lia. }
  split; [| by rewrite (q_state _ _ Hq)]. eapply quiet_ok; [exact Hq |]. constructor; try done.
  constructor; try done.
  - unfold bf_cc in *. lia.
  - constructor; [by constructor | done |]. split; constructor.
Qed.

Record new_so so : Prop := {
  ns_room : bf_cc (so_snd so) < 2 ^ 31 - 1;
  ns_bytes : bytes (bf_data (so_snd so));
  ns_ref : (if so_embryonic so then 1 else 0) <= so_refcount so < 2 ^ 31 - 1;
  ns_embryo : so_embryonic so = true -> so_listen_head so = true /\ so_queue so = Incomplete;
  ns_head : so_listen_head so = true -> so_embryonic so = true;
}.

Lemma new_so_held so : new_so so -> so_ok 0 (sock_hold so).
Proof.
  intros [H1 H2 H3 H4 H5]. constructor; [lia | | done | done]. unfold sock_hold. cbn.
  rewrite u32_small by (case_match; lia). case_match; lia.
Qed.

(** What [tcp_attach_pcb] gives: the new connection, or the table unchanged. *)
Definition attach_post (env : conn) (so : socket) (r : Z * conn) : Prop :=
  let '(err, child) := r in
  if err =? 0 then
    exists tp inp, inv (O:=TCPS_CLOSED) 0 child tp inp (sock_hold so) /\ t_state tp = TCPS_CLOSED /\ inhash inp = false /\
      (i_flags inp &? INPCB_DETACHED) = false /\
      replaced (c_table env) (c_table child) (c_inp child) inp /\
      t_pcbs (c_table env) !! c_inp child = None /\ c_alloc child = c_alloc env
  else table_wf (c_table child) /\ t_pcbs (c_table child) = t_pcbs (c_table env).

Lemma attach_pcb_spec algos p tcb_ok so_id domain so env : env_ok env -> cc_table_ok algos -> new_so so ->
  (forall q, p = Some q -> t_pcbs (c_table env) !! q = None) ->
  exists r, tcp_attach_pcb algos p tcb_ok so_id domain so env = Some r /\ attach_post env so r.
Proof.
  intros E Ha Hs Hp. unfold tcp_attach_pcb. destruct p as [p |].
  2:{ cbn. eexists. split; [done |]. cbn. split; [apply E | done]. }
  destruct (alloc_new (c_table env) p (Some (so_id, domain))) as (t1 & -> & R1); [apply E | by apply Hp |].
  rewrite option_bind_Some_fun. pose proof (replaced_lookup _ _ _ _ R1) as L1. set (i := fresh_pcb _) in *.
  assert (Hi : inhash i = false) by apply fresh_pcb_inhash.
  destruct tcb_ok; cbn [negb].
  - rewrite L1, option_bind_Some_fun.
    destruct (upd_pcb_keep t1 p i (with_ppcb 1)) as (t2 & -> & R2); try done; [apply R1 | |].
    { exact (wf_pcbs t1 (proj1 R1) p i L1). }
    rewrite option_bind_Some_fun. eexists. split; [reflexivity |]. cbn [attach_post Z.eqb].
    set (algo := tcp_cc_default algos). assert (Hl : cc_laws algo) by by apply default_laws.
    destruct (newtcpcb_ok (O:=TCPS_CLOSED) algo (i_flags i &? INPCB_IPV6) so (now_ms (c_ticks env) (c_hz env)) (with_ppcb 1 i) (rtc_refl _ _) Hl)
      as [T1 T2]; [apply Hs | apply Hs |].
    exists (tcp_newtcpcb algo (i_flags i &? INPCB_IPV6) (Some so) (now_ms (c_ticks env) (c_hz env))), (with_ppcb 1 i).
    split_and!; try done.
    + constructor; try done.
      * constructor; try done. by eapply replaced_lookup.
      * destruct E. constructor; try done. apply R2.
      * by apply new_so_held.
      * by eapply (tcp_ok_so (O:=TCPS_CLOSED)), T1.
    + unfold i, fresh_pcb. cbn [i_flags with_ppcb]. destruct domain as [d |]; [| done]. by destruct (d =? AF_INET6).
    + by eapply replaced_trans.
    + by apply Hp.
  - destruct (free_spec t1 p i (proj1 R1) L1) as (t2 & -> & W2 & E2). rewrite option_bind_Some_fun.
    eexists. split; [reflexivity |]. cbn. split; [done |]. rewrite E2, (proj2 R1), delete_insert_eq, delete_id; [done |].
    by apply Hp.
Qed.

Section embryo.
Context `{HFS : !FreshStorage} `{rt : route_layer} {O : origin}.

Lemma wp_output_table h s tp inp so (Q : Z -> conn -> Prop) : inv h s tp inp so ->
  (forall r s' tp', inv h s' tp' inp so -> c_table s' = c_table s -> Q r s') -> wp tcp_output Q s.
Proof.
  intros H HQ. eapply cwp_mono; [eapply output_spec; [by eapply inv_out_pre | apply H] |].
  intros r s' (tp' & new & [Hs Ho Hf _]). destruct H as [L E P S T]. apply (HQ _ _ tp').
  - constructor; [by eapply sent_state_live | by eapply sent_env | done | done | by eapply frame_tcp_ok].
  - by destruct Hs as [o ->].
Qed.

(** The three-way handshake's first step: from the new block to SYN_RECEIVED. *)
Lemma tcp_ok_embryo tp inp so isn : from_origin TCPS_SYN_RECEIVED -> tcp_ok tp inp so -> t_state tp = TCPS_CLOSED -> is_u 32 isn ->
  tcp_ok (set_state TCPS_SYN_RECEIVED (seqinit isn tp)) inp so.
Proof.
  intros Ho [T0 T1 T2 T3 T4] Es Hi. rewrite Es in T2, T4. destruct (T2 eq_refl) as [Hc Hf]. constructor; try done.
  by apply seqinit_out.
Qed.

Lemma embryo_start_spec h s tp inp so g : from_origin TCPS_SYN_RECEIVED -> inv h s tp inp so -> t_state tp = TCPS_CLOSED ->
  wp (embryo_start g) (fun _ s' => exists tp', inv h s' tp' inp so /\ c_table s' = c_table s) s.
Proof.
  intros Hf H Es. unfold embryo_start, tcp_state_change. wp_steps.
  eapply apply_syn_opts_spec; [done |]. intros tp1 H1 Q1. wp_steps.
  eapply wp_quiet; [exact H1 | apply quiet_init_rcv |]. set (tp2 := tcp_init_rcv _ tp1). intros H2.
  assert (E2 : t_state tp2 = TCPS_CLOSED) by (rewrite <- Es; apply Q1). clearbody tp2. wp_steps.
  eapply sendseqinit_spec; [apply H2 | apply H2 |]. intros isn Hi. wp_steps.
  pose proof (base_tp _ _ _ _ _ (seqinit isn tp2) (inv_base _ _ _ _ _ H2)) as B3.
  eapply wp_upd_tp; [apply B3 |]. set (tp3 := seqinit isn tp2) in *. set (tp4 := set_snd_wl1 _ _). wp_steps.
  eapply wp_upd_tp; [eapply live_tp, B3 |]. set (tp5 := set_state _ tp4). set (s5 := with_tp tp5 _).
  assert (H5 : inv h s5 tp5 inp so).
  { apply base_inv; [eapply base_tp, base_tp, B3 |].
    eapply quiet_ok; [| apply (tcp_ok_embryo tp2 inp so isn); [done | apply H2 | done | done]]. quiet_tac. }
  assert (Et : c_table s5 = c_table s) by done. clearbody s5 tp5. wp_steps.
  eapply wp_inv_timer; [exact H5 |]. intros tp6 _ H6. wp_steps.
  eapply wp_quiet; [exact H6 | apply quiet_acknow |]. intros H7. wp_steps.
  eapply wp_output_table; [exact H7 |]. intros r s8 tp8 H8 E8. wp_steps. exists tp8. split; [done |]. by rewrite E8.
Qed.

End embryo.

(** ** LISTEN *)

Section listen.
Context `{HFS : !FreshStorage} `{rt : route_layer} {O : origin}.

Lemma inv_table h s tp inp so t : inv h s tp inp so -> table_wf t -> t_pcbs t !! c_inp s = Some inp ->
  inv h (set_c_table t s) tp inp so.
Proof.
  intros [[] E P S T] Hw Hp. constructor; [by constructor | destruct E; by constructor | done..].
Qed.

(** What a segment for a listener comes with: addresses and ports of the
    network header, and an environment that follows its conventions. *)
Record from_ok (from : reply_to) : Prop := {
  fo_src : addr_ok (r_src from);
  fo_dst : addr_ok (r_dst from);
  fo_sport : is_u 16 (r_sport from);
  fo_dport : is_u 16 (r_dport from);
}.

Record listen_env_ok (e : listen_env) s : Prop := {
  lk_algos : cc_table_ok (le_algos e);
  lk_fresh : forall q, le_pcb e = Some q -> t_pcbs (c_table s) !! q = None;
}.

Lemma reply_reset_spec h s tp inp so from th len (Q : unit -> conn -> Prop) : inv h s tp inp so -> from_ok from ->
  (forall s', inv h s' tp inp so -> Q tt s') -> wp (tcp_reply_reset from th len) Q s.
Proof.
  intros H F HQ. unfold tcp_reply_reset. destruct (_ &? TH_RST); wp_steps; [auto |].
  destruct (_ &? TH_ACK); (eapply cwp_mono; [apply respond_with_spec; [done | apply F | apply F] |]);
    intros [] s' (o & new & ->); apply HQ; by apply inv_io.
Qed.

Lemma new_conn_ok full ok head so : sock_new_conn full ok head = Some so -> new_so so.
Proof. unfold sock_new_conn. destruct (_ || _); [done |]. intros [= <-]. constructor; try done. Qed.

Lemma input_listen_spec h s tp inp so e from g : inv h s tp inp so -> t_state tp = TCPS_LISTEN ->
  from_ok from -> listen_env_ok e s ->
  wp (tcp_input_listen e from g) (fun r s' => inv h s' tp inp so /\ forall child, r = Some child -> conn_ok (O:=TCPS_CLOSED) 0 child) s.
Proof.
  intros H Es F [Ea Ef]. pose proof (iv_live _ _ _ _ _ H) as L. unfold tcp_input_listen. cbv zeta.
  destruct (_ &? TH_RST); [by wp_steps |]. destruct (_ &? TH_ACK).
  { wp_steps. eapply reply_reset_spec; [done | done |]. intros s' H'. by wp_steps. }
  destruct (negb _); [by wp_steps |]. wp_steps.
  destruct (sock_new_conn _ _ _) as [nso |] eqn:En; [| by wp_steps]. wp_steps.
  destruct (attach_pcb_spec (le_algos e) (le_pcb e) (le_tcb_ok e) (le_so_id e) (le_domain e) nso (id s))
    as ([err child] & Eat & Hat); [apply H | done | by eapply new_conn_ok | done |].
  eapply wp_lift; [exact Eat |]. cbv beta iota. cbn [attach_post] in Hat. destruct (err =? 0); cbn [negb].
  2:{ wp_steps. destruct Hat as [W E]. split; [| done]. apply inv_table; [done | done |]. rewrite E. apply L. }
  destruct Hat as (tp1 & inp1 & H1 & Es1 & Hin & _ & R1 & Hn & Eal).
  change (id s) with s in *.
  assert (Hne : c_inp s <> c_inp child) by (intros Heq; rewrite <- Heq in Hn; by rewrite (lv_inp _ _ _ _ L) in Hn).
  wp_steps. destruct (wf_pcbs _ (ek_table _ (iv_env _ _ _ _ _ H)) _ _ (lv_inp _ _ _ _ L)) as (_ & _ & Hlp & _).
  destruct (listen_inpcb_spec (c_table child) (c_inp child) inp1 (r_dst from) (r_dport from) (r_src from) inp)
    as (t2 & i2 & E2 & R2 & Es2 & Ep2); try apply F; try done;
    [apply R1 | by eapply replaced_lookup | apply (tk_listen _ _ _ (iv_tcp _ _ _ _ _ H) Es) |].
  eapply wp_lift; [exact E2 |]. wp_steps. set (s2 := set_c_table t2 child).
  assert (H2 : inv (O:=TCPS_CLOSED) 0 s2 tp1 i2 (sock_hold nso)).
  { destruct H1 as [[] E1 P1 S1 T1]. constructor.
    - constructor; try done; [by eapply replaced_lookup | by rewrite Es2].
    - destruct E1. constructor; try done. apply R2.
    - by rewrite Ep2.
    - done.
    - destruct T1. constructor; try done. by rewrite Es1. }
  assert (Hor : from_origin (O:=TCPS_CLOSED) TCPS_SYN_RECEIVED).
  { eapply rtc_l; [apply edge_connect | apply rtc_once, edge_simultaneous]. }
  pose proof (embryo_start_spec (O:=TCPS_CLOSED) 0 s2 tp1 i2 (sock_hold nso) g Hor H2 Es1) as Hst.
  apply cwp_run in Hst as ([] & child2 & Erun & tp3 & H3 & Et3).
  eapply wp_lift; [exact Erun |]. cbv beta iota. wp_steps. split; [| intros c [= <-]; by eapply (inv_conn_ok (O:=TCPS_CLOSED))].
  rewrite Et3. change (c_table s2) with t2.
  assert (inv h (set_c_table t2 s) tp inp so) as [[] E4 P4 S4 T4].
  { apply inv_table; [done | apply R2 |]. rewrite (proj2 R2), lookup_insert_ne by done.
    rewrite (proj2 R1), lookup_insert_ne by done. apply L. }
  constructor; [by constructor | by eapply (env_ok_ext (set_c_table t2 s)) | done..].
Qed.

(** ** Any segment *)

Lemma input_spec h s tp inp so e from th opts payload : inv h s tp inp so -> from_ok from ->
  is_u 32 (th_ack th) -> listen_env_ok e s ->
  wp (tcp_input e from th opts payload)
    (fun r s' => left_ok h inp so s' /\ forall child, r = Some child -> conn_ok (O:=TCPS_CLOSED) 0 child) s.
Proof.
  intros H F Ha He. pose proof (iv_live _ _ _ _ _ H) as L. unfold tcp_input. wp_steps.
  destruct (dooptions_total (length opts) opts (th_flags th &? TH_SYN) (TcpOpts 0 0 0 0 0 [])) as (to & Eto & _);
    [done | done |].
  eapply wp_lift; [exact Eto |]. wp_steps. set (g := TcpSeg _ _ _ _ _).
  eapply wp_quiet; [done | quiet_tac |]. set (tp1 := set_keep_probes 0 _). intros H1. set (s1 := with_tp tp1 s) in *.
  assert (He1 : listen_env_ok e s1) by (by destruct He). assert (Es : t_state tp1 = t_state tp) by done.
  assert (Hsync : synced (t_state tp) -> wp (tcp_input_sync g ;! retM None)
    (fun r s' => left_ok h inp so s' /\ forall child : conn, r = Some child -> conn_ok (O:=TCPS_CLOSED) 0 child) s1).
  { intros Hst. wp_steps. eapply cwp_mono; [eapply input_sync_spec; [exact H1 | by rewrite Es | done] |].
    intros [] s2 H2. by wp_steps. }
  clearbody tp1 s1. unfold synced in Hsync.
  destruct (t_state tp) eqn:Et; try (apply Hsync; (by left) || (by right)).
  - wp_steps. eapply reply_reset_spec; [exact H1 | done |]. intros s2 H2. wp_steps. split; [by eapply inv_left | done].
  - eapply cwp_mono; [eapply input_listen_spec; [exact H1 | done | done | done] |]. intros r s2 [H2 H3].
    split; [by eapply inv_left | done].
  - wp_steps. eapply cwp_mono; [eapply input_syn_sent_spec; [exact H1 | done | done] |].
    intros [go g'] s2 H2. unfold syn_sent_post in H2. cbn [fst snd] in H2. destruct go; cbn [when]; wp_steps; [| by split].
    destruct H2 as [(tp2 & so2 & H2 & K2 & E2) Eg].
    eapply cwp_mono; [eapply input_sync_spec; [exact H2 | by right | by rewrite Eg] |].
    intros [] s3 H3. wp_steps. split; [by eapply left_keeps | done].
Qed.

End listen.
