(* ===== verification/TcpUsrreqFacts.v ===== *)
(** * The invariant through tcp_usrreq.c *)

From Stdlib Require Import ZArith Lia.
From stdpp Require Import base option gmap list.
From S2P Require Import Prelude Bytes Siphash Netbuf Inpcb InpcbFacts TcpVar TcpSack TcpOptions TcpReass.
From S2P Require Import TcpCc TcpConn TcpConnFacts TcpOutput TcpSegment TcpOutputFacts TcpSubr TcpInput.
From S2P Require Import TcpUsrreq TcpInvariant TcpSubrFacts TcpInputFacts.
Open Scope Z_scope.
Open Scope hermes_scope.

#[local] Opaque inpcb_hash inpcb_port_hash siphash24.

Implicit Types (tp : tcpcb) (so : socket) (inp : inpcb) (s : conn).

Section requests.
Context `{HFS : !FreshStorage} `{rt : route_layer} `{ip : ip_layer} (opts : Z -> Z) (rnd : Z) {O : origin}.

(** ** What a request finds *)

(** The control block of an open socket is in use, or was closed. *)
Record shut s inp so : Prop := {
  sh_dead : dead s;
  sh_env : env_ok s;
  sh_tcb : match c_tcb s with Draining n => 0 < n < 2 ^ 32 | _ => True end;
  sh_attached : attached s inp so;
  sh_ppcb : i_ppcb inp = 0;
  sh_so : so_ok 0 so;
}.

Lemma request_cases s : conn_ok 0 s -> open s ->
  (exists tp inp so, inv 0 s tp inp so /\ (i_flags inp &? INPCB_DETACHED) = false /\ so_embryonic so = false) \/
  (exists inp so, shut s inp so /\ (i_flags inp &? INPCB_DETACHED) = false /\ so_embryonic so = false).
Proof.
  intros [E C] (inp & so & A & Hd & He). pose proof A as [Ei Es Eo].
  assert (Hcl : closed_ok 0 s -> i_ppcb inp = 0 /\ so_ok 0 so).
  { unfold closed_ok. rewrite Ei. intros (P & so' & [_ _ Eo'] & S). split; [done |]. congruence. }
  destruct (c_tcb s) as [tp | n |] eqn:Et.
  - left. destruct C as (inp' & so' & H). pose proof (iv_live _ _ _ _ _ H) as [].
    assert (inp' = inp) as -> by congruence. assert (so' = so) as -> by congruence. by exists tp, inp, so.
  - right. exists inp, so. destruct C as [Hn C]. destruct (Hcl C). split; [| done].
    constructor; try done; [by intros tp; rewrite Et | by rewrite Et].
  - right. exists inp, so. destruct (Hcl C). split; [| done].
    constructor; try done; [by intros tp; rewrite Et | by rewrite Et].
Qed.

Lemma shut_ok s inp so : shut s inp so -> conn_ok 0 s.
Proof.
  intros [D E T A P S]. constructor; [done |].
  assert (Hc : closed_ok 0 s). { unfold closed_ok. rewrite (at_inp _ _ _ A). eauto. }
  destruct (c_tcb s) as [tp | n |] eqn:Et; [by destruct (D tp) | done | done].
Qed.

Lemma shut_settled s s' inp so : shut s' inp so -> (i_flags inp &? INPCB_DETACHED) = false ->
  so_embryonic so = false -> settled s s'.
Proof. intros H Hd He. split; [by eapply shut_ok |]. intros _. exists inp, so. split; [apply H | done]. Qed.

Lemma inv_settled s s' tp inp so : inv 0 s' tp inp so -> (i_flags inp &? INPCB_DETACHED) = false ->
  so_embryonic so = false -> settled s s'.
Proof.
  intros H Hd He. split; [by eapply inv_conn_ok |]. intros _. exists inp, so.
  split; [eapply live_attached, H | done].
Qed.

Lemma left_settled s s' inp so : left_ok 0 inp so s' -> (i_flags inp &? INPCB_DETACHED) = false ->
  so_embryonic so = false -> settled s s'.
Proof. intros [] Hd He. split; auto. Qed.

Lemma shut_so s inp so so' : shut s inp so -> so_ok 0 so' -> shut (with_so so' s) inp so'.
Proof. intros [D E T [] P S] S'. constructor; try done. by eapply (env_ok_ext s). Qed.

Lemma wp_tcpcb_live h s tp inp so (Q : option tcpcb -> conn -> Prop) : inv h s tp inp so -> Q (Some tp) s ->
  wp tcp_tcpcb Q s.
Proof.
  intros H HQ. pose proof (iv_live _ _ _ _ _ H) as L. unfold tcp_tcpcb. wp_steps.
  destruct (Z.eqb_spec (i_ppcb inp) 0); [by destruct (iv_ppcb _ _ _ _ _ H) |]. by wp_steps.
Qed.
Lemma wp_tcpcb_shut s inp so (Q : option tcpcb -> conn -> Prop) : shut s inp so -> Q None s -> wp tcp_tcpcb Q s.
Proof. intros [D E T A P S] HQ. unfold tcp_tcpcb. wp_steps. by rewrite P. Qed.

Lemma wp_self s inp so (Q : socket -> conn -> Prop) : attached s inp so -> Q so s -> wp self Q s.
Proof. intros A HQ. unfold self. wp_steps. by eapply wp_lift; [apply A |]. Qed.
Lemma wp_upd_self s inp so f (Q : unit -> conn -> Prop) : attached s inp so -> Q tt (with_so (f so) s) ->
  wp (upd_self f) Q s.
Proof. intros A HQ. unfold upd_self. wp_steps. eapply wp_self; [done |]. by wp_steps. Qed.

Lemma wp_inv_self h s tp inp so f (Q : unit -> conn -> Prop) : inv h s tp inp so -> so_ok h (f so) ->
  bf_data (so_snd (f so)) = bf_data (so_snd so) -> so_listen_head (f so) = so_listen_head so ->
  so_embryonic (f so) = so_embryonic so ->
  (inv h (with_so (f so) s) tp inp (f so) -> Q tt (with_so (f so) s)) -> wp (upd_self f) Q s.
Proof.
  intros H S E1 E2 E3 HQ. eapply wp_upd_self; [eapply live_attached, H |]. apply HQ.
  eapply inv_so; [done | | done]. apply (tcp_ok_so tp inp so); try done. apply H.
Qed.

Lemma usrclosed_output_spec h s tp inp so : inv h s tp inp so ->
  wp usrclosed_output (fun _ s' => left_ok h inp so s') s.
Proof.
  intros H. unfold usrclosed_output. wp_steps. eapply cwp_mono; [by eapply usrclosed_spec |].
  intros [] s1; [| by intros [? _]]. intros (tp1 & H1). cbn [when]. eapply wp_output_; [exact H1 |].
  intros. by eapply inv_left.
Qed.

(** ** Calls on the table *)

Record table_change s inp so s' inp' : Prop := {
  tc_table : exists t, s' = set_c_table t s;
  tc_attached : attached s' inp' so;
  tc_env : env_ok s';
  tc_owner : same_owner inp inp';
}.

Lemma table_changed s inp so t inp' : attached s inp so -> env_ok s -> table_wf t -> t_pcbs t !! c_inp s = Some inp' ->
  same_owner inp inp' -> table_change s inp so (set_c_table t s) inp'.
Proof.
  intros [Ei Es Eo] [] Hw Hp Ho. constructor; [by eexists | | by constructor | done].
  constructor; [done | by rewrite (so_socket _ _ Ho) | done].
Qed.

Lemma inv_change h s tp inp so s' inp' : inv h s tp inp so -> table_change s inp so s' inp' -> tcp_ok tp inp' so ->
  inv h s' tp inp' so.
Proof.
  intros [L E P S T] [[t ->] [] E' Ho] T'. constructor; try done.
  - constructor; try done. apply L.
  - by rewrite (so_ppcb _ _ Ho).
Qed.

Lemma shut_change s inp so s' inp' : shut s inp so -> table_change s inp so s' inp' -> shut s' inp' so.
Proof.
  intros [D E T A P S] [[t ->] A' E' Ho]. constructor; try done. by rewrite (so_ppcb _ _ Ho).
Qed.

Lemma bind_call s inp so addr len : attached s inp so -> env_ok s -> (forall a, addr = Some a -> sockaddr_buf a) ->
  wp (table_call (fun p t => inpcb_bind opts rnd p addr len t))
    (fun r s' => exists inp', table_change s inp so s' inp' /\ (i_lport inp <> 0 -> i_lport inp' = i_lport inp) /\
       (r = 0 -> i_lport inp' <> 0)) s.
Proof.
  intros A E Ha. unfold table_call. wp_steps.
  destruct (bind_spec opts rnd (c_table s) (c_inp s) inp addr len (ek_table _ E) (at_inp _ _ _ A) Ha)
    as (r & t' & Eb & HO).
  eapply wp_lift; [exact Eb |]. cbv beta iota. wp_steps.
  assert (Hsame : table_change s inp so (set_c_table (c_table s) s) inp).
  { apply table_changed; try done; [apply E | apply A]. }
  destruct HO as [(Hr & _ & ->) | (la & lp & Hl & _ & _ & _ & _ & [(-> & port & R & Hp & _) | (-> & HO)])].
  - exists inp. split_and!; [done | done | lia].
  - exists (hashed (with_lport port (with_laddr la inp))). split; [| done].
    apply table_changed; try done; [apply R | by eapply replaced_lookup |]. by eapply owner_trans, owner_hashed.
  - destruct (lp =? 0).
    + destruct HO as [R _]. exists (with_laddr in6addr_any inp). split; [| done].
      apply table_changed; try done; [apply R | by eapply replaced_lookup].
    + destruct HO as [-> _]. by exists inp.
Qed.

Lemma connect_call s inp so addr len : attached s inp so -> env_ok s -> sockaddr_buf addr ->
  wp (table_call (fun p t => inpcb_connect opts rnd p addr len t))
    (fun _ s' => exists inp', table_change s inp so s' inp') s.
Proof.
  intros A E Ha. unfold table_call. wp_steps.
  destruct (connect_spec opts rnd (c_table s) (c_inp s) inp addr len (ek_table _ E) (at_inp _ _ _ A) Ha)
    as (r & t' & i' & Eb & Hw & Hp & Ho).
  eapply wp_lift; [exact Eb |]. cbv beta iota. wp_steps. exists i'. by apply table_changed.
Qed.

(** ** Opening *)

Lemma tcp_ok_inp tp inp inp' so : tcp_ok tp inp so -> (t_state tp = TCPS_LISTEN -> i_lport inp' <> 0) -> tcp_ok tp inp' so.
Proof. by intros [] H. Qed.

Lemma bind_req s addr len : conn_ok 0 s -> open s -> (forall a, addr = Some a -> sockaddr_buf a) ->
  wp (tcp_bind opts rnd addr len) (fun _ s' => settled s s') s.
Proof.
  intros Hc Ho Ha. unfold tcp_bind.
  destruct (request_cases s Hc Ho) as [(tp & inp & so & H & Hd & He) | (inp & so & H & Hd & He)].
  - eapply cwp_mono; [eapply bind_call; [eapply live_attached, H | apply H | done] |].
    intros r s' (inp' & C & Hl & _). eapply inv_settled; [eapply inv_change; [exact H | exact C |] | | exact He].
    + eapply tcp_ok_inp; [apply H |]. intros Es. pose proof (tk_listen _ _ _ (iv_tcp _ _ _ _ _ H) Es). by rewrite Hl.
    + by rewrite (so_detached _ _ (tc_owner _ _ _ _ _ C)).
  - eapply cwp_mono; [eapply bind_call; [apply H | apply H | done] |].
    intros r s' (inp' & C & Hl & _). eapply shut_settled; [by eapply shut_change | | exact He].
    by rewrite (so_detached _ _ (tc_owner _ _ _ _ _ C)).
Qed.

Lemma tcp_ok_listen tp inp so : tcp_ok tp inp so -> t_state tp = TCPS_CLOSED \/ t_state tp = TCPS_LISTEN ->
  i_lport inp <> 0 -> tcp_ok (set_state TCPS_LISTEN tp) inp so.
Proof.
  intros [T0 [] T2 T3 T4] Hs Hl.
  assert (Ho : opening (t_state tp) = true) by (by destruct Hs as [-> | ->]). destruct (T2 Ho) as [Hc Hf].
  assert (Hfr : from_origin TCPS_LISTEN) by (destruct Hs as [E | E]; rewrite E in T0; eauto using from_step).
  constructor; tcp_simpl; try done; [| auto]. constructor; try done.
  eapply (sack_ok_max tp); try done. destruct oo_sack. tcp_simpl. lia.
Qed.

Lemma listen_req s : conn_ok 0 s -> open s -> wp (tcp_listen opts rnd) (fun _ s' => settled s s') s.
Proof.
  intros Hc Ho. unfold tcp_listen, tcp_state_change. wp_steps.
  destruct (request_cases s Hc Ho) as [(tp & inp & so & H & Hd & He) | (inp & so & H & Hd & He)].
  2:{ eapply wp_tcpcb_shut; [done |]. wp_steps. by eapply shut_settled. }
  eapply wp_tcpcb_live; [done |]. wp_steps. pose proof (iv_live _ _ _ _ _ H) as L.
  destruct (_ && _) eqn:Est; wp_steps; [by eapply inv_settled |].
  assert (Hst : t_state tp = TCPS_CLOSED \/ t_state tp = TCPS_LISTEN).
  { apply andb_false_iff in Est as [E | E]; apply negb_false_iff, bool_decide_eq_true in E; auto. }
  match goal with |- wp ?m ?Q ?st =>
    assert (Hm : wp m (fun r s' => exists inp', table_change s inp so s' inp' /\
      (t_state tp = TCPS_LISTEN -> i_lport inp' <> 0) /\ (r = 0 -> i_lport inp' <> 0)) st)
  end.
  { destruct (Z.eqb_spec (i_lport inp) 0) as [El | El].
    - eapply cwp_mono; [eapply bind_call; [eapply live_attached, H | apply H | done] |].
      intros r s' (inp' & C & _ & Hr). exists inp'. split_and!; try done.
      intros Es. by destruct (tk_listen _ _ _ (iv_tcp _ _ _ _ _ H) Es).
    - apply cwp_ret. exists inp. split; [| done]. constructor; try done; [| by eapply live_attached | apply H].
      exists (c_table s). by destruct s. }
  eapply cwp_mono; [exact Hm |]. intros r s1 (inp1 & C & Hl & Hr).
  assert (H1 : inv 0 s1 tp inp1 so) by (eapply inv_change; [exact H | exact C | by eapply tcp_ok_inp; [apply H |]]).
  assert (Hd1 : (i_flags inp1 &? INPCB_DETACHED) = false) by (by rewrite (so_detached _ _ (tc_owner _ _ _ _ _ C))).
  wp_steps. apply cwp_when; [intros Er%Z.eqb_eq | intros _; wp_steps; by eapply inv_settled].
  eapply wp_inv_tp; [exact H1 | apply tcp_ok_listen; [apply H1 | done | auto] |]. intros H2. wp_steps.
  by eapply inv_settled.
Qed.

Lemma tcp_ok_syn_sent tp inp so isn : tcp_ok tp inp so -> t_state tp = TCPS_CLOSED -> is_u 32 isn ->
  tcp_ok (set_state TCPS_SYN_SENT (seqinit isn tp)) inp so.
Proof.
  intros [T0 T1 T2 T3 T4] Es Hi. rewrite Es in T0, T2, T4. destruct (T2 eq_refl) as [Hc Hf]. constructor; try done; [by eapply from_step |].
  by apply seqinit_out.
Qed.

Lemma connect_req s addr len : conn_ok 0 s -> open s -> sockaddr_buf addr ->
  wp (tcp_connect opts rnd addr len) (fun _ s' => settled s s') s.
Proof.
  intros Hc Ho Ha. unfold tcp_connect, tcp_connect_locked, tcp_state_change. wp_steps.
  destruct (request_cases s Hc Ho) as [(tp & inp & so & H & Hd & He) | (inp & so & H & Hd & He)].
  2:{ eapply wp_tcpcb_shut; [done |]. wp_steps. by eapply shut_settled. }
  eapply wp_tcpcb_live; [done |]. case_bool_decide; [wp_steps; by eapply inv_settled |].
  destruct (bool_decide_reflect (t_state tp = TCPS_CLOSED)) as [Es | _]; cbn [negb]; wp_steps; [| by eapply inv_settled].
  eapply cwp_mono; [eapply connect_call; [eapply live_attached, H | apply H | done] |]. intros r s1 (inp1 & C).
  assert (H1 : inv 0 s1 tp inp1 so).
  { eapply inv_change; [exact H | exact C |]. eapply tcp_ok_inp; [apply H |]. by rewrite Es. }
  assert (Hd1 : (i_flags inp1 &? INPCB_DETACHED) = false) by (by rewrite (so_detached _ _ (tc_owner _ _ _ _ _ C))).
  destruct (negb (r =? 0)); wp_steps; [by eapply inv_settled |].
  eapply sendseqinit_spec; [apply H1 | apply H1 |]. intros isn Hi. wp_steps.
  pose proof (base_tp _ _ _ _ _ (seqinit isn tp) (inv_base _ _ _ _ _ H1)) as B2.
  eapply wp_upd_tp; [apply B2 |]. set (s3 := with_tp _ _).
  assert (H3 : inv 0 s3 (set_state TCPS_SYN_SENT (seqinit isn tp)) inp1 so).
  { apply base_inv; [eapply base_tp, B2 |]. by apply tcp_ok_syn_sent; [apply H1 | |]. }
  clearbody s3. wp_steps. eapply wp_inv_self; [exact H3 | by destruct (iv_so _ _ _ _ _ H3) | done | done | done |].
  intros H4. wp_steps. eapply wp_inv_timer; [exact H4 |]. intros tp5 _ H5. wp_steps.
  eapply wp_output_; [exact H5 |]. intros s6 tp6 H6 _. wp_steps. by eapply inv_settled.
Qed.

(** A buffer of [len] bytes. *)
Definition out_buf (buf : list Z) (len : Z) : Prop := 0 <= len <= Z.of_nat (length buf).

Lemma fill_sockaddr_spec inp addr port out len : length addr = 16%nat -> out_buf out len ->
  is_Some (inpcb_fill_sockaddr inp addr port out len).
Proof.
  intros Ha Hl. unfold inpcb_fill_sockaddr, out_buf in *.
  match goal with |- is_Some (mbind _ ?m) =>
    assert (Hss : exists ss n, m = Some (ss, n) /\ length ss = 128%nat /\ 0 <= n <= 28)
  end.
  { assert (Hun : length (inpcb_unmap_v4 addr) = 4%nat) by (unfold inpcb_unmap_v4; rewrite length_take, length_drop; lia).
    destruct (i_flags inp &? INPCB_IPV6).
    all: destruct (splice (replicate 128 0) 0 _) as [s1 |] eqn:E1; [| by rewrite splice_Some in E1 by (rewrite ?le_bytes_length, ?length_replicate; lia)].
    all: apply splice_length in E1; rewrite length_replicate in E1; rewrite option_bind_Some_fun.
    all: destruct (splice s1 2 _) as [s2 |] eqn:E2; [| by rewrite splice_Some in E2 by (rewrite ?le_bytes_length; lia)].
    all: apply splice_length in E2; rewrite option_bind_Some_fun.
    - destruct (splice s2 8 _) as [s3 |] eqn:E3; [| rewrite splice_Some in E3 by lia; done].
      apply splice_length in E3. rewrite option_bind_Some_fun. exists s3, 28. split_and!; try done; lia.
    - destruct (splice s2 4 _) as [s3 |] eqn:E3; [| rewrite splice_Some in E3 by lia; done].
      apply splice_length in E3. rewrite option_bind_Some_fun. exists s3, 16. split_and!; try done; lia. }
  destruct Hss as (ss & n & -> & Hss & Hn). rewrite option_bind_Some_fun. cbv iota.
  rewrite slice_Some by (destruct (Z.ltb_spec len n); lia). rewrite option_bind_Some_fun.
  rewrite splice_Some; [rewrite option_bind_Some_fun; eauto | lia |].
  rewrite length_take, length_drop. destruct (Z.ltb_spec len n); lia.
Qed.

Lemma accept_req s addr : conn_ok 0 s -> open s -> (forall buf len, addr = Some (buf, len) -> out_buf buf len) ->
  wp (tcp_accept addr) (fun _ s' => settled s s') s.
Proof.
  intros Hc Ho Ha. assert (Hs : settled s s) by done. unfold tcp_accept.
  destruct addr as [[buf len] |]; wp_steps; [| done]. destruct Ho as (inp & so & A & _).
  wp_steps. destruct (wf_pcbs _ (ek_table _ (ck_env _ _ Hc)) _ _ (at_inp _ _ _ A)) as (_ & [_ Hf] & _).
  unfold inpcb_pr_peeraddr, inpcb_pr_name, inpcb_get_peername. cbn [andb].
  destruct (i_fport inp =? 0); [by eapply wp_lift |].
  destruct (fill_sockaddr_spec inp (i_faddr inp) (i_fport inp) buf len) as [r Er]; [done | by apply Ha |].
  rewrite Er, option_bind_Some_fun. by eapply wp_lift.
Qed.

(** ** Data *)

Lemma tcp_ok_append tp inp so bs : tcp_ok tp inp so -> bf_cc (so_snd so) + Z.of_nat (length bs) < 2 ^ 31 - 1 ->
  tcp_ok tp inp (set_so_snd (bf_append bs (so_snd so)) so).
Proof.
  intros [T0 [] T2 T3 T4] Hl. constructor; try done. cbn [so_snd set_so_snd].
  assert (Ec : bf_cc (bf_append bs (so_snd so)) = bf_cc (so_snd so) + Z.of_nat (length bs)).
  { unfold bf_cc, bf_append. cbn [bf_data]. rewrite length_app. lia. }
  constructor; try done; [lia |]. unfold seq_bound in *. destruct (t_state tp); try done; lia.
Qed.

(** The data fits below the limit of the sequence space. *)
Definition send_ok (nb : list Z) s : Prop :=
  bytes nb /\ forall so, c_so s = Some so -> bf_cc (so_snd so) + Z.of_nat (length nb) < 2 ^ 31 - 1.

Lemma send_req s nb flags : conn_ok 0 s -> open s -> send_ok nb s ->
  wp (tcp_send nb flags) (fun _ s' => settled s s') s.
Proof.
  intros Hc Ho [Hb Hl]. assert (Hs : settled s s) by done. unfold tcp_send.
  destruct (flags &? MSG_OOB); wp_steps; [done |].
  destruct (request_cases s Hc Ho) as [(tp & inp & so & H & Hd & He) | (inp & so & H & Hd & He)].
  2:{ eapply wp_self; [apply H |]. wp_steps. eapply wp_tcpcb_shut; [done |]. by wp_steps. }
  eapply wp_self; [eapply live_attached, H |]. wp_steps. eapply wp_tcpcb_live; [done |].
  destruct (_ <? _); [by wp_steps |]. destruct (_ >? _); [by wp_steps |]. wp_steps.
  eapply wp_upd_self; [eapply live_attached, H |]. set (so1 := set_so_snd _ so).
  assert (H1 : inv 0 (with_so so1 s) tp inp so1).
  { eapply inv_so; [done | |].
    - apply tcp_ok_append; [apply H |]. apply Hl. apply (lv_so _ _ _ _ (iv_live _ _ _ _ _ H)).
    - destruct (iv_so _ _ _ _ _ H). constructor; try done. by apply bytes_app. }
  wp_steps. eapply wp_output_; [exact H1 |]. intros s2 tp2 H2 _. wp_steps. by eapply inv_settled.
Qed.

Lemma rcvd_req s : conn_ok 0 s -> open s -> wp tcp_rcvd (fun _ s' => settled s s') s.
Proof.
  intros Hc Ho. unfold tcp_rcvd. wp_steps.
  destruct (request_cases s Hc Ho) as [(tp & inp & so & H & Hd & He) | (inp & so & H & Hd & He)].
  2:{ eapply wp_tcpcb_shut; [done |]. by wp_steps. }
  eapply wp_tcpcb_live; [done |]. wp_steps. eapply wp_output_; [exact H |]. intros. wp_steps. by eapply inv_settled.
Qed.

(** ** Closing *)

Lemma shutdown_req s how : conn_ok 0 s -> open s -> wp (tcp_shutdown how) (fun _ s' => settled s s') s.
Proof.
  intros Hc Ho. unfold tcp_shutdown. destruct (how =? SHUT_RD); wp_steps; [done |].
  destruct (request_cases s Hc Ho) as [(tp & inp & so & H & Hd & He) | (inp & so & H & Hd & He)].
  - eapply wp_tcpcb_live; [done |]. wp_steps.
    eapply wp_inv_self; [exact H | by destruct (iv_so _ _ _ _ _ H) | done | done | done |]. intros H1. wp_steps.
    eapply cwp_mono; [by eapply usrclosed_output_spec |]. intros [] s' H2. wp_steps. by eapply left_settled.
  - eapply wp_tcpcb_shut; [done |]. wp_steps. eapply wp_upd_self; [apply H |]. wp_steps.
    eapply shut_settled; [eapply shut_so; [exact H |] | done | done]. by destruct (sh_so _ _ _ H).
Qed.

Lemma disconnect_tp_spec h s tp inp so : inv h s tp inp so ->
  wp tcp_disconnect_tp (fun _ s' => left_ok h inp so s') s.
Proof.
  intros H. pose proof (iv_live _ _ _ _ _ H) as L. unfold tcp_disconnect_tp. wp_steps.
  eapply wp_self; [by eapply live_attached |]. destruct (negb _); [eapply wp_close; [done | auto] |].
  destruct (so_linger so =? 0); [eapply wp_drop; [done | auto] |]. wp_steps.
  eapply wp_inv_self; [exact H | by destruct (iv_so _ _ _ _ _ H) | done | done | done |]. intros H1.
  eapply cwp_mono; [by eapply usrclosed_output_spec |]. intros [] s' H2. eapply left_keeps; [| exact H2]. by intros ?.
Qed.

Lemma disconnect_req s : conn_ok 0 s -> open s -> wp tcp_disconnect (fun _ s' => settled s s') s.
Proof.
  intros Hc Ho. unfold tcp_disconnect. wp_steps.
  destruct (request_cases s Hc Ho) as [(tp & inp & so & H & Hd & He) | (inp & so & H & Hd & He)].
  2:{ eapply wp_tcpcb_shut; [done |]. by wp_steps. }
  eapply wp_tcpcb_live; [done |]. wp_steps. eapply cwp_mono; [by eapply disconnect_tp_spec |].
  intros [] s' H2. wp_steps. by eapply left_settled.
Qed.

Lemma abort_req s : conn_ok 0 s -> open s -> wp tcp_abort (fun _ s' => settled s s') s.
Proof.
  intros Hc Ho. unfold tcp_abort. wp_steps.
  destruct (request_cases s Hc Ho) as [(tp & inp & so & H & Hd & He) | (inp & so & H & Hd & He)].
  2:{ eapply wp_tcpcb_shut; [done |]. by wp_steps. }
  eapply wp_tcpcb_live; [done |]. eapply wp_drop; [done |]. intros s' H2 _. by eapply left_settled.
Qed.

(** The last reference of the user: the connection goes on without. *)
Lemma detach_req s : conn_ok 0 s -> open s -> wp tcp_detach (fun _ s' => conn_ok 0 s') s.
Proof.
  intros Hc Ho. unfold tcp_detach. wp_steps. set (f := fun i => with_iflags _ i).
  assert (Hf : forall inp so, attached s inp so -> pcb_ok (f inp) /\ inhash (f inp) = inhash inp).
  { intros inp so A. assert (Hi : inhash (f inp) = inhash inp) by (by apply flag_lor_other). split; [| done].
    pose proof (wf_pcbs _ (ek_table _ (ck_env _ _ Hc)) _ _ (at_inp _ _ _ A)) as (? & ? & ? & ? & Hp).
    split_and!; try done. by rewrite Hi. }
  destruct (request_cases s Hc Ho) as [(tp & inp & so & H & Hd & He) | (inp & so & H & Hd & He)].
  - destruct (Hf inp so (live_attached _ _ _ _ (iv_live _ _ _ _ _ H))) as [Hf1 Hf2].
    eapply wp_upd_pcb; [eapply live_attached, H | apply H | done | done | reflexivity | reflexivity | reflexivity |].
    intros s1 t1 -> A1 E1.
    assert (H1 : inv 0 (set_c_table t1 s) tp (f inp) so).
    { destruct H as [[] E P S T]. destruct A1. constructor; try done. eapply tcp_ok_inp; [exact T | exact (tk_listen _ _ _ T)]. }
    wp_steps. eapply wp_tcpcb_live; [exact H1 |]. destruct (negb (TCPS_HAVEESTABLISHED _)).
    + eapply wp_close; [exact H1 |]. intros s2 H2 _. apply H2.
    + eapply cwp_mono; [by eapply usrclosed_output_spec |]. intros [] s2 H2. apply H2.
  - destruct (Hf inp so (sh_attached _ _ _ H)) as [Hf1 Hf2].
    eapply wp_upd_pcb; [apply H | apply H | done | done | reflexivity | reflexivity | reflexivity |].
    intros s1 t1 -> A1 E1. assert (H1 : shut (set_c_table t1 s) (f inp) so) by (by destruct H; constructor).
    wp_steps. eapply wp_tcpcb_shut; [exact H1 |]. destruct (sh_so _ _ _ H1) as [_ Hr _ _].
    rewrite He in Hr. eapply cwp_mono; [eapply (pcb_release_spec 0); [exact A1 | done | | lia | lia] |].
    + unfold tcb_gone. pose proof (sh_tcb _ _ _ H1). pose proof (sh_dead _ _ _ H1) as D.
      destruct (c_tcb (set_c_table t1 s)) as [tp | n |] eqn:Et; [by destruct (D tp) | right; eauto | by left].
    + by intros [] s' [? _].
Qed.

(** ** Options *)

Lemma ctloutput_int_spec optval optlen value set : out_buf optval optlen ->
  is_Some (tcp_ctloutput_int optval optlen value set).
Proof.
  intros Hb. unfold tcp_ctloutput_int, out_buf in *. destruct (Z.ltb_spec optlen 4); [done |]. destruct set.
  - rewrite slice_Some by lia. by rewrite option_bind_Some_fun.
  - rewrite splice_Some by (rewrite ?le_bytes_length; lia). by rewrite option_bind_Some_fun.
Qed.

Lemma ctloutput_req s level optname optval optlen set : conn_ok 0 s -> open s -> out_buf optval optlen ->
  wp (tcp_ctloutput level optname optval optlen set) (fun _ s' => settled s s') s.
Proof.
  intros Hc Ho Hb. assert (Hs : settled s s) by done. unfold tcp_ctloutput. destruct (negb _); wp_steps; [done |].
  destruct (request_cases s Hc Ho) as [(tp & inp & so & H & Hd & He) | (inp & so & H & Hd & He)].
  2:{ eapply wp_self; [apply H |]. wp_steps. eapply wp_tcpcb_shut; [done |]. by wp_steps. }
  eapply wp_self; [eapply live_attached, H |]. wp_steps. eapply wp_tcpcb_live; [done |].
  destruct (optname =? TCP_NODELAY).
  - wp_steps. destruct (ctloutput_int_spec optval optlen (if t_flags tp &? TF_NODELAY then 1 else 0) set Hb)
      as [[[[err value] ov] ol] E]. eapply wp_lift; [exact E |]. cbv beta iota. wp_steps.
    match goal with |- wp ?m ?Q ?st => assert (Hm : wp m (fun _ s' => exists tp', inv 0 s' tp' inp so) st) end.
    { apply cwp_when; intros _; [| by exists tp]. eapply wp_quiet; [done | | eauto].
      destruct (negb (value =? 0)); quiet_tac. }
    eapply cwp_mono; [exact Hm |]. intros [] s1 (tp1 & H1). wp_steps. apply cwp_when; intros _.
    + eapply wp_output_; [exact H1 |]. intros. wp_steps. by eapply inv_settled.
    + wp_steps. by eapply inv_settled.
  - destruct (optname =? TCP_MAXSEG); [| by wp_steps]. wp_steps.
    destruct (ctloutput_int_spec optval optlen (mss tp) set Hb) as [[[[err value] ov] ol] E].
    eapply wp_lift; [exact E |]. cbv beta iota. destruct (_ && _ && _); wp_steps; [done |]. apply cwp_when; intros _.
    + eapply wp_quiet; [done | quiet_tac |]. intros H1. wp_steps. by eapply inv_settled.
    + by wp_steps.
Qed.

(** ** Handlers that hold the connection *)

Lemma ctlinput_req s tp inp so error mtu : inv 0 s tp inp so ->
  wp (tcp_ctlinput error mtu) (fun _ s' => settled s s') s.
Proof.
  intros H. pose proof (iv_live _ _ _ _ _ H) as L. unfold tcp_ctlinput. wp_steps.
  rewrite bool_decide_true by apply L. cbn [when].
  assert (Hh : wp (upd_so sock_hold ;! let* a := tcp_ctlinput_locked error mtu in release_so ;! retM a)
    (fun _ s' => settled s s' /\ True) s).
  { eapply (held_spec s tp inp so); [done |]. intros s1 so1 H1 _.
    eapply cwp_mono; [by eapply ctlinput_locked_spec |]. by intros. }
  revert Hh. unfold wp, bindM, retM. destruct (upd_so sock_hold s) as [[[] s1] |]; [| done].
  destruct (tcp_ctlinput_locked error mtu s1) as [[[] s2] |]; [| done].
  destruct (release_so s2) as [[[] s3] |]; [| done]. by intros [? _].
Qed.

End requests.
