(* ===== verification/TcpEvents.v ===== *)
(** * What happens to a connection

    The events of a connection: segments, timers, error messages, and the
    requests of its socket.  [enabled] is what the callers guarantee: a request
    comes from an open socket, with buffers as long as it says; a timer handler
    only runs for a block that is not freed; a segment goes to a block in use.
    Between events the rest of the system runs: [world].  [reachable] collects
    the connections that come out of [tcp_attach] or of a listener. *)

From Stdlib Require Import ZArith Lia.
From stdpp Require Import base option gmap list relations.
From S2P Require Import Prelude Bytes Siphash Netbuf Inpcb InpcbFacts TcpVar TcpSack TcpOptions TcpReass.
From S2P Require Import TcpCc TcpConn TcpConnFacts TcpOutput TcpSegment TcpOutputFacts TcpSubr TcpInput.
From S2P Require Import TcpPacket TcpUsrreq TcpInvariant TcpSubrFacts TcpInputFacts TcpUsrreqFacts.
Open Scope Z_scope.
Open Scope hermes_scope.

#[local] Opaque inpcb_hash inpcb_port_hash siphash24.

Implicit Types (tp : tcpcb) (so : socket) (inp : inpcb) (s : conn).

Inductive event :=
| EvInput (e : listen_env) (from : reply_to) (th : tcp_header) (topts payload : list Z)
| EvTimer (w : tcp_timer_type)
| EvCtlInput (error mtu : Z)
| EvBind (addr : option (list Z)) (len : Z)
| EvListen
| EvConnect (addr : list Z) (len : Z)
| EvAccept (addr : option (list Z * Z))
| EvSend (nb : list Z) (flags : Z)
| EvRcvd
| EvShutdown (how : Z)
| EvDisconnect
| EvAbort
| EvDetach
| EvCtlOutput (level optname : Z) (optval : list Z) (optlen : Z) (set : bool).

Definition forget {A} (m : M A) : M (option conn) := let* _ := m in retM None.

(** The socket and the block found in it are alive. *)
Definition request (s : conn) : Prop := open s.

Definition enabled (ev : event) (s : conn) : Prop :=
  match ev with
  | EvInput e from th _ _ =>
      (exists tp, c_tcb s = Live tp) /\ from_ok from /\ is_u 32 (th_ack th) /\ listen_env_ok e s
  | EvTimer _ => c_tcb s <> Freed
  | EvCtlInput _ _ => exists tp, c_tcb s = Live tp
  | EvBind addr _ => request s /\ forall a, addr = Some a -> sockaddr_buf a
  | EvConnect addr _ => request s /\ sockaddr_buf addr
  | EvAccept addr => request s /\ forall buf len, addr = Some (buf, len) -> out_buf buf len
  | EvSend nb _ => request s /\ send_ok nb s
  | EvCtlOutput _ _ optval optlen _ => request s /\ out_buf optval optlen
  | EvListen | EvRcvd | EvShutdown _ | EvDisconnect | EvAbort | EvDetach => request s
  end.

(** Timers run out, time passes, memory comes and goes, other endpoints change
    in the table, the user reads and sets options. *)
Record so_world so so' : Prop := {
  sw_data : bf_data (so_snd so') = bf_data (so_snd so);
  sw_embryo : so_embryonic so' = so_embryonic so;
  sw_head : so_listen_head so' = so_listen_head so;
  sw_queue : so_queue so' = so_queue so;
  sw_ref : 1 + (if so_embryonic so then 1 else 0) <= so_refcount so' < 2 ^ 31;
}.

Record world s s' : Prop := {
  wd_cc : c_cc s' = c_cc s;
  wd_inp : c_inp s' = c_inp s;
  wd_key : c_isn_key s' = c_isn_key s;
  wd_tcb : match c_tcb s with
           | Live tp => exists tp', c_tcb s' = Live tp' /\ same_but_timers tp tp'
           | t => c_tcb s' = t
           end;
  wd_table : table_wf (c_table s');
  wd_pcb : t_pcbs (c_table s') !! c_inp s = t_pcbs (c_table s) !! c_inp s;
  wd_so : forall inp so, attached s inp so -> exists so', c_so s' = Some so' /\ so_world so so';
}.

Section events.
Context `{HFS : !FreshStorage} `{rt : route_layer} `{ip : ip_layer} (opts : Z -> Z) (rnd : Z).

Definition run_event (ev : event) : M (option conn) :=
  match ev with
  | EvInput e from th topts payload => tcp_deliver e from th topts payload
  | EvTimer w => forget (tcp_timer w)
  | EvCtlInput error mtu => forget (tcp_ctlinput error mtu)
  | EvBind addr len => forget (tcp_bind opts rnd addr len)
  | EvListen => forget (tcp_listen opts rnd)
  | EvConnect addr len => forget (tcp_connect opts rnd addr len)
  | EvAccept addr => forget (tcp_accept addr)
  | EvSend nb flags => forget (tcp_send nb flags)
  | EvRcvd => forget tcp_rcvd
  | EvShutdown how => forget (tcp_shutdown how)
  | EvDisconnect => forget tcp_disconnect
  | EvAbort => forget tcp_abort
  | EvDetach => forget tcp_detach
  | EvCtlOutput level optname optval optlen set => forget (tcp_ctloutput level optname optval optlen set)
  end.

Inductive reachable : conn -> Prop :=
| reach_attach algos p tcb_ok so_id domain so env s :
    env_ok env -> cc_table_ok algos -> new_so so ->
    (forall q, p = Some q -> t_pcbs (c_table env) !! q = None) ->
    tcp_attach algos p tcb_ok so_id domain so env = Some (0, s) -> reachable s
| reach_step s ev r s' : reachable s -> enabled ev s -> run_event ev s = Some (r, s') -> reachable s'
| reach_child s ev c s' : reachable s -> enabled ev s -> run_event ev s = Some (Some c, s') -> reachable c
| reach_world s s' : reachable s -> world s s' -> reachable s'.

(** ** The invariant holds *)

Definition state_of s : tcp_state := match c_tcb s with Live tp => t_state tp | _ => TCPS_CLOSED end.

(** The invariant with the present state as the origin of the next event. *)
Definition wf s : Prop := conn_ok (O:=state_of s) 0 s.

Lemma conn_ok_restart {O : origin} s : conn_ok (O:=O) 0 s -> wf s.
Proof.
  intros [E C]. constructor; [done |]. unfold state_of. destruct (c_tcb s) as [tp | n |]; try done.
  destruct C as (inp & so & [L E' P S [T0 T1 T2 T3 T4]]). exists inp, so. constructor; try done.
  constructor; try done. apply rtc_refl.
Qed.

Lemma conn_ok_from {O : origin} s tp : conn_ok (O:=O) 0 s -> c_tcb s = Live tp -> rtc tcp_edge first_state (t_state tp).
Proof.
  intros [E C] Et. rewrite Et in C. destruct C as (inp & so & [L E' P S T]). apply T.
Qed.

Lemma wf_live s tp : wf s -> c_tcb s = Live tp -> exists inp so, inv (O:=state_of s) 0 s tp inp so.
Proof. intros [E C] Et. by rewrite Et in C. Qed.

(** What an event leaves. *)
Record event_post (ev : event) s (r : option conn) s' : Prop := {
  ep_ok : conn_ok (O:=state_of s) 0 s';
  ep_open : ev <> EvDetach -> open s -> open s';
  ep_child : forall c, r = Some c -> wf c;
}.

Lemma wp_forget {A} (m : M A) (Q : option conn -> conn -> Prop) s :
  wp m (fun _ s' => Q None s') s -> wp (forget m) Q s.
Proof. intros H. unfold forget. wp_steps. eapply cwp_mono; [exact H |]. intros. by wp_steps. Qed.

Lemma settled_post ev s s' : settled (O:=state_of s) s s' -> event_post ev s None s'.
Proof. intros [H1 H2]. by constructor. Qed.

Lemma deliver_spec s tp inp so e from th topts payload : inv (O:=state_of s) 0 s tp inp so -> from_ok from ->
  is_u 32 (th_ack th) -> listen_env_ok e s ->
  wp (tcp_deliver e from th topts payload)
    (fun r s' => settled (O:=state_of s) s s' /\ forall c, r = Some c -> wf c) s.
Proof.
  intros H F Ha He. pose proof (iv_live _ _ _ _ _ H) as L. unfold tcp_deliver.
  apply cwp_bind. eapply wp_get_inp; [by eapply live_attached |]. cbv zeta. rewrite bool_decide_true by apply L. cbn [when].
  apply (held_spec (O:=state_of s) s tp inp so (tcp_input e from th topts payload) (fun r => forall c, r = Some c -> wf c));
    [done |].
  intros s1 so1 H1 ->. eapply cwp_mono; [eapply (input_spec (O:=state_of s)); [exact H1 | done | done | by destruct He] |].
  intros r s2 [H2 H3]. split; [done |]. intros c Hc. by eapply conn_ok_restart, H3.
Qed.

Lemma event_spec ev s : wf s -> enabled ev s -> wp (run_event ev) (event_post ev s) s.
Proof.
  intros Hw He. assert (Hs : forall (m : M Z), wp m (fun _ s' => settled (O:=state_of s) s s') s ->
    wp (forget m) (event_post ev s) s).
  { intros m Hm. apply wp_forget. eapply cwp_mono; [exact Hm |]. intros ? s'. apply settled_post. }
  assert (Hu : forall (m : M unit), wp m (fun _ s' => settled (O:=state_of s) s s') s ->
    wp (forget m) (event_post ev s) s).
  { intros m Hm. apply wp_forget. eapply cwp_mono; [exact Hm |]. intros ? s'. apply settled_post. }
  destruct ev; cbn [run_event enabled] in *; unfold request in *.
  - destruct He as ([tp Et] & F & Ha & Hl). destruct (wf_live s tp Hw Et) as (inp & so & H).
    eapply cwp_mono; [by eapply deliver_spec |]. intros r s' [[H1 H2] H3]. by constructor.
  - apply Hu. by apply timer_spec.
  - destruct He as [tp Et]. destruct (wf_live s tp Hw Et) as (inp & so & H). apply Hu. by eapply ctlinput_req.
  - destruct He. apply Hs. by apply bind_req.
  - apply Hs. by apply listen_req.
  - destruct He. apply Hs. by apply connect_req.
  - destruct He. apply wp_forget. eapply cwp_mono; [by apply (accept_req (O:=state_of s)) |]. intros ? s'. apply settled_post.
  - destruct He. apply Hs. by apply send_req.
  - apply Hs. by apply rcvd_req.
  - apply Hs. by apply shutdown_req.
  - apply Hs. by apply disconnect_req.
  - apply Hu. by apply abort_req.
  - apply wp_forget. eapply cwp_mono; [by apply (detach_req (O:=state_of s)) |]. intros ? s' H. by constructor.
  - destruct He. apply wp_forget. eapply cwp_mono; [by apply (ctloutput_req (O:=state_of s)) |].
    intros ? s'. apply settled_post.
Qed.

Lemma attach_wf algos p tcb_ok so_id domain so env s : env_ok env -> cc_table_ok algos -> new_so so ->
  (forall q, p = Some q -> t_pcbs (c_table env) !! q = None) ->
  tcp_attach algos p tcb_ok so_id domain so env = Some (0, s) -> wf s.
Proof.
  intros E Ha Hn Hp H. destruct (attach_pcb_spec algos p tcb_ok so_id domain so env E Ha Hn Hp) as (r & Er & Hr).
  unfold tcp_attach in H. rewrite Er in H. injection H as ->. cbn in Hr. destruct Hr as (tp & inp & H & _).
  by eapply (conn_ok_restart (O:=TCPS_CLOSED)), inv_conn_ok.
Qed.

Lemma so_world_ok so so' : so_world so so' -> so_ok 0 so -> so_ok 0 so'.
Proof.
  intros [W1 W2 W3 W4 W5] [H1 H2 H3 H4]. constructor; [lia | rewrite W2; lia | by rewrite W2, W3, W4 | by rewrite W1].
Qed.

Lemma world_env s s' : world s s' -> env_ok s -> env_ok s'.
Proof. intros [] []. constructor; [done | by rewrite wd_cc0 | by rewrite wd_key0]. Qed.

Lemma world_attached s s' inp so : world s s' -> attached s inp so -> exists so', attached s' inp so' /\ so_world so so'.
Proof.
  intros W A. destruct (wd_so _ _ W _ _ A) as (so' & E & S). exists so'. split; [| done]. destruct W, A.
  constructor; [by rewrite wd_inp0, wd_pcb0 | done | done].
Qed.

Lemma world_inv {O : origin} s s' tp inp so : world s s' -> inv 0 s tp inp so ->
  exists tp' so', inv 0 s' tp' inp so' /\ c_tcb s' = Live tp'.
Proof.
  intros W H. pose proof H as [L E P S T]. pose proof (wd_tcb _ _ W) as Ht. rewrite (lv_tcb _ _ _ _ L) in Ht.
  destruct Ht as (tp' & Et & Hq). destruct (world_attached s s' inp so W (live_attached _ _ _ _ L)) as (so' & A & Sw).
  exists tp', so'. split; [| done]. pose proof A as [A1 A2 A3]. constructor; try done.
  - by eapply world_env.
  - by eapply so_world_ok.
  - eapply (tcp_ok_so tp' inp so); try apply Sw. by eapply same_timers_ok.
Qed.

Lemma world_wf s s' : world s s' -> wf s -> wf s'.
Proof.
  intros W H. apply (conn_ok_restart (O:=state_of s)). pose proof H as [E C]. pose proof (wd_tcb _ _ W) as Ht.
  constructor; [by eapply world_env |].
  assert (Hc : closed_ok 0 s -> closed_ok 0 s').
  { unfold closed_ok. rewrite (wd_inp _ _ W), (wd_pcb _ _ W). destruct (t_pcbs (c_table s) !! c_inp s) as [inp |];
      [| intros _; split; [lia | by left]].
    intros (P & so & A & S). destruct (world_attached s s' inp so W A) as (so' & A' & Sw). split; [done |].
    exists so'. split; [done | by eapply so_world_ok]. }
  destruct (c_tcb s) as [tp | n |] eqn:Et.
  - destruct C as (inp & so & Hi). destruct (world_inv s s' tp inp so W Hi) as (tp' & so' & H' & ->). eauto.
  - rewrite Ht. destruct C. auto.
  - rewrite Ht. auto.
Qed.

Lemma reachable_conn_wf s : reachable s -> wf s.
Proof.
  induction 1 as [algos p tcb_ok so_id domain so env s E Ha Hn Hp H | s ev r s' _ IH He H | s ev c s' _ IH He H | s s' _ IH W].
  - by eapply attach_wf.
  - pose proof (event_spec ev s IH He) as Hp. unfold wp in Hp. rewrite H in Hp. eapply conn_ok_restart, Hp.
  - pose proof (event_spec ev s IH He) as Hp. unfold wp in Hp. rewrite H in Hp. by apply Hp.
  - by eapply world_wf.
Qed.

End events.
