(* ===== verification/TcpTheorems.v ===== *)
(** * The properties of TCP

    About every connection that [tcp_attach] or a listener gives, after any
    sequence of events, whatever the memory allocator answers. *)

From Stdlib Require Import ZArith Lia.
From stdpp Require Import base option gmap list relations.
From S2P Require Import Prelude Bytes Siphash Netbuf NetbufFacts NetbufTheorems Inpcb InpcbFacts.
From S2P Require Import InpcbTheorems TcpVar TcpSack TcpOptions TcpReass TcpCc TcpConn TcpConnFacts.
From S2P Require Import TcpOutput TcpSegment TcpOutputFacts TcpSubr TcpInput TcpPacket TcpWire TcpUsrreq.
From S2P Require Import TcpInvariant TcpSubrFacts TcpInputFacts TcpUsrreqFacts TcpEvents.
Open Scope Z_scope.
Open Scope hermes_scope.

#[local] Opaque inpcb_hash inpcb_port_hash siphash24.

Section properties.
Context `{HFS : !FreshStorage} `{rt : route_layer} `{ip : ip_layer} (opts : Z -> Z) (rnd : Z).

(** C1: no event faults: from every reachable connection, each event its callers
    may raise runs to its end without touching freed or missing memory and
    without an endless loop, and leaves a reachable connection, so that the next
    one can be raised; a connection a listener creates is reachable too.  Only
    [tcp_detach] takes an open socket from its user. *)
Theorem tcp_events_never_fault s ev : reachable opts rnd s -> enabled ev s ->
  exists r s', run_event opts rnd ev s = Some (r, s') /\ reachable opts rnd s' /\
    (forall c, r = Some c -> reachable opts rnd c) /\ (ev <> EvDetach -> open s -> open s').
Proof.
  intros Hr He. pose proof (event_spec opts rnd ev s (reachable_conn_wf opts rnd s Hr) He) as Hp.
  apply cwp_run in Hp as (r & s' & E & [P1 P2 P3]). exists r, s'. split; [exact E |].
  split; [by eapply reach_step |]. split; [| done]. intros c ->. by eapply reach_child.
Qed.

(** C5: a connection only moves along the edges of the state diagram of RFC 793:
    whatever the event, the state after it is reached from the state before it
    by transitions of the diagram. *)
Theorem tcp_follows_rfc793 s ev r s' tp tp' : reachable opts rnd s -> enabled ev s ->
  run_event opts rnd ev s = Some (r, s') -> c_tcb s = Live tp -> c_tcb s' = Live tp' ->
  rtc tcp_edge (t_state tp) (t_state tp').
Proof.
  intros Hr He E Et Et'. pose proof (event_spec opts rnd ev s (reachable_conn_wf opts rnd s Hr) He) as Hp.
  unfold wp in Hp. rewrite E in Hp. pose proof (conn_ok_from s' tp' (ep_ok _ _ _ _ Hp) Et') as H.
  unfold first_state, state_of in H. by rewrite Et in H.
Qed.


(** C7: [tcp_output] returns, with as many segments as it has reason to send:
    its loop needs no more rounds than its bound.  Each segment has at most 40
    bytes of options, padded to words, and at most [TCP_MAX_PAYLOAD] bytes of
    data, its checksum is set, and unless it is a reset its data are the bytes
    of the send buffer its sequence number stands for. *)
Theorem tcp_output_returns s tp inp so : reachable opts rnd s -> live s tp inp so ->
  exists r s' new, tcp_output s = Some (r, s') /\ c_out s' = c_out s ++ new /\
    Forall (segment_of inp so (snd_una tp)) new /\
    exists tp', c_tcb s' = Live tp' /\ t_state tp' = t_state tp /\ snd_una tp' = snd_una tp /\
      rel (snd_una tp) (snd_max tp) <= rel (snd_una tp) (snd_max tp').
Proof.
  intros Hr L. destruct (wf_live s tp (reachable_conn_wf opts rnd s Hr) (lv_tcb _ _ _ _ L)) as (inp' & so' & H).
  assert (inp' = inp) as -> by (destruct L, (iv_live _ _ _ _ _ H); congruence).
  assert (so' = so) as -> by (destruct L, (iv_live _ _ _ _ _ H); congruence).
  pose proof (output_spec s tp inp so (inv_out_pre _ _ _ _ _ H) (ek_cc _ (iv_env _ _ _ _ _ H))) as Hp.
  apply cwp_run in Hp as (r & s' & E & tp' & new & [[o ->] _ F Hn]).
  exists r, (set_c_alloc o (set_c_out (c_out s ++ new) (with_tp tp' s))), new. split_and!; try done.
  exists tp'. split_and!; try done; apply F.
Qed.

End properties.

(** ** A socket on a host with one address, for the examples *)

#[local] Existing Instance demo_storage.
#[local] Existing Instance demo_ip.
#[local] Instance demo_route : route_layer := {| route_mtu4 _ := Some 1500; route_mtu6 _ := None |}.

Definition demo_env : conn :=
  Conn Freed tcp_cc_newreno inpcb_table_init 0 None [] 1000 100 [true; true; true] (replicate 16 7).
Definition demo_conn : conn :=
  default demo_env (snd <$> tcp_attach [Some tcp_cc_newreno] (Some 0x100) true 1 (Some AF_INET) sock_alloc demo_env).
Abbreviation any_opts := (fun _ : Z => 0).

Lemma demo_conn_reachable : reachable any_opts 5 demo_conn.
Proof.
  apply (reach_attach any_opts 5 [Some tcp_cc_newreno] (Some 0x100) true 1 (Some AF_INET) sock_alloc demo_env).
  - constructor; [apply init_wf | apply newreno_laws | split; [done | by apply bytes_check]].
  - intros a Ha. apply list_elem_of_singleton in Ha as [= ->]. apply newreno_laws.
  - constructor; try done.
  - by intros q [= <-].
  - unfold demo_conn. assert (H : fst <$> tcp_attach [Some tcp_cc_newreno] (Some 0x100) true 1 (Some AF_INET)
      sock_alloc demo_env = Some 0) by (vm_compute; reflexivity).
    destruct (tcp_attach _ _ _ _ _ _ _) as [[e s] |]; [| discriminate]. injection H as ->. reflexivity.
Qed.

Definition demo_tcpcb : tcpcb :=
  tcp_newtcpcb tcp_cc_newreno false (Some sock_alloc) 10000.
Definition demo_inpcb : inpcb := with_ppcb 1 (fresh_pcb (Some (1, Some AF_INET))).
Definition demo_socket : socket := sock_hold sock_alloc.

Lemma demo_live : live demo_conn demo_tcpcb demo_inpcb demo_socket.
Proof. constructor; vm_compute; eauto. Qed.

Lemma demo_open : open demo_conn.
Proof. exists demo_inpcb, demo_socket. split; [eapply live_attached, demo_live | done]. Qed.

Lemma tcp_events_never_fault_witness : exists r s', run_event any_opts 5 EvListen demo_conn = Some (r, s') /\
  reachable any_opts 5 s' /\ open s'.
Proof.
  destruct (tcp_events_never_fault any_opts 5 demo_conn EvListen demo_conn_reachable demo_open) as (r & s' & E & R & _ & Ho).
  exists r, s'. split; [exact E |]. split; [exact R |]. apply Ho; [discriminate | exact demo_open].
Defined.

(** The socket after [connect] to 10.0.0.9:443. *)
Definition demo_connect : event := EvConnect (demo_sockaddr [10; 0; 0; 9] 443) 16.

Lemma demo_connect_enabled : enabled demo_connect demo_conn.
Proof. split; [exact demo_open |]. by apply demo_sockaddr_ok; [apply bytes_check |]. Qed.

Definition seen_state (o : option (option conn * conn)) : option tcp_state :=
  match o with
  | Some (_, s) => match c_tcb s with Live tp => Some (t_state tp) | _ => None end
  | None => None
  end.

Lemma tcp_follows_rfc793_witness : exists r s' tp', run_event any_opts 5 demo_connect demo_conn = Some (r, s') /\
  c_tcb s' = Live tp' /\ t_state tp' = TCPS_SYN_SENT /\ rtc tcp_edge TCPS_CLOSED TCPS_SYN_SENT.
Proof.
  assert (H : seen_state (run_event any_opts 5 demo_connect demo_conn) = Some TCPS_SYN_SENT) by (vm_compute; reflexivity).
  destruct (run_event any_opts 5 demo_connect demo_conn) as [[r s'] |] eqn:E; [| discriminate].
  cbn in H. destruct (c_tcb s') as [tp' | n |] eqn:Et; [| discriminate..]. injection H as Es.
  exists r, s', tp'. split; [done |]. split; [done |]. split; [exact Es |].
  pose proof (tcp_follows_rfc793 any_opts 5 demo_conn demo_connect r s' demo_tcpcb tp' demo_conn_reachable
    demo_connect_enabled E (lv_tcb _ _ _ _ demo_live) Et) as H. by rewrite Es in H.
Defined.


Lemma tcp_output_returns_witness : exists r s' new, tcp_output demo_conn = Some (r, s') /\
  c_out s' = c_out demo_conn ++ new.
Proof.
  destruct (tcp_output_returns any_opts 5 demo_conn demo_tcpcb demo_inpcb demo_socket demo_conn_reachable demo_live)
    as (r & s' & new & E & En & _).
  exists r, s', new. split; [exact E | exact En].
Defined.

(** ** Segments on the wire *)





(** ** Acknowledged data *)

(** The data bytes among [acked] acknowledged sequence numbers: not the SYN,
    which [snd_una = iss] says is among them, nor the FIN. *)
Definition data_acked (tp : tcpcb) (ack acked : Z) : Z :=
  acked - (if snd_una tp =? iss tp then 1 else 0)
        - (if (t_flags tp &? TF_SENTFIN) && (ack =? snd_max tp) then 1 else 0).

Lemma acked_data_cases (tp : tcpcb) ack acked : is_u 32 (snd_una tp) -> is_u 32 (iss tp) -> is_u 32 acked ->
  0 <= data_acked tp ack acked ->
  (rel (iss tp) (snd_una tp) < 2 ^ 31 -> acked_data tp ack acked = data_acked tp ack acked) /\
  (2 ^ 31 <= rel (iss tp) (snd_una tp) -> 1 <= data_acked tp ack acked ->
   acked_data tp ack acked = data_acked tp ack acked - 1).
Proof.
  intros Hu Hi Ha Hn. unfold acked_data, data_acked in *. pose proof (rel_range (iss tp) (snd_una tp)) as Hr.
  assert (Heq : snd_una tp = iss tp <-> rel (iss tp) (snd_una tp) = 0).
  { split; [intros ->; apply rel_refl |]. intros E. eapply (rel_inj (iss tp)); [done | done |]. by rewrite rel_refl. }
  assert (Hs : SEQ_LEQ (snd_una tp) (iss tp) = (rel (iss tp) (snd_una tp) =? 0) || (2 ^ 31 <=? rel (iss tp) (snd_una tp))).
  { unfold SEQ_LEQ, s32. change (u32 (snd_una tp - iss tp)) with (rel (iss tp) (snd_una tp)). cbv zeta.
    set (x := rel (iss tp) (snd_una tp)) in *. clearbody x.
    destruct (Z.ltb_spec x (2 ^ 31)), (Z.leb_spec (2 ^ 31) x), (Z.eqb_spec x 0); cbn [orb]; try lia;
      (apply Z.leb_le || apply Z.leb_gt); lia. }
  unfold is_u in Ha. rewrite Hs. clear Hs.
  assert (U1 : 1 <= acked -> u32 (acked - 1) = acked - 1) by (intros; apply u32_small; lia).
  assert (U2 : 2 <= acked -> u32 (acked - 1 - 1) = acked - 1 - 1) by (intros; apply u32_small; lia).
  set (x := rel (iss tp) (snd_una tp)) in *. clearbody x.
  destruct (Z.eqb_spec (snd_una tp) (iss tp)) as [E | E], (_ && (ack =? _)), (Z.eqb_spec x 0), (Z.leb_spec (2 ^ 31) x);
    cbn [orb]; split; intros; try (apply Heq in E); try (destruct E; by apply Heq); try lia;
    rewrite ?U1 by lia; rewrite ?U2 by lia; lia.
Qed.

(** C40: [tcp_drop_acked_data] takes the acknowledged bytes from the send buffer,
    and no others, as long as fewer than 2^31 sequence numbers were acknowledged
    since the SYN.  Once there were more, the comparison of [snd_una] with [iss]
    that looks for the SYN is true for every acknowledgement, and each one
    leaves a byte too many in the buffer: from then on the buffer no longer
    starts with the byte of [snd_una]. *)
Theorem tcp_acked_data_dropped s tp inp so ack acked : live s tp inp so -> is_u 32 (snd_una tp) -> is_u 32 (iss tp) ->
  is_u 32 acked -> 0 <= data_acked tp ack acked <= bf_cc (so_snd so) ->
  exists s' so', tcp_drop_acked_data ack acked s = Some (tt, s') /\ c_so s' = Some so' /\
    (rel (iss tp) (snd_una tp) < 2 ^ 31 ->
     bf_data (so_snd so') = drop (Z.to_nat (data_acked tp ack acked)) (bf_data (so_snd so))) /\
    (2 ^ 31 <= rel (iss tp) (snd_una tp) -> 1 <= data_acked tp ack acked ->
     bf_data (so_snd so') = drop (Z.to_nat (data_acked tp ack acked - 1)) (bf_data (so_snd so))).
Proof.
  intros L Hu Hi Ha Hn. destruct (acked_data_cases tp ack acked Hu Hi Ha (proj1 Hn)) as [H1 H2].
  assert (Hd : 0 <= acked_data tp ack acked).
  { unfold acked_data. destruct (_ && _); [apply u32_range |]. case_match; [apply u32_range | apply Ha]. }
  assert (Hrun : wp (tcp_drop_acked_data ack acked) (fun _ s' => exists so', c_so s' = Some so' /\
    (acked_data tp ack acked <= bf_cc (so_snd so) ->
     bf_data (so_snd so') = drop (Z.to_nat (acked_data tp ack acked)) (bf_data (so_snd so)))) s).
  { unfold tcp_drop_acked_data. wp_steps. fold (acked_data tp ack acked). apply cwp_when.
    - intros _. eapply wp_upd_so; [by eapply live_attached |]. eexists. split; [done |]. intros Hle. cbn.
      destruct (Z.ltb_spec (acked_data tp ack acked) (bf_cc (so_snd so))); [done |]. do 2 f_equal. lia.
    - intros E%negb_false_iff%Z.eqb_eq. exists so. split; [apply L |]. by rewrite E. }
  apply cwp_run in Hrun as ([] & s' & E & so' & Es & Hdrop). exists s', so'. split_and!; try done.
  - intros Hlt. rewrite <- H1 by done. apply Hdrop. rewrite H1 by done. lia.
  - intros Hge Hpos. rewrite <- H2 by done. apply Hdrop. rewrite H2 by done. lia.
Qed.

(** Two connections with ten bytes in flight, one at the start of the stream and
    one after 2^31 bytes: the peer acknowledges four. *)
Definition demo_sender (una : Z) : conn :=
  with_so (set_so_snd (Sbuf [1; 2; 3; 4; 5; 6; 7; 8; 9; 10] 65536 0) demo_socket)
    (with_tp (set_state TCPS_ESTABLISHED (set_snd_max (una + 10) (set_snd_una una demo_tcpcb))) demo_conn).

Lemma tcp_acked_data_dropped_witness :
  (exists s' so', tcp_drop_acked_data 5 4 (demo_sender 1) = Some (tt, s') /\ c_so s' = Some so' /\
     bf_data (so_snd so') = [5; 6; 7; 8; 9; 10]) /\
  (exists s' so', tcp_drop_acked_data (2 ^ 31 + 5) 4 (demo_sender (2 ^ 31 + 1)) = Some (tt, s') /\ c_so s' = Some so' /\
     bf_data (so_snd so') = [4; 5; 6; 7; 8; 9; 10]).
Proof.
  assert (L : forall una, live (demo_sender una)
    (set_state TCPS_ESTABLISHED (set_snd_max (una + 10) (set_snd_una una demo_tcpcb))) demo_inpcb
    (set_so_snd (Sbuf [1; 2; 3; 4; 5; 6; 7; 8; 9; 10] 65536 0) demo_socket)).
  { intros una. eapply live_so, live_tp, demo_live. }
  split.
  - destruct (tcp_acked_data_dropped _ _ _ _ 5 4 (L 1)) as (s' & so' & E & Es & H & _);
      [vm_compute; done | vm_compute; done | vm_compute; done | split; vm_compute; done |].
    exists s', so'. split; [exact E |]. split; [exact Es |]. apply H. vm_compute. reflexivity.
  - destruct (tcp_acked_data_dropped _ _ _ _ (2 ^ 31 + 5) 4 (L (2 ^ 31 + 1))) as (s' & so' & E & Es & _ & H);
      [vm_compute; done | vm_compute; done | vm_compute; done | split; vm_compute; done |].
    exists s', so'. split; [exact E |]. split; [exact Es |]. apply H; vm_compute; done.
Defined.
